(* ===== verification/_CoqProject ===== *)
-Q . S2P
Prelude.v
Transitions.v
RunStore.v
Retry.v
StoreApi.v
Ownership.v
RunManager.v
RunManagerFacts.v
RunManagerProps.v
Release.v
ReleaseProps.v
Idempotency.v
Resolver.v
Outbox.v
Authorize.v
AuthorizeProps.v
ReleaseApi.v
PyString.v
Iam.v
OidcMapping.v
Auth.v
IamApi.v
IamProps.v
OidcProps.v
IamApiProps.v
AuthProps.v
PyList.v
PyAsync.v
EventStore.v
EventStoreDb.v
EventClients.v
Journal.v
JournalProps.v
JournalTotals.v
StreamBridge.v
LoopDetection.v
LoopProps.v
PyPath.v
Paths.v
LocalSandbox.v
SandboxTools.v
SandboxProps.v
SandboxIo.v
SandboxExamples.v
Serialization.v
Worker.v
WorkerProps.v
WorkerRollback.v
WorkerExamples.v
ThreadMeta.v
Sse.v
SseProps.v
Services.v
ServicesProps.v
ServiceExamples.v
RunApi.v
RunApiProps.v
RunApiExamples.v
RunStoreSql.v
LlmErrors.v
LlmErrorsProps.v
ToolCalls.v
ToolCallsProps.v
RedisBridge.v
RedisBridgeProps.v
EventStoreJsonl.v
EventStoreJsonlProps.v
Csrf.v
Accounts.v
AccountsProps.v
Disk.v
Uploads.v
UploadsProps.v
UploadsStored.v
AuditArchive.v
AuditArchiveProps.v
SandboxAudit.v
SandboxAuditProps.v
