(* ===== verification/Prelude.v ===== *)
(** * DeerNexus: a verification of its control plane

    DeerNexus runs LLM agents for several organizations (Orgs).  A gateway
    ([src/backend/app/gateway]) authenticates and authorizes requests and
    serves the release and audit APIs; a harness
    ([src/backend/packages/harness/deerflow]) keeps the runs, their owners and
    the tables.  This library models the parts that decide and keep state, and
    proves what each of them promises to the others.

    ** Parts, sources and files

    Below, H is [src/backend/packages/harness/deerflow] and G is
    [src/backend/app/gateway].

    - [Prelude]: results of calls that may raise, JSON values, Python
      dictionaries as association lists in insertion order, stable sorting,
      reachability, and the lemmas, tactics and hint databases shared by the
      other files.
    - [Transitions]: the run status machine (H/runtime/runs/transitions.py,
      schemas.py).
    - [RunStore]: the in-memory run store (H/runtime/runs/store/memory.py), all
      its reads, aggregations and compare-and-set writes.
    - [Retry]: the retry policy of persistence calls and the exception-graph
      search behind it (H/runtime/runs/manager.py).
    - [StoreApi]: the store contract (H/runtime/runs/store/base.py) as an
      interface: operations that may fail, with the laws the manager uses;
      the in-memory store discharges them.
    - [Ownership]: run leases in Redis (H/runtime/runs/ownership.py) with their
      Lua scripts, TTLs and keys.
    - [RunManager], [RunManagerFacts], [RunManagerProps]: the run manager
      (H/runtime/runs/manager.py), every public method as a function of the
      manager's registry, thread index and store, for any store that meets the
      contract and any pattern of store failures.
    - [Release], [ReleaseProps]: the agent release registry
      (H/persistence/release/repository.py, model.py, storage.py, digest.py):
      packages, immutable versions, channels moved by compare-and-set, events.
    - [Idempotency]: the promote/rollback pipeline of
      G/routers/agent_artifacts.py with H/persistence/release/idempotency.py:
      If-Match, Idempotency-Key, replay, conflict, the audit row of the same
      transaction, retention.
    - [Resolver]: what a run's pin resolves to (G/release_resolver.py).
    - [Outbox]: audit events, the transactional outbox and its worker
      (H/contracts/events.py, H/persistence/audit/outbox.py, repository.py,
      G/audit_worker.py), with a fault possible at every database call.
    - [Authorize], [AuthorizeProps]: the permission registry, the permission
      cache, the Authorize Service and the request gate
      (H/contracts/rbac.py, G/authorize_cache.py, G/authorize.py, G/rbac.py and
      the reads they make).
    - [ReleaseApi]: the promote and rollback endpoints of
      G/routers/agent_artifacts.py, from the decorator to the HTTP answer.
    - [PyString]: the string methods of Python the code below uses.
    - [Iam], [IamProps]: the IAM tables with their constraints, every operation
      of H/persistence/iam/repository.py, and the seeding of
      H/tenancy/bootstrap.py.
    - [OidcMapping], [OidcProps]: the group-mapping engine
      (H/tenancy/oidc_group_mapping.py).
    - [Auth], [AuthProps]: API keys, tokens, the authentication middleware and
      the tenant resolution (G/auth/api_key.py, oidc.py, jwt.py,
      G/auth_middleware.py, G/tenant.py).
    - [IamApi], [IamApiProps]: the 21 handlers of G/routers/iam.py, each as its
      sequence of database sessions, between which other requests run.
    - [PyList]: slices and binary searches of Python lists; [PyAsync]:
      coroutines, as computations over a schedule that says what happens at each
      await.
    - [EventStore]: the contract of a run event store
      (H/runtime/events/store/base.py) as a class with laws against the log of
      a thread, and the in-memory store (memory.py) as an instance;
      [EventStoreDb]: the database store (db.py) as another.
    - [EventClients]: the paginated message endpoints (G/pagination.py,
      G/routers/thread_runs.py, runs.py) against the contract, and the two
      stores compared.
    - [Journal], [JournalProps], [JournalTotals]: the run journal
      (H/runtime/journal.py) against the contract: its callbacks, buffer,
      background flushes, progress snapshots and totals, and its final flush as
      a coroutine.
    - [StreamBridge]: the in-process event stream of a run
      (H/runtime/stream_bridge/memory.py) and its subscribers.
    - [LoopDetection], [LoopProps]: the middleware that stops an agent which
      repeats its tool calls (H/agents/middlewares/loop_detection_middleware.py).
    - [PyPath], [Paths], [LocalSandbox], [SandboxTools], [SandboxProps],
      [SandboxIo], [SandboxExamples]: paths of Python and of the application
      (H/config/paths.py), the local sandbox with its path mappings
      (H/sandbox/local) and the file tools of the agent (H/sandbox/tools.py).
    - [Serialization] and [Worker], [WorkerProps], [WorkerRollback],
      [WorkerExamples]: the run worker (H/runtime/serialization.py,
      H/runtime/runs/worker.py), a coroutine.
    - [ThreadMeta]: the two thread metadata stores (H/persistence/thread_meta).
    - [Sse], [SseProps]: the event stream to a client (G/services.py,
      sse_consumer and what it revalidates); [Services], [ServicesProps],
      [ServiceExamples]: the start of a run; [RunApi], [RunApiProps],
      [RunApiExamples]: the run endpoints (G/routers/thread_runs.py, runs.py).
    - [RunStoreSql]: the SQL run store (H/persistence/run/sql.py), as a second
      implementation of the contract.
    - [LlmErrors], [LlmErrorsProps]: retries of model calls and their circuit
      breaker (H/agents/middlewares/llm_error_handling_middleware.py).
    - [ToolCalls], [ToolCallsProps]: the middlewares that keep the tool calls of
      a transcript well formed (dangling calls, parallel subagents, safety
      terminations).
    - [RedisBridge], [RedisBridgeProps]: the event stream in Redis
      (H/runtime/stream_bridge/redis.py), across replicas.
    - [EventStoreJsonl], [EventStoreJsonlProps]: the event store in files
      (H/runtime/events/store/jsonl.py).
    - [Csrf]: cross-site request protection (G/csrf_middleware.py,
      auth_disabled.py).
    - [Accounts], [AccountsProps]: local accounts, sessions and the login
      limiter (G/routers/auth.py, G/auth/local_provider.py, password.py,
      repositories/sqlite.py).
    - [Disk], [Uploads], [UploadsProps], [UploadsStored]: a file system with
      hard and symbolic links, and on it the uploads of a thread
      (H/uploads/manager.py, G/routers/uploads.py) with the conversion of
      documents (H/utils/file_conversion.py).
    - [AuditArchive], [AuditArchiveProps]: the daily archive of audit events and
      the pruning of replay records (G/audit_archive_worker.py,
      G/release_gc_worker.py) over an object store.
    - [SandboxAudit], [SandboxAuditProps]: the grading of shell commands
      (H/agents/middlewares/sandbox_audit_middleware.py) with its regular
      expressions and [shlex].

    The manager calls the store through [StoreApi] and the retry loop, and
    consults leases when it reconciles; the pipeline of [Idempotency] calls the
    channel moves of [Release], and [Resolver] reads what they committed;
    [ReleaseApi] puts the gate of [Authorize] in front of that pipeline; the
    Authorize Service reaches its cache only through the class
    [PermissionCache].  [IamApi] writes, under the same gate and with one audit
    row of [Outbox] per commit, the tables that [Authorize] reads through
    [view] and that [Auth] checks credentials against.  [Accounts] changes the
    users whose session cookies [Auth] checks.  [Services] starts, through the
    manager, the runs that [Worker] executes; [Worker] publishes to the bridge
    that [Sse] reads, and writes through the manager and the journal; the
    fallback messages of [LlmErrors] are what it recognises as failures.
    Tables and registries are records of dictionaries; an
    operation takes the state and returns its result and the new state, with
    the exceptions of the source as constructors of an error type.

    ** What the theorems show

    - Runs: an admitted run is the only active one of its thread; creation is
      atomic between registry and store whatever call fails; registered runs
      follow the status machine and keep their tenant and release pin; the
      index is exact; the startup reconciler fails exactly the orphans; every
      refusal leaves the state as it was; a status changes at most three times.
    - Store: compare-and-set has one winner; keyset pagination is complete;
      Org-scoped reads do not depend on other Orgs' rows.
    - Leases: exclusive while they last, powerless when stale, never taken for
      expired while live, keys that do not collide.
    - Retries: bounded attempts and delays; the search terminates on cyclic
      exception graphs and answers reachability.
    - Releases: published versions are frozen; channel, events and versions
      agree over any history; a move has one winner, is recorded once, and a
      repeated request replays; production resolves only to published versions.
    - Audit: no event is lost or stored twice, claims are disjoint, a drain
      empties a due backlog, delays are bounded.
    - Authorization: a forced decision is exactly the intersection formula on
      the tables; a cached one is a formula value stored less than 60 seconds
      ago for the same principal; invalidation revokes; refusals carry the code
      of the gate that refused; the gate isolates threads by Org and user; a
      promote that changes the tables was authorized and touches one channel.

    - IAM: the tables stay well formed over any interleaving of the sessions of
      requests, logins and bootstrap steps, when the generated ids are drawn for
      one Org each (a binding may outlive its service account); a change is
      committed with its one audit row or not at all; an Org's requests touch no
      other Org; the last administrator cannot be suspended; a revoked principal
      is refused at once, unless a permission computation for it was in flight,
      and then once that has been over for the lifetime of a cache entry; group
      mapping adds exactly the allowed bindings, its preview agrees with it and
      its repetition adds nothing.
    - Authentication: with authentication on, a request is stamped only on a
      proof, and else answered 401 or 403 or, on texts that cannot be compared,
      a 500; an API key alone decides when presented; a minted key authenticates
      as what it was minted for and a revoked one never again; the tenant of a
      request never comes from the client.

    - Events: following cursors reads every message once, on any store and
      while the thread grows, in boundedly many requests; the two stores answer
      alike after the same writes, on the queries their contract covers; over a
      store that writes a batch whole or not at all, the journal loses and
      repeats no event unless its flush is cancelled, and reorders none unless a
      callback comes during a flush; its flush returns, and its token totals add
      up; a stream subscriber gets the retained events in order, then the end,
      and resumes where it left.

    - Workers: a started run ends in a terminal status with its stream ended
      and its lease released, whatever fails and wherever it is cancelled; a
      rollback restores the checkpoint the run started from.
    - Requests: a run is started only on a thread the caller may use, and a
      refused start leaves no trace; the run endpoints reach only runs of the
      thread in their path; a stream shows a client only what it may see at
      that moment.
    - Sandbox: on a host whose symbolic links stay as they are and with mounts
      of absolute paths, file tools change only files of their thread and of
      writable mounts, and read only these, the other mounts and the skills;
      what is written is read back.
    - Middlewares: repeated calls are stopped; the breaker opens and closes
      exactly as configured and a model call ends after at most three attempts;
      a transcript sent to a model has one result for each call.
    - Further stores: the SQL and the in-memory run store answer alike; the
      JSONL files are a log that meets the event-store contract, apart from the
      atomicity of a batch, for records of one line and appends that leave no
      part of a line behind; a subscriber of the Redis bridge gets the events in
      order and once each.
    - Accounts: emails stay unique whatever interleaves; a changed password ends
      the sessions, as long as no login under way writes the old row back;
      guessing is throttled; a request that changes state proves
      where it comes from.
    - Uploads: whatever the sandbox does in the directory meanwhile, files
      elsewhere keep their data; a response stays within the limits; an
      undisturbed request without conversion of documents stores exactly what it
      was sent, under fresh names.
    - Archive: a watermark is backed by an object with the digest of the events
      it stands for, whatever fails; a closed window that fits in a batch is
      archived whole; both over an object store that keeps what is put.
    - Shell audit: the matcher finds exactly the texts of a pattern; commands are
      cut exactly at their operators; only commands free of high-risk patterns
      reach the shell, and every call is logged.

    Next to the theorems, Examples record where the code departs from what it
    or its comments intend, each on a concrete input.

    ** Bounds and fuel

    Recursions are structural, except these.  The search of [Retry] has fuel
    for four visits per exception of the graph, proved enough: it always
    answers, and the answer is reachability.  Following the cursors of a run
    listing takes one page per row and one more, which the pagination theorem
    proves enough.  The decimal digits of an ETag are generated with the binary
    logarithm as fuel, which the round trip proves enough.  A binary search has
    the length of its list; the flush of a journal one turn for each await that
    is disturbed, then one for each event of its buffer and one more, and its
    progress loop three turns more than disturbed awaits; the reader of an ended
    stream the length of its log and one more; each is proved enough.  The attempts of a model call have the largest
    retry budget as fuel, proved enough; the search for a free upload name has the
    number of names in use, proved enough, and the reading of an upload its length
    and one more.  A symbolic link is followed at most forty times, as the kernel
    does.  The loop of an event stream runs for any number of turns.  Python integers are [Z]; instants are
    microseconds and floats of seconds are scaled to them.  Random ids, clocks,
    SHA-256, bcrypt, the keyed hash of API keys, the JWT library, the JSON
    codecs, urlsplit, ipaddress, the resolution of symbolic links, the
    checkpointer, the object store, document converters and Redis are arguments,
    with what is used of them as named hypotheses or class laws.  In [Journal],
    [Worker], [Sse], [Accounts] and [AuditArchive] what other tasks do at an await is an
    argument too, and in [Uploads] what other processes do before a system call.

    ** Not modelled

    Each manager method is one step, and so are the start of a run ([Services])
    and each session of an IAM handler: calls that interleave at an await point
    inside one are not modelled, and neither are the tasks that shutdown waits
    for (which of them outlived the drain is an argument).  The resolution of
    symbolic links by the file tools is one fixed function: no process makes or
    changes a link meanwhile.  Reads of the JSONL store do not overlap writes.
    The SELECTs of one
    permission computation read one state of the tables.  Metrics and log lines
    are left out, and so is dialect-specific SQL: a statement has its effect on
    the tables and their constraints.  The agent graphs, the shell and search
    tools and remote sandboxes, MCP and model clients, chat channels,
    configuration, migrations, memory, skills, subagents, the remaining routers
    and middlewares, and the frontend are outside the library: they mostly call
    external services and processes, or rest on libraries whose behaviour would
    have to be assumed. *)
From stdpp Require Export base list gmap strings sorting.
From Stdlib Require Export ZArith Lia.
From Stdlib Require Import Ascii.

#[global] Set Default Goal Selector "!".

(** ** Results: the value of a Python call that may raise *)

Inductive result (E A : Type) : Type :=
| Ok (a : A)
| Err (e : E).
Arguments Ok {E A} _.
Arguments Err {E A} _.

Definition result_bind {E A B} (r : result E A) (f : A -> result E B) : result E B :=
  match r with
  | Ok a => f a
  | Err e => Err e
  end.

Declare Scope py_scope.
Delimit Scope py_scope with py.
Notation "'let!' x ':=' c 'in' k" := (result_bind c (fun x => k))
  (at level 10, x pattern, c at level 100, k at level 200) : py_scope.

Definition is_ok {E A} (r : result E A) : bool :=
  match r with Ok _ => true | Err _ => false end.

#[global] Instance result_eq_dec {E A} `{EqDecision E, EqDecision A} : EqDecision (result E A).
Proof. solve_decision. Defined.

(** ** Python values *)

(** JSON-shaped values: the contents of metadata, payload and manifest
    dictionaries.  [JIso t] is the ISO-8601 text of the instant [t]: every
    timestamp text of the program is [datetime.isoformat()] of a UTC instant,
    whose lexicographic order is the order of the instants. *)
Inductive json : Type :=
| JNull
| JBool (b : bool)
| JNum (z : Z)
| JStr (s : string)
| JIso (t : Z)
| JArr (l : list json)
| JObj (l : list (string * json)).

(** Truthiness of an optional string: [None] and [""] are falsy. *)
Definition truthy (s : option string) : bool :=
  match s with
  | None => false
  | Some s => negb (String.eqb s "")
  end.

(** Equality of values. *)
Definition json_eq (x y : json) : Decision (x = y).
Proof.
  revert x y. fix IH 1. intros x y. destruct x as [|b|z|s|t|l|l], y as [|b'|z'|s'|t'|l'|l']; try (right; discriminate).
  - left; reflexivity.
  - destruct (decide (b = b')) as [E|E]; [left; congruence|right; congruence].
  - destruct (decide (z = z')) as [E|E]; [left; congruence|right; congruence].
  - destruct (decide (s = s')) as [E|E]; [left; congruence|right; congruence].
  - destruct (decide (t = t')) as [E|E]; [left; congruence|right; congruence].
  - assert (D : Decision (l = l')); [|destruct D as [E|E]; [left; congruence|right; congruence]].
    revert l'. induction l as [|a l IHl]; intros [|a' l']; [left; reflexivity|right; discriminate|right; discriminate|].
    destruct (IH a a') as [E|E]; [|right; congruence]. destruct (IHl l') as [E'|E']; [left; congruence|right; congruence].
  - assert (D : Decision (l = l')); [|destruct D as [E|E]; [left; congruence|right; congruence]].
    revert l'. induction l as [|[k a] l IHl]; intros [|[k' a'] l']; [left; reflexivity|right; discriminate|right; discriminate|].
    destruct (decide (k = k')) as [Ek|Ek]; [|right; congruence].
    destruct (IH a a') as [E|E]; [|right; congruence]. destruct (IHl l') as [E'|E']; [left; congruence|right; congruence].
Defined.
#[global] Instance json_eq_dec : EqDecision json := json_eq.

(** [bool(v)]. *)
Definition json_truthy (v : json) : bool :=
  match v with
  | JNull => false
  | JBool b => b
  | JNum z => negb (z =? 0)%Z
  | JStr s => negb (String.eqb s "")
  | JIso _ => true
  | JArr l => match l with [] => false | _ => true end
  | JObj l => match l with [] => false | _ => true end
  end.

(** [a or b] on optional values whose only falsy value is [None]. *)
Definition opt_or {A} (o : option A) (d : A) : A :=
  match o with Some a => a | None => d end.

(** [v in (a, b, c)] on strings. *)
Definition str_in (s : string) (l : list string) : bool :=
  bool_decide (s ∈ l).

(** ** Python dictionaries: association lists in insertion order *)

Section dict.
Context {K V : Type} `{EqDecision K}.

Fixpoint dict_get (k : K) (d : list (K * V)) : option V :=
  match d with
  | [] => None
  | (k', v) :: d' => if decide (k = k') then Some v else dict_get k d'
  end.

(** Assignment keeps the position of an existing key and appends a new one. *)
Fixpoint dict_set (k : K) (v : V) (d : list (K * V)) : list (K * V) :=
  match d with
  | [] => [(k, v)]
  | (k', v') :: d' =>
      if decide (k = k') then (k', v) :: d' else (k', v') :: dict_set k v d'
  end.

Definition dict_pop (k : K) (d : list (K * V)) : list (K * V) :=
  base.filter (fun p => p.1 <> k) d.

Definition dict_mem (k : K) (d : list (K * V)) : bool :=
  match dict_get k d with Some _ => true | None => false end.

Definition dict_keys (d : list (K * V)) : list K := d.*1.
Definition dict_values (d : list (K * V)) : list V := d.*2.

(** Mutating the object stored under a key, when there is one. *)
Definition dict_alter (f : V -> V) (k : K) (d : list (K * V)) : list (K * V) :=
  match dict_get k d with
  | Some v => dict_set k (f v) d
  | None => d
  end.

(** [OrderedDict.move_to_end]. *)
Definition dict_move_to_end (k : K) (d : list (K * V)) : list (K * V) :=
  match dict_get k d with
  | Some v => dict_pop k d ++ [(k, v)]
  | None => d
  end.

(** A dictionary holds a key once. *)
Definition dict_wf (d : list (K * V)) : Prop := NoDup (dict_keys d).
End dict.

(** ** Stable sorting ([list.sort] with a key) *)

Section sort.
Context {A : Type} (leb : A -> A -> bool).

Fixpoint insert_by (x : A) (l : list A) : list A :=
  match l with
  | [] => [x]
  | y :: l' => if leb x y then x :: l else y :: insert_by x l'
  end.

Definition sort_by (l : list A) : list A := foldr insert_by [] l.
End sort.

(** Slices: [l[:n]] and [l[-n:]] with a Python integer bound. *)
Definition py_take {A} (n : Z) (l : list A) : list A :=
  if (n <? 0)%Z then take (length l - Z.to_nat (- n)) l else take (Z.to_nat n) l.

Definition py_last {A} (n : Z) (l : list A) : list A :=
  if (n <=? 0)%Z then drop (Z.to_nat (- n)) l else drop (length l - Z.to_nat n) l.

Definition sumZ (l : list Z) : Z := foldr Z.add 0%Z l.

(** A string without the separator of the key schemes. *)
Fixpoint no_colon (s : string) : bool :=
  match s with
  | EmptyString => true
  | String a s' => negb (Ascii.eqb a ":"%char) && no_colon s'
  end.

(** ** Reachability *)

Inductive star {S : Type} (step : S -> S -> Prop) : S -> S -> Prop :=
| star_refl s : star step s s
| star_step s1 s2 s3 : step s1 s2 -> star step s2 s3 -> star step s1 s3.
#[global] Hint Constructors star : core.

(** * Lemmas *)

(** A step invariant holds at every reachable state. *)
Lemma star_invariant {S : Type} (step : S -> S -> Prop) (I : S -> Prop) :
  (forall s s', step s s' -> I s -> I s') ->
  forall s s', star step s s' -> I s -> I s'.
Proof. intros HI s s' Hs. induction Hs; eauto. Qed.

Lemma star_trans {S : Type} (step : S -> S -> Prop) s1 s2 s3 :
  star step s1 s2 -> star step s2 s3 -> star step s1 s3.
Proof. induction 1; eauto. Qed.

(** A reflexive and transitive relation kept by each step holds across a run. *)
Lemma star_relation {S : Type} (step R : S -> S -> Prop) :
  (forall s, R s s) -> (forall a b c, R a b -> R b c -> R a c) ->
  (forall s s', step s s' -> R s s') ->
  forall s s', star step s s' -> R s s'.
Proof. intros Hr Ht Hs s s' H. induction H; eauto. Qed.

(** The same below an invariant of the steps. *)
Lemma star_relation_inv {S : Type} (step : S -> S -> Prop) (I : S -> Prop) (R : S -> S -> Prop) :
  (forall s, R s s) -> (forall a b c, R a b -> R b c -> R a c) ->
  (forall s s', step s s' -> I s -> I s' /\ R s s') ->
  forall s s', star step s s' -> I s -> I s' /\ R s s'.
Proof.
  intros Hr Ht Hs s s' H. induction H as [s|s1 s2 s3 Hstep _ IH]; intros HI; [auto|].
  destruct (Hs _ _ Hstep HI) as [HI2 HR]. destruct (IH HI2) as [HI3 HR3]. eauto.
Qed.

Lemma result_bind_Ok {E A B} (r : result E A) (f : A -> result E B) b :
  result_bind r f = Ok b <-> exists a, r = Ok a /\ f a = Ok b.
Proof.
  destruct r as [a|e]; simpl; split; intros H.
  - eauto.
  - by destruct H as (a' & [= ->] & H).
  - done.
  - by destruct H as (a' & ? & _).
Qed.

Lemma str_in_spec s l : str_in s l = true <-> s ∈ l.
Proof. unfold str_in. apply bool_decide_eq_true. Qed.

(** ** Dictionary lemmas *)

Section dict_lemmas.
Context {K V : Type} `{EqDecision K}.
Implicit Types (k : K) (v : V) (d : list (K * V)).

Lemma dict_get_set_eq k v d : dict_get k (dict_set k v d) = Some v.
Proof.
  induction d as [|[k' v'] d IH]; simpl; [by rewrite decide_True|].
  destruct (decide (k = k')); simpl; by repeat case_decide.
Qed.

Lemma dict_get_set_ne k k' v d : k <> k' -> dict_get k' (dict_set k v d) = dict_get k' d.
Proof.
  intros Hne. induction d as [|[k0 v0] d IH]; simpl.
  - by rewrite decide_False.
  - destruct (decide (k = k0)) as [->|]; simpl; repeat case_decide; congruence.
Qed.

Lemma dict_get_set k k' v d :
  dict_get k' (dict_set k v d) = if decide (k = k') then Some v else dict_get k' d.
Proof. case_decide; subst; auto using dict_get_set_eq, dict_get_set_ne. Qed.

Lemma dict_get_pop_eq k d : dict_get k (dict_pop k d) = None.
Proof.
  unfold dict_pop. induction d as [|[k' v'] d IH]; [done|].
  rewrite filter_cons. simpl. case_decide as Hk; simpl; [|done].
  by rewrite decide_False by congruence.
Qed.

Lemma dict_get_pop_ne k k' d : k <> k' -> dict_get k' (dict_pop k d) = dict_get k' d.
Proof.
  intros Hne. unfold dict_pop. induction d as [|[k0 v0] d IH]; [done|].
  rewrite filter_cons. simpl. case_decide as Hk; simpl.
  - by rewrite IH.
  - by rewrite decide_False by congruence.
Qed.

Lemma dict_get_pop k k' d :
  dict_get k' (dict_pop k d) = if decide (k = k') then None else dict_get k' d.
Proof. case_decide; subst; auto using dict_get_pop_eq, dict_get_pop_ne. Qed.

Lemma dict_get_Some_elem k v d : dict_get k d = Some v -> (k, v) ∈ d.
Proof.
  induction d as [|[k' v'] d IH]; simpl; [done|].
  case_decide; intros ?; simplify_eq; rewrite ?elem_of_cons; auto.
Qed.

Lemma dict_get_elem k v d : dict_wf d -> (k, v) ∈ d -> dict_get k d = Some v.
Proof.
  unfold dict_wf, dict_keys. induction d as [|[k' v'] d IH]; simpl; intros Hwf Hin.
  - by apply elem_of_nil in Hin.
  - apply NoDup_cons in Hwf as [Hnin Hwf]. apply elem_of_cons in Hin as [[= -> ->]|Hin].
    + by rewrite decide_True.
    + rewrite decide_False; [auto|]. intros ->. apply Hnin.
      apply list_elem_of_fmap. by exists (k', v).
Qed.

Lemma dict_get_None k d : dict_get k d = None <-> k ∉ dict_keys d.
Proof.
  unfold dict_keys. induction d as [|[k' v'] d IH]; simpl; [set_solver|].
  rewrite not_elem_of_cons. case_decide; subst; [naive_solver|]. rewrite IH. naive_solver.
Qed.

Lemma dict_keys_set k v d :
  dict_keys (dict_set k v d) =
    if dict_mem k d then dict_keys d else dict_keys d ++ [k].
Proof.
  unfold dict_mem, dict_keys. induction d as [|[k' v'] d IH]; csimpl; [done|].
  destruct (decide (k = k')) as [->|]; csimpl; [done|].
  rewrite IH. by destruct (dict_get k d).
Qed.

Lemma dict_wf_set k v d : dict_wf d -> dict_wf (dict_set k v d).
Proof.
  unfold dict_wf. rewrite dict_keys_set. unfold dict_mem.
  destruct (dict_get k d) eqn:E; [done|]. intros Hwf.
  apply NoDup_app. split; [done|]. split; [|apply NoDup_singleton].
  intros x Hx ->%list_elem_of_singleton. by apply dict_get_None in E.
Qed.

Lemma dict_wf_pop k d : dict_wf d -> dict_wf (dict_pop k d).
Proof.
  unfold dict_wf, dict_keys, dict_pop.
  induction d as [|[k' v'] d IH]; [done|]. rewrite filter_cons. simpl.
  intros [Hn Hd]%NoDup_cons. case_decide; simpl; [|auto].
  apply NoDup_cons. split; [|auto]. contradict Hn.
  apply list_elem_of_fmap in Hn as ([k1 v1] & -> & Hin).
  apply list_elem_of_filter in Hin as [_ Hin]. apply list_elem_of_fmap. by exists (k1, v1).
Qed.

Lemma dict_wf_nil : dict_wf (@nil (K * V)).
Proof. constructor. Qed.

Lemma dict_get_alter f k k' d :
  dict_get k' (dict_alter f k d) =
    if decide (k = k') then f <$> dict_get k d else dict_get k' d.
Proof.
  unfold dict_alter. destruct (dict_get k d) eqn:E.
  - rewrite dict_get_set. by case_decide.
  - case_decide; by subst.
Qed.

Lemma dict_keys_alter f k d : dict_keys (dict_alter f k d) = dict_keys d.
Proof.
  unfold dict_alter. destruct (dict_get k d) eqn:E; [|done].
  rewrite dict_keys_set. unfold dict_mem. by rewrite E.
Qed.

Lemma dict_wf_alter f k d : dict_wf d -> dict_wf (dict_alter f k d).
Proof. unfold dict_wf. by rewrite dict_keys_alter. Qed.

Lemma dict_values_elem v d : v ∈ dict_values d -> exists k, (k, v) ∈ d.
Proof.
  unfold dict_values. intros ([k v'] & -> & Hin)%list_elem_of_fmap. by exists k.
Qed.

Lemma dict_set_fresh k v d : dict_get k d = None -> dict_set k v d = d ++ [(k, v)].
Proof.
  induction d as [|[k' v'] d IH]; simpl; [done|]. case_decide; [done|]. intros. by rewrite IH.
Qed.

Lemma dict_set_set k v w d : dict_set k v (dict_set k w d) = dict_set k v d.
Proof.
  induction d as [|[k' v'] d IH]; simpl; [by rewrite decide_True|].
  destruct (decide (k = k')); simpl; [by rewrite decide_True|by rewrite decide_False, IH].
Qed.

Lemma dict_set_id k v d : dict_get k d = Some v -> dict_set k v d = d.
Proof.
  induction d as [|[k' v'] d IH]; simpl; [done|]. case_decide; intros; [by simplify_eq|].
  by rewrite IH.
Qed.

Lemma dict_pop_fresh k d : dict_get k d = None -> dict_pop k d = d.
Proof.
  unfold dict_pop. induction d as [|[k' v'] d IH]; [done|]. simpl. case_decide as Hk; [done|].
  intros Hg. rewrite filter_cons_True by (simpl; congruence). by rewrite IH.
Qed.

Lemma dict_pop_snoc k v d : dict_get k d = None -> dict_pop k (d ++ [(k, v)]) = d.
Proof.
  intros Hg. unfold dict_pop. rewrite filter_app.
  change (dict_pop k d ++ base.filter (fun p => p.1 <> k) [(k, v)] = d).
  rewrite dict_pop_fresh by done. rewrite filter_cons_False by (simpl; tauto).
  by rewrite filter_nil, app_nil_r.
Qed.

Lemma dict_length_pop_le k d : length (dict_pop k d) <= length d.
Proof. unfold dict_pop. apply length_filter. Qed.

Lemma dict_keys_elem k v d : (k, v) ∈ d -> k ∈ dict_keys d.
Proof. intros H. apply list_elem_of_fmap. by exists (k, v). Qed.

Lemma dict_get_is_Some k d : is_Some (dict_get k d) <-> k ∈ dict_keys d.
Proof.
  rewrite <-not_eq_None_Some, dict_get_None. split; [apply dec_stable|tauto].
Qed.

Lemma dict_length_set k v d : (length (dict_set k v d) <= S (length d))%nat.
Proof. induction d as [|[k' v'] d IH]; simpl; [lia|]. case_decide; simpl; lia. Qed.

Lemma dict_length_set_mem k v d : is_Some (dict_get k d) -> length (dict_set k v d) = length d.
Proof.
  induction d as [|[k' v'] d IH]; simpl; [by intros []|]. case_decide; simpl; [done|]. intros Hk. by rewrite IH.
Qed.

Lemma dict_length_pop_lt k d : is_Some (dict_get k d) -> (length (dict_pop k d) < length d)%nat.
Proof.
  intros [v Hv%dict_get_Some_elem]. unfold dict_pop. eapply length_filter_lt; [done|]. simpl. tauto.
Qed.

Lemma dict_length_move k d : dict_wf d -> (length (dict_move_to_end k d) <= length d)%nat.
Proof.
  intros _. unfold dict_move_to_end. destruct (dict_get k d) eqn:E; [|done].
  rewrite length_app. simpl. pose proof (dict_length_pop_lt k d ltac:(by eexists)). lia.
Qed.

Lemma dict_get_snoc k v d k' :
  dict_get k d = None -> dict_get k' (d ++ [(k, v)]) = if decide (k = k') then Some v else dict_get k' d.
Proof. intros H. rewrite <-(dict_set_fresh k v d) by done. apply dict_get_set. Qed.

Lemma dict_get_move k k' d : dict_get k' (dict_move_to_end k d) = dict_get k' d.
Proof.
  unfold dict_move_to_end. destruct (dict_get k d) eqn:E; [|done].
  rewrite dict_get_snoc by apply dict_get_pop_eq. rewrite dict_get_pop. case_decide; congruence.
Qed.

Lemma dict_wf_snoc k v d : dict_wf d -> dict_get k d = None -> dict_wf (d ++ [(k, v)]).
Proof. intros ??. rewrite <-dict_set_fresh by done. by apply dict_wf_set. Qed.

Lemma dict_wf_move k d : dict_wf d -> dict_wf (dict_move_to_end k d).
Proof.
  intros Hd. unfold dict_move_to_end. destruct (dict_get k d); [|done].
  apply dict_wf_snoc; [by apply dict_wf_pop|apply dict_get_pop_eq].
Qed.

Lemma dict_get_tail k k' v d : dict_wf ((k, v) :: d) ->
  dict_get k' d = if decide (k = k') then None else dict_get k' ((k, v) :: d).
Proof.
  intros [Hn _]%NoDup_cons. simpl. case_decide as Hk; subst; [by apply dict_get_None|].
  by rewrite decide_False by congruence.
Qed.
End dict_lemmas.

(** ** Sorting lemmas *)

Section sort_lemmas.
Context {A : Type} (leb : A -> A -> bool).
Hypothesis leb_total : forall x y, leb x y = true \/ leb y x = true.
Hypothesis leb_trans : forall x y z, leb x y = true -> leb y z = true -> leb x z = true.

Abbreviation le := (fun x y => leb x y = true).

Lemma insert_by_perm x l : insert_by leb x l ≡ₚ x :: l.
Proof.
  induction l as [|y l IH]; simpl; [done|]. destruct (leb x y); [done|].
  rewrite IH. constructor.
Qed.

Lemma sort_by_perm l : sort_by leb l ≡ₚ l.
Proof.
  induction l as [|x l IH]; simpl; [done|]. by rewrite insert_by_perm, IH.
Qed.

Lemma insert_by_sorted x l :
  StronglySorted le l -> StronglySorted le (insert_by leb x l).
Proof using leb_total leb_trans.
  induction 1 as [|y l Hl IH Hy]; simpl; [repeat constructor|].
  destruct (leb x y) eqn:E.
  - constructor; [by constructor|]. constructor; [done|].
    eapply Forall_impl; [done|]. simpl. eauto.
  - constructor; [done|]. rewrite insert_by_perm. constructor; [|done].
    destruct (leb_total x y); congruence.
Qed.

Lemma sort_by_sorted l : StronglySorted le (sort_by leb l).
Proof using leb_total leb_trans.
  induction l as [|x l IH]; simpl; [constructor|]. by apply insert_by_sorted.
Qed.

Lemma sort_by_elem x l : x ∈ sort_by leb l <-> x ∈ l.
Proof. by rewrite sort_by_perm. Qed.

Lemma sort_by_length l : length (sort_by leb l) = length l.
Proof. by rewrite sort_by_perm. Qed.
End sort_lemmas.

Lemma string_leb_refl x : String.leb x x = true.
Proof. destruct (String.leb_total x x); done. Qed.

Lemma string_leb_trans x y z :
  String.leb x y = true -> String.leb y z = true -> String.leb x z = true.
Proof.
  intros Hxy Hyz. apply Is_true_true.
  change (String.le x z). etrans; (apply Is_true_true; eassumption).
Qed.

#[global] Instance string_leb_antisym : AntiSymm (=) (fun x y => String.leb x y = true).
Proof. intros x y Hx Hy. by apply String.leb_antisym. Qed.

Lemma sort_strings_perm l1 l2 : l1 ≡ₚ l2 -> sort_by String.leb l1 = sort_by String.leb l2.
Proof.
  intros Hp. apply (StronglySorted_unique (fun x y => String.leb x y = true)).
  - apply sort_by_sorted; [apply String.leb_total|apply string_leb_trans].
  - apply sort_by_sorted; [apply String.leb_total|apply string_leb_trans].
  - by rewrite !sort_by_perm.
Qed.

(** ** Lists and slices *)

Lemma filter_all {A} (p : A -> bool) l : Forall (fun x => p x = true) l -> List.filter p l = l.
Proof. induction 1; simpl; [done|]. case_match; congruence. Qed.

Lemma filter_none {A} (p : A -> bool) l : Forall (fun x => p x = false) l -> List.filter p l = [].
Proof. induction 1; simpl; [done|]. case_match; congruence. Qed.

Lemma Permutation_list_filter {A} (p : A -> bool) l1 l2 :
  l1 ≡ₚ l2 -> List.filter p l1 ≡ₚ List.filter p l2.
Proof. induction 1; simpl; repeat case_match; eauto using perm_swap, perm_trans. Qed.

Lemma py_take_nonneg {A} n (l : list A) : (0 <= n)%Z -> py_take n l = take (Z.to_nat n) l.
Proof. intros. unfold py_take. rewrite (proj2 (Z.ltb_ge _ _)); [done|lia]. Qed.

Lemma length_py_take {A} n (l : list A) : (0 <= n)%Z -> (Z.of_nat (length (py_take n l)) <= n)%Z.
Proof. intros. rewrite py_take_nonneg, length_take by done. lia. Qed.

Lemma py_last_pos {A} n (l : list A) : (0 < n)%Z -> py_last n l = drop (length l - Z.to_nat n) l.
Proof. intros. unfold py_last. rewrite (proj2 (Z.leb_gt _ _)); [done|lia]. Qed.

Lemma py_take_elem {A} n (l : list A) x : x ∈ py_take n l -> x ∈ l.
Proof.
  unfold py_take. case_match; intros Hx;
    by eapply elem_of_sublist, sublist_take.
Qed.

Lemma sumZ_app l1 l2 : sumZ (l1 ++ l2) = (sumZ l1 + sumZ l2)%Z.
Proof. induction l1; simpl; unfold sumZ in *; simpl; lia. Qed.

Lemma sumZ_cons x l : sumZ (x :: l) = (x + sumZ l)%Z.
Proof. done. Qed.

Lemma sumZ_nil : sumZ [] = 0%Z.
Proof. done. Qed.
#[global] Arguments sumZ : simpl never.

Lemma dict_set_sum {V} (g : V -> Z) k v (m : list (string * V)) :
  sumZ ((fun p => g p.2) <$> dict_set k v m)
  = (sumZ ((fun p => g p.2) <$> m) + g v - opt_or (g <$> dict_get k m) 0)%Z.
Proof.
  induction m as [|[k' v'] m IH]; simpl; [rewrite ?sumZ_cons, ?sumZ_nil; simpl; lia|].
  case_decide; csimpl; rewrite !sumZ_cons; [simpl; lia|]. rewrite IH. lia.
Qed.


(** ** Automation *)

Create HintDb py.
#[export] Hint Resolve dict_wf_set dict_wf_pop dict_wf_alter dict_wf_nil dict_wf_move : py.
#[export] Hint Rewrite @dict_get_set_eq @dict_get_pop_eq : py.

(** Case analysis on the tests of a definition, then substitution. *)
Ltac split_tests :=
  repeat match goal with
  | H : context [match ?x with _ => _ end] |- _ => destruct x eqn:?; simplify_eq/=
  | |- context [match ?x with _ => _ end] => destruct x eqn:?; simplify_eq/=
  end.

(** Boolean tests of the code into the propositions they decide. *)
Ltac reflect_bools :=
  repeat match goal with
  | H : (_ && _)%bool = true |- _ => apply andb_true_iff in H as [? ?]
  | H : (_ || _)%bool = false |- _ => apply orb_false_iff in H as [? ?]
  | H : negb _ = true |- _ => apply negb_true_iff in H
  | H : negb _ = false |- _ => apply negb_false_iff in H
  | H : String.eqb _ _ = true |- _ => apply String.eqb_eq in H
  | H : String.eqb _ _ = false |- _ => apply String.eqb_neq in H
  | H : Z.eqb _ _ = true |- _ => apply Z.eqb_eq in H
  | H : Z.eqb _ _ = false |- _ => apply Z.eqb_neq in H
  | H : Z.leb _ _ = true |- _ => apply Z.leb_le in H
  | H : Z.leb _ _ = false |- _ => apply Z.leb_gt in H
  | H : Z.ltb _ _ = true |- _ => apply Z.ltb_lt in H
  | H : Z.ltb _ _ = false |- _ => apply Z.ltb_ge in H
  | H : bool_decide _ = true |- _ => apply bool_decide_eq_true in H
  | H : bool_decide _ = false |- _ => apply bool_decide_eq_false in H
  end.

(** ** Separated strings *)

Lemma colon_split s1 s2 t1 t2 :
  no_colon s1 = true -> no_colon s2 = true ->
  s1 +:+ ":" +:+ t1 = s2 +:+ ":" +:+ t2 -> s1 = s2 /\ t1 = t2.
Proof.
  revert s2. induction s1 as [|x a IH]; intros [|y c] Ha Hc Heq; simpl in *; simplify_eq/=; try done.
  apply andb_true_iff in Ha as [? Ha]. apply andb_true_iff in Hc as [? Hc].
  destruct (IH c Ha Hc) as [-> ->]; done.
Qed.

Lemma no_colon_join a b : no_colon (a +:+ ":" +:+ b) = false.
Proof. induction a as [|x a IH]; simpl; [done|]. rewrite IH. apply andb_false_r. Qed.
