(* ===== verification/Transitions.v ===== *)
(** * Run lifecycle state machine

    [runtime/runs/schemas.py] (status vocabulary) and
    [runtime/runs/transitions.py] (terminal set, table of legal edges, guard).
    The guard works on status texts, as in the source, so that the branch for
    an unknown source status is part of the model. *)
From S2P Require Import Prelude.

(** ** Vocabulary *)

Inductive RunStatus : Type :=
| RS_pending
| RS_running
| RS_success
| RS_error
| RS_timeout
| RS_interrupted.

Inductive DisconnectMode : Type :=
| DM_cancel
| DM_continue.

#[global] Instance RunStatus_eq_dec : EqDecision RunStatus.
Proof. solve_decision. Defined.

(** [RunStatus.value]. *)
Definition status_value (s : RunStatus) : string :=
  match s with
  | RS_pending => "pending"
  | RS_running => "running"
  | RS_success => "success"
  | RS_error => "error"
  | RS_timeout => "timeout"
  | RS_interrupted => "interrupted"
  end.

(** [RunStatus(text)], [None] where the enum call raises [ValueError]. *)
Definition status_of (s : string) : option RunStatus :=
  if String.eqb s "pending" then Some RS_pending
  else if String.eqb s "running" then Some RS_running
  else if String.eqb s "success" then Some RS_success
  else if String.eqb s "error" then Some RS_error
  else if String.eqb s "timeout" then Some RS_timeout
  else if String.eqb s "interrupted" then Some RS_interrupted
  else None.

(** ** Transition table and guard *)

Definition TERMINAL_RUN_STATUSES : list string :=
  ["success"; "error"; "timeout"; "interrupted"].

Definition LEGAL_RUN_TRANSITIONS : list (string * list string) :=
  [("pending", ["running"; "success"; "error"; "timeout"; "interrupted"]);
   ("running", ["success"; "error"; "timeout"; "interrupted"]);
   ("interrupted", ["error"]);
   ("success", []);
   ("error", []);
   ("timeout", [])].

Inductive transition_error : Type :=
| UnknownRunStatus (current target : string)
| IllegalRunTransition (current target : string).

Definition assert_run_transition (current target : string) : result transition_error unit :=
  if String.eqb current target then Ok tt
  else
    match dict_get current LEGAL_RUN_TRANSITIONS with
    | None => Err (UnknownRunStatus current target)
    | Some allowed =>
        if str_in target allowed then Ok tt
        else Err (IllegalRunTransition current target)
    end.

Definition is_terminal_run_status (status : string) : bool :=
  str_in status TERMINAL_RUN_STATUSES.

(** [record.status in (RunStatus.pending, RunStatus.running)]. *)
Definition is_inflight (s : RunStatus) : bool :=
  match s with
  | RS_pending | RS_running => true
  | _ => false
  end.

(** One accepted write of the guard, on typed statuses. *)
Definition run_edge (s s' : RunStatus) : Prop :=
  is_ok (assert_run_transition (status_value s) (status_value s')) = true.

#[global] Instance run_edge_dec s s' : Decision (run_edge s s').
Proof. unfold run_edge. apply _. Defined.

(** A sequence of writes accepted by the guard that each change the status. *)
Fixpoint run_path (s : RunStatus) (l : list RunStatus) : Prop :=
  match l with
  | [] => True
  | s' :: l' => s <> s' /\ run_edge s s' /\ run_path s' l'
  end.

(** * Lemmas *)

Lemma status_of_value s : status_of (status_value s) = Some s.
Proof. by destruct s. Qed.

Lemma status_value_inj s s' : status_value s = status_value s' -> s = s'.
Proof. intros H. apply (f_equal status_of) in H. rewrite !status_of_value in H. congruence. Qed.

Lemma status_of_Some x s : status_of x = Some s -> x = status_value s.
Proof. unfold status_of. intros H. split_tests; reflect_bools; by subst. Qed.

Lemma is_terminal_inflight s : is_terminal_run_status (status_value s) = negb (is_inflight s).
Proof. by destruct s. Qed.

Lemma run_edge_refl s : run_edge s s.
Proof. by destruct s. Qed.

Lemma run_edge_to_terminal s s' : run_edge s s' -> is_inflight s = false -> is_inflight s' = false.
Proof. by destruct s, s'. Qed.

Lemma run_edge_interrupt s : is_inflight s = true -> run_edge s RS_interrupted.
Proof. by destruct s. Qed.

(** Number of state changes still ahead of a status. *)
Definition status_rank (s : RunStatus) : nat :=
  match s with
  | RS_pending => 3
  | RS_running => 2
  | RS_interrupted => 1
  | _ => 0
  end.

Lemma run_edge_rank s s' : run_edge s s' -> s <> s' -> status_rank s' < status_rank s.
Proof. destruct s, s'; cbn; intros H Hn; try lia; try done; by vm_compute in H. Qed.

#[export] Hint Resolve run_edge_refl run_edge_interrupt : py.

(** ** Properties *)

(** Terminal immutability.  From a terminal status the guard accepts only
    the idempotent re-confirmation and the documented re-classification of
    [interrupted] as [error]; every accepted target is again terminal, so no
    accepted write revives a finished run. *)
Theorem terminal_run_never_revived (current target : string) :
  is_terminal_run_status current = true ->
  assert_run_transition current target = Ok tt ->
  (target = current \/ current = "interrupted" /\ target = "error")
  /\ is_terminal_run_status target = true.
Proof.
  intros Hterm%str_in_spec Hok. unfold TERMINAL_RUN_STATUSES in Hterm.
  rewrite !elem_of_cons, elem_of_nil in Hterm.
  unfold assert_run_transition in Hok.
  destruct (String.eqb_spec current target) as [<-|Hne].
  - split; [by left|]. by destruct_or! Hterm; subst.
  - destruct_or! Hterm; subst; simpl in Hok; try done.
    revert Hok. case_match eqn:E; [|done]. intros _.
    apply str_in_spec, list_elem_of_singleton in E as ->. split; [by right|done].
Qed.

Lemma terminal_run_never_revived_witness :
  is_terminal_run_status "interrupted" = true
  /\ assert_run_transition "interrupted" "error" = Ok tt
  /\ is_terminal_run_status "error" = true.
Proof.
  assert (H1 : is_terminal_run_status "interrupted" = true) by (vm_compute; reflexivity).
  assert (H2 : assert_run_transition "interrupted" "error" = Ok tt) by (vm_compute; reflexivity).
  exact (conj H1 (conj H2 (proj2 (terminal_run_never_revived "interrupted" "error" H1 H2)))).
Defined.

(** Bounded lifecycle.  A run changes its status at most three times
    under the guard: every sequence of accepted, status-changing writes has
    length at most three, whatever the first status is. *)
Theorem run_lifecycle_bounded (s : RunStatus) (l : list RunStatus) :
  run_path s l -> length l <= 3.
Proof.
  assert (forall l s, run_path s l -> length l <= status_rank s) as Hrank.
  { clear. induction l as [|s' l IH]; intros s; simpl; [lia|].
    intros (Hne & He & Hp). specialize (IH _ Hp).
    pose proof (run_edge_rank _ _ He Hne). lia. }
  intros H. specialize (Hrank _ _ H). destruct s; simpl in Hrank; lia.
Qed.

Lemma run_lifecycle_bounded_witness :
  run_path RS_pending [RS_running; RS_interrupted; RS_error]
  /\ length [RS_running; RS_interrupted; RS_error] <= 3.
Proof.
  assert (H : run_path RS_pending [RS_running; RS_interrupted; RS_error])
    by (repeat split; vm_compute; done).
  exact (conj H (run_lifecycle_bounded _ _ H)).
Defined.
