(* ===== verification/RunStore.v ===== *)
(** * The run store

    [runtime/runs/store/memory.py], class [MemoryRunStore]: the persisted run
    rows, their compare-and-set writes, the persisted cancel intent, and the
    listings and aggregations of the console.  [self._runs] is an
    insertion-ordered dictionary of rows; the clock is the argument [now] of
    the operations that read it. *)
From S2P Require Import Prelude.
From Stdlib Require Import QArith.
#[local] Close Scope Q_scope.

(** ** Rows *)

(** The frozen execution identity of a run (ReleaseRef pin). *)
Record release_pin : Type := mk_release_pin {
  pin_package_id : option string;
  pin_version_id : option string;
  pin_channel : option string;
  pin_digest : option string;
  pin_legacy_unpinned : bool
}.

(** One row.  [row_usage] holds the keys that only the completion and progress
    writes add (token counters, message counters, last messages). *)
Record run_row : Type := mk_run_row {
  row_run_id : string;
  row_thread_id : string;
  row_assistant_id : option string;
  row_user_id : option string;
  row_org_id : option string;
  row_model_name : option string;
  row_status : string;
  row_multitask_strategy : string;
  row_metadata : list (string * json);
  row_kwargs : list (string * json);
  row_error : option string;
  row_created_at : Z;
  row_updated_at : Z;
  row_version : Z;
  row_cancel_requested : bool;
  row_cancel_action : option string;
  row_cancel_requested_at : option Z;
  row_release : release_pin;
  row_usage : list (string * json)
}.

(** Keyword arguments of [put]. *)
Record put_args : Type := mk_put_args {
  put_thread_id : string;
  put_assistant_id : option string;
  put_user_id : option string;
  put_org_id : option string;
  put_model_name : option string;
  put_status : string;
  put_multitask_strategy : string;
  put_metadata : option (list (string * json));
  put_kwargs : option (list (string * json));
  put_error : option string;
  put_created_at : option Z;
  put_release : release_pin
}.

(** Keyword arguments of the completion and progress writes: the usage keys
    with their optional values, and [error]. *)
Record completion_args : Type := mk_completion_args {
  comp_error : option string;
  comp_usage : list (string * option json)
}.

Abbreviation run_store := (list (string * run_row)).

(** ** Row updates *)

Definition set_row_status (status : string) (error : option string) (now : Z) (r : run_row) : run_row :=
  mk_run_row (row_run_id r) (row_thread_id r) (row_assistant_id r) (row_user_id r)
    (row_org_id r) (row_model_name r) status (row_multitask_strategy r)
    (row_metadata r) (row_kwargs r)
    (match error with Some e => Some e | None => row_error r end)
    (row_created_at r) now (row_version r) (row_cancel_requested r)
    (row_cancel_action r) (row_cancel_requested_at r) (row_release r) (row_usage r).

Definition bump_row_version (r : run_row) : run_row :=
  mk_run_row (row_run_id r) (row_thread_id r) (row_assistant_id r) (row_user_id r)
    (row_org_id r) (row_model_name r) (row_status r) (row_multitask_strategy r)
    (row_metadata r) (row_kwargs r) (row_error r) (row_created_at r) (row_updated_at r)
    (row_version r + 1)%Z (row_cancel_requested r)
    (row_cancel_action r) (row_cancel_requested_at r) (row_release r) (row_usage r).

Definition set_row_usage (usage : list (string * json)) (r : run_row) : run_row :=
  mk_run_row (row_run_id r) (row_thread_id r) (row_assistant_id r) (row_user_id r)
    (row_org_id r) (row_model_name r) (row_status r) (row_multitask_strategy r)
    (row_metadata r) (row_kwargs r) (row_error r) (row_created_at r) (row_updated_at r)
    (row_version r) (row_cancel_requested r)
    (row_cancel_action r) (row_cancel_requested_at r) (row_release r) usage.

Definition set_row_model (model : option string) (now : Z) (r : run_row) : run_row :=
  mk_run_row (row_run_id r) (row_thread_id r) (row_assistant_id r) (row_user_id r)
    (row_org_id r) model (row_status r) (row_multitask_strategy r)
    (row_metadata r) (row_kwargs r) (row_error r) (row_created_at r) now
    (row_version r) (row_cancel_requested r)
    (row_cancel_action r) (row_cancel_requested_at r) (row_release r) (row_usage r).

Definition set_row_cancel (action : string) (now : Z) (r : run_row) : run_row :=
  mk_run_row (row_run_id r) (row_thread_id r) (row_assistant_id r) (row_user_id r)
    (row_org_id r) (row_model_name r) (row_status r) (row_multitask_strategy r)
    (row_metadata r) (row_kwargs r) (row_error r) (row_created_at r) (row_updated_at r)
    (row_version r) true (Some action) (Some now) (row_release r) (row_usage r).

(** [for key, value in kwargs.items(): if value is not None: run[key] = value]. *)
Definition merge_usage (patch : list (string * option json)) (u : list (string * json)) :
    list (string * json) :=
  foldl (fun u kv => match kv.2 with Some v => dict_set kv.1 v u | None => u end) u patch.

(** [value if value is not None else existing]. *)
Definition keep_pin_field (value existing : option string) : option string :=
  match value with Some v => Some v | None => existing end.

Definition merge_pin (p : release_pin) (existing : option run_row) : release_pin :=
  match existing with
  | None => p
  | Some r =>
      mk_release_pin
        (keep_pin_field (pin_package_id p) (pin_package_id (row_release r)))
        (keep_pin_field (pin_version_id p) (pin_version_id (row_release r)))
        (keep_pin_field (pin_channel p) (pin_channel (row_release r)))
        (keep_pin_field (pin_digest p) (pin_digest (row_release r)))
        (pin_legacy_unpinned p)
  end.

(** ** Writes *)

(** [MemoryRunStore.put]. *)
Definition store_put (run_id : string) (a : put_args) (now : Z) (s : run_store) : run_store :=
  let existing := dict_get run_id s in
  let org_id :=
    match existing, put_org_id a with
    | Some r, None => row_org_id r
    | _, o => o
    end in
  dict_set run_id
    (mk_run_row run_id (put_thread_id a) (put_assistant_id a) (put_user_id a) org_id
       (put_model_name a) (put_status a) (put_multitask_strategy a)
       (opt_or (put_metadata a) []) (opt_or (put_kwargs a) []) (put_error a)
       (opt_or (put_created_at a) now) now
       (match existing with Some r => row_version r | None => 1%Z end)
       (match existing with Some r => row_cancel_requested r | None => false end)
       (match existing with Some r => row_cancel_action r | None => None end)
       (match existing with Some r => row_cancel_requested_at r | None => None end)
       (merge_pin (put_release a) existing) []) s.

(** The compare-and-set test shared by the two terminal writes. *)
Definition cas_matches (expected : option Z) (r : run_row) : bool :=
  match expected with
  | None => true
  | Some v => Z.eqb (row_version r) v
  end.

Definition cas_bump (expected : option Z) (r : run_row) : run_row :=
  match expected with
  | None => r
  | Some _ => bump_row_version r
  end.

(** [MemoryRunStore.update_status]. *)
Definition store_update_status (run_id status : string) (error : option string)
    (expected : option Z) (now : Z) (s : run_store) : bool * run_store :=
  match dict_get run_id s with
  | None => (false, s)
  | Some r =>
      if cas_matches expected r
      then (true, dict_set run_id (cas_bump expected (set_row_status status error now r)) s)
      else (false, s)
  end.

(** [MemoryRunStore.update_model_name]. *)
Definition store_update_model_name (run_id : string) (model : option string) (now : Z)
    (s : run_store) : run_store :=
  dict_alter (set_row_model model now) run_id s.

(** [MemoryRunStore.delete]. *)
Definition store_delete (run_id : string) (org_id : option string) (s : run_store) : run_store :=
  match dict_get run_id s with
  | None => s
  | Some r =>
      match org_id with
      | Some o => if bool_decide (row_org_id r = Some o) then dict_pop run_id s else s
      | None => dict_pop run_id s
      end
  end.

(** [MemoryRunStore.update_run_completion]. *)
Definition store_update_run_completion (run_id status : string) (a : completion_args)
    (expected : option Z) (now : Z) (s : run_store) : bool * run_store :=
  match dict_get run_id s with
  | None => (false, s)
  | Some r =>
      if cas_matches expected r
      then
        let r1 := set_row_status status (comp_error a) now r in
        let r2 := set_row_usage (merge_usage (comp_usage a) (row_usage r1)) r1 in
        (true, dict_set run_id (cas_bump expected r2) s)
      else (false, s)
  end.

(** [MemoryRunStore.update_run_progress]. *)
Definition store_update_run_progress (run_id : string) (usage : list (string * option json))
    (now : Z) (s : run_store) : run_store :=
  match dict_get run_id s with
  | None => s
  | Some r =>
      if String.eqb (row_status r) "running"
      then
        dict_set run_id
          (set_row_usage (merge_usage usage (row_usage r))
             (set_row_status (row_status r) None now r)) s
      else s
  end.

(** [MemoryRunStore.request_cancel]. *)
Definition store_request_cancel (run_id action : string) (now : Z) (s : run_store) :
    bool * run_store :=
  match dict_get run_id s with
  | None => (false, s)
  | Some r =>
      if negb (str_in (row_status r) ["pending"; "running"]) then (false, s)
      else if row_cancel_requested r then (false, s)
      else (true, dict_set run_id (set_row_cancel action now r) s)
  end.

(** ** Reads *)

(** [MemoryRunStore.get]. *)
Definition store_get (run_id : string) (org_id : option string) (s : run_store) : option run_row :=
  match dict_get run_id s with
  | None => None
  | Some r =>
      match org_id with
      | Some o => if bool_decide (row_org_id r = Some o) then Some r else None
      | None => Some r
      end
  end.

(** [MemoryRunStore.get_cancel_intent]. *)
Definition store_get_cancel_intent (run_id : string) (s : run_store) :
    option (bool * option string) :=
  match dict_get run_id s with
  | None => None
  | Some r => Some (row_cancel_requested r, row_cancel_action r)
  end.

(** The sort key [(created_at, run_id)], compared lexicographically. *)
Definition row_key (r : run_row) : Z * string := (row_created_at r, row_run_id r).

Definition key_ltb (a b : Z * string) : bool :=
  (a.1 <? b.1)%Z || (Z.eqb a.1 b.1 && String.ltb a.2 b.2).

Definition key_leb (a b : Z * string) : bool :=
  (a.1 <? b.1)%Z || (Z.eqb a.1 b.1 && String.leb a.2 b.2).

(** Newest first. *)
Definition newest_first (r1 r2 : run_row) : bool := key_leb (row_key r2) (row_key r1).

(** [(org_id is None or r.get("org_id") == org_id)]. *)
Definition org_matches (org_id : option string) (r : run_row) : bool :=
  match org_id with
  | None => true
  | Some o => bool_decide (row_org_id r = Some o)
  end.

(** [MemoryRunStore.list_by_thread]. *)
Definition store_list_by_thread (thread_id : string) (org_id : option string) (limit : Z)
    (s : run_store) : list run_row :=
  let results :=
    List.filter (fun r => String.eqb (row_thread_id r) thread_id && org_matches org_id r)
      (dict_values s) in
  py_take limit (sort_by newest_first results).

Definition oldest_first (r1 r2 : run_row) : bool := (row_created_at r1 <=? row_created_at r2)%Z.

(** [MemoryRunStore.list_pending]. *)
Definition store_list_pending (before : option Z) (now : Z) (s : run_store) : list run_row :=
  let until := opt_or before now in
  sort_by oldest_first
    (List.filter (fun r => String.eqb (row_status r) "pending" && (row_created_at r <=? until)%Z)
       (dict_values s)).

(** [MemoryRunStore.list_inflight]. *)
Definition store_list_inflight (before : option Z) (now : Z) (s : run_store) : list run_row :=
  let until := opt_or before now in
  sort_by oldest_first
    (List.filter (fun r => str_in (row_status r) ["pending"; "running"]
                           && (row_created_at r <=? until)%Z)
       (dict_values s)).

(** ** Aggregations *)

(** [r.get(key, 0)] on a counter. *)
Definition usage_int (key : string) (r : run_row) : Z :=
  match dict_get key (row_usage r) with
  | Some (JNum z) => z
  | _ => 0%Z
  end.

Definition json_int (key : string) (j : json) : Z :=
  match j with
  | JObj l => match dict_get key l with Some (JNum z) => z | _ => 0%Z end
  | _ => 0%Z
  end.

(** [r.get("token_usage_by_model") or {}]. *)
Definition usage_by_model (r : run_row) : list (string * json) :=
  match dict_get "token_usage_by_model" (row_usage r) with
  | Some (JObj l) => l
  | _ => []
  end.

(** [by_model.setdefault(model, {...})] then the two increments. *)
Definition add_model (model : string) (tokens : Z) (by_model : list (string * (Z * Z))) :
    list (string * (Z * Z)) :=
  let '(t, n) := opt_or (dict_get model by_model) (0%Z, 0%Z) in
  dict_set model (t + tokens, n + 1)%Z by_model.

(** [r.get("model_name") or "unknown"]. *)
Definition model_or_unknown (r : run_row) : string :=
  match row_model_name r with
  | Some m => if truthy (Some m) then m else "unknown"
  | None => "unknown"
  end.

Definition add_run_by_model (by_model : list (string * (Z * Z))) (r : run_row) :
    list (string * (Z * Z)) :=
  match usage_by_model r with
  | [] => add_model (model_or_unknown r) (usage_int "total_tokens" r) by_model
  | l => foldl (fun b mu => add_model mu.1 (json_int "total_tokens" mu.2) b) by_model l
  end.

Record token_aggregate : Type := mk_token_aggregate {
  agg_total_tokens : Z;
  agg_total_input_tokens : Z;
  agg_total_output_tokens : Z;
  agg_total_runs : Z;
  agg_by_model : list (string * (Z * Z));
  agg_lead_agent : Z;
  agg_subagent : Z;
  agg_middleware : Z
}.

Definition aggregate_rows (completed : list run_row) : token_aggregate :=
  let sum k := sumZ (usage_int k <$> completed) in
  mk_token_aggregate (sum "total_tokens") (sum "total_input_tokens") (sum "total_output_tokens")
    (Z.of_nat (length completed)) (foldl add_run_by_model [] completed)
    (sum "lead_agent_tokens") (sum "subagent_tokens") (sum "middleware_tokens").

Definition completed_statuses (include_active : bool) : list string :=
  if include_active then ["success"; "error"; "running"] else ["success"; "error"].

(** [MemoryRunStore.aggregate_tokens_by_thread]. *)
Definition store_aggregate_tokens_by_thread (thread_id : string) (include_active : bool)
    (s : run_store) : token_aggregate :=
  aggregate_rows
    (List.filter (fun r => String.eqb (row_thread_id r) thread_id
                           && str_in (row_status r) (completed_statuses include_active))
       (dict_values s)).

(** [MemoryRunStore._matches_org_scope]. *)
Definition matches_org_scope (org_id : option string) (since until : option Z) (r : run_row) : bool :=
  if negb (org_matches org_id r) then false
  else if match since with Some t => (row_created_at r <? t)%Z | None => false end then false
  else if match until with Some t => (t <? row_created_at r)%Z | None => false end then false
  else true.

(** [MemoryRunStore.aggregate_tokens_by_org]. *)
Definition store_aggregate_tokens_by_org (org_id : option string) (since until : option Z)
    (include_active : bool) (s : run_store) : token_aggregate :=
  aggregate_rows
    (List.filter (fun r => str_in (row_status r) (completed_statuses include_active)
                           && matches_org_scope org_id since until r)
       (dict_values s)).

Definition FAILURE_STATUSES : list string := ["error"; "timeout"; "interrupted"].

Record org_stats : Type := mk_org_stats {
  stats_total_runs : Z;
  stats_runs_by_status : list (string * Z);
  stats_failure_rate : Q;
  stats_recent_runs_24h : Z;
  stats_recent_failures_24h : Z;
  stats_window_start : Z;
  stats_window_end : Z
}.

Definition count_status (m : list (string * Z)) (r : run_row) : list (string * Z) :=
  dict_set (row_status r) (opt_or (dict_get (row_status r) m) 0 + 1)%Z m.

(** Instants are microseconds. *)
Definition hours24 : Z := (24 * 3600 * 1000000)%Z.
Definition days7 : Z := (7 * hours24)%Z.

(** [MemoryRunStore.aggregate_stats_by_org]. *)
Definition store_aggregate_stats_by_org (org_id : option string) (since until : option Z) (now : Z)
    (s : run_store) : org_stats :=
  let effective_since := opt_or since (now - days7)%Z in
  let effective_until := opt_or until now in
  let windowed :=
    List.filter (matches_org_scope org_id (Some effective_since) (Some effective_until))
      (dict_values s) in
  let runs_by_status := foldl count_status [] windowed in
  let total_runs := sumZ (dict_values runs_by_status) in
  let failures :=
    sumZ ((List.filter (fun p => str_in p.1 FAILURE_STATUSES) runs_by_status).*2) in
  let failure_rate :=
    if Z.eqb total_runs 0 then 0%Q else (inject_Z failures / inject_Z total_runs)%Q in
  let cutoff := (now - hours24)%Z in
  let recent := List.filter (matches_org_scope org_id (Some cutoff) (Some now)) (dict_values s) in
  mk_org_stats total_runs runs_by_status failure_rate (Z.of_nat (length recent))
    (Z.of_nat (length (List.filter (fun r => str_in (row_status r) FAILURE_STATUSES) recent)))
    effective_since effective_until.

(** Filters of the console listing. *)
Record org_filter : Type := mk_org_filter {
  of_org_id : option string;
  of_status : option string;
  of_model : option string;
  of_since : option Z;
  of_until : option Z
}.

Definition org_filter_matches (f : org_filter) (r : run_row) : bool :=
  org_matches (of_org_id f) r
  && (match of_status f with None => true | Some st => String.eqb (row_status r) st end)
  && (match of_model f with None => true | Some m => bool_decide (row_model_name r = Some m) end)
  && (match of_since f with None => true | Some t => (t <=? row_created_at r)%Z end)
  && (match of_until f with None => true | Some t => (row_created_at r <=? t)%Z end).

Definition before_cursor (cursor : option (Z * string)) (r : run_row) : bool :=
  match cursor with
  | None => true
  | Some c => key_ltb (row_key r) c
  end.

(** [MemoryRunStore.list_runs_by_org]. *)
Definition store_list_runs_by_org (f : org_filter) (limit : Z) (cursor : option (Z * string))
    (s : run_store) : list run_row * bool :=
  let filtered := List.filter (before_cursor cursor) (List.filter (org_filter_matches f) (dict_values s)) in
  let sorted := sort_by newest_first filtered in
  (py_take limit sorted, (limit <? Z.of_nat (length filtered))%Z).

(** A client that follows the keyset cursor: the key of the last row of a page
    is the cursor of the next one, until [has_more] is false. *)
Fixpoint follow_pages (fuel : nat) (f : org_filter) (limit : Z) (cursor : option (Z * string))
    (s : run_store) : option (list run_row) :=
  match fuel with
  | O => None
  | S fuel =>
      let '(page, has_more) := store_list_runs_by_org f limit cursor s in
      if has_more
      then
        match last page with
        | None => None
        | Some r =>
            rest ← follow_pages fuel f limit (Some (row_key r)) s;
            Some (page ++ rest)
        end
      else Some page
  end.

(** ** Histories of the store: every operation that changes it *)

Inductive store_op : Type :=
| OpPut (run_id : string) (a : put_args) (now : Z)
| OpStatus (run_id status : string) (error : option string) (expected : option Z) (now : Z)
| OpModel (run_id : string) (model : option string) (now : Z)
| OpDelete (run_id : string) (org_id : option string)
| OpCompletion (run_id status : string) (a : completion_args) (expected : option Z) (now : Z)
| OpProgress (run_id : string) (usage : list (string * option json)) (now : Z)
| OpCancel (run_id action : string) (now : Z).

(** The answer ([true] where the operation has none) and the new store. *)
Definition store_apply (op : store_op) (s : run_store) : bool * run_store :=
  match op with
  | OpPut id a now => (true, store_put id a now s)
  | OpStatus id st e v now => store_update_status id st e v now s
  | OpModel id m now => (true, store_update_model_name id m now s)
  | OpDelete id org => (true, store_delete id org s)
  | OpCompletion id st a v now => store_update_run_completion id st a v now s
  | OpProgress id u now => (true, store_update_run_progress id u now s)
  | OpCancel id act now => store_request_cancel id act now s
  end.

Definition store_run (ops : list store_op) (s : run_store) : run_store :=
  foldl (fun s op => (store_apply op s).2) s ops.

(** A compare-and-set write of run [id] that expects version [v]. *)
Definition is_cas (id : string) (v : Z) (op : store_op) : bool :=
  match op with
  | OpStatus id' _ _ (Some v') _ | OpCompletion id' _ _ (Some v') _ =>
      String.eqb id id' && Z.eqb v v'
  | _ => false
  end.

Definition is_delete_of (id : string) (op : store_op) : bool :=
  match op with
  | OpDelete id' _ => String.eqb id id'
  | _ => false
  end.

(** Rows are stored under their own id, once. *)
Definition store_wf (s : run_store) : Prop :=
  dict_wf s /\ forall id r, dict_get id s = Some r -> row_run_id r = id.

(** * Lemmas *)

Lemma string_ltb_leb x y : String.ltb x y = negb (String.leb y x).
Proof.
  unfold String.ltb, String.leb. rewrite (String.compare_antisym x y).
  by destruct (String.compare y x).
Qed.

Lemma key_leb_total a b : key_leb a b = true \/ key_leb b a = true.
Proof.
  unfold key_leb. destruct a as [ta ia], b as [tb ib]; simpl.
  destruct (Z.lt_trichotomy ta tb) as [|[->|]].
  - left. by rewrite (proj2 (Z.ltb_lt _ _)).
  - rewrite Z.ltb_irrefl, Z.eqb_refl. simpl. apply String.leb_total.
  - right. by rewrite (proj2 (Z.ltb_lt _ _)).
Qed.

Lemma key_leb_spec a b :
  key_leb a b = true <-> (a.1 < b.1)%Z \/ (a.1 = b.1 /\ String.leb a.2 b.2 = true).
Proof. unfold key_leb. rewrite orb_true_iff, andb_true_iff, Z.ltb_lt, Z.eqb_eq. done. Qed.

Lemma key_leb_trans a b c : key_leb a b = true -> key_leb b c = true -> key_leb a c = true.
Proof.
  rewrite !key_leb_spec. intros [?|[? ?]] [?|[? ?]]; try (left; lia).
  right. split; [lia|]. eauto using string_leb_trans.
Qed.

Lemma key_ltb_spec a b : key_ltb a b = negb (key_leb b a).
Proof.
  destruct a as [ta ia], b as [tb ib]. unfold key_ltb, key_leb; simpl.
  rewrite string_ltb_leb.
  destruct (Z.lt_trichotomy ta tb) as [|[->|]].
  - rewrite (proj2 (Z.ltb_lt _ _)), (proj2 (Z.ltb_ge tb ta)), (proj2 (Z.eqb_neq tb ta)); [done|lia..].
  - by rewrite Z.ltb_irrefl, Z.eqb_refl.
  - rewrite (proj2 (Z.ltb_ge ta tb)), (proj2 (Z.ltb_lt tb ta)), (proj2 (Z.eqb_neq ta tb)); [done|lia..].
Qed.

Lemma key_leb_antisym a b : key_leb a b = true -> key_leb b a = true -> a = b.
Proof.
  rewrite !key_leb_spec. destruct a as [ta ia], b as [tb ib]; simpl.
  intros [?|[? H1]] [?|[? H2]]; try lia. f_equal; [done|].
  by apply String.leb_antisym.
Qed.

Lemma newest_first_total r1 r2 : newest_first r1 r2 = true \/ newest_first r2 r1 = true.
Proof. apply key_leb_total. Qed.

Lemma newest_first_trans r1 r2 r3 :
  newest_first r1 r2 = true -> newest_first r2 r3 = true -> newest_first r1 r3 = true.
Proof. unfold newest_first. eauto using key_leb_trans. Qed.

Lemma oldest_first_total r1 r2 : oldest_first r1 r2 = true \/ oldest_first r2 r1 = true.
Proof. unfold oldest_first. rewrite !Z.leb_le. lia. Qed.

Lemma oldest_first_trans r1 r2 r3 :
  oldest_first r1 r2 = true -> oldest_first r2 r3 = true -> oldest_first r1 r3 = true.
Proof. unfold oldest_first. rewrite !Z.leb_le. lia. Qed.

Lemma store_wf_values_inj s r1 r2 :
  store_wf s -> r1 ∈ dict_values s -> r2 ∈ dict_values s ->
  row_run_id r1 = row_run_id r2 -> r1 = r2.
Proof.
  intros [Hwf Hid] (k1 & H1)%dict_values_elem (k2 & H2)%dict_values_elem Heq.
  apply dict_get_elem in H1, H2; [|done..].
  pose proof (Hid _ _ H1). pose proof (Hid _ _ H2). congruence.
Qed.

(** ** Versions only grow *)

Lemma cas_bump_version e r : (row_version r <= row_version (cas_bump e r))%Z.
Proof. destruct e; simpl; lia. Qed.

Lemma store_apply_version op s id r :
  is_delete_of id op = false -> dict_get id s = Some r ->
  exists r', dict_get id (store_apply op s).2 = Some r' /\ (row_version r <= row_version r')%Z.
Proof.
  intros Hd Hr.
  destruct op as [i a n|i st e v n|i m n|i o|i st a v n|i u n|i act n]; simpl in *;
    unfold store_put, store_update_status, store_update_model_name, store_delete,
      store_update_run_completion, store_update_run_progress, store_request_cancel;
    (destruct (decide (i = id)) as [->|Hne];
     [rewrite ?dict_get_alter, ?decide_True, Hr by done
     |repeat case_match; simpl;
      rewrite ?dict_get_alter, ?dict_get_set_ne, ?dict_get_pop_ne, ?decide_False by done; eauto using Z.le_refl]).
  - rewrite dict_get_set_eq. eexists; split; [done|]. simpl. lia.
  - case_match; simpl; [rewrite dict_get_set_eq|rewrite Hr]; eexists; (split; [done|]); [|lia].
    etrans; [|apply cas_bump_version]. done.
  - simpl. eexists; split; [done|]. simpl. lia.
  - by rewrite String.eqb_refl in Hd.
  - case_match; simpl; [rewrite dict_get_set_eq|rewrite Hr]; eexists; (split; [done|]); [|lia].
    etrans; [|apply cas_bump_version]. done.
  - case_match; simpl; [rewrite dict_get_set_eq|rewrite Hr]; eexists; (split; [done|]); simpl; lia.
  - repeat case_match; simpl; rewrite ?dict_get_set_eq, ?Hr; eexists; (split; [done|]); simpl; lia.
Qed.

Lemma store_run_version ops s id r :
  forallb (fun op => negb (is_delete_of id op)) ops = true -> dict_get id s = Some r ->
  exists r', dict_get id (store_run ops s) = Some r' /\ (row_version r <= row_version r')%Z.
Proof.
  revert s r. induction ops as [|op ops IH]; intros s r; simpl; [eauto using Z.le_refl|].
  intros [Hop Hops]%andb_true_iff Hr. apply negb_true_iff in Hop.
  destruct (store_apply_version op s id r Hop Hr) as (r1 & H1 & Hle1).
  destruct (IH _ _ Hops H1) as (r2 & H2 & Hle2). exists r2. split; [done|lia].
Qed.

Lemma cas_success id v op s s' :
  is_cas id v op = true -> store_apply op s = (true, s') ->
  exists r r', dict_get id s = Some r /\ row_version r = v
    /\ dict_get id s' = Some r' /\ row_version r' = (v + 1)%Z.
Proof.
  destruct op as [|i st e [v'|] n| | |i st a [v'|] n| |]; simpl; intros H; try done;
    apply andb_true_iff in H as [<-%String.eqb_eq <-%Z.eqb_eq];
    unfold store_update_status, store_update_run_completion, cas_matches; intros Ha;
    destruct (dict_get id s) as [r|] eqn:Hr; try done;
    destruct (Z.eqb_spec (row_version r) v) as [<-|]; simplify_eq/=;
    (eexists r, _; rewrite dict_get_set_eq; by repeat split).
Qed.

Lemma cas_stale id v op s r :
  is_cas id v op = true -> dict_get id s = Some r -> row_version r <> v ->
  store_apply op s = (false, s).
Proof.
  destruct op as [|i st e [v'|] n| | |i st a [v'|] n| |]; simpl; intros H Hr Hv; try done;
    apply andb_true_iff in H as [<-%String.eqb_eq <-%Z.eqb_eq];
    unfold store_update_status, store_update_run_completion, cas_matches; rewrite Hr;
    by rewrite (proj2 (Z.eqb_neq _ _) Hv).
Qed.

Lemma store_wf_set s id r : store_wf s -> row_run_id r = id -> store_wf (dict_set id r s).
Proof.
  intros [Hwf Hid] Hr. split; [auto with py|]. intros id' r'. rewrite dict_get_set.
  case_decide; [|eauto]. intros [= <-]. congruence.
Qed.

Lemma store_wf_pop s id : store_wf s -> store_wf (dict_pop id s).
Proof.
  intros [Hwf Hid]. split; [auto with py|]. intros id' r'. rewrite dict_get_pop.
  case_decide; [done|eauto].
Qed.

Lemma row_run_id_cas_bump e r : row_run_id (cas_bump e r) = row_run_id r.
Proof. by destruct e. Qed.

#[export] Hint Resolve store_wf_set store_wf_pop : py.

Lemma store_apply_wf op s : store_wf s -> store_wf (store_apply op s).2.
Proof.
  intros Hwf. pose proof Hwf as [_ Hid].
  destruct op as [i a n|i st e v n|i m n|i o|i st a v n|i u n|i act n]; simpl;
    unfold store_put, store_update_status, store_update_model_name, store_delete,
      store_update_run_completion, store_update_run_progress, store_request_cancel, dict_alter.
  1: by apply store_wf_set.
  all: destruct (dict_get i s) as [r|] eqn:Hr; simpl; [|done].
  all: repeat case_match; simpl; auto with py.
  all: apply store_wf_set; rewrite ?row_run_id_cas_bump; simpl; eauto.
Qed.

Lemma store_put_wf id a now s : store_wf s -> store_wf (store_put id a now s).
Proof. apply (store_apply_wf (OpPut id a now)). Qed.

Lemma store_wf_nil : store_wf [].
Proof. split; [constructor|done]. Qed.

#[export] Hint Resolve store_put_wf store_wf_nil : py.

(** ** Keyset pagination *)

Lemma filter_values_elem {A} (p : A -> bool) l x : x ∈ List.filter p l -> x ∈ l.
Proof. rewrite !list_elem_of_In, filter_In. tauto. Qed.

Lemma StronglySorted_list_filter {A} (R : A -> A -> Prop) (p : A -> bool) l :
  StronglySorted R l -> StronglySorted R (List.filter p l).
Proof.
  induction 1 as [|x l' Hs IH Hx]; simpl; [constructor|].
  destruct (p x); [|done]. constructor; [done|].
  rewrite Forall_forall in Hx |- *. eauto using filter_values_elem.
Qed.

Lemma filter_sort_by {A} (leb : A -> A -> bool) (p : A -> bool) l :
  (forall x y, leb x y = true \/ leb y x = true) ->
  (forall x y z, leb x y = true -> leb y z = true -> leb x z = true) ->
  (forall x y, x ∈ l -> y ∈ l -> leb x y = true -> leb y x = true -> x = y) ->
  sort_by leb (List.filter p l) = List.filter p (sort_by leb l).
Proof.
  intros Htot Htr Hanti.
  apply (StronglySorted_unique_strong (fun x y => leb x y = true)).
  - intros x y Hx Hy. rewrite sort_by_elem in Hx. apply filter_values_elem in Hx, Hy.
    rewrite sort_by_elem in Hy. by apply Hanti.
  - by apply sort_by_sorted.
  - by apply StronglySorted_list_filter, sort_by_sorted.
  - rewrite sort_by_perm. apply Permutation_list_filter. by rewrite sort_by_perm.
Qed.

(** The rows after the last row of a page are the rows below its key. *)
Lemma filter_below_last (M : list run_row) (n : nat) r :
  StronglySorted (fun x y => newest_first x y = true) M ->
  (forall x y, x ∈ M -> y ∈ M -> row_key x = row_key y -> x = y) -> NoDup M ->
  last (take n M) = Some r ->
  List.filter (fun x => key_ltb (row_key x) (row_key r)) M = drop n M.
Proof.
  intros Hs Hinj Hnd Hlast. rewrite <-(take_drop n M) at 1. rewrite List.filter_app.
  apply last_Some in Hlast as [l' Hl'].
  assert (M = l' ++ r :: drop n M) as HM.
  { rewrite <-(take_drop n M) at 1. rewrite Hl'. by rewrite <-app_assoc. }
  rewrite filter_none, filter_all; [done| |].
  - apply Forall_forall. intros x Hx. rewrite key_ltb_spec, negb_true_iff.
    destruct (key_leb (row_key r) (row_key x)) eqn:E; [exfalso|done].
    rewrite HM in Hs, Hinj, Hnd.
    apply StronglySorted_app_1_r in Hs. inversion Hs as [|? ? _ Hf]; subst.
    rewrite Forall_forall in Hf. specialize (Hf _ Hx). unfold newest_first in Hf.
    assert (x = r) as ->. { apply Hinj; [set_solver..|]. by apply key_leb_antisym. }
    apply NoDup_app in Hnd as (_ & _ & Hnd). by apply NoDup_cons in Hnd as [? _].
  - apply Forall_forall. intros x Hx. rewrite key_ltb_spec, negb_false_iff.
    rewrite Hl' in Hx. apply elem_of_app in Hx as [Hx|Hx%list_elem_of_singleton].
    + rewrite HM in Hs.
      exact (StronglySorted_app_1_elem_of _ _ _ x r Hs Hx ltac:(set_solver)).
    + subst x. by destruct (key_leb_total (row_key r) (row_key r)).
Qed.

Lemma filter_filter_below (c : option (Z * string)) (L : list run_row) r :
  before_cursor c r = true ->
  List.filter (before_cursor (Some (row_key r))) L
  = List.filter (before_cursor (Some (row_key r))) (List.filter (before_cursor c) L).
Proof.
  intros Hr. induction L as [|x L IH]; simpl; [done|].
  destruct (before_cursor c x) eqn:Ec; simpl; rewrite IH; [done|].
  destruct (key_ltb (row_key x) (row_key r)) eqn:E; [exfalso|done].
  destruct c as [c|]; simpl in *; [|done].
  rewrite key_ltb_spec in *. reflect_bools.
  destruct (key_leb_total (row_key x) (row_key r)) as [H1|H1]; [|congruence].
  destruct (key_leb_total (row_key r) c) as [H2|H2]; [|congruence].
  assert (key_leb (row_key r) (row_key x) = true) by eauto using key_leb_trans. congruence.
Qed.

(** Reference: all matching rows, newest first. *)
Definition org_rows_sorted (f : org_filter) (s : run_store) : list run_row :=
  sort_by newest_first (List.filter (org_filter_matches f) (dict_values s)).

Section pages.
Context (s : run_store) (f : org_filter) (Hwf : store_wf s).

Lemma org_rows_key_inj x y :
  x ∈ dict_values s -> y ∈ dict_values s -> row_key x = row_key y -> x = y.
Proof using Hwf. intros Hx Hy [= _ H]. by apply (store_wf_values_inj s). Qed.

Lemma org_rows_elem x : x ∈ org_rows_sorted f s -> x ∈ dict_values s.
Proof using. unfold org_rows_sorted. rewrite sort_by_elem. apply filter_values_elem. Qed.

Lemma org_rows_strong : StronglySorted (fun x y => newest_first x y = true) (org_rows_sorted f s).
Proof using. apply sort_by_sorted; eauto using newest_first_total, newest_first_trans. Qed.

Lemma store_values_nodup : NoDup (dict_values s).
Proof using Hwf.
  destruct Hwf as [Hd Hid]. unfold dict_wf, dict_keys, dict_values in *.
  assert (forall k r, (k, r) ∈ s -> row_run_id r = k) as Hk.
  { intros k r Hin. apply Hid. by apply dict_get_elem. }
  clear Hid Hwf. induction s as [|[k r] s' IH]; simpl; [constructor|].
  apply NoDup_cons in Hd as [Hn Hd]. apply NoDup_cons. split.
  - intros Hr. apply list_elem_of_fmap in Hr as ([k' r'] & Heq & Hin). simpl in Heq; subst r'.
    apply Hn. apply list_elem_of_fmap. exists (k', r). split; [|done]. simpl.
    rewrite <-(Hk k r), <-(Hk k' r); [done|set_solver..].
  - apply IH; [done|]. intros k0 r0 Hin. apply Hk. set_solver.
Qed.

Lemma NoDup_list_filter {A} (p : A -> bool) l : NoDup l -> NoDup (List.filter p l).
Proof. rewrite !NoDup_ListNoDup. apply List.NoDup_filter. Qed.

Lemma org_rows_nodup : NoDup (org_rows_sorted f s).
Proof using Hwf.
  unfold org_rows_sorted. rewrite sort_by_perm. apply NoDup_list_filter, store_values_nodup.
Qed.

Lemma list_runs_by_org_eq limit c :
  store_list_runs_by_org f limit c s
  = (py_take limit (List.filter (before_cursor c) (org_rows_sorted f s)),
     (limit <? Z.of_nat (length (List.filter (before_cursor c) (org_rows_sorted f s))))%Z).
Proof using Hwf.
  unfold store_list_runs_by_org, org_rows_sorted. f_equal.
  - f_equal. apply filter_sort_by; eauto using newest_first_total, newest_first_trans.
    intros x y Hx Hy H1 H2. apply org_rows_key_inj; eauto using filter_values_elem.
    by apply key_leb_antisym.
  - rewrite <-filter_sort_by; eauto using newest_first_total, newest_first_trans.
    + by rewrite sort_by_length.
    + intros x y Hx Hy H1 H2. apply org_rows_key_inj; eauto using filter_values_elem.
      by apply key_leb_antisym.
Qed.

Lemma follow_pages_suffix fuel limit c :
  (0 < limit)%Z ->
  length (List.filter (before_cursor c) (org_rows_sorted f s)) < fuel ->
  follow_pages fuel f limit c s = Some (List.filter (before_cursor c) (org_rows_sorted f s)).
Proof using Hwf.
  intros Hlim. revert c. induction fuel as [|fuel IH]; intros c Hlen; [lia|].
  cbn [follow_pages]. rewrite list_runs_by_org_eq. set (M := List.filter _ _) in *.
  rewrite py_take_nonneg by lia.
  destruct (Z.ltb_spec limit (Z.of_nat (length M))) as [Hmore|Hend]; cycle 1.
  { by rewrite take_ge by lia. }
  destruct (last (take (Z.to_nat limit) M)) as [r|] eqn:Hlast; cycle 1.
  { apply last_None, (f_equal length) in Hlast. rewrite length_take in Hlast. simpl in *. lia. }
  assert (r ∈ M) as HrM.
  { apply last_Some_elem_of in Hlast. eapply elem_of_sublist; [done|apply sublist_take]. }
  assert (List.filter (before_cursor (Some (row_key r))) (org_rows_sorted f s)
          = drop (Z.to_nat limit) M) as Hrest.
  { rewrite (filter_filter_below c).
    - apply filter_below_last; [| | |done].
      + apply StronglySorted_list_filter, org_rows_strong.
      + intros x y Hx Hy. apply org_rows_key_inj; apply org_rows_elem; by eapply filter_values_elem.
      + apply NoDup_list_filter, org_rows_nodup.
    - unfold M in HrM. rewrite list_elem_of_In, filter_In in HrM. tauto. }
  rewrite IH, Hrest; simpl; [by rewrite take_drop|].
  rewrite Hrest, length_drop. lia.
Qed.
End pages.

(** ** Aggregates *)

(** Tokens attributed to the models of one row. *)
Definition row_model_tokens (r : run_row) : Z :=
  match usage_by_model r with
  | [] => usage_int "total_tokens" r
  | l => sumZ ((fun mu => json_int "total_tokens" mu.2) <$> l)
  end.

Definition by_model_tokens (m : list (string * (Z * Z))) : Z := sumZ ((fun p => p.2.1) <$> m).

Lemma add_model_tokens model t m :
  by_model_tokens (add_model model t m) = (by_model_tokens m + t)%Z.
Proof.
  unfold add_model, by_model_tokens.
  destruct (opt_or (dict_get model m) (0, 0)%Z) as [t0 n0] eqn:E.
  rewrite (dict_set_sum (fst (B := Z))).
  destruct (dict_get model m) as [[t1 n1]|]; simpl in *; simplify_eq; lia.
Qed.

Lemma add_run_by_model_tokens m r :
  by_model_tokens (add_run_by_model m r) = (by_model_tokens m + row_model_tokens r)%Z.
Proof.
  unfold add_run_by_model, row_model_tokens.
  destruct (usage_by_model r) as [|mu l] eqn:E; [apply add_model_tokens|].
  clear E. generalize (mu :: l). clear. intros l. revert m.
  induction l as [|mu l IH]; intros m; csimpl; [rewrite ?sumZ_cons, ?sumZ_nil; simpl; lia|].
  rewrite IH, add_model_tokens, sumZ_cons. lia.
Qed.

Lemma aggregate_rows_by_model l m :
  by_model_tokens (foldl add_run_by_model m l) = (by_model_tokens m + sumZ (row_model_tokens <$> l))%Z.
Proof.
  revert m. induction l as [|r l IH]; intros m; csimpl; [rewrite ?sumZ_cons, ?sumZ_nil; simpl; lia|].
  rewrite IH, add_run_by_model_tokens, sumZ_cons. lia.
Qed.

(** ** Tenant views *)

(** The rows of one Org, in insertion order. *)
Definition org_view (o : string) (s : run_store) : list run_row :=
  List.filter (org_matches (Some o)) (dict_values s).

Lemma filter_andb_view {A} (p q : A -> bool) l :
  List.filter (fun x => p x && q x) l = List.filter p (List.filter q l).
Proof.
  induction l as [|x l IH]; simpl; [done|].
  destruct (p x) eqn:Ep, (q x) eqn:Eq; simpl; rewrite ?Ep, ?IH; done.
Qed.

Lemma filter_ext_bool {A} (p q : A -> bool) l :
  (forall x, p x = q x) -> List.filter p l = List.filter q l.
Proof. intros H. by apply List.filter_ext. Qed.

Lemma matches_org_scope_split o since until r :
  matches_org_scope (Some o) since until r
  = matches_org_scope None since until r && org_matches (Some o) r.
Proof.
  unfold matches_org_scope. destruct (org_matches (Some o) r); simpl.
  - by rewrite andb_true_r.
  - by rewrite andb_false_r.
Qed.

Lemma org_filter_split o st m si un r :
  org_filter_matches (mk_org_filter (Some o) st m si un) r
  = org_filter_matches (mk_org_filter None st m si un) r && org_matches (Some o) r.
Proof.
  unfold org_filter_matches; cbn [of_org_id of_status of_model of_since of_until].
  change (org_matches None r) with true. rewrite andb_true_l.
  rewrite (andb_comm _ (org_matches (Some o) r)). by rewrite !andb_assoc.
Qed.

Lemma scope_filter_view o since until s :
  List.filter (matches_org_scope (Some o) since until) (dict_values s)
  = List.filter (matches_org_scope None since until) (org_view o s).
Proof.
  unfold org_view. rewrite <-filter_andb_view. apply filter_ext_bool.
  intros r. apply matches_org_scope_split.
Qed.

Lemma store_get_view id o s :
  store_wf s ->
  store_get id (Some o) s = List.find (fun r => String.eqb (row_run_id r) id) (org_view o s).
Proof.
  intros [Hwf Hid]. unfold store_get, org_view, dict_values.
  assert (forall k r, (k, r) ∈ s -> row_run_id r = k) as Hk.
  { intros k r Hin. apply Hid. by apply dict_get_elem. }
  clear Hid. unfold dict_wf, dict_keys in Hwf. induction s as [|[k r] s' IH]; simpl; [done|].
  apply NoDup_cons in Hwf as [Hn Hwf].
  assert (row_run_id r = k) as Hrk by (apply Hk; set_solver).
  assert (dict_get k s' = None) as Hnone by by apply dict_get_None.
  assert (forall k r, (k, r) ∈ s' -> row_run_id r = k) as Hk' by (intros; apply Hk; set_solver).
  specialize (IH Hwf Hk'). destruct (decide (id = k)) as [->|Hne].
  - rewrite Hnone in IH. unfold org_matches in *. case_bool_decide; simpl; [|done].
    by rewrite Hrk, String.eqb_refl.
  - rewrite IH. unfold org_matches at 2. case_bool_decide; simpl; [|done].
    rewrite Hrk. by rewrite (proj2 (String.eqb_neq _ _)) by congruence.
Qed.

(** * Properties *)

(** Single winner of a terminal race.  Once a compare-and-set write of a
    run that expected version [v] has succeeded, every compare-and-set write
    that expects the same [v] fails and leaves the store as it is, whatever
    operations of other writers run in between, as long as none deletes the
    run.  This is the cancel-versus-completion arbitration. *)
Theorem cas_single_winner (id : string) (v : Z) (winner loser : store_op)
    (between : list store_op) (s s1 : run_store) :
  is_cas id v winner = true -> is_cas id v loser = true ->
  store_apply winner s = (true, s1) ->
  forallb (fun op => negb (is_delete_of id op)) between = true ->
  store_apply loser (store_run between s1) = (false, store_run between s1).
Proof.
  intros Hw Hl Hok Hnd.
  destruct (cas_success _ _ _ _ _ Hw Hok) as (r & r1 & _ & _ & Hr1 & Hv1).
  destruct (store_run_version between s1 id r1 Hnd Hr1) as (r2 & Hr2 & Hle).
  apply (cas_stale id v loser _ r2); [done..|lia].
Qed.

Definition demo_pin : release_pin := mk_release_pin None None None None true.
Definition demo_put : put_args :=
  mk_put_args "t1" None None (Some "orgA") None "running" "reject" None None None (Some 10%Z) demo_pin.
Definition demo_store : run_store := store_put "r1" demo_put 10 [].

Definition demo_cancel : store_op := OpStatus "r1" "interrupted" None (Some 1%Z) 20.
Definition demo_finish : store_op :=
  OpCompletion "r1" "success" (mk_completion_args None []) (Some 1%Z) 30.
Definition demo_between : list store_op := [OpCancel "r1" "interrupt" 21].

Lemma cas_single_winner_witness :
  store_apply demo_finish (store_run demo_between (store_apply demo_cancel demo_store).2)
  = (false, store_run demo_between (store_apply demo_cancel demo_store).2).
Proof.
  apply (cas_single_winner "r1" 1 demo_cancel demo_finish demo_between demo_store);
    vm_compute; reflexivity.
Defined.

(** Keyset pagination is complete and duplicate-free.  Following the
    cursor from page to page with any positive page size terminates within one
    page per row and returns exactly the matching rows, newest first. *)
Theorem keyset_pagination_complete (s : run_store) (f : org_filter) (limit : Z) :
  store_wf s -> (0 < limit)%Z ->
  follow_pages (S (length s)) f limit None s = Some (org_rows_sorted f s)
  /\ NoDup (org_rows_sorted f s)
  /\ (forall r, r ∈ org_rows_sorted f s <-> r ∈ dict_values s /\ org_filter_matches f r = true).
Proof.
  intros Hwf Hlim. split; [|split].
  - rewrite follow_pages_suffix; rewrite ?filter_all by (by apply Forall_true); try done.
    apply Nat.lt_succ_r. unfold org_rows_sorted. rewrite sort_by_length.
    etrans; [apply List.filter_length_le|]. unfold dict_values. by rewrite length_fmap.
  - by apply org_rows_nodup.
  - intros r. unfold org_rows_sorted. rewrite sort_by_elem, list_elem_of_In, filter_In.
    by rewrite list_elem_of_In.
Qed.

Definition demo_filter : org_filter := mk_org_filter (Some "orgA") None None None None.
Definition demo_store3 : run_store :=
  store_put "r3" demo_put 12 (store_put "r2" demo_put 11 demo_store).

Lemma demo_store3_wf : store_wf demo_store3.
Proof. unfold demo_store3, demo_store. auto with py. Qed.

Lemma keyset_pagination_complete_witness :
  follow_pages 4 demo_filter 1 None demo_store3 = Some (org_rows_sorted demo_filter demo_store3)
  /\ row_run_id <$> org_rows_sorted demo_filter demo_store3 = ["r3"; "r2"; "r1"].
Proof.
  split; [|vm_compute; reflexivity].
  exact (proj1 (keyset_pagination_complete demo_store3 demo_filter 1 demo_store3_wf eq_refl)).
Defined.

(** Tenant isolation of the Org-scoped reads.  Two stores that agree on
    the rows of Org [o] give the same answers to every read scoped to [o]: the
    rows of other Orgs influence neither the single-row read, nor the thread
    listing, nor the console listing, nor the token and status aggregates. *)
Theorem org_reads_noninterference (o : string) (s s' : run_store) :
  store_wf s -> store_wf s' -> org_view o s = org_view o s' ->
  (forall id, store_get id (Some o) s = store_get id (Some o) s')
  /\ (forall t limit, store_list_by_thread t (Some o) limit s = store_list_by_thread t (Some o) limit s')
  /\ (forall st m si un limit c,
        store_list_runs_by_org (mk_org_filter (Some o) st m si un) limit c s
        = store_list_runs_by_org (mk_org_filter (Some o) st m si un) limit c s')
  /\ (forall si un act, store_aggregate_tokens_by_org (Some o) si un act s
                        = store_aggregate_tokens_by_org (Some o) si un act s')
  /\ (forall si un now, store_aggregate_stats_by_org (Some o) si un now s
                        = store_aggregate_stats_by_org (Some o) si un now s').
Proof.
  intros Hwf Hwf' Hv. repeat split; intros.
  - by rewrite !store_get_view, Hv.
  - unfold store_list_by_thread. rewrite !filter_andb_view. fold (org_view o s) (org_view o s').
    by rewrite Hv.
  - unfold store_list_runs_by_org.
    rewrite !(filter_ext_bool _ _ _ (org_filter_split o st m si un)), !filter_andb_view.
    fold (org_view o s) (org_view o s'). by rewrite Hv.
  - unfold store_aggregate_tokens_by_org. by rewrite !filter_andb_view, !scope_filter_view, Hv.
  - unfold store_aggregate_stats_by_org. by rewrite !scope_filter_view, Hv.
Qed.

Definition demo_put_B : put_args :=
  mk_put_args "t1" None None (Some "orgB") None "error" "reject" None None None (Some 10%Z) demo_pin.
Definition demo_store_two : run_store := store_put "rB" demo_put_B 10 demo_store.

Lemma demo_store_wf : store_wf demo_store.
Proof. unfold demo_store. auto with py. Qed.

Lemma demo_store_two_wf : store_wf demo_store_two.
Proof. unfold demo_store_two, demo_store. auto with py. Qed.

Lemma org_reads_noninterference_witness :
  org_view "orgA" demo_store = org_view "orgA" demo_store_two
  /\ store_list_by_thread "t1" (Some "orgA") 10 demo_store
     = store_list_by_thread "t1" (Some "orgA") 10 demo_store_two.
Proof.
  assert (H : org_view "orgA" demo_store = org_view "orgA" demo_store_two) by (vm_compute; reflexivity).
  destruct (org_reads_noninterference "orgA" demo_store demo_store_two
              demo_store_wf demo_store_two_wf H) as (_ & Hl & _).
  exact (conj H (Hl "t1" 10%Z)).
Defined.

(** Per-model attribution is conservative.  In the Org aggregate the
    per-model token counts add up to the tokens of the counted runs, each run
    contributing its per-model breakdown when it has one and its own total
    (under its model name, or "unknown") when it has none. *)
Theorem by_model_attribution (org_id : option string) (since until : option Z)
    (include_active : bool) (s : run_store) :
  by_model_tokens (agg_by_model (store_aggregate_tokens_by_org org_id since until include_active s))
  = sumZ (row_model_tokens <$>
      List.filter (fun r => str_in (row_status r) (completed_statuses include_active)
                            && matches_org_scope org_id since until r) (dict_values s)).
Proof.
  unfold store_aggregate_tokens_by_org, aggregate_rows. simpl. by rewrite aggregate_rows_by_model.
Qed.

(** A retried [put] keeps what the row has earned.  Re-putting a run
    never changes its compare-and-set version or its persisted cancel intent,
    and a retry that omits the Org keeps the Org of the first insert. *)
Theorem retry_put_preserves (id : string) (a : put_args) (now : Z) (s : run_store) (r : run_row) :
  dict_get id s = Some r ->
  exists r', dict_get id (store_put id a now s) = Some r'
    /\ row_version r' = row_version r
    /\ store_get_cancel_intent id (store_put id a now s) = store_get_cancel_intent id s
    /\ row_cancel_requested_at r' = row_cancel_requested_at r
    /\ (put_org_id a = None -> row_org_id r' = row_org_id r).
Proof.
  intros Hr. unfold store_get_cancel_intent, store_put. rewrite dict_get_set_eq, Hr.
  eexists; split; [done|]. repeat split. intros ->. done.
Qed.

Lemma retry_put_preserves_witness :
  exists r', dict_get "r1" (store_put "r1" demo_put 11 demo_store) = Some r' /\ row_version r' = 1%Z.
Proof.
  destruct (retry_put_preserves "r1" demo_put 11 demo_store _ eq_refl) as (r' & H & Hv & _).
  exists r'. split; [exact H|exact Hv].
Defined.

(** Durable cancel intent.  A cancel request is recorded exactly when the
    run exists, is pending or running, and has no request yet; it then stores
    the action without touching the status or the version, and a repeated
    request changes nothing. *)
Theorem request_cancel_spec (id action : string) (now : Z) (s : run_store) :
  let '(ok, s') := store_request_cancel id action now s in
  (ok = true <-> exists r, dict_get id s = Some r
                   /\ (row_status r = "pending" \/ row_status r = "running")
                   /\ row_cancel_requested r = false)
  /\ (ok = false -> s' = s)
  /\ (ok = true ->
        store_get_cancel_intent id s' = Some (true, Some action)
        /\ (exists r r', dict_get id s = Some r /\ dict_get id s' = Some r'
              /\ row_status r' = row_status r /\ row_version r' = row_version r)
        /\ forall action' now', store_request_cancel id action' now' s' = (false, s')).
Proof.
  unfold store_request_cancel, store_get_cancel_intent.
  destruct (dict_get id s) as [r|] eqn:Hr; cycle 1.
  { repeat split; try done. by intros (? & ? & _). }
  destruct (str_in (row_status r) _) eqn:Est; simpl; cycle 1.
  { repeat split; try done. intros (r' & [= <-] & Hst & _). exfalso.
    revert Est. unfold str_in. rewrite bool_decide_eq_false. set_solver. }
  apply str_in_spec in Est. destruct (row_cancel_requested r) eqn:Ec; simpl.
  { repeat split; try done. intros (r' & Hr' & _ & ?). congruence. }
  repeat split; try done.
  - intros _. exists r. split; [done|]. split; [set_solver|done].
  - by rewrite dict_get_set_eq.
  - eexists r, _. rewrite dict_get_set_eq. split; [done|]. split; [done|]. done.
  - intros a' n'. rewrite dict_get_set_eq. by case_match.
Qed.

(** ** Divergences *)

(** The comment in [put] calls the Org immutable once set, but a retry that
    names another Org moves the row. *)
Example put_moves_row_to_other_org :
  row_org_id <$> dict_get "r1" (store_put "r1" demo_put_B 11 demo_store) = Some (Some "orgB").
Proof. vm_compute. reflexivity. Qed.

(** The comment in [put] calls the ReleaseRef pin immutable once set, but a
    second [put] with another version replaces it, and one that leaves
    [legacy_unpinned] at its default marks a pinned run as legacy. *)
Definition pinned_put (v : option string) (legacy : bool) : put_args :=
  mk_put_args "t1" None None (Some "orgA") None "running" "reject" None None None (Some 10%Z)
    (mk_release_pin None v None None legacy).

Example put_replaces_release_pin :
  (row_release <$> dict_get "r1" (store_put "r1" (pinned_put (Some "v2") true) 11
     (store_put "r1" (pinned_put (Some "v1") false) 10 [])))
  = Some (mk_release_pin None (Some "v2") None None true).
Proof. vm_compute. reflexivity. Qed.
