(* ===== verification/Retry.v ===== *)
(** * Bounded retries of store calls

    [runtime/runs/manager.py]: [_is_retryable_persistence_error],
    [PersistenceRetryPolicy] and [RunManager._call_store_with_retry].  Python
    exceptions are objects linked by [orig], [__cause__] and [__context__];
    the links may form cycles, so an exception is a node of a heap. *)
From S2P Require Import Prelude.
From Stdlib Require Import Ascii.

(** ** Exceptions *)

Record exc_node : Type := mk_exc_node {
  exn_message : string;
  exn_is_sqlite : bool;
  exn_sqlite_errorcode : option Z;
  exn_orig : option nat;
  exn_cause : option nat;
  exn_context : option nat
}.

Record exc : Type := mk_exc {
  exc_heap : gmap nat exc_node;
  exc_id : nat
}.

(** ** Text helpers of the test *)

Definition ascii_lower (a : ascii) : ascii :=
  let n := Ascii.nat_of_ascii a in
  if Nat.leb 65 n && Nat.leb n 90 then Ascii.ascii_of_nat (n + 32) else a.

(** [str.lower] on ASCII text. *)
Fixpoint str_lower (s : string) : string :=
  match s with
  | EmptyString => EmptyString
  | String a s' => String (ascii_lower a) (str_lower s')
  end.

(** [fragment in message]. *)
Fixpoint contains (fragment message : string) : bool :=
  String.prefix fragment message ||
  match message with
  | EmptyString => false
  | String _ m => contains fragment m
  end.

Definition RETRYABLE_SQLITE_MESSAGES : list string :=
  ["database is locked"; "database table is locked"; "database is busy"].

(** [sqlite3.SQLITE_BUSY] and [sqlite3.SQLITE_LOCKED]. *)
Definition RETRYABLE_SQLITE_ERROR_CODES : list Z := [5%Z; 6%Z].

(** The two tests on one exception of the chain. *)
Definition node_retryable (n : exc_node) : bool :=
  existsb (fun f => contains f (str_lower (exn_message n))) RETRYABLE_SQLITE_MESSAGES
  || (exn_is_sqlite n
      && match exn_sqlite_errorcode n with
         | Some c => existsb (Z.eqb c) RETRYABLE_SQLITE_ERROR_CODES
         | None => false
         end).

Definition opt_list {A} (o : option A) : list A :=
  match o with Some a => [a] | None => [] end.

(** What one visit appends to the work list, last element popped first. *)
Definition node_links (n : exc_node) : list nat :=
  opt_list (exn_context n) ++ opt_list (exn_cause n) ++ opt_list (exn_orig n).

(** [_is_retryable_persistence_error]: the loop over [pending] with the [seen]
    set; the head of [pending] is the end of the Python list. *)
Fixpoint retryable_loop (fuel : nat) (h : gmap nat exc_node) (pending : list nat) (seen : gset nat) :
    option bool :=
  match fuel with
  | O => None
  | S fuel =>
      match pending with
      | [] => Some false
      | i :: rest =>
          if decide (i ∈ seen) then retryable_loop fuel h rest seen
          else
            match h !! i with
            | None => retryable_loop fuel h rest ({[i]} ∪ seen)
            | Some n =>
                if node_retryable n then Some true
                else retryable_loop fuel h (node_links n ++ rest) ({[i]} ∪ seen)
            end
      end
  end.

(** One visit per link is enough: every exception is expanded at most once and
    appends at most three links. *)
Definition retryable_fuel (e : exc) : nat := 2 + 4 * size (exc_heap e).

Definition is_retryable_persistence_error (e : exc) : bool :=
  match retryable_loop (retryable_fuel e) (exc_heap e) [exc_id e] ∅ with
  | Some b => b
  | None => false
  end.

(** Links of the chain, and the exceptions a chain contains. *)
Definition exc_link (h : gmap nat exc_node) (i j : nat) : Prop :=
  exists n, h !! i = Some n /\ j ∈ node_links n.

(** ** The retry loop *)

(** [PersistenceRetryPolicy]; delays in milliseconds. *)
Record retry_policy : Type := mk_retry_policy {
  pol_max_attempts : nat;
  pol_initial_delay : Z;
  pol_max_delay : Z;
  pol_backoff_factor : Z
}.

Definition default_policy : retry_policy := mk_retry_policy 5 50 1000 2.

(** [min(policy.max_delay, delay * factor if delay else initial_delay)]. *)
Definition next_delay (p : retry_policy) (delay : Z) : Z :=
  Z.min (pol_max_delay p)
    (if Z.eqb delay 0 then pol_initial_delay p else delay * pol_backoff_factor p)%Z.

Section retry.
Context {S A : Type} (op : S -> result exc A * S) (p : retry_policy).

(** The [while True] loop; [remaining] is [max_attempts - attempt].  The last
    component lists the sleeps. *)
Fixpoint retry_loop (remaining : nat) (delay : Z) (s : S) : result exc A * S * list Z :=
  match op s with
  | (Ok a, s') => (Ok a, s', [])
  | (Err e, s') =>
      match remaining with
      | O => (Err e, s', [])
      | Datatypes.S remaining =>
          if is_retryable_persistence_error e
          then
            let '(r, s'', ds) := retry_loop remaining (next_delay p delay) s' in
            (r, s'', if (0 <? delay)%Z then delay :: ds else ds)
          else (Err e, s', [])
      end
  end.

Definition call_store_with_retry_trace (s : S) : result exc A * S * list Z :=
  retry_loop (pol_max_attempts p - 1) (pol_initial_delay p) s.

(** [RunManager._call_store_with_retry]. *)
Definition call_store_with_retry (s : S) : result exc A * S :=
  (call_store_with_retry_trace s).1.
End retry.

(** * Lemmas *)

(** Work left in the loop: what is pending plus what unseen nodes may append. *)
Definition loop_measure (h : gmap nat exc_node) (pending : list nat) (seen : gset nat) : nat :=
  length pending + 4 * size (dom h ∖ seen).

Lemma length_node_links n : length (node_links n) <= 3.
Proof.
  unfold node_links. rewrite !length_app.
  destruct (exn_context n), (exn_cause n), (exn_orig n); simpl; lia.
Qed.

Lemma dom_seen_step (h : gmap nat exc_node) i n (seen : gset nat) :
  h !! i = Some n -> i ∉ seen ->
  size (dom h ∖ seen) = S (size (dom h ∖ ({[i]} ∪ seen))).
Proof.
  intros Hi Hs. assert (i ∈ dom h) by (by apply elem_of_dom_2 in Hi).
  replace (dom h ∖ seen) with ({[i]} ∪ dom h ∖ ({[i]} ∪ seen)).
  - rewrite size_union by set_solver. by rewrite size_singleton.
  - apply set_eq. intros x. destruct (decide (x = i)); set_solver.
Qed.

Lemma retryable_loop_total fuel h pending seen :
  loop_measure h pending seen < fuel -> is_Some (retryable_loop fuel h pending seen).
Proof.
  revert pending seen. induction fuel as [|fuel IH]; intros pending seen Hm; [lia|].
  simpl. destruct pending as [|i rest]; [eauto|]. unfold loop_measure in *. simpl in Hm.
  case_decide as Hseen; [apply IH; lia|].
  destruct (h !! i) as [n|] eqn:Hi.
  - case_match; [eauto|]. apply IH. rewrite length_app.
    pose proof (length_node_links n). rewrite (dom_seen_step h i n seen) in Hm by done. lia.
  - apply IH. assert (size (dom h ∖ ({[i]} ∪ seen)) <= size (dom h ∖ seen)); [|lia].
    apply subseteq_size. set_solver.
Qed.

Lemma retryable_loop_sound h fuel pending seen :
  retryable_loop fuel h pending seen = Some true ->
  exists i j n, i ∈ pending /\ star (exc_link h) i j
    /\ h !! j = Some n /\ node_retryable n = true.
Proof.
  revert pending seen. induction fuel as [|fuel IH]; intros pending seen; [done|]. simpl.
  destruct pending as [|i rest]; [done|]. case_decide.
  - intros (x & j & n & Hx & Hr)%IH. exists x, j, n. split; [set_solver|done].
  - destruct (h !! i) as [n|] eqn:Hi.
    + destruct (node_retryable n) eqn:Hn.
      * intros _. exists i, i, n. repeat split; eauto. set_solver.
      * intros (x & j & m & Hx & Hs & Hj & Hm)%IH.
        apply elem_of_app in Hx as [Hx|Hx].
        -- exists i, j, m. repeat split; [set_solver| |done..].
           eapply star_step; [|done]. by exists n.
        -- exists x, j, m. repeat split; [set_solver|done..].
    + intros (x & j & m & Hx & Hr)%IH. exists x, j, m. split; [set_solver|done].
Qed.

(** When the loop answers [False], nothing it was given or has seen reaches a
    retryable exception. *)
Lemma retryable_loop_complete h fuel pending seen :
  (forall i j, i ∈ seen -> exc_link h i j -> j ∈ seen \/ j ∈ pending) ->
  (forall i n, i ∈ seen -> h !! i = Some n -> node_retryable n = false) ->
  retryable_loop fuel h pending seen = Some false ->
  forall i j n, i ∈ pending \/ i ∈ seen -> star (exc_link h) i j ->
    h !! j = Some n -> node_retryable n = false.
Proof.
  revert pending seen. induction fuel as [|fuel IH]; intros pending seen Hcl Hno; [done|]. simpl.
  destruct pending as [|i rest].
  { intros _ i j n [Hi|Hi] Hs; [by apply elem_of_nil in Hi|].
    induction Hs as [x|x y z Hxy Hs IHs]; [by apply Hno|].
    apply IHs. destruct (Hcl _ _ Hi Hxy) as [|Hy]; [done|by apply elem_of_nil in Hy]. }
  case_decide as Hseen.
  - intros Hl x j n Hx. apply (IH rest seen); [|done..|set_solver].
    intros y z Hy Hyz. specialize (Hcl y z Hy Hyz). set_solver.
  - destruct (h !! i) as [m|] eqn:Hi.
    + destruct (node_retryable m) eqn:Hm; [done|].
      intros Hl x j n Hx. apply (IH (node_links m ++ rest) ({[i]} ∪ seen)); [| |done|set_solver].
      * intros y z [->%elem_of_singleton|Hy]%elem_of_union Hyz.
        -- destruct Hyz as (m' & Hm' & Hz). simplify_eq. set_solver.
        -- specialize (Hcl y z Hy Hyz). set_solver.
      * intros y n' [->%elem_of_singleton|Hy]%elem_of_union Hn'; [by simplify_eq|eauto].
    + intros Hl x j n Hx. apply (IH rest ({[i]} ∪ seen)); [| |done|set_solver].
      * intros y z [->%elem_of_singleton|Hy]%elem_of_union Hyz.
        -- destruct Hyz as (m' & Hm' & _). by simplify_eq.
        -- specialize (Hcl y z Hy Hyz). set_solver.
      * intros y n' [->%elem_of_singleton|Hy]%elem_of_union Hn'; [by simplify_eq|eauto].
Qed.

Lemma retryable_loop_enough e :
  is_Some (retryable_loop (retryable_fuel e) (exc_heap e) [exc_id e] ∅).
Proof.
  apply retryable_loop_total. unfold loop_measure, retryable_fuel. simpl.
  assert (size (dom (exc_heap e) ∖ ∅) <= size (exc_heap e)); [|lia].
  rewrite <-size_dom. apply subseteq_size. set_solver.
Qed.

Section retry_lemmas.
Context {S A : Type} (op : S -> result exc A * S) (p : retry_policy).

(** A property of the state kept by each call is kept by the loop. *)
Lemma retry_loop_invariant (I : S -> Prop) (Q : A -> S -> Prop) :
  (forall s r s', I s -> op s = (r, s') -> match r with Ok a => Q a s' | Err _ => I s' end) ->
  forall remaining delay s r s' ds,
    I s -> retry_loop op p remaining delay s = (r, s', ds) ->
    match r with Ok a => Q a s' | Err _ => I s' end.
Proof using.
  intros Hop remaining. induction remaining as [|n IH]; intros delay s r s' ds HI; simpl;
    destruct (op s) as [[a|e] s1] eqn:Ho; intros Hr; pose proof (Hop _ _ _ HI Ho) as H1; simplify_eq; try done.
  destruct (is_retryable_persistence_error e); simplify_eq; [|done].
  destruct (retry_loop op p n (next_delay p delay) s1) as [[r2 s2] ds2] eqn:H2. injection Hr as -> -> _.
  exact (IH _ _ _ _ _ H1 H2).
Qed.

Lemma call_store_with_retry_spec (I : S -> Prop) (Q : A -> S -> Prop) s r s' :
  (forall s r s', I s -> op s = (r, s') -> match r with Ok a => Q a s' | Err _ => I s' end) ->
  I s -> call_store_with_retry op p s = (r, s') ->
  match r with Ok a => Q a s' | Err _ => I s' end.
Proof using.
  intros Hop HI. unfold call_store_with_retry, call_store_with_retry_trace.
  destruct (retry_loop _ _ _ _ _) as [[r1 s1] ds] eqn:E. simpl. intros [= -> ->].
  by eapply retry_loop_invariant.
Qed.

Lemma retry_loop_bounds remaining delay s r s' ds :
  (0 <= delay <= Z.max (pol_initial_delay p) (pol_max_delay p))%Z ->
  (0 <= pol_initial_delay p)%Z -> (0 <= pol_max_delay p)%Z -> (0 <= pol_backoff_factor p)%Z ->
  retry_loop op p remaining delay s = (r, s', ds) ->
  length ds <= remaining
  /\ Forall (fun d => 0 < d <= Z.max (pol_initial_delay p) (pol_max_delay p))%Z ds.
Proof using.
  intros Hd Hi Hm Hb. revert delay s r s' ds Hd.
  induction remaining as [|n IH]; intros delay s r s' ds Hd; simpl;
    destruct (op s) as [[a|e] s1] eqn:Ho; intros Hr; simplify_eq; [split; [simpl; lia|done]..|].
  destruct (is_retryable_persistence_error e); simplify_eq; [|split; [simpl; lia|done]].
  destruct (retry_loop op p n (next_delay p delay) s1) as [[r2 s2] ds2] eqn:H2. simplify_eq.
  assert (0 <= next_delay p delay <= Z.max (pol_initial_delay p) (pol_max_delay p))%Z as Hn.
  { unfold next_delay. case_match; nia. }
  destruct (IH _ _ _ _ _ Hn H2) as [Hl Hf].
  destruct (Z.ltb_spec 0 delay); simpl; (split; [lia|]); [constructor; [lia|done]|done].
Qed.
End retry_lemmas.

(** * Properties *)

(** The retryability test terminates on every exception graph, cyclic
    ones included, and answers [True] exactly when some exception reachable
    through [orig], [__cause__] and [__context__] is a transient SQLite one. *)
Theorem retryable_iff_reachable (e : exc) :
  is_Some (retryable_loop (retryable_fuel e) (exc_heap e) [exc_id e] ∅)
  /\ (is_retryable_persistence_error e = true <->
        exists j n, star (exc_link (exc_heap e)) (exc_id e) j
          /\ exc_heap e !! j = Some n /\ node_retryable n = true).
Proof.
  split; [apply retryable_loop_enough|]. unfold is_retryable_persistence_error.
  destruct (retryable_loop_enough e) as [b Hb]. rewrite Hb. destruct b.
  - split; [intros _|done]. apply retryable_loop_sound in Hb as (i & j & n & Hi & H).
    apply list_elem_of_singleton in Hi as ->. eauto.
  - split; [done|]. intros (j & n & Hs & Hj & Hn).
    assert (node_retryable n = false); [|congruence].
    eapply (retryable_loop_complete (exc_heap e) _ [exc_id e] ∅); [| |exact Hb| |exact Hs|exact Hj];
      set_solver.
Qed.

(** Bounded retries.  A store call is attempted at most [max_attempts]
    times: it sleeps at most [max_attempts - 1] times, each sleep is positive
    and no longer than the larger of the initial and the maximal delay, and an
    error that is not transient is raised after the first attempt. *)
Theorem retry_bounded {S A} (op : S -> result exc A * S) (p : retry_policy) (s : S) :
  (0 <= pol_initial_delay p)%Z -> (0 <= pol_max_delay p)%Z -> (0 <= pol_backoff_factor p)%Z ->
  let '(r, s', ds) := call_store_with_retry_trace op p s in
  length ds <= pol_max_attempts p - 1
  /\ Forall (fun d => 0 < d <= Z.max (pol_initial_delay p) (pol_max_delay p))%Z ds
  /\ (forall e s1, op s = (Err e, s1) -> is_retryable_persistence_error e = false ->
        (r, s', ds) = (Err e, s1, [])).
Proof.
  intros Hi Hm Hb. destruct (call_store_with_retry_trace op p s) as [[r s'] ds] eqn:E.
  assert (0 <= pol_initial_delay p <= Z.max (pol_initial_delay p) (pol_max_delay p))%Z as Hd by lia.
  pose proof (retry_loop_bounds op p _ _ _ _ _ _ Hd Hi Hm Hb E) as [Hl Hf].
  split; [done|]. split; [done|]. intros e s1 He Hr.
  unfold call_store_with_retry_trace in E.
  destruct (pol_max_attempts p - 1); simpl in E; rewrite He, ?Hr in E; congruence.
Qed.

(** A store that is locked twice and then answers. *)
Definition demo_exc : exc :=
  mk_exc {[0 := mk_exc_node "wrapped" false None (Some 1) None (Some 0);
           1 := mk_exc_node "Database is LOCKED" true None None (Some 0) None]} 0.
Definition demo_op (n : nat) : result exc Z * nat :=
  match n with
  | O => (Ok 7%Z, O)
  | Datatypes.S n => (Err demo_exc, n)
  end.

Lemma retry_bounded_witness :
  call_store_with_retry_trace demo_op default_policy 2 = (Ok 7%Z, 0, [50%Z; 100%Z])
  /\ length [50%Z; 100%Z] <= 4.
Proof.
  assert (E : call_store_with_retry_trace demo_op default_policy 2 = (Ok 7%Z, 0, [50%Z; 100%Z]))
    by (vm_compute; reflexivity).
  split; [exact E|].
  pose proof (retry_bounded demo_op default_policy 2) as H. rewrite E in H.
  apply H; vm_compute; discriminate.
Defined.
