(* ===== verification/StoreApi.v ===== *)
(** * The interface between the run manager and its store

    [runtime/runs/store/base.py], class [RunStore]: the operations the manager
    calls, each of which may raise, and what the contract promises about them.
    [MemoryRunStore] is one implementation; [scripted_store] is a store whose
    calls fail according to a script, used to exercise the error paths. *)
From S2P Require Import Prelude RunStore Retry.

(** ** Operations *)

Class RunStoreApi (S : Type) : Type := {
  api_put : string -> put_args -> Z -> S -> result exc unit * S;
  api_get : string -> S -> result exc (option run_row) * S;
  api_list_by_thread : string -> option string -> Z -> S -> result exc (list run_row) * S;
  api_update_status :
    string -> string -> option string -> option Z -> Z -> S -> result exc bool * S;
  api_update_model_name : string -> option string -> Z -> S -> result exc unit * S;
  api_update_run_completion :
    string -> string -> completion_args -> option Z -> Z -> S -> result exc bool * S;
  api_update_run_progress :
    string -> list (string * option json) -> Z -> S -> result exc unit * S;
  api_request_cancel : string -> string -> Z -> S -> result exc bool * S;
  api_get_cancel_intent : string -> S -> result exc (option (bool * option string)) * S;
  api_list_inflight : option Z -> Z -> S -> result exc (list run_row) * S
}.

(** A call that raises leaves the rows as they are; one that returns has the
    answer and the effect of the reference operation on the rows. *)
Definition implements {S A} (rows : S -> run_store) (call : S -> result exc A * S)
    (spec : run_store -> A * run_store) : Prop :=
  forall s r s', call s = (r, s') ->
    match r with
    | Ok a => (a, rows s') = spec (rows s)
    | Err _ => rows s' = rows s
    end.

(** The contract. *)
Class RunStoreLaws (S : Type) `{RunStoreApi S} : Type := {
  api_rows : S -> run_store;
  api_put_law id a now :
    implements api_rows (api_put id a now) (fun d => (tt, store_put id a now d));
  api_get_law id : implements api_rows (api_get id) (fun d => (store_get id None d, d));
  api_list_by_thread_law t o n :
    implements api_rows (api_list_by_thread t o n) (fun d => (store_list_by_thread t o n d, d));
  api_update_status_law id st e v now :
    implements api_rows (api_update_status id st e v now) (store_update_status id st e v now);
  api_update_model_name_law id m now :
    implements api_rows (api_update_model_name id m now)
      (fun d => (tt, store_update_model_name id m now d));
  api_update_run_completion_law id st a v now :
    implements api_rows (api_update_run_completion id st a v now)
      (store_update_run_completion id st a v now);
  api_update_run_progress_law id u now :
    implements api_rows (api_update_run_progress id u now)
      (fun d => (tt, store_update_run_progress id u now d));
  api_request_cancel_law id act now :
    implements api_rows (api_request_cancel id act now) (store_request_cancel id act now);
  api_get_cancel_intent_law id :
    implements api_rows (api_get_cancel_intent id) (fun d => (store_get_cancel_intent id d, d));
  api_list_inflight_law b now :
    implements api_rows (api_list_inflight b now) (fun d => (store_list_inflight b now d, d))
}.

(** ** MemoryRunStore never raises *)

Definition ok_call {A} (f : run_store -> A * run_store) (s : run_store) : result exc A * run_store :=
  let '(a, s') := f s in (Ok a, s').

#[global] Instance memory_api : RunStoreApi run_store := {|
  api_put id a now := ok_call (fun d => (tt, store_put id a now d));
  api_get id := ok_call (fun d => (store_get id None d, d));
  api_list_by_thread t o n := ok_call (fun d => (store_list_by_thread t o n d, d));
  api_update_status id st e v now := ok_call (store_update_status id st e v now);
  api_update_model_name id m now := ok_call (fun d => (tt, store_update_model_name id m now d));
  api_update_run_completion id st a v now := ok_call (store_update_run_completion id st a v now);
  api_update_run_progress id u now := ok_call (fun d => (tt, store_update_run_progress id u now d));
  api_request_cancel id act now := ok_call (store_request_cancel id act now);
  api_get_cancel_intent id := ok_call (fun d => (store_get_cancel_intent id d, d));
  api_list_inflight b now := ok_call (fun d => (store_list_inflight b now d, d))
|}.

(** ** A store that raises according to a script: one entry per call *)

Abbreviation scripted_store := (list (option exc) * run_store)%type.

Definition scripted_call {A} (f : run_store -> A * run_store) (s : scripted_store) :
    result exc A * scripted_store :=
  match s with
  | (Some e :: script, d) => (Err e, (script, d))
  | (script, d) => let '(a, d') := f d in (Ok a, (tail script, d'))
  end.

#[global] Instance scripted_api : RunStoreApi scripted_store := {|
  api_put id a now := scripted_call (fun d => (tt, store_put id a now d));
  api_get id := scripted_call (fun d => (store_get id None d, d));
  api_list_by_thread t o n := scripted_call (fun d => (store_list_by_thread t o n d, d));
  api_update_status id st e v now := scripted_call (store_update_status id st e v now);
  api_update_model_name id m now := scripted_call (fun d => (tt, store_update_model_name id m now d));
  api_update_run_completion id st a v now := scripted_call (store_update_run_completion id st a v now);
  api_update_run_progress id u now :=
    scripted_call (fun d => (tt, store_update_run_progress id u now d));
  api_request_cancel id act now := scripted_call (store_request_cancel id act now);
  api_get_cancel_intent id := scripted_call (fun d => (store_get_cancel_intent id d, d));
  api_list_inflight b now := scripted_call (fun d => (store_list_inflight b now d, d))
|}.

(** * Lemmas *)

Lemma ok_call_implements {A} (f : run_store -> A * run_store) : implements id (ok_call f) f.
Proof. intros s r s'. unfold ok_call. destruct (f s) as [a s1] eqn:E. intros [= <- <-]. done. Qed.

Lemma scripted_call_implements {A} (f : run_store -> A * run_store) :
  implements snd (scripted_call f) f.
Proof.
  intros [script d] r s'. unfold scripted_call. destruct script as [|[e|] script].
  - destruct (f d) as [a d1] eqn:E. intros [= <- <-]. simpl. congruence.
  - by intros [= <- <-].
  - destruct (f d) as [a d1] eqn:E. intros [= <- <-]. simpl. congruence.
Qed.

#[global] Instance memory_laws : RunStoreLaws run_store.
Proof. exists id; intros; apply ok_call_implements. Defined.

#[global] Instance scripted_laws : RunStoreLaws scripted_store.
Proof. exists snd; intros; apply scripted_call_implements. Defined.

(** Retrying a lawful call is lawful. *)
Lemma retry_implements {S A} (rows : S -> run_store) (call : S -> result exc A * S)
    (spec : run_store -> A * run_store) (p : retry_policy) :
  implements rows call spec -> implements rows (call_store_with_retry call p) spec.
Proof.
  intros Hc s r s' Hr.
  eapply (call_store_with_retry_spec call p
            (fun s1 => rows s1 = rows s) (fun a s1 => (a, rows s1) = spec (rows s))); [|done|done].
  intros s1 r1 s2 H1 H2. specialize (Hc _ _ _ H2). destruct r1; by rewrite <-H1.
Qed.

(** A read answers from the rows and changes nothing. *)
Lemma implements_read {S A} (rows : S -> run_store) (call : S -> result exc A * S)
    (f : run_store -> A) s r s' :
  implements rows call (fun d => (f d, d)) -> call s = (r, s') ->
  rows s' = rows s /\ match r with Ok a => a = f (rows s) | Err _ => True end.
Proof. intros Hc Hs. specialize (Hc _ _ _ Hs). destruct r; by simplify_eq. Qed.
