(* ===== verification/Ownership.v ===== *)
(** * Run ownership leases

    [runtime/runs/ownership.py]: the lease record and its Redis text, the key
    scheme, the atomic claim, and the two token-gated scripts (renew and
    release).  Redis is an interface: a class of operations and a class of the
    documented laws the code relies on (SET NX EX, SET EX, GET, DEL, expiry).
    Instants are microseconds, TTLs are seconds. *)
From S2P Require Import Prelude.
From Stdlib Require Import Ascii.

(** ** Redis *)

Class Redis (R : Type) : Type := {
  redis_get : string -> Z -> R -> option json;
  redis_set_nx_ex : string -> json -> Z -> Z -> R -> bool * R;
  redis_set_ex : string -> json -> Z -> Z -> R -> R;
  redis_del : string -> Z -> R -> Z * R
}.

Definition seconds (n : Z) : Z := (n * 1000000)%Z.

(** What the server documents: a written key reads back until its TTL has
    elapsed and not after, NX writes only over an absent key, DEL removes and
    counts, other keys are not affected, and an expired key stays absent. *)
Class RedisLaws (R : Type) `{Redis R} : Prop := {
  redis_expiry k t t' (r : R) :
    (t <= t')%Z -> redis_get k t r = None -> redis_get k t' r = None;
  redis_stable k t t' v (r : R) :
    (t <= t')%Z -> redis_get k t' r = Some v -> redis_get k t r = Some v;
  redis_set_ex_eq k v ttl now t (r : R) :
    (now <= t)%Z ->
    redis_get k t (redis_set_ex k v ttl now r)
    = if (t <? now + seconds ttl)%Z then Some v else None;
  redis_set_ex_ne k k' v ttl now t (r : R) :
    k <> k' -> redis_get k' t (redis_set_ex k v ttl now r) = redis_get k' t r;
  redis_set_nx_taken k v ttl now w (r : R) :
    redis_get k now r = Some w -> redis_set_nx_ex k v ttl now r = (false, r);
  redis_set_nx_free k v ttl now (r : R) :
    redis_get k now r = None -> redis_set_nx_ex k v ttl now r = (true, redis_set_ex k v ttl now r);
  redis_del_eq k now t (r : R) : redis_get k t (redis_del k now r).2 = None;
  redis_del_ne k k' now t (r : R) :
    k <> k' -> redis_get k' t (redis_del k now r).2 = redis_get k' t r;
  redis_del_count k now v (r : R) :
    redis_get k now r = Some v -> (redis_del k now r).1 = 1%Z
}.

(** ** Constants, keys, records *)

Definition LEASE_TTL_SECONDS : Z := 30.
Definition HEARTBEAT_INTERVAL_SECONDS : Z := 10.
Definition OWNERSHIP_KEY_PREFIX : string := "deerflow:run:ownership".

Inductive lease_error : Type :=
| LE_org_required
| LE_run_required
| LE_bad_value.

(** [ownership_key]. *)
Definition ownership_key (org_id run_id : string) : result lease_error string :=
  if String.eqb org_id "" then Err LE_org_required
  else if String.eqb run_id "" then Err LE_run_required
  else Ok (OWNERSHIP_KEY_PREFIX +:+ ":" +:+ org_id +:+ ":" +:+ run_id).

Record ClaimRecord : Type := mk_claim {
  claim_run_id : string;
  claim_worker_id : string;
  claim_lease_token : string;
  claim_lease_expires_at : Z;
  claim_worker_version : string;
  claim_claimed_at : Z
}.

#[global] Instance ClaimRecord_eq_dec : EqDecision ClaimRecord.
Proof. solve_decision. Defined.

(** [ClaimRecord.to_redis_value]: a JSON object with sorted keys. *)
Definition to_redis_value (c : ClaimRecord) : json :=
  JObj [("claimed_at", JIso (claim_claimed_at c));
        ("lease_expires_at", JIso (claim_lease_expires_at c));
        ("lease_token", JStr (claim_lease_token c));
        ("run_id", JStr (claim_run_id c));
        ("worker_id", JStr (claim_worker_id c));
        ("worker_version", JStr (claim_worker_version c))].

Definition json_str (k : string) (l : list (string * json)) : result lease_error string :=
  match dict_get k l with
  | Some (JStr s) => Ok s
  | _ => Err LE_bad_value
  end.

Definition json_iso (k : string) (l : list (string * json)) : result lease_error Z :=
  match dict_get k l with
  | Some (JIso t) => Ok t
  | _ => Err LE_bad_value
  end.

Open Scope py_scope.

(** [ClaimRecord.from_redis_value]; [worker_version] may be missing. *)
Definition from_redis_value (raw : option json) : result lease_error (option ClaimRecord) :=
  match raw with
  | None => Ok None
  | Some (JObj d) =>
      let! run_id := json_str "run_id" d in
      let! worker_id := json_str "worker_id" d in
      let! lease_token := json_str "lease_token" d in
      let! expires := json_iso "lease_expires_at" d in
      let! version :=
        match dict_get "worker_version" d with
        | None => Ok ""
        | Some (JStr s) => Ok s
        | Some _ => Err LE_bad_value
        end in
      let! claimed := json_iso "claimed_at" d in
      Ok (Some (mk_claim run_id worker_id lease_token expires version claimed))
  | Some _ => Err LE_bad_value
  end.

Record ClaimResult : Type := mk_claim_result {
  cr_record : option ClaimRecord;
  cr_current_holder : option ClaimRecord
}.

Definition acquired (c : ClaimResult) : bool :=
  match cr_record c with Some _ => true | None => false end.

(** [is_expired]. *)
Definition is_expired (c : ClaimRecord) (now : Z) : bool := (claim_lease_expires_at c <=? now)%Z.

(** The record a claim builds; the token is the fresh value of
    [new_lease_token()]. *)
Definition new_claim (run_id worker_id version token : string) (ttl now : Z) : ClaimRecord :=
  mk_claim run_id worker_id token (now + seconds ttl) version now.

(** ** NullLeaseStore *)

Definition null_claim (run_id worker_id version token : string) (ttl now : Z) : ClaimResult :=
  mk_claim_result (Some (new_claim run_id worker_id version token ttl now)) None.
Definition null_renew : bool := true.
Definition null_release : bool := true.
Definition null_get_holder : option ClaimRecord := None.

(** ** RedisLeaseStore *)

(** [t['lease_token'] ~= ARGV[1]], negated. *)
Definition token_matches (token : string) (t : list (string * json)) : bool :=
  match dict_get "lease_token" t with
  | Some (JStr s) => String.eqb s token
  | _ => false
  end.

Section redis_lease.
Context {R : Type} `{Redis R}.

(** [_RENEW_SCRIPT]: compare the stored token, then rewrite the stored
    [lease_expires_at] and the key's TTL together. *)
Definition renew_script (key token : string) (ttl new_expires now : Z) (r : R) : Z * R :=
  match redis_get key now r with
  | Some (JObj t) =>
      if token_matches token t
      then (1%Z, redis_set_ex key (JObj (dict_set "lease_expires_at" (JIso new_expires) t)) ttl now r)
      else (0%Z, r)
  | _ => (0%Z, r)
  end.

(** [_RELEASE_SCRIPT]: compare the stored token, then delete the key. *)
Definition release_script (key token : string) (now : Z) (r : R) : Z * R :=
  match redis_get key now r with
  | Some (JObj t) =>
      if token_matches token t
      then redis_del key now r
      else (0%Z, r)
  | _ => (0%Z, r)
  end.

(** [RedisLeaseStore.get_holder]. *)
Definition redis_get_holder (org_id run_id : string) (now : Z) (r : R) :
    result lease_error (option ClaimRecord) :=
  let! key := ownership_key org_id run_id in
  from_redis_value (redis_get key now r).

(** [RedisLeaseStore.claim]. *)
Definition redis_claim (run_id org_id worker_id version token : string) (ttl now : Z) (r : R) :
    result lease_error ClaimResult * R :=
  let record := new_claim run_id worker_id version token ttl now in
  match ownership_key org_id run_id with
  | Err e => (Err e, r)
  | Ok key =>
      let '(ok, r') := redis_set_nx_ex key (to_redis_value record) ttl now r in
      if ok then (Ok (mk_claim_result (Some record) None), r')
      else
        (let! holder := redis_get_holder org_id run_id now r' in
         Ok (mk_claim_result None holder), r')
  end.

(** [RedisLeaseStore.renew]. *)
Definition redis_renew (c : ClaimRecord) (org_id : string) (ttl now : Z) (r : R) :
    result lease_error bool * R :=
  match ownership_key org_id (claim_run_id c) with
  | Err e => (Err e, r)
  | Ok key =>
      let '(n, r') := renew_script key (claim_lease_token c) ttl (now + seconds ttl) now r in
      (Ok (negb (Z.eqb n 0)), r')
  end.

(** [RedisLeaseStore.release]. *)
Definition redis_release (c : ClaimRecord) (org_id : string) (now : Z) (r : R) :
    result lease_error bool * R :=
  match ownership_key org_id (claim_run_id c) with
  | Err e => (Err e, r)
  | Ok key =>
      let '(n, r') := release_script key (claim_lease_token c) now r in
      (Ok (negb (Z.eqb n 0)), r')
  end.

(** ** Lease traffic: every operation of every worker, as time passes *)

Inductive lease_step : Z * R -> Z * R -> Prop :=
| lease_tick now now' r : (now <= now')%Z -> lease_step (now, r) (now', r)
| lease_claim now r run org worker version token ttl res r' :
    redis_claim run org worker version token ttl now r = (res, r') ->
    lease_step (now, r) (now, r')
| lease_renew now r c org ttl res r' :
    redis_renew c org ttl now r = (res, r') -> lease_step (now, r) (now, r')
| lease_release now r c org res r' :
    redis_release c org now r = (res, r') -> lease_step (now, r) (now, r').

(** Every live lease is recorded with the expiry the server will enforce. *)
Definition lease_inv (st : Z * R) : Prop :=
  forall key t raw,
    (st.1 <= t)%Z -> redis_get key t st.2 = Some raw ->
    exists c, from_redis_value (Some raw) = Ok (Some c) /\ is_expired c t = false.
End redis_lease.

(** ** A concrete server: a map from keys to values with a deadline *)

Abbreviation redis_map := (gmap string (json * Z)).

#[global] Instance redis_map_ops : Redis redis_map := {|
  redis_get k now r :=
    match r !! k with
    | Some (v, deadline) => if (now <? deadline)%Z then Some v else None
    | None => None
    end;
  redis_set_nx_ex k v ttl now r :=
    match r !! k with
    | Some (_, deadline) =>
        if (now <? deadline)%Z then (false, r) else (true, <[k := (v, now + seconds ttl)%Z]> r)
    | None => (true, <[k := (v, now + seconds ttl)%Z]> r)
    end;
  redis_set_ex k v ttl now r := <[k := (v, now + seconds ttl)%Z]> r;
  redis_del k now r :=
    match r !! k with
    | Some (_, deadline) => (if (now <? deadline)%Z then 1%Z else 0%Z, delete k r)
    | None => (0%Z, r)
    end
|}.

#[global] Instance redis_map_laws : RedisLaws redis_map.
Proof.
  split; simpl; intros.
  - destruct (r !! k) as [[v d]|]; [|done].
    destruct (Z.ltb_spec t d), (Z.ltb_spec t' d); try done; lia.
  - destruct (r !! k) as [[w d]|]; [|done].
    destruct (Z.ltb_spec t d), (Z.ltb_spec t' d); try done; lia.
  - by rewrite lookup_insert_eq.
  - by rewrite lookup_insert_ne.
  - destruct (r !! k) as [[v' d]|]; [|done]. by destruct (now <? d)%Z.
  - destruct (r !! k) as [[v' d]|]; [|done]. by destruct (now <? d)%Z.
  - destruct (r !! k) as [[v d]|] eqn:E; simpl; [by rewrite lookup_delete_eq|by rewrite E].
  - destruct (r !! k) as [[v d]|]; simpl; [by rewrite lookup_delete_ne|done].
  - destruct (r !! k) as [[v' d]|]; [|done]. simpl. by destruct (now <? d)%Z.
Qed.

(** * Lemmas *)

Lemma from_to_redis_value c : from_redis_value (Some (to_redis_value c)) = Ok (Some c).
Proof. by destruct c. Qed.

(** The fields a decodable value has. *)
Lemma from_redis_value_fields d c :
  from_redis_value (Some (JObj d)) = Ok (Some c) ->
  dict_get "run_id" d = Some (JStr (claim_run_id c))
  /\ dict_get "worker_id" d = Some (JStr (claim_worker_id c))
  /\ dict_get "lease_token" d = Some (JStr (claim_lease_token c))
  /\ dict_get "lease_expires_at" d = Some (JIso (claim_lease_expires_at c))
  /\ dict_get "claimed_at" d = Some (JIso (claim_claimed_at c))
  /\ (dict_get "worker_version" d = Some (JStr (claim_worker_version c))
      \/ dict_get "worker_version" d = None /\ claim_worker_version c = "").
Proof.
  unfold from_redis_value, json_str, json_iso, result_bind. intros Hc.
  repeat (case_match; simplify_eq/=); by auto 10.
Qed.

Lemma from_redis_value_renewed d t c :
  from_redis_value (Some (JObj d)) = Ok (Some c) ->
  from_redis_value (Some (JObj (dict_set "lease_expires_at" (JIso t) d)))
  = Ok (Some (mk_claim (claim_run_id c) (claim_worker_id c) (claim_lease_token c) t
                (claim_worker_version c) (claim_claimed_at c))).
Proof.
  intros (H1 & H2 & H3 & _ & H5 & H6)%from_redis_value_fields.
  unfold from_redis_value, json_str, json_iso.
  rewrite dict_get_set_eq, !(dict_get_set_ne "lease_expires_at") by done.
  rewrite H1, H2, H3, H5. by destruct H6 as [->|[-> ->]].
Qed.

Lemma token_matches_claim d c token :
  from_redis_value (Some (JObj d)) = Ok (Some c) ->
  token_matches token d = String.eqb (claim_lease_token c) token.
Proof. intros (_ & _ & H3 & _)%from_redis_value_fields. unfold token_matches. by rewrite H3. Qed.

Lemma ownership_key_Ok org run key :
  ownership_key org run = Ok key ->
  key = OWNERSHIP_KEY_PREFIX +:+ ":" +:+ org +:+ ":" +:+ run.
Proof. unfold ownership_key. intros H. split_tests; done. Qed.

Section redis_lease_lemmas.
Context {R : Type} `{RedisLaws R}.
Implicit Types (r : R) (c : ClaimRecord).

(** Writing a claim record with the matching TTL keeps the invariant. *)
Lemma lease_inv_set key c ttl now r :
  claim_lease_expires_at c = (now + seconds ttl)%Z -> lease_inv (now, r) ->
  forall raw, from_redis_value (Some raw) = Ok (Some c) ->
  lease_inv (now, redis_set_ex key raw ttl now r).
Proof.
  intros Hexp Hinv raw Hraw key' t raw' Ht Hget. simpl in *.
  destruct (decide (key = key')) as [<-|Hne].
  - rewrite redis_set_ex_eq in Hget by done.
    destruct (Z.ltb_spec t (now + seconds ttl)); [|done]. simplify_eq.
    exists c. split; [done|]. unfold is_expired. rewrite Hexp. by apply Z.leb_gt.
  - rewrite redis_set_ex_ne in Hget by done. by eapply Hinv.
Qed.

Lemma lease_step_inv st st' : lease_step st st' -> lease_inv st -> lease_inv st'.
Proof.
  intros Hstep Hinv. destruct Hstep as [now now' r Hle|now r run org w v token ttl res r' Hc
    |now r c org ttl res r' Hc|now r c org res r' Hc].
  - intros key t raw Ht Hget. simpl in *. by eapply Hinv; [etrans|].
  - unfold redis_claim in Hc. destruct (ownership_key org run) as [key|]; [|by simplify_eq].
    destruct (redis_get key now r) as [w'|] eqn:Hg.
    + rewrite (redis_set_nx_taken _ _ _ _ _ _ Hg) in Hc. by simplify_eq.
    + rewrite (redis_set_nx_free _ _ _ _ _ Hg) in Hc. simplify_eq.
      eapply (lease_inv_set key (new_claim run w v token ttl now)); [done..|]. apply from_to_redis_value.
  - unfold redis_renew, renew_script in Hc.
    destruct (ownership_key org (claim_run_id c)) as [key|]; [|by simplify_eq].
    destruct (redis_get key now r) as [raw|] eqn:Hg; [|by simplify_eq].
    destruct (Hinv key now raw (Z.le_refl _) Hg) as (c0 & Hc0 & _).
    destruct raw; try by simplify_eq.
    destruct (token_matches _ _); [|by simplify_eq]. simplify_eq.
    eapply lease_inv_set; [|done|by apply from_redis_value_renewed]. done.
  - unfold redis_release, release_script in Hc.
    destruct (ownership_key org (claim_run_id c)) as [key|]; [|by simplify_eq].
    destruct (redis_get key now r) as [raw|] eqn:Hg; [|by simplify_eq].
    destruct raw; try by simplify_eq. destruct (token_matches _ _); [|by simplify_eq].
    destruct (redis_del key now r) as [n r1] eqn:Hd. simplify_eq.
    intros key' t raw Ht Hget. simpl in *.
    replace r' with (redis_del key now r).2 in Hget by (by rewrite Hd).
    destruct (decide (key = key')) as [<-|Hne].
    + by rewrite redis_del_eq in Hget.
    + rewrite redis_del_ne in Hget by done. by eapply Hinv.
Qed.
End redis_lease_lemmas.

Lemma string_app_cons_eq a s1 s2 : String a s1 +:+ s2 = String a (s1 +:+ s2).
Proof. done. Qed.

Lemma string_app_inj_l p s1 s2 : p +:+ s1 = p +:+ s2 -> s1 = s2.
Proof. induction p as [|a p IH]; [done|]. rewrite !string_app_cons_eq. intros [= ?]. auto. Qed.

(** * Properties *)

(** Exclusive claim.  While a successful claim's TTL runs, every other
    claim of the same run, by any worker with any token, is refused, changes
    nothing, and reports the winner as the current holder. *)
Theorem lease_claim_exclusive {R} `{RedisLaws R}
    (run org w1 v1 tok1 w2 v2 tok2 : string) (ttl ttl2 now t : Z) (c : ClaimRecord) (r r1 : R) :
  redis_claim run org w1 v1 tok1 ttl now r = (Ok (mk_claim_result (Some c) None), r1) ->
  (now <= t < now + seconds ttl)%Z ->
  redis_claim run org w2 v2 tok2 ttl2 t r1 = (Ok (mk_claim_result None (Some c)), r1).
Proof.
  unfold redis_claim, redis_get_holder. intros Hc Ht.
  destruct (ownership_key org run) as [key|e] eqn:Hk; [|done]. cbn [result_bind].
  destruct (redis_get key now r) as [w|] eqn:Hg.
  - rewrite (redis_set_nx_taken _ _ _ _ _ _ Hg) in Hc. unfold result_bind in Hc.
    case_match; simplify_eq.
  - rewrite (redis_set_nx_free _ _ _ _ _ Hg) in Hc. simplify_eq.
    assert (redis_get key t (redis_set_ex key (to_redis_value (new_claim run w1 v1 tok1 ttl now))
              ttl now r) = Some (to_redis_value (new_claim run w1 v1 tok1 ttl now))) as Hget.
    { rewrite redis_set_ex_eq by lia. by rewrite (proj2 (Z.ltb_lt _ _)) by lia. }
    rewrite (redis_set_nx_taken _ _ _ _ _ _ Hget), Hget. by rewrite from_to_redis_value.
Qed.

Lemma lease_claim_exclusive_witness :
  (redis_claim "run" "org" "w2" "v" "tok2" 30 5 (redis_claim "run" "org" "w1" "v" "tok1" 30 0 (∅ : redis_map)).2).1
  = Ok (mk_claim_result None (Some (new_claim "run" "w1" "v" "tok1" 30 0))).
Proof.
  refine (f_equal fst (lease_claim_exclusive "run" "org" "w1" "v" "tok1" "w2" "v" "tok2" 30 30 0 5
            (new_claim "run" "w1" "v" "tok1" 30 0) (∅ : redis_map) _ _ _)).
  - vm_compute. reflexivity.
  - split; vm_compute; congruence.
Defined.

(** Token-gated renew and release.  A record whose token is not the
    stored one can neither extend nor drop the lease: both calls answer
    [False] and leave the server as it is, so an expired owner never clobbers
    the new one. *)
Theorem stale_owner_is_powerless {R} `{RedisLaws R}
    (org : string) (c holder : ClaimRecord) (ttl now : Z) (r : R) :
  redis_get_holder org (claim_run_id c) now r = Ok (Some holder) ->
  claim_lease_token holder <> claim_lease_token c ->
  redis_renew c org ttl now r = (Ok false, r) /\ redis_release c org now r = (Ok false, r).
Proof.
  unfold redis_get_holder, redis_renew, redis_release, renew_script, release_script.
  destruct (ownership_key org (claim_run_id c)) as [key|e]; cbn [result_bind]; [|done].
  intros Hget Htok. destruct (redis_get key now r) as [raw|] eqn:Hg; [|done].
  destruct raw as [| | | | | |d]; try done.
  rewrite (token_matches_claim _ _ _ Hget). by rewrite (proj2 (String.eqb_neq _ _) Htok).
Qed.

Definition demo_redis : redis_map := (redis_claim "run" "org" "w2" "v" "tok2" 30 40000000 ∅).2.
Definition demo_old_claim : ClaimRecord := new_claim "run" "w1" "v" "tok1" 30 0.

Lemma stale_owner_is_powerless_witness :
  redis_renew demo_old_claim "org" 30 40000001 demo_redis = (Ok false, demo_redis)
  /\ redis_release demo_old_claim "org" 40000001 demo_redis = (Ok false, demo_redis).
Proof.
  apply (stale_owner_is_powerless "org" demo_old_claim (new_claim "run" "w2" "v" "tok2" 30 40000000)).
  - vm_compute. reflexivity.
  - vm_compute. discriminate.
Defined.

(** The recorded expiry is the enforced one.  Starting from an empty
    server, after any interleaving of claims, renewals and releases by any
    workers, the holder read at the current time is never expired by
    [is_expired]: a reconciler cannot reclaim a run whose lease is alive. *)
Theorem live_lease_never_looks_expired {R} `{RedisLaws R} (st0 st : Z * R)
    (org run : string) (c : ClaimRecord) :
  (forall key t, (st0.1 <= t)%Z -> redis_get key t st0.2 = None) ->
  star lease_step st0 st ->
  redis_get_holder org run st.1 st.2 = Ok (Some c) ->
  is_expired c st.1 = false.
Proof.
  intros Hempty Hstar Hget.
  assert (lease_inv st) as Hinv.
  { eapply star_invariant; [apply lease_step_inv|exact Hstar|].
    intros key t raw Ht. by rewrite Hempty. }
  unfold redis_get_holder in Hget. destruct (ownership_key org run) as [key|e]; [|done].
  cbn [result_bind] in Hget. destruct (redis_get key st.1 st.2) as [raw|] eqn:Hg; [|done].
  destruct (Hinv key st.1 raw (Z.le_refl _) Hg) as (c' & Hc' & He). congruence.
Qed.

Lemma live_lease_never_looks_expired_witness :
  redis_get_holder "org" "run" 40000000 demo_redis = Ok (Some (new_claim "run" "w2" "v" "tok2" 30 40000000))
  /\ is_expired (new_claim "run" "w2" "v" "tok2" 30 40000000) 40000000 = false.
Proof.
  assert (H : redis_get_holder "org" "run" 40000000 demo_redis
              = Ok (Some (new_claim "run" "w2" "v" "tok2" 30 40000000))) by (vm_compute; reflexivity).
  refine (conj H (live_lease_never_looks_expired (40000000%Z, ∅ : redis_map)
                    (40000000%Z, demo_redis) "org" "run" _ _ _ H)).
  - intros key t _. simpl. by rewrite lookup_empty.
  - eapply star_step; [|apply star_refl].
    eapply (lease_claim _ _ "run" "org" "w2" "v" "tok2" 30). unfold demo_redis.
    apply surjective_pairing.
Defined.

(** Key isolation.  Two runs whose Org ids contain no colon share an
    ownership key only if they are the same run of the same Org. *)
Theorem ownership_key_injective (org org' run run' key : string) :
  no_colon org = true -> no_colon org' = true ->
  ownership_key org run = Ok key -> ownership_key org' run' = Ok key ->
  org = org' /\ run = run'.
Proof.
  intros H1 H2 K1%ownership_key_Ok K2%ownership_key_Ok. rewrite K1 in K2.
  apply string_app_inj_l in K2. apply string_app_inj_l in K2. by apply colon_split in K2.
Qed.

Lemma ownership_key_injective_witness : "o1" = "o1" /\ "r1" = "r1".
Proof.
  apply (ownership_key_injective "o1" "o1" "r1" "r1" "deerflow:run:ownership:o1:r1");
    vm_compute; reflexivity.
Defined.
