(* ===== verification/RunManager.v ===== *)
(** * The run manager

    [runtime/runs/manager.py], class [RunManager]: the in-process run registry
    with its thread index, backed by an optional store reached through the
    interface of [StoreApi].  Every method is one definition; the bodies run
    under the manager's lock or touch it last, so a method is a function from
    the manager's state to its answer and new state.  The clock, the fresh run
    id and the lease reader are arguments; metrics and log lines are left
    out. *)
From S2P Require Import Prelude Transitions RunStore Retry StoreApi Ownership.

(** ** Records *)

(** [asyncio.Task] as the manager sees it. *)
Record run_task : Type := mk_task {
  tk_done : bool;
  tk_cancelled : bool;
  tk_cancel_requested : bool
}.

(** [RunRecord]; [rec_usage] holds the token and message counters. *)
Record run_record : Type := mk_record {
  rec_run_id : string;
  rec_thread_id : string;
  rec_assistant_id : option string;
  rec_status : RunStatus;
  rec_on_disconnect : DisconnectMode;
  rec_multitask_strategy : string;
  rec_metadata : list (string * json);
  rec_kwargs : list (string * json);
  rec_user_id : option string;
  rec_org_id : option string;
  rec_created_at : Z;
  rec_updated_at : Z;
  rec_task : option run_task;
  rec_abort_event : bool;
  rec_abort_action : string;
  rec_error : option string;
  rec_model_name : option string;
  rec_store_only : bool;
  rec_usage : list (string * json);
  rec_release : release_pin;
  rec_row_version : Z
}.

(** Assignments to the mutable fields. *)
Definition rec_set_status (st : RunStatus) (error : option string) (now : Z) (r : run_record) : run_record :=
  mk_record (rec_run_id r) (rec_thread_id r) (rec_assistant_id r) st (rec_on_disconnect r)
    (rec_multitask_strategy r) (rec_metadata r) (rec_kwargs r) (rec_user_id r) (rec_org_id r)
    (rec_created_at r) now (rec_task r) (rec_abort_event r) (rec_abort_action r)
    (match error with Some e => Some e | None => rec_error r end)
    (rec_model_name r) (rec_store_only r) (rec_usage r) (rec_release r) (rec_row_version r).

Definition rec_set_abort (action : string) (r : run_record) : run_record :=
  mk_record (rec_run_id r) (rec_thread_id r) (rec_assistant_id r) (rec_status r) (rec_on_disconnect r)
    (rec_multitask_strategy r) (rec_metadata r) (rec_kwargs r) (rec_user_id r) (rec_org_id r)
    (rec_created_at r) (rec_updated_at r)
    (match rec_task r with
     | Some t => Some (if tk_done t then t else mk_task (tk_done t) (tk_cancelled t) true)
     | None => None
     end)
    true action (rec_error r)
    (rec_model_name r) (rec_store_only r) (rec_usage r) (rec_release r) (rec_row_version r).

Definition rec_set_row_version (v : Z) (r : run_record) : run_record :=
  mk_record (rec_run_id r) (rec_thread_id r) (rec_assistant_id r) (rec_status r) (rec_on_disconnect r)
    (rec_multitask_strategy r) (rec_metadata r) (rec_kwargs r) (rec_user_id r) (rec_org_id r)
    (rec_created_at r) (rec_updated_at r) (rec_task r) (rec_abort_event r) (rec_abort_action r)
    (rec_error r) (rec_model_name r) (rec_store_only r) (rec_usage r) (rec_release r) v.

Definition rec_set_usage (u : list (string * json)) (r : run_record) : run_record :=
  mk_record (rec_run_id r) (rec_thread_id r) (rec_assistant_id r) (rec_status r) (rec_on_disconnect r)
    (rec_multitask_strategy r) (rec_metadata r) (rec_kwargs r) (rec_user_id r) (rec_org_id r)
    (rec_created_at r) (rec_updated_at r) (rec_task r) (rec_abort_event r) (rec_abort_action r)
    (rec_error r) (rec_model_name r) (rec_store_only r) u (rec_release r) (rec_row_version r).

Definition rec_set_model (m : option string) (now : Z) (r : run_record) : run_record :=
  mk_record (rec_run_id r) (rec_thread_id r) (rec_assistant_id r) (rec_status r) (rec_on_disconnect r)
    (rec_multitask_strategy r) (rec_metadata r) (rec_kwargs r) (rec_user_id r) (rec_org_id r)
    (rec_created_at r) now (rec_task r) (rec_abort_event r) (rec_abort_action r)
    (rec_error r) m (rec_store_only r) (rec_usage r) (rec_release r) (rec_row_version r).

Definition rec_inflight (r : run_record) : bool := is_inflight (rec_status r).

(** Arguments of the two creation methods. *)
Record create_args : Type := mk_create_args {
  ca_thread_id : string;
  ca_assistant_id : option string;
  ca_on_disconnect : DisconnectMode;
  ca_metadata : option (list (string * json));
  ca_kwargs : option (list (string * json));
  ca_multitask_strategy : string;
  ca_model_name : option string;
  ca_user_id : option string;
  ca_org_id : option string;
  ca_release : release_pin
}.

Definition unpinned : release_pin := mk_release_pin None None None None true.

Definition new_record (run_id : string) (a : create_args) (model : option string)
    (release : release_pin) (now : Z) : run_record :=
  mk_record run_id (ca_thread_id a) (ca_assistant_id a) RS_pending (ca_on_disconnect a)
    (ca_multitask_strategy a) (opt_or (ca_metadata a) []) (opt_or (ca_kwargs a) [])
    (ca_user_id a) (ca_org_id a) now now None false "interrupt" None model false []
    release 1.

(** ** The manager *)

Record run_manager (S : Type) : Type := mk_mgr {
  rm_runs : list (string * run_record);
  rm_by_thread : list (string * list (string * unit));
  rm_store : option S;
  rm_policy : retry_policy;
  rm_has_notifier : bool;
  rm_notified : list (string * string)
}.
Arguments mk_mgr {S} _ _ _ _ _ _.
Arguments rm_runs {S} _.
Arguments rm_by_thread {S} _.
Arguments rm_store {S} _.
Arguments rm_policy {S} _.
Arguments rm_has_notifier {S} _.
Arguments rm_notified {S} _.

Inductive mgr_error : Type :=
| ME_store (e : exc)
| ME_transition (e : transition_error)
| ME_conflict (thread_id : string)
| ME_unsupported_strategy (strategy : string).

Inductive reconcile_outcome : Type :=
| RO_row_map_failed
| RO_terminal_already_set
| RO_skipped_live_elsewhere
| RO_skipped_live
| RO_cas_conflict
| RO_recovered
| RO_expired_lease_reclaimed.

Section manager.
Context {S : Type} `{RunStoreApi S}.
Implicit Types (m : run_manager S) (r : run_record).

Definition set_runs (runs : list (string * run_record)) m : run_manager S :=
  mk_mgr runs (rm_by_thread m) (rm_store m) (rm_policy m) (rm_has_notifier m) (rm_notified m).
Definition set_by_thread (b : list (string * list (string * unit))) m : run_manager S :=
  mk_mgr (rm_runs m) b (rm_store m) (rm_policy m) (rm_has_notifier m) (rm_notified m).
Definition set_store (s : S) m : run_manager S :=
  mk_mgr (rm_runs m) (rm_by_thread m) (Some s) (rm_policy m) (rm_has_notifier m) (rm_notified m).

(** The record object registered under [id] is mutated in place. *)
Definition put_record r m : run_manager S := set_runs (dict_set (rec_run_id r) r (rm_runs m)) m.

(** A store call under the retry policy. *)
Definition call_store {A} (op : S -> result exc A * S) (s : S) m : result exc A * run_manager S :=
  let '(res, s') := call_store_with_retry op (rm_policy m) s in (res, set_store s' m).

(** A store call without retries. *)
Definition call_store_once {A} (op : S -> result exc A * S) (s : S) m : result exc A * run_manager S :=
  let '(res, s') := op s in (res, set_store s' m).

(** [_index_run_locked]. *)
Definition index_run_locked r m : run_manager S :=
  set_by_thread
    (dict_set (rec_thread_id r)
       (dict_set (rec_run_id r) tt (opt_or (dict_get (rec_thread_id r) (rm_by_thread m)) []))
       (rm_by_thread m)) m.

(** [_unindex_run_locked]. *)
Definition unindex_run_locked (run_id thread_id : string) m : run_manager S :=
  match dict_get thread_id (rm_by_thread m) with
  | None => m
  | Some bucket =>
      match dict_pop run_id bucket with
      | [] => set_by_thread (dict_pop thread_id (rm_by_thread m)) m
      | bucket' => set_by_thread (dict_set thread_id bucket' (rm_by_thread m)) m
      end
  end.

(** [_thread_records_locked]. *)
Definition thread_records_locked (thread_id : string) m : list run_record :=
  match dict_get thread_id (rm_by_thread m) with
  | None => []
  | Some bucket => omap (fun id => dict_get id (rm_runs m)) (dict_keys bucket)
  end.

(** [_store_put_payload]. *)
Definition store_put_payload r (error : option string) : put_args :=
  mk_put_args (rec_thread_id r) (rec_assistant_id r) (rec_user_id r) (rec_org_id r)
    (rec_model_name r) (status_value (rec_status r)) (rec_multitask_strategy r)
    (Some (rec_metadata r)) (Some (rec_kwargs r))
    (match error with Some e => Some e | None => rec_error r end)
    (Some (rec_created_at r)) (rec_release r).

(** [_persist_snapshot_to_store]. *)
Definition persist_snapshot_to_store (run_id : string) (payload : put_args) (now : Z) m :
    bool * run_manager S :=
  match rm_store m with
  | None => (true, m)
  | Some s =>
      match call_store (api_put run_id payload now) s m with
      | (Ok _, m') => (true, m')
      | (Err _, m') => (false, m')
      end
  end.

(** [_persist_new_run_to_store]: failures propagate. *)
Definition persist_new_run_to_store r (now : Z) m : result exc unit * run_manager S :=
  match rm_store m with
  | None => (Ok tt, m)
  | Some s => call_store (api_put (rec_run_id r) (store_put_payload r None) now) s m
  end.

(** [_persist_status]; the third component is the record after the call. *)
Definition persist_status r (status : RunStatus) (error : option string) (expected : option Z)
    (now : Z) m : bool * run_record * run_manager S :=
  match rm_store m with
  | None => (true, r, m)
  | Some s =>
      let payload := store_put_payload r error in
      match call_store (api_update_status (rec_run_id r) (status_value status) error expected now) s m with
      | (Err _, m1) => (false, r, m1)
      | (Ok true, m1) =>
          (true, match expected with Some v => rec_set_row_version (v + 1) r | None => r end, m1)
      | (Ok false, m1) =>
          match expected, rm_store m1 with
          | Some _, Some s1 =>
              match call_store_once (api_get (rec_run_id r)) s1 m1 with
              | (Err _, m2) => (false, r, m2)
              | (Ok (Some _), m2) => (false, r, m2)
              | (Ok None, m2) =>
                  let '(b, m3) := persist_snapshot_to_store (rec_run_id r) payload now m2 in
                  (b, r, m3)
              end
          | _, _ =>
              let '(b, m2) := persist_snapshot_to_store (rec_run_id r) payload now m1 in
              (b, r, m2)
          end
      end
  end.

(** [_record_from_store]; [None] where the status text is unknown. *)
Definition record_from_store (row : run_row) : option run_record :=
  status ← status_of (if String.eqb (row_status row) "" then "pending" else row_status row);
  Some (mk_record (row_run_id row) (row_thread_id row) (row_assistant_id row) status DM_cancel
    (if String.eqb (row_multitask_strategy row) "" then "reject" else row_multitask_strategy row)
    (row_metadata row) (row_kwargs row) (row_user_id row) (row_org_id row)
    (row_created_at row) (row_updated_at row) None false "interrupt" (row_error row)
    (row_model_name row) true (row_usage row) (row_release row) (row_version row)).

(** The attribute updates of [update_run_completion] and
    [update_run_progress]. *)
Definition rec_apply_kwargs (a : completion_args) (now : Z) r : run_record :=
  rec_set_status (rec_status r) (comp_error a) now
    (rec_set_usage (merge_usage (comp_usage a) (rec_usage r)) r).

(** [update_run_completion]. *)
Definition update_run_completion (run_id status : string) (a : completion_args)
    (expected : option Z) (now : Z) m : run_manager S :=
  let updated_record := rec_apply_kwargs a now <$> dict_get run_id (rm_runs m) in
  let m1 := match updated_record with Some r => set_runs (dict_set run_id r (rm_runs m)) m | None => m end in
  match rm_store m1 with
  | None => m1
  | Some s =>
      match call_store (api_update_run_completion run_id status a expected now) s m1 with
      | (Err _, m2) => m2
      | (Ok true, m2) => m2
      | (Ok false, m2) =>
          match expected, updated_record with
          | Some _, _ => m2
          | None, None => m2
          | None, Some r =>
              match persist_snapshot_to_store run_id (store_put_payload r (comp_error a)) now m2 with
              | (false, m3) => m3
              | (true, m3) =>
                  match rm_store m3 with
                  | None => m3
                  | Some s3 =>
                      (call_store (api_update_run_completion run_id status a expected now) s3 m3).2
                  end
              end
          end
      end
  end.

(** [update_run_progress]. *)
Definition update_run_progress (run_id : string) (usage : list (string * option json)) (now : Z) m :
    run_manager S :=
  let rec := dict_get run_id (rm_runs m) in
  let should_persist :=
    match rec with Some r => bool_decide (rec_status r = RS_running) | None => true end in
  let m1 :=
    match rec with
    | Some r =>
        if should_persist
        then set_runs (dict_set run_id (rec_apply_kwargs (mk_completion_args None usage) now r) (rm_runs m)) m
        else m
    | None => m
    end in
  match should_persist, rm_store m1 with
  | true, Some s => (call_store_once (api_update_run_progress run_id usage now) s m1).2
  | _, _ => m1
  end.

(** The register-persist-or-roll-back block shared by the creation methods. *)
Definition register_run r (now : Z) m : result mgr_error run_record * run_manager S :=
  let m1 := index_run_locked r (put_record r m) in
  match persist_new_run_to_store r now m1 with
  | (Ok _, m2) => (Ok r, m2)
  | (Err e, m2) =>
      (Err (ME_store e),
       unindex_run_locked (rec_run_id r) (rec_thread_id r)
         (set_runs (dict_pop (rec_run_id r) (rm_runs m2)) m2))
  end.

(** [create]. *)
Definition create (run_id : string) (a : create_args) (now : Z) m :
    result mgr_error run_record * run_manager S :=
  register_run (new_record run_id a None unpinned now) now m.

(** [get]. *)
Definition get (run_id : string) m : option run_record * run_manager S :=
  match dict_get run_id (rm_runs m) with
  | Some r => (Some r, m)
  | None =>
      match rm_store m with
      | None => (None, m)
      | Some s =>
          match call_store_once (api_get run_id) s m with
          | (Ok (Some row), m1) => (record_from_store row, m1)
          | (_, m1) => (None, m1)
          end
      end
  end.

Definition rec_newest_first (r1 r2 : run_record) : bool := (rec_created_at r2 <=? rec_created_at r1)%Z.

(** The merge loop of [list_by_thread]. *)
Definition merge_row (by_id : list (string * run_record)) (row : run_row) : list (string * run_record) :=
  if negb (String.eqb (row_run_id row) "") && negb (dict_mem (row_run_id row) by_id)
  then match record_from_store row with
       | Some r => dict_set (row_run_id row) r by_id
       | None => by_id
       end
  else by_id.

(** [list_by_thread]. *)
Definition list_by_thread (thread_id : string) (org_id : option string) (limit : Z) m :
    list run_record * run_manager S :=
  let memory := thread_records_locked thread_id m in
  match rm_store m with
  | None => (py_take limit (sort_by rec_newest_first memory), m)
  | Some s =>
      let by_id := foldl (fun d r => dict_set (rec_run_id r) r d) [] memory in
      let store_limit := Z.max 0 (limit - Z.of_nat (length memory)) in
      match call_store_once (api_list_by_thread thread_id org_id store_limit) s m with
      | (Err _, m1) => (py_take limit (sort_by rec_newest_first memory), m1)
      | (Ok rows, m1) =>
          (py_take limit (sort_by rec_newest_first (dict_values (foldl merge_row by_id rows))), m1)
      end
  end.

(** [set_status]. *)
Definition set_status (run_id : string) (status : RunStatus) (error : option string) (now : Z) m :
    result mgr_error unit * run_manager S :=
  match dict_get run_id (rm_runs m) with
  | None => (Ok tt, m)
  | Some r =>
      match assert_run_transition (status_value (rec_status r)) (status_value status) with
      | Err e => (Err (ME_transition e), m)
      | Ok _ =>
          let r1 := rec_set_status status error now r in
          let '(_, r2, m2) :=
            persist_status r1 status error (Some (rec_row_version r)) now (put_record r1 m) in
          (Ok tt, put_record r2 m2)
      end
  end.

(** [update_model_name] with [_persist_model_name]. *)
Definition update_model_name (run_id : string) (model : option string) (now : Z) m : run_manager S :=
  match dict_get run_id (rm_runs m) with
  | None => m
  | Some r =>
      let m1 := put_record (rec_set_model model now r) m in
      match rm_store m1 with
      | None => m1
      | Some s => (call_store (api_update_model_name run_id model now) s m1).2
      end
  end.

(** [_publish_cancel_notify]. *)
Definition publish_cancel_notify (run_id action : string) m : run_manager S :=
  if rm_has_notifier m
  then mk_mgr (rm_runs m) (rm_by_thread m) (rm_store m) (rm_policy m) (rm_has_notifier m)
         (rm_notified m ++ [(run_id, action)])
  else m.

(** [cancel] when the run is not registered here. *)
Definition cancel_remote (run_id action : string) (now : Z) m : result mgr_error bool * run_manager S :=
  match rm_store m with
  | None => (Ok false, m)
  | Some s =>
      match call_store_once (api_request_cancel run_id action now) s m with
      | (Err e, m1) => (Err (ME_store e), m1)
      | (Ok true, m1) => (Ok true, publish_cancel_notify run_id action m1)
      | (Ok false, m1) =>
          match rm_store m1 with
          | None => (Ok false, m1)
          | Some s1 =>
              match call_store_once (api_get_cancel_intent run_id) s1 m1 with
              | (Err e, m2) => (Err (ME_store e), m2)
              | (Ok (Some (requested, _)), m2) => (Ok requested, m2)
              | (Ok None, m2) => (Ok false, m2)
              end
          end
      end
  end.

(** [cancel]. *)
Definition cancel (run_id action : string) (now : Z) m : result mgr_error bool * run_manager S :=
  match dict_get run_id (rm_runs m) with
  | None => cancel_remote run_id action now m
  | Some r =>
      if bool_decide (rec_status r = RS_interrupted) then (Ok true, m)
      else if negb (rec_inflight r) then (Ok false, m)
      else
        match assert_run_transition (status_value (rec_status r)) (status_value RS_interrupted) with
        | Err e => (Err (ME_transition e), m)
        | Ok _ =>
            let r1 := rec_set_status RS_interrupted None now (rec_set_abort action r) in
            let '(_, r2, m2) :=
              persist_status r1 RS_interrupted None (Some (rec_row_version r)) now (put_record r1 m) in
            let m3 := put_record r2 m2 in
            let m4 :=
              match rm_store m3 with
              | None => m3
              | Some s => (call_store_once (api_request_cancel run_id action now) s m3).2
              end in
            (Ok true, publish_cancel_notify run_id action m4)
        end
  end.

Definition SUPPORTED_STRATEGIES : list string := ["reject"; "interrupt"; "rollback"].

(** One iteration of the interrupting loop of [create_or_reject]. *)
Definition interrupt_record (strategy : string) (now : Z) m (r : run_record) : run_manager S :=
  put_record (rec_set_status RS_interrupted None now (rec_set_abort strategy r)) m.

(** Persisting one interrupted record (no compare-and-set). *)
Definition persist_interrupted (now : Z) m (run_id : string) : run_manager S :=
  match dict_get run_id (rm_runs m) with
  | None => m
  | Some r =>
      let '(_, r2, m2) := persist_status r RS_interrupted None None now m in
      put_record r2 m2
  end.

(** [create_or_reject]. *)
Definition create_or_reject (run_id : string) (a : create_args) (now : Z) m :
    result mgr_error run_record * run_manager S :=
  let strategy := ca_multitask_strategy a in
  if negb (str_in strategy SUPPORTED_STRATEGIES)
  then (Err (ME_unsupported_strategy strategy), m)
  else
    let inflight := List.filter rec_inflight (thread_records_locked (ca_thread_id a) m) in
    if String.eqb strategy "reject" && negb (bool_decide (inflight = []))
    then (Err (ME_conflict (ca_thread_id a)), m)
    else
      match register_run (new_record run_id a (ca_model_name a) (ca_release a) now) now m with
      | (Err e, m1) => (Err e, m1)
      | (Ok r, m1) =>
          if str_in strategy ["interrupt"; "rollback"]
          then
            let m2 := foldl (interrupt_record strategy now) m1 inflight in
            (Ok r, foldl (persist_interrupted now) m2 (rec_run_id <$> inflight))
          else (Ok r, m1)
      end.

(** The lease-aware gate of the reconciler: [None] skips the row, otherwise
    the label of the recovery.  A lease-store error falls back to the local
    check. *)
Definition lease_gate (lease : option (string -> string -> result lease_error (option ClaimRecord)))
    (now : Z) r : option reconcile_outcome :=
  match lease with
  | None => Some RO_recovered
  | Some get_holder =>
      match get_holder (opt_or (rec_org_id r) "") (rec_run_id r) with
      | Ok (Some holder) => if is_expired holder now then Some RO_expired_lease_reclaimed else None
      | Ok None => Some RO_recovered
      | Err _ => Some RO_recovered
      end
  end.

(** One iteration of the reconciler over an inflight row. *)
Definition reconcile_row (error : string)
    (lease : option (string -> string -> result lease_error (option ClaimRecord)))
    (now : Z) (acc : list run_record * list (string * reconcile_outcome) * run_manager S)
    (row : run_row) : list run_record * list (string * reconcile_outcome) * run_manager S :=
  let '(recovered, log, m) := acc in
  match record_from_store row with
  | None => (recovered, log ++ [(row_run_id row, RO_row_map_failed)], m)
  | Some r =>
      if is_terminal_run_status (status_value (rec_status r))
      then (recovered, log ++ [(rec_run_id r, RO_terminal_already_set)], m)
      else
        match lease_gate lease now r with
        | None => (recovered, log ++ [(rec_run_id r, RO_skipped_live_elsewhere)], m)
        | Some label =>
            if match dict_get (rec_run_id r) (rm_runs m) with
               | Some live => rec_inflight live
               | None => false
               end
            then (recovered, log ++ [(rec_run_id r, RO_skipped_live)], m)
            else
              let r1 := rec_set_status RS_error (Some error) now r in
              match persist_status r1 RS_error (Some error) (Some (rec_row_version r)) now m with
              | (false, _, m1) => (recovered, log ++ [(rec_run_id r, RO_cas_conflict)], m1)
              | (true, r2, m1) => (recovered ++ [r2], log ++ [(rec_run_id r, label)], m1)
              end
        end
  end.

(** [reconcile_orphaned_inflight_runs]: the recovered records and the outcome
    of every row. *)
Definition reconcile_orphaned_inflight_runs (error : string) (before : option Z)
    (lease : option (string -> string -> result lease_error (option ClaimRecord)))
    (now : Z) m : list run_record * list (string * reconcile_outcome) * run_manager S :=
  match rm_store m with
  | None => ([], [], m)
  | Some s =>
      match call_store (api_list_inflight before now) s m with
      | (Err _, m1) => ([], [], m1)
      | (Ok rows, m1) => foldl (reconcile_row error lease now) ([], [], m1) rows
      end
  end.

(** [has_inflight]. *)
Definition has_inflight (thread_id : string) m : bool :=
  existsb rec_inflight (thread_records_locked thread_id m).

(** [cleanup], after its delay. *)
Definition cleanup (run_id : string) m : run_manager S :=
  match dict_get run_id (rm_runs m) with
  | None => m
  | Some r => unindex_run_locked run_id (rec_thread_id r) (set_runs (dict_pop run_id (rm_runs m)) m)
  end.

Definition task_running r : bool :=
  match rec_task r with Some t => negb (tk_done t) | None => false end.

(** First critical section of [shutdown]: signal every live run. *)
Definition shutdown_signal m : list string * run_manager S :=
  let inflight := List.filter (fun r => rec_inflight r && task_running r) (dict_values (rm_runs m)) in
  (rec_run_id <$> inflight,
   foldl (fun m r => put_record (rec_set_abort "interrupt" r) m) m inflight).

(** Second critical section: the records still to be persisted as
    interrupted.  [pending] are the runs whose task outlived the drain. *)
Definition shutdown_mark (pending : list string) (now : Z)
    (acc : list string * run_manager S) (run_id : string) : list string * run_manager S :=
  let '(to_persist, m) := acc in
  match dict_get run_id (rm_runs m) with
  | None => (to_persist, m)
  | Some r =>
      if negb (str_in run_id pending)
         && negb (match rec_task r with Some t => tk_cancelled t | None => false end)
      then (to_persist, m)
      else if rec_inflight r
      then (to_persist ++ [run_id], put_record (rec_set_status RS_interrupted None now r) m)
      else (to_persist ++ [run_id], m)
  end.

(** The part of [shutdown] after the drain; [budget_left] is [remaining > 0]. *)
Definition shutdown_settle (inflight pending : list string) (budget_left : bool) (now : Z) m :
    run_manager S :=
  let '(to_persist, m1) := foldl (shutdown_mark pending now) ([], m) inflight in
  if budget_left then foldl (persist_interrupted now) m1 to_persist else m1.

(** ** Histories: one step per method call *)

Inductive mgr_step : run_manager S -> run_manager S -> Prop :=
| ms_create id a now m res m' :
    dict_get id (rm_runs m) = None -> create id a now m = (res, m') -> mgr_step m m'
| ms_create_or_reject id a now m res m' :
    dict_get id (rm_runs m) = None -> create_or_reject id a now m = (res, m') -> mgr_step m m'
| ms_set_status id st e now m res m' : set_status id st e now m = (res, m') -> mgr_step m m'
| ms_cancel id act now m res m' : cancel id act now m = (res, m') -> mgr_step m m'
| ms_completion id st a v now m : mgr_step m (update_run_completion id st a v now m)
| ms_progress id u now m : mgr_step m (update_run_progress id u now m)
| ms_model id model now m : mgr_step m (update_model_name id model now m)
| ms_get id m res m' : get id m = (res, m') -> mgr_step m m'
| ms_list t o n m res m' : list_by_thread t o n m = (res, m') -> mgr_step m m'
| ms_reconcile e b lease now m rs log m' :
    reconcile_orphaned_inflight_runs e b lease now m = (rs, log, m') -> mgr_step m m'
| ms_cleanup id m : mgr_step m (cleanup id m)
| ms_shutdown_signal m ids m' : shutdown_signal m = (ids, m') -> mgr_step m m'
| ms_shutdown_settle ids pending budget now m :
    mgr_step m (shutdown_settle ids pending budget now m).

(** ** Invariant: the index mirrors the registry *)

(** The registered runs of a thread, by a scan of the registry. *)
Definition scan_thread (thread_id : string) m : list (string * run_record) :=
  List.filter (fun p => String.eqb (rec_thread_id p.2) thread_id) (rm_runs m).

Definition bucket_keys (thread_id : string) m : list string :=
  match dict_get thread_id (rm_by_thread m) with
  | None => []
  | Some b => dict_keys b
  end.

Record mgr_wf (m : run_manager S) : Prop := {
  wf_runs : dict_wf (rm_runs m);
  wf_ids : forall id r, dict_get id (rm_runs m) = Some r -> rec_run_id r = id;
  wf_index : forall t, bucket_keys t m = (scan_thread t m).*1;
  wf_buckets : forall t, dict_get t (rm_by_thread m) <> Some []
}.
End manager.
