(* ===== verification/RunManagerFacts.v ===== *)
(** * The run manager: index, lifecycle and creation

    Theorems about [RunManager]: the thread index mirrors the registry under
    every history of calls, registered runs only move along edges of the state
    machine, and creation is atomic and leaves one active run per thread. *)
From S2P Require Import Prelude Transitions RunStore Retry StoreApi Ownership RunManager.

Section facts.
Context {S : Type} `{RunStoreApi S}.
Implicit Types (m : run_manager S) (r : run_record).

(** The parts of the manager a store call cannot touch. *)
Definition same_registry m m' : Prop :=
  rm_runs m' = rm_runs m /\ rm_by_thread m' = rm_by_thread m.

(** What a method call may do to a registered record. *)
Definition rec_evolves r r' : Prop :=
  run_edge (rec_status r) (rec_status r')
  /\ rec_run_id r' = rec_run_id r /\ rec_thread_id r' = rec_thread_id r
  /\ rec_org_id r' = rec_org_id r /\ rec_user_id r' = rec_user_id r
  /\ rec_created_at r' = rec_created_at r /\ rec_release r' = rec_release r.

Definition evolves m m' : Prop :=
  forall id r, dict_get id (rm_runs m) = Some r ->
    exists r', dict_get id (rm_runs m') = Some r' /\ rec_evolves r r'.

(** A call after which every registered run is still registered. *)
Definition mgr_live_step m m' : Prop :=
  mgr_step m m' /\ forall id, is_Some (dict_get id (rm_runs m)) -> is_Some (dict_get id (rm_runs m')).

(** ** Store calls keep the registry *)

Lemma same_registry_refl m : same_registry m m.
Proof using. by split. Qed.

Lemma same_registry_trans m1 m2 m3 : same_registry m1 m2 -> same_registry m2 m3 -> same_registry m1 m3.
Proof using. intros [? ?] [? ?]. split; congruence. Qed.

Lemma call_store_registry {A} (op : S -> result exc A * S) s m : same_registry m (call_store op s m).2.
Proof using. unfold call_store. destruct (call_store_with_retry _ _ _). by split. Qed.

Lemma call_store_once_registry {A} (op : S -> result exc A * S) s m :
  same_registry m (call_store_once op s m).2.
Proof using. unfold call_store_once. destruct (op s). by split. Qed.

Lemma persist_snapshot_registry id p now m : same_registry m (persist_snapshot_to_store id p now m).2.
Proof using.
  unfold persist_snapshot_to_store. destruct (rm_store m) as [s|]; [|apply same_registry_refl].
  pose proof (call_store_registry (api_put id p now) s m).
  destruct (call_store _ _ _) as [[u|e] m1]; done.
Qed.

Lemma publish_registry id act m : same_registry m (publish_cancel_notify id act m).
Proof using. unfold publish_cancel_notify. by destruct (rm_has_notifier m). Qed.

(** [persist_status] keeps the registry and changes only the version. *)
Lemma persist_status_registry r st e v now m b r' m' :
  persist_status r st e v now m = (b, r', m') ->
  same_registry m m' /\ (r' = r \/ exists v', r' = rec_set_row_version v' r).
Proof using.
  unfold persist_status. destruct (rm_store m) as [s|] eqn:Hs; [|intros [= <- <- <-]; by split; auto using same_registry_refl].
  set (op := api_update_status _ _ _ _ _).
  pose proof (call_store_registry op s m) as H1.
  destruct (call_store op s m) as [[[|]|ex] m1]; simpl in H1.
  - intros [= <- <- <-]. split; [done|]. destruct v; eauto.
  - assert (forall pl, (let '(b0, m2) := persist_snapshot_to_store (rec_run_id r) pl now m1 in (b0, r, m2)) = (b, r', m') ->
      same_registry m m' /\ (r' = r \/ exists v', r' = rec_set_row_version v' r)) as Hsnap.
    { intros pl. pose proof (persist_snapshot_registry (rec_run_id r) pl now m1) as H2.
      destruct (persist_snapshot_to_store _ _ _ _) as [b2 m2]. intros [= <- <- <-].
      split; [by eapply same_registry_trans|by left]. }
    destruct v as [v|]; [|apply Hsnap]. destruct (rm_store m1) as [s1|] eqn:Hs1; [|apply Hsnap].
    pose proof (call_store_once_registry (api_get (rec_run_id r)) s1 m1) as H3.
    destruct (call_store_once _ _ _) as [[[row|]|ex] m2]; simpl in H3.
    + intros [= <- <- <-]. split; [by eapply same_registry_trans|by left].
    + pose proof (persist_snapshot_registry (rec_run_id r) (store_put_payload r e) now m2) as H4.
      destruct (persist_snapshot_to_store _ _ _ _) as [b4 m4]. intros [= <- <- <-].
      split; [|by left]. eauto using same_registry_trans.
    + intros [= <- <- <-]. split; [by eapply same_registry_trans|by left].
  - intros [= <- <- <-]. by split; [|left].
Qed.

(** ** Evolution is a preorder *)

Lemma run_edge_trans a b c : run_edge a b -> run_edge b c -> run_edge a c.
Proof using. by destruct a, b, c. Qed.

Lemma rec_evolves_refl r : rec_evolves r r.
Proof using. repeat split; auto with py. Qed.

Lemma rec_evolves_trans r1 r2 r3 : rec_evolves r1 r2 -> rec_evolves r2 r3 -> rec_evolves r1 r3.
Proof using.
  intros (?&?&?&?&?&?&?) (?&?&?&?&?&?&?). split; [by eapply run_edge_trans|]. repeat split; congruence.
Qed.

Lemma evolves_refl m : evolves m m.
Proof using. intros id r Hr. eauto using rec_evolves_refl. Qed.

Lemma evolves_trans m1 m2 m3 : evolves m1 m2 -> evolves m2 m3 -> evolves m1 m3.
Proof using.
  intros H1 H2 id r Hr. destruct (H1 id r Hr) as (r2 & Hr2 & E2).
  destruct (H2 id r2 Hr2) as (r3 & Hr3 & E3). eauto using rec_evolves_trans.
Qed.

Lemma same_registry_evolves m m' : same_registry m m' -> evolves m m'.
Proof using. intros [Hr _] id r. rewrite Hr. eauto using rec_evolves_refl. Qed.

(** ** The invariant under the elementary updates *)

Lemma mgr_wf_registry m m' : same_registry m m' -> mgr_wf m -> mgr_wf m'.
Proof using.
  intros [Hr Hb] [H1 H2 H3 H4]. split; unfold bucket_keys, scan_thread in *; rewrite ?Hr, ?Hb; done.
Qed.

Lemma filter_dict_set (p : string * run_record -> bool) id r r0 (d : list (string * run_record)) :
  dict_get id d = Some r0 -> p (id, r) = p (id, r0) ->
  (List.filter p (dict_set id r d)).*1 = (List.filter p d).*1.
Proof using.
  intros Hg Hp. induction d as [|[k v] d IH]; [done|]. simpl in *. case_decide as Hk.
  - subst. simplify_eq. simpl. rewrite Hp. by destruct (p (k, r0)).
  - simpl. destruct (p (k, v)); csimpl; rewrite IH; done.
Qed.

(** In-place mutation of a registered record. *)
Lemma put_record_wf r r0 m :
  mgr_wf m -> dict_get (rec_run_id r) (rm_runs m) = Some r0 ->
  rec_thread_id r = rec_thread_id r0 -> mgr_wf (put_record r m).
Proof using.
  intros [H1 H2 H3 H4] Hg Ht. split; simpl.
  - auto with py.
  - intros id r'. rewrite dict_get_set. case_decide; [|eauto]. congruence.
  - intros t. specialize (H3 t). unfold bucket_keys, scan_thread in *. simpl.
    rewrite H3. symmetry. apply (filter_dict_set _ _ _ r0); [done|]. simpl. by rewrite Ht.
  - done.
Qed.

Lemma put_record_evolves r r0 m :
  dict_get (rec_run_id r) (rm_runs m) = Some r0 -> rec_evolves r0 r -> evolves m (put_record r m).
Proof using.
  intros Hg He id r1 Hr1. simpl. rewrite dict_get_set. case_decide; subst.
  - exists r. simplify_eq. eauto.
  - eauto using rec_evolves_refl.
Qed.

Lemma put_record_registered r m id :
  is_Some (dict_get id (rm_runs m)) -> is_Some (dict_get id (rm_runs (put_record r m))).
Proof using. simpl. rewrite dict_get_set. case_decide; eauto. Qed.

(** ** Registration *)

Lemma bucket_keys_runs m t id :
  mgr_wf m -> id ∈ bucket_keys t m -> is_Some (dict_get id (rm_runs m)).
Proof using.
  intros Hwf Hin. rewrite (wf_index _ Hwf) in Hin.
  apply list_elem_of_fmap in Hin as ([k r] & -> & Hin). apply filter_values_elem in Hin.
  exists r. apply dict_get_elem; [apply Hwf|done].
Qed.

Lemma bucket_fresh m t id b :
  mgr_wf m -> dict_get id (rm_runs m) = None -> dict_get t (rm_by_thread m) = Some b ->
  dict_get id b = None.
Proof using.
  intros Hwf Hid Hb. destruct (dict_get id b) eqn:E; [|done]. exfalso.
  assert (id ∈ bucket_keys t m) as Hin.
  { unfold bucket_keys. rewrite Hb. unfold dict_keys. apply dict_get_Some_elem in E.
    apply list_elem_of_fmap. by exists (id, u). }
  apply bucket_keys_runs in Hin as [? ?]; [congruence|done].
Qed.

(** Registering a fresh run appends it to the registry and to its bucket. *)
Lemma index_put_eq r m :
  mgr_wf m -> dict_get (rec_run_id r) (rm_runs m) = None ->
  rm_runs (index_run_locked r (put_record r m)) = rm_runs m ++ [(rec_run_id r, r)]
  /\ rm_by_thread (index_run_locked r (put_record r m))
     = dict_set (rec_thread_id r)
         (opt_or (dict_get (rec_thread_id r) (rm_by_thread m)) [] ++ [(rec_run_id r, tt)])
         (rm_by_thread m).
Proof using.
  intros Hwf Hid. split; simpl; [by apply dict_set_fresh|]. f_equal. apply dict_set_fresh.
  destruct (dict_get (rec_thread_id r) (rm_by_thread m)) as [b|] eqn:Hb; simpl; [|done].
  by eapply bucket_fresh.
Qed.

Lemma index_put_wf r m :
  mgr_wf m -> dict_get (rec_run_id r) (rm_runs m) = None ->
  mgr_wf (index_run_locked r (put_record r m)).
Proof using.
  intros Hwf Hid. destruct (index_put_eq r m Hwf Hid) as [Hr Hb]. destruct Hwf as [H1 H2 H3 H4].
  split; unfold bucket_keys, scan_thread in *; rewrite ?Hr, ?Hb.
  - rewrite <-dict_set_fresh by done. auto with py.
  - intros id r'. rewrite <-dict_set_fresh, dict_get_set by done. case_decide; [congruence|eauto].
  - intros t. rewrite List.filter_app, fmap_app, <-H3, dict_get_set. simpl.
    case_decide as Ht; subst.
    + rewrite String.eqb_refl. simpl. unfold dict_keys. rewrite fmap_app. by case_match.
    + rewrite (proj2 (String.eqb_neq _ _) Ht). simpl. by rewrite app_nil_r.
  - intros t. rewrite dict_get_set. case_decide; [|done]. intros [= Hnil].
    by apply app_eq_nil in Hnil as [_ ?].
Qed.

(** Rolling a fresh registration back restores the registry exactly. *)
Lemma rollback_registry r m m2 :
  mgr_wf m -> dict_get (rec_run_id r) (rm_runs m) = None ->
  same_registry (index_run_locked r (put_record r m)) m2 ->
  same_registry m (unindex_run_locked (rec_run_id r) (rec_thread_id r)
                     (set_runs (dict_pop (rec_run_id r) (rm_runs m2)) m2)).
Proof using.
  intros Hwf Hid [Hr2 Hb2]. destruct (index_put_eq r m Hwf Hid) as [Hr Hb].
  rewrite Hr in Hr2. rewrite Hb in Hb2.
  assert (dict_pop (rec_run_id r) (rm_runs m2) = rm_runs m) as Hruns.
  { rewrite Hr2. by apply dict_pop_snoc. }
  unfold unindex_run_locked. cbn [set_runs rm_by_thread]. rewrite Hb2, dict_get_set_eq.
  destruct (dict_get (rec_thread_id r) (rm_by_thread m)) as [b|] eqn:Hbt; cbn [opt_or].
  - rewrite dict_pop_snoc by (by eapply bucket_fresh).
    destruct b as [|x b]; [by destruct (wf_buckets _ Hwf (rec_thread_id r))|].
    split; simpl; [done|]. rewrite dict_set_set. by apply dict_set_id.
  - rewrite app_nil_l, <-(app_nil_l [(rec_run_id r, tt)]), dict_pop_snoc by done.
    split; simpl; [done|]. rewrite dict_set_fresh by done. by apply dict_pop_snoc.
Qed.

Lemma persist_new_run_registry r now m : same_registry m (persist_new_run_to_store r now m).2.
Proof using.
  unfold persist_new_run_to_store. destruct (rm_store m); [apply call_store_registry|apply same_registry_refl].
Qed.

Lemma register_run_spec r now m res m' :
  mgr_wf m -> dict_get (rec_run_id r) (rm_runs m) = None ->
  register_run r now m = (res, m') ->
  match res with
  | Ok r' => r' = r /\ same_registry (index_run_locked r (put_record r m)) m'
  | Err _ => same_registry m m'
  end.
Proof using.
  intros Hwf Hid. unfold register_run.
  pose proof (persist_new_run_registry r now (index_run_locked r (put_record r m))) as Hp.
  destruct (persist_new_run_to_store _ _ _) as [[u|e] m2]; intros [= <- <-]; [done|].
  by apply rollback_registry.
Qed.

Lemma index_put_evolves r m :
  dict_get (rec_run_id r) (rm_runs m) = None -> evolves m (index_run_locked r (put_record r m)).
Proof using.
  intros Hid id r0 Hr0. simpl. rewrite dict_get_set. case_decide; [congruence|].
  eauto using rec_evolves_refl.
Qed.

(** ** Cleanup *)

Lemma filter_dict_pop (p : string * run_record -> bool) id (d : list (string * run_record)) :
  (List.filter p (dict_pop id d)).*1 = base.filter (fun k => k <> id) (List.filter p d).*1.
Proof using.
  unfold dict_pop. induction d as [|[k v] d IH]; [done|].
  rewrite filter_cons. simpl. destruct (decide (k <> id)) as [Hk|Hk]; simpl.
  - destruct (p (k, v)); csimpl; [|done]. rewrite filter_cons_True by done. by rewrite IH.
  - destruct (p (k, v)); csimpl; [|done]. by rewrite filter_cons_False, IH by done.
Qed.

Lemma keys_dict_pop {V} id (d : list (string * V)) :
  dict_keys (dict_pop id d) = base.filter (fun k => k <> id) (dict_keys d).
Proof using.
  unfold dict_keys, dict_pop. induction d as [|[k v] d IH]; [done|]. rewrite filter_cons. csimpl.
  rewrite filter_cons. case_decide; csimpl; by rewrite IH.
Qed.

Lemma filter_ne_notin (l : list string) id : id ∉ l -> base.filter (fun k => k <> id) l = l.
Proof using.
  intros Hn. induction l as [|k l IH]; [done|]. apply not_elem_of_cons in Hn as [? ?].
  rewrite filter_cons_True by congruence. by rewrite IH.
Qed.

Lemma cleanup_wf id m : mgr_wf m -> mgr_wf (cleanup id m).
Proof using.
  intros Hwf. unfold cleanup. destruct (dict_get id (rm_runs m)) as [r|] eqn:Hr; [|done].
  assert (forall t, rec_thread_id r <> t -> id ∉ bucket_keys t m) as Hother.
  { intros t Ht Hin. rewrite (wf_index _ Hwf) in Hin.
    apply list_elem_of_fmap in Hin as ([k r'] & -> & Hin). simpl in Hr.
    unfold scan_thread in Hin. rewrite list_elem_of_In, filter_In in Hin.
    destruct Hin as [Hin Hteq%String.eqb_eq].
    rewrite <-list_elem_of_In in Hin. apply dict_get_elem in Hin; [|apply Hwf]. simpl in *. congruence. }
  destruct Hwf as [H1 H2 H3 H4].
  assert (forall b, dict_get (rec_thread_id r) (rm_by_thread m) = Some b ->
    mgr_wf (unindex_run_locked id (rec_thread_id r) (set_runs (dict_pop id (rm_runs m)) m)) ) as Hb.
  { intros b Hb. unfold unindex_run_locked. cbn [set_runs rm_by_thread]. rewrite Hb.
    pose proof (keys_dict_pop id b) as Hk.
    assert (forall d, d = match dict_pop id b with [] => dict_pop (rec_thread_id r) (rm_by_thread m)
                          | b' => dict_set (rec_thread_id r) b' (rm_by_thread m) end ->
      mgr_wf (set_by_thread d (set_runs (dict_pop id (rm_runs m)) m))) as Hd.
    { intros d Hd. split; unfold bucket_keys, scan_thread in *; cbn [set_runs set_by_thread rm_runs rm_by_thread].
      - auto with py.
      - intros id' r'. rewrite dict_get_pop. case_decide; [done|eauto].
      - intros t. rewrite filter_dict_pop, <-H3. subst d.
        destruct (decide (rec_thread_id r = t)) as [<-|Ht].
        + rewrite Hb, <-Hk. destruct (dict_pop id b); rewrite ?dict_get_pop, ?dict_get_set; by case_decide.
        + rewrite (filter_ne_notin _ _ (Hother t Ht)).
          destruct (dict_pop id b); rewrite ?dict_get_pop, ?dict_get_set; by case_decide.
      - intros t. subst d. destruct (dict_pop id b); rewrite ?dict_get_pop, ?dict_get_set; by case_decide. }
    specialize (Hd _ eq_refl). by destruct (dict_pop id b). }
  destruct (dict_get (rec_thread_id r) (rm_by_thread m)) as [b|] eqn:Hbt; [by eapply Hb|].
  exfalso. specialize (H3 (rec_thread_id r)). unfold bucket_keys in H3. rewrite Hbt in H3.
  assert (id ∈ (scan_thread (rec_thread_id r) m).*1) as Hin; [|rewrite <-H3 in Hin; by apply elem_of_nil in Hin].
  apply list_elem_of_fmap. exists (id, r). split; [done|].
  unfold scan_thread. rewrite list_elem_of_In, filter_In, <-list_elem_of_In. simpl.
  rewrite String.eqb_refl.
  eauto using dict_get_Some_elem.
Qed.
(** ** Calls that keep every registration *)

(** From a well-formed manager, the call keeps the invariant and moves every
    registered run along the state machine. *)
Definition good m m' : Prop := mgr_wf m -> mgr_wf m' /\ evolves m m'.

Lemma good_refl m : good m m.
Proof using. intros ?. split; [done|apply evolves_refl]. Qed.

Lemma good_trans m1 m2 m3 : good m1 m2 -> good m2 m3 -> good m1 m3.
Proof using.
  intros H1 H2 Hwf. destruct (H1 Hwf) as [Hwf2 E1]. destruct (H2 Hwf2) as [Hwf3 E2].
  split; [done|]. by eapply evolves_trans.
Qed.

Lemma good_registry m m' : same_registry m m' -> good m m'.
Proof using. intros Hs Hwf. eauto using mgr_wf_registry, same_registry_evolves. Qed.

Lemma good_put r0 r m :
  dict_get (rec_run_id r) (rm_runs m) = Some r0 -> rec_evolves r0 r -> good m (put_record r m).
Proof using.
  intros Hg He Hwf. split; [|by eapply put_record_evolves].
  eapply put_record_wf; [done|done|]. apply He.
Qed.

Lemma good_foldl {A} (f : run_manager S -> A -> run_manager S) l m :
  (forall m a, good m (f m a)) -> good m (foldl f m l).
Proof using.
  intros Hf. revert m. induction l as [|a l IH]; intros m; simpl; [apply good_refl|].
  eapply good_trans; [apply Hf|apply IH].
Qed.

(** Mutate a registered record, then persist its status. *)
Lemma good_put_persist r0 r1 st e v now m b r2 m2 :
  dict_get (rec_run_id r1) (rm_runs m) = Some r0 -> rec_evolves r0 r1 ->
  persist_status r1 st e v now (put_record r1 m) = (b, r2, m2) -> good m (put_record r2 m2).
Proof using.
  intros Hg He Hp. apply persist_status_registry in Hp as [Hs Hr2].
  eapply good_trans; [by eapply good_put|].
  eapply good_trans; [by apply good_registry|].
  eapply (good_put r1).
  - rewrite (proj1 Hs). simpl. destruct Hr2 as [->|[v' ->]]; simpl; apply dict_get_set_eq.
  - destruct Hr2 as [->|[v' ->]]; repeat split; auto with py.
Qed.

Lemma set_status_good id st e now m res m' : set_status id st e now m = (res, m') -> good m m'.
Proof using.
  unfold set_status. destruct (dict_get id (rm_runs m)) as [r|] eqn:Hr; [|intros [= <- <-]; apply good_refl].
  destruct (assert_run_transition _ _) as [u|er] eqn:Ha; [|intros [= <- <-]; apply good_refl].
  destruct (persist_status _ _ _ _ _ _) as [[b r2] m2] eqn:Hp. intros [= <- <-] Hwf.
  refine (good_put_persist r _ _ _ _ _ _ _ _ _ _ _ Hp Hwf).
  - simpl. by rewrite (wf_ids _ Hwf _ _ Hr).
  - split; [simpl; unfold run_edge; by rewrite Ha|by repeat split].
Qed.

Lemma cancel_remote_registry id act now m res m' :
  cancel_remote id act now m = (res, m') -> same_registry m m'.
Proof using.
  unfold cancel_remote. destruct (rm_store m) as [s|]; [|intros [= <- <-]; apply same_registry_refl].
  pose proof (call_store_once_registry (api_request_cancel id act now) s m) as H1.
  destruct (call_store_once _ _ _) as [[[|]|e] m1]; simpl in H1.
  - intros [= <- <-]. eapply same_registry_trans; [done|apply publish_registry].
  - destruct (rm_store m1) as [s1|]; [|by intros [= <- <-]].
    pose proof (call_store_once_registry (api_get_cancel_intent id) s1 m1) as H2.
    destruct (call_store_once _ _ _) as [[[[rq ac]|]|e] m2]; intros [= <- <-]; by eapply same_registry_trans.
  - by intros [= <- <-].
Qed.

Lemma interrupt_evolves r action now :
  rec_inflight r = true -> rec_evolves r (rec_set_status RS_interrupted None now (rec_set_abort action r)).
Proof using. intros Hi. split; [by apply run_edge_interrupt|]. by repeat split. Qed.

Lemma cancel_good id act now m res m' : cancel id act now m = (res, m') -> good m m'.
Proof using.
  unfold cancel. destruct (dict_get id (rm_runs m)) as [r|] eqn:Hr.
  2: { intros Hc. by eapply good_registry, cancel_remote_registry. }
  case_bool_decide; [intros [= <- <-]; apply good_refl|].
  destruct (rec_inflight r) eqn:Hi; simpl; [|intros [= <- <-]; apply good_refl].
  destruct (assert_run_transition _ _) as [u|er]; [|intros [= <- <-]; apply good_refl].
  destruct (persist_status _ _ _ _ _ _) as [[b r2] m2] eqn:Hp. intros [= <- <-] Hwf.
  revert Hwf. eapply (good_trans _ (put_record r2 m2)).
  - intros Hwf. refine (good_put_persist r _ _ _ _ _ _ _ _ _ _ _ Hp Hwf); [|by apply interrupt_evolves].
    simpl. by rewrite (wf_ids _ Hwf _ _ Hr).
  - apply good_registry. eapply same_registry_trans; [|apply publish_registry].
    destruct (rm_store m2); [apply call_store_once_registry|apply same_registry_refl].
Qed.

Lemma persist_interrupted_good now m id : good m (persist_interrupted now m id).
Proof using.
  unfold persist_interrupted. destruct (dict_get id (rm_runs m)) as [r|] eqn:Hr; [|apply good_refl].
  destruct (persist_status _ _ _ _ _ _) as [[b r2] m2] eqn:Hp. intros Hwf.
  apply persist_status_registry in Hp as [Hs Hr2]. pose proof (wf_ids _ Hwf _ _ Hr) as Hid. revert Hwf.
  eapply good_trans; [by apply good_registry|]. eapply (good_put r).
  - rewrite (proj1 Hs). destruct Hr2 as [->|[v' ->]]; simpl; by rewrite Hid.
  - destruct Hr2 as [->|[v' ->]]; repeat split; auto with py.
Qed.

(** The attribute updates write through the registered key. *)
Lemma good_apply_kwargs id a now r m :
  dict_get id (rm_runs m) = Some r ->
  good m (set_runs (dict_set id (rec_apply_kwargs a now r) (rm_runs m)) m).
Proof using.
  intros Hr Hwf. pose proof (wf_ids _ Hwf _ _ Hr) as Hid. revert Hwf.
  assert (set_runs (dict_set id (rec_apply_kwargs a now r) (rm_runs m)) m
          = put_record (rec_apply_kwargs a now r) m) as -> by (unfold put_record; simpl; by rewrite Hid).
  apply (good_put r); [simpl; by rewrite Hid|]. repeat split. simpl. auto with py.
Qed.

Lemma completion_good id st a v now m : good m (update_run_completion id st a v now m).
Proof using.
  unfold update_run_completion. set (upd := rec_apply_kwargs a now <$> _).
  eapply (good_trans _ (match upd with Some r => set_runs (dict_set id r (rm_runs m)) m | None => m end)).
  { subst upd. destruct (dict_get id (rm_runs m)) eqn:Hr; simpl; [by apply good_apply_kwargs|apply good_refl]. }
  generalize (match upd with Some r => set_runs (dict_set id r (rm_runs m)) m | None => m end) as m1.
  intros m1. apply good_registry. destruct (rm_store m1) as [s|]; [|apply same_registry_refl].
  pose proof (call_store_registry (api_update_run_completion id st a v now) s m1) as H1.
  destruct (call_store _ _ _) as [[[|]|e] m2]; simpl in H1; [done| |done].
  destruct v; [done|]. destruct upd as [r|]; [|done].
  pose proof (persist_snapshot_registry id (store_put_payload r (comp_error a)) now m2) as H2.
  destruct (persist_snapshot_to_store _ _ _ _) as [[|] m3]; simpl in H2; [|by eapply same_registry_trans].
  destruct (rm_store m3) as [s3|]; [|by eapply same_registry_trans].
  eapply same_registry_trans; [done|]. eapply same_registry_trans; [done|apply call_store_registry].
Qed.

Lemma progress_good id u now m : good m (update_run_progress id u now m).
Proof using.
  unfold update_run_progress.
  assert (forall b m1, same_registry m1
    match b, rm_store m1 with
    | true, Some s => (call_store_once (api_update_run_progress id u now) s m1).2
    | _, _ => m1
    end) as Hst.
  { intros [|] m1; [|apply same_registry_refl].
    destruct (rm_store m1); [apply call_store_once_registry|apply same_registry_refl]. }
  eapply good_trans; [|apply good_registry, Hst].
  destruct (dict_get id (rm_runs m)) eqn:Hr; [|apply good_refl].
  case_bool_decide; [by apply good_apply_kwargs|apply good_refl].
Qed.

Lemma update_model_good id model now m : good m (update_model_name id model now m).
Proof using.
  unfold update_model_name. destruct (dict_get id (rm_runs m)) as [r|] eqn:Hr; [|apply good_refl].
  intros Hwf. pose proof (wf_ids _ Hwf _ _ Hr) as Hid. revert Hwf.
  eapply (good_trans _ (put_record (rec_set_model model now r) m)).
  - apply (good_put r); [simpl; by rewrite Hid|]. repeat split. simpl. auto with py.
  - apply good_registry. generalize (put_record (rec_set_model model now r) m). intros m1.
    destruct (rm_store m1); [apply call_store_registry|apply same_registry_refl].
Qed.

Lemma get_registry id m res m' : get id m = (res, m') -> same_registry m m'.
Proof using.
  unfold get. destruct (dict_get id (rm_runs m)); [by intros [= <- <-]|].
  destruct (rm_store m) as [s|]; [|by intros [= <- <-]].
  pose proof (call_store_once_registry (api_get id) s m) as H1.
  by destruct (call_store_once _ _ _) as [[[row|]|e] m1]; intros [= <- <-].
Qed.

Lemma list_by_thread_registry t o n m res m' : list_by_thread t o n m = (res, m') -> same_registry m m'.
Proof using.
  unfold list_by_thread. destruct (rm_store m) as [s|]; [|by intros [= <- <-]].
  set (lim := Z.max 0 _).
  pose proof (call_store_once_registry (api_list_by_thread t o lim) s m) as H1.
  by destruct (call_store_once _ _ _) as [[rows|e] m1]; intros [= <- <-].
Qed.

Lemma reconcile_row_registry err lease now rs log m row rs' log' m' :
  reconcile_row err lease now (rs, log, m) row = (rs', log', m') -> same_registry m m'.
Proof using.
  unfold reconcile_row. destruct (record_from_store row) as [r|]; [|by intros [= <- <- <-]].
  destruct (is_terminal_run_status _); [by intros [= <- <- <-]|].
  destruct (lease_gate _ _ _); [|by intros [= <- <- <-]].
  case_match; [by intros [= <- <- <-]|].
  destruct (persist_status _ _ _ _ _ _) as [[[|] r2] m1] eqn:Hp; intros [= <- <- <-];
    by apply persist_status_registry in Hp as [? _].
Qed.

Lemma reconcile_fold_registry err lease now rows acc :
  same_registry acc.2 (foldl (reconcile_row err lease now) acc rows).2.
Proof using.
  revert acc. induction rows as [|row rows IH]; intros [[rs log] m]; [apply same_registry_refl|].
  cbn [foldl snd]. destruct (reconcile_row err lease now (rs, log, m) row) as [[rs1 log1] m1] eqn:Hrow.
  eapply same_registry_trans; [by eapply reconcile_row_registry|apply (IH (rs1, log1, m1))].
Qed.

Lemma reconcile_registry err b lease now m rs log m' :
  reconcile_orphaned_inflight_runs err b lease now m = (rs, log, m') -> same_registry m m'.
Proof using.
  unfold reconcile_orphaned_inflight_runs. destruct (rm_store m) as [s|]; [|by intros [= <- <- <-]].
  pose proof (call_store_registry (api_list_inflight b now) s m) as H1.
  destruct (call_store _ _ _) as [[rows|e] m1]; simpl in H1; [|by intros [= <- <- <-]].
  intros Hf. eapply same_registry_trans; [done|].
  pose proof (reconcile_fold_registry err lease now rows ([], [], m1)) as H2. by rewrite Hf in H2.
Qed.
(** ** Interrupting the other runs of a thread *)

(** Records captured from the registry, with distinct ids. *)
Definition captured (l : list run_record) m : Prop :=
  NoDup (rec_run_id <$> l) /\ forall r, r ∈ l -> dict_get (rec_run_id r) (rm_runs m) = Some r.

Lemma captured_put r r' l m :
  captured (r :: l) m -> rec_run_id r' = rec_run_id r -> captured l (put_record r' m).
Proof using.
  intros [Hnd Hg] Hid. csimpl in Hnd. apply NoDup_cons in Hnd as [Hni Hnd]. split; [done|].
  intros x Hx. simpl. rewrite dict_get_set, Hid, decide_False; [apply Hg; by right|].
  intros E. apply Hni. rewrite E. by apply list_elem_of_fmap_2.
Qed.

(** The registry after a loop that rewrites captured records by [f]. *)
Lemma fold_put_get (f : run_record -> run_record) l m :
  captured l m -> (forall r, rec_run_id (f r) = rec_run_id r) ->
  let m' := foldl (fun m r => put_record (f r) m) m l in
  (forall r, r ∈ l -> dict_get (rec_run_id r) (rm_runs m') = Some (f r))
  /\ (forall id, id ∉ rec_run_id <$> l -> dict_get id (rm_runs m') = dict_get id (rm_runs m)).
Proof using.
  intros Hc Hf. simpl. revert m Hc. induction l as [|r l IH]; intros m Hc; simpl; [split; [by intros r ?%elem_of_nil|done]|].
  destruct (IH _ (captured_put _ (f r) _ _ Hc (Hf r))) as [H1 H2].
  destruct Hc as [Hnd Hg]. csimpl in Hnd. apply NoDup_cons in Hnd as [Hni Hnd]. split.
  - intros x. rewrite elem_of_cons. intros [->|Hx]; [|by apply H1].
    rewrite H2 by done. simpl. rewrite Hf. apply dict_get_set_eq.
  - intros id Hid. csimpl in Hid. apply not_elem_of_cons in Hid as [Hne Hid]. rewrite H2 by done. simpl.
    rewrite Hf. by apply dict_get_set_ne.
Qed.

Lemma fold_put_good (f : run_record -> run_record) l m :
  captured l m -> (forall r, r ∈ l -> rec_evolves r (f r)) ->
  good m (foldl (fun m r => put_record (f r) m) m l).
Proof using.
  revert m. induction l as [|r l IH]; intros m Hc Hf; simpl; [apply good_refl|].
  assert (rec_evolves r (f r)) as Hr by (apply Hf; by left).
  eapply good_trans; [apply (good_put r)|apply IH].
  - replace (rec_run_id (f r)) with (rec_run_id r) by (symmetry; apply Hr). apply Hc. by left.
  - done.
  - eapply captured_put; [done|apply Hr].
  - intros x Hx. apply Hf. by right.
Qed.

(** ** The thread index read back *)

(** The records the index yields are those a scan of the registry finds, in
    registration order. *)
Lemma omap_get_scan (d l : list (string * run_record)) :
  dict_wf d -> l ⊆ d -> omap (fun id => dict_get id d) l.*1 = l.*2.
Proof using.
  intros Hwf. induction l as [|[k r] l IH]; intros Hsub; [done|]. csimpl.
  rewrite (dict_get_elem k r d); [|done|apply Hsub; by left].
  f_equal. apply IH. intros x Hx. apply Hsub. by right.
Qed.

Lemma thread_records_scan t m : mgr_wf m -> thread_records_locked t m = (scan_thread t m).*2.
Proof using.
  intros Hwf. pose proof (wf_index _ Hwf t) as Hi. unfold bucket_keys in Hi.
  unfold thread_records_locked.
  destruct (dict_get t (rm_by_thread m)) as [b|].
  - rewrite Hi. apply omap_get_scan; [apply Hwf|].
    intros x. unfold scan_thread. rewrite !list_elem_of_In, filter_In. tauto.
  - by destruct (scan_thread t m).
Qed.

Lemma filter_fst_NoDup (p : string * run_record -> bool) (d : list (string * run_record)) :
  NoDup d.*1 -> NoDup (List.filter p d).*1.
Proof using.
  induction d as [|[k v] d IH]; [done|]. csimpl. rewrite NoDup_cons. intros [Hk Hd].
  destruct (p (k, v)); csimpl; [|auto]. apply NoDup_cons. split; [|auto].
  intros Hin. apply Hk. apply list_elem_of_fmap in Hin as ([k' v'] & -> & Hin).
  apply filter_values_elem in Hin. by apply (list_elem_of_fmap_2 fst) in Hin.
Qed.

Lemma filter_snd (p : run_record -> bool) (d : list (string * run_record)) :
  List.filter p d.*2 = (List.filter (fun x => p x.2) d).*2.
Proof using. induction d as [|[k v] d IH]; [done|]. csimpl. destruct (p v); csimpl; by rewrite IH. Qed.

Lemma filter_filter_andb {A} (p q : A -> bool) l :
  List.filter p (List.filter q l) = List.filter (fun x => q x && p x) l.
Proof using.
  induction l as [|x l IH]; [done|]. simpl. destruct (q x); simpl; [destruct (p x)|]; by rewrite IH.
Qed.

(** Any part of the registry picked by a test is captured. *)
Lemma captured_filter (p : string * run_record -> bool) m :
  mgr_wf m -> captured (List.filter p (rm_runs m)).*2 m.
Proof using.
  intros Hwf. assert (forall x, x ∈ List.filter p (rm_runs m) -> dict_get x.1 (rm_runs m) = Some x.2) as Hx.
  { intros [k r] Hin. apply filter_values_elem in Hin. apply dict_get_elem; [apply Hwf|done]. }
  split.
  - replace (rec_run_id <$> (List.filter p (rm_runs m)).*2) with (List.filter p (rm_runs m)).*1.
    + apply filter_fst_NoDup, Hwf.
    + rewrite <-list_fmap_compose. apply list_fmap_ext. intros i x Hi. simpl.
      symmetry. apply (wf_ids _ Hwf). apply Hx. by eapply list_elem_of_lookup_2.
  - intros r Hr. apply list_elem_of_fmap in Hr as (x & -> & Hin). specialize (Hx _ Hin).
    by rewrite (wf_ids _ Hwf _ _ Hx).
Qed.

Lemma inflight_scan t m :
  mgr_wf m ->
  List.filter rec_inflight (thread_records_locked t m)
  = (List.filter (fun x => String.eqb (rec_thread_id x.2) t && rec_inflight x.2) (rm_runs m)).*2.
Proof using.
  intros Hwf. rewrite (thread_records_scan t m Hwf), filter_snd. unfold scan_thread.
  by rewrite filter_filter_andb.
Qed.
(** ** Shutdown *)

Lemma shutdown_signal_good m ids m' : shutdown_signal m = (ids, m') -> good m m'.
Proof using.
  unfold shutdown_signal. intros [= _ <-] Hwf. revert Hwf.
  unfold dict_values. rewrite filter_snd. intros Hwf.
  apply (fold_put_good (rec_set_abort "interrupt")); [by apply captured_filter| |done].
  intros r _. repeat split. simpl. auto with py.
Qed.

Lemma shutdown_mark_good pending now acc id : good acc.2 (shutdown_mark pending now acc id).2.
Proof using.
  destruct acc as [l m]. unfold shutdown_mark.
  destruct (dict_get id (rm_runs m)) as [r|] eqn:Hr; [|apply good_refl].
  case_match; [apply good_refl|]. destruct (rec_inflight r) eqn:Hi; [|apply good_refl].
  simpl. intros Hwf. eapply (good_put r); [|split; [by apply run_edge_interrupt|by repeat split]|done].
  simpl. by rewrite (wf_ids _ Hwf _ _ Hr).
Qed.

Lemma shutdown_marks_good pending now ids acc : good acc.2 (foldl (shutdown_mark pending now) acc ids).2.
Proof using.
  revert acc. induction ids as [|id ids IH]; intros acc; [apply good_refl|]. cbn [foldl].
  eapply good_trans; [apply shutdown_mark_good|apply IH].
Qed.

Lemma shutdown_settle_good ids pending budget now m : good m (shutdown_settle ids pending budget now m).
Proof using.
  unfold shutdown_settle. pose proof (shutdown_marks_good pending now ids ([], m)) as H1.
  destruct (foldl _ _ _) as [tp m1]; simpl in H1. destruct budget; [|done].
  eapply good_trans; [done|]. apply good_foldl. intros. apply persist_interrupted_good.
Qed.

(** ** Creation *)

Lemma register_good r now m res m' :
  dict_get (rec_run_id r) (rm_runs m) = None -> register_run r now m = (res, m') -> good m m'.
Proof using.
  intros Hid Hreg Hwf. apply register_run_spec in Hreg; [|done..].
  destruct res as [r'|e]; [|by apply good_registry].
  destruct Hreg as [-> Hs]. revert Hwf. eapply good_trans; [|by apply good_registry].
  intros Hwf. auto using index_put_wf, index_put_evolves.
Qed.

Lemma captured_registered l r m m1 :
  captured l m -> dict_get (rec_run_id r) (rm_runs m) = None ->
  same_registry (index_run_locked r (put_record r m)) m1 -> captured l m1.
Proof using.
  intros [Hnd Hg] Hid [Hr _]. split; [done|]. intros x Hx. rewrite Hr. simpl.
  rewrite dict_get_set. specialize (Hg _ Hx). case_decide as E; [rewrite E in Hid; congruence|done].
Qed.

(** The successful branch of [create_or_reject], up to persistence. *)
Lemma interrupt_all_good strategy now t r m m1 :
  mgr_wf m -> dict_get (rec_run_id r) (rm_runs m) = None ->
  same_registry (index_run_locked r (put_record r m)) m1 ->
  good m1 (foldl (interrupt_record strategy now) m1
             (List.filter rec_inflight (thread_records_locked t m))).
Proof using.
  intros Hwf Hid Hs. rewrite inflight_scan by done.
  apply (fold_put_good (fun r => rec_set_status RS_interrupted None now (rec_set_abort strategy r))).
  - eapply captured_registered; [by apply captured_filter|done|done].
  - intros x Hx. apply interrupt_evolves.
    apply list_elem_of_fmap in Hx as ([k y] & -> & Hin).
    rewrite list_elem_of_In, filter_In in Hin. destruct Hin as [_ Hin]. by apply andb_true_iff in Hin as [_ ?].
Qed.

Lemma create_or_reject_good id a now m res m' :
  dict_get id (rm_runs m) = None -> create_or_reject id a now m = (res, m') -> good m m'.
Proof using.
  intros Hid. unfold create_or_reject.
  case_match; [intros [= <- <-]; apply good_refl|]. case_match; [intros [= <- <-]; apply good_refl|].
  set (r0 := new_record _ _ _ _ _).
  destruct (register_run r0 now m) as [[r|e] m1] eqn:Hreg.
  2: { intros [= <- <-]. by eapply (register_good r0). }
  intros Hrest Hwf. pose proof Hreg as Hspec. apply register_run_spec in Hspec as [-> Hs]; [|done..].
  pose proof Hwf as Hwf0. revert Hwf. eapply good_trans; [by eapply (register_good r0)|].
  revert Hrest. case_match; intros [= <- <-]; [|apply good_refl].
  eapply good_trans; [|apply good_foldl; intros; apply persist_interrupted_good].
  by eapply (interrupt_all_good _ _ _ r0).
Qed.

Lemma create_good id a now m res m' :
  dict_get id (rm_runs m) = None -> create id a now m = (res, m') -> good m m'.
Proof using. intros Hid. by apply (register_good (new_record id a None unpinned now)). Qed.

(** ** Every call *)

Lemma mgr_step_good m m' : mgr_step m m' -> (exists id, m' = cleanup id m) \/ good m m'.
Proof using.
  destruct 1; try (right; solve
    [ by eapply create_good | by eapply create_or_reject_good | by eapply set_status_good
    | by eapply cancel_good | apply completion_good | apply progress_good | apply update_model_good
    | by eapply good_registry, get_registry | by eapply good_registry, list_by_thread_registry
    | by eapply good_registry, reconcile_registry | by eapply shutdown_signal_good
    | apply shutdown_settle_good ]).
  left. eauto.
Qed.

Lemma mgr_step_wf m m' : mgr_step m m' -> mgr_wf m -> mgr_wf m'.
Proof using.
  intros [[id ->]|Hg]%mgr_step_good Hwf; [by apply cleanup_wf|by apply Hg].
Qed.

Lemma cleanup_unregisters id m : dict_get id (rm_runs (cleanup id m)) = None.
Proof using.
  unfold cleanup. destruct (dict_get id (rm_runs m)) as [r|] eqn:Hr; [|done].
  unfold unindex_run_locked. repeat case_match; simpl; apply dict_get_pop_eq.
Qed.

Lemma mgr_live_step_evolves m m' : mgr_live_step m m' -> mgr_wf m -> evolves m m'.
Proof using.
  intros [[[id ->]|Hg]%mgr_step_good Hlive] Hwf; [|by apply Hg].
  destruct (dict_get id (rm_runs m)) as [r|] eqn:Hr.
  - destruct (Hlive id) as [x Hx]; [by rewrite Hr|]. by rewrite cleanup_unregisters in Hx.
  - unfold cleanup. rewrite Hr. apply evolves_refl.
Qed.
End facts.
#[export] Hint Resolve same_registry_refl evolves_refl rec_evolves_refl : py.
