(* ===== verification/RunManagerProps.v ===== *)
(** * The run manager: properties

    What the manager promises: an exact thread index, a one-way lifecycle for
    every registered run, one active run per thread under the rejecting and
    interrupting strategies, atomic creation against a failing store,
    compare-and-set status writes and an orphan reconciler that touches only
    orphans.  The store is any implementation of [RunStoreApi]; where the rows
    matter it also satisfies [RunStoreLaws]. *)
From S2P Require Import Prelude Transitions RunStore Retry StoreApi Ownership RunManager RunManagerFacts.

(** * Definitions *)

(** The in-flight runs of a thread, as the manager sees them. *)
Definition thread_inflight {S} (t : string) (m : run_manager S) : list run_record :=
  List.filter rec_inflight (thread_records_locked t m).

(** A freshly started manager. *)
Definition mgr_init {S} (store : option S) (p : retry_policy) (notifier : bool) : run_manager S :=
  mk_mgr [] [] store p notifier [].

(** A row the reconciler may fail: in flight, with no live owner. *)
Definition orphan {S} (lease : option (string -> string -> result lease_error (option ClaimRecord)))
    (now : Z) (m : run_manager S) (row : run_row) : Prop :=
  row_status row ∈ ["pending"; "running"]
  /\ (forall live, dict_get (row_run_id row) (rm_runs m) = Some live -> rec_inflight live = false)
  /\ (forall get_holder holder, lease = Some get_holder ->
        get_holder (opt_or (row_org_id row) "") (row_run_id row) = Ok (Some holder) ->
        is_expired holder now = true).

(** * Lemmas *)

Lemma mgr_init_wf {S} (store : option S) p b : mgr_wf (mgr_init store p b).
Proof. split; try done. apply dict_wf_nil. Qed.

Section registry.
Context {S : Type} `{RunStoreApi S}.
Implicit Types (m : run_manager S) (r : run_record).

Lemma persist_status_nocas r st e now m b r' m' :
  persist_status r st e None now m = (b, r', m') -> same_registry m m' /\ r' = r.
Proof using.
  intros Hp. pose proof (persist_status_registry _ _ _ _ _ _ _ _ _ Hp) as [Hs _]. split; [done|].
  unfold persist_status in Hp. repeat case_match; by simplify_eq.
Qed.

Lemma persist_interrupted_registry now m id : mgr_wf m -> same_registry m (persist_interrupted now m id).
Proof using.
  intros Hwf. unfold persist_interrupted. destruct (dict_get id (rm_runs m)) as [r|] eqn:Hr; [|done].
  destruct (persist_status _ _ _ _ _ _) as [[b r2] m2] eqn:Hp.
  apply persist_status_nocas in Hp as [[Hr2 Hb2] ->]. split; [|done]. simpl. rewrite Hr2.
  apply dict_set_id. by rewrite (wf_ids _ Hwf _ _ Hr).
Qed.

Lemma persist_interrupted_fold_registry now ids m :
  mgr_wf m -> same_registry m (foldl (persist_interrupted now) m ids).
Proof using.
  revert m. induction ids as [|id ids IH]; intros m Hwf; simpl; [apply same_registry_refl|].
  pose proof (persist_interrupted_registry now m id Hwf) as H1.
  eapply same_registry_trans; [done|]. apply IH. by eapply mgr_wf_registry.
Qed.

(** A dict filtered to the only key that passes the test. *)
Lemma filter_unique (p : string * run_record -> bool) id r (d : list (string * run_record)) :
  dict_wf d -> dict_get id d = Some r -> p (id, r) = true ->
  (forall k v, dict_get k d = Some v -> p (k, v) = true -> k = id) -> List.filter p d = [(id, r)].
Proof using.
  intros Hwf Hg Hp Hu. unfold dict_wf, dict_keys in Hwf. induction d as [|[k v] d IH]; [done|].
  csimpl in Hwf. apply NoDup_cons in Hwf as [Hk Hwf]. simpl in *. case_decide as E.
  - subst. simplify_eq. rewrite Hp. f_equal. apply filter_none, Forall_forall. intros [k' v'] Hin.
    destruct (p (k', v')) eqn:Hp'; [|done]. exfalso.
    assert (k' ∈ d.*1) as Hin' by (by apply (list_elem_of_fmap_2 fst) in Hin).
    assert (k' <> k) as Hne by congruence. apply Hne. apply (Hu k' v'); [|done].
    rewrite decide_False by congruence. by apply dict_get_elem.
  - destruct (p (k, v)) eqn:Hpk.
    + exfalso. apply E. symmetry. apply (Hu k v); [|done]. by rewrite decide_True.
    + apply IH; [done|done|]. intros k' v' Hg' Hp'. apply (Hu k' v'); [|done].
      rewrite decide_False; [done|]. intros ->. apply Hk.
      apply dict_get_Some_elem in Hg'. by apply (list_elem_of_fmap_2 fst) in Hg'.
Qed.

Lemma in_thread_inflight t m r :
  mgr_wf m ->
  (r ∈ thread_inflight t m
   <-> dict_get (rec_run_id r) (rm_runs m) = Some r /\ rec_thread_id r = t /\ rec_inflight r = true).
Proof using.
  intros Hwf. unfold thread_inflight. rewrite inflight_scan by done. split.
  - intros Hin. destruct (captured_filter
      (fun x => String.eqb (rec_thread_id x.2) t && rec_inflight x.2) m Hwf) as [_ Hc].
    split; [by apply Hc|]. apply list_elem_of_fmap in Hin as ([k x] & -> & Hin).
    rewrite list_elem_of_In, filter_In in Hin. destruct Hin as [_ Hin]. simpl in Hin.
    apply andb_true_iff in Hin as [?%String.eqb_eq ?]. done.
  - intros (Hg & Ht & Hi). apply list_elem_of_fmap. exists (rec_run_id r, r). split; [done|].
    rewrite list_elem_of_In, filter_In, <-list_elem_of_In. simpl.
    rewrite Ht, String.eqb_refl, Hi. split; [by apply dict_get_Some_elem|done].
Qed.

(** [thread_inflight] is a singleton when one registered run qualifies. *)
Lemma thread_inflight_unique t m id r :
  mgr_wf m -> dict_get id (rm_runs m) = Some r -> rec_thread_id r = t -> rec_inflight r = true ->
  (forall id' r', dict_get id' (rm_runs m) = Some r' -> rec_thread_id r' = t -> rec_inflight r' = true -> id' = id) ->
  thread_inflight t m = [r].
Proof using.
  intros Hwf Hg Ht Hi Hu. unfold thread_inflight. rewrite inflight_scan by done.
  rewrite (filter_unique _ id r); [done|apply Hwf|done| |].
  - simpl. by rewrite Ht, String.eqb_refl, Hi.
  - intros k v Hk Hp. simpl in Hp. apply andb_true_iff in Hp as [?%String.eqb_eq ?]. eauto.
Qed.

(** The registry after the interrupting loop and the persistence of its
    records. *)
Lemma interrupted_registry strategy now tid r0 m m1 :
  mgr_wf m -> mgr_wf m1 -> dict_get (rec_run_id r0) (rm_runs m) = None ->
  same_registry (index_run_locked r0 (put_record r0 m)) m1 ->
  let m' := foldl (persist_interrupted now)
              (foldl (interrupt_record strategy now) m1 (thread_inflight tid m))
              (rec_run_id <$> thread_inflight tid m) in
  (forall r, r ∈ thread_inflight tid m ->
     dict_get (rec_run_id r) (rm_runs m')
     = Some (rec_set_status RS_interrupted None now (rec_set_abort strategy r)))
  /\ (forall k, (forall x, dict_get k (rm_runs m) = Some x -> rec_thread_id x = tid ->
                  rec_inflight x = true -> False) ->
        dict_get k (rm_runs m') = dict_get k (rm_runs m1)).
Proof using.
  intros Hwf Hwf1 Hid Hs m'.
  pose proof (interrupt_all_good strategy now tid r0 m m1 Hwf Hid Hs Hwf1) as [Hwf2 _].
  fold (thread_inflight tid m) in Hwf2.
  pose proof (persist_interrupted_fold_registry now (rec_run_id <$> thread_inflight tid m) _ Hwf2) as [Hp _].
  assert (captured (thread_inflight tid m) m1) as Hcap.
  { eapply (captured_registered _ r0); [|done|done]. unfold thread_inflight. rewrite inflight_scan by done.
    by apply captured_filter. }
  destruct (fold_put_get (fun x => rec_set_status RS_interrupted None now (rec_set_abort strategy x))
              _ _ Hcap) as [Hin Hout]; [done|].
  change (foldl _ m1 _) with (foldl (interrupt_record strategy now) m1 (thread_inflight tid m)) in Hin, Hout.
  subst m'. rewrite Hp. split; [done|]. intros k Hk. apply Hout.
  intros (x & -> & Hx)%list_elem_of_fmap. apply in_thread_inflight in Hx as (? & ? & ?); [|done]. eauto.
Qed.

(** Without an interrupting strategy, an admitted run found its thread idle. *)
Lemma admitted_idle a (inflight : list run_record) :
  str_in (ca_multitask_strategy a) SUPPORTED_STRATEGIES = true ->
  str_in (ca_multitask_strategy a) ["interrupt"; "rollback"] = false ->
  String.eqb (ca_multitask_strategy a) "reject" && negb (bool_decide (inflight = [])) = false ->
  inflight = [].
Proof using.
  intros Hsup%str_in_spec Hst Hrej. unfold SUPPORTED_STRATEGIES in Hsup.
  assert (ca_multitask_strategy a ∉ ["interrupt"; "rollback"]) as Hn by (rewrite <-str_in_spec; congruence).
  assert (ca_multitask_strategy a = "reject") as Hsr by set_solver.
  rewrite Hsr in Hrej. simpl in Hrej. by apply negb_false_iff, bool_decide_eq_true in Hrej.
Qed.

(** The registry after [create_or_reject] succeeded. *)
Lemma create_or_reject_ok id a now m r m' :
  mgr_wf m -> dict_get id (rm_runs m) = None -> create_or_reject id a now m = (Ok r, m') ->
  r = new_record id a (ca_model_name a) (ca_release a) now
  /\ dict_get id (rm_runs m') = Some r
  /\ (forall id' r', id' <> id -> dict_get id' (rm_runs m) = Some r' ->
        dict_get id' (rm_runs m')
        = Some (if String.eqb (rec_thread_id r') (ca_thread_id a) && rec_inflight r'
                then rec_set_status RS_interrupted None now
                       (rec_set_abort (ca_multitask_strategy a) r')
                else r'))
  /\ (forall id', id' <> id -> dict_get id' (rm_runs m) = None -> dict_get id' (rm_runs m') = None).
Proof using.
  intros Hwf Hid. unfold create_or_reject. destruct (str_in _ SUPPORTED_STRATEGIES) eqn:Hsup; [|done]. simpl.
  case_match eqn:Hrej; [done|]. set (r0 := new_record _ _ _ _ _).
  destruct (register_run r0 now m) as [[r1|e] m1] eqn:Hreg; [|done].
  pose proof (register_good r0 _ _ _ _ Hid Hreg Hwf) as [Hwf1 _].
  apply register_run_spec in Hreg as [-> Hs]; [|done..].
  assert (forall k, dict_get k (rm_runs m1) = if decide (id = k) then Some r0 else dict_get k (rm_runs m)) as Hm1.
  { intros k. rewrite (proj1 Hs). simpl. by rewrite dict_get_set. }
  assert (forall k x, dict_get k (rm_runs m) = Some x -> rec_thread_id x = ca_thread_id a ->
            rec_inflight x = true -> rec_run_id x = k /\ x ∈ thread_inflight (ca_thread_id a) m) as Hmem.
  { intros k x Hx ? ?. pose proof (wf_ids _ Hwf _ _ Hx) as E. split; [done|].
    apply in_thread_inflight; [done|]. by rewrite E. }
  fold (thread_inflight (ca_thread_id a) m) in *. destruct (str_in _ ["interrupt"; "rollback"]) eqn:Hst.
  - destruct (interrupted_registry (ca_multitask_strategy a) now (ca_thread_id a) r0 m m1) as [Hin Hout]; [done..|].
    intros [= <- <-]. split; [done|]. split; [rewrite Hout, Hm1, decide_True; [done..|congruence]|]. split.
    + intros k x Hne Hx. case_match eqn:Ht.
      * apply andb_true_iff in Ht as [Ht%String.eqb_eq Hi]. destruct (Hmem k x Hx Ht Hi) as [<- Hxi]. by apply Hin.
      * rewrite Hout, Hm1, decide_False; [done..|]. intros y Hy Hty Hiy. simplify_eq.
        by rewrite Hty, String.eqb_refl, Hiy in Ht.
    + intros k Hne Hk. rewrite Hout, Hm1, decide_False; [done..|congruence].
  - intros [= <- <-]. apply (admitted_idle a) in Hrej; [|done..].
    split; [done|]. split; [by rewrite Hm1, decide_True|]. split; intros k.
    + intros x Hne Hx. rewrite Hm1, decide_False by done. case_match eqn:Ht; [|done]. exfalso.
      apply andb_true_iff in Ht as [Ht%String.eqb_eq Hi]. destruct (Hmem k x Hx Ht Hi) as [_ Hxi].
      rewrite Hrej in Hxi. by apply elem_of_nil in Hxi.
    + intros Hne Hk. by rewrite Hm1, decide_False.
Qed.

(** A refused creation leaves the registry alone. *)
Lemma create_or_reject_refused id a now m e m' :
  mgr_wf m -> dict_get id (rm_runs m) = None -> create_or_reject id a now m = (Err e, m') -> same_registry m m'.
Proof using.
  intros Hwf Hid. unfold create_or_reject. destruct (negb _); [intros [= _ <-]; apply same_registry_refl|].
  destruct (_ && _); [intros [= _ <-]; apply same_registry_refl|].
  destruct (register_run _ _ _) as [[r|er] m1] eqn:Er; [by destruct (str_in _ _)|]. intros [= _ <-].
  by apply register_run_spec in Er.
Qed.

(** The new run is the only active one of its thread. *)
Lemma created_alone id a now m r m' k x :
  mgr_wf m -> dict_get id (rm_runs m) = None -> create_or_reject id a now m = (Ok r, m') ->
  dict_get k (rm_runs m') = Some x -> rec_thread_id x = ca_thread_id a -> rec_inflight x = true -> k = id.
Proof using.
  intros Hwf Hid Hc Hk Ht Hi. destruct (create_or_reject_ok _ _ _ _ _ _ Hwf Hid Hc) as (_ & _ & Hold & Hnone).
  destruct (decide (k = id)) as [|Hne]; [done|]. exfalso.
  destruct (dict_get k (rm_runs m)) as [y|] eqn:Hy; [|rewrite (Hnone k) in Hk; done].
  rewrite (Hold k y) in Hk by done. injection Hk as <-.
  destruct (String.eqb_spec (rec_thread_id y) (ca_thread_id a)); simpl in *; [|done].
  destruct (rec_inflight y) eqn:Hiy; simpl in *; [by simpl in Hi|congruence].
Qed.
End registry.

(** ** Rows under store calls *)

Section rows.
Context {S : Type} `{RunStoreLaws S}.
Implicit Types (m : run_manager S) (r : run_record).

(** The stored row of a run; [None] without a store. *)
Definition stored (id : string) m : option run_row := s ← rm_store m; dict_get id (api_rows s).

Definition has_store m : Prop := is_Some (rm_store m).

(** A lawful retried call: raise and keep the rows, or do what is specified. *)
Lemma call_store_spec {A} (op : S -> result exc A * S) spec s m res m' :
  implements api_rows op spec -> rm_store m = Some s -> call_store op s m = (res, m') ->
  exists s', rm_store m' = Some s'
    /\ match res with Ok a => (a, api_rows s') = spec (api_rows s) | Err _ => api_rows s' = api_rows s end.
Proof using.
  intros Hi Hs. unfold call_store. destruct (call_store_with_retry _ _ _) as [res1 s1] eqn:Hc.
  intros [= <- <-]. exists s1. split; [done|].
  by apply (retry_implements _ _ _ _ Hi) in Hc.
Qed.

Lemma call_store_once_spec {A} (op : S -> result exc A * S) spec s m res m' :
  implements api_rows op spec -> rm_store m = Some s -> call_store_once op s m = (res, m') ->
  exists s', rm_store m' = Some s'
    /\ match res with Ok a => (a, api_rows s') = spec (api_rows s) | Err _ => api_rows s' = api_rows s end.
Proof using.
  intros Hi Hs. unfold call_store_once. destruct (op s) as [res1 s1] eqn:Hc.
  intros [= <- <-]. exists s1. split; [done|]. by apply Hi in Hc.
Qed.

(** A snapshot write is all or nothing. *)
Lemma persist_snapshot_spec id p now s m b m' :
  rm_store m = Some s -> persist_snapshot_to_store id p now m = (b, m') ->
  exists s', rm_store m' = Some s'
    /\ api_rows s' = if b then store_put id p now (api_rows s) else api_rows s.
Proof using.
  intros Hs. unfold persist_snapshot_to_store. rewrite Hs.
  destruct (call_store _ _ _) as [[u|e] m1] eqn:Hc;
    (eapply call_store_spec in Hc as (s' & Hs' & Hrows); [|apply api_put_law|done]);
    intros [= <- <-]; exists s'; (split; [done|]); [simpl in Hrows; congruence|done].
Qed.

(** Everything a persisted status write may do to the rows. *)
Lemma persist_status_rows r st e v now s m b r' m' :
  rm_store m = Some s -> persist_status r st e v now m = (b, r', m') ->
  exists s', rm_store m' = Some s' /\
  let upd := store_update_status (rec_run_id r) (status_value st) e v now (api_rows s) in
  ( (b = true /\ upd = (true, api_rows s')
     /\ r' = match v with Some v => rec_set_row_version (v + 1) r | None => r end)
  \/ (b = false /\ api_rows s' = api_rows s /\ r' = r)
  \/ (b = true /\ upd = (false, api_rows s) /\ (v = None \/ dict_get (rec_run_id r) (api_rows s) = None)
      /\ api_rows s' = store_put (rec_run_id r) (store_put_payload r e) now (api_rows s) /\ r' = r)).
Proof using.
  intros Hs. unfold persist_status. rewrite Hs. simpl.
  destruct (call_store _ _ _) as [[[|]|ex] m1] eqn:Hc;
    (eapply call_store_spec in Hc as (s1 & Hs1 & Hrows); [|apply api_update_status_law|done]).
  - intros [= <- <- <-]. exists s1. split; [done|]. left. auto.
  - assert (api_rows s1 = api_rows s) as E1.
    { unfold store_update_status in Hrows. repeat case_match; by simplify_eq. }
    rewrite Hs1. rewrite E1 in Hrows.
    assert (forall m2 s2, rm_store m2 = Some s2 -> api_rows s2 = api_rows s ->
      (v = None \/ dict_get (rec_run_id r) (api_rows s) = None) ->
      (let '(b0, m3) := persist_snapshot_to_store (rec_run_id r) (store_put_payload r e) now m2 in (b0, r, m3))
        = (b, r', m') -> exists s', rm_store m' = Some s' /\
      (b = false /\ api_rows s' = api_rows s /\ r' = r \/
       b = true /\ api_rows s' = store_put (rec_run_id r) (store_put_payload r e) now (api_rows s) /\ r' = r)) as Hsnap.
    { intros m2 s2 Hs2 E2 _. destruct (persist_snapshot_to_store _ _ _ _) as [b3 m3] eqn:Hp.
      apply (persist_snapshot_spec _ _ _ s2) in Hp as (s3 & Hs3 & E3); [|done].
      intros [= <- <- <-]. exists s3. split; [done|]. rewrite E2 in E3. destruct b3; auto. }
    destruct v as [v|].
    + destruct (call_store_once _ _ _) as [[[row|]|ex] m2] eqn:Hg;
        (eapply call_store_once_spec in Hg as (s2 & Hs2 & Hrows2); [|apply api_get_law|done]).
      * intros [= <- <- <-]. exists s2. split; [done|]. right; left. simplify_eq. repeat split; congruence.
      * simplify_eq. unfold store_get in *.
        assert (dict_get (rec_run_id r) (api_rows s) = None) as Hnone.
        { rewrite <-E1. by destruct (dict_get (rec_run_id r) (api_rows s1)). }
        intros Heq. destruct (Hsnap m2 s2) as (s' & Hs' & Hc); [done|congruence|by right|done|].
        exists s'. split; [done|]. naive_solver.
      * intros [= <- <- <-]. exists s2. split; [done|]. right; left. repeat split; congruence.
    + intros Heq. destruct (Hsnap m1 s1) as (s' & Hs' & Hc); [done|done|by left|done|].
      exists s'. split; [done|]. naive_solver.
  - intros [= <- <- <-]. exists s1. split; [done|]. right; left. auto.
Qed.

Lemma call_store_with_retry_ok {A} (op : S -> result exc A * S) p s :
  (forall s, is_ok (op s).1 = true) -> is_ok (call_store_with_retry op p s).1 = true.
Proof using.
  intros Hok. unfold call_store_with_retry, call_store_with_retry_trace. specialize (Hok s).
  destruct (_ - 1); simpl; by destruct (op s) as [[?|?] ?].
Qed.

(** Where status writes do not raise, an applicable one is applied. *)
Lemma persist_status_wins r st e v now s m b r' m' :
  (forall id st e v now s, is_ok (api_update_status id st e v now s).1 = true) ->
  rm_store m = Some s -> persist_status r st e v now m = (b, r', m') ->
  (store_update_status (rec_run_id r) (status_value st) e v now (api_rows s)).1 = true -> b = true.
Proof using.
  intros Hok Hs. unfold persist_status. rewrite Hs. intros Hp Hu.
  set (op := api_update_status _ _ _ _ _) in *.
  pose proof (call_store_with_retry_ok op (rm_policy m) s (Hok _ _ _ _ _)) as Hret.
  destruct (call_store op s m) as [res m1] eqn:Hc. pose proof Hc as Hc'. revert Hc'.
  unfold call_store. destruct (call_store_with_retry op (rm_policy m) s) as [res1 s1]. simpl in Hret.
  intros [= -> _]. eapply call_store_spec in Hc as (s' & Hs' & Hrows); [|apply api_update_status_law|done].
  destruct res as [[|]|ex]; [by simplify_eq| |done]. by rewrite <-Hrows in Hu.
Qed.

(** Rows of other runs are not touched. *)
Lemma persist_status_frame r st e v now s m b r' m' id :
  rm_store m = Some s -> persist_status r st e v now m = (b, r', m') -> id <> rec_run_id r ->
  exists s', rm_store m' = Some s' /\ dict_get id (api_rows s') = dict_get id (api_rows s).
Proof using.
  intros Hs Hp Hne. destruct (persist_status_rows _ _ _ _ _ _ _ _ _ _ Hs Hp) as (s' & Hs' & Hc).
  exists s'. split; [done|]. destruct Hc as [(_ & Hu & _)|[(_ & -> & _)|(_ & _ & _ & -> & _)]]; [|done|].
  - apply (f_equal snd) in Hu. cbn [snd] in Hu. rewrite <-Hu.
    unfold store_update_status. repeat case_match; simpl; by rewrite ?dict_get_set_ne.
  - unfold store_put. by rewrite dict_get_set_ne.
Qed.
(** Writing the record of one run leaves every other row alone. *)
Lemma persist_interrupted_frame now m id id' :
  mgr_wf m -> id <> id' -> stored id (persist_interrupted now m id') = stored id m.
Proof using.
  intros Hwf Hne. unfold persist_interrupted. destruct (dict_get id' (rm_runs m)) as [r|] eqn:Hr; [|done].
  destruct (persist_status _ _ _ _ _ _) as [[b r2] m2] eqn:Hp. unfold stored at 1. simpl.
  destruct (rm_store m) as [s|] eqn:Hs.
  - destruct (persist_status_frame _ _ _ _ _ _ _ _ _ _ id Hs Hp) as (s' & Hs' & Hrow).
    { by rewrite (wf_ids _ Hwf _ _ Hr). }
    unfold stored. by rewrite Hs, Hs'.
  - unfold persist_status in Hp. rewrite Hs in Hp. injection Hp as _ _ <-. unfold stored. by rewrite Hs.
Qed.

Lemma persist_interrupted_fold_frame now ids m id :
  mgr_wf m -> id ∉ ids -> stored id (foldl (persist_interrupted now) m ids) = stored id m.
Proof using.
  revert m. induction ids as [|k ids IH]; intros m Hwf Hn; simpl; [done|].
  apply not_elem_of_cons in Hn as [Hne Hn]. rewrite IH; [by apply persist_interrupted_frame| |done].
  by apply persist_interrupted_good.
Qed.

Lemma fold_put_store (f : run_record -> run_record) l m :
  rm_store (foldl (fun m r => put_record (f r) m) m l) = rm_store m.
Proof using. revert m. induction l as [|r l IH]; intros m; [done|]. simpl. by rewrite IH. Qed.

Lemma unindex_store id t m : rm_store (unindex_run_locked id t m) = rm_store m.
Proof using. unfold unindex_run_locked. by repeat case_match. Qed.

(** Registration against the store. *)
Lemma register_run_rows r now s m res m' :
  rm_store m = Some s -> register_run r now m = (res, m') ->
  exists s', rm_store m' = Some s' /\
    match res with
    | Ok _ => api_rows s' = store_put (rec_run_id r) (store_put_payload r None) now (api_rows s)
    | Err _ => api_rows s' = api_rows s
    end.
Proof using.
  intros Hs. unfold register_run, persist_new_run_to_store.
  change (rm_store (index_run_locked r (put_record r m))) with (rm_store m). rewrite Hs.
  destruct (call_store _ _ _) as [[u|e] m2] eqn:Hc;
    (eapply call_store_spec in Hc as (s' & Hs' & Hrows); [|apply api_put_law|done]);
    intros [= <- <-]; exists s'.
  - split; [done|]. simpl in Hrows. congruence.
  - split; [|done]. by rewrite unindex_store.
Qed.

(** The successful branch leaves the new row as it was inserted. *)
Lemma create_or_reject_rows id a now m s res m' :
  mgr_wf m -> dict_get id (rm_runs m) = None -> rm_store m = Some s ->
  create_or_reject id a now m = (res, m') ->
  match res with
  | Err _ => exists s', rm_store m' = Some s' /\ api_rows s' = api_rows s
  | Ok r => stored id m' = dict_get id (store_put id (store_put_payload r None) now (api_rows s))
  end.
Proof using.
  intros Hwf Hid Hs. unfold create_or_reject.
  case_match; [intros [= <- <-]; by exists s|]. case_match; [intros [= <- <-]; by exists s|].
  set (r0 := new_record _ _ _ _ _). destruct (register_run r0 now m) as [[r|e] m1] eqn:Hreg;
    destruct (register_run_rows _ _ _ _ _ _ Hs Hreg) as (s1 & Hs1 & Hrows).
  2: { intros [= <- <-]. by exists s1. }
  pose proof (register_good r0 _ _ _ _ Hid Hreg Hwf) as [Hwf1 _].
  apply register_run_spec in Hreg as [-> Hsr]; [|done..].
  assert (stored id m1 = dict_get id (store_put id (store_put_payload r0 None) now (api_rows s))) as Hm1.
  { unfold stored. rewrite Hs1. simpl. by rewrite Hrows. }
  case_match; intros [= <- <-]; [|done]. rewrite persist_interrupted_fold_frame.
  - unfold stored, interrupt_record. by rewrite fold_put_store.
  - by eapply (interrupt_all_good _ _ _ r0).
  - fold (thread_inflight (ca_thread_id a) m).
    intros (x & -> & Hx)%list_elem_of_fmap. apply in_thread_inflight in Hx as [Hx _]; [|done]. congruence.
Qed.
(** ** Reconciliation *)

Section reconcile.
Context (error : string) (lease : option (string -> string -> result lease_error (option ClaimRecord)))
        (now : Z) (m0 : run_manager S) (d0 : run_store).

(** The row the reconciler leaves behind. *)
Definition failed_row (row : run_row) : run_row :=
  bump_row_version (set_row_status "error" (Some error) now row).

(** The rows after some recoveries [rs], relative to the rows at the start. *)
Definition reconciled (rs : list run_record) (d : run_store) : Prop :=
  forall id,
    (id ∉ rec_run_id <$> rs /\ dict_get id d = dict_get id d0)
    \/ (id ∈ rec_run_id <$> rs /\ exists row, dict_get id d0 = Some row /\ orphan lease now m0 row
        /\ dict_get id d = Some (failed_row row)).

Lemma record_from_store_fields row r :
  record_from_store row = Some r ->
  rec_run_id r = row_run_id row /\ rec_org_id r = row_org_id row /\ rec_row_version r = row_version row.
Proof using. unfold record_from_store. destruct (status_of _); simpl; [|done]. by intros [= <-]. Qed.

Lemma record_from_inflight row :
  row_status row ∈ ["pending"; "running"] ->
  exists r, record_from_store row = Some r /\ is_terminal_run_status (status_value (rec_status r)) = false.
Proof using.
  intros Hst. unfold record_from_store.
  rewrite !elem_of_cons, elem_of_nil in Hst. destruct Hst as [->|[->|[]]]; simpl; eauto.
Qed.

Lemma lease_gate_orphan r row :
  rec_run_id r = row_run_id row -> rec_org_id r = row_org_id row ->
  (lease_gate lease now r <> None <->
   forall get_holder holder, lease = Some get_holder ->
     get_holder (opt_or (row_org_id row) "") (row_run_id row) = Ok (Some holder) ->
     is_expired holder now = true).
Proof using.
  intros Hid Horg. unfold lease_gate. destruct lease as [g|]; [|by split].
  rewrite Hid, Horg. destruct (g _ _) as [[h|]|e] eqn:Hg.
  - split.
    + intros Hn g' h' [= <-]. rewrite Hg. intros [= <-]. by destruct (is_expired h now).
    + intros Ha. by rewrite (Ha g h).
  - split; [|done]. intros _ g' h' [= <-]. congruence.
  - split; [|done]. intros _ g' h' [= <-]. congruence.
Qed.

Lemma reconciled_add rs d id row r2 :
  reconciled rs d -> dict_get id d = Some row -> dict_get id d0 = Some row -> rec_run_id r2 = id ->
  orphan lease now m0 row -> reconciled (rs ++ [r2]) (dict_set id (failed_row row) d).
Proof using.
  intros Hrel Hd Hd0 Hid Ho k. rewrite fmap_app, dict_get_set. csimpl. case_decide as E.
  - subst. right. split; [set_solver|]. eauto.
  - destruct (Hrel k) as [[Hn Hk]|[Hi Hk]]; [left|right]; split; set_solver.
Qed.

(** One row: the relation is kept and, where status writes do not raise, an
    untouched orphan is recovered. *)
Lemma reconcile_row_spec rs log m s row rs' log' m' :
  same_registry m0 m -> rm_store m = Some s -> reconciled rs (api_rows s) ->
  dict_get (row_run_id row) d0 = Some row -> row_status row ∈ ["pending"; "running"] ->
  reconcile_row error lease now (rs, log, m) row = (rs', log', m') ->
  exists s', rm_store m' = Some s' /\ reconciled rs' (api_rows s')
    /\ (rs' = rs \/ exists r2, rs' = rs ++ [r2] /\ rec_run_id r2 = row_run_id row)
    /\ ((forall id st e v now s, is_ok (api_update_status id st e v now s).1 = true) ->
        orphan lease now m0 row -> row_run_id row ∉ rec_run_id <$> rs ->
        row_run_id row ∈ rec_run_id <$> rs').
Proof using.
  intros [Hr0 _] Hs Hrel Hd0 Hst. unfold reconcile_row.
  destruct (record_from_inflight row Hst) as (r & Hrec & Hterm). rewrite Hrec, Hterm.
  destruct (record_from_store_fields _ _ Hrec) as (Hid & Horg & Hver).
  pose proof (lease_gate_orphan r row Hid Horg) as Hgate.
  destruct (lease_gate lease now r) as [label|].
  2: { intros [= <- <- <-]. exists s. split; [done|]. split; [done|]. split; [by left|].
       intros _ (_ & _ & Ho) _. by apply Hgate in Ho. }
  destruct (match dict_get (rec_run_id r) (rm_runs m) with Some live => rec_inflight live | None => false end) eqn:Hlive.
  { intros [= <- <- <-]. exists s. split; [done|]. split; [done|]. split; [by left|].
    intros _ (_ & Ho & _) _. rewrite Hr0, Hid in Hlive.
    destruct (dict_get (row_run_id row) (rm_runs m0)) as [live|] eqn:Hl; [|done].
    rewrite (Ho live) in Hlive; done. }
  assert (orphan lease now m0 row) as Horph.
  { split; [done|]. split; [|by apply Hgate]. intros live Hl. by rewrite Hr0, Hid, Hl in Hlive. }
  destruct (persist_status _ _ _ _ _ _) as [[b r2] m1] eqn:Hp.
  destruct (persist_status_rows _ _ _ _ _ _ _ _ _ _ Hs Hp) as (s' & Hs' & Hc). simpl in Hc.
  cbn [rec_run_id rec_set_status] in Hc. rewrite Hid, Hver in Hc.
  destruct (dict_get (row_run_id row) (api_rows s)) as [cur|] eqn:Hcur.
  2: { exfalso. destruct (Hrel (row_run_id row)) as [[_ E]|(_ & ? & _ & _ & E)]; congruence. }
  unfold store_update_status in Hc. rewrite Hcur in Hc. simpl in Hc.
  destruct (Z.eqb_spec (row_version cur) (row_version row)) as [Ev|Ev].
  - assert (cur = row) as ->.
    { destruct (Hrel (row_run_id row)) as [[_ E]|(_ & row' & E0 & _ & E)]; [congruence|].
      exfalso. simplify_eq. simpl in Ev. lia. }
    destruct Hc as [(-> & [= Hu] & ->)|[(-> & Hu & ->)|(_ & Hu & _)]]; [| |done];
      intros [= <- <- <-]; exists s'; (split; [done|]).
    + rewrite <-Hu. split; [by apply reconciled_add|].
      split; [right; eexists; split; [done|]; done|]. intros _ _ _. rewrite fmap_app. csimpl. set_solver.
    + rewrite Hu. split; [done|]. split; [by left|]. intros Hok _ _. exfalso.
      apply (persist_status_wins _ _ _ _ _ _ _ _ _ _ Hok Hs) in Hp; [done|].
      unfold store_update_status. cbn [rec_run_id rec_set_status]. rewrite Hid, Hcur. simpl.
      by rewrite Hver, Z.eqb_refl.
  - destruct Hc as [(_ & Hu & _)|[(-> & Hu & ->)|(_ & _ & [?|?] & _)]]; [done| |done|done].
    intros [= <- <- <-]. exists s'. split; [done|]. rewrite Hu. split; [done|]. split; [by left|].
    intros _ _ Hn. destruct (Hrel (row_run_id row)) as [[_ E]|[? _]]; [|done]. congruence.
Qed.
(** The whole loop over the snapshot. *)
Lemma reconcile_fold_spec rows rs log m s rs' log' m' :
  same_registry m0 m -> rm_store m = Some s -> reconciled rs (api_rows s) ->
  (forall row, row ∈ rows ->
     dict_get (row_run_id row) d0 = Some row /\ row_status row ∈ ["pending"; "running"]) ->
  NoDup (row_run_id <$> rows) -> (forall row, row ∈ rows -> row_run_id row ∉ rec_run_id <$> rs) ->
  foldl (reconcile_row error lease now) (rs, log, m) rows = (rs', log', m') ->
  exists s', rm_store m' = Some s' /\ reconciled rs' (api_rows s')
    /\ rec_run_id <$> rs ⊆ rec_run_id <$> rs'
    /\ ((forall id st e v now s, is_ok (api_update_status id st e v now s).1 = true) ->
        forall row, row ∈ rows -> orphan lease now m0 row -> row_run_id row ∈ rec_run_id <$> rs').
Proof using.
  revert rs log m s. induction rows as [|row rows IH]; intros rs log m s Hreg Hs Hrel Hsnap Hnd Hfresh Hf.
  { injection Hf as <- <- <-. exists s. split; [done|]. split; [done|]. split; [done|].
    by intros _ row ?%elem_of_nil. }
  cbn [foldl] in Hf. csimpl in Hnd. apply NoDup_cons in Hnd as [Hni Hnd].
  destruct (reconcile_row error lease now (rs, log, m) row) as [[rs1 log1] m1] eqn:Hrow.
  pose proof (reconcile_row_registry _ _ _ _ _ _ _ _ _ _ Hrow) as Hreg1.
  destruct (Hsnap row) as [Hd Hst]; [by left|].
  destruct (reconcile_row_spec _ _ _ _ _ _ _ _ Hreg Hs Hrel Hd Hst Hrow) as (s1 & Hs1 & Hrel1 & Hrs1 & Hall1).
  destruct (IH rs1 log1 m1 s1) as (s' & Hs' & Hrel' & Hsub & Hall); [|done|done| |done| |done|].
  - by eapply same_registry_trans.
  - intros x Hx. apply Hsnap. by right.
  - intros x Hx Hin. assert (row_run_id x ∉ rec_run_id <$> rs) as Hx0 by (apply Hfresh; by right).
    destruct Hrs1 as [->|(r2 & -> & Hid)]; [done|].
    rewrite fmap_app, elem_of_app in Hin. destruct Hin as [?|Hin]; [done|].
    csimpl in Hin. apply list_elem_of_singleton in Hin. apply Hni. rewrite <-Hid, <-Hin.
    by apply list_elem_of_fmap_2.
  - exists s'. split; [done|]. split; [done|]. split.
    + destruct Hrs1 as [->|(r2 & -> & _)]; [done|]. rewrite fmap_app in Hsub. set_solver.
    + intros Hok x [->|Hx]%elem_of_cons Ho; [|by apply Hall].
      apply Hsub, Hall1; [done|done|]. apply Hfresh. by left.
Qed.
End reconcile.

Lemma inflight_snapshot b now d row :
  store_wf d -> row ∈ store_list_inflight b now d ->
  dict_get (row_run_id row) d = Some row /\ row_status row ∈ ["pending"; "running"]
  /\ (row_created_at row <= opt_or b now)%Z.
Proof using.
  intros [Hwf Hids]. unfold store_list_inflight. rewrite sort_by_elem, list_elem_of_In, filter_In.
  intros [Hin [Hst%str_in_spec Ht%Z.leb_le]%andb_true_iff]. rewrite <-list_elem_of_In in Hin.
  apply dict_values_elem in Hin as [k Hin]. apply dict_get_elem in Hin; [|done].
  by rewrite (Hids _ _ Hin).
Qed.

Lemma inflight_nodup b now d : store_wf d -> NoDup (row_run_id <$> store_list_inflight b now d).
Proof using.
  intros Hwf. apply NoDup_fmap_2_strong.
  - intros x y Hx%inflight_snapshot Hy%inflight_snapshot E; [|done..].
    destruct Hx as [Hx _], Hy as [Hy _]. rewrite E in Hx. congruence.
  - unfold store_list_inflight. rewrite sort_by_perm. apply NoDup_list_filter. by apply store_values_nodup.
Qed.
End rows.

(** * Properties *)

(** The thread index is exact.  After any history of manager calls,
    whatever the store answers or raises, the index lists for every thread
    exactly the registered runs of that thread in registration order, and
    keeps no empty bucket. *)
Theorem thread_index_exact {S} `{RunStoreApi S} (m m' : run_manager S) (t : string) :
  mgr_wf m -> star mgr_step m m' ->
  thread_records_locked t m' = (scan_thread t m').*2
  /\ (is_Some (dict_get t (rm_by_thread m')) <-> scan_thread t m' <> []).
Proof.
  intros Hwf Hst. assert (mgr_wf m') as Hwf' by (eapply star_invariant; [apply mgr_step_wf|done|done]).
  split; [by apply thread_records_scan|]. pose proof (wf_index _ Hwf' t) as Hi. unfold bucket_keys in Hi.
  pose proof (wf_buckets _ Hwf' t) as Hb.
  destruct (dict_get t (rm_by_thread m')) as [b|].
  - split; [|by eauto]. intros _ Hn. rewrite Hn in Hi. by destruct b.
  - split; [by intros [? ?]|]. intros Hn. by destruct (scan_thread t m').
Qed.

(** (C11) One-way lifecycle.  Over any history of manager calls without a
    clean-up, every registered run stays registered, its status only moves
    along edges of the run state machine, and its identity, tenant, creation
    time and release pin never change. *)
Theorem registered_run_monotone {S} `{RunStoreApi S} (m m' : run_manager S) (id : string) (r : run_record) :
  mgr_wf m -> star mgr_live_step m m' -> dict_get id (rm_runs m) = Some r ->
  exists r', dict_get id (rm_runs m') = Some r'
    /\ run_edge (rec_status r) (rec_status r')
    /\ rec_run_id r' = rec_run_id r /\ rec_thread_id r' = rec_thread_id r
    /\ rec_org_id r' = rec_org_id r /\ rec_user_id r' = rec_user_id r
    /\ rec_created_at r' = rec_created_at r /\ rec_release r' = rec_release r.
Proof.
  intros Hwf Hst Hr.
  assert (mgr_wf m' /\ evolves m m') as [_ He]; [|by apply He].
  eapply (star_relation_inv mgr_live_step mgr_wf evolves evolves_refl evolves_trans); [|done|done].
  intros s s' Hs Hwf'. split; [by eapply mgr_step_wf; [apply Hs|]|by apply mgr_live_step_evolves].
Qed.

(** (C1) One active run per thread.  When [create_or_reject] admits a run,
    the new run is the only in-flight run of its thread: under the rejecting
    strategy there was none, under the interrupting ones every other was moved
    to interrupted with its abort flag set.  Runs of other threads and
    finished runs are untouched, whatever the store does. *)
Theorem create_single_active {S} `{RunStoreApi S} (id : string) (a : create_args) (now : Z)
    (m m' : run_manager S) (r : run_record) :
  mgr_wf m -> dict_get id (rm_runs m) = None -> create_or_reject id a now m = (Ok r, m') ->
  thread_inflight (ca_thread_id a) m' = [r]
  /\ rec_run_id r = id /\ rec_status r = RS_pending /\ rec_release r = ca_release a
  /\ (forall id' r', dict_get id' (rm_runs m) = Some r' ->
        rec_thread_id r' <> ca_thread_id a \/ rec_inflight r' = false ->
        dict_get id' (rm_runs m') = Some r')
  /\ (forall r', r' ∈ thread_inflight (ca_thread_id a) m ->
        ca_multitask_strategy a <> "reject"
        /\ exists r'', dict_get (rec_run_id r') (rm_runs m') = Some r''
             /\ rec_status r'' = RS_interrupted /\ rec_abort_event r'' = true
             /\ rec_abort_action r'' = ca_multitask_strategy a).
Proof.
  intros Hwf Hid Hc. destruct (create_or_reject_ok _ _ _ _ _ _ Hwf Hid Hc) as (Hr & Hnew & Hold & Hnone).
  assert (mgr_wf m') as Hwf' by (by eapply create_or_reject_good).
  split; [|split; [by rewrite Hr|split; [by rewrite Hr|split; [by rewrite Hr|split]]]].
  - apply (thread_inflight_unique _ _ id); [done|done|by rewrite Hr|by rewrite Hr|].
    intros k x Hk Ht Hi. exact (created_alone _ _ _ _ _ _ _ _ Hwf Hid Hc Hk Ht Hi).
  - intros k x Hx Hor. rewrite (Hold k x); [|congruence|done].
    destruct (String.eqb_spec (rec_thread_id x) (ca_thread_id a)); simpl; [|done].
    destruct Hor as [?|Hf]; [done|by rewrite Hf].
  - intros x Hx. split.
    + intros Hrej. unfold create_or_reject in Hc. rewrite Hrej in Hc. simpl in Hc.
      fold (thread_inflight (ca_thread_id a) m) in Hc.
      rewrite bool_decide_eq_false_2 in Hc; [done|]. intros E. rewrite E in Hx. by apply elem_of_nil in Hx.
    + apply in_thread_inflight in Hx as (Hg & Ht & Hi); [|done].
      eexists. split; [apply Hold; [congruence|done]|]. by rewrite Ht, String.eqb_refl, Hi.
Qed.

(** Refusals change nothing.  An unsupported strategy and a conflict
    under the rejecting strategy leave the whole manager as it was, and a
    conflict is reported exactly when the strategy rejects and the thread has
    an in-flight run. *)
Theorem create_refusal_exact {S} `{RunStoreApi S} (id : string) (a : create_args) (now : Z)
    (m : run_manager S) :
  (ca_multitask_strategy a ∉ SUPPORTED_STRATEGIES ->
     create_or_reject id a now m = (Err (ME_unsupported_strategy (ca_multitask_strategy a)), m))
  /\ (ca_multitask_strategy a = "reject" -> has_inflight (ca_thread_id a) m = true ->
        create_or_reject id a now m = (Err (ME_conflict (ca_thread_id a)), m))
  /\ (forall t m', create_or_reject id a now m = (Err (ME_conflict t), m') ->
        ca_multitask_strategy a = "reject" /\ has_inflight (ca_thread_id a) m = true).
Proof.
  assert (has_inflight (ca_thread_id a) m
          = negb (bool_decide (List.filter rec_inflight (thread_records_locked (ca_thread_id a) m) = []))) as Hhas.
  { unfold has_inflight. induction (thread_records_locked (ca_thread_id a) m) as [|x l IH]; [done|].
    simpl. destruct (rec_inflight x); [by rewrite bool_decide_eq_false_2|done]. }
  unfold create_or_reject. split; [|split].
  - intros Hn. destruct (str_in _ _) eqn:E; [|done]. by apply str_in_spec in E.
  - intros Hs Hi. rewrite Hs. simpl. rewrite <-Hhas, Hi. done.
  - intros t m'. case_match; [done|]. case_match eqn:E.
    + intros _. apply andb_true_iff in E as [?%String.eqb_eq ?]. by rewrite Hhas.
    + unfold register_run. repeat case_match; intros; simplify_eq.
Qed.

(** (C2) Creation is atomic with the store.  Against any lawful store, one
    that raises at arbitrary points included: when creation fails, neither the
    registry nor a single stored row has changed; when it succeeds, the run is
    registered and its row exists as a pending row of the same thread and
    tenant, at the version the manager believes it has. *)
Theorem creation_atomic {S} `{RunStoreLaws S} (id : string) (a : create_args) (now : Z)
    (m m' : run_manager S) (s : S) (res : result mgr_error run_record) :
  mgr_wf m -> dict_get id (rm_runs m) = None ->
  rm_store m = Some s -> dict_get id (api_rows s) = None ->
  create_or_reject id a now m = (res, m') ->
  match res with
  | Err _ => same_registry m m' /\ exists s', rm_store m' = Some s' /\ api_rows s' = api_rows s
  | Ok r =>
      dict_get id (rm_runs m') = Some r /\
      exists row, stored id m' = Some row
        /\ row_run_id row = id /\ row_thread_id row = ca_thread_id a /\ row_org_id row = ca_org_id a
        /\ row_status row = "pending" /\ row_release row = ca_release a
        /\ row_version row = rec_row_version r
  end.
Proof.
  intros Hwf Hid Hs Hrow Hc. pose proof (create_or_reject_rows _ _ _ _ _ _ _ Hwf Hid Hs Hc) as Hrows.
  destruct res as [r|e].
  - destruct (create_or_reject_ok _ _ _ _ _ _ Hwf Hid Hc) as (-> & Hnew & _ & _). split; [done|].
    rewrite Hrows. unfold store_put. rewrite Hrow, dict_get_set_eq. eexists. split; [done|].
    by repeat split.
  - split; [|done]. unfold create_or_reject in Hc.
    case_match; [by simplify_eq|]. case_match; [by simplify_eq|].
    destruct (register_run _ _ _) as [[r|e1] m1] eqn:Hreg; [by case_match; simplify_eq|].
    injection Hc as <- <-. by apply register_run_spec in Hreg.
Qed.

(** Status writes are guarded twice.  For a registered run with a stored
    row, [set_status] raises exactly on an illegal transition and then changes
    nothing; otherwise the record takes the status, and the row either moves
    with it (its version was the record's; both versions are now one higher)
    or is left exactly as it was: a stale manager never overwrites a newer
    row. *)
Theorem set_status_guarded {S} `{RunStoreLaws S} (id : string) (st : RunStatus) (e : option string)
    (now : Z) (m m' : run_manager S) (s : S) (r : run_record) (row : run_row)
    (res : result mgr_error unit) :
  mgr_wf m -> dict_get id (rm_runs m) = Some r ->
  rm_store m = Some s -> dict_get id (api_rows s) = Some row ->
  set_status id st e now m = (res, m') ->
  match res with
  | Err _ => ~ run_edge (rec_status r) st /\ m' = m
  | Ok _ =>
      run_edge (rec_status r) st /\
      exists r' row', dict_get id (rm_runs m') = Some r' /\ rec_status r' = st
        /\ stored id m' = Some row'
        /\ ((row_version row = rec_row_version r /\ row_status row' = status_value st
             /\ row_version row' = (row_version row + 1)%Z /\ rec_row_version r' = row_version row')
            \/ (row' = row /\ rec_row_version r' = rec_row_version r))
  end.
Proof.
  intros Hwf Hr Hs Hrow. unfold set_status. rewrite Hr. unfold run_edge.
  destruct (assert_run_transition _ _) as [u|er]; [|intros [= <- <-]; by split].
  destruct (persist_status _ _ _ _ _ _) as [[b r2] m2] eqn:Hp. intros [= <- <-]. split; [done|].
  pose proof (wf_ids _ Hwf _ _ Hr) as Hid.
  destruct (persist_status_rows _ _ _ _ _ s (put_record (rec_set_status st e now r) m) _ _ _ Hs Hp) as (s' & Hs' & Hc).
  apply persist_status_registry in Hp as [[Hr2 _] _].
  unfold store_update_status in Hc. cbn [rec_run_id rec_set_status] in Hc. rewrite Hid, Hrow in Hc. simpl in Hc.
  unfold stored. simpl. rewrite Hs', Hr2. simpl.
  destruct Hc as [(_ & Hu & ->)|[(_ & Hu & ->)|(_ & _ & [?|?] & _)]]; [| |done|done].
  - destruct (Z.eqb_spec (row_version row) (rec_row_version r)) as [Ev|]; [|done]. injection Hu as Hu.
    simpl. rewrite Hid, dict_get_set_eq, <-Hu, dict_get_set_eq. do 2 eexists. split; [done|].
    split; [done|]. split; [done|]. left. simpl. rewrite Ev. done.
  - simpl. rewrite Hid, dict_get_set_eq, Hu, Hrow. do 2 eexists. split; [done|].
    split; [done|]. split; [done|]. by right.
Qed.

(** Cancelling a registered run.  An in-flight run becomes interrupted
    with its abort flag set and the call answers true, whatever the store
    does; an interrupted run answers true and any other finished run false,
    both without effect; cancelling again answers the same and changes
    nothing, so only the first cancel of a run has an effect. *)
Theorem cancel_once {S} `{RunStoreApi S} (id act act' : string) (now now' : Z)
    (m m1 : run_manager S) (r : run_record) (res : result mgr_error bool) :
  mgr_wf m -> dict_get id (rm_runs m) = Some r -> cancel id act now m = (res, m1) ->
  res = Ok (rec_inflight r || bool_decide (rec_status r = RS_interrupted))
  /\ (rec_inflight r = false -> m1 = m)
  /\ (rec_inflight r = true -> exists r', dict_get id (rm_runs m1) = Some r'
        /\ rec_status r' = RS_interrupted /\ rec_abort_event r' = true /\ rec_abort_action r' = act)
  /\ cancel id act' now' m1 = (res, m1).
Proof.
  intros Hwf Hr. unfold cancel at 1. rewrite Hr. case_bool_decide as Hst.
  { intros [= <- <-]. assert (rec_inflight r = false) as Hi by (unfold rec_inflight; by rewrite Hst).
    rewrite Hi. split; [done|]. split; [done|]. split; [done|].
    unfold cancel. by rewrite Hr, bool_decide_eq_true_2. }
  destruct (rec_inflight r) eqn:Hi; simpl.
  2: { intros [= <- <-]. split; [done|]. split; [done|]. split; [done|].
       unfold cancel. by rewrite Hr, bool_decide_eq_false_2, Hi. }
  assert (run_edge (rec_status r) RS_interrupted) as He by auto with py. unfold run_edge in He. simpl in He.
  destruct (assert_run_transition _ _) as [u|er]; [|done]. clear He.
  destruct (persist_status _ _ _ _ _ _) as [[b r2] m2] eqn:Hp. intros [= <- <-].
  apply persist_status_registry in Hp as [[Hr2 _] Hrec].
  set (m4 := match rm_store m2 with None => _ | Some s => _ end).
  assert (same_registry (put_record r2 m2) (publish_cancel_notify id act m4)) as [Hreg _].
  { eapply same_registry_trans; [|apply publish_registry]. subst m4.
    destruct (rm_store m2); [apply call_store_once_registry|apply same_registry_refl]. }
  assert (dict_get id (rm_runs (publish_cancel_notify id act m4)) = Some r2
          /\ rec_status r2 = RS_interrupted /\ rec_abort_event r2 = true /\ rec_abort_action r2 = act) as (Hget & Hfin).
  { rewrite Hreg. simpl. rewrite Hr2. pose proof (wf_ids _ Hwf _ _ Hr) as Hid.
    destruct Hrec as [->|[v' ->]]; simpl; by rewrite Hid, dict_get_set_eq. }
  split; [done|]. split; [done|]. split; [by eauto|].
  unfold cancel. by rewrite Hget, bool_decide_eq_true_2 by apply Hfin.
Qed.

(** (C10) Reconciliation touches only orphans, and all of them.  A pass keeps
    the registry; a stored row is either untouched or was an in-flight row
    created by the cut-off whose run is neither live in this process nor held
    under an unexpired lease, and is then marked as failed one version up; the
    rows so marked are exactly the reported ones.  When status writes do not
    raise, every such orphan is marked. *)
Theorem reconcile_only_orphans {S} `{RunStoreLaws S} (error : string) (before : option Z)
    (lease : option (string -> string -> result lease_error (option ClaimRecord)))
    (now : Z) (m m' : run_manager S) (s : S) (rs : list run_record)
    (log : list (string * reconcile_outcome)) :
  rm_store m = Some s -> store_wf (api_rows s) ->
  reconcile_orphaned_inflight_runs error before lease now m = (rs, log, m') ->
  same_registry m m' /\ exists s', rm_store m' = Some s'
  /\ (forall id, (id ∉ rec_run_id <$> rs /\ dict_get id (api_rows s') = dict_get id (api_rows s))
       \/ (id ∈ rec_run_id <$> rs /\ exists row, dict_get id (api_rows s) = Some row
           /\ orphan lease now m row /\ dict_get id (api_rows s') = Some (failed_row error now row)))
  /\ ((forall id st e v now s, is_ok (api_update_status id st e v now s).1 = true) ->
      (forall b now s, is_ok (api_list_inflight b now s).1 = true) ->
      forall id row, dict_get id (api_rows s) = Some row -> orphan lease now m row ->
        (row_created_at row <= opt_or before now)%Z -> id ∈ rec_run_id <$> rs).
Proof.
  intros Hs Hwf Hrec. split; [by eapply reconcile_registry|].
  unfold reconcile_orphaned_inflight_runs in Hrec. rewrite Hs in Hrec.
  destruct (call_store _ _ _) as [[rows|e] m1] eqn:Hc; pose proof Hc as Hc';
    (eapply call_store_spec in Hc as (s1 & Hs1 & Hrows); [|apply api_list_inflight_law|done]).
  - simpl in Hrows. injection Hrows as Hrows Hs1r.
    pose proof (call_store_registry (api_list_inflight before now) s m) as Hreg. rewrite Hc' in Hreg.
    destruct (reconcile_fold_spec error lease now m (api_rows s) rows [] [] m1 s1 rs log m')
      as (s' & Hs' & Hrel & _ & Hall); [done|done| | | | |done|].
    + intros id. left. split; [by apply not_elem_of_nil|by rewrite Hs1r].
    + intros row Hin. rewrite Hrows in Hin. by apply inflight_snapshot in Hin as (?&?&?).
    + rewrite Hrows. by apply inflight_nodup.
    + intros row _. by apply not_elem_of_nil.
    + exists s'. split; [done|]. split; [done|]. intros Hok _ id row Hrow Ho Ht.
      pose proof (proj2 Hwf _ _ Hrow) as <-. apply Hall; [done| |done]. rewrite Hrows.
      unfold store_list_inflight. rewrite sort_by_elem, list_elem_of_In, filter_In, <-list_elem_of_In.
      split; [apply list_elem_of_fmap; exists (row_run_id row, row); by eauto using dict_get_Some_elem|].
      apply andb_true_iff. split; [apply str_in_spec, Ho|by apply Z.leb_le].
  - injection Hrec as <- <- <-. exists s1. split; [done|]. split.
    + intros id. left. split; [by apply not_elem_of_nil|by rewrite Hrows].
    + intros _ Hok. exfalso. revert Hc'. unfold call_store.
      pose proof (call_store_with_retry_ok (api_list_inflight before now) (rm_policy m) s (Hok _ _)) as Hret.
      destruct (call_store_with_retry _ _ _). simpl in Hret. by intros [= -> _].
Qed.

(** ** Concrete histories *)

Definition demo_args (thread strategy : string) : create_args :=
  mk_create_args thread None DM_cancel None None strategy None None (Some "org-a") unpinned.

Definition demo_mgr0 : run_manager run_store := mgr_init (Some []) default_policy true.

Definition demo_mgr1 : run_manager run_store :=
  (create_or_reject "r1" (demo_args "t1" "reject") 10 demo_mgr0).2.

Definition demo_mgr2 : run_manager run_store :=
  (create_or_reject "r2" (demo_args "t1" "interrupt") 20 demo_mgr1).2.

Definition demo_rec1 : run_record := new_record "r1" (demo_args "t1" "reject") None unpinned 10.

Lemma demo_mgr1_wf : mgr_wf demo_mgr1.
Proof.
  eapply create_or_reject_good; [|apply surjective_pairing|apply mgr_init_wf]. reflexivity.
Qed.

Lemma demo_mgr1_live : star mgr_live_step demo_mgr1 demo_mgr2.
Proof.
  apply star_step with demo_mgr2; [|apply star_refl]. split.
  - eapply ms_create_or_reject; [|apply surjective_pairing]. reflexivity.
  - intros id. change (rm_runs demo_mgr1) with [("r1", demo_rec1)]. simpl.
    case_decide as E; [subst; by vm_compute; eexists|by intros [? ?]].
Qed.

Lemma thread_index_exact_witness :
  thread_records_locked "t1" demo_mgr2 = (scan_thread "t1" demo_mgr2).*2
  /\ length (thread_records_locked "t1" demo_mgr2) = 2.
Proof.
  split; [|vm_compute; reflexivity].
  apply (thread_index_exact demo_mgr1 demo_mgr2 "t1" demo_mgr1_wf).
  apply star_step with demo_mgr2; [|apply star_refl].
  eapply ms_create_or_reject; [|apply surjective_pairing]. reflexivity.
Defined.

Lemma registered_run_monotone_witness :
  exists r', dict_get "r1" (rm_runs demo_mgr2) = Some r' /\ rec_org_id r' = Some "org-a".
Proof.
  destruct (registered_run_monotone demo_mgr1 demo_mgr2 "r1" demo_rec1 demo_mgr1_wf demo_mgr1_live)
    as (r' & Hr' & _ & _ & _ & Ho & _); [reflexivity|].
  exists r'. split; [exact Hr'|exact Ho].
Defined.

Lemma create_single_active_witness :
  exists r, thread_inflight "t1" demo_mgr2 = [r] /\ rec_run_id r = "r2".
Proof.
  destruct (create_single_active "r2" (demo_args "t1" "interrupt") 20 demo_mgr1 demo_mgr2
              (new_record "r2" (demo_args "t1" "interrupt") None unpinned 20) demo_mgr1_wf) as (H1 & H2 & _);
    [reflexivity|vm_compute; reflexivity|].
  eexists. split; [exact H1|exact H2].
Defined.

Lemma create_refusal_exact_witness :
  create_or_reject "r2" (demo_args "t1" "reject") 20 demo_mgr1 = (Err (ME_conflict "t1"), demo_mgr1).
Proof. apply (create_refusal_exact "r2" (demo_args "t1" "reject") 20 demo_mgr1); reflexivity. Defined.

(** A store whose first call fails with a non-retryable error. *)
Definition demo_failing : run_manager scripted_store :=
  mgr_init (Some ([Some (mk_exc ∅ 0)], [])) default_policy false.

Lemma creation_atomic_witness :
  exists m', (create_or_reject "r1" (demo_args "t1" "reject") 10 demo_failing).2 = m'
  /\ same_registry demo_failing m' /\ exists s', rm_store m' = Some s' /\ s'.2 = [].
Proof.
  eexists. split; [reflexivity|].
  refine (creation_atomic "r1" (demo_args "t1" "reject") 10 demo_failing _ ([Some (mk_exc ∅ 0)], [])
            (Err (ME_store (mk_exc ∅ 0))) (mgr_init_wf _ _ _) _ _ _ _); vm_compute; reflexivity.
Defined.

Lemma set_status_guarded_witness :
  exists m', (set_status "r1" RS_running None 30 demo_mgr1).2 = m'
  /\ exists r' row', dict_get "r1" (rm_runs m') = Some r' /\ rec_status r' = RS_running /\ stored "r1" m' = Some row'.
Proof.
  eexists. split; [reflexivity|].
  edestruct (set_status_guarded "r1" RS_running None 30 demo_mgr1
    (set_status "r1" RS_running None 30 demo_mgr1).2) with (res := @Ok mgr_error unit tt)
    as (_ & r' & row' & H1 & H2 & H3 & _);
    [exact demo_mgr1_wf|vm_compute; reflexivity|vm_compute; reflexivity|vm_compute; reflexivity|vm_compute; reflexivity|].
  exists r', row'. split; [exact H1|split; [exact H2|exact H3]].
Defined.

Lemma cancel_once_witness :
  (cancel "r1" "interrupt" 30 demo_mgr1).1 = Ok true
  /\ cancel "r1" "rollback" 40 (cancel "r1" "interrupt" 30 demo_mgr1).2
     = (Ok true, (cancel "r1" "interrupt" 30 demo_mgr1).2).
Proof.
  destruct (cancel_once "r1" "interrupt" "rollback" 30 40 demo_mgr1
    (cancel "r1" "interrupt" 30 demo_mgr1).2 demo_rec1 (Ok true) demo_mgr1_wf) as (_ & _ & _ & H4);
    [reflexivity|vm_compute; reflexivity|]. split; [vm_compute; reflexivity|exact H4].
Defined.

(** A store with a pending run, seen by a process that has nothing registered. *)
Definition demo_rows : run_store := store_put "r2" (store_put_payload demo_rec1 None) 20 [].

Definition demo_restarted : run_manager run_store := mgr_init (Some demo_rows) default_policy true.

Lemma reconcile_only_orphans_witness :
  let p := reconcile_orphaned_inflight_runs "orphaned" None None 100 demo_restarted in
  same_registry demo_restarted p.2 /\ "r2" ∈ rec_run_id <$> p.1.1.
Proof.
  cbv zeta.
  destruct (reconcile_only_orphans "orphaned" None None 100 demo_restarted
    (reconcile_orphaned_inflight_runs "orphaned" None None 100 demo_restarted).2 demo_rows
    (reconcile_orphaned_inflight_runs "orphaned" None None 100 demo_restarted).1.1
    (reconcile_orphaned_inflight_runs "orphaned" None None 100 demo_restarted).1.2)
    as (H1 & s' & _ & _ & H4).
  - reflexivity.
  - apply store_put_wf, store_wf_nil.
  - vm_compute. reflexivity.
  - split; [exact H1|]. eapply H4.
    + intros. simpl. unfold ok_call. by destruct (store_update_status _ _ _ _ _ _).
    + intros. reflexivity.
    + vm_compute. reflexivity.
    + split; [left|split; [intros live Hl; by vm_compute in Hl|intros g h Hg; discriminate Hg]].
    + vm_compute. discriminate.
Defined.

(** ** Deviations from the documentation *)

(** A run that finished while [shutdown] was draining: its task was cancelled
    but it had already recorded success. *)
Definition demo_done : run_manager run_store :=
  let m1 := (set_status "r1" RS_running None 20 demo_mgr1).2 in
  let m2 := (set_status "r1" RS_success None 30 m1).2 in m2.

(** Settling overwrites the stored status of the finished run, while the
    registered record keeps it. *)
Example shutdown_overwrites_finished_row :
  (row_status <$> stored "r1" demo_done) = Some "success"
  /\ (row_status <$> stored "r1" (shutdown_settle ["r1"] ["r1"] true 40 demo_done)) = Some "interrupted"
  /\ (rec_status <$> dict_get "r1" (rm_runs (shutdown_settle ["r1"] ["r1"] true 40 demo_done))) = Some RS_success.
Proof. by vm_compute. Qed.

(** Cancelling a local run leaves no cancel intent in its row: the status is
    written first, and a finished row refuses the intent. *)
Example local_cancel_records_no_intent :
  (row_cancel_requested <$> stored "r1" (cancel "r1" "interrupt" 30 demo_mgr1).2) = Some false
  /\ (row_status <$> stored "r1" (cancel "r1" "interrupt" 30 demo_mgr1).2) = Some "interrupted".
Proof. by vm_compute. Qed.

(** Three stored runs of a thread, the newest also registered: a listing of
    two returns one, because the store is asked for one row fewer and answers
    with the registered run. *)
Definition demo_history : run_manager run_store :=
  let m2 := (create_or_reject "r2" (demo_args "t1" "interrupt") 20 demo_mgr1).2 in
  let m3 := (create_or_reject "r3" (demo_args "t1" "interrupt") 30 m2).2 in
  cleanup "r2" (cleanup "r1" m3).

Example list_by_thread_under_returns :
  rec_run_id <$> (list_by_thread "t1" None 2 demo_history).1 = ["r3"]
  /\ rec_run_id <$> (list_by_thread "t1" None 10 demo_history).1 = ["r3"; "r2"; "r1"].
Proof. by vm_compute. Qed.
