(* ===== verification/Release.v ===== *)
(** * The release control plane

    [persistence/release/repository.py] over the tables of
    [persistence/release/model.py]: packages, immutable versions, channel
    pointers moved by compare-and-swap, and the append-only event history.  A
    function that takes an open session is a function from the tables to an
    error or an answer with new tables; an error aborts the transaction, so
    the tables of the caller are unchanged.  The unique, check and
    foreign-key constraints of the schema raise where the source flushes.
    Fresh ids and the clock are arguments; SHA-256 is a parameter; artifact
    content is its UTF-8 byte string. *)
From S2P Require Import Prelude.
Local Open Scope Z_scope.
Local Open Scope py_scope.

(** ** Tables *)

(** [AgentPackageRow]. *)
Record package_row : Type := mk_package {
  pk_id : string;
  pk_org_id : string;
  pk_workspace_id : option string;
  pk_name : string;
  pk_display_name : string;
  pk_description : option string;
  pk_status : string;
  pk_created_by : option string;
  pk_created_at : Z;
  pk_updated_at : Z;
  pk_row_version : Z
}.

(** [AgentVersionRow]. *)
Record version_row : Type := mk_version {
  ver_id : string;
  ver_org_id : string;
  ver_package_id : string;
  ver_version : string;
  ver_digest : string;
  ver_status : string;
  ver_manifest : list (string * json);
  ver_content_inline : option string;
  ver_object_key : option string;
  ver_size_bytes : Z;
  ver_created_by : option string;
  ver_created_at : Z;
  ver_published_at : option Z;
  ver_revoked_at : option Z
}.

(** [ReleaseChannelRow]. *)
Record channel_row : Type := mk_channel {
  ch_id : string;
  ch_org_id : string;
  ch_workspace_id : option string;
  ch_package_id : string;
  ch_channel : string;
  ch_current_version_id : option string;
  ch_row_version : Z;
  ch_updated_by : option string;
  ch_created_at : Z;
  ch_updated_at : Z
}.

(** [ReleaseEventRow]. *)
Record event_row : Type := mk_event {
  ev_id : string;
  ev_org_id : string;
  ev_channel_id : string;
  ev_from_version_id : option string;
  ev_to_version_id : string;
  ev_action : string;
  ev_actor_type : option string;
  ev_actor_id : option string;
  ev_reason : option string;
  ev_created_at : Z
}.

Record release_db : Type := mk_db {
  db_packages : list (string * package_row);
  db_versions : list (string * version_row);
  db_channels : list (string * channel_row);
  db_events : list event_row
}.

Definition db_empty : release_db := mk_db [] [] [] [].

Definition set_packages (p : list (string * package_row)) (db : release_db) : release_db :=
  mk_db p (db_versions db) (db_channels db) (db_events db).
Definition set_versions (v : list (string * version_row)) (db : release_db) : release_db :=
  mk_db (db_packages db) v (db_channels db) (db_events db).
Definition set_channels (c : list (string * channel_row)) (db : release_db) : release_db :=
  mk_db (db_packages db) (db_versions db) c (db_events db).
Definition set_events (e : list event_row) (db : release_db) : release_db :=
  mk_db (db_packages db) (db_versions db) (db_channels db) e.

Inductive release_error : Type :=
| RE_value
| RE_immutable
| RE_illegal_transition (current target : string)
| RE_conflict
| RE_gate
| RE_integrity
| RE_object_store.

(** ** Constants *)

Definition PACKAGE_ACTIVE : string := "active".
Definition PACKAGE_ARCHIVED : string := "archived".
Definition ALLOWED_PACKAGE_STATUSES : list string := [PACKAGE_ACTIVE; PACKAGE_ARCHIVED].

Definition VERSION_DRAFT : string := "draft".
Definition VERSION_REVIEWED : string := "reviewed".
Definition VERSION_PUBLISHED : string := "published".
Definition VERSION_REVOKED : string := "revoked".
Definition VERSION_ARCHIVED : string := "archived".
Definition ALLOWED_VERSION_STATUSES : list string :=
  [VERSION_DRAFT; VERSION_REVIEWED; VERSION_PUBLISHED; VERSION_REVOKED; VERSION_ARCHIVED].

Definition CHANNEL_DEV : string := "dev".
Definition CHANNEL_STAGING : string := "staging".
Definition CHANNEL_PROD : string := "prod".
Definition ALLOWED_CHANNELS : list string := [CHANNEL_DEV; CHANNEL_STAGING; CHANNEL_PROD].

Definition EVENT_ACTION_PROMOTE : string := "promote".
Definition EVENT_ACTION_ROLLBACK : string := "rollback".

(** [_LEGAL_TRANSITIONS]. *)
Definition LEGAL_TRANSITIONS : list (string * list string) :=
  [(VERSION_DRAFT, [VERSION_REVIEWED; VERSION_PUBLISHED; VERSION_REVOKED; VERSION_ARCHIVED]);
   (VERSION_REVIEWED, [VERSION_DRAFT; VERSION_PUBLISHED; VERSION_REVOKED; VERSION_ARCHIVED]);
   (VERSION_PUBLISHED, [VERSION_REVOKED]);
   (VERSION_REVOKED, []);
   (VERSION_ARCHIVED, [])].

(** [_CHANNEL_ALLOWED_VERSION_STATUSES]. *)
Definition CHANNEL_ALLOWED_VERSION_STATUSES : list (string * list string) :=
  [(CHANNEL_DEV, [VERSION_DRAFT; VERSION_REVIEWED; VERSION_PUBLISHED]);
   (CHANNEL_STAGING, [VERSION_REVIEWED; VERSION_PUBLISHED]);
   (CHANNEL_PROD, [VERSION_PUBLISHED])].

(** ** Guards *)

Definition guard_ok (b : bool) (e : release_error) : result release_error unit :=
  if b then Ok tt else Err e.

(** [if not org_id: raise ValueError]. *)
Definition require_org (org_id : string) : result release_error unit :=
  guard_ok (negb (String.eqb org_id "")) RE_value.

(** [_assert_mutable]. *)
Definition assert_mutable (row : version_row) : result release_error unit :=
  guard_ok (negb (str_in (ver_status row) [VERSION_PUBLISHED; VERSION_REVOKED; VERSION_ARCHIVED])) RE_immutable.

(** [_assert_transition]. *)
Definition assert_transition (current target : string) : result release_error unit :=
  guard_ok (str_in target (opt_or (dict_get current LEGAL_TRANSITIONS) []))
    (RE_illegal_transition current target).

(** [_assert_channel_allowed]. *)
Definition assert_channel_allowed (channel : string) : result release_error unit :=
  guard_ok (str_in channel ALLOWED_CHANNELS) RE_value.

(** [_assert_gate]. *)
Definition assert_gate (channel : string) (v : version_row) (is_rollback : bool) :
    result release_error unit :=
  match dict_get channel CHANNEL_ALLOWED_VERSION_STATUSES with
  | None => Err RE_value
  | Some allowed =>
      if negb (str_in (ver_status v) allowed) then Err RE_gate
      else if String.eqb channel CHANNEL_PROD && is_rollback
              && String.eqb (ver_status v) VERSION_REVOKED then Err RE_gate
      else Ok tt
  end.

(** [compute_object_key]. *)
Definition compute_object_key (org_id : string) (workspace_id : option string) (version_id : string) : string :=
  let ws := match workspace_id with
            | Some w => if String.eqb w "" then "_default" else w
            | None => "_default"
            end in
  ("org/" ++ org_id ++ "/workspace/" ++ ws ++ "/agent-version/" ++ version_id ++ "/artifact")%string.

(** ** Packages *)

Definition newest {A} (time : A -> Z) (a b : A) : bool := (time b <=? time a).

(** [create_agent_package]; the primary key and [uq_agent_packages_org_name]
    raise on collision. *)
Definition create_agent_package (id org_id name display_name : string)
    (description workspace_id created_by : option string) (now : Z) (db : release_db) :
    result release_error (package_row * release_db) :=
  if dict_mem id (db_packages db)
     || existsb (fun p => String.eqb (pk_org_id p) org_id && String.eqb (pk_name p) name)
          (dict_values (db_packages db))
  then Err RE_integrity
  else
    let row := mk_package id org_id workspace_id name display_name description PACKAGE_ACTIVE
                 created_by now now 1 in
    Ok (row, set_packages (dict_set id row (db_packages db)) db).

(** [session.get(AgentPackageRow, id)] with the Org test. *)
Definition package_in_org (package_id org_id : string) (db : release_db) : option package_row :=
  match dict_get package_id (db_packages db) with
  | Some row => if String.eqb (pk_org_id row) org_id then Some row else None
  | None => None
  end.

(** [get_agent_package]. *)
Definition get_agent_package (package_id org_id : string) (db : release_db) :
    result release_error (option package_row) :=
  let! _ := require_org org_id in Ok (package_in_org package_id org_id db).

(** [get_agent_package_by_name]. *)
Definition get_agent_package_by_name (org_id name : string) (db : release_db) :
    result release_error (option package_row) :=
  let! _ := require_org org_id in
  Ok (List.find (fun p => String.eqb (pk_org_id p) org_id && String.eqb (pk_name p) name)
        (dict_values (db_packages db))).

(** [list_agent_packages]. *)
Definition list_agent_packages (org_id : string) (include_archived : bool) (db : release_db) :
    result release_error (list package_row) :=
  let! _ := require_org org_id in
  Ok (sort_by (newest pk_created_at)
        (List.filter (fun p => String.eqb (pk_org_id p) org_id
                               && (include_archived || String.eqb (pk_status p) PACKAGE_ACTIVE))
           (dict_values (db_packages db)))).

(** [update_agent_package]. *)
Definition update_agent_package (package_id org_id : string)
    (display_name description : option string) (now : Z) (db : release_db) :
    result release_error (option package_row * release_db) :=
  match display_name, description with
  | None, None => let! r := get_agent_package package_id org_id db in Ok (r, db)
  | _, _ =>
      match package_in_org package_id org_id db with
      | None => Ok (None, db)
      | Some p =>
          let display := opt_or display_name (pk_display_name p) in
          let desc := match description with Some d => Some d | None => pk_description p end in
          let unchanged := bool_decide (display = pk_display_name p) && bool_decide (desc = pk_description p) in
          let row := mk_package (pk_id p) (pk_org_id p) (pk_workspace_id p) (pk_name p) display desc
                       (pk_status p) (pk_created_by p) (pk_created_at p)
                       (if unchanged then pk_updated_at p else now) (pk_row_version p) in
          Ok (Some row, set_packages (dict_set package_id row (db_packages db)) db)
      end
  end.

(** [_set_package_status]. *)
Definition set_package_status (package_id org_id status : string) (now : Z) (db : release_db) :
    result release_error (option package_row * release_db) :=
  if negb (str_in status ALLOWED_PACKAGE_STATUSES) then Err RE_value
  else
    match package_in_org package_id org_id db with
    | None => Ok (None, db)
    | Some p =>
        let row := mk_package (pk_id p) (pk_org_id p) (pk_workspace_id p) (pk_name p) (pk_display_name p)
                     (pk_description p) status (pk_created_by p) (pk_created_at p)
                     (if String.eqb status (pk_status p) then pk_updated_at p else now)
                     (pk_row_version p) in
        Ok (Some row, set_packages (dict_set package_id row (db_packages db)) db)
    end.

(** [archive_agent_package]. *)
Definition archive_agent_package (package_id org_id : string) (now : Z) (db : release_db) :
    result release_error (option package_row * release_db) :=
  set_package_status package_id org_id PACKAGE_ARCHIVED now db.

(** ** Versions *)

(** [ObjectStore]: the large-artifact backend.  Its effects are not rolled
    back with the transaction. *)
Class ObjectStore (O : Type) : Type := {
  os_put : string -> string -> O -> result release_error unit * O;
  os_get : string -> O -> result release_error string * O
}.

(** [InlineObjectStore]: stores nothing. *)
#[global] Instance inline_object_store : ObjectStore unit := {|
  os_put _ _ o := (Ok tt, o);
  os_get _ o := (Ok EmptyString, o)
|}.

(** The constraints of [agent_versions] for a row written under [id]. *)
Definition version_constraints (id : string) (v : version_row) (db : release_db) : bool :=
  dict_mem (ver_package_id v) (db_packages db)
  && str_in (ver_status v) ALLOWED_VERSION_STATUSES
  && xorb (bool_decide (ver_content_inline v = None)) (bool_decide (ver_object_key v = None))
  && (0 <=? ver_size_bytes v)
  && forallb
       (fun p => String.eqb p.1 id
         || negb (String.eqb (ver_org_id p.2) (ver_org_id v)
                  && (String.eqb (ver_package_id p.2) (ver_package_id v)
                      && String.eqb (ver_version p.2) (ver_version v)
                      || String.eqb (ver_digest p.2) (ver_digest v))))
       (db_versions db).

Definition flush_version (id : string) (v : version_row) (db : release_db) :
    result release_error (version_row * release_db) :=
  if version_constraints id v db
  then Ok (v, set_versions (dict_set id v (db_versions db)) db)
  else Err RE_integrity.

(** [session.get(AgentVersionRow, id)] with the Org test. *)
Definition version_in_org (version_id org_id : string) (db : release_db) : option version_row :=
  match dict_get version_id (db_versions db) with
  | Some row => if String.eqb (ver_org_id row) org_id then Some row else None
  | None => None
  end.

Section artifacts.
Context {O : Type} `{ObjectStore O} (sha256_hex : string -> string).

(** [compute_artifact_digest]. *)
Definition compute_artifact_digest (content : string) : string := ("sha256:" ++ sha256_hex content)%string.

Definition size_of (content : string) : Z := Z.of_nat (String.length content).

(** Storage routing: inline up to the threshold, the object store beyond. *)
Definition route_content (key content : string) (threshold : Z) (o : O) :
    result release_error (option string * option string) * O :=
  if size_of content <=? threshold then (Ok (Some content, None), o)
  else
    match os_put key content o with
    | (Ok _, o') => (Ok (None, Some key), o')
    | (Err e, o') => (Err e, o')
    end.

(** [create_agent_version]. *)
Definition create_agent_version (id org_id package_id version : string) (manifest : list (string * json))
    (content : string) (workspace_id created_by : option string) (threshold now : Z)
    (db : release_db) (o : O) : result release_error (version_row * release_db) * O :=
  match route_content (compute_object_key org_id workspace_id id) content threshold o with
  | (Err e, o') => (Err e, o')
  | (Ok (inline, key), o') =>
      let row := mk_version id org_id package_id version (compute_artifact_digest content) VERSION_DRAFT
                   manifest inline key (size_of content) created_by now None None in
      (if dict_mem id (db_versions db) then Err RE_integrity else flush_version id row db, o')
  end.

(** [update_agent_version]. *)
Definition update_agent_version (version_id org_id : string) (version : option string)
    (manifest : option (list (string * json))) (content : option string) (threshold : Z)
    (db : release_db) (o : O) : result release_error (version_row * release_db) * O :=
  match version_in_org version_id org_id db with
  | None => (Err RE_value, o)
  | Some row =>
      match assert_mutable row with
      | Err e => (Err e, o)
      | Ok _ =>
          let put inline key digest size o' :=
            (flush_version version_id
               (mk_version (ver_id row) (ver_org_id row) (ver_package_id row)
                  (opt_or version (ver_version row)) digest (ver_status row)
                  (opt_or manifest (ver_manifest row)) inline key size (ver_created_by row)
                  (ver_created_at row) (ver_published_at row) (ver_revoked_at row)) db, o') in
          match content with
          | None => put (ver_content_inline row) (ver_object_key row) (ver_digest row) (ver_size_bytes row) o
          | Some c =>
              match route_content (compute_object_key org_id None version_id) c threshold o with
              | (Err e, o') => (Err e, o')
              | (Ok (inline, key), o') => put inline key (compute_artifact_digest c) (size_of c) o'
              end
          end
      end
  end.
End artifacts.

(** [get_agent_version]. *)
Definition get_agent_version (version_id org_id : string) (db : release_db) :
    result release_error (option version_row) :=
  let! _ := require_org org_id in Ok (version_in_org version_id org_id db).

(** [get_agent_version_by_digest]. *)
Definition get_agent_version_by_digest (org_id digest : string) (db : release_db) :
    result release_error (option version_row) :=
  let! _ := require_org org_id in
  Ok (List.find (fun v => String.eqb (ver_org_id v) org_id && String.eqb (ver_digest v) digest)
        (dict_values (db_versions db))).

(** [list_agent_versions]. *)
Definition list_agent_versions (org_id : string) (package_id : option string) (include_archived : bool)
    (db : release_db) : result release_error (list version_row) :=
  let! _ := require_org org_id in
  Ok (sort_by (newest ver_created_at)
        (List.filter (fun v => String.eqb (ver_org_id v) org_id
                               && match package_id with Some p => String.eqb (ver_package_id v) p | None => true end
                               && (include_archived || negb (String.eqb (ver_status v) VERSION_ARCHIVED)))
           (dict_values (db_versions db)))).

(** [count_versions_by_org]. *)
Definition count_versions_by_org (org_id : string) (db : release_db) : result release_error Z :=
  let! _ := require_org org_id in
  Ok (Z.of_nat (length (List.filter (fun v => String.eqb (ver_org_id v) org_id) (dict_values (db_versions db))))).

(** [set_version_status]. *)
Definition set_version_status (version_id org_id status : string) (now : Z) (db : release_db) :
    result release_error (version_row * release_db) :=
  if negb (str_in status ALLOWED_VERSION_STATUSES) then Err RE_value
  else
    match version_in_org version_id org_id db with
    | None => Err RE_value
    | Some row =>
        let! _ := assert_transition (ver_status row) status in
        flush_version version_id
          (mk_version (ver_id row) (ver_org_id row) (ver_package_id row) (ver_version row) (ver_digest row)
             status (ver_manifest row) (ver_content_inline row) (ver_object_key row) (ver_size_bytes row)
             (ver_created_by row) (ver_created_at row)
             (if String.eqb status VERSION_PUBLISHED && bool_decide (ver_published_at row = None)
              then Some now else ver_published_at row)
             (if String.eqb status VERSION_REVOKED && bool_decide (ver_revoked_at row = None)
              then Some now else ver_revoked_at row)) db
    end.

(** ** Channels *)

(** The lookup of one pointer; [None] matches only the NULL workspace. *)
Definition find_channel (org_id package_id channel : string) (workspace_id : option string) (db : release_db) :
    option channel_row :=
  List.find (fun c => String.eqb (ch_org_id c) org_id && String.eqb (ch_package_id c) package_id
                      && String.eqb (ch_channel c) channel && bool_decide (ch_workspace_id c = workspace_id))
    (dict_values (db_channels db)).

(** The unique index: NULL workspaces collapse to ["_default"]. *)
Definition channel_index_hit (org_id package_id channel : string) (workspace_id : option string)
    (db : release_db) : bool :=
  existsb (fun c => String.eqb (ch_org_id c) org_id && String.eqb (ch_package_id c) package_id
                    && String.eqb (ch_channel c) channel
                    && String.eqb (opt_or (ch_workspace_id c) "_default") (opt_or workspace_id "_default"))
    (dict_values (db_channels db)).

(** [get_or_create_channel] on the caller's session. *)
Definition get_or_create_channel (id org_id package_id channel : string) (workspace_id : option string)
    (now : Z) (db : release_db) : result release_error (channel_row * release_db) :=
  let! _ := require_org org_id in
  let! _ := assert_channel_allowed channel in
  match find_channel org_id package_id channel workspace_id db with
  | Some c => Ok (c, db)
  | None =>
      if dict_mem id (db_channels db) || channel_index_hit org_id package_id channel workspace_id db
         || negb (dict_mem package_id (db_packages db))
      then Err RE_integrity
      else
        let row := mk_channel id org_id workspace_id package_id channel None 1 None now now in
        Ok (row, set_channels (dict_set id row (db_channels db)) db)
  end.

(** [_cas_update_channel]. *)
Definition cas_update_channel (channel_id org_id : string) (expected : Z) (new_version_id : string)
    (updated_by : option string) (now : Z) (db : release_db) :
    result release_error (channel_row * release_db) :=
  match dict_get channel_id (db_channels db) with
  | Some c =>
      if String.eqb (ch_org_id c) org_id && (ch_row_version c =? expected)
      then
        let row := mk_channel (ch_id c) (ch_org_id c) (ch_workspace_id c) (ch_package_id c) (ch_channel c)
                     (Some new_version_id) (ch_row_version c + 1) updated_by (ch_created_at c) now in
        Ok (row, set_channels (dict_set channel_id row (db_channels db)) db)
      else Err RE_conflict
  | None => Err RE_conflict
  end.

(** [get_channel]. *)
Definition get_channel (org_id package_id channel : string) (workspace_id : option string) (db : release_db) :
    result release_error (option channel_row) :=
  let! _ := require_org org_id in
  let! _ := assert_channel_allowed channel in
  Ok (find_channel org_id package_id channel workspace_id db).

(** [list_channels]. *)
Definition list_channels (org_id : string) (package_id : option string) (db : release_db) :
    result release_error (list channel_row) :=
  let! _ := require_org org_id in
  Ok (sort_by (newest ch_updated_at)
        (List.filter (fun c => String.eqb (ch_org_id c) org_id
                               && match package_id with Some p => String.eqb (ch_package_id c) p | None => true end)
           (dict_values (db_channels db)))).

(** [list_events]. *)
Definition list_events (org_id : string) (channel_id : option string) (db : release_db) :
    result release_error (list event_row) :=
  let! _ := require_org org_id in
  Ok (sort_by (newest ev_created_at)
        (List.filter (fun e => String.eqb (ev_org_id e) org_id
                               && match channel_id with Some c => String.eqb (ev_channel_id e) c | None => true end)
           (db_events db))).

(** The fresh ids and the clock reading of one request. *)
Record move_ids : Type := mk_ids {
  new_channel_id : string;
  new_event_id : string;
  at_time : Z
}.

Record move_args : Type := mk_move {
  mv_org_id : string;
  mv_package_id : string;
  mv_channel : string;
  mv_target_version_id : string;
  mv_expected_channel_version : Z;
  mv_actor_id : option string;
  mv_actor_type : option string;
  mv_reason : option string;
  mv_workspace_id : option string
}.

(** [_move_channel] on the caller's session. *)
Definition move_channel (action : string) (ids : move_ids) (a : move_args) (db : release_db) :
    result release_error (channel_row * event_row * release_db) :=
  let! (ch, db1) := get_or_create_channel (new_channel_id ids) (mv_org_id a) (mv_package_id a)
                      (mv_channel a) (mv_workspace_id a) (at_time ids) db in
  match dict_get (mv_target_version_id a) (db_versions db1) with
  | None => Err RE_value
  | Some target =>
      if negb (String.eqb (ver_org_id target) (mv_org_id a)
               && String.eqb (ver_package_id target) (mv_package_id a))
      then Err RE_value
      else
        let! _ := assert_gate (mv_channel a) target (String.eqb action EVENT_ACTION_ROLLBACK) in
        let! (updated, db2) := cas_update_channel (ch_id ch) (mv_org_id a) (mv_expected_channel_version a)
                                 (mv_target_version_id a) (mv_actor_id a) (at_time ids) db1 in
        let event := mk_event (new_event_id ids) (mv_org_id a) (ch_id updated) (ch_current_version_id ch)
                       (mv_target_version_id a) action (mv_actor_type a) (mv_actor_id a) (mv_reason a)
                       (at_time ids) in
        if existsb (fun e => String.eqb (ev_id e) (new_event_id ids)) (db_events db2)
           || negb (str_in action [EVENT_ACTION_PROMOTE; EVENT_ACTION_ROLLBACK])
        then Err RE_integrity
        else Ok (updated, event, set_events (db_events db2 ++ [event]) db2)
  end.

(** [promote_channel] and [rollback_channel]. *)
Definition promote_channel : move_ids -> move_args -> release_db ->
    result release_error (channel_row * event_row * release_db) := move_channel EVENT_ACTION_PROMOTE.
Definition rollback_channel : move_ids -> move_args -> release_db ->
    result release_error (channel_row * event_row * release_db) := move_channel EVENT_ACTION_ROLLBACK.

(** ** Committed transactions *)

Inductive release_step {O} `{ObjectStore O} (sha256_hex : string -> string) : release_db -> release_db -> Prop :=
| rs_create_package id org name disp desc ws by_ now db row db' :
    create_agent_package id org name disp desc ws by_ now db = Ok (row, db') -> release_step sha256_hex db db'
| rs_update_package id org disp desc now db r db' :
    update_agent_package id org disp desc now db = Ok (r, db') -> release_step sha256_hex db db'
| rs_set_package_status id org st now db r db' :
    set_package_status id org st now db = Ok (r, db') -> release_step sha256_hex db db'
| rs_create_version id org pkg v man content ws by_ thr now db o row db' o' :
    create_agent_version sha256_hex id org pkg v man content ws by_ thr now db o = (Ok (row, db'), o') ->
    release_step sha256_hex db db'
| rs_update_version id org v man content thr db o row db' o' :
    update_agent_version sha256_hex id org v man content thr db o = (Ok (row, db'), o') ->
    release_step sha256_hex db db'
| rs_set_version_status id org st now db row db' :
    set_version_status id org st now db = Ok (row, db') -> release_step sha256_hex db db'
| rs_get_or_create_channel id org pkg ch ws now db row db' :
    get_or_create_channel id org pkg ch ws now db = Ok (row, db') -> release_step sha256_hex db db'
| rs_promote ids a db ch ev db' :
    promote_channel ids a db = Ok (ch, ev, db') -> release_step sha256_hex db db'
| rs_rollback ids a db ch ev db' :
    rollback_channel ids a db = Ok (ch, ev, db') -> release_step sha256_hex db db'.

(** ** Specifications *)

(** What a later state may say about a version that was published: its
    content, identity and display fields are the same and it is still
    published or has been revoked. *)
Definition frozen (v v' : version_row) : Prop :=
  ver_id v' = ver_id v /\ ver_org_id v' = ver_org_id v /\ ver_package_id v' = ver_package_id v
  /\ ver_version v' = ver_version v /\ ver_digest v' = ver_digest v /\ ver_manifest v' = ver_manifest v
  /\ ver_content_inline v' = ver_content_inline v /\ ver_object_key v' = ver_object_key v
  /\ ver_size_bytes v' = ver_size_bytes v /\ ver_created_at v' = ver_created_at v
  /\ ver_published_at v' = ver_published_at v.

(** The history of one channel. *)
Definition events_of (channel_id : string) (db : release_db) : list event_row :=
  List.filter (fun e => String.eqb (ev_channel_id e) channel_id) (db_events db).

(** Each event starts where the previous one ended. *)
Fixpoint chained (from : option string) (l : list event_row) : Prop :=
  match l with
  | [] => True
  | e :: l' => ev_from_version_id e = from /\ chained (Some (ev_to_version_id e)) l'
  end.

Definition final_version (from : option string) (l : list event_row) : option string :=
  foldl (fun _ e => Some (ev_to_version_id e)) from l.

(** The invariant of the tables. *)
Record release_inv (sha256_hex : string -> string) (db : release_db) : Prop := {
  ri_version : forall id v, dict_get id (db_versions db) = Some v ->
    ver_id v = id /\ ver_size_bytes v >= 0
    /\ xorb (bool_decide (ver_content_inline v = None)) (bool_decide (ver_object_key v = None)) = true
    /\ (forall c, ver_content_inline v = Some c ->
          ver_digest v = compute_artifact_digest sha256_hex c /\ ver_size_bytes v = size_of c);
  ri_channel : forall id c, dict_get id (db_channels db) = Some c ->
    ch_id c = id /\ ch_channel c ∈ ALLOWED_CHANNELS
    /\ ch_row_version c = 1 + Z.of_nat (length (events_of id db))
    /\ chained None (events_of id db)
    /\ ch_current_version_id c = final_version None (events_of id db)
    /\ (forall vid, ch_current_version_id c = Some vid ->
          exists v, dict_get vid (db_versions db) = Some v /\ ver_org_id v = ch_org_id c
            /\ ver_package_id v = ch_package_id c
            /\ (ch_channel c = CHANNEL_PROD -> ver_status v ∈ [VERSION_PUBLISHED; VERSION_REVOKED]));
  ri_events : forall e, e ∈ db_events db -> is_Some (dict_get (ev_channel_id e) (db_channels db));
  ri_keys : dict_wf (db_channels db);
  ri_unique : forall id1 id2 c1 c2,
    dict_get id1 (db_channels db) = Some c1 -> dict_get id2 (db_channels db) = Some c2 ->
    ch_org_id c1 = ch_org_id c2 -> ch_package_id c1 = ch_package_id c2 -> ch_channel c1 = ch_channel c2 ->
    ch_workspace_id c1 = ch_workspace_id c2 -> id1 = id2
}.
