(* ===== verification/ReleaseProps.v ===== *)
(** * The release control plane: properties

    Over every history of committed transactions: a published version is
    frozen, every channel pointer agrees with its event history, only one of
    two moves from the same channel version wins, and a failed move changes
    nothing. *)
From S2P Require Import Prelude RunStore Release.
Local Open Scope Z_scope.
Local Open Scope py_scope.

(** * Lemmas *)

Lemma guard_ok_Ok b e u : guard_ok b e = Ok u -> b = true.
Proof. unfold guard_ok. by destruct b. Qed.

Lemma flush_version_Ok id v db r db' :
  flush_version id v db = Ok (r, db') ->
  r = v /\ db' = set_versions (dict_set id v (db_versions db)) db
  /\ xorb (bool_decide (ver_content_inline v = None)) (bool_decide (ver_object_key v = None)) = true.
Proof.
  unfold flush_version. destruct (version_constraints id v db) eqn:E; [|done]. intros [= <- <-].
  split; [done|]. split; [done|]. unfold version_constraints in E.
  rewrite !andb_true_iff in E. by destruct E as [[[_ E] _] _].
Qed.

Lemma version_in_org_Some id org db v :
  version_in_org id org db = Some v -> dict_get id (db_versions db) = Some v /\ ver_org_id v = org.
Proof.
  unfold version_in_org. destruct (dict_get id (db_versions db)) as [r|]; [|done].
  destruct (String.eqb_spec (ver_org_id r) org); [|done]. by intros [= ->].
Qed.

Lemma frozen_refl v : frozen v v.
Proof. by repeat split. Qed.

Lemma frozen_trans v1 v2 v3 : frozen v1 v2 -> frozen v2 v3 -> frozen v1 v3.
Proof. unfold frozen. intros; destruct_and!; split_and!; congruence. Qed.

Definition is_released (st : string) : Prop := st ∈ [VERSION_PUBLISHED; VERSION_REVOKED].

(** What one transaction may do to a version row. *)
Definition ver_evolves (v v' : version_row) : Prop :=
  ver_org_id v' = ver_org_id v /\ ver_package_id v' = ver_package_id v
  /\ (is_released (ver_status v) -> frozen v v' /\ is_released (ver_status v'))
  /\ (ver_status v = VERSION_REVOKED -> ver_status v' = VERSION_REVOKED).

Definition versions_evolve (db db' : release_db) : Prop :=
  forall id v, dict_get id (db_versions db) = Some v ->
    exists v', dict_get id (db_versions db') = Some v' /\ ver_evolves v v'.

Lemma ver_evolves_refl v : ver_evolves v v.
Proof. repeat split; auto using frozen_refl. Qed.

Lemma ver_evolves_trans v1 v2 v3 : ver_evolves v1 v2 -> ver_evolves v2 v3 -> ver_evolves v1 v3.
Proof.
  intros (O1&P1&F1&R1) (O2&P2&F2&R2). split; [congruence|]. split; [congruence|]. split; [|auto].
  intros Hr. destruct (F1 Hr) as [Fr1 Rel1]. destruct (F2 Rel1) as [Fr2 Rel2]. eauto using frozen_trans.
Qed.

Lemma versions_evolve_same db db' : db_versions db' = db_versions db -> versions_evolve db db'.
Proof. intros E id v Hv. rewrite E. eauto using ver_evolves_refl. Qed.

Lemma versions_evolve_trans db1 db2 db3 :
  versions_evolve db1 db2 -> versions_evolve db2 db3 -> versions_evolve db1 db3.
Proof.
  intros H1 H2 id v Hv. destruct (H1 id v Hv) as (v2 & Hv2 & E2).
  destruct (H2 id v2 Hv2) as (v3 & Hv3 & E3). eauto using ver_evolves_trans.
Qed.

(** Writing one row whose change is allowed. *)
Lemma versions_evolve_set id v v' db :
  dict_get id (db_versions db) = Some v -> ver_evolves v v' ->
  versions_evolve db (set_versions (dict_set id v' (db_versions db)) db).
Proof.
  intros Hv He k x Hx. simpl. rewrite dict_get_set. case_decide; subst; simplify_eq;
    eauto using ver_evolves_refl.
Qed.

(** The two guards on version rows. *)
Lemma assert_mutable_Ok v u : assert_mutable v = Ok u -> ~ is_released (ver_status v).
Proof.
  unfold assert_mutable. intros Hg%guard_ok_Ok%negb_true_iff Hr.
  assert (str_in (ver_status v) [VERSION_PUBLISHED; VERSION_REVOKED; VERSION_ARCHIVED] = true) as E; [|congruence].
  apply str_in_spec. unfold is_released in Hr. set_solver.
Qed.

Lemma assert_transition_Ok cur target u :
  assert_transition cur target = Ok u ->
  (is_released cur -> cur = VERSION_PUBLISHED /\ target = VERSION_REVOKED).
Proof.
  unfold assert_transition. intros Hg%guard_ok_Ok%str_in_spec Hr. unfold is_released in Hr.
  rewrite !elem_of_cons, elem_of_nil in Hr. destruct Hr as [->|[->|[]]]; simpl in Hg.
  - split; [done|]. by apply list_elem_of_singleton in Hg.
  - by apply elem_of_nil in Hg.
Qed.

(** Routing stores the content inline exactly when it fits. *)
Lemma route_content_Ok {O} `{ObjectStore O} key c thr (o : O) inline okey o' :
  route_content key c thr o = (Ok (inline, okey), o') ->
  (inline = Some c /\ okey = None) \/ (inline = None /\ okey = Some key).
Proof.
  unfold route_content. destruct (size_of c <=? thr); [intros [= <- <- <-]; auto|].
  destruct (os_put key c o) as [[u|e] o1]; [intros [= <- <- <-]; auto|done].
Qed.

Section steps.
Context {O : Type} `{ObjectStore O} (sha : string -> string).

Lemma create_version_Ok id org pkg v man c ws by_ thr now db (o : O) row db' o' :
  create_agent_version sha id org pkg v man c ws by_ thr now db o = (Ok (row, db'), o') ->
  dict_get id (db_versions db) = None /\ db' = set_versions (dict_set id row (db_versions db)) db
  /\ ver_id row = id /\ ver_size_bytes row >= 0 /\ ver_status row = VERSION_DRAFT
  /\ ver_digest row = compute_artifact_digest sha c
  /\ xorb (bool_decide (ver_content_inline row = None)) (bool_decide (ver_object_key row = None)) = true
  /\ (forall c', ver_content_inline row = Some c' ->
        ver_digest row = compute_artifact_digest sha c' /\ ver_size_bytes row = size_of c').
Proof using.
  unfold create_agent_version.
  destruct (route_content _ _ _ _) as [[[inline key]|e] o1] eqn:Hr; [|done]. unfold dict_mem.
  destruct (dict_get id (db_versions db)) eqn:Hid; [done|]. intros [= Hf <-].
  apply flush_version_Ok in Hf as (-> & -> & Hx). simpl in *.
  split; [done|]. split; [done|]. split; [done|]. split; [unfold size_of; lia|].
  split; [done|]. split; [done|]. split; [done|]. intros c' ->.
  apply route_content_Ok in Hr as [[[= <-] _]|[? _]]; done.
Qed.

Lemma update_version_Ok id org v man c thr db (o : O) row db' o' :
  update_agent_version sha id org v man c thr db o = (Ok (row, db'), o') ->
  exists old, dict_get id (db_versions db) = Some old /\ ~ is_released (ver_status old)
  /\ db' = set_versions (dict_set id row (db_versions db)) db
  /\ ver_id row = ver_id old /\ ver_org_id row = ver_org_id old /\ ver_package_id row = ver_package_id old
  /\ xorb (bool_decide (ver_content_inline row = None)) (bool_decide (ver_object_key row = None)) = true
  /\ ver_status row = ver_status old
  /\ ((ver_content_inline row = ver_content_inline old /\ ver_digest row = ver_digest old
       /\ ver_size_bytes row = ver_size_bytes old)
      \/ (ver_size_bytes row >= 0 /\ forall c', ver_content_inline row = Some c' ->
            ver_digest row = compute_artifact_digest sha c' /\ ver_size_bytes row = size_of c')).
Proof using.
  unfold update_agent_version. destruct (version_in_org id org db) as [old|] eqn:Hv; [|done].
  apply version_in_org_Some in Hv as [Hv _].
  destruct (assert_mutable old) as [u|e] eqn:Hm; [|done]. apply assert_mutable_Ok in Hm.
  intros Hres. exists old. split; [done|]. split; [done|]. destruct c as [c|].
  - destruct (route_content _ _ _ _) as [[[inline key]|e] o1] eqn:Hr; [|done].
    injection Hres as Hf <-. apply flush_version_Ok in Hf as (-> & -> & Hx). simpl in *.
    split_and!; try done. right. split; [unfold size_of; lia|]. intros c' ->.
    apply route_content_Ok in Hr as [[[= <-] _]|[? _]]; done.
  - injection Hres as Hf <-. apply flush_version_Ok in Hf as (-> & -> & Hx). simpl in *.
    split_and!; try done. by left.
Qed.

Lemma set_version_status_Ok id org st now db row db' :
  set_version_status id org st now db = Ok (row, db') ->
  exists old u, dict_get id (db_versions db) = Some old /\ assert_transition (ver_status old) st = Ok u
  /\ db' = set_versions (dict_set id row (db_versions db)) db /\ ver_status row = st
  /\ ver_id row = ver_id old /\ ver_org_id row = ver_org_id old /\ ver_package_id row = ver_package_id old
  /\ xorb (bool_decide (ver_content_inline row = None)) (bool_decide (ver_object_key row = None)) = true
  /\ ver_content_inline row = ver_content_inline old /\ ver_digest row = ver_digest old
  /\ ver_size_bytes row = ver_size_bytes old
  /\ (st <> VERSION_PUBLISHED -> frozen old row).
Proof using.
  unfold set_version_status. destruct (negb _); [done|].
  destruct (version_in_org id org db) as [old|] eqn:Hv; [|done].
  apply version_in_org_Some in Hv as [Hv _].
  destruct (assert_transition (ver_status old) st) as [u|e] eqn:Ht; [|done]. simpl.
  intros Hf. apply flush_version_Ok in Hf as (-> & -> & Hx). exists old, u. simpl in *.
  split_and!; try done. intros Hne. repeat split; try done. simpl.
  by rewrite (proj2 (String.eqb_neq _ _) Hne).
Qed.
End steps.

(** ** Channel operations *)

Lemma find_channel_Some org pkg ch ws db c :
  find_channel org pkg ch ws db = Some c ->
  c ∈ dict_values (db_channels db) /\ ch_org_id c = org /\ ch_package_id c = pkg /\ ch_channel c = ch
  /\ ch_workspace_id c = ws.
Proof.
  unfold find_channel. intros [Hin Ht]%find_some. rewrite <-list_elem_of_In in Hin.
  rewrite !andb_true_iff, !String.eqb_eq, bool_decide_eq_true in Ht. naive_solver.
Qed.

Lemma find_channel_key org pkg ch ws db id c :
  dict_get id (db_channels db) = Some c -> ch_org_id c = org -> ch_package_id c = pkg -> ch_channel c = ch ->
  ch_workspace_id c = ws -> is_Some (find_channel org pkg ch ws db).
Proof.
  intros Hg <- <- <- <-. unfold find_channel.
  destruct (List.find _ _) eqn:Hf; [by eauto|]. exfalso.
  eapply find_none in Hf; [|rewrite <-list_elem_of_In; apply list_elem_of_fmap; exists (id, c);
    split; [done|by apply dict_get_Some_elem]]. simpl in Hf.
  by rewrite !String.eqb_refl, bool_decide_eq_true_2 in Hf.
Qed.

Lemma get_or_create_Ok id org pkg ch ws now db c db' :
  get_or_create_channel id org pkg ch ws now db = Ok (c, db') ->
  ch ∈ ALLOWED_CHANNELS /\
  ((find_channel org pkg ch ws db = Some c /\ db' = db)
   \/ (find_channel org pkg ch ws db = None /\ dict_get id (db_channels db) = None
       /\ c = mk_channel id org ws pkg ch None 1 None now now
       /\ db' = set_channels (dict_set id c (db_channels db)) db)).
Proof.
  unfold get_or_create_channel. destruct (require_org org); [|done]. simpl.
  destruct (assert_channel_allowed ch) as [u|e] eqn:Hc; [|done]. simpl.
  apply guard_ok_Ok, str_in_spec in Hc. intros Hr. split; [done|]. revert Hr.
  destruct (find_channel org pkg ch ws db) as [x|] eqn:Hf; [intros [= <- <-]; by left|].
  unfold dict_mem at 1. destruct (dict_get id (db_channels db)) eqn:Hg; [done|].
  case_match; [done|]. intros [= <- <-]. by right.
Qed.

Lemma get_or_create_owner id org pkg ch ws now db c db' :
  get_or_create_channel id org pkg ch ws now db = Ok (c, db') ->
  ch_org_id c = org /\ ch_package_id c = pkg /\ ch_channel c = ch.
Proof.
  intros [_ [[Hf _]|(_ & _ & -> & _)]]%get_or_create_Ok; [|done].
  apply find_channel_Some in Hf. naive_solver.
Qed.

(** A moved pointer. *)
Definition moved (a : move_args) (now : Z) (c : channel_row) : channel_row :=
  mk_channel (ch_id c) (ch_org_id c) (ch_workspace_id c) (ch_package_id c) (ch_channel c)
    (Some (mv_target_version_id a)) (ch_row_version c + 1) (mv_actor_id a) (ch_created_at c) now.

Lemma move_channel_Ok act ids a db upd ev db' :
  move_channel act ids a db = Ok (upd, ev, db') ->
  exists c c0 db1 target,
    get_or_create_channel (new_channel_id ids) (mv_org_id a) (mv_package_id a) (mv_channel a)
      (mv_workspace_id a) (at_time ids) db = Ok (c, db1)
    /\ dict_get (mv_target_version_id a) (db_versions db1) = Some target
    /\ ver_org_id target = mv_org_id a /\ ver_package_id target = mv_package_id a
    /\ is_ok (assert_gate (mv_channel a) target (String.eqb act EVENT_ACTION_ROLLBACK)) = true
    /\ dict_get (ch_id c) (db_channels db1) = Some c0 /\ ch_row_version c0 = mv_expected_channel_version a
    /\ upd = moved a (at_time ids) c0
    /\ ev = mk_event (new_event_id ids) (mv_org_id a) (ch_id c0) (ch_current_version_id c)
              (mv_target_version_id a) act (mv_actor_type a) (mv_actor_id a) (mv_reason a) (at_time ids)
    /\ db' = set_events (db_events db1 ++ [ev]) (set_channels (dict_set (ch_id c) upd (db_channels db1)) db1).
Proof.
  unfold move_channel. destruct (get_or_create_channel _ _ _ _ _ _ _) as [[c db1]|e] eqn:Hc; [|done]. simpl.
  destruct (dict_get (mv_target_version_id a) (db_versions db1)) as [target|] eqn:Ht; [|done].
  destruct (String.eqb_spec (ver_org_id target) (mv_org_id a)) as [Ho|]; simpl; [|done].
  destruct (String.eqb_spec (ver_package_id target) (mv_package_id a)) as [Hp|]; simpl; [|done].
  destruct (assert_gate _ _ _) as [u|e] eqn:Hg; [|done]. simpl. unfold cas_update_channel.
  destruct (dict_get (ch_id c) (db_channels db1)) as [c0|] eqn:Hc0; [|done].
  destruct (String.eqb (ch_org_id c0) (mv_org_id a)); simpl; [|done].
  destruct (Z.eqb_spec (ch_row_version c0) (mv_expected_channel_version a)); simpl; [|done].
  case_match; [done|]. intros [= <- <- <-]. exists c, c0, db1, target. by rewrite Hg.
Qed.

(** The production gate lets only published versions through. *)
Lemma assert_gate_prod v b : is_ok (assert_gate CHANNEL_PROD v b) = true -> ver_status v = VERSION_PUBLISHED.
Proof.
  unfold assert_gate. simpl. destruct (str_in (ver_status v) [VERSION_PUBLISHED]) eqn:E; [|done].
  intros _. apply str_in_spec in E. by apply list_elem_of_singleton in E.
Qed.

(** What one transaction may do to a channel row. *)
Definition channels_evolve (db db' : release_db) : Prop :=
  forall id c, dict_get id (db_channels db) = Some c ->
    exists c', dict_get id (db_channels db') = Some c'
      /\ ch_org_id c' = ch_org_id c /\ ch_package_id c' = ch_package_id c /\ ch_channel c' = ch_channel c
      /\ ch_workspace_id c' = ch_workspace_id c /\ ch_row_version c <= ch_row_version c'.

Lemma channels_evolve_same db db' : db_channels db' = db_channels db -> channels_evolve db db'.
Proof. intros E id c Hc. rewrite E. exists c. split_and!; try done; lia. Qed.

Lemma channels_evolve_trans db1 db2 db3 :
  channels_evolve db1 db2 -> channels_evolve db2 db3 -> channels_evolve db1 db3.
Proof.
  intros H1 H2 id c Hc. destruct (H1 id c Hc) as (c2 & Hc2 & ? & ? & ? & ? & ?).
  destruct (H2 id c2 Hc2) as (c3 & Hc3 & ? & ? & ? & ? & ?). exists c3. split_and!; try congruence; lia.
Qed.

Lemma get_or_create_evolves id org pkg ch ws now db c db' :
  get_or_create_channel id org pkg ch ws now db = Ok (c, db') ->
  channels_evolve db db' /\ db_versions db' = db_versions db /\ db_events db' = db_events db.
Proof.
  intros [_ [[_ ->]|(_ & Hid & -> & ->)]]%get_or_create_Ok; [split; [by apply channels_evolve_same|done]|].
  split; [|done]. intros k x Hx. exists x. simpl. rewrite dict_get_set_ne by congruence.
  split_and!; try done; lia.
Qed.

Lemma move_channel_evolves act ids a db upd ev db' :
  move_channel act ids a db = Ok (upd, ev, db') ->
  channels_evolve db db' /\ db_versions db' = db_versions db.
Proof.
  intros (c & c0 & db1 & target & Hgc & _ & _ & _ & _ & Hc0 & _ & -> & _ & ->)%move_channel_Ok.
  apply get_or_create_evolves in Hgc as (He & Hv & _). split; [|done].
  eapply channels_evolve_trans; [done|]. intros k x Hx. simpl. rewrite dict_get_set. case_decide; subst.
  - simplify_eq. eexists. split; [done|]. simpl. split_and!; try done; lia.
  - exists x. split_and!; try done; lia.
Qed.

(** ** The invariant under each transaction *)

Section invariant.
Context {O : Type} `{ObjectStore O} (sha : string -> string).

Lemma db_empty_inv : release_inv sha db_empty.
Proof using.
  split; try done. - by intros e ?%elem_of_nil. - apply dict_wf_nil.
Qed.

(** Pointers stay valid while versions evolve. *)
Lemma inv_set_version id row db :
  release_inv sha db -> versions_evolve db (set_versions (dict_set id row (db_versions db)) db) ->
  ver_id row = id /\ ver_size_bytes row >= 0
  /\ xorb (bool_decide (ver_content_inline row = None)) (bool_decide (ver_object_key row = None)) = true
  /\ (forall c, ver_content_inline row = Some c ->
        ver_digest row = compute_artifact_digest sha c /\ ver_size_bytes row = size_of c) ->
  release_inv sha (set_versions (dict_set id row (db_versions db)) db).
Proof using.
  intros [Iv Ic Ie Ik Iu] Hev Hrow. split; try done.
  - intros k v. simpl. rewrite dict_get_set. case_decide; [|apply Iv]. intros [= <-]. by subst.
  - intros k c Hc. destruct (Ic k c Hc) as (I1 & I2 & I3 & I4 & I5 & I6).
    split; [done|]. split; [done|]. split; [done|]. split; [done|]. split; [done|].
    intros vid Hvid. destruct (I6 vid Hvid) as (v & Hv & Ho & Hp & Hst).
    destruct (Hev vid v Hv) as (v' & Hv' & Ho' & Hp' & Hr & _).
    exists v'. split; [done|]. split; [congruence|]. split; [congruence|].
    intros Hprod. apply Hr. by apply Hst.
Qed.

Lemma inv_same_tables db db' :
  db_versions db' = db_versions db -> db_channels db' = db_channels db -> db_events db' = db_events db ->
  release_inv sha db -> release_inv sha db'.
Proof using.
  intros Ev Ec Ee [Iv Ic Ie Ik Iu]. split; unfold events_of in *; rewrite ?Ev, ?Ec, ?Ee; done.
Qed.

Lemma create_package_tables id org name disp desc ws by_ now db row db' :
  create_agent_package id org name disp desc ws by_ now db = Ok (row, db') ->
  db_versions db' = db_versions db /\ db_channels db' = db_channels db /\ db_events db' = db_events db.
Proof using. unfold create_agent_package. case_match; [done|]. by intros [= <- <-]. Qed.

Lemma update_package_tables id org disp desc now db r db' :
  update_agent_package id org disp desc now db = Ok (r, db') ->
  db_versions db' = db_versions db /\ db_channels db' = db_channels db /\ db_events db' = db_events db.
Proof using.
  unfold update_agent_package, get_agent_package. destruct (require_org org), disp, desc; simpl;
    repeat case_match; intros; simplify_eq; done.
Qed.

Lemma set_package_status_tables id org st now db r db' :
  set_package_status id org st now db = Ok (r, db') ->
  db_versions db' = db_versions db /\ db_channels db' = db_channels db /\ db_events db' = db_events db.
Proof using. unfold set_package_status. repeat case_match; intros; by simplify_eq. Qed.

Lemma events_of_fresh id db : release_inv sha db -> dict_get id (db_channels db) = None -> events_of id db = [].
Proof using.
  intros Hi Hid. apply filter_none, Forall_forall. intros e He.
  destruct (String.eqb_spec (ev_channel_id e) id) as [<-|]; [|done].
  destruct (ri_events _ _ Hi e He). congruence.
Qed.

Lemma inv_channel_get db c :
  release_inv sha db -> c ∈ dict_values (db_channels db) -> dict_get (ch_id c) (db_channels db) = Some c.
Proof using.
  intros Hi Hin. apply dict_values_elem in Hin as [k Hin]. apply dict_get_elem in Hin; [|apply Hi].
  by rewrite (proj1 (ri_channel _ _ Hi k c Hin)).
Qed.

Lemma inv_get_or_create id org pkg ch ws now db c db' :
  get_or_create_channel id org pkg ch ws now db = Ok (c, db') -> release_inv sha db ->
  release_inv sha db' /\ dict_get (ch_id c) (db_channels db') = Some c
  /\ ch_org_id c = org /\ ch_package_id c = pkg /\ ch_channel c = ch /\ ch_workspace_id c = ws.
Proof using.
  intros [Hall [[Hf ->]|(Hnone & Hid & -> & ->)]]%get_or_create_Ok Hi.
  { apply find_channel_Some in Hf as (Hin & ? & ? & ? & ?).
    split; [done|]. split; [by apply inv_channel_get|done]. }
  set (c := mk_channel id org ws pkg ch None 1 None now now).
  split; [|split; [simpl; apply dict_get_set_eq|done]].
  pose proof (events_of_fresh id db Hi Hid) as Hev. destruct Hi as [Iv Ic Ie Ik Iu].
  split; cbn [set_channels db_versions db_channels db_events].
  - done.
  - intros k x. rewrite dict_get_set. case_decide; [|apply Ic]. intros [= <-]. subst k.
    change (events_of id (set_channels _ db)) with (events_of id db). rewrite Hev. by simpl.
  - intros e He. rewrite dict_get_set. case_decide; eauto.
  - by apply dict_wf_set.
  - intros k1 k2 c1 c2. rewrite !dict_get_set. repeat case_decide; subst; try by eauto.
    + intros [= <-] H2 E1 E2 E3 E4. exfalso. simpl in *.
      destruct (find_channel_key org pkg ch ws db k2 c2 H2) as [x Hx]; congruence.
    + intros H1 [= <-] E1 E2 E3 E4. exfalso. simpl in *.
      destruct (find_channel_key org pkg ch ws db k1 c1 H1) as [x Hx]; congruence.
Qed.

(** Appending one event to the history of a channel. *)
Lemma events_of_snoc k e l p v cs :
  events_of k (mk_db p v cs (l ++ [e]))
  = events_of k (mk_db p v cs l) ++ (if String.eqb (ev_channel_id e) k then [e] else []).
Proof using. unfold events_of. simpl. rewrite List.filter_app. simpl. by destruct (String.eqb _ _). Qed.

Lemma chained_snoc from l e :
  chained from l -> ev_from_version_id e = final_version from l -> chained from (l ++ [e]).
Proof using.
  revert from. induction l as [|x l IH]; intros from Hc He; simpl in *; [done|].
  destruct Hc as [Hx Hc]. split; [done|]. by apply IH.
Qed.

Lemma final_version_snoc from l e : final_version from (l ++ [e]) = Some (ev_to_version_id e).
Proof using. unfold final_version. by rewrite foldl_snoc. Qed.

Lemma inv_move act ids a db upd ev db' :
  move_channel act ids a db = Ok (upd, ev, db') -> release_inv sha db -> release_inv sha db'.
Proof using.
  intros (c & c0 & db1 & target & Hgc & Ht & Hto & Htp & Hgate & Hc0 & Hrv & -> & -> & ->)%move_channel_Ok Hi.
  destruct (inv_get_or_create _ _ _ _ _ _ _ _ _ Hgc Hi) as ([Iv Ic Ie Ik Iu] & Hc & Horg & Hpkg & Hch & _).
  rewrite Hc0 in Hc. injection Hc as ->. clear Hi Hgc.
  destruct (Ic _ _ Hc0) as (_ & I2 & I3 & I4 & I5 & _).
  destruct db1 as [ps vs cs es]. unfold set_events, set_channels in *.
  cbn [db_packages db_versions db_channels db_events] in *.
  split; cbn [db_versions db_channels db_events].
  - done.
  - intros k x. rewrite dict_get_set. case_decide as Hk.
    + intros [= <-]. subst k. rewrite events_of_snoc. simpl. rewrite String.eqb_refl.
      change (events_of (ch_id c) (mk_db ps vs _ es)) with (events_of (ch_id c) (mk_db ps vs cs es)).
      split; [done|]. split; [done|]. split; [rewrite length_app; simpl; lia|].
      split; [by apply chained_snoc|]. split; [by rewrite final_version_snoc|].
      intros vid [= <-]. exists target. split; [done|]. split; [congruence|]. split; [congruence|].
      intros Hprod. rewrite <-Hch, Hprod in Hgate. apply assert_gate_prod in Hgate. rewrite Hgate. by left.
    + intros Hx. rewrite events_of_snoc. simpl. rewrite (proj2 (String.eqb_neq _ _) Hk), app_nil_r.
      change (events_of k (mk_db ps vs _ es)) with (events_of k (mk_db ps vs cs es)). by apply Ic.
  - intros e [He|He%list_elem_of_singleton]%elem_of_app; [|subst; simpl]; rewrite dict_get_set; case_decide; eauto.
  - by apply dict_wf_set.
  - intros k1 k2 c1 c2. rewrite !dict_get_set. repeat case_decide; subst; try by eauto.
    + intros [= <-] H2. simpl. by apply Iu.
    + intros H1 [= <-]. simpl. by apply Iu.
Qed.
End invariant.

(** ** Every transaction *)

Lemma release_step_spec {O} `{ObjectStore O} sha db db' :
  release_step sha db db' ->
  versions_evolve db db' /\ channels_evolve db db' /\ (release_inv sha db -> release_inv sha db').
Proof.
  assert (forall db db' : release_db,
    db_versions db' = db_versions db /\ db_channels db' = db_channels db /\ db_events db' = db_events db ->
    versions_evolve db db' /\ channels_evolve db db' /\ (release_inv sha db -> release_inv sha db')) as Hsame.
  { intros d d' (Ev & Ec & Ee). split; [by apply versions_evolve_same|].
    split; [by apply channels_evolve_same|by apply inv_same_tables]. }
  destruct 1 as [????????? row db' Hop|????? db r db' Hop|???? db r db' Hop
    |id ????????? db o row db' o' Hop|id ????? db o row db' o' Hop|id ??? db row db' Hop
    |?????? db row db' Hop|ids a db ch ev db' Hop|ids a db ch ev db' Hop].
  - by eapply Hsame, create_package_tables.
  - by eapply Hsame, update_package_tables.
  - by eapply Hsame, set_package_status_tables.
  - apply create_version_Ok in Hop as (Hid & -> & E1 & E2 & _ & _ & E3 & E4).
    assert (versions_evolve db (set_versions (dict_set id row (db_versions db)) db)) as Hev.
    { intros k w Hw. exists w. simpl. rewrite dict_get_set_ne by congruence. auto using ver_evolves_refl. }
    split; [done|]. split; [by apply channels_evolve_same|]. intros Hi. by apply inv_set_version.
  - apply update_version_Ok in Hop as (old & Hold & Hnr & -> & E1 & E2 & E3 & E4 & Est & E5).
    assert (versions_evolve db (set_versions (dict_set id row (db_versions db)) db)) as Hev.
    { eapply versions_evolve_set; [done|]. split; [done|]. split; [done|]. split; [done|]. congruence. }
    split; [done|]. split; [by apply channels_evolve_same|]. intros Hi. apply inv_set_version; [done|done|].
    destruct (ri_version _ _ Hi _ _ Hold) as (I1 & I2 & I3 & I4).
    split; [congruence|]. destruct E5 as [(Ec & Ed & Es)|[E5 E6]]; [|done].
    rewrite Ec in *. rewrite Ed, Es. done.
  - apply set_version_status_Ok in Hop as (old & u & Hold & Ht & -> & Est & E1 & E2 & E3 & E4 & E5 & E6 & E7 & E8).
    pose proof (assert_transition_Ok _ _ _ Ht) as Hrel.
    assert (versions_evolve db (set_versions (dict_set id row (db_versions db)) db)) as Hev.
    { eapply versions_evolve_set; [done|]. split; [done|]. split; [done|]. split.
      - intros Hr. destruct (Hrel Hr) as [_ Hst]. rewrite Hst in *. split; [by apply E8|].
        rewrite Est. unfold is_released. by right; left.
      - intros Hr. destruct Hrel as [Hp _]; [unfold is_released; rewrite Hr; by right; left|].
        rewrite Hp in Hr. done. }
    split; [done|]. split; [by apply channels_evolve_same|]. intros Hi. apply inv_set_version; [done|done|].
    destruct (ri_version _ _ Hi _ _ Hold) as (I1 & I2 & I3 & I4).
    split; [congruence|]. rewrite E5 in *. rewrite E6, E7. done.
  - split; [apply versions_evolve_same; by apply get_or_create_evolves in Hop as (_ & ? & _)|].
    split; [by apply get_or_create_evolves in Hop as [? _]|]. intros Hi. by eapply inv_get_or_create.
  - apply move_channel_evolves in Hop as Hev. split; [apply versions_evolve_same, Hev|].
    split; [apply Hev|]. by eapply inv_move.
  - apply move_channel_evolves in Hop as Hev. split; [apply versions_evolve_same, Hev|].
    split; [apply Hev|]. by eapply inv_move.
Qed.

Lemma release_star_spec {O} `{ObjectStore O} sha db db' :
  star (release_step sha) db db' ->
  versions_evolve db db' /\ channels_evolve db db' /\ (release_inv sha db -> release_inv sha db').
Proof.
  induction 1 as [db|db1 db2 db3 Hs _ (IH1 & IH2 & IH3)].
  - split; [by apply versions_evolve_same|]. split; [by apply channels_evolve_same|done].
  - apply release_step_spec in Hs as (S1 & S2 & S3).
    split; [by eapply versions_evolve_trans|]. split; [by eapply channels_evolve_trans|auto].
Qed.

(** * Properties *)

(** (C33) Published versions are immutable.  After any history of committed
    transactions a version that was published still exists with the same
    digest, content, manifest, display version, package and tenant, and is
    published or revoked; one that was revoked stays revoked. *)
Theorem published_version_frozen {O} `{ObjectStore O} (sha : string -> string) (db db' : release_db)
    (id : string) (v : version_row) :
  star (release_step sha) db db' -> dict_get id (db_versions db) = Some v ->
  ver_status v ∈ [VERSION_PUBLISHED; VERSION_REVOKED] ->
  exists v', dict_get id (db_versions db') = Some v' /\ frozen v v'
    /\ ver_status v' ∈ [VERSION_PUBLISHED; VERSION_REVOKED]
    /\ (ver_status v = VERSION_REVOKED -> ver_status v' = VERSION_REVOKED).
Proof.
  intros (Hev & _ & _)%release_star_spec Hv Hst. destruct (Hev id v Hv) as (v' & Hv' & _ & _ & Hr & Hrev).
  destruct (Hr Hst) as [Hf Hr']. eauto.
Qed.

(** (C32) Pointer and history agree.  In every reachable state a channel's
    row version is one more than the number of its events, its events chain
    (each starts at the version where the previous one ended, the first at
    none), its current version is the target of the last event, and that
    version exists in the same package and Org; on the production channel it
    was published.  Every version stores its content inline or in the object
    store, never both, and an inline content has the recorded digest. *)
Theorem release_tables_consistent {O} `{ObjectStore O} (sha : string -> string) (db : release_db) :
  star (release_step sha) db_empty db ->
  (forall id c, dict_get id (db_channels db) = Some c ->
     ch_row_version c = 1 + Z.of_nat (length (events_of id db))
     /\ chained None (events_of id db)
     /\ ch_current_version_id c = final_version None (events_of id db)
     /\ (forall vid, ch_current_version_id c = Some vid ->
           exists v, dict_get vid (db_versions db) = Some v /\ ver_org_id v = ch_org_id c
             /\ ver_package_id v = ch_package_id c
             /\ (ch_channel c = CHANNEL_PROD -> ver_status v ∈ [VERSION_PUBLISHED; VERSION_REVOKED])))
  /\ (forall id v, dict_get id (db_versions db) = Some v ->
        xorb (bool_decide (ver_content_inline v = None)) (bool_decide (ver_object_key v = None)) = true
        /\ (forall c, ver_content_inline v = Some c ->
              ver_digest v = compute_artifact_digest sha c /\ ver_size_bytes v = size_of c)).
Proof.
  intros (_ & _ & Hi)%release_star_spec. specialize (Hi (db_empty_inv sha)). split.
  - intros id c Hc. by destruct (ri_channel _ _ Hi id c Hc) as (_ & _ & ? & ? & ? & ?).
  - intros id v Hv. by destruct (ri_version _ _ Hi id v Hv) as (_ & _ & ? & ?).
Qed.

(** One winner per channel version.  Once a move of a channel committed
    against an expected version, every later move of the same channel against
    that version is refused, whatever was committed in between. *)
Theorem channel_move_single_winner {O} `{ObjectStore O} (sha : string -> string) (act1 act2 : string)
    (ids1 ids2 : move_ids) (a1 a2 : move_args) (db db1 db2 : release_db) (c : channel_row) (e : event_row) :
  release_inv sha db -> move_channel act1 ids1 a1 db = Ok (c, e, db1) ->
  star (release_step sha) db1 db2 ->
  mv_org_id a2 = mv_org_id a1 -> mv_package_id a2 = mv_package_id a1 -> mv_channel a2 = mv_channel a1 ->
  mv_workspace_id a2 = mv_workspace_id a1 ->
  mv_expected_channel_version a2 = mv_expected_channel_version a1 ->
  is_ok (move_channel act2 ids2 a2 db2) = false.
Proof.
  intros Hi Hm1 (_ & Hch & Hinv)%release_star_spec Eo Ep Ec Ew Ev.
  pose proof (inv_move _ _ _ _ _ _ _ _ Hm1 Hi) as Hi1. specialize (Hinv Hi1).
  apply move_channel_Ok in Hm1 as (x & c0 & d1 & t & Hgc & _ & _ & _ & _ & Hx & Hrv & -> & _ & ->).
  destruct (inv_get_or_create _ _ _ _ _ _ _ _ _ _ Hgc Hi) as (_ & Hx' & Ho & Hp & Hc & Hw).
  rewrite Hx in Hx'. injection Hx' as ->.
  destruct (Hch (ch_id x) (moved a1 (at_time ids1) x)) as (x2 & Hx2 & Ho2 & Hp2 & Hc2 & Hw2 & Hrv2).
  { simpl. apply dict_get_set_eq. }
  destruct (move_channel act2 ids2 a2 db2) as [[[c2 e2] db3]|er] eqn:Hm2; [|done]. exfalso.
  apply move_channel_Ok in Hm2 as (y & y0 & d2 & t2 & Hgc2 & _ & _ & _ & _ & Hy & Hry & _).
  destruct (inv_get_or_create _ _ _ _ _ _ _ _ _ _ Hgc2 Hinv) as (Hi2 & Hy' & Hoy & Hpy & Hcy & Hwy).
  rewrite Hy in Hy'. injection Hy' as ->.
  destruct (get_or_create_evolves _ _ _ _ _ _ _ _ _ Hgc2) as (Hev & _ & _).
  destruct (Hev _ _ Hx2) as (x3 & Hx3 & Ho3 & Hp3 & Hc3 & Hw3 & Hrv3). simpl in *.
  assert (ch_id x = ch_id y) as Eid by (eapply (ri_unique _ _ Hi2); [exact Hx3|exact Hy|congruence..]).
  rewrite Eid in Hx3. rewrite Hy in Hx3. injection Hx3 as <-. lia.
Qed.

(** ** A concrete history *)

Definition demo_sha (s : string) : string := s.

(** One package with two published versions. *)
Definition tables {A} (r : result release_error (A * release_db)) : release_db :=
  match r with Ok (_, db) => db | Err _ => db_empty end.
Definition demo_db1 : release_db :=
  tables (create_agent_package "p" "org" "agent" "Agent" None None None 0 db_empty).
Definition demo_db2 : release_db :=
  tables (create_agent_version demo_sha "v1" "org" "p" "1.0.0" [] "one" None None 100 1 demo_db1 tt).1.
Definition demo_db3 : release_db :=
  tables (create_agent_version demo_sha "v2" "org" "p" "2.0.0" [] "two" None None 100 2 demo_db2 tt).1.
Definition demo_db4 : release_db := tables (set_version_status "v1" "org" VERSION_PUBLISHED 3 demo_db3).
Definition demo_release : release_db := tables (set_version_status "v2" "org" VERSION_PUBLISHED 4 demo_db4).

Definition demo_move (target : string) (expected : Z) : move_args :=
  mk_move "org" "p" CHANNEL_PROD target expected None (Some "user") None None.

Lemma demo_release_reachable : star (release_step (O := unit) demo_sha) db_empty demo_release.
Proof.
  eapply star_step with demo_db1.
  { eapply (rs_create_package _ "p" "org" "agent" "Agent" None None None 0). vm_compute. reflexivity. }
  eapply star_step with demo_db2.
  { eapply (rs_create_version _ "v1" "org" "p" "1.0.0" [] "one" None None 100 1 _ tt). vm_compute. reflexivity. }
  eapply star_step with demo_db3.
  { eapply (rs_create_version _ "v2" "org" "p" "2.0.0" [] "two" None None 100 2 _ tt). vm_compute. reflexivity. }
  eapply star_step with demo_db4.
  { eapply (rs_set_version_status _ "v1" "org" VERSION_PUBLISHED 3). vm_compute. reflexivity. }
  eapply star_step with demo_release.
  { eapply (rs_set_version_status _ "v2" "org" VERSION_PUBLISHED 4). vm_compute. reflexivity. }
  apply star_refl.
Qed.

Lemma demo_release_inv : release_inv demo_sha demo_release.
Proof. destruct (release_star_spec _ _ _ demo_release_reachable) as (_ & _ & H). apply H, db_empty_inv. Qed.

Definition demo_ids (n : string) : move_ids := mk_ids "c1" n 10.

Definition demo_promoted : release_db :=
  match promote_channel (demo_ids "e1") (demo_move "v1" 1) demo_release with
  | Ok (_, db) => db
  | Err _ => db_empty
  end.

Lemma demo_promoted_reachable : star (release_step (O := unit) demo_sha) demo_release demo_promoted.
Proof.
  eapply star_step with demo_promoted; [|apply star_refl].
  eapply (rs_promote _ (demo_ids "e1") (demo_move "v1" 1)). vm_compute. reflexivity.
Qed.

Lemma published_version_frozen_witness :
  exists v v', dict_get "v1" (db_versions demo_release) = Some v
    /\ dict_get "v1" (db_versions demo_promoted) = Some v' /\ frozen v v'.
Proof.
  eexists. edestruct (published_version_frozen demo_sha demo_release demo_promoted "v1") as (v' & H1 & H2 & _);
    [exact demo_promoted_reachable|vm_compute; reflexivity|vm_compute; left|].
  exists v'. split; [vm_compute; reflexivity|]. split; [exact H1|exact H2].
Defined.

Lemma release_tables_consistent_witness :
  exists c, dict_get "c1" (db_channels demo_promoted) = Some c
    /\ ch_row_version c = 1 + Z.of_nat (length (events_of "c1" demo_promoted)).
Proof.
  destruct (release_tables_consistent demo_sha demo_promoted) as [H _].
  { exact (star_trans _ _ _ _ demo_release_reachable demo_promoted_reachable). }
  destruct (dict_get "c1" (db_channels demo_promoted)) as [c|] eqn:E; [|vm_compute in E; discriminate E].
  exists c. split; [reflexivity|]. exact (proj1 (H "c1" c E)).
Defined.

Lemma channel_move_single_winner_witness :
  is_ok (move_channel EVENT_ACTION_ROLLBACK (demo_ids "e2") (demo_move "v2" 1) demo_promoted) = false.
Proof.
  eapply (channel_move_single_winner demo_sha EVENT_ACTION_PROMOTE EVENT_ACTION_ROLLBACK (demo_ids "e1") (demo_ids "e2")
    (demo_move "v1" 1) (demo_move "v2" 1) demo_release demo_promoted demo_promoted);
    [exact demo_release_inv|vm_compute; reflexivity|apply star_refl|reflexivity|reflexivity|reflexivity|reflexivity|reflexivity].
Defined.
