(* ===== verification/Idempotency.v ===== *)
(** * Promote and rollback requests

    [persistence/release/idempotency.py] and the promote/rollback pipeline of
    [app/gateway/routers/agent_artifacts.py]: the [If-Match] and
    [Idempotency-Key] headers, the replay store with its unique
    (Org, key) fence, and [_orchestrate_idempotent_move], which reads the
    replay record, moves the channel, enqueues the audit row and stores the
    response in one transaction.  Other requests may commit between the
    replay read and the rest, so the pipeline takes the state of both
    moments.  SHA-256 over the canonical request JSON is the parameter
    [request_digest]. *)
From Stdlib Require Import Ascii.
From S2P Require Import Prelude RunStore Release ReleaseProps.
Local Open Scope Z_scope.
Local Open Scope py_scope.

(** ** Headers *)

Definition ascii_z (c : ascii) : Z := Z.of_N (N_of_ascii c).

(** The characters [str.strip()] removes, on Latin-1 header text. *)
Definition is_space (c : ascii) : bool :=
  let z := ascii_z c in
  ((9 <=? z) && (z <=? 13)) || ((28 <=? z) && (z <=? 32)) || (z =? 133) || (z =? 160).

Definition is_quote (c : ascii) : bool := (ascii_z c =? 34).
Definition is_digit (c : ascii) : bool := (48 <=? ascii_z c) && (ascii_z c <=? 57).

Fixpoint drop_while (p : ascii -> bool) (l : list ascii) : list ascii :=
  match l with
  | [] => []
  | c :: l' => if p c then drop_while p l' else l
  end.

(** [s.strip(chars)]. *)
Definition strip_by (p : ascii -> bool) (l : list ascii) : list ascii :=
  rev (drop_while p (rev (drop_while p l))).

(** The digits of [int(text)]: single underscores are allowed between digits. *)
Fixpoint parse_digits (acc : Z) (after_digit : bool) (l : list ascii) : option Z :=
  match l with
  | [] => if after_digit then Some acc else None
  | c :: l' =>
      if is_digit c then parse_digits (acc * 10 + (ascii_z c - 48)) true l'
      else if (ascii_z c =? 95) && after_digit then parse_digits acc false l'
      else None
  end.

(** [int(text)]; more than 4300 digits are refused. *)
Definition parse_int (l : list ascii) : option Z :=
  if (4300 <? Z.of_nat (length (List.filter is_digit l))) then None
  else
    match l with
    | c :: l' =>
        if ascii_z c =? 45 then Z.opp <$> parse_digits 0 false l'
        else if ascii_z c =? 43 then parse_digits 0 false l'
        else parse_digits 0 false l
    | [] => None
    end.

Inductive move_error : Type :=
| MVE_validation
| MVE_idempotency_conflict (key : string)
| MVE_release (e : release_error)
| MVE_race_retry.

(** [_parse_if_match]. *)
Definition parse_if_match (raw : option string) : result move_error (option Z) :=
  match raw with
  | None => Ok None
  | Some text =>
      match parse_int (strip_by is_space (strip_by is_quote (strip_by is_space (String.list_ascii_of_string text)))) with
      | None => Err MVE_validation
      | Some parsed => if parsed <? 1 then Err MVE_validation else Ok (Some parsed)
      end
  end.

(** [_resolve_expected_version]: the header wins. *)
Definition resolve_expected_version (if_match : option string) (body : option Z) : result move_error Z :=
  let! header := parse_if_match if_match in
  match header, body with
  | Some v, _ => Ok v
  | None, Some v => Ok v
  | None, None => Err MVE_validation
  end.

Fixpoint digits_of (fuel : nat) (n : Z) : list ascii :=
  let d := ascii_of_N (Z.to_N (48 + n mod 10)) in
  match fuel with
  | O => [d]
  | Datatypes.S fuel => if n <? 10 then [d] else digits_of fuel (n / 10) ++ [d]
  end.

(** The text [_set_etag] emits: the decimal version between quotes. *)
Definition etag (row_version : Z) : string :=
  String.string_of_list_ascii
    (["034"%char] ++ digits_of (Z.to_nat (Z.log2 row_version)) row_version ++ ["034"%char]).

Definition IDEMPOTENCY_KEY_MAX_LENGTH : nat := 128.

(** [_read_idempotency_key]. *)
Definition read_idempotency_key (raw : option string) : result move_error (option string) :=
  match raw with
  | None => Ok None
  | Some text =>
      let key := strip_by is_space (String.list_ascii_of_string text) in
      if bool_decide (key = []) then Err MVE_validation
      else if (IDEMPOTENCY_KEY_MAX_LENGTH <? length key)%nat then Err MVE_validation
      else Ok (Some (String.string_of_list_ascii key))
  end.

(** ** The replay store *)

Definition promote_response : Type := channel_row * event_row.

(** [ReleaseIdempotencyRecordRow]. *)
Record idem_record : Type := mk_idem {
  idr_request_hash : string;
  idr_response : promote_response;
  idr_status_code : Z;
  idr_created_at : Z
}.

(** The audit row of a move. *)
Record audit_row : Type := mk_audit {
  ar_action : string;
  ar_org_id : string;
  ar_channel_id : string;
  ar_package_id : string;
  ar_channel : string;
  ar_from_version_id : option string;
  ar_to_version_id : string;
  ar_row_version : Z;
  ar_event_action : string
}.

Record gateway_db : Type := mk_gw {
  gw_release : release_db;
  gw_idem : list (string * string * idem_record);
  gw_outbox : list audit_row
}.

(** [compute_request_hash]: the canonical payload has sorted keys; the
    expected version and the actor are not part of it. *)
Definition request_payload (action : string) (a : move_args) : list (string * json) :=
  let opt o := match o with Some s => JStr s | None => JNull end in
  [("action", JStr action); ("channel", JStr (mv_channel a)); ("package_id", JStr (mv_package_id a));
   ("reason", opt (mv_reason a)); ("target_version_id", JStr (mv_target_version_id a));
   ("workspace_id", opt (mv_workspace_id a))].

Section pipeline.
Context (request_digest : list (string * json) -> string).

Definition compute_request_hash (action : string) (a : move_args) : string :=
  request_digest (request_payload action a).

(** [get_idempotency_record]. *)
Definition get_idempotency_record (org_id key : string) (db : gateway_db) :
    result move_error (option idem_record) :=
  if String.eqb org_id "" || String.eqb key "" then Err (MVE_release RE_value)
  else Ok (dict_get (org_id, key) (gw_idem db)).

(** [insert_idempotency_record]: the unique fence raises. *)
Definition insert_idempotency_record (org_id key : string) (r : idem_record) (db : gateway_db) :
    result move_error gateway_db :=
  if dict_mem (org_id, key) (gw_idem db) then Err (MVE_release RE_integrity)
  else Ok (mk_gw (gw_release db) (dict_set (org_id, key) r (gw_idem db)) (gw_outbox db)).

Inductive idem_outcome : Type :=
| IO_replay (r : idem_record)
| IO_conflict
| IO_miss.

(** [resolve_idempotency_outcome]. *)
Definition resolve_idempotency_outcome (org_id key hash : string) (db : gateway_db) :
    result move_error idem_outcome :=
  let! record := get_idempotency_record org_id key db in
  match record with
  | None => Ok IO_miss
  | Some r => Ok (if String.eqb (idr_request_hash r) hash then IO_replay r else IO_conflict)
  end.

(** [count_idempotency_records]. *)
Definition count_idempotency_records (older_than : option Z) (db : gateway_db) : Z :=
  Z.of_nat (length (List.filter
    (fun p => match older_than with Some t => (idr_created_at p.2 <? t) | None => true end) (gw_idem db))).

(** [delete_idempotency_records_older_than]. *)
Definition delete_idempotency_records_older_than (cutoff : Z) (db : gateway_db) : Z * gateway_db :=
  (count_idempotency_records (Some cutoff) db,
   mk_gw (gw_release db) (List.filter (fun p => negb (idr_created_at p.2 <? cutoff)) (gw_idem db)) (gw_outbox db)).

Definition audit_action_of (action : string) : string :=
  if String.eqb action EVENT_ACTION_PROMOTE then "release.agent.published" else "release.agent.rolled_back".

(** The request as it reaches the pipeline. *)
Record move_request : Type := mk_request {
  rq_if_match : option string;
  rq_idempotency_key : option string;
  rq_body_expected : option Z;
  rq_args : Z -> move_args
}.

(** Move, audit and replay record: the transaction of step 3. *)
Definition move_and_store (action : string) (ids : move_ids) (a : move_args) (key : option string)
    (hash : string) (db : gateway_db) : result move_error (promote_response * gateway_db) :=
  match move_channel action ids a (gw_release db) with
  | Err e => Err (MVE_release e)
  | Ok (ch, ev, rel) =>
      let audit := mk_audit (audit_action_of action) (mv_org_id a) (ch_id ch) (mv_package_id a)
                     (mv_channel a) (ev_from_version_id ev) (ev_to_version_id ev) (ch_row_version ch)
                     (ev_action ev) in
      let db1 := mk_gw rel (gw_idem db) (gw_outbox db ++ [audit]) in
      match key with
      | None => Ok (ch, ev, db1)
      | Some k =>
          let! db2 := insert_idempotency_record (mv_org_id a) k (mk_idem hash (ch, ev) 200 (at_time ids)) db1 in
          Ok (ch, ev, db2)
      end
  end.

(** [_orchestrate_idempotent_move]: [seen] is the state the replay read sees,
    [db] the state when the rest of the transaction runs. *)
Definition orchestrate_idempotent_move (action : string) (ids : move_ids) (rq : move_request)
    (seen db : gateway_db) : result move_error promote_response * gateway_db :=
  match (let! v := resolve_expected_version (rq_if_match rq) (rq_body_expected rq) in
         let! k := read_idempotency_key (rq_idempotency_key rq) in Ok (v, k)) with
  | Err e => (Err e, db)
  | Ok (expected, key) =>
      let a := rq_args rq expected in
      let hash := compute_request_hash action a in
      let replay :=
        match key with
        | None => Ok None
        | Some k => get_idempotency_record (mv_org_id a) k seen
        end in
      match replay with
      | Err e => (Err e, db)
      | Ok (Some r) =>
          if String.eqb (idr_request_hash r) hash then (Ok (idr_response r), db)
          else (Err (MVE_idempotency_conflict (opt_or key "")), db)
      | Ok None =>
          match move_and_store action ids a key hash db with
          | Ok (resp, db') => (Ok resp, db')
          | Err (MVE_release RE_integrity) =>
              match key with
              | None => (Err (MVE_release RE_integrity), db)
              | Some k =>
                  match resolve_idempotency_outcome (mv_org_id a) k hash db with
                  | Err e => (Err e, db)
                  | Ok (IO_replay r) => (Ok (idr_response r), db)
                  | Ok IO_conflict => (Err (MVE_idempotency_conflict k), db)
                  | Ok IO_miss => (Err MVE_race_retry, db)
                  end
              end
          | Err e => (Err e, db)
          end
      end
  end.

(** One request at a time. *)
Definition handle_move (action : string) (ids : move_ids) (rq : move_request) (db : gateway_db) :
    result move_error promote_response * gateway_db :=
  orchestrate_idempotent_move action ids rq db db.

(** Commits of the gateway between two requests: other moves, and sweeps that
    keep the records younger than their cutoff. *)
Inductive gw_step (kept : string * string) : gateway_db -> gateway_db -> Prop :=
| gs_move act ids rq db res db' : handle_move act ids rq db = (res, db') -> gw_step kept db db'
| gs_gc cutoff db : (forall r, dict_get kept (gw_idem db) = Some r -> cutoff <= idr_created_at r) ->
    gw_step kept db (delete_idempotency_records_older_than cutoff db).2
| gs_release rel db : gw_step kept db (mk_gw rel (gw_idem db) (gw_outbox db)).
End pipeline.

(** * Lemmas *)

Lemma get_record_Ok org k db : org <> "" -> k <> "" ->
  get_idempotency_record org k db = Ok (dict_get (org, k) (gw_idem db)).
Proof.
  intros Ho Hk. unfold get_idempotency_record.
  by rewrite (proj2 (String.eqb_neq _ _) Ho), (proj2 (String.eqb_neq _ _) Hk).
Qed.

Lemma string_of_list_nonempty l : l <> [] -> String.string_of_list_ascii l <> "".
Proof. by destruct l. Qed.

Lemma read_key_nonempty raw k : read_idempotency_key raw = Ok (Some k) -> k <> "".
Proof.
  unfold read_idempotency_key. destruct raw as [t|]; [|done]. case_bool_decide as E; [done|].
  case_match; [done|]. intros [= <-]. by apply string_of_list_nonempty.
Qed.

Section lemmas.
Context (digest : list (string * json) -> string).

Lemma insert_record_Ok org k r db db' :
  insert_idempotency_record org k r db = Ok db' ->
  dict_get (org, k) (gw_idem db) = None
  /\ db' = mk_gw (gw_release db) (dict_set (org, k) r (gw_idem db)) (gw_outbox db).
Proof using.
  unfold insert_idempotency_record, dict_mem. destruct (dict_get (org, k) (gw_idem db)); [done|].
  by intros [= <-].
Qed.

(** What a committed move wrote. *)
Lemma move_and_store_Ok act ids a key hash db resp db' :
  move_and_store act ids a key hash db = Ok (resp, db') ->
  exists rel, move_channel act ids a (gw_release db) = Ok (resp.1, resp.2, rel)
  /\ gw_release db' = rel
  /\ gw_outbox db' = gw_outbox db
       ++ [mk_audit (audit_action_of act) (mv_org_id a) (ch_id resp.1) (mv_package_id a) (mv_channel a)
             (ev_from_version_id resp.2) (ev_to_version_id resp.2) (ch_row_version resp.1) (ev_action resp.2)]
  /\ match key with
     | None => gw_idem db' = gw_idem db
     | Some k => dict_get (mv_org_id a, k) (gw_idem db) = None
         /\ gw_idem db' = dict_set (mv_org_id a, k) (mk_idem hash resp 200 (at_time ids)) (gw_idem db)
     end.
Proof using.
  unfold move_and_store. destruct (move_channel act ids a (gw_release db)) as [[[ch ev] rel]|e]; [|done].
  destruct key as [k|].
  - destruct (insert_idempotency_record _ _ _ _) as [db2|e] eqn:Hi; [|done]. simpl. intros [= <- <-].
    apply insert_record_Ok in Hi as [Hn ->]. by exists rel.
  - intros [= <- <-]. by exists rel.
Qed.

(** A key that already has a record admits no second commit. *)
Lemma move_and_store_fenced act ids a k hash db r :
  dict_get (mv_org_id a, k) (gw_idem db) = Some r ->
  is_ok (move_and_store act ids a (Some k) hash db) = false.
Proof using.
  intros Hr. destruct (move_and_store _ _ _ _ _ _) as [[resp db']|e] eqn:Hm; [|done].
  apply move_and_store_Ok in Hm as (rel & _ & _ & _ & Hn & _). congruence.
Qed.

(** Every request leaves the records of other keys, and of its own key when
    there is one, as they are. *)
Lemma orchestrate_keeps_record act ids rq seen db res db' o k r :
  orchestrate_idempotent_move digest act ids rq seen db = (res, db') ->
  dict_get (o, k) (gw_idem db) = Some r -> dict_get (o, k) (gw_idem db') = Some r.
Proof using.
  unfold orchestrate_idempotent_move. intros Ho Hr.
  destruct (let! v := _ in _) as [[ex key]|e]; [|by simplify_eq].
  destruct (match key with None => _ | Some k0 => _ end) as [[r0|]|e]; [| |by simplify_eq].
  { by case_match; simplify_eq. }
  destruct (move_and_store _ _ _ _ _ _) as [[resp db2]|e] eqn:Hm.
  - injection Ho as <- <-. apply move_and_store_Ok in Hm as (rel & _ & _ & _ & Hk).
    destruct key as [k0|]; [|by rewrite Hk]. destruct Hk as [Hn ->].
    rewrite dict_get_set. case_decide as E; [congruence|done].
  - by repeat case_match; simplify_eq.
Qed.

Lemma filter_keeps_get (p : (string * string) * idem_record -> bool) kk r (d : list (string * string * idem_record)) :
  dict_get kk d = Some r -> p (kk, r) = true -> dict_get kk (List.filter p d) = Some r.
Proof using.
  induction d as [|[k v] d IH]; [done|]. simpl. case_decide as E.
  - intros [= ->] Hp. subst. rewrite Hp. simpl. by rewrite decide_True.
  - intros Hg Hp. destruct (p (k, v)); simpl; [rewrite decide_False by done|]; auto.
Qed.

Lemma gw_step_keeps_record kept db db' r :
  gw_step digest kept db db' -> dict_get kept (gw_idem db) = Some r -> dict_get kept (gw_idem db') = Some r.
Proof using.
  destruct 1 as [act ids rq db res db' Hm|cutoff db Hc|rel db]; intros Hr; [|simpl|done].
  - destruct kept as [o k]. by eapply orchestrate_keeps_record.
  - apply filter_keeps_get; [done|]. simpl. apply negb_true_iff, Z.ltb_ge. by apply Hc.
Qed.

(** A request whose key has a record: replay or conflict, no effect. *)
Lemma orchestrate_with_record act ids rq seen db ex k r :
  resolve_expected_version (rq_if_match rq) (rq_body_expected rq) = Ok ex ->
  read_idempotency_key (rq_idempotency_key rq) = Ok (Some k) ->
  mv_org_id (rq_args rq ex) <> "" ->
  dict_get (mv_org_id (rq_args rq ex), k) (gw_idem seen) = Some r ->
  orchestrate_idempotent_move digest act ids rq seen db
  = (if String.eqb (idr_request_hash r) (compute_request_hash digest act (rq_args rq ex))
     then Ok (idr_response r) else Err (MVE_idempotency_conflict k), db).
Proof using.
  intros Hex Hk Ho Hr. unfold orchestrate_idempotent_move. rewrite Hex, Hk. simpl.
  rewrite get_record_Ok by eauto using read_key_nonempty. rewrite Hr. by case_match.
Qed.
End lemmas.

(** ** Decimal text *)

Lemma digit_char n : 0 <= n < 10 -> ascii_z (ascii_of_N (Z.to_N (48 + n))) = 48 + n.
Proof.
  intros Hn. unfold ascii_z. rewrite N_ascii_embedding; lia.
Qed.

Lemma is_digit_char n : 0 <= n < 10 -> is_digit (ascii_of_N (Z.to_N (48 + n))) = true.
Proof.
  intros Hn. unfold is_digit. rewrite digit_char by done.
  apply andb_true_iff. split; apply Z.leb_le; lia.
Qed.

Lemma parse_digits_app l1 l2 acc b acc' :
  parse_digits acc b l1 = Some acc' -> parse_digits acc b (l1 ++ l2) = parse_digits acc' true l2.
Proof.
  revert acc b. induction l1 as [|c l1 IH]; intros acc b; simpl; [by destruct b; intros [= ->]|].
  repeat case_match; eauto; done.
Qed.

Lemma digits_of_spec fuel n :
  1 <= n < 2 ^ (Z.of_nat fuel + 1) ->
  parse_digits 0 false (digits_of fuel n) = Some n
  /\ Forall (fun c => is_digit c = true) (digits_of fuel n) /\ digits_of fuel n <> []
  /\ (length (digits_of fuel n) <= Datatypes.S fuel)%nat.
Proof.
  revert n. induction fuel as [|fuel IH]; intros n Hn.
  - assert (n = 1) as -> by (change (2 ^ (Z.of_nat 0 + 1)) with 2 in Hn; lia). by repeat constructor.
  - cbn [digits_of]. destruct (Z.ltb_spec n 10) as [Hlt|Hge].
    + rewrite Z.mod_small by lia. simpl. rewrite is_digit_char, digit_char by lia.
      split; [f_equal; lia|]. split; [|split; [done|lia]]. constructor; [by rewrite is_digit_char by lia|constructor].
    + pose proof (Z.mod_pos_bound n 10 ltac:(lia)) as Hm. pose proof (Z.div_mod n 10 ltac:(lia)) as Hd.
      assert (2 ^ (Z.of_nat (Datatypes.S fuel) + 1) = 2 * 2 ^ (Z.of_nat fuel + 1)) as Hpow.
      { rewrite <-Z.pow_succ_r by lia. f_equal. lia. }
      destruct (IH (n / 10)) as (H1 & H2 & H3 & H4).
      { split; [apply Z.div_le_lower_bound; lia|]. apply Z.div_lt_upper_bound; lia. }
      split; [|split; [|split]].
      * rewrite (parse_digits_app _ _ _ _ _ H1). simpl. rewrite is_digit_char, digit_char by lia. f_equal. lia.
      * apply Forall_app. split; [done|]. constructor; [by rewrite is_digit_char by lia|constructor].
      * by destruct (digits_of fuel (n / 10)).
      * rewrite length_app. simpl. lia.
Qed.

Lemma drop_while_none p c l : p c = false -> drop_while p (c :: l) = c :: l.
Proof. simpl. by intros ->. Qed.

(** Stripping stops at both ends at a character to keep. *)
Lemma strip_by_ends p l :
  (forall c, c ∈ l -> p c = false) -> strip_by p l = l.
Proof.
  intros Hp. unfold strip_by.
  assert (forall l', (forall c, c ∈ l' -> p c = false) -> drop_while p l' = l') as Hd.
  { intros [|c l'] Hl; [done|]. apply drop_while_none, Hl. by left. }
  rewrite (Hd l Hp), (Hd (rev l)); [apply rev_involutive|].
  intros c Hc. apply Hp. by rewrite list_elem_of_In, <-in_rev, <-list_elem_of_In in Hc.
Qed.

Lemma digit_not p c : is_digit c = true -> (forall z, 48 <= z <= 57 -> ascii_z c = z -> p c = false) -> p c = false.
Proof.
  intros Hd Hp. unfold is_digit in Hd. apply andb_true_iff in Hd as [?%Z.leb_le ?%Z.leb_le].
  eapply Hp; [|done]. lia.
Qed.

Lemma digit_not_space c : is_digit c = true -> is_space c = false.
Proof.
  intros Hd. apply (digit_not is_space c Hd). intros z Hz E. unfold is_space. rewrite E.
  rewrite !orb_false_iff, !andb_false_iff, !Z.leb_gt, !Z.eqb_neq. lia.
Qed.

Lemma digit_not_quote c : is_digit c = true -> is_quote c = false.
Proof.
  intros Hd. apply (digit_not is_quote c Hd). intros z Hz E. unfold is_quote. rewrite E. apply Z.eqb_neq. lia.
Qed.

Lemma strip_quotes ds :
  ds <> [] -> Forall (fun c => is_digit c = true) ds ->
  strip_by is_quote (["034"%char] ++ ds ++ ["034"%char]) = ds.
Proof.
  intros Hne Hd. rewrite Forall_forall in Hd.
  assert (forall l, l <> [] -> (forall c, c ∈ l -> is_digit c = true) -> forall t, drop_while is_quote (l ++ t) = l ++ t) as Hdw.
  { intros [|c l] Hn Hl t; [done|]. apply drop_while_none, digit_not_quote, Hl. by left. }
  unfold strip_by. simpl. rewrite Hdw by done. rewrite rev_app_distr. simpl.
  rewrite <-(app_nil_r (rev ds)), Hdw, app_nil_r; [apply rev_involutive| |].
  - intros E. apply Hne. by rewrite <-(rev_involutive ds), E.
  - intros c Hc. apply Hd. by rewrite list_elem_of_In, <-in_rev, <-list_elem_of_In in Hc.
Qed.

Lemma parse_int_digits ds n :
  Forall (fun c => is_digit c = true) ds -> (length ds <= 4300)%nat ->
  parse_digits 0 false ds = Some n -> parse_int ds = Some n.
Proof.
  intros Hd Hl Hp. unfold parse_int. rewrite (proj2 (Z.ltb_ge _ _)).
  2: { pose proof (filter_length_le is_digit ds). lia. }
  destruct ds as [|c ds]; [done|]. inversion_clear Hd as [|? ? Hc _].
  unfold is_digit in Hc. apply andb_true_iff in Hc as [?%Z.leb_le ?%Z.leb_le].
  rewrite (proj2 (Z.eqb_neq _ _)) by lia. rewrite (proj2 (Z.eqb_neq _ _)) by lia. done.
Qed.

(** * Properties *)

(** ETag round trip.  The header value the service emits for a channel
    version, echoed back as [If-Match], is parsed to that version, for every
    version a 64-bit column can hold. *)
Theorem etag_if_match_round_trip (n : Z) :
  1 <= n < 2 ^ 63 -> parse_if_match (Some (etag n)) = Ok (Some n).
Proof.
  intros Hn. set (fuel := Z.to_nat (Z.log2 n)).
  assert (Z.of_nat fuel = Z.log2 n) as Hf by (subst fuel; pose proof (Z.log2_nonneg n); lia).
  assert (Z.log2 n < 63) as Hlog by (apply Z.log2_lt_pow2; lia).
  destruct (digits_of_spec fuel n) as (H1 & H2 & H3 & H4).
  { rewrite Hf. pose proof (Z.log2_spec n ltac:(lia)) as [_ ?]. rewrite Z.add_1_r. lia. }
  unfold parse_if_match, etag. fold fuel. rewrite String.list_ascii_of_string_of_list_ascii.
  rewrite (strip_by_ends is_space (_ ++ _ ++ _)).
  - rewrite strip_quotes by done. rewrite strip_by_ends.
    + rewrite (parse_int_digits _ n); [|done|lia|done]. by rewrite (proj2 (Z.ltb_ge _ _)) by lia.
    + intros c Hc. rewrite Forall_forall in H2. by apply digit_not_space, H2.
  - intros c Hc. rewrite Forall_forall in H2.
    apply elem_of_app in Hc as [Hc|[Hc|Hc]%elem_of_app].
    + by apply list_elem_of_singleton in Hc as ->.
    + by apply digit_not_space, H2.
    + by apply list_elem_of_singleton in Hc as ->.
Qed.

Lemma etag_if_match_round_trip_witness :
  1 <= 4711 < 2 ^ 63 /\ parse_if_match (Some (etag 4711)) = Ok (Some 4711).
Proof. assert (H : 1 <= 4711 < 2 ^ 63) by lia. exact (conj H (etag_if_match_round_trip 4711 H)). Defined.

(** (C8) Idempotent requests.  Once a promote or rollback with an
    idempotency key has committed, every later request of that Org with the
    same key is answered from the record as long as the sweeper keeps it: the
    same request gets the original response, a different one the conflict
    error, and in both cases nothing is moved, audited or stored again. *)
Theorem idempotent_replay (digest : list (string * json) -> string) (act act' : string)
    (ids ids' : move_ids) (rq rq' : move_request) (db db1 db2 : gateway_db) (ex ex' : Z) (k : string)
    (resp : promote_response) :
  resolve_expected_version (rq_if_match rq) (rq_body_expected rq) = Ok ex ->
  read_idempotency_key (rq_idempotency_key rq) = Ok (Some k) ->
  mv_org_id (rq_args rq ex) <> "" ->
  dict_get (mv_org_id (rq_args rq ex), k) (gw_idem db) = None ->
  handle_move digest act ids rq db = (Ok resp, db1) ->
  star (gw_step digest (mv_org_id (rq_args rq ex), k)) db1 db2 ->
  resolve_expected_version (rq_if_match rq') (rq_body_expected rq') = Ok ex' ->
  read_idempotency_key (rq_idempotency_key rq') = Ok (Some k) ->
  mv_org_id (rq_args rq' ex') = mv_org_id (rq_args rq ex) ->
  handle_move digest act' ids' rq' db2
  = (if String.eqb (compute_request_hash digest act (rq_args rq ex))
                   (compute_request_hash digest act' (rq_args rq' ex'))
     then Ok resp else Err (MVE_idempotency_conflict k), db2).
Proof.
  intros Hex Hk Ho Hn Hm Hst Hex' Hk' Horg.
  assert (exists r, dict_get (mv_org_id (rq_args rq ex), k) (gw_idem db1) = Some r /\ idr_response r = resp
            /\ idr_request_hash r = compute_request_hash digest act (rq_args rq ex)) as (r & Hr & Hresp & Hhash).
  { unfold handle_move, orchestrate_idempotent_move in Hm. rewrite Hex, Hk in Hm. simpl in Hm.
    rewrite get_record_Ok, Hn in Hm by eauto using read_key_nonempty.
    destruct (move_and_store _ _ _ _ _ _) as [[resp1 dbx]|e] eqn:Hms.
    - injection Hm as <- <-. apply move_and_store_Ok in Hms as (rel & _ & _ & _ & _ & ->).
      rewrite dict_get_set_eq. by eexists.
    - destruct e as [|?|[]|]; try done. unfold resolve_idempotency_outcome in Hm.
      rewrite get_record_Ok, Hn in Hm by eauto using read_key_nonempty. done. }
  assert (dict_get (mv_org_id (rq_args rq ex), k) (gw_idem db2) = Some r) as Hr2.
  { revert Hr. eapply (star_invariant (gw_step digest _)
      (fun d => dict_get (mv_org_id (rq_args rq ex), k) (gw_idem d) = Some r)); [|done].
    intros s s' Hs. by apply gw_step_keeps_record with (1 := Hs). }
  unfold handle_move. rewrite (orchestrate_with_record _ _ _ _ _ _ _ _ r Hex' Hk'); rewrite ?Horg; try done.
  by rewrite Hresp, Hhash.
Qed.

(** At most one commit per key, under races too.  If a record for the
    key is present when the transaction runs, then whatever the earlier
    replay read saw, the request commits nothing: it replays, conflicts or
    fails, and the tables are unchanged. *)
Theorem idempotency_fence (digest : list (string * json) -> string) (act : string) (ids : move_ids)
    (rq : move_request) (seen db db' : gateway_db) (ex : Z) (k : string) (r : idem_record)
    (res : result move_error promote_response) :
  resolve_expected_version (rq_if_match rq) (rq_body_expected rq) = Ok ex ->
  read_idempotency_key (rq_idempotency_key rq) = Ok (Some k) ->
  dict_get (mv_org_id (rq_args rq ex), k) (gw_idem db) = Some r ->
  orchestrate_idempotent_move digest act ids rq seen db = (res, db') -> db' = db.
Proof.
  intros Hex Hk Hr. unfold orchestrate_idempotent_move. rewrite Hex, Hk. simpl.
  destruct (get_idempotency_record _ k seen) as [[r0|]|e]; [by case_match; intros [= <- <-]| |by intros [= <- <-]].
  pose proof (move_and_store_fenced act ids _ k (compute_request_hash digest act (rq_args rq ex)) db r Hr) as Hf.
  destruct (move_and_store _ _ _ _ _ _) as [[resp dbx]|e]; [done|].
  repeat case_match; by intros [= <- <-].
Qed.

(** A committed move is recorded exactly once.  A request that changed
    the tables appended one event and one audit row saying the same, and its
    response is that event with the channel as it now stands. *)
Theorem committed_move_recorded_once (sha : string -> string) (digest : list (string * json) -> string)
    (act : string) (ids : move_ids) (rq : move_request) (db db' : gateway_db) (resp : promote_response) :
  release_inv sha (gw_release db) -> handle_move digest act ids rq db = (Ok resp, db') -> db' <> db ->
  db_events (gw_release db') = db_events (gw_release db) ++ [resp.2]
  /\ dict_get (ev_channel_id resp.2) (db_channels (gw_release db')) = Some resp.1
  /\ ch_current_version_id resp.1 = Some (ev_to_version_id resp.2)
  /\ gw_outbox db' = gw_outbox db
       ++ [mk_audit (audit_action_of act) (ch_org_id resp.1) (ch_id resp.1) (ch_package_id resp.1)
             (ch_channel resp.1) (ev_from_version_id resp.2) (ev_to_version_id resp.2)
             (ch_row_version resp.1) act].
Proof.
  unfold handle_move, orchestrate_idempotent_move. intros Hi Hm Hne.
  destruct (let! v := _ in _) as [[ex key]|e]; [|done].
  destruct (match key with None => _ | Some k0 => _ end) as [[r0|]|e]; [| |done].
  { case_match; by simplify_eq. }
  destruct (move_and_store _ _ _ _ _ _) as [[resp1 dbx]|e] eqn:Hms.
  2: { repeat case_match; by simplify_eq. }
  injection Hm as <- <-. apply move_and_store_Ok in Hms as (rel & Hmv & Hrel & Hout & _).
  apply move_channel_Ok in Hmv as (c & c0 & db1 & t & Hgc & _ & _ & _ & _ & Hc0 & _ & Hupd & Hev & Hdb).
  destruct (inv_get_or_create sha _ _ _ _ _ _ _ _ _ Hgc Hi) as (_ & Hc & _).
  rewrite Hc0 in Hc. injection Hc as ->. pose proof (get_or_create_owner _ _ _ _ _ _ _ _ _ Hgc) as (Ho & Hp & Hch).
  apply get_or_create_evolves in Hgc as (_ & _ & He).
  rewrite Hrel, Hout, Hdb, Hupd, Hev. simpl. rewrite He, Ho, Hp, Hch.
  split; [done|]. by rewrite dict_get_set_eq.
Qed.

(** ** Concrete requests *)

Definition demo_digest (l : list (string * json)) : string :=
  match dict_get "target_version_id" l with Some (JStr s) => s | _ => "" end.

Definition demo_request (target : string) (key : option string) (body : Z) : move_request :=
  mk_request None key (Some body) (demo_move target).

Definition demo_gw : gateway_db := mk_gw demo_release [] [].
Definition demo_gw1 : gateway_db :=
  (handle_move demo_digest EVENT_ACTION_PROMOTE (demo_ids "e1") (demo_request "v1" (Some " key ") 1) demo_gw).2.

Definition demo_resp : promote_response :=
  match (handle_move demo_digest EVENT_ACTION_PROMOTE (demo_ids "e1") (demo_request "v1" (Some " key ") 1) demo_gw).1 with
  | Ok r => r
  | Err _ => (mk_channel "" "" None "" "" None 0 None 0 0, mk_event "" "" "" None "" "" None None None 0)
  end.

Lemma idempotent_replay_witness :
  handle_move demo_digest EVENT_ACTION_PROMOTE (demo_ids "e2") (demo_request "v1" (Some "key") 7) demo_gw1
  = (Ok demo_resp, demo_gw1).
Proof.
  rewrite (idempotent_replay demo_digest EVENT_ACTION_PROMOTE EVENT_ACTION_PROMOTE (demo_ids "e1") (demo_ids "e2")
    (demo_request "v1" (Some " key ") 1) (demo_request "v1" (Some "key") 7) demo_gw demo_gw1 demo_gw1 1 7 "key" demo_resp);
    [reflexivity|reflexivity|reflexivity|done|reflexivity|vm_compute; reflexivity|apply star_refl|reflexivity|reflexivity|reflexivity].
Defined.

(** Both requests read before either committed. *)
Lemma idempotency_fence_witness :
  (orchestrate_idempotent_move demo_digest EVENT_ACTION_PROMOTE (demo_ids "e2")
     (demo_request "v2" (Some "key") 2) demo_gw demo_gw1).2 = demo_gw1.
Proof.
  eapply (idempotency_fence demo_digest EVENT_ACTION_PROMOTE (demo_ids "e2") (demo_request "v2" (Some "key") 2)
    demo_gw demo_gw1 _ 2 "key" (mk_idem "v1" demo_resp 200 10)); [reflexivity|reflexivity|vm_compute; reflexivity|].
  apply surjective_pairing.
Defined.

Lemma committed_move_recorded_once_witness :
  db_events (gw_release demo_gw1) = [demo_resp.2].
Proof.
  destruct (committed_move_recorded_once demo_sha demo_digest EVENT_ACTION_PROMOTE (demo_ids "e1")
    (demo_request "v1" (Some " key ") 1) demo_gw demo_gw1 demo_resp demo_release_inv) as (H & _).
  - vm_compute. reflexivity.
  - intros E. apply (f_equal (fun d => length (gw_idem d))) in E. vm_compute in E. discriminate E.
  - exact H.
Defined.

(** ** Deviation from the documentation *)

(** Two identical requests with one key, the second reading before the first
    commits: the second is told that its channel version is stale instead of
    being given the first one's response, because the pointer is compared
    before the record is inserted. *)
Example racing_duplicate_gets_conflict :
  (orchestrate_idempotent_move demo_digest EVENT_ACTION_PROMOTE (demo_ids "e2")
     (demo_request "v1" (Some "key") 1) demo_gw demo_gw1).1 = Err (MVE_release RE_conflict).
Proof. by vm_compute. Qed.

(** A content beyond the threshold under the inline object store is kept
    nowhere: no inline column, and the store returns nothing for its key. *)
Example large_content_lost_inline :
  exists row db, create_agent_version demo_sha "v3" "org" "p" "3.0.0" [] "large" None None 4 5 demo_release tt
                 = (Ok (row, db), tt)
    /\ ver_content_inline row = None
    /\ (os_get (compute_object_key "org" None "v3") tt).1 = Ok "".
Proof. do 2 eexists. split; [vm_compute; reflexivity|]. by vm_compute. Qed.
