(* ===== verification/Resolver.v ===== *)
(** * Release resolution

    [app/gateway/release_resolver.py]: [DbReleaseResolver.resolve], the read
    side of a run's pin.  An agent name and a channel resolve to an immutable
    reference through the package, the channel pointer and the version, with
    the production gate in between. *)
From S2P Require Import Prelude RunStore Release ReleaseProps.
Local Open Scope Z_scope.
Local Open Scope py_scope.

Definition CODE_RELEASE_NOT_FOUND : string := "release_not_found".
Definition CODE_RELEASE_NOT_PUBLISHED : string := "release_not_published".
Definition CODE_RELEASE_REVOKED : string := "release_revoked".
Definition CODE_RELEASE_TENANT_MISMATCH : string := "release_tenant_mismatch".

(** [ReleaseResolutionError] with its code, the [ValueError] of the
    repository reads, and the field validation of [ReleaseRef]. *)
Inductive resolve_error : Type :=
| RRE_code (code : string)
| RRE_repository (e : release_error)
| RRE_invalid_ref.

(** [ReleaseRef]. *)
Record release_ref : Type := mk_ref {
  ref_org_id : string;
  ref_workspace_id : option string;
  ref_package_id : string;
  ref_version_id : string;
  ref_agent_name : string;
  ref_version : string;
  ref_digest : string;
  ref_channel : string;
  ref_resolved_at : Z
}.

(** The [min_length] constraints of the reference. *)
Definition ref_valid (r : release_ref) : bool :=
  negb (str_in "" [ref_org_id r; ref_package_id r; ref_version_id r; ref_agent_name r; ref_version r; ref_digest r]).

Definition repository {A} (r : result release_error A) : result resolve_error A :=
  match r with Ok a => Ok a | Err e => Err (RRE_repository e) end.

Section resolver.
Context (sha256_hex : string -> string) (inline_digest_check : bool).

(** [_assert_prod_gate]. *)
Definition assert_prod_gate (v : version_row) : result resolve_error unit :=
  if String.eqb (ver_status v) VERSION_REVOKED then Err (RRE_code CODE_RELEASE_REVOKED)
  else if negb (String.eqb (ver_status v) VERSION_PUBLISHED) then Err (RRE_code CODE_RELEASE_NOT_PUBLISHED)
  else
    match ver_content_inline v with
    | Some c =>
        if inline_digest_check && negb (String.eqb (compute_artifact_digest sha256_hex c) (ver_digest v))
        then Err (RRE_code CODE_RELEASE_NOT_FOUND)
        else Ok tt
    | None => Ok tt
    end.

(** [resolve]; the tenant is its Org and workspace. *)
Definition resolve (tenant_org tenant_ws : option string) (agent_name channel : string) (now : Z)
    (db : release_db) : result resolve_error release_ref :=
  match tenant_org with
  | None => Err (RRE_code CODE_RELEASE_TENANT_MISMATCH)
  | Some org_id =>
      if String.eqb org_id "" then Err (RRE_code CODE_RELEASE_TENANT_MISMATCH)
      else
        let! pkg := repository (get_agent_package_by_name org_id agent_name db) in
        match pkg with
        | None => Err (RRE_code CODE_RELEASE_NOT_FOUND)
        | Some pkg =>
            let! ch := repository (get_channel org_id (pk_id pkg) channel tenant_ws db) in
            match ch ≫= ch_current_version_id with
            | None => Err (RRE_code CODE_RELEASE_NOT_FOUND)
            | Some vid =>
                let! ver := repository (get_agent_version vid org_id db) in
                match ver with
                | None => Err (RRE_code CODE_RELEASE_NOT_FOUND)
                | Some ver =>
                    let! _ := (if String.eqb channel CHANNEL_PROD then assert_prod_gate ver else Ok tt) in
                    let ref := mk_ref org_id tenant_ws (pk_id pkg) (ver_id ver) (pk_name pkg) (ver_version ver)
                                 (ver_digest ver) channel now in
                    if ref_valid ref then Ok ref else Err RRE_invalid_ref
                end
            end
        end
  end.
End resolver.

(** * Lemmas *)

Lemma require_org_ok org : org <> "" -> require_org org = Ok tt.
Proof. intros Ho. unfold require_org. by rewrite (proj2 (String.eqb_neq _ _) Ho). Qed.

Lemma resolve_path sha chk org ws name ch now db ref :
  resolve sha chk org ws name ch now db = Ok ref ->
  exists o pkg c vid v,
    org = Some o /\ pkg ∈ dict_values (db_packages db) /\ pk_org_id pkg = o /\ pk_name pkg = name
    /\ find_channel o (pk_id pkg) ch ws db = Some c /\ ch_current_version_id c = Some vid
    /\ dict_get vid (db_versions db) = Some v /\ ver_org_id v = o
    /\ (ch = CHANNEL_PROD -> assert_prod_gate sha chk v = Ok tt)
    /\ ref = mk_ref o ws (pk_id pkg) (ver_id v) name (ver_version v) (ver_digest v) ch now.
Proof.
  unfold resolve. destruct org as [o|]; [|done]. destruct (String.eqb_spec o "") as [|Ho]; [done|].
  unfold get_agent_package_by_name, get_channel, get_agent_version. rewrite !require_org_ok by done. simpl.
  destruct (List.find _ _) as [pkg|] eqn:Hp; [|done]. apply find_some in Hp as [Hin Hp].
  rewrite andb_true_iff, !String.eqb_eq in Hp. destruct Hp as [Hpo Hpn].
  destruct (assert_channel_allowed ch); [|done]. simpl.
  destruct (find_channel o (pk_id pkg) ch ws db) as [c|] eqn:Hc; [|done]. simpl.
  destruct (ch_current_version_id c) as [vid|] eqn:Hvid; [|done]. simpl.
  destruct (version_in_org vid o db) as [v|] eqn:Hv; [|done]. apply version_in_org_Some in Hv as [Hv Hvo].
  destruct (if String.eqb ch CHANNEL_PROD then _ else _) as [u|e] eqn:Hg; [|done]. simpl.
  destruct (ref_valid _); [|done]. intros [= <-]. exists o, pkg, c, vid, v. rewrite list_elem_of_In.
  split_and!; try done; [|by rewrite Hpn]. intros ->. rewrite String.eqb_refl in Hg. by destruct u.
Qed.

Lemma prod_gate_Ok sha chk v :
  assert_prod_gate sha chk v = Ok tt ->
  ver_status v = VERSION_PUBLISHED
  /\ (chk = true -> forall c, ver_content_inline v = Some c -> ver_digest v = compute_artifact_digest sha c).
Proof.
  unfold assert_prod_gate. destruct (String.eqb (ver_status v) VERSION_REVOKED); [done|].
  destruct (String.eqb_spec (ver_status v) VERSION_PUBLISHED) as [Hs|]; cbn [negb]; [|done].
  intros Hg. split; [done|]. intros -> c Hc. rewrite Hc in Hg.
  destruct (String.eqb_spec (compute_artifact_digest sha c) (ver_digest v)); [done|]. by rewrite andb_true_l in Hg.
Qed.

(** The tables after a committed move, as the resolver reads them. *)
Lemma move_state sha act ids a db c e db' :
  release_inv sha db -> move_channel act ids a db = Ok (c, e, db') ->
  db_packages db' = db_packages db /\ db_versions db' = db_versions db /\ mv_channel a ∈ ALLOWED_CHANNELS
  /\ find_channel (mv_org_id a) (mv_package_id a) (mv_channel a) (mv_workspace_id a) db' = Some c
  /\ ch_current_version_id c = Some (mv_target_version_id a)
  /\ exists t, dict_get (mv_target_version_id a) (db_versions db) = Some t /\ ver_org_id t = mv_org_id a
       /\ is_ok (assert_gate (mv_channel a) t (String.eqb act EVENT_ACTION_ROLLBACK)) = true.
Proof.
  intros Hi Hm. pose proof (inv_move _ _ _ _ _ _ _ _ Hm Hi) as Hi'.
  apply move_channel_Ok in Hm as (x & x0 & db1 & t & Hgc & Ht & Hto & _ & Hgate & Hx0 & _ & -> & _ & Hdb).
  pose proof (get_or_create_Ok _ _ _ _ _ _ _ _ _ Hgc) as [Hall Hcases].
  destruct (inv_get_or_create _ _ _ _ _ _ _ _ _ _ Hgc Hi) as (_ & Hx & Hxo & Hxp & Hxc & Hxw).
  rewrite Hx0 in Hx. injection Hx as ->. clear Hx0.
  pose proof (proj1 (proj2 (get_or_create_evolves _ _ _ _ _ _ _ _ _ Hgc))) as Hver.
  set (y := moved a (at_time ids) x) in *.
  assert (dict_get (ch_id x) (db_channels db') = Some y) as Hy by (rewrite Hdb; simpl; apply dict_get_set_eq).
  split; [rewrite Hdb; simpl; by destruct Hcases as [[_ ->]|(_ & _ & _ & ->)]|].
  split; [by rewrite Hdb|]. split; [done|]. split; [|split; [done|exists t; by rewrite <-Hver]].
  destruct (find_channel_key (mv_org_id a) (mv_package_id a) (mv_channel a) (mv_workspace_id a) db' _ _ Hy)
    as [z Hz]; [done..|].
  pose proof (find_channel_Some _ _ _ _ _ _ Hz) as (Hin & Hzo & Hzp & Hzc & Hzw).
  pose proof (inv_channel_get _ _ _ Hi' Hin) as Hz'.
  assert (ch_id z = ch_id x) as E by (eapply (ri_unique _ _ Hi'); [exact Hz'|exact Hy|simpl; congruence..]).
  rewrite E in Hz'. congruence.
Qed.

(** * Properties *)

(** Production resolves only published artifacts.  A reference resolved
    for the production channel names a version of the tenant's own Org that is
    published, not revoked and, when stored inline, whose bytes hash to the
    reference's digest; it is the version its channel points to, and the agent
    name is the requested one. *)
Theorem resolve_prod_published (sha : string -> string) (org ws : option string) (name : string) (now : Z)
    (db : release_db) (ref : release_ref) :
  release_inv sha db -> resolve sha true org ws name CHANNEL_PROD now db = Ok ref ->
  exists v c, org = Some (ref_org_id ref) /\ ref_agent_name ref = name /\ ref_workspace_id ref = ws
    /\ dict_get (ref_version_id ref) (db_versions db) = Some v
    /\ ver_org_id v = ref_org_id ref /\ ver_package_id v = ref_package_id ref
    /\ ver_status v = VERSION_PUBLISHED /\ ver_digest v = ref_digest ref
    /\ (forall b, ver_content_inline v = Some b -> ref_digest ref = compute_artifact_digest sha b)
    /\ find_channel (ref_org_id ref) (ref_package_id ref) CHANNEL_PROD ws db = Some c
    /\ ch_current_version_id c = Some (ref_version_id ref).
Proof.
  intros Hi (o & pkg & c & vid & v & -> & _ & _ & _ & Hc & Hcur & Hv & Hvo & Hg & ->)%resolve_path.
  destruct (prod_gate_Ok _ _ _ (Hg eq_refl)) as [Hs Hd]. exists v, c. simpl.
  pose proof (proj1 (ri_version _ _ Hi _ _ Hv)) as ->.
  pose proof (find_channel_Some _ _ _ _ _ _ Hc) as (Hin & Ho & Hp & _ & _).
  destruct (ri_channel _ _ Hi _ _ (inv_channel_get _ _ _ Hi Hin)) as (_ & _ & _ & _ & _ & Hcv).
  destruct (Hcv _ Hcur) as (v' & Hv' & _ & Hp' & _). rewrite Hv in Hv'. injection Hv' as <-.
  split_and!; try done; [congruence|by apply Hd].
Qed.

(** What is promoted is what is resolved.  After a committed promote or
    rollback, resolving the package's name on that channel for that tenant and
    workspace yields exactly the target version with its digest, on the
    production channel too. *)
Theorem move_then_resolve (sha : string -> string) (chk : bool) (act : string) (ids : move_ids)
    (a : move_args) (db db' : release_db) (pkg : package_row) (v : version_row) (c : channel_row)
    (e : event_row) (now : Z) :
  release_inv sha db -> mv_org_id a <> "" ->
  get_agent_package_by_name (mv_org_id a) (pk_name pkg) db = Ok (Some pkg) ->
  pk_id pkg = mv_package_id a -> dict_get (mv_target_version_id a) (db_versions db) = Some v ->
  ref_valid (mk_ref (mv_org_id a) (mv_workspace_id a) (pk_id pkg) (ver_id v) (pk_name pkg) (ver_version v)
               (ver_digest v) (mv_channel a) now) = true ->
  move_channel act ids a db = Ok (c, e, db') ->
  resolve sha chk (Some (mv_org_id a)) (mv_workspace_id a) (pk_name pkg) (mv_channel a) now db'
  = Ok (mk_ref (mv_org_id a) (mv_workspace_id a) (pk_id pkg) (mv_target_version_id a) (pk_name pkg)
          (ver_version v) (ver_digest v) (mv_channel a) now).
Proof.
  intros Hi Ho Hpkg Hpid Hv Hval Hm. pose proof (proj1 (ri_version _ _ Hi _ _ Hv)) as Hvid.
  destruct (move_state _ _ _ _ _ _ _ _ Hi Hm) as (Hpk & Hvs & Hall & Hf & Hcur & t & Ht & Hto & Hgate).
  rewrite <-Hpid in Hf. rewrite Hv in Ht. injection Ht as <-.
  unfold resolve. rewrite (proj2 (String.eqb_neq _ _) Ho).
  assert (get_agent_package_by_name (mv_org_id a) (pk_name pkg) db' = Ok (Some pkg)) as ->.
  { unfold get_agent_package_by_name in *. by rewrite Hpk. }
  simpl. unfold get_channel, get_agent_version, assert_channel_allowed. rewrite !require_org_ok by done. simpl.
  rewrite (proj2 (str_in_spec _ _) Hall). simpl. rewrite Hf. simpl. rewrite Hcur. unfold version_in_org.
  simpl. rewrite Hvs, Hv, Hto, String.eqb_refl. simpl.
  assert ((if String.eqb (mv_channel a) CHANNEL_PROD then assert_prod_gate sha chk v else Ok tt) = Ok tt) as ->.
  { destruct (String.eqb_spec (mv_channel a) CHANNEL_PROD) as [E|]; [|done]. rewrite E in Hgate.
    apply assert_gate_prod in Hgate. unfold assert_prod_gate. rewrite Hgate.
    change (String.eqb VERSION_PUBLISHED VERSION_REVOKED) with false.
    change (String.eqb VERSION_PUBLISHED VERSION_PUBLISHED) with true. cbn [negb].
    destruct (ver_content_inline v) as [b|] eqn:Hb; [|done].
    destruct (ri_version _ _ Hi _ _ Hv) as (_ & _ & _ & Hd). rewrite (proj1 (Hd b Hb)), String.eqb_refl.
    by rewrite andb_false_r. }
  simpl. rewrite Hval, Hvid. done.
Qed.

Lemma resolve_prod_published_witness :
  exists ref, resolve demo_sha true (Some "org") None "agent" CHANNEL_PROD 20 demo_promoted = Ok ref
    /\ exists v, dict_get (ref_version_id ref) (db_versions demo_promoted) = Some v /\ ver_status v = VERSION_PUBLISHED.
Proof.
  eexists. split; [vm_compute; reflexivity|].
  edestruct (resolve_prod_published demo_sha (Some "org") None "agent" 20 demo_promoted) as (v & c & H).
  - destruct (release_star_spec _ _ _ demo_promoted_reachable) as (_ & _ & Hi). apply Hi, demo_release_inv.
  - vm_compute. reflexivity.
  - exists v. destruct H as (_ & _ & _ & H1 & _ & _ & H2 & _). exact (conj H1 H2).
Defined.

Definition demo_package : package_row := mk_package "p" "org" None "agent" "Agent" None "active" None 0 0 1.

Lemma move_then_resolve_witness :
  resolve demo_sha true (Some "org") None "agent" CHANNEL_PROD 20 demo_promoted
  = Ok (mk_ref "org" None "p" "v1" "agent" "1.0.0" "sha256:one" CHANNEL_PROD 20).
Proof.
  destruct (dict_get "v1" (db_versions demo_release)) as [v|] eqn:E; [|vm_compute in E; discriminate E].
  assert (Hv : ver_id v = "v1" /\ ver_version v = "1.0.0" /\ ver_digest v = "sha256:one").
  { vm_compute in E. injection E as <-. done. }
  destruct Hv as (Hi & <- & <-).
  eapply (move_then_resolve demo_sha true EVENT_ACTION_PROMOTE (demo_ids "e1") (demo_move "v1" 1) demo_release
    demo_promoted demo_package v).
  - exact demo_release_inv.
  - done.
  - vm_compute. reflexivity.
  - reflexivity.
  - exact E.
  - vm_compute in E. injection E as <-. vm_compute. reflexivity.
  - vm_compute. reflexivity.
Defined.
