(* ===== verification/Outbox.v ===== *)
(** * The audit outbox

    [persistence/audit/outbox.py] (the queue), [persistence/audit/repository.py]
    (the append-only store) and [app/gateway/audit_worker.py] (the draining
    worker).  A database call that may raise takes its fault from the pass's
    [faults]; an exception of one call rolls that call back and nothing else.
    The two claim dialects have one effect, a statement-atomic claim.  The
    event codec (pydantic's JSON dump and validation) is a pair of parameters
    over a type [J] of serialised events.
    Instants are microseconds. *)
From S2P Require Import Prelude RunStore.
Local Open Scope Z_scope.

(** ** Events *)

(** [AuditEvent] with the flattened actor and resource of [_event_to_row]. *)
Record audit_event : Type := mk_audit_event {
  ae_event_id : string;
  ae_idempotency_key : string;
  ae_org_id : option string;
  ae_workspace_id : option string;
  ae_actor_type : string;
  ae_actor_id : string;
  ae_actor_user_id : option string;
  ae_actor_display_name : option string;
  ae_action : string;
  ae_outcome : string;
  ae_reason_code : option string;
  ae_resource : option (string * option string * string);
  ae_request_id : string;
  ae_trace_id : option string;
  ae_run_id : option string;
  ae_occurred_at : Z;
  ae_payload : list (string * json)
}.

Definition AUDIT_OUTCOMES : list string := ["success"; "denied"; "failure"].

Definition FORBIDDEN_PAYLOAD_KEYS : list string :=
  ["authorization_header"; "cookie"; "api_key"; "key_hash"; "oauth_token"; "connector_password";
   "full_prompt"; "full_model_response"; "full_file_content"; "signed_url_query"; "database_dsn"].

(** [_scrub_payload]. *)
Definition scrub_payload (p : list (string * json)) : list (string * json) :=
  List.filter (fun kv => negb (str_in kv.1 FORBIDDEN_PAYLOAD_KEYS)) p.

(** [_event_to_row]: the stored event, with its payload scrubbed, and its
    producer. *)
Record stored_event : Type := mk_stored_event {
  se_event : audit_event;
  se_producer : option string
}.

Definition event_to_row (e : audit_event) (producer : option string) : stored_event :=
  mk_stored_event
    (mk_audit_event (ae_event_id e) (ae_idempotency_key e) (ae_org_id e) (ae_workspace_id e) (ae_actor_type e)
       (ae_actor_id e) (ae_actor_user_id e) (ae_actor_display_name e) (ae_action e) (ae_outcome e)
       (ae_reason_code e) (ae_resource e) (ae_request_id e) (ae_trace_id e) (ae_run_id e) (ae_occurred_at e)
       (scrub_payload (ae_payload e)))
    producer.

Section outbox.
Context {J : Type} (encode : audit_event -> J) (decode : J -> option audit_event).

(** ** The tables *)

(** [AuditOutboxRow]. *)
Record outbox_row : Type := mk_outbox {
  ob_id : string;
  ob_event_id : string;
  ob_payload_json : J;
  ob_org_id : option string;
  ob_status : string;
  ob_attempts : Z;
  ob_available_at : Z;
  ob_created_at : Z;
  ob_updated_at : Z;
  ob_published_at : option Z;
  ob_last_error : option string;
  ob_owner_token : option string
}.

Record audit_db : Type := mk_adb {
  adb_outbox : list (string * outbox_row);
  adb_events : list (string * stored_event)
}.

Definition OUTBOX_PENDING : string := "pending".
Definition OUTBOX_PROCESSING : string := "processing".
Definition OUTBOX_PUBLISHED : string := "published".
Definition OUTBOX_DEAD_LETTER : string := "dead_letter".

Definition micro (seconds : Z) : Z := seconds * 1000000.
Definition BACKOFF_BASE_SECONDS : Z := 2.
Definition BACKOFF_MAX_SECONDS : Z := 300.
Definition DEAD_LETTER_THRESHOLD : Z := 10.
Definition STALE_PROCESSING_SECONDS : Z := 300.

Inductive audit_error : Type :=
| AE_integrity
| AE_value
| AE_database (message : string).

(** [_backoff_for]. *)
Definition backoff_for (attempts : Z) : Z :=
  if attempts <=? 0 then BACKOFF_BASE_SECONDS
  else Z.min (BACKOFF_BASE_SECONDS * 2 ^ (attempts - 1)) BACKOFF_MAX_SECONDS.

(** [_truncate_error] on the rendered text. *)
Definition truncate_error (rendered : string) : string := String.substring 0 512 rendered.

(** Assignments to one row. *)
Definition ob_set (status : string) (attempts available now : Z) (published : option Z)
    (error owner : option string) (r : outbox_row) : outbox_row :=
  mk_outbox (ob_id r) (ob_event_id r) (ob_payload_json r) (ob_org_id r) status attempts available
    (ob_created_at r) now published error owner.

Definition set_outbox (o : list (string * outbox_row)) (db : audit_db) : audit_db := mk_adb o (adb_events db).

(** Earliest first, ties by id. *)
Definition claim_order (a b : outbox_row) : bool :=
  key_leb (ob_available_at a, ob_id a) (ob_available_at b, ob_id b).

Definition claimable (now : Z) (r : outbox_row) : bool :=
  String.eqb (ob_status r) OUTBOX_PENDING && (ob_available_at r <=? now).

(** [enqueue_audit_outbox_in_session], also the body of
    [enqueue_audit_outbox]. *)
Definition enqueue_audit_outbox (id : string) (e : audit_event) (now : Z) (db : audit_db) :
    result audit_error (outbox_row * audit_db) :=
  if dict_mem id (adb_outbox db)
     || existsb (fun r => String.eqb (ob_event_id r) (ae_event_id e)) (dict_values (adb_outbox db))
  then Err AE_integrity
  else
    let row := mk_outbox id (ae_event_id e) (encode e) (ae_org_id e) OUTBOX_PENDING 0 now now now None None None in
    Ok (row, set_outbox (dict_set id row (adb_outbox db)) db).

(** [claim_audit_outbox]: the claimed rows as they are after the claim. *)
Definition claim_audit_outbox (batch_size : Z) (owner_token : string) (now : Z) (db : audit_db) :
    list outbox_row * audit_db :=
  if batch_size <=? 0 then ([], db)
  else
    let claimed := take (Z.to_nat batch_size)
                     (sort_by claim_order (List.filter (claimable now) (dict_values (adb_outbox db)))) in
    let flip r := ob_set OUTBOX_PROCESSING (ob_attempts r) (ob_available_at r) now (ob_published_at r)
                    (ob_last_error r) (Some owner_token) r in
    (flip <$> claimed,
     set_outbox (foldl (fun o r => dict_set (ob_id r) (flip r) o) (adb_outbox db) claimed) db).

(** [mark_outbox_published]. *)
Definition mark_outbox_published (row_id : string) (now : Z) (db : audit_db) : audit_db :=
  set_outbox (dict_alter (fun r => ob_set OUTBOX_PUBLISHED (ob_attempts r) (ob_available_at r) now (Some now)
                                     (ob_last_error r) None r) row_id (adb_outbox db)) db.

(** [mark_outbox_failed]. *)
Definition mark_outbox_failed (row_id error : string) (now : Z) (db : audit_db) :
    result audit_error (string * audit_db) :=
  match dict_get row_id (adb_outbox db) with
  | None => Err AE_value
  | Some r =>
      let attempts := ob_attempts r + 1 in
      let err := Some (truncate_error error) in
      if DEAD_LETTER_THRESHOLD <=? attempts
      then Ok (OUTBOX_DEAD_LETTER,
                set_outbox (dict_set row_id (ob_set OUTBOX_DEAD_LETTER attempts (ob_available_at r) now
                                               (ob_published_at r) err None r) (adb_outbox db)) db)
      else Ok (OUTBOX_PENDING,
                set_outbox (dict_set row_id (ob_set OUTBOX_PENDING attempts (now + micro (backoff_for attempts)) now
                                               (ob_published_at r) err None r) (adb_outbox db)) db)
  end.

(** [release_stale_processing]. *)
Definition is_stale (cutoff : Z) (r : outbox_row) : bool :=
  String.eqb (ob_status r) OUTBOX_PROCESSING && (ob_updated_at r <? cutoff).

Definition release_row (cutoff now : Z) (r : outbox_row) : outbox_row :=
  if is_stale cutoff r
  then ob_set OUTBOX_PENDING (ob_attempts r) (ob_available_at r) now (ob_published_at r) (ob_last_error r) None r
  else r.

Definition release_stale_processing (stale_after now : Z) (db : audit_db) : Z * audit_db :=
  let cutoff := now - micro stale_after in
  (Z.of_nat (length (List.filter (is_stale cutoff) (dict_values (adb_outbox db)))),
   set_outbox ((fun p => (p.1, release_row cutoff now p.2)) <$> adb_outbox db) db).

(** Backlog queries. *)
Definition count_pending (now : Z) (db : audit_db) : Z :=
  Z.of_nat (length (List.filter (claimable now) (dict_values (adb_outbox db)))).
Definition count_dead_letter (db : audit_db) : Z :=
  Z.of_nat (length (List.filter (fun r => String.eqb (ob_status r) OUTBOX_DEAD_LETTER) (dict_values (adb_outbox db)))).
Definition oldest_pending_age (now : Z) (db : audit_db) : Z :=
  match sort_by (fun a b => a <=? b) (ob_available_at <$> List.filter (claimable now) (dict_values (adb_outbox db))) with
  | [] => 0
  | oldest :: _ => Z.max 0 (now - oldest)
  end.

(** [insert_audit_event]. *)
Definition insert_audit_event (e : audit_event) (producer : option string) (db : audit_db) :
    result audit_error audit_db :=
  if negb (str_in (ae_outcome e) AUDIT_OUTCOMES) then Err AE_value
  else if dict_mem (ae_event_id e) (adb_events db) then Err AE_integrity
  else Ok (mk_adb (adb_outbox db) (dict_set (ae_event_id e) (event_to_row e producer) (adb_events db))).

(** [list_audit_events] for the filters on columns of the event. *)
Definition event_leb (a b : stored_event) : bool :=
  key_leb (ae_occurred_at (se_event a), ae_event_id (se_event a))
          (ae_occurred_at (se_event b), ae_event_id (se_event b)).

Definition list_audit_events (org_id : string) (matches : audit_event -> bool)
    (cursor : option (Z * string)) (limit : Z) (db : audit_db) : list stored_event :=
  let limit := if (limit <=? 0) || (100 <? limit) then 100 else limit in
  take (Z.to_nat limit)
    (sort_by event_leb
       (List.filter
          (fun s => bool_decide (ae_org_id (se_event s) = Some org_id) && matches (se_event s)
                    && match cursor with
                       | Some c => key_ltb c (ae_occurred_at (se_event s), ae_event_id (se_event s))
                       | None => true
                       end)
          (dict_values (adb_events db)))).

(** ** The worker *)

(** What raises during one pass. *)
Record faults : Type := mk_faults {
  flt_release : bool;
  flt_claim : bool;
  flt_insert : string -> option string;
  flt_mark_published : string -> option string;
  flt_mark_failed : string -> bool
}.

Definition no_faults : faults :=
  mk_faults false false (fun _ => None) (fun _ => None) (fun _ => false).

(** [_safe_mark_failed]. *)
Definition safe_mark_failed (flt : faults) (row_id error : string) (now : Z) (db : audit_db) : audit_db :=
  if flt_mark_failed flt row_id then db
  else match mark_outbox_failed row_id error now db with
       | Ok (_, db') => db'
       | Err _ => db
       end.

(** One iteration of the publishing loop: [true] when the row counts as
    published, an error when the exception escapes the pass. *)
Definition publish_row (flt : faults) (now : Z) (row : outbox_row) (db : audit_db) :
    result audit_error bool * audit_db :=
  match decode (ob_payload_json row) with
  | None => (Ok false, safe_mark_failed flt (ob_id row) "payload undecodable" now db)
  | Some e =>
      match flt_insert flt (ob_id row) with
      | Some message => (Ok false, safe_mark_failed flt (ob_id row) message now db)
      | None =>
          match insert_audit_event e (Some "audit-outbox-worker") db with
          | Ok db1 =>
              match flt_mark_published flt (ob_id row) with
              | None => (Ok true, mark_outbox_published (ob_id row) now db1)
              | Some message => (Ok false, safe_mark_failed flt (ob_id row) message now db1)
              end
          | Err AE_integrity =>
              match flt_mark_published flt (ob_id row) with
              | None => (Ok true, mark_outbox_published (ob_id row) now db)
              | Some message => (Err (AE_database message), db)
              end
          | Err _ => (Ok false, safe_mark_failed flt (ob_id row) "ValueError" now db)
          end
      end
  end.

Fixpoint publish_rows (flt : faults) (now : Z) (rows : list outbox_row) (published : Z) (db : audit_db) :
    result audit_error Z * audit_db :=
  match rows with
  | [] => (Ok published, db)
  | row :: rows' =>
      match publish_row flt now row db with
      | (Err e, db') => (Err e, db')
      | (Ok b, db') => publish_rows flt now rows' (if b then published + 1 else published) db'
      end
  end.

(** [drain_audit_outbox]. *)
Definition drain_audit_outbox (flt : faults) (owner_token : string) (batch_size now : Z) (db : audit_db) :
    result audit_error Z * audit_db :=
  let db1 := if flt_release flt then db else (release_stale_processing STALE_PROCESSING_SECONDS now db).2 in
  if flt_claim flt then (Ok 0, db1)
  else
    let '(claimed, db2) := claim_audit_outbox batch_size owner_token now db1 in
    publish_rows flt now claimed 0 db2.

(** ** Histories: any number of workers, interleaved call by call.  A worker
    holds rows it claimed earlier, and marks a row published only after the
    store has its event. *)
Inductive outbox_step : audit_db -> audit_db -> Prop :=
| os_enqueue id e now db r db' : enqueue_audit_outbox id e now db = Ok (r, db') -> outbox_step db db'
| os_claim n owner now db rows db' : claim_audit_outbox n owner now db = (rows, db') -> outbox_step db db'
| os_insert row e db db' :
    dict_get (ob_id row) (adb_outbox db) = Some row -> decode (ob_payload_json row) = Some e ->
    insert_audit_event e (Some "audit-outbox-worker") db = Ok db' -> outbox_step db db'
| os_published row e now db :
    dict_get (ob_id row) (adb_outbox db) = Some row -> decode (ob_payload_json row) = Some e ->
    is_Some (dict_get (ae_event_id e) (adb_events db)) ->
    outbox_step db (mark_outbox_published (ob_id row) now db)
| os_failed id err now db st db' : mark_outbox_failed id err now db = Ok (st, db') -> outbox_step db db'
| os_release s now db : outbox_step db (release_stale_processing s now db).2
| os_drain flt owner n now db res db' : drain_audit_outbox flt owner n now db = (res, db') -> outbox_step db db'.

(** The invariant of the queue and the store. *)
Record outbox_inv (db : audit_db) : Prop := {
  oi_wf : dict_wf (adb_outbox db);
  oi_row : forall id r, dict_get id (adb_outbox db) = Some r ->
    ob_id r = id
    /\ (exists e, ob_payload_json r = encode e /\ ae_event_id e = ob_event_id r)
    /\ 0 <= ob_attempts r
    /\ (ob_status r ∈ [OUTBOX_PENDING; OUTBOX_PROCESSING] -> ob_attempts r < DEAD_LETTER_THRESHOLD)
    /\ (ob_status r = OUTBOX_DEAD_LETTER -> DEAD_LETTER_THRESHOLD <= ob_attempts r)
    /\ (ob_status r = OUTBOX_PUBLISHED -> exists e, ob_payload_json r = encode e
          /\ dict_get (ob_event_id r) (adb_events db) = Some (event_to_row e (Some "audit-outbox-worker")));
  oi_unique : forall id1 id2 r1 r2,
    dict_get id1 (adb_outbox db) = Some r1 -> dict_get id2 (adb_outbox db) = Some r2 ->
    ob_event_id r1 = ob_event_id r2 -> id1 = id2;
  oi_events : forall eid s, dict_get eid (adb_events db) = Some s ->
    exists id r e, dict_get id (adb_outbox db) = Some r /\ ob_event_id r = eid /\ ob_payload_json r = encode e
      /\ s = event_to_row e (Some "audit-outbox-worker")
}.
End outbox.

(** * Lemmas *)

Lemma dict_get_fmap {V W} (f : V -> W) (k : string) (d : list (string * V)) :
  dict_get k ((fun p => (p.1, f p.2)) <$> d) = f <$> dict_get k d.
Proof. induction d as [|[k' v] d IH]; [done|]. csimpl. case_decide; [done|apply IH]. Qed.

Lemma dict_keys_fmap {V W} (f : V -> W) (d : list (string * V)) :
  dict_keys ((fun p => (p.1, f p.2)) <$> d) = dict_keys d.
Proof. unfold dict_keys. rewrite <-list_fmap_compose. by apply list_fmap_ext. Qed.

Lemma dict_set_keys_same {V} (k : string) (v w : V) (d : list (string * V)) :
  dict_get k d = Some w -> dict_keys (dict_set k v d) = dict_keys d.
Proof. intros Hk. rewrite dict_keys_set. unfold dict_mem. by rewrite Hk. Qed.

Section facts.
Context {J : Type} (encode : audit_event -> J) (decode : J -> option audit_event).
#[local] Notation outbox_row := (@outbox_row J).
#[local] Notation audit_db := (@audit_db J).
Hypothesis decode_encode : forall e, decode (encode e) = Some e.
Let inv := outbox_inv encode.

Definition row_ok (events : list (string * stored_event)) (id : string) (r : outbox_row) : Prop :=
  ob_id r = id
  /\ (exists e, ob_payload_json r = encode e /\ ae_event_id e = ob_event_id r)
  /\ 0 <= ob_attempts r
  /\ (ob_status r ∈ [OUTBOX_PENDING; OUTBOX_PROCESSING] -> ob_attempts r < DEAD_LETTER_THRESHOLD)
  /\ (ob_status r = OUTBOX_DEAD_LETTER -> DEAD_LETTER_THRESHOLD <= ob_attempts r)
  /\ (ob_status r = OUTBOX_PUBLISHED -> exists e, ob_payload_json r = encode e
        /\ dict_get (ob_event_id r) events = Some (event_to_row e (Some "audit-outbox-worker"))).

(** No row is lost and no payload changes. *)
Definition same_job (r r' : outbox_row) : Prop :=
  ob_id r' = ob_id r /\ ob_event_id r' = ob_event_id r /\ ob_payload_json r' = ob_payload_json r.

Definition keeps (db db' : audit_db) : Prop :=
  (forall id r, dict_get id (adb_outbox db) = Some r ->
     exists r', dict_get id (adb_outbox db') = Some r' /\ same_job r r')
  /\ (forall eid s, dict_get eid (adb_events db) = Some s -> dict_get eid (adb_events db') = Some s).

Lemma keeps_refl db : keeps db db.
Proof using. split; [|done]. intros id r Hr. exists r. by repeat split. Qed.

Lemma keeps_trans db1 db2 db3 : keeps db1 db2 -> keeps db2 db3 -> keeps db1 db3.
Proof using.
  intros [H1 E1] [H2 E2]. split; [|auto]. intros id r Hr. destruct (H1 id r Hr) as (r2 & Hr2 & ? & ? & ?).
  destruct (H2 id r2 Hr2) as (r3 & Hr3 & ? & ? & ?). exists r3. split; [done|]. split_and!; congruence.
Qed.

(** Rewriting rows in place. *)
Lemma inv_update db o :
  inv db -> dict_keys o = dict_keys (adb_outbox db) ->
  (forall id r r', dict_get id (adb_outbox db) = Some r -> dict_get id o = Some r' ->
     same_job r r' /\ row_ok (adb_events db) id r') ->
  inv (set_outbox o db) /\ keeps db (set_outbox o db).
Proof using.
  intros [Iw Ir Iu Ie] Hk Hrow.
  assert (forall id, is_Some (dict_get id o) <-> is_Some (dict_get id (adb_outbox db))) as Hdom.
  { intros id. rewrite <-!not_eq_None_Some, !dict_get_None, Hk. done. }
  assert (forall id r', dict_get id o = Some r' ->
    exists r, dict_get id (adb_outbox db) = Some r /\ same_job r r' /\ row_ok (adb_events db) id r') as Hback.
  { intros id r' Hr'. destruct (proj1 (Hdom id)) as [r Hr]; [by eauto|]. exists r. split; [done|]. eauto. }
  assert (forall id r, dict_get id (adb_outbox db) = Some r ->
    exists r', dict_get id o = Some r' /\ same_job r r') as Hforth.
  { intros id r Hr. destruct (proj2 (Hdom id)) as [r' Hr']; [by eauto|]. exists r'. split; [done|].
    by eapply Hrow. }
  split; [|by split]. split; cbn [set_outbox adb_outbox adb_events].
  - unfold dict_wf. by rewrite Hk.
  - intros id r' Hr'. by destruct (Hback id r' Hr') as (r & _ & _ & ?).
  - intros id1 id2 r1' r2' H1 H2 E. destruct (Hback _ _ H1) as (r1 & Hr1 & (_ & E1 & _) & _).
    destruct (Hback _ _ H2) as (r2 & Hr2 & (_ & E2 & _) & _). eapply Iu; [exact Hr1|exact Hr2|congruence].
  - intros eid s Hs. destruct (Ie eid s Hs) as (id & r & e & Hr & He & Hp & ->).
    destruct (Hforth id r Hr) as (r' & Hr' & _ & E1 & E2). exists id, r', e. split_and!; congruence.
Qed.

(** Rewriting one row. *)
Lemma inv_set_row db id r r' :
  inv db -> dict_get id (adb_outbox db) = Some r -> same_job r r' -> row_ok (adb_events db) id r' ->
  inv (set_outbox (dict_set id r' (adb_outbox db)) db) /\ keeps db (set_outbox (dict_set id r' (adb_outbox db)) db).
Proof using.
  intros Hi Hr Hj Hok. apply inv_update; [done|by eapply dict_set_keys_same|].
  intros k x x' Hx. rewrite dict_get_set. case_decide; subst.
  - intros [= <-]. by simplify_eq.
  - intros Hx'. simplify_eq. split; [by repeat split|]. by apply Hi.
Qed.

Lemma row_ok_set events id r st att av now pub err owner :
  row_ok events id r -> 0 <= att ->
  (st ∈ [OUTBOX_PENDING; OUTBOX_PROCESSING] -> att < DEAD_LETTER_THRESHOLD) ->
  (st = OUTBOX_DEAD_LETTER -> DEAD_LETTER_THRESHOLD <= att) ->
  (st = OUTBOX_PUBLISHED -> exists e, ob_payload_json r = encode e
     /\ dict_get (ob_event_id r) events = Some (event_to_row e (Some "audit-outbox-worker"))) ->
  row_ok events id (ob_set st att av now pub err owner r) /\ same_job r (ob_set st att av now pub err owner r).
Proof using. intros (?&?&?&?&?&?) ????. split; [by split_and!|by repeat split]. Qed.

Lemma mark_published_inv id now db r e :
  inv db -> dict_get id (adb_outbox db) = Some r -> ob_payload_json r = encode e ->
  is_Some (dict_get (ae_event_id e) (adb_events db)) ->
  inv (mark_outbox_published id now db) /\ keeps db (mark_outbox_published id now db).
Proof using decode_encode.
  intros Hi Hr Hp [s Hs]. unfold mark_outbox_published, dict_alter. rewrite Hr.
  pose proof (oi_row _ _ Hi _ _ Hr) as (Hid & (e0 & Hp0 & He0) & Hatt & _).
  assert (e0 = e) as -> by (rewrite Hp in Hp0; apply (f_equal decode) in Hp0; rewrite !decode_encode in Hp0; congruence).
  assert (dict_get (ob_event_id r) (adb_events db) = Some (event_to_row e (Some "audit-outbox-worker"))) as Hev.
  { rewrite <-He0, Hs. f_equal. destruct (oi_events _ _ Hi _ _ Hs) as (id' & r' & e' & Hr' & He' & Hp' & ->).
    assert (id' = id) as -> by (eapply (oi_unique _ _ Hi); [exact Hr'|exact Hr|congruence]).
    rewrite Hr in Hr'. injection Hr' as <-. f_equal.
    rewrite Hp in Hp'. apply (f_equal decode) in Hp'. rewrite !decode_encode in Hp'. congruence. }
  destruct (row_ok_set (adb_events db) id r OUTBOX_PUBLISHED (ob_attempts r) (ob_available_at r) now (Some now)
    (ob_last_error r) None (oi_row _ _ Hi _ _ Hr) Hatt) as [Hok' Hj].
  - intros Hc%str_in_spec. by vm_compute in Hc.
  - intros Hc. by vm_compute in Hc.
  - intros _. by exists e.
  - by apply (inv_set_row _ _ r).
Qed.

Lemma mark_failed_inv id err now db st db' :
  inv db -> mark_outbox_failed id err now db = Ok (st, db') -> inv db' /\ keeps db db'.
Proof using.
  intros Hi. unfold mark_outbox_failed. destruct (dict_get id (adb_outbox db)) as [r|] eqn:Hr; [|done].
  pose proof (oi_row _ _ Hi _ _ Hr) as Hok. pose proof (proj1 (proj2 (proj2 Hok))) as Hatt.
  destruct (Z.leb_spec DEAD_LETTER_THRESHOLD (ob_attempts r + 1)) as [Hd|Hd]; intros [= <- <-];
    apply (inv_set_row _ _ r); try done; apply row_ok_set; try done; try lia;
    first [intros Hc%str_in_spec|intros Hc]; by vm_compute in Hc.
Qed.

Lemma release_inv_keeps s now db :
  inv db -> inv (release_stale_processing s now db).2 /\ keeps db (release_stale_processing s now db).2.
Proof using.
  intros Hi. unfold release_stale_processing. cbn [snd].
  apply inv_update; [done|apply dict_keys_fmap|]. intros id r r' Hr. rewrite dict_get_fmap, Hr.
  intros [= <-]. pose proof (oi_row _ _ Hi _ _ Hr) as Hok. unfold release_row.
  destruct (is_stale (now - micro s) r) eqn:Hst; [|by split; [repeat split|]].
  unfold is_stale in Hst. apply andb_true_iff in Hst as [Hst%String.eqb_eq _].
  destruct Hok as (H1 & H2 & H3 & H4 & H5 & H6). apply and_comm, row_ok_set; try done.
  intros _. apply H4. rewrite Hst. by right; left.
Qed.

(** A loop rewriting rows found in the table. *)
Lemma fold_set_rows (f : outbox_row -> outbox_row) (l : list outbox_row) db :
  inv db -> (forall r, r ∈ l -> dict_get (ob_id r) (adb_outbox db) = Some r
               /\ same_job r (f r) /\ row_ok (adb_events db) (ob_id r) (f r)) ->
  NoDup (ob_id <$> l) ->
  let db' := set_outbox (foldl (fun o r => dict_set (ob_id r) (f r) o) (adb_outbox db) l) db in
  inv db' /\ keeps db db'
  /\ (forall r, r ∈ l -> dict_get (ob_id r) (adb_outbox db') = Some (f r))
  /\ (forall id, id ∉ ob_id <$> l -> dict_get id (adb_outbox db') = dict_get id (adb_outbox db)).
Proof using.
  cbv zeta. revert db. induction l as [|r l IH]; intros db Hi Hl Hnd.
  { destruct db. split; [done|]. split; [apply keeps_refl|]. split; [|done]. by intros r ?%elem_of_nil. }
  csimpl in Hnd. apply NoDup_cons in Hnd as [Hni Hnd]. destruct (Hl r) as (Hg & Hj & Hok); [by left|].
  destruct (inv_set_row db (ob_id r) r (f r) Hi Hg Hj Hok) as [Hi1 Hk1].
  destruct (IH _ Hi1) as (I1 & I2 & I3 & I4); [|done|].
  - intros x Hx. simpl. rewrite dict_get_set_ne; [apply Hl; by right|].
    intros E. apply Hni. rewrite E. by apply list_elem_of_fmap_2.
  - cbn [foldl]. cbn [set_outbox adb_outbox adb_events] in *. split; [done|].
    split; [by eapply keeps_trans|]. split.
    + intros x [->|Hx]%elem_of_cons; [|by apply I3]. rewrite I4 by done. apply dict_get_set_eq.
    + intros id Hid. csimpl in Hid. apply not_elem_of_cons in Hid as [Hne Hid].
      rewrite I4 by done. by apply dict_get_set_ne.
Qed.
(** ** Claiming *)

Definition flip (owner : string) (now : Z) (r : outbox_row) : outbox_row :=
  ob_set OUTBOX_PROCESSING (ob_attempts r) (ob_available_at r) now (ob_published_at r) (ob_last_error r)
    (Some owner) r.

(** The rows a claim picks, before the flip. *)
Definition claim_candidates (batch now : Z) (db : audit_db) : list outbox_row :=
  take (Z.to_nat batch) (sort_by claim_order (List.filter (claimable now) (dict_values (adb_outbox db)))).

Lemma candidates_elem batch now db r :
  inv db -> r ∈ claim_candidates batch now db ->
  dict_get (ob_id r) (adb_outbox db) = Some r /\ ob_status r = OUTBOX_PENDING /\ ob_available_at r <= now.
Proof using.
  intros Hi Hin. unfold claim_candidates in Hin. apply subseteq_take in Hin as Hn. rewrite sort_by_elem, list_elem_of_In, filter_In in Hn.
  destruct Hn as [Hn Hc]. rewrite <-list_elem_of_In in Hn. apply dict_values_elem in Hn as [k Hn].
  apply dict_get_elem in Hn; [|apply Hi]. rewrite (proj1 (oi_row _ _ Hi _ _ Hn)).
  unfold claimable in Hc. by apply andb_true_iff in Hc as [?%String.eqb_eq ?%Z.leb_le].
Qed.

Lemma values_nodup db : inv db -> NoDup (dict_values (adb_outbox db)).
Proof using.
  intros Hi. assert (ob_id <$> dict_values (adb_outbox db) = dict_keys (adb_outbox db)) as E.
  { unfold dict_values, dict_keys. rewrite <-list_fmap_compose. apply list_fmap_ext. intros i [k r] Hk. simpl.
    apply (oi_row _ _ Hi). apply dict_get_elem; [apply Hi|]. by eapply list_elem_of_lookup_2. }
  apply (NoDup_fmap_1 ob_id). rewrite E. apply Hi.
Qed.

Lemma candidates_nodup batch now db : inv db -> NoDup (ob_id <$> claim_candidates batch now db).
Proof using.
  intros Hi. apply NoDup_fmap_2_strong.
  - intros x y Hx%candidates_elem Hy%candidates_elem E; [|done..].
    destruct Hx as [Hx _], Hy as [Hy _]. rewrite E in Hx. congruence.
  - unfold claim_candidates. eapply sublist_NoDup; [|apply sublist_take]. rewrite sort_by_perm.
    apply NoDup_list_filter. by apply values_nodup.
Qed.

Lemma claim_spec batch owner now db rows db' :
  inv db -> claim_audit_outbox batch owner now db = (rows, db') ->
  inv db' /\ keeps db db' /\ adb_events db' = adb_events db
  /\ (forall r, r ∈ rows -> dict_get (ob_id r) (adb_outbox db') = Some r /\ ob_status r = OUTBOX_PROCESSING
        /\ exists r0, dict_get (ob_id r) (adb_outbox db) = Some r0 /\ ob_status r0 = OUTBOX_PENDING)
  /\ NoDup (ob_id <$> rows)
  /\ rows = (if batch <=? 0 then [] else flip owner now <$> claim_candidates batch now db)
  /\ (forall id, id ∉ ob_id <$> rows -> dict_get id (adb_outbox db') = dict_get id (adb_outbox db)).
Proof using.
  intros Hi. unfold claim_audit_outbox. destruct (Z.leb_spec batch 0).
  { intros [= <- <-]. split; [done|]. split; [apply keeps_refl|]. split; [done|].
    split; [by intros r ?%elem_of_nil|]. split; [apply NoDup_nil_2|by split]. }
  intros [= <- <-]. fold (flip owner now). fold (claim_candidates batch now db).
  destruct (fold_set_rows (flip owner now) (claim_candidates batch now db) db Hi) as (I1 & I2 & I3 & I4).
  - intros r Hr. destruct (candidates_elem _ _ _ _ Hi Hr) as (Hg & Hst & _). split; [done|].
    pose proof (oi_row _ _ Hi _ _ Hg) as Hok. destruct Hok as (H1 & H2 & H3 & H4 & H5 & H6).
    apply and_comm, row_ok_set; try done. intros _. apply H4. rewrite Hst. by left.
  - by apply candidates_nodup.
  - split; [done|]. split; [done|]. split; [done|]. split; [|split; [|split; [done|]]].
    + intros r (r0 & -> & Hr0)%list_elem_of_fmap. split; [exact (I3 r0 Hr0)|]. split; [done|].
      exists r0. by apply candidates_elem in Hr0 as (? & ? & _).
    + rewrite <-list_fmap_compose. by apply candidates_nodup.
    + intros id. rewrite <-list_fmap_compose. apply I4.
Qed.

(** ** Enqueueing and inserting *)

Lemma enqueue_inv id e now db r db' :
  inv db -> enqueue_audit_outbox encode id e now db = Ok (r, db') -> inv db' /\ keeps db db'.
Proof using.
  intros [Iw Ir Iu Ie]. unfold enqueue_audit_outbox, dict_mem.
  destruct (dict_get id (adb_outbox db)) eqn:Hid; [done|].
  destruct (existsb _ _) eqn:Hex; [done|]. simpl. intros [= <- <-].
  set (row := mk_outbox _ _ _ _ _ _ _ _ _ _ _ _).
  assert (forall k x, dict_get k (adb_outbox db) = Some x -> ob_event_id x <> ae_event_id e) as Hfresh.
  { intros k x Hx E. assert (existsb (fun r => String.eqb (ob_event_id r) (ae_event_id e))
      (dict_values (adb_outbox db)) = true) as Ht; [|congruence].
    apply existsb_exists. exists x. split; [|by apply String.eqb_eq].
    rewrite <-list_elem_of_In. apply list_elem_of_fmap. exists (k, x). split; [done|by apply dict_get_Some_elem]. }
  assert (forall k x, dict_get k (adb_outbox db) = Some x -> k <> id) as Hne by (intros; congruence).
  split.
  - split; cbn [set_outbox adb_outbox adb_events].
    + by apply dict_wf_set.
    + intros k x. rewrite dict_get_set. case_decide; [|apply Ir]. intros [= <-]. subst k.
      split; [done|]. split; [by exists e|]. split; [done|]. split; [done|].
      split; intros Hc; by vm_compute in Hc.
    + intros k1 k2 x1 x2. rewrite !dict_get_set. repeat case_decide; subst; try by eauto.
      * intros [= <-] H2 E. by destruct (Hfresh _ _ H2).
      * intros H1 [= <-] E. by destruct (Hfresh _ _ H1).
    + intros eid s Hs. destruct (Ie eid s Hs) as (k & x & e0 & Hx & ? & ? & ?).
      exists k, x, e0. rewrite dict_get_set_ne by (apply not_eq_sym; eauto). done.
  - split; [|done]. intros k x Hx. exists x. simpl. rewrite dict_get_set_ne by (apply not_eq_sym; eauto).
    by repeat split.
Qed.

Lemma insert_inv r e db db' :
  inv db -> dict_get (ob_id r) (adb_outbox db) = Some r -> decode (ob_payload_json r) = Some e ->
  insert_audit_event e (Some "audit-outbox-worker") db = Ok db' ->
  inv db' /\ keeps db db' /\ adb_outbox db' = adb_outbox db
  /\ dict_get (ae_event_id e) (adb_events db') = Some (event_to_row e (Some "audit-outbox-worker")).
Proof using decode_encode.
  intros [Iw Ir Iu Ie] Hr Hd. unfold insert_audit_event. destruct (negb _); [done|]. unfold dict_mem.
  destruct (dict_get (ae_event_id e) (adb_events db)) eqn:Hm; [done|]. intros [= <-].
  destruct (Ir _ _ Hr) as (_ & (e0 & Hp & He0) & _). rewrite Hp, decode_encode in Hd. injection Hd as ->.
  assert (forall k s, dict_get k (adb_events db) = Some s ->
    dict_get k (dict_set (ae_event_id e) (event_to_row e (Some "audit-outbox-worker")) (adb_events db)) = Some s) as Hold.
  { intros k s Hk. rewrite dict_get_set_ne; [done|congruence]. }
  split; [|split; [split; [|done]|split; [done|simpl; apply dict_get_set_eq]]].
  - split; cbn [adb_outbox adb_events]; [done| |done|].
    + intros k x Hx. destruct (Ir k x Hx) as (H1 & H2 & H3 & H4 & H5 & H6). split_and!; try done.
      intros Hp'. destruct (H6 Hp') as (e1 & E1 & E2). exists e1. split; [done|]. by apply Hold.
    + intros eid s. rewrite dict_get_set. case_decide as E; [|apply Ie]. intros [= <-]. subst eid.
      by exists (ob_id r), r, e.
  - intros k x Hx. exists x. by repeat split.
Qed.
(** ** The worker *)

Lemma safe_mark_failed_inv flt id err now db :
  inv db -> inv (safe_mark_failed flt id err now db) /\ keeps db (safe_mark_failed flt id err now db).
Proof using.
  intros Hi. unfold safe_mark_failed. destruct (flt_mark_failed flt id); [by split; [|apply keeps_refl]|].
  destruct (mark_outbox_failed id err now db) as [[st db']|e] eqn:Hm; [by eapply mark_failed_inv|].
  by split; [|apply keeps_refl].
Qed.

Lemma safe_mark_failed_frame flt id err now (db : audit_db) k :
  k <> id -> dict_get k (adb_outbox (safe_mark_failed flt id err now db)) = dict_get k (adb_outbox db).
Proof using.
  intros Hne. unfold safe_mark_failed, mark_outbox_failed. repeat case_match; simplify_eq; try done; simpl;
    by rewrite dict_get_set_ne.
Qed.

Lemma mark_published_frame id now (db : audit_db) k :
  k <> id -> dict_get k (adb_outbox (mark_outbox_published id now db)) = dict_get k (adb_outbox db).
Proof using. intros Hne. unfold mark_outbox_published. simpl. rewrite dict_get_alter. by case_decide. Qed.

(** The row the worker holds is the stored one, up to its status. *)
Definition holds (row : outbox_row) (db : audit_db) : Prop :=
  exists r, dict_get (ob_id row) (adb_outbox db) = Some r /\ same_job row r.

Lemma holds_keeps row db db' : holds row db -> keeps db db' -> holds row db'.
Proof using.
  intros (r & Hr & ? & ? & ?) [Hk _]. destruct (Hk _ _ Hr) as (r' & Hr' & ? & ? & ?).
  exists r'. split; [done|]. split_and!; congruence.
Qed.

Lemma publish_row_inv flt now row db res db' :
  inv db -> holds row db -> publish_row decode flt now row db = (res, db') -> inv db' /\ keeps db db'.
Proof using decode_encode.
  intros Hi (r & Hr & Hid & Hev & Hp). unfold publish_row.
  assert (forall err, inv (safe_mark_failed flt (ob_id row) err now db)
    /\ keeps db (safe_mark_failed flt (ob_id row) err now db)) as Hfail by (intros; by apply safe_mark_failed_inv).
  destruct (decode (ob_payload_json row)) as [e|] eqn:Hd; [|intros [= <- <-]; apply Hfail].
  destruct (flt_insert flt (ob_id row)); [intros [= <- <-]; apply Hfail|].
  rewrite <-Hp in Hd. rewrite <-Hid in Hr.
  assert (ob_payload_json r = encode e) as Henc.
  { destruct (oi_row _ _ Hi _ _ Hr) as (_ & (e0 & He0 & _) & _). rewrite He0, decode_encode in Hd. congruence. }
  destruct (insert_audit_event e _ db) as [db1|er] eqn:Hins.
  - destruct (insert_inv r e db db1 Hi Hr Hd Hins) as (Hi1 & Hk1 & Ho1 & Hev1).
    destruct (flt_mark_published flt (ob_id row)); intros [= <- <-].
    + destruct (safe_mark_failed_inv flt (ob_id row) s now db1 Hi1) as [? ?]. eauto using keeps_trans.
    + rewrite Hid in Hr. rewrite <-Ho1 in Hr.
      destruct (mark_published_inv (ob_id row) now db1 r e Hi1 Hr Henc) as [? ?]; [by eauto|].
      eauto using keeps_trans.
  - unfold insert_audit_event in Hins. destruct (negb _); simplify_eq; [intros [= <- <-]; apply Hfail|].
    unfold dict_mem in Hins. destruct (dict_get (ae_event_id e) (adb_events db)) eqn:Hm; simplify_eq.
    destruct (flt_mark_published flt (ob_id row)); intros [= <- <-]; [by split; [|apply keeps_refl]|].
    rewrite Hid in Hr. apply (mark_published_inv _ _ _ r e); eauto.
Qed.

Lemma publish_row_frame flt now row db res db' k :
  publish_row decode flt now row db = (res, db') -> k <> ob_id row ->
  dict_get k (adb_outbox db') = dict_get k (adb_outbox db).
Proof using.
  intros Hp Hne. unfold publish_row, insert_audit_event in Hp.
  repeat case_match; simplify_eq; try done;
    by rewrite ?safe_mark_failed_frame, ?mark_published_frame.
Qed.

Lemma publish_rows_inv flt now rows n db res db' :
  inv db -> (forall r, r ∈ rows -> holds r db) -> publish_rows decode flt now rows n db = (res, db') ->
  inv db' /\ keeps db db'.
Proof using decode_encode.
  revert n db. induction rows as [|row rows IH]; intros n db Hi Hh; simpl.
  { intros [= <- <-]. by split; [|apply keeps_refl]. }
  destruct (publish_row decode flt now row db) as [[b|e] db1] eqn:Hp;
    destruct (publish_row_inv _ _ _ _ _ _ Hi (Hh row ltac:(by left)) Hp) as [Hi1 Hk1].
  - intros Hr. destruct (fun Hh1 => IH _ db1 Hi1 Hh1 Hr) as [Hi2 Hk2]; [|eauto using keeps_trans].
    intros r Hin. eapply holds_keeps; [apply Hh; by right|done].
  - by intros [= <- <-].
Qed.

Lemma claimed_held batch owner now db rows db' r :
  inv db -> claim_audit_outbox batch owner now db = (rows, db') -> r ∈ rows -> holds r db'.
Proof using.
  intros Hi Hc Hr. destruct (claim_spec _ _ _ _ _ _ Hi Hc) as (_ & _ & _ & H4 & _).
  destruct (H4 r Hr) as (Hg & _). exists r. split; [done|by repeat split].
Qed.

Lemma drain_inv flt owner batch now db res db' :
  inv db -> drain_audit_outbox decode flt owner batch now db = (res, db') -> inv db' /\ keeps db db'.
Proof using decode_encode.
  intros Hi. unfold drain_audit_outbox.
  set (db1 := if flt_release flt then db else _).
  assert (inv db1 /\ keeps db db1) as [Hi1 Hk1].
  { subst db1. destruct (flt_release flt); [by split; [|apply keeps_refl]|by apply release_inv_keeps]. }
  destruct (flt_claim flt); [by intros [= <- <-]|].
  destruct (claim_audit_outbox batch owner now db1) as [rows db2] eqn:Hc. intros Hp.
  destruct (claim_spec _ _ _ _ _ _ Hi1 Hc) as (Hi2 & Hk2 & _).
  destruct (publish_rows_inv _ _ _ _ _ _ _ Hi2 (fun r Hr => claimed_held _ _ _ _ _ _ _ Hi1 Hc Hr) Hp) as [Hi3 Hk3].
  eauto using keeps_trans.
Qed.

Lemma outbox_step_inv db db' : outbox_step encode decode db db' -> inv db -> inv db' /\ keeps db db'.
Proof using decode_encode.
  destruct 1 as [id e now db r db' Hop|n owner now db rows db' Hop|row e db db' Hr Hd Hop|row e now db Hr Hd Hev
                |id err now db st db' Hop|s now db|flt owner n now db res db' Hop]; intros Hi.
  - by eapply enqueue_inv.
  - by destruct (claim_spec _ _ _ _ _ _ Hi Hop) as (? & ? & _).
  - by destruct (insert_inv _ _ _ _ Hi Hr Hd Hop) as (? & ? & _).
  - apply (mark_published_inv _ _ _ row e); try done.
    destruct (oi_row _ _ Hi _ _ Hr) as (_ & (e0 & He0 & _) & _). rewrite He0, decode_encode in Hd. congruence.
  - by eapply mark_failed_inv.
  - by apply release_inv_keeps.
  - by eapply drain_inv.
Qed.

Lemma outbox_star_inv db db' : star (outbox_step encode decode) db db' -> inv db -> inv db' /\ keeps db db'.
Proof using decode_encode.
  apply (star_relation_inv (outbox_step encode decode) inv keeps keeps_refl keeps_trans).
  intros s s' Hs Hi. by apply outbox_step_inv.
Qed.
(** ** A pass in which nothing raises *)

Definition valid_outcomes (db : audit_db) : Prop :=
  forall id r e, dict_get id (adb_outbox db) = Some r -> decode (ob_payload_json r) = Some e ->
    ae_outcome e ∈ AUDIT_OUTCOMES.

Lemma publish_row_ok now row db :
  inv db -> holds row db -> valid_outcomes db ->
  exists db', publish_row decode no_faults now row db = (Ok true, db')
    /\ exists r', dict_get (ob_id row) (adb_outbox db') = Some r' /\ ob_status r' = OUTBOX_PUBLISHED.
Proof using decode_encode.
  intros Hi (r & Hr & Hid & Hev & Hp) Hval. unfold publish_row.
  destruct (oi_row _ _ Hi _ _ Hr) as (_ & (e & He & _) & _).
  assert (decode (ob_payload_json row) = Some e) as Hd by (by rewrite <-Hp, He, decode_encode).
  rewrite Hd. simpl. unfold insert_audit_event.
  assert (str_in (ae_outcome e) AUDIT_OUTCOMES = true) as -> by (apply str_in_spec, (Hval _ r e Hr); congruence).
  simpl. unfold dict_mem.
  assert (forall d, adb_outbox d = adb_outbox db -> exists r',
    dict_get (ob_id row) (adb_outbox (mark_outbox_published (ob_id row) now d)) = Some r' /\ ob_status r' = OUTBOX_PUBLISHED) as Hm.
  { intros d Hd0. unfold mark_outbox_published. simpl. rewrite Hd0, dict_get_alter, decide_True, Hr by done. by eexists. }
  destruct (dict_get (ae_event_id e) (adb_events db)); eexists; (split; [done|]); by apply Hm.
Qed.

Lemma publish_row_valid flt now row db res db' :
  inv db -> holds row db -> publish_row decode flt now row db = (res, db') -> valid_outcomes db ->
  valid_outcomes db'.
Proof using decode_encode.
  intros Hi Hh Hp Hval id r e Hr Hd.
  destruct (publish_row_inv _ _ _ _ _ _ Hi Hh Hp) as [Hi' [Hk _]].
  destruct (dict_get id (adb_outbox db)) as [r0|] eqn:Hr0.
  - destruct (Hk id r0 Hr0) as (r1 & Hr1 & _ & _ & E). rewrite Hr in Hr1. injection Hr1 as <-.
    apply (Hval id r0 e Hr0). congruence.
  - exfalso. destruct (decide (id = ob_id row)) as [->|Hne].
    + destruct Hh as (x & Hx & _). congruence.
    + rewrite (publish_row_frame _ _ _ _ _ _ _ Hp Hne) in Hr. congruence.
Qed.

Lemma publish_rows_ok now rows n db :
  inv db -> (forall r, r ∈ rows -> holds r db) -> NoDup (ob_id <$> rows) -> valid_outcomes db ->
  exists db', publish_rows decode no_faults now rows n db = (Ok (n + Z.of_nat (length rows)), db')
    /\ (forall r, r ∈ rows -> exists r', dict_get (ob_id r) (adb_outbox db') = Some r' /\ ob_status r' = OUTBOX_PUBLISHED)
    /\ (forall k, k ∉ ob_id <$> rows -> dict_get k (adb_outbox db') = dict_get k (adb_outbox db)).
Proof using decode_encode.
  revert n db. induction rows as [|row rows IH]; intros n db Hi Hh Hnd Hval.
  { exists db. simpl. rewrite Z.add_0_r. split; [done|]. split; [by intros r ?%elem_of_nil|done]. }
  csimpl in Hnd. apply NoDup_cons in Hnd as [Hni Hnd].
  assert (holds row db) as Hrow by (apply Hh; by left).
  destruct (publish_row_ok now row db Hi Hrow Hval) as (db1 & Hp & r1 & Hr1 & Hst1).
  destruct (publish_row_inv _ _ _ _ _ _ Hi Hrow Hp) as [Hi1 Hk1].
  pose proof (publish_row_valid _ _ _ _ _ _ Hi Hrow Hp Hval) as Hval1.
  destruct (IH (n + 1) db1 Hi1) as (db2 & Hps & Hpub & Hframe); [|done|done|].
  { intros r Hin. eapply holds_keeps; [apply Hh; by right|done]. }
  exists db2. cbn [publish_rows length]. rewrite Hp, Hps. split; [do 2 f_equal; lia|]. split.
  - intros r [->|Hin]%elem_of_cons; [|by apply Hpub]. exists r1. by rewrite Hframe.
  - intros k Hk. csimpl in Hk. apply not_elem_of_cons in Hk as [Hne Hk]. rewrite Hframe by done.
    by apply (publish_row_frame _ _ _ _ _ _ _ Hp).
Qed.

Lemma release_valid s now db : valid_outcomes db -> valid_outcomes (release_stale_processing s now db).2.
Proof using.
  intros Hval id r e. unfold release_stale_processing. simpl. rewrite dict_get_fmap.
  destruct (dict_get id (adb_outbox db)) as [r0|] eqn:Hr0; [|done]. simpl. intros [= <-] Hd.
  apply (Hval id r0 e Hr0). unfold release_row in Hd. by destruct (is_stale _ _).
Qed.

Lemma claim_valid batch owner now db rows db' :
  inv db -> claim_audit_outbox batch owner now db = (rows, db') -> valid_outcomes db -> valid_outcomes db'.
Proof using.
  intros Hi Hc Hval id r e Hr Hd.
  destruct (claim_spec _ _ _ _ _ _ Hi Hc) as (_ & [Hk _] & _ & Hrows & _ & _ & Hframe).
  destruct (dict_get id (adb_outbox db)) as [r0|] eqn:Hr0.
  - destruct (Hk id r0 Hr0) as (r1 & Hr1 & _ & _ & E). rewrite Hr in Hr1. injection Hr1 as <-.
    apply (Hval id r0 e Hr0). congruence.
  - exfalso. rewrite Hframe in Hr; [congruence|]. intros (x & -> & Hx)%list_elem_of_fmap.
    destruct (Hrows x Hx) as (_ & _ & x0 & Hx0 & _). congruence.
Qed.
End facts.

Lemma backoff_for_bounds attempts :
  BACKOFF_BASE_SECONDS <= backoff_for attempts <= BACKOFF_MAX_SECONDS
  /\ backoff_for attempts <= backoff_for (attempts + 1)
  /\ (1 <= attempts <= 8 -> backoff_for attempts = 2 ^ attempts)
  /\ (9 <= attempts -> backoff_for attempts = BACKOFF_MAX_SECONDS).
Proof.
  unfold backoff_for, BACKOFF_BASE_SECONDS, BACKOFF_MAX_SECONDS.
  destruct (Z.leb_spec attempts 0) as [H0|H0].
  { split; [lia|]. split; [|split; lia]. case_match; [lia|]. assert (attempts = 0) as -> by (apply Z.leb_gt in H; lia). done. }
  rewrite (proj2 (Z.leb_gt _ _)) by lia. replace (attempts + 1 - 1) with (Z.succ (attempts - 1)) by lia.
  rewrite Z.pow_succ_r by lia. assert (0 < 2 ^ (attempts - 1)) by (apply Z.pow_pos_nonneg; lia).
  replace (2 ^ attempts) with (2 * 2 ^ (attempts - 1)) by (rewrite <-Z.pow_succ_r by lia; f_equal; lia).
  split; [lia|]. split; [lia|]. split; intros Hr.
  - assert (2 ^ (attempts - 1) <= 2 ^ 7) by (apply Z.pow_le_mono_r; lia).
    change (2 ^ 7) with 128 in *. lia.
  - assert (2 ^ 8 <= 2 ^ (attempts - 1)) by (apply Z.pow_le_mono_r; lia).
    change (2 ^ 8) with 256 in *. lia.
Qed.

(** * Properties *)

Definition adb_empty {J : Type} : audit_db (J := J) := mk_adb [] [].

Lemma adb_empty_inv {J : Type} (encode : audit_event -> J) : outbox_inv encode adb_empty.
Proof. split; try done. apply dict_wf_nil. Qed.

(** (C12) No audit event is lost or altered.  Over any interleaving of
    enqueues, claims, inserts, marks, failures, stale releases and whole
    worker passes: a row that says published has its event in the store,
    exactly as enqueued (payload scrubbed); every stored event came from an
    outbox row; rows and stored events never disappear; a row is dead-lettered
    after ten failures and not before. *)
Theorem outbox_delivery {J : Type} (encode : audit_event -> J) (decode : J -> option audit_event)
    (db db' : audit_db) (id : string) (r : outbox_row) :
  (forall e, decode (encode e) = Some e) ->
  star (outbox_step encode decode) adb_empty db -> star (outbox_step encode decode) db db' ->
  dict_get id (adb_outbox db) = Some r ->
  exists r' e, dict_get id (adb_outbox db') = Some r' /\ ob_payload_json r' = encode e
    /\ ob_payload_json r' = ob_payload_json r /\ ae_event_id e = ob_event_id r'
    /\ (ob_status r' = OUTBOX_PUBLISHED ->
        dict_get (ae_event_id e) (adb_events db') = Some (event_to_row e (Some "audit-outbox-worker")))
    /\ (ob_status r' ∈ [OUTBOX_PENDING; OUTBOX_PROCESSING] -> ob_attempts r' < DEAD_LETTER_THRESHOLD)
    /\ (ob_status r' = OUTBOX_DEAD_LETTER -> DEAD_LETTER_THRESHOLD <= ob_attempts r')
    /\ (forall eid s, dict_get eid (adb_events db) = Some s -> dict_get eid (adb_events db') = Some s)
    /\ (forall eid s, dict_get eid (adb_events db') = Some s ->
          exists id' r0 e0, dict_get id' (adb_outbox db') = Some r0 /\ ob_event_id r0 = eid
            /\ ob_payload_json r0 = encode e0 /\ s = event_to_row e0 (Some "audit-outbox-worker")).
Proof.
  intros Hde H1 H2 Hr. destruct (outbox_star_inv _ _ Hde _ _ H1 (adb_empty_inv encode)) as [Hi _].
  destruct (outbox_star_inv _ _ Hde _ _ H2 Hi) as [Hi' [Hk He]].
  destruct (Hk id r Hr) as (r' & Hr' & _ & Ev & Hp).
  destruct (oi_row _ _ Hi' _ _ Hr') as (_ & (e & Henc & Heid) & _ & Hlt & Hdl & Hpub).
  exists r', e. split_and!; try done; [|by apply (oi_events _ _ Hi')].
  intros Hst. destruct (Hpub Hst) as (e' & Henc' & Hev).
  rewrite Heid. assert (e' = e) as -> by (rewrite Henc in Henc'; apply (f_equal decode) in Henc'; rewrite !Hde in Henc'; congruence).
  done.
Qed.

(** Claims are disjoint.  Two claims with only enqueues and other
    claims in between never hand the same row to two workers. *)
Theorem claims_disjoint {J : Type} (encode : audit_event -> J) (n1 n2 now1 now2 : Z) (o1 o2 : string)
    (db db1 db2 db3 : audit_db) (rows1 rows2 : list outbox_row) :
  outbox_inv encode db -> claim_audit_outbox n1 o1 now1 db = (rows1, db1) ->
  star (fun d d' => (exists id e now r, enqueue_audit_outbox encode id e now d = Ok (r, d'))
                    \/ exists n o now rows, claim_audit_outbox n o now d = (rows, d')) db1 db2 ->
  claim_audit_outbox n2 o2 now2 db2 = (rows2, db3) ->
  forall id, id ∈ ob_id <$> rows1 -> id ∈ ob_id <$> rows2 -> False.
Proof.
  intros Hi Hc1 Hst Hc2 id (x & -> & Hx)%list_elem_of_fmap Hid2.
  destruct (claim_spec _ _ _ _ _ _ _ Hi Hc1) as (Hi1 & _ & _ & Hrows & _).
  destruct (Hrows x Hx) as (Hx1 & Hxs & _).
  assert (outbox_inv encode db2 /\ exists r, dict_get (ob_id x) (adb_outbox db2) = Some r /\ ob_status r = OUTBOX_PROCESSING)
    as [Hi2 (r & Hr & Hrs)].
  { refine (star_invariant _ (fun d => outbox_inv encode d /\
      exists r, dict_get (ob_id x) (adb_outbox d) = Some r /\ ob_status r = OUTBOX_PROCESSING) _ db1 db2 Hst _); [|by eauto].
    intros d d' [(k & e & now & y & Henq)|(n & o & now & rows & Hcl)] [Hd (r & Hr & Hrs)].
    - split; [by eapply enqueue_inv|]. exists r. split; [|done]. unfold enqueue_audit_outbox, dict_mem in Henq.
      destruct (dict_get k (adb_outbox d)) eqn:Hk; [done|]. simpl in Henq. case_match; [done|].
      injection Henq as <- <-. simpl. rewrite dict_get_set_ne by congruence. done.
    - destruct (claim_spec _ _ _ _ _ _ _ Hd Hcl) as (Hd' & _ & _ & Hrows' & _ & _ & Hframe).
      split; [done|]. exists r. split; [|done]. rewrite Hframe; [done|].
      intros (y & Ey & Hy)%list_elem_of_fmap. destruct (Hrows' y Hy) as (_ & _ & y0 & Hy0 & Hys).
      rewrite <-Ey, Hr in Hy0. simplify_eq. by rewrite Hrs in Hys. }
  apply list_elem_of_fmap in Hid2 as (y & Ey & Hy).
  destruct (claim_spec _ _ _ _ _ _ _ Hi2 Hc2) as (_ & _ & _ & Hrows2 & _).
  destruct (Hrows2 y Hy) as (_ & _ & y0 & Hy0 & Hys). rewrite <-Ey, Hr in Hy0. simplify_eq. by rewrite Hrs in Hys.
Qed.

(** A pass empties the backlog.  When nothing raises and the due rows
    fit the batch, a worker pass publishes all of them, returns their number
    and leaves no due row behind. *)
Theorem drain_empties_backlog {J : Type} (encode : audit_event -> J) (decode : J -> option audit_event)
    (owner : string) (batch now : Z) (db : audit_db) :
  (forall e, decode (encode e) = Some e) -> outbox_inv encode db -> valid_outcomes decode db ->
  0 < batch -> count_pending now (release_stale_processing STALE_PROCESSING_SECONDS now db).2 <= batch ->
  exists db', drain_audit_outbox decode no_faults owner batch now db
              = (Ok (count_pending now (release_stale_processing STALE_PROCESSING_SECONDS now db).2), db')
    /\ count_pending now db' = 0.
Proof.
  intros Hde Hi Hval Hb Hcnt. unfold drain_audit_outbox. cbn [flt_release flt_claim no_faults].
  set (db1 := (release_stale_processing _ now db).2) in *.
  destruct (release_inv_keeps _ STALE_PROCESSING_SECONDS now db Hi) as [Hi1 _].
  pose proof (release_valid decode STALE_PROCESSING_SECONDS now db Hval) as Hval1. fold db1 in Hi1, Hval1.
  destruct (claim_audit_outbox batch owner now db1) as [rows db2] eqn:Hc.
  destruct (claim_spec _ _ _ _ _ _ _ Hi1 Hc) as (Hi2 & _ & _ & _ & Hnd & Hrows & Hframe).
  destruct (publish_rows_ok encode decode Hde now rows 0 db2 Hi2) as (db3 & Hp & Hpub & Hframe3).
  - intros r Hr. exact (claimed_held _ _ _ _ _ _ _ _ Hi1 Hc Hr).
  - done.
  - exact (claim_valid _ _ _ _ _ _ _ _ Hi1 Hc Hval1).
  - rewrite (proj2 (Z.leb_gt batch 0)) in Hrows by lia.
    assert (claim_candidates batch now db1 = sort_by claim_order (List.filter (claimable now) (dict_values (adb_outbox db1)))) as Hall.
    { apply take_ge. rewrite sort_by_length. unfold count_pending in Hcnt. lia. }
    exists db3. split.
    + rewrite Hp. do 2 f_equal. rewrite Hrows, length_fmap, Hall, sort_by_length. unfold count_pending. lia.
    + unfold count_pending. rewrite filter_none; [done|]. apply Forall_forall. intros x Hx.
      destruct (publish_rows_inv encode decode Hde _ _ _ _ _ _ _ Hi2 (fun r Hr => claimed_held _ _ _ _ _ _ _ _ Hi1 Hc Hr) Hp) as [Hi3 _].
      apply dict_values_elem in Hx as [k Hx]. apply dict_get_elem in Hx; [|apply Hi3].
      destruct (decide (k ∈ ob_id <$> rows)) as [Hin|Hni].
      * apply list_elem_of_fmap in Hin as (y & -> & Hy). destruct (Hpub y Hy) as (r' & Hr' & Hst).
        simplify_eq. unfold claimable. by rewrite Hst.
      * rewrite Hframe3, Hframe in Hx by done. destruct (claimable now x) eqn:Hcl; [|done]. exfalso.
        apply Hni. rewrite Hrows, <-list_fmap_compose. apply list_elem_of_fmap. exists x.
        split; [simpl; by rewrite (proj1 (oi_row _ _ Hi1 _ _ Hx))|]. rewrite Hall, sort_by_elem, list_elem_of_In, filter_In.
        split; [|done]. rewrite <-list_elem_of_In. apply list_elem_of_fmap. exists (k, x).
        split; [done|by apply dict_get_Some_elem].
Qed.

(** Backoff.  The delay after the n-th failure doubles from two seconds,
    never falls as attempts grow and never exceeds five minutes; a row put
    back to pending by a failure is not claimable before its delay has passed. *)
Theorem backoff_bounds {J : Type} (attempts : Z) :
  BACKOFF_BASE_SECONDS <= backoff_for attempts <= BACKOFF_MAX_SECONDS
  /\ backoff_for attempts <= backoff_for (attempts + 1)
  /\ (1 <= attempts <= 8 -> backoff_for attempts = 2 ^ attempts)
  /\ (9 <= attempts -> backoff_for attempts = BACKOFF_MAX_SECONDS)
  /\ (forall id err now (db db' : audit_db (J := J)) r t, mark_outbox_failed id err now db = Ok (OUTBOX_PENDING, db') ->
        dict_get id (adb_outbox db') = Some r -> t < now + micro (backoff_for (ob_attempts r)) ->
        claimable t r = false).
Proof.
  assert (Hclaim : forall id err now (db db' : audit_db (J := J)) r t, mark_outbox_failed id err now db = Ok (OUTBOX_PENDING, db') ->
        dict_get id (adb_outbox db') = Some r -> t < now + micro (backoff_for (ob_attempts r)) ->
        claimable t r = false).
  { intros id err now db db' r t. unfold mark_outbox_failed.
    destruct (dict_get id (adb_outbox db)) as [r0|]; [|done]. case_match; [done|]. intros [= <-].
    simpl. rewrite dict_get_set_eq. intros [= <-]. simpl. intros Ht. unfold claimable. simpl.
    rewrite (proj2 (Z.leb_gt _ _)) by done. done. }
  destruct (backoff_for_bounds attempts) as (H1 & H2 & H3 & H4). split; [exact H1|]. split; [exact H2|]. by split; [|split].
Qed.

(** ** A concrete queue *)

Definition demo_event (id : string) : audit_event :=
  mk_audit_event id id (Some "org") None "user" "u1" None None "release.agent.published" "success" None None
    "req" None None 5 [].

(** A codec that keeps the event itself. *)
Definition demo_encode (e : audit_event) : audit_event := e.
Definition demo_decode (e : audit_event) : option audit_event := Some e.

Lemma demo_codec (e : audit_event) : demo_decode (demo_encode e) = Some e.
Proof. done. Qed.

Definition demo_queue : audit_db (J := audit_event) :=
  match enqueue_audit_outbox demo_encode "row1" (demo_event "e1") 10 adb_empty with
  | Ok (_, db) => db
  | Err _ => adb_empty
  end.
Definition demo_drained : audit_db (J := audit_event) :=
  (drain_audit_outbox demo_decode no_faults "w1" 50 20 demo_queue).2.

Lemma demo_queue_reachable : star (outbox_step demo_encode demo_decode) adb_empty demo_queue.
Proof.
  eapply star_step with demo_queue; [|apply star_refl].
  eapply (os_enqueue _ _ "row1" (demo_event "e1") 10). vm_compute. reflexivity.
Qed.

Lemma demo_queue_inv : outbox_inv demo_encode demo_queue.
Proof. apply (outbox_star_inv _ _ demo_codec _ _ demo_queue_reachable), adb_empty_inv. Qed.

Lemma outbox_delivery_witness :
  exists r', dict_get "row1" (adb_outbox demo_drained) = Some r' /\ ob_status r' = OUTBOX_PUBLISHED
    /\ dict_get "e1" (adb_events demo_drained) = Some (event_to_row (demo_event "e1") (Some "audit-outbox-worker")).
Proof.
  destruct (dict_get "row1" (adb_outbox demo_queue)) as [r|] eqn:E; [|vm_compute in E; discriminate E].
  destruct (outbox_delivery demo_encode demo_decode demo_queue demo_drained "row1" r demo_codec demo_queue_reachable)
    as (r' & e & H1 & H2 & H3 & H4 & H5 & _).
  - eapply star_step with demo_drained; [|apply star_refl].
    eapply (os_drain _ _ no_faults "w1" 50 20). apply surjective_pairing.
  - exact E.
  - exists r'. split; [exact H1|]. vm_compute in H1. injection H1 as <-. split; [reflexivity|].
    simpl in H2. unfold demo_encode in H2. subst e. apply H5. reflexivity.
Defined.

Lemma claims_disjoint_witness :
  "row1" ∈ ob_id <$> (claim_audit_outbox 50 "w1" 20 demo_queue).1
  /\ ~ ("row1" ∈ ob_id <$> (claim_audit_outbox 50 "w2" 20 (claim_audit_outbox 50 "w1" 20 demo_queue).2).1).
Proof.
  assert ("row1" ∈ ob_id <$> (claim_audit_outbox 50 "w1" 20 demo_queue).1) as H1 by (vm_compute; left).
  split; [exact H1|]. intros H2.
  refine (claims_disjoint demo_encode 50 50 20 20 "w1" "w2" demo_queue _ _ _ _ _
    demo_queue_inv (surjective_pairing _) (star_refl _ _) (surjective_pairing _) "row1" H1 H2).
Defined.

Lemma drain_empties_backlog_witness : count_pending 20 demo_drained = 0.
Proof.
  destruct (drain_empties_backlog demo_encode demo_decode "w1" 50 20 demo_queue demo_codec demo_queue_inv)
    as (db' & H1 & H2).
  - intros id r e. unfold demo_queue. simpl. case_decide; [|discriminate].
    intros [= <-]. simpl. unfold demo_decode, demo_encode. intros [= <-]. left.
  - reflexivity.
  - vm_compute. discriminate.
  - unfold demo_drained. rewrite H1. exact H2.
Defined.

Lemma backoff_bounds_witness : backoff_for 3 = 2 ^ 3 /\ backoff_for 12 = BACKOFF_MAX_SECONDS.
Proof.
  destruct (backoff_bounds (J := unit) 3) as (_ & _ & H3 & _).
  destruct (backoff_bounds (J := unit) 12) as (_ & _ & _ & H12 & _). split; [apply H3; lia|apply H12; lia].
Defined.

(** ** Deviations from the documentation *)

(** A slow worker that reports a failure after another worker published the
    row puts the published row back into the queue. *)
Example late_failure_requeues_published_row :
  exists st db, mark_outbox_failed "row1" "timeout" 30 demo_drained = Ok (st, db)
    /\ (ob_status <$> dict_get "row1" (adb_outbox demo_drained)) = Some OUTBOX_PUBLISHED
    /\ (ob_status <$> dict_get "row1" (adb_outbox db)) = Some OUTBOX_PENDING.
Proof. do 2 eexists. split; [vm_compute; reflexivity|]. by vm_compute. Qed.

(** The scrubbing guard looks at the top level only. *)
Example scrub_misses_nested_keys :
  scrub_payload [("api_key", JStr "k"); ("request", JObj [("api_key", JStr "k")])]
  = [("request", JObj [("api_key", JStr "k")])].
Proof. by vm_compute. Qed.
