(* ===== verification/Authorize.v ===== *)
(** * Authorization

    [contracts/rbac.py] (the permission registry and the builtin roles),
    [app/gateway/authorize_cache.py] (the permission cache),
    [app/gateway/authorize.py] (the Authorize Service), the reads of
    [tenancy/membership.py] and [thread_meta]'s [check_access] it and its
    callers use, and [app/gateway/rbac.py] (the [require_rbac] gate in front
    of every handler).

    The cache is an interface: the class [PermissionCache] is the Protocol of
    the source with the laws a client may use, [InMemoryPermissionCache] is
    the implementation the source ships, and the service's theorems are proved
    against the interface.

    Two clocks are read: [time.monotonic] by the cache and [datetime.now] by
    the expiry filter of the role bindings.  Both count microseconds.  The
    SELECTs of one permission computation are read in one state of the tables;
    the write of the result to the cache is a separate, later step. *)
From S2P Require Import Prelude.
Local Open Scope Z_scope.
Local Open Scope py_scope.

(** ** The registry ([contracts/rbac.py]) *)

Inductive Permission : Type :=
| RUNTIME_THREAD_READ | RUNTIME_THREAD_WRITE | RUNTIME_RUN_CREATE
| RUNTIME_RUN_READ | RUNTIME_RUN_CANCEL | RUNTIME_RUN_RESUME
| ADMIN_ORG_READ | ADMIN_ORG_MANAGE | ADMIN_IAM_READ
| ADMIN_IAM_MANAGE | ADMIN_AUDIT_READ | ADMIN_CONSOLE_READ
| STUDIO_PACKAGE_READ | STUDIO_PACKAGE_WRITE | STUDIO_RELEASE_PROMOTE_DEV
| STUDIO_RELEASE_PROMOTE | STUDIO_RELEASE_ROLLBACK
| CONNECTOR_READ | CONNECTOR_MANAGE
| SYSTEM_ORG_CREATE | SYSTEM_ORG_READ_ALL | SYSTEM_ORG_OPERATE_ALL.

Definition permission_value (p : Permission) : string :=
  match p with
  | RUNTIME_THREAD_READ => "runtime:thread:read"
  | RUNTIME_THREAD_WRITE => "runtime:thread:write"
  | RUNTIME_RUN_CREATE => "runtime:run:create"
  | RUNTIME_RUN_READ => "runtime:run:read"
  | RUNTIME_RUN_CANCEL => "runtime:run:cancel"
  | RUNTIME_RUN_RESUME => "runtime:run:resume"
  | ADMIN_ORG_READ => "admin:org:read"
  | ADMIN_ORG_MANAGE => "admin:org:manage"
  | ADMIN_IAM_READ => "admin:iam:read"
  | ADMIN_IAM_MANAGE => "admin:iam:manage"
  | ADMIN_AUDIT_READ => "admin:audit:read"
  | ADMIN_CONSOLE_READ => "admin:console:read"
  | STUDIO_PACKAGE_READ => "studio:package:read"
  | STUDIO_PACKAGE_WRITE => "studio:package:write"
  | STUDIO_RELEASE_PROMOTE_DEV => "studio:release:promote_dev"
  | STUDIO_RELEASE_PROMOTE => "studio:release:promote"
  | STUDIO_RELEASE_ROLLBACK => "studio:release:rollback"
  | CONNECTOR_READ => "connector:read"
  | CONNECTOR_MANAGE => "connector:manage"
  | SYSTEM_ORG_CREATE => "system:org:create"
  | SYSTEM_ORG_READ_ALL => "system:org:read_all"
  | SYSTEM_ORG_OPERATE_ALL => "system:org:operate_all"
  end.

(** The members, in declaration order. *)
Definition Permission_members : list Permission :=
  [RUNTIME_THREAD_READ; RUNTIME_THREAD_WRITE; RUNTIME_RUN_CREATE;
   RUNTIME_RUN_READ; RUNTIME_RUN_CANCEL; RUNTIME_RUN_RESUME;
   ADMIN_ORG_READ; ADMIN_ORG_MANAGE; ADMIN_IAM_READ;
   ADMIN_IAM_MANAGE; ADMIN_AUDIT_READ; ADMIN_CONSOLE_READ;
   STUDIO_PACKAGE_READ; STUDIO_PACKAGE_WRITE; STUDIO_RELEASE_PROMOTE_DEV;
   STUDIO_RELEASE_PROMOTE; STUDIO_RELEASE_ROLLBACK;
   CONNECTOR_READ; CONNECTOR_MANAGE;
   SYSTEM_ORG_CREATE; SYSTEM_ORG_READ_ALL; SYSTEM_ORG_OPERATE_ALL].

Definition SYSTEM_PERMISSION_PREFIX : string := "system:".

(** [str.startswith]. *)
Definition is_system_permission (v : string) : bool :=
  String.prefix SYSTEM_PERMISSION_PREFIX v.

Definition known_values : list string := permission_value <$> Permission_members.

Definition SYSTEM_PERMISSIONS : gset string :=
  list_to_set (base.filter (fun v => is_system_permission v = true) known_values).

Definition ORG_ADMIN_ROLE_NAME : string := "org:admin".
Definition ORG_DEVELOPER_ROLE_NAME : string := "org:developer".
Definition ORG_VIEWER_ROLE_NAME : string := "org:viewer".

Definition BUILTIN_ROLE_PERMISSIONS : list (string * list Permission) :=
  [(ORG_ADMIN_ROLE_NAME,
    [RUNTIME_THREAD_READ; RUNTIME_THREAD_WRITE; RUNTIME_RUN_CREATE;
     RUNTIME_RUN_READ; RUNTIME_RUN_CANCEL; RUNTIME_RUN_RESUME;
     ADMIN_ORG_READ; ADMIN_ORG_MANAGE; ADMIN_IAM_READ; ADMIN_IAM_MANAGE;
     ADMIN_AUDIT_READ; ADMIN_CONSOLE_READ;
     STUDIO_PACKAGE_READ; STUDIO_PACKAGE_WRITE; STUDIO_RELEASE_PROMOTE_DEV;
     STUDIO_RELEASE_PROMOTE; STUDIO_RELEASE_ROLLBACK;
     CONNECTOR_READ; CONNECTOR_MANAGE]);
   (ORG_DEVELOPER_ROLE_NAME,
    [RUNTIME_THREAD_READ; RUNTIME_THREAD_WRITE; RUNTIME_RUN_CREATE;
     RUNTIME_RUN_READ; RUNTIME_RUN_CANCEL; RUNTIME_RUN_RESUME;
     STUDIO_PACKAGE_READ; STUDIO_PACKAGE_WRITE; STUDIO_RELEASE_PROMOTE_DEV;
     CONNECTOR_READ]);
   (ORG_VIEWER_ROLE_NAME,
    [RUNTIME_THREAD_READ; RUNTIME_RUN_READ; STUDIO_PACKAGE_READ; CONNECTOR_READ])].

(** [PermissionValidationError]: unknown string, or a system permission on an
    Org role; both carry the code [validation_error] and the permission. *)
Inductive validation_error : Type :=
| UnknownPermission (permission : string)
| SystemPermissionOnOrgRole (permission : string).

Fixpoint validate_role_permissions (permissions : list string) (is_system : bool)
    : result validation_error unit :=
  match permissions with
  | [] => Ok tt
  | value :: rest =>
      if negb (str_in value known_values) then Err (UnknownPermission value)
      else if negb is_system && is_system_permission value
      then Err (SystemPermissionOnOrgRole value)
      else validate_role_permissions rest is_system
  end.

(** ** The permission cache ([authorize_cache.py]) *)

Definition micros (seconds : Z) : Z := seconds * 1000000.

Definition DEFAULT_TTL_SECONDS : Z := 60.

Definition org_cache_key (org_id principal_type principal_id : string) : string :=
  "authz:" +:+ org_id +:+ ":" +:+ principal_type +:+ ":" +:+ principal_id.

Definition system_cache_key (principal_id : string) : string :=
  "authz:system:" +:+ principal_id.

Definition clamp_ttl (ttl_seconds : Z) : Z :=
  if ttl_seconds <? 0 then 0
  else if DEFAULT_TTL_SECONDS <? ttl_seconds then DEFAULT_TTL_SECONDS
  else ttl_seconds.

(** The Protocol: [get] may change the cache (lazy eviction), and every
    operation that reads the clock takes the monotonic instant.  [pc_live c t
    k] is what a read of [k] at [t] answers.  The laws allow an implementation
    to forget early, never to answer with a value that was not stored under
    that key, was stored 60 seconds before, or was dropped. *)
Class PermissionCache (C : Type) : Type := {
  pc_empty : C;
  pc_get : Z -> string -> C -> option (gset string) * C;
  pc_set : Z -> string -> gset string -> Z -> C -> C;
  pc_invalidate : string -> C -> C;
  pc_clear : C -> C;
  pc_live : C -> Z -> string -> option (gset string);
  pc_live_empty t k : pc_live pc_empty t k = None;
  pc_get_live c t k : (pc_get t k c).1 = pc_live c t k;
  pc_get_keeps c t k t' k' v :
    t <= t' -> pc_live (pc_get t k c).2 t' k' = Some v -> pc_live c t' k' = Some v;
  pc_set_same c t k v ttl t' v' :
    pc_live (pc_set t k v ttl c) t' k = Some v' ->
    v' = v /\ t' < t + micros (clamp_ttl ttl);
  pc_set_other c t k v ttl t' k' v' :
    k' <> k -> pc_live (pc_set t k v ttl c) t' k' = Some v' -> pc_live c t' k' = Some v';
  pc_invalidate_same c k t : pc_live (pc_invalidate k c) t k = None;
  pc_invalidate_other c k t' k' v :
    pc_live (pc_invalidate k c) t' k' = Some v -> pc_live c t' k' = Some v;
  pc_clear_live c t k : pc_live (pc_clear c) t k = None;
  pc_live_antitone c t t' k v :
    t <= t' -> pc_live c t' k = Some v -> pc_live c t k = Some v
}.

(** [InMemoryPermissionCache._entries]: key to expiry instant and value. *)
Notation cache_entries := (gmap string (Z * gset string)).

Definition cache_get (now : Z) (key : string) (c : cache_entries)
    : option (gset string) * cache_entries :=
  match c !! key with
  | None => (None, c)
  | Some (expires_at, value) =>
      if expires_at <=? now then (None, delete key c) else (Some value, c)
  end.

Definition cache_set (now : Z) (key : string) (value : gset string) (ttl_seconds : Z)
    (c : cache_entries) : cache_entries :=
  <[key := (now + micros (clamp_ttl ttl_seconds), value)]> c.

Definition cache_invalidate (key : string) (c : cache_entries) : cache_entries :=
  delete key c.

Definition cache_clear (_ : cache_entries) : cache_entries := ∅.

Definition cache_live (c : cache_entries) (t : Z) (key : string) : option (gset string) :=
  (cache_get t key c).1.

Ltac cache_cases :=
  repeat match goal with
  | H : context [match ?x with _ => _ end] |- _ => destruct x eqn:?; simplify_eq/=
  | |- context [match ?x with _ => _ end] => destruct x eqn:?; simplify_eq/=
  end; simplify_eq/=.

Lemma cache_live_lookup c t k v :
  cache_live c t k = Some v <-> exists e, c !! k = Some (e, v) /\ t < e.
Proof.
  unfold cache_live, cache_get. split.
  - intros H. cache_cases. eexists. split; [done|]. lia.
  - intros (e & -> & He). destruct (Z.leb_spec e t); [lia|done].
Qed.

#[global] Program Instance InMemoryPermissionCache : PermissionCache cache_entries := {|
  pc_empty := ∅;
  pc_get := cache_get;
  pc_set := cache_set;
  pc_invalidate := cache_invalidate;
  pc_clear := cache_clear;
  pc_live := cache_live
|}.
Next Obligation. done. Qed.
Next Obligation. done. Qed.
Next Obligation.
  intros c t k t' k' v Ht H. apply cache_live_lookup. apply cache_live_lookup in H as (e & He & Hlt).
  exists e. split; [|done]. revert He. unfold cache_get. cache_cases; intros He; try done.
  by apply lookup_delete_Some in He as [_ ?].
Qed.
Next Obligation.
  intros c t k v ttl t' v' H. apply cache_live_lookup in H as (e & He & Hlt).
  unfold cache_set in He. rewrite lookup_insert_eq in He. naive_solver.
Qed.
Next Obligation.
  intros c t k v ttl t' k' v' Hne H. apply cache_live_lookup in H as (e & He & Hlt).
  apply cache_live_lookup. exists e. unfold cache_set in He. by rewrite lookup_insert_ne in He.
Qed.
Next Obligation.
  intros c k t. unfold cache_live, cache_get, cache_invalidate.
  by rewrite lookup_delete_eq.
Qed.
Next Obligation.
  intros c k t' k' v H. apply cache_live_lookup in H as (e & He & Hlt).
  apply cache_live_lookup. exists e. unfold cache_invalidate in He.
  apply lookup_delete_Some in He. naive_solver.
Qed.
Next Obligation. done. Qed.
Next Obligation.
  intros c t t' k v Ht H. apply cache_live_lookup in H as (e & He & Hlt).
  apply cache_live_lookup. exists e. split; [done|lia].
Qed.

(** ** The tables read by the service *)

(** An entry of a role's [permissions] JSON array. *)
Inductive perm_entry : Type :=
| PStr (s : string)
| PNotStr.

Record role_row : Type := mk_role {
  role_name : string;
  role_org_id : option string;
  role_permissions : list perm_entry;
  role_is_system : bool;
  role_template_version : option Z
}.

Record binding_row : Type := mk_binding {
  rb_org_id : string;
  rb_principal_type : string;
  rb_principal_id : string;
  rb_role_id : string;
  rb_expires_at : option Z
}.

Record sa_row : Type := mk_sa {
  sa_org_id : string;
  sa_status : string
}.

(** [organizations] (status by id), [org_memberships] (status by the unique
    pair of Org and user), [service_accounts], [roles] and [role_bindings]. *)
Record iam_db : Type := mk_iam {
  iam_orgs : gmap string string;
  iam_memberships : gmap (string * string) string;
  iam_service_accounts : gmap string sa_row;
  iam_roles : gmap string role_row;
  iam_bindings : list binding_row
}.

(** The CHECK constraints on the three status columns. *)
Definition iam_wf (db : iam_db) : Prop :=
  (forall o s, iam_orgs db !! o = Some s -> s ∈ ["active"; "suspended"; "deleting"; "deleted"]%string)
  /\ (forall k s, iam_memberships db !! k = Some s ->
        s ∈ ["invited"; "active"; "suspended"; "removed"]%string)
  /\ (forall i r, iam_service_accounts db !! i = Some r ->
        sa_status r ∈ ["active"; "disabled"]%string).

(** [tenancy.get_org_status] and [tenancy.get_membership_any_status]. *)
Definition get_org_status (org_id : string) (db : iam_db) : option string :=
  iam_orgs db !! org_id.

Definition get_membership_any_status (user_id org_id : string) (db : iam_db) : option string :=
  iam_memberships db !! (org_id, user_id).

(** ** The Authorize Service ([authorize.py]) *)

Inductive error_code : Type :=
| PERMISSION_DENIED | ORG_SUSPENDED | ORG_DELETING
| AUTHENTICATION_INVALID | PRINCIPAL_DISABLED.

(** [AuthorizeError] with its code and the permission it names. *)
Record authorize_error : Type := mk_authorize_error {
  ae_code : error_code;
  ae_permission : option string
}.

Definition authorize_err (c : error_code) : authorize_error := mk_authorize_error c None.
Definition denied (permission : option string) : authorize_error :=
  mk_authorize_error PERMISSION_DENIED permission.

Definition compute_effective_permissions (role_permissions : gset string) (system_role : string)
    (api_key_scopes : option (gset string)) : gset string :=
  let base := if String.eqb system_role "admin" then SYSTEM_PERMISSIONS else role_permissions in
  match api_key_scopes with
  | None => base
  | Some scopes => base ∩ scopes
  end.

Definition apply_scopes (perms : gset string) (api_key_scopes : option (gset string)) : gset string :=
  match api_key_scopes with
  | None => perms
  | Some scopes => perms ∩ scopes
  end.

Definition compute_admin_permissions : gset string := SYSTEM_PERMISSIONS.

(** The JOIN of [_fetch_role_permissions] and its WHERE clause: the
    [permissions] arrays of the roles bound. *)
Definition binding_selected (org_id principal_type principal_id : string) (now : Z)
    (b : binding_row) : bool :=
  String.eqb (rb_org_id b) org_id
  && String.eqb (rb_principal_type b) principal_type
  && String.eqb (rb_principal_id b) principal_id
  && match rb_expires_at b with None => true | Some e => now <? e end.

Definition role_permission_rows (org_id principal_type principal_id : string) (now : Z)
    (db : iam_db) : list (list perm_entry) :=
  omap (fun b => role_permissions <$> iam_roles db !! rb_role_id b)
    (base.filter (fun b => binding_selected org_id principal_type principal_id now b = true)
       (iam_bindings db)).

(** The scrub loop: only strings without the system prefix are added. *)
Fixpoint scrub_permissions (permissions_json : list perm_entry) : gset string :=
  match permissions_json with
  | [] => ∅
  | PNotStr :: rest => scrub_permissions rest
  | PStr perm :: rest =>
      if is_system_permission perm then scrub_permissions rest
      else {[perm]} ∪ scrub_permissions rest
  end.

Definition fetch_role_permissions (org_id principal_type principal_id : string) (now : Z)
    (db : iam_db) : gset string :=
  ⋃ (scrub_permissions <$> role_permission_rows org_id principal_type principal_id now db).

(** The organization gate, the same on both paths. *)
Definition org_gate (org_id : string) (db : iam_db) : result authorize_error unit :=
  match get_org_status org_id db with
  | None => Err (denied None)
  | Some status =>
      if String.eqb status "suspended" then Err (authorize_err ORG_SUSPENDED)
      else if String.eqb status "deleting" then Err (authorize_err ORG_DELETING)
      else if String.eqb status "deleted" then Err (authorize_err ORG_DELETING)
      else Ok tt
  end.

Definition INACTIVE_MEMBERSHIP_STATUSES : list string := ["invited"; "removed"]%string.

Definition compute_user_permissions (user_id org_id system_role : string) (now : Z) (db : iam_db)
    : result authorize_error (gset string) :=
  let! _ := org_gate org_id db in
  match get_membership_any_status user_id org_id db with
  | None => Err (denied None)
  | Some status =>
      if str_in status INACTIVE_MEMBERSHIP_STATUSES then Err (denied None)
      else if String.eqb status "suspended" then Err (denied None)
      else Ok (compute_effective_permissions
                 (fetch_role_permissions org_id "user" user_id now db) system_role None)
  end.

Definition compute_service_account_permissions (service_account_id org_id : string) (now : Z)
    (db : iam_db) : result authorize_error (gset string) :=
  let! _ := org_gate org_id db in
  match iam_service_accounts db !! service_account_id with
  | None => Err (authorize_err AUTHENTICATION_INVALID)
  | Some r =>
      if negb (String.eqb (sa_org_id r) org_id) then Err (authorize_err AUTHENTICATION_INVALID)
      else if String.eqb (sa_status r) "disabled" then Err (authorize_err PRINCIPAL_DISABLED)
      else Ok (compute_effective_permissions
                 (fetch_role_permissions org_id "service_account" service_account_id now db)
                 "user" None)
  end.

(** [PrincipalRef], as far as authorization reads it. *)
Record principal_ref : Type := mk_principal {
  pr_type : string;
  pr_id : string;
  pr_user_id : option string
}.

(** [TenantContext], as far as authorization reads it. *)
Record tenant_context : Type := mk_tenant {
  tc_org_id : string;
  tc_principal : principal_ref;
  tc_auth_method : string;
  tc_api_key_scopes : option (gset string)
}.

(** The two clocks. *)
Record clock : Type := mk_clock {
  ck_monotonic : Z;
  ck_utc : Z
}.

Section service.
Context {C : Type} `{PermissionCache C}.
Context (ttl_seconds : Z).

(** The read-compute-store shape of the two [compute_permissions_for_*]
    methods: a hit answers from the cache unless [force_refresh]; a miss
    computes, stores and answers; an error stores nothing. *)
Definition cached_permissions (key : string) (force_refresh : bool)
    (compute : result authorize_error (gset string)) (scopes : option (gset string))
    (ck : clock) (c : C) : result authorize_error (gset string) * C :=
  let '(cached, c1) := if force_refresh then (None, c) else pc_get (ck_monotonic ck) key c in
  match cached with
  | Some perms => (Ok (apply_scopes perms scopes), c1)
  | None =>
      match compute with
      | Err e => (Err e, c1)
      | Ok perms =>
          (Ok (apply_scopes perms scopes), pc_set (ck_monotonic ck) key perms ttl_seconds c1)
      end
  end.

(** [user] is read for [id] and [system_role]; a missing or empty role is
    ["user"]. *)
Definition compute_permissions_for_user (user_id : string) (user_system_role : option string)
    (org_id : string) (api_key_scopes : option (gset string)) (force_refresh : bool)
    (ck : clock) (db : iam_db) (c : C) : result authorize_error (gset string) * C :=
  let system_role := if truthy user_system_role then opt_or user_system_role "user"%string else "user"%string in
  if String.eqb system_role "admin" then
    cached_permissions (system_cache_key user_id) force_refresh
      (Ok compute_admin_permissions) api_key_scopes ck c
  else
    cached_permissions (org_cache_key org_id "user" user_id) force_refresh
      (compute_user_permissions user_id org_id system_role (ck_utc ck) db) api_key_scopes ck c.

Definition compute_permissions_for_service_account (service_account_id org_id : string)
    (api_key_scopes : option (gset string)) (force_refresh : bool)
    (ck : clock) (db : iam_db) (c : C) : result authorize_error (gset string) * C :=
  cached_permissions (org_cache_key org_id "service_account" service_account_id) force_refresh
    (compute_service_account_permissions service_account_id org_id (ck_utc ck) db)
    api_key_scopes ck c.

Definition effective_permissions (t : tenant_context) (api_key_scopes : option (gset string))
    (force_refresh : bool) (ck : clock) (db : iam_db) (c : C)
    : result authorize_error (gset string) * C :=
  let principal := tc_principal t in
  if String.eqb (pr_type principal) "user" then
    match pr_user_id principal with
    | None => (Err (authorize_err AUTHENTICATION_INVALID), c)
    | Some user_id =>
        compute_permissions_for_user user_id (Some "user"%string) (tc_org_id t)
          api_key_scopes force_refresh ck db c
    end
  else if String.eqb (pr_type principal) "service_account" then
    if String.eqb (pr_id principal) "" then (Err (authorize_err AUTHENTICATION_INVALID), c)
    else
      compute_permissions_for_service_account (pr_id principal) (tc_org_id t)
        api_key_scopes force_refresh ck db c
  else (Err (authorize_err AUTHENTICATION_INVALID), c).

Definition authorize (t : tenant_context) (permission : string)
    (api_key_scopes : option (gset string)) (force_refresh : bool)
    (ck : clock) (db : iam_db) (c : C) : result authorize_error unit * C :=
  match effective_permissions t api_key_scopes force_refresh ck db c with
  | (Err e, c1) => (Err e, c1)
  | (Ok effective, c1) =>
      if bool_decide (permission ∈ effective) then (Ok tt, c1)
      else (Err (denied (Some permission)), c1)
  end.

Definition invalidate_principal (org_id principal_type principal_id : string) (c : C) : C :=
  pc_invalidate (org_cache_key org_id principal_type principal_id) c.

Definition invalidate_system_admin (principal_id : string) (c : C) : C :=
  pc_invalidate (system_cache_key principal_id) c.

(** ** The gate ([rbac.require_rbac]) *)

(** [threads_meta]: owner and Org by thread. *)
Record thread_row : Type := mk_thread {
  th_org_id : option string;
  th_user_id : option string
}.

(** [check_access] of the two thread stores, with the Org of the bound
    context. *)
Definition check_access (threads : gmap string thread_row) (thread_id : string)
    (user_id : option string) (require_existing : bool) (resolved_org_id : option string) : bool :=
  match threads !! thread_id with
  | None => negb require_existing
  | Some row =>
      if bool_decide (resolved_org_id <> None) && bool_decide (th_org_id row <> resolved_org_id)
      then false
      else
        match th_user_id row with
        | None => true
        | Some owner => bool_decide (Some owner = user_id)
        end
  end.

(** What the gate reads of a request: the bound tenant context, the user the
    authentication layer stamped (id and system role), the owner header
    (already stripped, [""] when absent) and the [thread_id] of the path. *)
Record http_request : Type := mk_http_request {
  hr_bypass : bool;
  hr_tenant : option tenant_context;
  hr_user : option (string * string);
  hr_owner_header : string;
  hr_thread_id : option string
}.

(** How the wrapped call ends before or at the handler. *)
Inductive gate_outcome : Type :=
| Handler
| HTTPException (status_code : Z) (detail : string)
| GateValueError.

Definition INTERNAL_SYSTEM_ROLE : string := "internal".

Definition is_internal_user (r : http_request) : bool :=
  match hr_user r with
  | Some (_, role) => String.eqb role INTERNAL_SYSTEM_ROLE
  | None => false
  end.

Definition is_internal_owner_request (r : http_request) : bool :=
  is_internal_user r && negb (String.eqb (hr_owner_header r) "").

Definition authorize_error_to_http (e : authorize_error) : gate_outcome :=
  match ae_code e with
  | AUTHENTICATION_INVALID => HTTPException 401 "Authentication required"
  | ORG_SUSPENDED => HTTPException 403 "Organization is suspended"
  | ORG_DELETING => HTTPException 403 "Organization is being deleted"
  | PRINCIPAL_DISABLED => HTTPException 403 "Principal is disabled"
  | PERMISSION_DENIED =>
      HTTPException 403
        (if truthy (ae_permission e)
         then "Permission denied: " +:+ opt_or (ae_permission e) ""%string
         else "Permission denied")
  end.

(** The owner check. *)
Definition owner_gate (threads : gmap string thread_row) (require_existing : bool)
    (r : http_request) (t : tenant_context) : gate_outcome :=
  match hr_thread_id r with
  | None => GateValueError
  | Some thread_id =>
      let access := fun u => check_access threads thread_id u require_existing (Some (tc_org_id t)) in
      let user_id := match hr_user r with
                     | Some (id, _) => Some id
                     | None => pr_user_id (tc_principal t)
                     end in
      let allowed := access user_id
        || (is_internal_owner_request r && access (Some (hr_owner_header r))) in
      if allowed then Handler
      else HTTPException 404 ("Thread " +:+ thread_id +:+ " not found")
  end.

(** The wrapper: its outcome, the cache afterwards and the denials it enqueued
    for audit (permission and reason). *)
Definition require_rbac (permission : Permission) (owner_check require_existing : bool)
    (threads : gmap string thread_row) (ck : clock) (db : iam_db) (r : http_request) (c : C)
    : gate_outcome * C * list (string * error_code) :=
  if hr_bypass r then (Handler, c, [])
  else
    match hr_tenant r with
    | None => (HTTPException 401 "Authentication required", c, [])
    | Some t =>
        let skip_authorize :=
          String.eqb (tc_auth_method t) "internal" && is_internal_owner_request r in
        let '(decision, c1) :=
          if skip_authorize then (Ok tt, c)
          else authorize t (permission_value permission) (tc_api_key_scopes t) false ck db c in
        match decision with
        | Err e => (authorize_error_to_http e, c1, [(permission_value permission, ae_code e)])
        | Ok _ =>
            (if owner_check then owner_gate threads require_existing r t else Handler, c1, [])
        end
    end.
End service.
