(* ===== verification/AuthorizeProps.v ===== *)
(** * Correctness of authorization

    The abstract specification is [granted]: the intersection formula of the
    access-control decision record, stated on the tables.  The theorems relate
    the cached, optimised decision of [authorize] and [require_rbac] to it:
    a forced decision is exactly [granted]; a cached one was [granted] in a
    state at most one cache lifetime old; a decision after an invalidation
    does not reach back before it; and no handler runs on a thread of another
    Org or user. *)
From S2P Require Import Prelude Authorize.
Local Open Scope Z_scope.

(** ** Specification *)

Definition bound_permission (db : iam_db) (now : Z) (org ptype pid p : string) : Prop :=
  is_system_permission p = false /\
  exists b r,
    b ∈ iam_bindings db /\ rb_org_id b = org /\ rb_principal_type b = ptype
    /\ rb_principal_id b = pid /\ (forall e, rb_expires_at b = Some e -> now < e)
    /\ iam_roles db !! rb_role_id b = Some r /\ PStr p ∈ role_permissions r.

(** A subject of authorization: Org, principal type and principal id. *)
Record subject : Type := mk_subject {
  su_org : string;
  su_type : string;
  su_id : string
}.

Definition active_principal (db : iam_db) (x : subject) : Prop :=
  if String.eqb (su_type x) "user"
  then iam_memberships db !! (su_org x, su_id x) = Some "active"%string
  else exists r, iam_service_accounts db !! su_id x = Some r
         /\ sa_org_id r = su_org x /\ sa_status r = "active"%string.

Definition granted (db : iam_db) (now : Z) (x : subject) (p : string) : Prop :=
  iam_orgs db !! su_org x = Some "active"%string
  /\ active_principal db x
  /\ bound_permission db now (su_org x) (su_type x) (su_id x) p.

Definition in_scopes (scopes : option (gset string)) (p : string) : Prop :=
  match scopes with None => True | Some s => p ∈ s end.

(** The subject of a tenant context, when [authorize] supports it. *)
Definition subject_of (t : tenant_context) : option subject :=
  if String.eqb (pr_type (tc_principal t)) "user"
  then (fun u => mk_subject (tc_org_id t) "user" u) <$> pr_user_id (tc_principal t)
  else if String.eqb (pr_type (tc_principal t)) "service_account"
          && negb (String.eqb (pr_id (tc_principal t)) "")
  then Some (mk_subject (tc_org_id t) "service_account" (pr_id (tc_principal t)))
  else None.

Definition subject_key (x : subject) : string := org_cache_key (su_org x) (su_type x) (su_id x).

Definition subject_permissions (x : subject) (now : Z) (db : iam_db)
    : result authorize_error (gset string) :=
  if String.eqb (su_type x) "user"
  then compute_user_permissions (su_id x) (su_org x) "user" now db
  else compute_service_account_permissions (su_id x) (su_org x) now db.

Definition subject_wf (x : subject) : Prop :=
  no_colon (su_org x) = true /\ no_colon (su_id x) = true
  /\ (su_type x = "user"%string \/ su_type x = "service_account"%string).

(** ** The permission computation meets the specification *)

Lemma scrub_permissions_spec l p :
  p ∈ scrub_permissions l <-> is_system_permission p = false /\ PStr p ∈ l.
Proof.
  induction l as [|[s|] l IH]; simpl.
  - set_solver.
  - destruct (is_system_permission s) eqn:Hs.
    + rewrite IH, elem_of_cons. naive_solver congruence.
    + rewrite elem_of_union, elem_of_singleton, IH, elem_of_cons. naive_solver congruence.
  - rewrite IH, elem_of_cons. naive_solver.
Qed.

Lemma binding_selected_spec o pt pid now b :
  binding_selected o pt pid now b = true <->
  rb_org_id b = o /\ rb_principal_type b = pt /\ rb_principal_id b = pid
  /\ (forall e, rb_expires_at b = Some e -> now < e).
Proof.
  unfold binding_selected. rewrite !andb_true_iff, !String.eqb_eq.
  destruct (rb_expires_at b) as [e|]; naive_solver lia.
Qed.

Lemma fetch_role_permissions_spec o pt pid now db p :
  p ∈ fetch_role_permissions o pt pid now db <-> bound_permission db now o pt pid p.
Proof.
  unfold fetch_role_permissions, role_permission_rows, bound_permission.
  rewrite elem_of_union_list. setoid_rewrite list_elem_of_fmap. setoid_rewrite list_elem_of_omap.
  setoid_rewrite list_elem_of_filter. setoid_rewrite binding_selected_spec. split.
  - intros (X & (l & -> & b & (Hsel & Hb) & Hr) & Hp).
    apply fmap_Some in Hr as (r & Hr & ->). apply scrub_permissions_spec in Hp as [Hs Hp].
    naive_solver.
  - intros (Hs & b & r & Hb & Ho & Ht & Hi & He & Hr & Hp).
    exists (scrub_permissions (role_permissions r)). split.
    + eexists. split; [done|]. exists b. rewrite Hr. naive_solver.
    + by apply scrub_permissions_spec.
Qed.

Lemma org_gate_ok db o :
  iam_wf db -> org_gate o db = Ok tt <-> iam_orgs db !! o = Some "active"%string.
Proof.
  intros (Ho & _). unfold org_gate, get_org_status.
  destruct (iam_orgs db !! o) as [s|] eqn:E; [|naive_solver].
  specialize (Ho _ _ E). repeat (apply elem_of_cons in Ho as [->|Ho]); [naive_solver..|].
  by apply elem_of_nil in Ho.
Qed.

Lemma org_gate_cases o db : org_gate o db = Ok tt \/ exists e, org_gate o db = Err e.
Proof. destruct (org_gate o db) as [[]|]; eauto. Qed.

Lemma compute_user_permissions_spec db u o now ps :
  iam_wf db ->
  compute_user_permissions u o "user" now db = Ok ps <->
  iam_orgs db !! o = Some "active"%string /\ iam_memberships db !! (o, u) = Some "active"%string
  /\ ps = fetch_role_permissions o "user" u now db.
Proof.
  intros Hwf. rewrite <- (org_gate_ok db o Hwf). unfold compute_user_permissions, get_membership_any_status.
  destruct (org_gate_cases o db) as [->|[e ->]]; [|naive_solver]. simpl.
  destruct Hwf as (_ & Hm & _).
  destruct (iam_memberships db !! (o, u)) as [s|] eqn:E; [|naive_solver].
  specialize (Hm _ _ E). repeat (apply elem_of_cons in Hm as [->|Hm]);
    [vm_compute; naive_solver|simpl; naive_solver|vm_compute; naive_solver..|].
  by apply elem_of_nil in Hm.
Qed.

Lemma compute_service_account_permissions_spec db i o now ps :
  iam_wf db ->
  compute_service_account_permissions i o now db = Ok ps <->
  iam_orgs db !! o = Some "active"%string
  /\ (exists r, iam_service_accounts db !! i = Some r /\ sa_org_id r = o /\ sa_status r = "active"%string)
  /\ ps = fetch_role_permissions o "service_account" i now db.
Proof.
  intros Hwf. rewrite <- (org_gate_ok db o Hwf). unfold compute_service_account_permissions.
  destruct (org_gate_cases o db) as [->|[e ->]]; [|naive_solver]. simpl.
  destruct Hwf as (_ & _ & Hs).
  destruct (iam_service_accounts db !! i) as [r|] eqn:E; [|naive_solver].
  specialize (Hs _ _ E).
  destruct (String.eqb_spec (sa_org_id r) o); simpl; [|naive_solver].
  apply elem_of_cons in Hs as [Hs|Hs]; [rewrite Hs; simpl; naive_solver|].
  apply list_elem_of_singleton in Hs. rewrite Hs. simpl. naive_solver congruence.
Qed.

Lemma subject_permissions_granted x now db ps p :
  iam_wf db -> su_type x = "user"%string \/ su_type x = "service_account"%string ->
  subject_permissions x now db = Ok ps -> p ∈ ps <-> granted db now x p.
Proof.
  intros Hwf Ht. unfold subject_permissions, granted, active_principal.
  destruct x as [o pt i]; simpl in *. destruct Ht as [-> | ->]; simpl; intros H.
  - apply (compute_user_permissions_spec db i o now ps Hwf) in H as (? & ? & ->).
    rewrite fetch_role_permissions_spec. naive_solver.
  - apply (compute_service_account_permissions_spec db i o now ps Hwf) in H as (? & ? & ->).
    rewrite fetch_role_permissions_spec. naive_solver.
Qed.

Lemma granted_permissions x now db p :
  iam_wf db -> su_type x = "user"%string \/ su_type x = "service_account"%string ->
  granted db now x p -> exists ps, subject_permissions x now db = Ok ps.
Proof.
  intros Hwf Ht. unfold subject_permissions, granted, active_principal.
  destruct x as [o pt i]; simpl in *. destruct Ht as [-> | ->]; simpl; intros (Ho & Ha & _); eexists.
  - apply compute_user_permissions_spec; eauto.
  - apply compute_service_account_permissions_spec; eauto.
Qed.

(** ** Cache keys separate subjects *)

Lemma su_type_no_colon x : subject_wf x -> no_colon (su_type x) = true.
Proof. by intros (_ & _ & [-> | ->]). Qed.

Lemma subject_key_inj x y : subject_wf x -> subject_wf y -> subject_key x = subject_key y -> x = y.
Proof.
  intros Hx Hy. pose proof (su_type_no_colon x Hx) as Tx. pose proof (su_type_no_colon y Hy) as Ty.
  destruct Hx as (Ox & _ & _), Hy as (Oy & _ & _), x as [o pt i], y as [o' pt' i'].
  unfold subject_key, org_cache_key; simpl in *. intros H. simplify_eq/=.
  apply colon_split in H as [-> H]; [|done..].
  apply colon_split in H as [-> ->]; done.
Qed.

Lemma system_key_separate x pid :
  subject_wf x -> no_colon pid = true -> subject_key x <> system_cache_key pid.
Proof.
  intros Hx Hp H. destruct x as [o pt i]. unfold subject_key, org_cache_key, system_cache_key in H.
  destruct Hx as (Ho & _). simpl in *. simplify_eq/=.
  apply (colon_split o "system" _ pid) in H as [_ H]; [|done..].
  rewrite <- H, no_colon_join in Hp. done.
Qed.

(** ** The service as a transition system

    Each step is what one of the components around the cache does between two
    suspension points: a clock advances, the tables change, a computation reads
    the tables ([as_fetch]) and later stores its result ([as_store]), a
    principal is invalidated.  [s_inflight] holds the computations that have
    read the tables and not stored their result. *)
Section system.
Context {C : Type} `{PermissionCache C}.
Context (ttl_seconds : Z).

Record sys : Type := mk_sys {
  s_cache : C;
  s_db : iam_db;
  s_clock : clock;
  s_inflight : list (subject * gset string)
}.

Notation mono s := (ck_monotonic (s_clock s)).
Notation utc s := (ck_utc (s_clock s)).

Inductive authz_step : sys -> sys -> Prop :=
| as_time c db ck ck' fl :
    ck_monotonic ck <= ck_monotonic ck' ->
    authz_step (mk_sys c db ck fl) (mk_sys c db ck' fl)
| as_write c db db' ck fl :
    iam_wf db' -> authz_step (mk_sys c db ck fl) (mk_sys c db' ck fl)
| as_get c db ck fl k :
    authz_step (mk_sys c db ck fl) (mk_sys (pc_get (ck_monotonic ck) k c).2 db ck fl)
| as_fetch c db ck fl x perms :
    subject_wf x -> subject_permissions x (ck_utc ck) db = Ok perms ->
    authz_step (mk_sys c db ck fl) (mk_sys c db ck ((x, perms) :: fl))
| as_store c db ck fl1 x perms fl2 :
    authz_step (mk_sys c db ck (fl1 ++ (x, perms) :: fl2))
      (mk_sys (pc_set (ck_monotonic ck) (subject_key x) perms ttl_seconds c) db ck (fl1 ++ fl2))
| as_admin c db ck fl pid :
    no_colon pid = true ->
    authz_step (mk_sys c db ck fl)
      (mk_sys (pc_set (ck_monotonic ck) (system_cache_key pid) compute_admin_permissions
                 ttl_seconds c) db ck fl)
| as_invalidate c db ck fl o pt i :
    authz_step (mk_sys c db ck fl) (mk_sys (invalidate_principal o pt i c) db ck fl)
| as_invalidate_admin c db ck fl i :
    authz_step (mk_sys c db ck fl) (mk_sys (invalidate_system_admin i c) db ck fl)
| as_clear c db ck fl :
    authz_step (mk_sys c db ck fl) (mk_sys (pc_clear c) db ck fl).

(** In [s0] nothing is known of [x]: no entry is live and no computation of it
    is in flight. *)
Definition unknown (x : subject) (s0 : sys) : Prop :=
  (forall t, mono s0 <= t -> pc_live (s_cache s0) t (subject_key x) = None)
  /\ (forall ps, (x, ps) ∉ s_inflight s0).

(** Computations in flight are for well-formed subjects, and the tables meet
    their constraints. *)
Definition sys_ok (s : sys) : Prop :=
  iam_wf (s_db s) /\ (forall x ps, (x, ps) ∈ s_inflight s -> subject_wf x).

(** A run and the states it visited, the last one first. *)
Inductive run (s0 : sys) : list sys -> sys -> Prop :=
| run_start : run s0 [s0] s0
| run_step tr s s' : run s0 tr s -> authz_step s s' -> run s0 (s' :: tr) s'.

(** [s1] was visited at or before the visit [s2]. *)
Definition visited_before (tr : list sys) (s1 s2 : sys) : Prop :=
  exists l1 l2, tr = l1 ++ s2 :: l2 /\ s1 ∈ s2 :: l2.

(** Every computation in flight for [x] read its value in a visited state;
    every live entry of [x] holds a value read and then stored in visited
    states, and stops being live 60 seconds after the store. *)
Definition since (x : subject) (tr : list sys) (s : sys) : Prop :=
  (forall ps, (x, ps) ∈ s_inflight s ->
     exists s1, s1 ∈ tr /\ subject_permissions x (utc s1) (s_db s1) = Ok ps)
  /\ (forall t ps, mono s <= t -> pc_live (s_cache s) t (subject_key x) = Some ps ->
     exists s1 s2, visited_before tr s1 s2
       /\ subject_permissions x (utc s1) (s_db s1) = Ok ps
       /\ t < mono s2 + micros DEFAULT_TTL_SECONDS).

Lemma unknown_since x s0 : unknown x s0 -> since x [s0] s0.
Proof.
  intros [Hl Hf]. split; [intros ps Hin; by apply Hf in Hin|].
  intros t ps Ht Hp. rewrite Hl in Hp; done.
Qed.

Lemma visited_before_cons tr s s1 s2 : visited_before tr s1 s2 -> visited_before (s :: tr) s1 s2.
Proof. intros (l1 & l2 & -> & ?). by exists (s :: l1), l2. Qed.

Lemma visited_before_head tr s s1 : s1 ∈ tr -> visited_before (s :: tr) s1 s.
Proof. intros. exists [], tr. split; [done|]. by apply elem_of_cons; right. Qed.

Lemma visited_before_in tr s1 s2 : visited_before tr s1 s2 -> s1 ∈ tr.
Proof. intros (l1 & l2 & -> & ?). by apply elem_of_app; right. Qed.

Lemma clamp_ttl_bounds z : 0 <= clamp_ttl z <= DEFAULT_TTL_SECONDS.
Proof. unfold clamp_ttl, DEFAULT_TTL_SECONDS. repeat case_match; lia. Qed.

Lemma sys_ok_step s s' : authz_step s s' -> sys_ok s -> sys_ok s'.
Proof.
  intros Hs [Hwf Hfl]. split.
  - destruct Hs; done.
  - destruct Hs; simpl in *; try done; intros y ps Hin; [|set_solver].
    apply elem_of_cons in Hin as [?|?]; [naive_solver|eauto].
Qed.

(** A step that adds no computation of [x] and makes nothing live keeps
    [since]. *)
Lemma since_weaken x tr s s' :
  mono s <= mono s' ->
  (forall ps, (x, ps) ∈ s_inflight s' -> (x, ps) ∈ s_inflight s) ->
  (forall t ps, mono s' <= t -> pc_live (s_cache s') t (subject_key x) = Some ps ->
     pc_live (s_cache s) t (subject_key x) = Some ps) ->
  since x tr s -> since x (s' :: tr) s'.
Proof.
  intros Hm Hfl Hlive [HF HL]. split.
  - intros ps Hin. destruct (HF ps (Hfl _ Hin)) as (s1 & ? & ?). exists s1. by rewrite elem_of_cons; auto.
  - intros t ps Ht Hp. destruct (HL t ps) as (s1 & s2 & ? & ? & ?); [lia|by apply Hlive|].
    exists s1, s2. auto using visited_before_cons.
Qed.

(** A computation of [x] reads the tables. *)
Lemma since_fetch x tr c db ck fl y perms :
  subject_permissions y (ck_utc ck) db = Ok perms ->
  since x tr (mk_sys c db ck fl) ->
  since x (mk_sys c db ck ((y, perms) :: fl) :: tr) (mk_sys c db ck ((y, perms) :: fl)).
Proof.
  intros Hc [HF HL]. split; simpl in *.
  - intros ps [?|Hin]%elem_of_cons; simplify_eq/=.
    + eexists. split; [by apply elem_of_cons; left|]. done.
    + destruct (HF ps Hin) as (s1 & ? & ?). exists s1. by rewrite elem_of_cons; auto.
  - intros t ps Ht Hp. destruct (HL t ps Ht Hp) as (s1 & s2 & ? & ? & ?).
    exists s1, s2. auto using visited_before_cons.
Qed.

(** A computation of [x] stores its result. *)
Lemma since_store x tr c db ck fl1 perms fl2 :
  let s := mk_sys c db ck (fl1 ++ (x, perms) :: fl2) in
  let s' := mk_sys (pc_set (ck_monotonic ck) (subject_key x) perms ttl_seconds c) db ck (fl1 ++ fl2) in
  since x tr s -> since x (s' :: tr) s'.
Proof.
  intros s s' [HF HL]. split; simpl in *.
  - intros ps Hin. destruct (HF ps) as (s1 & ? & ?); [set_solver|]. exists s1. by rewrite elem_of_cons; auto.
  - intros t ps Ht [-> Hlt]%pc_set_same.
    destruct (HF perms) as (s1 & ? & ?); [set_solver|].
    exists s1, s'. pose proof (clamp_ttl_bounds ttl_seconds). unfold micros in *.
    split_and!; [by apply visited_before_head|done|simpl; lia].
Qed.

Lemma since_step x tr s s' :
  subject_wf x -> sys_ok s -> authz_step s s' -> since x tr s -> since x (s' :: tr) s'.
Proof.
  intros Hx [_ Hok] Hs Hsince.
  destruct Hs as [| | | |c db ck fl1 y perms fl2| | | |].
  4: by apply since_fetch.
  4: { destruct (decide (subject_key x = subject_key y)) as [Heq|Hne].
       - apply subject_key_inj in Heq as <-; [by apply since_store|done|].
         eapply (Hok y perms). simpl. set_solver.
       - refine (since_weaken _ _ _ _ _ _ _ Hsince); [simpl; lia| |by intros t ps _; apply pc_set_other].
         simpl. set_solver. }
  all: refine (since_weaken _ _ _ _ _ _ _ Hsince); [simpl; lia|done|]; simpl; intros t ps Ht Hp.
  - done.
  - done.
  - by eapply pc_get_keeps.
  - eapply pc_set_other; [|exact Hp]. by apply system_key_separate.
  - by eapply pc_invalidate_other.
  - by eapply pc_invalidate_other.
  - by rewrite pc_clear_live in Hp.
Qed.

(** *** An inactive principal *)

Lemma subject_permissions_active x now db ps :
  iam_wf db -> subject_wf x -> subject_permissions x now db = Ok ps -> active_principal db x.
Proof.
  intros Hwf (_ & _ & Ht). unfold subject_permissions, active_principal.
  destruct x as [o pt i]; simpl in *. destruct Ht as [-> | ->]; simpl; intros Hc.
  - by apply (compute_user_permissions_spec db i o now ps Hwf) in Hc as (_ & ? & _).
  - by apply (compute_service_account_permissions_spec db i o now ps Hwf) in Hc as (_ & ? & _).
Qed.

(** Every computation of [x] in flight is one of [fl0], and every live entry was
    stored by such a computation, less than 60 seconds after it was last in
    flight. *)
Definition lingering (x : subject) (fl0 : list (subject * gset string)) (tr : list sys) (s : sys) : Prop :=
  (forall ps, (x, ps) ∈ s_inflight s -> (x, ps) ∈ fl0)
  /\ (forall t ps, mono s <= t -> pc_live (s_cache s) t (subject_key x) = Some ps ->
     exists s1, s1 ∈ tr /\ (x, ps) ∈ fl0 /\ (x, ps) ∈ s_inflight s1 /\ t < mono s1 + micros DEFAULT_TTL_SECONDS).

Lemma lingering_weaken x fl0 tr s s' :
  mono s <= mono s' ->
  (forall ps, (x, ps) ∈ s_inflight s' -> (x, ps) ∈ s_inflight s) ->
  (forall t ps, mono s' <= t -> pc_live (s_cache s') t (subject_key x) = Some ps ->
     pc_live (s_cache s) t (subject_key x) = Some ps) ->
  lingering x fl0 tr s -> lingering x fl0 (s' :: tr) s'.
Proof.
  intros Hm Hfl Hlive [HF HL]. split; [eauto|].
  intros t ps Ht Hp. destruct (HL t ps) as (s1 & ? & ?); [lia|by apply Hlive|].
  exists s1. rewrite elem_of_cons. auto.
Qed.

Lemma lingering_store x fl0 tr c db ck fl1 perms fl2 :
  let s := mk_sys c db ck (fl1 ++ (x, perms) :: fl2) in
  let s' := mk_sys (pc_set (ck_monotonic ck) (subject_key x) perms ttl_seconds c) db ck (fl1 ++ fl2) in
  s ∈ tr -> lingering x fl0 tr s -> lingering x fl0 (s' :: tr) s'.
Proof.
  intros s s' Hin [HF HL]. split; simpl in *; [intros ps Hps; apply HF; set_solver|].
  intros t ps Ht [-> Hlt]%pc_set_same. exists s. pose proof (clamp_ttl_bounds ttl_seconds). unfold micros in *.
  split_and!; [by apply elem_of_cons; right|apply HF; set_solver|simpl; set_solver|simpl; lia].
Qed.

Lemma lingering_step x fl0 tr s s' :
  subject_wf x -> sys_ok s -> s ∈ tr -> ~ active_principal (s_db s) x ->
  authz_step s s' -> lingering x fl0 tr s -> lingering x fl0 (s' :: tr) s'.
Proof.
  intros Hx [Hwf Hok] Hin Hna Hs Hl.
  destruct Hs as [| | |c db ck fl y perms Hy Hps|c db ck fl1 y perms fl2| | | |].
  5: { destruct (decide (subject_key x = subject_key y)) as [Heq|Hne].
       - apply subject_key_inj in Heq as <-; [by apply lingering_store|done|].
         eapply (Hok y perms). simpl. set_solver.
       - refine (lingering_weaken _ _ _ _ _ _ _ _ Hl); [simpl; lia| |by intros t ps _; apply pc_set_other].
         simpl. set_solver. }
  all: refine (lingering_weaken _ _ _ _ _ _ _ _ Hl); [simpl; lia|try done|]; simpl.
  4: { intros ps [E|Hps']%elem_of_cons; [|done]. simplify_eq. destruct Hna. by eapply subject_permissions_active. }
  all: intros t ps Ht Hp; try done.
  - by eapply pc_get_keeps.
  - eapply pc_set_other; [|exact Hp]. by apply system_key_separate.
  - by eapply pc_invalidate_other.
  - by eapply pc_invalidate_other.
  - by rewrite pc_clear_live in Hp.
Qed.

Lemma run_lingering x s0 tr s :
  subject_wf x -> sys_ok s0 -> (forall t, pc_live (s_cache s0) t (subject_key x) = None) ->
  run s0 tr s -> (forall s1, s1 ∈ tr -> ~ active_principal (s_db s1) x) ->
  lingering x (s_inflight s0) tr s /\ s ∈ tr /\ sys_ok s.
Proof.
  intros Hx Hok Hu Hr Hna. induction Hr as [|tr s s' Hr IH Hst].
  - split; [|split; [by left|done]]. split; [done|]. intros t ps _. by rewrite Hu.
  - destruct IH as (Hl & Hin & Hsok). { intros s1 H1. apply Hna. by right. }
    split; [|split; [by left|by eapply sys_ok_step]].
    eapply lingering_step; [done|done|done| |done|done]. apply Hna. by right.
Qed.

Lemma run_since x s0 tr s :
  subject_wf x -> sys_ok s0 -> unknown x s0 -> run s0 tr s ->
  since x tr s /\ s ∈ tr /\ (forall s1, s1 ∈ tr -> sys_ok s1).
Proof.
  intros Hx Hok Hu Hr. induction Hr as [|tr s s' Hr (IH & Hin & Hall) Hst].
  - split; [by apply unknown_since|]. split; [by left|]. by intros s1 ->%list_elem_of_singleton.
  - assert (sys_ok s') by eauto using sys_ok_step.
    split; [eauto using since_step|]. split; [by left|].
    by intros s1 [->|?]%elem_of_cons; auto.
Qed.
End system.

(** ** Decisions *)

Section decisions.
Context {C : Type} `{PermissionCache C}.
Context (ttl_seconds : Z).

Lemma effective_permissions_subject t x scopes force ck db (c : C) :
  subject_of t = Some x ->
  effective_permissions ttl_seconds t scopes force ck db c =
  cached_permissions ttl_seconds (subject_key x) force
    (subject_permissions x (ck_utc ck) db) scopes ck c.
Proof.
  unfold subject_of, effective_permissions, subject_key, subject_permissions.
  destruct (String.eqb (pr_type (tc_principal t)) "user").
  - destruct (pr_user_id (tc_principal t)); intros; by simplify_eq/=.
  - destruct (String.eqb (pr_type (tc_principal t)) "service_account"); simpl; [|done].
    destruct (String.eqb (pr_id (tc_principal t)) ""); intros; by simplify_eq/=.
Qed.

Lemma effective_permissions_no_subject t scopes force ck db (c : C) :
  subject_of t = None ->
  effective_permissions ttl_seconds t scopes force ck db c = (Err (authorize_err AUTHENTICATION_INVALID), c).
Proof.
  unfold subject_of, effective_permissions.
  destruct (String.eqb (pr_type (tc_principal t)) "user").
  - by destruct (pr_user_id (tc_principal t)).
  - destruct (String.eqb (pr_type (tc_principal t)) "service_account"); simpl; [|done].
    by destruct (String.eqb (pr_id (tc_principal t)) "").
Qed.

Lemma subject_of_type t x :
  subject_of t = Some x -> su_type x = "user"%string \/ su_type x = "service_account"%string.
Proof. unfold subject_of. intros. repeat case_match; simplify_option_eq; auto. Qed.

Lemma apply_scopes_spec ps scopes p : p ∈ apply_scopes ps scopes <-> p ∈ ps /\ in_scopes scopes p.
Proof. destruct scopes; simpl; set_solver. Qed.

(** An allowed decision comes from the live entry or from a computation. *)
Lemma authorize_allowed t p scopes force ck db (c : C) :
  (authorize ttl_seconds t p scopes force ck db c).1 = Ok tt ->
  exists x ps, subject_of t = Some x /\ p ∈ ps /\ in_scopes scopes p
    /\ (subject_permissions x (ck_utc ck) db = Ok ps
        \/ (force = false /\ pc_live c (ck_monotonic ck) (subject_key x) = Some ps)).
Proof.
  unfold authorize. destruct (subject_of t) as [x|] eqn:Ht.
  2: { by rewrite effective_permissions_no_subject. }
  rewrite (effective_permissions_subject t x) by done. unfold cached_permissions.
  destruct force.
  - destruct (subject_permissions x (ck_utc ck) db) as [ps|e] eqn:Hp; [|done].
    case_bool_decide as Hin; [|done]. intros _. apply apply_scopes_spec in Hin as [? ?].
    exists x, ps. eauto 10.
  - destruct (pc_get (ck_monotonic ck) (subject_key x) c) as [cached c1] eqn:Hg.
    assert (cached = pc_live c (ck_monotonic ck) (subject_key x)) as Hc by (rewrite <- pc_get_live, Hg; done).
    destruct cached as [ps|].
    + case_bool_decide as Hin; [|done]. intros _. apply apply_scopes_spec in Hin as [? ?]. exists x, ps. eauto 10.
    + destruct (subject_permissions x (ck_utc ck) db) as [ps|e] eqn:Hp; [|done].
      case_bool_decide as Hin; [|done]. intros _. apply apply_scopes_spec in Hin as [? ?].
      exists x, ps. eauto 10.
Qed.

(** With [force_refresh] the service decides exactly the specification,
    whatever the cache holds: it allows if and only if the Org is active, the
    principal's membership (or service account, of this Org) is active, an
    unexpired binding in this Org names a role that carries the permission,
    the permission is not a platform one and the API-key scopes, if any,
    contain it. *)
Theorem authorize_fresh_exact t p scopes ck db (c : C) :
  iam_wf db ->
  (authorize ttl_seconds t p scopes true ck db c).1 = Ok tt <->
  exists x, subject_of t = Some x /\ granted db (ck_utc ck) x p /\ in_scopes scopes p.
Proof.
  intros Hwf. split.
  - intros (x & ps & Hx & Hp & Hsc & [Hc|[? _]])%authorize_allowed; [|done].
    exists x. split; [done|]. split; [|done].
    eapply subject_permissions_granted; eauto using subject_of_type.
  - intros (x & Hx & Hg & Hsc). pose proof (subject_of_type _ _ Hx) as Hty.
    destruct (granted_permissions x (ck_utc ck) db p Hwf Hty Hg) as [ps Hps].
    unfold authorize. rewrite (effective_permissions_subject t x) by done.
    unfold cached_permissions. rewrite Hps, bool_decide_eq_true_2; [done|].
    apply apply_scopes_spec. split; [|done]. by eapply subject_permissions_granted.
Qed.

(** In a state the run [tr] visited, the tables granted [p] to [x], and the
    result read there was stored, at that or a later visit, less than 60
    seconds before [s]. *)
Definition recently_granted (tr : list (sys (C := C))) (s : sys (C := C)) (x : subject) (p : string) : Prop :=
  exists s1 s2, visited_before tr s1 s2
    /\ granted (s_db s1) (ck_utc (s_clock s1)) x p
    /\ ck_monotonic (s_clock s) < ck_monotonic (s_clock s2) + micros DEFAULT_TTL_SECONDS.

(** A value computed now or live in the cache was recently granted. *)
Lemma known_recently_granted x p ps s0 tr s :
  subject_wf x -> sys_ok s0 -> unknown x s0 -> run ttl_seconds s0 tr s ->
  subject_permissions x (ck_utc (s_clock s)) (s_db s) = Ok ps
  \/ pc_live (s_cache s) (ck_monotonic (s_clock s)) (subject_key x) = Some ps ->
  p ∈ ps -> recently_granted tr s x p.
Proof.
  intros Hwf Hok Hu Hs Hd Hp. pose proof Hwf as (_ & _ & Hty).
  destruct (run_since ttl_seconds x s0 tr s) as ([_ HL] & Hin & Hall); [done..|].
  assert (forall s1, s1 ∈ tr -> subject_permissions x (ck_utc (s_clock s1)) (s_db s1) = Ok ps ->
            granted (s_db s1) (ck_utc (s_clock s1)) x p) as Hgr.
  { intros s1 H1 Hps. eapply subject_permissions_granted; eauto. by apply Hall. }
  destruct Hd as [Hc|Hl].
  - exists s, s. assert (0 < micros DEFAULT_TTL_SECONDS) by done.
    apply list_elem_of_split in Hin as (l1 & l2 & ->).
    split_and!; [exists l1, l2; split; [done|by left]|apply Hgr; [set_solver|done]|lia].
  - destruct (HL _ ps (Z.le_refl _) Hl) as (s1 & s2 & Hv & ? & ?). exists s1, s2.
    eauto using visited_before_in.
Qed.

Lemma decision_since t x p scopes force s0 tr s :
  subject_of t = Some x -> subject_wf x -> sys_ok s0 -> unknown x s0 ->
  run ttl_seconds s0 tr s ->
  (authorize ttl_seconds t p scopes force (s_clock s) (s_db s) (s_cache s)).1 = Ok tt ->
  in_scopes scopes p /\ recently_granted tr s x p.
Proof.
  intros Hx Hwf Hok Hu Hs (x' & ps & Hx' & Hp & Hsc & Hd)%authorize_allowed. simplify_eq/=.
  split; [done|]. eapply known_recently_granted; eauto. naive_solver.
Qed.

(** From a state without a live entry of [x], and as long as [x] is inactive, an
    allowed decision rests on a computation of [x] that was in flight there and
    still was less than 60 seconds ago. *)
Lemma decision_lingering t x p scopes force s0 tr s :
  subject_of t = Some x -> subject_wf x -> sys_ok s0 ->
  (forall u, pc_live (s_cache s0) u (subject_key x) = None) -> run ttl_seconds s0 tr s ->
  (forall s1, s1 ∈ tr -> ~ active_principal (s_db s1) x) ->
  (authorize ttl_seconds t p scopes force (s_clock s) (s_db s) (s_cache s)).1 = Ok tt ->
  exists s1 ps, s1 ∈ tr /\ (x, ps) ∈ s_inflight s0 /\ (x, ps) ∈ s_inflight s1 /\ p ∈ ps
    /\ ck_monotonic (s_clock s) < ck_monotonic (s_clock s1) + micros DEFAULT_TTL_SECONDS.
Proof.
  intros Hx Hwf Hok Hu Hr Hna (x' & ps & Hx' & Hp & _ & Hd)%authorize_allowed. simplify_eq.
  destruct (run_lingering ttl_seconds x s0 tr s Hwf Hok Hu Hr Hna) as ([_ HL] & Hin & [Hsok _]).
  destruct Hd as [Hc|[_ Hl]].
  - destruct (Hna s Hin). by eapply subject_permissions_active.
  - destruct (HL _ ps (Z.le_refl _) Hl) as (s1 & ? & ? & ? & ?). by exists s1, ps.
Qed.

(** What a call of [authorize] leaves in the cache for its subject. *)
Lemma authorize_live t x p scopes force ck db (c : C) u ps :
  subject_of t = Some x -> ck_monotonic ck <= u ->
  pc_live (authorize ttl_seconds t p scopes force ck db c).2 u (subject_key x) = Some ps ->
  subject_permissions x (ck_utc ck) db = Ok ps \/ pc_live c u (subject_key x) = Some ps.
Proof.
  intros Hx Hu. unfold authorize. rewrite (effective_permissions_subject t x) by done.
  unfold cached_permissions. destruct force; [|destruct (pc_get (ck_monotonic ck) (subject_key x) c) as [[ps'|] c1] eqn:Hg].
  2,3: pose proof (pc_get_keeps c (ck_monotonic ck) (subject_key x) u (subject_key x)) as Hk; rewrite Hg in Hk.
  all: try destruct (subject_permissions x (ck_utc ck) db) as [ps''|e] eqn:Hps; simpl;
    try case_bool_decide; simpl; intros Hl; auto.
  all: apply pc_set_same in Hl as [-> _]; auto.
Qed.

(** A whole call of [authorize] is a run of the system: a read of the cache
    and, on a miss, a fetch and a store. *)
Lemma authorize_runs t x p scopes force s :
  subject_of t = Some x -> subject_wf x ->
  exists tr, run ttl_seconds s tr
    (mk_sys (authorize ttl_seconds t p scopes force (s_clock s) (s_db s) (s_cache s)).2
       (s_db s) (s_clock s) (s_inflight s)).
Proof.
  intros Hx Hwf. destruct s as [c db ck fl]. simpl. unfold authorize.
  rewrite (effective_permissions_subject t x) by done. unfold cached_permissions.
  set (g := pc_get (ck_monotonic ck) (subject_key x) c).
  assert (Hmiss : forall c1 tr, run ttl_seconds (mk_sys c db ck fl) tr (mk_sys c1 db ck fl) ->
    forall ps, subject_permissions x (ck_utc ck) db = Ok ps -> exists tr', run ttl_seconds
      (mk_sys c db ck fl) tr'
      (mk_sys (pc_set (ck_monotonic ck) (subject_key x) ps ttl_seconds c1) db ck fl)).
  { intros c1 tr Hr ps Hps. eexists. eapply run_step; [eapply run_step; [exact Hr|by apply as_fetch]|].
    apply (as_store ttl_seconds c1 db ck [] x ps fl). }
  assert (Hget : run ttl_seconds (mk_sys c db ck fl) [mk_sys g.2 db ck fl; mk_sys c db ck fl] (mk_sys g.2 db ck fl))
    by (eapply run_step; [apply run_start|apply as_get]).
  destruct force; [|destruct g as [[ps|] c1]; simpl in *];
    try destruct (subject_permissions x (ck_utc ck) db) as [ps'|e] eqn:Hps; simpl;
    try case_bool_decide; simpl; eauto using run_start.
Qed.

Definition start (db : iam_db) (ck : clock) : sys := mk_sys pc_empty db ck [].

Lemma start_unknown x db ck : unknown x (start db ck).
Proof. split; simpl; [intros; apply pc_live_empty|set_solver]. Qed.

Lemma start_ok db ck : iam_wf db -> sys_ok (start db ck).
Proof. split; simpl; [done|set_solver]. Qed.

(** (C4) Bounded staleness, for every cache that meets the Protocol.  From an
    empty cache, through any interleaving of table writes, clock advances,
    concurrent computations, invalidations and evictions: when [authorize]
    allows a permission, the run visited a state in which the tables granted
    it to that very principal in that very Org, and the result read there was
    stored, at the same or a later visit, less than 60 seconds ago.  No cached answer of another principal,
    another Org or a platform administrator is ever used. *)
Theorem decision_freshness t x p scopes force db ck tr s :
  subject_of t = Some x -> subject_wf x -> iam_wf db ->
  run ttl_seconds (start db ck) tr s ->
  (authorize ttl_seconds t p scopes force (s_clock s) (s_db s) (s_cache s)).1 = Ok tt ->
  in_scopes scopes p /\ recently_granted tr s x p.
Proof. intros. eapply decision_since; eauto using start_unknown, start_ok. Qed.

(** Active invalidation.  When [invalidate_principal] runs for a
    principal with no permission computation in flight, and no state of the
    run from there on grants the permission, every later decision on that permission
    is a refusal: the answers computed before the invalidation are gone, and
    stay gone. *)
Theorem invalidate_revokes t x p scopes force s tr s' :
  subject_of t = Some x -> subject_wf x -> sys_ok s ->
  (forall ps, (x, ps) ∉ s_inflight s) ->
  let s0 := mk_sys (invalidate_principal (su_org x) (su_type x) (su_id x) (s_cache s))
              (s_db s) (s_clock s) (s_inflight s) in
  run ttl_seconds s0 tr s' ->
  (forall s1, s1 ∈ tr -> ~ granted (s_db s1) (ck_utc (s_clock s1)) x p) ->
  exists e, (authorize ttl_seconds t p scopes force (s_clock s') (s_db s') (s_cache s')).1 = Err e.
Proof.
  intros Hx Hwf Hok Hfl s0 Hs Hno.
  destruct (authorize ttl_seconds t p scopes force (s_clock s') (s_db s') (s_cache s')).1 as [[]|e] eqn:Ha; [|eauto].
  eapply (decision_since t x p scopes force s0 tr s') in Ha as (_ & s1 & s2 & H1 & Hg & _); try done.
  - exfalso. eapply Hno; [|exact Hg]. by eapply visited_before_in.
  - split; [|done]. intros u _. apply pc_invalidate_same.
Qed.

Lemma org_gate_err db o e :
  iam_wf db -> org_gate o db = Err e ->
  ae_permission e = None /\ iam_orgs db !! o <> Some "active"%string
  /\ (ae_code e = ORG_SUSPENDED /\ iam_orgs db !! o = Some "suspended"%string
      \/ ae_code e = ORG_DELETING /\ (iam_orgs db !! o = Some "deleting"%string
                                       \/ iam_orgs db !! o = Some "deleted"%string)
      \/ ae_code e = PERMISSION_DENIED /\ iam_orgs db !! o = None).
Proof.
  intros (Ho & _). unfold org_gate, get_org_status.
  destruct (iam_orgs db !! o) as [s|] eqn:E; [|naive_solver].
  specialize (Ho _ _ E). repeat (apply elem_of_cons in Ho as [->|Ho]); [naive_solver..|].
  by apply elem_of_nil in Ho.
Qed.

(** What a refused computation says: which gate it stopped at. *)
Lemma subject_permissions_err x now db e :
  iam_wf db -> su_type x = "user"%string \/ su_type x = "service_account"%string ->
  subject_permissions x now db = Err e ->
  ae_permission e = None /\
  ((iam_orgs db !! su_org x <> Some "active"%string /\ org_gate (su_org x) db = Err e)
   \/ (iam_orgs db !! su_org x = Some "active"%string /\ ~ active_principal db x /\
       ((ae_code e = PERMISSION_DENIED /\ su_type x = "user"%string)
        \/ (ae_code e = AUTHENTICATION_INVALID /\ su_type x = "service_account"%string
            /\ forall r, iam_service_accounts db !! su_id x = Some r -> sa_org_id r <> su_org x)
        \/ (ae_code e = PRINCIPAL_DISABLED /\ su_type x = "service_account"%string
            /\ exists r, iam_service_accounts db !! su_id x = Some r /\ sa_org_id r = su_org x
                 /\ sa_status r = "disabled"%string)))).
Proof.
  intros Hwf Hty. unfold subject_permissions, active_principal.
  destruct (org_gate_cases (su_org x) db) as [Hg|[e' Hg]].
  2: { destruct (org_gate_err _ _ _ Hwf Hg) as (Hn & Hna & _).
       unfold compute_user_permissions, compute_service_account_permissions. rewrite Hg.
       case_match; simpl; intros; simplify_eq/=; auto. }
  assert (Ha := proj1 (org_gate_ok db _ Hwf) Hg).
  destruct Hty as [Ht|Ht]; rewrite Ht; simpl.
  - unfold compute_user_permissions, get_membership_any_status. rewrite Hg. simpl.
    intros. repeat case_match; simplify_eq/=; split; try done; right; (split; [done|]);
      (split; [congruence || (intros ?; simplify_eq/=)|auto]).
  - unfold compute_service_account_permissions. rewrite Hg. simpl.
    destruct (iam_service_accounts db !! su_id x) as [r|]; intros; simplify_eq/=; [|naive_solver].
    destruct (String.eqb_spec (sa_org_id r) (su_org x)); simplify_eq/=; [|naive_solver].
    destruct (String.eqb_spec (sa_status r) "disabled"); simplify_eq/=. naive_solver congruence.
Qed.

(** The stable codes of a refusal: [ORG_SUSPENDED] and [ORG_DELETING]
    name exactly the Org's state; [PRINCIPAL_DISABLED] exactly a disabled
    service account of this Org; [AUTHENTICATION_INVALID] exactly a service
    account that this Org does not have, so that an account of another Org and
    no account at all look the same; and the error names the permission exactly
    when Org and principal are in good standing and only the permission is
    missing.  The HTTP status is 401 or 403. *)
Theorem refusal_reason t x p scopes ck db (c : C) e :
  iam_wf db -> subject_of t = Some x ->
  (authorize ttl_seconds t p scopes true ck db c).1 = Err e ->
  let org := iam_orgs db !! su_org x in
  (ae_code e = ORG_SUSPENDED <-> org = Some "suspended"%string)
  /\ (ae_code e = ORG_DELETING <-> org = Some "deleting"%string \/ org = Some "deleted"%string)
  /\ (ae_code e = PRINCIPAL_DISABLED <->
       org = Some "active"%string /\ su_type x = "service_account"%string
       /\ exists r, iam_service_accounts db !! su_id x = Some r /\ sa_org_id r = su_org x
            /\ sa_status r = "disabled"%string)
  /\ (ae_code e = AUTHENTICATION_INVALID <->
       org = Some "active"%string /\ su_type x = "service_account"%string
       /\ forall r, iam_service_accounts db !! su_id x = Some r -> sa_org_id r <> su_org x)
  /\ (ae_permission e = Some p <-> org = Some "active"%string /\ active_principal db x)
  /\ exists status detail, authorize_error_to_http e = HTTPException status detail
       /\ (status = 401 \/ status = 403).
Proof.
  intros Hwf Hx Ha org. pose proof (subject_of_type _ _ Hx) as Hty.
  assert (Hhttp : exists status detail, authorize_error_to_http e = HTTPException status detail
            /\ (status = 401 \/ status = 403)).
  { unfold authorize_error_to_http. destruct (ae_code e); eauto 10. }
  unfold authorize in Ha. rewrite (effective_permissions_subject t x) in Ha by done.
  unfold cached_permissions in Ha.
  destruct (subject_permissions x (ck_utc ck) db) as [ps|e'] eqn:Hps; simpl in Ha.
  - assert (Hact : org = Some "active"%string /\ active_principal db x).
    { unfold subject_permissions in Hps. unfold active_principal.
      destruct Hty as [Ht|Ht]; rewrite Ht in *; simpl in *;
        [apply compute_user_permissions_spec in Hps|apply compute_service_account_permissions_spec in Hps];
        naive_solver. }
    destruct Hact as [Ho Hp]. rewrite Ho. case_bool_decide; simplify_eq/=.
    split_and!; [naive_solver..| | |naive_solver|exact Hhttp].
    { unfold active_principal in Hp. split; [done|]. intros (_ & Ht & r & Hr & Hro & Hrs).
      rewrite Ht in Hp. simpl in Hp. naive_solver congruence. }
    { unfold active_principal in Hp. split; [done|]. intros (_ & Ht & Hr).
      rewrite Ht in Hp. simpl in Hp. naive_solver. }
  - simplify_eq/=. destruct (subject_permissions_err x _ _ _ Hwf Hty Hps) as (Hn & [[Ho Hg]|(Ho & Hna & Hc)]).
    + destruct (org_gate_err _ _ _ Hwf Hg) as (_ & _ & Hc). subst org. rewrite Hn.
      destruct Hc as [[-> ->]|[[-> [-> | ->]]|[-> ->]]]; split_and!; try exact Hhttp; naive_solver.
    + subst org. rewrite Ho, Hn. destruct Hc as [[-> ?]|[(-> & ? & ?)|(-> & ? & r & ? & ? & ?)]];
        split_and!; try exact Hhttp; naive_solver congruence.
Qed.

(** The user a gated request acts as, and the owner a trusted internal caller
    acts for. *)
Definition acts_as (r : http_request) (t : tenant_context) (owner : string) : Prop :=
  match hr_user r with
  | Some (id, _) => owner = id
  | None => pr_user_id (tc_principal t) = Some owner
  end
  \/ (is_internal_owner_request r = true /\ owner = hr_owner_header r).

Lemma check_access_true threads thread_id u require_existing org :
  check_access threads thread_id u require_existing (Some org) = true ->
  (require_existing = true -> is_Some (threads !! thread_id))
  /\ forall row, threads !! thread_id = Some row ->
       th_org_id row = Some org /\ (th_user_id row = None \/ th_user_id row = u).
Proof.
  unfold check_access. destruct (threads !! thread_id) as [row|].
  - intros Hr. split; [by eexists|]. intros row' [= <-]. revert Hr.
    repeat case_bool_decide; simpl; try done. intros Hr.
    split; [by destruct (decide (th_org_id row = Some org))|].
    destruct (th_user_id row); [|by left]. right. by apply bool_decide_eq_true in Hr.
  - intros ->%negb_true_iff. done.
Qed.

Lemma http_not_handler e : authorize_error_to_http e <> Handler.
Proof. unfold authorize_error_to_http. by destruct (ae_code e). Qed.

(** What a request that passed an owner check has shown. *)
Lemma gate_admits permission require_existing threads db ck tr s r c' audits :
  iam_wf db -> run ttl_seconds (start db ck) tr s ->
  hr_bypass r = false ->
  (forall t x, hr_tenant r = Some t -> subject_of t = Some x -> subject_wf x) ->
  require_rbac ttl_seconds permission true require_existing threads (s_clock s) (s_db s) r (s_cache s)
    = (Handler, c', audits) ->
  audits = [] /\
  exists t thread_id,
    hr_tenant r = Some t /\ hr_thread_id r = Some thread_id
    /\ (require_existing = true -> is_Some (threads !! thread_id))
    /\ (forall row, threads !! thread_id = Some row ->
          th_org_id row = Some (tc_org_id t) /\ (forall owner, th_user_id row = Some owner -> acts_as r t owner))
    /\ ((tc_auth_method t = "internal"%string /\ is_internal_owner_request r = true)
        \/ exists x, subject_of t = Some x /\ recently_granted tr s x (permission_value permission)
             /\ in_scopes (tc_api_key_scopes t) (permission_value permission)).
Proof.
  intros Hwf Hs Hb Hids. unfold require_rbac. rewrite Hb.
  destruct (hr_tenant r) as [t|]; [|done].
  destruct (String.eqb (tc_auth_method t) "internal" && is_internal_owner_request r) eqn:Hskip;
    [|destruct (authorize _ _ _ _ _ _ _ _) as [[[]|e] c1] eqn:Ha]; intros [= Hr <- <-];
    [| |by apply http_not_handler in Hr].
  all: split; [done|]; unfold owner_gate in *; destruct (hr_thread_id r) as [th|]; [|done].
  all: match goal with H : (if ?b then Handler else _) = Handler |- _ => destruct b eqn:Hacc; [clear H|done] end.
  all: assert ((require_existing = true -> is_Some (threads !! th)) /\ forall row, threads !! th = Some row ->
         th_org_id row = Some (tc_org_id t) /\ forall owner, th_user_id row = Some owner -> acts_as r t owner) as [Hex Hrow]
    by (unfold acts_as; apply orb_true_iff in Hacc as [Hacc|[Hint Hacc]%andb_true_iff];
        apply check_access_true in Hacc as [Hex Hrow]; (split; [exact Hex|]); intros row Hth;
        destruct (Hrow row Hth) as [? Hu]; (split; [done|]); intros owner Howner; destruct Hu as [Hu|Hu]; try congruence;
        [left; destruct (hr_user r) as [[]|]; congruence|right; split; [done|congruence]]).
  all: exists t, th; split_and!; try done.
  - left. apply andb_true_iff in Hskip as [?%String.eqb_eq ?]. done.
  - right. assert (exists x, subject_of t = Some x) as [x Hx].
    { destruct (authorize_allowed t (permission_value permission) (tc_api_key_scopes t) false
        (s_clock s) (s_db s) (s_cache s)) as (x & ? & ? & _); [by rewrite Ha|eauto]. }
    destruct (decision_since t x (permission_value permission) (tc_api_key_scopes t) false
      (start db ck) tr s) as (? & ?);
      eauto using start_unknown, start_ok. by rewrite Ha.
Qed.

(** The gate in front of a mutating thread route ([owner_check] and
    [require_existing]).  From an empty cache and through any interleaving of
    the service's steps, a request reaches the handler only with a bound
    tenant; on a thread that exists, belongs to the tenant's Org and is unowned
    or owned by the acting user (or by the owner a trusted internal caller
    names); and, off the internal-owner path, with a permission that the tables
    granted the principal when a result stored less than 60 seconds ago was
    read.  It then enqueues no denial. *)
Theorem gate_isolates permission threads db ck tr s r c' audits :
  iam_wf db -> run ttl_seconds (start db ck) tr s ->
  hr_bypass r = false ->
  (forall t x, hr_tenant r = Some t -> subject_of t = Some x -> subject_wf x) ->
  require_rbac ttl_seconds permission true true threads (s_clock s) (s_db s) r (s_cache s)
    = (Handler, c', audits) ->
  audits = [] /\
  exists t thread_id row,
    hr_tenant r = Some t /\ hr_thread_id r = Some thread_id /\ threads !! thread_id = Some row
    /\ th_org_id row = Some (tc_org_id t)
    /\ (forall owner, th_user_id row = Some owner -> acts_as r t owner)
    /\ ((tc_auth_method t = "internal"%string /\ is_internal_owner_request r = true)
        \/ exists x, subject_of t = Some x /\ recently_granted tr s x (permission_value permission)
             /\ in_scopes (tc_api_key_scopes t) (permission_value permission)).
Proof.
  intros Hwf Hs Hb Hids Hg. destruct (gate_admits _ _ _ _ _ _ _ _ _ _ Hwf Hs Hb Hids Hg) as (Ha & t & th & Ht & Hth & Hex & Hrow & Hp).
  destruct (Hex eq_refl) as [row Hlook]. destruct (Hrow row Hlook) as [Ho Hown]. split; [done|]. by exists t, th, row.
Qed.
End decisions.

(** ** Concrete runs *)

Definition demo_iam : iam_db :=
  mk_iam {["acme"%string := "active"%string]}
    {[("acme"%string, "u1"%string) := "active"%string]}
    {["sa1"%string := mk_sa "acme" "disabled"]}
    {["r1"%string := mk_role "custom" None [PStr "runtime:run:create"; PStr "system:org:create"; PNotStr] true None]}
    [mk_binding "acme" "user" "u1" "r1" (Some 5000); mk_binding "acme" "user" "u2" "r1" None].

(** The same tables after the binding of [u1] was deleted. *)
Definition demo_revoked : iam_db :=
  mk_iam (iam_orgs demo_iam) (iam_memberships demo_iam) (iam_service_accounts demo_iam)
    (iam_roles demo_iam) [mk_binding "acme" "user" "u2" "r1" None].

Definition demo_ck : clock := mk_clock 100 1000.
Definition demo_user : subject := mk_subject "acme" "user" "u1".
Definition demo_ctx : tenant_context :=
  mk_tenant "acme" (mk_principal "user" "u1" (Some "u1"%string)) "session" None.
Definition demo_sa_ctx : tenant_context :=
  mk_tenant "acme" (mk_principal "service_account" "sa1" None) "api_key" None.

Definition demo_start : sys (C := cache_entries) := start demo_iam demo_ck.
Definition demo_perms : gset string := {["runtime:run:create"%string]}.

(** A computation read the tables, stored its result, and 59 seconds passed
    during which the binding was deleted. *)
Definition demo_cached : sys (C := cache_entries) :=
  mk_sys (pc_set 100 (subject_key demo_user) demo_perms 60 pc_empty) demo_revoked
    (mk_clock 59000100 59001000) [].

Lemma demo_iam_wf : iam_wf demo_iam /\ iam_wf demo_revoked.
Proof.
  split; (split; [|split]); intros ? ?; simpl; rewrite lookup_singleton_Some;
    intros [_ <-]; simpl; set_solver.
Qed.

Lemma demo_user_wf : subject_wf demo_user.
Proof. by repeat split; left. Qed.

Lemma demo_fetch ck :
  ck_utc ck = 1000 -> subject_permissions demo_user (ck_utc ck) demo_iam = Ok demo_perms.
Proof. intros ->. vm_compute. reflexivity. Qed.

Lemma demo_cached_reachable : exists tr, run 60 demo_start tr demo_cached.
Proof.
  eexists. eapply run_step; [eapply run_step; [eapply run_step; [eapply run_step; [apply run_start|]|]|]|].
  - apply (as_fetch 60 _ _ _ _ demo_user demo_perms demo_user_wf). by apply demo_fetch.
  - apply (as_store 60 _ _ _ [] demo_user demo_perms []).
  - apply (as_write 60 _ _ demo_revoked). apply demo_iam_wf.
  - apply (as_time 60 _ _ _ (mk_clock 59000100 59001000)). vm_compute. discriminate.
Qed.

Lemma authorize_fresh_exact_witness :
  granted demo_iam 1000 demo_user "runtime:run:create"
  /\ (authorize 60 demo_ctx "runtime:run:create" None true (s_clock demo_cached)
        (s_db demo_cached) (s_cache demo_cached)).1 <> Ok tt.
Proof.
  split.
  - destruct (proj1 (authorize_fresh_exact 60 demo_ctx "runtime:run:create" None demo_ck demo_iam
      (pc_empty : cache_entries) (proj1 demo_iam_wf))) as (x & Hx & Hg & _); [vm_compute; reflexivity|].
    injection Hx as <-. exact Hg.
  - vm_compute. discriminate.
Defined.

Lemma decision_freshness_witness :
  (authorize 60 demo_ctx "runtime:run:create" None false (s_clock demo_cached)
     (s_db demo_cached) (s_cache demo_cached)).1 = Ok tt
  /\ exists tr (s1 s2 : sys (C := cache_entries)), run 60 demo_start tr demo_cached
       /\ visited_before tr s1 s2
       /\ granted (s_db s1) (ck_utc (s_clock s1)) demo_user "runtime:run:create"
       /\ 59000100 < ck_monotonic (s_clock s2) + 60000000.
Proof.
  split; [vm_compute; reflexivity|]. destruct demo_cached_reachable as [tr Htr].
  destruct (decision_freshness 60 demo_ctx demo_user "runtime:run:create" None false demo_iam demo_ck
    tr demo_cached eq_refl demo_user_wf (proj1 demo_iam_wf) Htr)
    as (_ & s1 & s2 & ? & ? & ?); [vm_compute; reflexivity|].
  exists tr, s1, s2. auto.
Defined.

Lemma demo_revoked_denies now : ~ granted demo_revoked now demo_user "runtime:run:create".
Proof.
  intros (_ & _ & _ & b & r & Hb & _ & _ & Hid & _). apply list_elem_of_singleton in Hb as ->. done.
Qed.

Lemma invalidate_revokes_witness :
  exists e, (authorize 60 demo_ctx "runtime:run:create" None false (s_clock demo_cached) demo_revoked
     (invalidate_principal "acme" "user" "u1" (s_cache demo_cached))).1 = Err e.
Proof.
  apply (invalidate_revokes 60 demo_ctx demo_user "runtime:run:create" None false demo_cached
    [mk_sys (invalidate_principal "acme" "user" "u1" (s_cache demo_cached)) demo_revoked
       (s_clock demo_cached) []]
    (mk_sys (invalidate_principal "acme" "user" "u1" (s_cache demo_cached)) demo_revoked
       (s_clock demo_cached) []) eq_refl demo_user_wf).
  - split; [apply demo_iam_wf|]. simpl. intros x ps Hin. by apply elem_of_nil in Hin.
  - simpl. intros ps Hin. by apply elem_of_nil in Hin.
  - apply run_start.
  - intros s1 ->%list_elem_of_singleton. apply demo_revoked_denies.
Defined.

(** The computation in flight is what the proviso of [invalidate_revokes] is
    for: a result read before the binding was deleted and stored after the
    invalidation is served again, until its entry expires. *)
Example in_flight_result_survives_invalidation :
  exists tr (s : sys (C := cache_entries)), run 60 demo_start tr s
    /\ s_db s = demo_revoked
    /\ (exists s1 s2 l1 l2, tr = l1 ++ s2 :: s1 :: l2
          /\ s_cache s2 = invalidate_principal "acme" "user" "u1" (s_cache s1) /\ s_db s1 = demo_revoked)
    /\ (authorize 60 demo_ctx "runtime:run:create" None false (s_clock s) (s_db s) (s_cache s)).1 = Ok tt.
Proof.
  do 2 eexists. split_and!.
  - eapply run_step; [eapply run_step; [eapply run_step; [eapply run_step; [apply run_start|]|]|]|].
    + apply (as_fetch 60 _ _ _ _ demo_user demo_perms demo_user_wf). by apply demo_fetch.
    + apply (as_write 60 _ _ demo_revoked). apply demo_iam_wf.
    + apply (as_invalidate 60 _ _ _ _ "acme" "user" "u1").
    + apply (as_store 60 _ _ _ [] demo_user demo_perms []).
  - reflexivity.
  - eexists _, _, [_], _. split_and!; reflexivity.
  - vm_compute. reflexivity.
Qed.

Lemma refusal_reason_witness :
  exists e, (authorize 60 demo_sa_ctx "runtime:run:create" None true demo_ck demo_iam
       (pc_empty : cache_entries)).1 = Err e
    /\ ae_code e = PRINCIPAL_DISABLED /\ authorize_error_to_http e = HTTPException 403 "Principal is disabled".
Proof.
  eexists. split; [vm_compute; reflexivity|].
  destruct (refusal_reason 60 demo_sa_ctx (mk_subject "acme" "service_account" "sa1")
    "runtime:run:create" None demo_ck demo_iam (pc_empty : cache_entries)
    (authorize_err PRINCIPAL_DISABLED) (proj1 demo_iam_wf) eq_refl) as (_ & _ & Hd & _);
    [vm_compute; reflexivity|].
  split; [|reflexivity]. apply Hd. split_and!; [reflexivity..|].
  exists (mk_sa "acme" "disabled"). split_and!; reflexivity.
Defined.

Definition demo_threads : gmap string thread_row :=
  {["th1"%string := mk_thread (Some "acme"%string) (Some "u1"%string)]}.

Definition gate_request : http_request :=
  mk_http_request false (Some demo_ctx) (Some ("u1"%string, "user"%string)) "" (Some "th1"%string).

Lemma gate_isolates_witness :
  exists c' audits,
    require_rbac 60 RUNTIME_RUN_CREATE true true demo_threads (s_clock demo_cached)
      (s_db demo_cached) gate_request (s_cache demo_cached) = (Handler, c', audits)
    /\ audits = [] /\ exists row, demo_threads !! "th1"%string = Some row /\ th_org_id row = Some "acme"%string.
Proof.
  destruct demo_cached_reachable as [tr Htr].
  eexists _, []. split; [vm_compute; reflexivity|]. split; [reflexivity|].
  destruct (gate_isolates 60 RUNTIME_RUN_CREATE demo_threads demo_iam demo_ck tr demo_cached gate_request
    (require_rbac 60 RUNTIME_RUN_CREATE true true demo_threads (s_clock demo_cached)
      (s_db demo_cached) gate_request (s_cache demo_cached)).1.2 []
    (proj1 demo_iam_wf) Htr eq_refl) as (_ & t & th & row & Ht & Hth & Hrow & Horg & _).
  - intros t x Ht Hx. injection Ht as <-. injection Hx as <-. apply demo_user_wf.
  - vm_compute. reflexivity.
  - injection Ht as <-. injection Hth as <-. exists row. auto.
Defined.

(** The scrub of the role permissions keeps a string that no registry member
    has. *)
Example unregistered_permission_kept :
  "legacy:thing" ∉ known_values
  /\ scrub_permissions [PStr "legacy:thing"] = {["legacy:thing"]}.
Proof. split; [|vm_compute; reflexivity]. apply (bool_decide_unpack _). vm_compute. exact I. Qed.
