(* ===== verification/ReleaseApi.v ===== *)
(** * The channel endpoints

    [app/gateway/routers/agent_artifacts.py]: the handlers
    [promote_package_channel] and [rollback_package_channel], from the
    [require_rbac] decorator to the HTTP answer.  They join the two halves of
    the gateway: the Authorize Service of [Authorize] decides who may move a
    channel, the pipeline of [Idempotency] moves it.

    The two authorizations of one promote read the clocks and the IAM tables
    in one state. *)
From S2P Require Import Prelude Release ReleaseProps Idempotency Authorize AuthorizeProps.
Local Open Scope Z_scope.
Local Open Scope string_scope.

(** The body and the headers of a move request. *)
Record move_body : Type := mk_body {
  mb_target_version_id : string;
  mb_expected_channel_version : option Z;
  mb_workspace_id : option string;
  mb_reason : option string;
  mb_if_match : option string;
  mb_idempotency_key : option string
}.

(** The answer: the response with its ETag, or a status with its error code or
    detail. *)
Inductive api_outcome : Type :=
| ApiResponse (resp : promote_response) (etag_header : string)
| ApiError (status_code : Z) (detail : string).

(** The [except] clauses of the two handlers and the errors of the pipeline;
    what no clause catches is a 500. *)
Definition move_error_to_http (e : move_error) : api_outcome :=
  match e with
  | MVE_validation => ApiError 400 "validation_error"
  | MVE_idempotency_conflict _ => ApiError 409 "idempotency_conflict"
  | MVE_race_retry => ApiError 409 "release_conflict"
  | MVE_release RE_conflict => ApiError 409 "release_conflict"
  | MVE_release RE_gate => ApiError 409 "release_gate_violation"
  | MVE_release RE_value => ApiError 404 "Version not found."
  | MVE_release _ => ApiError 500 "Internal Server Error"
  end.

(** [_validate_channel]. *)
Definition validate_channel (channel : string) : result api_outcome unit :=
  if str_in channel ALLOWED_CHANNELS then Ok tt else Err (ApiError 404 "Channel not found.").

(** [_require_org_id]. *)
Definition require_org_id (r : http_request) : result api_outcome string :=
  match hr_tenant r with
  | Some t => if String.eqb (tc_org_id t) "" then Err (ApiError 400 "No active organization context.")
              else Ok (tc_org_id t)
  | None => Err (ApiError 400 "No active organization context.")
  end.

Section api.
Context {C : Type} `{PermissionCache C}.
Context (ttl_seconds : Z) (request_digest : list (string * json) -> string).

(** [_require_promote_permission]. *)
Definition require_promote_permission (channel : string) (ck : clock) (iam : iam_db)
    (r : http_request) (c : C) : result api_outcome unit * C :=
  if hr_bypass r then (Ok tt, c)
  else
    match hr_tenant r with
    | None => (Err (ApiError 401 "Authentication required"), c)
    | Some t =>
        let try p c0 := authorize ttl_seconds t (permission_value p) None false ck iam c0 in
        match try STUDIO_RELEASE_PROMOTE c with
        | (Ok _, c1) => (Ok tt, c1)
        | (Err _, c1) =>
            if String.eqb channel CHANNEL_DEV then
              match try STUDIO_RELEASE_PROMOTE_DEV c1 with
              | (Ok _, c2) => (Ok tt, c2)
              | (Err _, c2) => (Err (ApiError 403 "promote to dev requires studio:release:promote_dev or studio:release:promote."), c2)
              end
            else (Err (ApiError 403 ("promote to " +:+ channel +:+ " requires studio:release:promote.")), c1)
        end
    end.

(** The part both handlers share: the package of the caller's Org, then the
    pipeline. *)
Definition move_package_channel (action : string) (ids : move_ids) (r : http_request)
    (org_id package_id channel : string) (b : move_body) (gw : gateway_db) : api_outcome * gateway_db :=
  match get_agent_package package_id org_id (gw_release gw) with
  | Err _ => (ApiError 500 "Internal Server Error", gw)
  | Ok None => (ApiError 404 "Package not found.", gw)
  | Ok (Some _) =>
      let rq := Idempotency.mk_request (mb_if_match b) (mb_idempotency_key b)
        (mb_expected_channel_version b)
        (fun expected => mk_move org_id package_id channel (mb_target_version_id b) expected
           (fst <$> hr_user r) (Some "user") (mb_reason b) (mb_workspace_id b)) in
      match handle_move request_digest action ids rq gw with
      | (Ok resp, gw') => (ApiResponse resp (etag (ch_row_version resp.1)), gw')
      | (Err e, gw') => (move_error_to_http e, gw')
      end
  end.

(** [promote_package_channel] under its decorator. *)
Definition promote_package_channel (ids : move_ids) (ck : clock) (iam : iam_db)
    (r : http_request) (package_id channel : string) (b : move_body) (c : C) (gw : gateway_db)
    : api_outcome * C * gateway_db :=
  let '(gate, c1, _) := require_rbac ttl_seconds STUDIO_RELEASE_PROMOTE_DEV false false ∅ ck iam r c in
  match gate with
  | HTTPException code detail => (ApiError code detail, c1, gw)
  | GateValueError => (ApiError 500 "Internal Server Error", c1, gw)
  | Handler =>
      match require_org_id r, validate_channel channel with
      | Err e, _ => (e, c1, gw)
      | Ok _, Err e => (e, c1, gw)
      | Ok org_id, Ok _ =>
          match require_promote_permission channel ck iam r c1 with
          | (Err e, c2) => (e, c2, gw)
          | (Ok _, c2) =>
              let '(out, gw') :=
                move_package_channel EVENT_ACTION_PROMOTE ids r org_id package_id channel b gw in
              (out, c2, gw')
          end
      end
  end.

(** [rollback_package_channel] under its decorator. *)
Definition rollback_package_channel (ids : move_ids) (ck : clock) (iam : iam_db)
    (r : http_request) (package_id channel : string) (b : move_body) (c : C) (gw : gateway_db)
    : api_outcome * C * gateway_db :=
  let '(gate, c1, _) := require_rbac ttl_seconds STUDIO_RELEASE_ROLLBACK false false ∅ ck iam r c in
  match gate with
  | HTTPException code detail => (ApiError code detail, c1, gw)
  | GateValueError => (ApiError 500 "Internal Server Error", c1, gw)
  | Handler =>
      match require_org_id r, validate_channel channel with
      | Err e, _ => (e, c1, gw)
      | Ok _, Err e => (e, c1, gw)
      | Ok org_id, Ok _ =>
          let '(out, gw') :=
            move_package_channel EVENT_ACTION_ROLLBACK ids r org_id package_id channel b gw in
          (out, c1, gw')
      end
  end.
End api.

(** * Lemmas *)

(** A request that changed the tables committed one move. *)
Lemma handle_move_changed digest act ids rq gw res gw' :
  handle_move digest act ids rq gw = (res, gw') -> gw' <> gw ->
  exists ex resp, res = Ok resp
    /\ move_channel act ids (rq_args rq ex) (gw_release gw) = Ok (resp.1, resp.2, gw_release gw').
Proof.
  unfold handle_move, orchestrate_idempotent_move. intros Hm Hne.
  destruct (result_bind _ _) as [[ex key]|e]; [|by simplify_eq].
  destruct (match key with None => _ | Some k0 => _ end) as [[r0|]|e]; [| |by simplify_eq].
  { case_match; by simplify_eq. }
  destruct (move_and_store _ _ _ _ _ _) as [[resp dbx]|e] eqn:Hms.
  - injection Hm as <- <-. apply move_and_store_Ok in Hms as (rel & Hmv & Hrel & _).
    exists ex, resp. by rewrite Hrel.
  - repeat case_match; by simplify_eq.
Qed.

(** A move touches one channel: one of the Org, package and channel it names. *)
Lemma move_channel_frame sha act ids a db upd ev db' :
  release_inv sha db -> move_channel act ids a db = Ok (upd, ev, db') ->
  db_versions db' = db_versions db /\ db_packages db' = db_packages db
  /\ mv_channel a ∈ ALLOWED_CHANNELS
  /\ forall id c0, dict_get id (db_channels db) = Some c0 ->
       ~ (ch_org_id c0 = mv_org_id a /\ ch_package_id c0 = mv_package_id a /\ ch_channel c0 = mv_channel a) ->
       dict_get id (db_channels db') = Some c0.
Proof.
  intros Hi (c & c1 & db1 & t & Hgc & _ & _ & _ & _ & Hc1 & _ & _ & _ & ->)%move_channel_Ok.
  pose proof (get_or_create_owner _ _ _ _ _ _ _ _ _ Hgc) as Hown.
  destruct (inv_get_or_create sha _ _ _ _ _ _ _ _ _ Hgc Hi) as (_ & Hc & _).
  apply get_or_create_Ok in Hgc as [Hall Hgc].
  split_and!; try (destruct Hgc as [[_ ->]|(_ & _ & _ & ->)]; done).
  intros id c0 Hid Hno. simpl. rewrite dict_get_set. case_decide as E.
  - exfalso. subst id. destruct Hgc as [[_ ->]|(_ & Hn & -> & _)]; [|by simpl in *; congruence].
    rewrite Hc in Hid. injection Hid as ->. by apply Hno.
  - destruct Hgc as [[_ ->]|(_ & Hn & -> & ->)]; [done|]. simpl in *.
    rewrite dict_get_set_ne by congruence. done.
Qed.


Lemma move_package_channel_changed sha digest act ids r org pkg channel b gw out gw' :
  release_inv sha (gw_release gw) ->
  move_package_channel digest act ids r org pkg channel b gw = (out, gw') -> gw' <> gw ->
  (exists resp, out = ApiResponse resp (etag (ch_row_version resp.1)))
  /\ (exists row, dict_get pkg (db_packages (gw_release gw)) = Some row /\ pk_org_id row = org)
  /\ db_versions (gw_release gw') = db_versions (gw_release gw)
  /\ db_packages (gw_release gw') = db_packages (gw_release gw)
  /\ forall id c0, dict_get id (db_channels (gw_release gw)) = Some c0 ->
       ~ (ch_org_id c0 = org /\ ch_package_id c0 = pkg /\ ch_channel c0 = channel) ->
       dict_get id (db_channels (gw_release gw')) = Some c0.
Proof.
  intros Hi. unfold move_package_channel, get_agent_package, package_in_org.
  destruct (require_org org); simpl; [|intros; by simplify_eq].
  destruct (dict_get pkg (db_packages (gw_release gw))) as [row|]; [|intros; by simplify_eq].
  destruct (String.eqb_spec (pk_org_id row) org) as [Hr|]; [|intros; by simplify_eq].
  destruct (handle_move _ _ _ _ _) as [res gw1] eqn:Hm. intros Ho Hne.
  assert (gw1 = gw') as -> by (destruct res; by simplify_eq).
  destruct (handle_move_changed _ _ _ _ _ _ _ Hm Hne) as (ex & resp & -> & Hmv). simplify_eq/=.
  destruct (move_channel_frame sha _ _ _ _ _ _ _ Hi Hmv) as (? & ? & ? & ?). eauto 10.
Qed.

Section decisions.
Context {C : Type} `{PermissionCache C}.
Context (ttl_seconds : Z).

(** The cache left by the gate answers for a principal what the cache before
    it answered, or what the tables say now. *)
Lemma gate_live p oc re threads ck db r (c : C) out c1 audits t x u ps :
  hr_tenant r = Some t -> subject_of t = Some x -> ck_monotonic ck <= u ->
  require_rbac ttl_seconds p oc re threads ck db r c = (out, c1, audits) ->
  pc_live c1 u (subject_key x) = Some ps ->
  subject_permissions x (ck_utc ck) db = Ok ps \/ pc_live c u (subject_key x) = Some ps.
Proof.
  intros Ht Hx Hu. unfold require_rbac. rewrite Ht. destruct (hr_bypass r); [intros [= <- <- <-]; by right|].
  destruct (_ && _); [intros [= <- <- <-]; by right|].
  pose proof (authorize_live ttl_seconds t x (permission_value p) (tc_api_key_scopes t) false ck db c u) as Hl.
  destruct (authorize _ _ _ _ _ _ _ _) as [[[]|e] c2]; intros [= <- <- <-]; eauto.
Qed.

Lemma require_promote_permission_ok channel ck iam r t (c c' : C) :
  hr_bypass r = false -> hr_tenant r = Some t ->
  require_promote_permission ttl_seconds channel ck iam r c = (Ok tt, c') ->
  exists x p ps, subject_of t = Some x
    /\ (p = STUDIO_RELEASE_PROMOTE \/ (channel = CHANNEL_DEV /\ p = STUDIO_RELEASE_PROMOTE_DEV))
    /\ permission_value p ∈ ps
    /\ (subject_permissions x (ck_utc ck) iam = Ok ps
        \/ pc_live c (ck_monotonic ck) (subject_key x) = Some ps).
Proof.
  intros Hb Ht. unfold require_promote_permission. rewrite Hb, Ht.
  destruct (authorize _ _ (permission_value STUDIO_RELEASE_PROMOTE) _ _ _ _ c) as [[[]|e] c1] eqn:H1.
  - intros _. destruct (authorize_allowed ttl_seconds t (permission_value STUDIO_RELEASE_PROMOTE) None false ck iam c)
      as (x & ps & ? & ? & _ & Hd); [by rewrite H1|].
    exists x, STUDIO_RELEASE_PROMOTE, ps. naive_solver.
  - destruct (String.eqb_spec channel CHANNEL_DEV) as [Hc|]; [|done].
    destruct (authorize _ _ (permission_value STUDIO_RELEASE_PROMOTE_DEV) _ _ _ _ c1) as [[[]|e'] c2] eqn:H2; [|done].
    intros _. destruct (authorize_allowed ttl_seconds t (permission_value STUDIO_RELEASE_PROMOTE_DEV) None false ck iam c1)
      as (x & ps & Hx & ? & _ & Hd); [by rewrite H2|].
    exists x, STUDIO_RELEASE_PROMOTE_DEV, ps. split_and!; try done; [by right|].
    destruct Hd as [Hd|[_ Hd]]; [by left|].
    eapply (authorize_live ttl_seconds t x (permission_value STUDIO_RELEASE_PROMOTE) None false ck iam c);
      [done|apply Z.le_refl|by rewrite H1].
Qed.

(** (C9) Channels are moved by authorized principals, and only those they
    name.  From an empty permission cache and through any interleaving of the
    Authorize Service's steps: when a promote request changes the release
    tables, its principal had been granted [studio:release:promote] (on the
    dev channel, [promote] or [promote_dev]) in a state whose permissions were
    stored less than 60 seconds ago; the package belongs to the caller's Org;
    packages and versions are untouched and so is every channel of another
    Org, package or channel name; and the answer carries the new version as
    ETag. *)
Theorem promote_authorized (sha : string -> string) (digest : list (string * json) -> string)
    (ids : move_ids) (db : iam_db) (ck : clock) (tr : list (sys (C := C))) (s : sys) (r : http_request)
    (package_id channel : string) (b : move_body) (c' : C) (gw gw' : gateway_db) (out : api_outcome) :
  iam_wf db -> run ttl_seconds (start db ck) tr s -> release_inv sha (gw_release gw) ->
  hr_bypass r = false ->
  (forall t x, hr_tenant r = Some t -> subject_of t = Some x -> subject_wf x) ->
  promote_package_channel ttl_seconds digest ids (s_clock s) (s_db s) r package_id channel b (s_cache s) gw
    = (out, c', gw') -> gw' <> gw ->
  exists t x p, hr_tenant r = Some t /\ subject_of t = Some x
    /\ (p = STUDIO_RELEASE_PROMOTE \/ (channel = CHANNEL_DEV /\ p = STUDIO_RELEASE_PROMOTE_DEV))
    /\ recently_granted tr s x (permission_value p)
    /\ (exists row, dict_get package_id (db_packages (gw_release gw)) = Some row /\ pk_org_id row = tc_org_id t)
    /\ db_versions (gw_release gw') = db_versions (gw_release gw)
    /\ db_packages (gw_release gw') = db_packages (gw_release gw)
    /\ (forall id c0, dict_get id (db_channels (gw_release gw)) = Some c0 ->
          ~ (ch_org_id c0 = tc_org_id t /\ ch_package_id c0 = package_id /\ ch_channel c0 = channel) ->
          dict_get id (db_channels (gw_release gw')) = Some c0)
    /\ exists resp, out = ApiResponse resp (etag (ch_row_version resp.1)).
Proof.
  intros Hwf Hrun Hi Hb Hids Hp Hne. unfold promote_package_channel in Hp.
  destruct (require_rbac _ _ _ _ _ _ _ _ _) as [[gate c1] audits] eqn:Hg.
  destruct gate; [|by simplify_eq..]. unfold require_org_id in Hp.
  destruct (hr_tenant r) as [t|] eqn:Ht; [|by simplify_eq].
  destruct (String.eqb (tc_org_id t) ""); [by simplify_eq|].
  destruct (validate_channel channel); [|by simplify_eq].
  destruct (require_promote_permission _ _ _ _ _ _) as [[[]|e] c2] eqn:Hperm; [|by simplify_eq].
  destruct (move_package_channel _ _ _ _ _ _ _ _ _) as [out1 gw1] eqn:Hm. simplify_eq/=.
  destruct (require_promote_permission_ok _ _ _ _ t _ _ Hb Ht Hperm) as (x & p & ps & Hx & Hpp & Hin & Hd).
  destruct (move_package_channel_changed sha _ _ _ _ _ _ _ _ _ _ _ Hi Hm Hne) as (? & ? & ? & ? & ?).
  exists t, x, p. split_and!; try done.
  eapply known_recently_granted; [by eapply Hids|by apply start_ok|apply start_unknown|exact Hrun| |exact Hin].
  destruct Hd as [Hd|Hd]; [by left|]. eapply (gate_live _ _ _ _ _ _ _ _ _ _ _ t x); eauto. apply Z.le_refl.
Qed.
End decisions.

(** ** Concrete requests *)

(** An administrator and a service account with the same role, and a
    developer. *)
Definition api_iam : iam_db :=
  mk_iam {["org" := "active"]}
    (<[("org", "adm") := "active"]> {[("org", "dev") := "active"]})
    {["bot" := mk_sa "org" "active"]}
    (<["admin" := mk_role ORG_ADMIN_ROLE_NAME None (PStr ∘ permission_value <$> opt_or (dict_get ORG_ADMIN_ROLE_NAME BUILTIN_ROLE_PERMISSIONS) []) true (Some 1)]>
      {["developer" := mk_role ORG_DEVELOPER_ROLE_NAME None (PStr ∘ permission_value <$> opt_or (dict_get ORG_DEVELOPER_ROLE_NAME BUILTIN_ROLE_PERMISSIONS) []) true (Some 1)]})
    [mk_binding "org" "user" "adm" "admin" None; mk_binding "org" "user" "dev" "developer" None;
     mk_binding "org" "service_account" "bot" "admin" None].

Definition user_request (id : string) : http_request :=
  mk_http_request false (Some (mk_tenant "org" (mk_principal "user" id (Some id)) "session" None))
    (Some (id, "user")) "" None.

(** A request of the service account with an API key whose only scope is
    [studio:release:promote_dev]. *)
Definition scoped_tenant : tenant_context :=
  mk_tenant "org" (mk_principal "service_account" "bot" None) "api_key"
    (Some {["studio:release:promote_dev"]}).

Definition scoped_request : http_request := mk_http_request false (Some scoped_tenant) None "" None.

Definition api_body : move_body := mk_body "v1" (Some 1) None None None None.

Definition api_promote (r : http_request) (channel : string)
    : api_outcome * cache_entries * gateway_db :=
  promote_package_channel 60 demo_digest (demo_ids "e1") (mk_clock 0 0) api_iam r "p" channel api_body
    pc_empty demo_gw.

Lemma api_iam_wf : iam_wf api_iam.
Proof.
  split; [|split]; intros ? ?; simpl; rewrite ?lookup_insert_Some, ?lookup_singleton_Some;
    intros; destruct_or?; destruct_and?; subst; simpl; set_solver.
Qed.

Lemma promote_authorized_witness :
  exists (tr : list (sys (C := cache_entries))) s x,
    run 60 (start api_iam (mk_clock 0 0)) tr s
    /\ recently_granted tr s x "studio:release:promote"
    /\ (api_promote (user_request "adm") CHANNEL_PROD).2 <> demo_gw.
Proof.
  assert ((api_promote (user_request "adm") CHANNEL_PROD).2 <> demo_gw) as Hne.
  { intros E. apply (f_equal (fun g => length (gw_outbox g))) in E. vm_compute in E. discriminate E. }
  destruct (promote_authorized 60 demo_sha demo_digest (demo_ids "e1") api_iam (mk_clock 0 0)
    [start api_iam (mk_clock 0 0)] (start api_iam (mk_clock 0 0)) (user_request "adm") "p" CHANNEL_PROD
    api_body (api_promote (user_request "adm") CHANNEL_PROD).1.2 demo_gw
    (api_promote (user_request "adm") CHANNEL_PROD).2 (api_promote (user_request "adm") CHANNEL_PROD).1.1
    api_iam_wf (run_start _ _) demo_release_inv eq_refl) as (t & x & p & _ & _ & Hp & Hg & _).
  - intros t x Ht Hx. injection Ht as <-. injection Hx as <-. by repeat split; left.
  - unfold api_promote. destruct (promote_package_channel _ _ _ _ _ _ _ _ _ _ _) as [[? ?] ?]. reflexivity.
  - exact Hne.
  - exists [start api_iam (mk_clock 0 0)], (start api_iam (mk_clock 0 0)), x.
    split; [apply run_start|]. split; [|exact Hne].
    destruct Hp as [-> |[Hd _]]; [exact Hg|discriminate Hd].
Defined.

(** The developer role promotes to dev and is refused on production. *)
Example developer_promotes_dev_only :
  (exists resp e, (api_promote (user_request "dev") CHANNEL_DEV).1.1 = ApiResponse resp e)
  /\ (api_promote (user_request "dev") CHANNEL_PROD).1.1
     = ApiError 403 "promote to prod requires studio:release:promote."
  /\ (api_promote (user_request "dev") CHANNEL_PROD).2 = demo_gw.
Proof. split_and!; [do 2 eexists|..]; vm_compute; reflexivity. Qed.

(** ** Deviation from the access-control rules *)

(** The dynamic permission check does not pass the scopes of the API key on:
    with a key scoped to [studio:release:promote_dev] alone, whose scopes are
    meant only to narrow what the service account may do, production is
    promoted. *)
Example api_key_scope_not_applied_to_promote :
  ~ in_scopes (tc_api_key_scopes scoped_tenant) "studio:release:promote"
  /\ exists resp e, (api_promote scoped_request CHANNEL_PROD).1.1 = ApiResponse resp e.
Proof.
  split; [|do 2 eexists; vm_compute; reflexivity].
  simpl. intros Hin%elem_of_singleton. discriminate Hin.
Qed.
