(* ===== verification/PyString.v ===== *)
(** * Python strings

    The string operations the gateway uses on header values, paths and
    credentials, on [string] (one [ascii] per code point: header values are
    decoded as Latin-1), with the lemmas their clients share. *)
From S2P Require Import Prelude.
From Stdlib Require Import Ascii.
Local Open Scope string_scope.

(** [str.startswith]. *)
Definition startswith (prefix s : string) : bool := String.prefix prefix s.

(** [s[:n]] and [s[n:]] for a non-negative bound. *)
Fixpoint str_take (n : nat) (s : string) : string :=
  match n, s with
  | S n', String a s' => String a (str_take n' s')
  | _, _ => ""
  end.

Fixpoint str_drop (n : nat) (s : string) : string :=
  match n, s with
  | S n', String _ s' => str_drop n' s'
  | _, _ => s
  end.

(** [c.isspace()] on Latin-1. *)
Definition is_space (a : ascii) : bool :=
  let n := nat_of_ascii a in
  (bool_decide (9 <= n <= 13) || bool_decide (28 <= n <= 32) || bool_decide (n = 133) || bool_decide (n = 160))%nat.

Fixpoint lstrip_by (f : ascii -> bool) (s : string) : string :=
  match s with
  | "" => ""
  | String a s' => if f a then lstrip_by f s' else s
  end.

Fixpoint rstrip_by (f : ascii -> bool) (s : string) : string :=
  match s with
  | "" => ""
  | String a s' =>
      match rstrip_by f s' with
      | "" => if f a then "" else String a ""
      | s1 => String a s1
      end
  end.

(** The UTF-8 encoding of a text, [s.encode("utf-8")]. *)
Fixpoint utf8 (s : string) : string :=
  match s with
  | "" => ""
  | String c s' =>
      let n := nat_of_ascii c in
      if (n <? 128)%nat then String c (utf8 s')
      else String (ascii_of_nat (192 + n / 64)) (String (ascii_of_nat (128 + n mod 64)) (utf8 s'))
  end.

(** [str.strip()] and [str.rstrip("/")]. *)
Definition strip (s : string) : string := rstrip_by is_space (lstrip_by is_space s).
Definition rstrip_slash (s : string) : string := rstrip_by (Ascii.eqb "/"%char) s.

(** [str.lower()] on the letters of ASCII. *)
Definition lower_ascii (a : ascii) : ascii :=
  let n := nat_of_ascii a in
  if bool_decide (65 <= n <= 90)%nat then ascii_of_nat (n + 32) else a.

Fixpoint lower (s : string) : string :=
  match s with
  | "" => ""
  | String a s' => String (lower_ascii a) (lower s')
  end.

(** [head, _, tail = s.partition(c)]; the tail is [""] when [c] is absent. *)
Fixpoint partition_char (c : ascii) (s : string) : string * string :=
  match s with
  | "" => ("", "")
  | String a s' =>
      if Ascii.eqb a c then ("", s')
      else let '(h, t) := partition_char c s' in (String a h, t)
  end.

(** ** Lemmas *)

Lemma str_take_length s : str_take (String.length s) s = s.
Proof. induction s as [|a s IH]; simpl; [done|by rewrite IH]. Qed.

Lemma str_take_app n s t : (n <= String.length s)%nat -> str_take n (s +:+ t) = str_take n s.
Proof.
  revert n. induction s as [|a s IH]; intros [|n] Hn; simpl in *; try done; [lia|].
  by rewrite IH by lia.
Qed.

Lemma str_take_app_exact s t : str_take (String.length s) (s +:+ t) = s.
Proof. rewrite str_take_app by lia. apply str_take_length. Qed.

Lemma str_drop_app_exact s t : str_drop (String.length s) (s +:+ t) = t.
Proof.
  induction s as [|a s IH]; [|exact IH]. destruct t; reflexivity.
Qed.

Lemma str_length_app s t : String.length (s +:+ t) = (String.length s + String.length t)%nat.
Proof. induction s as [|a s IH]; simpl; [done|by rewrite IH]. Qed.

Lemma str_app_assoc s t u : (s +:+ t) +:+ u = s +:+ (t +:+ u).
Proof. induction s as [|a s IH]; [done|]. exact (f_equal (String a) IH). Qed.

Lemma str_app_nil_r s : s +:+ "" = s.
Proof. induction s as [|a s IH]; [done|]. change (String a s +:+ "") with (String a (s +:+ "")). by rewrite IH. Qed.

Lemma startswith_app s t : startswith s (s +:+ t) = true.
Proof.
  unfold startswith. induction s as [|a s IH]; [by destruct t|].
  simpl. destruct (ascii_dec a a) as [_|[]]; done.
Qed.

Lemma str_app_nonempty_l s t : s <> "" -> s +:+ t <> "".
Proof. by destruct s. Qed.

Lemma str_take_length_le n s : (String.length (str_take n s) <= n)%nat.
Proof. revert s. induction n as [|n IH]; intros [|a s]; simpl; try lia. specialize (IH s). lia. Qed.

Lemma str_take_length_eq n s : (n <= String.length s)%nat -> String.length (str_take n s) = n.
Proof. revert s. induction n as [|n IH]; intros [|a s] Hn; simpl in *; try lia. by rewrite IH by lia. Qed.

Lemma str_take_take n m s : (n <= m)%nat -> str_take n (str_take m s) = str_take n s.
Proof.
  revert m s. induction n as [|n IH]; intros [|m] [|a s] Hn; simpl; try done; [lia|].
  by rewrite IH by lia.
Qed.

(** ** Comparing secrets *)

(** [secrets.compare_digest] raises on texts with characters beyond ASCII. *)
Fixpoint is_ascii (s : string) : bool :=
  match s with "" => true | String a s' => (nat_of_ascii a <? 128)%nat && is_ascii s' end.

Definition compare_digest (a b : string) : option bool :=
  if is_ascii a && is_ascii b then Some (String.eqb a b) else None.

Lemma compare_digest_true a b : compare_digest a b = Some true <-> a = b /\ is_ascii a = true.
Proof.
  unfold compare_digest. split.
  - destruct (is_ascii a); [|done]. simpl. destruct (is_ascii b); [|done]. intros [= ?%String.eqb_eq]. done.
  - intros [-> ->]. simpl. by rewrite String.eqb_refl.
Qed.
