(* ===== verification/Iam.v ===== *)
(** * The IAM control plane: tables and repository

    [persistence/iam/model.py], [persistence/iam/repository.py], the
    membership and identity tables of [persistence/orgs/model.py], and
    [tenancy/bootstrap.py]: the writers of the tables the Authorize Service
    reads.  [view] is what that service sees of them.

    A function that opens its own session and a function called on a session
    of the caller have the same effect on the tables; the caller decides
    whether the new tables are committed.  Generated ids and instants are
    arguments; instants are microseconds. *)
From S2P Require Import Prelude Authorize.
Local Open Scope string_scope.
Local Open Scope Z_scope.
Local Open Scope py_scope.

(** ** Tables *)

(** [OrgMembershipRow]. *)
Record membership_row : Type := mk_membership {
  mem_org_id : string;
  mem_user_id : string;
  mem_status : string;
  mem_created_at : Z
}.

(** [ServiceAccountRow]; the nullable name is the one a patch can set to
    null, which the NOT NULL constraint rejects when the row is flushed. *)
Record service_account_row : Type := mk_service_account {
  sac_org_id : string;
  sac_name : option string;
  sac_description : option string;
  sac_status : string;
  sac_created_by : option string;
  sac_owner_user_id : option string;
  sac_purpose : option string;
  sac_system : option string;
  sac_environment : option string;
  sac_expires_at : option Z;
  sac_created_at : Z
}.

(** [RoleBindingRow]: what the Authorize Service reads, and the provenance. *)
Record role_binding_row : Type := mk_role_binding {
  rbr_binding : binding_row;
  rbr_created_by : option string;
  rbr_created_at : Z
}.

(** [ApiKeyRow]. *)
Record api_key_row : Type := mk_api_key {
  ak_org_id : string;
  ak_service_account_id : string;
  ak_key_prefix : string;
  ak_key_hash : string;
  ak_scopes : list string;
  ak_expires_at : Z;
  ak_revoked_at : option Z;
  ak_created_at : Z;
  ak_last_used_at : option Z
}.

(** [OidcGroupMappingRow]. *)
Record mapping_row : Type := mk_mapping {
  map_issuer : string;
  map_group_claim : option string;
  map_group_value : option string;
  map_target_org_id : string;
  map_target_role_id : option string;
  map_mode : option string;
  map_description : option string;
  map_created_by : option string;
  map_created_at : Z
}.

(** [ExternalIdentityRow]. *)
Record identity_row : Type := mk_identity {
  eid_user_id : string;
  eid_issuer : string;
  eid_subject : string;
  eid_provider : string;
  eid_claims_snapshot : list (string * list string)
}.

(** The tables, by primary key. *)
Record iam_tables : Type := mk_tables {
  it_orgs : list (string * string);
  it_memberships : list (string * membership_row);
  it_service_accounts : list (string * service_account_row);
  it_roles : list (string * role_row);
  it_role_bindings : list (string * role_binding_row);
  it_api_keys : list (string * api_key_row);
  it_mappings : list (string * mapping_row);
  it_identities : list (string * identity_row)
}.

Definition set_it_orgs x (t : iam_tables) : iam_tables :=
  mk_tables x (it_memberships t) (it_service_accounts t) (it_roles t) (it_role_bindings t)
    (it_api_keys t) (it_mappings t) (it_identities t).
Definition set_it_memberships x (t : iam_tables) : iam_tables :=
  mk_tables (it_orgs t) x (it_service_accounts t) (it_roles t) (it_role_bindings t)
    (it_api_keys t) (it_mappings t) (it_identities t).
Definition set_it_service_accounts x (t : iam_tables) : iam_tables :=
  mk_tables (it_orgs t) (it_memberships t) x (it_roles t) (it_role_bindings t)
    (it_api_keys t) (it_mappings t) (it_identities t).
Definition set_it_roles x (t : iam_tables) : iam_tables :=
  mk_tables (it_orgs t) (it_memberships t) (it_service_accounts t) x (it_role_bindings t)
    (it_api_keys t) (it_mappings t) (it_identities t).
Definition set_it_role_bindings x (t : iam_tables) : iam_tables :=
  mk_tables (it_orgs t) (it_memberships t) (it_service_accounts t) (it_roles t) x
    (it_api_keys t) (it_mappings t) (it_identities t).
Definition set_it_api_keys x (t : iam_tables) : iam_tables :=
  mk_tables (it_orgs t) (it_memberships t) (it_service_accounts t) (it_roles t) (it_role_bindings t)
    x (it_mappings t) (it_identities t).
Definition set_it_mappings x (t : iam_tables) : iam_tables :=
  mk_tables (it_orgs t) (it_memberships t) (it_service_accounts t) (it_roles t) (it_role_bindings t)
    (it_api_keys t) x (it_identities t).
Definition set_it_identities x (t : iam_tables) : iam_tables :=
  mk_tables (it_orgs t) (it_memberships t) (it_service_accounts t) (it_roles t) (it_role_bindings t)
    (it_api_keys t) (it_mappings t) x.

(** What the Authorize Service reads of the tables. *)
Definition view (t : iam_tables) : iam_db :=
  mk_iam (list_to_map (it_orgs t))
    (list_to_map ((fun p => ((mem_org_id p.2, mem_user_id p.2), mem_status p.2)) <$> it_memberships t))
    (list_to_map ((fun p => (p.1, mk_sa (sac_org_id p.2) (sac_status p.2))) <$> it_service_accounts t))
    (list_to_map (it_roles t))
    ((fun p => rbr_binding p.2) <$> it_role_bindings t).

(** ** Errors and constants *)

Inductive iam_error : Type :=
| IE_value
| IE_integrity
| IE_multi_membership (user_id : string) (count : nat).

Definition SERVICE_ACCOUNT_ACTIVE : string := "active".
Definition SERVICE_ACCOUNT_DISABLED : string := "disabled".
Definition ALLOWED_STATUSES : list string := [SERVICE_ACCOUNT_ACTIVE; SERVICE_ACCOUNT_DISABLED].
Definition MEMBERSHIP_ACTIVE : string := "active".
Definition MEMBERSHIP_SUSPENDED : string := "suspended".
Definition ALLOWED_MEMBERSHIP_STATUSES : list string := [MEMBERSHIP_ACTIVE; MEMBERSHIP_SUSPENDED].
Definition UPDATABLE_FIELDS : list string :=
  ["name"; "description"; "owner_user_id"; "purpose"; "system"; "environment"; "expires_at"].
Definition LAST_USED_SAMPLE_WINDOW : Z := micros 60.
Definition MAPPING_MODE_ADDITIVE : string := "additive".
Definition MAPPING_MODE_AUTHORITATIVE : string := "authoritative".
Definition ALLOWED_MAPPING_MODES : list string := [MAPPING_MODE_ADDITIVE; MAPPING_MODE_AUTHORITATIVE].
Definition MAPPING_UPDATABLE_FIELDS : list string :=
  ["group_claim"; "group_value"; "target_role_id"; "mode"; "description"].

(** The text column value of a patched field. *)
Definition text_of (v : json) : option string :=
  match v with JStr s => Some s | _ => None end.
Definition time_of (v : json) : option Z :=
  match v with JIso t => Some t | _ => None end.

(** ** Service accounts *)

(** The constraints of [service_accounts] for a row flushed under [id]. *)
Definition sa_constraints (id : string) (r : service_account_row) (t : iam_tables) : bool :=
  bool_decide (sac_name r <> None)
  && str_in (sac_status r) ALLOWED_STATUSES
  && forallb (fun p => String.eqb p.1 id
                       || negb (String.eqb (sac_org_id p.2) (sac_org_id r)
                                && bool_decide (sac_name p.2 = sac_name r)))
       (it_service_accounts t).

Definition flush_service_account (id : string) (r : service_account_row) (t : iam_tables)
    : result iam_error (service_account_row * iam_tables) :=
  if sa_constraints id r t
  then Ok (r, set_it_service_accounts (dict_set id r (it_service_accounts t)) t)
  else Err IE_integrity.

Definition create_service_account (id org_id name : string)
    (description owner_user_id purpose system environment : option string)
    (expires_at : option Z) (created_by : option string) (now : Z) (t : iam_tables)
    : result iam_error (service_account_row * iam_tables) :=
  if dict_mem id (it_service_accounts t) then Err IE_integrity
  else flush_service_account id
    (mk_service_account org_id (Some name) description SERVICE_ACCOUNT_ACTIVE created_by owner_user_id
       purpose system environment expires_at now) t.

Definition get_service_account (id : string) (t : iam_tables) : option service_account_row :=
  dict_get id (it_service_accounts t).

Definition list_service_accounts (org_id : string) (t : iam_tables) : list (string * service_account_row) :=
  sort_by (fun a b => sac_created_at a.2 <=? sac_created_at b.2)
    (List.filter (fun p => String.eqb (sac_org_id p.2) org_id) (it_service_accounts t)).

(** [setattr(row, key, value)] for the updatable fields. *)
Definition sa_setattr (r : service_account_row) (kv : string * json) : service_account_row :=
  let '(k, v) := kv in
  let pick := fun (f : string) (old : option string) => if String.eqb k f then text_of v else old in
  mk_service_account (sac_org_id r) (pick "name" (sac_name r)) (pick "description" (sac_description r))
    (sac_status r) (sac_created_by r) (pick "owner_user_id" (sac_owner_user_id r))
    (pick "purpose" (sac_purpose r)) (pick "system" (sac_system r))
    (pick "environment" (sac_environment r))
    (if String.eqb k "expires_at" then time_of v else sac_expires_at r) (sac_created_at r).

Definition update_service_account (id : string) (fields : list (string * json)) (t : iam_tables)
    : result iam_error (service_account_row * iam_tables) :=
  if negb (forallb (fun kv => str_in kv.1 UPDATABLE_FIELDS) fields) then Err IE_value
  else
    match dict_get id (it_service_accounts t) with
    | None => Err IE_value
    | Some r => flush_service_account id (foldl sa_setattr r fields) t
    end.

Definition sa_with_status (status : string) (r : service_account_row) : service_account_row :=
  mk_service_account (sac_org_id r) (sac_name r) (sac_description r) status (sac_created_by r)
    (sac_owner_user_id r) (sac_purpose r) (sac_system r) (sac_environment r) (sac_expires_at r)
    (sac_created_at r).

Definition set_service_account_status (id status : string) (t : iam_tables)
    : result iam_error (service_account_row * iam_tables) :=
  if negb (str_in status ALLOWED_STATUSES) then Err IE_value
  else
    match dict_get id (it_service_accounts t) with
    | None => Err IE_value
    | Some r => flush_service_account id (sa_with_status status r) t
    end.

(** The bindings of the account go with it, and its keys by the foreign key's
    cascade. *)
Definition delete_service_account (id : string) (t : iam_tables)
    : option service_account_row * iam_tables :=
  match dict_get id (it_service_accounts t) with
  | None => (None, t)
  | Some r =>
      let bindings := List.filter
        (fun p => negb (String.eqb (rb_principal_type (rbr_binding p.2)) "service_account"
                        && String.eqb (rb_principal_id (rbr_binding p.2)) id)) (it_role_bindings t) in
      let keys := List.filter (fun p => negb (String.eqb (ak_service_account_id p.2) id)) (it_api_keys t) in
      (Some r, set_it_api_keys keys (set_it_role_bindings bindings
                 (set_it_service_accounts (dict_pop id (it_service_accounts t)) t)))
  end.

(** ** Role bindings *)

Definition same_binding (org_id principal_type principal_id role_id : string) (b : binding_row) : bool :=
  String.eqb (rb_org_id b) org_id && String.eqb (rb_principal_type b) principal_type
  && String.eqb (rb_principal_id b) principal_id && String.eqb (rb_role_id b) role_id.

(** Insertion: the CHECK on the principal type, the foreign key to [roles], the
    primary key and the unique constraint. *)
Definition create_role_binding (id org_id principal_type principal_id role_id : string)
    (created_by : option string) (expires_at : option Z) (now : Z) (t : iam_tables)
    : result iam_error (role_binding_row * iam_tables) :=
  if str_in principal_type ["user"; "service_account"]
     && dict_mem role_id (it_roles t)
     && negb (dict_mem id (it_role_bindings t))
     && negb (existsb (fun p => same_binding org_id principal_type principal_id role_id (rbr_binding p.2))
                (it_role_bindings t))
  then
    let r := mk_role_binding (mk_binding org_id principal_type principal_id role_id expires_at)
               created_by now in
    Ok (r, set_it_role_bindings (dict_set id r (it_role_bindings t)) t)
  else Err IE_integrity.

Definition list_role_bindings (org_id principal_type principal_id : string) (t : iam_tables)
    : list (string * role_binding_row) :=
  List.filter (fun p => String.eqb (rb_org_id (rbr_binding p.2)) org_id
                        && String.eqb (rb_principal_type (rbr_binding p.2)) principal_type
                        && String.eqb (rb_principal_id (rbr_binding p.2)) principal_id)
    (it_role_bindings t).

Definition delete_role_binding (id org_id : string) (t : iam_tables)
    : option role_binding_row * iam_tables :=
  match dict_get id (it_role_bindings t) with
  | Some r =>
      if String.eqb (rb_org_id (rbr_binding r)) org_id
      then (Some r, set_it_role_bindings (dict_pop id (it_role_bindings t)) t)
      else (None, t)
  | None => (None, t)
  end.

Definition count_user_bindings_for_role (org_id role_id : string) (exclude : option string) (now : Z)
    (t : iam_tables) : nat :=
  length (List.filter
    (fun p => let b := rbr_binding p.2 in
       String.eqb (rb_org_id b) org_id && String.eqb (rb_role_id b) role_id
       && String.eqb (rb_principal_type b) "user"
       && match rb_expires_at b with None => true | Some e => now <? e end
       && match exclude with None => true | Some u => negb (String.eqb (rb_principal_id b) u) end)
    (it_role_bindings t)).

(** ** Memberships *)

Definition get_membership (org_id user_id : string) (t : iam_tables) : option (string * membership_row) :=
  List.find (fun p => String.eqb (mem_org_id p.2) org_id && String.eqb (mem_user_id p.2) user_id)
    (it_memberships t).

Definition set_membership_status (org_id user_id status : string) (t : iam_tables)
    : result iam_error ((string * membership_row) * iam_tables) :=
  if negb (str_in status ALLOWED_MEMBERSHIP_STATUSES) then Err IE_value
  else
    match get_membership org_id user_id t with
    | None => Err IE_value
    | Some (id, r) =>
        if String.eqb (mem_status r) status then Ok ((id, r), t)
        else
          let r' := mk_membership (mem_org_id r) (mem_user_id r) status (mem_created_at r) in
          Ok ((id, r'), set_it_memberships (dict_set id r' (it_memberships t)) t)
    end.

(** [tenancy.get_active_membership]: single-membership-strict. *)
Definition get_active_membership (user_id : string) (t : iam_tables)
    : result iam_error (option membership_row) :=
  match sort_by (fun a b => mem_created_at a <=? mem_created_at b)
          (List.filter (fun r => String.eqb (mem_user_id r) user_id && String.eqb (mem_status r) "active")
             (dict_values (it_memberships t))) with
  | [] => Ok None
  | [r] => Ok (Some r)
  | l => Err (IE_multi_membership user_id (length l))
  end.

(** ** API keys *)

(** The foreign key to [service_accounts], the primary key and the unique
    prefix. *)
Definition create_api_key (id org_id service_account_id key_prefix key_hash : string)
    (scopes : list string) (expires_at now : Z) (t : iam_tables)
    : result iam_error (api_key_row * iam_tables) :=
  if dict_mem service_account_id (it_service_accounts t)
     && negb (dict_mem id (it_api_keys t))
     && negb (existsb (fun p => String.eqb (ak_key_prefix p.2) key_prefix) (it_api_keys t))
  then
    let r := mk_api_key org_id service_account_id key_prefix key_hash scopes expires_at None now None in
    Ok (r, set_it_api_keys (dict_set id r (it_api_keys t)) t)
  else Err IE_integrity.

Definition get_api_key (id : string) (t : iam_tables) : option api_key_row := dict_get id (it_api_keys t).

Definition get_api_key_by_prefix (key_prefix : string) (t : iam_tables) : option (string * api_key_row) :=
  List.find (fun p => String.eqb (ak_key_prefix p.2) key_prefix) (it_api_keys t).

Definition list_api_keys (org_id service_account_id : string) (t : iam_tables) : list (string * api_key_row) :=
  sort_by (fun a b => ak_created_at b.2 <=? ak_created_at a.2)
    (List.filter (fun p => String.eqb (ak_org_id p.2) org_id
                           && String.eqb (ak_service_account_id p.2) service_account_id) (it_api_keys t)).

Definition key_with_times (revoked_at last_used_at : option Z) (r : api_key_row) : api_key_row :=
  mk_api_key (ak_org_id r) (ak_service_account_id r) (ak_key_prefix r) (ak_key_hash r) (ak_scopes r)
    (ak_expires_at r) revoked_at (ak_created_at r) last_used_at.

Definition revoke_api_key (id org_id : string) (now : Z) (t : iam_tables)
    : option api_key_row * iam_tables :=
  match dict_get id (it_api_keys t) with
  | None => (None, t)
  | Some r =>
      if negb (String.eqb (ak_org_id r) org_id) then (None, t)
      else
        match ak_revoked_at r with
        | Some _ => (Some r, t)
        | None =>
            let r' := key_with_times (Some now) (ak_last_used_at r) r in
            (Some r', set_it_api_keys (dict_set id r' (it_api_keys t)) t)
        end
  end.

Definition touch_api_key_last_used (id : string) (now : Z) (t : iam_tables) : iam_tables :=
  match dict_get id (it_api_keys t) with
  | None => t
  | Some r =>
      if match ak_last_used_at r with None => true | Some u => u <? now - LAST_USED_SAMPLE_WINDOW end
      then set_it_api_keys (dict_set id (key_with_times (ak_revoked_at r) (Some now) r) (it_api_keys t)) t
      else t
  end.

(** ** OIDC group mappings *)

Definition mapping_constraints (id : string) (r : mapping_row) (t : iam_tables) : bool :=
  bool_decide (map_group_claim r <> None) && bool_decide (map_group_value r <> None)
  && bool_decide (map_target_role_id r <> None)
  && match map_mode r with Some m => str_in m ALLOWED_MAPPING_MODES | None => false end
  && forallb (fun p => String.eqb p.1 id
                       || negb (String.eqb (map_issuer p.2) (map_issuer r)
                                && bool_decide (map_group_value p.2 = map_group_value r)
                                && String.eqb (map_target_org_id p.2) (map_target_org_id r)
                                && bool_decide (map_target_role_id p.2 = map_target_role_id r)))
       (it_mappings t).

Definition flush_mapping (id : string) (r : mapping_row) (t : iam_tables)
    : result iam_error (mapping_row * iam_tables) :=
  if mapping_constraints id r t
  then Ok (r, set_it_mappings (dict_set id r (it_mappings t)) t)
  else Err IE_integrity.

Definition create_oidc_group_mapping (id issuer group_claim group_value target_org_id target_role_id mode : string)
    (description created_by : option string) (now : Z) (t : iam_tables)
    : result iam_error (mapping_row * iam_tables) :=
  if dict_mem id (it_mappings t) then Err IE_integrity
  else flush_mapping id
    (mk_mapping issuer (Some group_claim) (Some group_value) target_org_id (Some target_role_id)
       (Some mode) description created_by now) t.

Definition get_oidc_group_mapping (id : string) (t : iam_tables) : option mapping_row :=
  dict_get id (it_mappings t).

Definition list_oidc_group_mappings (org_id issuer : option string) (t : iam_tables)
    : list (string * mapping_row) :=
  sort_by (fun a b => map_created_at a.2 <=? map_created_at b.2)
    (List.filter
       (fun p => match org_id with None => true | Some o => String.eqb (map_target_org_id p.2) o end
                 && match issuer with None => true | Some i => String.eqb (map_issuer p.2) i end)
       (it_mappings t)).

Definition mapping_setattr (r : mapping_row) (kv : string * json) : mapping_row :=
  let '(k, v) := kv in
  let pick := fun (f : string) (old : option string) => if String.eqb k f then text_of v else old in
  mk_mapping (map_issuer r) (pick "group_claim" (map_group_claim r)) (pick "group_value" (map_group_value r))
    (map_target_org_id r) (pick "target_role_id" (map_target_role_id r)) (pick "mode" (map_mode r))
    (pick "description" (map_description r)) (map_created_by r) (map_created_at r).

Definition update_oidc_group_mapping (id : string) (fields : list (string * json)) (t : iam_tables)
    : result iam_error (mapping_row * iam_tables) :=
  if negb (forallb (fun kv => str_in kv.1 MAPPING_UPDATABLE_FIELDS) fields) then Err IE_value
  else
    match dict_get id (it_mappings t) with
    | None => Err IE_value
    | Some r => flush_mapping id (foldl mapping_setattr r fields) t
    end.

Definition delete_oidc_group_mapping (id org_id : string) (t : iam_tables)
    : option mapping_row * iam_tables :=
  match dict_get id (it_mappings t) with
  | Some r =>
      if String.eqb (map_target_org_id r) org_id
      then (Some r, set_it_mappings (dict_pop id (it_mappings t)) t)
      else (None, t)
  | None => (None, t)
  end.

(** ** Bootstrap ([tenancy/bootstrap.py]) *)

Definition ensure_default_org (org_id : string) (t : iam_tables) : iam_tables :=
  if dict_mem org_id (it_orgs t) then t
  else set_it_orgs (dict_set org_id "active" (it_orgs t)) t.

Definition find_system_role (name : string) (t : iam_tables) : option (string * role_row) :=
  List.find (fun p => String.eqb (role_name p.2) name && role_is_system p.2) (it_roles t).

Definition BUILTIN_ROLE_TEMPLATE_VERSION : Z := 1.

(** One iteration of [ensure_builtin_roles]; [fresh] gives the generated id
    of a role. *)
Definition ensure_builtin_role (fresh : string -> string) (t : iam_tables)
    (entry : string * list Permission) : iam_tables :=
  let '(name, permissions) := entry in
  match find_system_role name t with
  | Some _ => t
  | None =>
      set_it_roles (dict_set (fresh name)
        (mk_role name None (PStr ∘ permission_value <$> permissions) true
           (Some BUILTIN_ROLE_TEMPLATE_VERSION)) (it_roles t)) t
  end.

Definition ensure_builtin_roles (fresh : string -> string) (t : iam_tables) : iam_tables :=
  foldl (ensure_builtin_role fresh) t BUILTIN_ROLE_PERMISSIONS.

(** [ensure_admin_membership]; the foreign key to [organizations] is the one
    the tables hold. *)
Definition ensure_admin_membership (id org_id user_id : string) (now : Z) (t : iam_tables)
    : result iam_error iam_tables :=
  match get_membership org_id user_id t with
  | Some _ => Ok t
  | None =>
      if dict_mem org_id (it_orgs t) && negb (dict_mem id (it_memberships t))
      then Ok (set_it_memberships (dict_set id (mk_membership org_id user_id "active" now) (it_memberships t)) t)
      else Err IE_integrity
  end.

(** [_ensure_role_binding] and [_ensure_group_role_binding]: the answer says
    whether a binding was created. *)
Definition ensure_role_binding (id org_id principal_type principal_id role_id : string)
    (created_by : option string) (now : Z) (t : iam_tables) : result iam_error (bool * iam_tables) :=
  if existsb (fun p => same_binding org_id principal_type principal_id role_id (rbr_binding p.2))
       (it_role_bindings t)
  then Ok (false, t)
  else
    match create_role_binding id org_id principal_type principal_id role_id created_by None now t with
    | Ok (_, t') => Ok (true, t')
    | Err e => Err e
    end.

Definition ensure_admin_role_binding (id org_id user_id role_id : string) (now : Z) (t : iam_tables)
    : result iam_error (bool * iam_tables) :=
  ensure_role_binding id org_id "user" user_id role_id None now t.

Definition ensure_service_account_role_binding (id org_id service_account_id role_id : string) (now : Z)
    (t : iam_tables) : result iam_error (bool * iam_tables) :=
  ensure_role_binding id org_id "service_account" service_account_id role_id None now t.
