(* ===== verification/OidcMapping.v ===== *)
(** * OIDC group mapping

    [tenancy/oidc_group_mapping.py]: the additive mapping engine that turns the
    groups an identity provider asserts into role bindings, the federated
    identity link, and the last-administrator guard.  Each binding is committed
    on its own, so an error part way leaves the bindings made before it; the
    tenant events (log lines) are left out. *)
From S2P Require Import Prelude Authorize AuthorizeProps Iam.
Local Open Scope string_scope.
Local Open Scope Z_scope.

Definition GROUP_MAPPING_PROVENANCE_PREFIX : string := "oidc-group-mapping".

Definition provenance (issuer group : string) : string :=
  GROUP_MAPPING_PROVENANCE_PREFIX +:+ ":" +:+ issuer +:+ ":" +:+ group.

Record mapping_outcome : Type := mk_outcome {
  mo_group_value : option string;
  mo_target_role_id : option string;
  mo_target_org_id : string;
  mo_applied : bool;
  mo_reason : string
}.

Record mapping_result : Type := mk_result {
  mr_planned : list mapping_outcome;
  mr_applied : list mapping_outcome;
  mr_skipped : list mapping_outcome
}.

(** [assert_not_last_admin]: [false] is [LastAdminError]. *)
Definition assert_not_last_admin (org_id role_id principal_id : string) (now : Z) (t : iam_tables) : bool :=
  if (0 <? count_user_bindings_for_role org_id role_id (Some principal_id) now t)%nat then true
  else (count_user_bindings_for_role org_id role_id None now t =? 0)%nat.

Definition upsert_external_identity (id user_id issuer subject provider : string)
    (claims_snapshot : list (string * list string)) (t : iam_tables) : iam_tables :=
  match List.find (fun p => String.eqb (eid_issuer p.2) issuer && String.eqb (eid_subject p.2) subject)
          (it_identities t) with
  | Some (k, r) =>
      set_it_identities (dict_set k (mk_identity (eid_user_id r) (eid_issuer r) (eid_subject r)
        (eid_provider r) claims_snapshot) (it_identities t)) t
  | None =>
      set_it_identities (dict_set id (mk_identity user_id issuer subject provider claims_snapshot)
        (it_identities t)) t
  end.

(** A role carries a platform permission. *)
Definition carries_system (r : role_row) : bool :=
  existsb (fun p => match p with PStr s => is_system_permission s | PNotStr => false end) (role_permissions r).

(** [_target_role_safe]. *)
Definition target_role_safe (role_id : option string) (t : iam_tables) : option role_row :=
  match role_id with
  | None => None
  | Some id =>
      match dict_get id (it_roles t) with
      | None => None
      | Some r => if carries_system r then None else Some r
      end
  end.

(** What the engine does with one rule of the issuer: nothing when the group
    is not asserted, otherwise a skip with its reason or a plan. *)
Inductive disposition : Type :=
| Unmatched
| Skip (reason : string)
| Plan (role_id : string).

Definition rule_disposition (user_org : string) (groups : list string) (rule : mapping_row) (t : iam_tables)
    : disposition :=
  if negb (bool_decide (map_group_value rule ∈ Some <$> groups)) then Unmatched
  else if bool_decide (map_mode rule = Some MAPPING_MODE_AUTHORITATIVE)
  then Skip "authoritative_mode_not_enabled"
  else if negb (String.eqb (map_target_org_id rule) user_org) then Skip "target_org_not_user_membership"
  else
    match map_target_role_id rule, target_role_safe (map_target_role_id rule) t with
    | Some role_id, Some _ => Plan role_id
    | _, _ => Skip "target_role_missing_or_system"
    end.

Definition outcome_of (rule : mapping_row) (applied : bool) (reason : string) : mapping_outcome :=
  mk_outcome (map_group_value rule) (map_target_role_id rule) (map_target_org_id rule) applied reason.

(** One iteration of the loop over the rules.  In dry-run mode, and until it is
    applied, the planned outcome says so; it is one object, listed under
    [planned] and, when applied, under [applied]. *)
Definition apply_rule (fresh : string -> string) (user_id user_org : string) (groups : list string)
    (dry_run : bool) (now : Z) (acc : result iam_error mapping_result * iam_tables)
    (entry : string * mapping_row) : result iam_error mapping_result * iam_tables :=
  let '(res, t) := acc in
  let '(rule_id, rule) := entry in
  match res with
  | Err e => (Err e, t)
  | Ok r =>
      match rule_disposition user_org groups rule t with
      | Unmatched => (Ok r, t)
      | Skip reason =>
          (Ok (mk_result (mr_planned r) (mr_applied r) (mr_skipped r ++ [outcome_of rule false reason])), t)
      | Plan role_id =>
          if dry_run
          then (Ok (mk_result (mr_planned r ++ [outcome_of rule false "dry_run"]) (mr_applied r)
                      (mr_skipped r)), t)
          else
            match ensure_role_binding (fresh rule_id) user_org "user" user_id role_id
                    (Some (provenance (map_issuer rule) (opt_or (map_group_value rule) ""))) now t with
            | Err e => (Err e, t)
            | Ok (_, t') =>
                let o := outcome_of rule true "" in
                (Ok (mk_result (mr_planned r ++ [o]) (mr_applied r ++ [o]) (mr_skipped r)), t')
            end
      end
  end.

(** [apply_group_mapping]. *)
Definition apply_group_mapping (fresh : string -> string) (user_id issuer : string) (groups : list string)
    (provider : string) (subject : option string) (dry_run : bool) (now : Z) (t : iam_tables)
    : result iam_error mapping_result * iam_tables :=
  match get_active_membership user_id t with
  | Err e => (Err e, t)
  | Ok None => (Ok (mk_result [] [] []), t)
  | Ok (Some m) =>
      let rules := list_oidc_group_mappings None (Some issuer) t in
      match foldl (apply_rule fresh user_id (mem_org_id m) groups dry_run now)
              (Ok (mk_result [] [] []), t) rules with
      | (Err e, t1) => (Err e, t1)
      | (Ok r, t1) =>
          match subject with
          | Some sub =>
              if negb dry_run && negb (bool_decide (mr_applied r = []) && bool_decide (mr_planned r = []))
              then
                let claim := match List.find (fun p => bool_decide (map_group_value p.2 ∈ Some <$> groups)) rules with
                             | Some (_, rule) => opt_or (map_group_claim rule) ""
                             | None => "groups"
                             end in
                (Ok r, upsert_external_identity (fresh "identity") user_id issuer sub provider [(claim, groups)] t1)
              else (Ok r, t1)
          | None => (Ok r, t1)
          end
      end
  end.
