(* ===== verification/Auth.v ===== *)
(** * Authentication and tenant resolution

    [app/gateway/auth/api_key.py] (minting and verifying API keys),
    [app/gateway/auth/jwt.py] and [deps.get_current_user_from_request] (the
    session cookie), [app/gateway/auth/oidc.py] (bearer tokens of an identity
    provider), [app/gateway/internal_auth.py], [app/gateway/auth_middleware.py]
    (the four credential paths in their order) and [app/gateway/tenant.py] (the
    tenant context a request runs under).

    The HMAC and the JWT library are parameters; the random parts of a key are
    arguments.  The touch of a key's [last_used_at] is a task of its own that
    runs later: the middleware answers with the id it will be run for. *)
From S2P Require Import Prelude PyString Authorize AuthorizeProps Iam OidcMapping.
From Stdlib Require Import Ascii.
Local Open Scope string_scope.
Local Open Scope Z_scope.

(** ** API keys ([auth/api_key.py]) *)

Definition PREFIX_V1 : string := "$dfakv1$".
Definition DISPLAY_PREFIX : string := "dk_live_".
Definition RANDOM_PREFIX_LEN : nat := 8.
Definition prefix_len : nat := String.length DISPLAY_PREFIX + RANDOM_PREFIX_LEN.

Section api_key.
(** [_hmac_sha256_hex]; [None] when the pepper cannot be loaded. *)
Context (hmac_sha256_hex : string -> option string).

Definition hash_api_key (plaintext : string) : option string :=
  (fun d => PREFIX_V1 +:+ d) <$> hmac_sha256_hex plaintext.

(** [generate_api_key] from the two random tokens it draws: plaintext, prefix
    and hash. *)
Definition generate_api_key (token8 token32 : string) : option (string * string * string) :=
  let random_prefix := str_take RANDOM_PREFIX_LEN token8 in
  let plaintext := DISPLAY_PREFIX +:+ random_prefix +:+ "_" +:+ token32 in
  let key_prefix := str_take prefix_len plaintext in
  (fun h => (plaintext, key_prefix, h)) <$> hash_api_key plaintext.

(** [None] when [compare_digest] raises. *)
Definition verify_api_key (plaintext stored_hash : string) : option bool :=
  if String.eqb plaintext "" || String.eqb stored_hash "" then Some false
  else if negb (startswith PREFIX_V1 stored_hash) then Some false
  else
    match hmac_sha256_hex plaintext with
    | None => Some false
    | Some recomputed => compare_digest recomputed (str_drop (String.length PREFIX_V1) stored_hash)
    end.

Definition needs_rehash (stored_hash : string) : bool := negb (startswith PREFIX_V1 stored_hash).
End api_key.

(** ** Identities *)

(** A row of [users], as far as authentication reads it. *)
Record user_row : Type := mk_user {
  us_email : option string;
  us_system_role : string;
  us_token_version : Z
}.

(** [request.state] after authentication; the last field holds the four
    [api_key_*] stamps: key id, Org, scopes and service account. *)
Record request_state : Type := mk_state {
  rs_user_id : string;
  rs_system_role : string;
  rs_email : option string;
  rs_auth_source : string;
  rs_api_key : option (string * string * gset string * string)
}.

Definition AUTH_SOURCE_SESSION : string := "session".
Definition AUTH_SOURCE_INTERNAL : string := "internal".
Definition AUTH_SOURCE_AUTH_DISABLED : string := "auth_disabled".
Definition AUTH_SOURCE_API_KEY : string := "api_key".
Definition AUTH_SOURCE_OIDC : string := "oidc".
Definition DEFAULT_USER_ID : string := "default".

(** What the middlewares read of a request. *)
Record raw_request : Type := mk_raw {
  rq_path : string;
  rq_x_api_key : option string;
  rq_authorization : option string;
  rq_internal_token : option string;
  rq_access_token : option string;
  rq_owner_header : option string
}.

(** ** JWTs *)

Inductive TokenError : Type := EXPIRED | INVALID_SIGNATURE | MALFORMED.

Definition token_error_to_code (e : TokenError) : string :=
  match e with EXPIRED => "token_expired" | _ => "token_invalid" end.

(** [OidcTokenError]. *)
Inductive OidcTokenError : Type :=
| OIDC_EXPIRED | OIDC_INVALID_SIGNATURE | OIDC_MALFORMED
| OIDC_UNTRUSTED_ISSUER | OIDC_AUDIENCE_MISMATCH | OIDC_KEY_NOT_FOUND.

(** [OidcClaims]; nothing reads [aud] and [exp] once the token is verified. *)
Record oidc_claims : Type := mk_claims {
  oc_sub : string;
  oc_iss : string;
  oc_groups : list string
}.

(** [ProductionOidcConfig]. *)
Record oidc_config : Type := mk_oidc_config {
  oi_issuer : string;
  oi_audience : string;
  oi_jwks_uri : option string;
  oi_group_claim : string;
  oi_clock_skew_seconds : Z;
  oi_algorithms : list string
}.

(** The exception classes of the JWT library the verifier distinguishes. *)
Inductive jwt_error : Type :=
| JWT_ExpiredSignature | JWT_InvalidAudience | JWT_InvalidIssuer
| JWT_InvalidSignature | JWT_InvalidAlgorithm | JWT_PyJWK | JWT_Other.

(** The surroundings of a request: the clock, the time zone naive timestamps
    are read in ([None]: the database keeps the zone), the keyed hash, the
    configuration, the user table and the JWT library ([av_signing_key] and
    [av_jwt_decode] for the bearer path, [av_session_decode] for the
    cookie). *)
Record auth_env : Type := mk_auth_env {
  av_now : Z;
  av_local_offset : option Z;
  av_hmac : string -> option string;
  av_persistence : bool;
  av_internal_token : string;
  av_auth_disabled : bool;
  av_users : list (string * user_row);
  av_session_decode : string -> result jwt_error (string * Z);
  av_oidc : option oidc_config;
  av_signing_key : string -> string -> option string;
  av_jwt_decode : string -> list string -> string -> string -> Z -> string -> result jwt_error (list (string * json));
  av_render : json -> string;
  av_fresh : string -> string
}.

(** [str(v)]. *)
Definition py_str (render : json -> string) (v : json) : string :=
  match v with JStr s => s | _ => render v end.

(** [decode_token]: user id and token version. *)
Definition decode_token (e : auth_env) (token : string) : result TokenError (string * Z) :=
  match av_session_decode e token with
  | Ok p => Ok p
  | Err JWT_ExpiredSignature => Err EXPIRED
  | Err JWT_InvalidSignature => Err INVALID_SIGNATURE
  | Err _ => Err MALFORMED
  end.

(** The groups of the configured claim. *)
Definition groups_of (render : json -> string) (raw : option json) : list string :=
  match raw with
  | Some (JStr s) => [s]
  | Some (JArr l) => py_str render <$> l
  | _ => []
  end.

Definition verify_oidc_token (e : auth_env) (token : string) (cfg : oidc_config)
    : result OidcTokenError oidc_claims :=
  match oi_jwks_uri cfg with
  | None => Err OIDC_MALFORMED
  | Some uri =>
      match av_signing_key e uri token with
      | None => Err OIDC_KEY_NOT_FOUND
      | Some key =>
          let algorithms := match oi_algorithms cfg with [] => ["RS256"] | l => l end in
          match av_jwt_decode e key algorithms (oi_audience cfg) (oi_issuer cfg) (oi_clock_skew_seconds cfg) token with
          | Err JWT_ExpiredSignature => Err OIDC_EXPIRED
          | Err JWT_InvalidAudience => Err OIDC_AUDIENCE_MISMATCH
          | Err JWT_InvalidIssuer => Err OIDC_UNTRUSTED_ISSUER
          | Err JWT_InvalidSignature => Err OIDC_INVALID_SIGNATURE
          | Err JWT_InvalidAlgorithm => Err OIDC_INVALID_SIGNATURE
          | Err JWT_PyJWK => Err OIDC_KEY_NOT_FOUND
          | Err JWT_Other => Err OIDC_MALFORMED
          | Ok payload =>
              let text k := py_str (av_render e) (opt_or (dict_get k payload) (JStr "")) in
              Ok (mk_claims (text "sub") (text "iss")
                    (groups_of (av_render e) (dict_get (oi_group_claim cfg) payload)))
          end
      end
  end.

(** ** The credential paths ([auth_middleware.py]) *)

Definition PUBLIC_PATH_PREFIXES : list string := ["/health"; "/metrics"; "/docs"; "/redoc"; "/openapi.json"].
Definition PUBLIC_EXACT_PATHS : list string :=
  ["/api/v1/auth/login/local"; "/api/v1/auth/register"; "/api/v1/auth/logout";
   "/api/v1/auth/setup-status"; "/api/v1/auth/initialize"].

Definition is_public (path : string) : bool :=
  str_in (rstrip_slash path) PUBLIC_EXACT_PATHS
  || existsb (fun prefix => startswith prefix path) PUBLIC_PATH_PREFIXES.

Definition strip_bearer (authorization_header : option string) : string :=
  match authorization_header with
  | None => ""
  | Some h =>
      let '(scheme, token) := partition_char " "%char h in
      if negb (String.eqb (lower scheme) "bearer") || String.eqb token "" then ""
      else strip token
  end.

(** How a credential path ends: no such credential, a response, a stamped
    request, or an exception. *)
Inductive credential : Type :=
| NotPresented
| Raises (exception : string)
| Rejected (status_code : Z) (code : string)
| Authenticated (st : request_state).

Definition authentication_invalid : credential := Rejected 401 "token_invalid".

(** A timestamp read back: [astimezone] reads a naive one in local time. *)
Definition coerce_utc (e : auth_env) (t : Z) : Z :=
  match av_local_offset e with Some off => t - off | None => t end.

Definition API_KEY_BEARER_PREFIX : string := "dk_live_".

(** The credential the API-key path takes from the headers. *)
Definition presented_key (r : raw_request) : option string :=
  let raw := match rq_x_api_key r with
             | Some k => if String.eqb k "" then strip_bearer (rq_authorization r) else k
             | None => strip_bearer (rq_authorization r)
             end in
  if String.eqb raw "" then None
  else if negb (truthy (rq_x_api_key r)) && negb (startswith API_KEY_BEARER_PREFIX raw) then None
  else Some raw.

(** [_resolve_api_key]. *)
Definition resolve_api_key (e : auth_env) (r : raw_request) (t : iam_tables) : credential :=
  match presented_key r with
  | None => NotPresented
  | Some raw =>
      if negb (av_persistence e) then authentication_invalid
      else if (String.length raw <? prefix_len)%nat then authentication_invalid
      else
        match get_api_key_by_prefix (str_take prefix_len raw) t with
        | None => authentication_invalid
        | Some (key_id, row) =>
            match verify_api_key (av_hmac e) raw (ak_key_hash row) with
            | None => Raises "TypeError"
            | Some false => authentication_invalid
            | Some true =>
                if coerce_utc e (ak_expires_at row) <=? av_now e then authentication_invalid
                else if match ak_revoked_at row with Some rv => coerce_utc e rv <=? av_now e | None => false end
                then authentication_invalid
                else
                  match get_service_account (ak_service_account_id row) t with
                  | None => authentication_invalid
                  | Some sa =>
                      if negb (String.eqb (sac_org_id sa) (ak_org_id row)) then authentication_invalid
                      else if String.eqb (sac_status sa) "disabled" then Rejected 403 "principal_disabled"
                      else
                        let sa_id := ak_service_account_id row in
                        Authenticated (mk_state sa_id "user" None AUTH_SOURCE_API_KEY
                          (Some (key_id, ak_org_id row, list_to_set (ak_scopes row), sa_id)))
                  end
            end
        end
  end.

(** [_resolve_oidc_bearer]: the group mapping it runs may change the tables;
    an error of the mapping is swallowed. *)
Definition resolve_oidc_bearer (e : auth_env) (token : string) (t : iam_tables) : credential * iam_tables :=
  match av_oidc e with
  | None => (NotPresented, t)
  | Some cfg =>
      match verify_oidc_token e token cfg with
      | Err _ => (Rejected 401 "token_invalid", t)
      | Ok claims =>
          if negb (av_persistence e) then (authentication_invalid, t)
          else
            match List.find (fun p => String.eqb (eid_issuer p.2) (oc_iss claims)
                                      && String.eqb (eid_subject p.2) (oc_sub claims)) (it_identities t) with
            | None => (Rejected 401 "user_not_found", t)
            | Some (_, ext_row) =>
                match dict_get (eid_user_id ext_row) (av_users e) with
                | None => (Rejected 401 "user_not_found", t)
                | Some user =>
                    let '(_, t') := apply_group_mapping (av_fresh e) (eid_user_id ext_row) (oc_iss claims)
                                      (oc_groups claims) "oidc" (Some (oc_sub claims)) false (av_now e) t in
                    (Authenticated (mk_state (eid_user_id ext_row) (us_system_role user)
                       (if truthy (us_email user) then us_email user else None) AUTH_SOURCE_OIDC None), t')
                end
            end
      end
  end.

(** [get_current_user_from_request] on a request no earlier path stamped. *)
Definition current_user_from_cookie (e : auth_env) (access_token : string) : result (Z * string) (string * user_row) :=
  match decode_token e access_token with
  | Err err => Err (401, token_error_to_code err)
  | Ok (sub, ver) =>
      match dict_get sub (av_users e) with
      | None => Err (401, "user_not_found")
      | Some user =>
          if negb (us_token_version user =? ver) then Err (401, "token_invalid") else Ok (sub, user)
      end
  end.

(** [is_valid_internal_auth_token]; [None] when [compare_digest] raises. *)
Definition is_valid_internal_auth_token (e : auth_env) (token : option string) : option bool :=
  match token with
  | Some tok => if String.eqb tok "" then Some false else compare_digest tok (av_internal_token e)
  | None => Some false
  end.

Definition internal_state : request_state :=
  mk_state DEFAULT_USER_ID INTERNAL_SYSTEM_ROLE None AUTH_SOURCE_INTERNAL None.

Definition auth_disabled_state : request_state :=
  mk_state DEFAULT_USER_ID "admin" (Some "default@test.local") AUTH_SOURCE_AUTH_DISABLED None.

(** The internal and session paths at the end of [dispatch]. *)
Definition resolve_session (e : auth_env) (r : raw_request) : credential :=
  match is_valid_internal_auth_token e (rq_internal_token r) with
  | None => Raises "TypeError"
  | Some true => Authenticated internal_state
  | Some false =>
    match rq_access_token r with
    | Some tok =>
        if String.eqb tok "" then
          if av_auth_disabled e then Authenticated auth_disabled_state
          else Rejected 401 "not_authenticated"
        else
          match current_user_from_cookie e tok with
          | Ok (id, user) =>
              Authenticated (mk_state id (us_system_role user) (us_email user) AUTH_SOURCE_SESSION None)
          | Err (code, detail) =>
              if av_auth_disabled e then Authenticated auth_disabled_state else Rejected code detail
          end
    | None =>
        if av_auth_disabled e then Authenticated auth_disabled_state
        else Rejected 401 "not_authenticated"
    end
  end.

(** How the request leaves [AuthMiddleware.dispatch]: on a public path, by an
    exception, which the server answers with a 500, with a response, or stamped
    for the next layer; and the key to touch. *)
Inductive auth_outcome : Type :=
| PublicPath
| AuthRaises (exception : string)
| AuthResponse (status_code : Z) (code : string)
| Stamped (st : request_state).

Definition dispatch_auth (e : auth_env) (r : raw_request) (t : iam_tables)
    : auth_outcome * option string * iam_tables :=
  if is_public (rq_path r) then (PublicPath, None, t)
  else
    match resolve_api_key e r t with
    | Raises x => (AuthRaises x, None, t)
    | Rejected code d => (AuthResponse code d, None, t)
    | Authenticated st => (Stamped st, (fun k => k.1.1.1) <$> rs_api_key st, t)
    | NotPresented =>
        let bearer_token := strip_bearer (rq_authorization r) in
        let '(oidc, t1) :=
          if negb (String.eqb bearer_token "") && negb (startswith API_KEY_BEARER_PREFIX bearer_token)
          then resolve_oidc_bearer e bearer_token t
          else (NotPresented, t) in
        match oidc with
        | Raises x => (AuthRaises x, None, t1)
        | Rejected code d => (AuthResponse code d, None, t1)
        | Authenticated st => (Stamped st, None, t1)
        | NotPresented =>
            match resolve_session e r with
            | Authenticated st => (Stamped st, None, t1)
            | Raises x => (AuthRaises x, None, t1)
            | Rejected code d => (AuthResponse code d, None, t1)
            | NotPresented => (AuthResponse 401 "not_authenticated", None, t1)
            end
        end
    end.

(** ** Tenant resolution ([tenant.py]) *)

Definition BOOTSTRAP_AUTH_METHOD_MAP : list (string * string) :=
  [(AUTH_SOURCE_SESSION, "session"); (AUTH_SOURCE_INTERNAL, "internal");
   (AUTH_SOURCE_AUTH_DISABLED, "internal"); (AUTH_SOURCE_API_KEY, "api_key")].

(** [get_trusted_internal_owner_user_id]. *)
Definition trusted_owner (st : request_state) (owner_header : option string) : option string :=
  if negb (String.eqb (rs_system_role st) INTERNAL_SYSTEM_ROLE) then None
  else
    match owner_header with
    | None => None
    | Some h => let o := strip h in if String.eqb o "" then None else Some o
    end.

(** The constructor of [PrincipalRef] rejects an empty id. *)
Definition make_principal (type id : string) (user_id : option string) : option principal_ref :=
  if String.eqb id "" then None else Some (mk_principal type id user_id).

(** [resolve_principal]; [None] when it raises. *)
Definition resolve_principal (st : request_state) (owner_header : option string) : option principal_ref :=
  if String.eqb (rs_auth_source st) AUTH_SOURCE_API_KEY then
    match rs_api_key st with
    | Some (_, _, _, sa_id) => make_principal "service_account" sa_id None
    | None => None
    end
  else
    make_principal "user" (rs_user_id st)
      (Some (opt_or (trusted_owner st owner_header) (rs_user_id st))).

(** [TenantContext] with its non-empty Org. *)
Definition make_tenant (org_id : string) (p : principal_ref) (auth_method : string)
    (scopes : option (gset string)) : option tenant_context :=
  if String.eqb org_id "" then None else Some (mk_tenant org_id p auth_method scopes).

(** [resolve_tenant_context]; [None] when it raises, which the middleware
    answers with a 503. *)
Definition resolve_tenant_context (phase default_org_id : string) (persistence : bool)
    (st : request_state) (owner_header : option string) (t : iam_tables) : option tenant_context :=
  let auth_method := opt_or (dict_get (rs_auth_source st) BOOTSTRAP_AUTH_METHOD_MAP) "internal" in
  match resolve_principal st owner_header with
  | None => None
  | Some principal =>
      if String.eqb (rs_auth_source st) AUTH_SOURCE_API_KEY then
        match rs_api_key st with
        | Some (_, org_id, scopes, _) => make_tenant org_id principal auth_method (Some scopes)
        | None => None
        end
      else if String.eqb phase "disabled" then make_tenant default_org_id principal auth_method None
      else if negb persistence then None
      else
        match pr_user_id principal with
        | None => None
        | Some user_id =>
            match get_active_membership user_id t with
            | Ok (Some m) => make_tenant (mem_org_id m) principal auth_method None
            | _ => None
            end
        end
  end.

(** [resolve_channel_tenant_context]; [None] when it raises. *)
Definition resolve_channel_tenant_context (default_org_id owner_user_id : string) : option tenant_context :=
  match make_principal "user" owner_user_id (Some owner_user_id) with
  | None => None
  | Some p => make_tenant default_org_id p "internal" None
  end.

(** The request as it reaches a handler: [TenantResolutionMiddleware.dispatch]
    after a stamped authentication. *)
Definition bind_request (phase default_org_id : string) (persistence : bool) (r : raw_request)
    (st : request_state) (t : iam_tables) : option http_request :=
  match resolve_tenant_context phase default_org_id persistence st (rq_owner_header r) t with
  | None => None
  | Some tc =>
      Some (mk_http_request false (Some tc) (Some (rs_user_id st, rs_system_role st))
              (strip (opt_or (rq_owner_header r) "")) None)
  end.
