(* ===== verification/IamApi.v ===== *)
(** * The IAM endpoints

    [app/gateway/routers/iam.py]: every handler, from the [require_rbac]
    decorator to the answer, over the tables of [Iam], the outbox of [Outbox]
    and the permission cache of [Authorize].  A handler is a sequence of database
    sessions ([Session]); between two of them other requests run.  A handler
    that writes does so in one transaction with its audit row: [class_a] commits
    both or neither; the permission cache is invalidated after the commit.  The
    session factory, and the denial events of the gate, are left out. *)
From S2P Require Import Prelude Outbox Authorize AuthorizeProps Iam OidcMapping Auth.
Local Open Scope string_scope.
Local Open Scope Z_scope.

(** What one request draws from its surroundings: the clocks, the generated
    row id, the two pairs of random tokens of a key, the ids of the audit
    event and of its outbox row, the correlation ids, and whether the commit
    is lost. *)
Record api_env : Type := mk_env {
  en_clock : clock;
  en_row_id : string;
  en_tokens : string * string;
  en_tokens_retry : string * string;
  en_event_id : string;
  en_idempotency : string;
  en_outbox_id : string;
  en_request_id : string;
  en_trace_id : option string;
  en_commit_fails : bool
}.

(** The response models.  [ApiKeyResponse] has no hash. *)
Record key_response : Type := mk_key_response {
  kr_id : string;
  kr_org_id : string;
  kr_service_account_id : string;
  kr_key_prefix : string;
  kr_scopes : list string;
  kr_expires_at : Z;
  kr_revoked_at : option Z;
  kr_created_at : Z;
  kr_last_used_at : option Z
}.

Definition to_api_key_response (id : string) (r : api_key_row) : key_response :=
  mk_key_response id (ak_org_id r) (ak_service_account_id r) (ak_key_prefix r) (ak_scopes r)
    (ak_expires_at r) (ak_revoked_at r) (ak_created_at r) (ak_last_used_at r).

Inductive answer : Type :=
| ServiceAccountResponse (id : string) (r : service_account_row)
| ServiceAccountList (l : list (string * service_account_row))
| RoleBindingResponse (id : string) (r : role_binding_row)
| RoleBindingList (l : list (string * role_binding_row))
| ApiKeyCreateResponse (k : key_response) (plaintext_key : string)
| ApiKeyList (l : list key_response)
| MappingResponse (id : string) (r : mapping_row)
| MappingList (l : list (string * mapping_row))
| PreviewResponse (user_id issuer : string) (r : mapping_result)
| MembershipResponse (id : string) (r : membership_row)
| NoContent
| HttpError (status_code : Z) (detail : string).

Definition SA_NOT_FOUND : answer := HttpError 404 "ServiceAccount not found.".
Definition KEY_NOT_FOUND : answer := HttpError 404 "API Key not found.".
Definition MAPPING_NOT_FOUND : answer := HttpError 404 "OIDC group mapping not found.".
Definition MEMBERSHIP_NOT_FOUND : answer := HttpError 404 "Membership not found.".
Definition INTERNAL_ERROR : answer := HttpError 500 "Internal Server Error".

Section iam_api.
Context {C : Type} `{PermissionCache C}.
Context (ttl_seconds : Z).
Context {J : Type} (encode : audit_event -> J).
Context (hmac_sha256_hex : string -> option string).

Notation audit_db := (Outbox.audit_db (J := J)).

Record api_state : Type := mk_api_state {
  as_tables : iam_tables;
  as_audit : audit_db;
  as_cache : C
}.

Definition with_cache (c : C) (s : api_state) : api_state := mk_api_state (as_tables s) (as_audit s) c.

(** The rest of a request: its answer, or its next session. *)
Inductive handler : Type :=
| Answer (a : answer)
| Session (f : api_state -> handler * api_state).

Definition reply (a : answer) (s : api_state) : handler * api_state := (Answer a, s).
Definition next (f : api_state -> handler * api_state) (s : api_state) : handler * api_state := (Session f, s).

(** A request with nothing in between. *)
Fixpoint run_alone (h : handler) (s : api_state) : answer * api_state :=
  match h with
  | Answer a => (a, s)
  | Session f => match f s with (h', s') => run_alone h' s' end
  end.

(** [_require_org_id]. *)
Definition org_of (r : http_request) : option string :=
  match hr_tenant r with
  | Some t => if String.eqb (tc_org_id t) "" then None else Some (tc_org_id t)
  | None => None
  end.

(** [_actor_id]. *)
Definition actor_id (r : http_request) : option string := fst <$> hr_user r.

(** [build_audit_event] with the actor of [_audit_actor], as
    [_emit_class_a_audit] calls it. *)
Definition build_audit_event (e : api_env) (r : http_request) (action org_id resource_type resource_id : string)
    (payload : list (string * json)) : audit_event :=
  let '(actor_type, actor, user_id) :=
    match actor_id r with
    | Some u => ("user", u, Some u)
    | None => ("system", "system", None)
    end in
  mk_audit_event (en_event_id e) (action +:+ ":" +:+ en_idempotency e) (Some org_id) None actor_type actor
    user_id None action "success" None (Some (resource_type, Some resource_id, org_id))
    (if String.eqb (en_request_id e) "" then "system" else en_request_id e) (en_trace_id e) None
    (ck_utc (en_clock e)) payload.

(** The end of a Class A transaction: the business write [t'] is flushed, the
    audit row is enqueued on the same session and the session commits.  [None]
    when the enqueue or the commit raises: the transaction is rolled back. *)
Definition class_a (e : api_env) (r : http_request) (action org_id resource_type resource_id : string)
    (payload : list (string * json)) (t' : iam_tables) (s : api_state) : option api_state :=
  let ev := build_audit_event e r action org_id resource_type resource_id payload in
  match enqueue_audit_outbox encode (en_outbox_id e) ev (ck_utc (en_clock e)) (as_audit s) with
  | Err _ => None
  | Ok (_, audit') => if en_commit_fails e then None else Some (mk_api_state t' audit' (as_cache s))
  end.

(** A committed write, answered with [ans] after the invalidation of [inv]. *)
Definition finish (committed : option api_state) (inv : option (string * string * string))
    (ans : answer) (s : api_state) : handler * api_state :=
  match committed with
  | None => reply INTERNAL_ERROR s
  | Some s' =>
      match inv with
      | None => reply ans s'
      | Some (org_id, ptype, pid) =>
          next (fun s => reply ans (with_cache (invalidate_principal org_id ptype pid (as_cache s)) s)) s'
      end
  end.

(** A handler under its decorator and its Org. *)
Definition with_rbac (p : Permission) (e : api_env) (r : http_request)
    (h : string -> api_state -> handler * api_state) : handler :=
  Session (fun s =>
    let '(gate, c1, _) :=
      require_rbac ttl_seconds p false false ∅ (en_clock e) (view (as_tables s)) r (as_cache s) in
    let s1 := with_cache c1 s in
    match gate with
    | HTTPException code detail => reply (HttpError code detail) s1
    | GateValueError => reply INTERNAL_ERROR s1
    | Handler =>
        match org_of r with
        | None => reply (HttpError 400 "IAM API requires an active tenant context; none is bound.") s1
        | Some org_id => next (h org_id) s1
        end
    end).

(** The Org-scoped read of a service account most handlers start with. *)
Definition org_service_account (org_id sa_id : string) (t : iam_tables) : option service_account_row :=
  match get_service_account sa_id t with
  | Some sa => if String.eqb (sac_org_id sa) org_id then Some sa else None
  | None => None
  end.

Definition null_or (o : option string) : json := match o with Some x => JStr x | None => JNull end.

(** ** Service accounts *)

Definition list_org_service_accounts (e : api_env) (r : http_request) : handler :=
  with_rbac ADMIN_IAM_READ e r (fun org_id s => reply (ServiceAccountList (list_service_accounts org_id (as_tables s))) s).

Record sa_create_request : Type := mk_sa_create {
  scr_name : string;
  scr_description : option string;
  scr_owner_user_id : option string;
  scr_purpose : option string;
  scr_system : option string;
  scr_environment : option string;
  scr_expires_at : option Z
}.

Definition create_org_service_account (e : api_env) (r : http_request) (b : sa_create_request)
    : handler :=
  with_rbac ADMIN_IAM_MANAGE e r (fun org_id s =>
    match create_service_account (en_row_id e) org_id (scr_name b) (scr_description b) (scr_owner_user_id b)
            (scr_purpose b) (scr_system b) (scr_environment b) (scr_expires_at b) (actor_id r)
            (ck_utc (en_clock e)) (as_tables s) with
    | Err IE_integrity => reply (HttpError 409 "ServiceAccount already exists in this organization.") s
    | Err _ => reply INTERNAL_ERROR s
    | Ok (row, t') =>
        finish (class_a e r "iam.service_account.created" org_id "service_account" (en_row_id e)
                  [("sa_id", JStr (en_row_id e)); ("name", null_or (sac_name row));
                   ("owner_user_id", null_or (sac_owner_user_id row))] t' s)
          None (ServiceAccountResponse (en_row_id e) row) s
    end).

Definition get_org_service_account (e : api_env) (r : http_request) (sa_id : string)
    : handler :=
  with_rbac ADMIN_IAM_READ e r (fun org_id s =>
    match org_service_account org_id sa_id (as_tables s) with
    | None => reply SA_NOT_FOUND s
    | Some row => reply (ServiceAccountResponse sa_id row) s
    end).

(** [sorted(fields)] of the patched field names. *)
Definition sorted_names (fields : list (string * json)) : json :=
  JArr (JStr <$> sort_by String.leb fields.*1).

(** A name collision is not caught here. *)
Definition update_org_service_account (e : api_env) (r : http_request) (sa_id : string)
    (fields : list (string * json)) : handler :=
  with_rbac ADMIN_IAM_MANAGE e r (fun org_id s =>
    match update_service_account sa_id fields (as_tables s) with
    | Err IE_value => reply SA_NOT_FOUND s
    | Err _ => reply INTERNAL_ERROR s
    | Ok (row, t') =>
        if negb (String.eqb (sac_org_id row) org_id) then reply SA_NOT_FOUND s
        else
          finish (class_a e r "iam.service_account.updated" org_id "service_account" sa_id
                    [("sa_id", JStr sa_id); ("fields", sorted_names fields)] t' s)
            None (ServiceAccountResponse sa_id row) s
    end).

(** [_transition_status]. *)
Definition transition_status (e : api_env) (r : http_request) (sa_id target : string)
    (org_id : string) (s : api_state) : handler * api_state :=
  let action_verb := if String.eqb target SERVICE_ACCOUNT_DISABLED then "disabled" else "activated" in
  match set_service_account_status sa_id target (as_tables s) with
  | Err IE_value => reply SA_NOT_FOUND s
  | Err _ => reply INTERNAL_ERROR s
  | Ok (row, t') =>
      if negb (String.eqb (sac_org_id row) org_id) then reply SA_NOT_FOUND s
      else
        finish (class_a e r ("iam.service_account." +:+ action_verb) org_id "service_account" sa_id
                  [("sa_id", JStr sa_id); ("status", JStr target)] t' s)
          (Some (org_id, "service_account", sa_id)) (ServiceAccountResponse sa_id row) s
  end.

Definition disable_org_service_account (e : api_env) (r : http_request) (sa_id : string)
    : handler :=
  with_rbac ADMIN_IAM_MANAGE e r (transition_status e r sa_id SERVICE_ACCOUNT_DISABLED).

Definition enable_org_service_account (e : api_env) (r : http_request) (sa_id : string)
    : handler :=
  with_rbac ADMIN_IAM_MANAGE e r (transition_status e r sa_id SERVICE_ACCOUNT_ACTIVE).

Definition delete_org_service_account (e : api_env) (r : http_request) (sa_id : string)
    : handler :=
  with_rbac ADMIN_IAM_MANAGE e r (fun org_id s =>
    match org_service_account org_id sa_id (as_tables s) with
    | None => reply SA_NOT_FOUND s
    | Some _ => next (fun s =>
        match delete_service_account sa_id (as_tables s) with
        | (None, _) => reply NoContent s
        | (Some pre_delete, t') =>
            finish (class_a e r "iam.service_account.deleted" org_id "service_account" sa_id
                      [("sa_id", JStr sa_id); ("name", null_or (sac_name pre_delete))] t' s)
              (Some (org_id, "service_account", sa_id)) NoContent s
        end) s
    end).

(** ** Role bindings of a service account *)

Definition list_sa_role_bindings (e : api_env) (r : http_request) (sa_id : string)
    : handler :=
  with_rbac ADMIN_IAM_READ e r (fun org_id s =>
    match org_service_account org_id sa_id (as_tables s) with
    | None => reply SA_NOT_FOUND s
    | Some _ => next (fun s => reply (RoleBindingList (list_role_bindings org_id "service_account" sa_id (as_tables s))) s) s
    end).

Definition create_sa_role_binding (e : api_env) (r : http_request) (sa_id role_id : string)
    (expires_at : option Z) : handler :=
  with_rbac ADMIN_IAM_MANAGE e r (fun org_id s =>
    match org_service_account org_id sa_id (as_tables s) with
    | None => reply SA_NOT_FOUND s
    | Some _ => next (fun s =>
        match create_role_binding (en_row_id e) org_id "service_account" sa_id role_id (actor_id r) expires_at
                (ck_utc (en_clock e)) (as_tables s) with
        | Err IE_integrity => reply (HttpError 409 "Role binding already exists or role_id is invalid.") s
        | Err _ => reply INTERNAL_ERROR s
        | Ok (row, t') =>
            finish (class_a e r "iam.role_binding.created" org_id "role_binding" (en_row_id e)
                      [("sa_id", JStr sa_id); ("binding_id", JStr (en_row_id e)); ("role_id", JStr role_id)] t' s)
              (Some (org_id, "service_account", sa_id)) (RoleBindingResponse (en_row_id e) row) s
        end) s
    end).

(** The delete is by id within the Org; without a row the empty transaction
    commits and the cache is invalidated all the same. *)
Definition delete_sa_role_binding (e : api_env) (r : http_request) (sa_id binding_id : string)
    : handler :=
  with_rbac ADMIN_IAM_MANAGE e r (fun org_id s =>
    match org_service_account org_id sa_id (as_tables s) with
    | None => reply SA_NOT_FOUND s
    | Some _ => next (fun s =>
        match delete_role_binding binding_id org_id (as_tables s) with
        | (None, _) =>
            finish (if en_commit_fails e then None else Some s)
              (Some (org_id, "service_account", sa_id)) NoContent s
        | (Some pre_delete, t') =>
            finish (class_a e r "iam.role_binding.deleted" org_id "role_binding" binding_id
                      [("sa_id", JStr sa_id); ("binding_id", JStr binding_id);
                       ("role_id", JStr (rb_role_id (rbr_binding pre_delete)))] t' s)
              (Some (org_id, "service_account", sa_id)) NoContent s
        end) s
    end).

(** ** API keys *)

(** [_validate_scopes]; [Some] is the 400. *)
Definition validate_scopes (scopes : list string) : option answer :=
  if bool_decide (scopes = []) then Some (HttpError 400 "API Key scopes must be non-empty (ADR §9.2).")
  else
    match List.find (fun sc => String.eqb sc "" || is_system_permission sc) scopes with
    | Some sc =>
        Some (HttpError 400 (if String.eqb sc "" then "API Key scope entry is invalid."
                             else "API Key scope carries the system: prefix"))
    | None =>
        match validate_role_permissions scopes false with
        | Ok _ => None
        | Err _ => Some (HttpError 400 "API Key scope validation failed")
        end
    end.

(** One [generate_api_key] and [_attempt_insert]. *)
Definition attempt_insert (e : api_env) (tokens : string * string) (org_id sa_id : string)
    (scopes : list string) (expires_at : Z) (t : iam_tables)
    : option (result iam_error (string * (api_key_row * iam_tables))) :=
  match generate_api_key hmac_sha256_hex tokens.1 tokens.2 with
  | None => None
  | Some (plaintext, key_prefix, key_hash) =>
      Some match create_api_key (en_row_id e) org_id sa_id key_prefix key_hash scopes expires_at
                   (ck_utc (en_clock e)) t with
           | Ok p => Ok (plaintext, p)
           | Err err => Err err
           end
  end.

(** The insert with its one retry on a collision; [None] when the hash cannot
    be computed. *)
Definition insert_with_retry (e : api_env) (org_id sa_id : string) (scopes : list string)
    (expires_at : Z) (t : iam_tables) : option (result iam_error (string * (api_key_row * iam_tables))) :=
  match attempt_insert e (en_tokens e) org_id sa_id scopes expires_at t with
  | Some (Err IE_integrity) => attempt_insert e (en_tokens_retry e) org_id sa_id scopes expires_at t
  | other => other
  end.

Definition mint_sa_api_key (e : api_env) (r : http_request) (sa_id : string) (scopes : list string)
    (expires_at : Z) : handler :=
  with_rbac ADMIN_IAM_MANAGE e r (fun org_id s =>
    match org_service_account org_id sa_id (as_tables s) with
    | None => reply SA_NOT_FOUND s
    | Some _ =>
        match validate_scopes scopes with
        | Some err => reply err s
        | None => next (fun s =>
            match insert_with_retry e org_id sa_id scopes expires_at (as_tables s) with
            | Some (Ok (plaintext, (row, t'))) =>
                finish (class_a e r "iam.api_key.created" org_id "api_key" (en_row_id e)
                          [("key_id", JStr (en_row_id e)); ("key_prefix", JStr (ak_key_prefix row));
                           ("sa_id", JStr sa_id); ("scopes", JArr (JStr <$> scopes));
                           ("expires_at", JIso expires_at)] t' s)
                  None (ApiKeyCreateResponse (to_api_key_response (en_row_id e) row) plaintext) s
            | Some (Err IE_integrity) =>
                reply (HttpError 409 "API Key prefix collision after retry; please retry the request.") s
            | Some (Err _) => reply INTERNAL_ERROR s
            | None => reply INTERNAL_ERROR s
            end) s
        end
    end).

Definition list_sa_api_keys (e : api_env) (r : http_request) (sa_id : string)
    : handler :=
  with_rbac ADMIN_IAM_READ e r (fun org_id s =>
    match org_service_account org_id sa_id (as_tables s) with
    | None => reply SA_NOT_FOUND s
    | Some _ =>
        next (fun s =>
          reply (ApiKeyList ((fun p => to_api_key_response p.1 p.2) <$> list_api_keys org_id sa_id (as_tables s))) s) s
    end).

Definition revoke_sa_api_key (e : api_env) (r : http_request) (sa_id key_id : string)
    : handler :=
  with_rbac ADMIN_IAM_MANAGE e r (fun org_id s =>
    match org_service_account org_id sa_id (as_tables s) with
    | None => reply SA_NOT_FOUND s
    | Some _ => next (fun s =>
        match get_api_key key_id (as_tables s) with
        | None => reply KEY_NOT_FOUND s
        | Some key =>
            if negb (String.eqb (ak_org_id key) org_id) || negb (String.eqb (ak_service_account_id key) sa_id)
            then reply KEY_NOT_FOUND s
            else next (fun s =>
              let t' := (revoke_api_key key_id org_id (ck_utc (en_clock e)) (as_tables s)).2 in
              finish (class_a e r "iam.api_key.revoked" org_id "api_key" key_id
                        [("key_id", JStr key_id); ("key_prefix", JStr (ak_key_prefix key)); ("sa_id", JStr sa_id)] t' s)
                (Some (org_id, "service_account", sa_id)) NoContent s) s
        end) s
    end).

(** ** OIDC group mappings *)

(** [_validate_mapping_target_role]; a null role id is unknown. *)
Definition perm_strings (l : list perm_entry) : list string :=
  omap (fun p => match p with PStr s => Some s | PNotStr => None end) l.

Definition validate_mapping_target_role (role_id : option string) (t : iam_tables) : option answer :=
  match role_id ≫= fun id => dict_get id (it_roles t) with
  | None => Some (HttpError 400 "target_role_id does not reference a known role.")
  | Some role =>
      if carries_system role
      then Some (HttpError 400 "target_role carries a system: permission; OIDC groups cannot map to system permissions (ADR §10 rule 3).")
      else if existsb (fun p => match p with PNotStr => true | PStr _ => false end) (role_permissions role)
      then Some (HttpError 400 "target_role permission set is invalid")
      else
        match validate_role_permissions (perm_strings (role_permissions role)) (role_is_system role) with
        | Ok _ => None
        | Err _ => Some (HttpError 400 "target_role permission set is invalid")
        end
  end.

(** [_validate_mapping_mode]. *)
Definition validate_mapping_mode (mode : option string) : option answer :=
  if match mode with Some m => str_in m ["additive"; "authoritative"] | None => false end then None
  else Some (HttpError 400 "mode must be 'additive' or 'authoritative'").

Definition list_oidc_group_mappings_route (e : api_env) (r : http_request) : handler :=
  with_rbac ADMIN_IAM_READ e r
    (fun org_id s => reply (MappingList (list_oidc_group_mappings (Some org_id) None (as_tables s))) s).

Record mapping_create_request : Type := mk_mapping_create {
  mcr_issuer : string;
  mcr_group_claim : string;
  mcr_group_value : string;
  mcr_target_org_id : string;
  mcr_target_role_id : string;
  mcr_mode : string;
  mcr_description : option string
}.

Definition create_oidc_group_mapping_route (e : api_env) (r : http_request) (b : mapping_create_request)
    : handler :=
  with_rbac ADMIN_IAM_MANAGE e r (fun org_id s =>
    if negb (String.eqb (mcr_target_org_id b) org_id)
    then reply (HttpError 400 "target_org_id must match the caller's active org.") s
    else
      match validate_mapping_mode (Some (mcr_mode b)) with
      | Some err => reply err s
      | None =>
          match validate_mapping_target_role (Some (mcr_target_role_id b)) (as_tables s) with
          | Some err => reply err s
          | None => next (fun s =>
              match create_oidc_group_mapping (en_row_id e) (mcr_issuer b) (mcr_group_claim b)
                      (mcr_group_value b) (mcr_target_org_id b) (mcr_target_role_id b) (mcr_mode b)
                      (mcr_description b) (actor_id r) (ck_utc (en_clock e)) (as_tables s) with
              | Err IE_integrity =>
                  reply (HttpError 409 "An OIDC group mapping for this (issuer, group, org, role) already exists.") s
              | Err _ => reply INTERNAL_ERROR s
              | Ok (row, t') =>
                  finish (class_a e r "iam.oidc_group_mapping.created" org_id "oidc_group_mapping" (en_row_id e)
                            [("mapping_id", JStr (en_row_id e)); ("issuer", JStr (map_issuer row));
                             ("group_value", null_or (map_group_value row));
                             ("target_role_id", null_or (map_target_role_id row));
                             ("mode", null_or (map_mode row))] t' s)
                    None (MappingResponse (en_row_id e) row) s
              end) s
          end
      end).

(** The validations of the patch come before the existence check. *)
Definition update_oidc_group_mapping_route (e : api_env) (r : http_request) (mapping_id : string)
    (fields : list (string * json)) : handler :=
  with_rbac ADMIN_IAM_MANAGE e r (fun org_id s =>
    let mode_error := match dict_get "mode" fields with
                      | Some v => validate_mapping_mode (text_of v)
                      | None => None
                      end in
    let role_error := match dict_get "target_role_id" fields with
                      | Some v => validate_mapping_target_role (text_of v) (as_tables s)
                      | None => None
                      end in
    match mode_error, role_error with
    | Some err, _ => reply err s
    | None, Some err => reply err s
    | None, None => next (fun s =>
        match get_oidc_group_mapping mapping_id (as_tables s) with
        | None => reply MAPPING_NOT_FOUND s
        | Some existing =>
            if negb (String.eqb (map_target_org_id existing) org_id) then reply MAPPING_NOT_FOUND s
            else next (fun s =>
              match update_oidc_group_mapping mapping_id fields (as_tables s) with
              | Err IE_integrity =>
                  reply (HttpError 409 "Update collides with an existing (issuer, group, org, role) mapping.") s
              | Err _ => reply MAPPING_NOT_FOUND s
              | Ok (row, t') =>
                  finish (class_a e r "iam.oidc_group_mapping.updated" org_id "oidc_group_mapping" mapping_id
                            [("mapping_id", JStr mapping_id); ("fields", sorted_names fields)] t' s)
                    None (MappingResponse mapping_id row) s
              end) s
        end) s
    end).

Definition delete_oidc_group_mapping_route (e : api_env) (r : http_request) (mapping_id : string)
    : handler :=
  with_rbac ADMIN_IAM_MANAGE e r (fun org_id s =>
    match get_oidc_group_mapping mapping_id (as_tables s) with
    | None => reply MAPPING_NOT_FOUND s
    | Some existing =>
        if negb (String.eqb (map_target_org_id existing) org_id) then reply MAPPING_NOT_FOUND s
        else next (fun s =>
          match delete_oidc_group_mapping mapping_id org_id (as_tables s) with
          | (None, _) => finish (if en_commit_fails e then None else Some s) None NoContent s
          | (Some pre_delete, t') =>
              finish (class_a e r "iam.oidc_group_mapping.deleted" org_id "oidc_group_mapping" mapping_id
                        [("mapping_id", JStr mapping_id); ("issuer", JStr (map_issuer pre_delete));
                         ("group_value", null_or (map_group_value pre_delete));
                         ("target_role_id", null_or (map_target_role_id pre_delete))] t' s)
                None NoContent s
          end) s
    end).

(** The dry run of the engine on the caller's own identity; an error of the
    engine is not caught. *)
Definition preview_oidc_group_mapping_route (e : api_env) (r : http_request) (issuer : string)
    (groups : list string) : handler :=
  with_rbac ADMIN_IAM_MANAGE e r (fun _ s =>
    match actor_id r with
    | None => reply (HttpError 400 "Preview requires an authenticated caller; the dry-run runs against your own identity.") s
    | Some actor =>
        match apply_group_mapping (fun _ => en_row_id e) actor issuer groups "oidc" None true
                (ck_utc (en_clock e)) (as_tables s) with
        | (Ok res, t') => reply (PreviewResponse actor issuer res) (mk_api_state t' (as_audit s) (as_cache s))
        | (Err _, t') => reply INTERNAL_ERROR (mk_api_state t' (as_audit s) (as_cache s))
        end
    end).

(** ** Memberships *)

(** [_org_admin_role_id]. *)
Definition org_admin_role_id (t : iam_tables) : option string := fst <$> find_system_role ORG_ADMIN_ROLE_NAME t.

(** The transaction both membership handlers end with. *)
Definition change_membership (e : api_env) (r : http_request) (user_id status action : string)
    (org_id : string) (s : api_state) : handler * api_state :=
  match set_membership_status org_id user_id status (as_tables s) with
  | Err _ => reply MEMBERSHIP_NOT_FOUND s
  | Ok ((id, row), t') =>
      finish (class_a e r action org_id "org_membership" id
                [("user_id", JStr user_id); ("membership_id", JStr id)] t' s)
        (Some (org_id, "user", user_id)) (MembershipResponse id row) s
  end.

Definition suspend_org_member (e : api_env) (r : http_request) (user_id : string) : handler :=
  with_rbac ADMIN_IAM_MANAGE e r (fun org_id s =>
    let suspend := change_membership e r user_id MEMBERSHIP_SUSPENDED "iam.membership.suspended" org_id in
    match org_admin_role_id (as_tables s) with
    | None => next suspend s
    | Some role_id => next (fun s =>
        if assert_not_last_admin org_id role_id user_id (ck_utc (en_clock e)) (as_tables s)
        then next suspend s
        else reply (HttpError 409 "last admin") s) s
    end).

Definition activate_org_member (e : api_env) (r : http_request) (user_id : string)
    : handler :=
  with_rbac ADMIN_IAM_MANAGE e r
    (change_membership e r user_id MEMBERSHIP_ACTIVE "iam.membership.activated").

Definition get_org_member (e : api_env) (r : http_request) (user_id : string)
    : handler :=
  with_rbac ADMIN_IAM_READ e r (fun org_id s =>
    match get_membership org_id user_id (as_tables s) with
    | None => reply MEMBERSHIP_NOT_FOUND s
    | Some (id, row) => reply (MembershipResponse id row) s
    end).

(** ** The router *)

Inductive iam_request : Type :=
| R_list_service_accounts
| R_create_service_account (b : sa_create_request)
| R_get_service_account (sa_id : string)
| R_update_service_account (sa_id : string) (fields : list (string * json))
| R_disable_service_account (sa_id : string)
| R_enable_service_account (sa_id : string)
| R_delete_service_account (sa_id : string)
| R_list_role_bindings (sa_id : string)
| R_create_role_binding (sa_id role_id : string) (expires_at : option Z)
| R_delete_role_binding (sa_id binding_id : string)
| R_mint_api_key (sa_id : string) (scopes : list string) (expires_at : Z)
| R_list_api_keys (sa_id : string)
| R_revoke_api_key (sa_id key_id : string)
| R_list_mappings
| R_create_mapping (b : mapping_create_request)
| R_update_mapping (mapping_id : string) (fields : list (string * json))
| R_delete_mapping (mapping_id : string)
| R_preview_mapping (issuer : string) (groups : list string)
| R_suspend_member (user_id : string)
| R_activate_member (user_id : string)
| R_get_member (user_id : string).

Definition handler_of (e : api_env) (r : http_request) (rq : iam_request) : handler :=
  match rq with
  | R_list_service_accounts => list_org_service_accounts e r
  | R_create_service_account b => create_org_service_account e r b
  | R_get_service_account sa_id => get_org_service_account e r sa_id
  | R_update_service_account sa_id fields => update_org_service_account e r sa_id fields
  | R_disable_service_account sa_id => disable_org_service_account e r sa_id
  | R_enable_service_account sa_id => enable_org_service_account e r sa_id
  | R_delete_service_account sa_id => delete_org_service_account e r sa_id
  | R_list_role_bindings sa_id => list_sa_role_bindings e r sa_id
  | R_create_role_binding sa_id role_id expires_at => create_sa_role_binding e r sa_id role_id expires_at
  | R_delete_role_binding sa_id binding_id => delete_sa_role_binding e r sa_id binding_id
  | R_mint_api_key sa_id scopes expires_at => mint_sa_api_key e r sa_id scopes expires_at
  | R_list_api_keys sa_id => list_sa_api_keys e r sa_id
  | R_revoke_api_key sa_id key_id => revoke_sa_api_key e r sa_id key_id
  | R_list_mappings => list_oidc_group_mappings_route e r
  | R_create_mapping b => create_oidc_group_mapping_route e r b
  | R_update_mapping mapping_id fields => update_oidc_group_mapping_route e r mapping_id fields
  | R_delete_mapping mapping_id => delete_oidc_group_mapping_route e r mapping_id
  | R_preview_mapping issuer groups => preview_oidc_group_mapping_route e r issuer groups
  | R_suspend_member user_id => suspend_org_member e r user_id
  | R_activate_member user_id => activate_org_member e r user_id
  | R_get_member user_id => get_org_member e r user_id
  end.

(** A request that no other request interrupts. *)
Definition handle (e : api_env) (r : http_request) (rq : iam_request) (s : api_state) : answer * api_state :=
  run_alone (handler_of e r rq) s.
End iam_api.
