(* ===== verification/IamProps.v ===== *)
(** * Facts about the IAM tables

    The constraints of the IAM tables as an invariant ([tables_wf]), the writes
    the gateway makes to them ([iam_write]), and what every such write keeps:
    the constraints, and the rows of the other organizations. *)
From S2P Require Import Prelude Authorize AuthorizeProps Iam OidcMapping.
Local Open Scope string_scope.
Local Open Scope Z_scope.

(** ** Tables with a row constraint and a unique key *)

Section table.
Context {R K : Type} (P : R -> Prop) (key : R -> K).

Definition table_ok (d : list (string * R)) : Prop :=
  dict_wf d
  /\ (forall i r, dict_get i d = Some r -> P r)
  /\ (forall i j r r', dict_get i d = Some r -> dict_get j d = Some r' -> key r = key r' -> i = j).

Lemma table_ok_nil : table_ok [].
Proof. split_and!; [apply dict_wf_nil|done..]. Qed.

Lemma table_ok_set i r d :
  table_ok d -> P r ->
  (forall j r', dict_get j d = Some r' -> key r' = key r -> j = i) ->
  table_ok (dict_set i r d).
Proof.
  intros (Hwf & HP & Hu) Hr Hk. split_and!; [by apply dict_wf_set|..].
  - intros j r'. rewrite dict_get_set. case_decide; naive_solver.
  - intros j1 j2 r1 r2. rewrite !dict_get_set. repeat case_decide; intros; simplify_eq; eauto.
    symmetry. eauto.
Qed.

Lemma table_ok_pop i d : table_ok d -> table_ok (dict_pop i d).
Proof.
  intros (Hwf & HP & Hu). split_and!; [by apply dict_wf_pop|..].
  - intros j r'. rewrite dict_get_pop. case_decide; naive_solver.
  - intros j1 j2 r1 r2. rewrite !dict_get_pop. repeat case_decide; naive_solver.
Qed.
End table.

(** Rows filtered by a test. *)
Lemma dict_keys_filter_sublist {V} (f : string * V -> bool) (d : list (string * V)) :
  dict_keys (List.filter f d) `sublist_of` dict_keys d.
Proof.
  induction d as [|x d IH]; simpl; [constructor|].
  destruct (f x); simpl; by constructor.
Qed.

Lemma dict_wf_filter {V} (f : string * V -> bool) (d : list (string * V)) :
  dict_wf d -> dict_wf (List.filter f d).
Proof. intros Hd. unfold dict_wf in *. eapply sublist_NoDup; [exact Hd|apply dict_keys_filter_sublist]. Qed.

Lemma dict_get_filter {V} (f : string * V -> bool) (d : list (string * V)) k v :
  dict_wf d -> dict_get k (List.filter f d) = Some v <-> dict_get k d = Some v /\ f (k, v) = true.
Proof.
  intros Hwf. split.
  - intros Hk%dict_get_Some_elem. apply list_elem_of_In, filter_In in Hk as [Hin Hf].
    split; [|done]. apply dict_get_elem; [done|]. by apply list_elem_of_In.
  - intros [Hk Hf]. apply dict_get_elem; [by apply dict_wf_filter|].
    apply list_elem_of_In, filter_In. split; [|done]. by apply list_elem_of_In, dict_get_Some_elem.
Qed.

Lemma table_ok_filter {R K} (P : R -> Prop) (key : R -> K) f d :
  table_ok P key d -> table_ok P key (List.filter f d).
Proof.
  intros (Hwf & HP & Hu). split_and!; [by apply dict_wf_filter|..].
  - intros i r. rewrite dict_get_filter by done. naive_solver.
  - intros i j r r'. rewrite !dict_get_filter by done. naive_solver.
Qed.

(** ** The constraints *)

Definition sa_row_ok (r : service_account_row) : Prop :=
  sac_name r <> None /\ sac_status r ∈ ALLOWED_STATUSES.

Definition mapping_row_ok (r : mapping_row) : Prop :=
  map_group_claim r <> None /\ map_group_value r <> None /\ map_target_role_id r <> None
  /\ exists m, map_mode r = Some m /\ m ∈ ALLOWED_MAPPING_MODES.

Definition membership_row_ok (r : membership_row) : Prop :=
  mem_status r ∈ ["invited"; "active"; "suspended"; "removed"].

Definition binding_key (r : role_binding_row) : string * string * string * string :=
  (rb_org_id (rbr_binding r), rb_principal_type (rbr_binding r), rb_principal_id (rbr_binding r),
   rb_role_id (rbr_binding r)).

Definition sa_key (r : service_account_row) : string * option string := (sac_org_id r, sac_name r).
Definition mapping_key (r : mapping_row) : string * option string * string * option string :=
  (map_issuer r, map_group_value r, map_target_org_id r, map_target_role_id r).
Definition membership_key (r : membership_row) : string * string := (mem_org_id r, mem_user_id r).

(** The Org a service account belongs to, when it exists. *)
Definition sa_org (t : iam_tables) (sa_id : string) : option string :=
  sac_org_id <$> dict_get sa_id (it_service_accounts t).

(** The CHECK, NOT NULL, UNIQUE and foreign-key constraints, and a rule no
    constraint states: the keys of a service account are rows of its Org. *)
Record tables_wf (t : iam_tables) : Prop := {
  twf_orgs : forall o s, (o, s) ∈ it_orgs t -> s ∈ ["active"; "suspended"; "deleting"; "deleted"];
  twf_memberships : table_ok membership_row_ok membership_key (it_memberships t);
  twf_service_accounts : table_ok sa_row_ok sa_key (it_service_accounts t);
  twf_bindings : table_ok (fun r => rb_principal_type (rbr_binding r) ∈ ["user"; "service_account"])
                   binding_key (it_role_bindings t);
  twf_keys : table_ok (fun r => sa_org t (ak_service_account_id r) = Some (ak_org_id r)) ak_key_prefix (it_api_keys t);
  twf_mappings : table_ok mapping_row_ok mapping_key (it_mappings t);
  twf_binding_roles : forall i r, dict_get i (it_role_bindings t) = Some r ->
    dict_mem (rb_role_id (rbr_binding r)) (it_roles t) = true
}.

(** The Org of each service-account id and of each mapping id, for good: ids are
    generated and not drawn twice. *)
Record home : Type := mk_home { home_sa : string -> string; home_map : string -> string }.

Definition homes (h : home) (t : iam_tables) : Prop :=
  (forall sa_id o, sa_org t sa_id = Some o -> home_sa h sa_id = o)
  /\ forall i r, dict_get i (it_mappings t) = Some r -> home_map h i = map_target_org_id r.

(** The bindings of service accounts, also of deleted ones, are rows of their
    Org. *)
Definition bindings_home (h : home) (t : iam_tables) : Prop :=
  forall i r, dict_get i (it_role_bindings t) = Some r -> rb_principal_type (rbr_binding r) = "service_account" ->
    home_sa h (rb_principal_id (rbr_binding r)) = rb_org_id (rbr_binding r).

(** The rows there are, each at home. *)
Definition home_of (t : iam_tables) : home :=
  mk_home (fun sa_id => opt_or (sa_org t sa_id) "")
    (fun i => opt_or (map_target_org_id <$> dict_get i (it_mappings t)) "").

Lemma home_of_homes t : homes (home_of t) t.
Proof. split; [intros sa_id o Ho|intros i r Hi]; simpl; [by rewrite Ho|by rewrite Hi]. Qed.

(** ** The writes of the IAM endpoints, in an Org *)

(** [checked] holds of the accounts the handler found in its Org before. *)

Inductive iam_write (checked : string -> Prop) (org_id : string) : iam_tables -> iam_tables -> Prop :=
| W_create_sa id name d o p s e x by_ now t row t' :
    create_service_account id org_id name d o p s e x by_ now t = Ok (row, t') -> iam_write checked org_id t t'
| W_update_sa id fields t row t' :
    update_service_account id fields t = Ok (row, t') -> sac_org_id row = org_id -> iam_write checked org_id t t'
| W_set_sa_status id status t row t' :
    set_service_account_status id status t = Ok (row, t') -> sac_org_id row = org_id -> iam_write checked org_id t t'
| W_delete_sa id t row t' :
    checked id -> delete_service_account id t = (Some row, t') -> iam_write checked org_id t t'
| W_create_binding id sa_id role_id by_ x now t row t' :
    checked sa_id ->
    create_role_binding id org_id "service_account" sa_id role_id by_ x now t = Ok (row, t') -> iam_write checked org_id t t'
| W_delete_binding id t row t' :
    delete_role_binding id org_id t = (Some row, t') -> iam_write checked org_id t t'
| W_create_key id sa_id prefix hash scopes x now t row t' :
    checked sa_id ->
    create_api_key id org_id sa_id prefix hash scopes x now t = Ok (row, t') -> iam_write checked org_id t t'
| W_revoke_key id now t row t' :
    revoke_api_key id org_id now t = (Some row, t') -> iam_write checked org_id t t'
| W_create_mapping id iss claim value role mode d by_ now t row t' :
    create_oidc_group_mapping id iss claim value org_id role mode d by_ now t = Ok (row, t') -> iam_write checked org_id t t'
| W_update_mapping id fields t row t' :
    update_oidc_group_mapping id fields t = Ok (row, t') -> map_target_org_id row = org_id -> iam_write checked org_id t t'
| W_delete_mapping id t row t' :
    delete_oidc_group_mapping id org_id t = (Some row, t') -> iam_write checked org_id t t'
| W_set_membership user_id status t row t' :
    set_membership_status org_id user_id status t = Ok (row, t') -> iam_write checked org_id t t'
| W_nothing t : iam_write checked org_id t t.

(** * Lemmas *)

(** ** Filters and updates *)

Lemma filter_set_dropped {V} (f : string * V -> bool) k v (d : list (string * V)) :
  f (k, v) = false -> (forall w, dict_get k d = Some w -> f (k, w) = false) ->
  List.filter f (dict_set k v d) = List.filter f d.
Proof.
  intros Hf. induction d as [|[k' w] d IH]; intros Hold; simpl; [by rewrite Hf|].
  simpl in Hold. case_decide as E; simpl.
  - subst k'. rewrite Hf, (Hold w eq_refl). done.
  - rewrite IH by done. done.
Qed.

Lemma filter_pop_dropped {V} (f : string * V -> bool) k (d : list (string * V)) :
  (forall w, (k, w) ∈ d -> f (k, w) = false) -> List.filter f (dict_pop k d) = List.filter f d.
Proof.
  unfold dict_pop. induction d as [|[k' w] d IH]; intros Hold; [done|].
  rewrite filter_cons. simpl. case_decide as E; simpl.
  - rewrite IH by (intros; apply Hold; by right). done.
  - simpl in E. assert (k' = k) as -> by (destruct (decide (k' = k)); tauto).
    rewrite (Hold w) by (by left). apply IH. intros; apply Hold; by right.
Qed.

Lemma filter_filter_keep {V} (f g : string * V -> bool) (d : list (string * V)) :
  (forall x, x ∈ d -> f x = true -> g x = true) -> List.filter f (List.filter g d) = List.filter f d.
Proof.
  induction d as [|x d IH]; intros Hk; simpl; [done|].
  destruct (g x) eqn:Hg; simpl; rewrite IH by (intros; apply Hk; [by right|done]); [done|].
  destruct (f x) eqn:Hf; [|done]. rewrite (Hk x) in Hg; [done|by left|done].
Qed.

Lemma existsb_false_get {V} (f : string * V -> bool) (d : list (string * V)) k v :
  existsb f d = false -> dict_get k d = Some v -> f (k, v) = false.
Proof.
  intros He Hk%dict_get_Some_elem. destruct (f (k, v)) eqn:Hf; [|done].
  assert (existsb f d = true); [|congruence].
  apply existsb_exists. exists (k, v). split; [by apply list_elem_of_In|done].
Qed.

Lemma forallb_get {V} (f : string * V -> bool) (d : list (string * V)) k v :
  forallb f d = true -> dict_get k d = Some v -> f (k, v) = true.
Proof.
  intros He Hk%dict_get_Some_elem. rewrite forallb_forall in He. apply He. by apply list_elem_of_In.
Qed.

(** The test a row passed, from a table-wide test and the row's lookup. *)
Ltac row_test Hj Hx :=
  match goal with
  | Hf : forallb _ _ = true |- _ => pose proof (forallb_get _ _ _ _ Hf Hj) as Hx
  | Hf : existsb _ _ = false |- _ => pose proof (existsb_false_get _ _ _ _ Hf Hj) as Hx
  end; simpl in Hx.

(** ** What each write does *)

#[local] Arguments sa_setattr : simpl never.
#[local] Arguments mapping_setattr : simpl never.

Lemma sa_setattr_keeps fields r :
  sac_org_id (foldl sa_setattr r fields) = sac_org_id r
  /\ sac_status (foldl sa_setattr r fields) = sac_status r.
Proof.
  revert r. induction fields as [|[k v] fields IH]; intros r; [done|]. simpl.
  destruct (IH (sa_setattr r (k, v))) as [-> ->]. done.
Qed.

Lemma mapping_setattr_keeps fields r :
  map_target_org_id (foldl mapping_setattr r fields) = map_target_org_id r
  /\ map_issuer (foldl mapping_setattr r fields) = map_issuer r.
Proof.
  revert r. induction fields as [|[k v] fields IH]; intros r; [done|]. simpl.
  destruct (IH (mapping_setattr r (k, v))) as [-> ->]. done.
Qed.

(** A flushed row meets the constraints and replaces the row under its id. *)
Lemma flush_service_account_Ok id r t row t' :
  flush_service_account id r t = Ok (row, t') ->
  row = r /\ t' = set_it_service_accounts (dict_set id r (it_service_accounts t)) t
  /\ sa_row_ok r
  /\ (forall j r', dict_get j (it_service_accounts t) = Some r' -> sa_key r' = sa_key r -> j = id).
Proof.
  unfold flush_service_account, sa_constraints. split_tests; [|done]. intros [= <- <-].
  reflect_bools. split_and!; try done; [by split; [|apply str_in_spec]|].
  intros j r' Hj [= Ho Hn]. row_test Hj Hf.
  apply orb_true_iff in Hf as [Hf|Hf]; reflect_bools; [done|].
  rewrite Ho, String.eqb_refl, bool_decide_eq_true_2 in Hf; done.
Qed.

Lemma flush_mapping_Ok id r t row t' :
  flush_mapping id r t = Ok (row, t') ->
  row = r /\ t' = set_it_mappings (dict_set id r (it_mappings t)) t
  /\ mapping_row_ok r
  /\ (forall j r', dict_get j (it_mappings t) = Some r' -> mapping_key r' = mapping_key r -> j = id).
Proof.
  unfold flush_mapping, mapping_constraints. destruct (_ && _) eqn:Hc; [|done]. intros [= <- <-].
  reflect_bools. split_and!; try done.
  - split_and!; try done. destruct (map_mode r); [|done]. eexists. split; [done|]. by apply str_in_spec.
  - intros j r' Hj [= E1 E2 E3 E4]. row_test Hj Hx. apply orb_true_iff in Hx as [Hx|Hx]; reflect_bools; [done|].
    rewrite E1, E3, !String.eqb_refl, !bool_decide_eq_true_2 in Hx; done.
Qed.

Lemma update_service_account_Ok id fields t row t' :
  update_service_account id fields t = Ok (row, t') ->
  exists r, dict_get id (it_service_accounts t) = Some r /\ sac_org_id row = sac_org_id r
    /\ sac_status row = sac_status r /\ flush_service_account id row t = Ok (row, t').
Proof.
  unfold update_service_account. destruct (negb _); [done|].
  destruct (dict_get id _) as [r|]; [|done]. intros Hf. exists r.
  pose proof (flush_service_account_Ok _ _ _ _ _ Hf) as (-> & _).
  by destruct (sa_setattr_keeps fields r) as [-> ->].
Qed.

Lemma set_service_account_status_Ok id status t row t' :
  set_service_account_status id status t = Ok (row, t') ->
  exists r, dict_get id (it_service_accounts t) = Some r /\ row = sa_with_status status r
    /\ status ∈ ALLOWED_STATUSES /\ flush_service_account id row t = Ok (row, t').
Proof.
  unfold set_service_account_status. destruct (str_in status _) eqn:Hs; [|done]. simpl.
  destruct (dict_get id _) as [r|]; [|done]. intros Hf. exists r.
  pose proof (flush_service_account_Ok _ _ _ _ _ Hf) as (-> & _). by apply str_in_spec in Hs.
Qed.

Lemma update_oidc_group_mapping_Ok id fields t row t' :
  update_oidc_group_mapping id fields t = Ok (row, t') ->
  exists r, dict_get id (it_mappings t) = Some r /\ map_target_org_id row = map_target_org_id r
    /\ flush_mapping id row t = Ok (row, t').
Proof.
  unfold update_oidc_group_mapping. destruct (negb _); [done|].
  destruct (dict_get id _) as [r|]; [|done]. intros Hf. exists r.
  pose proof (flush_mapping_Ok _ _ _ _ _ Hf) as (-> & _).
  by destruct (mapping_setattr_keeps fields r) as [-> _].
Qed.

Lemma dict_mem_false {V} k (d : list (string * V)) : dict_mem k d = false <-> dict_get k d = None.
Proof. unfold dict_mem. by destruct (dict_get k d). Qed.

Lemma create_service_account_Ok id org name d o p s e x by_ now t row t' :
  create_service_account id org name d o p s e x by_ now t = Ok (row, t') ->
  dict_get id (it_service_accounts t) = None /\ sac_org_id row = org
  /\ sac_status row = SERVICE_ACCOUNT_ACTIVE /\ flush_service_account id row t = Ok (row, t').
Proof.
  unfold create_service_account. destruct (dict_mem _ _) eqn:Hm; [done|].
  apply dict_mem_false in Hm. intros Hf.
  pose proof (flush_service_account_Ok _ _ _ _ _ Hf) as (-> & _). done.
Qed.

Lemma create_role_binding_Ok id org pt pid role by_ x now t row t' :
  create_role_binding id org pt pid role by_ x now t = Ok (row, t') ->
  row = mk_role_binding (mk_binding org pt pid role x) by_ now
  /\ t' = set_it_role_bindings (dict_set id row (it_role_bindings t)) t
  /\ pt ∈ ["user"; "service_account"] /\ dict_mem role (it_roles t) = true
  /\ dict_get id (it_role_bindings t) = None
  /\ (forall j r', dict_get j (it_role_bindings t) = Some r' -> binding_key r' <> binding_key row).
Proof.
  unfold create_role_binding. destruct (_ && _) eqn:Hc; [|done]. intros [= <- <-].
  reflect_bools. split_and!; try done.
  - by apply str_in_spec.
  - by apply dict_mem_false.
  - intros j r' Hj [= H1' H2' H3' H4']. row_test Hj Hx.
    unfold same_binding in Hx. simpl in Hx. by rewrite H1', H2', H3', H4', !String.eqb_refl in Hx.
Qed.

Lemma create_api_key_Ok id org sa prefix hash scopes x now t row t' :
  create_api_key id org sa prefix hash scopes x now t = Ok (row, t') ->
  row = mk_api_key org sa prefix hash scopes x None now None
  /\ t' = set_it_api_keys (dict_set id row (it_api_keys t)) t
  /\ dict_get id (it_api_keys t) = None
  /\ (forall j r', dict_get j (it_api_keys t) = Some r' -> ak_key_prefix r' <> prefix).
Proof.
  unfold create_api_key. destruct (_ && _) eqn:Hc; [|done]. intros [= <- <-].
  reflect_bools. split_and!; try done; [by apply dict_mem_false|].
  intros j r' Hj <-. row_test Hj Hx. by rewrite String.eqb_refl in Hx.
Qed.

Lemma revoke_api_key_Some id org now t row t' :
  revoke_api_key id org now t = (Some row, t') ->
  exists r, dict_get id (it_api_keys t) = Some r /\ ak_org_id r = org
    /\ ((exists rv, ak_revoked_at r = Some rv) /\ row = r /\ t' = t
        \/ ak_revoked_at r = None /\ row = key_with_times (Some now) (ak_last_used_at r) r
           /\ t' = set_it_api_keys (dict_set id row (it_api_keys t)) t).
Proof.
  unfold revoke_api_key. destruct (dict_get id _) as [r|]; [|done].
  destruct (String.eqb_spec (ak_org_id r) org) as [Ho|]; [|done]. simpl.
  destruct (ak_revoked_at r) as [rv|] eqn:Hr; intros [= <- <-]; exists r; eauto 10.
Qed.

Lemma revoke_api_key_own id org now t r :
  dict_get id (it_api_keys t) = Some r -> ak_org_id r = org ->
  exists row, revoke_api_key id org now t = (Some row, (revoke_api_key id org now t).2).
Proof.
  intros Hr Ho. unfold revoke_api_key. rewrite Hr, Ho, String.eqb_refl. simpl. case_match; eauto.
Qed.

Lemma delete_role_binding_Some id org t row t' :
  delete_role_binding id org t = (Some row, t') ->
  dict_get id (it_role_bindings t) = Some row /\ rb_org_id (rbr_binding row) = org
  /\ t' = set_it_role_bindings (dict_pop id (it_role_bindings t)) t.
Proof.
  unfold delete_role_binding. destruct (dict_get id _) as [r|]; [|done].
  destruct (String.eqb_spec (rb_org_id (rbr_binding r)) org); [|done]. by intros [= <- <-].
Qed.

Lemma delete_mapping_Some id org t row t' :
  delete_oidc_group_mapping id org t = (Some row, t') ->
  dict_get id (it_mappings t) = Some row /\ map_target_org_id row = org
  /\ t' = set_it_mappings (dict_pop id (it_mappings t)) t.
Proof.
  unfold delete_oidc_group_mapping. destruct (dict_get id _) as [r|]; [|done].
  destruct (String.eqb_spec (map_target_org_id r) org); [|done]. by intros [= <- <-].
Qed.

Lemma get_membership_Some org u t id r :
  dict_wf (it_memberships t) -> get_membership org u t = Some (id, r) ->
  dict_get id (it_memberships t) = Some r /\ mem_org_id r = org /\ mem_user_id r = u.
Proof.
  intros Hwf [Hin Hb]%find_some. simpl in Hb. reflect_bools. split; [|done].
  apply dict_get_elem; [done|]. by apply list_elem_of_In.
Qed.

Lemma set_membership_status_Ok org u status t id row t' :
  dict_wf (it_memberships t) -> set_membership_status org u status t = Ok ((id, row), t') ->
  exists r, dict_get id (it_memberships t) = Some r /\ membership_key r = (org, u)
    /\ row = mk_membership org u status (mem_created_at r)
    /\ status ∈ ALLOWED_MEMBERSHIP_STATUSES
    /\ t' = set_it_memberships (dict_set id row (it_memberships t)) t.
Proof.
  intros Hwf. unfold set_membership_status. destruct (str_in status _) eqn:Hs; [|done]. simpl.
  apply str_in_spec in Hs. destruct (get_membership org u t) as [[id0 r]|] eqn:Hg; [|done].
  destruct (get_membership_Some _ _ _ _ _ Hwf Hg) as (Hi & <- & <-).
  destruct (String.eqb_spec (mem_status r) status) as [E|]; intros [= <- <- <-]; exists r; split_and!; try done.
  - subst status. by destruct r.
  - rewrite dict_set_id by done. by destruct t.
Qed.

(** ** The constraints are kept *)

(** Replacing the service-account table by one in which every account keeps
    its Org leaves the references to it sound. *)
Lemma wf_set_service_accounts sas t :
  tables_wf t -> table_ok sa_row_ok sa_key sas ->
  (forall i o, sa_org t i = Some o -> sac_org_id <$> dict_get i sas = Some o) ->
  tables_wf (set_it_service_accounts sas t).
Proof.
  intros [] Hsas Hk. split; simpl; try done.
  destruct twf_keys0 as (? & HP & ?). split_and!; try done. intros i r Hi. apply Hk. eauto.
Qed.

(** A service account flushed over itself, or under a new id. *)
Lemma wf_flush_service_account id r t row t' :
  tables_wf t -> flush_service_account id r t = Ok (row, t') ->
  (forall r0, dict_get id (it_service_accounts t) = Some r0 -> sac_org_id r0 = sac_org_id r) ->
  tables_wf t'.
Proof.
  intros Hwf (-> & -> & Hr & Hu)%flush_service_account_Ok Ho. apply wf_set_service_accounts; [done|..].
  - apply table_ok_set; [apply Hwf|done..].
  - intros i o Hi. unfold sa_org in Hi. rewrite dict_get_set. case_decide as E; [|done]. subst i.
    destruct (dict_get id _) as [r0|]; simplify_eq/=. by rewrite (Ho r0).
Qed.

Lemma wf_set_bindings bs t :
  tables_wf t ->
  table_ok (fun r => rb_principal_type (rbr_binding r) ∈ ["user"; "service_account"]) binding_key bs ->
  (forall i r, dict_get i bs = Some r -> dict_mem (rb_role_id (rbr_binding r)) (it_roles t) = true) ->
  tables_wf (set_it_role_bindings bs t).
Proof. intros [] ??. by split. Qed.

Lemma wf_set_keys ks t :
  tables_wf t ->
  table_ok (fun r => sa_org t (ak_service_account_id r) = Some (ak_org_id r)) ak_key_prefix ks ->
  tables_wf (set_it_api_keys ks t).
Proof. intros [] ?. by split. Qed.

Lemma wf_set_mappings ms t :
  tables_wf t -> table_ok mapping_row_ok mapping_key ms -> tables_wf (set_it_mappings ms t).
Proof. intros [] ?. by split. Qed.

Lemma wf_set_memberships ms t :
  tables_wf t -> table_ok membership_row_ok membership_key ms -> tables_wf (set_it_memberships ms t).
Proof. intros [] ?. by split. Qed.

Lemma wf_create_role_binding id org pt pid role by_ x now t row t' :
  tables_wf t ->
  create_role_binding id org pt pid role by_ x now t = Ok (row, t') -> tables_wf t'.
Proof.
  intros Hwf (-> & -> & Hpt & Hrole & _ & Hu)%create_role_binding_Ok. destruct Hwf eqn:E. apply wf_set_bindings; [done|..].
  - apply table_ok_set; [done|done|]. intros j r' Hj Hk. by destruct (Hu j r').
  - intros i r. rewrite dict_get_set. case_decide; naive_solver.
Qed.

Lemma wf_delete_service_account id t row t' :
  tables_wf t -> delete_service_account id t = (Some row, t') -> tables_wf t'.
Proof.
  intros Hwf. unfold delete_service_account. destruct (dict_get id _) as [r|] eqn:Hid; [|done].
  intros [= <- <-].
  assert (forall o i, i <> id -> sa_org t i = Some o ->
    sac_org_id <$> dict_get i (dict_pop id (it_service_accounts t)) = Some o) as Hk.
  { intros o i Hne. rewrite dict_get_pop_ne by congruence. done. }
  destruct Hwf. split; simpl; try done.
  - by apply table_ok_pop.
  - by apply table_ok_filter.
  - destruct (table_ok_filter _ _ (fun p => negb (String.eqb (ak_service_account_id p.2) id)) _ twf_keys0) as (? & HP & ?).
    split_and!; try done. intros i k Hi. apply Hk; [|eauto].
    rewrite dict_get_filter in Hi by apply twf_keys0. destruct Hi as [_ Hi]. by reflect_bools.
  - intros i b Hi. rewrite dict_get_filter in Hi by apply twf_bindings0. naive_solver.
Qed.

Lemma wf_set_membership_status org u status t row t' :
  tables_wf t -> set_membership_status org u status t = Ok (row, t') -> tables_wf t'.
Proof.
  intros Hwf Hs. destruct row as [id row]. pose proof (twf_memberships _ Hwf) as Hm.
  destruct (set_membership_status_Ok _ _ _ _ _ _ _ (proj1 Hm) Hs) as (r & Hi & Hk & -> & Hst & ->).
  apply wf_set_memberships; [done|]. apply table_ok_set; [done|..].
  - unfold membership_row_ok. simpl. set_solver.
  - intros j r' Hj Hk'. destruct Hm as (_ & _ & Hu). eapply Hu; [exact Hj|exact Hi|].
    by rewrite Hk', Hk.
Qed.

Lemma wf_revoke_api_key id org now t row t' :
  tables_wf t -> revoke_api_key id org now t = (Some row, t') -> tables_wf t'.
Proof.
  intros Hwf (r & Hi & _ & [(_ & _ & ->)|(_ & -> & ->)])%revoke_api_key_Some; [done|].
  pose proof (twf_keys _ Hwf) as Hk. apply wf_set_keys; [done|]. apply table_ok_set; [done|..].
  - destruct Hk as (_ & HP & _). exact (HP _ _ Hi).
  - intros j r' Hj Hp. destruct Hk as (_ & _ & Hu). by eapply Hu.
Qed.

(** Every write of the IAM endpoints keeps the constraints. *)
Lemma iam_write_wf checked org t t' :
  (forall sa_id o, checked sa_id -> sa_org t sa_id = Some o -> o = org) ->
  iam_write checked org t t' -> tables_wf t -> tables_wf t'.
Proof.
  intros Hch Hw Hwf. destruct Hw.
  - destruct (create_service_account_Ok _ _ _ _ _ _ _ _ _ _ _ _ _ _ H) as (Hn & _ & _ & Hf).
    eapply wf_flush_service_account; [done|exact Hf|]. by rewrite Hn.
  - destruct (update_service_account_Ok _ _ _ _ _ H) as (r & Hi & Ho & _ & Hf).
    eapply wf_flush_service_account; [done|exact Hf|]. naive_solver.
  - destruct (set_service_account_status_Ok _ _ _ _ _ H) as (r & Hi & -> & _ & Hf).
    eapply wf_flush_service_account; [done|exact Hf|]. naive_solver.
  - by eapply wf_delete_service_account.
  - by eapply wf_create_role_binding.
  - apply delete_role_binding_Some in H as (Hi & _ & ->). destruct Hwf eqn:E. apply wf_set_bindings; [done|..].
    + by apply table_ok_pop.
    + intros i r. rewrite dict_get_pop. case_decide; naive_solver.
  - pose proof H0 as Hex. unfold create_api_key in Hex. destruct (dict_mem sa_id _) eqn:Hm; [|done]. clear Hex.
    unfold dict_mem in Hm. apply create_api_key_Ok in H0 as (-> & -> & _ & Hu). apply wf_set_keys; [done|].
    apply table_ok_set; [apply Hwf| |].
    { simpl. destruct (dict_get sa_id (it_service_accounts t)) as [sa|] eqn:Hsa; [|done].
      assert (Hso : sa_org t sa_id = Some (sac_org_id sa)) by (unfold sa_org; by rewrite Hsa).
      by rewrite Hso, (Hch _ _ H Hso). } intros j r' Hj Hk. by destruct (Hu j r').
  - by eapply wf_revoke_api_key.
  - unfold create_oidc_group_mapping in H. destruct (dict_mem _ _); [done|].
    apply flush_mapping_Ok in H as (-> & -> & Hr & Hu). apply wf_set_mappings; [done|]. apply table_ok_set; [apply Hwf|done..].
  - destruct (update_oidc_group_mapping_Ok _ _ _ _ _ H) as (r & _ & _ & Hf).
    apply flush_mapping_Ok in Hf as (_ & -> & Hr & Hu). apply wf_set_mappings; [done|]. apply table_ok_set; [apply Hwf|done..].
  - apply delete_mapping_Some in H as (_ & _ & ->). apply wf_set_mappings; [done|]. apply table_ok_pop, Hwf.
  - by eapply wf_set_membership_status.
  - done.
Qed.

(** ** The rows of the other Orgs are kept *)

(** The part of the tables that belongs to the Org [o], and the parts that
    belong to none. *)
Definition org_rows (o : string) (t : iam_tables) :=
  (List.filter (fun p => String.eqb (mem_org_id p.2) o) (it_memberships t),
   List.filter (fun p => String.eqb (sac_org_id p.2) o) (it_service_accounts t),
   List.filter (fun p => String.eqb (rb_org_id (rbr_binding p.2)) o) (it_role_bindings t),
   List.filter (fun p => String.eqb (ak_org_id p.2) o) (it_api_keys t),
   List.filter (fun p => String.eqb (map_target_org_id p.2) o) (it_mappings t)).

Definition global_rows (t : iam_tables) := (it_orgs t, it_roles t, it_identities t).

Lemma iam_write_global checked org t t' : iam_write checked org t t' -> global_rows t' = global_rows t.
Proof.
  intros Hw. destruct Hw.
  - apply create_service_account_Ok in H as (_ & _ & _ & Hf).
    by apply flush_service_account_Ok in Hf as (_ & -> & _).
  - apply update_service_account_Ok in H as (r & _ & _ & _ & Hf).
    by apply flush_service_account_Ok in Hf as (_ & -> & _).
  - apply set_service_account_status_Ok in H as (r & _ & _ & _ & Hf).
    by apply flush_service_account_Ok in Hf as (_ & -> & _).
  - unfold delete_service_account in H0. by repeat case_match; simplify_eq/=.
  - by apply create_role_binding_Ok in H0 as (_ & -> & _).
  - by apply delete_role_binding_Some in H as (_ & _ & ->).
  - by apply create_api_key_Ok in H0 as (_ & -> & _).
  - by apply revoke_api_key_Some in H as (r & _ & _ & [(_ & _ & ->)|(_ & _ & ->)]).
  - unfold create_oidc_group_mapping in H. destruct (dict_mem _ _); [done|]. by apply flush_mapping_Ok in H as (_ & -> & _).
  - apply update_oidc_group_mapping_Ok in H as (r & _ & _ & Hf). by apply flush_mapping_Ok in Hf as (_ & -> & _).
  - by apply delete_mapping_Some in H as (_ & _ & ->).
  - unfold set_membership_status in H. by repeat case_match; simplify_eq/=.
  - done.
Qed.

(** A write in one Org, on a table filtered by another. *)
Lemma filter_set_other {V} (org_of : V -> string) o k v (d : list (string * V)) :
  org_of v <> o -> (forall w, dict_get k d = Some w -> org_of w <> o) ->
  List.filter (fun p => String.eqb (org_of p.2) o) (dict_set k v d)
  = List.filter (fun p => String.eqb (org_of p.2) o) d.
Proof.
  intros Hv Hw. apply filter_set_dropped; simpl; [by apply String.eqb_neq|].
  intros w Hk. apply String.eqb_neq. eauto.
Qed.

Lemma filter_pop_other {V} (org_of : V -> string) o k (d : list (string * V)) w0 :
  dict_wf d -> dict_get k d = Some w0 -> org_of w0 <> o ->
  List.filter (fun p => String.eqb (org_of p.2) o) (dict_pop k d)
  = List.filter (fun p => String.eqb (org_of p.2) o) d.
Proof.
  intros Hwf Hk Hw. apply filter_pop_dropped. intros w Hin. simpl. apply String.eqb_neq.
  apply (dict_get_elem k) in Hin; [|done]. by simplify_eq.
Qed.

Lemma sa_flush_other o id r t row t' :
  flush_service_account id r t = Ok (row, t') -> sac_org_id r <> o ->
  (forall r0, dict_get id (it_service_accounts t) = Some r0 -> sac_org_id r0 = sac_org_id r) ->
  org_rows o t' = org_rows o t.
Proof.
  intros (_ & -> & _ & _)%flush_service_account_Ok Hr Hold. unfold org_rows. simpl.
  rewrite filter_set_other; [done|done|]. intros w Hw. by rewrite (Hold w).
Qed.

Lemma mapping_flush_other o id r t row t' :
  flush_mapping id r t = Ok (row, t') -> map_target_org_id r <> o ->
  (forall r0, dict_get id (it_mappings t) = Some r0 -> map_target_org_id r0 = map_target_org_id r) ->
  org_rows o t' = org_rows o t.
Proof.
  intros (_ & -> & _ & _)%flush_mapping_Ok Hr Hold. unfold org_rows. simpl.
  rewrite (filter_set_other map_target_org_id); [done|done|]. intros w Hw. by rewrite (Hold w).
Qed.

Lemma delete_sa_other h o org id t row t' :
  tables_wf t -> bindings_home h t -> home_sa h id = org -> sa_org t id = Some org ->
  delete_service_account id t = (Some row, t') -> o <> org ->
  org_rows o t' = org_rows o t.
Proof.
  intros Hwf Hbh Hhome Ho. unfold delete_service_account. unfold sa_org in Ho.
  destruct (dict_get id _) as [r|] eqn:Hid; [|done]. injection Ho as Ho. intros [= <- <-] Hne. unfold org_rows. simpl.
  rewrite (filter_pop_other sac_org_id _ _ _ r); [|apply Hwf|done|congruence].
  rewrite !filter_filter_keep; [done|..]; intros [i x] Hin Hx; simpl in *; reflect_bools.
  - apply dict_get_elem in Hin; [|apply Hwf]. pose proof (twf_keys _ Hwf) as (_ & HP & _).
    specialize (HP _ _ Hin). unfold sa_org in HP. apply negb_true_iff, String.eqb_neq. intros E.
    rewrite E, Hid in HP. injection HP as HP. congruence.
  - apply dict_get_elem in Hin; [|apply Hwf]. pose proof (Hbh _ _ Hin) as HP.
    apply negb_true_iff, andb_false_iff.
    destruct (String.eqb_spec (rb_principal_type (rbr_binding x)) "service_account") as [E|]; [|by left].
    right. apply String.eqb_neq. intros E'. specialize (HP E). rewrite E' in HP. congruence.
Qed.

(** A write in the Org [org] leaves the rows of every other Org. *)
Lemma iam_write_other h org t t' o :
  homes h t -> bindings_home h t ->
  iam_write (fun sa_id => home_sa h sa_id = org) org t t' -> tables_wf t -> o <> org -> org_rows o t' = org_rows o t.
Proof.
  intros Hh Hb Hw Hwf Hne. destruct Hw.
  - apply create_service_account_Ok in H as (Hn & Ho & _ & Hf).
    eapply sa_flush_other; [exact Hf|congruence|]. by rewrite Hn.
  - apply update_service_account_Ok in H as (r & Hi & Ho & _ & Hf).
    eapply sa_flush_other; [exact Hf|congruence|naive_solver].
  - apply set_service_account_status_Ok in H as (r & Hi & -> & _ & Hf).
    eapply sa_flush_other; [exact Hf|congruence|naive_solver].
  - assert (Hex : is_Some (sa_org t id)).
    { unfold delete_service_account in H0. unfold sa_org. destruct (dict_get id _); [eauto|done]. }
    destruct Hex as [o' Ho']. eapply delete_sa_other; [done|done|exact H| |exact H0|done]. rewrite Ho'. f_equal.
    by rewrite <-(proj1 Hh _ _ Ho').
  - apply create_role_binding_Ok in H0 as (-> & -> & _ & _ & Hn & _). unfold org_rows. simpl.
    rewrite (filter_set_other (fun r => rb_org_id (rbr_binding r))); [done|simpl; congruence|intros w Hw; congruence].
  - apply delete_role_binding_Some in H as (Hi & Ho & ->). unfold org_rows. simpl.
    rewrite (filter_pop_other (fun r => rb_org_id (rbr_binding r)) _ _ _ row); [done|apply Hwf|done|congruence].
  - apply create_api_key_Ok in H0 as (-> & -> & Hn & _). unfold org_rows. simpl.
    rewrite (filter_set_other ak_org_id); [done|simpl; congruence|intros w Hw; congruence].
  - apply revoke_api_key_Some in H as (r & Hi & Ho & [(_ & _ & ->)|(_ & -> & ->)]); [done|]. unfold org_rows. simpl.
    rewrite (filter_set_other ak_org_id); [done|simpl; congruence|naive_solver].
  - unfold create_oidc_group_mapping in H. destruct (dict_mem _ _) eqn:Hm; [done|]. apply dict_mem_false in Hm.
    eapply mapping_flush_other; [exact H|simpl; congruence|by rewrite Hm].
  - apply update_oidc_group_mapping_Ok in H as (r & Hi & Ho & Hf).
    eapply mapping_flush_other; [exact Hf|congruence|naive_solver].
  - apply delete_mapping_Some in H as (Hi & Ho & ->). unfold org_rows. simpl.
    rewrite (filter_pop_other map_target_org_id _ _ _ row); [done|apply Hwf|done|congruence].
  - destruct row as [id row].
    destruct (set_membership_status_Ok _ _ _ _ _ _ _ (proj1 (twf_memberships _ Hwf)) H) as (r & Hi & Hk & -> & _ & ->).
    injection Hk as Ho _. unfold org_rows. simpl.
    rewrite (filter_set_other mem_org_id); [done|simpl; congruence|naive_solver].
  - done.
Qed.

(** ** The Orgs of the bindings are kept *)

Lemma iam_write_bindings_home h org t t' :
  iam_write (fun sa_id => home_sa h sa_id = org) org t t' -> tables_wf t -> bindings_home h t -> bindings_home h t'.
Proof.
  intros Hw Hwf Hb. destruct Hw.
  - apply create_service_account_Ok in H as (_ & _ & _ & Hf). by apply flush_service_account_Ok in Hf as (_ & -> & _).
  - apply update_service_account_Ok in H as (r & _ & _ & _ & Hf). by apply flush_service_account_Ok in Hf as (_ & -> & _).
  - apply set_service_account_status_Ok in H as (r & _ & _ & _ & Hf). by apply flush_service_account_Ok in Hf as (_ & -> & _).
  - unfold delete_service_account in H0. destruct (dict_get id _); [|done]. injection H0 as <- <-.
    intros i b Hi. simpl in Hi. rewrite dict_get_filter in Hi by apply Hwf. destruct Hi as [Hi _]. by apply (Hb i).
  - apply create_role_binding_Ok in H0 as (-> & -> & _). intros i b. simpl. rewrite dict_get_set. case_decide; [|by apply Hb].
    by intros [= <-] _.
  - apply delete_role_binding_Some in H as (_ & _ & ->). intros i b. simpl. rewrite dict_get_pop. case_decide; [done|by apply Hb].
  - by apply create_api_key_Ok in H0 as (_ & -> & _).
  - by apply revoke_api_key_Some in H as (r & _ & _ & [(_ & _ & ->)|(_ & _ & ->)]).
  - unfold create_oidc_group_mapping in H. destruct (dict_mem _ _); [done|]. by apply flush_mapping_Ok in H as (_ & -> & _).
  - apply update_oidc_group_mapping_Ok in H as (r & _ & _ & Hf). by apply flush_mapping_Ok in Hf as (_ & -> & _).
  - by apply delete_mapping_Some in H as (_ & _ & ->).
  - unfold set_membership_status in H. by repeat case_match; simplify_eq/=.
  - done.
Qed.

(** ** What the Authorize Service sees *)

Lemma view_wf t : tables_wf t -> iam_wf (view t).
Proof.
  intros []. split_and!; simpl.
  - intros o s Hs. apply elem_of_list_to_map_2 in Hs. eauto.
  - intros k s Hs. apply elem_of_list_to_map_2, list_elem_of_fmap in Hs as ([i r] & [= -> ->] & Hin).
    destruct twf_memberships0 as (Hwf & HP & _). apply (HP i). by apply dict_get_elem.
  - intros i r Hs. apply elem_of_list_to_map_2, list_elem_of_fmap in Hs as ([j r'] & [= -> ->] & Hin).
    destruct twf_service_accounts0 as (Hwf & HP & _). simpl. apply (HP j r'). by apply dict_get_elem.
Qed.

(** The service-account row the service reads. *)
Lemma view_service_account t i :
  tables_wf t ->
  iam_service_accounts (view t) !! i
  = (fun r => mk_sa (sac_org_id r) (sac_status r)) <$> dict_get i (it_service_accounts t).
Proof.
  intros Hwf. destruct (twf_service_accounts _ Hwf) as (Hd & _ & _). simpl.
  assert (forall d, dict_wf d ->
    (list_to_map ((fun p : string * service_account_row => (p.1, mk_sa (sac_org_id p.2) (sac_status p.2))) <$> d) : gmap string sa_row) !! i
    = (fun r => mk_sa (sac_org_id r) (sac_status r)) <$> dict_get i d) as Hgen; [|by apply Hgen].
  induction d as [|[j r] d IH]; intros Hw; [done|]. csimpl.
  unfold dict_wf in Hw. simpl in Hw. apply NoDup_cons in Hw as [_ Hw].
  case_decide as E.
  - subst j. by rewrite lookup_insert_eq.
  - rewrite lookup_insert_ne by congruence. by apply IH.
Qed.

(** The membership status the service reads. *)
Lemma view_membership t id r :
  tables_wf t -> dict_get id (it_memberships t) = Some r ->
  iam_memberships (view t) !! membership_key r = Some (mem_status r).
Proof.
  intros Hwf Hi. destruct (twf_memberships _ Hwf) as (Hd & _ & Hu). simpl.
  apply elem_of_list_to_map.
  - rewrite <-list_fmap_compose.
    apply (NoDup_fmap_2_strong (fun p : string * membership_row => (mem_org_id p.2, mem_user_id p.2)));
      [|by eapply NoDup_fmap_1].
    intros [i1 r1] [i2 r2] H1 H2 Heq. simpl in Heq.
    apply dict_get_elem in H1; [|done]. apply dict_get_elem in H2; [|done].
    assert (i1 = i2) by (by eapply Hu). by simplify_eq.
  - apply list_elem_of_fmap. exists (id, r). split; [done|]. by apply dict_get_Some_elem.
Qed.

(** ** Concrete tables *)

Lemma table_ok_intro {R K} (P : R -> Prop) (key : R -> K) (d : list (string * R)) :
  NoDup d.*1 -> Forall (fun p => P p.2) d -> NoDup (key <$> d.*2) -> table_ok P key d.
Proof.
  intros Hd HP Hk. split_and!; [done|..].
  - intros i r Hi%dict_get_Some_elem. rewrite Forall_forall in HP. by apply (HP _ Hi).
  - intros i j r r' Hi%dict_get_Some_elem Hj%dict_get_Some_elem E.
    apply list_elem_of_lookup in Hi as [n Hn]. apply list_elem_of_lookup in Hj as [m Hm].
    assert (n = m) as ->; [|by simplify_eq].
    eapply (NoDup_lookup _ n m (key r) Hk); rewrite !list_lookup_fmap; [by rewrite Hn|by rewrite Hm, E].
Qed.

(** Two Orgs; in [org] two administrators, a developer and a service account
    with a developer role; three mapping rules of one issuer, of which one
    targets a role with a platform permission and one is authoritative. *)
Definition builtin_role (name : string) : role_row :=
  mk_role name None (PStr ∘ permission_value <$> opt_or (dict_get name BUILTIN_ROLE_PERMISSIONS) []) true (Some 1).

Definition demo_account (org name : string) : service_account_row :=
  mk_service_account org (Some name) None "active" None None None None None None 0.

Definition demo_user_binding (u role : string) : role_binding_row :=
  mk_role_binding (mk_binding "org" "user" u role None) None 0.

Definition demo_rule (value role mode : string) : mapping_row :=
  mk_mapping "idp" (Some "groups") (Some value) "org" (Some role) (Some mode) None None 0.

Definition demo_tables : iam_tables :=
  mk_tables [("org", "active"); ("other", "active")]
    [("m1", mk_membership "org" "adm" "active" 0); ("m2", mk_membership "org" "adm2" "active" 1);
     ("m3", mk_membership "org" "dev" "active" 2); ("m4", mk_membership "other" "eve" "active" 3)]
    [("bot", demo_account "org" "bot"); ("spy", demo_account "other" "spy")]
    [("r_admin", builtin_role ORG_ADMIN_ROLE_NAME); ("r_dev", builtin_role ORG_DEVELOPER_ROLE_NAME);
     ("r_sys", mk_role "custom" (Some "org") [PStr "system:org:create"] false None)]
    [("b1", demo_user_binding "adm" "r_admin"); ("b2", demo_user_binding "adm2" "r_admin");
     ("b3", mk_role_binding (mk_binding "org" "service_account" "bot" "r_dev" None) None 0)]
    [] [("g1", demo_rule "eng" "r_dev" "additive"); ("g2", demo_rule "ops" "r_sys" "additive");
        ("g3", demo_rule "eng" "r_admin" "authoritative")]
    [].

Ltac solve_nodup := apply (bool_decide_unpack _); vm_compute; exact I.

Lemma demo_tables_wf : tables_wf demo_tables.
Proof.
  split.
  - intros o s. simpl. set_solver.
  - apply table_ok_intro; [solve_nodup| |solve_nodup].
    repeat constructor; unfold membership_row_ok; simpl; set_solver.
  - apply table_ok_intro; [solve_nodup| |solve_nodup].
    repeat constructor; unfold ALLOWED_STATUSES; simpl; try done; set_solver.
  - apply table_ok_intro; [solve_nodup| |solve_nodup]. repeat constructor; simpl; set_solver.
  - apply table_ok_intro; [solve_nodup|constructor|solve_nodup].
  - apply table_ok_intro; [solve_nodup| |solve_nodup].
    repeat constructor; simpl; try done; eexists; (split; [done|]); unfold ALLOWED_MAPPING_MODES; set_solver.
  - intros i r Hi%dict_get_Some_elem. simpl in Hi. set_unfold in Hi.
    destruct Hi as [[= -> ->]|[[= -> ->]|[[= -> ->]|[]]]]; reflexivity.
Qed.

Lemma demo_bindings_home : bindings_home (home_of demo_tables) demo_tables.
Proof.
  intros i r Hi%dict_get_Some_elem. simpl in Hi. set_unfold in Hi.
  destruct Hi as [[= -> ->]|[[= -> ->]|[[= -> ->]|[]]]]; simpl; done.
Qed.
