(* ===== verification/OidcProps.v ===== *)
(** * Group mapping: what the engine applies

    [apply_group_mapping] against a declarative reading of the rules: the rules
    it plans and skips are functions of the rules, the asserted groups, the
    user's Org and the roles ([planned_rules], [skipped_rules]); the bindings
    after a run are those before it and one per planned role. *)
From S2P Require Import Prelude Authorize AuthorizeProps Iam OidcMapping IamProps.
Local Open Scope string_scope.
Local Open Scope Z_scope.
Local Open Scope list_scope.

(** ** The reference reading of the rules *)

Definition planned_rules (user_org : string) (groups : list string) (t : iam_tables)
    (rules : list (string * mapping_row)) : list (mapping_row * string) :=
  omap (fun p => match rule_disposition user_org groups p.2 t with
                 | Plan role_id => Some (p.2, role_id)
                 | _ => None
                 end) rules.

Definition skipped_rules (user_org : string) (groups : list string) (t : iam_tables)
    (rules : list (string * mapping_row)) : list mapping_outcome :=
  omap (fun p => match rule_disposition user_org groups p.2 t with
                 | Skip reason => Some (outcome_of p.2 false reason)
                 | _ => None
                 end) rules.

(** The binding a planned rule stands for. *)
Definition planned_binding (user_org user_id role_id : string) : binding_row :=
  mk_binding user_org "user" user_id role_id None.

(** [t'] is [t] with more bindings at the end; each new one satisfies [new]. *)
Definition bindings_grow (new : role_binding_row -> Prop) (t t' : iam_tables) : Prop :=
  exists l, t' = set_it_role_bindings (it_role_bindings t ++ l) t /\ Forall new l.*2.

(** A binding of the table for this key. *)
Definition bound (k : string * string * string * string) (t : iam_tables) : Prop :=
  exists p, p ∈ it_role_bindings t /\ binding_key p.2 = k.

(** ** Lemmas *)

Lemma bindings_grow_refl new t : bindings_grow new t t.
Proof. exists []. rewrite app_nil_r. split; [by destruct t|constructor]. Qed.

Lemma bindings_grow_trans new t1 t2 t3 :
  bindings_grow new t1 t2 -> bindings_grow new t2 t3 -> bindings_grow new t1 t3.
Proof.
  intros (l1 & -> & F1) (l2 & -> & F2). exists (l1 ++ l2). simpl. rewrite app_assoc. split; [done|].
  rewrite fmap_app. by apply Forall_app.
Qed.

Lemma bindings_grow_weaken (new new' : role_binding_row -> Prop) t t' :
  (forall r, new r -> new' r) -> bindings_grow new t t' -> bindings_grow new' t t'.
Proof. intros Hn (l & E & F). exists l. split; [done|]. by eapply Forall_impl. Qed.

Lemma bindings_grow_roles new t t' : bindings_grow new t t' -> it_roles t' = it_roles t.
Proof. by intros (l & -> & _). Qed.

Lemma bound_grow new k t t' : bindings_grow new t t' -> bound k t -> bound k t'.
Proof. intros (l & -> & _) (p & Hp & Hk). exists p. simpl. set_solver. Qed.

(** The dispositions read the roles and nothing else of the tables. *)
Lemma rule_disposition_roles org groups rule t t' :
  it_roles t' = it_roles t -> rule_disposition org groups rule t' = rule_disposition org groups rule t.
Proof. intros Hr. unfold rule_disposition, target_role_safe. by rewrite Hr. Qed.

Lemma planned_rules_roles org groups t t' rules :
  it_roles t' = it_roles t -> planned_rules org groups t' rules = planned_rules org groups t rules.
Proof.
  intros Hr. unfold planned_rules. apply list_omap_ext, Forall2_same_length_lookup_2; [done|].
  intros i x y Hx Hy. simplify_eq. by rewrite (rule_disposition_roles _ _ _ t t').
Qed.

Lemma skipped_rules_roles org groups t t' rules :
  it_roles t' = it_roles t -> skipped_rules org groups t' rules = skipped_rules org groups t rules.
Proof.
  intros Hr. unfold skipped_rules. apply list_omap_ext, Forall2_same_length_lookup_2; [done|].
  intros i x y Hx Hy. simplify_eq. by rewrite (rule_disposition_roles _ _ _ t t').
Qed.

(** What a planned rule has passed. *)
Lemma rule_disposition_Plan org groups rule t role_id :
  rule_disposition org groups rule t = Plan role_id ->
  (exists g, map_group_value rule = Some g /\ g ∈ groups)
  /\ map_mode rule <> Some MAPPING_MODE_AUTHORITATIVE /\ map_target_org_id rule = org
  /\ map_target_role_id rule = Some role_id
  /\ exists row, dict_get role_id (it_roles t) = Some row /\ carries_system row = false.
Proof.
  unfold rule_disposition, target_role_safe. case_bool_decide as Hg; [|done]. case_bool_decide as Hm; [done|]. simpl.
  destruct (String.eqb_spec (map_target_org_id rule) org) as [Ho|]; [|done]. simpl.
  destruct (map_target_role_id rule) as [rid|]; [|done].
  destruct (dict_get rid (it_roles t)) as [row|] eqn:Hrow; [|done].
  destruct (carries_system row) eqn:Hs; [done|]. intros [= <-].
  apply list_elem_of_fmap in Hg as (g & -> & Hg). eauto 10.
Qed.

Lemma same_binding_key org pt pid role r :
  same_binding org pt pid role (rbr_binding r) = true <-> binding_key r = (org, pt, pid, role).
Proof.
  unfold same_binding, binding_key. rewrite !andb_true_iff, !String.eqb_eq. naive_solver.
Qed.

Lemma bound_existsb org pt pid role t :
  existsb (fun p => same_binding org pt pid role (rbr_binding p.2)) (it_role_bindings t) = true
  <-> bound (org, pt, pid, role) t.
Proof.
  rewrite existsb_exists. unfold bound. split.
  - intros (p & Hp & Hk). exists p. split; [by apply list_elem_of_In|by apply same_binding_key].
  - intros (p & Hp & Hk). exists p. split; [by apply list_elem_of_In|by apply same_binding_key].
Qed.

(** [ensure_role_binding] leaves the binding there: the one it found, or a new
    one at the end. *)
Lemma ensure_role_binding_Ok id org pt pid role by_ now t created t' :
  ensure_role_binding id org pt pid role by_ now t = Ok (created, t') ->
  bound (org, pt, pid, role) t'
  /\ bindings_grow (fun r => r = mk_role_binding (mk_binding org pt pid role None) by_ now) t t'
  /\ (bound (org, pt, pid, role) t -> t' = t).
Proof.
  unfold ensure_role_binding. destruct (existsb _ _) eqn:He.
  - intros [= <- <-]. apply bound_existsb in He. eauto using bindings_grow_refl.
  - destruct (create_role_binding _ _ _ _ _ _ _ _ _) as [[row t1]|e] eqn:Hc; [|done]. intros [= <- <-].
    apply create_role_binding_Ok in Hc as (-> & -> & _ & _ & Hn & _). rewrite dict_set_fresh by done.
    split_and!.
    + eexists. split; [apply elem_of_app; right; by left|done].
    + eexists. split; [done|]. by repeat constructor.
    + intros Hb%bound_existsb. congruence.
Qed.

(** It fails only on a generated id already in use, or an unknown role. *)
Lemma ensure_role_binding_total id org pt pid role by_ now t :
  pt ∈ ["user"; "service_account"] -> dict_mem role (it_roles t) = true ->
  dict_get id (it_role_bindings t) = None ->
  exists created t', ensure_role_binding id org pt pid role by_ now t = Ok (created, t').
Proof.
  intros Hpt Hr Hid. unfold ensure_role_binding. destruct (existsb _ _) eqn:He; [by eauto|].
  unfold create_role_binding. apply str_in_spec in Hpt. apply dict_mem_false in Hid.
  rewrite Hpt, Hr, Hid, He. simpl. eauto.
Qed.

(** ** The loop over the rules *)

Section loop.
Context (user_id user_org : string) (groups : list string).

Notation outcomes l := ((fun p : mapping_row * string => outcome_of p.1 true "") <$> l).

(** What a run of the loop creates. *)
Definition from_rules (now : Z) (rules : list (string * mapping_row)) (t : iam_tables) (r : role_binding_row) : Prop :=
  exists rule role_id, (rule, role_id) ∈ planned_rules user_org groups t rules
    /\ r = mk_role_binding (planned_binding user_org user_id role_id)
             (Some (provenance (map_issuer rule) (opt_or (map_group_value rule) ""))) now.

Lemma apply_rules_err fresh dry now rules e t :
  foldl (apply_rule fresh user_id user_org groups dry now) (Err e, t) rules = (Err e, t).
Proof. induction rules as [|[i rule] rules IH]; [done|]. apply IH. Qed.

(** A dry run changes nothing and lists the planned and the skipped rules. *)
Lemma apply_rules_dry fresh now rules r0 t :
  foldl (apply_rule fresh user_id user_org groups true now) (Ok r0, t) rules
  = (Ok (mk_result (mr_planned r0 ++ ((fun p => outcome_of p.1 false "dry_run") <$> planned_rules user_org groups t rules))
       (mr_applied r0) (mr_skipped r0 ++ skipped_rules user_org groups t rules)), t).
Proof.
  revert r0. induction rules as [|[i rule] rules IH]; intros r0; simpl.
  - rewrite !app_nil_r. by destruct r0.
  - destruct (rule_disposition user_org groups rule t) eqn:Hd; rewrite IH; simpl;
      rewrite <-?app_assoc; done.
Qed.

Lemma apply_rules_ok fresh now rules r0 t res t' :
  foldl (apply_rule fresh user_id user_org groups false now) (Ok r0, t) rules = (Ok res, t') ->
  res = mk_result (mr_planned r0 ++ outcomes (planned_rules user_org groups t rules))
          (mr_applied r0 ++ outcomes (planned_rules user_org groups t rules))
          (mr_skipped r0 ++ skipped_rules user_org groups t rules)
  /\ bindings_grow (from_rules now rules t) t t'
  /\ (forall rule role_id, (rule, role_id) ∈ planned_rules user_org groups t rules ->
        bound (user_org, "user", user_id, role_id) t').
Proof.
  revert r0 t. induction rules as [|[i rule] rules IH]; intros r0 t Hf; simpl in Hf.
  { simplify_eq. simpl. rewrite !app_nil_r. split_and!; [by destruct res|apply bindings_grow_refl|set_solver]. }
  destruct (rule_disposition user_org groups rule t) as [|reason|role_id] eqn:Hd.
  - apply IH in Hf as (-> & Hg & Hb). simpl. rewrite Hd. split_and!; try done.
    eapply bindings_grow_weaken; [|exact Hg]. intros r (? & ? & ? & ?). do 2 eexists. simpl. by rewrite Hd.
  - apply IH in Hf as (-> & Hg & Hb). simpl. rewrite Hd. rewrite <-app_assoc. split_and!; try done.
    eapply bindings_grow_weaken; [|exact Hg]. intros r (? & ? & ? & ?). do 2 eexists. simpl. by rewrite Hd.
  - destruct (ensure_role_binding _ _ _ _ _ _ _ _) as [[created t1]|e] eqn:He; [|by rewrite apply_rules_err in Hf].
    apply ensure_role_binding_Ok in He as (Hb1 & Hg1 & _). pose proof (bindings_grow_roles _ _ _ Hg1) as Hr1.
    apply IH in Hf as (-> & Hg & Hb). simpl. rewrite Hd. simpl.
    rewrite (planned_rules_roles _ _ t t1), (skipped_rules_roles _ _ t t1) by done.
    rewrite (planned_rules_roles _ _ t t1) in Hb by done. rewrite <-!app_assoc. split_and!; [done|..].
    + eapply bindings_grow_trans.
      * eapply bindings_grow_weaken; [|exact Hg1]. intros r ->. exists rule, role_id. simpl. rewrite Hd. split; [by left|done].
      * eapply bindings_grow_weaken; [|exact Hg]. intros r (ru & ro & Hin & ->).
        rewrite (planned_rules_roles _ _ t t1) in Hin by done.
        exists ru, ro. simpl. rewrite Hd. split; [by right|done].
    + intros ru ro [[= -> ->]|Hin]%elem_of_cons; [|by eauto]. by eapply bound_grow.
Qed.

(** When every planned role is bound the loop writes nothing. *)
Lemma apply_rules_bound fresh now rules r0 t :
  (forall rule role_id, (rule, role_id) ∈ planned_rules user_org groups t rules ->
     bound (user_org, "user", user_id, role_id) t) ->
  foldl (apply_rule fresh user_id user_org groups false now) (Ok r0, t) rules
  = (Ok (mk_result (mr_planned r0 ++ outcomes (planned_rules user_org groups t rules))
           (mr_applied r0 ++ outcomes (planned_rules user_org groups t rules))
           (mr_skipped r0 ++ skipped_rules user_org groups t rules)), t).
Proof.
  revert r0. induction rules as [|[i rule] rules IH]; intros r0 Hall; simpl.
  { rewrite !app_nil_r. by destruct r0. }
  simpl in Hall. destruct (rule_disposition user_org groups rule t) as [|reason|role_id] eqn:Hd.
  - by apply IH.
  - rewrite IH by done. simpl. by rewrite <-app_assoc.
  - unfold ensure_role_binding. rewrite (proj2 (bound_existsb _ _ _ _ _)) by (apply (Hall rule); by left).
    rewrite IH by (intros ru ro ?; apply (Hall ru); by right). simpl. by rewrite <-!app_assoc.
Qed.

(** With unused generated ids the loop does not fail. *)
Lemma apply_rules_total fresh now rules r0 t :
  (forall i j, i ∈ rules.*1 -> j ∈ rules.*1 -> fresh i = fresh j -> i = j) -> NoDup rules.*1 ->
  (forall i, i ∈ rules.*1 -> dict_get (fresh i) (it_role_bindings t) = None) ->
  exists res t', foldl (apply_rule fresh user_id user_org groups false now) (Ok r0, t) rules = (Ok res, t').
Proof.
  revert r0 t. induction rules as [|[i rule] rules IH]; intros r0 t Hinj Hnd Hfr; simpl; [by eauto|].
  apply NoDup_cons in Hnd as [Hni Hnd].
  assert (forall r1, exists res t', foldl (apply_rule fresh user_id user_org groups false now) (Ok r1, t) rules = (Ok res, t')) as Hrest.
  { intros r1. apply IH; [set_solver|done|set_solver]. }
  destruct (rule_disposition user_org groups rule t) as [|reason|role_id] eqn:Hd; [by apply Hrest..|].
  apply rule_disposition_Plan in Hd as (_ & _ & _ & _ & row & Hrow & _).
  assert (dict_get (fresh i) (it_role_bindings t) = None) as Hi by (apply Hfr; by left).
  unfold ensure_role_binding. destruct (existsb _ _) eqn:He; [by apply Hrest|].
  unfold create_role_binding. apply dict_mem_false in Hi.
  rewrite Hi, He. unfold dict_mem at 1. rewrite Hrow. simpl.
  apply IH; [set_solver|done|]. intros j Hj. simpl. rewrite dict_get_set_ne.
  - apply Hfr. by right.
  - intros E. apply Hni. rewrite (Hinj i j); [done|by left|by right|done].
Qed.
End loop.

(** * The engine *)

Lemma list_oidc_group_mappings_elem org iss t i r :
  (i, r) ∈ list_oidc_group_mappings org iss t ->
  (i, r) ∈ it_mappings t /\ (forall o, org = Some o -> map_target_org_id r = o)
  /\ (forall s, iss = Some s -> map_issuer r = s).
Proof.
  unfold list_oidc_group_mappings. rewrite sort_by_elem, list_elem_of_In, filter_In, <-list_elem_of_In.
  intros [Hin Hf]. simpl in Hf. apply andb_true_iff in Hf as [H1 H2]. split; [done|].
  split; intros x ->; by apply String.eqb_eq.
Qed.

Lemma upsert_external_identity_frame id u iss sub prov claims t :
  exists ids, upsert_external_identity id u iss sub prov claims t = set_it_identities ids t.
Proof. unfold upsert_external_identity. repeat case_match; eauto. Qed.

(** A finished run: the loop, then at most the identity link. *)
Lemma apply_group_mapping_Ok fresh user_id issuer groups provider subject dry now t m res t' :
  get_active_membership user_id t = Ok (Some m) ->
  apply_group_mapping fresh user_id issuer groups provider subject dry now t = (Ok res, t') ->
  exists t1 ids, foldl (apply_rule fresh user_id (mem_org_id m) groups dry now) (Ok (mk_result [] [] []), t)
      (list_oidc_group_mappings None (Some issuer) t) = (Ok res, t1)
    /\ t' = set_it_identities ids t1.
Proof.
  intros Hm. unfold apply_group_mapping. rewrite Hm.
  destruct (foldl _ _ _) as [[r|e] t1]; [|done]. intros Hf. exists t1.
  assert (t1 = set_it_identities (it_identities t1) t1) as Hid by (by destruct t1).
  destruct subject as [sub|]; [|simplify_eq; eauto].
  destruct (_ && _); [|simplify_eq; eauto].
  match type of Hf with (Ok _, upsert_external_identity ?a ?b ?c ?d ?e ?g ?h) = _ =>
    destruct (upsert_external_identity_frame a b c d e g h) as [ids Hu]; rewrite Hu in Hf end.
  simplify_eq. eauto.
Qed.

Lemma apply_group_mapping_of_loop fresh user_id issuer groups provider subject dry now t m res t1 :
  get_active_membership user_id t = Ok (Some m) ->
  foldl (apply_rule fresh user_id (mem_org_id m) groups dry now) (Ok (mk_result [] [] []), t)
    (list_oidc_group_mappings None (Some issuer) t) = (Ok res, t1) ->
  exists ids, apply_group_mapping fresh user_id issuer groups provider subject dry now t
    = (Ok res, set_it_identities ids t1).
Proof.
  intros Hm Hf. unfold apply_group_mapping. rewrite Hm, Hf.
  assert (t1 = set_it_identities (it_identities t1) t1) as Hid by (by destruct t1).
  destruct subject as [sub|]; [|exists (it_identities t1); by rewrite <-Hid].
  destruct (_ && _); [|exists (it_identities t1); by rewrite <-Hid].
  match goal with |- context [upsert_external_identity ?a ?b ?c ?d ?e ?g ?h] =>
    destruct (upsert_external_identity_frame a b c d e g h) as [ids ->] end. eauto.
Qed.

(** A dry run writes nothing, whatever it returns. *)
Lemma apply_group_mapping_dry fresh user_id issuer groups provider subject now t res t' :
  apply_group_mapping fresh user_id issuer groups provider subject true now t = (res, t') -> t' = t.
Proof.
  unfold apply_group_mapping. destruct (get_active_membership user_id t) as [[m|]|e]; [|by intros [= _ <-]..].
  rewrite apply_rules_dry. simpl. destruct subject; by intros [= _ <-].
Qed.

(** Group mapping is exact and additive.  For a user with one active
    membership, a run of the engine that returns keeps every binding and
    appends new ones; each new binding gives the user, in the Org of that
    membership, the role of a rule of this issuer whose group was asserted,
    whose mode is not authoritative, whose target is that Org and whose role
    carries no platform permission; every such rule has its binding
    afterwards; the rules reported applied are those; and of the other tables
    only the identity links may differ. *)
Theorem group_mapping_exact (fresh : string -> string) (user_id issuer : string) (groups : list string)
    (provider : string) (subject : option string) (now : Z) (t t' : iam_tables) (m : membership_row)
    (res : mapping_result) :
  get_active_membership user_id t = Ok (Some m) ->
  apply_group_mapping fresh user_id issuer groups provider subject false now t = (Ok res, t') ->
  let applies rule role_id :=
    (exists i, (i, rule) ∈ it_mappings t) /\ map_issuer rule = issuer
    /\ (exists g, map_group_value rule = Some g /\ g ∈ groups)
    /\ map_mode rule <> Some MAPPING_MODE_AUTHORITATIVE
    /\ map_target_org_id rule = mem_org_id m /\ map_target_role_id rule = Some role_id
    /\ exists row, dict_get role_id (it_roles t) = Some row /\ carries_system row = false in
  (exists l ids, t' = set_it_identities ids (set_it_role_bindings (it_role_bindings t ++ l) t)
     /\ forall b, b ∈ l.*2 -> exists rule role_id, applies rule role_id
          /\ rbr_binding b = mk_binding (mem_org_id m) "user" user_id role_id None)
  /\ (forall rule role_id, applies rule role_id -> bound (mem_org_id m, "user", user_id, role_id) t')
  /\ (forall o, o ∈ mr_applied res <-> exists rule role_id, applies rule role_id /\ o = outcome_of rule true "").
Proof.
  intros Hm Hrun applies. destruct (apply_group_mapping_Ok _ _ _ _ _ _ _ _ _ _ _ _ Hm Hrun) as (t1 & ids & Hf & ->).
  apply apply_rules_ok in Hf as (-> & (l & -> & Hl) & Hb).
  set (rules := list_oidc_group_mappings None (Some issuer) t) in *.
  assert (forall rule role_id, (rule, role_id) ∈ planned_rules (mem_org_id m) groups t rules <-> applies rule role_id) as Hiff.
  { intros rule role_id. unfold planned_rules. rewrite list_elem_of_omap. split.
    - intros ([i ru] & Hin & Hd). simpl in Hd. destruct (rule_disposition _ _ _ _) eqn:E; simplify_eq.
      apply list_oidc_group_mappings_elem in Hin as (Hin & _ & Hiss).
      apply rule_disposition_Plan in E as (? & ? & ? & ? & ?). unfold applies. split_and!; eauto.
    - intros ((i & Hi) & Hiss & (g & Hg & Hgin) & Hmode & Ho & Hro & row & Hrow & Hsys). exists (i, rule). split.
      + apply sort_by_elem, list_elem_of_In, filter_In. split; [by apply list_elem_of_In|].
        simpl. by rewrite Hiss, String.eqb_refl.
      + simpl. unfold rule_disposition, target_role_safe. rewrite Hg, bool_decide_eq_true_2 by (apply list_elem_of_fmap; eauto).
        rewrite bool_decide_eq_false_2 by done. rewrite Ho, String.eqb_refl, Hro, Hrow, Hsys. done. }
  split_and!.
  - exists l, ids. split; [done|]. intros b Hin. rewrite Forall_forall in Hl.
    destruct (Hl b Hin) as (rule & role_id & Hp & ->). exists rule, role_id. split; [by apply Hiff|done].
  - intros rule role_id Ha. apply Hiff in Ha. exact (Hb _ _ Ha).
  - intros o. simpl. rewrite list_elem_of_fmap. split.
    + intros ([rule role_id] & -> & Hp). exists rule, role_id. split; [by apply Hiff|done].
    + intros (rule & role_id & Ha & ->). exists (rule, role_id). split; [done|by apply Hiff].
Qed.

(** Preview and repetition.  Before a run that returns, the dry run on
    the same groups reports the same skipped rules and plans exactly the rules
    the run applies, and changes nothing; after it, a second run (with other
    generated ids, later, with or without a subject) reports the same and adds
    no binding. *)
Theorem group_mapping_preview_and_repeat (fresh fresh' : string -> string) (user_id issuer : string)
    (groups : list string) (provider : string) (subject subject' : option string) (now now' : Z)
    (t t' : iam_tables) (m : membership_row) (res : mapping_result) :
  get_active_membership user_id t = Ok (Some m) ->
  apply_group_mapping fresh user_id issuer groups provider subject false now t = (Ok res, t') ->
  (exists planned, apply_group_mapping fresh' user_id issuer groups provider None true now' t
      = (Ok (mk_result planned [] (mr_skipped res)), t)
    /\ (fun o => (mo_group_value o, mo_target_role_id o, mo_target_org_id o)) <$> planned
       = (fun o => (mo_group_value o, mo_target_role_id o, mo_target_org_id o)) <$> mr_applied res)
  /\ exists t'', apply_group_mapping fresh' user_id issuer groups provider subject' false now' t' = (Ok res, t'')
    /\ it_role_bindings t'' = it_role_bindings t'.
Proof.
  intros Hm Hrun. destruct (apply_group_mapping_Ok _ _ _ _ _ _ _ _ _ _ _ _ Hm Hrun) as (t1 & ids & Hf & ->).
  apply apply_rules_ok in Hf as (-> & (l & -> & Hl) & Hb).
  set (rules := list_oidc_group_mappings None (Some issuer) t) in *. split.
  - exists ((fun p => outcome_of p.1 false "dry_run") <$> planned_rules (mem_org_id m) groups t rules). split.
    + unfold apply_group_mapping. rewrite Hm. fold rules. by rewrite apply_rules_dry.
    + simpl. rewrite <-!list_fmap_compose. done.
  - set (t2 := set_it_identities ids _).
    assert (get_active_membership user_id t2 = Ok (Some m)) as Hm2 by done.
    assert (it_roles t2 = it_roles t) as Hr by done.
    pose proof (apply_rules_bound user_id (mem_org_id m) groups fresh' now' rules (mk_result [] [] []) t2) as Hrep.
    rewrite (planned_rules_roles _ _ t t2), (skipped_rules_roles _ _ t t2) in Hrep by done.
    destruct (apply_group_mapping_of_loop fresh' user_id issuer groups provider subject' false now' t2 m _ t2 Hm2
                (Hrep Hb)) as [ids' Hrun2].
    eexists. split; [exact Hrun2|done].
Qed.

(** ** Concrete runs *)

Definition demo_login (dry : bool) (t : iam_tables) : result iam_error mapping_result * iam_tables :=
  apply_group_mapping (fun i => "new-" +:+ i) "dev" "idp" ["eng"; "ops"] "oidc" (Some "sub") dry 10 t.

Definition demo_login_result : mapping_result :=
  let o := outcome_of (demo_rule "eng" "r_dev" "additive") true "" in
  mk_result [o] [o]
    [outcome_of (demo_rule "ops" "r_sys" "additive") false "target_role_missing_or_system";
     outcome_of (demo_rule "eng" "r_admin" "authoritative") false "authoritative_mode_not_enabled"].

Lemma group_mapping_exact_witness :
  bound ("org", "user", "dev", "r_dev") (demo_login false demo_tables).2
  /\ mr_applied demo_login_result = [outcome_of (demo_rule "eng" "r_dev" "additive") true ""].
Proof.
  destruct (demo_login false demo_tables) as [res t'] eqn:Hrun.
  assert (res = Ok demo_login_result) as ->.
  { pose proof (f_equal fst Hrun) as E. simpl in E. rewrite <-E. vm_compute. reflexivity. }
  destruct (group_mapping_exact (fun i => "new-" +:+ i) "dev" "idp" ["eng"; "ops"] "oidc" (Some "sub") 10 demo_tables t'
    (mk_membership "org" "dev" "active" 2) demo_login_result eq_refl Hrun) as (_ & Hb & _).
  split; [|reflexivity]. apply (Hb (demo_rule "eng" "r_dev" "additive")). split_and!; try reflexivity.
  - exists "g1". left.
  - exists "eng". split; [reflexivity|left].
  - discriminate.
  - eexists. split; reflexivity.
Defined.

Lemma group_mapping_preview_and_repeat_witness :
  (exists planned, (demo_login true demo_tables).1 = Ok (mk_result planned [] (mr_skipped demo_login_result)))
  /\ exists t'', demo_login false (demo_login false demo_tables).2 = (Ok demo_login_result, t'')
       /\ it_role_bindings t'' = it_role_bindings (demo_login false demo_tables).2.
Proof.
  destruct (demo_login false demo_tables) as [res t'] eqn:Hrun.
  assert (res = Ok demo_login_result) as ->.
  { pose proof (f_equal fst Hrun) as E. simpl in E. rewrite <-E. vm_compute. reflexivity. }
  destruct (group_mapping_preview_and_repeat (fun i => "new-" +:+ i) (fun i => "new-" +:+ i) "dev" "idp" ["eng"; "ops"] "oidc"
    (Some "sub") (Some "sub") 10 10 demo_tables t' (mk_membership "org" "dev" "active" 2) demo_login_result eq_refl Hrun)
    as [_ Hrep].
  split; [eexists; vm_compute; reflexivity|exact Hrep].
Defined.
