(* ===== verification/IamApiProps.v ===== *)
(** * The IAM endpoints: what a request may change

    Every session of a handler of [IamApi] leaves the tables and the outbox
    alone or commits one write of [IamProps.iam_write] in the caller's Org
    together with one audit row, and no request commits twice ([sound],
    [handler_sound]).  From this: the constraints of the tables are kept through
    every interleaving of the sessions, other Orgs are untouched, no change goes
    unaudited, and disabling, suspending or deleting a principal revokes its
    access. *)
From S2P Require Import Prelude PyString Outbox Authorize AuthorizeProps Iam OidcMapping Auth IamApi IamProps OidcProps.
Local Open Scope string_scope.
Local Open Scope Z_scope.
Local Open Scope list_scope.

(** The answers that report a failure. *)
Definition is_error (a : answer) : bool := match a with HttpError _ _ => true | _ => false end.

Section effects.
Context {C : Type} `{PermissionCache C}.
Context (ttl_seconds : Z).
Context {J : Type} (encode : audit_event -> J).
Context (hmac : string -> option string).

Notation api_state := (IamApi.api_state (C := C) (J := J)).
Notation handle := (IamApi.handle (C := C) ttl_seconds encode hmac).

(** [s'] is [s] with the tables [t'] and one more pending row in the outbox,
    whose event names the caller and its Org. *)
Definition committed (e : api_env) (r : http_request) (org_id : string) (t' : iam_tables) (s s' : api_state) : Prop :=
  as_tables s' = t'
  /\ exists row ev, adb_outbox (as_audit s') = adb_outbox (as_audit s) ++ [(en_outbox_id e, row)]
     /\ adb_events (as_audit s') = adb_events (as_audit s)
     /\ ob_status row = OUTBOX_PENDING /\ ob_payload_json row = encode ev
     /\ ob_event_id row = ae_event_id ev
     /\ ae_org_id ev = Some org_id /\ ae_outcome ev = "success"
     /\ ae_actor_id ev = opt_or (actor_id r) "system".

Lemma class_a_commits e r action org rt rid payload t' (s s' : api_state) :
  class_a encode e r action org rt rid payload t' s = Some s' ->
  committed e r org t' s s' /\ as_cache s' = as_cache s.
Proof.
  unfold class_a. destruct (enqueue_audit_outbox _ _ _ _ _) as [[row adb']|] eqn:He; [|done].
  destruct (en_commit_fails e); [done|]. intros [= <-]. simpl. split; [|done]. split; [done|].
  unfold enqueue_audit_outbox in He. destruct (_ || _) eqn:Hd; [done|]. simplify_eq/=.
  apply orb_false_iff in Hd as [Hd _]. apply dict_mem_false in Hd.
  rewrite dict_set_fresh by done. unfold build_audit_event.
  destruct (actor_id r); do 2 eexists; split_and!; reflexivity.
Qed.

Lemma org_service_account_Some org sa_id t sa :
  org_service_account org sa_id t = Some sa -> sa_org t sa_id = Some org /\ dict_get sa_id (it_service_accounts t) = Some sa.
Proof.
  unfold org_service_account, get_service_account, sa_org.
  destruct (dict_get sa_id _) as [r|]; [|done].
  destruct (String.eqb_spec (sac_org_id r) org); [|done]. by intros [= ->]; subst.
Qed.

(** ** Sessions *)

Lemma handler_rect (P : handler (C := C) (J := J) -> Prop) :
  (forall a, P (Answer a)) -> (forall f, (forall s, P (f s).1) -> P (Session f)) -> forall h, P h.
Proof.
  intros Ha Hs. fix IH 1. intros [a|f]; [apply Ha|]. apply Hs. intros s. destruct (f s) as [h s']. apply IH.
Qed.

(** The rest of a request that has committed ([done]) or not yet: each session
    leaves the tables and the outbox alone, or commits one write in the
    caller's Org with its audit row; after that nothing is changed and the
    answer is no error.  [h0] gives the Orgs of the ids. *)
Fixpoint sound (h0 : home) (e : api_env) (r : http_request) (done : bool)
    (h : handler (C := C) (J := J)) : Prop :=
  match h with
  | Answer a => done = true -> is_error a = false
  | Session f => forall s, done = true \/ homes h0 (as_tables s) ->
      match f s with
      | (h', s') =>
          (as_tables s' = as_tables s /\ as_audit s' = as_audit s /\ sound h0 e r done h')
          \/ (done = false /\ exists org t', org_of r = Some org
              /\ iam_write (fun sa_id => home_sa h0 sa_id = org) org (as_tables s) t' /\ committed e r org t' s s'
              /\ sound h0 e r true h')
      end
  end.

(** A request alone: no change, or one audited write in the caller's Org. *)
Lemma sound_alone h0 e r done h (s s' : api_state) ans :
  sound h0 e r done h -> done = true \/ homes h0 (as_tables s) -> run_alone h s = (ans, s') ->
  (as_tables s' = as_tables s /\ as_audit s' = as_audit s /\ (done = true -> is_error ans = false))
  \/ (done = false /\ exists org, org_of r = Some org /\ is_error ans = false
      /\ exists t', iam_write (fun sa_id => home_sa h0 sa_id = org) org (as_tables s) t' /\ committed e r org t' s s').
Proof.
  revert done s. induction h as [a|f IH] using handler_rect; intros done s Hsd Hh Hr; simpl in Hr.
  { injection Hr as <- <-. left. done. }
  specialize (Hsd s Hh). specialize (IH s). destruct (f s) as [h1 s1]. simpl in IH.
  destruct Hsd as [(Ht & Ha & Hs1)|(-> & org & t' & Ho & Hw & [Ht (row & ev & Hrow)] & Hs1)].
  - destruct (IH done s1 Hs1) as [(Ht' & Ha' & Hk)|(-> & org & Ho & Hk & t' & Hw & Hc)]; [by rewrite Ht|done|left; split_and!; [congruence|congruence|exact Hk]|].
    right. split; [done|]. exists org. split; [done|]. split; [done|]. exists t'. split; [by rewrite <-Ht|].
    unfold committed in *. by rewrite <-Ha.
  - right. split; [done|]. exists org. split; [done|].
    destruct (IH true s1 Hs1) as [(Ht' & Ha' & Hk)|(E & _)]; [by left|done| |done].
    split; [by apply Hk|]. exists t'. split; [done|]. split; [congruence|]. exists row, ev. by rewrite Ha'.
Qed.

(** The cache after the gate. *)
Definition gate_cache (p : Permission) (e : api_env) (r : http_request) (s : api_state) : C :=
  (require_rbac ttl_seconds p false false ∅ (en_clock e) (view (as_tables s)) r (as_cache s)).1.2.

Definition alone (p : handler (C := C) (J := J) * api_state) : answer * api_state := run_alone p.1 p.2.

Lemma alone_next f s : alone (next f s) = alone (f s).
Proof. unfold alone. simpl. by destruct (f s). Qed.

(** Under the decorator: refused before the handler, or the handler's own
    answer in the caller's Org. *)
Lemma with_rbac_cases p e r h (s : api_state) ans s' :
  run_alone (with_rbac ttl_seconds p e r h) s = (ans, s') ->
  (is_error ans = true /\ s' = with_cache (gate_cache p e r s) s)
  \/ (exists org, org_of r = Some org /\ alone (h org (with_cache (gate_cache p e r s) s)) = (ans, s')
      /\ (require_rbac ttl_seconds p false false ∅ (en_clock e) (view (as_tables s)) r (as_cache s)).1.1 = Handler).
Proof.
  unfold with_rbac, gate_cache. simpl. destruct (require_rbac _ _ _ _ _ _ _ _ _) as [[gate c1] au]. simpl.
  destruct gate; [|simpl; intros; simplify_eq; by left..].
  destruct (org_of r) as [org|]; [|simpl; intros; simplify_eq; by left]. simpl. intros Hh. right. exists org.
  split; [done|]. split; [|done]. unfold alone. by destruct (h org _).
Qed.

Lemma finish_cases (committed_s : option api_state) inv ans0 s ans s' :
  alone (finish committed_s inv ans0 s) = (ans, s') ->
  (committed_s = None /\ ans = INTERNAL_ERROR /\ s' = s)
  \/ exists s1, committed_s = Some s1 /\ ans = ans0
      /\ as_tables s' = as_tables s1 /\ as_audit s' = as_audit s1
      /\ as_cache s' = match inv with None => as_cache s1 | Some (o, pt, i) => invalidate_principal o pt i (as_cache s1) end.
Proof.
  unfold finish, alone. destruct committed_s as [s1|]; [|intros [= <- <-]; by left].
  right. exists s1. destruct inv as [[[o pt] i]|]; simpl in *; by simplify_eq.
Qed.

(** *** Every handler *)

Section handlers.
Context (h0 : home) (e : api_env) (r : http_request).

(** One session of a request that has not committed. *)
Definition session_ok (s : api_state) (p : handler (C := C) (J := J) * api_state) : Prop :=
  (as_tables p.2 = as_tables s /\ as_audit p.2 = as_audit s /\ sound h0 e r false p.1)
  \/ exists org t', org_of r = Some org /\ iam_write (fun sa_id => home_sa h0 sa_id = org) org (as_tables s) t'
       /\ committed e r org t' s p.2 /\ sound h0 e r true p.1.

Lemma sound_session f : (forall s, homes h0 (as_tables s) -> session_ok s (f s)) -> sound h0 e r false (Session f).
Proof.
  intros Hf s [?|Hh]; [done|]. specialize (Hf s Hh). unfold session_ok in Hf. destruct (f s) as [h' s']. simpl in Hf.
  destruct Hf as [?|?]; [by left|right]. done.
Qed.

Lemma ok_reply a s : session_ok s (reply a s).
Proof. left. done. Qed.

Lemma ok_next f s : (forall s', homes h0 (as_tables s') -> session_ok s' (f s')) -> session_ok s (next f s).
Proof. intros Hf. left. split; [done|]. split; [done|]. by apply sound_session. Qed.

Lemma invalidation_sound inv ans0 :
  is_error ans0 = false ->
  sound h0 e r true (Session (fun s => reply ans0 (with_cache (inv s) s))).
Proof. intros Ha s _. left. split; [done|]. split; [done|]. by intros _. Qed.

Lemma ok_finish org action rt rid payload t' s inv ans0 :
  org_of r = Some org -> iam_write (fun sa_id => home_sa h0 sa_id = org) org (as_tables s) t' -> is_error ans0 = false ->
  session_ok s (finish (class_a encode e r action org rt rid payload t' s) inv ans0 s).
Proof.
  intros Ho Hw Ha. unfold finish. destruct (class_a _ _ _ _ _ _ _ _ _ _) as [s1|] eqn:Hc; [|apply ok_reply].
  apply class_a_commits in Hc as [Hc _]. right. exists org, t'. split; [done|]. split; [done|].
  destruct inv as [[[o pt] i]|]; (split; [done|]); [by apply invalidation_sound|by intros _].
Qed.

Lemma ok_finish_same (b : bool) inv ans0 s :
  is_error ans0 = false -> session_ok s (finish (if b then None else Some s) inv ans0 s).
Proof.
  intros Ha. destruct b; simpl; [apply ok_reply|]. left. destruct inv as [[[o pt] i]|]; (split; [done|]; split; [done|]); [|done].
  intros s1 _. left. split; [done|]. split; [done|]. by intros ?.
Qed.

Lemma sound_with_rbac p h :
  (forall org, org_of r = Some org -> forall s, homes h0 (as_tables s) -> session_ok s (h org s)) ->
  sound h0 e r false (with_rbac ttl_seconds p e r h).
Proof.
  intros Hh. apply sound_session. intros s Hs. destruct (require_rbac _ _ _ _ _ _ _ _ _) as [[gate c1] au].
  destruct gate; [|by left..]. destruct (org_of r) as [org|] eqn:Ho; [|by left].
  left. split; [done|]. split; [done|]. apply sound_session. by apply Hh.
Qed.

Lemma checked_home org sa_id t sa :
  homes h0 t -> org_service_account org sa_id t = Some sa -> home_sa h0 sa_id = org.
Proof. intros [Hh _] Hsa. apply org_service_account_Some in Hsa as [Ho _]. by apply Hh. Qed.

Ltac sessions :=
  repeat first
    [ apply ok_reply
    | apply ok_finish_same; reflexivity
    | apply ok_next; intros ? ?
    | apply ok_finish; [assumption| |reflexivity]
    | case_match ].

Lemma transition_status_ok sa_id target org s :
  org_of r = Some org -> session_ok s (transition_status encode e r sa_id target org s).
Proof. intros Ho. unfold transition_status. sessions; reflect_bools; by eapply W_set_sa_status. Qed.

Lemma change_membership_ok user_id status action org s :
  org_of r = Some org -> session_ok s (change_membership encode e r user_id status action org s).
Proof. intros Ho. unfold change_membership. sessions. by eapply W_set_membership. Qed.

Lemma handler_sound rq : sound h0 e r false (handler_of ttl_seconds encode hmac e r rq).
Proof.
  destruct rq; simpl; apply sound_with_rbac; intros org Ho s Hs; cbv zeta.
  - sessions.
  - sessions. by eapply W_create_sa.
  - sessions.
  - sessions. reflect_bools. by eapply W_update_sa.
  - by apply transition_status_ok.
  - by apply transition_status_ok.
  - sessions. eapply W_delete_sa; [|eassumption]. eapply checked_home; [|eassumption]; assumption.
  - sessions.
  - sessions. eapply W_create_binding; [|eassumption]. eapply checked_home; [|eassumption]; assumption.
  - sessions. by eapply W_delete_binding.
  - sessions. assert (home_sa h0 sa_id = org) by (eapply checked_home; [|eassumption]; assumption).
    unfold insert_with_retry, attempt_insert in *. repeat case_match; simplify_eq; by eapply W_create_key.
  - sessions.
  - sessions. match goal with |- iam_write _ _ (as_tables ?x) _ => destruct (revoke_api_key key_id org (ck_utc (en_clock e)) (as_tables x)) as [[row|] t'] eqn:Hrv end.
    + by eapply W_revoke_key.
    + unfold revoke_api_key in Hrv. repeat case_match; simplify_eq; apply W_nothing.
  - sessions.
  - sessions. reflect_bools. subst. by eapply W_create_mapping.
  - sessions; reflect_bools;
      match goal with Hu : update_oidc_group_mapping _ _ (as_tables ?x) = Ok _, Hx : homes h0 (as_tables ?x) |- _ =>
        pose proof (update_oidc_group_mapping_Ok _ _ _ _ _ Hu) as (r0 & Hr0 & Ho0 & _);
        eapply W_update_mapping; [exact Hu|]; rewrite Ho0, <-(proj2 Hx _ _ Hr0) end.
    all: match goal with Hx : homes h0 ?t, He : get_oidc_group_mapping _ ?t = Some _ |- _ => by rewrite (proj2 Hx _ _ He) end.
  - sessions. by eapply W_delete_mapping.
  - sessions; match goal with Hd : apply_group_mapping _ _ _ _ _ _ _ _ _ = _ |- _ => apply apply_group_mapping_dry in Hd as -> end; by left.
  - sessions; by apply change_membership_ok.
  - by apply change_membership_ok.
  - sessions.
Qed.
End handlers.

(** A request that nothing interrupts: no change, or one audited write. *)
Lemma handle_effect h0 e r rq s ans s' :
  homes h0 (as_tables s) -> handle e r rq s = (ans, s') ->
  (as_tables s' = as_tables s /\ as_audit s' = as_audit s)
  \/ exists org, org_of r = Some org /\ is_error ans = false
      /\ exists t', iam_write (fun sa_id => home_sa h0 sa_id = org) org (as_tables s) t' /\ committed e r org t' s s'.
Proof.
  intros Hh Hr. destruct (sound_alone h0 e r false _ s s' ans (handler_sound h0 e r rq)) as [(? & ? & _)|[_ ?]]; eauto.
Qed.

(** A write at home keeps the constraints. *)
Lemma home_write_wf h0 org t t' :
  homes h0 t -> iam_write (fun sa_id => home_sa h0 sa_id = org) org t t' -> tables_wf t -> tables_wf t'.
Proof. intros [Hh _] Hw. eapply iam_write_wf; [|exact Hw]. intros sa_id o <- Ho. symmetry. by apply Hh. Qed.

Lemma handle_wf e r rq s ans s' :
  handle e r rq s = (ans, s') -> tables_wf (as_tables s) -> tables_wf (as_tables s').
Proof.
  intros Hh Hwf. pose proof (home_of_homes (as_tables s)) as Ho.
  destruct (handle_effect _ _ _ _ _ _ _ Ho Hh) as [[-> _]|(org & _ & _ & t' & Hw & -> & _)]; [done|by eapply home_write_wf].
Qed.
End effects.

(** ** Runs of the control plane *)

Section runs.
Context {C : Type} `{PermissionCache C}.
Context (ttl_seconds : Z).
Context {J : Type} (encode : audit_event -> J) (decode : J -> option audit_event).
Context (hmac : string -> option string).

Notation api_state := (IamApi.api_state (C := C) (J := J)).
Notation handle := (IamApi.handle (C := C) ttl_seconds encode hmac).

Definition with_tables (t : iam_tables) (s : api_state) : api_state := mk_api_state t (as_audit s) (as_cache s).

(** The writes of a login with group mapping, one session each. *)
Inductive login_write : iam_tables -> iam_tables -> Prop :=
| LW_binding id o u role by_ now t b t' :
    ensure_role_binding id o "user" u role by_ now t = Ok (b, t') -> login_write t t'
| LW_identity id u iss sub prov claims t : login_write t (upsert_external_identity id u iss sub prov claims t).

(** The state and the requests that are under way, each at its next session. *)
Notation config := (api_state * list (handler (C := C) (J := J)))%type.

(** What happens next: a request comes in, one under way runs a session or is
    dropped, a key is touched, a login or the bootstrap writes; the cache and
    the outbox are also changed by the Authorize Service and the audit worker. *)
Inductive iam_step : config -> config -> Prop :=
| is_request e r rq s pool : iam_step (s, pool) (s, handler_of ttl_seconds encode hmac e r rq :: pool)
| is_session pre f post s h s' : f s = (h, s') -> iam_step (s, pre ++ Session f :: post) (s', pre ++ h :: post)
| is_drop pre h post s : iam_step (s, pre ++ h :: post) (s, pre ++ post)
| is_touch id now s pool : iam_step (s, pool) (with_tables (touch_api_key_last_used id now (as_tables s)) s, pool)
| is_login s t' pool : login_write (as_tables s) t' -> iam_step (s, pool) (with_tables t' s, pool)
| is_boot_org o s pool : iam_step (s, pool) (with_tables (ensure_default_org o (as_tables s)) s, pool)
| is_boot_roles fresh s pool : iam_step (s, pool) (with_tables (ensure_builtin_roles fresh (as_tables s)) s, pool)
| is_boot_membership id o u now s t' pool :
    ensure_admin_membership id o u now (as_tables s) = Ok t' -> iam_step (s, pool) (with_tables t' s, pool)
| is_boot_binding id o u role now s b t' pool :
    ensure_admin_role_binding id o u role now (as_tables s) = Ok (b, t') -> iam_step (s, pool) (with_tables t' s, pool)
| is_authorize c s pool : iam_step (s, pool) (with_cache c s, pool)
| is_audit a s pool :
    outbox_step encode decode (as_audit s) a -> iam_step (s, pool) (mk_api_state (as_tables s) a (as_cache s), pool).

(** A step after which every service account and every mapping rule is in the
    Org that [h] gives its id: the generated ids are not drawn for two Orgs. *)
Definition home_step (h : home) (c c' : config) : Prop := iam_step c c' /\ homes h (as_tables c'.1).

Lemma wf_touch id now t : tables_wf t -> tables_wf (touch_api_key_last_used id now t).
Proof.
  intros Hwf. unfold touch_api_key_last_used. destruct (dict_get id _) as [r|] eqn:Hr; [|done].
  destruct (match ak_last_used_at r with None => true | Some u => _ end); [|done].
  pose proof (twf_keys _ Hwf) as (Hd & HP & Hu). apply wf_set_keys; [done|].
  apply table_ok_set; [apply Hwf|exact (HP _ _ Hr)|]. intros j r' Hj Hp. by eapply Hu.
Qed.

Lemma wf_ensure_user_binding id o u role by_ now t b t' :
  tables_wf t -> ensure_role_binding id o "user" u role by_ now t = Ok (b, t') -> tables_wf t'.
Proof.
  intros Hwf. unfold ensure_role_binding. destruct (existsb _ _); [by intros [= _ <-]|].
  destruct (create_role_binding _ _ _ _ _ _ _ _ _) as [[row t1]|] eqn:Hc; [|done]. intros [= _ <-].
  by eapply wf_create_role_binding.
Qed.

Lemma wf_set_identities ids t : tables_wf t -> tables_wf (set_it_identities ids t).
Proof. by intros []. Qed.

Lemma wf_login_write t t' : login_write t t' -> tables_wf t -> tables_wf t'.
Proof.
  intros [] Hwf; [by eapply wf_ensure_user_binding|].
  destruct (upsert_external_identity_frame id u iss sub prov claims t0) as [ids ->]. by apply wf_set_identities.
Qed.

(** The engine of the group mapping makes such writes and no other. *)
Lemma login_writes_rules fresh u o groups dry now rules acc :
  star login_write acc.2 (foldl (apply_rule fresh u o groups dry now) acc rules).2.
Proof.
  revert acc. induction rules as [|[i rule] rules IH]; intros [res t]; [apply star_refl|]. simpl.
  destruct res as [r|]; [|apply (IH (Err _, t))]. destruct (rule_disposition _ _ _ _); [apply (IH (_, t))..|].
  destruct dry; [apply (IH (_, t))|].
  destruct (ensure_role_binding _ _ _ _ _ _ _ _) as [[b t1]|] eqn:He; [|apply (IH (_, t))].
  eapply star_step; [by eapply LW_binding|]. apply (IH (_, t1)).
Qed.

Lemma login_writes fresh u iss groups prov sub dry now t res t' :
  apply_group_mapping fresh u iss groups prov sub dry now t = (res, t') -> star login_write t t'.
Proof.
  unfold apply_group_mapping. destruct (get_active_membership u t) as [[m|]|]; [|by intros [= _ <-]..].
  pose proof (login_writes_rules fresh u (mem_org_id m) groups dry now
    (list_oidc_group_mappings None (Some iss) t) (Ok (mk_result [] [] []), t)) as Hf.
  destruct (foldl _ _ _) as [[r|e] t1]; simpl in Hf; [|by intros [= _ <-]].
  destruct sub as [sub|]; [|by intros [= _ <-]]. destruct (_ && _); [|by intros [= _ <-]].
  intros [= _ <-]. eapply star_trans; [exact Hf|]. eapply star_step; [apply LW_identity|apply star_refl].
Qed.

Lemma wf_ensure_default_org o t : tables_wf t -> tables_wf (ensure_default_org o t).
Proof.
  intros Hwf. unfold ensure_default_org. destruct (dict_mem o (it_orgs t)) eqn:Hm; [done|].
  apply dict_mem_false in Hm. destruct Hwf. split; simpl; try done.
  rewrite dict_set_fresh by done. intros o' s' [Hin|[= -> ->]%list_elem_of_singleton]%elem_of_app; [eauto|set_solver].
Qed.

Lemma wf_set_roles rs t :
  (forall k, dict_mem k (it_roles t) = true -> dict_mem k rs = true) -> tables_wf t -> tables_wf (set_it_roles rs t).
Proof. intros Hk []. split; simpl; try done. eauto. Qed.

Lemma wf_ensure_builtin_roles fresh t : tables_wf t -> tables_wf (ensure_builtin_roles fresh t).
Proof.
  unfold ensure_builtin_roles. generalize BUILTIN_ROLE_PERMISSIONS. intros l. revert t.
  induction l as [|[name ps] l IH]; intros t Hwf; [done|]. simpl. apply IH.
  destruct (find_system_role name t); [done|]. apply wf_set_roles; [|done].
  intros k. unfold dict_mem. rewrite dict_get_set. by case_decide.
Qed.

Lemma get_membership_None o u t i r :
  get_membership o u t = None -> dict_get i (it_memberships t) = Some r -> membership_key r <> (o, u).
Proof.
  intros Hn Hi [= Ho Hu]. apply dict_get_Some_elem, list_elem_of_In in Hi.
  pose proof (List.find_none _ _ Hn _ Hi) as Hf. simpl in Hf. by rewrite Ho, Hu, !String.eqb_refl in Hf.
Qed.

Lemma wf_ensure_admin_membership id o u now t t' :
  tables_wf t -> ensure_admin_membership id o u now t = Ok t' -> tables_wf t'.
Proof.
  intros Hwf. unfold ensure_admin_membership. destruct (get_membership o u t) eqn:Hg; [by intros [= <-]|].
  destruct (_ && _); [|done]. intros [= <-]. apply wf_set_memberships; [done|].
  apply table_ok_set; [apply Hwf|unfold membership_row_ok; simpl; set_solver|].
  intros j r' Hj Hk. by destruct (get_membership_None _ _ _ _ _ Hg Hj).
Qed.

(** The bindings of the service accounts are touched by the requests only. *)
Lemma home_user_binding h id o u role by_ now t b t' :
  ensure_role_binding id o "user" u role by_ now t = Ok (b, t') -> bindings_home h t -> bindings_home h t'.
Proof.
  unfold ensure_role_binding. destruct (existsb _ _); [by intros [= _ <-]|].
  destruct (create_role_binding _ _ _ _ _ _ _ _ _) as [[row t1]|] eqn:Hc; [|done]. intros [= _ <-] Hb.
  apply create_role_binding_Ok in Hc as (-> & -> & _). intros i b0. simpl. rewrite dict_get_set.
  case_decide; [by intros [= <-]|by apply Hb].
Qed.

Lemma home_same_bindings h t t' : it_role_bindings t' = it_role_bindings t -> bindings_home h t -> bindings_home h t'.
Proof. unfold bindings_home. by intros ->. Qed.

Lemma builtin_roles_bindings fresh t : it_role_bindings (ensure_builtin_roles fresh t) = it_role_bindings t.
Proof.
  unfold ensure_builtin_roles. generalize BUILTIN_ROLE_PERMISSIONS. intros l. revert t.
  induction l as [|[name ps] l IH]; intros t; [done|]. simpl. rewrite IH. by destruct (find_system_role name t).
Qed.

Lemma home_login_write h t t' : login_write t t' -> bindings_home h t -> bindings_home h t'.
Proof.
  intros [] Hb; [by eapply home_user_binding|].
  destruct (upsert_external_identity_frame id u iss sub prov claims t0) as [ids ->]. done.
Qed.

(** The invariant of a run. *)
Record run_ok (h : home) (c : config) : Prop := {
  ro_tables : tables_wf (as_tables c.1);
  ro_homes : homes h (as_tables c.1);
  ro_bindings : bindings_home h (as_tables c.1);
  ro_pool : Forall (fun k => exists e r done, sound (C := C) encode h e r done k) c.2
}.

Lemma session_run_ok h (f : api_state -> handler (C := C) (J := J) * api_state) s h1 s' :
  tables_wf (as_tables s) -> homes h (as_tables s) -> bindings_home h (as_tables s) ->
  (exists e r done, sound encode h e r done (Session f)) -> f s = (h1, s') ->
  tables_wf (as_tables s') /\ bindings_home h (as_tables s') /\ exists e r done, sound encode h e r done h1.
Proof.
  intros Hwf Hh Hb (e & r & done & Hs) Hf. specialize (Hs s (or_intror Hh)). rewrite Hf in Hs.
  destruct Hs as [(-> & _ & Hs)|(-> & org & t' & _ & Hw & [-> _] & Hs)]; [by eauto 10|].
  split; [by eapply home_write_wf|]. split; [by eapply iam_write_bindings_home|by eauto].
Qed.

Lemma home_step_ok h c c' : home_step h c c' -> run_ok h c -> run_ok h c'.
Proof.
  intros [Hs Hh'] [Hwf Hh Hb Hp]. destruct Hs; simpl in *.
  - split; simpl; try done. constructor; [|done]. exists e, r, false. apply handler_sound.
  - apply Forall_app in Hp as [Hp1 [Hk Hp2]%Forall_cons].
    destruct (session_run_ok h f s h0 s' Hwf Hh Hb Hk H0) as (? & ? & ?).
    split; simpl; try done. apply Forall_app. split; [done|]. by constructor.
  - apply Forall_app in Hp as [Hp1 [_ Hp2]%Forall_cons]. split; simpl; try done. by apply Forall_app.
  - split; simpl; try done; [by apply wf_touch|]. eapply home_same_bindings; [|exact Hb].
    unfold touch_api_key_last_used. by repeat case_match.
  - split; simpl; try done; [by eapply wf_login_write|by eapply home_login_write].
  - split; simpl; try done; [by apply wf_ensure_default_org|]. eapply home_same_bindings; [|exact Hb].
    unfold ensure_default_org. by case_match.
  - split; simpl; try done; [by apply wf_ensure_builtin_roles|]. eapply home_same_bindings; [|exact Hb]. apply builtin_roles_bindings.
  - split; simpl; try done; [by eapply wf_ensure_admin_membership|]. eapply home_same_bindings; [|exact Hb].
    unfold ensure_admin_membership in H0. by repeat case_match; simplify_eq/=.
  - split; simpl; try done; [by eapply wf_ensure_user_binding|by eapply home_user_binding].
  - by split.
  - by split.
Qed.

(** (C17) The tables stay well formed.  Through any interleaving of the
    sessions of IAM requests (any of them dropped half-way), of the writes of
    logins with group mapping, of key touches, bootstrap steps and audit
    passes, the constraints of the tables hold: no null or unknown status, no
    duplicate name, binding, key prefix, rule or membership, no binding to an
    unknown role, every API key a row of an existing account's own Org; every
    binding of a service account, also of one deleted meanwhile, is a row of
    the Org the account was created in; and the Authorize Service reads tables
    that meet its own constraints.  The generated ids of accounts and rules are
    taken to be drawn for one Org each ([home_step]). *)
Theorem iam_tables_well_formed h s s' pool :
  tables_wf (as_tables s) -> homes h (as_tables s) -> bindings_home h (as_tables s) ->
  star (home_step h) (s, []) (s', pool) ->
  tables_wf (as_tables s') /\ bindings_home h (as_tables s') /\ iam_wf (view (as_tables s')).
Proof.
  intros Hwf Hh Hb Hs. assert (run_ok h (s', pool)) as [Hwf' _ Hb' _]; [|split_and!; [done..|by apply view_wf]].
  eapply (star_invariant (home_step h) (run_ok h) (home_step_ok h)); [exact Hs|]. by split.
Qed.


(** Tenant isolation of the control plane.  A request under the context
    of one Org leaves every row of every other Org as it was: memberships,
    service accounts, bindings, keys and mapping rules; and the Orgs, the
    roles and the identity links. *)
Theorem iam_requests_isolated h e r rq s ans s' o :
  tables_wf (as_tables s) -> homes h (as_tables s) -> bindings_home h (as_tables s) ->
  org_of r <> Some o -> handle e r rq s = (ans, s') ->
  org_rows o (as_tables s') = org_rows o (as_tables s)
  /\ global_rows (as_tables s') = global_rows (as_tables s).
Proof.
  intros Hwf Hh Hb Hne Hr.
  destruct (handle_effect _ _ _ h _ _ _ _ _ _ Hh Hr) as [[-> _]|(org & Ho & _ & t' & Hw & -> & _)]; [done|].
  split; [eapply (iam_write_other h org); [done..|congruence]|by eapply iam_write_global].
Qed.
End runs.

(** ** Revocation *)

(** The principal a request takes out of service. *)
Definition revokes (rq : iam_request) : option (string * string) :=
  match rq with
  | R_disable_service_account sa_id => Some ("service_account", sa_id)
  | R_delete_service_account sa_id => Some ("service_account", sa_id)
  | R_suspend_member user_id => Some ("user", user_id)
  | _ => None
  end.

Section revocation.
Context {C : Type} `{PermissionCache C}.
Context (ttl_seconds : Z).
Context {J : Type} (encode : audit_event -> J).
Context (hmac : string -> option string).

Notation api_state := (IamApi.api_state (C := C) (J := J)).
Notation handle := (IamApi.handle (C := C) ttl_seconds encode hmac).

(** A request answered with [a] in [s'], with the interference [I] before each
    of its sessions. *)
Inductive answered (I : api_state -> api_state -> Prop) : handler (C := C) (J := J) -> api_state -> answer -> api_state -> Prop :=
| ans_answer a s : answered I (Answer a) s a s
| ans_session f s s1 h s2 a s' :
    I s s1 -> f s1 = (h, s2) -> answered I h s2 a s' -> answered I (Session f) s a s'.

(** The others neither activate the principal nor delete its account; else they
    may change the tables, the outbox and the cache at will. *)
Definition spares (x : subject) (s s1 : api_state) : Prop :=
  tables_wf (as_tables s1)
  /\ (active_principal (view (as_tables s1)) x -> active_principal (view (as_tables s)) x)
  /\ (is_Some (sa_org (as_tables s) (su_id x)) -> is_Some (sa_org (as_tables s1) (su_id x))).

(** The states in which the sessions of a request alone begin. *)
Fixpoint session_states (h : handler (C := C) (J := J)) (s : api_state) : list api_state :=
  match h with
  | Answer _ => []
  | Session f => s :: match f s with (h', s') => session_states h' s' end
  end.

Lemma answered_alone I h s :
  Forall (fun s1 => I s1 s1) (session_states h s) -> answered I h s (run_alone h s).1 (run_alone h s).2.
Proof.
  revert s. induction h as [a|f IH] using handler_rect; intros s Hs; simpl in *; [constructor|].
  specialize (IH s). destruct (f s) as [h' s'] eqn:Hf. apply Forall_cons in Hs as [HI Hs].
  eapply ans_session; [exact HI|exact Hf|]. by apply IH.
Qed.

Definition rest (I : api_state -> api_state -> Prop) (p : handler (C := C) (J := J) * api_state) (a : answer) (s' : api_state) : Prop :=
  answered I p.1 p.2 a s'.

Lemma rest_reply I b s a s' : rest I (reply b s) a s' -> a = b /\ s' = s.
Proof. intros Hr. by inversion Hr. Qed.

Lemma rest_next I f s a s' : rest I (next f s) a s' -> exists s1, I s s1 /\ rest I (f s1) a s'.
Proof.
  intros Hr. unfold rest in *. simpl in Hr. remember (Session f) as k eqn:Hk. destruct Hr as [|f' s s1 h s2 a s' HI Hf Hr]; [done|].
  injection Hk as <-. exists s1. split; [done|]. by rewrite Hf.
Qed.

(** A gated request answered with success has reached its handler. *)
Lemma rest_with_rbac I p e r h org s a s' :
  answered I (with_rbac ttl_seconds p e r h) s a s' -> is_error a = false -> org_of r = Some org ->
  exists s1 s2, I s1 s2 /\ rest I (h org s2) a s'.
Proof.
  intros Hr Ha Ho. apply (rest_next I _ s) in Hr as (s1 & _ & Hr).
  destruct (require_rbac _ _ _ _ _ _ _ _ _) as [[gate c1] au].
  destruct gate; [rewrite Ho in Hr|apply rest_reply in Hr as [-> _]; discriminate Ha..].
  apply rest_next in Hr as (s2 & HI & Hr). eauto.
Qed.

(** A successful commit with an invalidation. *)
Lemma rest_finish I e r action org rt rid payload t' s inv ans0 a s' :
  rest I (finish (class_a encode e r action org rt rid payload t' s) (Some inv) ans0 s) a s' -> is_error a = false ->
  exists s1 s2, as_tables s1 = t' /\ I s1 s2 /\ as_tables s' = as_tables s2
    /\ as_cache s' = invalidate_principal inv.1.1 inv.1.2 inv.2 (as_cache s2).
Proof.
  intros Hr Ha. unfold finish in Hr. destruct (class_a _ _ _ _ _ _ _ _ _ _) as [s1|] eqn:Hc.
  - apply class_a_commits in Hc as [[Ht _] _]. destruct inv as [[o pt] i].
    apply rest_next in Hr as (s2 & HI & [_ ->]%rest_reply). by exists s1, s2.
  - apply rest_reply in Hr as [-> _]. discriminate Ha.
Qed.

(** What each of the three writes does to its principal. *)
Lemma disable_inactive org id t row t' :
  tables_wf t -> set_service_account_status id SERVICE_ACCOUNT_DISABLED t = Ok (row, t') ->
  ~ active_principal (view t') (mk_subject org "service_account" id).
Proof.
  intros Hwf Hs. assert (tables_wf t') as Hwf'.
  { eapply (home_write_wf (home_of t) (sac_org_id row)); [apply home_of_homes|by eapply W_set_sa_status|done]. }
  apply set_service_account_status_Ok in Hs as (r0 & _ & -> & _ & Hf).
  apply flush_service_account_Ok in Hf as (_ & -> & _).
  unfold active_principal. simpl su_type. simpl String.eqb. cbv iota.
  rewrite view_service_account by done. simpl. rewrite dict_get_set_eq. simpl.
  intros (sr & [= <-] & _ & Hst). discriminate Hst.
Qed.

Lemma delete_inactive org id t row t' :
  tables_wf t -> delete_service_account id t = (Some row, t') ->
  ~ active_principal (view t') (mk_subject org "service_account" id).
Proof.
  intros Hwf Hs. assert (tables_wf t') as Hwf'.
  { eapply (home_write_wf (home_of t) (home_sa (home_of t) id)); [apply home_of_homes|by eapply W_delete_sa|done]. }
  unfold delete_service_account in Hs. destruct (dict_get id _); [|done]. injection Hs as _ <-.
  unfold active_principal. simpl su_type. simpl String.eqb. cbv iota.
  rewrite view_service_account by done. simpl. rewrite dict_get_pop_eq. simpl. by intros (? & ? & _).
Qed.

Lemma suspend_inactive org u t row t' :
  tables_wf t -> set_membership_status org u MEMBERSHIP_SUSPENDED t = Ok (row, t') ->
  ~ active_principal (view t') (mk_subject org "user" u).
Proof.
  intros Hwf Hs. assert (tables_wf t') as Hwf'.
  { eapply (home_write_wf (home_of t) org); [apply home_of_homes|by eapply W_set_membership|done]. }
  destruct row as [id row]. apply set_membership_status_Ok in Hs as (r0 & _ & _ & Hrow & _ & ->); [|apply Hwf].
  pose proof (view_membership _ id row Hwf') as Hv. simpl in Hv. rewrite dict_get_set_eq in Hv.
  specialize (Hv eq_refl). rewrite Hrow in Hv.
  unfold active_principal. simpl. intros Hact. unfold membership_key in Hv. simpl in Hv.
  rewrite Hrow in Hact. rewrite Hact in Hv. discriminate Hv.
Qed.

(** After a successful revoking request the principal is inactive and its
    cache entry is gone. *)
Lemma revoking_request e r rq s s' ans org ptype pid (x := mk_subject org ptype pid) :
  revokes rq = Some (ptype, pid) -> org_of r = Some org ->
  answered (spares x) (handler_of ttl_seconds encode hmac e r rq) s ans s' -> is_error ans = false ->
  tables_wf (as_tables s') /\ ~ active_principal (view (as_tables s')) x
  /\ exists c, as_cache s' = invalidate_principal org ptype pid c.
Proof.
  intros Hr Ho Hh Ha.
  assert (forall s1 s2 c, ~ active_principal (view (as_tables s1)) x -> spares x s1 s2 ->
    as_tables s' = as_tables s2 -> as_cache s' = invalidate_principal org ptype pid c ->
    tables_wf (as_tables s') /\ ~ active_principal (view (as_tables s')) x
    /\ exists c, as_cache s' = invalidate_principal org ptype pid c) as Hend.
  { intros s1 s2 c Hn (Hw & Hact & _) -> Hc. split_and!; [done|naive_solver|by exists c]. }
  destruct rq; simplify_eq/=; apply (rest_with_rbac _ _ _ _ _ org) in Hh as (s1 & s2 & (Hwf & _ & Hex) & Hh); try done.
  - unfold transition_status in Hh. destruct (set_service_account_status _ _ _) as [[row t']|err] eqn:Hs.
    2: { destruct err; apply rest_reply in Hh as [-> _]; discriminate Ha. }
    destruct (negb _); [apply rest_reply in Hh as [-> _]; discriminate Ha|].
    apply rest_finish in Hh as (s3 & s4 & Ht & HI & Ht' & Hc); [|done].
    eapply Hend; [|exact HI|exact Ht'|exact Hc]. rewrite Ht. by eapply disable_inactive.
  - destruct (org_service_account _ _ _) as [sa|] eqn:Hsa; [|apply rest_reply in Hh as [-> _]; discriminate Ha].
    apply org_service_account_Some in Hsa as [Hsa _]. apply rest_next in Hh as (s3 & (Hwf3 & _ & Hex3) & Hh).
    destruct Hex3 as [o3 Ho3]; [by exists org|]. destruct (delete_service_account _ _) as [[row|] t'] eqn:Hd.
    + apply rest_finish in Hh as (s4 & s5 & Ht & HI & Ht' & Hc); [|done].
      eapply Hend; [|exact HI|exact Ht'|exact Hc]. rewrite Ht. by eapply delete_inactive.
    + unfold delete_service_account in Hd. unfold sa_org in Ho3. simpl in Ho3. by destruct (dict_get pid _).
  - assert (exists s3, tables_wf (as_tables s3) /\ rest (spares x)
      (change_membership encode e r pid MEMBERSHIP_SUSPENDED "iam.membership.suspended" org s3) ans s') as (s3 & Hwf3 & Hch).
    { destruct (org_admin_role_id _); [|apply rest_next in Hh as (s3 & (? & _) & Hh); eauto].
      apply rest_next in Hh as (s3 & _ & Hh). destruct (assert_not_last_admin _ _ _ _ _).
      - apply rest_next in Hh as (s4 & (? & _) & Hh). eauto.
      - apply rest_reply in Hh as [-> _]. discriminate Ha. }
    unfold change_membership in Hch. destruct (set_membership_status _ _ _ _) as [[[id row] t']|err] eqn:Hs;
      [|apply rest_reply in Hch as [-> _]; discriminate Ha].
    apply rest_finish in Hch as (s4 & s5 & Ht & HI & Ht' & Hc); [|done].
    eapply Hend; [|exact HI|exact Ht'|exact Hc]. rewrite Ht. by eapply suspend_inactive.
Qed.

(** (C5) Revocation is effective at once.  When the request to disable or
    delete a service account, or to suspend a member, has been answered with
    success (other requests, logins and decisions run before each of its
    sessions, and neither activate the principal nor delete its account), the
    principal is inactive in the tables.  From that state, in every
    interleaving of the steps of the Authorize Service and as long as the
    principal is not made active again, every decision about it is a refusal,
    for every permission, once the permission computations for it that were in
    flight when the request was answered have been over for 60 seconds; when
    there were none, from the first decision on and without waiting for a
    cache entry to expire. *)
Theorem revocation_immediate e r rq s s' ans org ptype pid :
  let x := mk_subject org ptype pid in
  revokes rq = Some (ptype, pid) -> org_of r = Some org -> subject_wf x ->
  answered (spares x) (handler_of ttl_seconds encode hmac e r rq) s ans s' -> is_error ans = false ->
  ~ active_principal (view (as_tables s')) x
  /\ forall fl ck tr s2 t p scopes force,
       (forall y ps, (y, ps) ∈ fl -> subject_wf y) ->
       run ttl_seconds (mk_sys (as_cache s') (view (as_tables s')) ck fl) tr s2 ->
       (forall s1, s1 ∈ tr -> ~ active_principal (s_db s1) x) ->
       (forall s1 ps, s1 ∈ tr -> (x, ps) ∈ fl -> (x, ps) ∈ s_inflight s1 ->
          ck_monotonic (s_clock s1) + micros DEFAULT_TTL_SECONDS <= ck_monotonic (s_clock s2)) ->
       subject_of t = Some x ->
       exists err, (authorize ttl_seconds t p scopes force (s_clock s2) (s_db s2) (s_cache s2)).1 = Err err.
Proof.
  intros x Hr Ho Hx Hh Ha. destruct (revoking_request _ _ _ _ _ _ _ _ _ Hr Ho Hh Ha) as (Hwf' & Hina & [c Hc]).
  split; [exact Hina|]. intros fl ck tr s2 t p scopes force Hfl Hrun Hno Hover Ht.
  destruct (authorize ttl_seconds t p scopes force (s_clock s2) (s_db s2) (s_cache s2)).1 as [[]|err] eqn:Hau; [|eauto].
  apply (decision_lingering _ t x p scopes force _ _ _ Ht Hx) in Hrun as (s1 & ps & Hin & Hf & Hf1 & _ & Hlt).
  - specialize (Hover s1 ps Hin Hf Hf1). lia.
  - split; simpl; [by apply view_wf|done].
  - intros u. simpl. rewrite Hc. apply pc_invalidate_same.
  - exact Hno.
  - exact Hau.
Qed.
End revocation.

(** ** Concrete requests *)

Definition demo_hmac (s : string) : option string := Some (if is_ascii s then "mac-" +:+ s else "mac").
Definition demo_encoded (ev : audit_event) : audit_event := ev.
Definition demo_decoded (ev : audit_event) : option audit_event := Some ev.

Definition demo_env (n : string) : api_env :=
  mk_env (mk_clock 100 1000) ("id-" +:+ n) ("AAAAAAAAAAA", "secret") ("BBBBBBBBBBB", "secret2")
    ("ev-" +:+ n) ("idem-" +:+ n) ("ob-" +:+ n) "req" None false.

Definition demo_caller (u : string) : http_request :=
  mk_http_request false (Some (mk_tenant "org" (mk_principal "user" u (Some u)) "session" None))
    (Some (u, "user")) "" None.

Definition demo_state : IamApi.api_state (C := cache_entries) (J := audit_event) :=
  mk_api_state demo_tables adb_empty pc_empty.

Definition demo_handle (n u : string) (rq : iam_request) (s : IamApi.api_state (C := cache_entries) (J := audit_event)) :=
  handle 60 demo_encoded demo_hmac (demo_env n) (demo_caller u) rq s.

Definition demo_disabled : IamApi.api_state (C := cache_entries) (J := audit_event) :=
  (demo_handle "1" "adm" (R_disable_service_account "bot") demo_state).2.

(** Schedules of demo requests: one comes in, or the one at an index runs its
    next session. *)
Notation demo_config := (IamApi.api_state (C := cache_entries) (J := audit_event) * list (handler (C := cache_entries) (J := audit_event)))%type.
Inductive move : Type :=
| Comes (n u : string) (rq : iam_request)
| Runs (i : nat).

Definition perform (c : demo_config) (m : move) : demo_config :=
  match m with
  | Comes n u rq => (c.1, handler_of 60 demo_encoded demo_hmac (demo_env n) (demo_caller u) rq :: c.2)
  | Runs i => match c.2 !! i with
              | Some (Session f) => ((f c.1).2, <[i := (f c.1).1]> c.2)
              | _ => c
              end
  end.

Definition homesb (h : home) (t : iam_tables) : bool :=
  forallb (fun p => String.eqb (home_sa h p.1) (sac_org_id p.2)) (it_service_accounts t)
  && forallb (fun p => String.eqb (home_map h p.1) (map_target_org_id p.2)) (it_mappings t).

Lemma homesb_homes h t : homesb h t = true -> homes h t.
Proof.
  intros [Ha Hm]%andb_true_iff. split.
  - unfold sa_org. intros id o Ho. destruct (dict_get id _) as [r|] eqn:Hr; [|done]. injection Ho as <-.
    by apply String.eqb_eq, (forallb_get _ _ _ _ Ha Hr).
  - intros i r Hr. by apply String.eqb_eq, (forallb_get _ _ _ _ Hm Hr).
Qed.

Fixpoint homesb_along (h : home) (c : demo_config) (l : list move) : bool :=
  match l with
  | [] => true
  | m :: l => homesb h (as_tables (perform c m).1) && homesb_along h (perform c m) l
  end.

Lemma perform_runs h l c :
  homesb_along h c l = true -> star (home_step 60 demo_encoded demo_decoded demo_hmac h) c (foldl perform c l).
Proof.
  revert c. induction l as [|m l IH]; intros [s pool]; [by intros _|]. cbn [homesb_along foldl].
  intros [Hb%homesb_homes Hl]%andb_true_iff. specialize (IH _ Hl).
  assert (iam_step 60 demo_encoded demo_decoded demo_hmac (s, pool) (perform (s, pool) m) \/ perform (s, pool) m = (s, pool)) as [Hst|E].
  - destruct m as [n u rq|i]; [left; apply is_request|]. simpl. destruct (pool !! i) as [[|f]|] eqn:Hi; [by right| |by right].
    left. rewrite insert_take_drop by (by eapply lookup_lt_Some). rewrite <-(take_drop_middle _ _ _ Hi) at 1.
    apply is_session. by destruct (f s).
  - eapply star_step; [|exact IH]. by split.
  - by rewrite E in IH |- *.
Qed.

(** A role binding is created for [bot] while [bot] is deleted: the account is
    found, then deleted, then bound. *)
Definition demo_race : list move :=
  [Comes "1" "adm" (R_create_role_binding "bot" "r_admin" None); Runs 0; Runs 0;
   Comes "2" "adm" (R_delete_service_account "bot"); Runs 0; Runs 0; Runs 0; Runs 0; Runs 1; Runs 1].

Definition demo_raced : demo_config := foldl perform (demo_state, []) demo_race.

(** The binding is left behind: its principal is no account. *)
Example binding_outlives_account :
  sa_org (as_tables demo_raced.1) "bot" = None
  /\ binding_key <$> dict_get "id-1" (it_role_bindings (as_tables demo_raced.1))
     = Some ("org", "service_account", "bot", "r_admin")
  /\ exists row, demo_raced.2 = [Answer NoContent; Answer (RoleBindingResponse "id-1" row)].
Proof. split_and!; [vm_compute; reflexivity..|]. eexists. vm_compute. reflexivity. Qed.

Lemma iam_tables_well_formed_witness :
  length (it_role_bindings (as_tables demo_raced.1)) = 3%nat
  /\ tables_wf (as_tables demo_raced.1) /\ bindings_home (home_of demo_tables) (as_tables demo_raced.1)
  /\ iam_wf (view (as_tables demo_raced.1)).
Proof.
  split; [vm_compute; reflexivity|].
  apply (iam_tables_well_formed 60 demo_encoded demo_decoded demo_hmac (home_of demo_tables) demo_state demo_raced.1 demo_raced.2
    demo_tables_wf (home_of_homes demo_tables) demo_bindings_home).
  rewrite <-surjective_pairing. apply perform_runs. vm_compute. reflexivity.
Defined.


Lemma iam_requests_isolated_witness :
  org_rows "other" (as_tables demo_disabled) = org_rows "other" demo_tables
  /\ length (org_rows "other" demo_tables).1.1.1.2 = 1%nat.
Proof.
  split; [|reflexivity].
  destruct (demo_handle "1" "adm" (R_disable_service_account "bot") demo_state) as [ans s'] eqn:Hh.
  assert (s' = demo_disabled) as <- by (unfold demo_disabled; by rewrite Hh).
  refine (proj1 (iam_requests_isolated 60 demo_encoded demo_hmac (home_of demo_tables) (demo_env "1") (demo_caller "adm")
    (R_disable_service_account "bot") demo_state ans s' "other" demo_tables_wf (home_of_homes demo_tables) demo_bindings_home _ Hh)). discriminate.
Defined.

Definition demo_bot : subject := mk_subject "org" "service_account" "bot".
Definition demo_bot_ctx : tenant_context :=
  mk_tenant "org" (mk_principal "service_account" "bot" None) "api_key" None.

(** The disable request, with nothing in between. *)
Lemma demo_disable_answered :
  exists ans, is_error ans = false
    /\ answered (spares demo_bot) (handler_of 60 demo_encoded demo_hmac (demo_env "1") (demo_caller "adm")
         (R_disable_service_account "bot")) demo_state ans demo_disabled.
Proof.
  assert (tables_wf (as_tables demo_disabled)) as Hwf.
  { eapply (handle_wf 60 demo_encoded demo_hmac (demo_env "1") (demo_caller "adm") (R_disable_service_account "bot") demo_state);
      [apply surjective_pairing|apply demo_tables_wf]. }
  exists (demo_handle "1" "adm" (R_disable_service_account "bot") demo_state).1. split; [vm_compute; reflexivity|].
  apply answered_alone.
  assert (as_tables <$> session_states (handler_of 60 demo_encoded demo_hmac (demo_env "1") (demo_caller "adm")
    (R_disable_service_account "bot")) demo_state = [demo_tables; demo_tables; as_tables demo_disabled]) as E by (vm_compute; reflexivity).
  apply Forall_forall. intros s1 Hin. apply (list_elem_of_fmap_2 as_tables) in Hin. rewrite E in Hin.
  split; [|done]. repeat (apply elem_of_cons in Hin as [->|Hin]; [exact demo_tables_wf || exact Hwf|]). by apply elem_of_nil in Hin.
Qed.

(** Before the request the account runs agents on a cached decision; after it
    the next decision is a refusal. *)
Lemma revocation_immediate_witness :
  (authorize 60 demo_bot_ctx "runtime:run:create" None false (mk_clock 100 1000) (view demo_tables)
     (pc_empty : cache_entries)).1 = Ok tt
  /\ ~ active_principal (view (as_tables demo_disabled)) demo_bot
  /\ exists err, (authorize 60 demo_bot_ctx "runtime:run:create" None false (mk_clock 101 1001)
       (view (as_tables demo_disabled)) (as_cache demo_disabled)).1 = Err err.
Proof.
  split; [vm_compute; reflexivity|]. destruct demo_disable_answered as (ans & Ha & Hh).
  destruct (revocation_immediate 60 demo_encoded demo_hmac (demo_env "1") (demo_caller "adm") (R_disable_service_account "bot")
    demo_state demo_disabled ans "org" "service_account" "bot" eq_refl eq_refl) as [Hina Hdec]; [by repeat split; right|exact Hh|exact Ha|].
  split; [exact Hina|]. set (s0 := mk_sys (as_cache demo_disabled) (view (as_tables demo_disabled)) (mk_clock 101 1001) []).
  apply (Hdec [] (mk_clock 101 1001) [s0] s0 demo_bot_ctx).
  - intros y ps Hin. by apply elem_of_nil in Hin.
  - apply run_start.
  - by intros s1 ->%list_elem_of_singleton.
  - intros s1 ps _ Hin. by apply elem_of_nil in Hin.
  - reflexivity.
Defined.

(** ** The last administrator *)

(** [u] holds an unexpired binding to the role in the Org. *)
Definition live_holder (org role_id : string) (now : Z) (t : iam_tables) (u : string) : Prop :=
  exists p, p ∈ it_role_bindings t /\ rb_org_id (rbr_binding p.2) = org /\ rb_role_id (rbr_binding p.2) = role_id
    /\ rb_principal_type (rbr_binding p.2) = "user" /\ rb_principal_id (rbr_binding p.2) = u
    /\ (forall e, rb_expires_at (rbr_binding p.2) = Some e -> now < e).

Lemma count_bindings_pos org role_id excl now t :
  (0 < count_user_bindings_for_role org role_id excl now t)%nat
  <-> exists u, live_holder org role_id now t u /\ excl <> Some u.
Proof.
  unfold count_user_bindings_for_role. set (f := fun p : string * role_binding_row => _).
  assert (forall p, f p = true <-> rb_org_id (rbr_binding p.2) = org /\ rb_role_id (rbr_binding p.2) = role_id
    /\ rb_principal_type (rbr_binding p.2) = "user" /\ excl <> Some (rb_principal_id (rbr_binding p.2))
    /\ (forall e, rb_expires_at (rbr_binding p.2) = Some e -> now < e)) as Hf.
  { intros p. unfold f. rewrite !andb_true_iff, !String.eqb_eq.
    destruct (rb_expires_at (rbr_binding p.2)) as [e|], excl as [u|]; rewrite ?negb_true_iff, ?String.eqb_neq, ?Z.ltb_lt; naive_solver. }
  split.
  - destruct (List.filter f (it_role_bindings t)) as [|p l] eqn:E; simpl; [lia|]. intros _.
    assert (In p (List.filter f (it_role_bindings t))) as Hin by (rewrite E; by left).
    apply filter_In in Hin as [Hin Hp]. apply Hf in Hp as (? & ? & ? & ? & ?).
    exists (rb_principal_id (rbr_binding p.2)). split; [|done]. exists p. split; [by apply list_elem_of_In|done].
  - intros (u & (p & Hin & ? & ? & ? & <- & ?) & Hx).
    assert (In p (List.filter f (it_role_bindings t))) as Hp.
    { apply filter_In. split; [by apply list_elem_of_In|]. by apply Hf. }
    destruct (List.filter f _); [done|]. simpl. lia.
Qed.

(** The guard passes exactly when the user is not the only holder. *)
Lemma assert_not_last_admin_iff org role_id u now t :
  assert_not_last_admin org role_id u now t = true
  <-> (live_holder org role_id now t u -> exists v, v <> u /\ live_holder org role_id now t v).
Proof.
  unfold assert_not_last_admin.
  pose proof (count_bindings_pos org role_id (Some u) now t) as He.
  pose proof (count_bindings_pos org role_id None now t) as Hn.
  destruct (Nat.ltb_spec 0 (count_user_bindings_for_role org role_id (Some u) now t)) as [Hp|Hp].
  - split; [|done]. intros _ _. apply He in Hp as (v & Hv & Hne). exists v. split; [congruence|done].
  - rewrite Nat.eqb_eq. split.
    + intros Hz Hu. assert (0 < count_user_bindings_for_role org role_id None now t)%nat; [|lia]. apply Hn. by exists u.
    + intros Himp. destruct (count_user_bindings_for_role org role_id None now t) eqn:Hc; [done|]. exfalso.
      assert (exists v, v <> u /\ live_holder org role_id now t v) as (v & Hv & Hl).
      { assert (0 < S n)%nat as (v & Hv & _)%Hn by lia.
        destruct (decide (v = u)) as [->|]; [by apply Himp|by exists v]. }
      assert (0 < count_user_bindings_for_role org role_id (Some u) now t)%nat; [|lia].
      apply He. exists v. split; [done|congruence].
Qed.

Lemma set_membership_status_bindings org u status t row t' :
  set_membership_status org u status t = Ok (row, t') -> it_role_bindings t' = it_role_bindings t.
Proof. unfold set_membership_status. intros. by repeat case_match; simplify_eq/=. Qed.

Section last_admin.
Context {C : Type} `{PermissionCache C}.
Context (ttl_seconds : Z).
Context {J : Type} (encode : audit_event -> J).
Context (hmac : string -> option string).
Notation api_state := (IamApi.api_state (C := C) (J := J)).
Notation handle := (IamApi.handle (C := C) ttl_seconds encode hmac).

Lemma finish_ok e r action org rt rid payload t' (s : api_state) inv ans0 ans s' :
  alone (finish (class_a encode e r action org rt rid payload t' s) (Some inv) ans0 s) = (ans, s') -> is_error ans = false ->
  as_tables s' = t'.
Proof.
  intros [(_ & -> & _)|(s1 & Hs1 & _ & Ht & _)]%finish_cases Ha; [done|].
  apply class_a_commits in Hs1 as [(Ht1 & _) _]. by rewrite Ht, Ht1.
Qed.

(** The last administrator cannot be suspended.  A suspend request that
    is answered with success has suspended the member and, when the builtin
    administrator role exists and the member holds it, some other user holds an
    unexpired binding to it in the Org, before and after; a request against
    the only holder is refused with a 409 and changes nothing. *)
Theorem last_admin_protected e r user_id (s s' : api_state) ans org role_id :
  org_of r = Some org -> org_admin_role_id (as_tables s) = Some role_id ->
  handle e r (R_suspend_member user_id) s = (ans, s') ->
  (is_error ans = false -> live_holder org role_id (ck_utc (en_clock e)) (as_tables s) user_id ->
     exists v, v <> user_id /\ live_holder org role_id (ck_utc (en_clock e)) (as_tables s') v)
  /\ (live_holder org role_id (ck_utc (en_clock e)) (as_tables s) user_id ->
      (forall v, live_holder org role_id (ck_utc (en_clock e)) (as_tables s) v -> v = user_id) ->
      is_error ans = true /\ as_tables s' = as_tables s).
Proof.
  intros Ho Hrole Hh.
  apply with_rbac_cases in Hh as [[Ha ->]|(o & Ho' & Hh & _)]; [by rewrite Ha|].
  rewrite Ho in Ho'. injection Ho' as <-. simpl in Hh. rewrite Hrole, alone_next in Hh. simpl as_tables in Hh.
  destruct (assert_not_last_admin _ _ _ _ _) eqn:Hg.
  - pose proof (proj1 (assert_not_last_admin_iff _ _ _ _ _) Hg) as Hg2. split.
    + intros Ha Hu. destruct (Hg2 Hu) as (v & Hv & Hl). exists v. split; [done|].
      rewrite alone_next in Hh. unfold change_membership in Hh.
      destruct (set_membership_status _ _ _ _) as [[[id row] t1]|] eqn:Hs; [|by unfold alone in Hh; simplify_eq/=].
      apply finish_ok in Hh as Ht; [|done]. unfold live_holder. rewrite Ht.
      by rewrite (set_membership_status_bindings _ _ _ _ _ _ Hs).
    + intros Hu Honly. destruct (Hg2 Hu) as (v & Hv & Hl). destruct Hv. by apply Honly.
  - unfold alone in Hh. simplify_eq/=. split; [done|]. done.
Qed.
End last_admin.

(** [adm] suspends [adm2]: the other holder is [adm] itself. *)
Lemma last_admin_protected_witness :
  is_error (demo_handle "1" "adm" (R_suspend_member "adm2") demo_state).1 = false
  /\ exists v, v <> "adm2" /\ live_holder "org" "r_admin" 1000
       (as_tables (demo_handle "1" "adm" (R_suspend_member "adm2") demo_state).2) v.
Proof.
  destruct (demo_handle "1" "adm" (R_suspend_member "adm2") demo_state) as [ans s'] eqn:Hh.
  assert (is_error ans = false) as Ha by (change ans with (ans, s').1; rewrite <-Hh; vm_compute; reflexivity).
  split; [exact Ha|].
  apply (proj1 (last_admin_protected 60 demo_encoded demo_hmac (demo_env "1") (demo_caller "adm") "adm2" demo_state s' ans
    "org" "r_admin" eq_refl eq_refl Hh) Ha).
  exists ("b2", demo_user_binding "adm2" "r_admin"). split_and!; try reflexivity; [right; left|]. intros x E. discriminate E.
Defined.

(** ** Deviations from the documented rules *)

Definition active_member (u : string) (t : iam_tables) : Prop :=
  iam_memberships (view t) !! ("org", u) = Some "active".

(** The guard counts bindings, not active members: after [adm] has suspended
    [adm2] and then itself, both with success, every holder of the
    administrator role is suspended. *)
Definition demo_no_admin : IamApi.api_state (C := cache_entries) (J := audit_event) :=
  (demo_handle "2" "adm" (R_suspend_member "adm")
     (demo_handle "1" "adm" (R_suspend_member "adm2") demo_state).2).2.

Example suspended_admins_still_count :
  is_error (demo_handle "2" "adm" (R_suspend_member "adm")
     (demo_handle "1" "adm" (R_suspend_member "adm2") demo_state).2).1 = false
  /\ (forall u, live_holder "org" "r_admin" 1000 (as_tables demo_no_admin) u -> ~ active_member u (as_tables demo_no_admin)).
Proof.
  split; [vm_compute; reflexivity|]. intros u (p & Hin & _ & Hr & _ & Hu & _) Hact.
  assert (it_role_bindings (as_tables demo_no_admin) = it_role_bindings demo_tables) as E by (vm_compute; reflexivity).
  rewrite E in Hin. simpl in Hin. set_unfold in Hin.
  destruct Hin as [-> |[-> |[-> |[]]]]; simpl in *; subst u; [vm_compute in Hact; discriminate Hact..|discriminate Hr].
Qed.

(** The delete endpoint of a service account's bindings removes any binding of
    the Org by its id: here the administrator binding of [adm2], whose cached
    permissions stay, since the account's entry is the one invalidated. *)
Example sa_endpoint_deletes_user_binding :
  let s' := (demo_handle "1" "adm" (R_delete_role_binding "bot" "b2") demo_state).2 in
  (demo_handle "1" "adm" (R_delete_role_binding "bot" "b2") demo_state).1 = NoContent
  /\ dict_get "b2" (it_role_bindings (as_tables s')) = None
  /\ binding_key <$> dict_get "b2" (it_role_bindings demo_tables) = Some ("org", "user", "adm2", "r_admin").
Proof. split_and!; vm_compute; reflexivity. Qed.

(** A rename onto an existing name is not caught: a 500, where creation
    answers 409. *)
Definition demo_two_bots : IamApi.api_state (C := cache_entries) (J := audit_event) :=
  (demo_handle "1" "adm" (R_create_service_account (mk_sa_create "bot2" None None None None None None)) demo_state).2.

Example rename_collision_is_500 :
  (demo_handle "2" "adm" (R_update_service_account "id-1" [("name", JStr "bot")]) demo_two_bots).1 = INTERNAL_ERROR
  /\ (demo_handle "2" "adm" (R_create_service_account (mk_sa_create "bot" None None None None None None)) demo_two_bots).1
     = HttpError 409 "ServiceAccount already exists in this organization.".
Proof. split; vm_compute; reflexivity. Qed.

(** Minting checks the scopes against the registry only: the developer account
    gets a key scoped to IAM administration, and any expiry is taken. *)
Example mint_beyond_account_permissions :
  exists k plaintext,
    (demo_handle "1" "adm" (R_mint_api_key "bot" ["admin:iam:manage"] (10 * 365 * 86400 * 1000000)) demo_state).1
      = ApiKeyCreateResponse k plaintext
    /\ kr_scopes k = ["admin:iam:manage"] /\ kr_expires_at k = 10 * 365 * 86400 * 1000000
    /\ (authorize 60 demo_bot_ctx "admin:iam:manage" None true (mk_clock 100 1000) (view demo_tables)
          (pc_empty : cache_entries)).1 <> Ok tt.
Proof. do 2 eexists. split_and!; [vm_compute; reflexivity..|vm_compute; discriminate]. Qed.

(** A change made with an API key is audited as made by a user whose id is the
    service account's. *)
Definition demo_bot_caller : http_request :=
  mk_http_request false (Some (mk_tenant "org" (mk_principal "service_account" "bot" None) "api_key" None))
    (Some ("bot", "user")) "" None.

Example api_key_change_audited_as_user :
  let ev := build_audit_event (demo_env "1") demo_bot_caller "iam.api_key.revoked" "org" "api_key" "k" [] in
  ae_actor_type ev = "user" /\ ae_actor_user_id ev = Some "bot"
  /\ pr_type <$> (tc_principal <$> hr_tenant demo_bot_caller) = Some "service_account".
Proof. split_and!; reflexivity. Qed.
