(* ===== verification/AuthProps.v ===== *)
(** * Authentication: who a request acts for

    The credential paths of [Auth] against the tables of [Iam]: when an API key
    authenticates, what a stamped request proves, which Org and which user a
    request is bound to, and the life of a key from its minting ([IamApi]) to
    its revocation. *)
From S2P Require Import Prelude PyString Outbox Authorize AuthorizeProps Iam OidcMapping Auth IamApi IamProps OidcProps IamApiProps.
Local Open Scope string_scope.
Local Open Scope Z_scope.
Local Open Scope list_scope.

(** ** Keys *)

Lemma startswith_drop p s : startswith p s = true -> s = p +:+ str_drop (String.length p) s.
Proof.
  unfold startswith. revert s. induction p as [|a p IH]; intros s Hp; [by destruct s|].
  destruct s as [|b s]; [done|]. simpl in Hp. destruct (Ascii.ascii_dec a b) as [->|]; [|done].
  exact (f_equal (String b) (IH s Hp)).
Qed.

(** A plaintext verifies against its own hash and against nothing else. *)
Lemma verify_api_key_true hmac plaintext stored :
  verify_api_key hmac plaintext stored = Some true -> plaintext <> "" /\ hash_api_key hmac plaintext = Some stored.
Proof.
  unfold verify_api_key, hash_api_key.
  destruct (String.eqb_spec plaintext ""); [done|]. destruct (String.eqb_spec stored ""); [done|]. simpl.
  destruct (startswith PREFIX_V1 stored) eqn:Hs; [|done]. simpl.
  destruct (hmac plaintext) as [d|]; [|done]. intros [Hd _]%compare_digest_true. split; [done|].
  simpl. f_equal. rewrite (startswith_drop _ _ Hs), Hd. done.
Qed.

(** The keyed hash is hexadecimal, hence plain ASCII. *)
Definition hex_digests (hmac : string -> option string) : Prop := forall s d, hmac s = Some d -> is_ascii d = true.

Lemma verify_api_key_own hmac plaintext stored :
  hex_digests hmac -> plaintext <> "" -> hash_api_key hmac plaintext = Some stored ->
  verify_api_key hmac plaintext stored = Some true.
Proof.
  intros Hhex Hne Hh. unfold verify_api_key, hash_api_key in *. destruct (String.eqb_spec plaintext ""); [done|].
  destruct (hmac plaintext) as [d|] eqn:Hd; [|done]. simpl in Hh. injection Hh as <-.
  destruct (String.eqb_spec (PREFIX_V1 +:+ d) "") as [E|]; [done|]. simpl negb. cbv iota.
  rewrite startswith_app. simpl. apply compare_digest_true. split; [done|]. by apply (Hhex plaintext).
Qed.

(** The conditions under which a key authenticates, at the instant and in the
    time zone of [e]. *)
Definition key_valid (e : auth_env) (raw key_id : string) (row : api_key_row) (sa : service_account_row)
    (t : iam_tables) : Prop :=
  dict_get key_id (it_api_keys t) = Some row
  /\ ak_key_prefix row = str_take prefix_len raw
  /\ hash_api_key (av_hmac e) raw = Some (ak_key_hash row)
  /\ av_now e < coerce_utc e (ak_expires_at row)
  /\ (forall rv, ak_revoked_at row = Some rv -> av_now e < coerce_utc e rv)
  /\ dict_get (ak_service_account_id row) (it_service_accounts t) = Some sa
  /\ sac_status sa = SERVICE_ACCOUNT_ACTIVE.

Definition key_state (key_id : string) (row : api_key_row) : request_state :=
  mk_state (ak_service_account_id row) "user" None AUTH_SOURCE_API_KEY
    (Some (key_id, ak_org_id row, list_to_set (ak_scopes row), ak_service_account_id row)).

Lemma find_unique {V} (f : string * V -> bool) (d : list (string * V)) k v :
  (k, v) ∈ d -> f (k, v) = true -> (forall p, p ∈ d -> f p = true -> p = (k, v)) ->
  List.find f d = Some (k, v).
Proof.
  intros Hin Hf Hu. destruct (List.find f d) as [p|] eqn:Hp.
  - apply find_some in Hp as [Hp1 Hp2]. f_equal. apply Hu; [by apply list_elem_of_In|done].
  - apply list_elem_of_In in Hin. by rewrite (List.find_none _ _ Hp _ Hin) in Hf.
Qed.

Lemma get_api_key_by_prefix_iff prefix t k row :
  tables_wf t ->
  get_api_key_by_prefix prefix t = Some (k, row) <-> dict_get k (it_api_keys t) = Some row /\ ak_key_prefix row = prefix.
Proof.
  intros Hwf. destruct (twf_keys _ Hwf) as (Hd & _ & Hu). unfold get_api_key_by_prefix. split.
  - intros [Hin Hf]%find_some. simpl in Hf. apply String.eqb_eq in Hf. split; [|done].
    apply dict_get_elem; [done|by apply list_elem_of_In].
  - intros [Hk Hp]. apply find_unique.
    + by apply dict_get_Some_elem.
    + simpl. by apply String.eqb_eq.
    + intros [k' row'] Hin Hf. simpl in Hf. apply String.eqb_eq in Hf.
      apply dict_get_elem in Hin; [|done]. assert (k' = k) as -> by (eapply Hu; [exact Hin|exact Hk|congruence]).
      by simplify_eq.
Qed.

Lemma active_or_disabled s : s ∈ ALLOWED_STATUSES -> String.eqb s "disabled" = false <-> s = SERVICE_ACCOUNT_ACTIVE.
Proof.
  intros Hs. rewrite String.eqb_neq. split; [|by intros ->].
  unfold ALLOWED_STATUSES in Hs. set_unfold in Hs. naive_solver.
Qed.

Lemma presented_key_nonempty r raw : presented_key r = Some raw -> raw <> "".
Proof.
  unfold presented_key. generalize (match rq_x_api_key r with Some k => if String.eqb k "" then strip_bearer (rq_authorization r) else k
    | None => strip_bearer (rq_authorization r) end). intros raw0.
  destruct (String.eqb_spec raw0 ""); [done|]. destruct (_ && _); [done|]. congruence.
Qed.

(** The API-key path accepts only the valid keys. *)
Lemma resolve_api_key_sound e r t st :
  tables_wf t -> resolve_api_key e r t = Authenticated st ->
  exists raw key_id row sa, presented_key r = Some raw /\ (prefix_len <= String.length raw)%nat
    /\ key_valid e raw key_id row sa t /\ st = key_state key_id row.
Proof.
  intros Hwf. unfold resolve_api_key. destruct (presented_key r) as [raw|]; [|done]. destruct (negb (av_persistence e)); [done|].
  destruct (Nat.ltb_spec (String.length raw) prefix_len) as [Hlen|Hlen]; [done|].
  destruct (get_api_key_by_prefix (str_take prefix_len raw) t) as [[k row]|] eqn:Hk; [|done].
  apply get_api_key_by_prefix_iff in Hk as [Hk Hpx]; [|done].
  destruct (verify_api_key _ _ _) as [[]|] eqn:Hv; [|done..].
  destruct (Z.leb_spec (coerce_utc e (ak_expires_at row)) (av_now e)); [done|].
  destruct (match ak_revoked_at row with Some _ => _ | None => _ end) eqn:Hrv; [done|]. unfold get_service_account.
  destruct (dict_get (ak_service_account_id row) _) as [sa|] eqn:Hsa; [|done].
  destruct (String.eqb_spec (sac_org_id sa) (ak_org_id row)); [|done]. simpl.
  destruct (String.eqb (sac_status sa) "disabled") eqn:Hst; [done|]. intros [= <-].
  apply verify_api_key_true in Hv as [_ Hv]. exists raw, k, row, sa. unfold key_valid. split_and!; try done.
  - intros rv Hr. rewrite Hr in Hrv. lia.
  - apply active_or_disabled; [|done]. pose proof (twf_service_accounts _ Hwf) as (_ & HPs & _). by destruct (HPs _ _ Hsa).
Qed.

(** ... and all of them. *)
Lemma resolve_api_key_complete e r t raw k row sa :
  tables_wf t -> av_persistence e = true -> hex_digests (av_hmac e) ->
  presented_key r = Some raw -> (prefix_len <= String.length raw)%nat -> key_valid e raw k row sa t ->
  resolve_api_key e r t = Authenticated (key_state k row).
Proof.
  intros Hwf Hp Hhex Hraw Hlen (Hd & Hpx & Hh & Hx & Hrv & Hsa & Hst). unfold resolve_api_key. rewrite Hraw, Hp. simpl negb. cbv iota.
  destruct (Nat.ltb_spec (String.length raw) prefix_len); [lia|].
  rewrite (proj2 (get_api_key_by_prefix_iff _ t k row Hwf)) by done.
  rewrite verify_api_key_own; [|done|by apply (presented_key_nonempty r)|done].
  destruct (Z.leb_spec (coerce_utc e (ak_expires_at row)) (av_now e)); [lia|].
  assert (match ak_revoked_at row with Some rv => coerce_utc e rv <=? av_now e | None => false end = false) as ->.
  { destruct (ak_revoked_at row) as [rv|]; [|done]. specialize (Hrv rv eq_refl). lia. }
  unfold get_service_account. pose proof (twf_keys _ Hwf) as (_ & HPk & _). specialize (HPk _ _ Hd).
  rewrite Hsa. unfold sa_org in HPk. rewrite Hsa in HPk. simpl in HPk. injection HPk as ->.
  rewrite String.eqb_refl, Hst. done.
Qed.

(** An API key decides.  On a path that is not public, a request that
    presents an API key is stamped exactly when the key is valid (a stored row
    of that prefix whose hash is the keyed hash of the whole credential, not
    expired, not revoked, of an active service account), and then with that
    key's Org, scopes and account; in every other case it is answered here, or
    raises on a stored hash that is no ASCII text: no other credential of the
    request is tried. *)
Theorem api_key_decides e r t raw :
  tables_wf t -> av_persistence e = true -> hex_digests (av_hmac e) ->
  is_public (rq_path r) = false -> presented_key r = Some raw ->
  (exists key_id row sa, (prefix_len <= String.length raw)%nat /\ key_valid e raw key_id row sa t
     /\ dispatch_auth e r t = (Stamped (key_state key_id row), Some key_id, t))
  \/ (~ (exists key_id row sa, (prefix_len <= String.length raw)%nat /\ key_valid e raw key_id row sa t)
      /\ ((exists code d, dispatch_auth e r t = (AuthResponse code d, None, t))
          \/ dispatch_auth e r t = (AuthRaises "TypeError", None, t))).
Proof.
  intros Hwf Hp Hhex Hpub Hraw. unfold dispatch_auth. rewrite Hpub.
  assert ((forall st, resolve_api_key e r t <> Authenticated st) ->
    ~ exists key_id row sa, (prefix_len <= String.length raw)%nat /\ key_valid e raw key_id row sa t) as Hno.
  { intros Hn (k & row & sa & Hlen & Hv). by eapply Hn, resolve_api_key_complete. }
  destruct (resolve_api_key e r t) as [|x|code d|st] eqn:Hres.
  - exfalso. unfold resolve_api_key in Hres. rewrite Hraw, Hp in Hres. simpl in Hres.
    unfold authentication_invalid in Hres. repeat case_match; congruence.
  - right. split; [by apply Hno|]. right. unfold resolve_api_key, authentication_invalid in Hres. repeat case_match; congruence.
  - right. split; [by apply Hno|]. left. eauto.
  - left. apply resolve_api_key_sound in Hres as (raw' & k & row & sa & Hraw' & Hlen & Hv & ->); [|done..].
    simplify_eq. exists k, row, sa. done.
Qed.

(** ** From minting to authentication *)

Section keys.
Context {C : Type} `{PermissionCache C}.
Context (ttl_seconds : Z).
Context {J : Type} (encode : audit_event -> J) (decode : J -> option audit_event).
Context (hmac : string -> option string).

Notation api_state := (IamApi.api_state (C := C) (J := J)).
Notation handle := (IamApi.handle (C := C) ttl_seconds encode hmac).
Notation iam_step := (IamApiProps.iam_step (C := C) ttl_seconds encode decode hmac).

Lemma generate_api_key_spec tok8 tok32 plaintext prefix hash :
  generate_api_key hmac tok8 tok32 = Some (plaintext, prefix, hash) -> (RANDOM_PREFIX_LEN <= String.length tok8)%nat ->
  prefix = str_take prefix_len plaintext /\ hash_api_key hmac plaintext = Some hash
  /\ startswith API_KEY_BEARER_PREFIX plaintext = true /\ (prefix_len <= String.length plaintext)%nat.
Proof.
  unfold generate_api_key. set (pl := DISPLAY_PREFIX +:+ _). intros Hg Hlen.
  assert (prefix_len <= String.length pl)%nat as Hpl.
  { unfold pl. rewrite !str_length_app, str_take_length_eq by done. unfold prefix_len. lia. }
  assert (startswith API_KEY_BEARER_PREFIX pl = true) as Hsw by exact (startswith_app DISPLAY_PREFIX _).
  clearbody pl. destruct (hash_api_key hmac pl) as [h|] eqn:Hh; [|done]. by simplify_eq/=.
Qed.

Lemma attempt_insert_Ok e tokens org sa scopes x t plaintext row t' :
  attempt_insert hmac e tokens org sa scopes x t = Some (Ok (plaintext, (row, t'))) ->
  (RANDOM_PREFIX_LEN <= String.length tokens.1)%nat ->
  create_api_key (en_row_id e) org sa (str_take prefix_len plaintext) (ak_key_hash row) scopes x (ck_utc (en_clock e)) t = Ok (row, t')
  /\ hash_api_key hmac plaintext = Some (ak_key_hash row) /\ (prefix_len <= String.length plaintext)%nat
  /\ startswith API_KEY_BEARER_PREFIX plaintext = true.
Proof.
  unfold attempt_insert. destruct (generate_api_key _ _ _) as [[[pl px] h]|] eqn:Hg; [|done].
  destruct (create_api_key _ _ _ _ _ _ _ _ _) as [[row0 t0]|] eqn:Hc; [|done].
  intros [= -> -> ->] Hlen. destruct (generate_api_key_spec _ _ _ _ _ Hg Hlen) as (-> & Hh & ? & ?).
  pose proof (create_api_key_Ok _ _ _ _ _ _ _ _ _ _ _ Hc) as (-> & _). done.
Qed.

(** What a successful mint leaves behind. *)
Lemma mint_ok e r sa_id scopes x (s s' : api_state) k plaintext :
  (RANDOM_PREFIX_LEN <= String.length (en_tokens e).1)%nat ->
  (RANDOM_PREFIX_LEN <= String.length (en_tokens_retry e).1)%nat ->
  handle e r (R_mint_api_key sa_id scopes x) s = (ApiKeyCreateResponse k plaintext, s') ->
  exists org row, org_of r = Some org /\ sa_org (as_tables s) sa_id = Some org
    /\ create_api_key (en_row_id e) org sa_id (str_take prefix_len plaintext) (ak_key_hash row) scopes x
         (ck_utc (en_clock e)) (as_tables s) = Ok (row, as_tables s')
    /\ hash_api_key hmac plaintext = Some (ak_key_hash row) /\ (prefix_len <= String.length plaintext)%nat
    /\ startswith API_KEY_BEARER_PREFIX plaintext = true
    /\ k = to_api_key_response (en_row_id e) row.
Proof.
  intros Hl1 Hl2 Hh. apply with_rbac_cases in Hh as [[? _]|(org & Ho & Hh & _)]; [done|].
  destruct (org_service_account _ _ _) as [sa|] eqn:Hsa; [|by unfold alone in Hh; simplify_eq/=].
  apply org_service_account_Some in Hsa as [Hsa _].
  destruct (validate_scopes scopes) as [err|] eqn:Hv.
  { exfalso. unfold validate_scopes in Hv. unfold alone in Hh. repeat case_match; simplify_eq/=. }
  rewrite alone_next in Hh.
  destruct (insert_with_retry _ _ _ _ _ _ _) as [[[pl [row t']]|[]]|] eqn:Hi; [|by unfold alone in Hh; simplify_eq/=..].
  apply finish_cases in Hh as [(_ & ? & _)|(s1 & Hs1 & [= -> ->] & Ht & _)]; [done|].
  apply class_a_commits in Hs1 as [[Ht1 _] _]. rewrite Ht, Ht1. exists org, row. split_and!; [done|done|..].
  all: unfold insert_with_retry in Hi.
  all: destruct (attempt_insert _ _ (en_tokens e) _ _ _ _ _) as [[p1|[]]|] eqn:E1; simplify_eq;
    [destruct (attempt_insert_Ok _ _ _ _ _ _ _ _ _ _ E1 Hl1) as (? & ? & ? & ?)
    |destruct (attempt_insert_Ok _ _ _ _ _ _ _ _ _ _ Hi Hl2) as (? & ? & ? & ?)]; done.
Qed.

(** Mint, then authenticate.  The plaintext a mint request answers with
    (the tables hold only its hash) authenticates, presented in the
    [X-Api-Key] header, until it expires: the stamped request is bound to the
    Org of the service account, to the account as principal and to the scopes
    the key was minted with, whatever the tenancy phase. *)
Theorem mint_then_authenticate e r sa_id scopes x (s s' : api_state) k plaintext av rq phase default_org :
  tables_wf (as_tables s) ->
  (RANDOM_PREFIX_LEN <= String.length (en_tokens e).1)%nat ->
  (RANDOM_PREFIX_LEN <= String.length (en_tokens_retry e).1)%nat ->
  handle e r (R_mint_api_key sa_id scopes x) s = (ApiKeyCreateResponse k plaintext, s') ->
  (exists sa, dict_get sa_id (it_service_accounts (as_tables s')) = Some sa /\ sac_status sa = SERVICE_ACCOUNT_ACTIVE) ->
  sa_id <> "" -> av_hmac av = hmac -> hex_digests hmac -> av_persistence av = true -> av_local_offset av = None -> av_now av < x ->
  is_public (rq_path rq) = false -> rq_x_api_key rq = Some plaintext ->
  exists org st, org_of r = Some org
    /\ dispatch_auth av rq (as_tables s') = (Stamped st, Some (kr_id k), as_tables s')
    /\ resolve_tenant_context phase default_org true st (rq_owner_header rq) (as_tables s')
       = Some (mk_tenant org (mk_principal "service_account" sa_id None) "api_key" (Some (list_to_set scopes))).
Proof.
  intros Hwf Hl1 Hl2 Hh (sa & Hsa & Hact) Hne Hhm Hhex Hp Hoff Hnow Hpub Hx.
  destruct (mint_ok _ _ _ _ _ _ _ _ _ Hl1 Hl2 Hh) as (org & row & Ho & Hown & Hc & Hhash & Hlen & Hbp & ->).
  pose proof (create_api_key_Ok _ _ _ _ _ _ _ _ _ _ _ Hc) as (Hrow & Ht' & _ & _).
  assert (tables_wf (as_tables s')) as Hwf' by (by eapply handle_wf).
  assert (plaintext <> "") as Hpl by (intros ->; unfold prefix_len in Hlen; simpl in Hlen; lia).
  assert (presented_key rq = Some plaintext) as Hpres.
  { unfold presented_key. rewrite Hx. destruct (String.eqb_spec plaintext "") as [|_]; [done|].
    rewrite (proj2 (String.eqb_neq plaintext "")) by done. rewrite Hbp. by rewrite andb_false_r. }
  assert (key_valid av plaintext (en_row_id e) row sa (as_tables s')) as Hkv.
  { unfold key_valid, coerce_utc. rewrite Hoff, Hhm. split_and!; try done.
    - rewrite Ht'. simpl. apply dict_get_set_eq.
    - by rewrite Hrow.
    - by rewrite Hrow.
    - by rewrite Hrow.
    - by rewrite Hrow. }
  exists org, (key_state (en_row_id e) row). split; [done|]. split.
  - unfold dispatch_auth. rewrite Hpub.
    rewrite (resolve_api_key_complete av rq (as_tables s') plaintext (en_row_id e) row sa); try done. by rewrite Hhm.
  - assert (org <> "") as Horg.
    { unfold org_of in Ho. repeat case_match; simplify_eq. by apply String.eqb_neq. }
    rewrite Hrow. unfold resolve_tenant_context, resolve_principal, make_principal, make_tenant. simpl.
    by rewrite !(proj2 (String.eqb_neq _ "")) by done.
Qed.

(** ** Revoked keys *)

(** A revoked key stays revoked, at the same instant, as long as its row is
    there. *)
Lemma iam_write_revoked checked org t t' id r r' rv :
  iam_write checked org t t' -> tables_wf t -> dict_get id (it_api_keys t) = Some r -> ak_revoked_at r = Some rv ->
  dict_get id (it_api_keys t') = Some r' -> ak_revoked_at r' = Some rv.
Proof.
  intros Hw Hwf Hr Hrv Hr'. destruct Hw.
  - apply create_service_account_Ok in H0 as (_ & _ & _ & Hf).
    apply flush_service_account_Ok in Hf as (_ & -> & _). simpl in Hr'. congruence.
  - apply update_service_account_Ok in H0 as (r0 & _ & _ & _ & Hf).
    apply flush_service_account_Ok in Hf as (_ & -> & _). simpl in Hr'. congruence.
  - apply set_service_account_status_Ok in H0 as (r0 & _ & _ & _ & Hf).
    apply flush_service_account_Ok in Hf as (_ & -> & _). simpl in Hr'. congruence.
  - unfold delete_service_account in H1. repeat case_match; simplify_eq/=.
    apply dict_get_filter in Hr' as [Hr' _]; [|apply Hwf]. congruence.
  - apply create_role_binding_Ok in H1 as (_ & -> & _). simpl in Hr'. congruence.
  - apply delete_role_binding_Some in H0 as (_ & _ & ->). simpl in Hr'. congruence.
  - apply create_api_key_Ok in H1 as (_ & -> & Hn & _). simpl in Hr'. rewrite dict_get_set in Hr'.
    case_decide; congruence.
  - apply revoke_api_key_Some in H0 as (r0 & Hi & _ & [(_ & _ & ->)|(Hno & -> & ->)]); [congruence|].
    simpl in Hr'. rewrite dict_get_set in Hr'. case_decide; congruence.
  - unfold create_oidc_group_mapping in H0. destruct (dict_mem _ _); [done|].
    apply flush_mapping_Ok in H0 as (_ & -> & _). simpl in Hr'. congruence.
  - apply update_oidc_group_mapping_Ok in H0 as (r0 & _ & _ & Hf). apply flush_mapping_Ok in Hf as (_ & -> & _).
    simpl in Hr'. congruence.
  - apply delete_mapping_Some in H0 as (_ & _ & ->). simpl in Hr'. congruence.
  - unfold set_membership_status in H0. repeat case_match; simplify_eq/=; congruence.
  - congruence.
Qed.

Lemma touch_revoked id i now t r r' :
  dict_get i (it_api_keys t) = Some r -> dict_get i (it_api_keys (touch_api_key_last_used id now t)) = Some r' ->
  ak_revoked_at r' = ak_revoked_at r.
Proof.
  intros Hr. unfold touch_api_key_last_used. destruct (dict_get id _) as [r0|] eqn:Hid; [|congruence].
  destruct (match ak_last_used_at r0 with None => true | Some _ => _ end); [|congruence].
  simpl. rewrite dict_get_set. case_decide; [|congruence]. subst. intros [= <-]. by simplify_eq.
Qed.

Lemma login_keys t t' : login_write t t' -> it_api_keys t' = it_api_keys t.
Proof.
  intros [id o u role by_ now t0 b t1 He|id u iss sub prov claims t0].
  - by apply ensure_role_binding_Ok in He as (_ & (l & -> & _) & _).
  - by destruct (upsert_external_identity_frame id u iss sub prov claims t0) as [ids ->].
Qed.

Lemma boot_roles_keys fresh t : it_api_keys (ensure_builtin_roles fresh t) = it_api_keys t.
Proof.
  unfold ensure_builtin_roles. generalize BUILTIN_ROLE_PERMISSIONS. intros l. revert t.
  induction l as [|[name ps] l IH]; intros t; [done|]. simpl. rewrite IH. by destruct (find_system_role name t).
Qed.

Lemma home_step_revoked h c c' id r r' rv :
  home_step ttl_seconds encode decode hmac h c c' -> run_ok encode h c -> dict_get id (it_api_keys (as_tables c.1)) = Some r ->
  ak_revoked_at r = Some rv -> dict_get id (it_api_keys (as_tables c'.1)) = Some r' -> ak_revoked_at r' = Some rv.
Proof.
  intros [Hs Hh'] [Hwf Hh Hb Hp] Hr Hrv Hr'. destruct Hs; simpl in *; try congruence.
  - apply Forall_app in Hp as [_ [(e & q & dn & Hk) _]%Forall_cons]. specialize (Hk s (or_intror Hh)). rewrite H0 in Hk.
    destruct Hk as [(E & _)|(_ & org & t' & _ & Hw & [E _] & _)]; rewrite E in Hr'; [congruence|]. by eapply iam_write_revoked.
  - by rewrite (touch_revoked _ _ _ _ _ _ Hr Hr').
  - apply login_keys in H0. congruence.
  - unfold ensure_default_org in Hr'. destruct (dict_mem _ _); simpl in Hr'; congruence.
  - rewrite boot_roles_keys in Hr'. congruence.
  - unfold ensure_admin_membership in H0. repeat case_match; simplify_eq/=; congruence.
  - apply ensure_role_binding_Ok in H0 as (_ & (l & -> & _) & _). simpl in Hr'. congruence.
Qed.

(** The control plane without reuse of the generated id [id] of a key. *)
Definition step_without_reuse (h : home) (id : string) (c c' : api_state * list (handler (C := C) (J := J))) : Prop :=
  home_step ttl_seconds encode decode hmac h c c'
  /\ (dict_get id (it_api_keys (as_tables c.1)) = None -> dict_get id (it_api_keys (as_tables c'.1)) = None).

(** Revocation of a key is permanent.  After a successful revoke request
    the key's row says since when it is revoked (the instant of the request,
    when it was not revoked before), and through everything the control plane
    does from there on, the path never stamps a request with that key at or
    after that instant, on a database that keeps time zones or a host whose
    local time is not behind UTC. *)
Theorem revoked_key_never_authenticates e r sa_id key_id (s s1 : api_state) ans :
  tables_wf (as_tables s) -> handle e r (R_revoke_api_key sa_id key_id) s = (ans, s1) -> is_error ans = false ->
  exists row rv, dict_get key_id (it_api_keys (as_tables s1)) = Some row /\ ak_revoked_at row = Some rv
    /\ (forall row0, dict_get key_id (it_api_keys (as_tables s)) = Some row0 -> ak_revoked_at row0 = None -> rv = ck_utc (en_clock e))
    /\ forall h s2 pool, homes h (as_tables s1) -> bindings_home h (as_tables s1) ->
       star (step_without_reuse h key_id) (s1, []) (s2, pool) -> forall av rq st, rv <= av_now av -> (forall off, av_local_offset av = Some off -> 0 <= off) ->
         resolve_api_key av rq (as_tables s2) = Authenticated st ->
         forall k, rs_api_key st = Some k -> k.1.1.1 <> key_id.
Proof.
  intros Hwf Hh Ha.
  assert (tables_wf (as_tables s1)) as Hwf1.
  { by eapply handle_wf. }
  apply with_rbac_cases in Hh as [[? _]|(org & Ho & Hh & _)]; [congruence|].
  destruct (org_service_account _ _ _) as [sa|]; [|by unfold alone in Hh; simplify_eq/=].
  rewrite alone_next in Hh. unfold get_api_key in Hh. simpl as_tables in Hh.
  destruct (dict_get key_id _) as [key|] eqn:Hk; [|by unfold alone in Hh; simplify_eq/=].
  destruct (_ || _) eqn:Hg; [by unfold alone in Hh; simplify_eq/=|]. reflect_bools. rewrite alone_next in Hh.
  apply finish_ok in Hh as Ht; [|done]. change (as_tables (with_cache _ s)) with (as_tables s) in Ht.
  destruct (revoke_api_key_own key_id org (ck_utc (en_clock e)) (as_tables s) key) as [row Hrk]; [done..|].
  assert (exists rv, dict_get key_id (it_api_keys (as_tables s1)) = Some row /\ ak_revoked_at row = Some rv
            /\ (ak_revoked_at key = None -> rv = ck_utc (en_clock e))) as (rv & Hrow & Hrv & Hfirst).
  { rewrite Ht. pose proof (revoke_api_key_Some _ _ _ _ _ _ Hrk) as (r0 & Hr0 & _ & Hcase). simplify_eq.
    destruct Hcase as [([rv Hrv] & -> & E)|(Hno & -> & E)]; rewrite E.
    - exists rv. split_and!; [done..|]. congruence.
    - eexists. split_and!; [simpl; apply dict_get_set_eq|done|done]. }
  exists row, rv. split_and!; [done|done|naive_solver|].
  intros h s2 pool Hho Hbh Hs2.
  assert (run_ok encode h (s2, pool) /\ forall r', dict_get key_id (it_api_keys (as_tables s2)) = Some r' -> ak_revoked_at r' = Some rv)
    as [[Hwf2 _ _ _] Hinv].
  { pose (I := fun c : api_state * list (handler (C := C) (J := J)) => run_ok encode h c
      /\ forall r', dict_get key_id (it_api_keys (as_tables c.1)) = Some r' -> ak_revoked_at r' = Some rv).
    apply (star_invariant (step_without_reuse h key_id) I) with (s := (s1, [])); [|exact Hs2|split; [by split|naive_solver]].
    intros c c' [Hst Hnew] [Hok Hr1]. split; [by eapply home_step_ok|]. intros r' Hr'.
    destruct (dict_get key_id (it_api_keys (as_tables c.1))) as [r1|] eqn:E; [|by rewrite Hnew in Hr'].
    eapply home_step_revoked; eauto. }
  intros av rq st Hnow Hoff Hres k Hkst. apply resolve_api_key_sound in Hres as (raw & kid & row' & sa' & _ & _ & Hv & ->); [|done..].
  simpl in Hkst. injection Hkst as <-. simpl. intros ->. destruct Hv as (Hd & _ & _ & _ & Hvr & _).
  specialize (Hvr rv (Hinv _ Hd)). unfold coerce_utc in Hvr.
  destruct (av_local_offset av) as [off|]; [specialize (Hoff off eq_refl)|]; lia.
Qed.
End keys.

(** ** Sessions, internal callers and the bound tenant *)

(** What a stamped request proved. *)
Definition proved (e : auth_env) (r : raw_request) (t : iam_tables) (st : request_state) : Prop :=
  (rs_auth_source st = AUTH_SOURCE_API_KEY
   /\ exists raw key_id row sa, presented_key r = Some raw /\ key_valid e raw key_id row sa t /\ st = key_state key_id row)
  \/ (rs_auth_source st = AUTH_SOURCE_OIDC /\ rs_api_key st = None
      /\ exists cfg claims i row user, av_oidc e = Some cfg
         /\ verify_oidc_token e (strip_bearer (rq_authorization r)) cfg = Ok claims
         /\ (i, row) ∈ it_identities t /\ eid_issuer row = oc_iss claims /\ eid_subject row = oc_sub claims
         /\ eid_user_id row = rs_user_id st /\ dict_get (rs_user_id st) (av_users e) = Some user
         /\ us_system_role user = rs_system_role st)
  \/ (rs_auth_source st = AUTH_SOURCE_INTERNAL /\ st = internal_state
      /\ rq_internal_token r = Some (av_internal_token e) /\ av_internal_token e <> "")
  \/ (rs_auth_source st = AUTH_SOURCE_SESSION /\ rs_api_key st = None
      /\ exists tok ver user, rq_access_token r = Some tok /\ decode_token e tok = Ok (rs_user_id st, ver)
         /\ dict_get (rs_user_id st) (av_users e) = Some user /\ us_token_version user = ver
         /\ us_system_role user = rs_system_role st).

Lemma resolve_session_proved e r t st :
  resolve_session e r = Authenticated st -> proved e r t st \/ (av_auth_disabled e = true /\ st = auth_disabled_state).
Proof.
  unfold resolve_session, proved. destruct (is_valid_internal_auth_token e (rq_internal_token r)) as [[]|] eqn:Hin; [| |done].
  { intros [= <-]. left; right; right; left. unfold is_valid_internal_auth_token in Hin.
    destruct (rq_internal_token r) as [tok|]; [|done]. destruct (String.eqb_spec tok ""); [done|].
    apply compare_digest_true in Hin as [-> _]. done. }
  clear Hin. destruct (rq_access_token r) as [tok|]; [|destruct (av_auth_disabled e); [intros [= <-]; auto|done]].
  destruct (String.eqb tok ""); [destruct (av_auth_disabled e); [intros [= <-]; auto|done]|].
  destruct (current_user_from_cookie e tok) as [[id user]|[code d]] eqn:Hc;
    [|destruct (av_auth_disabled e); [intros [= <-]; auto|done]].
  unfold current_user_from_cookie in Hc. destruct (decode_token e tok) as [[sub ver]|] eqn:Hd; [|done].
  destruct (dict_get sub (av_users e)) as [user'|] eqn:Hu; [|done].
  destruct (us_token_version user' =? ver) eqn:Hv; [|done]. simplify_eq/=. intros [= <-]. reflect_bools.
  left; right; right; right; simpl; split_and!; try done; exists tok, ver, user; done.
Qed.

Lemma resolve_oidc_proved e r t st t' :
  resolve_oidc_bearer e (strip_bearer (rq_authorization r)) t = (Authenticated st, t') -> proved e r t st.
Proof.
  unfold resolve_oidc_bearer, proved. destruct (av_oidc e) as [cfg|] eqn:Hc; [|done].
  destruct (verify_oidc_token _ _ _) as [claims|] eqn:Hv; [|done]. destruct (negb _); [done|].
  destruct (List.find _ _) as [[i row]|] eqn:Hf; [|done].
  destruct (dict_get _ _) as [user|] eqn:Hu; [|done]. destruct (apply_group_mapping _ _ _ _ _ _ _ _ _) as [res t1].
  intros [= <- <-]. apply find_some in Hf as [Hin Hb]. simpl in Hb. reflect_bools.
  right; left. simpl. split_and!; [done..|]. exists cfg, claims, i, row, user. split_and!; try done. by apply list_elem_of_In.
Qed.

Lemma authentication_proved e r t st k t' :
  tables_wf t -> dispatch_auth e r t = (Stamped st, k, t') ->
  proved e r t st \/ (av_auth_disabled e = true /\ st = auth_disabled_state).
Proof.
  intros Hwf. unfold dispatch_auth. destruct (is_public _); [done|].
  destruct (resolve_api_key e r t) as [|x|code d|st0] eqn:Hres; [|done..|].
  2: { intros [= <- _ _]. apply resolve_api_key_sound in Hres as (raw & kid & row & sa & ? & ? & ? & ->); [|done..].
       left. left. split; [done|]. eauto 10. }
  destruct (if _ && _ then _ else _) as [oidc t1] eqn:Ho.
  destruct oidc as [|x|code d|st1]; [|done..|].
  - destruct (resolve_session e r) as [|x|code d|st2] eqn:Hs; [done..|]. intros [= <- _ _].
    by eapply resolve_session_proved.
  - intros [= <- _ _]. destruct (_ && _); [|done]. left. by eapply resolve_oidc_proved.
Qed.

(** The status codes of the middleware's own answers. *)
Lemma resolve_api_key_code e r t code d : resolve_api_key e r t = Rejected code d -> code = 401 \/ code = 403.
Proof. unfold resolve_api_key, authentication_invalid. intros. repeat case_match; simplify_eq; auto. Qed.

Lemma resolve_oidc_code e tok t code d t' : resolve_oidc_bearer e tok t = (Rejected code d, t') -> code = 401.
Proof. unfold resolve_oidc_bearer, authentication_invalid. intros. repeat case_match; simplify_eq; auto. Qed.

Lemma resolve_session_code e r code d : resolve_session e r = Rejected code d -> code = 401.
Proof. unfold resolve_session, current_user_from_cookie. intros. repeat case_match; simplify_eq; auto. Qed.

Lemma dispatch_response_code e r t code d k t' :
  dispatch_auth e r t = (AuthResponse code d, k, t') -> code = 401 \/ code = 403.
Proof.
  unfold dispatch_auth. destruct (is_public _); [done|].
  destruct (resolve_api_key e r t) eqn:Ha; [|done|intros; simplify_eq; by eapply resolve_api_key_code|done].
  destruct (if _ && _ then _ else _) as [oidc t1] eqn:Ho. destruct oidc; [|done|intros; simplify_eq|done].
  - destruct (resolve_session e r) eqn:Hs; intros; simplify_eq; auto. left. by eapply resolve_session_code.
  - destruct (_ && _); [|done]. left. by eapply resolve_oidc_code.
Qed.

(** The texts no comparison takes: an internal token, or a stored hash, with
    characters beyond ASCII. *)
Definition incomparable (e : auth_env) (r : raw_request) (t : iam_tables) : Prop :=
  (exists tok, rq_internal_token r = Some tok /\ compare_digest tok (av_internal_token e) = None)
  \/ exists raw key_id row, presented_key r = Some raw /\ (key_id, row) ∈ it_api_keys t
       /\ verify_api_key (av_hmac e) raw (ak_key_hash row) = None.

Lemma dispatch_raises e r t x k t' : dispatch_auth e r t = (AuthRaises x, k, t') -> incomparable e r t.
Proof.
  unfold dispatch_auth. destruct (is_public _); [done|].
  destruct (resolve_api_key e r t) as [|y| |] eqn:Ha; [| |done..].
  2: { intros _. right. unfold resolve_api_key in Ha. destruct (presented_key r) as [raw|]; [|done].
       destruct (negb _); [done|]. destruct (_ <? _)%nat; [done|].
       destruct (get_api_key_by_prefix _ _) as [[key_id row]|] eqn:Hk; [|done]. exists raw, key_id, row.
       apply find_some in Hk as [Hk _]. split; [done|]. split; [by apply list_elem_of_In|].
       destruct (verify_api_key _ _ _) as [[]|]; [|done..]. unfold authentication_invalid in Ha. repeat case_match; done. }
  destruct (if _ && _ then _ else _) as [oidc t1] eqn:Ho. destruct oidc as [|y| |]; [| |done..].
  - intros Hs. left. unfold resolve_session, is_valid_internal_auth_token in Hs.
    destruct (rq_internal_token r) as [tok|]; [|exfalso; repeat case_match; simplify_eq].
    exists tok. split; [done|]. destruct (String.eqb tok ""); [exfalso; repeat case_match; simplify_eq|].
    destruct (compare_digest tok (av_internal_token e)) as [[]|]; [exfalso; repeat case_match; simplify_eq..|done].
  - exfalso. destruct (_ && _); [|done]. unfold resolve_oidc_bearer, authentication_invalid in Ho. repeat case_match; simplify_eq.
Qed.

Lemma dispatch_not_public e r t k t' :
  is_public (rq_path r) = false -> dispatch_auth e r t <> (PublicPath, k, t').
Proof. intros Hp. unfold dispatch_auth. rewrite Hp. repeat case_match; congruence. Qed.

(** (C6) Authentication is fail-closed.  A request on a path that is not public
    leaves the middleware stamped only on a proof: a valid API key; a bearer
    token the identity provider's keys verify, of a subject linked to an
    existing user; the process's own internal token; or a session cookie of an
    existing user whose token version is the current one, so that a changed
    password ends every earlier session.  The stamp carries that principal and
    that user's role.  Without a proof it is stamped only when authentication
    is switched off, and then as the synthetic administrator.  Every other
    request is answered with a 401 or a 403, or ends in an exception (a 500),
    which happens only when a text that is compared in constant time, the
    internal-token header or a stored key hash, is not ASCII. *)
Theorem authentication_fail_closed e r t :
  tables_wf t -> is_public (rq_path r) = false ->
  (exists st, (dispatch_auth e r t).1.1 = Stamped st
     /\ (proved e r t st \/ (av_auth_disabled e = true /\ st = auth_disabled_state)))
  \/ (exists code d, (dispatch_auth e r t).1.1 = AuthResponse code d /\ (code = 401 \/ code = 403))
  \/ (exists x, (dispatch_auth e r t).1.1 = AuthRaises x /\ incomparable e r t).
Proof.
  intros Hwf Hpub. destruct (dispatch_auth e r t) as [[[|x|code d|st] k] t'] eqn:Hd; simpl.
  - exfalso. by eapply dispatch_not_public.
  - right; right. exists x. split; [done|]. by eapply dispatch_raises.
  - right; left. exists code, d. split; [done|]. by eapply dispatch_response_code.
  - left. exists st. split; [done|]. by eapply authentication_proved.
Qed.

Lemma trusted_owner_user st h : rs_system_role st <> INTERNAL_SYSTEM_ROLE -> trusted_owner st h = None.
Proof. intros Hn. unfold trusted_owner. by rewrite (proj2 (String.eqb_neq _ _) Hn). Qed.

(** The context of a request that came without an API key. *)
Lemma resolve_user_tenant phase default_org pers st h t tc :
  rs_auth_source st <> AUTH_SOURCE_API_KEY -> resolve_tenant_context phase default_org pers st h t = Some tc ->
  let u := opt_or (trusted_owner st h) (rs_user_id st) in
  tc_org_id tc <> "" /\ pr_type (tc_principal tc) = "user" /\ pr_user_id (tc_principal tc) = Some u
  /\ tc_api_key_scopes tc = None
  /\ ((phase = "disabled" /\ tc_org_id tc = default_org)
      \/ (exists m, get_active_membership u t = Ok (Some m) /\ tc_org_id tc = mem_org_id m)).
Proof.
  intros Hsrc Htc u. unfold resolve_tenant_context, resolve_principal, make_principal, make_tenant in Htc.
  rewrite (proj2 (String.eqb_neq _ _) Hsrc) in Htc. destruct (String.eqb (rs_user_id st) ""); [done|].
  fold u in Htc. destruct (String.eqb_spec phase "disabled").
  - destruct (String.eqb_spec default_org ""); [done|]. injection Htc as <-. simpl. split_and!; try done. by left.
  - destruct pers; [|done]. simpl in Htc. destruct (get_active_membership u t) as [[m|]|] eqn:Hm; [|done..].
    destruct (String.eqb_spec (mem_org_id m) ""); [done|]. injection Htc as <-. simpl. split_and!; try done. right. eauto.
Qed.

(** (C19) The Org and the user of a request are the server's.  When a stamped
    request is bound to a tenant context, its Org is the Org of the presented
    key's row, or the configured Org while multi-tenancy is disabled, or the
    Org of the user's one active membership, and never a value of the request;
    and the context acts for the authenticated user itself unless the request
    carried the internal token (no user row has the internal role). *)
Theorem tenant_is_trusted e r t st k t' phase default_org persistence tc :
  tables_wf t -> av_persistence e = true -> av_auth_disabled e = false ->
  (forall i u, dict_get i (av_users e) = Some u -> us_system_role u <> INTERNAL_SYSTEM_ROLE) ->
  dispatch_auth e r t = (Stamped st, k, t') ->
  resolve_tenant_context phase default_org persistence st (rq_owner_header r) t' = Some tc ->
  tc_org_id tc <> ""
  /\ ((exists raw key_id row sa, presented_key r = Some raw /\ key_valid e raw key_id row sa t
         /\ tc = mk_tenant (ak_org_id row) (mk_principal "service_account" (ak_service_account_id row) None)
                   "api_key" (Some (list_to_set (ak_scopes row))))
      \/ (exists u, pr_type (tc_principal tc) = "user" /\ pr_user_id (tc_principal tc) = Some u
          /\ tc_api_key_scopes tc = None
          /\ (u = rs_user_id st \/ rq_internal_token r = Some (av_internal_token e))
          /\ ((phase = "disabled" /\ tc_org_id tc = default_org)
              \/ (exists m, get_active_membership u t' = Ok (Some m) /\ tc_org_id tc = mem_org_id m)))).
Proof.
  intros Hwf Hp Hdis Hroles Hd Htc.
  pose proof (authentication_proved _ _ _ _ _ _ Hwf Hd) as [Hpr|[Hon _]]; [|congruence].
  destruct (String.eqb_spec (rs_auth_source st) AUTH_SOURCE_API_KEY) as [Hsrc|Hsrc].
  - destruct Hpr as [(_ & raw & kid & row & sa & Hraw & Hv & ->)|[(E & _)|[(E & _)|(E & _)]]]; [|by rewrite E in Hsrc..].
    unfold resolve_tenant_context, resolve_principal, make_principal, make_tenant in Htc. simpl in Htc.
    destruct (String.eqb (ak_service_account_id row) ""); [done|].
    destruct (String.eqb_spec (ak_org_id row) ""); [done|]. injection Htc as <-. split; [done|]. left. eauto 10.
  - destruct (resolve_user_tenant _ _ _ _ _ _ _ Hsrc Htc) as (Hne & Hty & Hu & Hsc & Horg). split; [done|]. right.
    exists (opt_or (trusted_owner st (rq_owner_header r)) (rs_user_id st)). split_and!; try done.
    destruct Hpr as [(E & _)|[(_ & _ & cfg & cl & i & row & user & H1)|[(_ & _ & H1 & _)|(_ & _ & tok & ver & user & H1)]]]; [done|..].
    + left. rewrite trusted_owner_user; [done|]. destruct H1 as (_ & _ & _ & _ & _ & _ & H1 & <-). by eapply Hroles.
    + by right.
    + left. rewrite trusted_owner_user; [done|]. destruct H1 as (_ & _ & H1 & _ & <-). by eapply Hroles.
Qed.

(** ** Concrete requests *)

Definition demo_auth (now : Z) (offset : option Z) : auth_env :=
  mk_auth_env now offset demo_hmac true "internal-secret" false
    [("dev", mk_user (Some "dev@example.org") "user" 3); ("adm", mk_user None "admin" 0)]
    (fun tok => if String.eqb tok "cookie" then Ok ("dev", 3) else Err JWT_ExpiredSignature)
    None (fun _ _ => None) (fun _ _ _ _ _ _ => Err JWT_Other) (fun _ => "?") (fun i => "new-" +:+ i).

Definition demo_request (key cookie : option string) : raw_request :=
  mk_raw "/api/threads" key None None cookie None.

(** The state after a key of the demo account was minted, its answer and its
    plaintext; then after the key was revoked. *)
Definition demo_expiry : Z := 90 * 86400 * 1000000.

Definition demo_minted : answer * IamApi.api_state (C := cache_entries) (J := audit_event) :=
  demo_handle "1" "adm" (R_mint_api_key "bot" ["runtime:run:create"] demo_expiry) demo_state.

Definition demo_plaintext : string := "dk_live_AAAAAAAA_secret".

Definition demo_key : key_response :=
  mk_key_response "id-1" "org" "bot" "dk_live_AAAAAAAA" ["runtime:run:create"] demo_expiry None 1000 None.

Lemma demo_minted_answer : demo_minted = (ApiKeyCreateResponse demo_key demo_plaintext, demo_minted.2).
Proof. vm_compute. reflexivity. Qed.

Lemma demo_minted_wf : tables_wf (as_tables demo_minted.2).
Proof.
  exact (handle_wf 60 demo_encoded demo_hmac (demo_env "1") (demo_caller "adm") _ _ _ _ demo_minted_answer demo_tables_wf).
Qed.

Lemma demo_hmac_hex : hex_digests demo_hmac.
Proof. intros s d [= <-]. by destruct (is_ascii s) eqn:E. Qed.

Lemma mint_then_authenticate_witness :
  exists org st, org_of (demo_caller "adm") = Some org
    /\ dispatch_auth (demo_auth 2000 None) (demo_request (Some demo_plaintext) None) (as_tables demo_minted.2)
       = (Stamped st, Some "id-1", as_tables demo_minted.2)
    /\ resolve_tenant_context "active" "default" true st None (as_tables demo_minted.2)
       = Some (mk_tenant org (mk_principal "service_account" "bot" None) "api_key" (Some (list_to_set ["runtime:run:create"]))).
Proof.
  apply (mint_then_authenticate 60 demo_encoded demo_hmac (demo_env "1") (demo_caller "adm") "bot" ["runtime:run:create"]
    demo_expiry demo_state demo_minted.2 demo_key demo_plaintext (demo_auth 2000 None)
    (demo_request (Some demo_plaintext) None) "active" "default" demo_tables_wf).
  - vm_compute. lia.
  - vm_compute. lia.
  - exact demo_minted_answer.
  - eexists. split; vm_compute; reflexivity.
  - discriminate.
  - reflexivity.
  - exact demo_hmac_hex.
  - reflexivity.
  - reflexivity.
  - vm_compute. reflexivity.
  - reflexivity.
  - reflexivity.
Defined.

Lemma api_key_decides_witness :
  (dispatch_auth (demo_auth 2000 None) (demo_request (Some demo_plaintext) (Some "cookie")) (as_tables demo_minted.2)).1.2 = Some "id-1"
  /\ exists code d, dispatch_auth (demo_auth 2000 None) (demo_request (Some "dk_live_AAAAAAAA_guess") (Some "cookie"))
       (as_tables demo_minted.2) = (AuthResponse code d, None, as_tables demo_minted.2).
Proof.
  split; [vm_compute; reflexivity|].
  destruct (api_key_decides (demo_auth 2000 None) (demo_request (Some "dk_live_AAAAAAAA_guess") (Some "cookie"))
    (as_tables demo_minted.2) "dk_live_AAAAAAAA_guess" demo_minted_wf eq_refl demo_hmac_hex)
    as [(k & row & sa & _ & _ & E)|[_ [E|E]]]; [vm_compute; reflexivity|vm_compute; reflexivity| |exact E|];
    vm_compute in E; discriminate E.
Defined.

Definition demo_revoked_key : answer * IamApi.api_state (C := cache_entries) (J := audit_event) :=
  demo_handle "2" "adm" (R_revoke_api_key "bot" "id-1") demo_minted.2.

Lemma demo_revoked_key_answer : demo_revoked_key = (NoContent, demo_revoked_key.2).
Proof. vm_compute. reflexivity. Qed.

Lemma revoked_key_never_authenticates_witness :
  (exists st, resolve_api_key (demo_auth 2000 None) (demo_request (Some demo_plaintext) None) (as_tables demo_minted.2) = Authenticated st)
  /\ ~ exists st k, resolve_api_key (demo_auth 2000 None) (demo_request (Some demo_plaintext) None) (as_tables demo_revoked_key.2)
         = Authenticated st /\ rs_api_key st = Some k /\ k.1.1.1 = "id-1".
Proof.
  split; [eexists; vm_compute; reflexivity|].
  destruct (revoked_key_never_authenticates 60 demo_encoded demo_decoded demo_hmac (demo_env "2") (demo_caller "adm") "bot" "id-1"
    demo_minted.2 demo_revoked_key.2 NoContent demo_minted_wf demo_revoked_key_answer eq_refl)
    as (row & rv & Hrow & Hrv & Hfirst & Hnever).
  assert (rv = 1000) as ->.
  { apply (Hfirst (mk_api_key "org" "bot" "dk_live_AAAAAAAA" "$dfakv1$mac-dk_live_AAAAAAAA_secret" ["runtime:run:create"]
      demo_expiry None 1000 None)); vm_compute; reflexivity. }
  intros (st & k & Hres & Hk & E).
  refine (Hnever (home_of demo_tables) demo_revoked_key.2 [] _ _ (star_refl _ _) (demo_auth 2000 None) _ st _ _ Hres k Hk E).
  - apply homesb_homes. vm_compute. reflexivity.
  - eapply home_same_bindings; [|exact demo_bindings_home]. vm_compute. reflexivity.
  - simpl. lia.
  - intros off Hoff. discriminate Hoff.
Defined.

Lemma authentication_fail_closed_witness :
  (dispatch_auth (demo_auth 2000 None) (demo_request None (Some "cookie")) demo_tables).1.1
    = Stamped (mk_state "dev" "user" (Some "dev@example.org") "session" None)
  /\ exists code d, (dispatch_auth (demo_auth 2000 None) (demo_request None (Some "junk")) demo_tables).1.1 = AuthResponse code d
       /\ (code = 401 \/ code = 403).
Proof.
  split; [vm_compute; reflexivity|].
  destruct (authentication_fail_closed (demo_auth 2000 None) (demo_request None (Some "junk")) demo_tables demo_tables_wf)
    as [(st & E & _)|[E|(x & E & _)]]; [vm_compute; reflexivity| |exact E|]; vm_compute in E; discriminate E.
Defined.

Lemma tenant_is_trusted_witness :
  exists tc, resolve_tenant_context "active" "default" true (mk_state "dev" "user" (Some "dev@example.org") "session" None)
      (Some "adm") demo_tables = Some tc
    /\ tc_org_id tc <> "" /\ pr_user_id (tc_principal tc) = Some "dev".
Proof.
  eexists. split; [vm_compute; reflexivity|].
  set (rq := mk_raw "/api/threads" None None None (Some "cookie") (Some "adm")).
  destruct (tenant_is_trusted (demo_auth 2000 None) rq demo_tables
    (mk_state "dev" "user" (Some "dev@example.org") "session" None) None demo_tables "active" "default" true
    (mk_tenant "org" (mk_principal "user" "dev" (Some "dev")) "session" None) demo_tables_wf eq_refl eq_refl)
    as [Hne [(raw & k & row & sa & Hraw & _)|(u & _ & Hu & _ & [Hid|Hint] & _)]].
  - intros i u Hi%dict_get_Some_elem. simpl in Hi. set_unfold in Hi.
    destruct Hi as [[= -> ->]|[[= -> ->]|[]]]; simpl; discriminate.
  - vm_compute. reflexivity.
  - vm_compute. reflexivity.
  - discriminate Hraw.
  - split; [exact Hne|]. simpl in Hu. by rewrite Hid in Hu.
  - discriminate Hint.
Defined.

(** ** Deviations *)

(** A character beyond ASCII in the internal-token header is an exception, not
    a 401: the comparison refuses such text. *)
Example non_ascii_internal_token_raises :
  (dispatch_auth (demo_auth 2000 None)
     (mk_raw "/api/threads" None None (Some (String (Ascii.ascii_of_nat 233) "")) (Some "cookie") None) demo_tables).1.1
  = AuthRaises "TypeError".
Proof. vm_compute. reflexivity. Qed.

(** Timestamps without a zone are read in local time.  On a host eight hours
    behind UTC over a database that drops the zone, the key of the request
    above still authenticates an hour after it was revoked. *)
Example revoked_key_accepted_behind_utc :
  let env := demo_auth (1000 + 3600 * 1000000) (Some (- 8 * 3600 * 1000000)) in
  ak_revoked_at <$> dict_get "id-1" (it_api_keys (as_tables demo_revoked_key.2)) = Some (Some 1000)
  /\ exists st, resolve_api_key env (demo_request (Some demo_plaintext) None) (as_tables demo_revoked_key.2) = Authenticated st.
Proof. split; [vm_compute; reflexivity|eexists; vm_compute; reflexivity]. Qed.

(** The context of a user authenticated by the identity provider says
    ["internal"], although the contract has the method ["oidc"]. *)
Example oidc_bound_as_internal :
  exists tc, resolve_tenant_context "active" "default" true (mk_state "dev" "user" None AUTH_SOURCE_OIDC None) None demo_tables
    = Some tc /\ tc_auth_method tc = "internal".
Proof. eexists. split; vm_compute; reflexivity. Qed.
