(* ===== verification/PyList.v ===== *)
(** * Python lists

    Slices with Python's treatment of negative and out-of-range bounds, the
    binary searches of [bisect], and their meaning on sorted lists.  Used by
    the event stores, the journal and the stream bridge. *)
From S2P Require Import Prelude.
Local Open Scope Z_scope.

(** ** Slices *)

(** The position a slice bound denotes in a list of [n] elements. *)
Definition slice_index (n i : Z) : Z :=
  if i <? 0 then Z.max 0 (n + i) else Z.min n i.

(** [l[start:stop]]; [None] for an absent bound. *)
Definition py_slice {A} (start stop : option Z) (l : list A) : list A :=
  let n := Z.of_nat (length l) in
  let a := match start with None => 0 | Some i => slice_index n i end in
  let b := match stop with None => n | Some i => slice_index n i end in
  take (Z.to_nat (b - a)) (drop (Z.to_nat a) l).

(** The last [n] elements: what a non-zero [l[-n:]] means. *)
Definition latest {A} (n : nat) (l : list A) : list A := drop (length l - n)%nat l.

(** ** Binary search *)

(** The loop of [bisect]: [right mid] is the test that continues in the upper
    half.  The distance between the bounds falls at every turn, so the length
    of the list is fuel enough ([bisect_loop_spec]). *)
Fixpoint bisect_loop (fuel : nat) (right : nat -> bool) (lo hi : nat) : nat :=
  match fuel with
  | O => lo
  | S fuel' =>
      if (lo <? hi)%nat then
        let mid := ((lo + hi) / 2)%nat in
        if right mid then bisect_loop fuel' right (S mid) hi else bisect_loop fuel' right lo mid
      else lo
  end.

Section bisect.
Context {A : Type} (key : A -> Z).

Definition bisect (right : Z -> bool) (l : list A) : nat :=
  bisect_loop (length l)
    (fun mid => match l !! mid with Some e => right (key e) | None => false end) 0 (length l).

(** [bisect_left(l, x, key=key)] and [bisect_right]. *)
Definition bisect_left (l : list A) (x : Z) : nat := bisect (fun k => k <? x) l.
Definition bisect_right (l : list A) (x : Z) : nat := bisect (fun k => negb (x <? k)) l.
End bisect.

(** ** Lemmas *)

Section slices.
Context {A : Type}.
Implicit Types l : list A.

Lemma py_slice_first k l : 0 <= k -> py_slice None (Some k) l = take (Z.to_nat k) l.
Proof.
  intros Hk. unfold py_slice, slice_index. assert (Hk' : (k <? 0) = false) by lia. rewrite Hk'. simpl.
  rewrite drop_0. destruct (decide (k <= Z.of_nat (length l))).
  - f_equal. lia.
  - rewrite !take_ge; [done|lia|lia].
Qed.

Lemma py_slice_last k l : 0 < k -> py_slice (Some (- k)) None l = latest (Z.to_nat k) l.
Proof.
  intros Hk. unfold py_slice, slice_index, latest. assert (Hk' : (- k <? 0) = true) by lia. rewrite Hk'.
  rewrite take_ge; [f_equal; lia|]. rewrite length_drop. lia.
Qed.

Lemma py_slice_range (a b : nat) l :
  (b <= length l)%nat -> py_slice (Some (Z.of_nat a)) (Some (Z.of_nat b)) l = drop a (take b l).
Proof.
  intros Hb. unfold py_slice, slice_index.
  rewrite !(proj2 (Z.ltb_ge _ _)) by lia. rewrite skipn_firstn_comm.
  destruct (decide (a <= length l)%nat).
  - f_equal; [lia|]. f_equal. lia.
  - rewrite !(drop_ge l) by lia. by rewrite !take_nil.
Qed.

Lemma latest_ge n l : (length l <= n)%nat -> latest n l = l.
Proof. intros. unfold latest. replace (length l - n)%nat with O by lia. done. Qed.

Lemma latest_suffix n l : latest n l `suffix_of` l.
Proof. exists (take (length l - n) l). unfold latest. by rewrite take_drop. Qed.

Lemma latest_length n l : length (latest n l) = (length l `min` n)%nat.
Proof. unfold latest. rewrite length_drop. lia. Qed.

Lemma latest_reverse n l : reverse (take n (reverse l)) = latest n l.
Proof.
  unfold latest. rewrite <-(take_drop (length l - n) l) at 1. rewrite reverse_app.
  destruct (decide (n <= length l)%nat) as [Hn|Hn].
  - rewrite take_app_length'; [apply reverse_involutive|]. rewrite length_reverse, length_drop. lia.
  - replace (length l - n)%nat with O by lia. simpl. rewrite app_nil_r, take_ge, drop_0, reverse_involutive; [done|].
    rewrite length_reverse, drop_0. lia.
Qed.
End slices.

(** ** Filters *)

Lemma filter_andb {A} (p q : A -> bool) l :
  List.filter (fun x => p x && q x) l = List.filter q (List.filter p l).
Proof.
  induction l as [|x l IH]; simpl; [done|]. destruct (p x); simpl; rewrite IH; done.
Qed.

Lemma filter_true {A} (l : list A) : List.filter (fun _ => true) l = l.
Proof. induction l as [|x l IH]; simpl; [done|by rewrite IH]. Qed.

Lemma filter_comm {A} (p q : A -> bool) l :
  List.filter p (List.filter q l) = List.filter q (List.filter p l).
Proof. rewrite <-!filter_andb. apply filter_ext. intros. apply andb_comm. Qed.

Lemma filter_fmap {A B} (f : A -> B) (p : B -> bool) l :
  List.filter p (f <$> l) = f <$> List.filter (fun x => p (f x)) l.
Proof. induction l as [|x l IH]; csimpl; [done|]. destruct (p (f x)); csimpl; by rewrite IH. Qed.

Lemma latest_fmap {A B} (f : A -> B) n l : latest n (f <$> l) = f <$> latest n l.
Proof. unfold latest. by rewrite length_fmap, fmap_drop. Qed.

Lemma filter_rejects {A} (p : A -> bool) l : Forall (fun x => p x = false) l -> List.filter p l = [].
Proof. induction 1 as [|x l Hx _ IH]; simpl; [done|]. by rewrite Hx. Qed.

Lemma filter_accepts {A} (p : A -> bool) l : Forall (fun x => p x = true) l -> List.filter p l = l.
Proof. induction 1 as [|x l Hx _ IH]; simpl; [done|]. by rewrite Hx, IH. Qed.

Lemma Forall_list_filter {A} (P : A -> Prop) (p : A -> bool) l : Forall P l -> Forall P (List.filter p l).
Proof. induction 1 as [|x l Hx _ IH]; simpl; [done|]. destruct (p x); [by constructor|done]. Qed.

Lemma existsb_ext_in {A} (p q : A -> bool) l : (forall x, In x l -> p x = q x) -> existsb p l = existsb q l.
Proof.
  induction l as [|x l IH]; intros H; simpl; [done|]. rewrite H by (by left). f_equal. apply IH. intros. apply H. by right.
Qed.

Lemma filter_negb_length {A} (p : A -> bool) (l : list A) :
  (length (List.filter p l) + length (List.filter (fun x => negb (p x)) l) = length l)%nat.
Proof. induction l as [|x l IH]; simpl; [done|]. destruct (p x); simpl; lia. Qed.

Lemma sorted_filter {A} (key : A -> Z) (p : A -> bool) l :
  StronglySorted Z.lt (key <$> l) -> StronglySorted Z.lt (key <$> List.filter p l).
Proof.
  induction l as [|x l IH]; intros Hs; simpl; [done|]. inversion Hs as [|? ? Hs' Hall]; subst.
  destruct (p x); [|by apply IH]. csimpl. constructor; [by apply IH|].
  rewrite Forall_fmap in *. apply Forall_forall. intros y Hy. rewrite Forall_forall in Hall.
  apply Hall. apply list_elem_of_In, filter_In in Hy as [Hy _]. by apply list_elem_of_In.
Qed.

Lemma sorted_snoc {A} (key : A -> Z) l x :
  StronglySorted Z.lt (key <$> l) -> Forall (fun y => key y < key x) l -> StronglySorted Z.lt (key <$> l ++ [x]).
Proof.
  intros Hs Hall. rewrite fmap_app. apply StronglySorted_app_2; [|done|repeat constructor].
  intros a b Ha Hb. simpl in Hb. apply list_elem_of_singleton in Hb as ->.
  apply list_elem_of_fmap in Ha as (y & -> & Hy). rewrite Forall_forall in Hall. by apply Hall.
Qed.

Section bisect_lemmas.
Context {A : Type}.

(** When the test holds exactly below some point, the loop finds it. *)
Lemma bisect_loop_spec fuel right lo hi :
  (hi - lo <= fuel)%nat -> (lo <= hi)%nat ->
  (forall i j, (i <= j)%nat -> (j < hi)%nat -> right j = true -> right i = true) ->
  (forall i, (i < lo)%nat -> right i = true) ->
  let r := bisect_loop fuel right lo hi in
  (lo <= r <= hi)%nat /\ (forall i, (i < r)%nat -> right i = true)
  /\ (forall i, (r <= i)%nat -> (i < hi)%nat -> right i = false).
Proof.
  revert lo hi. induction fuel as [|fuel IH]; intros lo hi Hf Hle Hmono Hlo r; subst r; cbn [bisect_loop].
  - split; [lia|]. split; [done|]. intros i Hi1 Hi2. lia.
  - destruct (lo <? hi)%nat eqn:Hlt; [|apply Nat.ltb_ge in Hlt; split; [lia|]; split; [done|]; intros; lia].
    apply Nat.ltb_lt in Hlt.
    assert (Hmid : (lo <= (lo + hi) / 2 < hi)%nat).
    { pose proof (Nat.div_mod_eq (lo + hi) 2). pose proof (Nat.mod_upper_bound (lo + hi) 2 ltac:(lia)). lia. }
    set (mid := ((lo + hi) / 2)%nat) in *. destruct (right mid) eqn:Hr.
    + destruct (IH (S mid) hi) as (? & ? & ?); [lia|lia|done| |split; [lia|done]].
      intros i Hi. apply (Hmono i mid); [lia|lia|done].
    + destruct (IH lo mid) as (? & ? & Hhi); [lia|lia| |done|].
      { intros i j Hij Hj. apply Hmono; [done|lia]. }
      split; [lia|]. split; [done|]. intros i Hi1 Hi2. destruct (decide (i < mid)%nat) as [Hlt'|Hge]; [by apply Hhi|].
      apply not_true_iff_false. intros Ht. rewrite (Hmono mid i) in Hr; [done|lia|lia|done].
Qed.

(** Below a partition point a filter takes, above it drops. *)
Lemma partition_point (p : A -> bool) r l :
  (forall i e, l !! i = Some e -> p e = true <-> (i < r)%nat) ->
  List.filter p l = take r l /\ List.filter (fun e => negb (p e)) l = drop r l.
Proof.
  revert r. induction l as [|x l IH]; intros r Hp; simpl; [by rewrite take_nil, drop_nil|].
  destruct (IH (pred r)) as [H1 H2].
  { intros i e Hi. rewrite (Hp (S i) e Hi). lia. }
  pose proof (Hp O x eq_refl) as H0. rewrite H1, H2.
  destruct (p x), r as [|r]; simpl; try done.
  - exfalso. destruct H0 as [H0 _]. specialize (H0 eq_refl). lia.
  - exfalso. destruct H0 as [_ H0]. discriminate H0. lia.
Qed.

Context (key : A -> Z).

Lemma sorted_lookup_lt (l : list A) i j x y :
  StronglySorted Z.lt (key <$> l) -> l !! i = Some x -> l !! j = Some y -> (i < j)%nat -> key x < key y.
Proof.
  revert i j. induction l as [|z l IH]; intros i j Hs Hi Hj Hij; [done|].
  inversion Hs as [|? ? Hs' Hall]; subst. destruct j as [|j]; [lia|]. destruct i as [|i]; simpl in *.
  - simplify_eq. rewrite Forall_fmap, Forall_forall in Hall. apply Hall. by apply list_elem_of_lookup_2 in Hj.
  - apply (IH i j); [done..|lia].
Qed.

Lemma bisect_filter (right : Z -> bool) (l : list A) :
  (forall k k', k <= k' -> right k' = true -> right k = true) ->
  StronglySorted Z.lt (key <$> l) ->
  (bisect key right l <= length l)%nat
  /\ List.filter (fun e => right (key e)) l = take (bisect key right l) l
  /\ List.filter (fun e => negb (right (key e))) l = drop (bisect key right l) l.
Proof.
  intros Hright Hs. unfold bisect.
  set (test := fun mid => match l !! mid with Some e => right (key e) | None => false end).
  destruct (bisect_loop_spec (length l) test 0 (length l)) as (Hr & Hlow & Hhigh); [lia|lia| |intros; lia|].
  { intros i j Hij Hj. unfold test. destruct (lookup_lt_is_Some_2 l j Hj) as [y Hy].
    destruct (lookup_lt_is_Some_2 l i) as [x Hx]; [lia|]. rewrite Hx, Hy. apply Hright.
    destruct (decide (i = j)) as [->|]; [simplify_eq; done|]. apply Z.lt_le_incl.
    apply (sorted_lookup_lt l i j); [done..|lia]. }
  split; [lia|]. apply partition_point. intros i e Hi. pose proof (lookup_lt_Some _ _ _ Hi) as Hlen. split.
  - intros He. destruct (decide (i < bisect_loop (length l) test 0 (length l))%nat) as [|Hge]; [done|].
    specialize (Hhigh i). unfold test in Hhigh at 2. rewrite Hi, He in Hhigh. discriminate Hhigh; lia.
  - intros Hi'. specialize (Hlow i Hi'). unfold test in Hlow. by rewrite Hi in Hlow.
Qed.

(** The slices [bisect] delimits are the filters they stand for. *)
Lemma bisect_left_filter (l : list A) x :
  StronglySorted Z.lt (key <$> l) ->
  (bisect_left key l x <= length l)%nat /\ take (bisect_left key l x) l = List.filter (fun e => key e <? x) l.
Proof.
  intros Hs. destruct (bisect_filter (fun k => k <? x) l) as (? & Hf & _); [intros; lia|done|].
  split; [done|]. by rewrite Hf.
Qed.

Lemma bisect_right_filter (l : list A) x :
  StronglySorted Z.lt (key <$> l) ->
  (bisect_right key l x <= length l)%nat /\ drop (bisect_right key l x) l = List.filter (fun e => x <? key e) l.
Proof.
  intros Hs. destruct (bisect_filter (fun k => negb (x <? k)) l) as (? & _ & Hf); [intros; lia|done|].
  split; [done|]. unfold bisect_right. rewrite <-Hf. apply filter_ext. intros e. by rewrite negb_involutive.
Qed.
End bisect_lemmas.
