(* ===== verification/PyAsync.v ===== *)
(** * Coroutines

    A coroutine runs alone between its [await]s.  At an [await] other tasks may
    run, the awaited call may raise, and the task may be cancelled.  A schedule
    lists, for the awaits to come, what happens there; a computation maps the
    world and the schedule to its result, the new world and the rest of the
    schedule.  When the schedule is used up, awaits go through undisturbed. *)
From S2P Require Import Prelude.
Local Open Scope list_scope.

(** ** Exceptions and schedules *)

(** [asyncio.CancelledError] is not an [Exception]; the others carry the name of
    their class and their text. *)
Inductive raised : Type :=
| Cancelled
| Raised (name msg : string).

#[global] Instance raised_eq_dec : EqDecision raised.
Proof. solve_decision. Defined.

(** What becomes of the awaited call: it goes through, it raises without effect,
    or the task is cancelled there, before or after the effect. *)
Inductive fate : Type :=
| Go
| Fails (name msg : string)
| CancelledHere (applied : bool).

Record moment (W : Type) : Type := mk_moment { mo_others : W -> W; mo_fate : fate }.
Arguments mk_moment {W} _ _.
Arguments mo_others {W} _ _.
Arguments mo_fate {W} _.

Definition coro (W A : Type) : Type := W -> list (moment W) -> result raised A * W * list (moment W).

Section coroutines.
Context {W : Type}.

Definition ret {A} (a : A) : coro W A := fun w s => (Ok a, w, s).
Definition throw {A} (e : raised) : coro W A := fun w s => (Err e, w, s).

Definition bind {A B} (m : coro W A) (k : A -> coro W B) : coro W B := fun w s =>
  match m w s with
  | (Ok a, w', s') => k a w' s'
  | (Err e, w', s') => (Err e, w', s')
  end.

Definition of_result {A} (r : result raised A) : coro W A := fun w s => (r, w, s).
Definition gets {A} (f : W -> A) : coro W A := fun w s => (Ok (f w), w, s).
Definition modify (f : W -> W) : coro W unit := fun w s => (Ok tt, f w, s).

(** [try: m except e: handler(e)], for every exception. *)
Definition try_except {A} (m : coro W A) (handler : raised -> coro W A) : coro W A := fun w s =>
  match m w s with
  | (Ok a, w', s') => (Ok a, w', s')
  | (Err e, w', s') => handler e w' s'
  end.

(** [try: m except Exception: handler]: cancellation passes through. *)
Definition try_exception {A} (m : coro W A) (handler : string -> string -> coro W A) : coro W A :=
  try_except m (fun e => match e with Cancelled => throw Cancelled | Raised n t => handler n t end).

(** [try: m finally: cleanup]: an exception of the clean-up wins. *)
Definition try_finally {A} (m : coro W A) (cleanup : coro W unit) : coro W A := fun w s =>
  match m w s with
  | (r, w', s') =>
      match cleanup w' s' with
      | (Ok _, w'', s'') => (r, w'', s'')
      | (Err e, w'', s'') => (Err e, w'', s'')
      end
  end.

(** [await] of a call. *)
Definition await {A} (op : W -> result raised A * W) : coro W A := fun w s =>
  match s with
  | [] => let '(r, w') := op w in (r, w', [])
  | m :: s' =>
      let w1 := mo_others m w in
      match mo_fate m with
      | Go => let '(r, w') := op w1 in (r, w', s')
      | Fails name msg => (Err (Raised name msg), w1, s')
      | CancelledHere applied => (Err Cancelled, if applied then (op w1).2 else w1, s')
      end
  end.

(** [await] of a call that raises only by its own result. *)
Definition await_call {A} (op : W -> result raised A * W) : coro W A := fun w s =>
  match s with
  | [] => let '(r, w') := op w in (r, w', [])
  | m :: s' =>
      let w1 := mo_others m w in
      match mo_fate m with
      | CancelledHere applied => (Err Cancelled, if applied then (op w1).2 else w1, s')
      | _ => let '(r, w') := op w1 in (r, w', s')
      end
  end.

(** ... and of one that cannot raise. *)
Definition await_sure (op : W -> W) : coro W unit := await_call (fun w => (Ok tt, op w)).

(** [await] of a task that runs on its own ([asyncio.gather] with
    [return_exceptions]): it runs to its end, with or without a failure of the
    call it is in; a waiter that is cancelled cancels it, before or after the
    effect of that call. *)
Definition await_task (op : option string -> W -> W) (cancel : bool -> W -> W) : coro W unit := fun w s =>
  match s with
  | [] => (Ok tt, op None w, [])
  | m :: s' =>
      let w1 := mo_others m w in
      match mo_fate m with
      | Go => (Ok tt, op None w1, s')
      | Fails _ msg => (Ok tt, op (Some msg) w1, s')
      | CancelledHere applied => (Err Cancelled, cancel applied w1, s')
      end
  end.

Definition id_world (w : W) : W := w.

(** [for x in l: body(x)]. *)
Fixpoint for_each {A} (body : A -> coro W unit) (l : list A) : coro W unit :=
  match l with
  | [] => ret tt
  | x :: l' => bind (body x) (fun _ => for_each body l')
  end.

(** ** Triples *)

(** From a world in [P], under moments in [M], the result and the new world are
    in [Q]. *)
Definition triple {A} (M : moment W -> Prop) (P : W -> Prop) (m : coro W A) (Q : result raised A -> W -> Prop) : Prop :=
  forall w s, P w -> Forall M s ->
    match m w s with (r, w', s') => Q r w' /\ Forall M s' end.

Implicit Types M : moment W -> Prop.

Lemma triple_weaken {A} M (P P' : W -> Prop) (m : coro W A) (Q Q' : result raised A -> W -> Prop) :
  triple M P m Q -> (forall w, P' w -> P w) -> (forall r w, Q r w -> Q' r w) -> triple M P' m Q'.
Proof.
  intros H HP HQ w s Hw Hs. specialize (H w s (HP _ Hw) Hs). destruct (m w s) as [[r w'] s']. naive_solver.
Qed.

Lemma triple_ret {A} M (P : W -> Prop) (a : A) : triple M P (ret a) (fun r w => r = Ok a /\ P w).
Proof. by intros w s Hw Hs. Qed.

Lemma triple_throw {A} M (P : W -> Prop) e : triple M P (throw (A := A) e) (fun r w => r = Err e /\ P w).
Proof. by intros w s Hw Hs. Qed.

Lemma triple_of_result {A} M (P : W -> Prop) (x : result raised A) : triple M P (of_result x) (fun r w => r = x /\ P w).
Proof. by intros w s Hw Hs. Qed.

Lemma triple_modify M (P : W -> Prop) (Q : result raised unit -> W -> Prop) f :
  (forall w, P w -> Q (Ok tt) (f w)) -> triple M P (modify f) Q.
Proof. intros H w s Hw Hs. simpl. auto. Qed.

Lemma triple_gets {A B} M (P : W -> Prop) (f : W -> A) (k : A -> coro W B) Q :
  (forall a, triple M (fun w => P w /\ f w = a) (k a) Q) -> triple M P (bind (gets f) k) Q.
Proof. intros H w s Hw Hs. unfold bind, gets. by apply (H (f w) w s). Qed.

(** The exceptions of the first part are already in the postcondition. *)
Lemma triple_bind {A B} M (P : W -> Prop) (m : coro W A) (k : A -> coro W B) (Q : result raised B -> W -> Prop) :
  forall R : A -> W -> Prop,
  triple M P m (fun r w => match r with Ok a => R a w | Err e => Q (Err e) w end) ->
  (forall a, triple M (R a) (k a) Q) -> triple M P (bind m k) Q.
Proof.
  intros R Hm Hk w s Hw Hs. specialize (Hm w s Hw Hs). unfold bind. destruct (m w s) as [[[a|e] w'] s'].
  - destruct Hm as [HR Hs']. by apply Hk.
  - done.
Qed.

Lemma triple_try {A} M (P : W -> Prop) (m : coro W A) h (Q : result raised A -> W -> Prop) :
  forall R : raised -> W -> Prop,
  triple M P m (fun r w => match r with Ok a => Q (Ok a) w | Err e => R e w end) ->
  (forall e, triple M (R e) (h e) Q) -> triple M P (try_except m h) Q.
Proof.
  intros R Hm Hh w s Hw Hs. specialize (Hm w s Hw Hs). unfold try_except. destruct (m w s) as [[[a|e] w'] s'].
  - done.
  - destruct Hm as [HR Hs']. by apply Hh.
Qed.

Lemma triple_try_exception {A} M (P : W -> Prop) (m : coro W A) h (Q : result raised A -> W -> Prop) :
  forall R : W -> Prop,
  triple M P m (fun r w => match r with Ok a => Q (Ok a) w | Err Cancelled => Q (Err Cancelled) w | Err _ => R w end) ->
  (forall n t, triple M R (h n t) Q) -> triple M P (try_exception m h) Q.
Proof.
  intros R Hm Hh. unfold try_exception.
  apply (triple_try _ _ _ _ _ (fun e w => match e with Cancelled => Q (Err Cancelled) w | _ => R w end)).
  - eapply triple_weaken; [exact Hm|done|]. intros [a|[]] w; done.
  - intros [|n t]; [|by apply Hh]. by intros w s Hw Hs.
Qed.

Lemma triple_finally {A} M (P : W -> Prop) (m : coro W A) c (Q : result raised A -> W -> Prop) :
  forall R : result raised A -> W -> Prop,
  triple M P m R ->
  (forall r, triple M (R r) c (fun r' w => match r' with Ok _ => Q r w | Err e => Q (Err e) w end)) ->
  triple M P (try_finally m c) Q.
Proof.
  intros R Hm Hc w s Hw Hs. specialize (Hm w s Hw Hs). unfold try_finally. destruct (m w s) as [[r w'] s'].
  destruct Hm as [HR Hs']. specialize (Hc r w' s' HR Hs'). by destruct (c w' s') as [[[[]|e] w''] s''].
Qed.

(** Nothing other tasks do leaves [P]. *)
Definition stable M (P : W -> Prop) : Prop := forall m w, M m -> P w -> P (mo_others m w).

(** Moments without cancellation. *)
Definition undisturbed (m : moment W) : Prop := match mo_fate m with CancelledHere _ => False | _ => True end.

Lemma triple_await_fault {A} M (P : W -> Prop) (op : W -> result raised A * W) (Q : result raised A -> W -> Prop) :
  stable M P ->
  (forall w, P w -> match op w with (r, w') => Q r w' end) ->
  (forall m n t w, M m -> mo_fate m = Fails n t -> P w -> Q (Err (Raised n t)) w) ->
  (forall m w, M m -> undisturbed m \/ (P w -> Q (Err Cancelled) w /\ Q (Err Cancelled) (op w).2)) ->
  triple M P (await op) Q.
Proof.
  intros Hst Hop Hf Hc w [|m s] Hw Hs; unfold await.
  - specialize (Hop w Hw). destruct (op w). done.
  - apply Forall_cons in Hs as [Hm Hs]. pose proof (Hst m w Hm Hw) as Hw1. specialize (Hop _ Hw1).
    specialize (Hc m (mo_others m w) Hm). unfold undisturbed in Hc. destruct (mo_fate m) as [|n t|[]] eqn:E.
    + by destruct (op (mo_others m w)).
    + split; [by eapply Hf|done].
    + destruct Hc as [[]|Hc]. destruct (Hc Hw1). split; [|done]. by destruct (op (mo_others m w)).
    + destruct Hc as [[]|Hc]. by destruct (Hc Hw1).
Qed.

Lemma triple_await {A} M (P : W -> Prop) (op : W -> result raised A * W) (Q : result raised A -> W -> Prop) :
  stable M P ->
  (forall w, P w -> match op w with (r, w') => Q r w' end) ->
  (forall n t w, P w -> Q (Err (Raised n t)) w) ->
  (forall m w, M m -> undisturbed m \/ (P w -> Q (Err Cancelled) w /\ Q (Err Cancelled) (op w).2)) ->
  triple M P (await op) Q.
Proof. intros Hst Hop Hf Hc. apply triple_await_fault; auto. Qed.

Lemma triple_await_call {A} M (P : W -> Prop) (op : W -> result raised A * W) (Q : result raised A -> W -> Prop) :
  stable M P -> (forall w, P w -> match op w with (r, w') => Q r w' end) ->
  (forall m w, M m -> undisturbed m \/ (P w -> Q (Err Cancelled) w /\ Q (Err Cancelled) (op w).2)) ->
  triple M P (await_call op) Q.
Proof.
  intros Hst Hop Hc w [|m s] Hw Hs; unfold await_call.
  - specialize (Hop w Hw). by destruct (op w).
  - apply Forall_cons in Hs as [Hm Hs]. pose proof (Hst m w Hm Hw) as Hw1. specialize (Hop _ Hw1).
    specialize (Hc m (mo_others m w) Hm). unfold undisturbed in Hc. destruct (mo_fate m) as [|n t|[]].
    + by destruct (op (mo_others m w)).
    + by destruct (op (mo_others m w)).
    + destruct Hc as [[]|Hc]. destruct (Hc Hw1). by destruct (op (mo_others m w)).
    + destruct Hc as [[]|Hc]. by destruct (Hc Hw1).
Qed.

Lemma triple_await_sure M (P : W -> Prop) (op : W -> W) (Q : result raised unit -> W -> Prop) :
  stable M P -> (forall w, P w -> Q (Ok tt) (op w)) ->
  (forall m w, M m -> undisturbed m \/ (P w -> Q (Err Cancelled) w /\ Q (Err Cancelled) (op w))) ->
  triple M P (await_sure op) Q.
Proof. intros Hst Hop Hc. by apply triple_await_call. Qed.

Lemma triple_await_task M (P : W -> Prop) op cancel (Q : result raised unit -> W -> Prop) :
  stable M P -> (forall fault w, P w -> Q (Ok tt) (op fault w)) ->
  (forall m w applied, M m -> undisturbed m \/ (P w -> Q (Err Cancelled) (cancel applied w))) ->
  triple M P (await_task op cancel) Q.
Proof.
  intros Hst Hop Hc w [|m s] Hw Hs; unfold await_task; [auto|].
  apply Forall_cons in Hs as [Hm Hs]. pose proof (Hst m w Hm Hw) as Hw1.
  pose proof (Hc m (mo_others m w)) as Hc'. unfold undisturbed in Hc'. destruct (mo_fate m) as [| |applied]; [auto..|].
  destruct (Hc' applied Hm) as [[]|Hq]. auto.
Qed.

Lemma triple_for_each {A} M (P : W -> Prop) (body : A -> coro W unit) l (Q : result raised unit -> W -> Prop) :
  (forall x, x ∈ l -> triple M P (body x) (fun r w => match r with Ok _ => P w | Err e => Q (Err e) w end)) ->
  (forall w, P w -> Q (Ok tt) w) -> triple M P (for_each body l) Q.
Proof.
  intros Hb HQ. induction l as [|x l IH]; simpl.
  - intros w s Hw Hs. simpl. auto.
  - apply (triple_bind _ _ _ _ _ (fun _ => P)); [|intros _; apply IH; intros y Hy; apply Hb; by right].
    eapply triple_weaken; [apply Hb; by left|done|]. by intros [[]|e] w.
Qed.

Lemma triple_pure {A} M (P : W -> Prop) (phi : Prop) (m : coro W A) Q :
  (phi -> triple M P m Q) -> triple M (fun w => P w /\ phi) m Q.
Proof. intros H w s [Hw Hphi]. by apply H. Qed.

(** ** Runs that return *)

Lemma bind_Ok {A B} (m : coro W A) (k : A -> coro W B) w s b w' s' :
  bind m k w s = (Ok b, w', s') -> exists a w1 s1, m w s = (Ok a, w1, s1) /\ k a w1 s1 = (Ok b, w', s').
Proof. unfold bind. destruct (m w s) as [[[a|e] w1] s1]; [|done]. eauto. Qed.

Lemma try_exception_Ok {A} (m : coro W A) h w s a w' s' :
  try_exception m h w s = (Ok a, w', s') ->
  m w s = (Ok a, w', s') \/ exists n t w1 s1, m w s = (Err (Raised n t), w1, s1) /\ h n t w1 s1 = (Ok a, w', s').
Proof. unfold try_exception, try_except. destruct (m w s) as [[[x|[|n t]] w1] s1]; [auto|done|]. eauto 8. Qed.

Lemma await_Ok {A} (op : W -> result raised A * W) w s a w' s' :
  await op w s = (Ok a, w', s') -> exists w1, op w1 = (Ok a, w').
Proof.
  unfold await. destruct s as [|m s]; [|destruct (mo_fate m)]; try done.
  - destruct (op w) as [r w1] eqn:E. intros [= -> -> _]. eauto.
  - destruct (op (mo_others m w)) as [r w1] eqn:E. intros [= -> -> _]. eauto.
Qed.
End coroutines.

Declare Scope coro_scope.
Delimit Scope coro_scope with coro.
Notation "'do!' x := m 'in' k" := (bind m (fun x => k)) (at level 200, x pattern, m at level 100, k at level 200) : coro_scope.
Notation "m ;; k" := (bind m (fun _ => k)) (at level 100, k at level 200, right associativity) : coro_scope.
