(* ===== verification/EventStore.v ===== *)
(** * Run event stores

    [runtime/events/store/base.py]: the contract of a run event store as a
    class, and [runtime/events/store/memory.py], the implementation the gateway
    uses by default, as its instance.  [EventStoreDb] holds the second
    instance.  The contract is stated against the log of a thread: its events
    in [seq] order. *)
From S2P Require Import Prelude PyList.
Local Open Scope string_scope.
Local Open Scope Z_scope.
Local Open Scope list_scope.

(** ** Events *)

(** The keyword arguments of [put]; the keys of a dict of [put_batch]. *)
Record event_args : Type := mk_put {
  pa_thread_id : string;
  pa_run_id : string;
  pa_event_type : string;
  pa_category : string;
  pa_content : json;
  pa_metadata : option (list (string * json));
  pa_created_at : option Z
}.

(** A stored record, as queries return it. *)
Record run_event : Type := mk_run_event {
  ev_thread_id : string;
  ev_run_id : string;
  ev_event_type : string;
  ev_category : string;
  ev_content : json;
  ev_metadata : list (string * json);
  ev_seq : Z;
  ev_created_at : Z
}.

Definition is_message (e : run_event) : bool := String.eqb (ev_category e) "message".
Definition of_run (run_id : string) (e : run_event) : bool := String.eqb (ev_run_id e) run_id.

(** ** The contract *)

(** The page the docstrings of [list_messages] describe: the first [limit]
    events after a cursor, or the last [limit] before one, or the latest. *)
Definition window (limit : Z) (before_seq after_seq : option Z) (l : list run_event) : list run_event :=
  let l1 := match before_seq with None => l | Some b => List.filter (fun e => ev_seq e <? b) l end in
  match after_seq with
  | None => latest (Z.to_nat limit) l1
  | Some a => take (Z.to_nat limit) (List.filter (fun e => a <? ev_seq e) l1)
  end.

(** What a stored record keeps of the arguments in every store. *)
Definition recorded (a : event_args) (now : Z) (e : run_event) : Prop :=
  ev_thread_id e = pa_thread_id a /\ ev_run_id e = pa_run_id a /\ ev_event_type e = pa_event_type a
  /\ ev_category e = pa_category a /\ ev_created_at e = opt_or (pa_created_at a) now.

Definition increasing (l : list run_event) : Prop := StronglySorted Z.lt (ev_seq <$> l).

(** [RunEventStore].  A write takes the current instant and the fault its I/O
    runs into, if any.  [es_log] is the abstraction, [es_admits] the
    precondition under which a write without a fault succeeds, [es_keeps] the
    one under which the content is returned as it was written. *)
Class RunEventStore (S : Type) : Type := {
  es_put : option string -> Z -> event_args -> S -> result string run_event * S;
  es_put_batch : option string -> Z -> list event_args -> S -> result string (list run_event) * S;
  es_list_messages : string -> Z -> option Z -> option Z -> S -> list run_event;
  es_list_events : string -> string -> option (list string) -> Z -> S -> list run_event;
  es_list_messages_by_run : string -> string -> Z -> option Z -> option Z -> S -> list run_event;
  es_count_messages : string -> S -> Z;
  es_delete_by_thread : string -> S -> Z * S;
  es_delete_by_run : string -> string -> S -> Z * S;

  es_wf : S -> Prop;
  es_log : string -> S -> list run_event;
  es_admits : event_args -> Prop;
  es_keeps : event_args -> Prop;

  es_log_wf s t : es_wf s -> increasing (es_log t s) /\ Forall (fun e => ev_thread_id e = t) (es_log t s);
  es_put_ok fault now a s r s' :
    es_wf s -> es_put fault now a s = (Ok r, s') ->
    es_wf s' /\ recorded a now r /\ (es_keeps a -> ev_content r = pa_content a)
    /\ es_log (pa_thread_id a) s' = es_log (pa_thread_id a) s ++ [r]
    /\ forall t, t <> pa_thread_id a -> es_log t s' = es_log t s;
  es_put_batch_ok fault now l s rs s' t :
    es_wf s -> Forall (fun a => pa_thread_id a = t) l -> es_put_batch fault now l s = (Ok rs, s') ->
    es_wf s' /\ Forall2 (fun a r => recorded a now r /\ (es_keeps a -> ev_content r = pa_content a)) l rs
    /\ es_log t s' = es_log t s ++ rs /\ forall t', t' <> t -> es_log t' s' = es_log t' s;
  es_put_batch_err fault now l s e s' : es_put_batch fault now l s = (Err e, s') -> s' = s;
  es_put_batch_total now l s t :
    es_wf s -> Forall (fun a => pa_thread_id a = t) l -> Forall es_admits l ->
    exists rs s', es_put_batch None now l s = (Ok rs, s');
  es_list_messages_ok s t limit before_seq after_seq :
    es_wf s -> 0 < limit -> before_seq = None \/ after_seq = None ->
    es_list_messages t limit before_seq after_seq s
    = window limit before_seq after_seq (List.filter is_message (es_log t s));
  es_list_messages_by_run_ok s t run_id limit before_seq after_seq :
    es_wf s -> 0 < limit ->
    es_list_messages_by_run t run_id limit before_seq after_seq s
    = window limit before_seq after_seq (List.filter is_message (List.filter (of_run run_id) (es_log t s)));
  es_list_events_ok s t run_id types limit :
    es_wf s -> 0 <= limit -> types <> Some [] ->
    es_list_events t run_id types limit s
    = take (Z.to_nat limit)
        (List.filter (fun e => match types with None => true | Some l => bool_decide (ev_event_type e ∈ l) end)
           (List.filter (of_run run_id) (es_log t s)));
  es_count_messages_ok s t :
    es_wf s -> es_count_messages t s = Z.of_nat (length (List.filter is_message (es_log t s)));
  es_delete_by_thread_ok s t n s' :
    es_wf s -> es_delete_by_thread t s = (n, s') ->
    es_wf s' /\ n = Z.of_nat (length (es_log t s)) /\ es_log t s' = []
    /\ forall t', t' <> t -> es_log t' s' = es_log t' s;
  es_delete_by_run_ok s t run_id n s' :
    es_wf s -> es_delete_by_run t run_id s = (n, s') ->
    es_wf s' /\ n = Z.of_nat (length (List.filter (of_run run_id) (es_log t s)))
    /\ es_log t s' = List.filter (fun e => negb (of_run run_id e)) (es_log t s)
    /\ forall t', t' <> t -> es_log t' s' = es_log t' s
}.

(** ** The in-memory store *)

Module Memory.

(** [self._events], [self._messages] and [self._seq_counters]. *)
Record mem_store : Type := mk_mem {
  mem_events : list (string * list run_event);
  mem_messages : list (string * list run_event);
  mem_seq_counters : list (string * Z)
}.

Definition empty : mem_store := mk_mem [] [] [].

Definition events_of (t : string) (s : mem_store) : list run_event := opt_or (dict_get t (mem_events s)) [].
Definition messages_of (t : string) (s : mem_store) : list run_event := opt_or (dict_get t (mem_messages s)) [].
Definition counter_of (t : string) (s : mem_store) : Z := opt_or (dict_get t (mem_seq_counters s)) 0.

(** [_next_seq]. *)
Definition next_seq (thread_id : string) (s : mem_store) : Z * mem_store :=
  let next_val := counter_of thread_id s + 1 in
  (next_val, mk_mem (mem_events s) (mem_messages s) (dict_set thread_id next_val (mem_seq_counters s))).

(** [_put_one]; [d.setdefault(k, []).append(x)] writes the list with [x] at
    its end back under [k]. *)
Definition put_one (now : Z) (a : event_args) (s : mem_store) : run_event * mem_store :=
  let thread_id := pa_thread_id a in
  let '(seq, s1) := next_seq thread_id s in
  let record := mk_run_event thread_id (pa_run_id a) (pa_event_type a) (pa_category a) (pa_content a)
                  (opt_or (pa_metadata a) []) seq (opt_or (pa_created_at a) now) in
  (record,
   mk_mem (dict_set thread_id (events_of thread_id s1 ++ [record]) (mem_events s1))
     (if String.eqb (pa_category a) "message"
      then dict_set thread_id (messages_of thread_id s1 ++ [record]) (mem_messages s1) else mem_messages s1)
     (mem_seq_counters s1)).

Definition put (now : Z) (a : event_args) (s : mem_store) : run_event * mem_store := put_one now a s.

Fixpoint put_batch (now : Z) (l : list event_args) (s : mem_store) : list run_event * mem_store :=
  match l with
  | [] => ([], s)
  | a :: l' =>
      let '(record, s1) := put_one now a s in
      let '(results, s2) := put_batch now l' s1 in
      (record :: results, s2)
  end.

Definition list_messages (thread_id : string) (limit : Z) (before_seq after_seq : option Z) (s : mem_store)
    : list run_event :=
  let messages := messages_of thread_id s in
  match before_seq, after_seq with
  | Some b, _ =>
      let hi := Z.of_nat (bisect_left ev_seq messages b) in
      py_slice (Some (Z.max 0 (hi - limit))) (Some hi) messages
  | None, Some a =>
      let lo := Z.of_nat (bisect_right ev_seq messages a) in
      py_slice (Some lo) (Some (lo + limit)) messages
  | None, None => py_slice (Some (- limit)) None messages
  end.

Definition list_events (thread_id run_id : string) (event_types : option (list string)) (limit : Z)
    (s : mem_store) : list run_event :=
  let filtered := List.filter (of_run run_id) (events_of thread_id s) in
  let filtered :=
    match event_types with
    | None => filtered
    | Some types => List.filter (fun e => bool_decide (ev_event_type e ∈ types)) filtered
    end in
  py_slice None (Some limit) filtered.

Definition list_messages_by_run (thread_id run_id : string) (limit : Z) (before_seq after_seq : option Z)
    (s : mem_store) : list run_event :=
  let filtered := List.filter (fun e => of_run run_id e && is_message e) (events_of thread_id s) in
  let filtered :=
    match before_seq with None => filtered | Some b => List.filter (fun e => ev_seq e <? b) filtered end in
  match after_seq with
  | Some a => py_slice None (Some limit) (List.filter (fun e => a <? ev_seq e) filtered)
  | None => if limit <? Z.of_nat (length filtered) then py_slice (Some (- limit)) None filtered else filtered
  end.

Definition count_messages (thread_id : string) (s : mem_store) : Z :=
  Z.of_nat (length (messages_of thread_id s)).

Definition delete_by_thread (thread_id : string) (s : mem_store) : Z * mem_store :=
  (Z.of_nat (length (events_of thread_id s)),
   mk_mem (dict_pop thread_id (mem_events s)) (dict_pop thread_id (mem_messages s))
     (dict_pop thread_id (mem_seq_counters s))).

Definition delete_by_run (thread_id run_id : string) (s : mem_store) : Z * mem_store :=
  match events_of thread_id s with
  | [] => (0, s)
  | all_events =>
      let remaining := List.filter (fun e => negb (of_run run_id e)) all_events in
      (Z.of_nat (length all_events) - Z.of_nat (length remaining),
       mk_mem (dict_set thread_id remaining (mem_events s))
         (dict_set thread_id (List.filter is_message remaining) (mem_messages s)) (mem_seq_counters s))
  end.

(** ** Its invariant and the contract *)

(** The message projection is the messages of the events, the events are in
    increasing order and the counter is at or above all of them. *)
Definition mem_wf (s : mem_store) : Prop :=
  forall t, messages_of t s = List.filter is_message (events_of t s)
    /\ increasing (events_of t s)
    /\ Forall (fun e => ev_thread_id e = t /\ ev_seq e <= counter_of t s) (events_of t s).

Lemma opt_or_set {V} (d : list (string * V)) t t' v x :
  opt_or (dict_get t' (dict_set t v d)) x = if decide (t = t') then v else opt_or (dict_get t' d) x.
Proof. rewrite dict_get_set. by case_decide. Qed.

Lemma opt_or_pop {V} (d : list (string * V)) t t' x :
  opt_or (dict_get t' (dict_pop t d)) x = if decide (t = t') then x else opt_or (dict_get t' d) x.
Proof. rewrite dict_get_pop. by case_decide. Qed.

Lemma empty_wf : mem_wf empty.
Proof. intros t. repeat constructor. Qed.

Lemma put_one_spec now a s r s' :
  mem_wf s -> put_one now a s = (r, s') ->
  mem_wf s' /\ recorded a now r /\ ev_content r = pa_content a
  /\ events_of (pa_thread_id a) s' = events_of (pa_thread_id a) s ++ [r]
  /\ (forall t, t <> pa_thread_id a -> events_of t s' = events_of t s)
  /\ counter_of (pa_thread_id a) s' = ev_seq r.
Proof.
  intros Hwf [= <- <-]. set (t0 := pa_thread_id a). set (r := mk_run_event _ _ _ _ _ _ _ _).
  assert (Hev : forall t, events_of t
    (mk_mem (dict_set t0 (events_of t0 s ++ [r]) (mem_events s))
       (if String.eqb (pa_category a) "message" then dict_set t0 (messages_of t0 s ++ [r]) (mem_messages s) else mem_messages s)
       (dict_set t0 (counter_of t0 s + 1) (mem_seq_counters s)))
    = if decide (t0 = t) then events_of t0 s ++ [r] else events_of t s) by (intros t; apply opt_or_set).
  split_and!; [|by repeat split|done|by rewrite Hev, decide_True|intros t Ht; by rewrite Hev, decide_False
    |by unfold counter_of; simpl; rewrite opt_or_set, decide_True].
  intros t. destruct (Hwf t) as (Hm & Hs & Hall). rewrite Hev.
  unfold messages_of, counter_of; simpl. rewrite opt_or_set. case_decide as Ht.
  - subst t. repeat split.
    + rewrite List.filter_app, <-Hm. simpl. unfold is_message at 1; simpl.
      destruct (String.eqb _ _); [by rewrite opt_or_set, decide_True|by rewrite app_nil_r].
    + apply sorted_snoc; [done|]. eapply Forall_impl; [done|]. intros e [_ He]. unfold r; simpl. unfold counter_of in *. lia.
    + apply Forall_app. split; [|constructor; [unfold r, counter_of; simpl; split; [done|lia]|done]].
      eapply Forall_impl; [done|]. intros e [Ht He]. split; [done|]. unfold counter_of in *. lia.
  - repeat split; [|done|done]. destruct (String.eqb _ _); [|done]. by rewrite opt_or_set, decide_False.
Qed.

Lemma put_batch_spec now l s rs s' t :
  mem_wf s -> Forall (fun a => pa_thread_id a = t) l -> put_batch now l s = (rs, s') ->
  mem_wf s' /\ Forall2 (fun a r => recorded a now r /\ (True -> ev_content r = pa_content a)) l rs
  /\ events_of t s' = events_of t s ++ rs /\ forall t', t' <> t -> events_of t' s' = events_of t' s.
Proof.
  revert s rs. induction l as [|a l IH]; intros s rs Hwf Hl Hp; cbn [put_batch] in Hp.
  - simplify_eq. rewrite app_nil_r. done.
  - destruct (put_one now a s) as [r s1] eqn:H1. destruct (put_batch now l s1) as [rs2 s2] eqn:H2. simplify_eq.
    inversion Hl as [|? ? Ha Hl']; subst. destruct (put_one_spec _ _ _ _ _ Hwf H1) as (Hwf1 & Hr & Hc & He & Ho & _).
    destruct (IH _ _ Hwf1 Hl' H2) as (Hwf2 & Hf & He2 & Ho2). split_and!; [done|by constructor| |].
    + by rewrite He2, He, <-app_assoc.
    + intros t' Ht'. by rewrite Ho2, Ho.
Qed.

(** The bisected slices of [list_messages] are the page of the contract. *)
Lemma list_messages_window s t limit before_seq after_seq :
  mem_wf s -> 0 < limit -> before_seq = None \/ after_seq = None ->
  list_messages t limit before_seq after_seq s
  = window limit before_seq after_seq (List.filter is_message (events_of t s)).
Proof.
  intros Hwf Hlim Hone. destruct (Hwf t) as (Hm & Hs & _). unfold list_messages, window.
  apply (sorted_filter ev_seq is_message) in Hs. rewrite <-Hm in *. set (m := messages_of t s) in *.
  destruct before_seq as [b|], after_seq as [x|]; [by destruct Hone| | |by apply py_slice_last].
  - destruct (bisect_left_filter ev_seq m b Hs) as [Hle Hf]. rewrite <-Hf.
    replace (Z.max 0 _) with (Z.of_nat (bisect_left ev_seq m b - Z.to_nat limit)%nat) by lia.
    rewrite py_slice_range by done. unfold latest. rewrite length_take. f_equal. lia.
  - destruct (bisect_right_filter ev_seq m x Hs) as [Hle Hf]. rewrite <-Hf.
    unfold py_slice, slice_index. rewrite !(proj2 (Z.ltb_ge _ _)) by lia.
    replace (Z.to_nat (Z.min _ (Z.of_nat _))) with (bisect_right ev_seq m x) by lia.
    destruct (decide (Z.of_nat (bisect_right ev_seq m x) + limit <= Z.of_nat (length m))).
    + f_equal. lia.
    + rewrite !take_ge; [done|rewrite length_drop; lia..].
Qed.

Lemma list_messages_by_run_window s t run_id limit before_seq after_seq :
  mem_wf s -> 0 < limit ->
  list_messages_by_run t run_id limit before_seq after_seq s
  = window limit before_seq after_seq (List.filter is_message (List.filter (of_run run_id) (events_of t s))).
Proof.
  intros Hwf Hlim. unfold list_messages_by_run, window. rewrite filter_andb.
  destruct after_seq as [x|]; [apply py_slice_first; lia|].
  destruct (_ <? _) eqn:Hlt; [by apply py_slice_last|]. apply Z.ltb_ge in Hlt. rewrite latest_ge; [done|lia].
Qed.

Lemma delete_by_run_spec s t run_id n s' :
  mem_wf s -> delete_by_run t run_id s = (n, s') ->
  mem_wf s' /\ n = Z.of_nat (length (List.filter (of_run run_id) (events_of t s)))
  /\ events_of t s' = List.filter (fun e => negb (of_run run_id e)) (events_of t s)
  /\ forall t', t' <> t -> events_of t' s' = events_of t' s.
Proof.
  intros Hwf Hd. unfold delete_by_run in Hd. destruct (events_of t s) as [|e0 l0] eqn:He.
  { simplify_eq. rewrite He. done. }
  rewrite <-He in Hd. simplify_eq. set (remaining := List.filter _ (events_of t s)).
  assert (Hev : forall t', events_of t'
    (mk_mem (dict_set t remaining (mem_events s))
       (dict_set t (List.filter is_message remaining) (mem_messages s)) (mem_seq_counters s))
    = if decide (t = t') then remaining else events_of t' s) by (intros t'; apply opt_or_set).
  rewrite <-He. split_and!; [| |by rewrite Hev, decide_True|intros t' Ht'; by rewrite Hev, decide_False].
  - intros t'. destruct (Hwf t') as (Hm & Hs & Hall). rewrite Hev. unfold messages_of, counter_of; simpl.
    rewrite opt_or_set. case_decide as Ht; [subst t'|done]. repeat split; [by apply sorted_filter|].
    apply Forall_forall. intros e Hin. apply list_elem_of_In, filter_In in Hin as [Hin _].
    apply list_elem_of_In in Hin. rewrite Forall_forall in Hall. by apply Hall.
  - pose proof (filter_negb_length (of_run run_id) (events_of t s)). subst remaining. lia.
Qed.

Lemma delete_by_thread_spec s t n s' :
  mem_wf s -> delete_by_thread t s = (n, s') ->
  mem_wf s' /\ n = Z.of_nat (length (events_of t s)) /\ events_of t s' = []
  /\ forall t', t' <> t -> events_of t' s' = events_of t' s.
Proof.
  intros Hwf Hd. unfold delete_by_thread in Hd. simplify_eq.
  split_and!; [|done|by unfold events_of; simpl; rewrite opt_or_pop, decide_True
    |intros t' Ht'; by unfold events_of; simpl; rewrite opt_or_pop, decide_False].
  intros t'. specialize (Hwf t'). unfold events_of, messages_of, counter_of in *; simpl.
  rewrite !opt_or_pop. case_decide; [|done]. repeat constructor.
Qed.

#[global] Program Instance MemoryRunEventStore : RunEventStore mem_store := {
  es_put fault now a s := (Ok (put now a s).1, (put now a s).2);
  es_put_batch fault now l s := (Ok (put_batch now l s).1, (put_batch now l s).2);
  es_list_messages := list_messages;
  es_list_events := list_events;
  es_list_messages_by_run := list_messages_by_run;
  es_count_messages := count_messages;
  es_delete_by_thread := delete_by_thread;
  es_delete_by_run := delete_by_run;
  es_wf := mem_wf;
  es_log := events_of;
  es_admits _ := True;
  es_keeps _ := True
}.
Next Obligation.
  intros s t Hwf. destruct (Hwf t) as (_ & Hs & Hall). split; [done|].
  eapply Forall_impl; [done|]. by intros e [? _].
Qed.
Next Obligation.
  intros fault now a s r s' Hwf Hp. unfold put in Hp. destruct (put_one now a s) as [r1 s1] eqn:H1.
  simplify_eq/=.
  destruct (put_one_spec _ _ _ _ _ Hwf H1) as (? & ? & ? & ? & ? & _). done.
Qed.
Next Obligation.
  intros fault now l s rs s' t Hwf Hl Hp. destruct (put_batch now l s) as [rs1 s1] eqn:H1.
  simpl in Hp. rewrite H1 in Hp. simplify_eq/=. exact (put_batch_spec _ _ _ _ _ _ Hwf Hl H1).
Qed.
Next Obligation. intros fault now l s e s' Hp. simplify_eq. Qed.
Next Obligation. eauto. Qed.
Next Obligation. intros. by apply list_messages_window. Qed.
Next Obligation. intros. by apply list_messages_by_run_window. Qed.
Next Obligation.
  intros s t run_id types limit _ Hlim Htypes. unfold list_events. rewrite py_slice_first by done.
  destruct types; [done|]. by rewrite filter_true.
Qed.
Next Obligation. intros s t Hwf. destruct (Hwf t) as (Hm & _). unfold count_messages. by rewrite Hm. Qed.
Next Obligation. intros. by apply delete_by_thread_spec. Qed.
Next Obligation. intros. by apply delete_by_run_spec. Qed.

End Memory.
