(* ===== verification/EventStoreDb.v ===== *)
(** * The database event store

    [runtime/events/store/db.py] on the table of
    [persistence/models/run_event.py]: the second implementation of the
    contract of [EventStore].  A statement has its effect on the table and its
    constraints; the advisory lock or [FOR UPDATE] of a write makes the write
    one step.  The JSON codec and the rendering of instants are parameters; the
    UTF-8 length and cut are those of code points below 256. *)
From S2P Require Import Prelude PyList EventStore.
From Stdlib Require Import Ascii.
Local Open Scope string_scope.
Local Open Scope Z_scope.
Local Open Scope list_scope.

(** [RunEventRow]; [der_org_id] is NOT NULL, so a row has one. *)
Record run_event_row : Type := mk_event_row {
  der_thread_id : string;
  der_run_id : string;
  der_user_id : option string;
  der_org_id : string;
  der_event_type : string;
  der_category : string;
  der_content : string;
  der_event_metadata : list (string * json);
  der_seq : Z;
  der_created_at : Z
}.

Definition flagged (k : string) (metadata : list (string * json)) : bool :=
  match dict_get k metadata with Some v => json_truthy v | None => false end.

(** [len(s.encode("utf-8"))] and [s.encode("utf-8")[:n].decode("utf-8", errors="ignore")]. *)
Definition utf8_width (a : ascii) : nat := if (nat_of_ascii a <? 128)%nat then 1 else 2.

Fixpoint utf8_length (s : string) : nat :=
  match s with "" => 0 | String a s' => utf8_width a + utf8_length s' end%nat.

Fixpoint utf8_cut (n : nat) (s : string) : string :=
  match s with
  | "" => ""
  | String a s' => if (utf8_width a <=? n)%nat then String a (utf8_cut (n - utf8_width a) s') else ""
  end.

(** The [org_id] argument of a query and [resolve_org_id]. *)
Inductive org_arg : Type := AUTO_ORG | ExplicitOrg (org_id : option string).

Definition resolve_org_id (a : org_arg) (bound : option string) : result string (option string) :=
  match a, bound with
  | AUTO_ORG, None => Err "RuntimeError"
  | AUTO_ORG, Some o => Ok (Some o)
  | ExplicitOrg o, _ => Ok o
  end.

(** [ORDER BY seq] both ways and [LIMIT]; a negative limit is none, as on
    SQLite. *)
Definition order_asc (l : list run_event_row) : list run_event_row := sort_by (fun x y => der_seq x <=? der_seq y) l.
Definition order_desc (l : list run_event_row) : list run_event_row := sort_by (fun x y => der_seq y <=? der_seq x) l.
Definition sql_limit {A} (n : Z) (l : list A) : list A := if n <? 0 then l else take (Z.to_nat n) l.

Section db.
Context (dumps : json -> string) (loads : string -> option json) (iso : Z -> string).
Context (max_trace_content : Z).

(** [content if isinstance(content, str)]. *)
Definition as_text (content : json) : option string :=
  match content with JStr s => Some s | JIso t => Some (iso t) | _ => None end.

(** [_row_to_dict]. *)
Definition row_to_dict (row : run_event_row) : run_event :=
  let metadata := der_event_metadata row in
  let content :=
    if flagged "content_is_json" metadata || flagged "content_is_dict" metadata
    then match loads (der_content row) with Some v => v | None => JStr (der_content row) end
    else JStr (der_content row) in
  mk_run_event (der_thread_id row) (der_run_id row) (der_event_type row) (der_category row) content metadata
    (der_seq row) (der_created_at row).

(** [_truncate_trace]. *)
Definition truncate_trace (category : string) (content : json) (metadata : option (list (string * json)))
    : json * list (string * json) :=
  let given := opt_or metadata [] in
  if String.eqb category "trace" then
    let text := opt_or (as_text content) (dumps content) in
    let bytes := Z.of_nat (utf8_length text) in
    if max_trace_content <? bytes then
      (JStr (utf8_cut (Z.to_nat max_trace_content) text),
       dict_set "original_byte_length" (JNum bytes) (dict_set "content_truncated" (JBool true) given))
    else (content, given)
  else (content, given).

(** [_content_to_db]. *)
Definition content_to_db (content : json) (metadata : list (string * json)) : string * list (string * json) :=
  match as_text content with
  | Some s => (s, metadata)
  | None =>
      let metadata := dict_set "content_is_json" (JBool true) metadata in
      (dumps content,
       match content with JObj _ => dict_set "content_is_dict" (JBool true) metadata | _ => metadata end)
  end.

(** [_max_seq_for_thread]: the aggregate over the rows of every Org. *)
Definition max_seq_for_thread (thread_id : string) (rows : list run_event_row) : option Z :=
  match List.filter (fun r => String.eqb (der_thread_id r) thread_id) rows with
  | [] => None
  | r :: l => Some (foldr (fun r m => Z.max (der_seq r) m) (der_seq r) l)
  end.

Definition make_row (user_id : option string) (org_id : string) (now : Z) (a : event_args) (seq : Z) : run_event_row :=
  let '(content, metadata) := truncate_trace (pa_category a) (pa_content a) (pa_metadata a) in
  let '(db_content, metadata) := content_to_db content metadata in
  mk_event_row (pa_thread_id a) (pa_run_id a) user_id org_id (pa_event_type a) (pa_category a) db_content
    metadata seq (opt_or (pa_created_at a) now).

(** The commit: a fault, a missing Org (NOT NULL) or an unknown one (foreign
    key) rolls the transaction back. *)
Definition commit (fault : option string) (orgs : list string) (org_id : option string)
    (rows_of : string -> list run_event_row) (rows : list run_event_row) : result string (list run_event) * list run_event_row :=
  match fault, org_id with
  | Some e, _ => (Err e, rows)
  | None, None => (Err "IntegrityError", rows)
  | None, Some o =>
      if bool_decide (o ∈ orgs) then (Ok (row_to_dict <$> rows_of o), rows ++ rows_of o)
      else (Err "IntegrityError", rows)
  end.

Definition put (fault : option string) (orgs : list string) (user_id org_id : option string) (now : Z) (a : event_args)
    (rows : list run_event_row) : result string run_event * list run_event_row :=
  let seq := opt_or (max_seq_for_thread (pa_thread_id a) rows) 0 + 1 in
  match commit fault orgs org_id (fun o => [make_row user_id o now a seq]) rows with
  | (Ok [e], rows') => (Ok e, rows')
  | (Ok _, rows') => (Err "unreachable", rows')
  | (Err e, rows') => (Err e, rows')
  end.

Fixpoint batch_rows (user_id : option string) (org_id : string) (now : Z) (seq : Z) (l : list event_args)
    : list run_event_row :=
  match l with
  | [] => []
  | a :: l' => make_row user_id org_id now a (seq + 1) :: batch_rows user_id org_id now (seq + 1) l'
  end.

Definition put_batch (fault : option string) (orgs : list string) (user_id org_id : option string) (now : Z)
    (events : list event_args) (rows : list run_event_row) : result string (list run_event) * list run_event_row :=
  match events with
  | [] => (Ok [], rows)
  | a :: _ =>
      let thread_id := pa_thread_id a in
      if negb (forallb (fun b => String.eqb (pa_thread_id b) thread_id) events) then (Err "ValueError", rows)
      else
        let seq := opt_or (max_seq_for_thread thread_id rows) 0 in
        commit fault orgs org_id (fun o => batch_rows user_id o now seq events) rows
  end.

(** The conditions the queries share. *)
Definition in_thread (thread_id : string) (org_id : option string) (r : run_event_row) : bool :=
  String.eqb (der_thread_id r) thread_id && match org_id with None => true | Some o => String.eqb (der_org_id r) o end.

Definition row_is_message (r : run_event_row) : bool := String.eqb (der_category r) "message".
Definition row_of_run (run_id : string) (r : run_event_row) : bool := String.eqb (der_run_id r) run_id.

(** The two halves of a paginated query. *)
Definition page (limit : Z) (before_seq after_seq : option Z) (l : list run_event_row) : list run_event :=
  let l := match before_seq with None => l | Some b => List.filter (fun r => der_seq r <? b) l end in
  match after_seq with
  | Some a => row_to_dict <$> sql_limit limit (order_asc (List.filter (fun r => a <? der_seq r) l))
  | None => row_to_dict <$> reverse (sql_limit limit (order_desc l))
  end.

Definition list_messages (thread_id : string) (limit : Z) (before_seq after_seq : option Z) (org_id : option string)
    (rows : list run_event_row) : list run_event :=
  page limit before_seq after_seq (List.filter row_is_message (List.filter (in_thread thread_id org_id) rows)).

Definition list_events (thread_id run_id : string) (event_types : option (list string)) (limit : Z)
    (org_id : option string) (rows : list run_event_row) : list run_event :=
  let l := List.filter (row_of_run run_id) (List.filter (in_thread thread_id org_id) rows) in
  let l :=
    match event_types with
    | None | Some [] => l
    | Some types => List.filter (fun r => bool_decide (der_event_type r ∈ types)) l
    end in
  row_to_dict <$> sql_limit limit (order_asc l).

Definition list_messages_by_run (thread_id run_id : string) (limit : Z) (before_seq after_seq : option Z)
    (org_id : option string) (rows : list run_event_row) : list run_event :=
  page limit before_seq after_seq
    (List.filter row_is_message (List.filter (row_of_run run_id) (List.filter (in_thread thread_id org_id) rows))).

Definition count_messages (thread_id : string) (org_id : option string) (rows : list run_event_row) : Z :=
  Z.of_nat (length (List.filter row_is_message (List.filter (in_thread thread_id org_id) rows))).

(** [delete] where [cond] holds, when any row does. *)
Definition delete_where (cond : run_event_row -> bool) (rows : list run_event_row) : Z * list run_event_row :=
  let count := Z.of_nat (length (List.filter cond rows)) in
  (count, if 0 <? count then List.filter (fun r => negb (cond r)) rows else rows).

Definition delete_by_thread (thread_id : string) (org_id : option string) (rows : list run_event_row)
    : Z * list run_event_row := delete_where (in_thread thread_id org_id) rows.

Definition delete_by_run (thread_id run_id : string) (org_id : option string) (rows : list run_event_row)
    : Z * list run_event_row := delete_where (fun r => in_thread thread_id org_id r && row_of_run run_id r) rows.

(** ** The table invariant *)

(** [seq] increases along the rows of a thread, over all Orgs. *)
Definition db_wf (rows : list run_event_row) : Prop :=
  forall t, StronglySorted Z.lt (der_seq <$> List.filter (fun r => String.eqb (der_thread_id r) t) rows).

(** What a tenant sees of a thread. *)
Definition log (org_id t : string) (rows : list run_event_row) : list run_event :=
  row_to_dict <$> List.filter (in_thread t (Some org_id)) rows.

Lemma order_asc_sorted l : StronglySorted Z.lt (der_seq <$> l) -> order_asc l = l.
Proof using.
  unfold order_asc. induction l as [|x l IH]; intros Hs; simpl; [done|]. inversion Hs as [|? ? Hs' Hall]; subst.
  rewrite IH by done. destruct l as [|y l]; simpl; [done|]. apply Forall_inv in Hall.
  assert (Hle : (der_seq x <=? der_seq y) = true) by lia. by rewrite Hle.
Qed.

Lemma insert_desc_last x l :
  Forall (fun y => der_seq x < der_seq y) l -> insert_by (fun x y => der_seq y <=? der_seq x) x l = l ++ [x].
Proof using.
  induction 1 as [|y l Hy _ IH]; simpl; [done|].
  assert (Hle : (der_seq y <=? der_seq x) = false) by lia. by rewrite Hle, IH.
Qed.

Lemma order_desc_sorted l : StronglySorted Z.lt (der_seq <$> l) -> order_desc l = reverse l.
Proof using.
  unfold order_desc. induction l as [|x l IH]; intros Hs; simpl; [done|]. inversion Hs as [|? ? Hs' Hall]; subst.
  rewrite IH, reverse_cons by done. apply insert_desc_last. rewrite Forall_fmap in Hall.
  by rewrite reverse_Permutation.
Qed.

(** On rows in order, a query is the page of the contract. *)
Lemma page_window limit before_seq after_seq l :
  StronglySorted Z.lt (der_seq <$> l) -> 0 < limit ->
  page limit before_seq after_seq l = window limit before_seq after_seq (row_to_dict <$> l).
Proof using.
  intros Hs Hlim. unfold page, window.
  assert (Hb : match before_seq with None => row_to_dict <$> l
                 | Some b => List.filter (fun e => ev_seq e <? b) (row_to_dict <$> l) end
      = row_to_dict <$> match before_seq with None => l | Some b => List.filter (fun r => der_seq r <? b) l end).
  { destruct before_seq; [apply filter_fmap|done]. }
  rewrite Hb. set (l1 := match before_seq with None => l | Some b => _ end).
  assert (Hs1 : StronglySorted Z.lt (der_seq <$> l1)) by (unfold l1; destruct before_seq; [by apply sorted_filter|done]).
  unfold sql_limit. rewrite (proj2 (Z.ltb_ge _ _)) by lia. destruct after_seq as [a|].
  - rewrite order_asc_sorted by (by apply sorted_filter). by rewrite filter_fmap, fmap_take.
  - by rewrite order_desc_sorted, latest_reverse, latest_fmap.
Qed.

Lemma in_thread_sorted rows t o : db_wf rows -> StronglySorted Z.lt (der_seq <$> List.filter (in_thread t o) rows).
Proof using. intros Hwf. unfold in_thread. rewrite filter_andb. apply sorted_filter, Hwf. Qed.

Lemma max_seq_bound rows t r :
  r ∈ rows -> der_thread_id r = t -> der_seq r <= opt_or (max_seq_for_thread t rows) 0.
Proof using.
  intros Hin Ht. unfold max_seq_for_thread.
  assert (Hf : r ∈ List.filter (fun r => String.eqb (der_thread_id r) t) rows).
  { apply list_elem_of_In, filter_In. split; [by apply list_elem_of_In|by apply String.eqb_eq]. }
  destruct (List.filter _ rows) as [|x l]; [by apply not_elem_of_nil in Hf|]. simpl. clear Hin.
  revert Hf. induction l as [|y l IH]; intros Hf; simpl.
  - apply list_elem_of_singleton in Hf as ->. lia.
  - apply elem_of_cons in Hf as [->|Hf]; [specialize (IH ltac:(by left)); lia|].
    apply elem_of_cons in Hf as [->|Hf]; [lia|]. specialize (IH ltac:(by right)). lia.
Qed.

(** Rows of one thread and Org above the maximum, in order, keep the table. *)
Lemma append_spec rows new t org :
  db_wf rows -> Forall (fun r => der_thread_id r = t /\ der_org_id r = org) new ->
  StronglySorted Z.lt (der_seq <$> new) ->
  Forall (fun r => opt_or (max_seq_for_thread t rows) 0 < der_seq r) new ->
  db_wf (rows ++ new) /\ log org t (rows ++ new) = log org t rows ++ (row_to_dict <$> new)
  /\ forall t', t' <> t -> log org t' (rows ++ new) = log org t' rows.
Proof using.
  intros Hwf Hnew Hs Hgt. unfold log. setoid_rewrite List.filter_app. setoid_rewrite fmap_app. split_and!.
  - intros t'. rewrite List.filter_app, fmap_app. destruct (decide (t' = t)) as [->|Ht].
    + rewrite (filter_accepts _ new) by (eapply Forall_impl; [exact Hnew|]; intros r [? _]; by apply String.eqb_eq).
      apply StronglySorted_app_2; [|apply Hwf|done]. intros a b Ha Hb.
      apply list_elem_of_fmap in Ha as (r & -> & Hr). apply list_elem_of_fmap in Hb as (r' & -> & Hr').
      apply list_elem_of_In, filter_In in Hr as [Hr Hrt]. apply list_elem_of_In in Hr. apply String.eqb_eq in Hrt.
      rewrite Forall_forall in Hgt. specialize (Hgt r' Hr'). pose proof (max_seq_bound rows t r Hr Hrt). lia.
    + rewrite (filter_rejects _ new); [rewrite app_nil_r; apply Hwf|].
      eapply Forall_impl; [exact Hnew|]. intros r [? _]. apply String.eqb_neq. congruence.
  - f_equal. rewrite filter_accepts; [done|]. eapply Forall_impl; [exact Hnew|]. intros r [H1 H2].
    unfold in_thread. by rewrite H1, H2, !String.eqb_refl.
  - intros t' Ht. rewrite (filter_rejects _ new); [by rewrite app_nil_r|].
    eapply Forall_impl; [exact Hnew|]. intros r [H1 _]. unfold in_thread.
    by rewrite H1, (proj2 (String.eqb_neq t t')).
Qed.

(** *** Writes *)

(** The text a trace is measured by fits the bound. *)
Definition trace_fits (a : event_args) : Prop :=
  pa_category a = "trace" ->
  Z.of_nat (utf8_length (opt_or (as_text (pa_content a)) (dumps (pa_content a)))) <= max_trace_content.

(** The content comes back as written: the trace is not cut, text is not
    marked as JSON by the caller's metadata, and the codec reads back what it
    wrote. *)
Definition db_keeps (a : event_args) : Prop :=
  trace_fits a
  /\ match pa_content a with
     | JStr _ => flagged "content_is_json" (opt_or (pa_metadata a) []) = false
                 /\ flagged "content_is_dict" (opt_or (pa_metadata a) []) = false
     | JIso _ => False
     | c => loads (dumps c) = Some c
     end.

Lemma make_row_fields user_id org now a seq :
  let r := make_row user_id org now a seq in
  der_thread_id r = pa_thread_id a /\ der_org_id r = org /\ der_seq r = seq /\ recorded a now (row_to_dict r).
Proof using.
  unfold make_row. destruct (truncate_trace _ _ _) as [c m]. destruct (content_to_db c m) as [s m'].
  repeat split.
Qed.

Lemma truncate_trace_fits a :
  trace_fits a -> truncate_trace (pa_category a) (pa_content a) (pa_metadata a)
                  = (pa_content a, opt_or (pa_metadata a) []).
Proof using.
  intros Hf. unfold truncate_trace. destruct (String.eqb_spec (pa_category a) "trace") as [Hc|]; [|done].
  specialize (Hf Hc). by rewrite (proj2 (Z.ltb_ge _ _)).
Qed.

Lemma flagged_set_same k m : flagged k (dict_set k (JBool true) m) = true.
Proof using. unfold flagged. by rewrite dict_get_set_eq. Qed.

Lemma flagged_set_mono k k' m : flagged k m = true -> flagged k (dict_set k' (JBool true) m) = true.
Proof using. unfold flagged. rewrite dict_get_set. by case_decide. Qed.

(** Write, then read: the content survives the columns. *)
Lemma make_row_content user_id org now a seq :
  db_keeps a -> ev_content (row_to_dict (make_row user_id org now a seq)) = pa_content a.
Proof using.
  intros [Hf Hc]. unfold make_row. rewrite truncate_trace_fits by done.
  unfold row_to_dict, content_to_db. destruct (pa_content a) as [| | |s| | |] eqn:E; simpl in *;
    try (rewrite ?flagged_set_same, ?flagged_set_mono by apply flagged_set_same; simpl; by rewrite Hc); [|done].
  destruct Hc as [H1 H2]. by rewrite H1, H2.
Qed.

Lemma batch_rows_spec user_id org now seq l t :
  Forall (fun a => pa_thread_id a = t) l ->
  let new := batch_rows user_id org now seq l in
  Forall (fun r => der_thread_id r = t /\ der_org_id r = org) new
  /\ StronglySorted Z.lt (der_seq <$> new) /\ Forall (fun r => seq < der_seq r) new
  /\ Forall2 (fun a e => recorded a now e /\ (db_keeps a -> ev_content e = pa_content a)) l (row_to_dict <$> new).
Proof using.
  intros Hl. revert seq. induction Hl as [|a l Ha Hl IH]; intros seq; simpl; [repeat constructor|].
  destruct (IH (seq + 1)) as (H1 & H2 & H3 & H4).
  destruct (make_row_fields user_id org now a (seq + 1)) as (Ft & Fo & Fs & Fr). split_and!.
  - constructor; [by rewrite Ft, Fo|done].
  - constructor; [done|]. rewrite Fs. by rewrite Forall_fmap.
  - constructor; [lia|]. eapply Forall_impl; [exact H3|]. simpl. intros; lia.
  - constructor; [|done]. split; [done|]. apply make_row_content.
Qed.

Lemma commit_ok fault orgs org new rows es rows' :
  commit fault orgs (Some org) new rows = (Ok es, rows') ->
  es = row_to_dict <$> new org /\ rows' = rows ++ new org.
Proof using. unfold commit. intros Hc. split_tests; done. Qed.

Lemma commit_err fault orgs o new rows e rows' : commit fault orgs o new rows = (Err e, rows') -> rows' = rows.
Proof using. unfold commit. intros Hc. split_tests; done. Qed.

(** *** Deletes *)

Lemma delete_where_spec cond rows n rows' :
  delete_where cond rows = (n, rows') ->
  n = Z.of_nat (length (List.filter cond rows)) /\ rows' = List.filter (fun r => negb (cond r)) rows.
Proof using.
  unfold delete_where. intros [= <- <-]. split; [done|]. destruct (0 <? _) eqn:H0; [done|].
  apply Z.ltb_ge in H0. symmetry. apply filter_accepts. apply Forall_forall. intros r Hr.
  apply negb_true_iff, not_true_is_false. intros Hc.
  assert (Hin : r ∈ List.filter cond rows) by (apply list_elem_of_In, filter_In; split; [by apply list_elem_of_In|done]).
  destruct (List.filter cond rows) as [|x l]; [by apply not_elem_of_nil in Hin|simpl in H0; lia].
Qed.

Lemma filter_wf cond rows : db_wf rows -> db_wf (List.filter cond rows).
Proof using. intros Hwf t. rewrite filter_comm. apply sorted_filter, Hwf. Qed.

(** ** The contract, for the tenant a request is bound to *)

Context (orgs : list string) (user_id : option string) (org : string).

Lemma log_wf rows t :
  db_wf rows -> increasing (log org t rows) /\ Forall (fun e => ev_thread_id e = t) (log org t rows).
Proof using.
  intros Hwf. unfold log, increasing. rewrite <-list_fmap_compose. split; [by apply (in_thread_sorted rows t)|].
  rewrite Forall_fmap. apply Forall_forall. intros r Hr. apply list_elem_of_In, filter_In in Hr as [_ Hr].
  apply andb_true_iff in Hr as [Hr _]. by apply String.eqb_eq in Hr.
Qed.

Lemma db_put_ok fault now a rows e rows' :
  db_wf rows -> put fault orgs user_id (Some org) now a rows = (Ok e, rows') ->
  db_wf rows' /\ recorded a now e /\ (db_keeps a -> ev_content e = pa_content a)
  /\ log org (pa_thread_id a) rows' = log org (pa_thread_id a) rows ++ [e]
  /\ forall t, t <> pa_thread_id a -> log org t rows' = log org t rows.
Proof using.
  intros Hwf Hp. unfold put in Hp. set (t := pa_thread_id a) in *. set (seq := opt_or (max_seq_for_thread t rows) 0) in *.
  destruct (commit _ _ _ _ _) as [[es|] rows1] eqn:Hc; [|done]. apply commit_ok in Hc as [-> ->]. simplify_eq/=.
  destruct (make_row_fields user_id org now a (seq + 1)) as (Ft & Fo & Fs & Fr).
  destruct (append_spec rows [make_row user_id org now a (seq + 1)] t org) as (? & ? & ?); [done|by repeat constructor
    |repeat constructor|constructor; [rewrite Fs; unfold seq; lia|done]|].
  split_and!; try done. apply make_row_content.
Qed.

Lemma db_put_batch_ok fault now l rows es rows' t :
  db_wf rows -> Forall (fun a => pa_thread_id a = t) l ->
  put_batch fault orgs user_id (Some org) now l rows = (Ok es, rows') ->
  db_wf rows' /\ Forall2 (fun a e => recorded a now e /\ (db_keeps a -> ev_content e = pa_content a)) l es
  /\ log org t rows' = log org t rows ++ es /\ forall t', t' <> t -> log org t' rows' = log org t' rows.
Proof using.
  intros Hwf Hl Hp. unfold put_batch in Hp. destruct l as [|a l]; [simplify_eq; by rewrite app_nil_r|].
  destruct (negb _); [done|]. apply commit_ok in Hp as [-> ->].
  assert (Ht : pa_thread_id a = t) by (by inversion Hl). rewrite Ht.
  destruct (batch_rows_spec user_id org now (opt_or (max_seq_for_thread t rows) 0) (a :: l) t Hl) as (H1 & H2 & H3 & H4).
  destruct (append_spec rows _ t org Hwf H1 H2 H3) as (? & ? & ?). done.
Qed.

Lemma db_put_batch_err fault o now l rows e rows' :
  put_batch fault orgs user_id o now l rows = (Err e, rows') -> rows' = rows.
Proof using.
  unfold put_batch. destruct l; [done|]. destruct (negb _); [by intros [= <- <-]|]. apply commit_err.
Qed.

Lemma db_put_batch_total now l rows t :
  Forall (fun a => pa_thread_id a = t) l -> org ∈ orgs ->
  exists es rows', put_batch None orgs user_id (Some org) now l rows = (Ok es, rows').
Proof using.
  intros Hl Ho. unfold put_batch. destruct l as [|a l]; [eauto|].
  assert (Hall : forallb (fun b => String.eqb (pa_thread_id b) (pa_thread_id a)) (a :: l) = true).
  { apply forallb_forall. intros b Hb. apply list_elem_of_In in Hb. rewrite Forall_forall in Hl.
    apply String.eqb_eq. by rewrite (Hl b Hb), (Hl a ltac:(by left)). }
  rewrite Hall. unfold commit. rewrite bool_decide_eq_true_2 by done. simpl. eauto.
Qed.

Lemma log_delete cond rows t :
  log org t (List.filter (fun r => negb (cond r)) rows)
  = row_to_dict <$> List.filter (fun r => negb (cond r)) (List.filter (in_thread t (Some org)) rows).
Proof using. unfold log. by rewrite filter_comm. Qed.

Lemma filter_other_thread (cond : run_event_row -> bool) rows t t' :
  t' <> t -> (forall r, cond r = true -> der_thread_id r = t) ->
  List.filter (fun r => negb (cond r)) (List.filter (in_thread t' (Some org)) rows)
  = List.filter (in_thread t' (Some org)) rows.
Proof using.
  intros Ht Hc. apply filter_accepts, Forall_forall. intros r Hr.
  apply list_elem_of_In, filter_In in Hr as [_ Hr]. apply andb_true_iff in Hr as [Hr _]. apply String.eqb_eq in Hr.
  apply negb_true_iff, not_true_is_false. intros Hcr. apply Hc in Hcr. congruence.
Qed.

#[global] Program Instance DbRunEventStore : RunEventStore (list run_event_row) := {
  es_put fault now a rows := put fault orgs user_id (Some org) now a rows;
  es_put_batch fault now l rows := put_batch fault orgs user_id (Some org) now l rows;
  es_list_messages t limit before_seq after_seq rows := list_messages t limit before_seq after_seq (Some org) rows;
  es_list_events t run_id types limit rows := list_events t run_id types limit (Some org) rows;
  es_list_messages_by_run t run_id limit before_seq after_seq rows :=
    list_messages_by_run t run_id limit before_seq after_seq (Some org) rows;
  es_count_messages t rows := count_messages t (Some org) rows;
  es_delete_by_thread t rows := delete_by_thread t (Some org) rows;
  es_delete_by_run t run_id rows := delete_by_run t run_id (Some org) rows;
  es_wf := db_wf;
  es_log := log org;
  es_admits _ := org ∈ orgs;
  es_keeps := db_keeps
}.
Next Obligation. intros. by apply log_wf. Qed.
Next Obligation. intros fault now a rows e rows' Hwf Hp. exact (db_put_ok _ _ _ _ _ _ Hwf Hp). Qed.
Next Obligation. intros fault now l rows es rows' t Hwf Hl Hp. exact (db_put_batch_ok _ _ _ _ _ _ _ Hwf Hl Hp). Qed.
Next Obligation. intros fault now l rows e rows' Hp. exact (db_put_batch_err _ _ _ _ _ _ _ Hp). Qed.
Next Obligation.
  intros now l rows t _ Hl Ha. destruct l as [|a l]; [by repeat eexists|].
  apply (db_put_batch_total now _ rows t Hl). by inversion Ha.
Qed.
Next Obligation.
  intros rows t limit b a Hwf Hlim _. unfold list_messages, log.
  rewrite page_window by (done || by apply sorted_filter, in_thread_sorted). by rewrite filter_fmap.
Qed.
Next Obligation.
  intros rows t run_id limit b a Hwf Hlim. unfold list_messages_by_run, log.
  rewrite page_window by (done || by apply sorted_filter, sorted_filter, in_thread_sorted). by rewrite !filter_fmap.
Qed.
Next Obligation.
  intros rows t run_id types limit Hwf Hlim Htypes. unfold list_events, log.
  unfold sql_limit. rewrite (proj2 (Z.ltb_ge _ _)) by lia. rewrite !filter_fmap, <-fmap_take.
  pose proof (sorted_filter der_seq (row_of_run run_id) _ (in_thread_sorted rows t (Some org) Hwf)) as Hs.
  rewrite order_asc_sorted; [|destruct types as [[]|]; [done|by apply sorted_filter|done]].
  destruct types as [[|ty types]|]; [done|done|by rewrite filter_true].
Qed.
Next Obligation. intros rows t _. unfold count_messages, log. by rewrite filter_fmap, length_fmap. Qed.
Next Obligation.
  intros rows t n rows' Hwf Hd. apply delete_where_spec in Hd as [-> ->]. split_and!; [by apply filter_wf| | |].
  - unfold log. by rewrite length_fmap.
  - rewrite log_delete, filter_rejects; [done|]. apply Forall_forall. intros r Hr.
    apply list_elem_of_In, filter_In in Hr as [_ Hr]. by rewrite Hr.
  - intros t' Ht. rewrite log_delete, (filter_other_thread _ _ t t'); [done|done|].
    intros r Hr. apply andb_true_iff in Hr as [Hr _]. by apply String.eqb_eq.
Qed.
Next Obligation.
  intros rows t run_id n rows' Hwf Hd. apply delete_where_spec in Hd as [-> ->]. split_and!; [by apply filter_wf| | |].
  - unfold log. by rewrite filter_andb, filter_fmap, length_fmap.
  - rewrite log_delete. unfold log. rewrite filter_fmap. f_equal. apply filter_ext_in. intros r Hr.
    apply filter_In in Hr as [_ Hr]. rewrite Hr. done.
  - intros t' Ht. rewrite log_delete, (filter_other_thread _ _ t t'); [done|done|].
    intros r Hr. apply andb_true_iff in Hr as [Hr _]. apply andb_true_iff in Hr as [Hr _]. by apply String.eqb_eq.
Qed.

End db.
