(* ===== verification/EventClients.v ===== *)
(** * Clients of the event stores

    The message endpoints of [app/gateway/routers/runs.py] and
    [thread_runs.py] with [trim_run_message_page] of
    [app/gateway/pagination.py], against any store that meets the contract of
    [EventStore]: following the cursors reads every message once.  Then the two
    implementations are compared: they answer alike on the same writes, and
    the Examples at the end record where they do not. *)
From S2P Require Import Prelude PyList EventStore EventStoreDb.
Local Open Scope string_scope.
Local Open Scope Z_scope.
Local Open Scope list_scope.

(** [trim_run_message_page]. *)
Definition trim_run_message_page (rows : list run_event) (limit : Z) (after_seq : option Z)
    : list run_event * bool :=
  let has_more := limit <? Z.of_nat (length rows) in
  if negb has_more then (rows, false)
  else
    match after_seq with
    | Some _ => (py_slice None (Some limit) rows, true)
    | None => (py_slice (Some (- limit)) None rows, true)
    end.

Section endpoints.
Context {S : Type} `{RunEventStore S}.

(** [list_run_messages] (and [run_messages], once the run is found): data and
    [has_more]. *)
Definition list_run_messages (thread_id run_id : string) (limit : Z) (before_seq after_seq : option Z) (s : S)
    : list run_event * bool :=
  let rows := es_list_messages_by_run thread_id run_id (limit + 1) before_seq after_seq s in
  trim_run_message_page rows limit after_seq.

(** A reader that follows the cursors forward: the store it meets at each
    request is the next of [states]. *)
Definition last_seq (a : Z) (l : list run_event) : Z := match last l with Some e => ev_seq e | None => a end.

Fixpoint read_forward (thread_id run_id : string) (limit a : Z) (states : list S) : option (list run_event) :=
  match states with
  | [] => None
  | s :: rest =>
      let '(data, has_more) := list_run_messages thread_id run_id limit None (Some a) s in
      if has_more then app data <$> read_forward thread_id run_id limit (last_seq a data) rest else Some data
  end.

(** A reader that scrolls back. *)
Definition first_seq (b : Z) (l : list run_event) : Z := match l with e :: _ => ev_seq e | [] => b end.

Fixpoint read_backward (thread_id run_id : string) (limit b : Z) (states : list S) : option (list run_event) :=
  match states with
  | [] => None
  | s :: rest =>
      let '(data, has_more) := list_run_messages thread_id run_id limit (Some b) None s in
      if has_more then (fun l => l ++ data) <$> read_backward thread_id run_id limit (first_seq b data) rest
      else Some data
  end.

Lemma read_forward_cons t run_id limit a s rest :
  read_forward t run_id limit a (s :: rest)
  = let '(data, has_more) := list_run_messages t run_id limit None (Some a) s in
    if has_more then app data <$> read_forward t run_id limit (last_seq a data) rest else Some data.
Proof. done. Qed.

Lemma read_backward_cons t run_id limit b s rest :
  read_backward t run_id limit b (s :: rest)
  = let '(data, has_more) := list_run_messages t run_id limit (Some b) None s in
    if has_more then (fun l => l ++ data) <$> read_backward t run_id limit (first_seq b data) rest else Some data.
Proof. done. Qed.

(** The messages of a run, as the log has them. *)
Definition run_log (thread_id run_id : string) (s : S) : list run_event :=
  List.filter is_message (List.filter (of_run run_id) (es_log thread_id s)).

(** ** One page *)

Lemma page_forward t run_id limit a s :
  es_wf s -> 0 < limit ->
  list_run_messages t run_id limit None (Some a) s
  = let l := List.filter (fun e => a <? ev_seq e) (run_log t run_id s) in
    (take (Z.to_nat limit) l, limit <? Z.of_nat (length l)).
Proof.
  intros Hwf Hlim. unfold list_run_messages, trim_run_message_page.
  rewrite es_list_messages_by_run_ok by (done || lia). unfold window, run_log.
  set (l := List.filter (fun e => a <? ev_seq e) _). cbv zeta. rewrite length_take.
  destruct (limit <? Z.of_nat (length l)) eqn:Hl; [apply Z.ltb_lt in Hl|apply Z.ltb_ge in Hl].
  - rewrite (proj2 (Z.ltb_lt _ _)) by lia. cbn [negb]. rewrite py_slice_first by lia.
    rewrite take_take. do 2 f_equal. lia.
  - rewrite (proj2 (Z.ltb_ge _ _)) by lia. cbn [negb]. rewrite !take_ge by lia. done.
Qed.

Lemma page_backward t run_id limit b s :
  es_wf s -> 0 < limit ->
  list_run_messages t run_id limit (Some b) None s
  = let l := List.filter (fun e => ev_seq e <? b) (run_log t run_id s) in
    (latest (Z.to_nat limit) l, limit <? Z.of_nat (length l)).
Proof.
  intros Hwf Hlim. unfold list_run_messages, trim_run_message_page.
  rewrite es_list_messages_by_run_ok by (done || lia). unfold window, run_log.
  set (l := List.filter (fun e => ev_seq e <? b) _). cbv zeta. rewrite latest_length.
  destruct (limit <? Z.of_nat (length l)) eqn:Hl; [apply Z.ltb_lt in Hl|apply Z.ltb_ge in Hl].
  - rewrite (proj2 (Z.ltb_lt _ _)) by lia. cbn [negb]. rewrite py_slice_last by lia. f_equal.
    unfold latest. rewrite length_drop, drop_drop. f_equal. lia.
  - rewrite (proj2 (Z.ltb_ge _ _)) by lia. cbn [negb]. rewrite !latest_ge by lia. done.
Qed.

Lemma run_log_increasing t run_id s : es_wf s -> increasing (run_log t run_id s).
Proof. intros Hwf. by apply sorted_filter, sorted_filter, es_log_wf. Qed.

(** ** Cursors on increasing logs *)

Lemma filter_above_last (l : list run_event) a k :
  increasing l -> (0 < k <= length l)%nat ->
  List.filter (fun e => last_seq a (take k l) <? ev_seq e) l = drop k l.
Proof using.
  intros Hs Hk. unfold last_seq. rewrite last_lookup, length_take, lookup_take_lt by lia.
  replace (Nat.pred (k `min` length l)) with (k - 1)%nat by lia.
  destruct (lookup_lt_is_Some_2 l (k - 1)) as [x Hx]; [lia|]. rewrite Hx.
  rewrite <-(proj2 (partition_point (fun e => negb (ev_seq x <? ev_seq e)) k l ltac:(
    intros i e Hi; split; intros Hlt;
    [destruct (decide (i < k)%nat); [done|]; assert (ev_seq x < ev_seq e) by (apply (sorted_lookup_lt ev_seq l (k - 1) i); [done..|lia]); lia
    |destruct (decide (i = k - 1)%nat) as [->|]; [simplify_eq; lia|];
     assert (ev_seq e < ev_seq x) by (apply (sorted_lookup_lt ev_seq l i (k - 1)); [done..|lia]); lia]))).
  apply filter_ext. intros e. by rewrite negb_involutive.
Qed.

Lemma filter_below_first (l : list run_event) b k x :
  increasing l -> l !! k = Some x -> List.filter (fun e => ev_seq e <? first_seq b (drop k l)) l = take k l.
Proof using.
  intros Hs Hx. rewrite (drop_S _ _ _ Hx). simpl.
  refine (proj1 (partition_point (fun e => ev_seq e <? ev_seq x) k l _)). intros i e Hi. split; intros Hlt.
  - destruct (decide (i < k)%nat); [done|]. destruct (decide (i = k)%nat) as [->|]; [simplify_eq; lia|].
    assert (ev_seq x < ev_seq e) by (apply (sorted_lookup_lt ev_seq l k i); [done..|lia]). lia.
  - assert (ev_seq e < ev_seq x) by (apply (sorted_lookup_lt ev_seq l i k); [done..|lia]). lia.
Qed.

Lemma filter_tighter (l : list run_event) a k :
  increasing l -> let f := List.filter (fun e => a <? ev_seq e) l in (0 < k <= length f)%nat ->
  List.filter (fun e => last_seq a (take k f) <? ev_seq e) l = drop k f.
Proof using.
  intros Hs f Hk. rewrite <-(filter_above_last f a k) by (try apply sorted_filter; done).
  unfold f at 3. rewrite <-filter_andb. apply filter_ext. intros e.
  destruct (last_seq a (take k f) <? ev_seq e) eqn:He; [|by rewrite andb_false_r].
  rewrite andb_true_r. symmetry. apply Z.ltb_lt. apply Z.ltb_lt in He.
  unfold last_seq in He. destruct (last (take k f)) as [y|] eqn:Hy; [|done].
  apply last_Some_elem_of in Hy. assert (Hf : y ∈ f) by (by eapply elem_of_take in Hy as (? & Hy & _); apply list_elem_of_lookup_2 in Hy).
  apply list_elem_of_In, filter_In in Hf as [_ Hf]. lia.
Qed.

(** ** The readers *)

(** A thread that only grows between two requests. *)
Definition grows (t : string) (s s' : S) : Prop := exists more, es_log t s' = es_log t s ++ more.

Fixpoint growing (t : string) (states : list S) : Prop :=
  match states with
  | s :: (s' :: _) as rest => es_wf s /\ grows t s s' /\ growing t rest
  | [s] => es_wf s
  | [] => True
  end.

Lemma grows_run_log t run_id s s' :
  grows t s s' -> exists more, run_log t run_id s' = run_log t run_id s ++ more.
Proof using.
  intros [more Hm]. unfold run_log. rewrite Hm, !List.filter_app. eauto.
Qed.

Lemma grows_trans t s1 s2 s3 : grows t s1 s2 -> grows t s2 s3 -> grows t s1 s3.
Proof using. intros [m1 H1] [m2 H2]. exists (m1 ++ m2). by rewrite H2, H1, <-app_assoc. Qed.

Lemma growing_head t s rest : growing t (s :: rest) -> es_wf s.
Proof using. destruct rest; simpl; tauto. Qed.

Lemma read_forward_spec t run_id limit a s rest l :
  0 < limit -> growing t (s :: rest) -> read_forward t run_id limit a (s :: rest) = Some l ->
  exists s', s' ∈ s :: rest /\ (s' = s \/ grows t s s')
    /\ l = List.filter (fun e => a <? ev_seq e) (run_log t run_id s').
Proof.
  intros Hlim. revert a s l. induction rest as [|s2 rest IH]; intros a s l Hg Hr.
  - pose proof (growing_head _ _ _ Hg) as Hwf. cbn [read_forward] in Hr. rewrite page_forward in Hr by done.
    cbv zeta in Hr. destruct (_ <? _) eqn:Hm; [done|]. apply Z.ltb_ge in Hm. simplify_eq.
    exists s. split_and!; [by left|by left|]. rewrite take_ge; [done|lia].
  - pose proof (growing_head _ _ _ Hg) as Hwf. cbn [read_forward] in Hr. rewrite page_forward in Hr by done.
    cbv zeta in Hr. destruct (_ <? _) eqn:Hm; [apply Z.ltb_lt in Hm|apply Z.ltb_ge in Hm].
    2: { simplify_eq. exists s. split_and!; [by left|by left|]. rewrite take_ge; [done|lia]. }
    set (f := List.filter (fun e => a <? ev_seq e) (run_log t run_id s)) in *.
    apply fmap_Some in Hr as (l' & Hr & ->). destruct Hg as (_ & Hg2 & Hg).
    destruct (IH _ _ _ Hg Hr) as (s' & Hin & Hs' & ->). exists s'.
    assert (Hgs : grows t s s') by (destruct Hs' as [->|Hs']; [done|by eapply grows_trans]).
    split_and!; [by right|by right|].
    destruct (grows_run_log t run_id s s' Hgs) as [more Hmore].
    assert (Hf : take (Z.to_nat limit) f
                 = take (Z.to_nat limit) (List.filter (fun e => a <? ev_seq e) (run_log t run_id s'))).
    { rewrite Hmore, List.filter_app. fold f. rewrite take_app_le by lia. done. }
    assert (Hwf' : es_wf s').
    { clear -Hin Hg. revert s2 Hin Hg. induction rest as [|s3 rest IH]; intros s2 Hin Hg.
      - apply list_elem_of_singleton in Hin as ->. done.
      - apply elem_of_cons in Hin as [->|Hin]; [by apply growing_head in Hg|]. by apply (IH s3); [|apply Hg]. }
    rewrite Hf. set (f' := List.filter (fun e => a <? ev_seq e) (run_log t run_id s')) in *.
    assert (Hlen : (length f <= length f')%nat).
    { unfold f'. rewrite Hmore, List.filter_app, length_app. fold f. lia. }
    unfold f' at 2. rewrite filter_tighter; [|by apply run_log_increasing|fold f'; lia].
    fold f'. by rewrite take_drop.
Qed.

Lemma last_of_cons {A} (l : list A) x d : List.last (x :: l) d = List.last l x.
Proof using. revert x d. induction l as [|y l IH]; intros x d; [done|]. transitivity (List.last (y :: l) d); [done|]. by rewrite !IH. Qed.

Lemma growing_final t s rest : growing t (s :: rest) -> es_wf (List.last rest s) /\ grows t s (List.last rest s).
Proof using.
  revert s. induction rest as [|s2 rest IH]; intros s Hg; [split; [done|]; exists []; by rewrite app_nil_r|].
  destruct Hg as (_ & Hg2 & Hg). destruct (IH s2 Hg) as [Hw Hs].
  rewrite last_of_cons.
  split; [done|]. by eapply grows_trans.
Qed.

Lemma filter_after_le (l : list run_event) a a' :
  a <= a' -> (length (List.filter (fun e => (a' <? ev_seq e)%Z) l) <= length (List.filter (fun e => (a <? ev_seq e)%Z) l))%nat.
Proof using.
  intros Ha. induction l as [|e l IH]; simpl; [lia|].
  destruct (Z.ltb_spec a' (ev_seq e)), (Z.ltb_spec a (ev_seq e)); simpl; lia.
Qed.

Lemma last_seq_ge l a k : a <= last_seq a (take k (List.filter (fun e => a <? ev_seq e) l)).
Proof using.
  unfold last_seq. destruct (last _) as [y|] eqn:Hy; [|lia]. apply last_Some_elem_of in Hy.
  apply elem_of_take in Hy as (? & Hy & _). apply list_elem_of_lookup_2, list_elem_of_In, filter_In in Hy as [_ Hy]. lia.
Qed.

(** A page that is not the last takes its messages off those to come. *)
Lemma forward_next t run_id limit a s s' :
  0 < limit -> es_wf s -> grows t s s' ->
  let f := List.filter (fun e => a <? ev_seq e) (run_log t run_id s) in
  limit < Z.of_nat (length f) ->
  (length (List.filter (fun e => (last_seq a (take (Z.to_nat limit) f) <? ev_seq e)%Z) (run_log t run_id s'))
   < length (List.filter (fun e => (a <? ev_seq e)%Z) (run_log t run_id s')))%nat.
Proof.
  intros Hlim Hwf Hg f Hm. destruct (grows_run_log t run_id s s' Hg) as [more ->]. rewrite !List.filter_app, !length_app. fold f.
  pose proof (filter_after_le more a _ (last_seq_ge (run_log t run_id s) a (Z.to_nat limit))) as Hle. fold f in Hle.
  pose proof (filter_tighter (run_log t run_id s) a (Z.to_nat limit)) as Ht. cbv zeta in Ht. fold f in Ht.
  rewrite Ht; [|by apply run_log_increasing|lia]. rewrite length_drop. lia.
Qed.

(** A forward reader is through after one request for each message the thread
    has in the end, and one more. *)
Lemma read_forward_total t run_id limit a s rest :
  0 < limit -> growing t (s :: rest) ->
  (length (List.filter (fun e => (a <? ev_seq e)%Z) (run_log t run_id (List.last rest s))) <= length rest)%nat ->
  exists l, read_forward t run_id limit a (s :: rest) = Some l.
Proof.
  intros Hlim. revert a s. induction rest as [|s2 rest IH]; intros a s Hg Hn; pose proof (growing_head _ _ _ Hg) as Hwf;
    rewrite read_forward_cons, page_forward by done; cbv zeta; (destruct (_ <? _) eqn:Hm; [|eauto]); apply Z.ltb_lt in Hm.
  - simpl in Hn. lia.
  - set (f := List.filter (fun e => a <? ev_seq e) (run_log t run_id s)) in *.
    destruct (growing_final t s (s2 :: rest) Hg) as [_ Hfin]. destruct Hg as (_ & _ & Hg).
    rewrite last_of_cons in Hn, Hfin. pose proof (forward_next t run_id limit a s _ Hlim Hwf Hfin Hm) as Hlt. fold f in Hlt.
    destruct (IH (last_seq a (take (Z.to_nat limit) f)) s2 Hg) as [l Hl]; [simpl in Hn; lia|]. rewrite Hl. simpl. eauto.
Qed.

(** What is left below the cursor of a page, also when the thread has grown. *)
Lemma backward_next t run_id limit b s s2 :
  0 < limit -> es_wf s -> es_wf s2 -> grows t s s2 ->
  let f := List.filter (fun e => ev_seq e <? b) (run_log t run_id s) in
  limit < Z.of_nat (length f) ->
  List.filter (fun e => ev_seq e <? first_seq b (latest (Z.to_nat limit) f)) (run_log t run_id s2)
  = take (length f - Z.to_nat limit) f.
Proof.
  intros Hlim Hwf Hwf2 Hg2 f Hm. unfold latest. set (k := (length f - Z.to_nat limit)%nat).
  assert (Hs : increasing f) by (by apply sorted_filter, run_log_increasing).
  destruct (lookup_lt_is_Some_2 f k) as [x Hx]; [unfold k; lia|].
  rewrite <-(filter_below_first f b k x Hs Hx).
  assert (Hfx : first_seq b (drop k f) = ev_seq x) by (by rewrite (drop_S _ _ _ Hx)). rewrite Hfx.
  apply list_elem_of_lookup_2 in Hx as Hin. apply list_elem_of_In, filter_In in Hin as [Hin Hxb].
  destruct (grows_run_log t run_id s s2 Hg2) as [more Hmore]. rewrite Hmore, List.filter_app.
  rewrite (filter_rejects _ more), app_nil_r.
  - unfold f. rewrite <-filter_andb. apply filter_ext. intros e. destruct (ev_seq e <? ev_seq x) eqn:He; lia.
  - apply Forall_forall. intros e He. apply Z.ltb_ge. apply Z.lt_le_incl.
    assert (Hs2 : increasing (run_log t run_id s2)) by (by apply run_log_increasing).
    rewrite Hmore in Hs2. unfold increasing in Hs2. rewrite fmap_app in Hs2.
    apply (StronglySorted_app_1_elem_of _ _ _ _ _ Hs2); apply list_elem_of_fmap_2; [by apply list_elem_of_In|done].
Qed.

Lemma read_backward_spec t run_id limit b s rest l :
  0 < limit -> growing t (s :: rest) -> read_backward t run_id limit b (s :: rest) = Some l ->
  l = List.filter (fun e => ev_seq e <? b) (run_log t run_id s).
Proof.
  intros Hlim. revert b s l. induction rest as [|s2 rest IH]; intros b s l Hg Hr;
    pose proof (growing_head _ _ _ Hg) as Hwf; cbn [read_backward] in Hr; rewrite page_backward in Hr by done;
    cbv zeta in Hr; destruct (_ <? _) eqn:Hm; [done| | |].
  1,3: apply Z.ltb_ge in Hm; simplify_eq; rewrite latest_ge; [done|lia].
  apply Z.ltb_lt in Hm. set (f := List.filter (fun e => ev_seq e <? b) (run_log t run_id s)) in *.
  apply fmap_Some in Hr as (l' & Hr & ->). destruct Hg as (_ & Hg2 & Hg). rewrite (IH _ _ _ Hg Hr).
  pose proof (backward_next t run_id limit b s s2 Hlim Hwf (growing_head _ _ _ Hg) Hg2 Hm) as Hn. fold f in Hn.
  rewrite Hn. unfold latest. apply take_drop.
Qed.

(** A backward reader is through after one request for each message it started
    above, and one more, however the thread grows. *)
Lemma read_backward_total t run_id limit b s rest :
  0 < limit -> growing t (s :: rest) ->
  (length (List.filter (fun e => (ev_seq e <? b)%Z) (run_log t run_id s)) <= length rest)%nat ->
  exists l, read_backward t run_id limit b (s :: rest) = Some l.
Proof.
  intros Hlim. revert b s. induction rest as [|s2 rest IH]; intros b s Hg Hn; pose proof (growing_head _ _ _ Hg) as Hwf;
    rewrite read_backward_cons, page_backward by done; cbv zeta; (destruct (_ <? _) eqn:Hm; [|eauto]); apply Z.ltb_lt in Hm.
  - simpl in Hn. lia.
  - destruct Hg as (_ & Hg2 & Hg). set (f := List.filter (fun e => ev_seq e <? b) (run_log t run_id s)) in *.
    destruct (IH (first_seq b (latest (Z.to_nat limit) f)) s2 Hg) as [l Hl]; [|rewrite Hl; simpl; eauto].
    pose proof (backward_next t run_id limit b s s2 Hlim Hwf (growing_head _ _ _ Hg) Hg2 Hm) as Hnext. fold f in Hnext.
    rewrite Hnext, length_take. simpl in Hn. lia.
Qed.

(** (C16) Paging is complete.  Against any store that meets the contract, while
    the thread may grow between the requests of a reader (the store each
    request meets is the next of the list): a reader that starts after [a] and
    follows the cursors of the run-message endpoint finishes within one request
    for each message after [a] in the last of these stores, and one more, and
    has then read exactly the messages of the run after [a], once and in order,
    as they are in the store of one of its requests; a reader that scrolls back
    from [b] finishes within one request for each message below [b] in the
    first of these stores, and one more, and has then read exactly those. *)
Theorem message_paging_complete t run_id limit a b s rest :
  0 < limit -> growing t (s :: rest) ->
  (forall l, read_forward t run_id limit a (s :: rest) = Some l ->
     exists s', s' ∈ s :: rest /\ (s' = s \/ grows t s s')
       /\ l = List.filter (fun e => a <? ev_seq e) (run_log t run_id s'))
  /\ ((length (List.filter (fun e => (a <? ev_seq e)%Z) (run_log t run_id (List.last rest s))) <= length rest)%nat ->
      exists l, read_forward t run_id limit a (s :: rest) = Some l)
  /\ (forall l, read_backward t run_id limit b (s :: rest) = Some l ->
       l = List.filter (fun e => ev_seq e <? b) (run_log t run_id s))
  /\ ((length (List.filter (fun e => (ev_seq e <? b)%Z) (run_log t run_id s)) <= length rest)%nat ->
      exists l, read_backward t run_id limit b (s :: rest) = Some l).
Proof.
  intros Hlim Hg. split_and!.
  - intros l. by apply read_forward_spec.
  - by apply read_forward_total.
  - intros l. by eapply read_backward_spec.
  - by apply read_backward_total.
Qed.

End endpoints.

(** ** The two stores *)

(** What every store keeps of an event; the database adds marks of its own to
    the metadata. *)
Definition core (e : run_event) : string * string * string * string * json * Z * Z :=
  (ev_thread_id e, ev_run_id e, ev_event_type e, ev_category e, ev_content e, ev_seq e, ev_created_at e).

Inductive store_op : Type :=
| OpPut (now : Z) (a : event_args)
| OpPutBatch (now : Z) (l : list event_args)
| OpDeleteThread (t : string).

Definition apply_op {S} `{RunEventStore S} (op : store_op) (s : S) : S :=
  match op with
  | OpPut now a => (es_put None now a s).2
  | OpPutBatch now l => (es_put_batch None now l s).2
  | OpDeleteThread t => (es_delete_by_thread t s).2
  end.

Definition apply_ops {S} `{RunEventStore S} (ops : list store_op) (s : S) : S :=
  foldl (fun s op => apply_op op s) s ops.

Section two_stores.
Context (dumps : json -> string) (loads : string -> option json) (iso : Z -> string).
Context (max_trace_content : Z) (orgs : list string) (user_id : option string) (org : string).
Abbreviation db_keeps := (db_keeps dumps loads iso max_trace_content).
Abbreviation make_row := (make_row dumps iso max_trace_content).
Abbreviation batch_rows := (batch_rows dumps iso max_trace_content).
Abbreviation db_log := (log loads).
Abbreviation Db := (DbRunEventStore dumps loads iso max_trace_content orgs user_id org).

(** A write both stores keep as it is: content the columns carry, one thread
    per batch. *)
Definition plain_op (op : store_op) : Prop :=
  match op with
  | OpPut _ a => db_keeps a
  | OpPutBatch _ l => Forall db_keeps l /\ exists t, Forall (fun a => pa_thread_id a = t) l
  | OpDeleteThread _ => True
  end.

Definition sim (s : Memory.mem_store) (rows : list run_event_row) : Prop :=
  Memory.mem_wf s /\ db_wf rows /\ Forall (fun r => der_org_id r = org) rows
  /\ forall t, core <$> Memory.events_of t s = core <$> db_log org t rows
       /\ Memory.counter_of t s = opt_or (max_seq_for_thread t rows) 0.

Lemma max_seq_attained t rows r :
  r ∈ rows -> der_thread_id r = t ->
  exists r', r' ∈ rows /\ der_thread_id r' = t /\ der_seq r' = opt_or (max_seq_for_thread t rows) 0.
Proof.
  intros Hin Ht. unfold max_seq_for_thread.
  assert (Hf : r ∈ List.filter (fun r => String.eqb (der_thread_id r) t) rows).
  { apply list_elem_of_In, filter_In. split; [by apply list_elem_of_In|by apply String.eqb_eq]. }
  assert (Hsub : forall x, x ∈ List.filter (fun r => String.eqb (der_thread_id r) t) rows ->
    x ∈ rows /\ der_thread_id x = t).
  { intros x Hx. apply list_elem_of_In, filter_In in Hx as [Hx He]. split; [by apply list_elem_of_In|by apply String.eqb_eq]. }
  destruct (List.filter _ rows) as [|x l]; [by apply not_elem_of_nil in Hf|]. simpl. clear Hf Hin.
  assert (Hatt : exists r', r' ∈ x :: l /\ der_seq r' = foldr (fun r m => Z.max (der_seq r) m) (der_seq x) l).
  { clear Hsub. induction l as [|y l (r' & Hr' & He)]; simpl; [exists x; split; [by left|done]|].
    destruct (decide (der_seq y <= der_seq r')).
    - exists r'. split; [|lia]. apply elem_of_cons in Hr' as [->|Hr']; [by left|by right; right].
    - exists y. split; [by right; left|lia]. }
  destruct Hatt as (r' & Hr' & He). destruct (Hsub r' Hr'). eauto.
Qed.

Lemma max_seq_snoc t rows r :
  opt_or (max_seq_for_thread (der_thread_id r) rows) 0 < der_seq r ->
  opt_or (max_seq_for_thread t (rows ++ [r])) 0
  = if decide (der_thread_id r = t) then der_seq r else opt_or (max_seq_for_thread t rows) 0.
Proof.
  intros Hgt. case_decide as Ht.
  - subst t. assert (Hin : r ∈ rows ++ [r]) by set_solver.
    pose proof (max_seq_bound (rows ++ [r]) _ r Hin eq_refl) as Hle.
    destruct (max_seq_attained _ _ _ Hin eq_refl) as (r' & Hr' & Ht' & He). rewrite <-He in *.
    apply elem_of_app in Hr' as [Hr'|Hr']; [|by apply list_elem_of_singleton in Hr' as ->].
    pose proof (max_seq_bound rows _ r' Hr' Ht'). lia.
  - unfold max_seq_for_thread. rewrite List.filter_app. simpl.
    rewrite (proj2 (String.eqb_neq _ _)) by done. by rewrite app_nil_r.
Qed.

Lemma sim_put now a s rows :
  sim s rows -> db_keeps a ->
  sim (Memory.put_one now a s).2
    (rows ++ [make_row user_id org now a (opt_or (max_seq_for_thread (pa_thread_id a) rows) 0 + 1)]).
Proof.
  intros (Hm & Hd & Ho & Ht) Hk. destruct (Memory.put_one now a s) as [r s'] eqn:Hp. simpl.
  pose proof (Memory.put_one_spec _ _ _ _ _ Hm Hp) as (Hm' & Hr & Hc & He & Hoth & Hcnt).
  set (t := pa_thread_id a) in *. set (row := make_row user_id org now a _).
  destruct (make_row_fields dumps loads iso max_trace_content user_id org now a
              (opt_or (max_seq_for_thread t rows) 0 + 1)) as (Ft & Fo & Fs & Fr). fold row in Ft, Fo, Fs, Fr.
  destruct (append_spec loads rows [row] t org) as (Hd' & Hl & Hlo);
    [done|by repeat constructor|repeat constructor|constructor; [lia|done]|].
  assert (Hseq : ev_seq r = der_seq row).
  { rewrite Fs, <-(proj2 (Ht t)). unfold Memory.put_one in Hp. by simplify_eq/=. }
  assert (Hothc : forall t', t' <> t -> Memory.counter_of t' s' = Memory.counter_of t' s).
  { intros t' Ht'. unfold Memory.put_one in Hp. simplify_eq/=. unfold Memory.counter_of at 1. simpl.
    by rewrite Memory.opt_or_set, decide_False. }
  assert (Hcore : core r = core (row_to_dict loads row)).
  { destruct Hr as (R1 & R2 & R3 & R4 & R5), Fr as (F1 & F2 & F3 & F4 & F5).
    unfold core. rewrite R1, R2, R3, R4, R5, F1, F2, F3, F4, F5, Hc, Hseq.
    pose proof (make_row_content dumps loads iso max_trace_content user_id org now a
                  (opt_or (max_seq_for_thread t rows) 0 + 1) Hk) as Hrc. fold row in Hrc. by rewrite Hrc. }
  split_and!; [done|done|apply Forall_app; by repeat constructor|]. intros t'.
  rewrite max_seq_snoc by (rewrite Ft; fold t; lia). rewrite Ft. fold t. case_decide as Htt.
  - subst t'. rewrite Hcnt, He, Hl, !fmap_app, (proj1 (Ht t)). csimpl. by rewrite Hcore.
  - rewrite Hoth, Hothc, Hlo by congruence. apply Ht.
Qed.

Lemma sim_put_batch now l s rows t :
  sim s rows -> Forall db_keeps l -> Forall (fun a => pa_thread_id a = t) l ->
  sim (Memory.put_batch now l s).2 (rows ++ batch_rows user_id org now (opt_or (max_seq_for_thread t rows) 0) l).
Proof.
  revert s rows. induction l as [|a l IH]; intros s rows Hs Hk Ht; [by simpl; rewrite app_nil_r|].
  inversion Hk as [|? ? Hka Hkl]; inversion Ht as [|? ? Hta Htl]; subst.
  pose proof (sim_put now a s rows Hs Hka) as Hs1. cbn [Memory.put_batch EventStoreDb.batch_rows].
  destruct (Memory.put_one now a s) as [r s1]. simpl in Hs1.
  specialize (IH s1 _ Hs1 Hkl Htl). rewrite max_seq_snoc in IH.
  2: { destruct (make_row_fields dumps loads iso max_trace_content user_id org now a
         (opt_or (max_seq_for_thread (pa_thread_id a) rows) 0 + 1)) as (-> & _ & -> & _). lia. }
  destruct (make_row_fields dumps loads iso max_trace_content user_id org now a
              (opt_or (max_seq_for_thread (pa_thread_id a) rows) 0 + 1)) as (Ft & _ & Fs & _).
  rewrite Ft, Fs, decide_True in IH by done. rewrite <-app_assoc in IH.
  by destruct (Memory.put_batch now l s1).
Qed.

Lemma sim_delete t s rows :
  sim s rows -> sim (Memory.delete_by_thread t s).2 (delete_by_thread t (Some org) rows).2.
Proof.
  intros (Hm & Hd & Ho & Ht). destruct (Memory.delete_by_thread t s) as [n s'] eqn:Hms.
  destruct (Memory.delete_by_thread_spec _ _ _ _ Hm Hms) as (Hm' & _ & He & Hoth).
  destruct (delete_by_thread t (Some org) rows) as [n' rows'] eqn:Hdr.
  pose proof (delete_where_spec _ _ _ _ Hdr) as [_ Hrows]. simpl.
  pose proof (es_delete_by_thread_ok (RunEventStore := Db) rows t n' rows' Hd Hdr) as (Hd' & _ & Hl & Hlo).
  simpl in Hd', Hl, Hlo. split_and!; [done|done|subst rows'; by apply Forall_list_filter|]. intros t'.
  assert (Hmax : opt_or (max_seq_for_thread t' rows') 0
                 = if decide (t = t') then 0 else opt_or (max_seq_for_thread t' rows) 0).
  { subst rows'. unfold max_seq_for_thread. rewrite filter_comm. case_decide as Htt.
    - subst t'. rewrite filter_rejects; [done|]. apply Forall_forall. intros r Hr.
      apply list_elem_of_In, filter_In in Hr as [Hr Hrt]. apply list_elem_of_In in Hr.
      rewrite Forall_forall in Ho. unfold in_thread. by rewrite Hrt, (Ho r Hr), String.eqb_refl.
    - rewrite filter_accepts; [done|]. apply Forall_forall. intros r Hr.
      apply list_elem_of_In, filter_In in Hr as [_ Hrt]. apply String.eqb_eq in Hrt. unfold in_thread.
      by rewrite Hrt, (proj2 (String.eqb_neq t' t)). }
  rewrite Hmax. unfold Memory.delete_by_thread in Hms. simplify_eq. unfold Memory.counter_of at 1. simpl.
  rewrite Memory.opt_or_pop. case_decide as Htt.
  - subst t'. by rewrite He, Hl.
  - rewrite Hoth, Hlo by congruence. apply Ht.
Qed.

Hypothesis org_exists : org ∈ orgs.

Lemma sim_ops ops s rows :
  sim s rows -> Forall plain_op ops -> sim (apply_ops ops s) (apply_ops (H := Db) ops rows).
Proof.
  unfold apply_ops. intros Hs Hops. revert s rows Hs. induction Hops as [|op ops Hop _ IH]; intros s rows Hs; [done|].
  simpl. apply IH. destruct op as [now a|now l|t]; simpl in *.
  - unfold put, commit. rewrite bool_decide_eq_true_2 by done. simpl. by apply sim_put.
  - destruct Hop as [Hk [t Ht]]. unfold put_batch. destruct l as [|a l]; [done|].
    assert (Hall : forallb (fun b => String.eqb (pa_thread_id b) (pa_thread_id a)) (a :: l) = true).
    { apply forallb_forall. intros b Hb. apply list_elem_of_In in Hb. rewrite Forall_forall in Ht.
      apply String.eqb_eq. by rewrite (Ht b Hb), (Ht a ltac:(by left)). }
    rewrite Hall. unfold commit. rewrite bool_decide_eq_true_2 by done. simpl negb. cbv iota.
    apply sim_put_batch; [done|done|]. by inversion Ht; subst.
  - by apply sim_delete.
Qed.

(** Queries look at nothing else. *)
Local Ltac by_core := unfold core; let He := fresh in intros ? ? He; simplify_eq; congruence.

Lemma core_filter (p : run_event -> bool) l1 l2 :
  (forall e1 e2, core e1 = core e2 -> p e1 = p e2) ->
  core <$> l1 = core <$> l2 -> core <$> List.filter p l1 = core <$> List.filter p l2.
Proof.
  intros Hp. revert l2. induction l1 as [|x l1 IH]; intros [|y l2] Hl; try done. apply (inj2 cons) in Hl as [Hx Hl].
  simpl. rewrite (Hp x y Hx). destruct (p y); [|by apply IH]. rewrite !fmap_cons. f_equal; [done|by apply IH].
Qed.

Lemma core_window limit b a l1 l2 :
  core <$> l1 = core <$> l2 -> core <$> window limit b a l1 = core <$> window limit b a l2.
Proof.
  intros Hl. unfold window.
  assert (H1 : core <$> match b with None => l1 | Some b => List.filter (fun e => ev_seq e <? b) l1 end
             = core <$> match b with None => l2 | Some b => List.filter (fun e => ev_seq e <? b) l2 end).
  { destruct b; [|done]. apply core_filter; [|done]. by_core. }
  destruct a as [a|].
  - rewrite !fmap_take. f_equal. apply core_filter; [|done]. by_core.
  - by rewrite <-!latest_fmap, H1.
Qed.

(** (C34) The stores are interchangeable.  After the same puts, batches and
    thread deletions (no deletion of single runs), without faults and of content
    the columns carry, the in-memory store, which slices its message index by
    binary search, and the database, which selects, orders and limits rows,
    answer alike, for a positive limit: the pages with at most one cursor, the
    event lists without types or with a non-empty list of them, and the counts.
    They return the same events with the same sequence numbers; the metadata is
    not compared. *)
Theorem event_stores_interchangeable ops t run_id limit b a types :
  Forall plain_op ops -> 0 < limit -> b = None \/ a = None -> types <> Some [] ->
  let s := apply_ops ops Memory.empty in
  let rows := apply_ops (H := Db) ops [] in
  core <$> Memory.list_messages t limit b a s = core <$> list_messages loads t limit b a (Some org) rows
  /\ core <$> Memory.list_messages_by_run t run_id limit b a s
     = core <$> list_messages_by_run loads t run_id limit b a (Some org) rows
  /\ core <$> Memory.list_events t run_id types limit s = core <$> list_events loads t run_id types limit (Some org) rows
  /\ Memory.count_messages t s = count_messages t (Some org) rows.
Proof.
  intros Hops Hlim Hone Htypes s rows.
  destruct (sim_ops ops Memory.empty []) as (Hm & Hd & _ & Hsim); [|done|].
  { split_and!; [apply Memory.empty_wf|intros t'; constructor|constructor|done]. }
  fold s in Hm, Hsim. fold rows in Hd, Hsim. destruct (Hsim t) as [Hlog _].
  assert (Hmsg : forall l1 l2, core <$> l1 = core <$> l2 ->
    core <$> List.filter is_message l1 = core <$> List.filter is_message l2).
  { intros l1 l2. apply core_filter. unfold is_message. by_core. }
  assert (Hrun : core <$> List.filter (of_run run_id) (Memory.events_of t s)
               = core <$> List.filter (of_run run_id) (db_log org t rows)).
  { apply core_filter; [|done]. unfold of_run. by_core. }
  split_and!.
  - pose proof (es_list_messages_ok s t limit b a Hm Hlim Hone) as H1.
    pose proof (es_list_messages_ok (RunEventStore := Db) rows t limit b a Hd Hlim Hone) as H2. simpl in H1, H2.
    rewrite H1, H2. by apply core_window, Hmsg.
  - pose proof (es_list_messages_by_run_ok s t run_id limit b a Hm Hlim) as H1.
    pose proof (es_list_messages_by_run_ok (RunEventStore := Db) rows t run_id limit b a Hd Hlim) as H2.
    simpl in H1, H2. rewrite H1, H2. by apply core_window, Hmsg.
  - pose proof (es_list_events_ok s t run_id types limit Hm ltac:(lia) Htypes) as H1.
    pose proof (es_list_events_ok (RunEventStore := Db) rows t run_id types limit Hd ltac:(lia) Htypes) as H2.
    simpl in H1, H2. rewrite H1, H2, !fmap_take. f_equal. apply core_filter; [|done].
    destruct types as [types|]; [|done]. intros e1 e2 He. assert (ev_event_type e1 = ev_event_type e2) as -> by (revert e1 e2 He; by_core). done.
  - pose proof (es_count_messages_ok s t Hm) as H1.
    pose proof (es_count_messages_ok (RunEventStore := Db) rows t Hd) as H2. simpl in H1, H2. rewrite H1, H2.
    rewrite <-(length_fmap core), (Hmsg _ _ Hlog), length_fmap. done.
Qed.

End two_stores.

(** ** Examples *)

Definition demo_put (run_id category : string) : event_args :=
  mk_put "t" run_id "llm.ai.response" category (JStr "hi") None None.

Definition demo_ops : list store_op :=
  [OpPut 1 (demo_put "r1" "message"); OpPutBatch 2 [demo_put "r1" "trace"; demo_put "r2" "message"]; OpDeleteThread "u";
   OpPut 3 (demo_put "r1" "message")].

Definition demo_store : Memory.mem_store := apply_ops demo_ops Memory.empty.
Definition demo_rows (ops : list store_op) : list run_event_row :=
  apply_ops (H := DbRunEventStore (fun _ => "") (fun _ => None) (fun _ => "") 100 ["o"] None "o") ops [].

Definition demo_grown : Memory.mem_store := apply_op (OpPut 4 (demo_put "r1" "message")) demo_store.

Lemma demo_plain : Forall (plain_op (fun _ => "") (fun _ => None) (fun _ => "") 100) demo_ops.
Proof. repeat constructor; simpl; try done; exists "t"; repeat constructor. Qed.

Lemma demo_events_wf : Memory.mem_wf demo_store /\ Memory.mem_wf demo_grown.
Proof.
  assert (Hwf : Memory.mem_wf demo_store).
  { refine (proj1 (sim_ops (fun _ => "") (fun _ => None) (fun _ => "") 100 ["o"] None "o" ltac:(set_solver)
      demo_ops Memory.empty [] _ demo_plain)).
    split_and!; [apply Memory.empty_wf|intros t'; constructor|constructor|done]. }
  split; [done|]. change demo_grown with (Memory.put_one 4 (demo_put "r1" "message") demo_store).2.
  destruct (Memory.put_one _ _ _) as [r s'] eqn:Hp. by destruct (Memory.put_one_spec _ _ _ _ _ Hwf Hp).
Qed.

Lemma message_paging_complete_witness :
  (exists l s', read_forward "t" "r1" 1 0 [demo_store; demo_grown; demo_grown; demo_grown] = Some l
     /\ s' ∈ [demo_store; demo_grown; demo_grown; demo_grown] /\ (s' = demo_store \/ grows "t" demo_store s')
     /\ l = List.filter (fun e => 0 <? ev_seq e) (run_log "t" "r1" s'))
  /\ length (run_log "t" "r1" demo_grown) = 3%nat.
Proof.
  split; [|vm_compute; reflexivity].
  destruct (message_paging_complete "t" "r1" 1 0 10 demo_store [demo_grown; demo_grown; demo_grown]) as (Hspec & Htotal & _); [lia| |].
  - destruct demo_events_wf as [H1 H2]. split; [exact H1|]. split; [eexists; vm_compute; reflexivity|].
    split; [exact H2|]. split; [exists []; vm_compute; reflexivity|].
    split; [exact H2|]. split; [exists []; vm_compute; reflexivity|exact H2].
  - destruct Htotal as [l Hl]; [vm_compute; lia|]. destruct (Hspec l Hl) as (s' & ? & ? & ?). exists l, s'. split_and!; assumption.
Defined.

Lemma event_stores_interchangeable_witness :
  core <$> Memory.list_messages "t" 2 None (Some 1) demo_store
  = core <$> list_messages (fun _ => None) "t" 2 None (Some 1) (Some "o") (demo_rows demo_ops)
  /\ length (Memory.list_messages "t" 2 None (Some 1) demo_store) = 2%nat.
Proof.
  split; [|vm_compute; reflexivity].
  apply (event_stores_interchangeable (fun _ => "") (fun _ => None) (fun _ => "") 100 ["o"] None "o" ltac:(set_solver)
    demo_ops "t" "r1" 2 None (Some 1) None); [apply demo_plain|lia|by left|done].
Defined.

(** The database reuses a sequence number once the newest run is deleted: an
    event stored after the deletion is not above the cursor of a reader who
    had seen the deleted one.  The in-memory store keeps its counter. *)
Example db_seq_reused_after_delete :
  let rows := demo_rows demo_ops in
  let rows' := (delete_by_run "t" "r1" (Some "o") rows).2 in
  let rows'' := (put (fun _ => "") (fun _ => None) (fun _ => "") 100 None ["o"] None (Some "o") 9 (demo_put "r3" "message") rows').2 in
  let s' := (Memory.delete_by_run "t" "r1" demo_store).2 in
  last (der_seq <$> rows) = Some 4 /\ last (der_seq <$> rows'') = Some 4
  /\ ev_seq (Memory.put 9 (demo_put "r3" "message") s').1 = 5.
Proof. vm_compute. repeat split. Qed.

(** [GET /threads/{id}/messages] accepts a limit of zero, for which the
    in-memory store returns every message and the database none. *)
Example zero_limit_returns_everything :
  length (Memory.list_messages "t" 0 None None demo_store) = 3%nat
  /\ list_messages (fun _ => None) "t" 0 None None (Some "o") (demo_rows demo_ops) = [].
Proof. vm_compute. repeat split. Qed.

(** With both cursors the in-memory store ignores [after_seq], the database
    applies both. *)
Example both_cursors_diverge :
  ev_seq <$> Memory.list_messages "t" 50 (Some 4) (Some 1) demo_store = [1; 3]
  /\ ev_seq <$> list_messages (fun _ => None) "t" 50 (Some 4) (Some 1) (Some "o") (demo_rows demo_ops) = [3].
Proof. vm_compute. repeat split. Qed.

(** An empty list of event types selects nothing in memory and everything in
    the database. *)
Example empty_types_diverge :
  Memory.list_events "t" "r1" (Some []) 500 demo_store = []
  /\ length (list_events (fun _ => None) "t" "r1" (Some []) 500 (Some "o") (demo_rows demo_ops)) = 3%nat.
Proof. vm_compute. repeat split. Qed.
