(* ===== verification/Journal.v ===== *)
(** * The run journal

    [runtime/journal.py]: the callback handler that turns the callbacks of an
    agent run into events, buffers them, flushes them to a run event store in
    background tasks, and accumulates the token and message totals of the run;
    with its throttled progress snapshots.  [flush] is a coroutine: at each of
    its awaits the callbacks, the background flush and the progress task run on.

    A message of LangChain is the record of what the journal reads of it; its
    [text] property, its [model_dump()] and the [str] of an exception are data
    of the callback.  Instants and the monotonic clock are microseconds. *)
From S2P Require Import Prelude PyAsync PyString PyList EventStore.
Local Open Scope string_scope.
Local Open Scope Z_scope.
Local Open Scope list_scope.
Local Open Scope coro_scope.

(** ** Messages and callbacks *)

Inductive message_class : Type := AIMessage | HumanMessage | ToolMessage | OtherMessage.

#[global] Instance message_class_eq_dec : EqDecision message_class.
Proof. solve_decision. Defined.

Record message : Type := mk_message {
  msg_class : message_class;
  msg_type : string;
  msg_name : option string;
  msg_content : json;
  msg_text : option string;
  msg_usage_metadata : option (list (string * json));
  msg_additional_kwargs : list (string * json);
  msg_response_metadata : list (string * json);
  msg_model_dump : json
}.

(** A record of [record_external_llm_usage_records]; absent counts are 0. *)
Record external_usage : Type := mk_external {
  xu_source_run_id : string;
  xu_caller : string;
  xu_model_name : option string;
  xu_input_tokens : Z;
  xu_output_tokens : Z;
  xu_total_tokens : Z
}.

(** What the handler reads of its surroundings during a callback: the wall and
    monotonic clocks, and whether an event loop is running. *)
Record tick : Type := mk_tick { tk_now : Z; tk_monotonic : Z; tk_loop : bool }.

(** ** State *)

(** The set of pending flush tasks has at most one element: a task that has
    not written yet, or one that has and whose done-callback is still due. *)
Inductive flush_task : Type :=
| Idle
| InFlight (batch : list event_args)
| Finished.

(** [jw_started] counts the flush tasks, so that a waiter knows its own. *)
Record writer : Type := mk_writer { jw_buffer : list event_args; jw_pending : flush_task; jw_started : nat }.

Record token_totals : Type := mk_totals {
  jt_total_input_tokens : Z;
  jt_total_output_tokens : Z;
  jt_total_tokens : Z;
  jt_llm_call_count : Z;
  jt_lead_agent_tokens : Z;
  jt_subagent_tokens : Z;
  jt_middleware_tokens : Z;
  jt_tokens_by_model : list (string * (Z * Z * Z));
  jt_counted_llm_run_ids : gset string;
  jt_counted_external_source_ids : gset string
}.

Record run_summary : Type := mk_summary {
  js_last_ai_msg : option string;
  js_first_human_msg : option string;
  js_msg_count : Z;
  js_had_llm_error_fallback : bool;
  js_llm_error_fallback_message : option string;
  js_counted_message_llm_run_ids : gset string
}.

Record llm_tracking : Type := mk_tracking {
  jl_llm_start_times : list (string * Z);
  jl_llm_call_index : Z;
  jl_seen_llm_starts : gset string
}.

(** The dict [get_completion_data] returns. *)
Record completion_data : Type := mk_completion {
  cd_total_input_tokens : Z;
  cd_total_output_tokens : Z;
  cd_total_tokens : Z;
  cd_llm_call_count : Z;
  cd_lead_agent_tokens : Z;
  cd_subagent_tokens : Z;
  cd_middleware_tokens : Z;
  cd_token_usage_by_model : list (string * (Z * Z * Z));
  cd_message_count : Z;
  cd_last_ai_message : option string;
  cd_first_human_message : option string
}.

(** The task of [_flush_progress_async] while it is not done: created, asleep
    for its delay, in the call of the reporter, or cancelled and not yet aware
    of it. *)
Inductive progress_task : Type :=
| NotStarted (snapshot : option completion_data) (delay : Z)
| Sleeping
| Reporting (dirty_before_write : bool)
| Cancelling.

(** The progress fields.  [jp_task] is [_pending_progress_task] while that task
    is not done, [jp_created] counts the tasks, [jp_reported] lists what the
    reporter was called with. *)
Record progress : Type := mk_progress {
  jp_reporter : bool;
  jp_interval : Z;
  jp_task : option progress_task;
  jp_created : nat;
  jp_delayed : bool;
  jp_dirty : bool;
  jp_last_flush : Z;
  jp_reported : list completion_data
}.

Record journal : Type := mk_journal {
  jn_run_id : string;
  jn_thread_id : string;
  jn_track_tokens : bool;
  jn_flush_threshold : Z;
  jn_writer : writer;
  jn_tokens : token_totals;
  jn_summary : run_summary;
  jn_llm : llm_tracking;
  jn_progress : progress
}.

Definition set_writer w (j : journal) : journal :=
  mk_journal (jn_run_id j) (jn_thread_id j) (jn_track_tokens j) (jn_flush_threshold j) w (jn_tokens j) (jn_summary j) (jn_llm j)
    (jn_progress j).
Definition set_tokens t (j : journal) : journal :=
  mk_journal (jn_run_id j) (jn_thread_id j) (jn_track_tokens j) (jn_flush_threshold j) (jn_writer j) t (jn_summary j) (jn_llm j)
    (jn_progress j).
Definition set_summary s (j : journal) : journal :=
  mk_journal (jn_run_id j) (jn_thread_id j) (jn_track_tokens j) (jn_flush_threshold j) (jn_writer j) (jn_tokens j) s (jn_llm j)
    (jn_progress j).
Definition set_llm l (j : journal) : journal :=
  mk_journal (jn_run_id j) (jn_thread_id j) (jn_track_tokens j) (jn_flush_threshold j) (jn_writer j) (jn_tokens j) (jn_summary j) l
    (jn_progress j).

Definition set_progress p (j : journal) : journal :=
  mk_journal (jn_run_id j) (jn_thread_id j) (jn_track_tokens j) (jn_flush_threshold j) (jn_writer j) (jn_tokens j)
    (jn_summary j) (jn_llm j) p.

(** [RunJournal.__init__]. *)
Definition new_journal (run_id thread_id : string) (track_token_usage : bool) (flush_threshold : Z)
    (progress_reporter : bool) (progress_flush_interval : Z) : journal :=
  mk_journal run_id thread_id track_token_usage flush_threshold (mk_writer [] Idle 0)
    (mk_totals 0 0 0 0 0 0 0 [] ∅ ∅) (mk_summary None None 0 false None ∅) (mk_tracking [] 0 ∅)
    (mk_progress progress_reporter progress_flush_interval None 0 false false 0 []).

(** [get_completion_data]. *)
Definition get_completion_data (j : journal) : completion_data :=
  let t := jn_tokens j in
  let s := jn_summary j in
  mk_completion (jt_total_input_tokens t) (jt_total_output_tokens t) (jt_total_tokens t) (jt_llm_call_count t)
    (jt_lead_agent_tokens t) (jt_subagent_tokens t) (jt_middleware_tokens t) (jt_tokens_by_model t)
    (js_msg_count s) (js_last_ai_msg s) (js_first_human_msg s).

(** ** Writing events *)

(** [_flush_sync]. *)
Definition flush_sync (k : tick) (j : journal) : journal :=
  match jw_buffer (jn_writer j), jw_pending (jn_writer j) with
  | [], _ => j
  | batch, Idle => if tk_loop k then set_writer (mk_writer [] (InFlight batch) (Datatypes.S (jw_started (jn_writer j)))) j else j
  | _, _ => j
  end.

(** [_put]. *)
Definition put (k : tick) (event_type category : string) (content : json) (metadata : list (string * json))
    (j : journal) : journal :=
  let event := mk_put (jn_thread_id j) (jn_run_id j) event_type category content (Some metadata) (Some (tk_now k)) in
  let j1 := set_writer (mk_writer (jw_buffer (jn_writer j) ++ [event]) (jw_pending (jn_writer j)) (jw_started (jn_writer j))) j in
  if jn_flush_threshold j <=? Z.of_nat (length (jw_buffer (jn_writer j1))) then flush_sync k j1 else j1.

(** ** Progress snapshots *)

Definition set_progress_task (task : option progress_task) (j : journal) : journal :=
  let p := jn_progress j in
  set_progress (mk_progress (jp_reporter p) (jp_interval p) task (jp_created p) (jp_delayed p) (jp_dirty p)
    (jp_last_flush p) (jp_reported p)) j.
Definition set_progress_flags (delayed dirty : bool) (j : journal) : journal :=
  let p := jn_progress j in
  set_progress (mk_progress (jp_reporter p) (jp_interval p) (jp_task p) (jp_created p) delayed dirty
    (jp_last_flush p) (jp_reported p)) j.
Definition set_progress_dirty (dirty : bool) (j : journal) : journal :=
  set_progress_flags (jp_delayed (jn_progress j)) dirty j.

(** [loop.create_task(self._flush_progress_async(...))]. *)
Definition create_progress_task (snapshot : option completion_data) (delay : Z) (j : journal) : journal :=
  let p := jn_progress j in
  set_progress (mk_progress (jp_reporter p) (jp_interval p) (Some (NotStarted snapshot delay))
    (Datatypes.S (jp_created p)) (jp_delayed p) (jp_dirty p) (jp_last_flush p) (jp_reported p)) j.

(** [_schedule_delayed_progress_flush]. *)
Definition schedule_delayed_progress_flush (loop : bool) (delay : Z) (j : journal) : journal :=
  match jp_task (jn_progress j) with
  | Some _ => j
  | None =>
      if loop then
        let delay := Z.max 0 delay in
        create_progress_task None delay (set_progress_flags (0 <? delay) (jp_dirty (jn_progress j)) j)
      else j
  end.

(** [_schedule_progress_flush]. *)
Definition schedule_progress_flush (k : tick) (j : journal) : journal :=
  let p := jn_progress j in
  if negb (jp_reporter p) then j
  else
    let elapsed := tk_monotonic k - jp_last_flush p in
    if elapsed <? jp_interval p then
      schedule_delayed_progress_flush (tk_loop k) (jp_interval p - elapsed) (set_progress_dirty true j)
    else
      match jp_task p with
      | Some _ => set_progress_dirty true j
      | None =>
          if tk_loop k then create_progress_task (Some (get_completion_data j)) 0 (set_progress_dirty false j) else j
      end.

(** ** Callers, texts, totals *)

(** [_identify_caller]. *)
Definition is_caller_tag (tag : string) : bool :=
  startswith "subagent:" tag || startswith "middleware:" tag || String.eqb tag "lead_agent".

Definition identify_caller (tags : option (list string)) : string :=
  opt_or (List.find is_caller_tag (opt_or tags [])) "lead_agent".

(** [_message_text]. *)
Definition block_text (block : json) : string :=
  match block with
  | JStr s => s
  | JObj d =>
      match dict_get "text" d with
      | Some (JStr s) => s
      | _ => match dict_get "content" d with Some (JStr s) => s | _ => "" end
      end
  | _ => ""
  end.

Definition message_text (m : message) : string :=
  match msg_content m with
  | JStr s => s
  | JArr blocks => String.concat "" (block_text <$> blocks)
  | JObj d =>
      match dict_get "text" d with
      | Some (JStr s) => s
      | _ => match dict_get "content" d with Some (JStr s) => s | _ => opt_or (msg_text m) "" end
      end
  | _ => opt_or (msg_text m) ""
  end.

(** [_record_message_summary]. *)
Definition record_message_summary (m : message) (caller : option string) (j : journal) : journal :=
  let s := jn_summary j in
  let is_ai := bool_decide (msg_class m = AIMessage) || String.eqb (msg_type m) "ai" in
  let text := strip (message_text m) in
  let last_ai :=
    if is_ai && bool_decide (caller = None \/ caller = Some "lead_agent") && negb (String.eqb text "")
    then Some (str_take 2000 text) else js_last_ai_msg s in
  set_summary (mk_summary last_ai (js_first_human_msg s) (js_msg_count s + 1) (js_had_llm_error_fallback s)
    (js_llm_error_fallback_message s) (js_counted_message_llm_run_ids s)) j.

(** [_record_model_usage]. *)
Definition record_model_usage (model_name : option string) (input_tokens output_tokens total_tokens : Z)
    (by_model : list (string * (Z * Z * Z))) : list (string * (Z * Z * Z)) :=
  if total_tokens <=? 0 then by_model
  else
    let model := if truthy model_name then opt_or model_name "unknown" else "unknown" in
    let '(i, o, t) := opt_or (dict_get model by_model) (0, 0, 0) in
    dict_set model (i + input_tokens, o + output_tokens, t + total_tokens) by_model.

(** The counters of one call, for a caller; [call] is 1 for a call of the
    agent itself and 0 for a usage record from outside. *)
Definition add_usage (caller : string) (model_name : option string) (input_tk output_tk total_tk call : Z)
    (counted_llm counted_ext : gset string) (t : token_totals) : token_totals :=
  let sub := startswith "subagent:" caller in
  let mid := negb sub && startswith "middleware:" caller in
  mk_totals (jt_total_input_tokens t + input_tk) (jt_total_output_tokens t + output_tk)
    (jt_total_tokens t + total_tk) (jt_llm_call_count t + call)
    (jt_lead_agent_tokens t + if sub || mid then 0 else total_tk)
    (jt_subagent_tokens t + if sub then total_tk else 0)
    (jt_middleware_tokens t + if mid then total_tk else 0)
    (record_model_usage model_name input_tk output_tk total_tk (jt_tokens_by_model t))
    counted_llm counted_ext.

(** ** Callbacks *)

(** [{**a, **b}]. *)
Definition dict_merge (a b : list (string * json)) : list (string * json) :=
  foldl (fun d kv => dict_set kv.1 kv.2 d) a b.

Definition on_chain_start (k : tick) (chain_name : json) (root : bool) (tags : option (list string))
    (metadata : option (list (string * json))) (j : journal) : journal :=
  if root then
    put k "run.start" "trace" (JObj [("chain", chain_name)])
      (dict_merge [("caller", JStr (identify_caller tags))] (opt_or metadata [])) j
  else j.

Definition on_chain_end (k : tick) (outputs : json) (root : bool) (j : journal) : journal :=
  if root then flush_sync k (put k "run.end" "outputs" outputs [("status", JStr "success")] j) else j.

Definition on_chain_error (k : tick) (error error_type : string) (j : journal) : journal :=
  flush_sync k (put k "run.error" "error" (JStr error) [("error_type", JStr error_type)] j).

Definition set_first_human_message (content : string) (j : journal) : journal :=
  let s := jn_summary j in
  set_summary (mk_summary (js_last_ai_msg s) (if String.eqb content "" then None else Some (str_take 2000 content))
    (js_msg_count s) (js_had_llm_error_fallback s) (js_llm_error_fallback_message s) (js_counted_message_llm_run_ids s)) j.

(** The loops of [on_chat_model_start]: in each batch, newest first, the last
    human message that is not a summary; the search ends with the first whose
    text is kept. *)
Definition is_human_input (m : message) : bool :=
  bool_decide (msg_class m = HumanMessage) && negb (bool_decide (msg_name m = Some "summary")).

Fixpoint capture_first_human (k : tick) (caller : string) (batches : list (list message)) (j : journal) : journal :=
  match batches with
  | [] => j
  | batch :: rest =>
      match List.find is_human_input (reverse batch) with
      | None => if truthy (js_first_human_msg (jn_summary j)) then j else capture_first_human k caller rest j
      | Some m =>
          let j1 := set_first_human_message (opt_or (msg_text m) "") j in
          let j2 := put k "llm.human.input" "message" (msg_model_dump m) [("caller", JStr caller)] j1 in
          let j3 := record_message_summary m (Some caller) j2 in
          if truthy (js_first_human_msg (jn_summary j3)) then j3 else capture_first_human k caller rest j3
      end
  end.

Definition on_chat_model_start (k : tick) (messages : list (list message)) (rid : string)
    (tags : option (list string)) (j : journal) : journal :=
  let l := jn_llm j in
  let j1 := set_llm (mk_tracking (dict_set rid (tk_monotonic k) (jl_llm_start_times l)) (jl_llm_call_index l + 1)
                       ({[rid]} ∪ jl_seen_llm_starts l)) j in
  if truthy (js_first_human_msg (jn_summary j1)) then j1
  else capture_first_human k (identify_caller tags) (reverse messages) j1.

Definition on_llm_start (k : tick) (rid : string) (j : journal) : journal :=
  let l := jn_llm j in
  set_llm (mk_tracking (dict_set rid (tk_monotonic k) (jl_llm_start_times l)) (jl_llm_call_index l) (jl_seen_llm_starts l)) j.

(** [d.get(k, 0) or 0] on a count. *)
Definition count_of (key : string) (d : list (string * json)) : Z :=
  match dict_get key d with Some (JNum z) => z | _ => 0 end.

Definition stripped_text (v : option json) : string :=
  match v with Some (JStr s) => strip s | _ => "" end.

(** Whether [deerflow_error_fallback] is set. *)
Definition is_fallback (m : message) : bool :=
  match dict_get "deerflow_error_fallback" (msg_additional_kwargs m) with Some v => json_truthy v | None => false end.

Definition note_error_fallback (m : message) (j : journal) : journal :=
  if is_fallback m then
    let s := jn_summary j in
    let detail := stripped_text (dict_get "error_detail" (msg_additional_kwargs m)) in
    let reason := stripped_text (dict_get "error_reason" (msg_additional_kwargs m)) in
    let fallback_text := strip (message_text m) in
    let text :=
      if negb (String.eqb detail "") then Some detail
      else if negb (String.eqb reason "") then Some reason
      else if negb (String.eqb fallback_text "") then Some (str_take 2000 fallback_text)
      else js_llm_error_fallback_message s in
    set_summary (mk_summary (js_last_ai_msg s) (js_first_human_msg s) (js_msg_count s) true text
      (js_counted_message_llm_run_ids s)) j
  else j.

(** The model of a response: [model_name] or [model], when truthy text. *)
Definition model_of (m : message) : option string :=
  let text k := match dict_get k (msg_response_metadata m) with Some (JStr s) => Some s | _ => None end in
  if truthy (text "model_name") then text "model_name" else text "model".

Definition count_tokens (k : tick) (rid caller : string) (m : message) (j : journal) : journal :=
  let usage := opt_or (msg_usage_metadata m) [] in
  let input_tk := count_of "input_tokens" usage in
  let output_tk := count_of "output_tokens" usage in
  let total_tk := count_of "total_tokens" usage in
  let total_tk := if total_tk =? 0 then input_tk + output_tk else total_tk in
  let t := jn_tokens j in
  if jn_track_tokens j && (0 <? total_tk) && negb (bool_decide (rid ∈ jt_counted_llm_run_ids t))
  then schedule_progress_flush k (set_tokens (add_usage caller (model_of m) input_tk output_tk total_tk 1
         ({[rid]} ∪ jt_counted_llm_run_ids t) (jt_counted_external_source_ids t) t) j)
  else j.

(** One turn of the loop of [on_llm_end]. *)
Definition llm_end_message (k : tick) (rid : string) (tags : option (list string)) (m : message) (j : journal)
    : journal :=
  let caller := identify_caller tags in
  let start := dict_get rid (jl_llm_start_times (jn_llm j)) in
  let latency :=
    match start with
    | Some s => if s =? 0 then JNull else JNum (Z.quot (tk_monotonic k - s) 1000)
    | None => JNull
    end in
  let j := set_llm (mk_tracking (dict_pop rid (jl_llm_start_times (jn_llm j))) (jl_llm_call_index (jn_llm j))
                      (jl_seen_llm_starts (jn_llm j))) j in
  let j := note_error_fallback m j in
  let seen := bool_decide (rid ∈ jl_seen_llm_starts (jn_llm j)) in
  let call_index := if seen then jl_llm_call_index (jn_llm j) else jl_llm_call_index (jn_llm j) + 1 in
  let j := set_llm (mk_tracking (jl_llm_start_times (jn_llm j)) call_index ({[rid]} ∪ jl_seen_llm_starts (jn_llm j))) j in
  let j := put k "llm.ai.response" "message" (msg_model_dump m)
             [("caller", JStr caller); ("usage", JObj (opt_or (msg_usage_metadata m) []));
              ("latency_ms", latency); ("llm_call_index", JNum call_index)] j in
  let j := if bool_decide (rid ∈ js_counted_message_llm_run_ids (jn_summary j)) then j
           else record_message_summary m (Some caller) j in
  count_tokens k rid caller m j.

Definition on_llm_end (k : tick) (messages : list message) (rid : string) (tags : option (list string)) (j : journal)
    : journal :=
  let j := foldl (fun j m => llm_end_message k rid tags m j) j messages in
  match messages with
  | [] => j
  | _ =>
      let s := jn_summary j in
      set_summary (mk_summary (js_last_ai_msg s) (js_first_human_msg s) (js_msg_count s) (js_had_llm_error_fallback s)
        (js_llm_error_fallback_message s) ({[rid]} ∪ js_counted_message_llm_run_ids s)) j
  end.

Definition on_llm_error (k : tick) (error rid : string) (j : journal) : journal :=
  let l := jn_llm j in
  put k "llm.error" "trace" (JStr error) []
    (set_llm (mk_tracking (dict_pop rid (jl_llm_start_times l)) (jl_llm_call_index l) (jl_seen_llm_starts l)) j).

(** [on_tool_end]: the messages of the output (a tool message, or those of a
    command that are messages). *)
Definition on_tool_end (k : tick) (messages : list message) (j : journal) : journal :=
  foldl (fun j m => record_message_summary m None (put k "llm.tool.result" "message" (msg_model_dump m) [] j)) j messages.

Definition record_external (k : tick) (x : external_usage) (j : journal) : journal :=
  let t := jn_tokens j in
  if String.eqb (xu_source_run_id x) "" || bool_decide (xu_source_run_id x ∈ jt_counted_external_source_ids t) then j
  else
    let total_tk := if xu_total_tokens x <=? 0 then xu_input_tokens x + xu_output_tokens x else xu_total_tokens x in
    if total_tk <=? 0 then j
    else
      schedule_progress_flush k (set_tokens (add_usage (xu_caller x) (xu_model_name x) (xu_input_tokens x)
        (xu_output_tokens x) total_tk 0 (jt_counted_llm_run_ids t)
        ({[xu_source_run_id x]} ∪ jt_counted_external_source_ids t) t) j).

Definition record_external_llm_usage_records (k : tick) (records : list external_usage) (j : journal) : journal :=
  if jn_track_tokens j then foldl (fun j x => record_external k x j) j records else j.

Definition record_middleware (k : tick) (tag name hook action : string) (changes : json) (j : journal) : journal :=
  put k ("middleware:" +:+ tag) "middleware"
    (JObj [("name", JStr name); ("hook", JStr hook); ("action", JStr action); ("changes", changes)]) [] j.

(** Every way the run calls the journal. *)
Inductive callback : Type :=
| ChainStart (chain_name : json) (root : bool) (tags : option (list string)) (metadata : option (list (string * json)))
| ChainEnd (outputs : json) (root : bool)
| ChainError (error error_type : string)
| ChatModelStart (messages : list (list message)) (rid : string) (tags : option (list string))
| LlmStart (rid : string)
| LlmEnd (messages : list message) (rid : string) (tags : option (list string))
| LlmError (error rid : string)
| ToolEnd (messages : list message)
| ExternalUsage (records : list external_usage)
| Middleware (tag name hook action : string) (changes : json).

Definition run_callback (k : tick) (c : callback) : journal -> journal :=
  match c with
  | ChainStart n root tags md => on_chain_start k n root tags md
  | ChainEnd o root => on_chain_end k o root
  | ChainError e ty => on_chain_error k e ty
  | ChatModelStart ms rid tags => on_chat_model_start k ms rid tags
  | LlmStart rid => on_llm_start k rid
  | LlmEnd ms rid tags => on_llm_end k ms rid tags
  | LlmError e rid => on_llm_error k e rid
  | ToolEnd ms => on_tool_end k ms
  | ExternalUsage rs => record_external_llm_usage_records k rs
  | Middleware tag n h a ch => record_middleware k tag n h a ch
  end.

(** ** Tasks *)

(** One stretch of [_flush_progress_async] between two awaits; [ok] says whether
    the call of the reporter that ends went through. *)
Definition call_reporter (snapshot : option completion_data) (j : journal) : journal :=
  let p := jn_progress j in
  set_progress (mk_progress (jp_reporter p) (jp_interval p) (Some (Reporting (jp_dirty p))) (jp_created p) (jp_delayed p)
    false (jp_last_flush p) (jp_reported p ++ [opt_or snapshot (get_completion_data j)])) j.

Definition note_progress_flush (now : Z) (j : journal) : journal :=
  let p := jn_progress j in
  set_progress (mk_progress (jp_reporter p) (jp_interval p) (jp_task p) (jp_created p) (jp_delayed p) (jp_dirty p)
    now (jp_reported p)) j.

Definition flush_progress_async (ok : bool) (monotonic : Z) (j : journal) : journal :=
  let p := jn_progress j in
  match jp_task p with
  | None => j
  | Some (NotStarted snapshot delay) =>
      if negb (jp_reporter p) then set_progress_task None j
      else if 0 <? delay then set_progress_task (Some Sleeping) (set_progress_flags true (jp_dirty p) j)
      else call_reporter snapshot j
  | Some Sleeping => call_reporter None (set_progress_flags false (jp_dirty p) j)
  | Some (Reporting dirty_before_write) =>
      let j1 := set_progress_task None (if ok then note_progress_flush monotonic j else j) in
      if dirty_before_write || jp_dirty p
      then schedule_delayed_progress_flush true (jp_interval p) (set_progress_dirty false j1)
      else j1
  | Some Cancelling => set_progress_task None j
  end.

(** What is left of the task number [id], at most three stretches. *)
Definition progress_running (id : nat) (j : journal) : bool :=
  match jp_task (jn_progress j) with Some _ => Nat.eqb (jp_created (jn_progress j)) id | None => false end.

Fixpoint run_progress (n id : nat) (ok : bool) (monotonic : Z) (j : journal) : journal :=
  match n with
  | O => j
  | Datatypes.S n' =>
      if progress_running id j then run_progress n' id ok monotonic (flush_progress_async ok monotonic j) else j
  end.

(** [task.cancel()], and the task cancelled by a waiter that is cancelled. *)
Definition cancel_progress (j : journal) : journal :=
  match jp_task (jn_progress j) with Some _ => set_progress_task (Some Cancelling) j | None => j end.
Definition drop_progress (id : nat) (j : journal) : journal :=
  if progress_running id j then set_progress_task None j else j.

Section tasks.
Context {S : Type} `{RunEventStore S}.

(** The body of [_flush_async]: a failed batch goes back to the front. *)
Definition flush_async (fault : option string) (now : Z) (j : journal) (s : S) : journal * S :=
  match jw_pending (jn_writer j) with
  | InFlight batch =>
      match es_put_batch fault now batch s with
      | (Ok _, s') => (set_writer (mk_writer (jw_buffer (jn_writer j)) Finished (jw_started (jn_writer j))) j, s')
      | (Err _, s') => (set_writer (mk_writer (batch ++ jw_buffer (jn_writer j)) Finished (jw_started (jn_writer j))) j, s')
      end
  | _ => (j, s)
  end.

(** [_on_flush_done]. *)
Definition on_flush_done (j : journal) : journal :=
  match jw_pending (jn_writer j) with
  | Finished => set_writer (mk_writer (jw_buffer (jn_writer j)) Idle (jw_started (jn_writer j))) j
  | _ => j
  end.

(** The flush task number [id] runs to its end, or is cancelled in its write,
    before or after the store was changed: [except Exception] does not see a
    cancellation, so the batch does not go back. *)
Definition finish_flush_task (id : nat) (fault : option string) (now : Z) (j : journal) (s : S) : journal * S :=
  if Nat.eqb (jw_started (jn_writer j)) id
  then let '(j', s') := flush_async fault now j s in (on_flush_done j', s')
  else (j, s).

Definition cancel_flush_task (id : nat) (applied : bool) (now : Z) (j : journal) (s : S) : journal * S :=
  if Nat.eqb (jw_started (jn_writer j)) id then
    match jw_pending (jn_writer j) with
    | InFlight batch =>
        (set_writer (mk_writer (jw_buffer (jn_writer j)) Idle (jw_started (jn_writer j))) j,
         if applied then (es_put_batch None now batch s).2 else s)
    | _ => (on_flush_done j, s)
    end
  else (j, s).

(** ** [flush] *)

(** A world with a journal, its store and the clocks. *)
Class JournalHost (W : Type) : Type := {
  jh_journal : W -> journal;
  jh_store : W -> S;
  jh_now : W -> Z;
  jh_set : journal * S -> W -> W;
  jh_journal_set p w : jh_journal (jh_set p w) = p.1;
  jh_store_set p w : jh_store (jh_set p w) = p.2
}.
Context {W : Type} `{JournalHost W}.

Definition on_journal (f : journal -> journal) (w : W) : W := jh_set (f (jh_journal w), jh_store w) w.
Definition on_both (f : Z -> journal -> S -> journal * S) (w : W) : W :=
  jh_set (f (jh_now w) (jh_journal w) (jh_store w)) w.

(** [asyncio.gather] of [_pending_flush_tasks] with [return_exceptions];
    other tasks may run again before the waiter does. *)
Definition gather_flush_task : coro W unit :=
  do! j := gets jh_journal in
  match jw_pending (jn_writer j) with
  | Idle => ret tt
  | _ =>
      let id := jw_started (jn_writer j) in
      await_task (fun fault => on_both (finish_flush_task id fault)) (fun applied => on_both (cancel_flush_task id applied)) ;;
      await_sure id_world
  end.

(** [asyncio.gather] of the progress task. *)
Definition gather_progress_task (id : nat) : coro W unit :=
  await_task (fun fault w => on_journal (run_progress 3 id (bool_decide (fault = None)) (jh_now w)) w)
    (fun _ => on_journal (drop_progress id)) ;;
  await_sure id_world.

(** The loop on the progress task.  A turn awaits, and without other tasks a
    progress task is followed by at most one more: [length s + 3] turns are
    enough for a schedule [s] ([drain_progress_returns]).  False when [n] turns
    did not end the loop. *)
Fixpoint drain_progress (n : nat) : coro W bool :=
  match n with
  | O => ret false
  | Datatypes.S n' =>
      do! j := gets jh_journal in
      match jp_task (jn_progress j) with
      | None => ret true
      | Some _ =>
          let id := jp_created (jn_progress j) in
          if jp_delayed (jn_progress j) then
            modify (on_journal cancel_progress) ;;
            gather_progress_task id ;;
            modify (on_journal (set_progress_flags false false)) ;;
            ret true
          else gather_progress_task id ;; drain_progress n'
      end
  end.

(** The loop on the buffer: one batch of at most the threshold per turn; a
    failed batch goes back to the front and the failure is raised, a cancelled
    one does not go back. *)
Definition put_back (batch : list event_args) (j : journal) : journal :=
  set_writer (mk_writer (batch ++ jw_buffer (jn_writer j)) (jw_pending (jn_writer j)) (jw_started (jn_writer j))) j.

Definition store_batch (batch : list event_args) (w : W) : result raised unit * W :=
  match es_put_batch None (jh_now w) batch (jh_store w) with
  | (Ok _, s') => (Ok tt, jh_set (jh_journal w, s') w)
  | (Err msg, s') => (Err (Raised "Exception" msg), jh_set (jh_journal w, s') w)
  end.

Definition write_batch : coro W unit :=
  do! j := gets jh_journal in
  let batch := py_slice None (Some (jn_flush_threshold j)) (jw_buffer (jn_writer j)) in
  let rest := drop (length batch) (jw_buffer (jn_writer j)) in
  modify (on_journal (set_writer (mk_writer rest (jw_pending (jn_writer j)) (jw_started (jn_writer j))))) ;;
  try_exception (await (store_batch batch) ;; await_sure id_world)
    (fun name msg => modify (on_journal (put_back batch)) ;; throw (Raised name msg)).

Fixpoint write_batches (n : nat) : coro W bool :=
  match n with
  | O => ret false
  | Datatypes.S n' =>
      do! j := gets jh_journal in
      match jw_buffer (jn_writer j) with
      | [] => ret true
      | _ => write_batch ;; write_batches n'
      end
  end.

(** A turn uses an await of the schedule; once it is used up, every turn
    takes an event off the buffer. *)
Definition flush_loop : coro W bool := fun w s =>
  (do! done := write_batches (length s) in
   if done then ret true
   else do! j := gets jh_journal in write_batches (1 + length (jw_buffer (jn_writer j)))) w s.

(** [flush]; it answers true when both loops ended. *)
Definition flush : coro W bool :=
  gather_flush_task ;;
  do! drained := (fun w s => drain_progress (length s + 3) w s) in
  do! written := flush_loop in
  ret (drained && written).
End tasks.
