(* ===== verification/JournalProps.v ===== *)
(** * What the run journal promises

    No event is lost or duplicated between the callbacks of a run and the event
    store, whatever the interleaving of callbacks, background flushes, progress
    tasks, failures and the awaits of [flush]; only a cancelled write loses its
    batch, and the order is kept as long as no callback comes during [flush];
    [flush] returns.  Proved for every store that meets the contract of
    [EventStore], in which a failed batch writes nothing. *)
From S2P Require Import Prelude PyAsync PyString PyList EventStore Journal.
Local Open Scope string_scope.
Local Open Scope Z_scope.
Local Open Scope list_scope.

Create HintDb journal.

(** ** The pipeline of a journal: the batch in flight, then the buffer *)

Definition in_flight (w : writer) : list event_args :=
  match jw_pending w with InFlight batch => batch | _ => [] end.

Definition pipeline (j : journal) : list event_args := in_flight (jn_writer j) ++ jw_buffer (jn_writer j).

Definition own (j : journal) (a : event_args) : Prop :=
  pa_thread_id a = jn_thread_id j /\ pa_run_id a = jn_run_id j /\ is_Some (pa_created_at a).

Definition same_run (j j' : journal) : Prop :=
  jn_run_id j' = jn_run_id j /\ jn_thread_id j' = jn_thread_id j /\ jn_flush_threshold j' = jn_flush_threshold j
  /\ jn_track_tokens j' = jn_track_tokens j.

(** A callback only appends events of its own run. *)
Definition appends (j j' : journal) : Prop :=
  same_run j j' /\ exists new, pipeline j' = pipeline j ++ new /\ Forall (own j) new.

Lemma appends_refl j : appends j j.
Proof. split; [done|]. exists []. by rewrite app_nil_r. Qed.

Lemma own_same j j' a : same_run j j' -> own j' a -> own j a.
Proof. intros (H1 & H2 & _) (? & ? & ?). split_and!; congruence || done. Qed.

Lemma appends_trans j1 j2 j3 : appends j1 j2 -> appends j2 j3 -> appends j1 j3.
Proof.
  intros [H12 (n1 & E1 & F1)] [H23 (n2 & E2 & F2)]. split.
  - destruct H12 as (? & ? & ? & ?), H23 as (? & ? & ? & ?). split_and!; congruence.
  - exists (n1 ++ n2). rewrite E2, E1, <-app_assoc. split; [done|]. apply Forall_app. split; [done|].
    eapply Forall_impl; [exact F2|]. intros a. by apply own_same.
Qed.

Lemma flush_sync_appends k j : appends j (flush_sync k j).
Proof.
  unfold flush_sync. destruct j as [? ? ? ? [[|a buffer] pending ?] ? ? ? ?]; simpl; [apply appends_refl|].
  destruct pending; [|apply appends_refl..]. destruct (tk_loop k); [|apply appends_refl].
  split; [done|]. exists []. unfold pipeline, in_flight. simpl. by rewrite !app_nil_r.
Qed.

Lemma put_appends k ty cat content md j : appends j (put k ty cat content md j).
Proof.
  unfold put. set (j1 := set_writer _ j).
  assert (H1 : appends j j1).
  { split; [done|]. exists [mk_put (jn_thread_id j) (jn_run_id j) ty cat content (Some md) (Some (tk_now k))].
    unfold pipeline, in_flight. simpl. rewrite app_assoc. split; [done|]. repeat constructor. eauto. }
  destruct (_ <=? _); [|done]. eapply appends_trans; [exact H1|]. apply flush_sync_appends.
Qed.

Lemma frame_appends j j' : same_run j j' -> jn_writer j' = jn_writer j -> appends j j'.
Proof. intros Hs Hw. split; [done|]. exists []. unfold pipeline. by rewrite Hw, app_nil_r. Qed.

Lemma set_summary_appends s j : appends j (set_summary s j).
Proof. by apply frame_appends. Qed.
Lemma set_tokens_appends t j : appends j (set_tokens t j).
Proof. by apply frame_appends. Qed.
Lemma set_llm_appends l j : appends j (set_llm l j).
Proof. by apply frame_appends. Qed.
Lemma record_message_summary_appends m c j : appends j (record_message_summary m c j).
Proof. apply set_summary_appends. Qed.
Lemma note_error_fallback_appends m j : appends j (note_error_fallback m j).
Proof. unfold note_error_fallback. destruct (is_fallback m); [apply set_summary_appends|apply appends_refl]. Qed.
Lemma set_progress_appends p j : appends j (set_progress p j).
Proof. by apply frame_appends. Qed.
Lemma schedule_progress_progress k j : exists p, schedule_progress_flush k j = set_progress p j.
Proof.
  assert (Hj : exists p, j = set_progress p j) by (exists (jn_progress j); by destruct j).
  unfold schedule_progress_flush, schedule_delayed_progress_flush, create_progress_task, set_progress_dirty,
    set_progress_flags. destruct (negb _); [done|]. destruct (_ <? _); simpl.
  - destruct (jp_task _), (tk_loop k); simpl; eauto.
  - destruct (jp_task _), (tk_loop k); simpl; eauto.
Qed.
Lemma schedule_progress_appends k j : appends j (schedule_progress_flush k j).
Proof. destruct (schedule_progress_progress k j) as [p ->]. apply set_progress_appends. Qed.
Lemma count_tokens_appends k rid c m j : appends j (count_tokens k rid c m j).
Proof.
  unfold count_tokens. destruct (_ && _); [|apply appends_refl].
  eapply appends_trans; [apply set_tokens_appends|apply schedule_progress_appends].
Qed.
Lemma record_external_appends k x j : appends j (record_external k x j).
Proof.
  unfold record_external. destruct (_ || _); [apply appends_refl|]. cbv zeta.
  destruct ((if xu_total_tokens x <=? 0 then _ else _) <=? 0); [apply appends_refl|].
  eapply appends_trans; [apply set_tokens_appends|apply schedule_progress_appends].
Qed.

#[export] Hint Resolve appends_refl flush_sync_appends put_appends set_summary_appends set_tokens_appends
  set_llm_appends record_message_summary_appends note_error_fallback_appends count_tokens_appends
  record_external_appends : journal.

Lemma foldl_appends {X} (f : journal -> X -> journal) l j :
  (forall j x, appends j (f j x)) -> appends j (foldl f j l).
Proof.
  intros Hf. revert j. induction l as [|x l IH]; intros j; simpl; [apply appends_refl|].
  eapply appends_trans; [apply Hf|apply IH].
Qed.

(** Every callback only appends. *)
Lemma capture_first_human_appends k caller batches j : appends j (capture_first_human k caller batches j).
Proof.
  revert j. induction batches as [|batch rest IH]; intros j; simpl; [apply appends_refl|].
  destruct (List.find _ _) as [m|].
  - set (j3 := record_message_summary _ _ _). assert (H3 : appends j j3).
    { unfold j3. eapply appends_trans; [|apply record_message_summary_appends].
      eapply appends_trans; [|apply put_appends]. apply set_summary_appends. }
    destruct (truthy _); [done|]. eapply appends_trans; [exact H3|apply IH].
  - destruct (truthy _); [apply appends_refl|apply IH].
Qed.

Lemma llm_end_message_appends k rid tags m j : appends j (llm_end_message k rid tags m j).
Proof.
  unfold llm_end_message. eapply appends_trans; [|apply count_tokens_appends].
  match goal with |- appends _ (if ?b then ?x else ?y) => apply (appends_trans _ x); [|destruct b; auto with journal] end.
  eapply appends_trans; [|apply put_appends]. eapply appends_trans; [|apply set_llm_appends].
  eapply appends_trans; [|apply note_error_fallback_appends]. apply set_llm_appends.
Qed.

Lemma run_callback_appends k c j : appends j (run_callback k c j).
Proof.
  destruct c as [n root tags md|o root|e ty|ms rid tags|rid|ms rid tags|e rid|ms|rs|tag n h a ch]; simpl.
  - unfold on_chain_start. destruct root; auto with journal.
  - unfold on_chain_end. destruct root; [|auto with journal]. eapply appends_trans; [apply put_appends|apply flush_sync_appends].
  - unfold on_chain_error. eapply appends_trans; [apply put_appends|apply flush_sync_appends].
  - unfold on_chat_model_start. destruct (truthy _); [apply set_llm_appends|].
    eapply appends_trans; [apply set_llm_appends|apply capture_first_human_appends].
  - apply set_llm_appends.
  - unfold on_llm_end. pose proof (foldl_appends (fun j m => llm_end_message k rid tags m j) ms j
      (fun j m => llm_end_message_appends k rid tags m j)) as Hf.
    destruct ms; [exact Hf|]. eapply appends_trans; [exact Hf|apply set_summary_appends].
  - unfold on_llm_error. eapply appends_trans; [apply set_llm_appends|apply put_appends].
  - unfold on_tool_end. apply foldl_appends. intros j' m.
    eapply appends_trans; [apply put_appends|apply record_message_summary_appends].
  - unfold record_external_llm_usage_records. destruct (jn_track_tokens j); [|apply appends_refl].
    apply foldl_appends. auto with journal.
  - apply put_appends.
Qed.

(** ** Delivery to a store *)

Section delivery.
Context {S : Type} `{RunEventStore S}.

(** What the store holds of an event handed to it. *)
Definition kept (a : event_args) (r : run_event) : Prop :=
  ev_thread_id r = pa_thread_id a /\ ev_run_id r = pa_run_id a /\ ev_event_type r = pa_event_type a
  /\ ev_category r = pa_category a /\ pa_created_at a = Some (ev_created_at r)
  /\ (es_keeps a -> ev_content r = pa_content a).

(** The events of the journal's run in the store. *)
Definition run_events (j : journal) (s : S) : list run_event :=
  List.filter (of_run (jn_run_id j)) (es_log (jn_thread_id j) s).

(** From [s] to [s'] the run's events grew by the records of [stored]. *)
Definition delivered (j : journal) (s s' : S) (stored : list event_args) : Prop :=
  es_wf s' /\ exists rs, Forall2 kept stored rs /\ run_events j s' = run_events j s ++ rs.

Lemma delivered_nil j s : es_wf s -> delivered j s s [].
Proof using. intros Hwf. split; [done|]. exists []. by rewrite app_nil_r. Qed.

Lemma delivered_trans j s1 s2 s3 l1 l2 :
  delivered j s1 s2 l1 -> delivered j s2 s3 l2 -> delivered j s1 s3 (l1 ++ l2).
Proof using.
  intros [_ (r1 & F1 & E1)] [Hwf (r2 & F2 & E2)]. split; [done|]. exists (r1 ++ r2).
  split; [by apply Forall2_app|]. by rewrite E2, E1, <-app_assoc.
Qed.

Lemma put_batch_delivered j fault now batch s rs s' :
  es_wf s -> Forall (own j) batch -> es_put_batch fault now batch s = (Ok rs, s') -> delivered j s s' batch.
Proof using.
  intros Hwf Hown Hp.
  destruct (es_put_batch_ok fault now batch s rs s' (jn_thread_id j) Hwf) as (Hwf' & Hf & Hlog & _); [|done|].
  { eapply Forall_impl; [exact Hown|]. by intros a (? & _). }
  split; [done|]. exists rs.
  assert (Hk : Forall2 (fun a r => kept a r /\ ev_run_id r = jn_run_id j) batch rs).
  { clear Hp Hlog. induction Hf as [|a r batch rs [Hr Hc] _ IH]; [constructor|].
    inversion Hown as [|? ? (Ht & Hrun & [x Hx]) Hown']; subst. constructor; [|by apply IH].
    destruct Hr as (R1 & R2 & R3 & R4 & R5). rewrite Hx in R5. simpl in R5. subst x.
    split; [by split_and!|congruence]. }
  split; [eapply Forall2_impl; [exact Hk|]; by intros a r [? _]|].
  unfold run_events. rewrite Hlog, List.filter_app. f_equal. apply filter_accepts.
  clear -Hk. induction Hk as [|a r batch rs [_ Hr] _ IH]; constructor; [|done]. by apply String.eqb_eq.
Qed.

Lemma flush_async_spec fault now j s j' s' :
  es_wf s -> Forall (own j) (pipeline j) -> flush_async fault now j s = (j', s') ->
  same_run j j' /\ in_flight (jn_writer j') = []
  /\ exists stored, pipeline j = stored ++ pipeline j' /\ delivered j s s' stored.
Proof using.
  intros Hwf Hown Hf. unfold flush_async in Hf. destruct (jw_pending (jn_writer j)) as [|batch|] eqn:Hp.
  1,3: simplify_eq; unfold in_flight; rewrite Hp; split_and!; [done|done|]; exists []; split; [done|by apply delivered_nil].
  assert (Hpipe : pipeline j = batch ++ jw_buffer (jn_writer j)) by (unfold pipeline, in_flight; by rewrite Hp).
  rewrite Hpipe in Hown. apply Forall_app in Hown as [Hb _].
  destruct (es_put_batch fault now batch s) as [[rs|e] s1] eqn:Hput; simplify_eq.
  - split_and!; [done|done|]. exists batch. split; [by rewrite Hpipe|]. by eapply put_batch_delivered.
  - apply es_put_batch_err in Hput as ->. split_and!; [done|done|]. exists [].
    split; [by rewrite Hpipe|by apply delivered_nil].
Qed.

(** ** Other tasks *)

(** A journal, its store, the events handed to [_put] so far, and the clock. *)
Record config : Type := mk_config {
  cf_journal : journal;
  cf_store : S;
  cf_emitted : list event_args;
  cf_clock : Z
}.

#[global] Program Instance config_host : JournalHost (S := S) config := {
  jh_journal := cf_journal;
  jh_store := cf_store;
  jh_now := cf_clock;
  jh_set p c := mk_config p.1 p.2 (cf_emitted c) (cf_clock c)
}.
Solve All Obligations with done.

(** The steps of the others: a callback, the background write with any fault,
    its done-callback, a stretch of the progress task, writers of other runs,
    the clock.  [callbacks] says whether the agent may still call. *)
Inductive env_step (callbacks : bool) : config -> config -> Prop :=
| env_callback k c j s em t :
    callbacks = true ->
    env_step callbacks (mk_config j s em t)
      (mk_config (run_callback k c j) s (em ++ drop (length (pipeline j)) (pipeline (run_callback k c j))) t)
| env_task fault j s em t :
    env_step callbacks (mk_config j s em t) (jh_set (flush_async fault t j s) (mk_config j s em t))
| env_task_done j s em t : env_step callbacks (mk_config j s em t) (mk_config (on_flush_done j) s em t)
| env_progress ok j s em t : env_step callbacks (mk_config j s em t) (mk_config (flush_progress_async ok t j) s em t)
| env_other j s em t s' :
    es_wf s' -> run_events j s' = run_events j s -> env_step callbacks (mk_config j s em t) (mk_config j s' em t)
| env_clock j s em t t' : env_step callbacks (mk_config j s em t) (mk_config j s em t').

Lemma own_same_iff j j' l : same_run j j' -> Forall (own j') l <-> Forall (own j) l.
Proof using.
  intros (H1 & H2 & _). apply Forall_iff. intros a. unfold own. by rewrite H1, H2.
Qed.

Lemma same_run_refl j : same_run j j.
Proof using. done. Qed.

Lemma same_run_trans j1 j2 j3 : same_run j1 j2 -> same_run j2 j3 -> same_run j1 j3.
Proof using. intros (? & ? & ? & ?) (? & ? & ? & ?). split_and!; congruence. Qed.

Lemma delivered_same j j' s s' l : same_run j j' -> delivered j' s s' l -> delivered j s s' l.
Proof using.
  intros (H1 & H2 & _) [Hwf (rs & Hf & He)]. split; [done|]. exists rs. split; [done|].
  unfold run_events in *. by rewrite <-H1, <-H2.
Qed.

(** The progress task and the done-callback leave the events alone. *)
Definition quiet_change (j j' : journal) : Prop :=
  same_run j j' /\ in_flight (jn_writer j') = in_flight (jn_writer j)
  /\ jw_buffer (jn_writer j') = jw_buffer (jn_writer j) /\ jw_started (jn_writer j') = jw_started (jn_writer j).

Lemma quiet_pipeline j j' : quiet_change j j' -> pipeline j' = pipeline j.
Proof using. intros (_ & H1 & H2 & _). unfold pipeline. by rewrite H1, H2. Qed.

Lemma quiet_trans j1 j2 j3 : quiet_change j1 j2 -> quiet_change j2 j3 -> quiet_change j1 j3.
Proof using.
  intros (? & ? & ? & ?) (? & ? & ? & ?). split; [by eapply same_run_trans|]. split_and!; congruence.
Qed.

Lemma quiet_progress p j : quiet_change j (set_progress p j).
Proof using. done. Qed.

Lemma on_flush_done_quiet j : quiet_change j (on_flush_done j).
Proof using.
  unfold on_flush_done, quiet_change, in_flight. destruct (jw_pending (jn_writer j)) eqn:Hp; simpl; by rewrite ?Hp.
Qed.

Lemma set_progress_id j : set_progress (jn_progress j) j = j.
Proof using. by destruct j. Qed.

Lemma schedule_delayed_progress loop delay j : exists p, schedule_delayed_progress_flush loop delay j = set_progress p j.
Proof using.
  assert (Hj : exists p, j = set_progress p j) by (exists (jn_progress j); by destruct j).
  unfold schedule_delayed_progress_flush, create_progress_task, set_progress_flags. destruct (jp_task _), loop; simpl; eauto.
Qed.

Lemma flush_progress_progress ok t j : exists p, flush_progress_async ok t j = set_progress p j.
Proof using.
  unfold flush_progress_async.
  destruct (jp_task (jn_progress j)) as [[snap d| |db|]|]; [| by eexists| |by eexists|].
  3: by exists (jn_progress j); rewrite set_progress_id.
  - destruct (negb _); [by eexists|]. destruct (0 <? d); by eexists.
  - cbv zeta. destruct (db || jp_dirty (jn_progress j)), ok; try by eexists.
    all: edestruct (schedule_delayed_progress) as [p ->]; by eexists.
Qed.

Lemma flush_progress_quiet ok t j : quiet_change j (flush_progress_async ok t j).
Proof using. by destruct (flush_progress_progress ok t j) as [p ->]. Qed.

Lemma run_progress_quiet n id ok t j : quiet_change j (run_progress n id ok t j).
Proof using.
  revert j. induction n as [|n IH]; intros j; [done|]. cbn [run_progress]. destruct (progress_running id j); [|done].
  eapply quiet_trans; [apply flush_progress_quiet|apply IH].
Qed.

Lemma cancel_progress_quiet j : quiet_change j (cancel_progress j).
Proof using. unfold cancel_progress. by destruct (jp_task _). Qed.

Lemma drop_progress_quiet id j : quiet_change j (drop_progress id j).
Proof using. unfold drop_progress. by destruct (progress_running id j). Qed.

#[local] Hint Resolve same_run_refl on_flush_done_quiet flush_progress_quiet run_progress_quiet cancel_progress_quiet
  drop_progress_quiet quiet_progress : journal.

(** The slice of a turn and the rest. *)
Lemma batch_split {A} (l : list A) n :
  0 <= n -> l = py_slice None (Some n) l ++ drop (length (py_slice None (Some n) l)) l.
Proof using.
  intros Hn. rewrite py_slice_first by done. rewrite length_take. destruct (decide (Z.to_nat n <= length l)%nat).
  - rewrite Nat.min_l by done. by rewrite take_drop.
  - rewrite Nat.min_r, take_ge, drop_ge, app_nil_r by lia. done.
Qed.

(** ** Nothing is lost *)

Section lossless.
Context (j0 : journal) (s0 : S).

(** Every event handed over is stored, in the pipeline, in the batch [held] by
    [flush], or was [lost] in a cancelled write. *)
Definition holding (held lost : list event_args) (c : config) : Prop :=
  same_run j0 (cf_journal c) /\ Forall (own j0) (pipeline (cf_journal c) ++ held)
  /\ exists stored, cf_emitted c ≡ₚ stored ++ pipeline (cf_journal c) ++ held ++ lost
       /\ delivered j0 s0 (cf_store c) stored.

Lemma holding_quiet held lost c j' :
  quiet_change (cf_journal c) j' -> holding held lost c ->
  holding held lost (mk_config j' (cf_store c) (cf_emitted c) (cf_clock c)).
Proof using.
  intros Hq (Hs & Hown & st & He & Hd). unfold holding; simpl. rewrite (quiet_pipeline _ _ Hq).
  split; [eapply same_run_trans; [exact Hs|apply Hq]|]. split; [done|]. by exists st.
Qed.

Lemma holding_task held lost fault now j s em t :
  holding held lost (mk_config j s em t) ->
  holding held lost (jh_set (flush_async fault now j s) (mk_config j s em t)).
Proof using.
  intros (Hs & Hown & st & He & Hd). simpl in *. apply Forall_app in Hown as [Hown Hheld].
  destruct (flush_async fault now j s) as [j' s'] eqn:Ha.
  destruct (flush_async_spec _ _ _ _ _ _ (proj1 Hd) (proj2 (own_same_iff _ _ _ Hs) Hown) Ha) as (Hs' & _ & st' & Hp & Hd').
  split; [by eapply same_run_trans|]. simpl. rewrite Hp in Hown. apply Forall_app in Hown as [_ Hown].
  split; [by apply Forall_app|]. exists (st ++ st'). split; [by rewrite He, Hp, <-!app_assoc|].
  eapply delivered_trans; [exact Hd|by eapply delivered_same].
Qed.

Lemma env_holding cb held lost c c' : env_step cb c c' -> holding held lost c -> holding held lost c'.
Proof using.
  intros Hstep Hh. destruct Hstep as [k c j s em t _|fault j s em t|j s em t|ok j s em t|j s em t s' Hwf He|j s em t t'].
  - destruct Hh as (Hs & Hown & st & He & Hd). simpl in *.
    destruct (run_callback_appends k c j) as [Hs' (new & Hp & Hn)].
    split; [by eapply same_run_trans|]. simpl. rewrite Hp. apply Forall_app in Hown as [H1 H2]. split.
    + rewrite !Forall_app. split; [split|]; [done| |done]. by apply (own_same_iff j0 j).
    + exists st. rewrite drop_app_length. split; [|done]. rewrite He. solve_Permutation.
  - by apply holding_task.
  - apply (holding_quiet held lost (mk_config j s em t)); [apply on_flush_done_quiet|done].
  - apply (holding_quiet held lost (mk_config j s em t)); [apply flush_progress_quiet|done].
  - destruct Hh as (Hs & Hown & st & Hem & Hd). split; [done|]. split; [done|]. exists st. split; [done|].
    rewrite <-(app_nil_r st). eapply delivered_trans; [exact Hd|]. split; [done|]. exists []. rewrite app_nil_r.
    split; [constructor|]. destruct Hs as (H1 & H2 & _). unfold run_events in *. simpl in *. by rewrite <-H1, <-H2.
  - done.
Qed.

(** What may happen during [flush]. *)
Record mode : Type := mk_mode { md_callbacks : bool; md_cancels : bool; md_faults : bool }.

Definition journal_moment (md : mode) (m : moment config) : Prop :=
  (forall c, star (env_step (md_callbacks md)) c (mo_others m c))
  /\ (md_cancels md = false -> undisturbed m)
  /\ (md_faults md = false -> forall n t, mo_fate m <> Fails n t).

Lemma moment_stable md (P : config -> Prop) :
  (forall c c', env_step (md_callbacks md) c c' -> P c -> P c') -> stable (journal_moment md) P.
Proof using. intros HP m c [Hm _] Hc. exact (star_invariant _ _ HP _ _ (Hm c) Hc). Qed.

(** After a call: only a cancellation loses events. *)
Definition outcome {A} (lost : list event_args) (r : result raised A) (c : config) : Prop :=
  match r with
  | Err Cancelled => exists lost', holding [] (lost ++ lost') c
  | _ => holding [] lost c
  end.

Section triples.
Context (md : mode) (lost : list event_args).
Notation M := (journal_moment md).
Notation calm_here := (md_cancels md = false).

Lemma holding_stable held lost' : stable M (holding held lost').
Proof using. apply moment_stable. intros c c'. apply env_holding. Qed.

Lemma on_journal_holding f held lost' c :
  (forall j, quiet_change j (f j)) -> holding held lost' c -> holding held lost' (on_journal f c).
Proof using. intros Hf Hc. by apply holding_quiet. Qed.

(** A wait: cancelled only where that may happen. *)
Definition waits {A} (r : result raised A) (c : config) : Prop :=
  outcome lost r c /\ (calm_here -> r <> Err Cancelled) /\ forall n t, r <> Err (Raised n t).

Lemma waits_Ok {A} (a : A) c : holding [] lost c -> waits (Ok a) c.
Proof using. by intros Hc. Qed.

Lemma waits_Cancelled {A} lost' c : ~ calm_here -> holding [] (lost ++ lost') c -> waits (A := A) (Err Cancelled) c.
Proof using. intros Hn Hc. split; [by exists lost'|]. split; [by intros H1|done]. Qed.

Lemma cancel_case m : M m -> undisturbed m \/ ~ calm_here.
Proof using. intros (_ & Hm & _). destruct (md_cancels md); [by right|left; by apply Hm]. Qed.

Lemma holding_outcome c : holding [] lost c -> holding [] (lost ++ []) c.
Proof using. by rewrite app_nil_r. Qed.

Lemma yield_waits : triple M (holding [] lost) (await_sure id_world) waits.
Proof using.
  apply triple_await_sure; [apply holding_stable|intros c; apply waits_Ok|].
  intros m c Hm. destruct (cancel_case m Hm) as [?|Hn]; [by left|right]. intros Hc.
  split; by apply (waits_Cancelled []), holding_outcome.
Qed.

Lemma holding_finish id fault c :
  holding [] lost c -> holding [] lost (on_both (finish_flush_task id fault) c).
Proof using.
  destruct c as [j s em t]. intros Hc. unfold on_both, finish_flush_task; simpl.
  destruct (Nat.eqb _ _); [|done]. apply (holding_task _ _ fault t) in Hc.
  destruct (flush_async fault t j s) as [j' s'] eqn:E. exact (holding_quiet _ _ (mk_config j' s' em t) _ (on_flush_done_quiet j') Hc).
Qed.

Lemma holding_cancel id applied c :
  holding [] lost c -> exists lost', holding [] (lost ++ lost') (on_both (cancel_flush_task id applied) c).
Proof using.
  destruct c as [j s em t]. intros Hc. unfold on_both, cancel_flush_task; simpl.
  destruct (Nat.eqb _ _); [|exists []; by rewrite app_nil_r].
  destruct (jw_pending (jn_writer j)) as [|batch|] eqn:Hp; simpl.
  1,3: exists []; rewrite app_nil_r; exact (holding_quiet _ _ (mk_config j s em t) _ (on_flush_done_quiet j) Hc).
  assert (Hpipe : pipeline j = batch ++ jw_buffer (jn_writer j)) by (unfold pipeline, in_flight; by rewrite Hp).
  destruct Hc as (Hs & Hown & st & He & Hd); simpl in *. rewrite Hpipe, app_nil_r in *.
  apply Forall_app in Hown as [Hb Hr]. set (j1 := set_writer _ j).
  assert (Hp1 : pipeline j1 = jw_buffer (jn_writer j)) by done.
  destruct (es_put_batch None t batch s) as [[rs|e] s1] eqn:Hput; [destruct applied|]; simpl.
  - exists []. rewrite app_nil_r. split; [done|]. simpl. rewrite Hp1, app_nil_r. split; [done|].
    exists (st ++ batch). split; [rewrite He; solve_Permutation|].
    eapply delivered_trans; [exact Hd|]. eapply put_batch_delivered; [apply Hd|done|done].
  - exists batch. split; [done|]. simpl. rewrite Hp1, app_nil_r. split; [done|].
    exists st. split; [rewrite He; solve_Permutation|done].
  - assert (Hs1 : (if applied then s1 else s) = s) by (destruct applied; [by eapply es_put_batch_err|done]).
    rewrite Hs1. exists batch. split; [done|]. simpl. rewrite Hp1, app_nil_r. split; [done|].
    exists st. split; [rewrite He; solve_Permutation|done].
Qed.

Lemma waits_then {A B} (m : coro config A) (k : A -> coro config B) (Q : result raised B -> config -> Prop) :
  triple M (holding [] lost) m waits -> (forall a, triple M (holding [] lost) (k a) Q) ->
  (forall c, waits (A := A) (Err Cancelled) c -> Q (Err Cancelled) c) ->
  triple M (holding [] lost) (bind m k) Q.
Proof using.
  intros Hm Hk HQ. apply (triple_bind _ _ _ _ _ (fun _ => holding [] lost)); [|done].
  eapply triple_weaken; [exact Hm|done|]. intros [a|[|n t]] c Hc; [apply Hc|by apply HQ|]. by destruct (proj2 (proj2 Hc) n t).
Qed.

Lemma waits_cancelled_cast {A B} c : waits (A := A) (Err Cancelled) c -> waits (A := B) (Err Cancelled) c.
Proof using. intros (H1 & H2 & _). split; [done|]. split; [|done]. intros Hn _. by apply (H2 Hn). Qed.

Lemma gather_flush_waits : triple M (holding [] lost) gather_flush_task waits.
Proof using.
  unfold gather_flush_task. apply triple_gets. intros j.
  apply (triple_weaken _ (holding [] lost) _ _ waits); [|by intros c [? _]|done].
  assert (Hg : forall id, triple M (holding [] lost)
    (bind (await_task (fun fault => on_both (finish_flush_task id fault)) (fun applied => on_both (cancel_flush_task id applied)))
       (fun _ => await_sure id_world)) waits).
  { intros id. apply waits_then; [|intros _; apply yield_waits|done].
    apply triple_await_task; [apply holding_stable|intros fault c Hc; by apply waits_Ok, holding_finish|].
    intros m c applied Hm. destruct (cancel_case m Hm) as [?|Hn]; [by left|right]. intros Hc.
    destruct (holding_cancel id applied c Hc) as [lost' Hl]. by apply (waits_Cancelled lost'). }
  destruct (jw_pending (jn_writer j)); [|apply Hg..].
  eapply triple_weaken; [apply triple_ret|intros c Hc; exact Hc|]. intros r c [-> Hc]. by apply waits_Ok.
Qed.

Lemma gather_progress_waits id : triple M (holding [] lost) (gather_progress_task id) waits.
Proof using.
  apply waits_then; [|intros _; apply yield_waits|done].
  apply triple_await_task; [apply holding_stable| |].
  - intros fault c Hc. apply waits_Ok, on_journal_holding; [|done]. intros j. apply run_progress_quiet.
  - intros m c applied Hm. destruct (cancel_case m Hm) as [?|Hn]; [by left|right]. intros Hc.
    apply (waits_Cancelled []); [done|]. apply holding_outcome, on_journal_holding; [|done]. intros j. apply drop_progress_quiet.
Qed.

Lemma quiet_modify {B} f (k : coro config B) Q :
  (forall j, quiet_change j (f j)) -> triple M (holding [] lost) k Q ->
  triple M (holding [] lost) (bind (modify (on_journal f)) (fun _ => k)) Q.
Proof using.
  intros Hf Hk. apply (triple_bind _ _ _ _ _ (fun _ => holding [] lost)); [|done].
  apply triple_modify. intros c. by apply on_journal_holding.
Qed.

Lemma drain_progress_waits n : triple M (holding [] lost) (drain_progress n) waits.
Proof using.
  assert (Hret : forall b : bool, triple M (holding [] lost) (ret b) waits).
  { intros b. eapply triple_weaken; [apply triple_ret|intros c Hc; exact Hc|]. intros r c [-> Hc]. by apply waits_Ok. }
  induction n as [|n IH]; cbn [drain_progress]; [apply Hret|].
  apply triple_gets. intros j. apply (triple_weaken _ (holding [] lost) _ _ waits); [|by intros c [? _]|done].
  destruct (jp_task (jn_progress j)); [|apply Hret]. destruct (jp_delayed (jn_progress j)).
  - apply quiet_modify; [apply cancel_progress_quiet|].
    apply waits_then; [apply gather_progress_waits| |intros c; apply waits_cancelled_cast].
    intros _. apply quiet_modify; [intros ?; apply quiet_progress|apply Hret].
  - apply waits_then; [apply gather_progress_waits|intros _; apply IH|intros c; apply waits_cancelled_cast].
Qed.

(** A write: a failure is a fault, or of a write the store does not admit. *)
Definition writes {A} (r : result raised A) (c : config) : Prop :=
  outcome lost r c /\ (calm_here -> r <> Err Cancelled)
  /\ forall n t, r = Err (Raised n t) -> md_faults md = false -> ~ Forall es_admits (cf_emitted c).

Lemma waits_writes {A} (r : result raised A) c : waits r c -> writes r c.
Proof using. intros (H1 & H2 & H3). split; [done|]. split; [done|]. intros n t Hr. by destruct (H3 n t). Qed.

Lemma holding_take n c j :
  cf_journal c = j -> holding [] lost c -> 0 <= n ->
  let batch := py_slice None (Some n) (jw_buffer (jn_writer j)) in
  let rest := drop (length batch) (jw_buffer (jn_writer j)) in
  jw_buffer (jn_writer j) = batch ++ rest
  /\ holding batch lost (on_journal (set_writer (mk_writer rest (jw_pending (jn_writer j)) (jw_started (jn_writer j)))) c).
Proof using.
  intros <- (Hs & Hown & st & He & Hd) Hn batch rest. set (buffer := jw_buffer _) in *.
  assert (Hsplit : buffer = batch ++ rest) by (by apply batch_split).
  assert (Hp : pipeline (cf_journal c) = in_flight (jn_writer (cf_journal c)) ++ batch ++ rest) by (unfold pipeline; by rewrite <-Hsplit).
  split; [done|]. split; [done|]. unfold on_journal, pipeline; simpl. rewrite Hp, app_nil_r in Hown.
  rewrite !Forall_app in Hown. rewrite !Forall_app. split; [by destruct Hown as (? & ? & ?)|].
  exists st. split; [rewrite He, Hp; unfold in_flight; simpl; solve_Permutation|done].
Qed.

Lemma holding_put_back batch c : holding batch lost c -> holding [] lost (on_journal (put_back batch) c).
Proof using.
  intros (Hs & Hown & st & He & Hd). split; [done|]. unfold on_journal, pipeline, put_back, in_flight; simpl.
  unfold pipeline, in_flight in Hown, He. rewrite !Forall_app in *. split; [naive_solver|].
  exists st. split; [rewrite He; solve_Permutation|done].
Qed.

Lemma holding_admits batch c : holding batch lost c -> Forall es_admits (cf_emitted c) -> Forall es_admits batch.
Proof using.
  intros (_ & _ & st & He & _) Ha. rewrite He, !Forall_app in Ha. by destruct Ha as (_ & _ & ? & _).
Qed.

Lemma store_batch_holding batch c :
  holding batch lost c ->
  match store_batch batch c with
  | (Ok _, c') => holding [] lost c'
  | (Err e, c') => holding batch lost c' /\ e <> Cancelled /\ ~ Forall es_admits batch
  end.
Proof using.
  intros (Hs & Hown & st & He & Hd). unfold store_batch.
  assert (Hb : Forall (own j0) batch) by (by apply Forall_app in Hown as [_ ?]).
  destruct (es_put_batch None (jh_now c) batch (jh_store c)) as [[rs|e] s1] eqn:Hput; simpl in *.
  - apply Forall_app in Hown as [Hown _]. split; [done|]. simpl. rewrite app_nil_r. split; [done|].
    exists (st ++ batch). split; [rewrite He; solve_Permutation|].
    eapply delivered_trans; [exact Hd|]. eapply put_batch_delivered; [apply Hd|done|done].
  - pose proof (es_put_batch_err _ _ _ _ _ _ Hput) as ->. split; [split; [done|split; [done|by exists st]]|].
    split; [done|]. intros Ha. destruct (es_put_batch_total (cf_clock c) batch (cf_store c) (jn_thread_id j0) (proj1 Hd))
      as (rs & s2 & Hok); [|done|congruence].
    eapply Forall_impl; [exact Hb|]. by intros a (? & _).
Qed.

Lemma await_batch_triple batch :
  triple M (holding batch lost) (await (store_batch batch))
    (fun r c => match r with
     | Ok _ => holding [] lost c
     | Err Cancelled => waits (A := unit) (Err Cancelled) c
     | Err (Raised _ _) => holding batch lost c /\ (md_faults md = false -> ~ Forall es_admits batch)
     end).
Proof using.
  apply triple_await_fault; [apply holding_stable| | |].
  - intros c Hc. pose proof (store_batch_holding batch c Hc) as Hs. destruct (store_batch batch c) as [[[]|[|n t]] c']; naive_solver.
  - intros m n t c (_ & _ & Hf) Hfate Hc. split; [done|]. intros Hn. by destruct (Hf Hn n t).
  - intros m c Hm. destruct (cancel_case m Hm) as [?|Hn]; [by left|right]. intros Hc.
    assert (Hlose : forall c', holding batch lost c' -> waits (A := unit) (Err Cancelled) c').
    { intros c' (Hs & Hown & st & He & Hd). apply (waits_Cancelled batch); [done|]. split; [done|].
      apply Forall_app in Hown as [Hown _]. rewrite app_nil_r. split; [done|]. exists st. split; [|done].
      rewrite He. solve_Permutation. }
    split; [by apply Hlose|]. pose proof (store_batch_holding batch c Hc) as Hs.
    destruct (store_batch batch c) as [[[]|e] c'].
    + by apply (waits_Cancelled []), holding_outcome.
    + by apply Hlose, Hs.
Qed.

Lemma write_batch_writes : 0 <= jn_flush_threshold j0 -> triple M (holding [] lost) write_batch writes.
Proof using.
  intros Hthr. unfold write_batch. apply triple_gets. intros j. cbv zeta.
  set (batch := py_slice _ _ _). set (rest := drop _ _).
  apply (triple_bind _ _ _ _ _ (fun _ => holding batch lost)).
  { apply triple_modify. intros c [Hc <-]. apply (holding_take (jn_flush_threshold (cf_journal c)) c); [done|done|].
    destruct Hc as ((_ & _ & -> & _) & _). done. }
  intros _. apply (triple_try_exception _ _ _ _ _ (fun c => holding batch lost c /\ (md_faults md = false -> ~ Forall es_admits batch))).
  - apply (triple_bind _ _ _ _ _ (fun _ => holding [] lost)).
    + eapply triple_weaken; [apply await_batch_triple|done|]. intros [[]|[|n t]] c Hc; [done|by apply waits_writes|done].
    + intros _. eapply triple_weaken; [apply yield_waits|done|]. intros [[]|[|n t]] c Hc; [by apply waits_writes..|].
      by destruct (proj2 (proj2 Hc) n t).
  - intros n t. apply (triple_bind _ _ _ _ _ (fun _ c => holding [] lost c /\ (md_faults md = false -> ~ Forall es_admits (cf_emitted c)))).
    + apply triple_modify. intros c [Hc Hf]. split; [by apply holding_put_back|]. intros Hn Ha. apply (Hf Hn).
      by apply (holding_admits batch c).
    + intros _. eapply triple_weaken; [apply triple_throw|intros c Hc; exact Hc|]. intros r c [-> [Hc Hf]]. split; [done|]. split; [done|]. intros ? ? _. done.
Qed.

Definition flushed {A} (done : A -> bool) (r : result raised A) (c : config) : Prop :=
  writes r c /\ forall a, r = Ok a -> done a = true -> jw_buffer (jn_writer (cf_journal c)) = [].

Lemma writes_cancelled_cast {A B} e c : writes (A := A) (Err e) c -> flushed (A := B) (fun _ => true) (Err e) c.
Proof using.
  intros (H1 & H2 & H3). split; [|done]. split; [by destruct e|]. split.
  - intros Hn [= ->]. by apply (H2 Hn).
  - intros n t [= ->]. by apply (H3 n t).
Qed.

Lemma write_batches_flushed n :
  0 <= jn_flush_threshold j0 -> triple M (holding [] lost) (write_batches n) (flushed id).
Proof using.
  intros Hthr. induction n as [|n IH]; cbn [write_batches].
  { eapply triple_weaken; [apply triple_ret|intros c Hc; exact Hc|]. intros r c [-> Hc]. split; [by apply waits_writes, waits_Ok|].
    by intros a [= <-]. }
  apply triple_gets. intros j. destruct (jw_buffer (jn_writer j)) as [|a0 l0] eqn:Hbuf.
  - eapply triple_weaken; [apply triple_ret|intros c Hc; exact Hc|]. intros r c [-> [Hc <-]]. split; [by apply waits_writes, waits_Ok|]. by intros a _ _.
  - apply (triple_weaken _ (holding [] lost) _ _ (flushed id)); [|by intros c [? _]|done].
    apply (triple_bind _ _ _ _ _ (fun _ => holding [] lost)); [|intros _; apply IH].
    eapply triple_weaken; [by apply write_batch_writes|done|]. intros [[]|e] c Hc; [apply Hc|]. split; [|done].
    by apply (writes_cancelled_cast (B := bool)) in Hc as [Hc _].
Qed.

Lemma flush_loop_flushed : 0 <= jn_flush_threshold j0 -> triple M (holding [] lost) flush_loop (flushed id).
Proof using.
  intros Hthr c s Hc Hs. unfold flush_loop. revert c s Hc Hs.
  assert (H1 : forall n, triple M (holding [] lost)
    (bind (write_batches n) (fun fin => if fin then ret true
       else bind (gets jh_journal) (fun j => write_batches (1 + length (jw_buffer (jn_writer j)))))) (flushed id)).
  { intros n. apply (triple_bind _ _ _ _ _ (fun fin c => holding [] lost c /\ (fin = true -> jw_buffer (jn_writer (cf_journal c)) = []))).
    - eapply triple_weaken; [by apply write_batches_flushed|done|]. intros [b|e] c Hc; [|done].
      split; [apply Hc|]. intros ->. by eapply (proj2 Hc true).
    - intros []. 
      + eapply triple_weaken; [apply triple_ret|intros c Hc; exact Hc|]. intros r c [-> [Hc Hb]]. split; [by apply waits_writes, waits_Ok|]. auto.
      + apply triple_gets. intros j. eapply triple_weaken; [by apply write_batches_flushed| |done]. by intros c [[? _] _]. }
  intros c s. apply H1.
Qed.

Lemma flush_flushed : 0 <= jn_flush_threshold j0 -> triple M (holding [] lost) flush (flushed id).
Proof using.
  intros Hthr. unfold flush.
  assert (Hcast : forall A c, waits (A := A) (Err Cancelled) c -> flushed (A := bool) id (Err Cancelled) c).
  { intros A c Hc. split; [|done]. apply waits_writes. by eapply waits_cancelled_cast. }
  apply waits_then; [apply gather_flush_waits| |intros c; apply Hcast]. intros _.
  apply waits_then; [intros c s Hc Hs; by apply drain_progress_waits| |intros c; apply Hcast]. intros drained.
  apply (triple_bind _ _ _ _ _ (fun fin c => holding [] lost c /\ (fin = true -> jw_buffer (jn_writer (cf_journal c)) = []))).
  - eapply triple_weaken; [by apply flush_loop_flushed|done|]. intros [b|e] c Hc.
    + split; [apply Hc|]. intros ->. by eapply (proj2 Hc true).
    + done.
  - intros fin. eapply triple_weaken; [apply triple_ret|intros c Hc; exact Hc|]. intros r c [-> [Hc Hb]].
    split; [by apply waits_writes, waits_Ok|]. intros a [= <-] Ha. apply Hb. by apply andb_true_iff in Ha as [_ ?].
Qed.
End triples.
End lossless.

(** ** [flush] returns *)

Lemma await_task_length op cancel (c : config) s r c' s' :
  await_task op cancel c s = (r, c', s') -> length s' = (length s - 1)%nat.
Proof using.
  unfold await_task. destruct s as [|m s]; [by intros [= _ _ <-]|].
  destruct (mo_fate m); intros [= _ _ <-]; simpl; lia.
Qed.

Lemma yield_length (c : config) s r c' s' : await_sure id_world c s = (r, c', s') -> length s' = (length s - 1)%nat.
Proof using.
  unfold await_sure, await_call. destruct s as [|m s]; [by intros [= _ _ <-]|].
  destruct (mo_fate m); intros [= _ _ <-]; simpl; lia.
Qed.

Lemma gather_progress_length id c s c' s' :
  gather_progress_task id c s = (Ok tt, c', s') -> length s' = (length s - 2)%nat.
Proof using.
  unfold gather_progress_task. intros Hg. apply bind_Ok in Hg as ([] & c1 & s1 & H1 & H2).
  apply await_task_length in H1. apply yield_length in H2. lia.
Qed.

(** Alone, a progress task that starts clean is not followed by another, and
    one that does not is followed by one that does. *)
Definition clean_task (j : journal) : Prop :=
  match jp_task (jn_progress j) with
  | None => True
  | Some (NotStarted _ delay) => jp_dirty (jn_progress j) = false /\ jp_delayed (jn_progress j) = (0 <? delay)
  | Some _ => False
  end.

Lemma run_progress_step n id ok t j :
  progress_running id j = true ->
  run_progress (Datatypes.S n) id ok t j = run_progress n id ok t (flush_progress_async ok t j).
Proof using. intros Hr. cbn [run_progress]. by rewrite Hr. Qed.

Lemma run_progress_stop n id ok t j : progress_running id j = false -> run_progress n id ok t j = j.
Proof using. intros Hr. destruct n; [done|]. cbn [run_progress]. by rewrite Hr. Qed.

Lemma running_task id j task :
  jp_task (jn_progress j) = Some task -> jp_created (jn_progress j) = id -> progress_running id j = true.
Proof using. intros Ht <-. unfold progress_running. by rewrite Ht, Nat.eqb_refl. Qed.

Lemma run_progress_reporting n id ok t j db :
  jp_task (jn_progress j) = Some (Reporting db) -> jp_created (jn_progress j) = id ->
  clean_task (run_progress (Datatypes.S n) id ok t j)
  /\ (db = false -> jp_dirty (jn_progress j) = false -> jp_task (jn_progress (run_progress (Datatypes.S n) id ok t j)) = None).
Proof using.
  intros Ht <-. rewrite run_progress_step by (by eapply running_task).
  assert (Hstop : progress_running (jp_created (jn_progress j)) (flush_progress_async ok t j) = false
    /\ clean_task (flush_progress_async ok t j)
    /\ (db = false -> jp_dirty (jn_progress j) = false -> jp_task (jn_progress (flush_progress_async ok t j)) = None)).
  { unfold flush_progress_async. rewrite Ht. cbv zeta. destruct (db || jp_dirty (jn_progress j)) eqn:Hd.
    - destruct ok; unfold schedule_delayed_progress_flush, clean_task, progress_running; cbn -[Nat.eqb Z.ltb];
        (split; [by apply Nat.eqb_neq; lia|]; split; [done|]; intros -> Hdirty; by rewrite Hdirty in Hd).
    - by destruct ok. }
  destruct Hstop as (Hs & Hc & Hn). by rewrite run_progress_stop.
Qed.

Lemma run_progress_settles ok t j :
  let j' := run_progress 3 (jp_created (jn_progress j)) ok t j in
  clean_task j' /\ (clean_task j -> jp_delayed (jn_progress j) = false -> jp_task (jn_progress j') = None).
Proof using.
  cbv zeta. destruct (jp_task (jn_progress j)) as [[snap d| |db|]|] eqn:Ht.
  5: { rewrite run_progress_stop by (unfold progress_running; by rewrite Ht). unfold clean_task. by rewrite Ht. }
  all: pose proof (running_task _ _ _ Ht eq_refl) as Hr.
  - rewrite run_progress_step by done. destruct (jp_reporter (jn_progress j)) eqn:Hrep.
    2: { assert (Hf : flush_progress_async ok t j = set_progress_task None j)
           by (unfold flush_progress_async; by rewrite Ht, Hrep). by rewrite Hf, run_progress_stop. }
    destruct (0 <? d) eqn:Hd.
    + assert (Hf : flush_progress_async ok t j
        = set_progress_task (Some Sleeping) (set_progress_flags true (jp_dirty (jn_progress j)) j))
        by (unfold flush_progress_async; by rewrite Ht, Hrep, Hd).
      rewrite Hf, run_progress_step by (by eapply running_task). split.
      * by edestruct (run_progress_reporting 0) as [Hclean _]; [| |exact Hclean].
      * unfold clean_task at 1. rewrite Ht. intros [_ ->]. by rewrite Hd.
    + assert (Hf : flush_progress_async ok t j = call_reporter snap j) by (unfold flush_progress_async; by rewrite Ht, Hrep, Hd).
      rewrite Hf. destruct (run_progress_reporting 1 (jp_created (jn_progress j)) ok t (call_reporter snap j) (jp_dirty (jn_progress j))) as [H1 H2]; [done..|].
      split; [done|]. unfold clean_task at 1. rewrite Ht. intros [Hdirty _] _. by apply H2.
  - rewrite run_progress_step by done. split; [|unfold clean_task at 1; by rewrite Ht].
    assert (Hf : flush_progress_async ok t j = call_reporter None (set_progress_flags false (jp_dirty (jn_progress j)) j))
      by (unfold flush_progress_async; by rewrite Ht). rewrite Hf.
    by edestruct (run_progress_reporting 1) as [Hclean _]; [| |exact Hclean].
  - split; [by edestruct (run_progress_reporting 2) as [Hclean _]; [| |exact Hclean]|unfold clean_task at 1; by rewrite Ht].
  - rewrite run_progress_step by done.
    assert (Hf : flush_progress_async ok t j = set_progress_task None j) by (unfold flush_progress_async; by rewrite Ht).
    by rewrite Hf, run_progress_stop.
Qed.

(** Undisturbed, a wait runs the task to its end. *)
Lemma gather_progress_alone (c : config) :
  gather_progress_task (jp_created (jn_progress (cf_journal c))) c []
  = (Ok tt, on_journal (run_progress 3 (jp_created (jn_progress (cf_journal c))) true (cf_clock c)) c, []).
Proof using. reflexivity. Qed.

Lemma drain_clean n (c : config) s :
  (2 <= n)%nat -> clean_task (cf_journal c) -> s = [] -> (drain_progress n c s).1.1 <> Ok false.
Proof using.
  intros Hn Hc ->. destruct n as [|[|n]]; [lia..|]. cbn [drain_progress]. unfold bind at 1, gets at 1. change (jh_journal c) with (cf_journal c).
  destruct (jp_task (jn_progress (cf_journal c))) as [task|] eqn:Ht; [|by unfold ret].
  destruct (jp_delayed (jn_progress (cf_journal c))) eqn:Hd; [done|].
  unfold bind at 1. rewrite gather_progress_alone.
  destruct (run_progress_settles true (cf_clock c) (cf_journal c)) as [_ Hnone]. specialize (Hnone Hc Hd).
  unfold bind at 1, gets at 1. set (j' := run_progress _ _ _ _ _) in Hnone. change (jh_journal _) with j'. rewrite Hnone. by unfold ret.
Qed.

Lemma drain_progress_returns n (c : config) s : (length s + 3 <= n)%nat -> (drain_progress n c s).1.1 <> Ok false.
Proof using.
  revert c s. induction n as [|n IH]; intros c s Hn; [lia|]. cbn [drain_progress]. unfold bind at 1, gets at 1. change (jh_journal c) with (cf_journal c).
  destruct (jp_task (jn_progress (cf_journal c))) as [task|] eqn:Ht; [|by unfold ret].
  destruct (jp_delayed (jn_progress (cf_journal c))) eqn:Hd.
  - unfold bind at 1, modify at 1. unfold bind at 1.
    destruct (gather_progress_task _ _ s) as [[[[]|e] c1] s1]; [|done]. unfold bind, modify, ret. done.
  - unfold bind at 1. destruct s as [|m s].
    + rewrite gather_progress_alone. apply drain_clean; [simpl in Hn; lia| |done]. apply run_progress_settles.
    + destruct (gather_progress_task _ _ _) as [[[[]|e] c1] s1] eqn:Hg; [|done].
      apply gather_progress_length in Hg. apply IH. simpl in *. lia.
Qed.

Lemma write_batch_Ok (c : config) s c' s' :
  write_batch c s = (Ok tt, c', s') ->
  length s' = (length s - 2)%nat
  /\ (s = [] -> 1 <= jn_flush_threshold (cf_journal c) -> jw_buffer (jn_writer (cf_journal c)) <> [] ->
      (length (jw_buffer (jn_writer (cf_journal c'))) < length (jw_buffer (jn_writer (cf_journal c))))%nat
      /\ jn_flush_threshold (cf_journal c') = jn_flush_threshold (cf_journal c)).
Proof using.
  unfold write_batch. intros Hw. apply bind_Ok in Hw as (j & c1 & s1 & [= <- <- <-] & Hw).
  cbv zeta in Hw. set (batch := py_slice _ _ _) in *. set (rest := drop _ _) in *.
  apply bind_Ok in Hw as ([] & c2 & s2 & [= <- <-] & Hw).
  apply try_exception_Ok in Hw as [Hw|(n & t & w1 & s1 & _ & Hw)]; [|done].
  apply bind_Ok in Hw as ([] & c3 & s3 & H1 & H2). split.
  - apply yield_length in H2. unfold await in H1. destruct s as [|m s]; simpl in *.
    + destruct (store_batch _ _); simplify_eq. done.
    + destruct (mo_fate m); [destruct (store_batch _ _)|..]; simplify_eq; lia.
  - intros -> Hthr Hne. unfold await in H1. destruct (store_batch batch _) as [r c4] eqn:Hs. simplify_eq.
    unfold await_sure, await_call, id_world in H2. simplify_eq.
    assert (Hj : cf_journal c' = set_writer (mk_writer rest (jw_pending (jn_writer (cf_journal c))) (jw_started (jn_writer (cf_journal c)))) (cf_journal c)).
    { unfold store_batch in Hs. by destruct (es_put_batch _ _ _ _) as [[?|?] ?]; simplify_eq. }
    rewrite Hj. simpl. split; [|done]. unfold rest, batch. rewrite length_drop, py_slice_first, length_take by lia.
    destruct (jw_buffer (jn_writer (cf_journal c))); [done|]. simpl. lia.
Qed.

Lemma write_batches_more n (c : config) s c' s' :
  write_batches n c s = (Ok false, c', s') -> (length s <= n)%nat -> s' = [].
Proof using.
  revert c s. induction n as [|n IH]; intros c s Hw Hn; cbn [write_batches] in Hw.
  - injection Hw as _ <-. by destruct s; simpl in *; [|lia].
  - apply bind_Ok in Hw as (j & c1 & s1 & [= <- <- <-] & Hw).
    destruct (jw_buffer _); [done|]. apply bind_Ok in Hw as ([] & c2 & s2 & H1 & H2).
    apply write_batch_Ok in H1 as [H1 _]. eapply IH; [exact H2|]. lia.
Qed.

Lemma write_batches_alone n (c : config) :
  1 <= jn_flush_threshold (cf_journal c) -> (length (jw_buffer (jn_writer (cf_journal c))) < n)%nat ->
  (write_batches n c []).1.1 <> Ok false.
Proof using.
  revert c. induction n as [|n IH]; intros c Hthr Hn; [lia|]. cbn [write_batches]. unfold bind at 1, gets at 1. change (jh_journal c) with (cf_journal c).
  destruct (jw_buffer (jn_writer (cf_journal c))) as [|a l] eqn:Hbuf; [by unfold ret|]. unfold bind at 1.
  destruct (write_batch c []) as [[[[]|e] c1] s1] eqn:Hw; [|done].
  destruct (write_batch_Ok _ _ _ _ Hw) as [Hl Hb]. destruct (Hb eq_refl Hthr) as [Hlt Hthr1]; [by rewrite Hbuf|].
  destruct s1; [|done]. apply IH; [by rewrite Hthr1|]. rewrite Hbuf in Hlt. simpl in *. lia.
Qed.

(** The threshold survives whatever the others do. *)
Definition threshold_ok (c : config) : Prop := 1 <= jn_flush_threshold (cf_journal c).

Lemma flush_returns (c : config) s :
  (forall r c' s', write_batches (length s) c s = (r, c', s') -> threshold_ok c') ->
  (flush_loop c s).1.1 <> Ok false.
Proof using.
  intros Hthr. unfold flush_loop, bind. destruct (write_batches (length s) c s) as [[[[]|e] c1] s1] eqn:Hw; [done| |done].
  pose proof (write_batches_more _ _ _ _ _ Hw (le_n _)) as ->. unfold gets.
  apply write_batches_alone; [by eapply Hthr|simpl; lia].
Qed.

(** ** In order *)

Section in_order.
Context (j0 : journal) (s0 : S).

(** The events handed over are, in order, the stored ones, the batch [flush]
    holds, and the pipeline; a batch is held only with nothing in flight. *)
Definition ordered (flushing : bool) (held : list event_args) (c : config) : Prop :=
  same_run j0 (cf_journal c) /\ Forall (own j0) (held ++ pipeline (cf_journal c))
  /\ (if flushing then in_flight (jn_writer (cf_journal c)) = [] else held = [])
  /\ exists stored, cf_emitted c = stored ++ held ++ pipeline (cf_journal c) /\ delivered j0 s0 (cf_store c) stored.

Lemma ordered_quiet fl held c j' :
  quiet_change (cf_journal c) j' -> ordered fl held c ->
  ordered fl held (mk_config j' (cf_store c) (cf_emitted c) (cf_clock c)).
Proof using.
  intros Hq (Hs & Hown & Hf & st & He & Hd). unfold ordered; simpl. rewrite (quiet_pipeline _ _ Hq).
  split; [eapply same_run_trans; [exact Hs|apply Hq]|]. split; [done|]. split; [|by exists st].
  destruct fl; [|done]. destruct Hq as (_ & -> & _). done.
Qed.

Lemma ordered_task fl held fault now j s em t :
  ordered fl held (mk_config j s em t) -> ordered fl held (jh_set (flush_async fault now j s) (mk_config j s em t)).
Proof using.
  intros (Hs & Hown & Hf & st & He & Hd). simpl in *. destruct fl; simpl in *.
  - assert (Ha : flush_async fault now j s = (j, s) \/ exists batch, jw_pending (jn_writer j) = InFlight batch).
    { unfold flush_async. destruct (jw_pending (jn_writer j)); eauto. }
    destruct Ha as [->|[batch Hp]]; [split; [done|]; split; [done|]; split; [done|by exists st]|].
    assert (Hb : batch = []) by (unfold in_flight in Hf; by rewrite Hp in Hf). subst batch.
    unfold flush_async. rewrite Hp. destruct (es_put_batch fault now [] s) as [[rs|e] s1] eqn:Hput.
    + pose proof (put_batch_delivered j0 fault now [] s rs s1 (proj1 Hd) (Forall_nil_2 _) Hput) as Hd1.
      split; [done|]. split; [|split; [done|]]; unfold pipeline in *; rewrite Hf in *; simpl in *; [done|].
      exists st. split; [done|]. rewrite <-(app_nil_r st). by eapply delivered_trans.
    + apply es_put_batch_err in Hput as ->. split; [done|]. unfold pipeline in *; rewrite Hf in *; simpl in *.
      split; [done|]. split; [done|by exists st].
  - subst held. simpl in *. destruct (flush_async fault now j s) as [j' s'] eqn:Ha.
    destruct (flush_async_spec _ _ _ _ _ _ (proj1 Hd) (proj2 (own_same_iff _ _ _ Hs) Hown) Ha) as (Hs' & _ & st' & Hp & Hd').
    split; [by eapply same_run_trans|]. simpl. rewrite Hp in Hown. apply Forall_app in Hown as [_ Hown].
    split; [done|]. split; [done|]. exists (st ++ st'). split; [by rewrite He, Hp, <-!app_assoc|].
    eapply delivered_trans; [exact Hd|by eapply delivered_same].
Qed.

Lemma env_ordered cb fl held c c' :
  (cb = true -> fl = false) -> env_step cb c c' -> ordered fl held c -> ordered fl held c'.
Proof using.
  intros Hcb Hstep Hh.
  destruct Hstep as [k c j s em t Ht|fault j s em t|j s em t|ok j s em t|j s em t s' Hwf He|j s em t t'].
  - rewrite (Hcb Ht) in *. destruct Hh as (Hs & Hown & -> & st & He & Hd). simpl in *.
    destruct (run_callback_appends k c j) as [Hs' (new & Hp & Hn)].
    split; [by eapply same_run_trans|]. simpl. rewrite Hp. split; [|split; [done|]].
    + rewrite Forall_app. split; [done|]. by apply (own_same_iff j0 j).
    + exists st. rewrite drop_app_length, He, <-app_assoc. done.
  - by apply ordered_task.
  - apply (ordered_quiet fl held (mk_config j s em t)); [apply on_flush_done_quiet|done].
  - apply (ordered_quiet fl held (mk_config j s em t)); [apply flush_progress_quiet|done].
  - destruct Hh as (Hs & Hown & Hf & st & Hem & Hd). split; [done|]. split; [done|]. split; [done|]. exists st. split; [done|].
    rewrite <-(app_nil_r st). eapply delivered_trans; [exact Hd|]. split; [done|]. exists []. rewrite app_nil_r.
    split; [constructor|]. destruct Hs as (H1 & H2 & _). unfold run_events in *. simpl in *. by rewrite <-H1, <-H2.
  - done.
Qed.

Lemma env_started c c' : env_step false c c' -> jw_started (jn_writer (cf_journal c')) = jw_started (jn_writer (cf_journal c)).
Proof using.
  intros Hstep. destruct Hstep as [k c j s em t Ht|fault j s em t|j s em t|ok j s em t|j s em t s' Hwf He|j s em t t']; try done.
  - simpl. unfold flush_async. destruct (jw_pending (jn_writer j)); [done| |done].
    by destruct (es_put_batch _ _ _ _) as [[?|?] ?].
  - apply on_flush_done_quiet.
  - apply flush_progress_quiet.
Qed.

Section triples.
Context (md : mode) (Hquiet : md_callbacks md = false) (Hcalm : md_cancels md = false).
Notation M := (journal_moment md).

Lemma ordered_stable fl held : stable M (ordered fl held).
Proof using Hquiet. apply moment_stable. rewrite Hquiet. intros c c'. by apply env_ordered. Qed.

Lemma moment_calm m : M m -> undisturbed m.
Proof using Hcalm. intros (_ & Hm & _). by apply Hm. Qed.

Lemma ordered_more held c : held = [] -> ordered true held c -> ordered false [] c.
Proof using. intros -> (Hs & Hown & _ & Hr). by split_and!. Qed.

Lemma on_journal_ordered f fl held c :
  (forall j, quiet_change j (f j)) -> ordered fl held c -> ordered fl held (on_journal f c).
Proof using. intros Hf Hc. by apply ordered_quiet. Qed.

(** Returned, with everything in order. *)
Definition in_place {A} (r : result raised A) (c : config) : Prop := ordered true [] c /\ is_Some (match r with Ok a => Some a | _ => None end).

Lemma in_place_then {A B} P (m : coro config A) (k : A -> coro config B) Q :
  triple M P m in_place -> (forall a, triple M (ordered true []) (k a) Q) -> triple M P (bind m k) Q.
Proof using.
  intros Hm Hk. apply (triple_bind _ _ _ _ _ (fun _ => ordered true [])); [|done].
  eapply triple_weaken; [exact Hm|done|]. intros [a|e] c [Hc [x Hx]]; [done|done].
Qed.

Lemma ret_in_place {A} (a : A) : triple M (ordered true []) (ret a) in_place.
Proof using. eapply triple_weaken; [apply triple_ret|intros c Hc; exact Hc|]. intros r c [-> Hc]. split; [done|eauto]. Qed.

Lemma yield_in_place : triple M (ordered true []) (await_sure id_world) in_place.
Proof using Hquiet Hcalm.
  apply triple_await_sure; [apply ordered_stable|intros c Hc; split; [done|eauto]|]. intros m c Hm. left. by apply moment_calm.
Qed.

Lemma finish_ordered fault c :
  ordered false [] c -> ordered true [] (on_both (finish_flush_task (jw_started (jn_writer (cf_journal c))) fault) c).
Proof using.
  destruct c as [j s em t]. intros Hc. unfold on_both, finish_flush_task; simpl. rewrite Nat.eqb_refl.
  pose proof (ordered_task _ _ fault t _ _ _ _ Hc) as Hc'. destruct Hc as (Hs & Hown & _ & st & He & Hd). simpl in *.
  destruct (flush_async fault t j s) as [j' s'] eqn:Ha.
  destruct (flush_async_spec _ _ _ _ _ _ (proj1 Hd) (proj2 (own_same_iff _ _ _ Hs) Hown) Ha) as (_ & Hin & _).
  apply (ordered_quiet true [] (mk_config j' s' em t) _ (on_flush_done_quiet j')).
  destruct Hc' as (? & ? & _ & ?). by split_and!.
Qed.

Lemma gather_flush_in_place : triple M (ordered false []) gather_flush_task in_place.
Proof using Hquiet Hcalm.
  unfold gather_flush_task. apply triple_gets. intros j.
  assert (Hg : triple M (fun c => ordered false [] c /\ jw_started (jn_writer (cf_journal c)) = jw_started (jn_writer j))
    (bind (await_task (fun fault => on_both (finish_flush_task (jw_started (jn_writer j)) fault))
             (fun applied => on_both (cancel_flush_task (jw_started (jn_writer j)) applied)))
       (fun _ => await_sure id_world)) in_place).
  { apply in_place_then; [|intros _; apply yield_in_place]. apply triple_await_task.
    - apply moment_stable. rewrite Hquiet. intros c c' Hst [Hc Hn]. split; [by eapply env_ordered|].
      by rewrite (env_started _ _ Hst).
    - intros fault c [Hc <-]. split; [by apply finish_ordered|eauto].
    - intros m c applied Hm. left. by apply moment_calm. }
  destruct (jw_pending (jn_writer j)) eqn:Hp.
  2,3: eapply triple_weaken; [exact Hg|intros c [Hc <-]; done|done].
  eapply triple_weaken; [apply ret_in_place| |done]. intros c [(Hs & Hown & _ & Hr) Hj].
  change (jh_journal c) with (cf_journal c) in Hj. subst j.
  split_and!; try done. simpl. unfold in_flight. by rewrite Hp.
Qed.

Lemma gather_progress_in_place id : triple M (ordered true []) (gather_progress_task id) in_place.
Proof using Hquiet Hcalm.
  apply in_place_then; [|intros _; apply yield_in_place]. apply triple_await_task; [apply ordered_stable| |].
  - intros fault c Hc. split; [|eauto]. apply on_journal_ordered; [|done]. intros j. apply run_progress_quiet.
  - intros m c applied Hm. left. by apply moment_calm.
Qed.

Lemma modify_in_place {B} f (k : coro config B) Q :
  (forall j, quiet_change j (f j)) -> triple M (ordered true []) k Q ->
  triple M (ordered true []) (bind (modify (on_journal f)) (fun _ => k)) Q.
Proof using.
  intros Hf Hk. apply (triple_bind _ _ _ _ _ (fun _ => ordered true [])); [|done].
  apply triple_modify. intros c. by apply on_journal_ordered.
Qed.

Lemma drain_in_place n : triple M (ordered true []) (drain_progress n) in_place.
Proof using Hquiet Hcalm.
  induction n as [|n IH]; cbn [drain_progress]; [apply ret_in_place|].
  apply triple_gets. intros j. apply (triple_weaken _ (ordered true []) _ _ in_place); [|by intros c [? _]|done].
  destruct (jp_task (jn_progress j)); [|apply ret_in_place]. destruct (jp_delayed (jn_progress j)).
  - apply modify_in_place; [apply cancel_progress_quiet|]. apply in_place_then; [apply gather_progress_in_place|].
    intros _. apply modify_in_place; [intros ?; apply quiet_progress|apply ret_in_place].
  - apply in_place_then; [apply gather_progress_in_place|intros _; apply IH].
Qed.

Lemma ordered_take n c :
  ordered true [] c -> 0 <= n ->
  let j := cf_journal c in
  let batch := py_slice None (Some n) (jw_buffer (jn_writer j)) in
  let rest := drop (length batch) (jw_buffer (jn_writer j)) in
  ordered true batch (on_journal (set_writer (mk_writer rest (jw_pending (jn_writer j)) (jw_started (jn_writer j)))) c).
Proof using.
  intros (Hs & Hown & Hf & st & He & Hd) Hn j batch rest.
  assert (Hsplit : jw_buffer (jn_writer j) = batch ++ rest) by (by apply batch_split).
  assert (Hp : pipeline (cf_journal c) = batch ++ rest) by (unfold pipeline; by rewrite Hf, <-Hsplit).
  assert (Hin : in_flight (mk_writer rest (jw_pending (jn_writer j)) (jw_started (jn_writer j))) = []) by exact Hf.
  rewrite Hp in *. unfold ordered, pipeline, on_journal; simpl. rewrite Hin. split; [done|]. split; [done|].
  split; [done|]. by exists st.
Qed.

Lemma store_batch_ordered batch c :
  ordered true batch c ->
  match store_batch batch c with (Ok _, c') => ordered true [] c' | (Err _, c') => ordered true batch c' end.
Proof using.
  intros (Hs & Hown & Hf & st & He & Hd). unfold store_batch. apply Forall_app in Hown as [Hb Hown].
  destruct (es_put_batch None (jh_now c) batch (jh_store c)) as [[rs|e] s1] eqn:Hput; simpl in *.
  - split; [done|]. split; [done|]. split; [done|]. exists (st ++ batch). split; [by rewrite He, <-app_assoc|].
    eapply delivered_trans; [exact Hd|]. eapply put_batch_delivered; [apply Hd|done|done].
  - pose proof (es_put_batch_err _ _ _ _ _ _ Hput) as ->. split; [done|]. split; [by apply Forall_app|]. split; [done|by exists st].
Qed.

Lemma put_back_ordered batch c : ordered true batch c -> ordered true [] (on_journal (put_back batch) c).
Proof using.
  intros (Hs & Hown & Hf & st & He & Hd). unfold pipeline in *. rewrite Hf in *. split; [done|].
  unfold on_journal, put_back, pipeline; simpl. change (in_flight (mk_writer _ _ _)) with (in_flight (jn_writer (cf_journal c))).
  rewrite Hf. split; [done|]. split; [done|]. by exists st.
Qed.

Lemma write_batch_in_order :
  0 <= jn_flush_threshold j0 -> triple M (ordered true []) write_batch (fun _ => ordered true []).
Proof using Hquiet Hcalm.
  intros Hthr. unfold write_batch. apply triple_gets. intros j. cbv zeta. set (batch := py_slice _ _ _). set (rest := drop _ _).
  apply (triple_bind _ _ _ _ _ (fun _ => ordered true batch)).
  { apply triple_modify. intros c [Hc <-]. apply (ordered_take (jn_flush_threshold (cf_journal c)) c); [done|].
    destruct Hc as ((_ & _ & -> & _) & _). done. }
  intros _. apply (triple_try_exception _ _ _ _ _ (ordered true batch)).
  - apply (triple_bind _ _ _ _ _ (fun _ => ordered true [])).
    + eapply (triple_weaken _ (ordered true batch) _ _ (fun r c => match r with
        | Ok _ => ordered true [] c | Err Cancelled => False | _ => ordered true batch c end)); [|done|by intros [[]|[]] c Hc].
      apply triple_await; [apply ordered_stable| |done|intros m c Hm; left; by apply moment_calm].
      intros c Hc. pose proof (store_batch_ordered batch c Hc) as Hs. unfold store_batch in *.
      by destruct (es_put_batch _ _ _ _) as [[?|?] ?].
    + intros _. eapply triple_weaken; [apply yield_in_place|done|]. intros [[]|[|n t]] c [Hc Hr]; [done|done|].
      by destruct Hr.
  - intros n t. apply (triple_bind _ _ _ _ _ (fun _ => ordered true [])).
    + apply triple_modify. intros c. apply put_back_ordered.
    + intros _. eapply triple_weaken; [apply triple_throw|intros c Hc; exact Hc|]. by intros r c [_ Hc].
Qed.

Lemma write_batches_in_order n :
  0 <= jn_flush_threshold j0 -> triple M (ordered true []) (write_batches n) (fun _ => ordered true []).
Proof using Hquiet Hcalm.
  intros Hthr. induction n as [|n IH]; cbn [write_batches].
  { eapply triple_weaken; [apply triple_ret|intros c Hc; exact Hc|]. by intros r c [_ Hc]. }
  apply triple_gets. intros j. apply (triple_weaken _ (ordered true []) _ _ (fun _ => ordered true [])); [|by intros c [? _]|done].
  destruct (jw_buffer (jn_writer j)).
  { eapply triple_weaken; [apply triple_ret|intros c Hc; exact Hc|]. by intros r c [_ Hc]. }
  apply (triple_bind _ _ _ _ _ (fun _ => ordered true [])); [|intros _; apply IH].
  eapply triple_weaken; [by apply write_batch_in_order|done|]. by intros [[]|e'] c Hc.
Qed.

Lemma flush_in_order : 0 <= jn_flush_threshold j0 -> triple M (ordered false []) flush (fun _ => ordered true []).
Proof using Hquiet Hcalm.
  intros Hthr. unfold flush. apply in_place_then; [apply gather_flush_in_place|]. intros _.
  apply in_place_then; [intros c s Hc Hs; by apply drain_in_place|]. intros drained.
  apply (triple_bind _ _ _ _ _ (fun _ => ordered true [])).
  - intros c s Hc Hs. unfold flush_loop. revert c s Hc Hs.
    assert (H1 : forall n, triple M (ordered true [])
      (bind (write_batches n) (fun fin => if fin then ret true
         else bind (gets jh_journal) (fun j => write_batches (1 + length (jw_buffer (jn_writer j)))))) (fun _ => ordered true [])).
    { intros n. apply (triple_bind _ _ _ _ _ (fun _ => ordered true [])).
      - eapply triple_weaken; [by apply write_batches_in_order|done|]. by intros [b|e] c Hc.
      - intros [].
        + eapply triple_weaken; [apply triple_ret|intros c Hc; exact Hc|]. by intros r c [_ Hc].
        + apply triple_gets. intros j. eapply triple_weaken; [by apply write_batches_in_order| |done]. by intros c [? _]. }
    intros c s Hc Hs. specialize (H1 (length s) c s Hc Hs).
    destruct (bind _ _ c s) as [[[b|e] c'] s']; done.
  - intros fin. eapply triple_weaken; [apply triple_ret|intros c Hc; exact Hc|]. by intros r c [_ Hc].
Qed.
End triples.
End in_order.

(** ** Histories *)

(** Steps of the others, and whole calls of [flush] with what happens at their
    awaits. *)
Inductive history_step (md : mode) : config -> config -> Prop :=
| history_env c c' : env_step true c c' -> history_step md c c'
| history_flush c sched r c' sched' :
    Forall (journal_moment md) sched -> flush c sched = (r, c', sched') -> history_step md c c'.

Definition start (j0 : journal) (s0 : S) (t0 : Z) : config := mk_config j0 s0 [] t0.

(** Nothing is lost without a cancellation. *)
Definition accounted (md : mode) (j0 : journal) (s0 : S) (c : config) : Prop :=
  exists lost, holding j0 s0 [] lost c /\ (md_cancels md = false -> lost = []).

Lemma flush_accounted md j0 s0 c sched r c' sched' :
  0 <= jn_flush_threshold j0 -> Forall (journal_moment md) sched -> flush c sched = (r, c', sched') ->
  forall lost, holding j0 s0 [] lost c ->
  flushed j0 s0 md lost id r c' /\ (r <> Err Cancelled -> holding j0 s0 [] lost c').
Proof using.
  intros Hthr Hs Hf lost Hc. pose proof (flush_flushed j0 s0 md lost Hthr c sched Hc Hs) as Ht. rewrite Hf in Ht.
  destruct Ht as [Ht _]. split; [done|]. destruct Ht as [[Ho _] _]. intros Hr. by destruct r as [b|[|n t]].
Qed.

Lemma history_accounted md j0 s0 c c' :
  0 <= jn_flush_threshold j0 -> history_step md c c' -> accounted md j0 s0 c -> accounted md j0 s0 c'.
Proof using.
  intros Hthr Hst (lost & Hc & Hl). destruct Hst as [c c' Hst|c sched r c' sched' Hs Hf].
  - exists lost. split; [by eapply env_holding|done].
  - destruct (flush_accounted _ _ _ _ _ _ _ _ Hthr Hs Hf lost Hc) as [[(Ho & Hn & _) _] Hk].
    destruct r as [b|[|n t]]; [|destruct Ho as [lost' Ho]|]; [exists lost; split; [by apply Hk|done]| |exists lost; split; [by apply Hk|done]].
    exists (lost ++ lost'). split; [done|]. intros Hcalm. by destruct (Hn Hcalm).
Qed.

Lemma history_ordered md j0 s0 c c' :
  md_callbacks md = false -> md_cancels md = false -> 0 <= jn_flush_threshold j0 ->
  history_step md c c' -> ordered j0 s0 false [] c -> ordered j0 s0 false [] c'.
Proof using.
  intros Hq Hcalm Hthr Hst Hc. destruct Hst as [c c' Hst|c sched r c' sched' Hs Hf]; [by eapply env_ordered|].
  pose proof (flush_in_order j0 s0 md Hq Hcalm Hthr c sched Hc Hs) as Ht. rewrite Hf in Ht. destruct Ht as [Ht _].
  by apply (ordered_more j0 s0 []).
Qed.

Section reachable.
Context (md : mode) (run_id thread_id : string) (track : bool) (threshold : Z) (reporter : bool) (interval : Z).
Context (s0 : S) (t0 : Z) (Hthr : 1 <= threshold) (Hwf0 : es_wf s0).
Notation j0 := (new_journal run_id thread_id track threshold reporter interval).

Lemma start_accounted : accounted md j0 s0 (start j0 s0 t0).
Proof using Hwf0. exists []. split; [|done]. split; [done|]. split; [constructor|]. exists []. split; [done|by apply delivered_nil]. Qed.

Lemma start_ordered : ordered j0 s0 false [] (start j0 s0 t0).
Proof using Hwf0. split; [done|]. split; [constructor|]. split; [done|]. exists []. split; [done|by apply delivered_nil]. Qed.

Lemma reachable_accounted c : star (history_step md) (start j0 s0 t0) c -> accounted md j0 s0 c.
Proof using Hthr Hwf0.
  intros Hstar. refine (star_invariant _ _ _ _ _ Hstar start_accounted).
  intros c1 c2. apply history_accounted. simpl. lia.
Qed.

Lemma reachable_ordered c :
  md_callbacks md = false -> md_cancels md = false -> star (history_step md) (start j0 s0 t0) c -> ordered j0 s0 false [] c.
Proof using Hthr Hwf0.
  intros Hq Hcalm Hstar. refine (star_invariant _ _ _ _ _ Hstar start_ordered).
  intros c1 c2. apply history_ordered; [done..|]. simpl. lia.
Qed.

(** The two loops of [flush] end. *)
Lemma flush_ends c sched r c' sched' :
  accounted md j0 s0 c -> Forall (journal_moment md) sched -> flush c sched = (r, c', sched') -> r <> Ok false.
Proof using Hthr.
  intros (lost & Hc & _) Hs Hf ->. unfold flush in Hf.
  assert (Hthr0 : 0 <= jn_flush_threshold j0) by (simpl; lia).
  apply bind_Ok in Hf as ([] & c1 & s1 & H1 & Hf). pose proof (gather_flush_waits j0 s0 md lost c sched Hc Hs) as Ht.
  rewrite H1 in Ht. destruct Ht as [[Hc1 _] Hs1].
  apply bind_Ok in Hf as (b & c2 & s2 & H2 & Hf). pose proof (drain_progress_waits j0 s0 md lost (length s1 + 3) c1 s1 Hc1 Hs1) as Ht.
  rewrite H2 in Ht. destruct Ht as [[Hc2 _] Hs2].
  pose proof (drain_progress_returns (length s1 + 3) c1 s1 (le_n _)) as Hd. rewrite H2 in Hd. simpl in Hd.
  apply bind_Ok in Hf as (b' & c3 & s3 & H3 & Hf). injection Hf as Hb _ _.
  assert (Hb' : b' <> false).
  { intros ->. refine (flush_returns c2 s2 _ _); [|by rewrite H3]. intros r c4 s4 Hw.
    pose proof (write_batches_flushed j0 s0 md lost (length s2) Hthr0 c2 s2 Hc2 Hs2) as Ht. rewrite Hw in Ht.
    destruct Ht as [[[Ho _] _] _]. unfold threshold_ok.
    assert (Hh : exists l, holding j0 s0 [] l c4) by (destruct r as [x|[|n t]]; [by exists lost|by destruct Ho; eexists|by exists lost]).
    destruct Hh as (l & (_ & _ & -> & _) & _). done. }
  destruct b, b'; done.
Qed.
End reachable.

(** (C7) The journal loses nothing.  Over any interleaving of callbacks, background
    flushes, their completions, progress tasks, writers of other runs and calls
    of [flush], itself interleaved with all of these at each of its awaits,
    with a store in which a failed batch writes nothing and a fault at any
    write, every event handed over is exactly once among those stored for the
    run, those in flight or in the buffer, and those of batches whose write was
    cancelled; there are none of the last kind unless a [flush] was cancelled;
    and when also no callback came during a [flush], the stored events, the
    batch in flight and the buffer are the events in the order they were handed
    over.  A callback never takes an event back. *)
Theorem journal_lossless md run_id thread_id track threshold reporter interval s0 t0 c :
  1 <= threshold -> es_wf s0 ->
  star (history_step md) (start (new_journal run_id thread_id track threshold reporter interval) s0 t0) c ->
  (exists stored lost rs, cf_emitted c ≡ₚ stored ++ pipeline (cf_journal c) ++ lost
     /\ Forall2 kept stored rs
     /\ List.filter (of_run run_id) (es_log thread_id (cf_store c)) = List.filter (of_run run_id) (es_log thread_id s0) ++ rs
     /\ (md_cancels md = false -> lost = []))
  /\ (md_callbacks md = false -> md_cancels md = false ->
      exists stored rs, cf_emitted c = stored ++ pipeline (cf_journal c) /\ Forall2 kept stored rs
        /\ List.filter (of_run run_id) (es_log thread_id (cf_store c))
           = List.filter (of_run run_id) (es_log thread_id s0) ++ rs)
  /\ forall k call, pipeline (cf_journal c) `prefix_of` pipeline (run_callback k call (cf_journal c)).
Proof using.
  intros Hthr Hwf Hstar. split_and!.
  - destruct (reachable_accounted _ _ _ _ _ _ _ _ _ Hthr Hwf _ Hstar) as (lost & (_ & _ & st & He & _ & rs & Hk & Hl) & Hn).
    by exists st, lost, rs.
  - intros Hq Hcalm. destruct (reachable_ordered _ _ _ _ _ _ _ _ _ Hthr Hwf _ Hq Hcalm Hstar) as (_ & _ & _ & st & He & _ & rs & Hk & Hl).
    by exists st, rs.
  - intros k call. destruct (run_callback_appends k call (cf_journal c)) as [_ (new & Hp & _)]. by exists new.
Qed.

(** (C40) [flush] returns, in every reachable state, whatever fails and whatever
    the other tasks do at finitely many of its awaits: neither the loop on the
    progress task nor the one on the buffer runs on.  When it does not raise,
    the buffer is empty; without a cancellation no event is lost, raise or not;
    and when there is also no callback during it, every event handed over is
    then stored, in order.  Without faults, on writes the store admits, it does not
    raise. *)
Theorem journal_flush_returns md run_id thread_id track threshold reporter interval s0 t0 c sched :
  1 <= threshold -> es_wf s0 ->
  star (history_step md) (start (new_journal run_id thread_id track threshold reporter interval) s0 t0) c ->
  Forall (journal_moment md) sched ->
  exists r c' sched' stored lost rs, flush c sched = (r, c', sched') /\ r <> Ok false
    /\ cf_emitted c' ≡ₚ stored ++ pipeline (cf_journal c') ++ lost /\ Forall2 kept stored rs
    /\ List.filter (of_run run_id) (es_log thread_id (cf_store c')) = List.filter (of_run run_id) (es_log thread_id s0) ++ rs
    /\ (r = Ok true -> jw_buffer (jn_writer (cf_journal c')) = [])
    /\ (md_cancels md = false -> lost = [] /\ r <> Err Cancelled)
    /\ (md_callbacks md = false -> md_cancels md = false -> r = Ok true -> cf_emitted c' = stored)
    /\ (md_cancels md = false -> md_faults md = false -> Forall es_admits (cf_emitted c') -> r = Ok true).
Proof using.
  intros Hthr Hwf Hstar Hs. set (j0 := new_journal run_id thread_id track threshold reporter interval) in *.
  destruct (flush c sched) as [[r c'] sched'] eqn:Hf.
  pose proof (reachable_accounted _ _ _ _ _ _ _ _ _ Hthr Hwf _ Hstar) as Hacc. fold j0 in Hacc.
  pose proof (flush_ends _ _ _ _ _ _ _ _ Hthr _ _ _ _ _ Hacc Hs Hf) as Hend.
  destruct Hacc as (lost0 & Hc0 & _).
  assert (Hthr0 : 0 <= jn_flush_threshold j0) by (simpl; lia).
  destruct (flush_accounted _ _ _ _ _ _ _ _ Hthr0 Hs Hf lost0 Hc0) as [[(_ & Hcan & Hadm) Hbuf] _].
  assert (Hok : md_cancels md = false -> md_faults md = false -> Forall es_admits (cf_emitted c') -> r = Ok true).
  { intros Hcalm Hnf Ha. destruct r as [[]|[|n t]]; [done|done|by destruct (Hcan Hcalm)|by destruct (Hadm n t eq_refl Hnf)]. }
  assert (Hstar' : star (history_step md) (start j0 s0 t0) c').
  { eapply star_trans; [exact Hstar|]. eapply star_step; [by eapply history_flush|apply star_refl]. }
  destruct (decide (md_callbacks md = false /\ md_cancels md = false)) as [[Hq Hcalm]|Hn].
  - pose proof (flush_in_order j0 s0 md Hq Hcalm Hthr0 c sched) as Ht.
    pose proof (reachable_ordered _ _ _ _ _ _ _ _ _ Hthr Hwf _ Hq Hcalm Hstar) as Hord. specialize (Ht Hord Hs). rewrite Hf in Ht.
    destruct Ht as [(_ & _ & Hin & st & He & _ & rs & Hk & Hl) _]. exists r, c', sched', st, [], rs. simpl in He. split_and!; try done.
    + by rewrite app_nil_r, He.
    + intros Hr. by apply (Hbuf true).
    + intros _. split; [done|by apply Hcan].
    + intros _ _ Hr. rewrite He. unfold pipeline. by rewrite Hin, (Hbuf true), !app_nil_r.
  - destruct (reachable_accounted _ _ _ _ _ _ _ _ _ Hthr Hwf _ Hstar') as (lost & (_ & _ & st & He & _ & rs & Hk & Hl) & Hlost).
    exists r, c', sched', st, lost, rs. split_and!; try done.
    + intros Hr. by apply (Hbuf true).
    + intros Hcalm. split; [by apply Hlost|by apply Hcan].
    + intros Hq Hcalm. by destruct Hn.
Qed.

End delivery.

(** ** [flush] among the coroutines of a larger world *)

(** What a journal cannot touch stays as it is, and without a cancellation
    [flush] returns or raises. *)
Section frame.
Context {S W : Type} `{RunEventStore S} `{!JournalHost (S := S) W}.
Context (M : moment W -> Prop) (P : W -> Prop).
Context (Hst : stable M P) (Hcalm : forall m, M m -> undisturbed m) (Hset : forall p w, P w -> P (jh_set p w)).

Definition framed {A} (m : coro W A) : Prop := triple M P m (fun r w => P w /\ r <> Err Cancelled).

Lemma framed_ret {A} (a : A) : framed (ret a).
Proof using. intros w s Hw Hs. done. Qed.

Lemma framed_bind {A B} (m : coro W A) (k : A -> coro W B) : framed m -> (forall a, framed (k a)) -> framed (bind m k).
Proof using.
  intros Hm Hk. apply (triple_bind _ _ _ _ _ (fun _ => P)); [|done]. eapply triple_weaken; [exact Hm|done|].
  intros [a|e] w [Hw Hn]; [done|]. split; [done|]. intros [= ->]. by apply Hn.
Qed.

Lemma framed_gets {A B} (f : W -> A) (k : A -> coro W B) : (forall a, framed (k a)) -> framed (bind (gets f) k).
Proof using. intros Hk. apply framed_bind; [|done]. by intros w s Hw Hs. Qed.

Lemma framed_modify f : framed (modify (on_journal f)).
Proof using Hset. apply triple_modify. intros w Hw. split; [by apply Hset|done]. Qed.

Lemma framed_yield : framed (await_sure id_world).
Proof using Hst Hcalm. apply triple_await_sure; [done|done|]. intros m w Hm. left. auto. Qed.

Lemma framed_task op cancel : (forall fault w, P w -> P (op fault w)) -> framed (await_task op cancel).
Proof using Hst Hcalm.
  intros Hop. apply triple_await_task; [done|auto|]. intros m w applied Hm. left. auto.
Qed.

Lemma framed_write_batch : framed write_batch.
Proof using Hst Hcalm Hset.
  apply framed_gets. intros j. apply framed_bind; [apply framed_modify|]. intros _.
  apply (triple_try_exception _ _ _ _ _ P).
  - apply (triple_bind _ _ _ _ _ (fun _ => P)).
    + apply (triple_weaken _ P P _ (fun r w => P w /\ r <> Err Cancelled)); [|done|by intros [a|[]] w [Hw Hn]].
      apply triple_await; [done| |done|intros m w Hm; left; auto].
      intros w Hw. unfold store_batch. destruct (es_put_batch _ _ _ _) as [[rs|e] s']; (split; [by apply Hset|done]).
    + intros _. eapply triple_weaken; [apply framed_yield|done|]. by intros [a|[]] w [Hw Hn].
  - intros n t. apply framed_bind; [apply framed_modify|]. intros _ w s Hw Hs. done.
Qed.

Lemma framed_write_batches n : framed (write_batches n).
Proof using Hst Hcalm Hset.
  induction n as [|n IH]; cbn [write_batches]; [apply framed_ret|]. apply framed_gets. intros j.
  destruct (jw_buffer (jn_writer j)); [apply framed_ret|]. apply framed_bind; [apply framed_write_batch|done].
Qed.

Lemma framed_gather_progress id : framed (gather_progress_task id).
Proof using Hst Hcalm Hset.
  apply framed_bind; [|intros _; apply framed_yield]. apply framed_task. intros fault w Hw. by apply Hset.
Qed.

Lemma framed_drain n : framed (drain_progress n).
Proof using Hst Hcalm Hset.
  induction n as [|n IH]; cbn [drain_progress]; [apply framed_ret|]. apply framed_gets. intros j.
  destruct (jp_task (jn_progress j)); [|apply framed_ret]. destruct (jp_delayed (jn_progress j)).
  - apply framed_bind; [apply framed_modify|intros _]. apply framed_bind; [apply framed_gather_progress|intros _].
    apply framed_bind; [apply framed_modify|intros _; apply framed_ret].
  - apply framed_bind; [apply framed_gather_progress|done].
Qed.

Lemma flush_framed : framed flush.
Proof using Hst Hcalm Hset.
  apply framed_bind.
  { apply framed_gets. intros j. destruct (jw_pending (jn_writer j)); [apply framed_ret|..];
      (apply framed_bind; [|intros _; apply framed_yield]; apply framed_task; intros fault w Hw; by apply Hset). }
  intros _. apply framed_bind; [intros w s Hw Hs; by apply framed_drain|]. intros drained. apply framed_bind; [|intros fin; apply framed_ret].
  intros w s Hw Hs. assert (Hl : framed (bind (write_batches (length s)) (fun fin => if fin then ret true
    else bind (gets jh_journal) (fun j => write_batches (1 + length (jw_buffer (jn_writer j))))))).
  { apply framed_bind; [apply framed_write_batches|]. intros []; [apply framed_ret|]. apply framed_gets. intros j. apply framed_write_batches. }
  by apply Hl.
Qed.
End frame.

(** ** Witnesses *)

Definition demo_tick (loop : bool) : tick := mk_tick 5 7 loop.

Definition demo_answer : message :=
  mk_message AIMessage "ai" None (JStr "done") (Some "done")
    (Some [("input_tokens", JNum 3); ("output_tokens", JNum 4)]) [] [("model_name", JStr "m")] (JStr "done").

(** A root chain starts, answers and ends with an event loop running: the second
    event starts a flush at threshold 2, the third waits in the buffer; the
    usage of the answer starts a delayed progress task. *)
Definition demo_journal : journal := new_journal "r" "t" true 2 true 100.
Definition demo_calls : list callback :=
  [ChainStart (JStr "agent") true None None; LlmEnd [demo_answer] "c1" None; ChainEnd JNull true].

Definition call_on (k : tick) (call : callback) (c : config (S := Memory.mem_store)) : config :=
  let j' := run_callback k call (cf_journal c) in
  mk_config j' (cf_store c) (cf_emitted c ++ drop (length (pipeline (cf_journal c))) (pipeline j')) (cf_clock c).

Definition demo_config : config := start demo_journal Memory.empty 0.
Definition demo_started : config := foldl (fun c call => call_on (demo_tick true) call c) demo_config demo_calls.

Lemma call_on_step k call c : env_step true c (call_on k call c).
Proof. destruct c as [j s em t]. by apply (env_callback true k call). Qed.

Lemma star_calls md k calls c : star (history_step md) c (foldl (fun c call => call_on k call c) c calls).
Proof.
  revert c. induction calls as [|call calls IH]; intros c; [apply star_refl|]. cbn [foldl].
  eapply star_step; [apply history_env, call_on_step|apply IH].
Qed.

(** An agent that is through, no cancellation, any fault. *)
Definition demo_mode : mode := mk_mode false false true.

Lemma demo_reachable : star (history_step demo_mode) demo_config demo_started.
Proof. apply star_calls. Qed.

Lemma journal_lossless_witness :
  (exists stored rs, cf_emitted demo_started = stored ++ pipeline (cf_journal demo_started) /\ Forall2 kept stored rs
     /\ List.filter (of_run "r") (es_log "t" (cf_store demo_started))
        = List.filter (of_run "r") (es_log "t" Memory.empty) ++ rs)
  /\ length (cf_emitted demo_started) = 3%nat /\ length (in_flight (jn_writer (cf_journal demo_started))) = 2%nat.
Proof.
  split; [|vm_compute; repeat split].
  exact (proj1 (proj2 (journal_lossless (H := Memory.MemoryRunEventStore) demo_mode "r" "t" true 2 true 100 Memory.empty 0
    demo_started ltac:(lia) Memory.empty_wf demo_reachable)) eq_refl eq_refl).
Defined.

(** The background write is through before [flush] looks again. *)
Definition demo_sched : list (moment (config (S := Memory.mem_store))) := [mk_moment id (Fails "OSError" "disk full")].

Lemma demo_sched_ok : Forall (journal_moment demo_mode) demo_sched.
Proof. repeat constructor; done. Qed.

Lemma journal_flush_returns_witness :
  exists r c' sched' stored lost rs, flush demo_started demo_sched = (r, c', sched') /\ r <> Ok false
    /\ cf_emitted c' ≡ₚ stored ++ pipeline (cf_journal c') ++ lost /\ Forall2 kept stored rs
    /\ List.filter (of_run "r") (es_log "t" (cf_store c')) = List.filter (of_run "r") (es_log "t" Memory.empty) ++ rs
    /\ (r = Ok true -> jw_buffer (jn_writer (cf_journal c')) = [])
    /\ (md_cancels demo_mode = false -> lost = [] /\ r <> Err Cancelled)
    /\ (md_callbacks demo_mode = false -> md_cancels demo_mode = false -> r = Ok true -> cf_emitted c' = stored)
    /\ (md_cancels demo_mode = false -> md_faults demo_mode = false -> Forall es_admits (cf_emitted c') -> r = Ok true).
Proof.
  apply (journal_flush_returns (H := Memory.MemoryRunEventStore) demo_mode "r" "t" true 2 true 100 Memory.empty 0
    demo_started demo_sched ltac:(lia) Memory.empty_wf demo_reachable demo_sched_ok).
Defined.

(** ** What interleaving does *)

Definition stored_types (c : config (S := Memory.mem_store)) : list string := ev_event_type <$> es_log "t" (cf_store c).
Definition emitted_types (c : config (S := Memory.mem_store)) : list string := pa_event_type <$> cf_emitted c.

(** Three calls at threshold 2 without an event loop, so that all is in the
    buffer when [flush] begins. *)
Definition demo_buffered : config :=
  foldl (fun c call => call_on (demo_tick false) call c) demo_config demo_calls.

(** Alone it stores them in order. *)
Example flush_alone :
  let '(r, c, _) := flush demo_buffered [] in
  r = Ok true /\ stored_types c = emitted_types c /\ length (stored_types c) = 3%nat.
Proof. vm_compute. repeat split. Qed.

(** While the first batch is written a callback starts a background flush of
    the rest and its write is through first: the events are stored out of
    order. *)
Definition overtake (c : config (S := Memory.mem_store)) : config :=
  let c1 := call_on (demo_tick true) (ChainError "e" "E") c in
  jh_set (flush_async None 0 (cf_journal c1) (cf_store c1)) c1.

Example callback_reorders :
  let '(r, c, _) := flush demo_buffered [mk_moment overtake Go] in
  r = Ok true /\ stored_types c = ["run.end"; "run.error"; "run.start"; "llm.ai.response"]
  /\ emitted_types c = ["run.start"; "llm.ai.response"; "run.end"; "run.error"].
Proof. vm_compute. repeat split. Qed.

(** Cancelled in the write, [flush] does not put the batch back. *)
Example cancelled_write_loses :
  let '(r, c, _) := flush demo_buffered [mk_moment id (CancelledHere false)] in
  r = Err Cancelled /\ stored_types c = [] /\ (pa_event_type <$> pipeline (cf_journal c)) = ["run.end"]
  /\ length (cf_emitted c) = 3%nat.
Proof. vm_compute. repeat split. Qed.
