(* ===== verification/JournalTotals.v ===== *)
(** * The totals of the run journal

    The token totals of a run add up and count each call once, whatever the
    callbacks. *)
From S2P Require Import Prelude PyString PyList EventStore Journal JournalProps.
Local Open Scope string_scope.
Local Open Scope Z_scope.
Local Open Scope list_scope.

(** ** Token totals *)

Definition sum_by_model (f : Z * Z * Z -> Z) (t : token_totals) : Z := sumZ ((fun p => f p.2) <$> jt_tokens_by_model t).

(** The callers and the models both partition the totals. *)
Definition totals_ok (t : token_totals) : Prop :=
  jt_lead_agent_tokens t + jt_subagent_tokens t + jt_middleware_tokens t = jt_total_tokens t
  /\ sum_by_model (fun u => u.1.1) t = jt_total_input_tokens t
  /\ sum_by_model (fun u => u.1.2) t = jt_total_output_tokens t
  /\ sum_by_model (fun u => u.2) t = jt_total_tokens t
  /\ jt_llm_call_count t = Z.of_nat (size (jt_counted_llm_run_ids t)).

Lemma record_model_usage_sum (f : Z * Z * Z -> Z) m i o t d :
  0 < t -> (forall a b c a' b' c', f (a + a', b + b', c + c') = f (a, b, c) + f (a', b', c')) -> f (0, 0, 0) = 0 ->
  sumZ ((fun p => f p.2) <$> record_model_usage m i o t d) = sumZ ((fun p => f p.2) <$> d) + f (i, o, t).
Proof.
  intros Ht Hadd H0. unfold record_model_usage. rewrite (proj2 (Z.leb_gt _ _)) by done. cbv zeta.
  set (model := if truthy m then _ else _). destruct (opt_or (dict_get model d) (0, 0, 0)) as [[i0 o0] t0] eqn:Hg.
  rewrite dict_set_sum. assert (Hold : opt_or (f <$> dict_get model d) 0 = f (i0, o0, t0)).
  { destruct (dict_get model d) as [u|]; simpl in *; simplify_eq; done. }
  rewrite Hold, Hadd. lia.
Qed.

Lemma add_usage_ok caller model i o total call cl ce t :
  totals_ok t -> 0 < total -> call = Z.of_nat (size cl) - Z.of_nat (size (jt_counted_llm_run_ids t)) ->
  totals_ok (add_usage caller model i o total call cl ce t).
Proof.
  intros (H1 & H2 & H3 & H4 & H5) Ht Hc. unfold totals_ok, add_usage, sum_by_model in *; simpl.
  rewrite (record_model_usage_sum (fun u => u.1.1)), (record_model_usage_sum (fun u => u.1.2)),
    (record_model_usage_sum (fun u => u.2)) by done. simpl in *.
  destruct (startswith "subagent:" caller), (startswith "middleware:" caller); simpl; lia.
Qed.

Lemma flush_sync_tokens k j : jn_tokens (flush_sync k j) = jn_tokens j.
Proof.
  unfold flush_sync. destruct (jw_buffer (jn_writer j)); [done|]. destruct (jw_pending (jn_writer j)), (tk_loop k); done.
Qed.

Lemma put_tokens k ty cat c md j : jn_tokens (put k ty cat c md j) = jn_tokens j.
Proof. unfold put. destruct (_ <=? _); [|done]. by rewrite flush_sync_tokens. Qed.

Lemma note_error_fallback_tokens m j : jn_tokens (note_error_fallback m j) = jn_tokens j.
Proof. unfold note_error_fallback. by destruct (is_fallback m). Qed.

Lemma schedule_progress_tokens k j : jn_tokens (schedule_progress_flush k j) = jn_tokens j.
Proof. by destruct (schedule_progress_progress k j) as [p ->]. Qed.

Lemma schedule_progress_summary k j : jn_summary (schedule_progress_flush k j) = jn_summary j.
Proof. by destruct (schedule_progress_progress k j) as [p ->]. Qed.

Lemma size_add (x : string) (X : gset string) : x ∉ X -> size ({[x]} ∪ X) = Datatypes.S (size X).
Proof. intros Hx. rewrite size_union by set_solver. by rewrite size_singleton. Qed.

Lemma count_tokens_cong k rid caller m j j' :
  jn_tokens j = jn_tokens j' -> jn_track_tokens j = jn_track_tokens j' ->
  jn_tokens (count_tokens k rid caller m j) = jn_tokens (count_tokens k rid caller m j').
Proof. intros Ht Hk. unfold count_tokens. rewrite Ht, Hk. destruct (_ && _); [|done]. by rewrite !schedule_progress_tokens. Qed.

Lemma put_track k ty cat c md j : jn_track_tokens (put k ty cat c md j) = jn_track_tokens j.
Proof. by destruct (put_appends k ty cat c md j) as [(_ & _ & _ & ->) _]. Qed.

Lemma llm_end_message_tokens k rid tags m j :
  jn_tokens (llm_end_message k rid tags m j) = jn_tokens (count_tokens k rid (identify_caller tags) m j)
  /\ jn_track_tokens (llm_end_message k rid tags m j) = jn_track_tokens j.
Proof.
  split; [|by destruct (llm_end_message_appends k rid tags m j) as [(_ & _ & _ & ->) _]].
  unfold llm_end_message. apply count_tokens_cong;
    destruct (bool_decide _) at 1; unfold record_message_summary; simpl; rewrite ?put_tokens, ?put_track; simpl;
    rewrite ?note_error_fallback_tokens; try done;
    by destruct (note_error_fallback_appends m (set_llm (mk_tracking (dict_pop rid (jl_llm_start_times (jn_llm j)))
      (jl_llm_call_index (jn_llm j)) (jl_seen_llm_starts (jn_llm j))) j)) as [(_ & _ & _ & ->) _].
Qed.

Lemma count_tokens_ok k rid caller m j : totals_ok (jn_tokens j) -> totals_ok (jn_tokens (count_tokens k rid caller m j)).
Proof.
  intros Hok. unfold count_tokens. cbv zeta.
  destruct (_ && _ && _) eqn:Hc; [|done]. rewrite schedule_progress_tokens. apply andb_true_iff in Hc as [Hc Hnew]. apply andb_true_iff in Hc as [_ Hpos].
  reflect_bools. apply add_usage_ok; [done|done|]. rewrite size_add by done. lia.
Qed.

Lemma record_external_ok k x j : totals_ok (jn_tokens j) -> totals_ok (jn_tokens (record_external k x j)).
Proof.
  intros Hok. unfold record_external. destruct (_ || _); [done|]. cbv zeta.
  destruct ((if xu_total_tokens x <=? 0 then _ else _) <=? 0) eqn:Hpos; [done|]. reflect_bools. rewrite schedule_progress_tokens.
  apply add_usage_ok; [done|done|lia].
Qed.

Lemma capture_first_human_tokens k caller batches j : jn_tokens (capture_first_human k caller batches j) = jn_tokens j.
Proof.
  revert j. induction batches as [|batch rest IH]; intros j; simpl; [done|].
  destruct (List.find _ _) as [m|]; [|by destruct (truthy _)].
  destruct (truthy _); rewrite ?IH; unfold record_message_summary; simpl; by rewrite put_tokens.
Qed.

Lemma foldl_totals_ok {X} (f : journal -> X -> journal) l j :
  (forall j x, totals_ok (jn_tokens j) -> totals_ok (jn_tokens (f j x))) ->
  totals_ok (jn_tokens j) -> totals_ok (jn_tokens (foldl f j l)).
Proof. intros Hf. revert j. induction l as [|x l IH]; intros j Hok; simpl; [done|]. by apply IH, Hf. Qed.

Lemma run_callback_totals_ok k c j : totals_ok (jn_tokens j) -> totals_ok (jn_tokens (run_callback k c j)).
Proof.
  intros Hok. destruct c as [n root tags md|o root|e ty|ms rid tags|rid|ms rid tags|e rid|ms|rs|tag n h a ch]; simpl.
  - unfold on_chain_start. destruct root; by rewrite ?put_tokens.
  - unfold on_chain_end. destruct root; by rewrite ?flush_sync_tokens, ?put_tokens.
  - unfold on_chain_error. by rewrite flush_sync_tokens, put_tokens.
  - unfold on_chat_model_start. destruct (truthy _); by rewrite ?capture_first_human_tokens.
  - done.
  - unfold on_llm_end.
    assert (Hf : totals_ok (jn_tokens (foldl (fun j m => llm_end_message k rid tags m j) j ms))).
    { apply foldl_totals_ok; [|done]. intros j' m Hj'. rewrite (proj1 (llm_end_message_tokens k rid tags m j')).
      by apply count_tokens_ok. }
    by destruct ms.
  - unfold on_llm_error. by rewrite put_tokens.
  - unfold on_tool_end. apply foldl_totals_ok; [|done]. intros j' m Hj'. unfold record_message_summary; simpl.
    by rewrite put_tokens.
  - unfold record_external_llm_usage_records. destruct (jn_track_tokens j); [|done].
    apply foldl_totals_ok; [|done]. intros. by apply record_external_ok.
  - unfold record_middleware. by rewrite put_tokens.
Qed.

(** A call is counted by its first response with usage. *)
Lemma count_tokens_counted k rid caller m j :
  rid ∈ jt_counted_llm_run_ids (jn_tokens j) -> jn_tokens (count_tokens k rid caller m j) = jn_tokens j.
Proof.
  intros Hin. unfold count_tokens. cbv zeta. rewrite (bool_decide_eq_true_2 (rid ∈ _)) by done.
  by rewrite andb_false_r.
Qed.

(** After a message, its call is counted or the message never will be. *)
Lemma count_tokens_settles k rid caller m j :
  rid ∈ jt_counted_llm_run_ids (jn_tokens (count_tokens k rid caller m j))
  \/ forall k' j' caller', jn_track_tokens j' = jn_track_tokens j -> count_tokens k' rid caller' m j' = j'.
Proof.
  destruct (decide (rid ∈ jt_counted_llm_run_ids (jn_tokens j))) as [Hin|Hout].
  { left. by rewrite count_tokens_counted. }
  unfold count_tokens. cbv zeta. rewrite (bool_decide_eq_false_2 (rid ∈ jt_counted_llm_run_ids (jn_tokens j))) by done.
  destruct (jn_track_tokens j && _) eqn:Hc; simpl; [left; rewrite schedule_progress_tokens; simpl; set_solver|].
  right. intros k' j' caller' ->. by rewrite Hc.
Qed.

Lemma count_tokens_counted_mono k rid rid' caller m j :
  rid ∈ jt_counted_llm_run_ids (jn_tokens j) -> rid ∈ jt_counted_llm_run_ids (jn_tokens (count_tokens k rid' caller m j)).
Proof.
  intros Hin. unfold count_tokens. destruct (_ && _); [|done]. rewrite schedule_progress_tokens. simpl. set_solver.
Qed.

Lemma llm_end_fold_counted k rid tags ms j :
  rid ∈ jt_counted_llm_run_ids (jn_tokens j) ->
  jn_tokens (foldl (fun j m => llm_end_message k rid tags m j) j ms) = jn_tokens j.
Proof.
  revert j. induction ms as [|m ms IH]; intros j Hin; [done|]. cbn [foldl].
  destruct (llm_end_message_tokens k rid tags m j) as [Ht _]. rewrite count_tokens_counted in Ht by done.
  rewrite IH by (by rewrite Ht). done.
Qed.

Lemma llm_end_fold_settles k rid tags ms j :
  let j1 := foldl (fun j m => llm_end_message k rid tags m j) j ms in
  jn_track_tokens j1 = jn_track_tokens j
  /\ (rid ∈ jt_counted_llm_run_ids (jn_tokens j1)
      \/ Forall (fun m => forall k' j' caller, jn_track_tokens j' = jn_track_tokens j -> count_tokens k' rid caller m j' = j') ms).
Proof.
  revert j. induction ms as [|m ms IH]; intros j; cbn [foldl]; [split; [done|by right]|].
  destruct (llm_end_message_tokens k rid tags m j) as [Ht Hk]. destruct (IH (llm_end_message k rid tags m j)) as [Htr Hset].
  split; [by rewrite Htr, Hk|].
  destruct (count_tokens_settles k rid (identify_caller tags) m j) as [Hin|Hnone].
  - left. rewrite <-Ht in Hin. by rewrite llm_end_fold_counted.
  - destruct Hset as [?|Hset]; [by left|right]. constructor; [done|]. by rewrite Hk in Hset.
Qed.

Lemma llm_end_fold_none k rid tags ms j :
  Forall (fun m => forall k' j' caller, jn_track_tokens j' = jn_track_tokens j -> count_tokens k' rid caller m j' = j') ms ->
  jn_tokens (foldl (fun j m => llm_end_message k rid tags m j) j ms) = jn_tokens j.
Proof.
  revert j. induction ms as [|m ms IH]; intros j Hall; [done|]. inversion Hall as [|? ? Hm Hms]; subst. cbn [foldl].
  destruct (llm_end_message_tokens k rid tags m j) as [Ht Hk]. rewrite Hm in Ht by done. rewrite IH; [done|].
  by rewrite Hk.
Qed.

Lemma on_llm_end_tokens k ms rid tags j :
  jn_tokens (on_llm_end k ms rid tags j) = jn_tokens (foldl (fun j m => llm_end_message k rid tags m j) j ms)
  /\ jn_track_tokens (on_llm_end k ms rid tags j)
     = jn_track_tokens (foldl (fun j m => llm_end_message k rid tags m j) j ms).
Proof. unfold on_llm_end. by destruct ms. Qed.

Lemma llm_end_replay_tokens k k' ms rid tags tags' j :
  jn_tokens (on_llm_end k' ms rid tags' (on_llm_end k ms rid tags j)) = jn_tokens (on_llm_end k ms rid tags j).
Proof.
  set (j1 := on_llm_end k ms rid tags j). rewrite (proj1 (on_llm_end_tokens k' ms rid tags' j1)).
  destruct (on_llm_end_tokens k ms rid tags j) as [Ht Hk]. fold j1 in Ht, Hk.
  destruct (llm_end_fold_settles k rid tags ms j) as [Htr [Hin|Hnone]].
  - apply llm_end_fold_counted. by rewrite Ht.
  - apply llm_end_fold_none. by rewrite Hk, Htr.
Qed.

(** The summary side: messages of a call are counted by its first end. *)
Lemma put_summary k ty cat c md j : jn_summary (put k ty cat c md j) = jn_summary j.
Proof.
  unfold put, flush_sync. destruct (_ <=? _); [|done]. simpl.
  destruct (jw_buffer (jn_writer j) ++ _); [done|]. destruct (jw_pending (jn_writer j)), (tk_loop k); done.
Qed.

Definition reported (j : journal) : option string * option string * Z :=
  (js_last_ai_msg (jn_summary j), js_first_human_msg (jn_summary j), js_msg_count (jn_summary j)).

Lemma llm_end_message_counted k rid tags m j :
  rid ∈ js_counted_message_llm_run_ids (jn_summary j) ->
  reported (llm_end_message k rid tags m j) = reported j
  /\ rid ∈ js_counted_message_llm_run_ids (jn_summary (llm_end_message k rid tags m j)).
Proof.
  intros Hin. unfold llm_end_message. cbv zeta. unfold reported.
  assert (Hc : forall c m j, jn_summary (count_tokens k rid c m j) = jn_summary j).
  { intros c m' j'. unfold count_tokens. destruct (_ && _); [|done]. by rewrite schedule_progress_summary. }
  rewrite Hc, put_summary. simpl.
  assert (Hn : forall j, reported (note_error_fallback m j) = reported j
    /\ js_counted_message_llm_run_ids (jn_summary (note_error_fallback m j)) = js_counted_message_llm_run_ids (jn_summary j)).
  { intros j'. unfold note_error_fallback. by destruct (is_fallback m). }
  set (j1 := set_llm _ j). destruct (Hn j1) as [H1 H3]. unfold reported in H1.
  rewrite bool_decide_eq_true_2 by (rewrite H3; done). rewrite put_summary. simpl. by rewrite H1, H3.
Qed.

Lemma llm_end_fold_reported k rid tags ms j :
  rid ∈ js_counted_message_llm_run_ids (jn_summary j) ->
  reported (foldl (fun j m => llm_end_message k rid tags m j) j ms) = reported j.
Proof.
  revert j. induction ms as [|m ms IH]; intros j Hin; [done|]. cbn [foldl].
  destruct (llm_end_message_counted k rid tags m j Hin) as [H1 H2]. by rewrite IH, H1.
Qed.

Lemma llm_end_replay_reported k k' ms rid tags tags' j :
  reported (on_llm_end k' ms rid tags' (on_llm_end k ms rid tags j)) = reported (on_llm_end k ms rid tags j).
Proof.
  set (j1 := on_llm_end k ms rid tags j). destruct ms as [|m ms]; [done|].
  assert (Hin : rid ∈ js_counted_message_llm_run_ids (jn_summary j1)) by (unfold j1, on_llm_end; simpl; set_solver).
  by rewrite <-(llm_end_fold_reported k' rid tags' (m :: ms) j1 Hin).
Qed.

(** The totals of a run add up.  After any sequence of callbacks, what the run
    row receives splits the total tokens over lead agent, subagents and
    middleware, and over the models, without remainder, and counts the calls
    that reported usage; and a response that is delivered a second time
    changes none of it. *)
Theorem token_accounting run_id thread_id track threshold reporter interval (history : list (tick * callback)) k k' ms rid tags tags' :
  let j := foldl (fun j kc => run_callback kc.1 kc.2 j) (new_journal run_id thread_id track threshold reporter interval) history in
  let d := get_completion_data j in
  (cd_lead_agent_tokens d + cd_subagent_tokens d + cd_middleware_tokens d = cd_total_tokens d
   /\ sumZ ((fun p => p.2.1.1) <$> cd_token_usage_by_model d) = cd_total_input_tokens d
   /\ sumZ ((fun p => p.2.1.2) <$> cd_token_usage_by_model d) = cd_total_output_tokens d
   /\ sumZ ((fun p => p.2.2) <$> cd_token_usage_by_model d) = cd_total_tokens d
   /\ cd_llm_call_count d = Z.of_nat (size (jt_counted_llm_run_ids (jn_tokens j))))
  /\ let j1 := on_llm_end k ms rid tags j in
     get_completion_data (on_llm_end k' ms rid tags' j1) = get_completion_data j1.
Proof.
  intros j d. split.
  - apply (foldl_totals_ok (fun j kc => run_callback kc.1 kc.2 j)); [|repeat split].
    intros j' kc. apply run_callback_totals_ok.
  - intros j1. pose proof (llm_end_replay_reported k k' ms rid tags tags' j) as Hr. fold j1 in Hr.
    pose proof (llm_end_replay_tokens k k' ms rid tags tags' j) as Ht. fold j1 in Ht.
    unfold get_completion_data. rewrite Ht. injection Hr as -> -> ->. done.
Qed.
