(* ===== verification/StreamBridge.v ===== *)
(** * The in-process stream bridge

    [runtime/stream_bridge/base.py] and [memory.py]: the bounded event log of
    each run, written by the worker and read by any number of SSE subscribers.

    A stream is an object shared by the dictionary of the bridge and by the
    subscribers that hold a reference to it, so streams live in a heap and are
    named by their address: [cleanup] removes the name, not the object.  A
    section under a stream's condition variable is one step; a subscriber that
    waits is woken or times out at any later step.  Offsets count events and
    are natural numbers. *)
From S2P Require Import Prelude PyString.
From stdpp Require Import pretty.
From Stdlib Require Import Ascii.
Local Open Scope string_scope.
Local Open Scope list_scope.

(** ** Data *)

Record stream_event : Type := mk_stream_event {
  se_id : string;
  se_event : string;
  se_data : json
}.

Definition HEARTBEAT_SENTINEL : stream_event := mk_stream_event "" "__heartbeat__" JNull.
Definition END_SENTINEL : stream_event := mk_stream_event "" "__end__" JNull.

(** [_RunStream]. *)
Record run_stream : Type := mk_run_stream {
  st_events : list stream_event;
  st_ended : bool;
  st_start_offset : nat
}.

Record bridge : Type := mk_bridge {
  br_maxsize : nat;
  br_heap : list run_stream;
  br_streams : list (string * nat);
  br_counters : list (string * N)
}.

Definition new_bridge (queue_maxsize : nat) : bridge := mk_bridge queue_maxsize [] [] [].

(** A running [subscribe] generator. *)
Record subscriber : Type := mk_sub {
  sb_stream : nat;
  sb_next_offset : nat;
  sb_done : bool
}.

(** ** Operations *)

(** [_get_or_create_stream]. *)
Definition get_or_create_stream (run_id : string) (b : bridge) : nat * bridge :=
  match dict_get run_id (br_streams b) with
  | Some addr => (addr, b)
  | None =>
      let addr := length (br_heap b) in
      (addr, mk_bridge (br_maxsize b) (br_heap b ++ [mk_run_stream [] false 0])
               (dict_set run_id addr (br_streams b)) (dict_set run_id 0%N (br_counters b)))
  end.

(** [_next_id]: milliseconds and the number of the event. *)
Definition event_id (ts seq : N) : string := pretty ts +:+ "-" +:+ pretty seq.

Definition next_id (ts : N) (run_id : string) (b : bridge) : string * bridge :=
  let counter := (opt_or (dict_get run_id (br_counters b)) 0 + 1)%N in
  (event_id ts (counter - 1)%N,
   mk_bridge (br_maxsize b) (br_heap b) (br_streams b) (dict_set run_id counter (br_counters b))).

(** The body of [publish] under the condition: append, then evict. *)
Definition push (maxsize : nat) (entry : stream_event) (st : run_stream) : run_stream :=
  let events := st_events st ++ [entry] in
  let overflow := length events - maxsize in
  mk_run_stream (drop overflow events) (st_ended st) (st_start_offset st + overflow).

Definition set_ended (st : run_stream) : run_stream :=
  mk_run_stream (st_events st) true (st_start_offset st).

Definition update_stream (f : run_stream -> run_stream) (addr : nat) (b : bridge) : bridge :=
  mk_bridge (br_maxsize b) (alter f addr (br_heap b)) (br_streams b) (br_counters b).

Definition publish (ts : N) (run_id event : string) (data : json) (b : bridge) : bridge :=
  let '(addr, b1) := get_or_create_stream run_id b in
  let '(id, b2) := next_id ts run_id b1 in
  update_stream (push (br_maxsize b2) (mk_stream_event id event data)) addr b2.

Definition publish_end (run_id : string) (b : bridge) : bridge :=
  let '(addr, b1) := get_or_create_stream run_id b in
  update_stream set_ended addr b1.

(** [_resolve_start_offset]. *)
Fixpoint index_of (id : string) (i : nat) (events : list stream_event) : option nat :=
  match events with
  | [] => None
  | e :: events' => if String.eqb (se_id e) id then Some i else index_of id (S i) events'
  end.

Definition resolve_start_offset (st : run_stream) (last_event_id : option string) : nat :=
  match last_event_id with
  | None => st_start_offset st
  | Some id =>
      match index_of id 0 (st_events st) with
      | Some index => st_start_offset st + index + 1
      | None => st_start_offset st
      end
  end.

Definition empty_stream : run_stream := mk_run_stream [] false 0.

Definition stream_at (addr : nat) (b : bridge) : run_stream := opt_or (br_heap b !! addr) empty_stream.

(** [subscribe], up to its first turn. *)
Definition subscribe (run_id : string) (last_event_id : option string) (b : bridge) : subscriber * bridge :=
  let '(addr, b1) := get_or_create_stream run_id b in
  (mk_sub addr (resolve_start_offset (stream_at addr b1) last_event_id) false, b1).

(** One turn of the loop: what it yields, if anything.  With neither an event
    nor the end the generator waits; [timeout] says that the wait ran out. *)
Definition turn (timeout : bool) (b : bridge) (s : subscriber) : option stream_event * subscriber :=
  let st := stream_at (sb_stream s) b in
  let next_offset := if (sb_next_offset s <? st_start_offset st)%nat then st_start_offset st else sb_next_offset s in
  let s1 := mk_sub (sb_stream s) next_offset (sb_done s) in
  match st_events st !! (next_offset - st_start_offset st) with
  | Some entry => (Some entry, mk_sub (sb_stream s) (next_offset + 1) (sb_done s))
  | None =>
      if st_ended st then (Some END_SENTINEL, mk_sub (sb_stream s) next_offset true)
      else if timeout then (Some HEARTBEAT_SENTINEL, s1)
      else (None, s1)
  end.

Definition cleanup (run_id : string) (b : bridge) : bridge :=
  mk_bridge (br_maxsize b) (br_heap b) (dict_pop run_id (br_streams b)) (dict_pop run_id (br_counters b)).

Definition close (b : bridge) : bridge := mk_bridge (br_maxsize b) (br_heap b) [] [].

(** ** Histories *)

Inductive bridge_op : Type :=
| Publish (ts : N) (run_id event : string) (data : json)
| PublishEnd (run_id : string)
| Subscribe (run_id : string) (last_event_id : option string)
| Cleanup (run_id : string)
| Close.

Definition apply_bridge_op (op : bridge_op) (b : bridge) : bridge :=
  match op with
  | Publish ts run_id event data => publish ts run_id event data b
  | PublishEnd run_id => publish_end run_id b
  | Subscribe run_id last_event_id => (subscribe run_id last_event_id b).2
  | Cleanup run_id => cleanup run_id b
  | Close => close b
  end.

Definition apply_bridge_ops (ops : list bridge_op) (b : bridge) : bridge :=
  foldl (fun b op => apply_bridge_op op b) b ops.

(** The events a step appends to the stream at an address, and the log of that
    stream: all of them, evicted ones included. *)
Definition appended (addr : nat) (op : bridge_op) (b : bridge) : list stream_event :=
  match op with
  | Publish ts run_id event data =>
      let '(addr', b1) := get_or_create_stream run_id b in
      if bool_decide (addr' = addr) then [mk_stream_event (next_id ts run_id b1).1 event data] else []
  | _ => []
  end.

Fixpoint stream_log (addr : nat) (ops : list bridge_op) (b : bridge) : list stream_event :=
  match ops with
  | [] => []
  | op :: ops' => appended addr op b ++ stream_log addr ops' (apply_bridge_op op b)
  end.

(** ** The invariant of a bridge *)

(** A stream retains the newest events of its log, at most the bound, and knows
    the offset of the first. *)
Definition stream_ok (maxsize : nat) (log : list stream_event) (st : run_stream) : Prop :=
  st_start_offset st = length log - maxsize /\ st_events st = drop (st_start_offset st) log.

Definition ids_ok (log : list stream_event) : Prop :=
  forall i e, log !! i = Some e -> exists ts, se_id e = event_id ts (N.of_nat i).

Record bridge_ok (logs : nat -> list stream_event) (b : bridge) : Prop := {
  bo_streams addr st : br_heap b !! addr = Some st -> stream_ok (br_maxsize b) (logs addr) st;
  bo_ids addr : ids_ok (logs addr);
  bo_fresh addr : (length (br_heap b) <= addr)%nat -> logs addr = [];
  bo_names run_id addr : dict_get run_id (br_streams b) = Some addr ->
    (addr < length (br_heap b))%nat /\ dict_get run_id (br_counters b) = Some (N.of_nat (length (logs addr)));
  bo_distinct r r' addr : dict_get r (br_streams b) = Some addr -> dict_get r' (br_streams b) = Some addr -> r = r'
}.

Lemma push_ok maxsize log entry st : stream_ok maxsize log st -> stream_ok maxsize (log ++ [entry]) (push maxsize entry st).
Proof.
  intros [H1 H2]. unfold stream_ok, push; simpl. rewrite !length_app, H2, length_drop, H1. simpl.
  split; [lia|]. rewrite <-(drop_app_le log) by lia. rewrite drop_drop. f_equal.
Qed.

Lemma new_bridge_ok maxsize : bridge_ok (fun _ => []) (new_bridge maxsize).
Proof. split; simpl; try done. Qed.

Lemma get_or_create_ok logs run_id b addr b1 :
  bridge_ok logs b -> get_or_create_stream run_id b = (addr, b1) ->
  bridge_ok logs b1 /\ br_maxsize b1 = br_maxsize b /\ dict_get run_id (br_streams b1) = Some addr
  /\ (forall a st, br_heap b !! a = Some st -> br_heap b1 !! a = Some st).
Proof.
  intros [B1 B2 B3 B4 B5] Hg. unfold get_or_create_stream in Hg.
  destruct (dict_get run_id (br_streams b)) as [a|] eqn:Hr; simplify_eq; [done|].
  split_and!; simpl; [|done|by rewrite dict_get_set_eq|intros a st Ha; by apply lookup_app_l_Some].
  split; simpl.
  - intros a st Ha. apply lookup_app_Some in Ha as [Ha|[Hle Ha]]; [by apply B1|].
    apply list_lookup_singleton_Some in Ha as [Ha <-]. rewrite (B3 a) by lia. done.
  - done.
  - intros a Ha. rewrite length_app in Ha; simpl in Ha. apply B3. lia.
  - intros r a. rewrite !dict_get_set, length_app. simpl. case_decide as Hd.
    + subst. intros [= <-]. split; [lia|]. by rewrite B3.
    + intros Ha. destruct (B4 r a Ha). split; [lia|done].
  - intros r r' a. rewrite !dict_get_set. case_decide as D1; case_decide as D2; intros E1 E2; simplify_eq; try done.
    + destruct (B4 _ _ E2). lia.
    + destruct (B4 _ _ E1). lia.
    + by eapply B5.
Qed.

(** What a step adds to the logs. *)
Definition extend (logs : nat -> list stream_event) (op : bridge_op) (b : bridge) (addr : nat) : list stream_event :=
  logs addr ++ appended addr op b.

Lemma apply_bridge_op_ok logs op b :
  bridge_ok logs b ->
  bridge_ok (extend logs op b) (apply_bridge_op op b) /\ br_maxsize (apply_bridge_op op b) = br_maxsize b.
Proof.
  intros Hb. destruct op as [ts run_id event data|run_id|run_id last|run_id|]; simpl.
  - unfold publish, extend; simpl. destruct (get_or_create_stream run_id b) as [addr b1] eqn:Hg.
    destruct (get_or_create_ok _ _ _ _ _ Hb Hg) as ([B1 B2 B3 B4 B5] & Hm & Hn & _).
    set (e := mk_stream_event _ event data). split; [|done]. split; simpl.
    + intros a st Ha. case_bool_decide as Hd.
      * subst a. rewrite list_lookup_alter_eq in Ha. apply fmap_Some in Ha as (st0 & Ha & ->). by apply push_ok, B1.
      * rewrite app_nil_r. rewrite list_lookup_alter_ne in Ha by done. by apply B1.
    + intros a i e' Hi. case_bool_decide as Hd; [|rewrite app_nil_r in Hi; by apply (B2 a)].
      apply lookup_app_Some in Hi as [Hi|[Hle Hi]]; [by apply (B2 a)|].
      apply list_lookup_singleton_Some in Hi as [Hi <-]. subst a. exists ts. unfold e; simpl.
      destruct (B4 _ _ Hn) as [_ ->]. simpl. f_equal. lia.
    + intros a. rewrite length_alter. intros Ha. rewrite B3 by done.
      destruct (B4 _ _ Hn) as [Hlt _]. rewrite bool_decide_eq_false_2 by lia. done.
    + intros r a Hr. rewrite length_alter. destruct (B4 _ _ Hr) as [Hlt Hc]. split; [done|]. rewrite dict_get_set.
      case_decide as Hd.
      * subst r. assert (a = addr) as -> by congruence. rewrite bool_decide_eq_true_2 by done.
        rewrite length_app, Hc. simpl. f_equal. lia.
      * rewrite bool_decide_eq_false_2, app_nil_r; [done|]. intros ->. apply Hd. by eapply B5.
    + done.
  - unfold publish_end, extend; simpl. destruct (get_or_create_stream run_id b) as [addr b1] eqn:Hg.
    destruct (get_or_create_ok _ _ _ _ _ Hb Hg) as ([B1 B2 B3 B4 B5] & Hm & Hn & _). split; [|done].
    split; simpl; intros *; rewrite ?app_nil_r, ?length_alter; eauto.
    intros Ha. destruct (decide (addr = addr0)) as [->|Hd].
    + rewrite list_lookup_alter_eq in Ha. apply fmap_Some in Ha as (st0 & Ha & ->). by apply (B1 _ _ Ha).
    + rewrite list_lookup_alter_ne in Ha by done. by apply B1.
  - unfold subscribe, extend; simpl. destruct (get_or_create_stream run_id b) as [addr b1] eqn:Hg.
    destruct (get_or_create_ok _ _ _ _ _ Hb Hg) as ([B1 B2 B3 B4 B5] & Hm & Hn & _). split; [|done].
    split; simpl; intros *; rewrite ?app_nil_r; eauto.
  - destruct Hb as [B1 B2 B3 B4 B5]. split; [|done]. unfold extend; simpl.
    split; simpl; intros *; rewrite ?app_nil_r; eauto; rewrite !dict_get_pop; repeat case_decide; try done; eauto.
  - destruct Hb as [B1 B2 B3 B4 B5]. split; [|done]. unfold extend; simpl.
    split; simpl; intros *; rewrite ?app_nil_r; eauto; done.
Qed.

Lemma bridge_ok_ext logs logs' b : (forall a, logs a = logs' a) -> bridge_ok logs b -> bridge_ok logs' b.
Proof.
  intros He [B1 B2 B3 B4 B5]. split; intros *; rewrite <-?He; eauto.
Qed.

Lemma apply_bridge_ops_ok ops logs b :
  bridge_ok logs b ->
  bridge_ok (fun a => logs a ++ stream_log a ops b) (apply_bridge_ops ops b)
  /\ br_maxsize (apply_bridge_ops ops b) = br_maxsize b.
Proof.
  revert logs b. induction ops as [|op ops IH]; intros logs b Hb.
  - split; [|done]. eapply bridge_ok_ext; [|exact Hb]. intros a. by rewrite app_nil_r.
  - destruct (apply_bridge_op_ok logs op b Hb) as [Hb1 Hm1].
    destruct (IH _ _ Hb1) as [Hb2 Hm2]. split; [|by rewrite <-Hm1, <-Hm2].
    eapply bridge_ok_ext; [|exact Hb2]. intros a. unfold extend. simpl. by rewrite app_assoc.
Qed.

(** ** Event ids *)

Fixpoint no_dash (s : string) : bool :=
  match s with
  | "" => true
  | String a s' => negb (Ascii.eqb a "-"%char) && no_dash s'
  end.

Lemma pretty_N_char_dash x : Ascii.eqb (pretty_N_char x) "-"%char = false.
Proof. unfold pretty_N_char. by repeat case_match. Qed.

Lemma pretty_N_go_no_dash x s : no_dash s = true -> no_dash (pretty_N_go x s) = true.
Proof.
  revert s. induction (N.lt_wf_0 x) as [x _ IH]; intros s Hs. destruct (decide (0 < x)%N) as [Hx|Hx].
  - rewrite pretty_N_go_step by done. apply IH; [by apply N.div_lt|]. simpl. by rewrite pretty_N_char_dash.
  - assert (x = 0)%N as -> by lia. by rewrite pretty_N_go_0.
Qed.

Lemma pretty_N_no_dash (n : N) : no_dash (pretty n) = true.
Proof. unfold pretty, pretty_N. case_decide; [done|]. by apply pretty_N_go_no_dash. Qed.

Lemma dash_split s1 s2 t1 t2 :
  no_dash s1 = true -> no_dash s2 = true -> s1 +:+ "-" +:+ t1 = s2 +:+ "-" +:+ t2 -> s1 = s2 /\ t1 = t2.
Proof.
  revert s2. induction s1 as [|x a IH]; intros [|y c] Ha Hc Heq; simpl in *; simplify_eq/=; try done.
  apply andb_true_iff in Ha as [? Ha]. apply andb_true_iff in Hc as [? Hc]. destruct (IH c Ha Hc) as [-> ->]; done.
Qed.

Lemma event_id_inj ts ts' i j : event_id ts i = event_id ts' j -> i = j.
Proof.
  unfold event_id. intros He. apply dash_split in He as [_ He]; [|apply pretty_N_no_dash..]. by apply (inj pretty) in He.
Qed.

Lemma event_id_nonempty ts i : String.eqb (event_id ts i) "" = false.
Proof. unfold event_id. by destruct (pretty ts). Qed.

(** ** A subscriber *)

(** The bridge, the log of the subscriber's stream, the subscriber, and the
    events it has yielded with their offsets. *)
Definition sub_config : Type := bridge * list stream_event * subscriber * list (nat * stream_event).

Definition received (y : option stream_event * subscriber) : list (nat * stream_event) :=
  match y with
  | (Some e, s') => if String.eqb (se_id e) "" then [] else [(sb_next_offset s' - 1, e)]
  | (None, _) => []
  end.

Inductive sub_step : sub_config -> sub_config -> Prop :=
| sub_other op b log s got :
    sub_step (b, log, s, got) (apply_bridge_op op b, log ++ appended (sb_stream s) op b, s, got)
| sub_turn timeout b log s got :
    sb_done s = false ->
    sub_step (b, log, s, got) (b, log, (turn timeout b s).2, got ++ received (turn timeout b s)).

(** Where the reader stands: offsets of [log] in order, each with its event,
    and any it has passed over is no longer retained. *)
Definition sub_inv (first : nat) (c : sub_config) : Prop :=
  let '(b, log, s, got) := c in
  (exists logs, bridge_ok logs b /\ logs (sb_stream s) = log /\ (sb_stream s < length (br_heap b))%nat)
  /\ (first <= sb_next_offset s <= length log)%nat
  /\ Forall (fun pe => log !! pe.1 = Some pe.2 /\ (first <= pe.1 < sb_next_offset s)%nat) got
  /\ StronglySorted lt got.*1
  /\ forall p, (first <= p < sb_next_offset s)%nat -> p ∈ got.*1 \/ (p < length log - br_maxsize b)%nat.

Lemma heap_grows op b : (length (br_heap b) <= length (br_heap (apply_bridge_op op b)))%nat.
Proof.
  assert (Hg : forall run_id addr b1, get_or_create_stream run_id b = (addr, b1) ->
    (length (br_heap b) <= length (br_heap b1))%nat).
  { intros run_id addr b1. unfold get_or_create_stream. destruct (dict_get _ _); intros [= <- <-]; [done|].
    simpl. rewrite length_app. lia. }
  destruct op as [ts run_id event data|run_id|run_id last|run_id|]; simpl; try done.
  - unfold publish. destruct (get_or_create_stream run_id b) as [addr b1] eqn:E. simpl. rewrite length_alter. eauto.
  - unfold publish_end. destruct (get_or_create_stream run_id b) as [addr b1] eqn:E. simpl. rewrite length_alter. eauto.
  - unfold subscribe. destruct (get_or_create_stream run_id b) as [addr b1] eqn:E. simpl. eauto.
Qed.

(** What a turn does, in terms of the log. *)
Lemma turn_spec logs timeout b s :
  bridge_ok logs b -> (sb_stream s < length (br_heap b))%nat ->
  let log := logs (sb_stream s) in
  let n := sb_next_offset s `max` (length log - br_maxsize b) in
  turn timeout b s =
    match log !! n with
    | Some e => (Some e, mk_sub (sb_stream s) (n + 1) (sb_done s))
    | None =>
        if st_ended (stream_at (sb_stream s) b) then (Some END_SENTINEL, mk_sub (sb_stream s) n true)
        else (if timeout then Some HEARTBEAT_SENTINEL else None, mk_sub (sb_stream s) n (sb_done s))
    end.
Proof.
  intros Hb Hlt log n. destruct (lookup_lt_is_Some_2 _ _ Hlt) as [st Hst].
  destruct (bo_streams _ _ Hb _ _ Hst) as [H1 H2]. unfold turn, stream_at. rewrite Hst. simpl.
  rewrite H2, lookup_drop. fold log in H1.
  assert (Hn : (if (sb_next_offset s <? st_start_offset st)%nat then st_start_offset st else sb_next_offset s) = n).
  { unfold n. destruct (Nat.ltb_spec (sb_next_offset s) (st_start_offset st)); lia. }
  rewrite Hn. replace (st_start_offset st + (n - st_start_offset st))%nat with n by (unfold n; lia).
  fold log. destruct (log !! n); [done|]. destruct (st_ended st); [done|]. by destruct timeout.
Qed.

Lemma sub_step_inv first c c' : sub_inv first c -> sub_step c c' -> sub_inv first c'.
Proof.
  intros Hinv Hstep. destruct Hstep as [op b log s got|timeout b log s got Hdone];
    destruct Hinv as ((logs & Hb & Hl & Hlt) & Hn & Hgot & Hsort & Hmiss).
  - destruct (apply_bridge_op_ok logs op b Hb) as [Hb' Hm]. split_and!.
    + exists (extend logs op b). split_and!; [done|unfold extend; by rewrite Hl|]. pose proof (heap_grows op b). lia.
    + lia.
    + rewrite length_app. lia.
    + eapply Forall_impl; [exact Hgot|]. intros pe [H1 H2]. split; [by apply lookup_app_l_Some|done].
    + done.
    + intros p Hp. rewrite Hm, length_app. destruct (Hmiss p Hp); [by left|right; lia].
  - rewrite (turn_spec logs) by done. rewrite Hl. set (n := sb_next_offset s `max` (length log - br_maxsize b)).
    destruct (log !! n) as [e|] eqn:He.
    + destruct (bo_ids _ _ Hb (sb_stream s) n e) as [ts Hid]; [by rewrite Hl|]. pose proof (lookup_lt_Some _ _ _ He) as Hnl.
      simpl. rewrite Hid, event_id_nonempty. replace (n + 1 - 1)%nat with n by lia. split_and!; simpl.
      * exists logs. by split_and!.
      * lia.
      * lia.
      * apply Forall_app. split; [|constructor; [simpl; split; [done|lia]|done]].
        eapply Forall_impl; [exact Hgot|]. intros pe [H1 H2]. split; [done|lia].
      * rewrite fmap_app. apply StronglySorted_app_2; [|done|repeat constructor].
        intros x y Hx Hy. simpl in Hy. apply list_elem_of_singleton in Hy as ->.
        apply list_elem_of_fmap in Hx as (pe & -> & Hpe). rewrite Forall_forall in Hgot. destruct (Hgot pe Hpe). lia.
      * intros p Hp. rewrite fmap_app. simpl. destruct (decide (p = n)) as [->|Hpn]; [left; set_solver|].
        destruct (decide (p < sb_next_offset s)%nat) as [Hps|Hps].
        -- destruct (Hmiss p) as [?|?]; [lia|left; set_solver|by right].
        -- right. lia.
    + apply lookup_ge_None in He. assert (Hn' : n = sb_next_offset s `max` (length log - br_maxsize b)) by done.
      assert (Hr : received (if st_ended (stream_at (sb_stream s) b) then (Some END_SENTINEL, mk_sub (sb_stream s) n true)
        else (if timeout then Some HEARTBEAT_SENTINEL else None, mk_sub (sb_stream s) n (sb_done s))) = []).
      { destruct (st_ended _); [done|]. by destruct timeout. }
      rewrite Hr, app_nil_r.
      destruct (st_ended (stream_at (sb_stream s) b)); simpl; split_and!; try done; try lia;
        try (exists logs; by split_and!).
      1,3: eapply Forall_impl; [exact Hgot|]; intros pe [H1 H2]; split; [done|lia].
      all: intros p Hp; destruct (decide (p < sb_next_offset s)%nat); [apply Hmiss; lia|right; lia].
Qed.

(** ** Subscription *)

Lemma index_of_Some id i events k :
  index_of id i events = Some k -> exists e, (i <= k)%nat /\ events !! (k - i) = Some e /\ se_id e = id.
Proof.
  revert i. induction events as [|e events IH]; intros i Hi; simpl in Hi; [done|].
  destruct (String.eqb_spec (se_id e) id) as [He|He].
  - simplify_eq. exists e. split; [lia|]. by rewrite Nat.sub_diag.
  - destruct (IH _ Hi) as (e' & Hle & Hl & Hid). exists e'. split; [lia|]. split; [|done].
    replace (k - i)%nat with (S (k - S i)) by lia. done.
Qed.

Lemma index_of_None id i events : index_of id i events = None -> Forall (fun e => se_id e <> id) events.
Proof.
  revert i. induction events as [|e events IH]; intros i Hi; simpl in Hi; [constructor|].
  destruct (String.eqb_spec (se_id e) id); [done|]. constructor; eauto.
Qed.

(** The offset a subscription starts at, in terms of the log. *)
Definition start_of (maxsize : nat) (log : list stream_event) (last_event_id : option string) (first : nat) : Prop :=
  let oldest := (length log - maxsize)%nat in
  (exists p e, last_event_id = Some (se_id e) /\ log !! p = Some e /\ (oldest <= p)%nat /\ first = (p + 1)%nat)
  \/ (first = oldest /\ forall p e, log !! p = Some e -> (oldest <= p)%nat -> last_event_id <> Some (se_id e)).

Lemma resolve_start_offset_spec maxsize log st last_event_id :
  stream_ok maxsize log st -> start_of maxsize log last_event_id (resolve_start_offset st last_event_id).
Proof.
  intros [H1 H2]. unfold start_of, resolve_start_offset. destruct last_event_id as [id|]; [|right; split; [done|by intros]].
  rewrite <-H1. destruct (index_of id 0 (st_events st)) as [k|] eqn:Hi.
  - left. destruct (index_of_Some _ _ _ _ Hi) as (e & _ & He & <-). rewrite H2, Nat.sub_0_r, lookup_drop in He.
    exists (st_start_offset st + k)%nat, e. split_and!; [done|done|lia|lia].
  - right. split; [done|]. intros p e He Hp [= ->]. apply index_of_None in Hi. rewrite H2 in Hi.
    rewrite Forall_forall in Hi. apply (Hi e); [|done].
    apply (list_elem_of_lookup_2 _ (p - st_start_offset st)). rewrite lookup_drop.
    by replace (st_start_offset st + (p - st_start_offset st))%nat with p by lia.
Qed.

Lemma start_of_le maxsize log last_event_id first : start_of maxsize log last_event_id first -> (first <= length log)%nat.
Proof. intros [(p & e & _ & He & _ & ->)|[-> _]]; [apply lookup_lt_Some in He|]; lia. Qed.

Lemma start_of_unique logs b addr last_event_id p e first :
  bridge_ok logs b -> logs addr !! p = Some e -> (length (logs addr) - br_maxsize b <= p)%nat ->
  last_event_id = Some (se_id e) -> start_of (br_maxsize b) (logs addr) last_event_id first -> first = (p + 1)%nat.
Proof.
  intros Hb Hp Hle -> [(q & e' & Hid & Hq & _ & ->)|[_ Hno]]; [|by destruct (Hno p e Hp Hle)].
  destruct (bo_ids _ _ Hb addr p e Hp) as [ts Ht]. destruct (bo_ids _ _ Hb addr q e' Hq) as [ts' Ht'].
  assert (Heq : event_id ts (N.of_nat p) = event_id ts' (N.of_nat q)) by congruence. apply event_id_inj in Heq. lia.
Qed.

(** The state right after a subscription. *)
Lemma subscribe_inv maxsize ops run_id last_event_id s0 b1 :
  let b0 := apply_bridge_ops ops (new_bridge maxsize) in
  subscribe run_id last_event_id b0 = (s0, b1) ->
  let log := stream_log (sb_stream s0) ops (new_bridge maxsize) in
  sub_inv (sb_next_offset s0) (b1, log, s0, []) /\ sb_done s0 = false /\ br_maxsize b1 = maxsize
  /\ start_of maxsize log last_event_id (sb_next_offset s0)
  /\ bridge_ok (fun a => stream_log a ops (new_bridge maxsize)) b1.
Proof.
  intros b0 Hs log. unfold subscribe in Hs. destruct (get_or_create_stream run_id b0) as [addr b1'] eqn:Hg. simplify_eq.
  destruct (apply_bridge_ops_ok ops _ _ (new_bridge_ok maxsize)) as [Hb0 Hm0]. fold b0 in Hb0, Hm0. simpl in Hb0, Hm0.
  destruct (get_or_create_ok _ _ _ _ _ Hb0 Hg) as (Hb1 & Hm & Hn & _).
  destruct (bo_names _ _ Hb1 _ _ Hn) as [Hlt _]. destruct (lookup_lt_is_Some_2 _ _ Hlt) as [st Hst].
  assert (Hstart : start_of maxsize log last_event_id (resolve_start_offset (stream_at addr b1) last_event_id)).
  { apply resolve_start_offset_spec. unfold stream_at. rewrite Hst. simpl.
    rewrite <-Hm0, <-Hm. apply (bo_streams _ _ Hb1 _ _ Hst). }
  split_and!; [|done|congruence|done|done]. unfold sub_inv; simpl. split_and!; simpl.
  - exists (fun a => stream_log a ops (new_bridge maxsize)). done.
  - done.
  - by apply start_of_le in Hstart.
  - constructor.
  - constructor.
  - intros; lia.
Qed.

Lemma sub_star_inv first c c' : sub_inv first c -> star sub_step c c' -> sub_inv first c'.
Proof. intros Hi Hs. induction Hs as [|? ? ? Hst _ IH]; [done|]. apply IH. by eapply sub_step_inv. Qed.

Lemma sub_step_maxsize c c' : sub_step c c' -> br_maxsize c'.1.1.1 = br_maxsize c.1.1.1.
Proof.
  assert (Hg : forall run_id b, br_maxsize (get_or_create_stream run_id b).2 = br_maxsize b).
  { intros run_id b. unfold get_or_create_stream. by destruct (dict_get _ _). }
  destruct 1 as [op b log s got|]; [|done]. simpl.
  destruct op as [ts run_id event data|run_id|run_id last|run_id|]; simpl; try done.
  - unfold publish. specialize (Hg run_id b). by destruct (get_or_create_stream run_id b).
  - unfold publish_end. specialize (Hg run_id b). by destruct (get_or_create_stream run_id b).
  - unfold subscribe. specialize (Hg run_id b). by destruct (get_or_create_stream run_id b).
Qed.

(** ** Delivery *)

(** Read until the end; one turn per event. *)
Fixpoint drain (fuel : nat) (b : bridge) (s : subscriber) : option (list stream_event) :=
  match fuel with
  | O => None
  | S fuel' =>
      let '(y, s') := turn false b s in
      if sb_done s' then Some []
      else match y with Some e => cons e <$> drain fuel' b s' | None => None end
  end.

Lemma drain_spec logs fuel b s :
  bridge_ok logs b -> (sb_stream s < length (br_heap b))%nat -> sb_done s = false ->
  st_ended (stream_at (sb_stream s) b) = true ->
  let log := logs (sb_stream s) in
  (length log - (sb_next_offset s `max` (length log - br_maxsize b)) < fuel)%nat ->
  drain fuel b s = Some (drop (sb_next_offset s `max` (length log - br_maxsize b)) log).
Proof.
  intros Hb. revert s. induction fuel as [|fuel IH]; intros s Hlt Hd He log Hf; [lia|].
  cbn [drain]. rewrite (turn_spec logs) by done. fold log. set (n := sb_next_offset s `max` (length log - br_maxsize b)) in *.
  destruct (log !! n) as [e|] eqn:Hn.
  - rewrite Hd. cbn [sb_done]. pose proof (lookup_lt_Some _ _ _ Hn). rewrite IH; simpl; fold log; try done.
    + replace ((n + 1) `max` (length log - br_maxsize b))%nat with (S n) by lia. by rewrite (drop_S _ _ _ Hn).
    + lia.
  - rewrite He. cbn [sb_done]. apply lookup_ge_None in Hn. by rewrite drop_ge.
Qed.

Lemma sub_star_maxsize c c' : star sub_step c c' -> br_maxsize c'.1.1.1 = br_maxsize c.1.1.1.
Proof. induction 1 as [|? ? ? Hst _ IH]; [done|]. by rewrite IH, (sub_step_maxsize _ _ Hst). Qed.

(** Strictly increasing positions that fill an interval are the interval. *)
Lemma sorted_interval l a n :
  StronglySorted lt l -> (forall p, p ∈ l <-> (a <= p < a + n)%nat) -> l = seq a n.
Proof.
  revert a l. induction n as [|n IH]; intros a l Hs Hl; simpl.
  - destruct l as [|x l]; [done|]. assert (Hx : x ∈ x :: l) by (by left). apply Hl in Hx. lia.
  - destruct l as [|x l]; [assert (Ha : a ∈ @nil nat) by (apply Hl; lia); by apply not_elem_of_nil in Ha|].
    inversion Hs as [|? ? Hs' Hall]; subst. rewrite Forall_forall in Hall.
    assert (x = a) as ->.
    { assert (Hx : x ∈ x :: l) by (by left). apply Hl in Hx. assert (Ha : a ∈ x :: l) by (apply Hl; lia).
      apply elem_of_cons in Ha as [->|Ha]; [done|]. specialize (Hall a Ha). lia. }
    f_equal. apply IH; [done|]. intros p. split.
    + intros Hp. specialize (Hall p Hp). assert (Hp' : p ∈ a :: l) by (by right). apply Hl in Hp'. lia.
    + intros Hp. assert (Hp' : p ∈ a :: l) by (apply Hl; lia). apply elem_of_cons in Hp' as [->|?]; [lia|done].
Qed.

Lemma positions_events (log : list stream_event) got a n :
  got.*1 = seq a n -> Forall (fun pe => log !! pe.1 = Some pe.2) got -> got.*2 = take n (drop a log).
Proof.
  revert a n. induction got as [|[p e] got IH]; intros a n Hp Hall; destruct n as [|n]; simplify_eq/=; [done|].
  inversion Hall as [|? ? He Hall']; simplify_eq/=. rewrite (drop_S _ _ _ He). simpl. f_equal. by apply IH.
Qed.

(** (C15) Delivery to a subscriber.  In any interleaving of publishers, other
    subscribers, clean-ups and its own turns, a subscriber that started at
    [first] yields events of its stream's log at strictly increasing offsets,
    each once; an event it has passed over is no longer among the retained
    ones, so that without overflow it has yielded exactly the published
    events in order; and the end is yielded only when the run has ended and
    everything published before has been yielded or evicted.  It starts right
    after the event its [last_event_id] names when that is retained, and with
    the oldest retained event otherwise. *)
Theorem stream_delivery maxsize ops run_id last_event_id s0 b1 b log s got :
  subscribe run_id last_event_id (apply_bridge_ops ops (new_bridge maxsize)) = (s0, b1) ->
  star sub_step (b1, stream_log (sb_stream s0) ops (new_bridge maxsize), s0, []) (b, log, s, got) ->
  let first := sb_next_offset s0 in
  StronglySorted lt got.*1
  /\ Forall (fun pe => log !! pe.1 = Some pe.2) got
  /\ (forall p, (first <= p < sb_next_offset s)%nat -> p ∈ got.*1 \/ (p < length log - maxsize)%nat)
  /\ ((length log <= first + maxsize)%nat -> got.*2 = take (sb_next_offset s - first) (drop first log))
  /\ (forall timeout s', turn timeout b s = (Some END_SENTINEL, s') ->
        st_ended (stream_at (sb_stream s) b) = true /\ sb_next_offset s' = length log)
  /\ start_of maxsize (stream_log (sb_stream s0) ops (new_bridge maxsize)) last_event_id first.
Proof.
  intros Hsub Hstar first. destruct (subscribe_inv _ _ _ _ _ _ Hsub) as (Hinv & _ & Hm & Hstart & _).
  pose proof (sub_star_maxsize _ _ Hstar) as Hm'. simpl in Hm'.
  destruct (sub_star_inv _ _ _ Hinv Hstar) as ((logs & Hb & Hl & Hlt) & Hn & Hgot & Hsort & Hmiss).
  fold first in Hn, Hgot, Hmiss. rewrite Hm', Hm in Hmiss.
  assert (Hev : Forall (fun pe => log !! pe.1 = Some pe.2) got) by (eapply Forall_impl; [exact Hgot|]; by intros ? [? _]).
  split_and!; try done.
  - intros Hroom. apply positions_events; [|done]. apply sorted_interval; [done|]. intros p. split.
    + intros Hp. apply list_elem_of_fmap in Hp as (pe & -> & Hpe). rewrite Forall_forall in Hgot.
      destruct (Hgot pe Hpe). lia.
    + intros Hp. destruct (Hmiss p) as [?|?]; [lia|done|lia].
  - intros timeout s' Hturn. rewrite (turn_spec logs) in Hturn by done. rewrite Hl in Hturn.
    destruct (log !! _) as [e|] eqn:He.
    + destruct (bo_ids _ _ Hb (sb_stream s) (sb_next_offset s `max` (length log - br_maxsize b)) e) as [ts Hid];
        [by rewrite Hl|]. injection Hturn as -> _.
      pose proof (event_id_nonempty ts (N.of_nat (sb_next_offset s `max` (length log - br_maxsize b)))) as Hne.
      by rewrite <-Hid in Hne.
    + destruct (st_ended _); [|by destruct timeout]. simplify_eq/=. apply lookup_ge_None in He. split; [done|lia].
Qed.

(** Every subscriber of an ended run reaches the end: in any reachable state,
    reading on yields exactly the retained events it has not passed, then the
    end, within one turn per event and one more.  And reconnecting with the id
    of a retained event resumes with the next one. *)
Theorem stream_drains maxsize ops run_id last_event_id s0 b1 b log s got :
  subscribe run_id last_event_id (apply_bridge_ops ops (new_bridge maxsize)) = (s0, b1) ->
  star sub_step (b1, stream_log (sb_stream s0) ops (new_bridge maxsize), s0, []) (b, log, s, got) ->
  (sb_done s = false -> st_ended (stream_at (sb_stream s) b) = true ->
     drain (1 + length log) b s = Some (drop (sb_next_offset s `max` (length log - maxsize)) log))
  /\ (forall p e, stream_log (sb_stream s0) ops (new_bridge maxsize) !! p = Some e ->
        (length (stream_log (sb_stream s0) ops (new_bridge maxsize)) - maxsize <= p)%nat ->
        last_event_id = Some (se_id e) -> sb_next_offset s0 = (p + 1)%nat).
Proof.
  intros Hsub Hstar. destruct (subscribe_inv _ _ _ _ _ _ Hsub) as (Hinv & _ & Hm & Hstart & Hb1).
  pose proof (sub_star_maxsize _ _ Hstar) as Hm'. simpl in Hm'. split.
  - intros Hd He. destruct (sub_star_inv _ _ _ Hinv Hstar) as ((logs & Hb & Hl & Hlt) & _).
    rewrite <-Hl, <-Hm, <-Hm'. apply drain_spec; [done..|lia].
  - intros p e Hp Hret Hid.
    refine (start_of_unique _ _ _ _ _ _ _ Hb1 Hp _ Hid _); by rewrite Hm.
Qed.

(** ** Examples *)

Definition demo_ops : list bridge_op :=
  [Publish 9 "r" "updates" (JNum 1); Publish 9 "r" "updates" (JNum 2); Publish 10 "r" "updates" (JNum 3)].

Definition demo_bridge : bridge := apply_bridge_ops demo_ops (new_bridge 2).
Definition demo_sub : subscriber * bridge := subscribe "r" (Some "9-1") demo_bridge.
Definition demo_log : list stream_event := stream_log (sb_stream demo_sub.1) demo_ops (new_bridge 2).

(** The subscriber reconnects after the second event, reads the third, and the
    run ends. *)
Definition demo_after : sub_config :=
  let b := publish_end "r" demo_sub.2 in
  (b, demo_log, (turn false demo_sub.2 demo_sub.1).2, received (turn false demo_sub.2 demo_sub.1)).

Lemma demo_sub_reachable : star sub_step (demo_sub.2, demo_log, demo_sub.1, []) demo_after.
Proof.
  eapply star_step; [apply (sub_turn false); vm_compute; reflexivity|].
  eapply star_step; [apply (sub_other (PublishEnd "r"))|]. unfold appended. rewrite app_nil_r. apply star_refl.
Qed.

Lemma stream_delivery_witness :
  StronglySorted lt demo_after.2.*1 /\ length demo_after.2 = 1%nat
  /\ start_of 2 demo_log (Some "9-1") (sb_next_offset demo_sub.1).
Proof.
  destruct (stream_delivery 2 demo_ops "r" (Some "9-1") demo_sub.1 demo_sub.2 demo_after.1.1.1 demo_after.1.1.2
    demo_after.1.2 demo_after.2 (surjective_pairing _) demo_sub_reachable) as (H1 & _ & _ & _ & _ & H2).
  split; [exact H1|]. split; [vm_compute; reflexivity|exact H2].
Defined.

Lemma stream_drains_witness :
  drain 4 demo_after.1.1.1 demo_after.1.2 = Some [] /\ sb_next_offset demo_sub.1 = 2%nat.
Proof.
  destruct (stream_drains 2 demo_ops "r" (Some "9-1") demo_sub.1 demo_sub.2 demo_after.1.1.1 demo_after.1.1.2
    demo_after.1.2 demo_after.2 (surjective_pairing _) demo_sub_reachable) as [H1 H2]. split.
  - refine (eq_trans (H1 _ _) _); vm_compute; reflexivity.
  - refine (H2 1%nat (mk_stream_event "9-1" "updates" (JNum 2)) _ _ _); vm_compute; [reflexivity|lia|reflexivity].
Defined.

(** A subscriber that comes after [cleanup] gets a stream of its own, which
    nothing ends: it waits for ever. *)
Example subscriber_after_cleanup_waits :
  let b := cleanup "r" (publish_end "r" demo_bridge) in
  let '(s, b') := subscribe "r" None b in
  turn false b' s = (None, s) /\ turn true b' s = (Some HEARTBEAT_SENTINEL, s).
Proof. vm_compute. repeat split. Qed.
