(* ===== verification/LoopDetection.v ===== *)
(** * The loop-detection middleware

    [agents/middlewares/loop_detection_middleware.py]: the guard of every agent
    that hashes the tool calls of each model response, warns when a set of
    calls repeats or a tool is called too often, and finally strips the tool
    calls so that the agent must answer.  Every method under the lock is one
    step; the synchronous and asynchronous hooks call the same methods.

    The JSON codec (with sorted keys), the text of a JSON value in an f-string
    and the MD5 fingerprint are parameters. *)
From S2P Require Import Prelude PyString PyList.
From stdpp Require Import pretty.
From Stdlib Require Import Ascii.
Local Open Scope string_scope.
Local Open Scope Z_scope.
Local Open Scope list_scope.

(** ** Data *)

(** A tool call; an absent name is [""] and absent arguments are [{}]. *)
Record tool_call : Type := mk_tool_call { tc_name : string; tc_args : json }.

Record chat_message : Type := mk_chat_message {
  cm_type : string;
  cm_name : option string;
  cm_content : json;
  cm_tool_calls : list tool_call;
  cm_additional_kwargs : list (string * json);
  cm_response_metadata : list (string * json)
}.

(** [runtime.context]. *)
Record runtime : Type := mk_runtime { rt_thread_id : option string; rt_run_id : option string }.

(** The constructor's arguments. *)
Record loop_config : Type := mk_loop_config {
  lc_warn_threshold : Z;
  lc_hard_limit : Z;
  lc_window_size : Z;
  lc_max_tracked_threads : Z;
  lc_tool_freq_warn : Z;
  lc_tool_freq_hard_limit : Z;
  lc_tool_freq_overrides : list (string * (Z * Z))
}.

(** [LoopDetectionConfig.validate_thresholds] and the field bounds. *)
Definition valid_config (c : loop_config) : bool :=
  (1 <=? lc_warn_threshold c) && (1 <=? lc_hard_limit c) && (1 <=? lc_window_size c)
  && (1 <=? lc_max_tracked_threads c) && (1 <=? lc_tool_freq_warn c) && (1 <=? lc_tool_freq_hard_limit c)
  && (lc_warn_threshold c <=? lc_hard_limit c) && (lc_tool_freq_warn c <=? lc_tool_freq_hard_limit c)
  && forallb (fun o => (1 <=? o.2.1) && (o.2.1 <=? o.2.2)) (lc_tool_freq_overrides c).

Definition _MAX_PENDING_WARNINGS_PER_RUN : Z := 4.

Definition pending_key_type : Type := string * string.

Record loop_state : Type := mk_loop_state {
  ls_history : list (string * list string);
  ls_warned : list (string * gset string);
  ls_tool_freq : list (string * list (string * Z));
  ls_tool_freq_warned : list (string * gset string);
  ls_pending_warnings : list (pending_key_type * list string);
  ls_touch_order : list (pending_key_type * unit)
}.

Definition new_loop_state : loop_state := mk_loop_state [] [] [] [] [] [].

Definition set_history h (s : loop_state) : loop_state :=
  mk_loop_state h (ls_warned s) (ls_tool_freq s) (ls_tool_freq_warned s) (ls_pending_warnings s) (ls_touch_order s).
Definition set_warned w (s : loop_state) : loop_state :=
  mk_loop_state (ls_history s) w (ls_tool_freq s) (ls_tool_freq_warned s) (ls_pending_warnings s) (ls_touch_order s).
Definition set_freq f fw (s : loop_state) : loop_state :=
  mk_loop_state (ls_history s) (ls_warned s) f fw (ls_pending_warnings s) (ls_touch_order s).
Definition set_pending p o (s : loop_state) : loop_state :=
  mk_loop_state (ls_history s) (ls_warned s) (ls_tool_freq s) (ls_tool_freq_warned s) p o.

(** ** Texts *)

Definition nl2 : string := String "010" (String "010" "").

Definition _WARNING_MSG : string :=
  "[LOOP DETECTED] You are repeating the same tool calls. Stop calling tools and produce your final answer now. If you cannot complete the task, summarize what you accomplished so far.".
Definition _HARD_STOP_MSG : string :=
  "[FORCED STOP] Repeated tool calls exceeded the safety limit. Producing final answer with results collected so far.".
Definition freq_warning_msg (tool_name : string) (count : Z) : string :=
  "[LOOP DETECTED] You have called " +:+ tool_name +:+ " " +:+ pretty count +:+ " times without producing a final answer. Stop calling tools and produce your final answer now. If you cannot complete the task, summarize what you accomplished so far.".
Definition freq_hard_stop_msg (tool_name : string) (count : Z) : string :=
  "[FORCED STOP] Tool " +:+ tool_name +:+ " called " +:+ pretty count +:+ " times — exceeded the per-tool safety limit. Producing final answer with results collected so far.".

(** ** Hashing *)

Section hashing.
Context (dumps : json -> string) (loads : string -> option json) (render : json -> string).
Context (py_int : string -> option Z) (fingerprint : list string -> string).

(** [_normalize_tool_call_args]. *)
Definition normalize_tool_call_args (raw_args : json) : list (string * json) * option string :=
  match raw_args with
  | JObj d => (d, None)
  | JStr s =>
      match loads s with
      | None => ([], Some s)
      | Some (JObj d) => (d, None)
      | Some parsed => ([], Some (dumps parsed))
      end
  | JNull => ([], None)
  | v => ([], Some (dumps v))
  end.

(** [int(v)], [None] when it raises. *)
Definition int_of (v : json) : option Z :=
  match v with
  | JNum z => Some z
  | JBool b => Some (if b then 1 else 0)
  | JStr s => py_int s
  | _ => None
  end.

(** [int(v) if v is not None else d], and [d] when the conversion raises. *)
Definition line_of (v : option json) (d : Z) : Z :=
  match v with
  | None | Some JNull => d
  | Some x => opt_or (int_of x) d
  end.

Definition salient_fields : list string := ["path"; "url"; "query"; "command"; "pattern"; "glob"; "cmd"].

(** [_stable_tool_key]. *)
Definition stable_tool_key (name : string) (args : list (string * json)) (fallback_key : option string) : string :=
  if String.eqb name "read_file" && bool_decide (fallback_key = None) then
    let path := match dict_get "path" args with Some v => if json_truthy v then render v else "" | None => "" end in
    let start_line := line_of (dict_get "start_line" args) 1 in
    let end_line := line_of (dict_get "end_line" args) start_line in
    let bucket_start := (Z.max (Z.min start_line end_line) 1 - 1) / 200 in
    let bucket_end := (Z.max (Z.max start_line end_line) 1 - 1) / 200 in
    path +:+ ":" +:+ pretty bucket_start +:+ "-" +:+ pretty bucket_end
  else if String.eqb name "write_file" || String.eqb name "str_replace" then
    match fallback_key with Some k => k | None => dumps (JObj args) end
  else
    let stable_args :=
      List.filter (fun p => match p.2 with JNull => false | _ => true end)
        (omap (fun f => (fun v => (f, v)) <$> dict_get f args) salient_fields) in
    match stable_args with
    | _ :: _ => dumps (JObj stable_args)
    | [] => match fallback_key with Some k => k | None => dumps (JObj args) end
    end.

Definition call_key (tc : tool_call) : string :=
  let '(args, fallback_key) := normalize_tool_call_args (tc_args tc) in
  tc_name tc +:+ ":" +:+ stable_tool_key (tc_name tc) args fallback_key.

(** [_hash_tool_calls]. *)
Definition hash_tool_calls (tool_calls : list tool_call) : string :=
  fingerprint (sort_by String.leb (call_key <$> tool_calls)).

(** ** Keys *)

Definition or_default (o : option string) : string := if truthy o then opt_or o "default" else "default".
Definition get_thread_id (rt : runtime) : string := or_default (rt_thread_id rt).
Definition get_run_id (rt : runtime) : string := or_default (rt_run_id rt).
Definition pending_key (rt : runtime) : pending_key_type := (get_thread_id rt, get_run_id rt).

(** ** Pending warnings *)

Definition drop_pending_key (key : pending_key_type) (s : loop_state) : loop_state :=
  set_pending (dict_pop key (ls_pending_warnings s)) (dict_pop key (ls_touch_order s)) s.

Definition drop_pending_where (p : pending_key_type -> bool) (s : loop_state) : loop_state :=
  foldl (fun s key => if p key then drop_pending_key key s else s) s (dict_keys (ls_pending_warnings s)).

Definition touch_pending_key (key : pending_key_type) (s : loop_state) : loop_state :=
  set_pending (ls_pending_warnings s) (dict_move_to_end key (dict_set key tt (ls_touch_order s))) s.

Context (cfg : loop_config).

Definition max_pending_warning_keys : Z := Z.max 1 (lc_max_tracked_threads cfg * 2).

Definition prune_pending (protected : pending_key_type) (s : loop_state) : loop_state :=
  let overflow := Z.of_nat (length (ls_touch_order s)) - max_pending_warning_keys in
  if overflow <=? 0 then s
  else
    let candidates := base.filter (fun key => key <> protected) (dict_keys (ls_touch_order s)) in
    foldl (fun s key => drop_pending_key key s) s (py_slice None (Some overflow) candidates).

(** [_queue_pending_warning]. *)
Definition queue_pending_warning (rt : runtime) (warning : string) (s : loop_state) : loop_state :=
  let key := pending_key rt in
  let warnings := opt_or (dict_get key (ls_pending_warnings s)) [] in
  let warnings := if bool_decide (warning ∈ warnings) then warnings else warnings ++ [warning] in
  let excess := Z.of_nat (length warnings) - _MAX_PENDING_WARNINGS_PER_RUN in
  let warnings := if 0 <? excess then drop (Z.to_nat excess) warnings else warnings in
  prune_pending key
    (touch_pending_key key (set_pending (dict_set key warnings (ls_pending_warnings s)) (ls_touch_order s) s)).

(** ** Tracking *)

(** One turn of [_evict_if_needed]: the least recently used thread. *)
Definition evict_one (s : loop_state) : loop_state :=
  match ls_history s with
  | [] => s
  | (evicted_id, _) :: rest =>
      let s1 := set_history rest s in
      let s2 := set_warned (dict_pop evicted_id (ls_warned s1)) s1 in
      let s3 := set_freq (dict_pop evicted_id (ls_tool_freq s2)) (dict_pop evicted_id (ls_tool_freq_warned s2)) s2 in
      drop_pending_where (fun key => String.eqb key.1 evicted_id) s3
  end.

Definition evict_if_needed (s : loop_state) : loop_state :=
  Nat.iter (Z.to_nat (Z.of_nat (length (ls_history s)) - lc_max_tracked_threads cfg)) evict_one s.

(** Layer 2: counts by tool name, up to the first limit that answers. *)
Definition freq_limits (name : string) : Z * Z :=
  match dict_get name (lc_tool_freq_overrides cfg) with
  | Some limits => limits
  | None => (lc_tool_freq_warn cfg, lc_tool_freq_hard_limit cfg)
  end.

Fixpoint freq_loop (tool_calls : list tool_call) (freq : list (string * Z)) (warned : gset string)
    : option (string * bool) * list (string * Z) * gset string :=
  match tool_calls with
  | [] => (None, freq, warned)
  | tc :: rest =>
      let name := tc_name tc in
      if String.eqb name "" then freq_loop rest freq warned
      else
        let tc_count := opt_or (dict_get name freq) 0 + 1 in
        let freq := dict_set name tc_count freq in
        let '(eff_warn, eff_hard) := freq_limits name in
        if eff_hard <=? tc_count then (Some (freq_hard_stop_msg name tc_count, true), freq, warned)
        else if (eff_warn <=? tc_count) && negb (bool_decide (name ∈ warned))
        then (Some (freq_warning_msg name tc_count, false), freq, {[name]} ∪ warned)
        else freq_loop rest freq warned
  end.

(** The tool calls [_track_and_check] looks at: those of a last message of the
    model. *)
Definition last_tool_calls (messages : list chat_message) : list tool_call :=
  match last messages with
  | Some m => if String.eqb (cm_type m) "ai" then cm_tool_calls m else []
  | None => []
  end.

(** The entry of the thread, most recently used. *)
Definition touch_thread (thread_id : string) (s : loop_state) : loop_state :=
  if dict_mem thread_id (ls_history s) then set_history (dict_move_to_end thread_id (ls_history s)) s
  else evict_if_needed (set_history (dict_set thread_id [] (ls_history s)) s).

(** [history.append(call_hash)], cut to the window. *)
Definition append_window (call_hash : string) (history : list string) : list string :=
  let history := history ++ [call_hash] in
  if lc_window_size cfg <? Z.of_nat (length history) then py_slice (Some (- lc_window_size cfg)) None history
  else history.

(** The history of the thread with the new hash, and what of the warned hashes
    is still in it. *)
Definition record_call (thread_id call_hash : string) (s : loop_state) : loop_state :=
  let s1 := touch_thread thread_id s in
  let history := append_window call_hash (opt_or (dict_get thread_id (ls_history s1)) []) in
  let s2 := set_history (dict_set thread_id history (ls_history s1)) s1 in
  match dict_get thread_id (ls_warned s2) with
  | None => s2
  | Some hashes =>
      let kept := hashes ∩ list_to_set history in
      if bool_decide (kept = ∅) then set_warned (dict_pop thread_id (ls_warned s2)) s2
      else set_warned (dict_set thread_id kept (ls_warned s2)) s2
  end.

Definition count_hash (h : string) (l : list string) : Z := Z.of_nat (length (List.filter (String.eqb h) l)).

(** [_track_and_check]: warning and hard stop. *)
Definition track_and_check (messages : list chat_message) (rt : runtime) (s : loop_state)
    : option string * bool * loop_state :=
  match last_tool_calls messages with
  | [] => (None, false, s)
  | tool_calls =>
      let thread_id := get_thread_id rt in
      let call_hash := hash_tool_calls tool_calls in
      let s1 := record_call thread_id call_hash s in
      let history := opt_or (dict_get thread_id (ls_history s1)) [] in
      let count := count_hash call_hash history in
      let warned := opt_or (dict_get thread_id (ls_warned s1)) ∅ in
      if lc_hard_limit cfg <=? count then (Some _HARD_STOP_MSG, true, s1)
      else if (lc_warn_threshold cfg <=? count) && negb (bool_decide (call_hash ∈ warned)) then
        (Some _WARNING_MSG, false, set_warned (dict_set thread_id ({[call_hash]} ∪ warned) (ls_warned s1)) s1)
      else
        let '(answer, freq, fwarned) :=
          freq_loop tool_calls (opt_or (dict_get thread_id (ls_tool_freq s1)) [])
            (opt_or (dict_get thread_id (ls_tool_freq_warned s1)) ∅) in
        let s2 := set_freq (dict_set thread_id freq (ls_tool_freq s1))
                    (if bool_decide (fwarned = ∅) then ls_tool_freq_warned s1
                     else dict_set thread_id fwarned (ls_tool_freq_warned s1)) s1 in
        match answer with
        | Some (msg, hard) => (Some msg, hard, s2)
        | None => (None, false, s2)
        end
  end.

(** ** Answers *)

(** [_append_text]. *)
Definition append_text (content : json) (text : string) : json :=
  match content with
  | JNull => JStr text
  | JArr l => JArr (l ++ [JObj [("type", JStr "text"); ("text", JStr (nl2 +:+ text))]])
  | JStr s => JStr (s +:+ nl2 +:+ text)
  | v => JStr (render v +:+ nl2 +:+ text)
  end.

(** [last_msg.model_copy(update=_build_hard_stop_update(...))]. *)
Definition hard_stop_message (m : chat_message) (content : json) : chat_message :=
  mk_chat_message (cm_type m) (cm_name m) content []
    (dict_pop "function_call" (dict_pop "tool_calls" (cm_additional_kwargs m)))
    (match dict_get "finish_reason" (cm_response_metadata m) with
     | Some (JStr reason) =>
         if String.eqb reason "tool_calls" then dict_set "finish_reason" (JStr "stop") (cm_response_metadata m)
         else cm_response_metadata m
     | _ => cm_response_metadata m
     end).

(** [_apply], the body of [after_model]: the replacement of the last message. *)
Definition after_model (messages : list chat_message) (rt : runtime) (s : loop_state)
    : option chat_message * loop_state :=
  let '(warning, hard_stop, s1) := track_and_check messages rt s in
  if hard_stop then
    match last messages with
    | Some m =>
        (Some (hard_stop_message m
           (append_text (cm_content m) (if truthy warning then opt_or warning "" else _HARD_STOP_MSG))), s1)
    | None => (None, s1)
    end
  else
    match warning with
    | Some w => if String.eqb w "" then (None, s1) else (None, queue_pending_warning rt w s1)
    | None => (None, s1)
    end.

Definition before_agent (rt : runtime) (s : loop_state) : loop_state :=
  let '(thread_id, run_id) := pending_key rt in
  drop_pending_where (fun key => String.eqb key.1 thread_id && negb (String.eqb key.2 run_id)) s.

Definition after_agent (rt : runtime) (s : loop_state) : loop_state := drop_pending_key (pending_key rt) s.

(** [list(dict.fromkeys(l))]. *)
Fixpoint dedup (seen : list string) (l : list string) : list string :=
  match l with
  | [] => []
  | x :: l' => if bool_decide (x ∈ seen) then dedup seen l' else x :: dedup (seen ++ [x]) l'
  end.

Definition format_warning_message (warnings : list string) : string := String.concat nl2 (dedup [] warnings).

(** [_augment_request], what [wrap_model_call] hands to the model. *)
Definition augment_request (rt : runtime) (messages : list chat_message) (s : loop_state)
    : list chat_message * loop_state :=
  let key := pending_key rt in
  let warnings := opt_or (dict_get key (ls_pending_warnings s)) [] in
  let s1 := drop_pending_key key s in
  match warnings with
  | [] => (messages, s1)
  | _ =>
      (messages ++ [mk_chat_message "human" (Some "loop_warning") (JStr (format_warning_message warnings)) [] [] []], s1)
  end.

Definition reset (thread_id : option string) (s : loop_state) : loop_state :=
  if truthy thread_id then
    let t := opt_or thread_id "" in
    let s1 := set_history (dict_pop t (ls_history s)) s in
    let s2 := set_warned (dict_pop t (ls_warned s1)) s1 in
    let s3 := set_freq (dict_pop t (ls_tool_freq s2)) (dict_pop t (ls_tool_freq_warned s2)) s2 in
    drop_pending_where (fun key => String.eqb key.1 t) s3
  else new_loop_state.

(** ** Histories of calls *)

Inductive loop_op : Type :=
| BeforeAgent (rt : runtime)
| AfterModel (messages : list chat_message) (rt : runtime)
| AfterAgent (rt : runtime)
| WrapModelCall (rt : runtime) (messages : list chat_message)
| Reset (thread_id : option string).

Definition apply_loop_op (op : loop_op) (s : loop_state) : loop_state :=
  match op with
  | BeforeAgent rt => before_agent rt s
  | AfterModel messages rt => (after_model messages rt s).2
  | AfterAgent rt => after_agent rt s
  | WrapModelCall rt messages => (augment_request rt messages s).2
  | Reset t => reset t s
  end.

Definition apply_loop_ops (ops : list loop_op) (s : loop_state) : loop_state :=
  foldl (fun s op => apply_loop_op op s) s ops.
End hashing.
