(* ===== verification/LoopProps.v ===== *)
(** * What the loop detector promises

    The state stays within the configured bounds under any sequence of hooks,
    the history of a thread is the latest window of its responses, a set of
    calls that repeats up to the hard limit is stripped from the response, and
    a warning reaches the next request once. *)
From S2P Require Import Prelude PyString PyList LoopDetection.
Local Open Scope string_scope.
Local Open Scope Z_scope.
Local Open Scope list_scope.

(** ** Invariants *)

(** Threads, their windows, and the side tables that follow them. *)
Definition tracking_ok (c : loop_config) (s : loop_state) : Prop :=
  dict_wf (ls_history s)
  /\ (forall t h, dict_get t (ls_history s) = Some h -> Z.of_nat (length h) <= lc_window_size c)
  /\ (forall t, is_Some (dict_get t (ls_warned s)) -> is_Some (dict_get t (ls_history s)))
  /\ (forall t, is_Some (dict_get t (ls_tool_freq s)) -> is_Some (dict_get t (ls_history s)))
  /\ (forall t, is_Some (dict_get t (ls_tool_freq_warned s)) -> is_Some (dict_get t (ls_history s))).

(** Pending warnings and the order in which their keys were touched. *)
Definition pending_ok (s : loop_state) : Prop :=
  dict_wf (ls_pending_warnings s) /\ dict_wf (ls_touch_order s)
  /\ (forall k, dict_get k (ls_touch_order s) = None <-> dict_get k (ls_pending_warnings s) = None)
  /\ (forall k ws, dict_get k (ls_pending_warnings s) = Some ws ->
        NoDup ws /\ 1 <= Z.of_nat (length ws) <= _MAX_PENDING_WARNINGS_PER_RUN).

Definition same_tracking (s s' : loop_state) : Prop :=
  ls_history s' = ls_history s /\ ls_warned s' = ls_warned s
  /\ ls_tool_freq s' = ls_tool_freq s /\ ls_tool_freq_warned s' = ls_tool_freq_warned s.

(** The whole invariant: the configured bounds included. *)
Definition loop_ok (c : loop_config) (s : loop_state) : Prop :=
  tracking_ok c s /\ pending_ok s
  /\ Z.of_nat (length (ls_history s)) <= lc_max_tracked_threads c
  /\ Z.of_nat (length (ls_touch_order s)) <= max_pending_warning_keys c.

(** ** Pending warnings *)

Lemma same_tracking_refl s : same_tracking s s.
Proof. by repeat split. Qed.

Lemma same_tracking_trans s1 s2 s3 : same_tracking s1 s2 -> same_tracking s2 s3 -> same_tracking s1 s3.
Proof. intros (?&?&?&?) (?&?&?&?). repeat split; congruence. Qed.

Lemma same_tracking_ok c s s' : same_tracking s s' -> tracking_ok c s -> tracking_ok c s'.
Proof. intros (E1&E2&E3&E4). unfold tracking_ok. by rewrite E1, E2, E3, E4. Qed.

(** [s'] drops pending keys of [s] and nothing else. *)
Definition drops (s s' : loop_state) : Prop :=
  same_tracking s s' /\ (pending_ok s -> pending_ok s')
  /\ (length (ls_touch_order s') <= length (ls_touch_order s))%nat.

Lemma drops_refl s : drops s s.
Proof. split; [apply same_tracking_refl|]. split; [done|lia]. Qed.

Lemma drops_trans s1 s2 s3 : drops s1 s2 -> drops s2 s3 -> drops s1 s3.
Proof.
  intros (?&?&?) (?&?&?). split; [by eapply same_tracking_trans|]. split; [auto|lia].
Qed.

Lemma drop_pending_key_drops key s : drops s (drop_pending_key key s).
Proof.
  split; [by repeat split|]. split; [|apply dict_length_pop_le].
  intros (Hp & Ho & Hk & Hw). unfold drop_pending_key, pending_ok; simpl.
  split_and!; auto with py.
  - intros k. rewrite !dict_get_pop. by case_decide.
  - intros k ws. rewrite dict_get_pop. case_decide; [done|]. apply Hw.
Qed.

Lemma foldl_drops {A} (f : loop_state -> A -> loop_state) l s :
  (forall s x, drops s (f s x)) -> drops s (foldl f s l).
Proof.
  intros Hf. revert s. induction l as [|x l IH]; intros s; simpl; [apply drops_refl|].
  eapply drops_trans; [apply Hf|apply IH].
Qed.

Lemma drop_pending_where_drops p s : drops s (drop_pending_where p s).
Proof.
  apply foldl_drops. intros s' x. destruct (p x); [apply drop_pending_key_drops|apply drops_refl].
Qed.

Lemma drops_ok c s s' : drops s s' -> loop_ok c s -> loop_ok c s'.
Proof.
  intros (Ht & Hp & Hl) (Ht' & Hp' & Hh & Ho). split; [by eapply same_tracking_ok|].
  split; [auto|]. destruct Ht as (-> & _). split; [done|lia].
Qed.

Lemma touched_pending key ws s :
  pending_ok s -> NoDup ws -> 1 <= Z.of_nat (length ws) <= _MAX_PENDING_WARNINGS_PER_RUN ->
  pending_ok (touch_pending_key key (set_pending (dict_set key ws (ls_pending_warnings s)) (ls_touch_order s) s)).
Proof.
  intros (Hp & Ho & Hk & Hw) Hn Hl. unfold touch_pending_key, pending_ok; simpl.
  split_and!; auto with py.
  - intros k. rewrite dict_get_move, !dict_get_set. by case_decide.
  - intros k ws'. rewrite dict_get_set. case_decide; [by intros [= <-]|apply Hw].
Qed.

Lemma prune_drops c key s : drops s (prune_pending c key s).
Proof.
  unfold prune_pending. case_match; [apply drops_refl|]. apply foldl_drops. intros. apply drop_pending_key_drops.
Qed.

(** Pruning removes the one key that a queued warning adds over the bound. *)
Lemma prune_bound c key s :
  dict_wf (ls_touch_order s) ->
  Z.of_nat (length (ls_touch_order s)) <= max_pending_warning_keys c + 1 ->
  Z.of_nat (length (ls_touch_order (prune_pending c key s))) <= max_pending_warning_keys c.
Proof.
  intros Hwf Hl. unfold prune_pending. case_match; reflect_bools; [lia|].
  replace (Z.of_nat (length (ls_touch_order s)) - max_pending_warning_keys c) with 1 by lia.
  rewrite py_slice_first by lia. change (Z.to_nat 1) with 1%nat.
  destruct (base.filter _ (dict_keys (ls_touch_order s))) as [|k ks] eqn:E; simpl.
  - assert (Hone : (length (ls_touch_order s) <= 1)%nat); [|unfold max_pending_warning_keys in *; lia].
    unfold dict_wf, dict_keys in *. rewrite <-(length_fmap fst).
    destruct (ls_touch_order s).*1 as [|a [|b l]]; simpl; [lia..|]. exfalso.
    inversion Hwf as [|? ? Ha]; subst.
    destruct (decide (a <> key)) as [Hk|Hk%dec_stable].
    + by rewrite filter_cons_True in E.
    + rewrite filter_cons_False in E by tauto. subst a.
      rewrite filter_cons_True in E; [done|]. intros ->. apply Ha. by left.
  - assert (Hk : k ∈ dict_keys (ls_touch_order s)).
    { assert (k ∈ k :: ks) as Hin by left. rewrite <-E in Hin. by apply list_elem_of_filter in Hin as [_ ?]. }
    apply dict_get_is_Some, dict_length_pop_lt in Hk. lia.
Qed.

Lemma queued_list (ws : list string) w :
  NoDup ws -> Z.of_nat (length ws) <= _MAX_PENDING_WARNINGS_PER_RUN ->
  let ws1 := if bool_decide (w ∈ ws) then ws else ws ++ [w] in
  let excess := Z.of_nat (length ws1) - _MAX_PENDING_WARNINGS_PER_RUN in
  let ws2 := if 0 <? excess then drop (Z.to_nat excess) ws1 else ws1 in
  NoDup ws2 /\ w ∈ ws2 /\ 1 <= Z.of_nat (length ws2) <= _MAX_PENDING_WARNINGS_PER_RUN.
Proof.
  intros Hn Hl. unfold _MAX_PENDING_WARNINGS_PER_RUN in *. case_bool_decide as Hw; simpl.
  - rewrite (proj2 (Z.ltb_ge _ _)) by lia. split; [done|]. split; [done|].
    destruct ws; [by apply not_elem_of_nil in Hw|simpl in *; lia].
  - assert (Hn' : NoDup (ws ++ [w])).
    { apply NoDup_app. split; [done|]. split; [|apply NoDup_singleton]. intros x ? ->%list_elem_of_singleton. done. }
    rewrite length_app; simpl. case_match; reflect_bools.
    + replace (Z.to_nat _) with 1%nat by lia.
      destruct ws as [|x ws]; simpl in *; [lia|]. apply NoDup_cons in Hn' as [_ ?].
      rewrite drop_0. split; [done|]. split; [set_solver|]. rewrite length_app; simpl; lia.
    + split; [done|]. split; [set_solver|]. rewrite length_app; simpl; lia.
Qed.

Lemma queue_pending_ok c rt w s : loop_ok c s -> loop_ok c (queue_pending_warning c rt w s).
Proof.
  intros (Ht & Hp & Hh & Ho). unfold queue_pending_warning. cbv zeta.
  set (ws0 := opt_or (dict_get (pending_key rt) (ls_pending_warnings s)) []).
  assert (Hws : NoDup ws0 /\ Z.of_nat (length ws0) <= _MAX_PENDING_WARNINGS_PER_RUN).
  { subst ws0. destruct Hp as (_ & _ & _ & Hw).
    destruct (dict_get (pending_key rt) (ls_pending_warnings s)) eqn:E; simpl.
    - destruct (Hw _ _ E) as [? ?]. split; [done|lia].
    - split; [constructor|unfold _MAX_PENDING_WARNINGS_PER_RUN; lia]. }
  destruct (queued_list ws0 w) as (Hn & _ & Hl); [tauto..|]. cbv zeta in Hn, Hl.
  set (ws2 := if 0 <? _ then _ else _) in *.
  set (s1 := touch_pending_key _ _).
  assert (Hs1 : pending_ok s1) by (by apply touched_pending).
  destruct (prune_drops c (pending_key rt) s1) as (Htr & Hpp & _).
  split; [eapply same_tracking_ok; [exact Htr|]; eapply same_tracking_ok; [|exact Ht]; by repeat split|].
  split; [auto|]. split; [destruct Htr as [-> _]; done|].
  apply prune_bound; [apply Hs1|]. subst s1. unfold touch_pending_key. simpl.
  pose proof (dict_length_move (pending_key rt) (dict_set (pending_key rt) tt (ls_touch_order s))
    ltac:(apply dict_wf_set, Hp)) as Hm.
  pose proof (dict_length_set (pending_key rt) tt (ls_touch_order s)). lia.
Qed.

(** ** Tracking *)

Lemma evict_one_tracking c s : tracking_ok c s -> tracking_ok c (evict_one s).
Proof.
  intros (Hwf & Hh & Hw & Hf & Hfw). unfold evict_one. destruct (ls_history s) as [|[e h] rest] eqn:E.
  { unfold tracking_ok. by rewrite E. }
  eapply same_tracking_ok; [apply drop_pending_where_drops|]. unfold tracking_ok; simpl.
  assert (Hget : forall t, dict_get t rest = if decide (e = t) then None else dict_get t ((e, h) :: rest)).
  { intros t. by apply dict_get_tail. }
  split_and!.
  - by inversion Hwf.
  - intros t h'. rewrite Hget. case_decide; [done|]. apply Hh.
  - intros t. rewrite Hget, dict_get_pop. case_decide; [by intros []|]. apply Hw.
  - intros t. rewrite Hget, dict_get_pop. case_decide; [by intros []|]. apply Hf.
  - intros t. rewrite Hget, dict_get_pop. case_decide; [by intros []|]. apply Hfw.
Qed.

Lemma evict_one_history s : ls_history (evict_one s) = drop 1 (ls_history s).
Proof.
  unfold evict_one. destruct (ls_history s) as [|[e h] rest] eqn:E; [done|].
  match goal with |- ls_history (drop_pending_where ?p ?x) = _ => destruct (drop_pending_where_drops p x) as [[-> _] _] end.
  simpl. by rewrite drop_0.
Qed.

Lemma evict_one_pending s : pending_ok s -> pending_ok (evict_one s).
Proof.
  unfold evict_one. destruct (ls_history s) as [|[e h] rest]; [done|]. intros Hp.
  apply drop_pending_where_drops. exact Hp.
Qed.

Lemma evict_one_touch s : (length (ls_touch_order (evict_one s)) <= length (ls_touch_order s))%nat.
Proof.
  unfold evict_one. destruct (ls_history s) as [|[e h] rest]; [done|].
  match goal with |- context [drop_pending_where ?p ?x] => destruct (drop_pending_where_drops p x) as (_ & _ & Hl) end.
  exact Hl.
Qed.

Lemma evicted c n s :
  tracking_ok c s -> pending_ok s ->
  tracking_ok c (Nat.iter n evict_one s) /\ pending_ok (Nat.iter n evict_one s)
  /\ ls_history (Nat.iter n evict_one s) = drop n (ls_history s)
  /\ (length (ls_touch_order (Nat.iter n evict_one s)) <= length (ls_touch_order s))%nat.
Proof.
  intros Ht Hp. induction n as [|n (IHt & IHp & IHh & IHl)]; simpl; [by rewrite drop_0|].
  split_and!.
  - by apply evict_one_tracking.
  - by apply evict_one_pending.
  - rewrite evict_one_history, IHh, drop_drop. f_equal. lia.
  - pose proof (evict_one_touch (Nat.iter n evict_one s)). lia.
Qed.

Lemma dict_get_drop_None {V} t n (d : list (string * V)) : dict_get t d = None -> dict_get t (drop n d) = None.
Proof.
  rewrite !dict_get_None. unfold dict_keys. intros Hn Hin. apply Hn.
  rewrite <-(take_drop n d), fmap_app. apply elem_of_app. by right.
Qed.

Lemma set_window_tracking c t h s :
  Z.of_nat (length h) <= lc_window_size c -> tracking_ok c s ->
  tracking_ok c (set_history (dict_set t h (ls_history s)) s).
Proof.
  intros Hl (Hwf & Hh & Hw & Hf & Hfw). unfold tracking_ok; simpl. split_and!; auto with py; intros t'.
  - intros h'. rewrite dict_get_set. case_decide; [by intros [= <-]|apply Hh].
  - rewrite dict_get_set. case_decide; [by eexists|apply Hw].
  - rewrite dict_get_set. case_decide; [by eexists|apply Hf].
  - rewrite dict_get_set. case_decide; [by eexists|apply Hfw].
Qed.

(** The thread is tracked afterwards with the history it had; other threads
    keep theirs unless there are too many. *)
Lemma touch_thread_spec c t s :
  1 <= lc_max_tracked_threads c -> loop_ok c s -> 0 <= lc_window_size c ->
  loop_ok c (touch_thread c t s)
  /\ dict_get t (ls_history (touch_thread c t s)) = Some (opt_or (dict_get t (ls_history s)) [])
  /\ (Z.of_nat (length (dict_set t [] (ls_history s))) <= lc_max_tracked_threads c ->
      forall t', t' <> t -> dict_get t' (ls_history (touch_thread c t s)) = dict_get t' (ls_history s)).
Proof.
  intros Hmax (Ht & Hp & Hlen & Ho) Hwin. unfold touch_thread, dict_mem.
  destruct (dict_get t (ls_history s)) as [h|] eqn:E; simpl.
  - split; [|split; [by rewrite dict_get_move|intros; by rewrite dict_get_move]].
    destruct Ht as (Hwf & Hh & Hw & Hf & Hfw).
    split; [|split; [exact Hp|split; [|exact Ho]]]; simpl.
    + unfold tracking_ok; simpl. split_and!; auto with py; intros ?; rewrite dict_get_move; eauto.
    + pose proof (dict_length_move t (ls_history s) Hwf). lia.
  - set (s1 := set_history (dict_set t [] (ls_history s)) s).
    assert (Hs1 : tracking_ok c s1) by (apply set_window_tracking; [simpl; lia|done]).
    unfold evict_if_needed. set (n := Z.to_nat _).
    destruct (evicted c n s1 Hs1 Hp) as (Ht1 & Hp1 & Hh1 & Hl1).
    assert (Hn : (n <= length (ls_history s))%nat).
    { subst n. simpl. rewrite dict_set_fresh by done. rewrite length_app. simpl. lia. }
    rewrite Hh1. split; [split; [exact Ht1|split; [exact Hp1|split]]|split].
    + rewrite Hh1, length_drop. subst n. simpl. lia.
    + etrans; [|exact Ho]. simpl in Hl1. lia.
    + simpl. rewrite dict_set_fresh by done. rewrite drop_app_le by done.
      rewrite dict_get_snoc; [by rewrite decide_True|].
      by apply dict_get_drop_None.
    + simpl. intros Hle t' Hne. subst n. simpl.
      replace (Z.to_nat _) with 0%nat by lia. rewrite drop_0. by rewrite dict_get_set_ne by congruence.
Qed.

Lemma append_window_spec c h l :
  1 <= lc_window_size c -> append_window c h l = latest (Z.to_nat (lc_window_size c)) (l ++ [h]).
Proof.
  intros Hw. unfold append_window. case_match; reflect_bools.
  - apply py_slice_last. lia.
  - rewrite latest_ge; [done|lia].
Qed.

(** Side tables: updating the entry of a tracked thread. *)
Lemma set_warned_tracking c t w s :
  is_Some (dict_get t (ls_history s)) -> tracking_ok c s ->
  tracking_ok c (set_warned (dict_set t w (ls_warned s)) s).
Proof.
  intros Ht (Hwf & Hh & Hw & Hf & Hfw). unfold tracking_ok; simpl. split_and!; auto.
  intros t'. rewrite dict_get_set. case_decide; [by subst|apply Hw].
Qed.

Lemma pop_warned_tracking c t s :
  tracking_ok c s -> tracking_ok c (set_warned (dict_pop t (ls_warned s)) s).
Proof.
  intros (Hwf & Hh & Hw & Hf & Hfw). unfold tracking_ok; simpl. split_and!; auto.
  intros t'. rewrite dict_get_pop. case_decide; [by intros []|apply Hw].
Qed.

Lemma record_call_spec c t h s :
  1 <= lc_max_tracked_threads c -> 1 <= lc_window_size c -> loop_ok c s ->
  loop_ok c (record_call c t h s)
  /\ dict_get t (ls_history (record_call c t h s))
     = Some (latest (Z.to_nat (lc_window_size c)) (opt_or (dict_get t (ls_history s)) [] ++ [h]))
  /\ (Z.of_nat (length (dict_set t [] (ls_history s))) <= lc_max_tracked_threads c ->
      forall t', t' <> t -> dict_get t' (ls_history (record_call c t h s)) = dict_get t' (ls_history s)).
Proof.
  intros Hmax Hwin Hok. destruct (touch_thread_spec c t s) as (Hok1 & Hget & Hoth); [done..|lia|].
  unfold record_call. rewrite Hget. simpl. rewrite append_window_spec by done.
  set (h' := latest _ _). set (s2 := set_history _ _).
  assert (Hok2 : loop_ok c s2).
  { destruct Hok1 as (Ht & Hp & Hl & Ho). split; [|split; [exact Hp|split; [|exact Ho]]].
    - apply set_window_tracking; [|done]. subst h'. rewrite latest_length. lia.
    - subst s2. simpl. rewrite dict_length_set_mem; [done|]. by rewrite Hget. }
  assert (Hg2 : dict_get t (ls_history s2) = Some h') by apply dict_get_set_eq.
  assert (Ho2 : forall t', t' <> t -> dict_get t' (ls_history s2) = dict_get t' (ls_history (touch_thread c t s))).
  { intros t' Hne. apply dict_get_set_ne. congruence. }
  destruct Hok2 as (Ht & Hp & Hl & Ho).
  destruct (dict_get t (ls_warned (touch_thread c t s))) as [ws|] eqn:Ew; [case_bool_decide|]; simpl.
  - split; [|split; [exact Hg2|intros; rewrite Ho2; auto]].
    split; [by apply (pop_warned_tracking c t s2)|done].
  - split; [|split; [exact Hg2|intros; rewrite Ho2; auto]].
    split; [apply (set_warned_tracking c t _ s2); [by rewrite Hg2|done]|done].
  - split; [done|]. split; [exact Hg2|intros; rewrite Ho2; auto].
Qed.

Lemma set_freq_tracking c t f fw s :
  is_Some (dict_get t (ls_history s)) -> tracking_ok c s ->
  (forall t', is_Some (dict_get t' fw) -> t' = t \/ is_Some (dict_get t' (ls_tool_freq_warned s))) ->
  tracking_ok c (set_freq (dict_set t f (ls_tool_freq s)) fw s).
Proof.
  intros Ht (Hwf & Hh & Hw & Hf & Hfw) Hfw'. unfold tracking_ok; simpl. split_and!; auto.
  - intros t'. rewrite dict_get_set. case_decide; [by subst|apply Hf].
  - intros t' [->|Hs]%Hfw'; auto.
Qed.

Lemma reset_thread_ok c t s : loop_ok c s -> loop_ok c (reset (Some t) s).
Proof.
  intros Hok. unfold reset. destruct (truthy (Some t)) eqn:Et; simpl.
  2: { split; [repeat split; simpl; try done; try constructor; by intros ? []|].
       split; [repeat split; simpl; try done; constructor|].
       destruct Hok as (_ & _ & ? & ?). unfold new_loop_state; simpl. lia. }
  eapply drops_ok; [apply drop_pending_where_drops|]. destruct Hok as ((Hwf & Hh & Hw & Hf & Hfw) & Hp & Hl & Ho).
  split; [|split; [exact Hp|split; [|exact Ho]]]; simpl.
  - unfold tracking_ok; simpl. split_and!; auto with py; intros t'; rewrite ?dict_get_pop;
      repeat case_decide; try done; try (by intros []); eauto.
  - pose proof (dict_length_pop_le t (ls_history s)). lia.
Qed.

Lemma freq_loop_answer c tcs f fw msg hard f' fw' :
  freq_loop c tcs f fw = (Some (msg, hard), f', fw') -> String.eqb msg "" = false.
Proof.
  revert f fw. induction tcs as [|tc tcs IH]; intros f fw; simpl; [done|].
  case_match; [apply IH|]. destruct (freq_limits c (tc_name tc)) as [ew eh].
  case_match; [by intros [= <- <- <- <-]|]. case_match; [by intros [= <- <- <- <-]|]. apply IH.
Qed.

(** ** Every hook keeps the bounds *)

Section loop.
Context (dumps : json -> string) (loads : string -> option json) (render : json -> string).
Context (py_int : string -> option Z) (fingerprint : list string -> string) (cfg : loop_config).
Hypothesis Hcfg : valid_config cfg = true.

#[local] Abbreviation track_and_check := (track_and_check dumps loads render py_int fingerprint cfg).
#[local] Abbreviation after_model := (after_model dumps loads render py_int fingerprint cfg).
#[local] Abbreviation apply_loop_op := (apply_loop_op dumps loads render py_int fingerprint cfg).
#[local] Abbreviation apply_loop_ops := (apply_loop_ops dumps loads render py_int fingerprint cfg).
#[local] Abbreviation hash_tool_calls := (hash_tool_calls dumps loads render py_int fingerprint).
#[local] Abbreviation call_key := (call_key dumps loads render py_int).

Lemma valid_bounds : 1 <= lc_max_tracked_threads cfg /\ 1 <= lc_window_size cfg.
Proof using Hcfg. unfold valid_config in Hcfg. reflect_bools. lia. Qed.

(** [_track_and_check] records the response, whatever it answers. *)
Lemma track_records messages rt s :
  last_tool_calls messages <> [] -> loop_ok cfg s ->
  loop_ok cfg (track_and_check messages rt s).2
  /\ ls_history (track_and_check messages rt s).2
     = ls_history (record_call cfg (get_thread_id rt) (hash_tool_calls (last_tool_calls messages)) s).
Proof using Hcfg.
  destruct valid_bounds as [Hmax Hwin]. intros Hne Hok. unfold LoopDetection.track_and_check.
  destruct (last_tool_calls messages) as [|tc tcs] eqn:E; [done|]. rewrite <-E. clear Hne.
  destruct (record_call_spec cfg (get_thread_id rt) (hash_tool_calls (last_tool_calls messages)) s)
    as ((Ht & Hp & Hl & Ho) & Hg & _); [done..|].
  set (s1 := record_call _ _ _ _) in *.
  case_match; [done|]. case_match.
  - split; [|done]. split; [|done]. apply set_warned_tracking; [by rewrite Hg|done].
  - destruct (freq_loop _ _ _ _) as [[answer freq] fwarned].
    assert (Hfin : loop_ok cfg (set_freq (dict_set (get_thread_id rt) freq (ls_tool_freq s1))
      (if bool_decide (fwarned = ∅) then ls_tool_freq_warned s1
       else dict_set (get_thread_id rt) fwarned (ls_tool_freq_warned s1)) s1)).
    { split; [|done]. apply set_freq_tracking; [by rewrite Hg|done|]. intros t'.
      destruct (bool_decide (fwarned = ∅)); [tauto|].
      rewrite dict_get_set. destruct (decide (get_thread_id rt = t')); [left; congruence|tauto]. }
    destruct answer as [[msg hard]|]; by split.
Qed.

Lemma track_skips messages rt s :
  last_tool_calls messages = [] -> track_and_check messages rt s = (None, false, s).
Proof. unfold LoopDetection.track_and_check. by intros ->. Qed.

Lemma track_ok messages rt s : loop_ok cfg s -> loop_ok cfg (track_and_check messages rt s).2.
Proof using Hcfg.
  destruct (decide (last_tool_calls messages = [])) as [E|E]; intros Hok.
  - by rewrite track_skips.
  - by apply track_records.
Qed.

(** [_apply] changes, after [_track_and_check], only the pending warnings. *)
Lemma after_model_state messages rt s :
  (after_model messages rt s).2 = (track_and_check messages rt s).2
  \/ exists w, (after_model messages rt s).2 = queue_pending_warning cfg rt w (track_and_check messages rt s).2.
Proof.
  unfold LoopDetection.after_model. destruct (track_and_check messages rt s) as [[w hard] s1]; simpl.
  destruct hard; [destruct (last messages); by left|]. destruct w as [w|]; [|by left].
  destruct (String.eqb w ""); [by left|]. right. by exists w.
Qed.

Lemma queue_pending_history rt w s : ls_history (queue_pending_warning cfg rt w s) = ls_history s.
Proof.
  unfold queue_pending_warning. cbv zeta.
  match goal with |- context [prune_pending cfg ?k ?x] => destruct (prune_drops cfg k x) as [[-> _] _] end. done.
Qed.

Lemma loop_op_ok op s : loop_ok cfg s -> loop_ok cfg (apply_loop_op op s).
Proof using Hcfg.
  intros Hok. destruct op as [rt|messages rt|rt|rt messages|t]; simpl.
  - eapply drops_ok; [apply drop_pending_where_drops|done].
  - destruct (after_model_state messages rt s) as [->|[w ->]]; [|apply queue_pending_ok]; by apply track_ok.
  - eapply drops_ok; [apply drop_pending_key_drops|done].
  - unfold augment_request. destruct (opt_or _ _); (eapply drops_ok; [apply drop_pending_key_drops|done]).
  - destruct t as [t|]; [by apply reset_thread_ok|]. apply (reset_thread_ok cfg "" s Hok).
Qed.

Lemma new_loop_ok : loop_ok cfg new_loop_state.
Proof using Hcfg.
  destruct valid_bounds as [Hmax Hwin].
  split; [repeat split; simpl; try done; try constructor; by intros ? []|].
  split; [repeat split; simpl; try done; constructor|]. unfold max_pending_warning_keys; simpl. lia.
Qed.

Lemma loop_ops_ok ops s : loop_ok cfg s -> loop_ok cfg (apply_loop_ops ops s).
Proof using Hcfg.
  revert s. induction ops as [|op ops IH]; intros s Hok; simpl; [done|]. by apply IH, loop_op_ok.
Qed.
(** ** The reference: every response of every thread *)

(** What each thread called, response by response, since its last reset. *)
Definition call_log : Type := string -> list (list string).

Definition log_op (op : loop_op) (log : call_log) : call_log :=
  match op with
  | AfterModel messages rt =>
      match last_tool_calls messages with
      | [] => log
      | calls => fun t => if decide (t = get_thread_id rt) then log t ++ [call_key <$> calls] else log t
      end
  | Reset t => fun t' => if truthy t && negb (bool_decide (Some t' = t)) then log t' else []
  | _ => log
  end.

Definition log_ops (ops : list loop_op) (log : call_log) : call_log := foldl (fun log op => log_op op log) log ops.

Definition op_threads (op : loop_op) : gset string :=
  match op with AfterModel _ rt => {[get_thread_id rt]} | _ => ∅ end.

Definition ops_threads (ops : list loop_op) : gset string := ⋃ (op_threads <$> ops).

Definition fingerprints (responses : list (list string)) : list string :=
  (fun keys => fingerprint (sort_by String.leb keys)) <$> responses.

(** The tracked history is the latest window of the log, for threads in [T]. *)
Definition refines (T : gset string) (log : call_log) (s : loop_state) : Prop :=
  loop_ok cfg s
  /\ (forall t, is_Some (dict_get t (ls_history s)) -> t ∈ T)
  /\ (forall t, opt_or (dict_get t (ls_history s)) []
        = latest (Z.to_nat (lc_window_size cfg)) (fingerprints (log t))).

Lemma latest_snoc {A} n (l : list A) x : (1 <= n)%nat -> latest n (latest n l ++ [x]) = latest n (l ++ [x]).
Proof.
  intros Hn. unfold latest. rewrite !length_app, !length_drop. simpl.
  destruct (decide (length l <= n)%nat).
  - replace (length l - n)%nat with 0%nat by lia. rewrite drop_0. f_equal. lia.
  - rewrite !drop_app_le by (rewrite ?length_drop; lia). rewrite drop_drop. do 2 f_equal. lia.
Qed.

Lemma keys_in_set (l : list string) (T : gset string) :
  NoDup l -> (forall x, x ∈ l -> x ∈ T) -> (length l <= size T)%nat.
Proof.
  intros Hn Hin. rewrite <-(size_list_to_set (C:=gset string) l) by done.
  apply subseteq_size. intros x Hx. apply Hin. by apply elem_of_list_to_set in Hx.
Qed.

Lemma tracked_fits (T : gset string) t s :
  Z.of_nat (size T) <= lc_max_tracked_threads cfg -> t ∈ T -> loop_ok cfg s ->
  (forall t', is_Some (dict_get t' (ls_history s)) -> t' ∈ T) ->
  Z.of_nat (length (dict_set t [] (ls_history s))) <= lc_max_tracked_threads cfg.
Proof.
  intros HT Ht ((Hwf & _) & _) Hin. rewrite <-(length_fmap fst).
  pose proof (keys_in_set (dict_keys (dict_set t [] (ls_history s))) T) as Hk. unfold dict_keys in Hk.
  etrans; [apply Nat2Z.inj_le, Hk; [by apply dict_wf_set|]|done].
  intros x Hx%dict_get_is_Some. rewrite dict_get_set in Hx.
  destruct (decide (t = x)); [congruence|auto].
Qed.

Lemma history_drops s s' : drops s s' -> ls_history s' = ls_history s.
Proof. by intros [[-> _] _]. Qed.

Lemma refines_history T log s s' :
  ls_history s' = ls_history s -> loop_ok cfg s' -> refines T log s -> refines T log s'.
Proof. intros E Hok' (Hok & HT & Hl). unfold refines. by rewrite E. Qed.

Lemma after_model_history messages rt s :
  ls_history (after_model messages rt s).2 = ls_history (track_and_check messages rt s).2.
Proof. destruct (after_model_state messages rt s) as [->|[w ->]]; [done|apply queue_pending_history]. Qed.

Lemma refines_after_model T log messages rt s :
  Z.of_nat (size T) <= lc_max_tracked_threads cfg -> get_thread_id rt ∈ T -> refines T log s ->
  refines T (log_op (AfterModel messages rt) log) (after_model messages rt s).2.
Proof using Hcfg.
  destruct valid_bounds as [Hmax Hwin]. intros HT Ht Href.
  assert (Hok' : loop_ok cfg (after_model messages rt s).2) by (apply (loop_op_ok (AfterModel messages rt)), Href).
  destruct (decide (last_tool_calls messages = [])) as [E|E].
  { simpl. rewrite E. apply (refines_history T log s); [|done..]. by rewrite after_model_history, track_skips. }
  destruct Href as (Hok & Hin & Hlog). split; [done|]. rewrite after_model_history.
  destruct (track_records messages rt s) as [_ ->]; [done..|].
  destruct (record_call_spec cfg (get_thread_id rt) (hash_tool_calls (last_tool_calls messages)) s)
    as (_ & Hg & Hoth); [done..|].
  specialize (Hoth (tracked_fits T _ s HT Ht Hok Hin)). simpl.
  destruct (last_tool_calls messages) as [|tc tcs] eqn:Etc; [done|]. rewrite <-Etc in *.
  split; intros t; destruct (decide (t = get_thread_id rt)) as [->|Hne].
  - done.
  - rewrite Hoth by done. apply Hin.
  - rewrite Hg. simpl. rewrite Hlog. unfold fingerprints. rewrite fmap_app.
    rewrite latest_snoc by lia. by rewrite Etc.
  - rewrite Hoth by done. apply Hlog.
Qed.

Lemma refines_reset T log t s : refines T log s -> refines T (log_op (Reset t) log) (reset t s).
Proof using Hcfg.
  intros (Hok & Hin & Hlog). split; [by apply (loop_op_ok (Reset t))|]. unfold reset. simpl.
  destruct (truthy t) eqn:Et; simpl; [|by split; [intros ? []|]].
  rewrite (history_drops _ _ (drop_pending_where_drops _ _)). simpl.
  destruct t as [t|]; [|done]. simpl.
  split; intros t'; rewrite dict_get_pop; case_decide; subst.
  - by intros [].
  - apply Hin.
  - by rewrite bool_decide_eq_true_2.
  - rewrite bool_decide_eq_false_2 by congruence. apply Hlog.
Qed.

Lemma refines_op T log op s :
  Z.of_nat (size T) <= lc_max_tracked_threads cfg -> op_threads op ⊆ T -> refines T log s ->
  refines T (log_op op log) (apply_loop_op op s).
Proof using Hcfg.
  intros HT Hop Href. pose proof (proj1 Href) as Hok. destruct op as [rt|messages rt|rt|rt messages|t]; simpl.
  - eapply refines_history; [|by apply (loop_op_ok (BeforeAgent rt))|exact Href].
    apply history_drops, drop_pending_where_drops.
  - apply refines_after_model; [done|set_solver|done].
  - eapply refines_history; [|by apply (loop_op_ok (AfterAgent rt))|exact Href].
    apply history_drops, drop_pending_key_drops.
  - eapply refines_history; [|by apply (loop_op_ok (WrapModelCall rt messages))|exact Href].
    unfold augment_request. destruct (opt_or _ _); apply history_drops, drop_pending_key_drops.
  - by apply refines_reset.
Qed.

Lemma refines_ops T ops log s :
  Z.of_nat (size T) <= lc_max_tracked_threads cfg -> ops_threads ops ⊆ T -> refines T log s ->
  refines T (log_ops ops log) (apply_loop_ops ops s).
Proof using Hcfg.
  revert log s. induction ops as [|op ops IH]; intros log s HT Hops Href; simpl; [done|].
  unfold ops_threads in *. simpl in Hops. apply IH; [done|set_solver|].
  apply refines_op; [done|set_solver|done].
Qed.

Lemma refines_new T : refines T (fun _ => []) new_loop_state.
Proof using Hcfg. split; [apply new_loop_ok|]. split; [by intros ? []|done]. Qed.

Lemma count_hash_cons h x l : count_hash h (x :: l) = (if String.eqb h x then 1 else 0) + count_hash h l.
Proof. unfold count_hash. simpl. destruct (String.eqb h x); simpl; lia. Qed.

(** Responses with the same multiset of calls have the same fingerprint. *)
Lemma count_same_calls keys responses :
  Z.of_nat (length (base.filter (fun r => r ≡ₚ keys) responses))
  <= count_hash (fingerprint (sort_by String.leb keys)) (fingerprints responses).
Proof.
  unfold fingerprints. induction responses as [|r rs IH]; [done|]. rewrite fmap_cons, count_hash_cons.
  destruct (decide (r ≡ₚ keys)) as [Hp|Hp].
  - rewrite filter_cons_True by done. rewrite (sort_strings_perm _ _ Hp), String.eqb_refl. simpl. lia.
  - rewrite filter_cons_False by done. case_match; lia.
Qed.

(** ** The theorems *)

(** The memory of the detector is bounded by its configuration.  After any
    sequence of hook calls and resets, for any interleaving of threads and
    runs: at most [max_tracked_threads] threads are tracked, each with at most
    [window_size] hashes; warnings and counters exist only for tracked threads;
    pending warnings exist for at most [2 * max_tracked_threads] runs, exactly
    those of the touch order, between one and four of them each and none
    twice. *)
Theorem loop_memory_bounded ops :
  let s := apply_loop_ops ops new_loop_state in
  Z.of_nat (length (ls_history s)) <= lc_max_tracked_threads cfg
  /\ (forall t h, dict_get t (ls_history s) = Some h -> Z.of_nat (length h) <= lc_window_size cfg)
  /\ (forall t, t ∈ dict_keys (ls_warned s) ++ dict_keys (ls_tool_freq s) ++ dict_keys (ls_tool_freq_warned s) ->
        t ∈ dict_keys (ls_history s))
  /\ dict_keys (ls_pending_warnings s) ≡ₚ dict_keys (ls_touch_order s)
  /\ Z.of_nat (length (ls_pending_warnings s)) <= 2 * lc_max_tracked_threads cfg
  /\ (forall k ws, dict_get k (ls_pending_warnings s) = Some ws -> NoDup ws /\ 1 <= Z.of_nat (length ws) <= 4).
Proof using Hcfg.
  destruct valid_bounds as [Hmax _]. intros s.
  destruct (loop_ops_ok ops new_loop_state new_loop_ok) as ((Hwf & Hh & Hw & Hf & Hfw) & (Hp & Ho & Hk & Hws) & Hl & Hol).
  fold s in Hwf, Hh, Hw, Hf, Hfw, Hp, Ho, Hk, Hws, Hl, Hol.
  assert (Hperm : dict_keys (ls_pending_warnings s) ≡ₚ dict_keys (ls_touch_order s)).
  { apply NoDup_Permutation; [done..|]. intros k. rewrite <-!dict_get_is_Some, <-!not_eq_None_Some. by rewrite Hk. }
  split_and!; auto.
  - intros t. rewrite !elem_of_app, <-!dict_get_is_Some. naive_solver.
  - apply Permutation_length in Hperm. unfold dict_keys in Hperm. rewrite !length_fmap in Hperm.
    unfold max_pending_warning_keys in Hol. lia.
Qed.

(** (C31) A repeating agent is stopped.  When at most [max_tracked_threads] threads
    have been seen, the tool calls of a response count against the latest
    [window_size] responses of its thread since the last reset, whatever the
    other threads, runs and hooks did in between; as soon as [hard_limit] of
    them, this one included, make the same calls in any order, the response is
    replaced by one without tool calls, in its fields and its metadata. *)
Theorem repeated_calls_stopped ops messages rt m :
  Z.of_nat (size (ops_threads ops ∪ {[get_thread_id rt]})) <= lc_max_tracked_threads cfg ->
  last messages = Some m -> cm_type m = "ai" -> cm_tool_calls m <> [] ->
  lc_hard_limit cfg
    <= Z.of_nat (length (base.filter (fun r => r ≡ₚ call_key <$> cm_tool_calls m)
         (latest (Z.to_nat (lc_window_size cfg))
            (log_ops ops (fun _ => []) (get_thread_id rt) ++ [call_key <$> cm_tool_calls m])))) ->
  exists m', (after_model messages rt (apply_loop_ops ops new_loop_state)).1 = Some m'
    /\ cm_tool_calls m' = []
    /\ dict_get "tool_calls" (cm_additional_kwargs m') = None
    /\ dict_get "function_call" (cm_additional_kwargs m') = None
    /\ dict_get "finish_reason" (cm_response_metadata m') <> Some (JStr "tool_calls")
    /\ cm_content m' = append_text render (cm_content m) _HARD_STOP_MSG.
Proof using Hcfg.
  destruct valid_bounds as [Hmax Hwin]. intros HT Hlast Hty Hcalls Hcount. set (s := apply_loop_ops ops new_loop_state).
  assert (Htc : last_tool_calls messages = cm_tool_calls m).
  { unfold last_tool_calls. rewrite Hlast, Hty. done. }
  destruct (refines_ops (ops_threads ops ∪ {[get_thread_id rt]}) ops (fun _ => []) new_loop_state) as (Hok & _ & Hlog);
    [done|set_solver|apply refines_new|]. fold s in Hok, Hlog.
  destruct (record_call_spec cfg (get_thread_id rt) (hash_tool_calls (cm_tool_calls m)) s) as (_ & Hg & _); [done..|].
  assert (Htrack : (track_and_check messages rt s).1 = (Some _HARD_STOP_MSG, true)).
  { unfold LoopDetection.track_and_check. rewrite Htc.
    destruct (cm_tool_calls m) as [|tc tcs] eqn:Em; [done|]. rewrite <-Em in *. rewrite Hg. simpl.
    rewrite Hlog, latest_snoc by lia. rewrite (proj2 (Z.leb_le _ _)); [done|].
    etrans; [exact Hcount|]. etrans; [apply count_same_calls|]. unfold fingerprints.
    rewrite <-latest_fmap, fmap_app. done. }
  unfold LoopDetection.after_model. destruct (track_and_check messages rt s) as [[w hard] s1]. simplify_eq/=.
  rewrite Hlast. eexists. split; [done|]. simpl. split_and!; [done| | | |done].
  - by rewrite dict_get_pop_ne, dict_get_pop_eq.
  - apply dict_get_pop_eq.
  - destruct (dict_get "finish_reason" (cm_response_metadata m)) as [[]|] eqn:E; rewrite ?E; try done.
    case_match; reflect_bools; [by rewrite dict_get_set_eq|]. congruence.
Qed.

(** What [_track_and_check] answers is never empty. *)
Lemma track_answer messages rt s w hard s1 :
  track_and_check messages rt s = (Some w, hard, s1) -> String.eqb w "" = false.
Proof.
  unfold LoopDetection.track_and_check. destruct (last_tool_calls messages) as [|tc tcs]; [done|].
  case_match; [by intros [= <- <- <-]|]. case_match; [by intros [= <- <- <-]|].
  destruct (freq_loop _ _ _ _) as [[answer freq] fwarned] eqn:E. destruct answer as [[msg h]|]; [|done].
  intros [= <- <- <-]. revert E. generalize (opt_or (dict_get (get_thread_id rt) (ls_tool_freq (record_call cfg
    (get_thread_id rt) (hash_tool_calls (tc :: tcs)) s))) []).
  generalize (opt_or (dict_get (get_thread_id rt) (ls_tool_freq_warned (record_call cfg
    (get_thread_id rt) (hash_tool_calls (tc :: tcs)) s))) ∅).
  intros fw f. apply freq_loop_answer.
Qed.

Lemma dedup_NoDup seen l : NoDup (seen ++ l) -> dedup seen l = l.
Proof.
  revert seen. induction l as [|x l IH]; intros seen Hn; simpl; [done|].
  rewrite bool_decide_eq_false_2.
  - rewrite IH; [done|]. by rewrite <-app_assoc.
  - intros Hx. apply NoDup_app in Hn as (_ & Hn & _). apply (Hn x Hx). by left.
Qed.

Lemma prune_protects key s : dict_get key (ls_pending_warnings (prune_pending cfg key s)) = dict_get key (ls_pending_warnings s).
Proof.
  unfold prune_pending. case_match; [done|]. rewrite py_slice_first by (reflect_bools; lia).
  assert (Hne : forall x, x ∈ take (Z.to_nat (Z.of_nat (length (ls_touch_order s)) - max_pending_warning_keys cfg))
    (base.filter (fun k => k <> key) (dict_keys (ls_touch_order s))) -> x <> key).
  { intros x Hx. apply elem_of_take in Hx as (i & Hi & _).
    apply list_elem_of_lookup_2, list_elem_of_filter in Hi. tauto. }
  revert Hne. generalize (take (Z.to_nat (Z.of_nat (length (ls_touch_order s)) - max_pending_warning_keys cfg))
    (base.filter (fun k => k <> key) (dict_keys (ls_touch_order s)))). intros l. clear.
  revert s. induction l as [|x l IH]; intros s Hne; simpl; [done|].
  rewrite IH by set_solver. unfold drop_pending_key; simpl. apply dict_get_pop_ne. set_solver.
Qed.

Lemma queued_get rt w s :
  pending_ok s -> exists ws,
    dict_get (pending_key rt) (ls_pending_warnings (queue_pending_warning cfg rt w s)) = Some ws
    /\ NoDup ws /\ w ∈ ws.
Proof.
  intros (_ & _ & _ & Hw). unfold queue_pending_warning. cbv zeta. rewrite prune_protects. simpl.
  rewrite dict_get_set_eq. eexists. split; [done|].
  set (ws0 := opt_or (dict_get (pending_key rt) (ls_pending_warnings s)) []).
  destruct (queued_list ws0 w) as (? & ? & _); [| |done].
  - subst ws0. destruct (dict_get _ _) eqn:E; simpl; [by eapply Hw|constructor].
  - subst ws0. destruct (dict_get _ _) eqn:E; simpl; [by eapply Hw|unfold _MAX_PENDING_WARNINGS_PER_RUN; lia].
Qed.

Lemma augment_delivers rt request ws s :
  dict_get (pending_key rt) (ls_pending_warnings s) = Some ws -> NoDup ws -> ws <> [] ->
  augment_request rt request s
  = (request ++ [mk_chat_message "human" (Some "loop_warning") (JStr (String.concat nl2 ws)) [] [] []],
     drop_pending_key (pending_key rt) s).
Proof.
  intros Hg Hn Hne. unfold augment_request, format_warning_message. rewrite Hg. simpl.
  rewrite (dedup_NoDup [] ws Hn). by destruct ws.
Qed.

(** A warning is delivered once and nowhere else.  When the detector answers a
    response with a warning, the response itself is not changed; the next
    request of the same run is what it was plus one human message at its very
    end, after every tool result, that contains the warning among the distinct
    warnings queued for that run; the request after that is not changed. *)
Theorem loop_warning_delivered_once ops messages rt w s1 request request' :
  let s := apply_loop_ops ops new_loop_state in
  track_and_check messages rt s = (Some w, false, s1) ->
  (after_model messages rt s).1 = None
  /\ exists ws, NoDup ws /\ w ∈ ws
    /\ (augment_request rt request (after_model messages rt s).2).1
       = request ++ [mk_chat_message "human" (Some "loop_warning") (JStr (String.concat nl2 ws)) [] [] []]
    /\ (augment_request rt request' (augment_request rt request (after_model messages rt s).2).2).1 = request'.
Proof using Hcfg.
  intros s Htrack. pose proof (track_answer _ _ _ _ _ _ Htrack) as Hw.
  assert (Hs1 : loop_ok cfg s1).
  { change s1 with (Some w, false, s1).2. rewrite <-Htrack. apply track_ok, loop_ops_ok, new_loop_ok. }
  assert (Hafter : after_model messages rt s = (None, queue_pending_warning cfg rt w s1)).
  { unfold LoopDetection.after_model. by rewrite Htrack, Hw. }
  rewrite Hafter. split; [done|]. destruct (queued_get rt w s1) as (ws & Hg & Hn & Hin); [apply Hs1|].
  exists ws. split; [done|]. split; [done|]. simpl.
  rewrite (augment_delivers rt request ws _ Hg Hn) by (intros ->; by apply not_elem_of_nil in Hin).
  split; [done|]. simpl. unfold augment_request. simpl. by rewrite dict_get_pop_eq.
Qed.
End loop.

(** ** Witnesses *)

Definition demo_render (v : json) : string := match v with JStr s => s | _ => "" end.
Definition demo_dumps (v : json) : string :=
  match v with JObj d => String.concat "," ((fun p => p.1 +:+ "=" +:+ demo_render p.2) <$> d) | _ => demo_render v end.

Definition demo_cfg (warn hard window freq_warn freq_hard : Z) : loop_config :=
  mk_loop_config warn hard window 100 freq_warn freq_hard [].

Definition demo_bash (command : string) : tool_call := mk_tool_call "bash" (JObj [("command", JStr command)]).
Definition demo_ai (calls : list tool_call) : chat_message :=
  mk_chat_message "ai" None (JStr "running") calls [] [("finish_reason", JStr "tool_calls")].
Definition demo_rt : runtime := mk_runtime (Some "t1") (Some "r1").
Definition demo_turn (calls : list tool_call) : loop_op := AfterModel [demo_ai calls] demo_rt.

#[local] Abbreviation demo_ops c ops :=
  (apply_loop_ops demo_dumps (fun _ => None) demo_render (fun _ => None) (String.concat ";") c ops new_loop_state).
#[local] Abbreviation demo_answer c ops calls :=
  (after_model demo_dumps (fun _ => None) demo_render (fun _ => None) (String.concat ";") c
     [demo_ai calls] demo_rt (demo_ops c ops)).1.

Lemma loop_memory_bounded_witness :
  Z.of_nat (length (ls_history (demo_ops (demo_cfg 3 5 20 30 50) [demo_turn [demo_bash "ls"]]))) <= 100.
Proof.
  apply (loop_memory_bounded demo_dumps (fun _ => None) demo_render (fun _ => None) (String.concat ";")
    (demo_cfg 3 5 20 30 50) ltac:(by vm_compute) [demo_turn [demo_bash "ls"]]).
Defined.

Lemma repeated_calls_stopped_witness :
  exists m', demo_answer (demo_cfg 2 3 4 30 50)
    [demo_turn [demo_bash "ls"; demo_bash "pwd"]; demo_turn [demo_bash "cat"]; demo_turn [demo_bash "pwd"; demo_bash "ls"]]
    [demo_bash "ls"; demo_bash "pwd"] = Some m' /\ cm_tool_calls m' = [].
Proof.
  destruct (repeated_calls_stopped demo_dumps (fun _ => None) demo_render (fun _ => None) (String.concat ";")
    (demo_cfg 2 3 4 30 50) ltac:(by vm_compute)
    [demo_turn [demo_bash "ls"; demo_bash "pwd"]; demo_turn [demo_bash "cat"]; demo_turn [demo_bash "pwd"; demo_bash "ls"]]
    [demo_ai [demo_bash "ls"; demo_bash "pwd"]] demo_rt (demo_ai [demo_bash "ls"; demo_bash "pwd"]))
    as (m' & Hm & Htc & _); [by vm_compute|done..|by vm_compute|].
  exists m'. by split.
Defined.

Lemma loop_warning_delivered_once_witness :
  demo_answer (demo_cfg 2 3 4 30 50) [demo_turn [demo_bash "ls"]] [demo_bash "ls"] = None.
Proof.
  eapply (loop_warning_delivered_once demo_dumps (fun _ => None) demo_render (fun _ => None) (String.concat ";")
    (demo_cfg 2 3 4 30 50) ltac:(by vm_compute) [demo_turn [demo_bash "ls"]]
    [demo_ai [demo_bash "ls"]] demo_rt _WARNING_MSG _ [] []).
  vm_compute. reflexivity.
Defined.

(** ** Boundary behaviours *)

(** With [warn_threshold = 1] every fresh set of calls is answered by the first
    layer, before the second counts it: distinct calls are never stopped,
    whatever the limit of the tool. *)
Example fresh_warnings_hide_frequency :
  let c := demo_cfg 1 5 20 1 2 in
  let calls := demo_bash <$> ["a"; "b"; "c"; "d"; "e"; "f"] in
  valid_config c = true
  /\ demo_answer c ((fun x => demo_turn [x]) <$> calls) [demo_bash "g"] = None
  /\ dict_get "t1" (ls_tool_freq (demo_ops c ((fun x => demo_turn [x]) <$> calls))) = None.
Proof. by vm_compute. Qed.

(** A window shorter than the hard limit passes validation, and the same call
    is then repeated past the hard limit without being stopped. *)
Example short_window_never_stops :
  let c := demo_cfg 2 3 2 30 50 in
  valid_config c = true
  /\ demo_answer c (repeat (demo_turn [demo_bash "ls"]) 8) [demo_bash "ls"] = None.
Proof. by vm_compute. Qed.
