(* ===== verification/PyPath.v ===== *)
(** * Python strings as paths

    Splitting, searching and replacing in strings, [PurePosixPath], the lexical
    functions of [posixpath], and the lemmas on components that confinement
    arguments use.  The canonical location of a file is the list of the
    components of its real path. *)
From S2P Require Import Prelude PyString.
From Stdlib Require Import Ascii.
Local Open Scope string_scope.
Local Open Scope list_scope.

(** ** Strings *)

Abbreviation slash := "/"%char.
Abbreviation backslash := "092"%char.

(** [s.replace(a, b)] for single characters. *)
Fixpoint replace_char (a b : ascii) (s : string) : string :=
  match s with
  | "" => ""
  | String c s' => String (if Ascii.eqb c a then b else c) (replace_char a b s')
  end.

(** [s.split(c)]. *)
Fixpoint split_char (c : ascii) (s : string) : list string :=
  match s with
  | "" => [""]
  | String x s' =>
      if Ascii.eqb x c then "" :: split_char c s'
      else match split_char c s' with
           | h :: t => String x h :: t
           | [] => [String x ""]
           end
  end.

(** [sub in s]. *)
Fixpoint contains (sub s : string) : bool :=
  startswith sub s || match s with "" => false | String _ s' => contains sub s' end.

Definition contains_char (c : ascii) (s : string) : bool := contains (String c "") s.

#[global] Arguments contains_char : simpl never.

Definition endswith (suffix s : string) : bool :=
  bool_decide (String.length suffix <= String.length s)%nat
  && String.eqb (str_drop (String.length s - String.length suffix) s) suffix.

(** [s.replace(old, new)], or with a count. *)
Definition spent (limit : option nat) : bool := match limit with Some O => true | _ => false end.
Definition spend (limit : option nat) : option nat := pred <$> limit.

Fixpoint replace_go (old new : string) (limit : option nat) (skip : nat) (s : string) : string :=
  match s with
  | "" => ""
  | String c s' =>
      match skip with
      | S k => replace_go old new limit k s'
      | O =>
          if negb (spent limit) && startswith old s
          then new +:+ replace_go old new (spend limit) (pred (String.length old)) s'
          else String c (replace_go old new limit 0 s')
      end
  end.

Fixpoint replace_empty (new : string) (limit : option nat) (s : string) : string :=
  if spent limit then s
  else new +:+ match s with "" => "" | String c s' => String c (replace_empty new (spend limit) s') end.

Definition str_replace (old new : string) (limit : option nat) (s : string) : string :=
  if String.eqb old "" then replace_empty new limit s else replace_go old new limit 0 s.

Definition is_slash (c : ascii) : bool := Ascii.eqb c slash.
Definition is_sep (c : ascii) : bool := Ascii.eqb c slash || Ascii.eqb c backslash.

(** ** Pure paths *)

Record pure_path : Type := mk_path { pp_root : string; pp_parts : list string }.

#[global] Instance pure_path_eq_dec : EqDecision pure_path.
Proof. solve_decision. Defined.

(** Components without the empty ones and the dots. *)
Definition clean_parts (l : list string) : list string :=
  List.filter (fun c => negb (String.eqb c "") && negb (String.eqb c ".")) l.

Definition parse_path (s : string) : pure_path :=
  mk_path (if startswith "//" s && negb (startswith "///" s) then "//" else if startswith "/" s then "/" else "")
    (clean_parts (split_char slash s)).

Definition join_parts (l : list string) : string := String.concat "/" l.

(** [str(path)]. *)
Definition path_str (p : pure_path) : string :=
  match pp_parts p with
  | [] => if String.eqb (pp_root p) "" then "." else pp_root p
  | l => pp_root p +:+ join_parts l
  end.

Definition path_parent (p : pure_path) : pure_path := mk_path (pp_root p) (removelast (pp_parts p)).
Definition path_name (p : pure_path) : string := opt_or (last (pp_parts p)) "".
Definition is_absolute (p : pure_path) : bool := negb (String.eqb (pp_root p) "").

(** [p / rel]. *)
Definition path_join (p : pure_path) (rel : string) : pure_path :=
  let q := parse_path rel in
  if is_absolute q then q else mk_path (pp_root p) (pp_parts p ++ pp_parts q).

(** [p.relative_to(base)] does not raise. *)
Definition relative_to (p base : pure_path) : bool :=
  String.eqb (pp_root p) (pp_root base) && bool_decide (pp_parts base `prefix_of` pp_parts p).

(** ** Locations *)

(** Where a file is: the components of a canonical absolute path. *)
Definition loc : Type := list string.

Definition loc_path (l : loc) : pure_path := mk_path "/" l.
Definition loc_str (l : loc) : string := "/" +:+ join_parts l.

Definition no_slash (s : string) : Prop := ~ (contains_char slash s = true).

Definition good_part (c : string) : Prop := c <> "" /\ c <> "." /\ c <> ".." /\ no_slash c.

(** ** [posixpath] *)

Definition norm_step (absolute : bool) (acc : list string) (c : string) : list string :=
  if String.eqb c "" || String.eqb c "." then acc
  else if negb (String.eqb c "..") || (negb absolute && bool_decide (acc = []))
          || (match last acc with Some l => String.eqb l ".." | None => false end)
  then acc ++ [c]
  else removelast acc.

(** [posixpath.normpath]. *)
Definition normpath (s : string) : string :=
  if String.eqb s "" then "."
  else
    let root := pp_root (parse_path s) in
    let comps := foldl (norm_step (negb (String.eqb root ""))) [] (split_char slash s) in
    let r := root +:+ join_parts comps in
    if String.eqb r "" then "." else r.

Fixpoint common_prefix (l1 l2 : list string) : list string :=
  match l1, l2 with
  | x :: l1', y :: l2' => if String.eqb x y then x :: common_prefix l1' l2' else []
  | _, _ => []
  end.

(** [posixpath.commonpath([a, b])]; [None] when it raises. *)
Definition commonpath (a b : string) : option string :=
  if negb (bool_decide (startswith "/" a = startswith "/" b)) then None
  else Some ((if startswith "/" a then "/" else "")
             +:+ join_parts (common_prefix (clean_parts (split_char slash a)) (clean_parts (split_char slash b)))).

(** [posixpath.dirname]. *)
Fixpoint last_slash (i : nat) (s : string) (best : option nat) : option nat :=
  match s with
  | "" => best
  | String c s' => last_slash (S i) s' (if is_slash c then Some i else best)
  end.

Definition dirname (s : string) : string :=
  match last_slash 0 s None with
  | None => ""
  | Some i =>
      let head := str_take (S i) s in
      let stripped := rstrip_by is_slash head in
      if String.eqb stripped "" then head else stripped
  end.

(** ** Lemmas on strings *)

Lemma str_app_cons x s t : String x s +:+ t = String x (s +:+ t).
Proof. done. Qed.

Lemma startswith_cons a p b s : startswith (String a p) (String b s) = Ascii.eqb a b && startswith p s.
Proof.
  unfold startswith. cbn [String.prefix]. destruct (ascii_dec a b) as [->|H]; [by rewrite Ascii.eqb_refl|].
  by rewrite (proj2 (Ascii.eqb_neq _ _)).
Qed.

Lemma contains_char_cons c x s : contains_char c (String x s) = Ascii.eqb x c || contains_char c s.
Proof.
  unfold contains_char, contains; fold contains. unfold startswith. simpl.
  destruct (ascii_dec c x) as [->|Hne].
  - rewrite Ascii.eqb_refl. by destruct s.
  - apply Ascii.eqb_neq in Hne. rewrite Ascii.eqb_sym, Hne. done.
Qed.

Lemma contains_char_nil c : contains_char c "" = false.
Proof. done. Qed.

Lemma contains_char_app c s t : contains_char c (s +:+ t) = contains_char c s || contains_char c t.
Proof.
  induction s as [|x s IH]; [done|]. rewrite str_app_cons, !contains_char_cons, IH. by rewrite orb_assoc.
Qed.

Lemma no_slash_spec s : no_slash s <-> contains_char slash s = false.
Proof. unfold no_slash. destruct (contains_char slash s); split; congruence. Qed.

Lemma no_slash_cons x s : no_slash (String x s) <-> x <> slash /\ no_slash s.
Proof.
  rewrite !no_slash_spec, contains_char_cons, orb_false_iff, Ascii.eqb_neq. done.
Qed.

Lemma split_char_nonempty c s : split_char c s <> [].
Proof. destruct s; simpl; [done|]. case_match; [done|]. by destruct (split_char c s). Qed.

Lemma split_no_char c s : contains_char c s = false -> split_char c s = [s].
Proof.
  induction s as [|x s IH]; simpl; [done|]. rewrite contains_char_cons, orb_false_iff. intros [-> Hs].
  by rewrite IH.
Qed.

Lemma split_app c s t : contains_char c s = false ->
  split_char c (s +:+ String c t) = s :: split_char c t.
Proof.
  induction s as [|x s IH]; [simpl; by rewrite Ascii.eqb_refl|]. rewrite str_app_cons. simpl.
  rewrite contains_char_cons, orb_false_iff. intros [-> Hs]. by rewrite IH.
Qed.

Lemma split_parts_no_char c s : Forall (fun p => contains_char c p = false) (split_char c s).
Proof.
  induction s as [|x s IH]; simpl; [by constructor|]. destruct (Ascii.eqb x c) eqn:E; [by constructor|].
  destruct (split_char c s) as [|h t]; [constructor; [|done]; by rewrite contains_char_cons, E|].
  inversion IH; subst. constructor; [|done]. by rewrite contains_char_cons, E.
Qed.

(** ** Lemmas on paths *)

Lemma split_app_gen c s t : split_char c (s +:+ String c t) = split_char c s ++ split_char c t.
Proof.
  induction s as [|x s IH].
  - change ("" +:+ String c t) with (String c t). simpl. by rewrite Ascii.eqb_refl.
  - rewrite str_app_cons. simpl. rewrite IH. destruct (Ascii.eqb x c); [done|].
    pose proof (split_char_nonempty c s). by destruct (split_char c s).
Qed.

Lemma clean_parts_app l1 l2 : clean_parts (l1 ++ l2) = clean_parts l1 ++ clean_parts l2.
Proof. apply List.filter_app. Qed.

Lemma clean_parts_elem c l : c ∈ clean_parts l -> c ∈ l /\ c <> "" /\ c <> ".".
Proof.
  unfold clean_parts. rewrite list_elem_of_In, filter_In, <-list_elem_of_In. intros [? ?]. reflect_bools. done.
Qed.

Lemma clean_parts_good l : Forall good_part l -> clean_parts l = l.
Proof.
  induction 1 as [|c l (H1 & H2 & _) _ IH]; simpl; [done|].
  apply String.eqb_neq in H1, H2. by rewrite H1, H2, IH.
Qed.

Lemma split_join l : l <> [] -> Forall no_slash l -> split_char slash (join_parts l) = l.
Proof.
  unfold join_parts. induction l as [|c l IH]; [done|]. intros _ Hl. inversion Hl as [|? ? Hc Hl']; subst.
  destruct l as [|d l]; [simpl; by apply split_no_char, no_slash_spec|].
  change (String.concat "/" (c :: d :: l)) with (c +:+ String slash (String.concat "/" (d :: l))).
  rewrite split_app by (by apply no_slash_spec). by rewrite IH.
Qed.

Lemma good_no_slash l : Forall good_part l -> Forall no_slash l.
Proof. intros H. eapply Forall_impl; [exact H|]. by intros c (_ & _ & _ & ?). Qed.

Lemma loc_str_split l : Forall good_part l -> clean_parts (split_char slash (loc_str l)) = l.
Proof.
  intros Hl. unfold loc_str. change ("/" +:+ join_parts l) with ("" +:+ String slash (join_parts l)).
  rewrite split_app_gen, clean_parts_app. simpl.
  destruct (decide (l = [])) as [->|Hne]; [done|].
  rewrite split_join; [by apply clean_parts_good|done|by apply good_no_slash].
Qed.

Lemma join_first_char c l : good_part c -> exists x s, join_parts (c :: l) = String x s /\ x <> slash.
Proof.
  intros (Hne & _ & _ & Hs). destruct c as [|x c]; [done|]. apply no_slash_cons in Hs as [Hx _].
  destruct l as [|d l]; [by exists x, c|]. exists x, (c +:+ "/" +:+ String.concat "/" (d :: l)). done.
Qed.

Lemma parse_loc_str l : Forall good_part l -> parse_path (loc_str l) = loc_path l.
Proof.
  intros Hl. unfold parse_path, loc_path. rewrite loc_str_split by done. f_equal.
  destruct l as [|c l]; [done|]. inversion Hl as [|? ? Hc _]; subst.
  destruct (join_first_char c l Hc) as (x & s & E & Hx).
  assert (E' : loc_str (c :: l) = String slash (String x s)) by (unfold loc_str; by rewrite E).
  rewrite E', !startswith_cons, !Ascii.eqb_refl, (proj2 (Ascii.eqb_neq _ _)) by congruence. done.
Qed.

Lemma path_str_loc l : path_str (loc_path l) = loc_str l.
Proof. by destruct l. Qed.

Lemma loc_str_inj l1 l2 : Forall good_part l1 -> Forall good_part l2 -> loc_str l1 = loc_str l2 -> l1 = l2.
Proof. intros H1 H2 E. rewrite <-(loc_str_split l1), <-(loc_str_split l2) by done. by rewrite E. Qed.

Lemma relative_to_loc l1 l2 : relative_to (loc_path l1) (loc_path l2) = true <-> l2 `prefix_of` l1.
Proof. unfold relative_to. simpl. by rewrite bool_decide_eq_true. Qed.

Lemma Forall_prefix {A} (P : A -> Prop) l1 l2 : l1 `prefix_of` l2 -> Forall P l2 -> Forall P l1.
Proof. intros [k ->] H. by apply Forall_app in H as [? _]. Qed.

(** ** [dirname] of a location *)

Lemma last_slash_none s i best : no_slash s -> last_slash i s best = best.
Proof.
  revert i best. induction s as [|x s IH]; intros i best Hs; [done|]. apply no_slash_cons in Hs as [Hx Hs]. simpl.
  unfold is_slash. rewrite (proj2 (Ascii.eqb_neq _ _)) by done. by apply IH.
Qed.

Lemma last_slash_app s t i best :
  no_slash t -> last_slash i (s +:+ String slash t) best = Some (i + String.length s)%nat.
Proof.
  intros Ht. revert i best. induction s as [|x s IH]; intros i best.
  - change ("" +:+ String slash t) with (String slash t). simpl.
    rewrite last_slash_none by done. f_equal. lia.
  - rewrite str_app_cons. simpl. rewrite IH. f_equal. lia.
Qed.

Lemma str_take_snoc s t : str_take (S (String.length s)) (s +:+ String slash t) = s +:+ "/".
Proof.
  induction s as [|x s IH]; [by destruct t|]. rewrite !str_app_cons. simpl in *. by rewrite IH.
Qed.

Lemma rstrip_slash_snoc s :
  rstrip_by is_slash (s +:+ "/") = rstrip_by is_slash s.
Proof. induction s as [|x s IH]; [done|]. rewrite str_app_cons. simpl. by rewrite IH. Qed.

Lemma rstrip_keeps s c : no_slash c -> c <> "" -> rstrip_by is_slash (s +:+ c) = s +:+ c.
Proof.
  intros Hc Hne. induction s as [|x s IH].
  - change ("" +:+ c) with c. clear Hne. induction c as [|x c IHc]; [done|].
    apply no_slash_cons in Hc as [Hx Hc]. simpl. rewrite IHc by done.
    unfold is_slash. rewrite (proj2 (Ascii.eqb_neq _ _)) by done. by destruct c.
  - rewrite str_app_cons. simpl. rewrite IH. destruct (s +:+ c) eqn:E; [|done].
    destruct s; [by destruct c|done].
Qed.

Lemma join_snoc l c : l <> [] -> join_parts (l ++ [c]) = join_parts l +:+ "/" +:+ c.
Proof.
  unfold join_parts. induction l as [|d l IH]; [done|]. intros _. destruct l as [|e l]; [done|].
  change (String.concat "/" ((d :: e :: l) ++ [c])) with (d +:+ "/" +:+ String.concat "/" ((e :: l) ++ [c])).
  rewrite IH by done. change (String.concat "/" (d :: e :: l)) with (d +:+ "/" +:+ String.concat "/" (e :: l)).
  by rewrite !str_app_assoc.
Qed.

Lemma loc_str_snoc l c : l <> [] -> loc_str (l ++ [c]) = loc_str l +:+ "/" +:+ c.
Proof. intros H. unfold loc_str. rewrite join_snoc by done. by rewrite !str_app_assoc. Qed.

Lemma dirname_loc l c : Forall good_part (l ++ [c]) -> dirname (loc_str (l ++ [c])) = loc_str l.
Proof.
  intros Hl. apply Forall_app in Hl as [Hl Hc]. inversion Hc as [|? ? Hgc _]; subst.
  pose proof Hgc as (_ & _ & _ & Hs).
  destruct (decide (l = [])) as [->|Hne].
  - change (loc_str ([] ++ [c])) with ("" +:+ String slash c). unfold dirname.
    rewrite last_slash_app by done. change (0 + String.length "")%nat with O. by destruct c.
  - rewrite loc_str_snoc by done. unfold dirname. change ("/" +:+ c) with (String slash c).
    rewrite last_slash_app by done. change (0 + String.length (loc_str l))%nat with (String.length (loc_str l)).
    rewrite str_take_snoc, rstrip_slash_snoc.
    destruct (exists_last Hne) as (l' & d & ->). apply Forall_app in Hl as [_ Hd]. inversion Hd as [|? ? Hgd _]; subst.
    assert (E : exists h, loc_str (l' ++ [d]) = h +:+ d).
    { destruct (decide (l' = [])) as [->|Hl']; [by exists "/"|]. rewrite loc_str_snoc by done.
      exists (loc_str l' +:+ "/"). by rewrite str_app_assoc. }
    destruct E as [h E]. rewrite E. destruct Hgd as (Hd0 & _ & _ & Hds). rewrite rstrip_keeps by done.
    destruct (String.eqb (h +:+ d) "") eqn:E2; [|done]. apply String.eqb_eq in E2.
    destruct h; [by destruct d|done].
Qed.

(** ** Prefixes of strings *)

Lemma startswith_iff p s : startswith p s = true <-> exists t, s = p +:+ t.
Proof.
  revert s. induction p as [|a p IH]; intros s.
  - split; [intros _; by exists s|]. intros _. by destruct s.
  - destruct s as [|b s]; [split; [done|by intros [t ?]]|].
    rewrite startswith_cons, andb_true_iff, Ascii.eqb_eq, IH. split.
    + intros [-> [t ->]]. by exists t.
    + intros [t Ht]. rewrite str_app_cons in Ht. simplify_eq. eauto.
Qed.

Definition all_slashes (s : string) : Prop := rstrip_by is_slash s = "".

Lemma rstrip_decomp s : exists t, s = rstrip_by is_slash s +:+ t /\ all_slashes t.
Proof.
  induction s as [|c s (t & E & Ht)]; [by exists ""|]. simpl. destruct (rstrip_by is_slash s) as [|x r] eqn:Er.
  - destruct (is_slash c) eqn:Ec; [|exists s; split; [by rewrite str_app_cons|done]].
    exists (String c s). split; [done|]. unfold all_slashes. simpl. by rewrite Er, Ec.
  - exists t. split; [|done]. rewrite str_app_cons. by rewrite <-E.
Qed.

Lemma rstrip_idem s : rstrip_by is_slash (rstrip_by is_slash s) = rstrip_by is_slash s.
Proof.
  induction s as [|c s IH]; [done|]. simpl. destruct (rstrip_by is_slash s) as [|x r] eqn:Er.
  - destruct (is_slash c) eqn:Ec; [done|]. simpl. by rewrite Ec.
  - cbn [rstrip_by] in IH |- *. rewrite IH. done.
Qed.

Lemma all_slashes_head c s : all_slashes (String c s) -> c = slash.
Proof.
  unfold all_slashes. simpl. destruct (rstrip_by is_slash s); [|done]. destruct (is_slash c) eqn:E; [|done].
  intros _. by apply Ascii.eqb_eq in E.
Qed.
