(* ===== verification/Paths.v ===== *)
(** * Where the data of users and threads lives

    [config/paths.py]: the identifiers that may become directory names, the
    layout of the application data, and the resolution of a virtual path.  The
    base directory is a path that has been resolved; [realpath] stands for the
    file system's resolution of symbolic links. *)
From S2P Require Import Prelude PyString PyPath.
From Stdlib Require Import Ascii.
Local Open Scope string_scope.
Local Open Scope list_scope.

Definition VIRTUAL_PATH_PREFIX : string := "/mnt/user-data".

(** ** Identifiers *)

Definition is_alnum (c : ascii) : bool :=
  let n := nat_of_ascii c in
  (bool_decide (48 <= n <= 57) || bool_decide (65 <= n <= 90) || bool_decide (97 <= n <= 122))%nat.

(** The class [[A-Za-z0-9_\-]]. *)
Definition safe_char (c : ascii) : bool := is_alnum c || Ascii.eqb c "_" || Ascii.eqb c "-".

Definition newline : string := String "010" "".

(** What follows the first character in [^[A-Za-z0-9_\-]+$]: [$] also matches
    before a newline that ends the string. *)
Fixpoint safe_tail (s : string) : bool :=
  match s with
  | "" => true
  | String c s' => (safe_char c && safe_tail s') || String.eqb s newline
  end.

Definition safe_id (s : string) : bool :=
  match s with
  | "" => false
  | String c s' => safe_char c && safe_tail s'
  end.

Definition validate_thread_id (thread_id : string) : result string string :=
  if safe_id thread_id then Ok thread_id else Err ("Invalid thread_id " +:+ thread_id).

Definition validate_user_id (user_id : string) : result string string :=
  if safe_id user_id then Ok user_id else Err ("Invalid user_id " +:+ user_id).

(** [_UNSAFE_USER_ID_CHAR_RE.sub("-", raw)]. *)
Fixpoint sanitize (s : string) : string :=
  match s with
  | "" => ""
  | String c s' => String (if safe_char c then c else "-"%char) (sanitize s')
  end.

(** [make_safe_user_id], for a digest that gives lower-case hex. *)
Definition make_safe_user_id (sha256_hex : string -> string) (raw : string) : result string string :=
  if String.eqb raw "" then Err "user_id must be a non-empty string."
  else
    let sanitized := sanitize raw in
    if String.eqb sanitized raw then Ok raw
    else Ok (sanitized +:+ "-" +:+ str_take 16 (sha256_hex raw)).

(** ** Layout *)

Section layout.
Context (base_dir : pure_path).

Definition user_dir (user_id : string) : result string pure_path :=
  result_bind (validate_user_id user_id) (fun u => Ok (path_join (path_join base_dir "users") u)).

Definition thread_dir (thread_id : string) (user_id : option string) : result string pure_path :=
  match user_id with
  | Some u =>
      result_bind (user_dir u) (fun d =>
      result_bind (validate_thread_id thread_id) (fun t => Ok (path_join (path_join d "threads") t)))
  | None => result_bind (validate_thread_id thread_id) (fun t => Ok (path_join (path_join base_dir "threads") t))
  end.

Definition sandbox_user_data_dir (thread_id : string) (user_id : option string) : result string pure_path :=
  result_bind (thread_dir thread_id user_id) (fun d => Ok (path_join d "user-data")).
Definition sandbox_work_dir (thread_id : string) (user_id : option string) : result string pure_path :=
  result_bind (thread_dir thread_id user_id) (fun d => Ok (path_join (path_join d "user-data") "workspace")).
Definition sandbox_uploads_dir (thread_id : string) (user_id : option string) : result string pure_path :=
  result_bind (thread_dir thread_id user_id) (fun d => Ok (path_join (path_join d "user-data") "uploads")).
Definition sandbox_outputs_dir (thread_id : string) (user_id : option string) : result string pure_path :=
  result_bind (thread_dir thread_id user_id) (fun d => Ok (path_join (path_join d "user-data") "outputs")).
Definition acp_workspace_dir (thread_id : string) (user_id : option string) : result string pure_path :=
  result_bind (thread_dir thread_id user_id) (fun d => Ok (path_join d "acp-workspace")).

Context (realpath : string -> loc).

(** [p.resolve()], and [Path(s).resolve()]. *)
Definition resolve_pure (p : pure_path) : pure_path := loc_path (realpath (path_str p)).
Definition resolve (s : string) : pure_path := resolve_pure (parse_path s).

(** [resolve_virtual_path]. *)
Definition resolve_virtual_path (thread_id virtual_path : string) (user_id : option string) : result string pure_path :=
  let stripped := lstrip_by is_slash virtual_path in
  let prefix := lstrip_by is_slash VIRTUAL_PATH_PREFIX in
  if negb (String.eqb stripped prefix) && negb (startswith (prefix +:+ "/") stripped)
  then Err ("Path must start with /" +:+ prefix)
  else
    let relative := lstrip_by is_slash (str_drop (String.length prefix) stripped) in
    result_bind (sandbox_user_data_dir thread_id user_id) (fun d =>
    let base := resolve_pure d in
    let actual := resolve_pure (path_join base relative) in
    if relative_to actual base then Ok actual else Err "Access denied: path traversal detected").
End layout.

(** ** Facts *)

Lemma safe_char_not_slash c : safe_char c = true -> c <> slash.
Proof. by intros H ->. Qed.

Lemma safe_tail_no_slash s : safe_tail s = true -> no_slash s.
Proof.
  induction s as [|c s IH]; intros H; [done|]. cbn [safe_tail] in H. apply orb_true_iff in H as [H|H]; reflect_bools.
  - apply no_slash_cons. auto using safe_char_not_slash.
  - rewrite H. done.
Qed.

(** An accepted identifier is one component of a path. *)
Lemma safe_id_good s : safe_id s = true -> good_part s.
Proof.
  destruct s as [|c s]; [done|]. simpl. intros [Hc Hs]%andb_true_iff. split_and!.
  - done.
  - intros [= -> ->]. done.
  - intros [= -> ->]. done.
  - apply no_slash_cons. auto using safe_char_not_slash, safe_tail_no_slash.
Qed.

Lemma parse_part c : good_part c -> parse_path c = mk_path "" [c].
Proof.
  intros Hc. pose proof Hc as (Hne & Hd & _ & Hs). unfold parse_path.
  rewrite split_no_char by (by apply no_slash_spec). simpl.
  apply String.eqb_neq in Hne as ->. apply String.eqb_neq in Hd as ->. simpl. f_equal.
  destruct c as [|x c]; [done|]. apply no_slash_cons in Hs as [Hx _].
  rewrite !startswith_cons, (proj2 (Ascii.eqb_neq slash x)) by congruence. done.
Qed.

Lemma path_join_part p c : good_part c -> path_join p c = mk_path (pp_root p) (pp_parts p ++ [c]).
Proof. intros Hc. unfold path_join. by rewrite parse_part. Qed.

Lemma literal_good c : (negb (String.eqb c "") && negb (String.eqb c ".") && negb (String.eqb c "..")
  && negb (contains_char slash c)) = true -> good_part c.
Proof. intros H. reflect_bools. split_and!; [done..|]. by apply no_slash_spec. Qed.

Lemma thread_dir_Ok base t u d :
  thread_dir base t (Some u) = Ok d ->
  good_part t /\ good_part u
  /\ d = mk_path (pp_root base) (pp_parts base ++ ["users"; u; "threads"; t]).
Proof.
  unfold thread_dir, user_dir, validate_user_id, validate_thread_id.
  destruct (safe_id u) eqn:Eu; [|done]. destruct (safe_id t) eqn:Et; [|done]. simpl. intros [= <-].
  apply safe_id_good in Eu, Et. split; [done|]. split; [done|].
  rewrite !path_join_part by (done || by apply literal_good). simpl. f_equal. by rewrite <-!app_assoc.
Qed.

(** Everything the sandbox of a thread is given lies in the thread's directory. *)
Lemma thread_subdirs base t u d f :
  thread_dir base t (Some u) = Ok d ->
  f ∈ [sandbox_user_data_dir; sandbox_work_dir; sandbox_uploads_dir; sandbox_outputs_dir; acp_workspace_dir] ->
  exists rest, f base t (Some u) = Ok (mk_path (pp_root d) (pp_parts d ++ rest)) /\ Forall good_part rest.
Proof.
  intros Hd Hf.
  assert (Hlit : forall c, c ∈ ["user-data"; "workspace"; "uploads"; "outputs"; "acp-workspace"] -> good_part c).
  { intros c Hc. apply literal_good. set_unfold in Hc. naive_solver. }
  set_unfold in Hf. destruct Hf as [->|[->|[->|[->|[->|[]]]]]];
    unfold sandbox_user_data_dir, sandbox_work_dir, sandbox_uploads_dir, sandbox_outputs_dir, acp_workspace_dir;
    rewrite Hd; simpl; rewrite !path_join_part by (apply Hlit; set_solver); simpl; rewrite <-?app_assoc; eexists;
    (split; [done|]); repeat constructor; apply Hlit; set_solver.
Qed.

(** The directories of different threads are disjoint subtrees. *)
Lemma thread_dirs_disjoint base t1 u1 t2 u2 d1 d2 q :
  thread_dir base t1 (Some u1) = Ok d1 -> thread_dir base t2 (Some u2) = Ok d2 ->
  pp_parts d1 `prefix_of` q -> pp_parts d2 `prefix_of` q -> u1 = u2 /\ t1 = t2.
Proof.
  intros (_ & _ & ->)%thread_dir_Ok (_ & _ & ->)%thread_dir_Ok [k1 ->] [k2 E]. simpl in E.
  rewrite <-!app_assoc in E. apply app_inv_head in E. simplify_eq/=. done.
Qed.

(** Sanitizing is the identity on its results, so the identifier made for one
    raw id is itself a raw id with the same bucket. *)
Lemma sanitize_idem s : sanitize (sanitize s) = sanitize s.
Proof.
  induction s as [|c s IH]; [done|]. simpl. rewrite IH. f_equal. destruct (safe_char c) eqn:E; [by rewrite E|done].
Qed.

Lemma sanitize_app s t : sanitize (s +:+ t) = sanitize s +:+ sanitize t.
Proof. induction s as [|c s IH]; [done|]. rewrite str_app_cons. simpl. rewrite IH. by rewrite str_app_cons. Qed.

Definition hex_text (s : string) : Prop := sanitize s = s.

Lemma str_take_sanitize n s : sanitize (str_take n s) = str_take n (sanitize s).
Proof. revert n. induction s as [|c s IH]; intros [|n]; simpl; [done..|]. by rewrite IH. Qed.
