(* ===== verification/LocalSandbox.v ===== *)
(** * The local sandbox and its provider

    [sandbox/local/local_sandbox.py] and [local_sandbox_provider.py] on a POSIX
    host: container paths mapped to directories of the host, the check that a
    resolved path stays in its mount, read-only mounts, the rewriting of paths
    in written and read text, and the cache of one sandbox per thread.

    The file system is a value: files by location, directories, and the
    parameters [realpath] (resolution of symbolic links), [denied] (locations
    the process may not touch) and the UTF-8 codec (decoding fails with a text).  Running commands, listing
    and searching directories are not modelled. *)
From S2P Require Import Prelude PyString PyPath Paths.
From Stdlib Require Import Ascii.
Local Open Scope string_scope.
Local Open Scope Z_scope.
Local Open Scope list_scope.

(** ** Exceptions *)

Inductive os_code : Type := ENOENT | EACCES | EISDIR | ENOTDIR | EEXIST | EROFS | EFBIG.

#[global] Instance os_code_eq_dec : EqDecision os_code.
Proof. solve_decision. Defined.

(** The exceptions the file tools tell apart: [OSError] with its code, text and
    file name (the code decides the subclass), the one-argument
    [PermissionError] and [FileNotFoundError], the sandbox errors with their
    class and text, [UnicodeDecodeError] and [ValueError] with theirs. *)
Inductive exn : Type :=
| OSErr (code : os_code) (strerror filename : string)
| PermErr (msg : string)
| NotFoundErr (msg : string)
| SandboxErr (cls msg : string)
| UnicodeErr (text : string)
| ValueErr (msg : string).

#[global] Instance exn_eq_dec : EqDecision exn.
Proof. solve_decision. Defined.

Definition os_strerror (code : os_code) : string :=
  match code with
  | ENOENT => "No such file or directory"
  | EACCES => "Permission denied"
  | EISDIR => "Is a directory"
  | ENOTDIR => "Not a directory"
  | EEXIST => "File exists"
  | EROFS => "Read-only file system"
  | EFBIG => "File too large"
  end.

Definition os_error (code : os_code) (filename : string) : exn := OSErr code (os_strerror code) filename.

(** [except OSError as e: raise type(e)(e.errno, e.strerror, path)]. *)
Definition reraise_as {A} (path : string) (r : result exn A) : result exn A :=
  match r with
  | Err (OSErr code text _) => Err (OSErr code text path)
  | _ => r
  end.

(** ** Files *)

Record fs : Type := mk_fs { fs_files : gmap loc string; fs_dirs : gset loc }.

Record path_mapping : Type := mk_mapping { container_path : string; local_path : string; read_only : bool }.

#[global] Instance path_mapping_eq_dec : EqDecision path_mapping.
Proof. solve_decision. Defined.

Record local_sandbox : Type := mk_sandbox {
  sb_id : string;
  sb_mappings : list path_mapping;
  sb_written : gset string
}.

Definition new_sandbox (id : string) (mappings : list path_mapping) : local_sandbox := mk_sandbox id mappings ∅.

(** Text mode reads every line ending as a newline. *)
Fixpoint universal_newlines (s : string) : string :=
  match s with
  | "" => ""
  | String "013" s' =>
      match s' with
      | String "010" s'' => String "010" (universal_newlines s'')
      | _ => String "010" (universal_newlines s')
      end
  | String c s' => String c (universal_newlines s')
  end.

(** ** Patterns in text *)

Fixpoint char_in (c : ascii) (s : string) : bool :=
  match s with "" => false | String x s' => Ascii.eqb c x || char_in c s' end.

(** White space, quotes and shell operators: the characters that end a path in
    text. *)
Definition is_delim (c : ascii) : bool :=
  is_space c || Ascii.eqb c "034" || Ascii.eqb c "039" || char_in c ";&|<>()".

(** [\w] on Latin-1. *)
Definition is_word (c : ascii) : bool :=
  let n := nat_of_ascii c in
  is_alnum c || Ascii.eqb c "_"
  || existsb (Nat.eqb n) [170; 178; 179; 181; 185; 186; 188; 189; 190]%nat
  || (bool_decide (192 <= n)%nat && negb (Nat.eqb n 215) && negb (Nat.eqb n 247)).

(** The longest run of characters outside the delimiters. *)
Fixpoint path_run (s : string) : nat :=
  match s with
  | "" => O
  | String c s' => if is_delim c then O else S (path_run s')
  end.

(** The optional rest of a path: a separator and the run after it. *)
Definition opt_tail (sep : ascii -> bool) (s : string) : nat :=
  match s with
  | String c s' => if sep c then S (path_run s') else O
  | "" => O
  end.

(** The look-aheads after a container path: in a command, a slash, a delimiter
    or the end (also before a last newline, which is a delimiter); in text, a
    slash, the end, or a character that cannot continue a name. *)
Definition command_boundary (s : string) : bool :=
  match s with "" => true | String c _ => is_slash c || is_delim c end.
Definition content_boundary (s : string) : bool :=
  match s with
  | "" => true
  | String c _ => is_slash c || negb (is_word c || Ascii.eqb c "." || Ascii.eqb c "/" || Ascii.eqb c "-")
  end.

(** The length of the match of one alternative at the start of [s]. *)
Definition match_container (boundary : string -> bool) (c s : string) : option nat :=
  if startswith c s && boundary (str_drop (String.length c) s)
  then Some (String.length c + opt_tail is_slash (str_drop (String.length c) s))%nat
  else None.

Fixpoint first_match (alternatives : list (string -> option nat)) (s : string) : option nat :=
  match alternatives with
  | [] => None
  | m :: rest => match m s with Some n => Some n | None => first_match rest s end
  end.

(** [pattern.sub(replace, s)] for a pattern that never matches the empty text. *)
Fixpoint re_sub (m : string -> option nat) (replace : string -> result exn string) (skip : nat) (s : string)
    : result exn string :=
  match s with
  | "" => Ok ""
  | String c s' =>
      match skip with
      | S k => re_sub m replace k s'
      | O =>
          match m s with
          | Some (S n) =>
              result_bind (replace (str_take (S n) s)) (fun r =>
              result_bind (re_sub m replace n s') (fun rest => Ok (r +:+ rest)))
          | _ => result_bind (re_sub m replace O s') (fun rest => Ok (String c rest))
          end
      end
  end.

Definition by_length_desc {A} (key : A -> string) (a b : A) : bool :=
  (String.length (key b) <=? String.length (key a))%nat.

(** [mapping.container_path.rstrip("/") or "/"]. *)
Definition container_key (m : path_mapping) : string :=
  let c := rstrip_by is_slash (container_path m) in if String.eqb c "" then "/" else c.

(** ** The sandbox *)

Section sandbox.
Context (realpath : string -> loc) (denied : loc -> bool).
Context (encode : string -> string) (decode : string -> result string string).

(** A file where a directory is needed, on the way to [l]. *)
Definition file_on_way (f : fs) (l : loc) : bool :=
  existsb (fun n => bool_decide (is_Some (fs_files f !! take n l))) (seq 0 (length l)).

(** [open(p).read()] in binary mode. *)
Definition read_bytes (p : string) (f : fs) : result exn string :=
  let l := realpath p in
  if denied l then Err (os_error EACCES p)
  else if bool_decide (l ∈ fs_dirs f) then Err (os_error EISDIR p)
  else if file_on_way f l then Err (os_error ENOTDIR p)
  else match fs_files f !! l with
       | Some b => Ok b
       | None => Err (os_error ENOENT p)
       end.

(** ... and in text mode with UTF-8. *)
Definition read_text (p : string) (f : fs) : result exn string :=
  result_bind (read_bytes p f) (fun b =>
  match decode b with
  | Ok s => Ok (universal_newlines s)
  | Err text => Err (UnicodeErr text)
  end).

(** [open(p, mode).write(data)] for the modes that create the file. *)
Definition write_bytes (p data : string) (append : bool) (f : fs) : result exn fs :=
  let l := realpath p in
  if denied l then Err (os_error EACCES p)
  else if bool_decide (l ∈ fs_dirs f) then Err (os_error EISDIR p)
  else if file_on_way f l then Err (os_error ENOTDIR p)
  else if negb (bool_decide (removelast l ∈ fs_dirs f)) then Err (os_error ENOENT p)
  else
    let old := if append then opt_or (fs_files f !! l) "" else "" in
    Ok (mk_fs (<[l := old +:+ data]> (fs_files f)) (fs_dirs f)).

(** [os.makedirs(p, exist_ok=True)]: the directories up to the real path. *)
Definition makedirs (p : string) (f : fs) : result exn fs :=
  let l := realpath p in
  let chain := (fun n => take n l) <$> seq 0 (S (length l)) in
  if file_on_way f l then Err (os_error ENOTDIR p)
  else if bool_decide (is_Some (fs_files f !! l)) then Err (os_error EEXIST p)
  else if existsb denied chain then Err (os_error EACCES p)
  else Ok (mk_fs (fs_files f) (list_to_set chain ∪ fs_dirs f)).

(** *** Mappings *)

(** [self._resolved_local_paths[m]]. *)
Definition resolved_local (m : path_mapping) : string := path_str (resolve realpath (local_path m)).

Definition mappings_by_container_specificity (sb : local_sandbox) : list path_mapping :=
  sort_by (by_length_desc container_key) (sb_mappings sb).
Definition mappings_by_local_specificity (sb : local_sandbox) : list path_mapping :=
  sort_by (by_length_desc local_path) (sb_mappings sb).
Definition mappings_by_container (sb : local_sandbox) : list path_mapping :=
  sort_by (by_length_desc container_path) (sb_mappings sb).

(** One mapping of [_find_path_mapping]. *)
Definition relative_in (m : path_mapping) (path : string) : option string :=
  let c := container_key m in
  if String.eqb c "/" then
    if startswith "/" path then Some (lstrip_by is_slash path) else None
  else if String.eqb path c || startswith (c +:+ "/") path
  then Some (lstrip_by is_slash (str_drop (String.length c) path))
  else None.

Fixpoint first_mapping (ms : list path_mapping) (path : string) : option (path_mapping * string) :=
  match ms with
  | [] => None
  | m :: rest => match relative_in m path with Some rel => Some (m, rel) | None => first_mapping rest path end
  end.

Definition find_path_mapping (sb : local_sandbox) (path : string) : option (path_mapping * string) :=
  first_mapping (mappings_by_container_specificity sb) path.

(** [_resolve_path_with_mapping]: the path to open and the mapping. *)
Definition resolve_path_with_mapping (sb : local_sandbox) (path : string)
    : result exn (string * option path_mapping) :=
  match find_path_mapping sb path with
  | None => Ok (path, None)
  | Some (m, relative) =>
      let local_root := parse_path (resolved_local m) in
      let resolved_path :=
        if String.eqb relative "" then local_root else resolve_pure realpath (path_join local_root relative) in
      if relative_to resolved_path local_root then Ok (path_str resolved_path, Some m)
      else Err (OSErr EACCES "Access denied: path escapes mounted directory" path)
  end.

Definition resolve_path (sb : local_sandbox) (path : string) : result exn string :=
  result_bind (resolve_path_with_mapping sb path) (fun r => Ok r.1).

(** [_is_read_only_path]: the flag of the most specific mapping. *)
Definition read_only_step (resolved : string) (best : option path_mapping * Z) (m : path_mapping)
    : option path_mapping * Z :=
  let local_resolved := resolved_local m in
  if String.eqb resolved local_resolved || startswith (local_resolved +:+ "/") resolved then
    let n := Z.of_nat (String.length local_resolved) in
    if best.2 <? n then (Some m, n) else best
  else best.

Definition is_read_only_path (sb : local_sandbox) (resolved_path : string) : bool :=
  let resolved := path_str (resolve realpath resolved_path) in
  match (foldl (read_only_step resolved) (None, -1) (sb_mappings sb)).1 with
  | None => false
  | Some m => read_only m
  end.

Definition is_resolved_path_read_only (sb : local_sandbox) (r : string * option path_mapping) : bool :=
  match r.2 with Some m => read_only m | None => false end || is_read_only_path sb r.1.

(** *** Paths in text *)

(** [_reverse_resolve_path]. *)
Fixpoint reverse_in (ms : list path_mapping) (p : string) : string :=
  match ms with
  | [] => p
  | m :: rest =>
      let local_path_resolved := resolved_local m in
      if String.eqb p local_path_resolved || startswith (local_path_resolved +:+ "/") p then
        let relative := lstrip_by is_slash (str_drop (String.length local_path_resolved) p) in
        if String.eqb relative "" then container_path m else container_path m +:+ "/" +:+ relative
      else reverse_in rest p
  end.

Definition reverse_resolve_path (sb : local_sandbox) (path : string) : string :=
  reverse_in (mappings_by_local_specificity sb)
    (path_str (resolve realpath (replace_char backslash slash path))).

(** [_reverse_resolve_paths_in_output]: one pass per mapping. *)
Definition match_local (base s : string) : option nat :=
  if startswith base s then Some (String.length base + opt_tail is_sep (str_drop (String.length base) s))%nat else None.

Definition reverse_pass (sb : local_sandbox) (output : string) (m : path_mapping) : string :=
  match re_sub (match_local (resolved_local m)) (fun p => Ok (reverse_resolve_path sb p)) 0 output with
  | Ok s => s
  | Err _ => output
  end.

Definition reverse_resolve_paths_in_output (sb : local_sandbox) (output : string) : string :=
  foldl (reverse_pass sb) output (mappings_by_local_specificity sb).

(** [_resolve_paths_in_command] and [_resolve_paths_in_content]. *)
Definition resolve_paths_in_command (sb : local_sandbox) (command : string) : result exn string :=
  re_sub (first_match ((fun m => match_container command_boundary (container_path m)) <$> mappings_by_container sb))
    (resolve_path sb) 0 command.

Definition resolve_paths_in_content (sb : local_sandbox) (content : string) : result exn string :=
  re_sub (first_match ((fun m => match_container content_boundary (container_path m)) <$> mappings_by_container sb))
    (fun p => result_bind (resolve_path sb p) (fun r => Ok (replace_char backslash slash r))) 0 content.

(** *** Operations *)

Definition read_file (path : string) (sb : local_sandbox) (f : fs) : result exn string :=
  result_bind (resolve_path sb path) (fun resolved_path =>
  reraise_as path (result_bind (read_text resolved_path f) (fun content =>
  Ok (if bool_decide (resolved_path ∈ sb_written sb) then reverse_resolve_paths_in_output sb content else content)))).

(** The directory of the file is created, then the file is opened and written;
    the directories stay when the rest fails. *)
Definition make_parent (resolved_path : string) (f : fs) : result exn fs :=
  if String.eqb (dirname resolved_path) "" then Ok f else makedirs (dirname resolved_path) f.

Definition write_file (path content : string) (append : bool) (sb : local_sandbox) (f : fs)
    : result exn () * local_sandbox * fs :=
  match resolve_path_with_mapping sb path with
  | Err e => (Err e, sb, f)
  | Ok resolved =>
      if is_resolved_path_read_only sb resolved then (Err (OSErr EROFS "Read-only file system" path), sb, f)
      else
        match make_parent resolved.1 f with
        | Err e => (reraise_as path (Err e), sb, f)
        | Ok f1 =>
            match resolve_paths_in_content sb content with
            | Err e => (reraise_as path (Err e), sb, f1)
            | Ok resolved_content =>
                match write_bytes resolved.1 (encode resolved_content) append f1 with
                | Err e => (reraise_as path (Err e), sb, f1)
                | Ok f2 => (Ok (), mk_sandbox (sb_id sb) (sb_mappings sb) ({[resolved.1]} ∪ sb_written sb), f2)
                end
            end
        end
  end.

Definition update_file (path content : string) (sb : local_sandbox) (f : fs) : result exn () * fs :=
  match resolve_path_with_mapping sb path with
  | Err e => (Err e, f)
  | Ok resolved =>
      if is_resolved_path_read_only sb resolved then (Err (OSErr EROFS "Read-only file system" path), f)
      else
        match make_parent resolved.1 f with
        | Err e => (reraise_as path (Err e), f)
        | Ok f1 =>
            match write_bytes resolved.1 content false f1 with
            | Err e => (reraise_as path (Err e), f1)
            | Ok f2 => (Ok (), f2)
            end
        end
  end.

Definition max_download_size : Z := 100 * 1024 * 1024.

Definition download_file (path : string) (sb : local_sandbox) (f : fs) : result exn string :=
  let stripped_path := lstrip_by is_slash (replace_char backslash slash path) in
  let allowed_prefix := lstrip_by is_slash VIRTUAL_PATH_PREFIX in
  if negb (String.eqb stripped_path allowed_prefix) && negb (startswith (allowed_prefix +:+ "/") stripped_path)
  then Err (OSErr EACCES "Access denied: path must be under '/mnt/user-data'" path)
  else
    result_bind (resolve_path sb path) (fun resolved_path =>
    if match fs_files f !! realpath resolved_path with
       | Some b => max_download_size <? Z.of_nat (String.length b)
       | None => false
       end
    then Err (OSErr EFBIG "File exceeds maximum download size of 104857600 bytes" path)
    else reraise_as path (read_bytes resolved_path f)).
End sandbox.

(** ** The provider *)

(** [VolumeMountConfig], and the parts of the configuration the provider reads. *)
Record mount_config : Type := mk_mount { host_path : string; mount_container : string; mount_read_only : bool }.

Record sandbox_config : Type := mk_sandbox_config {
  skills_container : string;
  skills_host : string;
  config_mounts : list mount_config
}.

Definition _ACP_WORKSPACE_VIRTUAL_PREFIX : string := "/mnt/acp-workspace".

Record provider : Type := mk_provider {
  pv_path_mappings : list path_mapping;
  pv_generic_sandbox : option local_sandbox;
  pv_thread_sandboxes : list (string * local_sandbox);
  pv_max_cached_threads : Z
}.

Section provider.
Context (realpath : string -> loc) (denied : loc -> bool) (base_dir : pure_path).

Definition path_exists (p : string) (f : fs) : bool :=
  bool_decide (realpath p ∈ fs_dirs f) || bool_decide (is_Some (fs_files f !! realpath p)).

(** The mapping of one mount of the configuration, unless it is skipped. *)
Definition mount_mapping (reserved : list string) (f : fs) (m : mount_config) : option path_mapping :=
  let c := let c := rstrip_by is_slash (mount_container m) in if String.eqb c "" then "/" else c in
  if negb (is_absolute (parse_path (host_path m))) then None
  else if negb (startswith "/" c) then None
  else if existsb (fun p => String.eqb c p || startswith (p +:+ "/") c) reserved then None
  else if path_exists (path_str (parse_path (host_path m))) f
  then Some (mk_mapping c (path_str (resolve realpath (host_path m))) (mount_read_only m))
  else None.

(** [_setup_path_mappings]. *)
Definition setup_path_mappings (cfg : sandbox_config) (f : fs) : list path_mapping :=
  (if path_exists (skills_host cfg) f then [mk_mapping (skills_container cfg) (skills_host cfg) true] else [])
  ++ omap (mount_mapping [skills_container cfg; _ACP_WORKSPACE_VIRTUAL_PREFIX; VIRTUAL_PATH_PREFIX] f)
       (config_mounts cfg).

Definition new_provider (cfg : sandbox_config) (max_cached_threads : Z) (f : fs) : provider :=
  mk_provider (setup_path_mappings cfg f) None [] max_cached_threads.

Definition lift_value {A} (r : result string A) : result exn A :=
  match r with Ok a => Ok a | Err msg => Err (ValueErr msg) end.

(** [ensure_thread_dirs]: the directories in order; those made stay when a
    later one fails. *)
Fixpoint make_all (ds : list pure_path) (f : fs) : result exn () * fs :=
  match ds with
  | [] => (Ok (), f)
  | d :: rest =>
      match makedirs realpath denied (path_str d) f with
      | Err e => (Err e, f)
      | Ok f1 => make_all rest f1
      end
  end.

(** The five directories of a thread. *)
Definition thread_dirs (thread_id : string) (user_id : option string)
    : result string (pure_path * pure_path * pure_path * pure_path * pure_path) :=
  result_bind (sandbox_user_data_dir base_dir thread_id user_id) (fun user_data =>
  result_bind (sandbox_work_dir base_dir thread_id user_id) (fun work =>
  result_bind (sandbox_uploads_dir base_dir thread_id user_id) (fun uploads =>
  result_bind (sandbox_outputs_dir base_dir thread_id user_id) (fun outputs =>
  result_bind (acp_workspace_dir base_dir thread_id user_id) (fun acp =>
  Ok (user_data, work, uploads, outputs, acp)))))).

(** The five mappings of a thread. *)
Definition thread_path_mappings (dirs : pure_path * pure_path * pure_path * pure_path * pure_path) : list path_mapping :=
  let '(user_data, work, uploads, outputs, acp) := dirs in
  [mk_mapping VIRTUAL_PATH_PREFIX (path_str user_data) false;
   mk_mapping (VIRTUAL_PATH_PREFIX +:+ "/workspace") (path_str work) false;
   mk_mapping (VIRTUAL_PATH_PREFIX +:+ "/uploads") (path_str uploads) false;
   mk_mapping (VIRTUAL_PATH_PREFIX +:+ "/outputs") (path_str outputs) false;
   mk_mapping _ACP_WORKSPACE_VIRTUAL_PREFIX (path_str acp) false].

(** [_build_thread_path_mappings]. *)
Definition build_thread_path_mappings (thread_id : string) (user_id : option string) (f : fs)
    : result exn (list path_mapping) * fs :=
  match thread_dirs thread_id user_id with
  | Err msg => (Err (ValueErr msg), f)
  | Ok ((_, work, uploads, outputs, acp) as dirs) =>
      let '(made, f1) := make_all [work; uploads; outputs; acp] f in
      match made with
      | Err e => (Err e, f1)
      | Ok _ => (Ok (thread_path_mappings dirs), f1)
      end
  end.

Definition set_threads (ts : list (string * local_sandbox)) (pv : provider) : provider :=
  mk_provider (pv_path_mappings pv) (pv_generic_sandbox pv) ts (pv_max_cached_threads pv).

(** [_evict_until_within_cap_locked]. *)
Definition evict_until_within_cap (pv : provider) : provider :=
  set_threads
    (drop (Z.to_nat (Z.of_nat (length (pv_thread_sandboxes pv)) - pv_max_cached_threads pv)) (pv_thread_sandboxes pv)) pv.

Definition acquire_generic (pv : provider) : string * provider :=
  match pv_generic_sandbox pv with
  | Some sb => (sb_id sb, pv)
  | None =>
      ("local", mk_provider (pv_path_mappings pv) (Some (new_sandbox "local" (pv_path_mappings pv)))
                  (pv_thread_sandboxes pv) (pv_max_cached_threads pv))
  end.

(** [acquire]. *)
Definition acquire (thread_id : option string) (user_id : option string) (pv : provider) (f : fs)
    : result exn string * provider * fs :=
  match thread_id with
  | None => let '(id, pv1) := acquire_generic pv in (Ok id, pv1, f)
  | Some t =>
      match dict_get t (pv_thread_sandboxes pv) with
      | Some cached =>
          (Ok (sb_id cached), set_threads (dict_move_to_end t (pv_thread_sandboxes pv)) pv, f)
      | None =>
          let '(built, f1) := build_thread_path_mappings t user_id f in
          match built with
          | Err e => (Err e, pv, f1)
          | Ok thread_mappings =>
              let sb := new_sandbox ("local:" +:+ t) (pv_path_mappings pv ++ thread_mappings) in
              (Ok (sb_id sb), evict_until_within_cap (set_threads (dict_set t sb (pv_thread_sandboxes pv)) pv), f1)
          end
      end
  end.

(** [get]. *)
Definition get (sandbox_id : string) (pv : provider) : option local_sandbox * provider :=
  if String.eqb sandbox_id "local" then
    let pv1 := (acquire_generic pv).2 in (pv_generic_sandbox pv1, pv1)
  else if startswith "local:" sandbox_id then
    let t := str_drop 6 sandbox_id in
    match dict_get t (pv_thread_sandboxes pv) with
    | Some cached => (Some cached, set_threads (dict_move_to_end t (pv_thread_sandboxes pv)) pv)
    | None => (None, pv)
    end
  else (None, pv).

(** [reset] and [shutdown]. *)
Definition reset_provider (pv : provider) : provider :=
  mk_provider (pv_path_mappings pv) None [] (pv_max_cached_threads pv).

(** The sandbox objects are shared: what an operation does to one is visible
    wherever the provider hands it out again. *)
Definition put_back (sb : local_sandbox) (pv : provider) : provider :=
  if String.eqb (sb_id sb) "local" then
    mk_provider (pv_path_mappings pv) (Some sb) (pv_thread_sandboxes pv) (pv_max_cached_threads pv)
  else
    let t := str_drop 6 (sb_id sb) in
    if dict_mem t (pv_thread_sandboxes pv) then set_threads (dict_set t sb (pv_thread_sandboxes pv)) pv else pv.
End provider.
