(* ===== verification/SandboxTools.v ===== *)
(** * The file tools of the agent

    [sandbox/tools.py] in local mode: which virtual paths a tool may use, how
    they become host paths, the masking of host paths in errors, the truncation
    of outputs, and the tools [read_file], [write_file] and [str_replace]
    composed with the provider and the local sandbox.  Values looked up in the
    configuration are the fields of [tool_env]. *)
From S2P Require Import Prelude PyString PyList PyPath Paths LocalSandbox.
From stdpp Require Import pretty.
From Stdlib Require Import Ascii.
Local Open Scope string_scope.
Local Open Scope Z_scope.
Local Open Scope list_scope.

(** ** State *)

Record thread_data : Type := mk_thread_data {
  workspace_path : option string;
  uploads_path : option string;
  outputs_path : option string
}.

(** [runtime.state] and what of [runtime.context] and [runtime.config] is read. *)
Record runtime_state : Type := mk_runtime_state {
  rs_sandbox_id : option string;
  rs_thread_data : option thread_data;
  rs_thread_id : option string;
  rs_directories_created : bool
}.

Inductive tool_runtime : Type := NoRuntime | NoState | HasState (r : runtime_state).

Record tool_state : Type := mk_tool_state { ts_runtime : tool_runtime; ts_provider : provider; ts_fs : fs }.

Record tool_env : Type := mk_tool_env {
  te_skills_container : string;
  te_skills_host : option string;
  te_mounts : list mount_config;
  te_base_dir : pure_path;
  te_user_id : string;
  te_read_file_max_chars : Z;
  te_write_file_max_bytes : Z
}.

Definition _ACP_WORKSPACE_VIRTUAL_PATH : string := "/mnt/acp-workspace".
Definition _DEFAULT_WRITE_FILE_ERROR_MAX_CHARS : Z := 2000.

(** [ThreadDataMiddleware._get_thread_paths]. *)
Definition get_thread_paths (base_dir : pure_path) (thread_id : string) (user_id : option string)
    : result string thread_data :=
  result_bind (sandbox_work_dir base_dir thread_id user_id) (fun w =>
  result_bind (sandbox_uploads_dir base_dir thread_id user_id) (fun u =>
  result_bind (sandbox_outputs_dir base_dir thread_id user_id) (fun o =>
  Ok (mk_thread_data (Some (path_str w)) (Some (path_str u)) (Some (path_str o)))))).

(** ** Which paths *)

(** [path == base or path.startswith(f"{base}/")], without the quotes. *)
Definition under (base path : string) : bool := String.eqb path base || startswith (base +:+ "/") path.

Definition is_skills_path (env : tool_env) (path : string) : bool := under (te_skills_container env) path.
Definition is_acp_workspace_path (path : string) : bool := under _ACP_WORKSPACE_VIRTUAL_PATH path.
Definition is_custom_mount_path (env : tool_env) (path : string) : bool :=
  existsb (fun m => under (mount_container m) path) (te_mounts env).

Definition better_mount (path : string) (best : option mount_config) (m : mount_config) : option mount_config :=
  if under (mount_container m) path then
    match best with
    | None => Some m
    | Some b => if (String.length (mount_container b) <? String.length (mount_container m))%nat then Some m else best
    end
  else best.

Definition get_custom_mount_for_path (env : tool_env) (path : string) : option mount_config :=
  foldl (better_mount path) None (te_mounts env).

(** [_reject_path_traversal]. *)
Definition reject_path_traversal (path : string) : result exn () :=
  if existsb (String.eqb "..") (split_char slash (replace_char backslash slash path))
  then Err (PermErr "Access denied: path traversal detected") else Ok ().

Definition no_thread_data : exn := SandboxErr "SandboxRuntimeError" "Thread data not available for local sandbox".

(** [validate_local_tool_path]. *)
Definition validate_local_tool_path (env : tool_env) (path : string) (td : option thread_data) (read_only : bool)
    : result exn () :=
  match td with
  | None => Err no_thread_data
  | Some _ =>
      result_bind (reject_path_traversal path) (fun _ =>
      if is_skills_path env path then
        if negb read_only then Err (PermErr ("Write access to skills path is not allowed: " +:+ path)) else Ok ()
      else if is_acp_workspace_path path then
        if negb read_only then Err (PermErr ("Write access to ACP workspace is not allowed: " +:+ path)) else Ok ()
      else if startswith (VIRTUAL_PATH_PREFIX +:+ "/") path then Ok ()
      else if is_custom_mount_path env path then
        match get_custom_mount_for_path env path with
        | Some m =>
            if mount_read_only m && negb read_only
            then Err (PermErr ("Write access to read-only mount is not allowed: " +:+ path)) else Ok ()
        | None => Ok ()
        end
      else Err (PermErr ("Only paths under " +:+ VIRTUAL_PATH_PREFIX +:+ "/, " +:+ te_skills_container env +:+ "/, "
                         +:+ _ACP_WORKSPACE_VIRTUAL_PATH +:+ "/, or configured mount paths are allowed")))
  end.

(** ** Host paths *)

Definition path_separator_for_style (path : string) : ascii :=
  if contains_char backslash path && negb (contains_char slash path) then backslash else slash.

(** [_join_path_preserving_style]. *)
Definition join_path_preserving_style (base relative : string) : string :=
  if String.eqb relative "" then base
  else
    let separator := path_separator_for_style base in
    let other := if Ascii.eqb separator slash then backslash else slash in
    rstrip_by is_sep base +:+ String separator "" +:+ lstrip_by is_sep (replace_char other separator relative).

Definition given (o : option string) : option string := if truthy o then o else None.

(** [_thread_virtual_to_actual_mappings]. *)
Definition thread_virtual_to_actual_mappings (td : thread_data) : list (string * string) :=
  let workspace := given (workspace_path td) in
  let uploads := given (uploads_path td) in
  let outputs := given (outputs_path td) in
  let entry (name : string) (o : option string) (d : list (string * string)) :=
    match o with Some p => dict_set (VIRTUAL_PATH_PREFIX +:+ name) p d | None => d end in
  let mappings := entry "/outputs" outputs (entry "/uploads" uploads (entry "/workspace" workspace [])) in
  let parents := (fun p => path_str (path_parent (parse_path p))) <$> omap id [workspace; uploads; outputs] in
  match parents with
  | common :: _ => if forallb (String.eqb common) parents then dict_set VIRTUAL_PATH_PREFIX common mappings else mappings
  | [] => mappings
  end.

Definition thread_actual_to_virtual_mappings (td : thread_data) : list (string * string) :=
  foldl (fun d p => dict_set p.2 p.1 d) [] (thread_virtual_to_actual_mappings td).

(** The loop of [replace_virtual_path]. *)
Fixpoint replace_in (mappings : list (string * string)) (path : string) : string :=
  match mappings with
  | [] => path
  | (virtual_base, actual_base) :: rest =>
      if String.eqb path virtual_base then actual_base
      else if startswith (virtual_base +:+ "/") path then
        let r := join_path_preserving_style actual_base
                   (lstrip_by is_slash (str_drop (String.length virtual_base) path)) in
        if endswith "/" path && negb (endswith "/" r || endswith (String backslash "") r)
        then r +:+ String (path_separator_for_style actual_base) "" else r
      else replace_in rest path
  end.

Definition replace_virtual_path (path : string) (td : option thread_data) : string :=
  match td with
  | None => path
  | Some td => replace_in (sort_by (by_length_desc fst) (thread_virtual_to_actual_mappings td)) path
  end.

(** [_resolve_skills_path]. *)
Definition resolve_skills_path (env : tool_env) (path : string) : result exn string :=
  match te_skills_host env with
  | None => Err (NotFoundErr ("Skills directory not available for path: " +:+ path))
  | Some host =>
      if String.eqb path (te_skills_container env) then Ok host
      else Ok (join_path_preserving_style host
                 (lstrip_by is_slash (str_drop (String.length (te_skills_container env)) path)))
  end.

(** [_extract_thread_id_from_thread_data]. *)
Definition extract_thread_id_from_thread_data (td : option thread_data) : option string :=
  match td with
  | None => None
  | Some td =>
      match given (workspace_path td) with
      | None => None
      | Some w => Some (path_name (path_parent (path_parent (parse_path w))))
      end
  end.

(** ** Truncation *)

Definition lf : string := String "010" "".

Definition slen (s : string) : Z := Z.of_nat (String.length s).
Definition sslice (n : Z) (s : string) : string := str_take (Z.to_nat n) s.
Definition stail (n : Z) (s : string) : string := str_drop (String.length s - Z.to_nat n) s.

(** Middle truncation with a marker that tells how much was skipped. *)
Definition middle_truncate (marker : Z -> string) (output : string) (max_chars : Z) : string :=
  if max_chars =? 0 then output
  else if slen output <=? max_chars then output
  else
    let total_len := slen output in
    let kept := Z.max 0 (max_chars - slen (marker total_len)) in
    if kept =? 0 then (if max_chars <? 0 then str_take (Z.to_nat (total_len + max_chars)) output else sslice max_chars output)
    else
      let head_len := kept / 2 in
      let tail_len := kept - head_len in
      sslice head_len output +:+ marker (total_len - kept) +:+ (if 0 <? tail_len then stail tail_len output else "").

(** Head truncation with a marker that tells how much is shown. *)
Definition head_truncate (marker : Z -> Z -> string) (output : string) (max_chars : Z) : string :=
  if max_chars =? 0 then output
  else if slen output <=? max_chars then output
  else
    let total := slen output in
    let kept := Z.max 0 (max_chars - slen (marker total total)) in
    if kept =? 0 then (if max_chars <? 0 then str_take (Z.to_nat (total + max_chars)) output else sslice max_chars output)
    else sslice kept output +:+ marker kept total.

Definition truncate_bash_output : string -> Z -> string :=
  middle_truncate (fun skipped => lf +:+ "... [middle truncated: " +:+ pretty skipped +:+ " chars skipped] ..." +:+ lf).
Definition truncate_write_file_error_detail : string -> Z -> string :=
  middle_truncate (fun skipped => lf +:+ "... [write_file error truncated: " +:+ pretty skipped +:+ " chars skipped] ..." +:+ lf).
Definition truncate_read_file_output : string -> Z -> string :=
  head_truncate (fun kept total => lf +:+ "... [truncated: showing first " +:+ pretty kept +:+ " of " +:+ pretty total
    +:+ " chars. Use start_line/end_line to read a specific range] ...").
Definition truncate_ls_output : string -> Z -> string :=
  head_truncate (fun kept total => lf +:+ "... [truncated: showing first " +:+ pretty kept +:+ " of " +:+ pretty total
    +:+ " chars. Use a more specific path to see fewer results] ...").

(** ** Limits of searches *)

Definition clamp_max_results (value default upper_bound : Z) : Z := if value <=? 0 then default else Z.min value upper_bound.

Definition resolve_max_results (configured requested default upper_bound : Z) : Z :=
  Z.min (clamp_max_results requested default upper_bound) (clamp_max_results configured default upper_bound).

(** ** With a file system *)

Section tools.
Context (realpath : string -> loc) (denied : loc -> bool).
Context (encode : string -> string) (decode : string -> result string string).
Context (py_repr : string -> string) (env : tool_env).

(** [_get_acp_workspace_host_path]. *)
Definition get_acp_workspace_host_path (thread_id : option string) (f : fs) : option string :=
  match thread_id with
  | Some t =>
      match acp_workspace_dir (te_base_dir env) t (Some (te_user_id env)) with
      | Ok d => if path_exists realpath (path_str d) f then Some (path_str d) else None
      | Err _ => None
      end
  | None =>
      let d := path_join (te_base_dir env) "acp-workspace" in
      if path_exists realpath (path_str d) f then Some (path_str d) else None
  end.

Definition traversal : exn := PermErr "Access denied: path traversal detected".

(** [_resolve_acp_workspace_path]. *)
Definition resolve_acp_workspace_path (path : string) (thread_id : option string) (f : fs) : result exn string :=
  result_bind (reject_path_traversal path) (fun _ =>
  match get_acp_workspace_host_path thread_id f with
  | None => Err (NotFoundErr ("ACP workspace directory not available for path: " +:+ path))
  | Some host =>
      if String.eqb path _ACP_WORKSPACE_VIRTUAL_PATH then Ok host
      else
        let relative := lstrip_by is_slash (str_drop (String.length _ACP_WORKSPACE_VIRTUAL_PATH) path) in
        let resolved := join_path_preserving_style host relative in
        if contains_char slash host && negb (contains_char backslash host) then
          let base_path := normpath host in
          match commonpath base_path (normpath resolved) with
          | Some c => if String.eqb c base_path then Ok resolved else Err traversal
          | None => Err traversal
          end
        else
          let resolved_path := resolve realpath resolved in
          if relative_to resolved_path (resolve realpath host) then Ok (path_str resolved_path) else Err traversal
  end).

(** [_validate_resolved_user_data_path]. *)
Definition allowed_roots (td : thread_data) : list pure_path :=
  resolve realpath <$> omap id [workspace_path td; uploads_path td; outputs_path td].

Definition validate_resolved_user_data_path (resolved : pure_path) (td : thread_data) : result exn () :=
  match allowed_roots td with
  | [] => Err (SandboxErr "SandboxRuntimeError" "No allowed local sandbox directories configured")
  | roots => if existsb (relative_to resolved) roots then Ok () else Err traversal
  end.

(** [_resolve_and_validate_user_data_path]. *)
Definition resolve_and_validate_user_data_path (path : string) (td : thread_data) : result exn string :=
  let resolved := resolve realpath (replace_virtual_path path (Some td)) in
  result_bind (validate_resolved_user_data_path resolved td) (fun _ => Ok (path_str resolved)).

(** [_resolve_local_read_path], of [glob] and [grep]. *)
Definition resolve_local_read_path (path : string) (td : thread_data) (f : fs) : result exn string :=
  result_bind (validate_local_tool_path env path (Some td) true) (fun _ =>
  if is_skills_path env path then resolve_skills_path env path
  else if is_acp_workspace_path path
  then resolve_acp_workspace_path path (extract_thread_id_from_thread_data (Some td)) f
  else resolve_and_validate_user_data_path path td).

(** The path [ls] and [read_file] hand to the sandbox. *)
Definition local_read_target (path : string) (td : option thread_data) (f : fs) : result exn string :=
  result_bind (validate_local_tool_path env path td true) (fun _ =>
  if is_skills_path env path then resolve_skills_path env path
  else if is_acp_workspace_path path
  then resolve_acp_workspace_path path (extract_thread_id_from_thread_data td) f
  else if is_custom_mount_path env path then Ok path
  else match td with
       | Some td => resolve_and_validate_user_data_path path td
       | None => Err no_thread_data
       end).

(** The path [write_file] and [str_replace] hand to it. *)
Definition local_write_target (path : string) (td : option thread_data) : result exn string :=
  result_bind (validate_local_tool_path env path td false) (fun _ =>
  if is_custom_mount_path env path then Ok path
  else match td with
       | Some td => resolve_and_validate_user_data_path path td
       | None => Err no_thread_data
       end).

(** *** Masking *)

Definition path_variants (path : string) : list string :=
  [path; replace_char backslash slash path; replace_char slash backslash path].

(** A base as a pattern: its backslashes match either separator. *)
Fixpoint masked_prefix (base s : string) : bool :=
  match base, s with
  | "", _ => true
  | String b base', String c s' =>
      (if Ascii.eqb b backslash then is_sep c else Ascii.eqb b c) && masked_prefix base' s'
  | _, "" => false
  end.

Definition match_masked (base s : string) : option nat :=
  if masked_prefix base s
  then Some (String.length base + opt_tail is_sep (str_drop (String.length base) s))%nat else None.

Definition mask_text (virtual base matched_path : string) : string :=
  if String.eqb matched_path base then virtual
  else
    let relative := lstrip_by is_sep (str_drop (String.length base) matched_path) in
    if String.eqb relative "" then virtual else virtual +:+ "/" +:+ relative.

Definition mask_pass (virtual : string) (output base : string) : string :=
  match re_sub (match_masked base) (fun p => Ok (mask_text virtual base p)) 0 output with
  | Ok s => s
  | Err _ => output
  end.

(** The bases of one host directory, once each.  The code iterates over a set;
    this is one of its orders. *)
Fixpoint once (seen l : list string) : list string :=
  match l with
  | [] => []
  | x :: l' => if bool_decide (x ∈ seen) then once seen l' else x :: once (x :: seen) l'
  end.

Definition mask_host (virtual host output : string) : string :=
  foldl (mask_pass virtual) output
    (once [] (path_variants (path_str (parse_path host)) ++ path_variants (path_str (resolve realpath host)))).

(** [mask_local_paths_in_output]. *)
Definition mask_local_paths_in_output (output : string) (td : option thread_data) (f : fs) : string :=
  let r1 := match given (te_skills_host env) with
            | Some host => mask_host (te_skills_container env) host output
            | None => output
            end in
  let r2 := match given (get_acp_workspace_host_path (extract_thread_id_from_thread_data td) f) with
            | Some host => mask_host _ACP_WORKSPACE_VIRTUAL_PATH host r1
            | None => r1
            end in
  match td with
  | None => r2
  | Some td =>
      foldl (fun out p => mask_host p.2 p.1 out) r2
        (sort_by (by_length_desc fst) (thread_actual_to_virtual_mappings td))
  end.

(** *** Runtime *)

Definition is_local_sandbox (rt : tool_runtime) : bool :=
  match rt with
  | HasState r =>
      match rs_sandbox_id r with
      | Some id => String.eqb id "local" || startswith "local:" id
      | None => false
      end
  | _ => false
  end.

Definition get_thread_data (rt : tool_runtime) : option thread_data :=
  match rt with HasState r => rs_thread_data r | _ => None end.

Definition sandbox_not_found (id : string) : exn :=
  SandboxErr "SandboxNotFoundError" ("Sandbox not found after acquisition (sandbox_id=" +:+ id +:+ ")").

(** [ensure_sandbox_initialized]. *)
Definition existing_sandbox (r : runtime_state) (pv : provider) : option local_sandbox * provider :=
  match rs_sandbox_id r with
  | Some id => get id pv
  | None => (None, pv)
  end.

Definition ensure_sandbox_initialized (s : tool_state) : result exn local_sandbox * tool_state :=
  match ts_runtime s with
  | NoRuntime => (Err (SandboxErr "SandboxRuntimeError" "Tool runtime not available"), s)
  | NoState => (Err (SandboxErr "SandboxRuntimeError" "Tool runtime state not available"), s)
  | HasState r =>
      let '(found, pv1) := existing_sandbox r (ts_provider s) in
      match found with
      | Some sb => (Ok sb, mk_tool_state (HasState r) pv1 (ts_fs s))
      | None =>
          match rs_thread_id r with
          | None => (Err (SandboxErr "SandboxRuntimeError" "Thread ID not available in runtime context"), mk_tool_state (HasState r) pv1 (ts_fs s))
          | Some t =>
              let '(acquired, pv2, f2) := acquire realpath denied (te_base_dir env) (Some t) (Some (te_user_id env)) pv1 (ts_fs s) in
              match acquired with
              | Err e => (Err e, mk_tool_state (HasState r) pv2 f2)
              | Ok id =>
                  let r2 := mk_runtime_state (Some id) (rs_thread_data r) (rs_thread_id r) (rs_directories_created r) in
                  let '(sb, pv3) := get id pv2 in
                  (match sb with Some sb => Ok sb | None => Err (sandbox_not_found id) end, mk_tool_state (HasState r2) pv3 f2)
              end
          end
      end
  end.

(** [ensure_thread_directories_exist]. *)
Fixpoint make_dirs (ps : list (option string)) (f : fs) : result exn () * fs :=
  match ps with
  | [] => (Ok (), f)
  | p :: rest =>
      match given p with
      | None => make_dirs rest f
      | Some p =>
          match makedirs realpath denied p f with
          | Err e => (Err e, f)
          | Ok f1 => make_dirs rest f1
          end
      end
  end.

Definition ensure_thread_directories_exist (s : tool_state) : result exn () * tool_state :=
  match ts_runtime s with
  | HasState r =>
      if negb (is_local_sandbox (ts_runtime s)) then (Ok (), s)
      else match rs_thread_data r with
           | None => (Ok (), s)
           | Some td =>
               if rs_directories_created r then (Ok (), s)
               else
                 let '(made, f1) := make_dirs [workspace_path td; uploads_path td; outputs_path td] (ts_fs s) in
                 match made with
                 | Err e => (Err e, mk_tool_state (ts_runtime s) (ts_provider s) f1)
                 | Ok _ =>
                     (Ok (), mk_tool_state
                        (HasState (mk_runtime_state (rs_sandbox_id r) (rs_thread_data r) (rs_thread_id r) true))
                        (ts_provider s) f1)
                 end
           end
  | _ => (Ok (), s)
  end.

(** *** Errors *)

Definition errno (code : os_code) : Z :=
  match code with
  | ENOENT => 2 | EACCES => 13 | EEXIST => 17 | ENOTDIR => 20 | EISDIR => 21 | EFBIG => 27 | EROFS => 30
  end.

(** [type(e).__name__]. *)
Definition exn_name (e : exn) : string :=
  match e with
  | OSErr ENOENT _ _ | NotFoundErr _ => "FileNotFoundError"
  | OSErr EACCES _ _ | PermErr _ => "PermissionError"
  | OSErr EEXIST _ _ => "FileExistsError"
  | OSErr ENOTDIR _ _ => "NotADirectoryError"
  | OSErr EISDIR _ _ => "IsADirectoryError"
  | OSErr _ _ _ => "OSError"
  | SandboxErr cls _ => cls
  | UnicodeErr _ => "UnicodeDecodeError"
  | ValueErr _ => "ValueError"
  end.

(** [str(e)]. *)
Definition exn_str (e : exn) : string :=
  match e with
  | OSErr code text filename => "[Errno " +:+ pretty (errno code) +:+ "] " +:+ text +:+ ": " +:+ py_repr filename
  | PermErr msg | NotFoundErr msg | SandboxErr _ msg | UnicodeErr msg | ValueErr msg => msg
  end.

(** [_sanitize_error]. *)
Definition sanitize_error (e : exn) (s : tool_state) : string :=
  let msg := exn_name e +:+ ": " +:+ exn_str e in
  if is_local_sandbox (ts_runtime s)
  then mask_local_paths_in_output msg (get_thread_data (ts_runtime s)) (ts_fs s) else msg.

(** [_format_write_file_error] with the default bound. *)
Definition format_write_file_error (requested_path : string) (e : exn) (s : tool_state) : string :=
  let max_chars := _DEFAULT_WRITE_FILE_ERROR_MAX_CHARS in
  let header := "Error: Failed to write file '" +:+ requested_path +:+ "'" in
  let detail := sanitize_error e s in
  let detail_budget := max_chars - slen header - 2 in
  if detail_budget <=? 0 then truncate_write_file_error_detail (header +:+ ": " +:+ detail) max_chars
  else header +:+ ": " +:+ truncate_write_file_error_detail detail detail_budget.

(** The handlers of the three tools, in the order of their clauses.  [read_file]
    and [str_replace] bind [requested_path] after the sandbox and the
    directories are ready: a clause that prints it before raises
    [UnboundLocalError] out of the tool. *)
Definition unbound_local : string :=
  "cannot access local variable 'requested_path' where it is not associated with a value".

Definition with_path (requested_path : option string) (answer : string -> string) : result string string :=
  match requested_path with Some p => Ok (answer p) | None => Err unbound_local end.

Definition read_file_error (requested_path : option string) (e : exn) (s : tool_state) : result string string :=
  match e with
  | SandboxErr _ msg => Ok ("Error: " +:+ msg)
  | OSErr ENOENT _ _ | NotFoundErr _ => with_path requested_path (fun p => "Error: File not found: " +:+ p)
  | OSErr EACCES _ _ | PermErr _ => with_path requested_path (fun p => "Error: Permission denied reading file: " +:+ p)
  | OSErr EISDIR _ _ => with_path requested_path (fun p => "Error: Path is a directory, not a file: " +:+ p)
  | UnicodeErr _ => with_path requested_path (fun p =>
      "Error: cannot read '" +:+ p +:+ "' as text — it appears to be a binary file (e.g. .xlsx, .pdf, or an image). read_file only supports UTF-8 text. Use bash with a suitable library instead (pandas/openpyxl for spreadsheets), or view_image for images.")
  | _ => Ok ("Error: Unexpected error reading file: " +:+ sanitize_error e s)
  end.

Definition write_file_error (requested_path : string) (e : exn) (s : tool_state) : string :=
  match e with
  | OSErr EACCES _ _ | PermErr _ =>
      truncate_write_file_error_detail ("Error: Permission denied writing to file: " +:+ requested_path)
        _DEFAULT_WRITE_FILE_ERROR_MAX_CHARS
  | OSErr EISDIR _ _ =>
      truncate_write_file_error_detail ("Error: Path is a directory, not a file: " +:+ requested_path)
        _DEFAULT_WRITE_FILE_ERROR_MAX_CHARS
  | _ => format_write_file_error requested_path e s
  end.

Definition str_replace_error (requested_path : option string) (e : exn) (s : tool_state) : result string string :=
  match e with
  | SandboxErr _ msg => Ok ("Error: " +:+ msg)
  | OSErr ENOENT _ _ | NotFoundErr _ => with_path requested_path (fun p => "Error: File not found: " +:+ p)
  | OSErr EACCES _ _ | PermErr _ => with_path requested_path (fun p => "Error: Permission denied accessing file: " +:+ p)
  | _ => Ok ("Error: Unexpected error replacing string: " +:+ sanitize_error e s)
  end.

(** *** Tools *)

(** [str.splitlines]. *)
Definition is_line_break (c : ascii) : bool :=
  existsb (Nat.eqb (nat_of_ascii c)) [10; 11; 12; 13; 28; 29; 30; 133]%nat.

Fixpoint splitlines (s : string) : list string :=
  match s with
  | "" => []
  | String c s' =>
      if is_line_break c then
        match c, s' with
        | "013"%char, String "010" s'' => "" :: splitlines s''
        | _, _ => "" :: splitlines s'
        end
      else match splitlines s' with
           | h :: t => String c h :: t
           | [] => [String c ""]
           end
  end.

(** What every file tool does first: the sandbox, the directories, the path.
    A failure comes with the [requested_path] bound by then. *)
Definition prepare (target : option thread_data -> fs -> result exn string) (path : string) (s : tool_state)
    : result (option string * exn) (local_sandbox * string) * tool_state :=
  let '(sandbox, s1) := ensure_sandbox_initialized s in
  match sandbox with
  | Err e => (Err (None, e), s1)
  | Ok sb =>
      let '(made, s2) := ensure_thread_directories_exist s1 in
      match made with
      | Err e => (Err (None, e), s2)
      | Ok _ =>
          if is_local_sandbox (ts_runtime s2) then
            (match target (get_thread_data (ts_runtime s2)) (ts_fs s2) with
             | Ok p => Ok (sb, p)
             | Err e => Err (Some path, e)
             end, s2)
          else (Ok (sb, path), s2)
      end
  end.

(** An [Err] is an exception that leaves the tool. *)
Definition read_file_tool (path : string) (start_line end_line : option Z) (s : tool_state)
    : result string string * tool_state :=
  let '(prepared, s1) := prepare (local_read_target path) path s in
  match prepared with
  | Err (bound, e) => (read_file_error bound e s1, s1)
  | Ok (sb, p) =>
      match read_file realpath denied decode p sb (ts_fs s1) with
      | Err e => (read_file_error (Some path) e s1, s1)
      | Ok content =>
          if String.eqb content "" then (Ok "(empty)", s1)
          else
            let content :=
              match start_line, end_line with
              | Some a, Some b => String.concat lf (py_slice (Some (a - 1)) (Some b) (splitlines content))
              | _, _ => content
              end in
            (Ok (truncate_read_file_output content (te_read_file_max_chars env)), s1)
      end
  end.

(** The state after an operation on the sandbox object. *)
Definition after_op (sb : local_sandbox) (f : fs) (s : tool_state) : tool_state :=
  mk_tool_state (ts_runtime s) (put_back sb (ts_provider s)) f.

Definition too_large (content : string) (append : bool) : option string :=
  let content_bytes := slen (encode content) in
  let max_bytes := te_write_file_max_bytes env in
  if negb append && (0 <? max_bytes) && (max_bytes <? content_bytes) then
    Some ("Error: write_file content (" +:+ pretty content_bytes +:+ " bytes) exceeds the " +:+ pretty max_bytes
          +:+ "-byte single-call limit. Split the content into smaller pieces: either (a) write the first section now, then use `str_replace` for further edits, or (b) call write_file again with append=True carrying the next section. See SIZE POLICY in the tool docstring or issue #3189 for the rationale.")
  else None.

Definition write_file_tool (path content : string) (append : bool) (s : tool_state)
    : result string string * tool_state :=
  match too_large content append with
  | Some msg => (Ok msg, s)
  | None =>
      let '(prepared, s1) := prepare (fun td _ => local_write_target path td) path s in
      match prepared with
      | Err (_, e) => (Ok (write_file_error path e s1), s1)
      | Ok (sb, p) =>
          let '(written, sb2, f2) := write_file realpath denied encode p content append sb (ts_fs s1) in
          let s2 := after_op sb2 f2 s1 in
          match written with
          | Err e => (Ok (write_file_error path e s2), s2)
          | Ok _ => (Ok "OK", s2)
          end
      end
  end.

Definition str_replace_tool (path old_str new_str : string) (replace_all : bool) (s : tool_state)
    : result string string * tool_state :=
  let '(prepared, s1) := prepare (fun td _ => local_write_target path td) path s in
  match prepared with
  | Err (bound, e) => (str_replace_error bound e s1, s1)
  | Ok (sb, p) =>
      match read_file realpath denied decode p sb (ts_fs s1) with
      | Err e => (str_replace_error (Some path) e s1, s1)
      | Ok content =>
          if String.eqb content "" then (Ok "OK", s1)
          else if negb (contains old_str content)
          then (Ok ("Error: String to replace not found in file: " +:+ path), s1)
          else
            let content := str_replace old_str new_str (if replace_all then None else Some 1%nat) content in
            let '(written, sb2, f2) := write_file realpath denied encode p content false sb (ts_fs s1) in
            let s2 := after_op sb2 f2 s1 in
            match written with
            | Err e => (str_replace_error (Some path) e s2, s2)
            | Ok _ => (Ok "OK", s2)
            end
      end
  end.
End tools.
