(* ===== verification/SandboxProps.v ===== *)
(** * What the file tools promise

    Whatever path the model gives to a tool, the tool changes only files in the
    directory of its thread or in a writable mount, over any sequence of calls
    of any threads; outputs stay within their bounds; a file reads back as it
    was written. *)
From S2P Require Import Prelude PyString PyList PyPath Paths LocalSandbox SandboxTools.
From stdpp Require Import pretty.
From Stdlib Require Import Ascii.
Local Open Scope string_scope.
Local Open Scope Z_scope.
Local Open Scope list_scope.

(** [os.path.realpath]: an absolute path without dots, and the canonical path
    of everything on the way to it is itself. *)
Class RealPath (realpath : string -> loc) : Prop := {
  realpath_good : forall p, Forall good_part (realpath p);
  realpath_canonical : forall p l, l `prefix_of` realpath p -> realpath (loc_str l) = l
}.

Section local_sandbox.
Context (realpath : string -> loc) `{!RealPath realpath} (denied : loc -> bool) (encode : string -> string).

(** Where a mapping leads. *)
Definition mapping_root (m : path_mapping) : loc := realpath (path_str (parse_path (local_path m))).

Definition canonical (l : loc) : Prop := exists p, l `prefix_of` realpath p.

Lemma canonical_realpath l : canonical l -> realpath (loc_str l) = l.
Proof. intros [p Hp]. by eapply realpath_canonical. Qed.

Lemma canonical_self p : canonical (realpath p).
Proof. by exists p. Qed.

Lemma canonical_good l : canonical l -> Forall good_part l.
Proof. intros [p Hp]. eapply Forall_prefix; [exact Hp|apply realpath_good]. Qed.

Lemma mapping_root_canonical m : canonical (mapping_root m).
Proof. apply canonical_self. Qed.

Lemma resolved_local_eq m : resolved_local realpath m = loc_str (mapping_root m).
Proof. unfold resolved_local, resolve, resolve_pure. by rewrite path_str_loc. Qed.

Lemma first_mapping_elem ms p m rel : first_mapping ms p = Some (m, rel) -> m ∈ ms /\ relative_in m p = Some rel.
Proof.
  induction ms as [|x ms IH]; simpl; [done|]. destruct (relative_in x p) eqn:E.
  - intros [= -> ->]. split; [by left|done].
  - intros H. destruct (IH H) as [? ?]. split; [by right|done].
Qed.

Lemma first_mapping_None ms p m : first_mapping ms p = None -> m ∈ ms -> relative_in m p = None.
Proof.
  induction ms as [|x ms IH]; simpl; [by intros _ ?%not_elem_of_nil|].
  destruct (relative_in x p) eqn:E; [done|]. intros H [->|Hin]%elem_of_cons; auto.
Qed.

Lemma find_mapping_elem sb p m rel : find_path_mapping sb p = Some (m, rel) -> m ∈ sb_mappings sb.
Proof. intros [Hm _]%first_mapping_elem. by apply sort_by_elem in Hm. Qed.

(** A resolved path is the given one, or a canonical path in its mount. *)
Lemma resolve_with_mapping_spec sb p r om :
  resolve_path_with_mapping realpath sb p = Ok (r, om) ->
  (om = None /\ find_path_mapping sb p = None /\ r = p)
  \/ exists m l, om = Some m /\ m ∈ sb_mappings sb /\ r = loc_str l /\ mapping_root m `prefix_of` l /\ canonical l.
Proof using RealPath0.
  unfold resolve_path_with_mapping. destruct (find_path_mapping sb p) as [[m rel]|] eqn:E.
  2: { intros [= <- <-]. by left. }
  rewrite resolved_local_eq, parse_loc_str by apply canonical_good, mapping_root_canonical. intros H. right.
  assert (Hl : exists l, canonical l /\ (if String.eqb rel "" then loc_path (mapping_root m)
    else resolve_pure realpath (path_join (loc_path (mapping_root m)) rel)) = loc_path l).
  { destruct (String.eqb rel ""); [eexists; split; [apply mapping_root_canonical|done]|].
    eexists. split; [apply canonical_self|]. reflexivity. }
  destruct Hl as (l & Hc & El). rewrite El in H.
  destruct (relative_to (loc_path l) (loc_path (mapping_root m))) eqn:Er; [|done].
  injection H as [= <- <-]. exists m, l. split; [done|]. split; [by eapply find_mapping_elem|].
  split; [apply path_str_loc|]. split; [by apply relative_to_loc|done].
Qed.

Lemma makedirs_files p f f' : makedirs realpath denied p f = Ok f' -> fs_files f' = fs_files f.
Proof. unfold makedirs. repeat (case_match; [done|]). by intros [= <-]. Qed.

Lemma make_parent_files p f f' : make_parent realpath denied p f = Ok f' -> fs_files f' = fs_files f.
Proof. unfold make_parent. case_match; [by intros [= <-]|apply makedirs_files]. Qed.

Lemma write_bytes_files p data append f f' q :
  write_bytes realpath denied p data append f = Ok f' ->
  fs_files f' !! q <> fs_files f !! q -> q = realpath p.
Proof.
  unfold write_bytes. repeat (case_match; [done|]). intros [= <-]. simpl.
  destruct (decide (q = realpath p)) as [->|Hne]; [done|]. by rewrite lookup_insert_ne.
Qed.

(** The only file a write changes: the canonical one in a writable mount, or
    the one named when no mount matches. *)
Lemma write_file_frame p content append sb f r sb' f' q :
  write_file realpath denied encode p content append sb f = (r, sb', f') ->
  fs_files f' !! q <> fs_files f !! q ->
  (find_path_mapping sb p = None /\ q = realpath p)
  \/ exists m, m ∈ sb_mappings sb /\ read_only m = false /\ mapping_root m `prefix_of` q.
Proof using RealPath0.
  unfold write_file. destruct (resolve_path_with_mapping realpath sb p) as [[rp om]|] eqn:E; [|by intros [= <- <- <-]].
  destruct (is_resolved_path_read_only realpath sb (rp, om)) eqn:Ero; [by intros [= <- <- <-]|].
  destruct (make_parent realpath denied (rp, om).1 f) as [f1|] eqn:Em; [|by intros [= <- <- <-]].
  pose proof (make_parent_files _ _ _ Em) as Hf1.
  destruct (resolve_paths_in_content _ _ _) as [c|]; [|intros [= <- <- <-]; by rewrite Hf1].
  destruct (write_bytes _ _ _ _ _ _) as [f2|] eqn:Ew; [|intros [= <- <- <-]; by rewrite Hf1].
  intros [= <- <- <-] Hq. rewrite <-Hf1 in Hq. pose proof (write_bytes_files _ _ _ _ _ _ Ew Hq) as ->.
  apply resolve_with_mapping_spec in E as [(-> & Hn & ->)|(m & l & -> & Hm & -> & Hr & Hc)]; [by left|].
  right. exists m. split; [done|]. unfold is_resolved_path_read_only in Ero. simpl in Ero.
  apply orb_false_iff in Ero as [Hro _]. split; [done|]. simpl. by rewrite canonical_realpath.
Qed.

(** The sandbox keeps its mappings. *)
Lemma write_file_sandbox p content append sb f r sb' f' :
  write_file realpath denied encode p content append sb f = (r, sb', f') ->
  sb_id sb' = sb_id sb /\ sb_mappings sb' = sb_mappings sb.
Proof. unfold write_file. repeat case_match; by intros [= <- <- <-]. Qed.
End local_sandbox.

(** ** Prefixes of paths *)

Lemma under_iff base path : under base path = true <-> path = base \/ exists t, path = base +:+ "/" +:+ t.
Proof.
  unfold under. rewrite orb_true_iff, String.eqb_eq, startswith_iff.
  split; (intros [?|[t ->]]; [by left|right; exists t; by rewrite str_app_assoc]).
Qed.

(** The container path a mount is given under. *)
Definition normal_container (c : string) : string :=
  let k := rstrip_by is_slash c in if String.eqb k "" then "/" else k.

Lemma normal_container_absolute c : startswith "/" c = true -> startswith "/" (normal_container c) = true.
Proof.
  destruct c as [|x c]; [done|]. rewrite startswith_cons, andb_true_iff, Ascii.eqb_eq. intros [<- _].
  unfold normal_container. simpl. destruct (rstrip_by is_slash c); done.
Qed.

Lemma under_stripped c path :
  under c path = true -> path = rstrip_by is_slash c \/ exists u, path = rstrip_by is_slash c +:+ "/" +:+ u.
Proof.
  rewrite under_iff. intros Hu. destruct (rstrip_decomp c) as (t & E & Ht).
  set (k := rstrip_by is_slash c) in *. destruct t as [|x t].
  - rewrite str_app_nil_r in E. rewrite E in Hu. exact Hu.
  - apply all_slashes_head in Ht as ->. right. rewrite E in Hu.
    destruct Hu as [->|[u ->]]; [by exists t|exists (t +:+ "/" +:+ u)]. by rewrite !str_app_assoc.
Qed.

(** A path under a configured container path is under its mapping. *)
Lemma under_relative c path m :
  startswith "/" c = true -> container_path m = normal_container c -> under c path = true ->
  relative_in m path <> None.
Proof.
  intros Hc Hm Hu.
  assert (Hkey : container_key m = normal_container c).
  { unfold container_key. rewrite Hm. unfold normal_container.
    destruct (String.eqb (rstrip_by is_slash c) "") eqn:Ek; [done|]. by rewrite rstrip_idem, Ek. }
  unfold relative_in. rewrite Hkey. unfold normal_container. destruct (String.eqb (rstrip_by is_slash c) "") eqn:Ek.
  - rewrite String.eqb_refl. apply under_iff in Hu. apply startswith_iff in Hc as [c' ->].
    rewrite (proj2 (startswith_iff "/" path)); [done|].
    destruct Hu as [->|[u ->]]; eexists; by rewrite ?str_app_assoc.
  - destruct (String.eqb (rstrip_by is_slash c) "/") eqn:Es.
    { apply String.eqb_eq in Es. pose proof (rstrip_idem c) as Hid. rewrite Es in Hid. done. }
    set (k := rstrip_by is_slash c).
    destruct (under_stripped c path Hu) as [->|[u ->]]; [by rewrite String.eqb_refl|].
    rewrite (proj2 (startswith_iff (k +:+ "/") _)); [by rewrite orb_true_r|].
    exists u. by rewrite str_app_assoc.
Qed.

(** Under a reserved prefix all the way. *)
Lemma under_reserved p c path :
  startswith "/" c = true -> under p (normal_container c) = true -> p <> "/" -> under c path = true ->
  under p path = true.
Proof.
  intros Hc Hk Hp Hu. unfold normal_container in Hk. destruct (String.eqb (rstrip_by is_slash c) "") eqn:Ek.
  - rewrite under_iff in *. destruct Hk as [<-|[u Hk]]; [done|]. destruct p as [|a p]; [|rewrite str_app_cons in Hk; simplify_eq; by destruct p].
    right. apply startswith_iff in Hc as [c' ->]. destruct Hu as [->|[v ->]].
    + by exists c'.
    + exists (c' +:+ "/" +:+ v). by rewrite !str_app_assoc.
  - set (k := rstrip_by is_slash c) in *.
    pose proof (under_stripped c path Hu) as Hpath. fold k in Hpath. rewrite under_iff in Hk |- *.
    destruct Hk as [Hk|[v Hk]]; rewrite Hk in Hpath; [done|].
    right. destruct Hpath as [->|[u ->]]; [by exists v|exists (v +:+ "/" +:+ u)]. by rewrite !str_app_assoc.
Qed.

(** ** Paths handed to the sandbox *)

Section targets.
Context (realpath : string -> loc) `{!RealPath realpath} (env : tool_env).

Definition user_roots (td : thread_data) : list loc :=
  (fun p => realpath (path_str (parse_path p))) <$> omap id [workspace_path td; uploads_path td; outputs_path td].

Lemma user_data_target path td p :
  resolve_and_validate_user_data_path realpath path td = Ok p ->
  exists l root, p = loc_str l /\ canonical realpath l /\ root ∈ user_roots td /\ root `prefix_of` l.
Proof.
  unfold resolve_and_validate_user_data_path, validate_resolved_user_data_path, resolve, resolve_pure.
  set (l := realpath _). intros H.
  assert (Hex : existsb (relative_to (loc_path l)) (allowed_roots realpath td) = true /\ p = loc_str l).
  { destruct (allowed_roots realpath td) as [|r rs]; [done|].
    destruct (existsb (relative_to (loc_path l)) (r :: rs)); [|done]. simpl in H. simplify_eq.
    by rewrite path_str_loc. }
  destruct Hex as [Hex ->]. apply existsb_exists in Hex as (root & Hin & Hrel). unfold allowed_roots in Hin.
  apply list_elem_of_In, list_elem_of_fmap in Hin as (q & -> & Hq). apply relative_to_loc in Hrel.
  exists l, (realpath (path_str (parse_path q))). split; [done|]. split; [apply canonical_self|].
  split; [|done]. apply list_elem_of_fmap. by exists q.
Qed.

Lemma write_target path td p :
  local_write_target realpath env path td = Ok p ->
  exists td', td = Some td' /\
  ((is_custom_mount_path env path = true /\ p = path /\ is_skills_path env path = false /\ is_acp_workspace_path path = false)
   \/ exists l root, p = loc_str l /\ canonical realpath l /\ root ∈ user_roots td' /\ root `prefix_of` l).
Proof.
  unfold local_write_target, validate_local_tool_path. destruct td as [td|]; [|done]. intros H. exists td. split; [done|].
  destruct (reject_path_traversal path); [|done]. simpl in H.
  destruct (is_skills_path env path) eqn:Es; [done|]. destruct (is_acp_workspace_path path) eqn:Ea; [done|].
  apply result_bind_Ok in H as ([] & _ & H).
  destruct (is_custom_mount_path env path) eqn:Ec; [left; by simplify_eq|right]. by eapply user_data_target.
Qed.

(** The mounts of the configuration that exist are mapped, or lie under a
    reserved prefix. *)
Definition mounts_absolute (ms : list mount_config) : bool :=
  forallb (fun m => is_absolute (parse_path (host_path m)) && startswith "/" (mount_container m)) ms.

Lemma mount_mapped (ms : list mount_config) reserved f m :
  m ∈ ms -> is_absolute (parse_path (host_path m)) = true -> startswith "/" (mount_container m) = true ->
  path_exists realpath (path_str (parse_path (host_path m))) f = true ->
  (exists p, p ∈ reserved /\ under p (normal_container (mount_container m)) = true)
  \/ exists m', m' ∈ omap (mount_mapping realpath reserved f) ms
       /\ container_path m' = normal_container (mount_container m).
Proof.
  intros Hin Hh Hc Hex. unfold mount_mapping.
  destruct (existsb (fun p => String.eqb (normal_container (mount_container m)) p
    || startswith (p +:+ "/") (normal_container (mount_container m))) reserved) eqn:Er.
  - left. apply existsb_exists in Er as (p & Hp & Hu). exists p. split; [by apply list_elem_of_In|done].
  - right. eexists. split.
    + apply list_elem_of_omap. exists m. split; [done|]. rewrite Hh. simpl. fold (normal_container (mount_container m)).
      rewrite normal_container_absolute by done. simpl. rewrite Er, Hex. reflexivity.
    + done.
Qed.
End targets.

(** Membership in an explicit list. *)
Ltac in_list := repeat first [by apply elem_of_cons; left|apply elem_of_cons; right].

(** *** Traversal in a suffix *)

Lemma replace_char_app a b s t : replace_char a b (s +:+ t) = replace_char a b s +:+ replace_char a b t.
Proof. induction s as [|c s IH]; [done|]. rewrite str_app_cons. simpl. by rewrite IH. Qed.

Definition has_dotdot (s : string) : bool := existsb (String.eqb "..") (split_char slash (replace_char backslash slash s)).

Lemma has_dotdot_lstrip u : has_dotdot u = false -> has_dotdot (lstrip_by is_slash u) = false.
Proof.
  induction u as [|c u IH]; [done|]. simpl. destruct (is_slash c) eqn:Ec; [|done].
  apply Ascii.eqb_eq in Ec as ->. exact IH.
Qed.

Lemma reject_iff s : reject_path_traversal s = Ok () <-> has_dotdot s = false.
Proof. unfold reject_path_traversal. fold (has_dotdot s). by destruct (has_dotdot s). Qed.

Lemma reject_relative base path :
  under base path = true -> reject_path_traversal path = Ok () ->
  reject_path_traversal (lstrip_by is_slash (str_drop (String.length base) path)) = Ok ().
Proof.
  rewrite under_iff, !reject_iff. intros [->|[u ->]] H.
  - replace (str_drop (String.length base) base) with ""; [done|].
    rewrite <-(str_app_nil_r base) at 2. by rewrite str_drop_app_exact.
  - rewrite str_drop_app_exact. apply has_dotdot_lstrip.
    unfold has_dotdot in H. rewrite replace_char_app in H.
    change (replace_char backslash slash ("/" +:+ u)) with (String slash (replace_char backslash slash u)) in H.
    rewrite split_app_gen, existsb_app in H. apply orb_false_iff in H as [_ H]. exact H.
Qed.

(** ** All threads over one provider and one file system *)

Inductive file_call : Type :=
| ReadFile (path : string) (start_line end_line : option Z)
| WriteFile (path content : string) (append : bool)
| StrReplace (path old_str new_str : string) (replace_all : bool).

Record system : Type := mk_system {
  sy_provider : provider;
  sy_fs : fs;
  sy_runtimes : string -> runtime_state
}.

Section system.
Context (realpath : string -> loc) `{!RealPath realpath} (denied : loc -> bool).
Context (encode : string -> string) (decode : string -> result string string) (py_repr : string -> string).
Context (cfg : sandbox_config) (base_dir : pure_path) (owner : string -> string).
Context (read_max write_max max_cached : Z) (f0 : fs).

(** The configuration as the tools see it in a call of thread [t]: the caches
    of the lookups hold what existed at the start. *)
Definition system_env (t : string) : tool_env :=
  mk_tool_env (skills_container cfg)
    (if path_exists realpath (skills_host cfg) f0 then Some (skills_host cfg) else None)
    (List.filter (fun m => path_exists realpath (path_str (parse_path (host_path m))) f0) (config_mounts cfg))
    base_dir (owner t) read_max write_max.

Definition thread_data_of (t : string) : option thread_data :=
  match get_thread_paths base_dir t (Some (owner t)) with Ok td => Some td | Err _ => None end.

Definition fresh_runtime (t : string) : runtime_state := mk_runtime_state None (thread_data_of t) (Some t) false.

Definition new_system : system :=
  mk_system (new_provider realpath cfg max_cached f0) f0 fresh_runtime.

Definition do_call (t : string) (c : file_call) (s : tool_state) : result string string * tool_state :=
  match c with
  | ReadFile path a b => read_file_tool realpath denied decode py_repr (system_env t) path a b s
  | WriteFile path content append => write_file_tool realpath denied encode py_repr (system_env t) path content append s
  | StrReplace path old new all => str_replace_tool realpath denied encode decode py_repr (system_env t) path old new all s
  end.

Definition tool_state_of (t : string) (sy : system) : tool_state :=
  mk_tool_state (HasState (sy_runtimes sy t)) (sy_provider sy) (sy_fs sy).

Definition system_of (t : string) (s : tool_state) (sy : system) : system :=
  mk_system (ts_provider s) (ts_fs s)
    (fun t' => if decide (t' = t) then match ts_runtime s with HasState r => r | _ => sy_runtimes sy t' end
               else sy_runtimes sy t').

Definition after_call (t : string) (c : file_call) (sy : system) : system :=
  system_of t (do_call t c (tool_state_of t sy)).2 sy.

(** A call of some thread; a new invocation of a thread; anything another
    process does to the files; a reset of the provider. *)
Inductive sys_step : system -> system -> Prop :=
| sys_call t c sy : sys_step sy (after_call t c sy)
| sys_invoke t sy :
    sys_step sy (mk_system (sy_provider sy) (sy_fs sy)
      (fun t' => if decide (t' = t) then fresh_runtime t else sy_runtimes sy t'))
| sys_world f sy : sys_step sy (mk_system (sy_provider sy) f (sy_runtimes sy))
| sys_reset sy : sys_step sy (mk_system (reset_provider (sy_provider sy)) (sy_fs sy) (sy_runtimes sy)).

(** *** Invariant *)

Definition static_mappings : list path_mapping := setup_path_mappings realpath cfg f0.

Definition thread_sandbox (t : string) (sb : local_sandbox) : Prop :=
  sb_id sb = "local:" +:+ t
  /\ exists dirs, thread_dirs base_dir t (Some (owner t)) = Ok dirs
     /\ sb_mappings sb = static_mappings ++ thread_path_mappings dirs.

Definition provider_ok (pv : provider) : Prop :=
  pv_path_mappings pv = static_mappings /\ dict_wf (pv_thread_sandboxes pv)
  /\ forall t sb, dict_get t (pv_thread_sandboxes pv) = Some sb -> thread_sandbox t sb.

Definition runtime_ok (t : string) (r : runtime_state) : Prop :=
  rs_thread_id r = Some t /\ rs_thread_data r = thread_data_of t
  /\ (rs_sandbox_id r = None \/ rs_sandbox_id r = Some ("local:" +:+ t)).

Definition system_ok (sy : system) : Prop :=
  provider_ok (sy_provider sy) /\ forall t, runtime_ok t (sy_runtimes sy t).

Definition state_ok (t : string) (s : tool_state) : Prop :=
  provider_ok (ts_provider s) /\ exists r, ts_runtime s = HasState r /\ runtime_ok t r.

Lemma str_drop_local t : str_drop 6 ("local:" +:+ t) = t.
Proof. by destruct t. Qed.

Lemma local_prefix t : startswith "local:" ("local:" +:+ t) = true.
Proof. apply startswith_app. Qed.

Lemma local_not_generic t : String.eqb ("local:" +:+ t) "local" = false.
Proof. done. Qed.

Lemma threads_move pv t :
  provider_ok pv -> provider_ok (set_threads (dict_move_to_end t (pv_thread_sandboxes pv)) pv).
Proof.
  intros (Hp & Hwf & Hs). split; [done|]. simpl. split; [by apply dict_wf_move|].
  intros t' sb. rewrite dict_get_move. apply Hs.
Qed.

Lemma get_thread_ok pv t o pv' :
  provider_ok pv -> get ("local:" +:+ t) pv = (o, pv') ->
  provider_ok pv' /\ forall sb, o = Some sb -> thread_sandbox t sb.
Proof.
  intros Hok. unfold get. rewrite local_not_generic, local_prefix, str_drop_local.
  destruct (dict_get t (pv_thread_sandboxes pv)) as [sb|] eqn:E; intros [= <- <-].
  - split; [by apply threads_move|]. intros ? [= <-]. by apply Hok.
  - by split.
Qed.

Lemma dict_get_drop {V} n t (d : list (string * V)) v : dict_wf d -> dict_get t (drop n d) = Some v -> dict_get t d = Some v.
Proof.
  intros Hwf H. apply dict_get_elem; [done|]. apply dict_get_Some_elem in H.
  rewrite <-(take_drop n d). apply elem_of_app. by right.
Qed.

Lemma dict_wf_drop {V} n (d : list (string * V)) : dict_wf d -> dict_wf (drop n d).
Proof.
  unfold dict_wf, dict_keys. intros Hwf. rewrite <-(take_drop n d), fmap_app in Hwf. by apply NoDup_app in Hwf as (_ & _ & ?).
Qed.

Lemma make_all_files ds f r f' : make_all realpath denied ds f = (r, f') -> fs_files f' = fs_files f.
Proof.
  revert f. induction ds as [|d ds IH]; intros f; simpl; [by intros [= <- <-]|].
  destruct (makedirs _ _ _ _) as [f1|] eqn:E; [|by intros [= <- <-]]. intros H%IH. by apply makedirs_files in E as <-.
Qed.

Lemma build_mappings_spec t f r f' :
  build_thread_path_mappings realpath denied base_dir t (Some (owner t)) f = (r, f') ->
  fs_files f' = fs_files f
  /\ forall ms, r = Ok ms -> exists dirs, thread_dirs base_dir t (Some (owner t)) = Ok dirs /\ ms = thread_path_mappings dirs.
Proof.
  unfold build_thread_path_mappings. destruct (thread_dirs base_dir t (Some (owner t))) as [dirs|]; [|by intros [= <- <-]].
  destruct dirs as [[[[ud w] u] o] a] eqn:Ed. destruct (make_all _ _ _ _) as [made f1] eqn:E.
  apply make_all_files in E. destruct made; intros [= <- <-]; (split; [done|]); [|done].
  intros ms [= <-]. eauto.
Qed.

Lemma acquire_thread_ok pv t f r pv' f' :
  provider_ok pv -> acquire realpath denied base_dir (Some t) (Some (owner t)) pv f = (r, pv', f') ->
  provider_ok pv' /\ fs_files f' = fs_files f /\ forall id, r = Ok id -> id = "local:" +:+ t.
Proof.
  intros Hok. unfold acquire. destruct (dict_get t (pv_thread_sandboxes pv)) as [sb|] eqn:E.
  - intros [= <- <- <-]. split; [by apply threads_move|]. split; [done|]. intros id [= <-].
    by apply Hok in E as [-> _].
  - destruct (build_thread_path_mappings _ _ _ _ _ _) as [built f1] eqn:Eb.
    apply build_mappings_spec in Eb as [Hf Hb]. destruct built as [ms|]; intros [= <- <- <-]; [|done].
    destruct (Hb _ eq_refl) as (dirs & Hd & ->). destruct Hok as (Hp & Hwf & Hs).
    split; [|split; [done|by intros id [= <-]]]. split; [done|]. simpl.
    split; [by apply dict_wf_drop, dict_wf_set|]. intros t' sb' Hget%dict_get_drop; [|by apply dict_wf_set].
    rewrite dict_get_set in Hget. case_decide; [|by apply Hs]. subst. simplify_eq. split; [done|].
    exists dirs. split; [done|]. simpl. by rewrite Hp.
Qed.

Definition has_sandbox (t : string) (s : tool_state) : Prop :=
  exists r, ts_runtime s = HasState r /\ rs_sandbox_id r = Some ("local:" +:+ t).

Lemma has_sandbox_local t s : has_sandbox t s -> is_local_sandbox (ts_runtime s) = true.
Proof. intros (r & Hr & Hid). unfold is_local_sandbox. by rewrite Hr, Hid, local_prefix, orb_true_r. Qed.

Lemma ensure_sandbox_ok t s r s' :
  state_ok t s -> ensure_sandbox_initialized realpath denied (system_env t) s = (r, s') ->
  state_ok t s' /\ fs_files (ts_fs s') = fs_files (ts_fs s)
  /\ forall sb, r = Ok sb -> thread_sandbox t sb /\ has_sandbox t s'.
Proof.
  intros (Hpv & rs & Hr & Hrt). unfold ensure_sandbox_initialized. rewrite Hr.
  destruct (existing_sandbox rs (ts_provider s)) as [found pv1] eqn:Ef.
  assert (Hf : provider_ok pv1 /\ forall sb, found = Some sb -> thread_sandbox t sb /\ rs_sandbox_id rs = Some ("local:" +:+ t)).
  { unfold existing_sandbox in Ef. destruct Hrt as (_ & _ & [E|E]); rewrite E in Ef; [by simplify_eq|].
    apply get_thread_ok in Ef as [? ?]; [|done]. split; [done|]. eauto. }
  destruct Hf as [Hpv1 Hsb]. destruct found as [sb|].
  { intros [= <- <-]. split; [split; [done|by exists rs]|]. split; [done|]. intros ? [= <-].
    destruct (Hsb _ eq_refl). split; [done|by exists rs]. }
  pose proof Hrt as (Ht & Htd & _). rewrite Ht.
  change (te_base_dir (system_env t)) with base_dir. change (te_user_id (system_env t)) with (owner t).
  destruct (acquire _ _ _ _ _ _ _) as [[acquired pv2] f2] eqn:Ea.
  destruct (acquire_thread_ok _ _ _ _ _ _ Hpv1 Ea) as (Hpv2 & Hfiles & Hid).
  destruct acquired as [id|]; [|intros [= <- <-]; split; [split; [done|by exists rs]|done]].
  rewrite (Hid _ eq_refl). destruct (get ("local:" +:+ t) pv2) as [sb pv3] eqn:Eg.
  destruct (get_thread_ok _ _ _ _ Hpv2 Eg) as [Hpv3 Hsb3]. intros [= <- <-].
  split; [split; [done|]|].
  - eexists. split; [done|]. split; [done|]. split; [done|]. by right.
  - split; [done|]. intros sb' Hs. destruct sb as [sb0|]; [|done]. simplify_eq. split; [auto|]. by eexists.
Qed.

Lemma make_dirs_files ps f r f' : make_dirs realpath denied ps f = (r, f') -> fs_files f' = fs_files f.
Proof.
  revert f. induction ps as [|p ps IH]; intros f; simpl; [by intros [= <- <-]|].
  destruct (given p); [|apply IH].
  destruct (makedirs _ _ _ _) as [f1|] eqn:E; [|by intros [= <- <-]]. intros H%IH. by apply makedirs_files in E as <-.
Qed.

Lemma ensure_dirs_ok t s r s' :
  state_ok t s -> ensure_thread_directories_exist realpath denied s = (r, s') ->
  state_ok t s' /\ fs_files (ts_fs s') = fs_files (ts_fs s) /\ (has_sandbox t s -> has_sandbox t s').
Proof.
  intros Hok. pose proof Hok as (Hpv & rs & Hr & Hrt). unfold ensure_thread_directories_exist.
  rewrite Hr. destruct (negb _); [by intros [= <- <-]|]. destruct (rs_thread_data rs) as [td|] eqn:Etd; [|by intros [= <- <-]].
  destruct (rs_directories_created rs); [by intros [= <- <-]|].
  destruct (make_dirs _ _ _ _) as [made f1] eqn:Em. apply make_dirs_files in Em.
  destruct made; intros [= <- <-]; (split; [|split; [done|]]).
  - split; [done|]. eexists. split; [done|]. destruct Hrt as (? & ? & ?). split; [done|]. split; [|done]. simpl. congruence.
  - intros (r & Hr' & Hid). eexists. split; [done|]. simpl. congruence.
  - split; [done|]. by exists rs.
  - intros (r & Hr' & Hid). exists rs. split; [done|]. congruence.
Qed.

(** Before the operation: the sandbox of the thread, unchanged files, and a
    path that the target function chose. *)
Lemma prepare_ok t target path s r s' :
  state_ok t s -> prepare realpath denied (system_env t) target path s = (r, s') ->
  state_ok t s' /\ fs_files (ts_fs s') = fs_files (ts_fs s)
  /\ forall sb p, r = Ok (sb, p) -> thread_sandbox t sb /\ target (thread_data_of t) (ts_fs s') = Ok p.
Proof.
  intros Hok. unfold prepare. destruct (ensure_sandbox_initialized _ _ _ _) as [sandbox s1] eqn:E1.
  destruct (ensure_sandbox_ok _ _ _ _ Hok E1) as (Hok1 & Hf1 & Hsb).
  destruct sandbox as [sb|]; [|by intros [= <- <-]]. destruct (Hsb _ eq_refl) as [Hts Hhas].
  destruct (ensure_thread_directories_exist _ _ _) as [made s2] eqn:E2.
  destruct (ensure_dirs_ok _ _ _ _ Hok1 E2) as (Hok2 & Hf2 & Hhas2).
  destruct made; [|intros [= <- <-]; split; [done|]; split; [by rewrite Hf2|done]].
  rewrite (has_sandbox_local t) by auto. intros [= <- <-]. split; [done|]. split; [by rewrite Hf2|].
  intros sb' p Hp. destruct Hok2 as (_ & rs & Hr & (_ & Htd & _)). rewrite Hr in Hp. simpl in Hp. rewrite Htd in Hp.
  destruct (target _ _); [|done]. by simplify_eq.
Qed.

Lemma put_back_ok pv t sb sb' :
  provider_ok pv -> thread_sandbox t sb -> sb_id sb' = sb_id sb -> sb_mappings sb' = sb_mappings sb ->
  provider_ok (put_back sb' pv).
Proof.
  intros (Hp & Hwf & Hs) (Hid & dirs & Hd & Hm) Eid Em. unfold put_back.
  rewrite Eid, Hid, local_not_generic, str_drop_local. case_match; [|by split].
  split; [done|]. simpl. split; [by apply dict_wf_set|]. intros t' sb2. rewrite dict_get_set. case_decide; [|apply Hs].
  intros [= <-]. subst. split; [congruence|]. exists dirs. split; [done|]. congruence.
Qed.

(** *** Where a write can go *)

Definition in_thread (t : string) (q : loc) : Prop :=
  exists d, thread_dir base_dir t (Some (owner t)) = Ok d /\ pp_parts d `prefix_of` q.

Definition in_writable_mount (q : loc) : Prop :=
  exists m, m ∈ config_mounts cfg /\ mount_read_only m = false
    /\ realpath (path_str (parse_path (host_path m))) `prefix_of` q.

Definition thread_dir_functions : list (pure_path -> string -> option string -> result string pure_path) :=
  [sandbox_user_data_dir; sandbox_work_dir; sandbox_uploads_dir; sandbox_outputs_dir; acp_workspace_dir].

(** The base directory is a resolved path; the directories of a thread are
    where they were created, not symbolic links to other places; mounts are
    configured with absolute paths. *)
Hypothesis base_resolved : exists p, base_dir = loc_path (realpath p).
Hypothesis roots_in_place : forall t f x,
  f ∈ thread_dir_functions -> f base_dir t (Some (owner t)) = Ok x -> in_thread t (realpath (path_str x)).
Hypothesis mounts_ok : mounts_absolute (config_mounts cfg) = true.
Hypothesis skills_not_root : skills_container cfg <> "/".

Lemma thread_root_in t f x :
  f ∈ thread_dir_functions -> f base_dir t (Some (owner t)) = Ok x ->
  in_thread t (realpath (path_str (parse_path (path_str x)))).
Proof using base_resolved roots_in_place RealPath0.
  intros Hf Hx. assert (Hd : exists d, thread_dir base_dir t (Some (owner t)) = Ok d).
  { destruct (roots_in_place t f x Hf Hx) as (d & Hd & _). by exists d. }
  destruct Hd as [d Hd]. destruct (thread_subdirs base_dir t (owner t) d f Hd Hf) as (rest & Hx' & Hrest).
  rewrite Hx in Hx'. simplify_eq. apply thread_dir_Ok in Hd as (Ht & Ho & ->).
  destruct base_resolved as [p ->].
  assert (E : mk_path (pp_root (loc_path (realpath p))) (pp_parts (mk_path (pp_root (loc_path (realpath p)))
    (pp_parts (loc_path (realpath p)) ++ ["users"; owner t; "threads"; t])) ++ rest)
    = loc_path (realpath p ++ ["users"; owner t; "threads"; t] ++ rest)).
  { simpl. by rewrite <-app_assoc. }
  simpl in E. simpl. rewrite E, path_str_loc, parse_loc_str, path_str_loc; [|].
  - rewrite <-path_str_loc, <-E. by eapply roots_in_place.
  - apply Forall_app. split; [apply realpath_good|].
    repeat (apply Forall_cons; split; [done || by apply literal_good|]). done.
Qed.

Lemma in_thread_trans t l q : in_thread t l -> l `prefix_of` q -> in_thread t q.
Proof. intros (d & Hd & Hp) Hq. exists d. split; [done|]. by etrans. Qed.

Lemma thread_dirs_Ok t ud w u o a :
  thread_dirs base_dir t (Some (owner t)) = Ok (ud, w, u, o, a) ->
  sandbox_user_data_dir base_dir t (Some (owner t)) = Ok ud /\ sandbox_work_dir base_dir t (Some (owner t)) = Ok w
  /\ sandbox_uploads_dir base_dir t (Some (owner t)) = Ok u /\ sandbox_outputs_dir base_dir t (Some (owner t)) = Ok o
  /\ acp_workspace_dir base_dir t (Some (owner t)) = Ok a.
Proof.
  unfold thread_dirs. intros H.
  apply result_bind_Ok in H as (? & ? & H). apply result_bind_Ok in H as (? & ? & H).
  apply result_bind_Ok in H as (? & ? & H). apply result_bind_Ok in H as (? & ? & H).
  apply result_bind_Ok in H as (? & ? & H). by simplify_eq.
Qed.

(** The mappings of a thread's sandbox lead into the thread's directory, or to
    a mount of the configuration, or are the read-only skills. *)
Lemma mapping_destination t sb m :
  thread_sandbox t sb -> m ∈ sb_mappings sb ->
  in_thread t (mapping_root realpath m)
  \/ (exists mc, mc ∈ config_mounts cfg /\ read_only m = mount_read_only mc
        /\ mapping_root realpath m = realpath (path_str (parse_path (host_path mc))))
  \/ (read_only m = true /\ local_path m = skills_host cfg).
Proof using base_resolved roots_in_place RealPath0.
  intros (_ & [[[[ud w] u] o] a] & Hd & ->) [Hm|Hm]%elem_of_app.
  - right. unfold static_mappings, setup_path_mappings in Hm. apply elem_of_app in Hm as [Hm|Hm].
    + right. destruct (path_exists _ _ _); [|by apply not_elem_of_nil in Hm].
      apply list_elem_of_singleton in Hm as ->. done.
    + left. apply list_elem_of_omap in Hm as (mc & Hin & Hmc). exists mc. split; [done|].
      unfold mount_mapping in Hmc. fold (normal_container (mount_container mc)) in Hmc.
      destruct (negb (is_absolute _)); [done|]. destruct (negb (startswith _ _)); [done|].
      destruct (existsb _ _); [done|]. destruct (path_exists _ _ _); [|done]. simplify_eq. split; [done|].
      unfold mapping_root; simpl. unfold resolve, resolve_pure. rewrite path_str_loc, parse_loc_str by apply realpath_good.
      rewrite path_str_loc. apply canonical_realpath; [done|apply canonical_self].
  - left. apply thread_dirs_Ok in Hd as (H1 & H2 & H3 & H4 & H5). unfold mapping_root.
    simpl in Hm. unfold thread_dir_functions in *.
    repeat (apply elem_of_cons in Hm as [->|Hm]; [simpl; eapply thread_root_in; [|eassumption]; in_list|]).
    by apply not_elem_of_nil in Hm.
Qed.

Lemma thread_data_of_Some t td :
  thread_data_of t = Some td -> forall root, root ∈ user_roots realpath td -> in_thread t root.
Proof using base_resolved roots_in_place RealPath0.
  unfold thread_data_of. destruct (get_thread_paths base_dir t (Some (owner t))) as [td'|] eqn:E; [|done].
  intros [= <-]. unfold get_thread_paths in E.
  apply result_bind_Ok in E as (w & Hw & E). apply result_bind_Ok in E as (u & Hu & E).
  apply result_bind_Ok in E as (o & Ho & E). simplify_eq. intros root Hr. unfold user_roots in Hr. simpl in Hr.
  unfold thread_dir_functions in *.
  repeat (apply elem_of_cons in Hr as [->|Hr]; [eapply thread_root_in; [|eassumption]; in_list|]).
  by apply not_elem_of_nil in Hr.
Qed.

(** A mount path the tools let through has a mapping. *)
Lemma custom_mount_found t sb path :
  thread_sandbox t sb -> is_custom_mount_path (system_env t) path = true ->
  is_skills_path (system_env t) path = false -> is_acp_workspace_path path = false ->
  find_path_mapping sb path <> None.
Proof using mounts_ok skills_not_root.
  intros (_ & [[[[ud w] u] o] a] & _ & Hsb) Hc Hs Ha Hn.
  assert (Hall : forall m, m ∈ sb_mappings sb -> relative_in m path = None).
  { intros m Hm. eapply first_mapping_None; [exact Hn|]. by apply sort_by_elem. }
  rewrite Hsb in Hall. unfold is_custom_mount_path in Hc. apply existsb_exists in Hc as (mc & Hmc & Hu).
  simpl in Hmc. apply filter_In in Hmc as [Hin Hex]. unfold mounts_absolute in mounts_ok.
  rewrite forallb_forall in mounts_ok. specialize (mounts_ok _ Hin). apply andb_true_iff in mounts_ok as [Hh Habs].
  apply list_elem_of_In in Hin.
  destruct (mount_mapped realpath (config_mounts cfg)
    [skills_container cfg; _ACP_WORKSPACE_VIRTUAL_PREFIX; VIRTUAL_PATH_PREFIX] f0 mc Hin Hh Habs Hex)
    as [(p & Hp & Hup)|(m' & Hm' & Ec)].
  - apply elem_of_cons in Hp as [->|Hp].
    { unfold is_skills_path in Hs. simpl in Hs. by rewrite (under_reserved _ _ _ Habs Hup skills_not_root Hu) in Hs. }
    apply elem_of_cons in Hp as [->|Hp].
    { unfold is_acp_workspace_path in Ha. change _ACP_WORKSPACE_VIRTUAL_PATH with _ACP_WORKSPACE_VIRTUAL_PREFIX in Ha.
      rewrite (under_reserved _ _ _ Habs Hup) in Ha; done. }
    apply list_elem_of_singleton in Hp as ->.
    apply (under_relative VIRTUAL_PATH_PREFIX path (mk_mapping VIRTUAL_PATH_PREFIX (path_str ud) false)); [done..| |].
    + by eapply under_reserved.
    + apply Hall. apply elem_of_app. right. by left.
  - eapply under_relative; [exact Habs|exact Ec|exact Hu|]. apply Hall. apply elem_of_app. left.
    apply elem_of_app. by right.
Qed.

(** A write of a tool changes only files of its thread or of a writable mount. *)
Lemma tool_write_frame t sb path p content append f r sb' f' q :
  thread_sandbox t sb -> local_write_target realpath (system_env t) path (thread_data_of t) = Ok p ->
  write_file realpath denied encode p content append sb f = (r, sb', f') ->
  fs_files f' !! q <> fs_files f !! q -> in_thread t q \/ in_writable_mount q.
Proof using base_resolved roots_in_place mounts_ok skills_not_root RealPath0.
  intros Hsb Ht Hw Hq. apply write_target in Ht as (td & Htd & Ht).
  eapply write_file_frame in Hw; [|done|exact Hq]. destruct Hw as [[Hn ->]|(m & Hm & Hro & Hp)].
  - destruct Ht as [(Hc & -> & Hs & Ha)|(l & root & -> & Hl & Hr & Hpre)].
    + by eapply custom_mount_found in Hn.
    + left. rewrite canonical_realpath by done. eapply in_thread_trans; [|exact Hpre]. by eapply thread_data_of_Some.
  - destruct (mapping_destination t sb m Hsb Hm) as [Hin|[(mc & Hmc & Hro' & E)|[Hro' _]]]; [|..|congruence].
    + left. by eapply in_thread_trans.
    + right. exists mc. split; [done|]. split; [congruence|]. by rewrite <-E.
Qed.

(** *** Calls *)

Definition confined (t : string) (f f' : fs) : Prop :=
  forall q, fs_files f' !! q <> fs_files f !! q -> in_thread t q \/ in_writable_mount q.

Lemma confined_same t f f' : fs_files f' = fs_files f -> confined t f f'.
Proof. intros E q. by rewrite E. Qed.

Lemma confined_after t f1 f2 f3 : fs_files f2 = fs_files f1 -> confined t f2 f3 -> confined t f1 f3.
Proof. intros E H q. rewrite <-E. apply H. Qed.

Lemma op_ok t s1 sb path p content append r sb' f' :
  state_ok t s1 -> thread_sandbox t sb ->
  local_write_target realpath (system_env t) path (thread_data_of t) = Ok p ->
  write_file realpath denied encode p content append sb (ts_fs s1) = (r, sb', f') ->
  state_ok t (after_op sb' f' s1) /\ confined t (ts_fs s1) f'.
Proof using base_resolved roots_in_place mounts_ok skills_not_root RealPath0.
  intros (Hpv & rs & Hr & Hrt) Hsb Ht Hw. split.
  - destruct (write_file_sandbox _ _ _ _ _ _ _ _ _ _ _ Hw) as [Hid Hm].
    split; [by eapply put_back_ok|]. by exists rs.
  - intros q Hq. by eapply tool_write_frame.
Qed.

Lemma call_ok t c s r s' :
  state_ok t s -> do_call t c s = (r, s') -> state_ok t s' /\ confined t (ts_fs s) (ts_fs s').
Proof using base_resolved roots_in_place mounts_ok skills_not_root RealPath0.
  intros Hok. destruct c as [path a b|path content append|path old new all]; simpl.
  - unfold read_file_tool. destruct (prepare _ _ _ _ _ _) as [prepared s1] eqn:E1.
    destruct (prepare_ok _ _ _ _ _ _ Hok E1) as (Hok1 & Hf1 & _). intros H.
    assert (s' = s1) as ->; [|split; [done|by apply confined_same]].
    destruct prepared as [[sb p]|[]]; [|by simplify_eq]. destruct (read_file _ _ _ _ _ _); [|by simplify_eq].
    case_match; by simplify_eq.
  - unfold write_file_tool. case_match; [intros [= <- <-]; split; [done|by apply confined_same]|].
    destruct (prepare _ _ _ _ _ _) as [prepared s1] eqn:E1.
    destruct (prepare_ok _ _ _ _ _ _ Hok E1) as (Hok1 & Hf1 & Hp).
    destruct prepared as [[sb p]|[]]; [|intros [= <- <-]; split; [done|by apply confined_same]].
    destruct (Hp _ _ eq_refl) as [Hsb Ht]. destruct (write_file _ _ _ _ _ _ _ _) as [[written sb2] f2] eqn:Ew.
    destruct (op_ok _ _ _ _ _ _ _ _ _ _ Hok1 Hsb Ht Ew) as [Hok2 Hc]. intros Hs.
    assert (s' = after_op sb2 f2 s1) as -> by (by destruct written; simplify_eq).
    split; [done|]. by eapply confined_after.
  - unfold str_replace_tool. destruct (prepare _ _ _ _ _ _) as [prepared s1] eqn:E1.
    destruct (prepare_ok _ _ _ _ _ _ Hok E1) as (Hok1 & Hf1 & Hp).
    destruct prepared as [[sb p]|[]]; [|intros [= <- <-]; split; [done|by apply confined_same]].
    destruct (Hp _ _ eq_refl) as [Hsb Ht].
    destruct (read_file _ _ _ _ _ _) as [content|]; [|intros [= <- <-]; split; [done|by apply confined_same]].
    case_match; [intros [= <- <-]; split; [done|by apply confined_same]|].
    case_match; [intros [= <- <-]; split; [done|by apply confined_same]|].
    destruct (write_file _ _ _ _ _ _ _ _) as [[written sb2] f2] eqn:Ew.
    destruct (op_ok _ _ _ _ _ _ _ _ _ _ Hok1 Hsb Ht Ew) as [Hok2 Hc]. intros Hs.
    assert (s' = after_op sb2 f2 s1) as -> by (by destruct written; simplify_eq).
    split; [done|]. by eapply confined_after.
Qed.

Lemma tool_state_ok t sy : system_ok sy -> state_ok t (tool_state_of t sy).
Proof. intros [Hpv Hrt]. split; [done|]. by eexists. Qed.

Lemma sys_step_ok sy sy' : sys_step sy sy' -> system_ok sy -> system_ok sy'.
Proof using base_resolved roots_in_place mounts_ok skills_not_root RealPath0.
  intros [t c sy0|t sy0|f sy0|sy0] Hok.
  - pose proof (tool_state_ok t _ Hok) as Hst. unfold after_call.
    destruct (do_call t c (tool_state_of t sy0)) as [r s'] eqn:E. destruct (call_ok _ _ _ _ _ Hst E) as [(Hpv & rs & Hr & Hrt) _].
    split; [done|]. intros t'. simpl. rewrite Hr. case_decide; [by subst|]. apply Hok.
  - destruct Hok as [Hpv Hrt]. split; [done|]. intros t'. simpl. case_decide; [|apply Hrt]. subst.
    split; [done|]. split; [done|]. by left.
  - by destruct Hok.
  - destruct Hok as [(Hp & _ & _) Hrt]. split; [|done]. split; [done|]. split; [constructor|done].
Qed.

Lemma new_system_ok : system_ok new_system.
Proof. split; [split; [done|]; split; [constructor|done]|]. intros t. split; [done|]. split; [done|]. by left. Qed.

(** (C27) The file tools stay in their thread.  Over one provider and one file
    system shared by all threads, after any sequence of tool calls of any
    threads with any arguments, new invocations, resets of the provider and
    changes other processes make to the contents of files and directories, a
    call of thread [t] changes only files in the directory of [t] or in a
    writable mount of the configuration; so no file of another user or thread,
    unless a mount shares it.  The symbolic links stay as they are throughout:
    paths are resolved by one fixed function.  The base directory is a resolved
    path ([base_resolved]), the directories of a thread are no links to other
    places ([roots_in_place]), the configured mounts have absolute paths
    ([mounts_ok]) and the skills are not mounted at the root
    ([skills_not_root]). *)
Theorem file_tools_confined sy t c q :
  star sys_step new_system sy ->
  fs_files (sy_fs (after_call t c sy)) !! q <> fs_files (sy_fs sy) !! q ->
  (in_thread t q /\ forall t', in_thread t' q -> t' = t) \/ in_writable_mount q.
Proof using base_resolved roots_in_place mounts_ok skills_not_root RealPath0.
  intros Hstar Hq. pose proof (star_invariant sys_step system_ok (fun _ _ => sys_step_ok _ _) _ _ Hstar new_system_ok) as Hok.
  unfold after_call in Hq. destruct (do_call t c (tool_state_of t sy)) as [r s'] eqn:E.
  destruct (call_ok _ _ _ _ _ (tool_state_ok t _ Hok) E) as [_ Hc]. destruct (Hc q Hq) as [Hin|]; [left|by right].
  split; [done|]. intros t' (d' & Hd' & Hp'). destruct Hin as (d & Hd & Hp).
  by destruct (thread_dirs_disjoint _ _ _ _ _ _ _ _ Hd' Hd Hp' Hp).
Qed.

(** *** What a read can depend on *)

Definition in_mount (q : loc) : Prop :=
  exists m, m ∈ config_mounts cfg /\ realpath (path_str (parse_path (host_path m))) `prefix_of` q.

Definition in_skills (q : loc) : Prop := realpath (path_str (parse_path (skills_host cfg))) `prefix_of` q.

Definition readable (t : string) (q : loc) : Prop := in_thread t q \/ in_mount q \/ in_skills q.

(** File systems that differ at most in the contents of files thread [t] may
    not read. *)
Definition same_view (t : string) (f f' : fs) : Prop :=
  fs_dirs f' = fs_dirs f
  /\ (forall l, is_Some (fs_files f' !! l) <-> is_Some (fs_files f !! l))
  /\ (forall l, readable t l -> fs_files f' !! l = fs_files f !! l).

(** The same failure, or results in the same view. *)
Definition same_result (t : string) (r r' : result exn fs) : Prop :=
  match r, r' with
  | Ok f, Ok f' => same_view t f f'
  | Err e, Err e' => e = e'
  | _, _ => False
  end.

Lemma is_file_same t f f' l :
  same_view t f f' -> bool_decide (is_Some (fs_files f' !! l)) = bool_decide (is_Some (fs_files f !! l)).
Proof. intros (_ & Hd & _). by apply bool_decide_ext. Qed.

Lemma file_on_way_same t f f' l : same_view t f f' -> file_on_way f' l = file_on_way f l.
Proof. intros Hs. apply existsb_ext_in. intros n _. by eapply is_file_same. Qed.

Lemma makedirs_same t p f f' : same_view t f f' -> same_result t (makedirs realpath denied p f) (makedirs realpath denied p f').
Proof.
  intros Hs. unfold makedirs. rewrite (file_on_way_same t f f') by done. case_match; [done|].
  rewrite (is_file_same t f f') by done. case_match; [done|]. case_match; [done|].
  destruct Hs as (Hd & Hdom & Hr). simpl. split; [|split; [exact Hdom|exact Hr]]. simpl. by rewrite Hd.
Qed.

Lemma path_exists_same t p f f' : same_view t f f' -> path_exists realpath p f' = path_exists realpath p f.
Proof.
  intros Hs. unfold path_exists. rewrite (is_file_same t f f') by done. destruct Hs as (Hd & _). by rewrite Hd.
Qed.

Lemma make_all_same t ds f f' :
  same_view t f f' ->
  (make_all realpath denied ds f').1 = (make_all realpath denied ds f).1
  /\ same_view t (make_all realpath denied ds f).2 (make_all realpath denied ds f').2.
Proof.
  revert f f'. induction ds as [|d ds IH]; intros f f' Hs; simpl; [done|].
  pose proof (makedirs_same t (path_str d) f f' Hs) as Hm.
  destruct (makedirs _ _ _ f), (makedirs _ _ _ f'); simpl in Hm; try done; [by apply IH|by subst].
Qed.

Lemma make_dirs_same t ps f f' :
  same_view t f f' ->
  (make_dirs realpath denied ps f').1 = (make_dirs realpath denied ps f).1
  /\ same_view t (make_dirs realpath denied ps f).2 (make_dirs realpath denied ps f').2.
Proof.
  revert f f'. induction ps as [|p ps IH]; intros f f' Hs; simpl; [done|]. destruct (given p) as [x|]; [|by apply IH].
  pose proof (makedirs_same t x f f' Hs) as Hm.
  destruct (makedirs _ _ _ f), (makedirs _ _ _ f'); simpl in Hm; try done; [by apply IH|by subst].
Qed.

Definition same_state (t : string) (s s' : tool_state) : Prop :=
  ts_runtime s' = ts_runtime s /\ ts_provider s' = ts_provider s /\ same_view t (ts_fs s) (ts_fs s').

Lemma acquire_same t x u pv f f' :
  same_view t f f' ->
  let a := acquire realpath denied base_dir x u pv f in
  let a' := acquire realpath denied base_dir x u pv f' in
  a'.1 = a.1 /\ same_view t a.2 a'.2.
Proof.
  intros Hs. simpl. unfold acquire. destruct x as [x|]; [|by destruct (acquire_generic pv)].
  destruct (dict_get x (pv_thread_sandboxes pv)); [done|]. unfold build_thread_path_mappings.
  destruct (thread_dirs base_dir x u) as [[[[[ud w] up] o] a]|]; [|done].
  pose proof (make_all_same t [w; up; o; a] f f' Hs) as [H1 H2].
  destruct (make_all _ _ _ f) as [m g], (make_all _ _ _ f') as [m' g']. simpl in *. subst m'. by destruct m.
Qed.

Lemma ensure_sandbox_same t s s' :
  same_state t s s' ->
  let a := ensure_sandbox_initialized realpath denied (system_env t) s in
  let a' := ensure_sandbox_initialized realpath denied (system_env t) s' in
  a'.1 = a.1 /\ same_state t a.2 a'.2.
Proof.
  intros Hs. pose proof Hs as (Hr & Hp & Hf). simpl. unfold ensure_sandbox_initialized. rewrite Hr, Hp.
  destruct (ts_runtime s) as [| |r]; [done..|].
  destruct (existing_sandbox r (ts_provider s)) as [[sb|] pv1]; [done|].
  destruct (rs_thread_id r) as [x|]; [|done].
  change (te_base_dir (system_env t)) with base_dir. change (te_user_id (system_env t)) with (owner t).
  pose proof (acquire_same t (Some x) (Some (owner t)) pv1 _ _ Hf) as [H1 H2].
  destruct (acquire _ _ _ _ _ _ (ts_fs s)) as [[a pv2] g], (acquire _ _ _ _ _ _ (ts_fs s')) as [[a' pv2'] g'].
  simplify_eq/=. destruct a as [id|]; [|done]. by destruct (get id pv2).
Qed.

Lemma ensure_dirs_same t s s' :
  same_state t s s' ->
  let a := ensure_thread_directories_exist realpath denied s in
  let a' := ensure_thread_directories_exist realpath denied s' in
  a'.1 = a.1 /\ same_state t a.2 a'.2.
Proof.
  intros Hs. pose proof Hs as (Hr & Hp & Hf). simpl. unfold ensure_thread_directories_exist. rewrite Hr, Hp.
  destruct (ts_runtime s) as [| |r]; [done..|]. destruct (negb _); [done|].
  destruct (rs_thread_data r) as [td|]; [|done]. destruct (rs_directories_created r); [done|].
  pose proof (make_dirs_same t [workspace_path td; uploads_path td; outputs_path td] _ _ Hf) as [H1 H2].
  destruct (make_dirs _ _ _ (ts_fs s)) as [m g], (make_dirs _ _ _ (ts_fs s')) as [m' g']. simpl in *. subst m'. by destruct m.
Qed.

Lemma acp_host_same t x f f' :
  same_view t f f' ->
  get_acp_workspace_host_path realpath (system_env t) x f' = get_acp_workspace_host_path realpath (system_env t) x f.
Proof.
  intros Hs. unfold get_acp_workspace_host_path. destruct x; [|by rewrite (path_exists_same t _ f f')].
  destruct (acp_workspace_dir _ _ _); [|done]. by rewrite (path_exists_same t _ f f').
Qed.

Lemma read_target_same t path td f f' :
  same_view t f f' ->
  local_read_target realpath (system_env t) path td f' = local_read_target realpath (system_env t) path td f.
Proof.
  intros Hs. unfold local_read_target, resolve_acp_workspace_path. by rewrite (acp_host_same t _ f f').
Qed.

Lemma mask_same t output td f f' :
  same_view t f f' ->
  mask_local_paths_in_output realpath (system_env t) output td f'
  = mask_local_paths_in_output realpath (system_env t) output td f.
Proof. intros Hs. unfold mask_local_paths_in_output. by rewrite (acp_host_same t _ f f'). Qed.

Lemma read_error_same t o e s s' :
  same_state t s s' ->
  read_file_error realpath py_repr (system_env t) o e s' = read_file_error realpath py_repr (system_env t) o e s.
Proof.
  intros (Hr & _ & Hf). unfold read_file_error, sanitize_error. rewrite Hr. by rewrite (mask_same t _ _ _ _ Hf).
Qed.

Lemma prepare_read_same t path s s' :
  same_state t s s' ->
  let a := prepare realpath denied (system_env t) (local_read_target realpath (system_env t) path) path s in
  let a' := prepare realpath denied (system_env t) (local_read_target realpath (system_env t) path) path s' in
  a'.1 = a.1 /\ same_state t a.2 a'.2.
Proof.
  intros Hs. simpl. unfold prepare. pose proof (ensure_sandbox_same t s s' Hs) as [H1 H2].
  destruct (ensure_sandbox_initialized _ _ _ s) as [r1 s1], (ensure_sandbox_initialized _ _ _ s') as [r1' s1'].
  simplify_eq/=. destruct r1 as [sb|]; [|done]. pose proof (ensure_dirs_same t s1 s1' H2) as [H3 H4].
  destruct (ensure_thread_directories_exist _ _ s1) as [r2 s2], (ensure_thread_directories_exist _ _ s1') as [r2' s2'].
  simplify_eq/=. destruct r2; [|done]. pose proof H4 as (Hr & Hp & Hf). rewrite Hr.
  destruct (is_local_sandbox (ts_runtime s2)); simpl; [|done]. by rewrite (read_target_same t _ _ _ _ Hf).
Qed.

(** The ACP workspace is looked up for the thread itself. *)
Lemma extract_thread_id t td :
  thread_data_of t = Some td -> extract_thread_id_from_thread_data (Some td) = Some t.
Proof using base_resolved roots_in_place RealPath0.
  unfold thread_data_of, get_thread_paths.
  destruct (sandbox_work_dir base_dir t (Some (owner t))) as [w|] eqn:Ew; [|done]. simpl.
  destruct (sandbox_uploads_dir _ _ _); [|done]. simpl. destruct (sandbox_outputs_dir _ _ _); [|done]. simpl. intros [= <-].
  unfold sandbox_work_dir in Ew. apply result_bind_Ok in Ew as (d & Hd & [= <-]).
  apply thread_dir_Ok in Hd as (Ht & Ho & ->). destruct base_resolved as [p ->].
  rewrite !path_join_part by (by apply literal_good). simpl.
  assert (E : mk_path "/" (((realpath p ++ ["users"; owner t; "threads"; t]) ++ ["user-data"]) ++ ["workspace"])
    = loc_path (realpath p ++ ["users"; owner t; "threads"; t; "user-data"; "workspace"])) by (by rewrite <-!app_assoc).
  rewrite E, path_str_loc. unfold given, truthy.
  assert (Hne : String.eqb (loc_str (realpath p ++ ["users"; owner t; "threads"; t; "user-data"; "workspace"])) "" = false) by done.
  rewrite Hne. simpl. rewrite parse_loc_str.
  - unfold path_name, path_parent, loc_path. simpl.
    replace (realpath p ++ ["users"; owner t; "threads"; t; "user-data"; "workspace"])
      with (((realpath p ++ ["users"; owner t; "threads"; t]) ++ ["user-data"]) ++ ["workspace"]) by (by rewrite <-!app_assoc).
    rewrite !removelast_last. rewrite last_app. done.
  - apply Forall_app. split; [apply realpath_good|].
    repeat (apply Forall_cons; split; [done || by apply literal_good|]). done.
Qed.

(** No symbolic link in the skills directory or in an ACP workspace leads out
    of it: these two are checked by name only. *)
Hypothesis skills_stay : forall rel,
  reject_path_traversal rel = Ok () -> in_skills (realpath (join_path_preserving_style (skills_host cfg) rel)).
Hypothesis acp_stay : forall t x rel,
  acp_workspace_dir base_dir t (Some (owner t)) = Ok x -> reject_path_traversal rel = Ok () ->
  in_thread t (realpath (join_path_preserving_style (path_str x) rel)).

Lemma skills_target t path p :
  resolve_skills_path (system_env t) path = Ok p -> is_skills_path (system_env t) path = true ->
  reject_path_traversal path = Ok () -> in_skills (realpath p).
Proof using skills_stay.
  unfold resolve_skills_path, is_skills_path. simpl. destruct (path_exists _ _ _); [|done].
  destruct (String.eqb path (skills_container cfg)) eqn:E; intros [= <-] Hu Hr.
  - by apply (skills_stay "").
  - apply skills_stay. by apply reject_relative.
Qed.

Lemma acp_target t path td p f :
  thread_data_of t = Some td -> is_acp_workspace_path path = true ->
  resolve_acp_workspace_path realpath (system_env t) path (extract_thread_id_from_thread_data (Some td)) f = Ok p ->
  in_thread t (realpath p).
Proof using base_resolved roots_in_place acp_stay RealPath0.
  intros Htd Hu H. rewrite (extract_thread_id t td Htd) in H. unfold resolve_acp_workspace_path in H.
  apply result_bind_Ok in H as ([] & Hr & H). unfold get_acp_workspace_host_path in H.
  change (te_base_dir (system_env t)) with base_dir in H. change (te_user_id (system_env t)) with (owner t) in H.
  destruct (acp_workspace_dir base_dir t (Some (owner t))) as [x|] eqn:Ex; [|done].
  destruct (path_exists _ _ _); [|done].
  destruct (String.eqb path _ACP_WORKSPACE_VIRTUAL_PATH) eqn:E.
  { simplify_eq. by apply (acp_stay t x ""). }
  destruct (contains_char slash (path_str x) && _).
  - destruct (commonpath _ _); [|done]. case_match; [|done]. simplify_eq. apply acp_stay; [done|].
    by apply (reject_relative _ACP_WORKSPACE_VIRTUAL_PATH path).
  - case_match; [|done]. simplify_eq. unfold resolve, resolve_pure in *. rewrite path_str_loc.
    rewrite canonical_realpath; [|done|apply canonical_self].
    match goal with H : relative_to _ _ = true |- _ => apply relative_to_loc in H; eapply in_thread_trans; [|exact H] end.
    eapply thread_root_in; [|exact Ex]. unfold thread_dir_functions. in_list.
Qed.

Lemma read_target_readable t sb path p f rp om :
  thread_sandbox t sb -> local_read_target realpath (system_env t) path (thread_data_of t) f = Ok p ->
  resolve_path_with_mapping realpath sb p = Ok (rp, om) -> readable t (realpath rp).
Proof using base_resolved roots_in_place mounts_ok skills_not_root skills_stay acp_stay RealPath0.
  intros Hsb Ht Hres. apply resolve_with_mapping_spec in Hres as [(-> & Hn & ->)|(m & l & -> & Hm & -> & Hp & Hc)]; [| |done].
  - unfold local_read_target in Ht. apply result_bind_Ok in Ht as ([] & Hv & Ht).
    unfold validate_local_tool_path in Hv. destruct (thread_data_of t) as [td|] eqn:Etd; [|done].
    apply result_bind_Ok in Hv as ([] & Hr & _).
    destruct (is_skills_path (system_env t) path) eqn:Es; [right; right; by eapply skills_target|].
    destruct (is_acp_workspace_path path) eqn:Ea; [left; by eapply acp_target|].
    destruct (is_custom_mount_path (system_env t) path) eqn:Ec.
    { simplify_eq. by eapply custom_mount_found in Hn. }
    left. apply user_data_target in Ht as (l & root & -> & Hl & Hroot & Hpre). rewrite canonical_realpath by done.
    eapply in_thread_trans; [|exact Hpre]. by eapply thread_data_of_Some.
  - rewrite canonical_realpath by done. destruct (mapping_destination t sb m Hsb Hm) as [Hin|[(mc & Hmc & _ & E)|[_ E]]].
    + left. by eapply in_thread_trans.
    + right; left. exists mc. split; [done|]. by rewrite <-E.
    + right; right. unfold in_skills. by rewrite <-E.
Qed.

Lemma read_file_same t sb p f f' :
  same_view t f f' ->
  (forall rp om, resolve_path_with_mapping realpath sb p = Ok (rp, om) -> readable t (realpath rp)) ->
  read_file realpath denied decode p sb f' = read_file realpath denied decode p sb f.
Proof.
  intros Hs Hread. unfold read_file, resolve_path.
  destruct (resolve_path_with_mapping realpath sb p) as [[rp om]|] eqn:E; [|done]. simpl.
  assert (Hb : read_bytes realpath denied rp f' = read_bytes realpath denied rp f).
  { unfold read_bytes. rewrite (file_on_way_same t f f') by done. pose proof Hs as (Hd & _ & Hv).
    rewrite Hd, Hv; [done|]. by eapply Hread. }
  unfold read_text. by rewrite Hb.
Qed.

(** What a thread reads is its own.  In every reachable system, the answer of
    [read_file] to thread [t] is the same on file systems that differ in the
    contents of files outside the directory of [t], the mounts and the skills:
    no path makes the tool disclose another user's or thread's file. *)
Theorem read_file_confidential sy t path a b f' :
  star sys_step new_system sy -> same_view t (sy_fs sy) f' ->
  (do_call t (ReadFile path a b) (tool_state_of t (mk_system (sy_provider sy) f' (sy_runtimes sy)))).1
  = (do_call t (ReadFile path a b) (tool_state_of t sy)).1.
Proof using base_resolved roots_in_place mounts_ok skills_not_root skills_stay acp_stay RealPath0.
  intros Hstar Hview. pose proof (star_invariant sys_step system_ok (fun _ _ => sys_step_ok _ _) _ _ Hstar new_system_ok) as Hok.
  set (s := tool_state_of t sy). set (s' := tool_state_of t (mk_system (sy_provider sy) f' (sy_runtimes sy))).
  assert (Hs : same_state t s s') by done. simpl. unfold read_file_tool.
  pose proof (prepare_read_same t path s s' Hs) as [H1 H2].
  destruct (prepare _ _ _ _ _ s) as [r s1] eqn:E1, (prepare _ _ _ _ _ s') as [r' s1']. simplify_eq/=.
  destruct (prepare_ok _ _ _ _ _ _ (tool_state_ok t _ Hok) E1) as (_ & _ & Hp).
  destruct r as [[sb p]|[o e]]; [|simpl; by rewrite (read_error_same t o e s1 s1')].
  destruct (Hp _ _ eq_refl) as [Hsb Ht].
  rewrite (read_file_same t sb p (ts_fs s1) (ts_fs s1')); [|apply H2|intros; by eapply read_target_readable].
  destruct (read_file _ _ _ _ _ _) as [content|e]; [by case_match|]. simpl. by rewrite (read_error_same t (Some path) e s1 s1').
Qed.
End system.
