(* ===== verification/SandboxIo.v ===== *)
(** * Outputs and contents of the file tools

    The truncations keep to their bounds and to the text they truncate, and a
    file reads back as it was written. *)
From S2P Require Import Prelude PyString PyList PyPath Paths LocalSandbox SandboxTools SandboxProps.
From stdpp Require Import pretty.
From Stdlib Require Import Ascii.
Local Open Scope string_scope.
Local Open Scope Z_scope.
Local Open Scope list_scope.

(** ** Lengths of decimal numbers *)

Lemma pretty_go_length x s : (String.length (pretty_N_go x s) = String.length (pretty_N_go x "") + String.length s)%nat.
Proof.
  revert s. induction (N.lt_wf_0 x) as [x _ IH]; intros s. destruct (decide (0 < x)%N).
  - rewrite (pretty_N_go_step x s), (pretty_N_go_step x "") by done. assert (Hlt : (x `div` 10 < x)%N) by (by apply N.div_lt).
    set (c := pretty_N_char _). rewrite (IH _ Hlt (String c s)), (IH _ Hlt (String c "")). simpl. lia.
  - assert (x = 0)%N as -> by lia. rewrite !pretty_N_go_0. done.
Qed.

Lemma pretty_go_mono x y : (x <= y)%N -> (String.length (pretty_N_go x "") <= String.length (pretty_N_go y ""))%nat.
Proof.
  revert y. induction (N.lt_wf_0 x) as [x _ IH]; intros y Hxy. destruct (decide (0 < x)%N).
  - rewrite (pretty_N_go_step x ""), (pretty_N_go_step y "") by lia. rewrite !(pretty_go_length _ (String _ "")).
    assert (Hlt : (x `div` 10 < x)%N) by (by apply N.div_lt).
    pose proof (IH _ Hlt (y `div` 10)%N (N.Div0.div_le_mono _ _ _ Hxy)). simpl. lia.
  - assert (x = 0)%N as -> by lia. rewrite pretty_N_go_0. simpl. lia.
Qed.

Lemma pretty_go_pos x : (0 < x)%N -> (1 <= String.length (pretty_N_go x ""))%nat.
Proof. intros Hx. rewrite pretty_N_go_step by done. rewrite pretty_go_length. simpl. lia. Qed.

Lemma pretty_N_length_mono (x y : N) : (x <= y)%N -> (String.length (pretty x) <= String.length (pretty y))%nat.
Proof.
  intros Hxy. unfold pretty, pretty_N. repeat case_decide; simpl; [lia|..].
  - by apply pretty_go_pos, N.neq_0_lt_0.
  - lia.
  - by apply pretty_go_mono.
Qed.

Lemma pretty_length_mono (x y : Z) : 0 <= x <= y -> (String.length (pretty x) <= String.length (pretty y))%nat.
Proof.
  intros Hxy. assert (E : forall z, 0 <= z -> pretty z = pretty (Z.to_N z)).
  { intros z Hz. destruct z as [|p|p]; [done..|lia]. }
  rewrite !E by lia. apply pretty_N_length_mono. lia.
Qed.

(** ** Truncation *)

Lemma str_drop_length n s : String.length (str_drop n s) = (String.length s - n)%nat.
Proof. revert n. induction s as [|c s IH]; intros [|n]; simpl; [done..|]. apply IH. Qed.

Lemma sslice_length n s : 0 <= n <= slen s -> slen (sslice n s) = n.
Proof. unfold slen, sslice. intros H. rewrite str_take_length_eq; lia. Qed.

Lemma stail_length n s : 0 <= n <= slen s -> slen (stail n s) = n.
Proof. unfold slen, stail. intros H. rewrite str_drop_length. lia. Qed.

Lemma slen_app s t : slen (s +:+ t) = slen s + slen t.
Proof. unfold slen. rewrite str_length_app. lia. Qed.

Lemma slen_nonneg s : 0 <= slen s.
Proof. unfold slen. lia. Qed.

(** The marker of a shorter text is no longer than the marker planned for. *)
Lemma middle_bounded marker output max_chars :
  (forall x y, 0 <= x <= y -> slen (marker x) <= slen (marker y)) -> 0 < max_chars ->
  slen (middle_truncate marker output max_chars) <= max_chars.
Proof.
  intros Hm Hmax. unfold middle_truncate. rewrite (proj2 (Z.eqb_neq _ _)) by lia.
  case_match; reflect_bools; [done|]. rewrite (proj2 (Z.ltb_ge max_chars 0)) by lia.
  set (kept := Z.max 0 _). case_match; reflect_bools; [rewrite sslice_length; lia|].
  pose proof (slen_nonneg (marker (slen output))).
  assert (Hk : 0 < kept <= slen output) by lia.
  assert (Hd : 0 <= kept / 2 <= kept) by (split; [apply Z.div_pos; lia|apply Z.div_le_upper_bound; lia]).
  rewrite !slen_app, sslice_length by lia.
  pose proof (Hm (slen output - kept) (slen output) ltac:(lia)).
  case_match; reflect_bools; [rewrite stail_length by lia|change (slen "") with 0]; lia.
Qed.

Lemma head_bounded marker output max_chars :
  (forall x y, 0 <= x <= y -> slen (marker x y) <= slen (marker y y)) -> 0 < max_chars ->
  slen (head_truncate marker output max_chars) <= max_chars.
Proof.
  intros Hm Hmax. unfold head_truncate. rewrite (proj2 (Z.eqb_neq _ _)) by lia.
  case_match; reflect_bools; [done|]. rewrite (proj2 (Z.ltb_ge max_chars 0)) by lia.
  set (kept := Z.max 0 _). case_match; reflect_bools; [rewrite sslice_length; lia|].
  pose proof (slen_nonneg (marker (slen output) (slen output))).
  rewrite slen_app, sslice_length by lia. pose proof (Hm kept (slen output) ltac:(lia)). lia.
Qed.

Ltac marker_length :=
  intros; rewrite !slen_app; unfold slen;
  match goal with H : 0 <= ?x <= ?y |- _ => pose proof (pretty_length_mono x y H) end; lia.

(** What fits is returned as it is; otherwise the result begins with the
    beginning of the text, followed at most by the marker. *)
Lemma head_truncate_prefix marker output max_chars :
  0 < max_chars ->
  if slen output <=? max_chars then head_truncate marker output max_chars = output
  else exists n, head_truncate marker output max_chars = sslice n output
    \/ head_truncate marker output max_chars = sslice n output +:+ marker n (slen output).
Proof.
  intros Hmax. unfold head_truncate. rewrite (proj2 (Z.eqb_neq _ _)) by lia.
  case_match; [done|]. rewrite (proj2 (Z.ltb_ge max_chars 0)) by lia. case_match; eauto.
Qed.

Definition read_marker (kept total : Z) : string :=
  lf +:+ "... [truncated: showing first " +:+ pretty kept +:+ " of " +:+ pretty total
  +:+ " chars. Use start_line/end_line to read a specific range] ...".

(** Truncated outputs keep to their bound.  For every positive bound, each of
    the four truncations returns at most [max_chars] characters, the marker
    included; with the bound 0 it is switched off; a text that fits is returned
    as it is; and a longer file is shown from its beginning. *)
Theorem truncation_bounded output max_chars :
  (forall f, f ∈ [truncate_bash_output; truncate_write_file_error_detail; truncate_read_file_output; truncate_ls_output] ->
     (0 < max_chars -> slen (f output max_chars) <= max_chars)
     /\ (slen output <= max_chars -> f output max_chars = output) /\ f output 0 = output)
  /\ (0 < max_chars < slen output -> exists n,
        truncate_read_file_output output max_chars = sslice n output
        \/ truncate_read_file_output output max_chars = sslice n output +:+ read_marker n (slen output)).
Proof.
  split.
  - intros f Hf. split_and!.
    + intros Hmax. set_unfold in Hf. destruct Hf as [->|[->|[->|[->|[]]]]];
        [apply middle_bounded|apply middle_bounded|apply head_bounded|apply head_bounded]; try done; marker_length.
    + intros Hl. pose proof (slen_nonneg output). set_unfold in Hf.
      destruct Hf as [->|[->|[->|[->|[]]]]];
        unfold truncate_bash_output, truncate_write_file_error_detail, truncate_read_file_output, truncate_ls_output,
          middle_truncate, head_truncate; rewrite (proj2 (Z.leb_le _ _)) by done; by destruct (max_chars =? 0).
    + set_unfold in Hf. by destruct Hf as [->|[->|[->|[->|[]]]]].
  - intros [Hmax Hl]. pose proof (head_truncate_prefix read_marker output max_chars Hmax) as H.
    rewrite (proj2 (Z.leb_gt _ _)) in H by done. exact H.
Qed.

Lemma truncation_bounded_witness :
  slen (truncate_read_file_output (String.concat lf (repeat "line of text" 40)) 160) <= 160.
Proof.
  apply (truncation_bounded (String.concat lf (repeat "line of text" 40)) 160); [|lia].
  right; right; left.
Defined.

(** ** Text that is written is read *)

(** No position of the text matches. *)
Fixpoint unmatched (m : string -> option nat) (s : string) : bool :=
  match s with
  | "" => true
  | String _ s' => match m s with Some (S _) => false | _ => true end && unmatched m s'
  end.

Lemma re_sub_unmatched m f s : unmatched m s = true -> re_sub m f 0 s = Ok s.
Proof.
  induction s as [|c s IH]; [done|]. cbn [unmatched re_sub]. intros [Hm Hs]%andb_true_iff. rewrite IH by done.
  by destruct (m (String c s)) as [[|n]|].
Qed.

Lemma universal_newlines_plain s : contains_char "013" s = false -> universal_newlines s = s.
Proof.
  induction s as [|c s IH]; [done|]. rewrite contains_char_cons, orb_false_iff, Ascii.eqb_neq. intros [Hc Hs].
  assert (E : universal_newlines (String c s) = String c (universal_newlines s)).
  { destruct c as [b0 b1 b2 b3 b4 b5 b6 b7]. simpl.
    destruct b0, b1, b2, b3, b4, b5, b6, b7; simpl; try done; by destruct s. }
  by rewrite E, IH.
Qed.

Section round_trip.
Context (realpath : string -> loc) (denied : loc -> bool).
Context (encode : string -> string) (decode : string -> result string string).
Hypothesis decode_encode : forall s, decode (encode s) = Ok s.

(** Text without carriage returns that mentions neither a container path nor a
    directory behind one. *)
Definition plain_text (ms : list path_mapping) (content : string) : bool :=
  let sb := new_sandbox "" ms in
  unmatched (first_match ((fun m => match_container content_boundary (container_path m)) <$> mappings_by_container sb)) content
  && forallb (fun m => unmatched (match_local (resolved_local realpath m)) content) (mappings_by_local_specificity sb)
  && negb (contains_char "013" content).

Lemma plain_content sb content :
  plain_text (sb_mappings sb) content = true -> resolve_paths_in_content realpath sb content = Ok content.
Proof. unfold plain_text. intros [[H _]%andb_true_iff _]%andb_true_iff. by apply re_sub_unmatched. Qed.

Lemma plain_reverse sb content :
  plain_text (sb_mappings sb) content = true -> reverse_resolve_paths_in_output realpath sb content = content.
Proof.
  unfold plain_text. intros [[_ H]%andb_true_iff _]%andb_true_iff. unfold reverse_resolve_paths_in_output.
  unfold mappings_by_local_specificity in *. cbn [sb_mappings new_sandbox] in H.
  induction (sort_by _ (sb_mappings sb)) as [|m ms IH]; [done|]. cbn [forallb foldl] in *.
  apply andb_true_iff in H as [Hm Hms]. unfold reverse_pass at 2. rewrite re_sub_unmatched by done. by apply IH.
Qed.

Lemma file_on_way_insert f l v : file_on_way (mk_fs (<[l := v]> (fs_files f)) (fs_dirs f)) l = file_on_way f l.
Proof.
  unfold file_on_way. apply existsb_ext_in. intros n Hn%in_seq. simpl.
  rewrite lookup_insert_ne; [done|]. intros E. apply (f_equal length) in E. rewrite length_take in E. lia.
Qed.

(** What was written is what is read, from the same sandbox and the same path. *)
Lemma read_after_write p content sb f sb' f' :
  plain_text (sb_mappings sb) content = true ->
  write_file realpath denied encode p content false sb f = (Ok (), sb', f') ->
  read_file realpath denied decode p sb' f' = Ok content.
Proof using decode_encode.
  intros Hplain Hw. unfold write_file in Hw.
  destruct (resolve_path_with_mapping realpath sb p) as [[rp om]|] eqn:Er; [|done].
  destruct (is_resolved_path_read_only realpath sb (rp, om)); [done|].
  destruct (make_parent realpath denied (rp, om).1 f) as [f1|] eqn:Em; [|by destruct e].
  rewrite plain_content in Hw by done.
  destruct (write_bytes realpath denied (rp, om).1 (encode content) false f1) as [f2|] eqn:Ew; [|by destruct e].
  injection Hw as <- <-. unfold write_bytes in Ew. cbn [fst] in Ew.
  destruct (denied (realpath rp)) eqn:Ed; [done|].
  destruct (bool_decide (realpath rp ∈ fs_dirs f1)) eqn:Edir; [done|].
  destruct (file_on_way f1 (realpath rp)) eqn:Eway; [done|]. case_match; [done|]. injection Ew as <-.
  unfold read_file, resolve_path.
  match goal with |- context [resolve_path_with_mapping realpath ?sb' p] =>
    change (resolve_path_with_mapping realpath sb' p) with (resolve_path_with_mapping realpath sb p) end.
  rewrite Er. cbn [result_bind fst sb_written].
  rewrite bool_decide_eq_true_2 by set_solver.
  assert (Hb : read_text realpath denied decode rp (mk_fs (<[realpath rp := "" +:+ encode content]> (fs_files f1)) (fs_dirs f1))
    = Ok content).
  { unfold read_text, read_bytes. rewrite Ed. cbn [fs_dirs fs_files]. rewrite Edir, file_on_way_insert, Eway.
    rewrite lookup_insert_eq. cbn [result_bind]. change ("" +:+ encode content) with (encode content).
    rewrite decode_encode, universal_newlines_plain; [done|].
    unfold plain_text in Hplain. apply andb_true_iff in Hplain as [_ H']. by apply negb_true_iff. }
  rewrite Hb. cbn [result_bind reraise_as]. f_equal.
  by apply (plain_reverse (mk_sandbox (sb_id sb) (sb_mappings sb) ({[rp]} ∪ sb_written sb))).
Qed.
End round_trip.

(** *** Through the tools *)

(** The answer to a failure starts with a letter or a line feed that "OK" does
    not start with. *)
Definition not_ok (s : string) : bool :=
  match s with String c _ => Ascii.eqb c "E" || Ascii.eqb c "010" | "" => false end.

Lemma not_ok_neq s : not_ok s = true -> s <> "OK".
Proof. by intros H ->. Qed.

Lemma sslice_not_ok n s : 0 < n -> not_ok s = true -> not_ok (sslice n s) = true.
Proof. intros Hn. unfold sslice. destruct s as [|c s]; [done|]. by replace (Z.to_nat n) with (S (Z.to_nat (n - 1))) by lia. Qed.

Lemma not_ok_app s t : not_ok s = true -> not_ok (s +:+ t) = true.
Proof. by destruct s. Qed.

Lemma truncated_not_ok s n : 0 < n -> not_ok s = true -> not_ok (truncate_write_file_error_detail s n) = true.
Proof.
  intros Hn Hs. unfold truncate_write_file_error_detail, middle_truncate. rewrite (proj2 (Z.eqb_neq n 0)) by lia.
  case_match; [done|]. rewrite (proj2 (Z.ltb_ge n 0)) by lia. case_match; [by apply sslice_not_ok|].
  set (kept := Z.max _ _) in *. destruct (decide (0 < kept / 2)) as [Hk|Hk].
  - by apply not_ok_app, sslice_not_ok.
  - unfold sslice. by replace (Z.to_nat (kept / 2)) with 0%nat by lia.
Qed.

Section tool_round_trip.
Context (realpath : string -> loc) `{!RealPath realpath} (denied : loc -> bool).
Context (encode : string -> string) (decode : string -> result string string) (py_repr : string -> string).
Context (cfg : sandbox_config) (base_dir : pure_path) (owner : string -> string).
Context (read_max write_max max_cached : Z) (f0 : fs).

Local Notation env := (system_env realpath cfg base_dir owner read_max write_max f0).
Local Notation state_ok := (state_ok realpath cfg base_dir owner f0).

Lemma write_error_not_ok e_env path e s : not_ok (write_file_error realpath py_repr e_env path e s) = true.
Proof.
  unfold write_file_error, format_write_file_error.
  repeat case_match; try (by apply truncated_not_ok); done.
Qed.

(** The next call finds the sandbox in the cache and the directories made. *)
Definition ready (t : string) (sb : local_sandbox) (s : tool_state) : Prop :=
  dict_get t (pv_thread_sandboxes (ts_provider s)) = Some sb
  /\ exists r, ts_runtime s = HasState r /\ rs_sandbox_id r = Some ("local:" +:+ t)
       /\ rs_thread_data r = thread_data_of base_dir owner t
       /\ (rs_thread_data r = None \/ rs_directories_created r = true).

Lemma get_cached t sb pv pv' :
  get ("local:" +:+ t) pv = (Some sb, pv') -> dict_get t (pv_thread_sandboxes pv') = Some sb.
Proof.
  unfold get. rewrite local_not_generic, local_prefix, str_drop_local. case_match; [|done].
  intros [= -> <-]. simpl. by rewrite dict_get_move.
Qed.

Lemma ensure_sandbox_cached t s sb s' :
  state_ok t s -> ensure_sandbox_initialized realpath denied (env t) s = (Ok sb, s') ->
  dict_get t (pv_thread_sandboxes (ts_provider s')) = Some sb.
Proof.
  intros (Hpv & rs & Hr & Hrt). unfold ensure_sandbox_initialized. rewrite Hr.
  destruct (existing_sandbox rs (ts_provider s)) as [[sb0|] pv1] eqn:Ef.
  - intros [= <- <-]. unfold existing_sandbox in Ef. destruct Hrt as (_ & _ & [E|E]); rewrite E in Ef; [done|].
    by eapply get_cached.
  - pose proof Hrt as (Ht & _ & _). rewrite Ht.
    change (te_base_dir (env t)) with base_dir. change (te_user_id (env t)) with (owner t).
    destruct (acquire _ _ _ _ _ _ _) as [[acquired pv2] f2] eqn:Ea. destruct acquired as [id|]; [|done].
    assert (Hpv1 : provider_ok realpath cfg base_dir owner f0 pv1).
    { unfold existing_sandbox in Ef. destruct Hrt as (_ & _ & [E|E]); rewrite E in Ef; [by simplify_eq|].
      by eapply get_thread_ok in Ef as [? _]. }
    destruct (acquire_thread_ok _ _ _ _ _ _ _ _ _ _ _ _ Hpv1 Ea) as (_ & _ & Hid).
    rewrite (Hid _ eq_refl). destruct (get _ pv2) as [[sb'|] pv3] eqn:Eg; [|done]. intros [= <- <-].
    by eapply get_cached.
Qed.

Lemma ensure_dirs_ready t s sb s' :
  state_ok t s -> has_sandbox t s -> dict_get t (pv_thread_sandboxes (ts_provider s)) = Some sb ->
  ensure_thread_directories_exist realpath denied s = (Ok (), s') -> ready t sb s'.
Proof.
  intros (_ & rs & Hr & (_ & Htd & _)) Hhas Hc. pose proof (has_sandbox_local _ _ Hhas) as Hl.
  destruct Hhas as (rs' & Hr' & Hid). rewrite Hr in Hr'. injection Hr' as <-. unfold ensure_thread_directories_exist.
  rewrite Hl, Hr. cbn [negb]. destruct (rs_thread_data rs) as [td|] eqn:Etd.
  2: { intros [= <-]. split; [done|]. exists rs. split_and!; rewrite ?Etd; auto. }
  destruct (rs_directories_created rs) eqn:Ec.
  { intros [= <-]. split; [done|]. exists rs. split_and!; rewrite ?Etd; auto. }
  destruct (make_dirs _ _ _ _) as [[[]|] f1]; [|done]. intros [= <-]. split; [done|].
  eexists. split; [done|]. simpl. split_and!; rewrite ?Etd; auto.
Qed.

Lemma prepare_ready t target path s sb p s' :
  state_ok t s -> prepare realpath denied (env t) target path s = (Ok (sb, p), s') -> ready t sb s'.
Proof.
  intros Hok. unfold prepare. destruct (ensure_sandbox_initialized _ _ _ _) as [sandbox s1] eqn:E1.
  destruct sandbox as [sb1|]; [|done].
  destruct (ensure_sandbox_ok _ _ _ _ _ _ _ _ _ _ _ _ Hok E1) as (Hok1 & _ & Hsb). destruct (Hsb _ eq_refl) as [_ Hhas].
  pose proof (ensure_sandbox_cached _ _ _ _ Hok E1) as Hc.
  destruct (ensure_thread_directories_exist _ _ _) as [[[]|] s2] eqn:E2; [|done].
  destruct (ensure_dirs_ok _ _ _ _ _ _ _ _ _ _ Hok1 E2) as (_ & _ & Hhas2).
  rewrite (has_sandbox_local t) by auto. intros [= H <-]. destruct (target _ _); [|done]. injection H as <- _.
  by eapply ensure_dirs_ready.
Qed.

Lemma prepare_when_ready t target path s sb :
  ready t sb s -> exists s',
    prepare realpath denied (env t) target path s
      = (match target (thread_data_of base_dir owner t) (ts_fs s) with
         | Ok p => Ok (sb, p)
         | Err e => Err (Some path, e)
         end, s')
    /\ ts_fs s' = ts_fs s.
Proof.
  intros (Hc & r & Hr & Hid & Htd & Hdirs). unfold prepare, ensure_sandbox_initialized, existing_sandbox.
  rewrite Hr, Hid. unfold get. rewrite local_not_generic, local_prefix, str_drop_local, Hc.
  unfold ensure_thread_directories_exist, is_local_sandbox. cbn [ts_runtime ts_provider ts_fs].
  rewrite Hid, local_prefix, orb_true_r. cbn [negb].
  destruct Hdirs as [Hn|Hd].
  - rewrite Hn. cbn [ts_runtime ts_provider ts_fs]. rewrite Hid, local_prefix, orb_true_r. cbn [get_thread_data].
    rewrite Htd. by eexists.
  - rewrite Hd. destruct (rs_thread_data r) eqn:E; cbn [ts_runtime ts_provider ts_fs];
      rewrite Hid, local_prefix, orb_true_r; cbn [get_thread_data]; rewrite ?E, Htd; by eexists.
Qed.
Lemma read_target_of_write t path p f :
  local_write_target realpath (env t) path (thread_data_of base_dir owner t) = Ok p ->
  local_read_target realpath (env t) path (thread_data_of base_dir owner t) f = Ok p.
Proof.
  unfold local_write_target, local_read_target, validate_local_tool_path.
  destruct (thread_data_of base_dir owner t) as [td|]; [|done]. destruct (reject_path_traversal path); [|done]. simpl.
  destruct (is_skills_path (env t) path); [done|]. destruct (is_acp_workspace_path path); [done|].
  destruct (startswith _ path); [done|]. destruct (is_custom_mount_path (env t) path); [|done].
  destruct (get_custom_mount_for_path (env t) path) as [m|]; [|done]. by destruct (mount_read_only m).
Qed.

Lemma write_ready t sb sb' f' p content append s r :
  ready t sb s -> sb_id sb = "local:" +:+ t ->
  write_file realpath denied encode p content append sb (ts_fs s) = (r, sb', f') ->
  ready t sb' (after_op sb' f' s).
Proof.
  intros (Hc & rs & Hr) Hid Hw. destruct (write_file_sandbox _ _ _ _ _ _ _ _ _ _ _ Hw) as [Eid _].
  split; [|by exists rs]. simpl. unfold put_back. rewrite Eid, Hid, local_not_generic, str_drop_local.
  unfold dict_mem. rewrite Hc. simpl. apply dict_get_set_eq.
Qed.

Hypothesis decode_encode : forall s, decode (encode s) = Ok s.
Hypothesis base_resolved : exists p, base_dir = loc_path (realpath p).
Hypothesis roots_in_place : forall t f x,
  f ∈ thread_dir_functions -> f base_dir t (Some (owner t)) = Ok x -> in_thread base_dir owner t (realpath (path_str x)).
Hypothesis mounts_ok : mounts_absolute (config_mounts cfg) = true.
Hypothesis skills_not_root : skills_container cfg <> "/".

Local Notation call := (do_call realpath denied encode decode py_repr cfg base_dir owner read_max write_max f0).
Local Notation step := (sys_step realpath denied encode decode py_repr cfg base_dir owner read_max write_max f0).

(** What the tools write, they read.  In every reachable system, when
    [write_file] answers OK to thread [t] for a text that mentions no container
    path and no directory behind one, the next [read_file] of the same path
    answers the text, cut at the bound of the tool. *)
Theorem write_then_read sy t path content s' :
  star step (new_system realpath cfg base_dir owner max_cached f0) sy ->
  (forall dirs, thread_dirs base_dir t (Some (owner t)) = Ok dirs ->
     plain_text realpath (setup_path_mappings realpath cfg f0 ++ thread_path_mappings dirs) content = true) ->
  call t (WriteFile path content false) (tool_state_of t sy) = (Ok "OK", s') ->
  (call t (ReadFile path None None) s').1
  = Ok (if String.eqb content "" then "(empty)" else truncate_read_file_output content read_max).
Proof using decode_encode base_resolved roots_in_place mounts_ok skills_not_root RealPath0.
  intros Hstar Hplain Hw.
  assert (Hok : state_ok t (tool_state_of t sy)).
  { apply tool_state_ok. eapply (star_invariant _ _); [|exact Hstar|apply new_system_ok].
    intros ? ? Hs. by eapply sys_step_ok. }
  simpl in Hw. unfold write_file_tool in Hw. destruct (too_large _ _ _ _) as [msg|] eqn:El.
  { unfold too_large in El. case_match; [|done]. by simplify_eq. }
  destruct (prepare _ _ _ _ _ _) as [[[sb p]|[o e]] s1] eqn:Ep.
  2: { injection Hw as H _. by pose proof (not_ok_neq _ (write_error_not_ok (env t) path e s1)). }
  destruct (prepare_ok _ _ _ _ _ _ _ _ _ _ _ _ _ _ Hok Ep) as (_ & _ & Hp). destruct (Hp _ _ eq_refl) as [(Hid & dirs & Hd & Hm) Ht].
  pose proof (prepare_ready _ _ _ _ _ _ _ Hok Ep) as Hready.
  destruct (write_file _ _ _ _ _ _ _ _) as [[[[]|e] sb2] f2] eqn:Ew.
  2: { injection Hw as H _. by pose proof (not_ok_neq _ (write_error_not_ok (env t) path e (after_op sb2 f2 s1))). }
  injection Hw as <-. simpl. unfold read_file_tool.
  destruct (prepare_when_ready t (local_read_target realpath (env t) path) path _ _ (write_ready _ _ _ _ _ _ _ _ _ Hready Hid Ew))
    as (s3 & -> & Hf). rewrite (read_target_of_write _ _ p) by done. simpl. rewrite Hf. simpl.
  erewrite read_after_write; [|exact decode_encode| |exact Ew]; [by case_match|].
  rewrite Hm. by apply Hplain.
Qed.
End tool_round_trip.
