(* ===== verification/SandboxExamples.v ===== *)
(** * The file tools on a concrete system

    A file system without symbolic links satisfies what [SandboxProps] asks of
    [os.path.realpath]; the theorems about the file tools apply to it.  Then
    inputs on which the tools do something their comments do not say. *)
From S2P Require Import Prelude PyString PyList PyPath Paths LocalSandbox SandboxTools SandboxProps SandboxIo.
From stdpp Require Import pretty.
From Stdlib Require Import Ascii.
Local Open Scope string_scope.
Local Open Scope Z_scope.
Local Open Scope list_scope.

(** ** Paths without symbolic links *)

(** Relative paths are taken from the root. *)
Definition lexical (p : string) : loc := foldl (norm_step true) [] (split_char slash p).

Lemma norm_step_good acc c : Forall good_part acc -> no_slash c -> Forall good_part (norm_step true acc c).
Proof.
  intros Hacc Hc. unfold norm_step. destruct (String.eqb c "" || String.eqb c ".") eqn:E1; [done|].
  apply orb_false_iff in E1 as [E1 E2]. apply String.eqb_neq in E1, E2. destruct (String.eqb c "..") eqn:E3; simpl.
  - case_match.
    + match goal with H : match last acc with _ => _ end = true |- _ => rename H into Hl end.
      destruct (last acc) as [x|] eqn:El; [|done]. apply String.eqb_eq in Hl as ->.
      apply last_Some_elem_of in El. rewrite Forall_forall in Hacc. by destruct (Hacc _ El) as (_ & _ & ? & _).
    + eapply Forall_prefix; [|exact Hacc]. destruct acc as [|x acc _] using rev_ind; [done|].
      rewrite removelast_last. by exists [x].
  - apply String.eqb_neq in E3. apply Forall_app. split; [done|]. constructor; [|done]. by split_and!.
Qed.

Lemma lexical_good p : Forall good_part (lexical p).
Proof.
  unfold lexical. assert (Hs : Forall no_slash (split_char slash p)).
  { eapply Forall_impl; [apply split_parts_no_char|]. intros x Hx. by apply no_slash_spec. }
  assert (H0 : Forall good_part []) by done. revert H0. generalize (@nil string) as acc.
  induction Hs as [|c cs Hc Hcs IH]; intros acc Hacc; simpl; [done|]. apply IH. by apply norm_step_good.
Qed.

Lemma norm_good acc l : Forall good_part l -> foldl (norm_step true) acc l = acc ++ l.
Proof.
  revert acc. induction l as [|c l IH]; intros acc Hl; simpl; [by rewrite app_nil_r|].
  inversion_clear Hl as [|? ? (H1 & H2 & H3 & _) Hl']. rewrite IH by done. unfold norm_step.
  rewrite (proj2 (String.eqb_neq _ _) H1), (proj2 (String.eqb_neq _ _) H2), (proj2 (String.eqb_neq _ _) H3). simpl.
  by rewrite <-app_assoc.
Qed.

Lemma lexical_loc l : Forall good_part l -> lexical (loc_str l) = l.
Proof.
  intros Hl. unfold lexical, loc_str. change ("/" +:+ join_parts l) with (String slash (join_parts l)).
  assert (E : split_char slash (String slash (join_parts l)) = "" :: split_char slash (join_parts l)) by done.
  rewrite E. destruct l as [|c l]; [done|]. rewrite split_join by (done || by apply good_no_slash).
  change (foldl (norm_step true) [] ("" :: c :: l)) with (foldl (norm_step true) [] (c :: l)). by rewrite norm_good.
Qed.

#[export] Instance lexical_realpath : RealPath lexical.
Proof.
  constructor; [apply lexical_good|]. intros p l Hl. apply lexical_loc. eapply Forall_prefix; [exact Hl|apply lexical_good].
Qed.

(** Without "..", going on from a directory stays in it. *)
Lemma norm_extends acc l : existsb (String.eqb "..") l = false -> acc `prefix_of` foldl (norm_step true) acc l.
Proof.
  revert acc. induction l as [|c l IH]; intros acc H; simpl; [done|]. apply orb_false_iff in H as [Hc Hl].
  etrans; [|by apply IH]. unfold norm_step. case_match; [done|]. rewrite (String.eqb_sym c), Hc. simpl. by exists [c].
Qed.

Lemma lexical_join base rel :
  existsb (String.eqb "..") (split_char slash rel) = false -> lexical base `prefix_of` lexical (base +:+ "/" +:+ rel).
Proof.
  intros H. unfold lexical. change ("/" +:+ rel) with (String slash rel). rewrite split_app_gen, foldl_app.
  by apply norm_extends.
Qed.

Lemma lstrip_no_dotdot f s :
  (forall c, f c = true -> c = slash) ->
  existsb (String.eqb "..") (split_char slash s) = false ->
  existsb (String.eqb "..") (split_char slash (lstrip_by f s)) = false.
Proof.
  intros Hf. induction s as [|c s IH]; [done|]. simpl lstrip_by. destruct (f c) eqn:E; [|done].
  apply Hf in E as ->. intros H. apply IH. exact H.
Qed.

Lemma lstrip_sep_slash s : contains_char backslash s = false -> lstrip_by is_sep s = lstrip_by is_slash s.
Proof.
  induction s as [|c s IH]; [done|]. rewrite contains_char_cons, orb_false_iff. intros [Hc Hs]. simpl. unfold is_sep at 1.
  rewrite Hc, orb_false_r. unfold is_slash at 1. destruct (Ascii.eqb c slash); [by apply IH|done].
Qed.

Lemma replace_char_absent a b s : a <> b -> contains_char a (replace_char a b s) = false.
Proof.
  intros Hab. induction s as [|c s IH]; [done|]. simpl. rewrite contains_char_cons, IH, orb_false_r.
  destruct (Ascii.eqb c a) eqn:E; [|done]. by apply Ascii.eqb_neq.
Qed.

Lemma lexical_join_style base rel :
  path_separator_for_style base = slash -> rstrip_by is_sep base = base ->
  reject_path_traversal rel = Ok () -> lexical base `prefix_of` lexical (join_path_preserving_style base rel).
Proof.
  intros Hsep Hr Hrel%reject_iff. unfold join_path_preserving_style. case_match; [done|].
  rewrite Hsep. change (if Ascii.eqb slash slash then backslash else slash) with backslash. rewrite Hr. apply lexical_join.
  rewrite lstrip_sep_slash by (by apply replace_char_absent).
  apply lstrip_no_dotdot; [|exact Hrel]. intros c Hc. by apply Ascii.eqb_eq.
Qed.

(** ** A system *)

Definition demo_cfg : sandbox_config :=
  mk_sandbox_config "/mnt/skills" "/opt/skills" [mk_mount "/srv/shared" "/mnt/shared" false].
Definition demo_base : pure_path := loc_path ["data"].
Definition demo_owner (t : string) : string := if String.eqb t "t1" then "alice" else "bob".
Definition demo_fs : fs :=
  mk_fs {[ ["opt"; "skills"; "SKILL.md"] := "how to" ]} {[ ["opt"; "skills"]; ["srv"; "shared"] ]}.
Definition no_denial (_ : loc) : bool := false.
Definition quoted (s : string) : string := "'" +:+ s +:+ "'".

Lemma demo_base_resolved : exists p, demo_base = loc_path (lexical p).
Proof. by exists "/data". Qed.

Lemma demo_thread_dir t d :
  thread_dir demo_base t (Some (demo_owner t)) = Ok d ->
  d = loc_path ["data"; "users"; demo_owner t; "threads"; t]
  /\ Forall good_part ["data"; "users"; demo_owner t; "threads"; t].
Proof.
  intros (Ht & Ho & ->)%thread_dir_Ok. split; [done|].
  repeat (apply Forall_cons; split; [done || by apply literal_good|]). done.
Qed.

Lemma demo_roots t f x :
  f ∈ thread_dir_functions -> f demo_base t (Some (demo_owner t)) = Ok x ->
  in_thread demo_base demo_owner t (lexical (path_str x)).
Proof.
  intros Hf Hx. destruct (thread_dir demo_base t (Some (demo_owner t))) as [d|] eqn:Ed.
  - destruct (thread_subdirs _ _ _ _ _ Ed Hf) as (rest & E & Hrest). exists d. split; [done|].
    rewrite Hx in E. injection E as ->. apply demo_thread_dir in Ed as [-> Hg]. cbn [pp_root pp_parts loc_path].
    rewrite path_str_loc, lexical_loc by (by apply Forall_app). by exists rest.
  - set_unfold in Hf. destruct Hf as [->|[->|[->|[->|[->|[]]]]]];
      unfold sandbox_user_data_dir, sandbox_work_dir, sandbox_uploads_dir, sandbox_outputs_dir, acp_workspace_dir in Hx;
      by rewrite Ed in Hx.
Qed.

Lemma demo_skills_stay rel :
  reject_path_traversal rel = Ok () -> in_skills lexical demo_cfg (lexical (join_path_preserving_style "/opt/skills" rel)).
Proof. intros H. by apply (lexical_join_style "/opt/skills"). Qed.

Lemma rstrip_by_app f s t : rstrip_by f t = t -> t <> "" -> rstrip_by f (s +:+ t) = s +:+ t.
Proof.
  intros Ht Hne. induction s as [|c s IH]; [done|]. rewrite str_app_cons. simpl. rewrite IH.
  destruct (s +:+ t) eqn:E; [|done]. by destruct s, t.
Qed.

Lemma demo_acp_stay t x rel :
  acp_workspace_dir demo_base t (Some (demo_owner t)) = Ok x -> reject_path_traversal rel = Ok () ->
  in_thread demo_base demo_owner t (lexical (join_path_preserving_style (path_str x) rel)).
Proof.
  intros Hx Hrel. assert (Hroot : in_thread demo_base demo_owner t (lexical (path_str x))).
  { eapply demo_roots; [|exact Hx]. unfold thread_dir_functions. in_list. }
  destruct Hroot as (d & Hd & Hp). exists d. split; [done|]. etrans; [exact Hp|].
  unfold acp_workspace_dir in Hx. rewrite Hd in Hx. injection Hx as <-.
  apply demo_thread_dir in Hd as [-> _]. rewrite path_join_part by (by apply literal_good).
  cbn [pp_root pp_parts loc_path].
  change (mk_path "/" ?l) with (loc_path l). rewrite path_str_loc, loc_str_snoc by done.
  apply lexical_join_style; [|by apply rstrip_by_app|done].
  unfold path_separator_for_style, loc_str. rewrite !contains_char_app. simpl. by rewrite andb_false_r.
Qed.

Lemma demo_mounts : mounts_absolute (config_mounts demo_cfg) = true.
Proof. reflexivity. Qed.

Definition demo_system : system := new_system lexical demo_cfg demo_base demo_owner 256 demo_fs.

Local Notation demo_call := (do_call lexical no_denial id Ok quoted demo_cfg demo_base demo_owner 50000 80000 demo_fs).
Local Notation demo_after := (after_call lexical no_denial id Ok quoted demo_cfg demo_base demo_owner 50000 80000 demo_fs).
Local Notation demo_step := (sys_step lexical no_denial id Ok quoted demo_cfg demo_base demo_owner 50000 80000 demo_fs).

Definition bob_writes : file_call := WriteFile "/mnt/user-data/workspace/b.txt" "secret" false.
Definition alice_writes : file_call := WriteFile "/mnt/user-data/workspace/a.txt" "hello" false.
Definition bob_file : loc := ["data"; "users"; "bob"; "threads"; "t2"; "user-data"; "workspace"; "b.txt"].
Definition alice_file : loc := ["data"; "users"; "alice"; "threads"; "t1"; "user-data"; "workspace"; "a.txt"].

Definition with_bob : system := demo_after "t2" bob_writes demo_system.

Lemma with_bob_reachable : star demo_step demo_system with_bob.
Proof. eapply star_step; [apply (sys_call _ _ _ _ _ _ _ _ _ _ _ "t2" bob_writes)|constructor]. Qed.

Example bob_wrote : fs_files (sy_fs with_bob) !! bob_file = Some "secret".
Proof. vm_compute. reflexivity. Qed.

Lemma file_tools_confined_witness :
  fs_files (sy_fs (demo_after "t1" alice_writes with_bob)) !! alice_file = Some "hello"
  /\ (in_thread demo_base demo_owner "t1" alice_file /\ (forall t', in_thread demo_base demo_owner t' alice_file -> t' = "t1")
      \/ in_writable_mount lexical demo_cfg alice_file).
Proof.
  split; [vm_compute; reflexivity|].
  apply (file_tools_confined lexical no_denial id Ok quoted demo_cfg demo_base demo_owner 50000 80000 256 demo_fs
    demo_base_resolved demo_roots demo_mounts ltac:(done) with_bob "t1" alice_writes alice_file with_bob_reachable).
  vm_compute. discriminate.
Defined.

Definition other_secret : fs := mk_fs (<[bob_file := "other"]> (fs_files (sy_fs with_bob))) (fs_dirs (sy_fs with_bob)).

Lemma bob_file_private : ~ readable lexical demo_cfg demo_base demo_owner "t1" bob_file.
Proof.
  assert (Hd : thread_dir demo_base "t1" (Some (demo_owner "t1")) = Ok (loc_path ["data"; "users"; "alice"; "threads"; "t1"])) by reflexivity.
  intros [(d & Hd' & [k Hp])|[(m & Hm & [k Hp])|[k Hp]]].
  - rewrite Hd in Hd'. injection Hd' as <-. done.
  - apply list_elem_of_singleton in Hm as ->. done.
  - done.
Qed.

Lemma other_secret_view : same_view lexical demo_cfg demo_base demo_owner "t1" (sy_fs with_bob) other_secret.
Proof.
  split; [done|]. split.
  - intros l. cbn [other_secret fs_files]. destruct (decide (l = bob_file)) as [->|Hne].
    + rewrite lookup_insert_eq, bob_wrote. split; by eexists.
    + by rewrite lookup_insert_ne.
  - intros l Hl. cbn [other_secret fs_files]. rewrite lookup_insert_ne; [done|]. intros <-. by apply bob_file_private.
Qed.

Lemma read_file_confidential_witness :
  let peek := ReadFile "/mnt/user-data/../../../../bob/threads/t2/user-data/workspace/b.txt" None None in
  (demo_call "t1" peek (tool_state_of "t1" (mk_system (sy_provider with_bob) other_secret (sy_runtimes with_bob)))).1
  = (demo_call "t1" peek (tool_state_of "t1" with_bob)).1.
Proof.
  apply (read_file_confidential lexical no_denial id Ok quoted demo_cfg demo_base demo_owner 50000 80000 256 demo_fs
    demo_base_resolved demo_roots demo_mounts ltac:(done) demo_skills_stay demo_acp_stay with_bob "t1" _ None None other_secret
    with_bob_reachable other_secret_view).
Defined.

Definition alice_wrote : tool_state := (demo_call "t1" alice_writes (tool_state_of "t1" with_bob)).2.

Lemma write_then_read_witness :
  (demo_call "t1" (ReadFile "/mnt/user-data/workspace/a.txt" None None) alice_wrote).1 = Ok "hello".
Proof.
  apply (write_then_read lexical no_denial id Ok quoted demo_cfg demo_base demo_owner 50000 80000 256 demo_fs
    (fun _ => eq_refl) demo_base_resolved demo_roots demo_mounts ltac:(done) with_bob "t1" "/mnt/user-data/workspace/a.txt" "hello"
    alice_wrote with_bob_reachable).
  - intros dirs Hd. vm_compute in Hd. injection Hd as <-. vm_compute. reflexivity.
  - unfold alice_wrote. rewrite (surjective_pairing (demo_call _ _ _)). f_equal.
Defined.

(** ** Where the code and its comments part *)

Definition t1_data : thread_data :=
  default (mk_thread_data None None None) (thread_data_of demo_base demo_owner "t1").
Definition t1_env : tool_env := system_env lexical demo_cfg demo_base demo_owner 50000 80000 demo_fs "t1".

(** A configured mount is allowed, and [read_file] hands it on, but the
    resolution of [glob] and [grep] takes it for a user-data path. *)
Example search_refuses_mounts :
  validate_local_tool_path t1_env "/mnt/shared/x" (Some t1_data) true = Ok ()
  /\ local_read_target lexical t1_env "/mnt/shared/x" (Some t1_data) demo_fs = Ok "/mnt/shared/x"
  /\ resolve_local_read_path lexical t1_env "/mnt/shared/x" t1_data demo_fs
     = Err (PermErr "Access denied: path traversal detected").
Proof. vm_compute. auto. Qed.

(** A mount with a relative host path is skipped by the provider and allowed
    by the tools: the container path is then opened on the host as it is. *)
Definition relative_cfg : sandbox_config :=
  mk_sandbox_config "/mnt/skills" "/opt/skills" [mk_mount "srv/shared" "/etc" false].

Example skipped_mount_opens_host_path :
  let env := system_env lexical relative_cfg demo_base demo_owner 50000 80000 demo_fs "t1" in
  setup_path_mappings lexical relative_cfg demo_fs = [mk_mapping "/mnt/skills" "/opt/skills" true]
  /\ fs_files (sy_fs (after_call lexical no_denial id Ok quoted relative_cfg demo_base demo_owner 50000 80000 demo_fs
       "t1" (WriteFile "/etc/passwd" "x" false) (new_system lexical relative_cfg demo_base demo_owner 256 demo_fs)))
     !! ["etc"; "passwd"] = Some "x".
Proof. vm_compute. auto. Qed.

(** The root of the user data itself is refused by the tools. *)
Example user_data_root_refused :
  validate_local_tool_path t1_env "/mnt/user-data" (Some t1_data) true <> Ok ().
Proof. vm_compute. discriminate. Qed.

(** [$] lets a newline end an identifier. *)
Example newline_identifier : validate_thread_id ("t1" +:+ newline) = Ok ("t1" +:+ newline).
Proof. reflexivity. Qed.

(** The identifier made for a raw id is a raw id that is left alone: the two
    raw ids share a bucket. *)
Example safe_user_ids_collide :
  let hash (_ : string) := "0123456789abcdef0123456789abcdef" in
  make_safe_user_id hash "a@b" = make_safe_user_id hash (match make_safe_user_id hash "a@b" with Ok u => u | Err _ => "" end).
Proof. vm_compute. reflexivity. Qed.

(** A text that climbs out of a container path cannot be written: the write
    fails and leaves no file. *)
Example climbing_text_refused :
  let r := demo_call "t1" (WriteFile "/mnt/user-data/workspace/a.txt" "see /mnt/user-data/workspace/../../../x" false)
             (tool_state_of "t1" demo_system) in
  r.1 = Ok "Error: Permission denied writing to file: /mnt/user-data/workspace/a.txt"
  /\ fs_files (ts_fs r.2) !! alice_file = None.
Proof. vm_compute. auto. Qed.

(** When the directories of the thread cannot be made, [read_file] does not
    answer: its handler names a variable that is not bound yet. *)
Example denied_directory_escapes_the_handler :
  let denied l := bool_decide (l = ["data"; "users"; "alice"]) in
  (do_call lexical denied id Ok quoted demo_cfg demo_base demo_owner 50000 80000 demo_fs "t1"
     (ReadFile "/mnt/user-data/workspace/a.txt" None None) (tool_state_of "t1" demo_system)).1 = Err unbound_local.
Proof. vm_compute. reflexivity. Qed.

(** [str_replace] with several occurrences replaces the first. *)
Example first_of_several_replaced :
  let s1 := (demo_call "t1" (WriteFile "/mnt/user-data/workspace/a.txt" "x x" false) (tool_state_of "t1" demo_system)).2 in
  let r := demo_call "t1" (StrReplace "/mnt/user-data/workspace/a.txt" "x" "y" false) s1 in
  r.1 = Ok "OK" /\ fs_files (ts_fs r.2) !! alice_file = Some "y x".
Proof. vm_compute. auto. Qed.
