(* ===== verification/Serialization.v ===== *)
(** * Values of a run and their serialization

    [runtime/serialization.py]: what the worker publishes of the chunks a graph
    yields, and the search for the error-fallback marker in them
    ([runtime/runs/worker.py], the helpers at its end). *)
From S2P Require Import Prelude PyString.
Local Open Scope string_scope.
Local Open Scope list_scope.

(** ** Python values *)

(** An object has the attributes the code looks for: [additional_kwargs],
    [content], what [model_dump()] and [dict()] return ([None] when missing or
    raising), the value and id when it is an [Interrupt], and its text. *)
Inductive pyval : Type :=
| VNone
| VBool (b : bool)
| VNum (z : Z)
| VStr (s : string)
| VList (l : list pyval)
| VTuple (l : list pyval)
| VSet (l : list pyval) (text : string)
| VDict (d : list (string * pyval))
| VObj (additional_kwargs content : option pyval) (model_dump dict : option json)
    (interrupt : option (pyval * pyval)) (text : string).

Definition py_truthy (v : pyval) : bool :=
  match v with
  | VNone => false
  | VBool b => b
  | VNum z => negb (z =? 0)%Z
  | VStr s => negb (String.eqb s "")
  | VList l | VTuple l | VSet l _ => match l with [] => false | _ => true end
  | VDict d => match d with [] => false | _ => true end
  | VObj _ _ _ _ _ _ => true
  end.

(** [json.dumps(v, default=str)]. *)
Fixpoint raw_json (v : pyval) : json :=
  match v with
  | VNone => JNull
  | VBool b => JBool b
  | VNum z => JNum z
  | VStr s => JStr s
  | VList l | VTuple l => JArr (raw_json <$> l)
  | VSet _ text => JStr text
  | VDict d => JObj ((fun p => (p.1, raw_json p.2)) <$> d)
  | VObj _ _ _ _ _ text => JStr text
  end.

(** ** Serialization *)

Fixpoint serialize_lc_object (obj : pyval) : json :=
  match obj with
  | VNone => JNull
  | VBool b => JBool b
  | VNum z => JNum z
  | VStr s => JStr s
  | VDict d => JObj ((fun p => (p.1, serialize_lc_object p.2)) <$> d)
  | VList l | VTuple l => JArr (serialize_lc_object <$> l)
  | VSet _ text => JStr text
  | VObj _ _ model_dump dict interrupt text =>
      match model_dump, dict, interrupt with
      | Some j, _, _ => j
      | None, Some j, _ => j
      | None, None, Some (value, id) => JObj [("value", serialize_lc_object value); ("id", serialize_lc_object id)]
      | None, None, None => JStr text
      end
  end.

Definition is_pregel_key (key : string) : bool := startswith "__pregel_" key.

Definition serialize_channel_values (channel_values : list (string * pyval)) : list (string * json) :=
  (fun p => (p.1, serialize_lc_object p.2)) <$> List.filter (fun p => negb (is_pregel_key p.1)) channel_values.

(** [str(v)] of a JSON value, where only the text of a string matters here. *)
Definition starts_with_data (v : option json) : bool :=
  match v with Some (JStr s) => startswith "data:" s | _ => false end.

Definition is_data_image (block : json) : bool :=
  match block with
  | JObj b =>
      match dict_get "type" b, dict_get "image_url" b with
      | Some (JStr "image_url"), Some (JObj u) => starts_with_data (dict_get "url" u)
      | _, _ => false
      end
  | _ => false
  end.

Definition is_hidden (msg : list (string * json)) : bool :=
  match dict_get "additional_kwargs" msg with
  | Some (JObj k) => match dict_get "hide_from_ui" k with Some (JBool true) => true | _ => false end
  | _ => false
  end.

Definition strip_message (msg : json) : json :=
  match msg with
  | JObj m =>
      if is_hidden m then
        match dict_get "content" m with
        | Some (JArr content) => JObj (dict_set "content" (JArr (List.filter (fun b => negb (is_data_image b)) content)) m)
        | _ => msg
        end
      else msg
  | _ => msg
  end.

Definition strip_data_url_image_blocks (messages : list json) : list json := strip_message <$> messages.

Definition serialize_channel_values_for_api (channel_values : list (string * pyval)) : list (string * json) :=
  let result := serialize_channel_values channel_values in
  match dict_get "messages" result with
  | Some (JArr messages) => dict_set "messages" (JArr (strip_data_url_image_blocks messages)) result
  | _ => result
  end.

Definition serialize_messages_tuple (obj : pyval) : json :=
  match obj with
  | VTuple [chunk; metadata] =>
      JArr [serialize_lc_object chunk; match metadata with VDict _ => raw_json metadata | _ => JObj [] end]
  | _ => serialize_lc_object obj
  end.

Definition serialize (obj : pyval) (mode : string) : json :=
  if String.eqb mode "messages" then serialize_messages_tuple obj
  else if String.eqb mode "values" then
    match obj with
    | VDict d => JObj (serialize_channel_values_for_api d)
    | _ => serialize_lc_object obj
    end
  else serialize_lc_object obj.

(** ** The error-fallback marker *)

Definition LLM_FAILED : string := "LLM provider failed after retries".

(** [isinstance(v, str) and v.strip()], as the stripped text. *)
Definition stripped (v : option pyval) : option string :=
  match v with
  | Some (VStr s) => if String.eqb (strip s) "" then None else Some (strip s)
  | _ => None
  end.

Definition error_fallback_message_from_metadata (metadata : list (string * pyval)) (content : option pyval) : string :=
  match stripped (dict_get "error_detail" metadata), stripped (dict_get "error_reason" metadata), stripped content with
  | Some s, _, _ => s
  | None, Some s, _ => s
  | None, None, Some s => str_take 2000 s
  | None, None, None => LLM_FAILED
  end.

(** A dictionary of keyword arguments that carries the marker. *)
Definition marked (kwargs : option pyval) : option (list (string * pyval)) :=
  match kwargs with
  | Some (VDict k) =>
      match dict_get "deerflow_error_fallback" k with
      | Some v => if py_truthy v then Some k else None
      | None => None
      end
  | _ => None
  end.

Definition try_extract_from_message (obj : pyval) : option string :=
  match obj with
  | VObj kwargs content _ _ _ _ =>
      (fun k => error_fallback_message_from_metadata k content) <$> marked kwargs
  | VDict d =>
      (fun k => error_fallback_message_from_metadata k (dict_get "content" d)) <$> marked (dict_get "additional_kwargs" d)
  | _ => None
  end.

Fixpoint first_some {A B} (f : A -> option B) (l : list A) : option B :=
  match l with
  | [] => None
  | x :: l' => match f x with Some b => Some b | None => first_some f l' end
  end.

(** The deep walk.  Values are trees, so the guard against visiting an object
    twice changes nothing. *)
Fixpoint walk (obj : pyval) : option string :=
  match try_extract_from_message obj with
  | Some m => Some m
  | None =>
      match obj with
      | VDict d => first_some (fun p => walk p.2) d
      | VList l | VTuple l | VSet l _ => first_some walk l
      | _ => None
      end
  end.

Definition extract_llm_error_fallback_message (value : pyval) : option string :=
  match value with
  | VDict d =>
      match dict_get "messages" d with
      | Some (VList messages) | Some (VTuple messages) => first_some try_extract_from_message messages
      | _ => walk value
      end
  | _ => walk value
  end.
