(* ===== verification/Worker.v ===== *)
(** * The run worker

    [runtime/runs/worker.py]: [run_agent], the task that claims a run, drives
    the agent's stream into the event bridge, settles the status, restores the
    thread on a rollback and ends the stream; with its lease heartbeat and its
    helpers, [runtime/runs/naming.py] and [tracing/metadata.py].

    The world of the task holds the run manager ([RunManager]), the in-process
    bridge ([StreamBridge]), the journal ([Journal]), the tenant variable of its
    context, its local variables, and the backends behind the classes below.
    Spans, metrics and log lines are left out. *)
From S2P Require Import Prelude PyString PyList PyAsync Transitions RunStore Retry StoreApi.
From S2P Require Import Ownership RunManager Authorize EventStore Journal StreamBridge.
From S2P Require Import Serialization.
From stdpp Require Import pretty.
Local Open Scope string_scope.
Local Open Scope Z_scope.
Local Open Scope list_scope.
Local Open Scope coro_scope.

(** ** Backends *)

(** What a backend raises: the name of an [Exception] and its text. *)
Definition failure : Type := string * string.

Definition lift {A} (r : result failure A) : result raised A :=
  match r with Ok a => Ok a | Err (name, msg) => Err (Raised name msg) end.

(** A [CheckpointTuple]: the [configurable] of its config, the checkpoint, the
    metadata, the pending writes. *)
Record ckpt_tuple : Type := mk_ckpt {
  ct_configurable : list (string * json);
  ct_checkpoint : json;
  ct_metadata : json;
  ct_pending_writes : list json
}.

(** The methods of a LangGraph checkpointer the worker calls, for a thread and
    a namespace. *)
Class Checkpointer (C : Type) : Type := {
  cp_get_tuple : string -> string -> C -> result failure (option ckpt_tuple) * C;
  cp_put : string -> string -> list (string * json) -> list (string * json) -> list (string * json) -> C ->
    result failure json * C;
  cp_put_writes : json -> list (string * json) -> string -> C -> result failure unit * C;
  cp_delete_thread : string -> C -> result failure unit * C
}.

(** [LeaseStore]; [ls_null] says that it is a [NullLeaseStore]. *)
Class LeaseStore (L : Type) : Type := {
  ls_null : L -> bool;
  ls_claim : string -> string -> string -> string -> string -> Z -> L -> result failure ClaimResult * L;
  ls_renew : ClaimRecord -> string -> Z -> L -> result failure bool * L;
  ls_release : ClaimRecord -> string -> Z -> L -> result failure bool * L
}.

(** The two writes of the thread store. *)
Class ThreadStore (T : Type) : Type := {
  ts_update_display_name : string -> json -> T -> result failure unit * T;
  ts_update_status : string -> string -> T -> result failure unit * T
}.

(** ** Configuration dictionaries *)

Inductive cval : Type :=
| CVal (j : json)
| CDict (d : list (string * cval))
| CList (l : list cval)
| CAppConfig
| CJournal
| CRuntime (context : list (string * cval)).

Definition setdefault {V} (k : string) (v : V) (d : list (string * V)) : list (string * V) :=
  if dict_mem k d then d else dict_set k v d.

Definition as_dict (v : option cval) : list (string * cval) :=
  match v with Some (CDict d) => d | _ => [] end.

(** [_build_runtime_context]. *)
Definition build_runtime_context (thread_id run_id : string) (caller_context : option cval) (app_config : bool)
    : list (string * cval) :=
  let ctx := [("thread_id", CVal (JStr thread_id)); ("run_id", CVal (JStr run_id))] in
  let ctx := foldl (fun d p => setdefault p.1 p.2 d) ctx (as_dict caller_context) in
  if app_config then dict_set "app_config" CAppConfig ctx else ctx.

(** [_install_runtime_context]. *)
Definition install_runtime_context (config runtime_context : list (string * cval)) : list (string * cval) :=
  match dict_get "context" config with
  | Some (CDict existing) =>
      let fill k d := match dict_get k runtime_context with Some v => setdefault k v d | None => d end in
      let d := fill "run_id" (fill "thread_id" existing) in
      let d := match dict_get "app_config" runtime_context with Some v => dict_set "app_config" v d | None => d end in
      dict_set "context" (CDict d) config
  | _ => dict_set "context" (CDict runtime_context) config
  end.

(** [resolve_root_run_name]. *)
Definition named_agent (container : option cval) : option string :=
  match container with
  | Some (CDict d) =>
      match dict_get "agent_name" d with
      | Some (CVal (JStr s)) => if String.eqb (strip s) "" then None else Some s
      | _ => None
      end
  | _ => None
  end.

Definition resolve_root_run_name (config : list (string * cval)) (assistant_id : option string) : string :=
  match named_agent (dict_get "context" config), named_agent (dict_get "configurable" config) with
  | Some s, _ => s
  | None, Some s => s
  | None, None => if truthy assistant_id then opt_or assistant_id "" else "lead_agent"
  end.

(** [build_langfuse_trace_metadata] and [inject_langfuse_metadata]. *)
Definition DEFAULT_USER_ID : string := "default".

Definition or_text (s : option string) (default : string) : string :=
  if truthy s then opt_or s "" else default.

Definition build_langfuse_trace_metadata (enabled : bool) (thread_id : string)
    (user_id assistant_id model_name environment : option string) : list (string * cval) :=
  if negb enabled then []
  else
    let tags := (if truthy environment then ["env:" +:+ opt_or environment ""] else [])
                ++ (if truthy model_name then ["model:" +:+ opt_or model_name ""] else []) in
    [("langfuse_session_id", CVal (JStr thread_id));
     ("langfuse_user_id", CVal (JStr (or_text user_id DEFAULT_USER_ID)));
     ("langfuse_trace_name", CVal (JStr (or_text assistant_id "lead-agent")))]
    ++ match tags with [] => [] | _ => [("langfuse_tags", CVal (JArr (JStr <$> tags)))] end.

Definition inject_langfuse_metadata (config : list (string * cval)) (enabled : bool) (thread_id : string)
    (user_id assistant_id model_name environment : option string) : list (string * cval) :=
  let metadata := build_langfuse_trace_metadata enabled thread_id user_id assistant_id model_name environment in
  match metadata with
  | [] => config
  | _ =>
      dict_set "metadata" (CDict (foldl (fun d p => setdefault p.1 p.2 d) (as_dict (dict_get "metadata" config)) metadata))
        config
  end.

(** ** Stream modes *)

Definition _VALID_LG_MODES : list string := ["values"; "updates"; "checkpoints"; "tasks"; "debug"; "messages"; "custom"].

Definition lg_mode (m : string) : option string :=
  if String.eqb m "messages-tuple" then Some "messages"
  else if String.eqb m "events" then None
  else if str_in m _VALID_LG_MODES then Some m
  else None.

Fixpoint dedup (seen l : list string) : list string :=
  match l with
  | [] => []
  | m :: l' => if str_in m seen then dedup seen l' else m :: dedup (m :: seen) l'
  end.

(** The modes for [astream]; [requested] is the set of requested modes in the
    order it is iterated. *)
Definition lg_modes (requested : list string) : list string :=
  let modes := omap lg_mode requested in
  dedup [] (match modes with [] => ["values"] | _ => modes end).

Definition lg_mode_to_sse_event (mode : string) : string := mode.

Section items.
Context (py_str : pyval -> string).

(** [_unpack_stream_item]. *)
Definition unpack_stream_item (item : pyval) (modes : list string) (stream_subgraphs : bool) : option (string * pyval) :=
  if stream_subgraphs then
    match item with
    | VTuple [_; mode; chunk] => Some (py_str mode, chunk)
    | VTuple [mode; chunk] => Some (py_str mode, chunk)
    | _ => None
    end
  else
    match item with
    | VTuple [mode; chunk] => Some (py_str mode, chunk)
    | _ => match modes with m :: _ => Some (m, item) | [] => None end
    end.

(** What the loop makes of an item: nothing, or the mode and the chunk. *)
Definition read_item (item : pyval) (modes : list string) (stream_subgraphs : bool) : option (string * pyval) :=
  match modes with
  | [m] => if stream_subgraphs then unpack_stream_item item modes stream_subgraphs else Some (m, item)
  | _ => unpack_stream_item item modes stream_subgraphs
  end.
End items.

(** ** The task *)

(** The snapshot taken before the run. *)
Record snapshot : Type := mk_snapshot {
  sn_checkpoint_ns : json;
  sn_checkpoint : json;
  sn_metadata : json;
  sn_pending_writes : list json
}.

(** The local variables the handlers read. *)
Record frame : Type := mk_frame {
  fr_pre_run_checkpoint_id : option json;
  fr_pre_run_snapshot : option snapshot;
  fr_snapshot_capture_failed : bool;
  fr_llm_error_fallback_message : option string;
  fr_tenant_bound : bool
}.

Definition new_frame : frame := mk_frame None None false None false.

(** The agent a factory builds: the model name in its metadata, and the items
    [astream] yields for the given modes. *)
Record agent : Type := mk_agent {
  ag_model_name : option string;
  ag_stream : list string -> bool -> list pyval
}.

(** [RunContext] and the arguments of [run_agent]; the set of modes in the order
    it is iterated, the fresh lease token and checkpoint marker, whether the
    Langfuse tracer is on, and the user and deployment it is told. *)
Record run_args : Type := mk_run_args {
  ra_record : run_record;
  ra_has_checkpointer : bool;
  ra_has_event_store : bool;
  ra_track_token_usage : bool;
  ra_flush_threshold : Z;
  ra_has_thread_store : bool;
  ra_app_config : bool;
  ra_tenant : option tenant_context;
  ra_worker_id : string;
  ra_process_id : string;
  ra_agent_factory : list (string * cval) -> result failure agent;
  ra_config : list (string * cval);
  ra_requested_modes : list string;
  ra_stream_subgraphs : bool;
  ra_lease_token : string;
  ra_marker : string * string;
  ra_langfuse_enabled : bool;
  ra_effective_user_id : string;
  ra_environment : option string
}.

(** An event or the end of the stream, as this task published them. *)
Inductive sent : Type :=
| SentEvent (event : string) (data : json)
| SentEnd.

Record world (S E C L T : Type) : Type := mk_world {
  w_manager : run_manager S;
  w_bridge : bridge;
  w_checkpoints : C;
  w_leases : L;
  w_threads : T;
  w_events : E;
  w_journal : option journal;
  w_tenant : option tenant_context;
  w_now : Z;
  w_frame : frame;
  w_sent : list sent
}.
Arguments mk_world {S E C L T} _ _ _ _ _ _ _ _ _ _ _.
Arguments w_manager {S E C L T} _.
Arguments w_bridge {S E C L T} _.
Arguments w_checkpoints {S E C L T} _.
Arguments w_leases {S E C L T} _.
Arguments w_threads {S E C L T} _.
Arguments w_events {S E C L T} _.
Arguments w_journal {S E C L T} _.
Arguments w_tenant {S E C L T} _.
Arguments w_now {S E C L T} _.
Arguments w_frame {S E C L T} _.
Arguments w_sent {S E C L T} _.

Section worker.
Context {S E C L T : Type}.
Context {SA : RunStoreApi S} {EA : RunEventStore E} {CA : Checkpointer C} {LA : LeaseStore L} {TA : ThreadStore T}.
Context (py_str : pyval -> string) (json_str : json -> string) (a : run_args).
Local Notation world := (world S E C L T).
Local Notation coro := (coro world).

Definition run_id : string := rec_run_id (ra_record a).
Definition thread_id : string := rec_thread_id (ra_record a).

Definition set_manager m (w : world) : world :=
  mk_world m (w_bridge w) (w_checkpoints w) (w_leases w) (w_threads w) (w_events w) (w_journal w) (w_tenant w) (w_now w)
    (w_frame w) (w_sent w).
Definition set_bridge b x (w : world) : world :=
  mk_world (w_manager w) b (w_checkpoints w) (w_leases w) (w_threads w) (w_events w) (w_journal w) (w_tenant w) (w_now w)
    (w_frame w) (w_sent w ++ [x]).
Definition set_checkpoints c (w : world) : world :=
  mk_world (w_manager w) (w_bridge w) c (w_leases w) (w_threads w) (w_events w) (w_journal w) (w_tenant w) (w_now w)
    (w_frame w) (w_sent w).
Definition set_leases l (w : world) : world :=
  mk_world (w_manager w) (w_bridge w) (w_checkpoints w) l (w_threads w) (w_events w) (w_journal w) (w_tenant w) (w_now w)
    (w_frame w) (w_sent w).
Definition set_thread_store t (w : world) : world :=
  mk_world (w_manager w) (w_bridge w) (w_checkpoints w) (w_leases w) t (w_events w) (w_journal w) (w_tenant w) (w_now w)
    (w_frame w) (w_sent w).
Definition set_events e j (w : world) : world :=
  mk_world (w_manager w) (w_bridge w) (w_checkpoints w) (w_leases w) (w_threads w) e j (w_tenant w) (w_now w)
    (w_frame w) (w_sent w).
Definition set_tenant t (w : world) : world :=
  mk_world (w_manager w) (w_bridge w) (w_checkpoints w) (w_leases w) (w_threads w) (w_events w) (w_journal w) t (w_now w)
    (w_frame w) (w_sent w).
Definition set_frame f (w : world) : world :=
  mk_world (w_manager w) (w_bridge w) (w_checkpoints w) (w_leases w) (w_threads w) (w_events w) (w_journal w) (w_tenant w)
    (w_now w) f (w_sent w).

(** The world as [flush] sees it; without a journal it is not called. *)
#[global] Program Instance world_host : JournalHost (S := E) world := {
  jh_journal w := opt_or (w_journal w) (new_journal "" "" false 1 false 0);
  jh_store := w_events;
  jh_now := w_now;
  jh_set p := set_events p.2 (Some p.1)
}.
Solve All Obligations with done.

(** The record object, shared with the manager's registry. *)
Definition record (w : world) : run_record := opt_or (dict_get run_id (rm_runs (w_manager w))) (ra_record a).

(** *** Awaited calls *)

Definition transition_text (e : transition_error) : string :=
  match e with
  | UnknownRunStatus c t => "Unknown run status '" +:+ c +:+ "'; cannot transition to '" +:+ t +:+ "'."
  | IllegalRunTransition c t => "Illegal run transition '" +:+ c +:+ "' → '" +:+ t +:+ "' (run state machine, PR-070)."
  end.

Definition mgr_raise (e : mgr_error) : raised :=
  match e with
  | ME_transition e => Raised "IllegalRunTransitionError" (transition_text e)
  | _ => Raised "Exception" ""
  end.

Definition set_run_status (status : RunStatus) (error : option string) : coro unit :=
  await_call (fun w =>
    let '(r, m) := set_status run_id status error (w_now w) (w_manager w) in
    (match r with Ok _ => Ok tt | Err e => Err (mgr_raise e) end, set_manager m w)).

Definition publish_event (event : string) (data : json) : coro unit :=
  await_sure (fun w =>
    set_bridge (publish (Z.to_N (w_now w / 1000)) run_id event data (w_bridge w)) (SentEvent event data) w).

Definition publish_the_end : coro unit :=
  await_sure (fun w => set_bridge (publish_end run_id (w_bridge w)) SentEnd w).

Definition on_checkpoints {A} (op : C -> result failure A * C) : coro A :=
  await (fun w => let '(r, c) := op (w_checkpoints w) in (lift r, set_checkpoints c w)).

Definition on_threads (op : T -> result failure unit * T) : coro unit :=
  await (fun w => let '(r, t) := op (w_threads w) in (lift r, set_thread_store t w)).

Definition on_leases {A} (op : L -> result failure A * L) : coro A :=
  await (fun w => let '(r, l) := op (w_leases w) in (lift r, set_leases l w)).

(** The manager's other writes keep their failures to themselves. *)
Definition on_manager (op : Z -> run_manager S -> run_manager S) : coro unit :=
  await_sure (fun w => set_manager (op (w_now w) (w_manager w)) w).

Definition runtime_error {A} (msg : string) : coro A := throw (Raised "RuntimeError" ("Run " +:+ run_id +:+ " " +:+ msg)).

(** *** [_rollback_to_pre_run_checkpoint] *)

(** One pending write. *)
Definition pending_write (item : json) : option (string * (string * json)) :=
  match item with
  | JArr [task; JStr channel; value] => Some (match task with JStr s => s | _ => json_str task end, (channel, value))
  | _ => None
  end.

Definition bad_write (item : json) : string :=
  match item with
  | JArr [task; channel; _] =>
      "rollback failed: pending_write has non-string channel: task_id=" +:+ json_str task +:+ ", channel=" +:+ json_str channel
  | _ => "rollback failed: pending_write is not a 3-tuple: " +:+ json_str item
  end.

Fixpoint writes_by_task (items : list json) (d : list (string * list (string * json)))
    : result string (list (string * list (string * json))) :=
  match items with
  | [] => Ok d
  | item :: items' =>
      match pending_write item with
      | Some (task, w) => writes_by_task items' (dict_set task (opt_or (dict_get task d) [] ++ [w]) d)
      | None => Err (bad_write item)
      end
  end.

Definition obj_or_empty (v : json) : list (string * json) := match v with JObj d => d | _ => [] end.

Definition is_none (v : option json) : bool := match v with None | Some JNull => true | _ => false end.

(** The checkpoint to put, with its fresh identity; [None] when the rollback is
    skipped. *)
Definition checkpoint_to_restore (checkpoint : json) (pre_run_checkpoint_id : option json)
    : option (list (string * json)) :=
  match checkpoint with
  | JObj d =>
      let d := if is_none (dict_get "id" d) && negb (is_none pre_run_checkpoint_id)
               then dict_set "id" (opt_or pre_run_checkpoint_id JNull) d else d in
      if is_none (dict_get "id" d) then None
      else Some (dict_set "ts" (JStr (ra_marker a).2) (dict_set "id" (JStr (ra_marker a).1) d))
  | _ => None
  end.

Definition restore_snapshot (pre_run_checkpoint_id : option json) (s : snapshot) : coro unit :=
  match checkpoint_to_restore (sn_checkpoint s) pre_run_checkpoint_id with
  | None => ret tt
  | Some checkpoint =>
      let checkpoint_ns := match sn_checkpoint_ns s with JStr ns => ns | _ => "" end in
      let new_versions := obj_or_empty (opt_or (dict_get "channel_versions" checkpoint) JNull) in
      do! restored_config := on_checkpoints (cp_put thread_id checkpoint_ns checkpoint (obj_or_empty (sn_metadata s)) new_versions) in
      match restored_config with
      | JObj d =>
          match opt_or (dict_get "configurable" d) (JObj []) with
          | JObj c =>
              if negb (json_truthy (opt_or (dict_get "checkpoint_id" c) JNull))
              then runtime_error "rollback restore did not return checkpoint_id"
              else
                match writes_by_task (sn_pending_writes s) [] with
                | Err msg => runtime_error msg
                | Ok by_task =>
                    for_each (fun p => on_checkpoints (cp_put_writes restored_config p.2 p.1)) by_task
                end
          | _ => runtime_error "rollback restore returned invalid config payload"
          end
      | _ => runtime_error "rollback restore returned invalid config: expected dict"
      end
  end.

Definition rollback_to_pre_run_checkpoint : coro unit :=
  do! f := gets w_frame in
  if negb (ra_has_checkpointer a) then ret tt
  else if fr_snapshot_capture_failed f then ret tt
  else match fr_pre_run_snapshot f with
       | None => on_checkpoints (cp_delete_thread thread_id)
       | Some s => restore_snapshot (fr_pre_run_checkpoint_id f) s
       end.

(** *** The body of the [try] *)

(** The snapshot before the run.  A failure is remembered; a cancellation leaves
    the variables as they were. *)
Definition take_snapshot (t : ckpt_tuple) (f : frame) : frame :=
  mk_frame (dict_get "checkpoint_id" (ct_configurable t))
    (Some (mk_snapshot (opt_or (dict_get "checkpoint_ns" (ct_configurable t)) (JStr "")) (ct_checkpoint t) (ct_metadata t)
       (ct_pending_writes t)))
    (fr_snapshot_capture_failed f) (fr_llm_error_fallback_message f) (fr_tenant_bound f).

Definition capture_failed (f : frame) : frame :=
  mk_frame (fr_pre_run_checkpoint_id f) (fr_pre_run_snapshot f) true (fr_llm_error_fallback_message f) (fr_tenant_bound f).

Definition capture_snapshot : coro unit :=
  if negb (ra_has_checkpointer a) then ret tt
  else
    try_exception
      (do! t := on_checkpoints (cp_get_tuple thread_id "") in
       match t with
       | Some t => modify (fun w => set_frame (take_snapshot t (w_frame w)) w)
       | None => ret tt
       end)
      (fun _ _ => modify (fun w => set_frame (capture_failed (w_frame w)) w)).

(** The configuration the agent is built with; [None] when [configurable] or
    [callbacks] has the wrong type. *)
Definition agent_config (has_journal : bool) : option (list (string * cval)) :=
  let config := ra_config a in
  let ctx := build_runtime_context thread_id run_id (dict_get "context" config) (ra_app_config a) in
  let ctx := if has_journal then dict_set "__run_journal" CJournal ctx else ctx in
  let config := install_runtime_context config ctx in
  match opt_or (dict_get "configurable" config) (CDict []) with
  | CDict c =>
      let config := dict_set "configurable" (CDict (dict_set "__pregel_runtime" (CRuntime ctx) c)) config in
      match has_journal, opt_or (dict_get "callbacks" config) (CList []) with
      | true, CList l => Some (dict_set "callbacks" (CList (l ++ [CJournal])) config)
      | true, _ => None
      | false, _ => Some config
      end
  | _ => None
  end.

Definition build_agent : coro agent :=
  do! j := gets w_journal in
  do! r := gets record in
  match agent_config (match j with Some _ => true | None => false end) with
  | None => throw (Raised "TypeError" "config")
  | Some config =>
      let config := inject_langfuse_metadata config (ra_langfuse_enabled a) thread_id (Some (ra_effective_user_id a))
                      (rec_assistant_id (ra_record a)) (rec_model_name r) (ra_environment a) in
      let config := setdefault "run_name" (CVal (JStr (resolve_root_run_name config (rec_assistant_id (ra_record a))))) config in
      of_result (lift (ra_agent_factory a config))
  end.

(** The model the agent really uses. *)
Definition record_effective_model (ag : agent) : coro unit :=
  do! r := gets record in
  match rec_model_name r with
  | None => ret tt
  | Some requested =>
      match ag_model_name ag with
      | Some effective =>
          if negb (String.eqb effective "") && negb (String.eqb effective requested)
          then on_manager (update_model_name run_id (Some effective))
          else ret tt
      | None => ret tt
      end
  end.

(** [llm_error_fallback_message = llm_error_fallback_message or _extract(chunk)]. *)
Definition note_fallback (chunk : pyval) (f : frame) : frame :=
  mk_frame (fr_pre_run_checkpoint_id f) (fr_pre_run_snapshot f) (fr_snapshot_capture_failed f)
    (if truthy (fr_llm_error_fallback_message f) then fr_llm_error_fallback_message f
     else extract_llm_error_fallback_message chunk)
    (fr_tenant_bound f).

(** The loop over the items of [astream]; awaiting the next item is where the
    agent works. *)
Fixpoint stream_loop (modes : list string) (items : list pyval) : coro unit :=
  await (fun w => (Ok tt, w)) ;;
  match items with
  | [] => ret tt
  | item :: items' =>
      do! r := gets record in
      if rec_abort_event r then ret tt
      else
        match read_item py_str item modes (ra_stream_subgraphs a) with
        | None => stream_loop modes items'
        | Some (mode, chunk) =>
            modify (fun w => set_frame (note_fallback chunk (w_frame w)) w) ;;
            publish_event (lg_mode_to_sse_event mode) (serialize chunk mode) ;;
            stream_loop modes items'
        end
  end.

(** What an abort ends in, in the body and in the handler of the cancellation. *)
Definition finish_abort : coro unit :=
  do! r := gets record in
  if String.eqb (rec_abort_action r) "rollback" then
    set_run_status RS_error (Some "Rolled back by user") ;;
    try_exception rollback_to_pre_run_checkpoint (fun _ _ => ret tt)
  else set_run_status RS_interrupted None.

Definition final_status : coro unit :=
  do! w := gets id in
  let fallback := fr_llm_error_fallback_message (w_frame w) in
  let summary := jn_summary <$> w_journal w in
  let had := match summary with Some s => js_had_llm_error_fallback s | None => false end in
  if rec_abort_event (record w) then finish_abort
  else if truthy fallback || had then
    let error_msg := match fallback, summary with
                     | None, Some s => js_llm_error_fallback_message s
                     | _, _ => fallback
                     end in
    set_run_status RS_error (Some (or_text error_msg LLM_FAILED))
  else set_run_status RS_success None.

(** [progress_flush_interval] keeps its default; the writes of the reporter
    belong to the other tasks. *)
Definition progress_interval : Z := 5000000.

Definition start_journal : coro unit :=
  if ra_has_event_store a
  then modify (fun w => set_events (w_events w)
         (Some (new_journal run_id thread_id (ra_track_token_usage a) (ra_flush_threshold a) true progress_interval)) w)
  else ret tt.

Definition metadata_payload : json := JObj [("run_id", JStr run_id); ("thread_id", JStr thread_id)].

Definition body : coro unit :=
  start_journal ;;
  set_run_status RS_running None ;;
  capture_snapshot ;;
  publish_event "metadata" metadata_payload ;;
  do! ag := build_agent in
  record_effective_model ag ;;
  stream_loop (lg_modes (ra_requested_modes a)) (ag_stream ag (lg_modes (ra_requested_modes a)) (ra_stream_subgraphs a)) ;;
  final_status.

(** *** The handlers *)

Definition error_payload (name msg : string) : json := JObj [("message", JStr msg); ("name", JStr name)].

Definition handlers (e : raised) : coro unit :=
  match e with
  | Cancelled => finish_abort
  | Raised name msg =>
      set_run_status RS_error (Some msg) ;;
      publish_event "error" (error_payload name msg)
  end.

(** *** The [finally] *)

Definition swallow (m : coro unit) : coro unit := try_exception m (fun _ _ => ret tt).

Definition org_id_for_lease : string := match ra_tenant a with Some t => tc_org_id t | None => "" end.

Definition stop_heartbeat : coro unit :=
  do! l := gets w_leases in
  if ls_null l then ret tt else swallow (await (fun w => (Ok tt, w))).

Definition release_lease (claim : ClaimRecord) : coro unit :=
  do! now := gets w_now in
  swallow (on_leases (ls_release claim org_id_for_lease now) ;; ret tt).

Definition restore_tenant : coro unit :=
  modify (fun w => if fr_tenant_bound (w_frame w) then set_tenant None w else w).

Definition flush_journal : coro unit :=
  do! j := gets w_journal in
  match j with
  | None => ret tt
  | Some _ => swallow (flush ;; ret tt)
  end.

(** [**completion]: the values the manager stores. *)
Definition usage_of (c : completion_data) : list (string * option json) :=
  let n k z := (k, Some (JNum z)) in
  [n "total_input_tokens" (cd_total_input_tokens c); n "total_output_tokens" (cd_total_output_tokens c);
   n "total_tokens" (cd_total_tokens c); n "llm_call_count" (cd_llm_call_count c);
   n "lead_agent_tokens" (cd_lead_agent_tokens c); n "subagent_tokens" (cd_subagent_tokens c);
   n "middleware_tokens" (cd_middleware_tokens c);
   ("token_usage_by_model", Some (JObj ((fun p => (p.1, JObj [("input_tokens", JNum p.2.1.1); ("output_tokens", JNum p.2.1.2);
      ("total_tokens", JNum p.2.2)])) <$> cd_token_usage_by_model c)));
   n "message_count" (cd_message_count c);
   ("last_ai_message", JStr <$> cd_last_ai_message c); ("first_human_message", JStr <$> cd_first_human_message c)].

Definition persist_completion : coro unit :=
  do! j := gets w_journal in
  match j with
  | None => ret tt
  | Some _ =>
      do! w := gets id in
      match w_journal w with
      | None => ret tt
      | Some j =>
          let completion := usage_of (get_completion_data j) in
          let status := status_value (rec_status (record w)) in
          let expected := rec_row_version (record w) in
          swallow (on_manager (update_run_completion run_id status (mk_completion_args None completion) (Some expected)))
      end
  end.

(** [ckpt.get("channel_values", {}).get("title")]; [None] when that raises. *)
Definition title_of (t : ckpt_tuple) : option json :=
  match ct_checkpoint t with
  | JObj d =>
      match opt_or (dict_get "channel_values" d) (JObj []) with
      | JObj v => Some (opt_or (dict_get "title" v) JNull)
      | _ => None
      end
  | other => if json_truthy other then None else Some JNull
  end.

Definition sync_title : coro unit :=
  if ra_has_checkpointer a && ra_has_thread_store a then
    swallow (do! t := on_checkpoints (cp_get_tuple thread_id "") in
             match t with
             | None => ret tt
             | Some t =>
                 match title_of t with
                 | Some title => if json_truthy title then on_threads (ts_update_display_name thread_id title) else ret tt
                 | None => throw (Raised "AttributeError" "get")
                 end
             end)
  else ret tt.

Definition update_thread_status : coro unit :=
  if ra_has_thread_store a then
    do! r := gets record in
    swallow (on_threads (ts_update_status thread_id
      (if bool_decide (rec_status r = RS_success) then "idle" else status_value (rec_status r))))
  else ret tt.

Definition finalize (claim : ClaimRecord) : coro unit :=
  stop_heartbeat ;;
  release_lease claim ;;
  restore_tenant ;;
  flush_journal ;;
  persist_completion ;;
  sync_title ;;
  update_thread_status ;;
  publish_the_end.

(** *** [_run_lease_heartbeat] *)

(** The poll of the persisted cancel intent; true when the loop ends. *)
Definition poll_cancel_intent : coro bool :=
  do! w := gets id in
  match rm_store (w_manager w) with
  | None => ret false
  | Some _ =>
      if rec_abort_event (record w) then ret false
      else
        do! intent := try_exception
          (await (fun w =>
             match rm_store (w_manager w) with
             | None => (Ok None, w)
             | Some s =>
                 let '(r, s') := api_get_cancel_intent run_id s in
                 (match r with Ok i => Ok i | Err _ => Err (Raised "Exception" "") end, set_manager (set_store s' (w_manager w)) w)
             end))
          (fun _ _ => ret None) in
        match intent with
        | Some (true, action) =>
            modify (fun w => set_manager (put_record (rec_set_abort (or_text action "interrupt") (record w)) (w_manager w)) w) ;;
            ret true
        | _ => ret false
        end
  end.

(** One turn of the loop, after an interval has passed. *)
Definition heartbeat_turn (claim : ClaimRecord) : coro bool :=
  do! stop := try_exception
    (do! now := gets w_now in
     do! renewed := on_leases (ls_renew claim org_id_for_lease now) in
     ret (negb renewed))
    (fun _ _ => ret true) in
  if stop then ret true else poll_cancel_intent.

(** The loop, for [n] intervals before the stop event. *)
Fixpoint run_lease_heartbeat (n : nat) (claim : ClaimRecord) : coro unit :=
  match n with
  | O => ret tt
  | Datatypes.S n' =>
      do! stop := heartbeat_turn claim in
      if stop then ret tt else run_lease_heartbeat n' claim
  end.

(** *** The task *)

Definition bind_tenant : coro unit :=
  modify (fun w =>
    let w1 := set_frame new_frame w in
    match ra_tenant a, w_tenant w with
    | Some t, None => set_frame (mk_frame None None false None true) (set_tenant (Some t) w1)
    | _, _ => w1
    end).

Definition claim_run : coro (option ClaimRecord) :=
  do! now := gets w_now in
  do! c := on_leases (ls_claim run_id org_id_for_lease
             (if String.eqb (ra_worker_id a) "" then ra_process_id a else ra_worker_id a) (ra_process_id a)
             (ra_lease_token a) now) in
  ret (cr_record c).

Definition run_agent : coro unit :=
  bind_tenant ;;
  do! claim := claim_run in
  match claim with
  | None => ret tt
  | Some claim => try_finally (try_except body handlers) (finalize claim)
  end.
End worker.
