(* ===== verification/WorkerProps.v ===== *)
(** * What the run worker promises

    However the agent, the store, the backends and the other tasks behave, a
    claimed run whose task is not cancelled again while it settles ends: its
    record is terminal, its events are the metadata, a prefix of what the agent
    yielded and at most one error, then the end, and the tenant variable is what
    it was.  A rollback puts back the thread's checkpoint. *)
From S2P Require Import Prelude JournalProps PyString PyList PyAsync Transitions RunStore Retry StoreApi.
From S2P Require Import Ownership RunManager RunManagerFacts Authorize EventStore Journal.
From S2P Require Import StreamBridge Serialization Worker.
Local Open Scope string_scope.
Local Open Scope Z_scope.
Local Open Scope list_scope.
Local Open Scope coro_scope.

(** ** The manager under a task *)

Section manager_facts.
Context {S : Type} `{RunStoreApi S}.
Implicit Types m : run_manager S.

Definition registered_run (id : string) m : Prop := mgr_wf m /\ is_Some (dict_get id (rm_runs m)).

(** The run is registered and over. *)
Definition finished_run (id : string) m : Prop :=
  mgr_wf m /\ exists r, dict_get id (rm_runs m) = Some r /\ rec_inflight r = false.

Lemma finished_registered id m : finished_run id m -> registered_run id m.
Proof. intros [Hwf (r & Hr & _)]. split; [done|]. by eexists. Qed.

Lemma run_edge_finished s s' : run_edge s s' -> is_inflight s = false -> is_inflight s' = false.
Proof. destruct s, s'; done. Qed.

Lemma good_registered id m m' : good m m' -> registered_run id m -> registered_run id m'.
Proof. intros Hg [Hwf [r Hr]]. destruct (Hg Hwf) as [Hwf' He]. split; [done|]. destruct (He _ _ Hr) as (r' & Hr' & _). by eexists. Qed.

Lemma good_finished id m m' : good m m' -> finished_run id m -> finished_run id m'.
Proof.
  intros Hg [Hwf (r & Hr & Hf)]. destruct (Hg Hwf) as [Hwf' He]. split; [done|].
  destruct (He _ _ Hr) as (r' & Hr' & Hedge & _). exists r'. split; [done|]. by eapply run_edge_finished.
Qed.

Lemma live_steps_good m m' : star mgr_live_step m m' -> good m m'.
Proof.
  intros Hst Hwf. eapply (star_relation_inv mgr_live_step mgr_wf evolves evolves_refl evolves_trans); [|done|done].
  intros s s' Hs Hwf'. split; [by eapply mgr_step_wf; [apply Hs|]|by apply mgr_live_step_evolves].
Qed.

(** A status write on a registered run: it takes the status, or the run was
    over and nothing changes. *)
Lemma set_status_outcome id st e now m res m' :
  set_status id st e now m = (res, m') -> registered_run id m -> st <> RS_pending ->
  good m m' /\ registered_run id m'
  /\ match res with
     | Ok _ => exists r, dict_get id (rm_runs m') = Some r /\ rec_status r = st
     | Err _ => finished_run id m'
     end.
Proof.
  intros Hs Hreg Hpend. pose proof (set_status_good _ _ _ _ _ _ _ Hs) as Hg. split; [done|].
  split; [by eapply good_registered|]. destruct Hreg as [Hwf [r Hr]]. unfold set_status in Hs. rewrite Hr in Hs.
  destruct (assert_run_transition _ _) as [u|er] eqn:Et.
  - destruct (persist_status _ _ _ _ _ _) as [[b r2] m2] eqn:Hp. injection Hs as <- <-.
    apply persist_status_registry in Hp as [_ Hst]. pose proof (wf_ids _ Hwf _ _ Hr) as Hid.
    assert (rec_run_id r2 = id /\ rec_status r2 = st) as [Hid2 Hst2] by (by destruct Hst as [->|[v ->]]).
    exists r2. split; [|done]. simpl. rewrite Hid2. apply dict_get_set_eq.
  - injection Hs as <- <-. split; [done|]. exists r. split; [done|].
    unfold rec_inflight. revert Et Hpend. destruct (rec_status r), st; vm_compute; congruence.
Qed.
End manager_facts.

(** ** Moments *)

Section worker_props.
Context {S E C L T : Type}.
Context {SA : RunStoreApi S} {EA : RunEventStore E} {CA : Checkpointer C} {LA : LeaseStore L} {TA : ThreadStore T}.
Context (py_str : pyval -> string) (json_str : json -> string) (a : run_args).
Local Notation world := (world S E C L T).
Local Notation run_id := (run_id a).

(** What other tasks do: anything through the manager that keeps the runs
    registered, any operations on the bridge, anything to the backends; not the
    variables of this task. *)
Definition friendly (m : moment world) : Prop :=
  forall w, mgr_wf (w_manager w) -> star mgr_live_step (w_manager w) (w_manager (mo_others m w))
    /\ (exists ops, w_bridge (mo_others m w) = apply_bridge_ops ops (w_bridge w))
    /\ w_frame (mo_others m w) = w_frame w /\ w_sent (mo_others m w) = w_sent w /\ w_tenant (mo_others m w) = w_tenant w.

Definition calm (m : moment world) : Prop := friendly m /\ undisturbed m.

Definition bridge_inv (b : bridge) : Prop := exists logs, bridge_ok logs b.

Lemma bridge_inv_ops ops b : bridge_inv b -> bridge_inv (apply_bridge_ops ops b).
Proof. intros [logs Hb]. eexists. by apply apply_bridge_ops_ok. Qed.

Lemma bridge_inv_op op b : bridge_inv b -> bridge_inv (apply_bridge_op op b).
Proof. apply (bridge_inv_ops [op]). Qed.

Definition run_state (over : bool) (w : world) : Prop :=
  (if over then finished_run run_id (w_manager w) else registered_run run_id (w_manager w)) /\ bridge_inv (w_bridge w).

(** The state of the run, the tenant variable and what was sent so far. *)
Definition at_ (over : bool) (tn : option tenant_context) (bound : bool) (Sent : list sent -> Prop) (w : world) : Prop :=
  run_state over w
  /\ w_tenant w = tn /\ fr_tenant_bound (w_frame w) = bound /\ Sent (w_sent w).

Lemma at_good over tn b Sent w w' :
  good (w_manager w) (w_manager w') -> (exists ops, w_bridge w' = apply_bridge_ops ops (w_bridge w)) -> w_tenant w' = w_tenant w -> fr_tenant_bound (w_frame w') = fr_tenant_bound (w_frame w) ->
  w_sent w' = w_sent w -> at_ over tn b Sent w -> at_ over tn b Sent w'.
Proof.
  intros Hg [ops Ho] Ht Hb Hs ([Hm Hi] & H1 & H2 & H3). unfold at_, run_state. rewrite Ht, Hb, Hs, Ho. split; [|done].
  split; [|by apply bridge_inv_ops]. destruct over; [by eapply good_finished|by eapply good_registered].
Qed.

Lemma at_weaken over over' tn b (Sent Sent' : list sent -> Prop) w :
  at_ over tn b Sent w -> (over' = true -> over = true) -> (forall l, Sent l -> Sent' l) -> at_ over' tn b Sent' w.
Proof.
  intros ([Hm Hi] & H1 & H2 & H3) Ho Hs. split; [|by auto]. split; [|done]. destruct over'; [by rewrite Ho in Hm|].
  destruct over; [by apply finished_registered|done].
Qed.

Lemma friendly_stable M over tn b Sent : (forall m, M m -> friendly m) -> stable M (at_ over tn b Sent).
Proof.
  intros HM m w Hm Hw. assert (Hwf : mgr_wf (w_manager w)) by (destruct Hw as [[H _] _]; by destruct over, H).
  destruct (HM m Hm w Hwf) as (Hs & Ho & Hf & Hse & Ht). revert Hw.
  apply at_good; [by apply live_steps_good|done|done|by rewrite Hf|done].
Qed.

Lemma calm_friendly m : calm m -> friendly m.
Proof. by intros [? _]. Qed.

(** Same variables, same manager. *)
Definition quiet (w w' : world) : Prop :=
  w_manager w' = w_manager w /\ w_bridge w' = w_bridge w /\ w_tenant w' = w_tenant w /\ w_frame w' = w_frame w /\ w_sent w' = w_sent w.

Lemma at_quiet over tn b Sent w w' : quiet w w' -> at_ over tn b Sent w -> at_ over tn b Sent w'.
Proof. intros (Hm & Hb & Ht & Hf & Hs). apply at_good; [rewrite Hm; apply good_refl|by exists []|done|by rewrite Hf|done]. Qed.

Section moments.
Context (M : moment world -> Prop) (HM : forall m, M m -> friendly m).

(** A call on a backend changes nothing here; it ends by itself, in a failure or
    in a cancellation. *)
Lemma await_quiet {A} over tn b Sent (op : world -> result raised A * world) :
  (forall w, quiet w (op w).2) ->
  triple M (at_ over tn b Sent) (await op) (fun _ w => at_ over tn b Sent w).
Proof using HM.
  intros Hq. apply triple_await; [by apply friendly_stable| |done|].
  - intros w Hw. specialize (Hq w). destruct (op w). by eapply at_quiet.
  - intros m w _. right. intros Hw. split; [done|]. by eapply at_quiet.
Qed.

Lemma on_checkpoints_at {A} over tn b Sent (op : C -> result failure A * C) :
  triple M (at_ over tn b Sent) (on_checkpoints op) (fun _ w => at_ over tn b Sent w).
Proof using HM. apply await_quiet. intros w. by destruct (op (w_checkpoints w)). Qed.

(** A status write.  It fails only when the run is over. *)
Lemma set_status_at over tn b Sent st e :
  st <> RS_pending ->
  triple M (at_ over tn b Sent) (set_run_status a st e)
    (fun r w => match r with
                | Ok _ => at_ (negb (is_inflight st)) tn b Sent w
                | Err Cancelled => at_ over tn b Sent w
                | Err _ => at_ true tn b Sent w
                end).
Proof using HM.
  intros Hst. apply triple_await_call; [by apply friendly_stable| |].
  - intros w ([Hm Hi] & Hrest). destruct (set_status _ _ _ _ _) as [r m] eqn:Es.
    assert (Hreg : registered_run run_id (w_manager w)) by (destruct over; [by apply finished_registered|done]).
    destruct (set_status_outcome _ _ _ _ _ _ _ Es Hreg Hst) as (Hg & [Hwf Hreg'] & Hr). destruct r as [u|er].
    + split; [|done]. split; [|done]. simpl. destruct Hr as (r & Hr & Hs). destruct (is_inflight st) eqn:Ei; [by split|].
      split; [done|]. exists r. split; [done|]. unfold rec_inflight. by rewrite Hs.
    + destruct er; (split; [by split|done]).
  - intros m w _. right. intros Hw. split; [done|]. destruct (set_status _ _ _ _ _) as [r m'] eqn:Es.
    eapply at_good; [| | | | |exact Hw]; [|by exists []|done..]. by eapply set_status_good.
Qed.

Lemma publish_at over tn b (Sent Sent' : list sent -> Prop) ev d :
  (forall l, Sent l -> Sent' l) -> (forall l, Sent l -> Sent' (l ++ [SentEvent ev d])) ->
  triple M (at_ over tn b Sent) (publish_event a ev d)
    (fun r w => match r with
                | Ok _ => at_ over tn b (fun l => exists l0, Sent l0 /\ l = l0 ++ [SentEvent ev d]) w
                | Err _ => at_ over tn b Sent' w
                end).
Proof using HM.
  intros H1 H2. apply triple_await_sure; [by apply friendly_stable| |].
  - intros w ([Hm Hi] & Ht & Hb & Hs). split; [split; [done|by apply (bridge_inv_op (Publish _ _ _ _))]|].
    split; [done|]. split; [done|]. by exists (w_sent w).
  - intros m w _. right. intros ([Hm Hi] & Ht & Hb & Hs). split; (split; [split; [done|]|split; [done|]; split; [done|]]); simpl; auto.
    by apply (bridge_inv_op (Publish _ _ _ _)).
Qed.

Lemma on_manager_at over tn b Sent op :
  (forall now m, good m (op now m)) ->
  triple M (at_ over tn b Sent) (on_manager op) (fun _ w => at_ over tn b Sent w).
Proof using HM.
  intros Hg. apply triple_await_sure; [by apply friendly_stable| |].
  - intros w Hw. by eapply at_good; [..|exact Hw]; [apply Hg|by exists []|..].
  - intros m w _. right. intros Hw. split; [done|]. by eapply at_good; [..|exact Hw]; [apply Hg|by exists []|..].
Qed.
(** *** The body *)

Definition metadata_event : sent := SentEvent "metadata" (metadata_payload a).

(** What the loop would publish for these items. *)
Definition outputs (modes : list string) (items : list pyval) : list sent :=
  omap (fun item =>
    (fun p => SentEvent (lg_mode_to_sse_event p.1) (serialize p.2 p.1)) <$> read_item py_str item modes (ra_stream_subgraphs a))
    items.

Lemma stream_loop_at tn b modes items l0 :
  triple M (at_ false tn b (fun l => l = l0)) (stream_loop py_str a modes items)
    (fun _ w => at_ false tn b (fun l => exists k, l = l0 ++ take k (outputs modes items)) w).
Proof using HM.
  revert l0. induction items as [|item items IH]; intros l0; cbn [stream_loop].
  - apply (triple_bind _ _ _ _ _ (fun _ => at_ false tn b (fun l => l = l0))).
    + eapply triple_weaken; [by apply (await_quiet false tn b (fun l => l = l0))|done|]. intros [[]|e] w Hw; [done|].
      eapply at_weaken; [exact Hw|done|]. intros l ->. exists O. by rewrite app_nil_r.
    + intros _. eapply triple_weaken; [apply triple_ret|done|]. intros r w [_ Hw].
      eapply at_weaken; [exact Hw|done|]. intros l ->. exists O. by rewrite app_nil_r.
  - assert (Hnone : forall w, at_ false tn b (fun l => l = l0) w ->
      at_ false tn b (fun l => exists k, l = l0 ++ take k (outputs modes (item :: items))) w).
    { intros w Hw. eapply at_weaken; [exact Hw|done|]. intros l ->. exists O. by rewrite app_nil_r. }
    apply (triple_bind _ _ _ _ _ (fun _ => at_ false tn b (fun l => l = l0))).
    + eapply triple_weaken; [by apply (await_quiet false tn b (fun l => l = l0))|done|]. intros [[]|e] w Hw; [exact Hw|exact (Hnone _ Hw)].
    + intros _. apply triple_gets. intros r. eapply triple_weaken; [|intros w Hw; exact (proj1 Hw)|intros ? ? Hq; exact Hq].
      destruct (rec_abort_event r).
      { eapply triple_weaken; [apply triple_ret|done|]. intros ? w [_ Hw]. auto. }
      unfold outputs. cbn [omap list_omap]. destruct (read_item py_str item modes (ra_stream_subgraphs a)) as [[mode chunk]|] eqn:Er; simpl.
      2: { apply IH. }
      set (ev := SentEvent (lg_mode_to_sse_event mode) (serialize chunk mode)).
      apply (triple_bind _ _ _ _ _ (fun _ => at_ false tn b (fun l => l = l0))).
      { apply triple_modify. intros w (Hm & Ht & Hb & Hs). by split. }
      intros _. apply (triple_bind _ _ _ _ _ (fun _ => at_ false tn b (fun l => l = l0 ++ [ev]))).
      * eapply triple_weaken; [apply (publish_at false tn b (fun l => l = l0)
          (fun l => exists k, l = l0 ++ take k (ev :: outputs modes items)))|done|].
        -- intros l ->. exists O. by rewrite app_nil_r.
        -- intros l ->. exists 1%nat. done.
        -- intros [[]|e] w Hw; [|exact Hw]. eapply at_weaken; [exact Hw|done|]. by intros l (l1 & -> & ->).
      * intros _. eapply triple_weaken; [apply IH|done|]. intros r0 w Hw. eapply at_weaken; [exact Hw|done|].
        intros l [k ->]. exists (Datatypes.S k). by rewrite <-app_assoc.
Qed.

Lemma rollback_at over tn b Sent :
  triple M (at_ over tn b Sent) (rollback_to_pre_run_checkpoint json_str a) (fun _ w => at_ over tn b Sent w).
Proof using HM.
  apply triple_gets. intros f. eapply triple_weaken; [|intros w Hw; exact (proj1 Hw)|intros ? ? Hq; exact Hq].
  assert (Hret : triple M (at_ over tn b Sent) (ret tt) (fun _ w => at_ over tn b Sent w)).
  { eapply triple_weaken; [apply triple_ret|done|]. by intros ? ? [_ ?]. }
  assert (Hthrow : forall e, triple M (at_ over tn b Sent) (throw (A := unit) e) (fun _ w => at_ over tn b Sent w)).
  { intros e. eapply triple_weaken; [apply triple_throw|done|]. by intros ? ? [_ ?]. }
  destruct (negb (ra_has_checkpointer a)); [done|]. destruct (fr_snapshot_capture_failed f); [done|].
  destruct (fr_pre_run_snapshot f) as [sn|]; [|apply on_checkpoints_at]. unfold restore_snapshot.
  destruct (checkpoint_to_restore _ _ _) as [ck|]; [|done].
  apply (triple_bind _ _ _ _ _ (fun _ => at_ over tn b Sent)).
  { eapply triple_weaken; [apply on_checkpoints_at|done|]. by intros [] w. }
  intros cfg. destruct cfg; try apply Hthrow. destruct (opt_or _ _); try apply Hthrow.
  destruct (negb _); [apply Hthrow|]. destruct (writes_by_task _ _ _); [|apply Hthrow].
  apply triple_for_each; [|done]. intros x _. eapply triple_weaken; [apply on_checkpoints_at|done|]. by intros [[]|] w.
Qed.

Lemma swallow_at over tn b Sent (m : coro world unit) :
  triple M (at_ over tn b Sent) m (fun _ w => at_ over tn b Sent w) ->
  triple M (at_ over tn b Sent) (swallow m) (fun _ w => at_ over tn b Sent w).
Proof.
  intros Hm. apply (triple_try_exception _ _ _ _ _ (at_ over tn b Sent)).
  - eapply triple_weaken; [exact Hm|done|]. by intros [[]|[]] w.
  - intros n t. eapply triple_weaken; [apply triple_ret|done|]. by intros ? ? [_ ?].
Qed.

(** After an abort the run is over, unless a cancellation came first. *)
Lemma finish_abort_at tn b Sent :
  triple M (at_ false tn b Sent) (finish_abort json_str a)
    (fun r w => match r with Err Cancelled => at_ false tn b Sent w | _ => at_ true tn b Sent w end).
Proof using HM.
  apply triple_gets. intros r. eapply triple_weaken; [|intros w Hw; exact (proj1 Hw)|intros ? ? Hq; exact Hq].
  destruct (String.eqb (rec_abort_action r) "rollback").
  - apply (triple_bind _ _ _ _ _ (fun _ => at_ true tn b Sent)).
    + eapply triple_weaken; [by apply (set_status_at false tn b Sent RS_error)|done|]. by intros [[]|[]] w.
    + intros _. eapply triple_weaken; [apply swallow_at, rollback_at|done|].
      intros [[]|[]] w Hw; try done. by eapply at_weaken.
  - eapply triple_weaken; [by apply (set_status_at false tn b Sent RS_interrupted)|done|]. by intros [[]|[]] w.
Qed.

Lemma final_status_at tn b Sent :
  triple M (at_ false tn b Sent) (final_status json_str a)
    (fun r w => match r with Err Cancelled => at_ false tn b Sent w | _ => at_ true tn b Sent w end).
Proof using HM.
  apply triple_gets. intros w0. eapply triple_weaken; [|intros w Hw; exact (proj1 Hw)|intros ? ? Hq; exact Hq].
  cbv zeta. destruct (rec_abort_event _); [apply finish_abort_at|]. destruct (truthy _ || _).
  - eapply triple_weaken; [by apply (set_status_at false tn b Sent RS_error)|done|]. by intros [[]|[]] w.
  - eapply triple_weaken; [by apply (set_status_at false tn b Sent RS_success)|done|]. by intros [[]|[]] w.
Qed.
(** What the body may have sent: nothing, or the metadata and a prefix of what
    the agent's items give. *)
Definition body_events (evs : list sent) : Prop :=
  evs = []
  \/ evs = [metadata_event]
  \/ exists config ag k, ra_agent_factory a config = Ok ag
     /\ evs = metadata_event :: take k (outputs (lg_modes (ra_requested_modes a))
                (ag_stream ag (lg_modes (ra_requested_modes a)) (ra_stream_subgraphs a))).

Definition body_sent (l0 l : list sent) : Prop := exists evs, body_events evs /\ l = l0 ++ evs.

Lemma at_ret {A} over tn b Sent (x : A) : triple M (at_ over tn b Sent) (ret x) (fun _ w => at_ over tn b Sent w).
Proof. eapply triple_weaken; [apply triple_ret|done|]. by intros ? ? [_ ?]. Qed.

Lemma capture_snapshot_at tn b Sent :
  triple M (at_ false tn b Sent) (capture_snapshot a) (fun _ w => at_ false tn b Sent w).
Proof using HM.
  unfold capture_snapshot. destruct (negb _); [apply at_ret|].
  apply (triple_try_exception _ _ _ _ _ (at_ false tn b Sent)).
  - apply (triple_bind _ _ _ _ _ (fun _ => at_ false tn b Sent)).
    + eapply triple_weaken; [by apply (on_checkpoints_at false tn b Sent)|done|]. by intros [|[]] w.
    + intros [t|]; [|eapply triple_weaken; [apply at_ret|done|]; by intros [[]|[]] w].
      apply triple_modify. by intros w (? & ? & ? & ?).
  - intros n t. apply triple_modify. by intros w (? & ? & ? & ?).
Qed.

Lemma build_agent_at tn b Sent :
  triple M (at_ false tn b Sent) (build_agent a)
    (fun r w => at_ false tn b Sent w /\ forall ag, r = Ok ag -> exists config, ra_agent_factory a config = Ok ag).
Proof.
  apply triple_gets. intros j. eapply triple_weaken; [|intros w Hw; exact (proj1 Hw)|intros ? ? Hq; exact Hq].
  apply triple_gets. intros rec. eapply triple_weaken; [|intros w Hw; exact (proj1 Hw)|intros ? ? Hq; exact Hq].
  destruct (agent_config _ _) as [config|].
  - eapply triple_weaken; [apply triple_of_result|done|]. intros r w [-> Hw]. split; [done|]. intros ag Hag.
    eexists. unfold lift in Hag. destruct (ra_agent_factory a _) as [ag'|[]] eqn:Ef; [|done]. injection Hag as ->. exact Ef.
  - eapply triple_weaken; [apply triple_throw|done|]. intros r w [-> Hw]. by split.
Qed.

Lemma record_effective_model_at tn b Sent ag :
  triple M (at_ false tn b Sent) (record_effective_model a ag) (fun _ w => at_ false tn b Sent w).
Proof using HM.
  apply triple_gets. intros r. eapply triple_weaken; [|intros w Hw; exact (proj1 Hw)|intros ? ? Hq; exact Hq].
  destruct (rec_model_name r); [|apply at_ret]. destruct (ag_model_name ag); [|apply at_ret].
  case_match; [|apply at_ret]. apply on_manager_at. intros now m. apply update_model_good.
Qed.

(** The first failure of a step that keeps [at_]. *)
Lemma at_step {A} tn b Sent l0 (m : coro world A) (k : A -> coro world unit) :
  triple M (at_ false tn b Sent) m (fun _ w => at_ false tn b Sent w) ->
  (forall l, Sent l -> body_sent l0 l) ->
  (forall x, triple M (at_ false tn b Sent) (k x)
     (fun r w => match r with Ok _ => at_ true tn b (body_sent l0) w | Err _ => at_ false tn b (body_sent l0) w end)) ->
  triple M (at_ false tn b Sent) (bind m k)
    (fun r w => match r with Ok _ => at_ true tn b (body_sent l0) w | Err _ => at_ false tn b (body_sent l0) w end).
Proof.
  intros Hm Hs Hk. apply (triple_bind _ _ _ _ _ (fun _ => at_ false tn b Sent)); [|exact Hk].
  eapply triple_weaken; [exact Hm|done|]. intros [x|e] w Hw; [done|]. by eapply at_weaken.
Qed.

Lemma body_at tn b l0 :
  triple M (at_ false tn b (fun l => l = l0)) (body py_str json_str a)
    (fun r w => match r with Ok _ => at_ true tn b (body_sent l0) w | Err _ => at_ false tn b (body_sent l0) w end).
Proof using HM.
  assert (H0 : forall l, l = l0 -> body_sent l0 l).
  { intros l ->. exists []. rewrite app_nil_r. split; [by left|done]. }
  unfold body. apply at_step; [|done|intros _].
  { unfold start_journal. destruct (ra_has_event_store a); [|apply at_ret]. apply triple_modify. by intros w (? & ? & ? & ?). }
  apply at_step; [|done|intros _].
  { eapply triple_weaken; [by apply (set_status_at false tn b (fun l => l = l0) RS_running)|done|].
    intros [[]|[]] w Hw; by eapply at_weaken. }
  apply at_step; [apply capture_snapshot_at|done|intros _].
  set (Sent1 := fun l => l = l0 ++ [metadata_event]).
  assert (H1 : forall l, Sent1 l -> body_sent l0 l).
  { intros l ->. eexists. split; [by right; left|done]. }
  apply (triple_bind _ _ _ _ _ (fun _ => at_ false tn b Sent1)).
  { eapply triple_weaken; [apply (publish_at false tn b (fun l => l = l0) (body_sent l0))|done|].
    - done.
    - intros l ->. by apply H1.
    - intros [[]|e] w Hw; [|done]. eapply at_weaken; [exact Hw|done|]. by intros l (? & -> & ->). }
  intros _.
  apply (triple_bind _ _ _ _ _ (fun ag w => at_ false tn b Sent1 w /\ exists config, ra_agent_factory a config = Ok ag)).
  { eapply triple_weaken; [apply (build_agent_at tn b Sent1)|done|]. intros [ag|e] w [Hw Hag]; [by auto|]. by eapply at_weaken. }
  intros ag w s [Hw [config Hag]]. revert w s Hw.
  change (triple M (at_ false tn b Sent1) (record_effective_model a ag ;;
    stream_loop py_str a (lg_modes (ra_requested_modes a))
      (ag_stream ag (lg_modes (ra_requested_modes a)) (ra_stream_subgraphs a)) ;; final_status json_str a)
    (fun r w => match r with Ok _ => at_ true tn b (body_sent l0) w | Err _ => at_ false tn b (body_sent l0) w end)).
  apply at_step; [apply record_effective_model_at|done|intros _].
  apply (triple_bind _ _ _ _ _ (fun _ => at_ false tn b (body_sent l0))).
  - eapply triple_weaken; [apply (stream_loop_at tn b _ _ (l0 ++ [metadata_event]))|done|].
    assert (Hl : forall l, (exists k, l = (l0 ++ [metadata_event]) ++ take k (outputs (lg_modes (ra_requested_modes a))
      (ag_stream ag (lg_modes (ra_requested_modes a)) (ra_stream_subgraphs a)))) -> body_sent l0 l).
    { intros l [k ->]. eexists. split; [right; right; exists config, ag, k; split; [done|reflexivity]|]. by rewrite <-app_assoc. }
    intros [[]|e] w Hw; by eapply at_weaken.
  - intros _. eapply triple_weaken; [apply final_status_at|done|]. intros [[]|[]] w Hw; try done. by eapply at_weaken.
Qed.
End moments.

(** *** Settling without cancellation *)

Definition error_event (e : sent) : Prop := exists name msg, e = SentEvent "error" (error_payload name msg).

(** After the handlers: what the body sent, and an error if it raised one. *)
Definition settled_events (evs : list sent) : Prop :=
  body_events evs \/ exists evs0 e, body_events evs0 /\ error_event e /\ evs = evs0 ++ [e].

Definition settled_sent (l0 l : list sent) : Prop := exists evs, settled_events evs /\ l = l0 ++ evs.

Lemma body_settled l0 l : body_sent l0 l -> settled_sent l0 l.
Proof. intros (evs & He & ->). exists evs. split; [by left|done]. Qed.

(** Without cancellations a call on a backend returns or fails. *)
Lemma calm_await_quiet {A} over tn b Sent (op : world -> result raised A * world) :
  (forall w, quiet w (op w).2) -> (forall w, (op w).1 <> Err Cancelled) ->
  triple calm (at_ over tn b Sent) (await op) (fun r w => at_ over tn b Sent w /\ r <> Err Cancelled).
Proof.
  intros Hq Hc. apply triple_await.
  - apply friendly_stable, calm_friendly.
  - intros w Hw. specialize (Hq w). specialize (Hc w). destruct (op w). split; [by eapply at_quiet|done].
  - done.
  - intros m w [_ Hm]. by left.
Qed.

Lemma lift_sober {A} (r : result failure A) : lift r <> Err Cancelled.
Proof. by destruct r as [|[]]. Qed.

Lemma calm_on_checkpoints {A} over tn b Sent (op : C -> result failure A * C) :
  triple calm (at_ over tn b Sent) (on_checkpoints op) (fun r w => at_ over tn b Sent w /\ r <> Err Cancelled).
Proof. apply calm_await_quiet; intros w; destruct (op (w_checkpoints w)); [done|apply lift_sober]. Qed.

Lemma calm_on_threads over tn b Sent (op : T -> result failure unit * T) :
  triple calm (at_ over tn b Sent) (on_threads op) (fun r w => at_ over tn b Sent w /\ r <> Err Cancelled).
Proof. apply calm_await_quiet; intros w; destruct (op (w_threads w)); [done|apply lift_sober]. Qed.

Lemma calm_on_leases {A} over tn b Sent (op : L -> result failure A * L) :
  triple calm (at_ over tn b Sent) (on_leases op) (fun r w => at_ over tn b Sent w /\ r <> Err Cancelled).
Proof. apply calm_await_quiet; intros w; destruct (op (w_leases w)); [done|apply lift_sober]. Qed.

(** A swallowed step returns. *)
Lemma calm_swallow over tn b Sent (m : coro world unit) :
  triple calm (at_ over tn b Sent) m (fun r w => at_ over tn b Sent w /\ r <> Err Cancelled) ->
  triple calm (at_ over tn b Sent) (swallow m) (fun r w => at_ over tn b Sent w /\ r = Ok tt).
Proof.
  intros Hm. apply (triple_try_exception _ _ _ _ _ (at_ over tn b Sent)).
  - eapply triple_weaken; [exact Hm|done|]. intros [[]|[]] w [Hw Hr]; by try (split; [done|]).
  - intros n t. eapply triple_weaken; [apply triple_ret|done|]. intros ? ? [-> ?]. by split.
Qed.

Lemma calm_ret over tn b Sent : triple calm (at_ over tn b Sent) (ret tt) (fun r w => at_ over tn b Sent w /\ r = Ok tt).
Proof. eapply triple_weaken; [apply triple_ret|done|]. intros ? ? [-> ?]. by split. Qed.

Lemma calm_then {B} over tn b Sent (m : coro world unit) (k : coro world B) Q :
  triple calm (at_ over tn b Sent) m (fun r w => at_ over tn b Sent w /\ r = Ok tt) ->
  triple calm (at_ over tn b Sent) k Q -> triple calm (at_ over tn b Sent) (m ;; k) Q.
Proof.
  intros Hm Hk. apply (triple_bind _ _ _ _ _ (fun _ => at_ over tn b Sent)); [|done].
  eapply triple_weaken; [exact Hm|done|]. intros [[]|e] w [Hw Hr]; done.
Qed.

Lemma calm_gets {A B} over tn b Sent (f : world -> A) (k : A -> coro world B) Q :
  (forall x, triple calm (at_ over tn b Sent) (k x) Q) -> triple calm (at_ over tn b Sent) (bind (gets f) k) Q.
Proof.
  intros Hk. apply triple_gets. intros x. eapply triple_weaken; [apply Hk|intros w Hw; exact (proj1 Hw)|done].
Qed.

Lemma handlers_at tn b l0 e :
  triple calm (at_ false tn b (body_sent l0)) (handlers json_str a e)
    (fun _ w => at_ true tn b (settled_sent l0) w).
Proof.
  assert (Hok : forall w, at_ true tn b (body_sent l0) w -> at_ true tn b (settled_sent l0) w).
  { intros w Hw. eapply at_weaken; [exact Hw|done|apply body_settled]. }
  (* a status write without cancellation ends the run *)
  assert (Hst : forall st er, is_inflight st = false -> triple calm (at_ false tn b (body_sent l0)) (set_run_status a st er)
    (fun r w => at_ true tn b (body_sent l0) w /\ r <> Err Cancelled)).
  { intros st er Hst. apply triple_await_call; [apply friendly_stable, calm_friendly| |intros m w [_ Hm]; by left].
    intros w ([Hm Hi] & Hrest). destruct (set_status _ _ _ _ _) as [r m] eqn:Es.
    destruct (set_status_outcome _ _ _ _ _ _ _ Es Hm) as (Hg & [Hwf Hreg'] & Hr); [by intros ->|].
    destruct r as [u|[]]; (split; [|done]); (split; [|done]); (split; [|done]); simpl; try done.
    destruct Hr as (r & Hr & Hs). split; [done|]. exists r. split; [done|]. unfold rec_inflight. by rewrite Hs. }
  destruct e as [|name msg]; simpl.
  - apply triple_gets. intros r. eapply triple_weaken; [|intros w Hw; exact (proj1 Hw)|intros ? ? Hq; exact Hq].
    destruct (String.eqb (rec_abort_action r) "rollback").
    + apply (triple_bind _ _ _ _ _ (fun _ => at_ true tn b (body_sent l0))).
      * eapply triple_weaken; [by apply (Hst RS_error)|done|]. intros [[]|e] w [Hw _]; auto.
      * intros _. eapply triple_weaken; [apply swallow_at, rollback_at, calm_friendly|done|]. auto.
    + eapply triple_weaken; [by apply (Hst RS_interrupted)|done|]. intros r0 w [Hw _]. auto.
  - apply (triple_bind _ _ _ _ _ (fun _ => at_ true tn b (body_sent l0))).
    + eapply triple_weaken; [by apply (Hst RS_error)|done|]. intros [[]|e] w [Hw _]; auto.
    + intros _. eapply triple_weaken; [apply (publish_at calm calm_friendly true tn b (body_sent l0) (settled_sent l0))|done|].
      * apply body_settled.
      * intros l (evs & He & ->). exists (evs ++ [SentEvent "error" (error_payload name msg)]).
        rewrite app_assoc. split; [|done]. right. exists evs. eexists. split; [done|]. split; [by do 2 eexists|done].
      * intros [[]|e] w Hw; [|done]. eapply at_weaken; [exact Hw|done|]. intros l (l1 & (evs & He & ->) & ->).
        exists (evs ++ [SentEvent "error" (error_payload name msg)]). rewrite app_assoc. split; [|done].
        right. exists evs. eexists. split; [done|]. split; [by do 2 eexists|done].
Qed.

(** *** The [finally] *)

(** The steps before the end of the stream keep everything and return. *)
Lemma stop_heartbeat_at over tn b Sent :
  triple calm (at_ over tn b Sent) stop_heartbeat (fun r w => at_ over tn b Sent w /\ r = Ok tt).
Proof. apply calm_gets. intros l. destruct (ls_null l); [apply calm_ret|]. by apply calm_swallow, calm_await_quiet. Qed.

Lemma release_lease_at over tn b Sent claim :
  triple calm (at_ over tn b Sent) (release_lease a claim) (fun r w => at_ over tn b Sent w /\ r = Ok tt).
Proof.
  apply calm_gets. intros now. apply calm_swallow.
  apply (triple_bind _ _ _ _ _ (fun _ => at_ over tn b Sent)).
  - eapply triple_weaken; [apply calm_on_leases|done|]. intros [x|e] w [Hw Hn]; [done|]. split; [done|]. intros [= ->]. by apply Hn.
  - intros _. eapply triple_weaken; [apply calm_ret|done|]. by intros r w [? ->].
Qed.

Lemma flush_journal_at over tn b Sent :
  triple calm (at_ over tn b Sent) flush_journal (fun r w => at_ over tn b Sent w /\ r = Ok tt).
Proof.
  apply calm_gets. intros [j|]; [|apply calm_ret]. apply calm_swallow.
  apply framed_bind; [|intros fin; apply framed_ret].
  apply flush_framed; [apply friendly_stable, calm_friendly|by intros m [_ ?]|].
  intros [j' e'] w. by apply at_quiet.
Qed.

Lemma persist_completion_at over tn b Sent :
  triple calm (at_ over tn b Sent) (persist_completion a) (fun r w => at_ over tn b Sent w /\ r = Ok tt).
Proof.
  apply calm_gets. intros [j|]; [|apply calm_ret]. apply calm_gets. intros w0. destruct (w_journal w0); [|apply calm_ret].
  apply calm_swallow. apply triple_await_sure; [apply friendly_stable, calm_friendly| |intros m w [_ Hm]; by left].
  intros w Hw. split; [|done]. eapply at_good; [..|exact Hw]; [|by exists []|done..]. apply completion_good.
Qed.

Lemma sync_title_at over tn b Sent :
  triple calm (at_ over tn b Sent) (sync_title a) (fun r w => at_ over tn b Sent w /\ r = Ok tt).
Proof.
  unfold sync_title. destruct (_ && _); [|apply calm_ret]. apply calm_swallow.
  apply (triple_bind _ _ _ _ _ (fun _ => at_ over tn b Sent)).
  - eapply triple_weaken; [apply calm_on_checkpoints|done|]. intros [x|e] w [Hw Hn]; [done|]. split; [done|]. intros [= ->]. by apply Hn.
  - assert (Hret : triple calm (at_ over tn b Sent) (ret tt) (fun r w => at_ over tn b Sent w /\ r <> Err Cancelled)).
    { eapply triple_weaken; [apply calm_ret|done|]. by intros r w [? ->]. }
    intros [t|]; [|done]. destruct (title_of t) as [title|].
    + destruct (json_truthy title); [apply calm_on_threads|done].
    + eapply triple_weaken; [apply triple_throw|done|]. by intros r w [-> ?].
Qed.

Lemma update_thread_status_at over tn b Sent :
  triple calm (at_ over tn b Sent) (update_thread_status a) (fun r w => at_ over tn b Sent w /\ r = Ok tt).
Proof.
  unfold update_thread_status. destruct (ra_has_thread_store a); [|apply calm_ret].
  apply calm_gets. intros r. apply calm_swallow, calm_on_threads.
Qed.

Definition stream_ended (b : bridge) : Prop :=
  exists addr, dict_get run_id (br_streams b) = Some addr /\ st_ended (stream_at addr b) = true.

Lemma publish_end_ends b : bridge_inv b -> stream_ended (publish_end run_id b).
Proof.
  intros [logs Hb]. unfold publish_end. destruct (get_or_create_stream run_id b) as [addr b1] eqn:Hg.
  destruct (get_or_create_ok _ _ _ _ _ Hb Hg) as (Hb1 & _ & Hn & _). exists addr. split; [done|].
  destruct (bo_names _ _ Hb1 _ _ Hn) as [Hlt _]. apply lookup_lt_is_Some in Hlt as [st Hst].
  unfold stream_at, update_stream. simpl. by rewrite list_lookup_alter_eq, Hst.
Qed.

Lemma finalize_at tn b Sent claim :
  triple calm (at_ true tn b Sent) (finalize a claim)
    (fun r w => r = Ok tt /\ stream_ended (w_bridge w)
       /\ at_ true (if b then None else tn) b (fun l => exists l1, Sent l1 /\ l = l1 ++ [SentEnd]) w).
Proof.
  unfold finalize. apply calm_then; [apply stop_heartbeat_at|]. apply calm_then; [apply release_lease_at|].
  apply (triple_bind _ _ _ _ _ (fun _ => at_ true (if b then None else tn) b Sent)).
  { apply triple_modify. intros w (Hm & Ht & Hb & Hs). rewrite Hb. destruct b; by split_and!. }
  intros _. apply calm_then; [apply flush_journal_at|]. apply calm_then; [apply persist_completion_at|].
  apply calm_then; [apply sync_title_at|]. apply calm_then; [apply update_thread_status_at|].
  apply triple_await_sure; [apply friendly_stable, calm_friendly| |intros m w [_ Hm]; by left].
  intros w ([Hm Hi] & Ht & Hb & Hs). split; [done|]. split; [by apply publish_end_ends|].
  split; [split; [done|by apply (bridge_inv_op (PublishEnd _))]|]. split; [done|]. split; [done|]. by exists (w_sent w).
Qed.

(** *** The run *)

(** Up to the claim. *)
Definition enter : coro world (option ClaimRecord) := bind_tenant a ;; claim_run a.

Definition tenant_before (tn : option tenant_context) (b : bool) (tn' : option tenant_context) : Prop :=
  (if b then None else tn) = tn'.

Lemma enter_at w s claim w1 s1 :
  registered_run run_id (w_manager w) -> bridge_inv (w_bridge w) -> Forall friendly s ->
  enter w s = (Ok claim, w1, s1) ->
  exists tn b, at_ false tn b (fun l => l = w_sent w) w1 /\ (if b then None else tn) = w_tenant w /\ Forall friendly s1.
Proof.
  intros Hm Hi Hs He.
  set (tn := match ra_tenant a, w_tenant w with Some t, None => Some t | _, _ => w_tenant w end).
  set (b := match ra_tenant a, w_tenant w with Some _, None => true | _, _ => false end).
  exists tn, b.
  assert (Ht : triple friendly (fun w0 => w0 = w) enter (fun _ w' => at_ false tn b (fun l => l = w_sent w) w')).
  { apply (triple_bind _ _ _ _ _ (fun _ => at_ false tn b (fun l => l = w_sent w))).
    - apply triple_modify. intros w0 ->. unfold tn, b. by destruct (ra_tenant a), (w_tenant w) eqn:Ew.
    - intros _. apply triple_gets. intros now. eapply triple_weaken; [|intros w' Hw; exact (proj1 Hw)|intros ? ? Hq; exact Hq].
      apply (triple_bind _ _ _ _ _ (fun _ => at_ false tn b (fun l => l = w_sent w))).
      + eapply triple_weaken; [apply (await_quiet friendly (fun m H => H) false tn b (fun l => l = w_sent w))|done|].
        * intros w'. by destruct (ls_claim _ _ _ _ _ _ _).
        * by intros [x|e] w'.
      + intros c. eapply triple_weaken; [apply triple_ret|done|]. by intros ? ? [_ ?]. }
  specialize (Ht w s eq_refl Hs). rewrite He in Ht. destruct Ht as [Ha Hf]. split; [done|]. split; [|done].
  unfold tn, b. by destruct (ra_tenant a), (w_tenant w).
Qed.

(** (C3) A claimed run ends.  Whatever the agent yields, the store, the backends and
    the other tasks do, and wherever the body fails or is cancelled: when no
    cancellation hits the task while it settles, its record is terminal, its
    stream is ended, it sent the metadata, a prefix of what the agent's items
    give, at most one error, and the end once and last, and the tenant variable
    is what it was. *)
Theorem run_agent_settles w s claim w1 s1 r w2 s2 res w' s' :
  mgr_wf (w_manager w) -> is_Some (dict_get run_id (rm_runs (w_manager w))) -> bridge_inv (w_bridge w) ->
  Forall friendly s ->
  enter w s = (Ok (Some claim), w1, s1) -> body py_str json_str a w1 s1 = (r, w2, s2) -> Forall undisturbed s2 ->
  run_agent py_str json_str a w s = (res, w', s') ->
  finished_run run_id (w_manager w')
  /\ stream_ended (w_bridge w')
  /\ (exists evs, settled_events evs /\ w_sent w' = w_sent w ++ evs ++ [SentEnd])
  /\ w_tenant w' = w_tenant w.
Proof.
  intros Hwf Hreg Hi Hs He Hb Hu Hrun.
  destruct (enter_at _ _ _ _ _ (conj Hwf Hreg) Hi Hs He) as (tn & b & Hat & Htn & Hs1).
  pose proof (body_at friendly (fun m H => H) tn b (w_sent w) w1 s1 Hat Hs1) as Hbody. rewrite Hb in Hbody.
  destruct Hbody as [Hpost Hs2].
  assert (Hcalm : Forall calm s2) by (rewrite Forall_forall in *; intros m Hm; split; auto).
  assert (Hrun' : try_finally (try_except (body py_str json_str a) (handlers json_str a)) (finalize a claim) w1 s1 = (res, w', s')).
  { rewrite <-Hrun. unfold run_agent. unfold enter in He. unfold bind in He |- *.
    destruct (bind_tenant a w s) as [[[[]|e] wa] sa]; [|done]. rewrite He. reflexivity. }
  assert (Hsettled : exists r3 w3 s3, try_except (body py_str json_str a) (handlers json_str a) w1 s1 = (r3, w3, s3)
    /\ at_ true tn b (settled_sent (w_sent w)) w3 /\ Forall calm s3).
  { unfold try_except. rewrite Hb. destruct r as [[]|e].
    - do 3 eexists. split; [done|]. split; [|done]. eapply at_weaken; [exact Hpost|done|apply body_settled].
    - pose proof (handlers_at tn b (w_sent w) e w2 s2 Hpost Hcalm) as Hh.
      destruct (handlers json_str a e w2 s2) as [[r3 w3] s3]. by do 3 eexists. }
  destruct Hsettled as (r3 & w3 & s3 & Et & Hat3 & Hs3). unfold try_finally in Hrun'. rewrite Et in Hrun'.
  pose proof (finalize_at tn b (settled_sent (w_sent w)) claim w3 s3 Hat3 Hs3) as Hf.
  destruct (finalize a claim w3 s3) as [[r4 w4] s4]. destruct Hf as [(-> & Hend & Hat4) _]. injection Hrun' as _ <- _.
  destruct Hat4 as ([Hfin _] & Hten & _ & (l1 & (evs & Hevs & ->) & Hsent)).
  split; [done|]. split; [done|]. split; [|congruence]. exists evs. split; [done|]. by rewrite Hsent, app_assoc.
Qed.
End worker_props.
