(* ===== verification/WorkerRollback.v ===== *)
(** * Rolling a run back

    What a checkpointer promises, and that a rollback puts the thread back to
    the checkpoint taken before the run: its values, metadata and pending
    writes, under a fresh identity.  Then the worker on a concrete system. *)
From S2P Require Import Prelude PyString PyList PyAsync Transitions RunStore Retry StoreApi.
From S2P Require Import Ownership RunManager RunManagerFacts Authorize EventStore Journal.
From S2P Require Import StreamBridge Serialization Worker WorkerProps.
Local Open Scope string_scope.
Local Open Scope list_scope.
Local Open Scope coro_scope.

(** ** The contract of a checkpointer *)

Definition configurable_of (thread ns id : string) : list (string * json) :=
  [("thread_id", JStr thread); ("checkpoint_ns", JStr ns); ("checkpoint_id", JStr id)].
Definition config_of (thread ns id : string) : json := JObj [("configurable", JObj (configurable_of thread ns id))].

Definition write_item (task : string) (w : string * json) : json := JArr [JStr task; JStr w.1; w.2].

(** [get_tuple] without a checkpoint id returns the latest checkpoint of the
    thread; [put] of an identity newer than all adds the latest one, without
    pending writes, and returns its config; [put_writes] adds the writes of a
    task to a checkpoint; [delete_thread] removes all. *)
Class CheckpointerLaws (C : Type) {CA : Checkpointer C} : Type := {
  cp_latest : string -> string -> C -> option ckpt_tuple;
  cp_newest : string -> string -> string -> C -> Prop;
  cp_get_law t ns c o c' : cp_get_tuple t ns c = (Ok o, c') -> o = cp_latest t ns c /\ c' = c;
  cp_put_law t ns id ck md v c cfg c' :
    cp_put t ns ck md v c = (Ok cfg, c') -> dict_get "id" ck = Some (JStr id) -> cp_newest t ns id c ->
    cfg = config_of t ns id /\ cp_latest t ns c' = Some (mk_ckpt (configurable_of t ns id) (JObj ck) (JObj md) []);
  cp_put_writes_law t ns id ws task c c' k :
    cp_put_writes (config_of t ns id) ws task c = (Ok tt, c') ->
    cp_latest t ns c = Some k -> ct_configurable k = configurable_of t ns id ->
    cp_latest t ns c' = Some (mk_ckpt (ct_configurable k) (ct_checkpoint k) (ct_metadata k)
                                (ct_pending_writes k ++ (write_item task <$> ws)));
  cp_delete_law t ns c c' : cp_delete_thread t c = (Ok tt, c') -> cp_latest t ns c' = None
}.

(** ** Grouped writes *)

Section grouping.
Context (json_str : json -> string).

(** The writes of one task, in order. *)
Definition of_task (task : string) (item : json) : bool :=
  match item with JArr (JStr t :: _) => String.eqb t task | _ => false end.
Definition writes_of (task : string) (items : list json) : list json := List.filter (of_task task) items.

Definition good_write (item : json) : bool :=
  match item with JArr [JStr _; JStr _; _] => true | _ => false end.

Definition flat_writes (d : list (string * list (string * json))) : list json :=
  concat (map (fun p : string * list (string * json) => write_item p.1 <$> p.2) d).

Lemma writes_of_task task (ws : list (string * json)) task' :
  writes_of task' (write_item task <$> ws) = if String.eqb task task' then write_item task <$> ws else [].
Proof.
  unfold writes_of. induction ws as [|x ws IH]; [by destruct (String.eqb task task')|].
  rewrite fmap_cons. unfold write_item at 1. cbn [List.filter of_task]. rewrite IH. by destruct (String.eqb task task').
Qed.

Lemma writes_of_app task l1 l2 : writes_of task (l1 ++ l2) = writes_of task l1 ++ writes_of task l2.
Proof. apply List.filter_app. Qed.

Lemma writes_of_flat d task :
  dict_wf d -> writes_of task (flat_writes d) = write_item task <$> opt_or (dict_get task d) [].
Proof.
  unfold dict_wf, flat_writes. induction d as [|[t ws] d IH]; [done|]. intros [Hn Hd]%NoDup_cons.
  cbn [map concat fst snd]. rewrite writes_of_app, IH by done. cbn [dict_get]. rewrite writes_of_task. destruct (String.eqb_spec t task) as [->|Hne].
  - rewrite decide_True by done. simpl.
    replace (dict_get task d) with (@None (list (string * json))); [by rewrite app_nil_r|].
    symmetry. apply dict_get_None. exact Hn.
  - by rewrite decide_False.
Qed.

(** Grouping keeps the writes of each task, in order. *)
Lemma writes_by_task_spec items d d' :
  forallb good_write items = true -> dict_wf d -> writes_by_task json_str items d = Ok d' ->
  dict_wf d' /\ forall task, writes_of task (flat_writes d') = writes_of task (flat_writes d) ++ writes_of task items.
Proof.
  revert d. induction items as [|item items IH]; intros d Hg Hwf; simpl.
  - intros [= <-]. split; [done|]. intros task. by rewrite app_nil_r.
  - simpl in Hg. apply andb_true_iff in Hg as [Hi Hg].
    destruct item as [| | | | |[|[| | |t| | |] [|[| | |ch| | |] [|v []]]]|]; try done. simpl.
    intros Hd'. destruct (IH _ Hg (dict_wf_set _ _ _ Hwf) Hd') as [Hwf' Hspec]. split; [done|].
    intros task. rewrite Hspec, !writes_of_flat by (done || by apply dict_wf_set). rewrite dict_get_set.
    destruct (String.eqb_spec t task) as [->|Hne].
    + rewrite decide_True by done. simpl. rewrite fmap_app, <-app_assoc. done.
    + by rewrite decide_False.
Qed.

Lemma writes_by_task_ok items d : forallb good_write items = true -> exists d', writes_by_task json_str items d = Ok d'.
Proof.
  revert d. induction items as [|item items IH]; intros d; simpl; [by eexists|]. intros [Hi Hg]%andb_true_iff.
  destruct item as [| | | | |[|[| | |t| | |] [|[| | |ch| | |] [|v []]]]|]; try done. simpl. by apply IH.
Qed.
End grouping.

(** ** The rollback *)

Section rollback.
Context {S E C L T : Type}.
Context {SA : RunStoreApi S} {EA : RunEventStore E} {CA : Checkpointer C} {CL : CheckpointerLaws C} {LA : LeaseStore L}
  {TA : ThreadStore T}.
Context (json_str : json -> string) (a : run_args).
Local Notation world := (world S E C L T).

(** Other tasks leave the checkpoints alone. *)
Definition keeps_checkpoints (m : moment world) : Prop :=
  forall w, w_checkpoints (mo_others m w) = w_checkpoints w /\ w_frame (mo_others m w) = w_frame w.

Lemma on_checkpoints_result {A} (P : C -> Prop) (op : C -> result failure A * C) :
  triple keeps_checkpoints (fun w => P (w_checkpoints w)) (on_checkpoints op)
    (fun r w => match r with Ok x => exists c, P c /\ op c = (Ok x, w_checkpoints w) | Err _ => True end).
Proof.
  apply triple_await.
  - intros m w Hm Hw. by rewrite (proj1 (Hm w)).
  - intros w Hw. destruct (op (w_checkpoints w)) as [[x|[]] c] eqn:Eo; [|done]. by exists (w_checkpoints w).
  - done.
  - intros m w _. by right.
Qed.

Definition pending (k : ckpt_tuple) (items : list json) : ckpt_tuple :=
  mk_ckpt (ct_configurable k) (ct_checkpoint k) (ct_metadata k) (ct_pending_writes k ++ items).

Lemma put_all_writes t ns id d k :
  ct_configurable k = configurable_of t ns id ->
  triple keeps_checkpoints (fun w => cp_latest t ns (w_checkpoints w) = Some k)
    (for_each (fun p => on_checkpoints (cp_put_writes (config_of t ns id) p.2 p.1)) d)
    (fun r w => match r with Ok _ => cp_latest t ns (w_checkpoints w) = Some (pending k (flat_writes d)) | Err _ => True end).
Proof.
  revert k. induction d as [|[task ws] d IH]; intros k Hk; cbn [for_each].
  - eapply triple_weaken; [apply triple_ret|intros w Hw; exact Hw|]. intros r w [-> Hw]. rewrite Hw. unfold pending, flat_writes. simpl.
    rewrite app_nil_r. by destruct k.
  - set (k1 := pending k (write_item task <$> ws)).
    apply (triple_bind _ _ _ _ _ (fun _ w => cp_latest t ns (w_checkpoints w) = Some k1)).
    + eapply triple_weaken; [apply (on_checkpoints_result (fun c => cp_latest t ns c = Some k))|done|].
      intros [[]|e] w; [|done]. intros (c & Hc & Hop). by eapply cp_put_writes_law in Hop.
    + intros _. eapply triple_weaken; [apply (IH k1 Hk)|done|]. intros [[]|e] w; [|done]. intros ->.
      unfold pending, k1, flat_writes. simpl. by rewrite <-app_assoc.
Qed.

(** What a rollback can put back: a checkpoint with an identity, in the root
    namespace, with well-formed writes. *)
Definition restorable (t : ckpt_tuple) : bool :=
  match ct_checkpoint t with
  | JObj d => negb (is_none (dict_get "id" d)) || negb (is_none (dict_get "checkpoint_id" (ct_configurable t)))
  | _ => false
  end
  && match opt_or (dict_get "checkpoint_ns" (ct_configurable t)) (JStr "") with JStr "" => true | _ => false end
  && forallb good_write (ct_pending_writes t).

(** The same values, metadata and writes under another identity. *)
Definition restored (t0 t1 : ckpt_tuple) : Prop :=
  (exists d d1, ct_checkpoint t0 = JObj d /\ ct_checkpoint t1 = JObj d1
     /\ forall k, k <> "id" -> k <> "ts" -> dict_get k d1 = dict_get k d)
  /\ ct_metadata t1 = JObj (obj_or_empty (ct_metadata t0))
  /\ forall task, writes_of task (ct_pending_writes t1) = writes_of task (ct_pending_writes t0).

Lemma restorable_checkpoint t ck0 :
  restorable t = true -> ct_checkpoint t = ck0 ->
  exists d ck, ck0 = JObj d
    /\ checkpoint_to_restore a ck0 (dict_get "checkpoint_id" (ct_configurable t)) = Some ck
    /\ dict_get "id" ck = Some (JStr (ra_marker a).1)
    /\ forall k, k <> "id" -> k <> "ts" -> dict_get k ck = dict_get k d.
Proof.
  unfold restorable. intros [[Hid _]%andb_true_iff _]%andb_true_iff <-. destruct (ct_checkpoint t) as [| | | | | |d]; try done.
  exists d. unfold checkpoint_to_restore.
  assert (Hset : forall d0 : list (string * json), dict_get "id" (dict_set "ts" (JStr (ra_marker a).2) (dict_set "id" (JStr (ra_marker a).1) d0))
    = Some (JStr (ra_marker a).1)).
  { intros d0. rewrite dict_get_set_ne by done. apply dict_get_set_eq. }
  destruct (is_none (dict_get "id" d)) eqn:Ed; simpl in Hid |- *.
  - apply negb_true_iff in Hid. rewrite Hid. simpl.
    set (pre := dict_get "checkpoint_id" (ct_configurable t)) in *. rewrite dict_get_set_eq.
    destruct pre as [v|]; [|done]. cbn [opt_or]. rewrite Hid. eexists. split; [done|]. split; [done|].
    split; [apply Hset|]. intros k H1 H2. by rewrite !dict_get_set_ne by done.
  - rewrite Ed. eexists. split; [done|]. split; [done|]. split; [apply Hset|]. intros k H1 H2. by rewrite !dict_get_set_ne by done.
Qed.

Lemma restore_snapshot_at t0 :
  restorable t0 = true ->
  triple keeps_checkpoints (fun w => cp_newest (thread_id a) "" (ra_marker a).1 (w_checkpoints w))
    (restore_snapshot json_str a (dict_get "checkpoint_id" (ct_configurable t0))
       (mk_snapshot (opt_or (dict_get "checkpoint_ns" (ct_configurable t0)) (JStr "")) (ct_checkpoint t0) (ct_metadata t0)
          (ct_pending_writes t0)))
    (fun r w => match r with
                | Ok _ => exists t1, cp_latest (thread_id a) "" (w_checkpoints w) = Some t1 /\ restored t0 t1
                | Err _ => True
                end).
Proof.
  intros Hr. destruct (restorable_checkpoint t0 _ Hr eq_refl) as (d & ck & Ed & Eck & Hid & Hkeys).
  unfold restorable in Hr. apply andb_true_iff in Hr as [[_ Hns]%andb_true_iff Hw].
  unfold restore_snapshot. cbn [sn_checkpoint sn_checkpoint_ns sn_metadata sn_pending_writes]. rewrite Eck.
  assert (Ens : opt_or (dict_get "checkpoint_ns" (ct_configurable t0)) (JStr "") = JStr "").
  { destruct (opt_or _ _) as [| | |[|]| | |]; done. }
  rewrite Ens.
  set (k := mk_ckpt (configurable_of (thread_id a) "" (ra_marker a).1) (JObj ck) (JObj (obj_or_empty (ct_metadata t0))) []).
  apply (triple_bind _ _ _ _ _ (fun cfg w => cfg = config_of (thread_id a) "" (ra_marker a).1
    /\ cp_latest (thread_id a) "" (w_checkpoints w) = Some k)).
  - eapply triple_weaken; [apply (on_checkpoints_result (cp_newest (thread_id a) "" (ra_marker a).1))|done|].
    intros [cfg|e] w; [|done]. intros (c & Hc & Hop). by eapply cp_put_law in Hop.
  - intros cfg w s [-> Hlat] Hs. unfold config_of, configurable_of at 1. cbn [dict_get].
    rewrite decide_True by done. cbn [opt_or]. unfold configurable_of at 1. cbn [dict_get].
    rewrite decide_False, decide_False, decide_True by done. cbn [opt_or].
    destruct (writes_by_task_ok json_str (ct_pending_writes t0) [] Hw) as [by_task Hby]. rewrite Hby.
    destruct (negb (json_truthy (JStr (ra_marker a).1))); [done|].
    pose proof (put_all_writes (thread_id a) "" (ra_marker a).1 by_task k eq_refl w s Hlat Hs) as Hput.
    unfold config_of in Hput. destruct (for_each _ _ w s) as [[[[]|e] w'] s']; [|done]. destruct Hput as [Hlat' Hs'].
    split; [|done]. exists (pending k (flat_writes by_task)). split; [done|]. split; [|split; [done|]].
    + exists d, ck. by rewrite Ed.
    + intros task. simpl. destruct (writes_by_task_spec json_str _ [] _ Hw (NoDup_nil_2) Hby) as [_ Hspec].
      by rewrite Hspec.
Qed.

(** (C20) A rollback restores the thread.  When the snapshot was captured, then
    whatever the run did to the checkpoints since, a rollback that returns
    leaves the thread with the checkpoint it had before the run (the same
    values, metadata and pending writes, under the fresh identity), or with
    none if it had none. *)
Theorem rollback_restores (w0 w1 w : world) s w' s' :
  ra_has_checkpointer a = true -> w_frame w0 = new_frame ->
  capture_snapshot a w0 [] = (Ok tt, w1, []) -> fr_snapshot_capture_failed (w_frame w1) = false ->
  match cp_latest (thread_id a) "" (w_checkpoints w0) with Some t => restorable t = true | None => True end ->
  w_frame w = w_frame w1 -> Forall keeps_checkpoints s ->
  cp_newest (thread_id a) "" (ra_marker a).1 (w_checkpoints w) ->
  rollback_to_pre_run_checkpoint json_str a w s = (Ok tt, w', s') ->
  match cp_latest (thread_id a) "" (w_checkpoints w0), cp_latest (thread_id a) "" (w_checkpoints w') with
  | Some t0, Some t1 => restored t0 t1
  | None, None => True
  | _, _ => False
  end.
Proof.
  intros Hcp Hf0 Hcap Hfail Hrest Hf Hs Hnew Hrb.
  (* the frame after the capture *)
  unfold capture_snapshot, try_exception, try_except, bind, on_checkpoints, await in Hcap. rewrite Hcp in Hcap. simpl in Hcap.
  destruct (cp_get_tuple (thread_id a) "" (w_checkpoints w0)) as [[o|[n msg]] c] eqn:Eg; simpl in Hcap.
  2: { injection Hcap as <-. done. }
  destruct (cp_get_law _ _ _ _ _ Eg) as [-> ->].
  unfold rollback_to_pre_run_checkpoint, bind, gets in Hrb. rewrite Hcp, Hf in Hrb. simpl in Hrb. rewrite Hfail in Hrb.
  destruct (cp_latest (thread_id a) "" (w_checkpoints w0)) as [t0|] eqn:Elat.
  - unfold modify in Hcap. injection Hcap as <-. simpl in Hrb.
    pose proof (restore_snapshot_at t0 Hrest w s Hnew Hs) as H. rewrite Hrb in H. by destruct H as [(t1 & -> & Hres) _].
  - unfold ret in Hcap. injection Hcap as <-. simpl in Hrb. rewrite Hf0 in Hrb. simpl in Hrb.
    pose proof (on_checkpoints_result (fun _ => True) (cp_delete_thread (thread_id a)) w s I Hs) as H. rewrite Hrb in H.
    destruct H as [(c1 & _ & Hd) _]. by rewrite (cp_delete_law _ "" _ _ Hd).
Qed.
End rollback.
