(* ===== verification/WorkerExamples.v ===== *)
(** * The run worker on a concrete system

    A checkpointer that keeps the last checkpoint of each thread, lease and
    thread stores that accept everything, a run of two items, and runs of it:
    undisturbed, cancelled with a rollback, and the schedules behind what was
    found in the code. *)
From S2P Require Import Prelude PyString PyList PyAsync Transitions RunStore Retry StoreApi.
From S2P Require Import Ownership RunManager RunManagerFacts RunManagerProps Authorize EventStore.
From S2P Require Import Journal StreamBridge Serialization Worker WorkerProps WorkerRollback.
From stdpp Require Import gmap.
Local Open Scope string_scope.
Local Open Scope Z_scope.
Local Open Scope list_scope.
Local Open Scope coro_scope.

(** ** A checkpointer in memory *)

Notation last_checkpoints := (gmap (string * string) ckpt_tuple).

Definition text_at (k : string) (d : list (string * json)) : string :=
  match dict_get k d with Some (JStr s) => s | _ => "" end.

Definition keep_put (t ns : string) (ck md _ : list (string * json)) (c : last_checkpoints)
    : result failure json * last_checkpoints :=
  (Ok (config_of t ns (text_at "id" ck)), <[(t, ns) := mk_ckpt (configurable_of t ns (text_at "id" ck)) (JObj ck) (JObj md) []]> c).

Definition keep_put_writes (cfg : json) (ws : list (string * json)) (task : string) (c : last_checkpoints)
    : result failure unit * last_checkpoints :=
  match cfg with
  | JObj [(_, JObj conf)] =>
      (Ok tt, alter (fun k => mk_ckpt (ct_configurable k) (ct_checkpoint k) (ct_metadata k)
                          (ct_pending_writes k ++ (write_item task <$> ws)))
                (text_at "thread_id" conf, text_at "checkpoint_ns" conf) c)
  | _ => (Err ("ValueError", "config"), c)
  end.

Definition keep_delete (t : string) (c : last_checkpoints) : result failure unit * last_checkpoints :=
  (Ok tt, filter (fun kv => kv.1.1 <> t) c).

#[global] Instance keep_checkpointer : Checkpointer last_checkpoints := {
  cp_get_tuple t ns c := (Ok (c !! (t, ns)), c);
  cp_put := keep_put;
  cp_put_writes := keep_put_writes;
  cp_delete_thread := keep_delete
}.

#[global] Program Instance keep_laws : CheckpointerLaws last_checkpoints := {
  cp_latest t ns c := c !! (t, ns);
  cp_newest _ _ _ _ := True
}.
Next Obligation. by intros t ns c o c' [= <- <-]. Qed.
Next Obligation.
  intros t ns id ck md v c cfg c' Hp Hid _. change (keep_put t ns ck md v c = (Ok cfg, c')) in Hp.
  unfold keep_put, text_at in Hp. rewrite Hid in Hp. simplify_eq. split; [done|]. apply lookup_insert_eq.
Qed.
Next Obligation.
  intros t ns id ws task c c' k Hp Hc _. change (keep_put_writes (config_of t ns id) ws task c = (Ok tt, c')) in Hp.
  unfold keep_put_writes, config_of in Hp. injection Hp as <-.
  transitivity (alter (fun k => mk_ckpt (ct_configurable k) (ct_checkpoint k) (ct_metadata k)
    (ct_pending_writes k ++ (write_item task <$> ws))) (t, ns) c !! (t, ns)); [done|].
  rewrite lookup_alter_eq. by replace (c !! (t, ns)) with (Some k).
Qed.
Next Obligation. intros t ns c c' [= <-]. apply map_lookup_filter_None. right. intros k _ H. by apply H. Qed.

(** ** Stores that accept everything *)

#[global] Instance accepting_leases : LeaseStore unit := {
  ls_null _ := true;
  ls_claim run_id _ worker _ token now l :=
    (Ok (mk_claim_result (Some (mk_claim run_id worker token (now + 30000000) "" now)) None), l);
  ls_renew _ _ _ l := (Ok true, l);
  ls_release _ _ _ l := (Ok true, l)
}.

(** The thread store keeps the last status. *)
#[global] Instance accepting_threads : ThreadStore string := {
  ts_update_display_name _ _ t := (Ok tt, t);
  ts_update_status _ st _ := (Ok tt, st)
}.

(** ** A run of two items *)

Definition demo_world_type : Type := world run_store Memory.mem_store last_checkpoints unit string.

Definition demo_items : list pyval := [VDict [("n", VNum 1)]; VDict [("n", VNum 2)]].

Definition demo_run : run_args :=
  mk_run_args demo_rec1 true true false 20 true false None "w1" "p1"
    (fun _ => Ok (mk_agent None (fun _ _ => demo_items))) [] ["values"] false "tok" ("ck-new", "2026") false "default" None.

Definition demo_checkpoint (n : Z) (writes : list json) : ckpt_tuple :=
  mk_ckpt (configurable_of "t1" "" "ck-0") (JObj [("id", JStr "ck-0"); ("channel_values", JObj [("n", JNum n)])])
    (JObj [("step", JNum n)]) writes.

Definition demo_before : ckpt_tuple :=
  demo_checkpoint 7 [JArr [JStr "task-a"; JStr "x"; JNum 1]; JArr [JStr "task-b"; JStr "x"; JNum 2]; JArr [JStr "task-a"; JStr "y"; JNum 3]].

Definition demo_world (c : last_checkpoints) : demo_world_type :=
  mk_world demo_mgr1 (new_bridge 8) c tt "" Memory.empty None None 20000 new_frame [].

Definition demo_str (_ : pyval) : string := "".
Definition demo_json_str (_ : json) : string := "".

Definition run_demo (c : last_checkpoints) (s : list (moment demo_world_type)) :=
  run_agent demo_str demo_json_str demo_run (demo_world c) s.

Definition result_of {A B D} (x : A * B * D) : A := x.1.1.
Definition world_of {A B D} (x : A * B * D) : B := x.1.2.

Lemma parts {A B D} (x : A * B * D) r : result_of x = r -> x = (r, world_of x, x.2).
Proof. by destruct x as [[? ?] ?]; intros <-. Qed.

Definition demo_status (w : demo_world_type) : option RunStatus := rec_status <$> dict_get "r1" (rm_runs (w_manager w)).

Definition nothing : moment demo_world_type := mk_moment id Go.

(** The step of the agent that writes a checkpoint. *)
Definition agent_writes (k : ckpt_tuple) : moment demo_world_type :=
  mk_moment (fun w => set_checkpoints (<[("t1", "") := k]> (w_checkpoints w)) w) Go.

(** A user's [cancel], which also cancels the task where it waits. *)
Definition user_cancels (action : string) : moment demo_world_type :=
  mk_moment (fun w => set_manager (RunManager.cancel "r1" action (w_now w) (w_manager w)).2 w) (CancelledHere false).

(** A run that goes through: the metadata, both items, the end. *)
Example demo_undisturbed :
  let w := world_of (run_demo {[("t1", "") := demo_before]} []) in
  demo_status w = Some RS_success /\ w_threads w = "idle"
  /\ w_sent w = [SentEvent "metadata" (JObj [("run_id", JStr "r1"); ("thread_id", JStr "t1")]);
                 SentEvent "values" (JObj [("n", JNum 1)]); SentEvent "values" (JObj [("n", JNum 2)]); SentEnd].
Proof. vm_compute. repeat split; reflexivity. Qed.

(** *** A cancellation with a rollback *)

Definition demo_cancelled : list (moment demo_world_type) :=
  [nothing; nothing; nothing; nothing; agent_writes (demo_checkpoint 9 []); nothing; user_cancels "rollback"].

Example demo_rolled_back :
  let w := world_of (run_demo {[("t1", "") := demo_before]} demo_cancelled) in
  demo_status w = Some RS_error /\ w_threads w = "error"
  /\ (dict_get "channel_values" ∘ obj_or_empty ∘ ct_checkpoint <$> w_checkpoints w !! ("t1", "")) = Some (Some (JObj [("n", JNum 7)])).
Proof. vm_compute. repeat split; reflexivity. Qed.

Example demo_interrupted :
  let w := world_of (run_demo ∅ [nothing; nothing; nothing; nothing; user_cancels "interrupt"]) in
  demo_status w = Some RS_interrupted /\ w_threads w = "interrupted"
  /\ w_sent w = [SentEvent "metadata" (JObj [("run_id", JStr "r1"); ("thread_id", JStr "t1")]); SentEnd].
Proof. vm_compute. repeat split; reflexivity. Qed.

(** A cancellation with a rollback that reaches the task before the snapshot is
    read deletes the thread's checkpoints. *)
Example demo_early_rollback_deletes :
  let w := world_of (run_demo {[("t1", "") := demo_before]} [nothing; nothing; user_cancels "rollback"]) in
  w_checkpoints w = ∅ /\ fr_snapshot_capture_failed (w_frame w) = false.
Proof. vm_compute. repeat split; reflexivity. Qed.

(** A failure or a cancellation of the claim leaves the stream without its end. *)
Example demo_claim_fails :
  let x := run_demo ∅ [mk_moment id (Fails "ConnectionError" "redis")] in
  result_of x = Err (Raised "ConnectionError" "redis") /\ w_sent (world_of x) = []
  /\ demo_status (world_of x) = Some RS_pending.
Proof. vm_compute. repeat split; reflexivity. Qed.

(** ** Witnesses *)

Lemma user_cancels_friendly action : friendly (user_cancels action).
Proof.
  intros w Hwf. split; [|split; [by exists []|done]]. simpl.
  destruct (RunManager.cancel "r1" action (w_now w) (w_manager w)) as [res m'] eqn:Ec. simpl.
  eapply star_step; [|apply star_refl]. split; [by eapply ms_cancel|]. intros id [r Hr].
  destruct (cancel_good _ _ _ _ _ _ Ec Hwf) as [_ He]. destruct (He _ _ Hr) as (r' & -> & _). by eexists.
Qed.

Lemma demo_cancelled_friendly : Forall friendly demo_cancelled.
Proof.
  assert (H : forall f, (forall w, w_manager (f w) = w_manager w /\ w_bridge (f w) = w_bridge w /\ w_frame (f w) = w_frame w
    /\ w_sent (f w) = w_sent w /\ w_tenant (f w) = w_tenant w) -> friendly (mk_moment (W := demo_world_type) f Go)).
  { intros f Hf w _. destruct (Hf w) as (H1 & H2 & H3 & H4 & H5). simpl. rewrite H1. split; [apply star_refl|].
    split; [by exists []|done]. }
  unfold demo_cancelled. rewrite !Forall_cons. split_and!; try (by apply H); [apply user_cancels_friendly|constructor].
Qed.

Definition demo_entered := enter demo_run (demo_world {[("t1", "") := demo_before]}) demo_cancelled.
Definition demo_body := body demo_str demo_json_str demo_run (world_of demo_entered) demo_entered.2.
Definition demo_outcome := run_agent demo_str demo_json_str demo_run (demo_world {[("t1", "") := demo_before]}) demo_cancelled.
Definition demo_claim : ClaimRecord := mk_claim "r1" "w1" "tok" 30020000 "" 20000.

Lemma run_agent_settles_witness :
  let w := world_of demo_outcome in
  finished_run "r1" (w_manager w) /\ stream_ended demo_run (w_bridge w) /\ w_tenant w = None.
Proof.
  destruct (run_agent_settles demo_str demo_json_str demo_run (demo_world {[("t1", "") := demo_before]}) demo_cancelled demo_claim
    (world_of demo_entered) demo_entered.2 (result_of demo_body) (world_of demo_body) demo_body.2
    (result_of demo_outcome) (world_of demo_outcome) demo_outcome.2) as (H1 & H2 & _ & H4).
  - exact demo_mgr1_wf.
  - exists demo_rec1. vm_compute. reflexivity.
  - exists (fun _ => []). apply new_bridge_ok.
  - exact demo_cancelled_friendly.
  - apply (parts demo_entered). vm_compute. reflexivity.
  - exact (parts demo_body _ eq_refl).
  - vm_compute. constructor.
  - exact (parts demo_outcome _ eq_refl).
  - split; [exact H1|]. split; [exact H2|exact H4].
Defined.

(** The thread before the run, after the agent's write, and rolled back. *)
Definition demo_captured : demo_world_type :=
  world_of (capture_snapshot demo_run (demo_world {[("t1", "") := demo_before]}) []).
Definition demo_written : demo_world_type :=
  set_checkpoints {[("t1", "") := demo_checkpoint 9 []]} demo_captured.
Definition demo_restored := rollback_to_pre_run_checkpoint demo_json_str demo_run demo_written [].

Lemma rollback_restores_witness :
  exists t1, w_checkpoints (world_of demo_restored) !! ("t1", "") = Some t1 /\ restored demo_before t1.
Proof.
  pose proof (rollback_restores demo_json_str demo_run (demo_world {[("t1", "") := demo_before]}) demo_captured demo_written []
    (world_of demo_restored) []) as H.
  destruct (w_checkpoints (world_of demo_restored) !! ("t1", "")) as [t1|] eqn:E; [|vm_compute in E; discriminate E].
  exists t1. split; [reflexivity|].
  change (cp_latest _ _ (w_checkpoints (world_of demo_restored))) with (w_checkpoints (world_of demo_restored) !! ("t1", "")) in H.
  rewrite E in H. apply H; try reflexivity; try constructor; vm_compute; reflexivity.
Defined.
