(* ===== verification/ThreadMeta.v ===== *)
(** * Thread metadata

    The two stores of thread records: the [threads_meta] table
    ([persistence/thread_meta/sql.py], [model.py]) and the in-memory store
    ([memory.py]), with the metadata filters of [persistence/json_compat.py] and
    the resolution of the current user ([runtime/user_context.py]).  An Org
    reads and changes only its own rows. *)
From S2P Require Import Prelude PyString EventStoreDb PyPath Paths Authorize.
From stdpp Require Import gmap.
Local Open Scope string_scope.
Local Open Scope Z_scope.
Local Open Scope list_scope.

(** ** Rows, arguments, context *)

(** [ThreadMetaRow]; the record of the in-memory store has the same fields. *)
Record meta_row : Type := mk_meta {
  mt_org_id : option string;
  mt_assistant_id : option string;
  mt_user_id : option string;
  mt_display_name : option string;
  mt_status : string;
  mt_metadata : list (string * json);
  mt_created_at : Z;
  mt_updated_at : Z
}.

Notation meta_table := (gmap string meta_row).

(** The [user_id] argument and [resolve_user_id]. *)
Inductive user_arg : Type := AUTO_USER | ExplicitUser (user_id : option string).

Definition resolve_user_id (a : user_arg) (current_user : option string) : result string (option string) :=
  match a, current_user with
  | AUTO_USER, None => Err "RuntimeError"
  | AUTO_USER, Some u => Ok (Some u)
  | ExplicitUser u, _ => Ok u
  end.

(** The context variables of a call: the user and the Org. *)
Record call_context : Type := mk_context {
  cc_user : option string;
  cc_org : option string
}.

(** [get_effective_user_id] and [resolve_runtime_user_id], whose context is that
    of the runtime. *)
Definition get_effective_user_id (current_user : option string) : string := opt_or current_user "default".

Definition resolve_runtime_user_id (context_user_id : option string) (current_user : option string) : string :=
  if truthy context_user_id then opt_or context_user_id "" else get_effective_user_id current_user.

(** The arguments of [create]. *)
Record create_meta : Type := mk_create_meta {
  cm_thread_id : string;
  cm_assistant_id : option string;
  cm_user_id : user_arg;
  cm_org_id : org_arg;
  cm_display_name : option string;
  cm_metadata : list (string * json)
}.

Definition dict_update {V} (d new : list (string * V)) : list (string * V) :=
  foldl (fun d p => dict_set p.1 p.2 d) d new.

Definition with_display_name (name : string) (now : Z) (r : meta_row) : meta_row :=
  mk_meta (mt_org_id r) (mt_assistant_id r) (mt_user_id r) (Some name) (mt_status r) (mt_metadata r) (mt_created_at r) now.
Definition with_status (status : string) (now : Z) (r : meta_row) : meta_row :=
  mk_meta (mt_org_id r) (mt_assistant_id r) (mt_user_id r) (mt_display_name r) status (mt_metadata r) (mt_created_at r) now.
Definition with_metadata (metadata : list (string * json)) (now : Z) (r : meta_row) : meta_row :=
  mk_meta (mt_org_id r) (mt_assistant_id r) (mt_user_id r) (mt_display_name r) (mt_status r)
    (dict_update (mt_metadata r) metadata) (mt_created_at r) now.
Definition with_owner (owner : string) (now : Z) (r : meta_row) : meta_row :=
  mk_meta (mt_org_id r) (mt_assistant_id r) (Some owner) (mt_display_name r) (mt_status r) (mt_metadata r) (mt_created_at r) now.

(** [resolved_org_id is not None and row.org_id != resolved_org_id]. *)
Definition foreign (resolved_org_id : option string) (r : meta_row) : bool :=
  match resolved_org_id with
  | Some o => negb (bool_decide (mt_org_id r = Some o))
  | None => false
  end.
Arguments foreign : simpl never.

(** ** Metadata filters *)

Definition _INT64_MIN : Z := - 2 ^ 63.
Definition _INT64_MAX : Z := 2 ^ 63 - 1.

(** The pattern of a key is the one of safe identifiers. *)
Definition validate_metadata_filter_key (key : string) : bool := safe_id key.

Definition validate_metadata_filter_value (value : json) : bool :=
  match value with
  | JNum z => (_INT64_MIN <=? z) && (z <=? _INT64_MAX)
  | JNull | JBool _ | JStr _ => true
  | _ => false
  end.

(** What the compiled clause selects, on both dialects: the key is present with
    that value and type. *)
Definition json_match (metadata : list (string * json)) (key : string) (value : json) : bool :=
  match dict_get key metadata, value with
  | Some JNull, JNull => true
  | Some (JBool b), JBool b' => Bool.eqb b b'
  | Some (JNum z), JNum z' => z =? z'
  | Some (JStr s), JStr s' => String.eqb s s'
  | _, _ => false
  end.

(** The filters that were not rejected; [None] when there are filters and all
    were. *)
Definition applied_filters (metadata : list (string * json)) : option (list (string * json)) :=
  let applied := List.filter (fun p => validate_metadata_filter_key p.1 && validate_metadata_filter_value p.2) metadata in
  match metadata, applied with
  | _ :: _, [] => None
  | _, _ => Some applied
  end.

(** ** [ThreadMetaRepository] *)

Module Sql.
Section ops.
Context (orgs : gset string) (cx : call_context) (now : Z).

(** The key is unique, the Org is not null and exists. *)
Definition create (a : create_meta) (t : meta_table) : result string meta_row * meta_table :=
  match resolve_user_id (cm_user_id a) (cc_user cx), resolve_org_id (cm_org_id a) (cc_org cx) with
  | Err e, _ | Ok _, Err e => (Err e, t)
  | Ok user_id, Ok org_id =>
      let row := mk_meta org_id (cm_assistant_id a) user_id (cm_display_name a) "idle" (cm_metadata a) now now in
      match t !! cm_thread_id a, org_id with
      | None, Some o =>
          if bool_decide (o ∈ orgs) then (Ok row, <[cm_thread_id a := row]> t) else (Err "IntegrityError", t)
      | _, _ => (Err "IntegrityError", t)
      end
  end.

Definition get (thread_id : string) (org_id : org_arg) (t : meta_table) : result string (option meta_row) :=
  result_bind (resolve_org_id org_id (cc_org cx)) (fun org =>
    Ok (match t !! thread_id with
        | Some row => if foreign org row then None else Some row
        | None => None
        end)).

Definition check_access (thread_id user_id : string) (require_existing : bool) (org_id : org_arg) (t : meta_table)
    : result string bool :=
  result_bind (resolve_org_id org_id (cc_org cx)) (fun org =>
    Ok (match t !! thread_id with
        | None => negb require_existing
        | Some row =>
            if foreign org row then false
            else match mt_user_id row with None => true | Some u => String.eqb u user_id end
        end)).

(** [ORDER BY updated_at DESC, thread_id DESC]. *)
Definition newest_first (x y : string * meta_row) : bool :=
  if mt_updated_at y.2 =? mt_updated_at x.2 then String.leb y.1 x.1 else mt_updated_at y.2 <? mt_updated_at x.2.

Definition search (metadata : list (string * json)) (status : option string) (limit offset : Z) (org_id : org_arg) (t : meta_table)
    : result string (list (string * meta_row)) :=
  result_bind (resolve_org_id org_id (cc_org cx)) (fun org =>
    match applied_filters metadata with
    | None => Err "InvalidMetadataFilterError"
    | Some filters =>
        let selected := List.filter (fun p : string * meta_row =>
          negb (foreign org p.2)
          && (if truthy status then String.eqb (mt_status p.2) (opt_or status "") else true)
          && forallb (fun f => json_match (mt_metadata p.2) f.1 f.2) filters) (map_to_list t) in
        Ok (sql_limit limit (drop (Z.to_nat offset) (sort_by newest_first selected)))
    end).

Definition check_ownership (thread_id : string) (org : option string) (t : meta_table) : bool :=
  match t !! thread_id with
  | None => false
  | Some row => negb (foreign org row)
  end.

(** [UPDATE ... WHERE thread_id = :id], after the ownership check. *)
Definition update_row (f : meta_row -> meta_row) (thread_id : string) (org_id : org_arg) (t : meta_table)
    : result string unit * meta_table :=
  match resolve_org_id org_id (cc_org cx) with
  | Err e => (Err e, t)
  | Ok org => (Ok tt, if check_ownership thread_id org t then alter f thread_id t else t)
  end.

Definition update_display_name (thread_id name : string) := update_row (with_display_name name now) thread_id.
Definition update_status (thread_id status : string) := update_row (with_status status now) thread_id.
Definition update_owner (thread_id owner : string) := update_row (with_owner owner now) thread_id.

(** Read-modify-write in one session. *)
Definition update_metadata (thread_id : string) (metadata : list (string * json)) (org_id : org_arg) (t : meta_table)
    : result string unit * meta_table :=
  match resolve_org_id org_id (cc_org cx) with
  | Err e => (Err e, t)
  | Ok org =>
      match t !! thread_id with
      | None => (Ok tt, t)
      | Some row => if foreign org row then (Ok tt, t) else (Ok tt, <[thread_id := with_metadata metadata now row]> t)
      end
  end.

Definition delete (thread_id : string) (org_id : org_arg) (t : meta_table) : result string unit * meta_table :=
  match resolve_org_id org_id (cc_org cx) with
  | Err e => (Err e, t)
  | Ok org =>
      match t !! thread_id with
      | None => (Ok tt, t)
      | Some row => if foreign org row then (Ok tt, t) else (Ok tt, base.delete thread_id t)
      end
  end.
End ops.
End Sql.

(** ** [MemoryThreadMetaStore] *)

Module Mem.
Section ops.
Context (cx : call_context) (now : Z).

Definition get_owned_record (thread_id : string) (org_id : org_arg) (t : meta_table) : result string (option meta_row) :=
  result_bind (resolve_org_id org_id (cc_org cx)) (fun org =>
    Ok (match t !! thread_id with
        | None => None
        | Some record => if foreign org record then None else Some record
        end)).

(** [aput] replaces what is stored under the key. *)
Definition create (a : create_meta) (t : meta_table) : result string meta_row * meta_table :=
  match resolve_user_id (cm_user_id a) (cc_user cx), resolve_org_id (cm_org_id a) (cc_org cx) with
  | Err e, _ | Ok _, Err e => (Err e, t)
  | Ok user_id, Ok org_id =>
      let record := mk_meta org_id (cm_assistant_id a) user_id (cm_display_name a) "idle" (cm_metadata a) now now in
      (Ok record, <[cm_thread_id a := record]> t)
  end.

Definition get := get_owned_record.

Definition check_access (thread_id user_id : string) (require_existing : bool) (org_id : org_arg) (t : meta_table)
    : result string bool :=
  result_bind (resolve_org_id org_id (cc_org cx)) (fun org =>
    Ok (match t !! thread_id with
        | None => negb require_existing
        | Some record =>
            if foreign org record then false
            else match mt_user_id record with None => true | Some u => String.eqb u user_id end
        end)).

(** The four updates: fetch the record, change a copy, put it back. *)
Definition put_back (f : meta_row -> meta_row) (thread_id : string) (org_id : org_arg) (t : meta_table)
    : result string unit * meta_table :=
  match get_owned_record thread_id org_id t with
  | Err e => (Err e, t)
  | Ok None => (Ok tt, t)
  | Ok (Some record) => (Ok tt, <[thread_id := f record]> t)
  end.

Definition update_display_name (thread_id name : string) := put_back (with_display_name name now) thread_id.
Definition update_status (thread_id status : string) := put_back (with_status status now) thread_id.
Definition update_metadata (thread_id : string) (metadata : list (string * json)) :=
  put_back (with_metadata metadata now) thread_id.
Definition update_owner (thread_id owner : string) := put_back (with_owner owner now) thread_id.

Definition delete (thread_id : string) (org_id : org_arg) (t : meta_table) : result string unit * meta_table :=
  match get_owned_record thread_id org_id t with
  | Err e => (Err e, t)
  | Ok None => (Ok tt, t)
  | Ok (Some _) => (Ok tt, base.delete thread_id t)
  end.
End ops.
End Mem.

(** ** The contract of a thread store *)

(** What clients rely on ([persistence/thread_meta/base.py]): every call answers
    and acts as the repository does on the rows, except that creating a thread
    that exists is left open. *)
Class ThreadMetaStore (T : Type) : Type := {
  tms_rows : T -> meta_table;
  tms_orgs : T -> gset string;
  tms_create : call_context -> Z -> create_meta -> T -> result string meta_row * T;
  tms_get : call_context -> string -> org_arg -> T -> result string (option meta_row);
  tms_check_access : call_context -> string -> string -> bool -> org_arg -> T -> result string bool;
  tms_update_display_name : call_context -> Z -> string -> string -> org_arg -> T -> result string unit * T;
  tms_update_status : call_context -> Z -> string -> string -> org_arg -> T -> result string unit * T;
  tms_update_metadata : call_context -> Z -> string -> list (string * json) -> org_arg -> T -> result string unit * T;
  tms_update_owner : call_context -> Z -> string -> string -> org_arg -> T -> result string unit * T;
  tms_delete : call_context -> string -> org_arg -> T -> result string unit * T;
  tms_create_law cx now a t org :
    tms_rows t !! cm_thread_id a = None -> resolve_org_id (cm_org_id a) (cc_org cx) = Ok (Some org) -> org ∈ tms_orgs t ->
    let '(r, t') := tms_create cx now a t in (r, tms_rows t') = Sql.create (tms_orgs t) cx now a (tms_rows t);
  tms_get_law cx id o t : tms_get cx id o t = Sql.get cx id o (tms_rows t);
  tms_check_access_law cx id u e o t : tms_check_access cx id u e o t = Sql.check_access cx id u e o (tms_rows t);
  tms_display_name_law cx now id n o t :
    let '(r, t') := tms_update_display_name cx now id n o t in (r, tms_rows t') = Sql.update_display_name cx now id n o (tms_rows t);
  tms_status_law cx now id st o t :
    let '(r, t') := tms_update_status cx now id st o t in (r, tms_rows t') = Sql.update_status cx now id st o (tms_rows t);
  tms_metadata_law cx now id md o t :
    let '(r, t') := tms_update_metadata cx now id md o t in (r, tms_rows t') = Sql.update_metadata cx now id md o (tms_rows t);
  tms_owner_law cx now id u o t :
    let '(r, t') := tms_update_owner cx now id u o t in (r, tms_rows t') = Sql.update_owner cx now id u o (tms_rows t);
  tms_delete_law cx id o t :
    let '(r, t') := tms_delete cx id o t in (r, tms_rows t') = Sql.delete cx id o (tms_rows t)
}.

(** The database: the table and the Orgs. *)
Record sql_threads : Type := mk_sql_threads { sql_rows : meta_table; sql_orgs : gset string }.

Definition on_table {A} (op : meta_table -> A * meta_table) (t : sql_threads) : A * sql_threads :=
  let '(a, rows) := op (sql_rows t) in (a, mk_sql_threads rows (sql_orgs t)).

#[global] Program Instance SqlThreadStore : ThreadMetaStore sql_threads := {
  tms_rows := sql_rows;
  tms_orgs := sql_orgs;
  tms_create cx now a t := on_table (Sql.create (sql_orgs t) cx now a) t;
  tms_get cx id o t := Sql.get cx id o (sql_rows t);
  tms_check_access cx id u e o t := Sql.check_access cx id u e o (sql_rows t);
  tms_update_display_name cx now id n o := on_table (Sql.update_display_name cx now id n o);
  tms_update_status cx now id st o := on_table (Sql.update_status cx now id st o);
  tms_update_metadata cx now id md o := on_table (Sql.update_metadata cx now id md o);
  tms_update_owner cx now id u o := on_table (Sql.update_owner cx now id u o);
  tms_delete cx id o := on_table (Sql.delete cx id o)
}.
Next Obligation. intros. unfold on_table. by destruct (Sql.create _ _ _ _ _). Qed.
Next Obligation. done. Qed.
Next Obligation. done. Qed.
Next Obligation. intros. unfold on_table. by destruct (Sql.update_display_name _ _ _ _ _ _). Qed.
Next Obligation. intros. unfold on_table. by destruct (Sql.update_status _ _ _ _ _ _). Qed.
Next Obligation. intros. unfold on_table. by destruct (Sql.update_metadata _ _ _ _ _ _). Qed.
Next Obligation. intros. unfold on_table. by destruct (Sql.update_owner _ _ _ _ _ _). Qed.
Next Obligation. intros. unfold on_table. by destruct (Sql.delete _ _ _ _). Qed.

(** The in-memory store; it knows no Orgs and refuses none. *)
Record mem_threads : Type := mk_mem_threads { mem_rows : meta_table; mem_orgs : gset string }.

Definition on_memory {A} (op : meta_table -> A * meta_table) (t : mem_threads) : A * mem_threads :=
  let '(a, rows) := op (mem_rows t) in (a, mk_mem_threads rows (mem_orgs t)).

Lemma put_back_update cx f id o t : Mem.put_back cx f id o t = Sql.update_row cx f id o t.
Proof.
  unfold Mem.put_back, Mem.get_owned_record, Sql.update_row, Sql.check_ownership.
  destruct (resolve_org_id o (cc_org cx)) as [org|e]; simpl; [|done]. destruct (t !! id) as [row|] eqn:Hr; [|done].
  destruct (foreign org row); simpl; [done|]. f_equal. apply map_eq. intros k.
  destruct (decide (k = id)) as [->|Hne]; [by rewrite lookup_insert_eq, lookup_alter_eq, Hr|].
  by rewrite lookup_insert_ne, lookup_alter_ne.
Qed.

#[global] Program Instance MemoryThreadStore : ThreadMetaStore mem_threads := {
  tms_rows := mem_rows;
  tms_orgs := mem_orgs;
  tms_create cx now a := on_memory (Mem.create cx now a);
  tms_get cx id o t := Mem.get cx id o (mem_rows t);
  tms_check_access cx id u e o t := Mem.check_access cx id u e o (mem_rows t);
  tms_update_display_name cx now id n o := on_memory (Mem.update_display_name cx now id n o);
  tms_update_status cx now id st o := on_memory (Mem.update_status cx now id st o);
  tms_update_metadata cx now id md o := on_memory (Mem.update_metadata cx now id md o);
  tms_update_owner cx now id u o := on_memory (Mem.update_owner cx now id u o);
  tms_delete cx id o := on_memory (Mem.delete cx id o)
}.
Next Obligation.
  intros cx now a t org Hnone Horg Hin. unfold on_memory, Mem.create, Sql.create. rewrite Horg.
  destruct (resolve_user_id _ _); [|done]. simpl in *. by rewrite Hnone, bool_decide_eq_true_2.
Qed.
Next Obligation. done. Qed.
Next Obligation. done. Qed.
Next Obligation. intros. unfold on_memory, Mem.update_display_name. rewrite put_back_update. by destruct (Sql.update_row _ _ _ _ _) eqn:E. Qed.
Next Obligation. intros. unfold on_memory, Mem.update_status. rewrite put_back_update. by destruct (Sql.update_row _ _ _ _ _) eqn:E. Qed.
Next Obligation.
  intros cx now id md o t. unfold on_memory, Mem.update_metadata, Mem.put_back, Mem.get_owned_record, Sql.update_metadata.
  destruct (resolve_org_id o (cc_org cx)) as [org|e]; simpl; [|done]. destruct (mem_rows t !! id) as [row|]; [|done].
  by destruct (foreign org row).
Qed.
Next Obligation. intros. unfold on_memory, Mem.update_owner. rewrite put_back_update. by destruct (Sql.update_row _ _ _ _ _) eqn:E. Qed.
Next Obligation.
  intros cx id o t. unfold on_memory, Mem.delete, Mem.get_owned_record, Sql.delete.
  destruct (resolve_org_id o (cc_org cx)) as [org|e]; simpl; [|done]. destruct (mem_rows t !! id) as [row|]; [|done].
  by destruct (foreign org row).
Qed.

(** ** Isolation *)

(** The calls of the repository that a request of an Org makes, all with the
    Org of the context. *)
Inductive meta_op : Type :=
| OpCreate (a : create_meta)
| OpDisplayName (thread_id name : string)
| OpStatus (thread_id status : string)
| OpMetadata (thread_id : string) (metadata : list (string * json))
| OpOwner (thread_id owner : string)
| OpDelete (thread_id : string).

Definition in_own_org (a : create_meta) : create_meta :=
  mk_create_meta (cm_thread_id a) (cm_assistant_id a) (cm_user_id a) AUTO_ORG (cm_display_name a) (cm_metadata a).

Definition apply_meta_op (orgs : gset string) (cx : call_context) (now : Z) (op : meta_op) (t : meta_table) : meta_table :=
  match op with
  | OpCreate a => (Sql.create orgs cx now (in_own_org a) t).2
  | OpDisplayName id name => (Sql.update_display_name cx now id name AUTO_ORG t).2
  | OpStatus id status => (Sql.update_status cx now id status AUTO_ORG t).2
  | OpMetadata id metadata => (Sql.update_metadata cx now id metadata AUTO_ORG t).2
  | OpOwner id owner => (Sql.update_owner cx now id owner AUTO_ORG t).2
  | OpDelete id => (Sql.delete cx id AUTO_ORG t).2
  end.

(** The rows of an Org. *)
Definition org_rows (org : string) (t : meta_table) : meta_table := filter (fun p => mt_org_id p.2 = Some org) t.

Definition same_org_rows (org : string) (t t' : meta_table) : Prop := org_rows org t = org_rows org t'.

Lemma org_rows_lookup org t id row : org_rows org t !! id = Some row <-> t !! id = Some row /\ mt_org_id row = Some org.
Proof. apply map_lookup_filter_Some. Qed.

Lemma foreign_false org row : foreign (Some org) row = false <-> mt_org_id row = Some org.
Proof. unfold foreign. rewrite negb_false_iff. apply bool_decide_eq_true. Qed.

(** A change of one row of another Org. *)
Lemma org_rows_change org t id (old new : option meta_row) :
  t !! id = old -> (forall r, old = Some r -> mt_org_id r <> Some org) -> (forall r, new = Some r -> mt_org_id r <> Some org) ->
  org_rows org (partial_alter (fun _ => new) id t) = org_rows org t.
Proof.
  intros Hold H1 H2. apply map_eq. intros k. apply option_eq. intros row. rewrite !org_rows_lookup.
  destruct (decide (k = id)) as [->|Hne]; [|by rewrite lookup_partial_alter_ne].
  rewrite lookup_partial_alter_eq, Hold. split; intros [Hr Horg]; exfalso; [by eapply H2|by eapply H1].
Qed.

Lemma sql_update_isolated cx f id t org other :
  (forall r, mt_org_id (f r) = mt_org_id r) -> cc_org cx = Some other -> other <> org ->
  org_rows org (Sql.update_row cx f id AUTO_ORG t).2 = org_rows org t.
Proof.
  intros Hf Hc Hne. unfold Sql.update_row, Sql.check_ownership. rewrite Hc. simpl.
  destruct (t !! id) as [row|] eqn:Hr; [|done]. destruct (foreign (Some other) row) eqn:Ef; [done|].
  apply foreign_false in Ef. simpl. unfold alter, map_alter.
  transitivity (org_rows org (partial_alter (fun _ => Some (f row)) id t)).
  - f_equal. apply partial_alter_ext. intros x Hx. rewrite Hr in Hx. by subst x.
  - apply (org_rows_change _ _ _ (Some row)); [done|intros r [= <-]; congruence|]. intros r [= <-]. rewrite Hf. congruence.
Qed.

Lemma apply_meta_op_isolated orgs cx now op t org other :
  cc_org cx = Some other -> other <> org -> org_rows org (apply_meta_op orgs cx now op t) = org_rows org t.
Proof.
  intros Hc Hne. destruct op as [a|id name|id st|id md|id owner|id]; cbn [apply_meta_op];
    [|by eapply (sql_update_isolated _ _ _ _ _ other)..| |by eapply (sql_update_isolated _ _ _ _ _ other)|].
  - unfold Sql.create, in_own_org. simpl. rewrite Hc. destruct (resolve_user_id _ _); [|done].
    destruct (t !! cm_thread_id a) eqn:Hr; [done|]. case_bool_decide; [|done]. simpl.
    apply (org_rows_change _ _ _ None); [done|done|]. intros r [= <-]. simpl. congruence.
  - unfold Sql.update_metadata. rewrite Hc. simpl. destruct (t !! id) as [row|] eqn:Hr; [|done].
    destruct (foreign (Some other) row) eqn:Ef; [done|]. apply foreign_false in Ef. simpl.
    apply (org_rows_change _ _ _ (Some row)); [done|intros r [= <-]; congruence|]. intros r [= <-]. simpl. congruence.
  - unfold Sql.delete. rewrite Hc. simpl. destruct (t !! id) as [row|] eqn:Hr; [|done].
    destruct (foreign (Some other) row) eqn:Ef; [done|]. apply foreign_false in Ef. simpl.
    apply (org_rows_change _ _ _ (Some row)); [done|intros r [= <-]; congruence|done].
Qed.

(** Reads. *)
Lemma get_org_rows cx id t org : cc_org cx = Some org -> Sql.get cx id AUTO_ORG t = Ok (org_rows org t !! id).
Proof.
  intros Hc. unfold Sql.get. rewrite Hc. simpl. f_equal. destruct (t !! id) as [row|] eqn:Hr.
  - destruct (foreign (Some org) row) eqn:Ef.
    + symmetry. apply eq_None_not_Some. intros [r [Hr' Ho]%org_rows_lookup]. apply foreign_false in Ho. congruence.
    + symmetry. apply org_rows_lookup. by rewrite <-foreign_false.
  - symmetry. apply eq_None_not_Some. intros [r [Hr' _]%org_rows_lookup]. congruence.
Qed.

Lemma meta_order_total x y : Sql.newest_first x y = true \/ Sql.newest_first y x = true.
Proof.
  unfold Sql.newest_first. rewrite (Z.eqb_sym (mt_updated_at x.2)).
  destruct (Z.eqb_spec (mt_updated_at y.2) (mt_updated_at x.2)).
  - destruct (String.leb_total y.1 x.1); auto.
  - destruct (Z.ltb_spec (mt_updated_at y.2) (mt_updated_at x.2)); [auto|]. right. apply Z.ltb_lt. lia.
Qed.

Lemma meta_order_trans x y z : Sql.newest_first x y = true -> Sql.newest_first y z = true -> Sql.newest_first x z = true.
Proof.
  unfold Sql.newest_first.
  destruct (Z.eqb_spec (mt_updated_at y.2) (mt_updated_at x.2)), (Z.eqb_spec (mt_updated_at z.2) (mt_updated_at y.2)),
    (Z.eqb_spec (mt_updated_at z.2) (mt_updated_at x.2)); rewrite ?Z.ltb_lt; intros; try lia.
  by eapply string_leb_trans.
Qed.

(** Rows with the same key and instant are one row of the table. *)
Lemma meta_order_antisym (t : meta_table) x y :
  x ∈ map_to_list t -> y ∈ map_to_list t -> Sql.newest_first x y = true -> Sql.newest_first y x = true -> x = y.
Proof.
  destruct x as [kx rx], y as [ky ry]. rewrite !elem_of_map_to_list. intros Hx Hy. unfold Sql.newest_first. simpl.
  rewrite (Z.eqb_sym (mt_updated_at rx)).
  destruct (Z.eqb_spec (mt_updated_at ry) (mt_updated_at rx)); rewrite ?Z.ltb_lt; intros; [|lia].
  assert (ky = kx) as -> by (by apply String.leb_antisym). congruence.
Qed.

(** The sorted rows that satisfy [f] are those of any table with the same such
    rows. *)
Lemma sorted_rows_eq (f : string * meta_row -> bool) t t' :
  (forall p, f p = true -> p ∈ map_to_list t <-> p ∈ map_to_list t') ->
  sort_by Sql.newest_first (List.filter f (map_to_list t)) = sort_by Sql.newest_first (List.filter f (map_to_list t')).
Proof.
  intros Hsame. assert (Hin : forall t0 p, p ∈ List.filter f (map_to_list t0) <-> p ∈ map_to_list t0 /\ f p = true).
  { intros t0 p. rewrite !list_elem_of_In. apply filter_In. }
  apply (StronglySorted_unique_strong (fun x y => Sql.newest_first x y = true)).
  - intros x y. rewrite !sort_by_elem, !Hin. intros [Hx Fx] [Hy Fy]. apply Hsame in Hy; [|done]. by eapply meta_order_antisym.
  - apply sort_by_sorted; [apply meta_order_total|apply meta_order_trans].
  - apply sort_by_sorted; [apply meta_order_total|apply meta_order_trans].
  - rewrite !sort_by_perm. apply NoDup_Permutation.
    + apply NoDup_ListNoDup, List.NoDup_filter, NoDup_ListNoDup, NoDup_map_to_list.
    + apply NoDup_ListNoDup, List.NoDup_filter, NoDup_ListNoDup, NoDup_map_to_list.
    + intros p. rewrite !Hin. naive_solver.
Qed.

Lemma search_org_rows cx metadata status limit offset t t' org :
  cc_org cx = Some org -> same_org_rows org t t' ->
  Sql.search cx metadata status limit offset AUTO_ORG t = Sql.search cx metadata status limit offset AUTO_ORG t'.
Proof.
  intros Hc Hsame. unfold Sql.search. rewrite Hc. simpl. destruct (applied_filters metadata) as [filters|]; [|done].
  do 3 f_equal. apply sorted_rows_eq. intros [id row] [[Hf _]%andb_true_iff _]%andb_true_iff.
  apply negb_true_iff in Hf. apply foreign_false in Hf. simpl in Hf. rewrite !elem_of_map_to_list.
  pose proof (org_rows_lookup org t id row) as H1. pose proof (org_rows_lookup org t' id row) as H2.
  unfold same_org_rows in Hsame. rewrite Hsame in H1. naive_solver.
Qed.

(** Threads are isolated by Org.  Whatever the callers of other Orgs do through
    the repository, the rows of an Org stay as they are; and what its callers
    read, search and, for existing threads, are given access to depends on
    these rows alone. *)
Theorem org_threads_isolated orgs org (calls : list (call_context * Z * meta_op)) cx (t : meta_table) :
  Forall (fun c => exists other, cc_org c.1.1 = Some other /\ other <> org) calls -> cc_org cx = Some org ->
  let t' := foldl (fun t c => apply_meta_op orgs c.1.1 c.1.2 c.2 t) t calls in
  same_org_rows org t' t
  /\ (forall id, Sql.get cx id AUTO_ORG t' = Sql.get cx id AUTO_ORG t)
  /\ (forall metadata status limit offset,
        Sql.search cx metadata status limit offset AUTO_ORG t' = Sql.search cx metadata status limit offset AUTO_ORG t)
  /\ (forall id user, Sql.check_access cx id user true AUTO_ORG t' = Sql.check_access cx id user true AUTO_ORG t).
Proof.
  intros Hcalls Hc. assert (Hrows : same_org_rows org (foldl (fun t c => apply_meta_op orgs c.1.1 c.1.2 c.2 t) t calls) t).
  { unfold same_org_rows. revert t. induction Hcalls as [|[[cx' now] op] calls (other & Ho & Hne) _ IH]; intros t; [done|].
    simpl. rewrite IH. by eapply apply_meta_op_isolated. }
  intros t'. fold t' in Hrows. split; [done|]. split; [|split].
  - intros id. rewrite !(get_org_rows _ _ _ org) by done. by rewrite Hrows.
  - intros. by eapply search_org_rows.
  - intros id user. assert (Hacc : forall t0, Sql.check_access cx id user true AUTO_ORG t0
      = Ok (match org_rows org t0 !! id with Some row => match mt_user_id row with None => true | Some u => String.eqb u user end | None => false end)).
    { intros t0. unfold Sql.check_access. rewrite Hc. simpl. pose proof (get_org_rows cx id t0 org Hc) as Hg.
      unfold Sql.get in Hg. rewrite Hc in Hg. simpl in Hg. injection Hg as Hg. rewrite <-Hg.
      destruct (t0 !! id) as [row|]; [|done]. by destruct (foreign (Some org) row). }
    by rewrite !Hacc, Hrows.
Qed.

(** ** Examples *)

Definition demo_cx (user org : string) : call_context := mk_context (Some user) (Some org).
Definition demo_new (id : string) : create_meta := mk_create_meta id None AUTO_USER AUTO_ORG None [("env", JStr "prod")].
Definition demo_orgs : gset string := {["acme"; "beta"]}.
Definition demo_table : meta_table :=
  (Sql.create demo_orgs (demo_cx "u1" "acme") 10 (demo_new "t1") ∅).2.

Lemma org_threads_isolated_witness :
  let t' := foldl (fun t c => apply_meta_op demo_orgs c.1.1 c.1.2 c.2 t) demo_table
              [(demo_cx "u2" "beta", 20, OpCreate (demo_new "t2")); (demo_cx "u2" "beta", 30, OpOwner "t1" "u2");
               (demo_cx "u2" "beta", 40, OpDelete "t1")] in
  same_org_rows "acme" t' demo_table
  /\ Sql.search (demo_cx "u1" "acme") [("env", JStr "prod")] None 10 0 AUTO_ORG t'
     = Sql.search (demo_cx "u1" "acme") [("env", JStr "prod")] None 10 0 AUTO_ORG demo_table.
Proof.
  destruct (org_threads_isolated demo_orgs "acme"
    [(demo_cx "u2" "beta", 20, OpCreate (demo_new "t2")); (demo_cx "u2" "beta", 30, OpOwner "t1" "u2");
     (demo_cx "u2" "beta", 40, OpDelete "t1")] (demo_cx "u1" "acme") demo_table) as (H1 & _ & H3 & _).
  - repeat constructor; exists "beta"; split; (reflexivity || discriminate).
  - reflexivity.
  - split; [exact H1|apply H3].
Defined.

(** The in-memory store's [create] replaces the thread of another Org. *)
Example memory_create_replaces :
  mt_org_id <$> ((Mem.create (demo_cx "u2" "beta") 20 (demo_new "t1") demo_table).2 !! "t1") = Some (Some "beta")
  /\ (Sql.create demo_orgs (demo_cx "u2" "beta") 20 (demo_new "t1") demo_table).1 = Err "IntegrityError".
Proof. vm_compute. split; reflexivity. Qed.

(** Without [require_existing] an id of another Org is told from an unused one. *)
Example access_tells_foreign_ids :
  Sql.check_access (demo_cx "u2" "beta") "t1" "u2" false AUTO_ORG demo_table = Ok false
  /\ Sql.check_access (demo_cx "u2" "beta") "t9" "u2" false AUTO_ORG demo_table = Ok true.
Proof. vm_compute. split; reflexivity. Qed.
