(* ===== verification/Sse.v ===== *)
(** * Streaming a run to a client

    The consumers of the event bridge in [app/gateway/services.py]:
    [sse_consumer], which turns the entries of a run's stream into SSE frames
    and checks the caller's permission again before each business event, and
    [wait_for_run_completion].  They run as coroutines beside the worker, the
    requests that change permissions and everything else. *)
From S2P Require Import Prelude PyString PyList PyAsync Transitions RunStore Retry StoreApi.
From S2P Require Import Ownership RunManager Authorize EventStore StreamBridge.
Local Open Scope string_scope.
Local Open Scope Z_scope.
Local Open Scope list_scope.
Local Open Scope coro_scope.

(** ** Frames *)

Inductive frame : Type :=
| Heartbeat
| SseFrame (event : string) (data : json) (event_id : option string).

Definition line_feed : string := String (Ascii.ascii_of_nat 10) "".

(** [format_sse]: the text of a frame; [dumps] is [json.dumps] with the options
    of the call. *)
Definition format_sse (dumps : json -> string) (event : string) (data : json) (event_id : option string) : string :=
  let parts := ["event: " +:+ event; "data: " +:+ dumps data]
               ++ (if truthy event_id then ["id: " +:+ opt_or event_id ""] else [])
               ++ [""; ""] in
  String.concat line_feed parts.

Definition frame_text (dumps : json -> string) (f : frame) : string :=
  match f with
  | Heartbeat => ": heartbeat" +:+ line_feed +:+ line_feed
  | SseFrame event data event_id => format_sse dumps event data event_id
  end.

(** [entry.id or None]. *)
Definition id_or_none (id : string) : option string := if String.eqb id "" then None else Some id.

Definition business_frame (e : stream_event) : frame := SseFrame (se_event e) (se_data e) (id_or_none (se_id e)).
Definition end_frame : frame := SseFrame "end" JNull (id_or_none (se_id END_SENTINEL)).
Definition revoked_frame : frame := SseFrame "revoked" (JObj [("reason", JStr "authorization_revoked")]) None.

(** ** The world of a consumer *)

(** How a re-validation ended: the service decided, or it failed and the stream
    stays open. *)
Inductive verdict : Type :=
| Decided (r : result authorize_error unit)
| Errored.

(** What the consumer did, in order: the re-validations, with the clock and the
    tables the service read, and the frames it yielded. *)
Inductive act : Type :=
| Checked (ck : clock) (db : iam_db) (v : verdict)
| Yielded (f : frame).

Record stream_world (S C : Type) : Type := mk_stream_world {
  sw_manager : run_manager S;
  sw_bridge : bridge;
  sw_cache : C;
  sw_db : iam_db;
  sw_clock : clock;
  sw_disconnected : bool;
  sw_acts : list act
}.
Arguments mk_stream_world {S C} _ _ _ _ _ _ _.
Arguments sw_manager {S C} _.
Arguments sw_bridge {S C} _.
Arguments sw_cache {S C} _.
Arguments sw_db {S C} _.
Arguments sw_clock {S C} _.
Arguments sw_disconnected {S C} _.
Arguments sw_acts {S C} _.

Definition _SSE_REVALIDATE_INTERVAL : Z := 60000000.

Section consumers.
Context {S C : Type} {SA : RunStoreApi S} {PC : PermissionCache C}.
Context (ttl_seconds : Z) (record : run_record).
Local Notation world := (stream_world S C).
Local Notation coro := (coro world).

Definition sw_set_manager m (w : world) : world :=
  mk_stream_world m (sw_bridge w) (sw_cache w) (sw_db w) (sw_clock w) (sw_disconnected w) (sw_acts w).
Definition sw_set_bridge b (w : world) : world :=
  mk_stream_world (sw_manager w) b (sw_cache w) (sw_db w) (sw_clock w) (sw_disconnected w) (sw_acts w).
Definition sw_note c (x : act) (w : world) : world :=
  mk_stream_world (sw_manager w) (sw_bridge w) c (sw_db w) (sw_clock w) (sw_disconnected w) (sw_acts w ++ [x]).

(** The record object the consumer holds: the registered one, or the copy read
    from the store. *)
Definition record_now (w : world) : run_record := opt_or (dict_get (rec_run_id record) (rm_runs (sw_manager w))) record.

(** [_build_sse_revalidation_context]. *)
Definition build_sse_revalidation_context : option tenant_context :=
  match rec_user_id record, rec_org_id record with
  | Some u, Some o =>
      if String.eqb u "" || String.eqb o "" then None
      else Some (mk_tenant o (mk_principal "user" u (Some u)) "session" None)
  | _, _ => None
  end.

(** [_sse_revalidate]. *)
Definition sse_revalidate (t : tenant_context) : coro bool :=
  try_exception
    (await (fun w =>
       let '(r, c) := authorize ttl_seconds t (permission_value RUNTIME_RUN_READ) None true (sw_clock w) (sw_db w) (sw_cache w) in
       (Ok (match r with Ok _ => true | Err _ => false end), sw_note c (Checked (sw_clock w) (sw_db w) (Decided r)) w)))
    (fun _ _ => modify (fun w => sw_note (sw_cache w) (Checked (sw_clock w) (sw_db w) Errored) w) ;; ret true).

(** [yield]: the frame goes out, then the generator is suspended; it may be
    closed there. *)
Definition yield_frame (f : frame) : coro unit :=
  modify (fun w => sw_note (sw_cache w) (Yielded f) w) ;;
  await_sure id.

(** The next entry of the subscription; a wait that runs out gives a heartbeat. *)
Definition next_entry (s : subscriber) : coro (stream_event * subscriber) :=
  await_call (fun w =>
    let '(e, s') := turn true (sw_bridge w) s in (Ok (opt_or e HEARTBEAT_SENTINEL, s'), w)).

Definition is_disconnected : coro bool := await_call (fun w => (Ok (sw_disconnected w), w)).

Definition start_subscription (last_event_id : option string) : coro subscriber := fun w s =>
  let '(sub, b) := subscribe (rec_run_id record) last_event_id (sw_bridge w) in
  (Ok sub, sw_set_bridge b w, s).

Definition is_heartbeat (e : stream_event) : bool := String.eqb (se_id e) "" && String.eqb (se_event e) "__heartbeat__".
Definition is_end (e : stream_event) : bool := String.eqb (se_id e) "" && String.eqb (se_event e) "__end__".

(** The re-validation of one entry: [None] when access was withdrawn, else the
    instant of the last re-validation. *)
Definition revalidate_entry (t : option tenant_context) (e : stream_event) (last_revalidate : Z) : coro (option Z) :=
  match t with
  | Some t =>
      if is_end e then ret (Some last_revalidate)
      else
        do! now := gets (fun w => ck_monotonic (sw_clock w)) in
        if negb (is_heartbeat e) || (_SSE_REVALIDATE_INTERVAL <=? now - last_revalidate) then
          do! ok := sse_revalidate t in
          do! now := gets (fun w => ck_monotonic (sw_clock w)) in
          ret (if ok then Some now else None)
        else ret (Some last_revalidate)
  | None => ret (Some last_revalidate)
  end.

(** The loop, on a connection the server closes after [n] entries if it lasts
    that long. *)
Fixpoint sse_loop (n : nat) (t : option tenant_context) (last_revalidate : Z) (sub : subscriber) : coro unit :=
  match n with
  | O => throw Cancelled
  | Datatypes.S n' =>
      do! (entry, sub') := next_entry sub in
      do! gone := is_disconnected in
      if gone then ret tt
      else
        do! valid := revalidate_entry t entry last_revalidate in
        match valid with
        | None => yield_frame revoked_frame
        | Some last_revalidate' =>
            if is_heartbeat entry then yield_frame Heartbeat ;; sse_loop n' t last_revalidate' sub'
            else if is_end entry then yield_frame end_frame
            else yield_frame (business_frame entry) ;; sse_loop n' t last_revalidate' sub'
        end
  end.

Definition cancels_on_disconnect (r : run_record) : bool :=
  match rec_on_disconnect r with DM_cancel => true | _ => false end.

(** The end of both consumers: cancel the run the client no longer waits for. *)
Definition cancel_on_disconnect : coro unit :=
  do! r := gets record_now in
  if rec_inflight r && cancels_on_disconnect r then
    await_call (fun w =>
      let '(res, m) := cancel (rec_run_id record) "interrupt" (ck_utc (sw_clock w)) (sw_manager w) in
      (match res with Ok _ => Ok tt | Err _ => Err (Raised "Exception" "") end, sw_set_manager m w))
  else ret tt.

Definition sse_frames (n : nat) (last_event_id : option string) : coro unit :=
  do! now := gets (fun w => ck_monotonic (sw_clock w)) in
  do! sub := start_subscription last_event_id in
  sse_loop n build_sse_revalidation_context now sub.

(** [sse_consumer]. *)
Definition sse_consumer (n : nat) (last_event_id : option string) : coro unit :=
  try_finally (sse_frames n last_event_id) cancel_on_disconnect.

(** [wait_for_run_completion]: whether the end was observed. *)
Fixpoint wait_loop (n : nat) (sub : subscriber) : coro bool :=
  match n with
  | O => throw Cancelled
  | Datatypes.S n' =>
      do! (entry, sub') := next_entry sub in
      if is_end entry then ret true
      else
        do! gone := is_disconnected in
        if gone then ret false else wait_loop n' sub'
  end.

Definition wait_entries (n : nat) : coro bool :=
  do! sub := start_subscription None in wait_loop n sub.

Definition wait_for_run_completion (n : nat) : coro bool := fun w s =>
  match wait_entries n w s with
  | (Ok true, w', s') => (Ok true, w', s')
  | (r, w', s') =>
      match cancel_on_disconnect w' s' with
      | (Ok _, w'', s'') => (r, w'', s'')
      | (Err e, w'', s'') => (Err e, w'', s'')
      end
  end.
End consumers.
