(* ===== verification/SseProps.v ===== *)
(** * What the consumers of a stream promise

    Every business event sent to a client whose run names a user follows a
    fresh decision of the Authorize Service in its favour, a withdrawn
    permission ends the stream, and the events are those of the subscription in
    order; a client that goes away cancels the run exactly when the run asks for
    that. *)
From S2P Require Import Prelude PyString PyList PyAsync Transitions RunStore Retry StoreApi.
From S2P Require Import Ownership RunManager RunManagerFacts RunManagerProps Authorize.
From S2P Require Import AuthorizeProps EventStore StreamBridge WorkerProps Sse.
Local Open Scope string_scope.
Local Open Scope Z_scope.
Local Open Scope list_scope.
Local Open Scope coro_scope.

(** ** Sessions *)

Definition run_read : string := permission_value RUNTIME_RUN_READ.

(** A re-validation that lets the stream go on: the user was granted the
    permission by the tables the service read, or the service failed. *)
Definition passed (t : tenant_context) (x : act) : Prop :=
  match x with
  | Checked ck db (Decided (Ok _)) =>
      iam_wf db -> exists u, pr_user_id (tc_principal t) = Some u /\ granted db (ck_utc ck) (mk_subject (tc_org_id t) "user" u) run_read
  | Checked _ _ Errored => True
  | _ => False
  end.

Definition refused (x : act) : Prop := exists ck db e, x = Checked ck db (Decided (Err e)).

(** What stands right before a business event. *)
Definition cleared (t : option tenant_context) (c : list act) : Prop :=
  match t with Some t => exists x, c = [x] /\ passed t x | None => c = [] end.

(** The acts of a connection and the business events it sent. *)
Inductive session (t : option tenant_context) : list act -> list stream_event -> Prop :=
| session_cut : session t [] []
| session_cut_checked ck db v : session t [Checked ck db v] []
| session_heartbeat c l es :
    c = [] \/ cleared t c -> session t l es -> session t (c ++ Yielded Heartbeat :: l) es
| session_event c e l es :
    cleared t c -> session t l es -> session t (c ++ Yielded (business_frame e) :: l) (e :: es)
| session_revoked x : refused x -> session t [x; Yielded revoked_frame] []
| session_end : session t [Yielded end_frame] [].

Section sse.
Context {S C : Type} {SA : RunStoreApi S} {PC : PermissionCache C}.
Context (ttl_seconds : Z) (record : run_record).
Local Notation world := (stream_world S C).

(** Other tasks use the bridge through its operations; they do anything to the
    manager, the tables, the cache and the client. *)
Definition attentive (m : moment world) : Prop :=
  forall w, (exists ops, sw_bridge (mo_others m w) = apply_bridge_ops ops (sw_bridge w)) /\ sw_acts (mo_others m w) = sw_acts w.

(** *** The subscription *)

Lemma sub_ops_star ops b log s got :
  exists log', star sub_step (b, log, s, got) (apply_bridge_ops ops b, log', s, got).
Proof.
  revert b log. induction ops as [|op ops IH]; intros b log; [eexists; apply star_refl|].
  destruct (IH (apply_bridge_op op b) (log ++ appended (sb_stream s) op b)) as [log' H].
  exists log'. eapply star_step; [apply sub_other|exact H].
Qed.

(** What a turn that may time out gives. *)
Lemma turn_entry first b log s got e s' :
  sub_inv first (b, log, s, got) -> turn true b s = (e, s') ->
  exists x, e = Some x
  /\ ((x = END_SENTINEL /\ received (e, s') = []) \/ (x = HEARTBEAT_SENTINEL /\ received (e, s') = [] /\ sb_done s' = sb_done s)
      \/ (String.eqb (se_id x) "" = false /\ (received (e, s')).*2 = [x] /\ sb_done s' = sb_done s)).
Proof.
  intros ((logs & Hb & Hl & Hlt) & _) Ht. rewrite (turn_spec logs) in Ht by done. rewrite Hl in Ht.
  destruct (log !! _) as [x|] eqn:Ex.
  - injection Ht as <- <-. exists x. split; [done|]. right; right.
    destruct (bo_ids _ _ Hb (sb_stream s) (sb_next_offset s `max` (length log - br_maxsize b))%nat x) as [ts Hid]; [by rewrite Hl|].
    assert (Hne : String.eqb (se_id x) "" = false) by (rewrite Hid; apply event_id_nonempty).
    simpl. rewrite Hne. done.
  - destruct (st_ended _); injection Ht as <- <-; eexists; (split; [done|]); [by left|by right; left].
Qed.

(** The acts so far, and a subscription that has yielded [got]. *)
Definition reading (c0 : sub_config) (acts : list act) (sub : subscriber) (got : list (nat * stream_event)) (w : world) : Prop :=
  sw_acts w = acts /\ exists log, star sub_step c0 (sw_bridge w, log, sub, got).

Lemma reading_stable c0 acts sub got : stable attentive (reading c0 acts sub got).
Proof.
  intros m w Hm [Ha [log Hst]]. destruct (Hm w) as [[ops Hb] Hacts]. split; [by rewrite Hacts|]. rewrite Hb.
  destruct (sub_ops_star ops (sw_bridge w) log sub got) as [log' H]. exists log'. by eapply star_trans.
Qed.

(** *** The steps of the loop *)

(** A call that leaves the bridge and the acts alone. *)
Lemma await_reading {A} c0 acts sub got (op : world -> result raised A * world) :
  (forall w, sw_bridge (op w).2 = sw_bridge w /\ sw_acts (op w).2 = sw_acts w) ->
  triple attentive (reading c0 acts sub got) (await_call op) (fun _ w => reading c0 acts sub got w).
Proof.
  intros Hop. assert (Hk : forall w, reading c0 acts sub got w -> reading c0 acts sub got (op w).2).
  { intros w [Ha Hl]. destruct (Hop w) as [Hb Hacts]. split; [by rewrite Hacts|by rewrite Hb]. }
  apply triple_await_call; [apply reading_stable| |].
  - intros w Hw. specialize (Hk w Hw). by destruct (op w).
  - intros m w _. right. intros Hw. auto.
Qed.

Lemma yield_reading c0 acts sub got f :
  triple attentive (reading c0 acts sub got) (yield_frame f) (fun _ w => reading c0 (acts ++ [Yielded f]) sub got w).
Proof.
  apply (triple_bind _ _ _ _ _ (fun _ => reading c0 (acts ++ [Yielded f]) sub got)).
  - apply triple_modify. intros w [Ha Hl]. split; [simpl; by rewrite Ha|done].
  - intros _. by apply await_reading.
Qed.

Lemma granted_passed t u ck db (c : C) :
  tc_principal t = mk_principal "user" u (Some u) ->
  (authorize ttl_seconds t run_read None true ck db c).1 = Ok tt ->
  iam_wf db -> granted db (ck_utc ck) (mk_subject (tc_org_id t) "user" u) run_read.
Proof.
  intros Hp Hok Hwf. destruct (authorize_allowed _ _ _ _ _ _ _ _ Hok) as (x & ps & Hx & Hin & _ & [Hps|[? _]]); [|done].
  assert (x = mk_subject (tc_org_id t) "user" u) as -> by (unfold subject_of in Hx; rewrite Hp in Hx; simpl in Hx; by injection Hx as <-).
  eapply subject_permissions_granted; [done|by eapply subject_of_type|done|done].
Qed.

(** The subject of a re-validation is a user. *)
Definition names_user (t : tenant_context) : Prop := exists u, tc_principal t = mk_principal "user" u (Some u).

Lemma sse_revalidate_reading c0 acts sub got t :
  names_user t ->
  triple attentive (reading c0 acts sub got) (sse_revalidate ttl_seconds t)
    (fun r w => match r with
                | Ok true => exists x, passed t x /\ reading c0 (acts ++ [x]) sub got w
                | Ok false => exists x, refused x /\ reading c0 (acts ++ [x]) sub got w
                | Err _ => exists c, session (Some t) c [] /\ reading c0 (acts ++ c) sub got w
                end).
Proof.
  intros [u Hu].
  assert (Hcut : forall w, reading c0 acts sub got w -> exists c, session (Some t) c [] /\ reading c0 (acts ++ c) sub got w).
  { intros w Hw. exists []. split; [apply session_cut|by rewrite app_nil_r]. }
  assert (Hnote : forall w c x, reading c0 acts sub got w -> reading c0 (acts ++ [x]) sub got (sw_note c x w)).
  { intros w c x [Ha Hl]. split; [simpl; by rewrite Ha|done]. }
  apply (triple_try_exception _ _ _ _ _ (reading c0 acts sub got)).
  - apply triple_await; [apply reading_stable| |by auto|].
    + intros w Hw. destruct (authorize _ _ _ _ _ _ _ _) as [r c] eqn:Ea. destruct r as [[]|e].
      * eexists. split; [|by apply Hnote]. intros Hwf. exists u. rewrite Hu. split; [done|].
        eapply granted_passed; [done| |done]. unfold run_read. by rewrite Ea.
      * eexists. split; [|by apply Hnote]. by do 3 eexists.
    + intros m w _. right. intros Hw. split; [auto|]. destruct (authorize _ _ _ _ _ _ _ _) as [r c]. simpl.
      eexists. split; [apply session_cut_checked|by apply Hnote].
  - intros n txt. apply (triple_bind _ _ _ _ _ (fun _ w => exists x, passed t x /\ reading c0 (acts ++ [x]) sub got w)).
    + apply triple_modify. intros w Hw. eexists. split; [|by apply Hnote]. done.
    + intros _. eapply triple_weaken; [apply triple_ret|intros w Hw; exact Hw|]. by intros r w [-> Hw].
Qed.

(** What a re-validated entry is preceded by. *)
Definition entry_cleared (t : option tenant_context) (e : stream_event) (c : list act) : Prop :=
  if is_end e then c = [] else cleared t c \/ (c = [] /\ is_heartbeat e = true).

Definition validated c0 acts sub got (t : option tenant_context) (e : stream_event) (r : result raised (option Z)) (w : world) : Prop :=
  match r with
  | Ok (Some _) => exists c, entry_cleared t e c /\ reading c0 (acts ++ c) sub got w
  | Ok None => exists x, refused x /\ reading c0 (acts ++ [x]) sub got w
  | Err _ => exists c, session t c [] /\ reading c0 (acts ++ c) sub got w
  end.

Lemma revalidate_entry_reading c0 acts sub got t e last :
  (forall t', t = Some t' -> names_user t') ->
  triple attentive (reading c0 acts sub got) (revalidate_entry ttl_seconds t e last) (validated c0 acts sub got t e).
Proof.
  intros Ht.
  assert (Hret : forall x, entry_cleared t e [] ->
    triple attentive (reading c0 acts sub got) (ret (Some x)) (validated c0 acts sub got t e)).
  { intros x Hc. eapply triple_weaken; [apply triple_ret|intros w Hw; exact Hw|]. intros r w [-> Hw].
    exists []. split; [done|by rewrite app_nil_r]. }
  unfold revalidate_entry. unfold validated, entry_cleared in *. destruct t as [t|].
  2: { apply Hret. destruct (is_end e); [done|by left]. }
  destruct (is_end e) eqn:Ee; [by apply Hret|].
  apply triple_gets. intros now. eapply triple_weaken; [|intros w Hw; exact (proj1 Hw)|intros ? ? Hq; exact Hq].
  destruct (negb (is_heartbeat e) || _) eqn:Ec.
  - eapply (triple_bind _ _ _ _ _ (fun ok w => if ok : bool then exists x, passed t x /\ reading c0 (acts ++ [x]) sub got w
      else exists x, refused x /\ reading c0 (acts ++ [x]) sub got w)).
    + eapply triple_weaken; [apply sse_revalidate_reading; by apply Ht|done|]. by intros [[]|err] w.
    + intros ok w s Hw Hs. destruct ok; [|by split]. destruct Hw as (x & Hx & Hw). split; [|done].
      exists [x]. split; [|done]. left. by exists x.
  - apply Hret. right. apply orb_false_iff in Ec as [Eh _]. by apply negb_false_iff in Eh.
Qed.

(** *** The loop *)

(** Where a connection ended: its acts from here on, the business events among
    them, and a subscription that read these events, perhaps one more. *)
Definition streamed (c0 : sub_config) (acts : list act) (got : list (nat * stream_event)) (t : option tenant_context) (w : world) : Prop :=
  exists acts' es b log sub got' rest,
    sw_acts w = acts ++ acts' /\ session t acts' es
    /\ star sub_step c0 (b, log, sub, got') /\ got'.*2 = got.*2 ++ es ++ rest.

Lemma streamed_stop c0 acts acts' got t sub got' rest w :
  session t acts' [] -> reading c0 (acts ++ acts') sub got' w -> got'.*2 = got.*2 ++ rest -> streamed c0 acts got t w.
Proof.
  intros Hs [Ha [log Hst]] Hg. exists acts', [], (sw_bridge w), log, sub, got', rest. done.
Qed.

Lemma streamed_heartbeat c0 acts c got t w :
  c = [] \/ cleared t c -> streamed c0 ((acts ++ c) ++ [Yielded Heartbeat]) got t w -> streamed c0 acts got t w.
Proof.
  intros Hc (acts' & es & b & log & sub & got' & rest & Ha & Hs & Hst & Hg).
  exists (c ++ Yielded Heartbeat :: acts'), es, b, log, sub, got', rest. split; [|split; [by apply session_heartbeat|done]].
  rewrite Ha, <-!app_assoc. done.
Qed.

Lemma streamed_event c0 acts c e got got1 t w :
  cleared t c -> got1.*2 = got.*2 ++ [e] ->
  streamed c0 ((acts ++ c) ++ [Yielded (business_frame e)]) got1 t w -> streamed c0 acts got t w.
Proof.
  intros Hc Hg1 (acts' & es & b & log & sub & got' & rest & Ha & Hs & Hst & Hg).
  exists (c ++ Yielded (business_frame e) :: acts'), (e :: es), b, log, sub, got', rest.
  split; [rewrite Ha, <-!app_assoc; done|]. split; [by apply session_event|]. split; [done|].
  rewrite Hg, Hg1, <-app_assoc. done.
Qed.

(** What the entry read is, and what the subscription has yielded then. *)
Definition entry_read (c0 : sub_config) (acts : list act) (got : list (nat * stream_event)) (p : stream_event * subscriber) (w : world) : Prop :=
  exists got1, reading c0 acts p.2 got1 w
  /\ ((is_end p.1 = true /\ is_heartbeat p.1 = false /\ got1 = got)
      \/ (is_end p.1 = false /\ is_heartbeat p.1 = true /\ got1 = got /\ sb_done p.2 = false)
      \/ (is_end p.1 = false /\ is_heartbeat p.1 = false /\ got1.*2 = got.*2 ++ [p.1] /\ sb_done p.2 = false)).

Context (first : nat) (c0 : sub_config) (Hinv : sub_inv first c0).

Lemma next_entry_reading acts sub got :
  sb_done sub = false ->
  triple attentive (reading c0 acts sub got) (next_entry sub)
    (fun r w => match r with Ok p => entry_read c0 acts got p w | Err _ => reading c0 acts sub got w end).
Proof using Hinv.
  intros Hd. apply triple_await_call; [apply reading_stable| |].
  - intros w [Ha [log Hst]]. pose proof (sub_star_inv _ _ _ Hinv Hst) as Hi.
    destruct (turn true (sw_bridge w) sub) as [e sub'] eqn:Et.
    destruct (turn_entry _ _ _ _ _ _ _ Hi Et) as (x & -> & Hx). simpl.
    exists (got ++ received (Some x, sub')). split.
    { split; [done|]. exists log. eapply star_trans; [exact Hst|]. eapply star_step; [|apply star_refl].
      rewrite <-Et. replace sub' with (turn true (sw_bridge w) sub).2 at 1 by (by rewrite Et). by apply sub_turn. }
    destruct Hx as [[-> Hr]|[(-> & Hr & Hd')|(Hid & Hr & Hd')]].
    + left. rewrite Hr, app_nil_r. done.
    + right; left. cbn [fst snd]. rewrite Hr, app_nil_r, Hd', Hd. done.
    + right; right. unfold is_end, is_heartbeat. cbn [fst snd]. rewrite Hid, fmap_app, Hr, Hd', Hd. done.
  - intros m w _. right. intros Hw. split; [done|]. by destruct (turn _ _ _).
Qed.

Lemma sse_loop_streamed n t last sub got acts :
  (forall t', t = Some t' -> names_user t') -> sb_done sub = false ->
  triple attentive (reading c0 acts sub got) (sse_loop ttl_seconds n t last sub) (fun _ w => streamed c0 acts got t w).
Proof using Hinv.
  intros Ht. revert last sub got acts. induction n as [|n IH]; intros last sub got acts Hd; cbn [sse_loop].
  { eapply triple_weaken; [apply triple_throw|intros w Hw; exact Hw|]. intros r w [_ Hw].
    eapply (streamed_stop _ _ [] _ _ _ _ []); [apply session_cut|by rewrite app_nil_r|by rewrite app_nil_r]. }
  apply (triple_bind _ _ _ _ _ (entry_read c0 acts got)).
  { eapply triple_weaken; [by apply next_entry_reading|done|]. intros [p|err] w Hw; [done|].
    eapply (streamed_stop _ _ [] _ _ _ _ []); [apply session_cut|by rewrite app_nil_r|by rewrite app_nil_r]. }
  intros [e sub'] w s (got1 & Hw & Hcase) Hs. revert w s Hw Hs.
  assert (Hrest : exists rest, got1.*2 = got.*2 ++ rest).
  { destruct Hcase as [(_ & _ & ->)|[(_ & _ & -> & _)|(_ & _ & Hg & _)]]; [by exists []; rewrite app_nil_r..|by eexists]. }
  destruct Hrest as [rest Hrest].
  assert (Hstop : forall acts' w, session t acts' [] -> reading c0 (acts ++ acts') sub' got1 w -> streamed c0 acts got t w).
  { intros acts' w Hse Hw. by eapply streamed_stop. }
  match goal with |- context [bind is_disconnected ?k] =>
    change (triple attentive (reading c0 acts sub' got1) (bind is_disconnected k) (fun _ w => streamed c0 acts got t w)) end.
  apply (triple_bind _ _ _ _ _ (fun _ => reading c0 acts sub' got1)).
  { eapply triple_weaken; [by apply (await_reading c0 acts sub' got1)|done|]. intros [gone|err] w Hw; [done|].
    apply (Hstop []); [apply session_cut|by rewrite app_nil_r]. }
  intros gone. destruct gone.
  { eapply triple_weaken; [apply triple_ret|intros w Hw; exact Hw|]. intros r w [_ Hw].
    apply (Hstop []); [apply session_cut|by rewrite app_nil_r]. }
  apply (triple_bind _ _ _ _ _ (fun v w => validated c0 acts sub' got1 t e (Ok v) w)).
  { eapply triple_weaken; [by apply revalidate_entry_reading|done|]. intros [v|err] w Hw; [done|].
    destruct Hw as (c & Hc & Hw). by apply (Hstop c). }
  intros [last'|] w s Hv Hs.
  - destruct Hv as (c & Hc & Hw). revert w s Hw Hs.
    destruct (is_heartbeat e) eqn:Eh; [|destruct (is_end e) eqn:Ee].
    + destruct Hcase as [(_ & ? & _)|[(Ee & _ & -> & Hd')|(_ & ? & _)]]; [simpl in *; congruence| |simpl in *; congruence].
      unfold entry_cleared in Hc. simpl in Ee. rewrite Ee in Hc.
      assert (Hc' : c = [] \/ cleared t c) by (destruct Hc as [?|[? _]]; [by right|by left]).
      apply (triple_bind _ _ _ _ _ (fun _ => reading c0 ((acts ++ c) ++ [Yielded Heartbeat]) sub' got)).
      * eapply triple_weaken; [apply yield_reading|intros w Hw; exact Hw|]. intros [[]|err] w Hw; [done|].
        eapply streamed_heartbeat; [done|]. eapply (streamed_stop _ _ [] _ _ _ _ []); [apply session_cut|by rewrite app_nil_r|by rewrite app_nil_r].
      * intros _. eapply triple_weaken; [apply IH; exact Hd'|intros w Hw; exact Hw|]. intros r w Hw. by eapply streamed_heartbeat.
    + destruct Hcase as [(_ & _ & ->)|[(? & _)|(? & _)]]; [|simpl in *; congruence..].
      unfold entry_cleared in Hc. rewrite Ee in Hc. subst c. rewrite app_nil_r.
      eapply triple_weaken; [apply yield_reading|intros w Hw; exact Hw|]. intros r w Hw.
      apply (Hstop [Yielded end_frame]); [apply session_end|done].
    + destruct Hcase as [(? & _)|[(_ & ? & _)|(_ & _ & Hg & Hd')]]; [simpl in *; congruence..|].
      unfold entry_cleared in Hc. rewrite Ee, Eh in Hc.
      assert (Hc' : cleared t c) by (by destruct Hc as [?|[_ ?]]).
      apply (triple_bind _ _ _ _ _ (fun _ => reading c0 ((acts ++ c) ++ [Yielded (business_frame e)]) sub' got1)).
      * eapply triple_weaken; [apply yield_reading|intros w Hw; exact Hw|]. intros [[]|err] w Hw; [done|].
        eapply streamed_event; [done|exact Hg|].
        eapply (streamed_stop _ _ [] _ _ _ _ []); [apply session_cut|by rewrite app_nil_r|by rewrite app_nil_r].
      * intros _. eapply triple_weaken; [apply IH; exact Hd'|intros w Hw; exact Hw|]. intros r w Hw. by eapply streamed_event.
  - destruct Hv as (x & Hx & Hw). revert w s Hw Hs.
    change (triple attentive (reading c0 (acts ++ [x]) sub' got1) (yield_frame revoked_frame) (fun _ w => streamed c0 acts got t w)).
    eapply triple_weaken; [apply yield_reading|intros w Hw; exact Hw|]. intros r w Hw.
    apply (Hstop [x; Yielded revoked_frame]); [by apply session_revoked|]. by rewrite <-app_assoc in Hw.
Qed.
End sse.

Section theorems.
Context {S C : Type} {SA : RunStoreApi S} {PC : PermissionCache C}.
Context (ttl_seconds : Z) (record : run_record).
Local Notation world := (stream_world S C).
Local Notation subject := (build_sse_revalidation_context record).

Lemma subject_names_user t' : subject = Some t' -> names_user t'.
Proof.
  unfold build_sse_revalidation_context. destruct (rec_user_id record) as [u|], (rec_org_id record) as [o|]; try done.
  destruct (_ || _); [done|]. intros [= <-]. by exists u.
Qed.

(** The clean-up keeps the acts. *)
Lemma cancel_on_disconnect_acts l :
  triple attentive (fun w : world => sw_acts w = l) (cancel_on_disconnect record) (fun _ w => sw_acts w = l).
Proof.
  apply triple_gets. intros rc. eapply triple_weaken; [|intros w Hw; exact (proj1 Hw)|intros ? ? Hq; exact Hq].
  destruct (_ && _); [|by intros w s Hw Hs]. apply triple_await_call.
  - intros m w Hm Hw. by destruct (Hm w) as [_ ->].
  - intros w Hw. by destruct (cancel _ _ _ _).
  - intros m w _. right. intros Hw. split; [done|]. by destruct (cancel _ _ _ _).
Qed.

(** (C25) The events of a stream reach the client only while the user may read the
    run.  Whatever other requests do to the permissions, the runs and the
    stream, and wherever the connection breaks: if the run names a user and an
    Org, each business event is sent right after a re-validation, by which the
    tables granted this user the reading of runs or the service failed; a
    refusal is followed by the [revoked] frame and nothing else; and the events
    sent are those the subscription read, in its order. *)
Theorem sse_events_authorized n last_event_id maxsize ops (w : world) s r w' s' :
  sw_bridge w = apply_bridge_ops ops (new_bridge maxsize) -> Forall attentive s ->
  sse_consumer ttl_seconds record n last_event_id w s = (r, w', s') ->
  exists acts es s0 b1 b log sub got rest,
    sw_acts w' = sw_acts w ++ acts /\ session subject acts es
    /\ subscribe (rec_run_id record) last_event_id (sw_bridge w) = (s0, b1)
    /\ star sub_step (b1, stream_log (sb_stream s0) ops (new_bridge maxsize), s0, []) (b, log, sub, got)
    /\ got.*2 = es ++ rest.
Proof.
  intros Hb Hs Hrun. destruct (subscribe (rec_run_id record) last_event_id (sw_bridge w)) as [s0 b1] eqn:Hsub.
  rewrite Hb in Hsub. destruct (subscribe_inv _ _ _ _ _ _ Hsub) as (Hinv & Hd & _).
  set (c0 := (b1, stream_log (sb_stream s0) ops (new_bridge maxsize), s0, []) : sub_config) in *.
  set (w1 := sw_set_bridge b1 w).
  assert (Hread : reading c0 (sw_acts w) s0 [] w1) by (split; [done|]; eexists; apply star_refl).
  pose proof (sse_loop_streamed ttl_seconds _ c0 Hinv n subject (ck_monotonic (sw_clock w)) s0 [] (sw_acts w)
    subject_names_user Hd w1 s Hread Hs) as Hloop.
  unfold sse_consumer, try_finally, sse_frames, bind, gets, start_subscription in Hrun. rewrite Hb, Hsub in Hrun. fold w1 in Hrun.
  destruct (sse_loop _ _ _ _ _ w1 s) as [[r2 w2] s2]. destruct Hloop as [Hst Hs2].
  pose proof (cancel_on_disconnect_acts (sw_acts w2) w2 s2 eq_refl Hs2) as Hacts.
  assert (sw_acts w' = sw_acts w2) as ->.
  { destruct (cancel_on_disconnect record w2 s2) as [[[[]|e] w3] s3]; by injection Hrun as _ <- _; destruct Hacts. }
  destruct Hst as (acts & es & b & log & sub & got & rest & Ha & Hse & Hstar & Hg).
  by exists acts, es, s0, b1, b, log, sub, got, rest.
Qed.

(** ** Disconnects *)

(** Other tasks keep the runs registered. *)
Definition obliging (m : moment world) : Prop :=
  forall w, mgr_wf (sw_manager w) -> star mgr_live_step (sw_manager w) (sw_manager (mo_others m w)).

Definition kept (w : world) : Prop := registered_run (rec_run_id record) (sw_manager w).

Lemma kept_stable : stable obliging kept.
Proof. intros m w Hm [Hwf Hr]. eapply good_registered; [apply live_steps_good, Hm, Hwf|by split]. Qed.

Lemma await_kept {A} (op : world -> result raised A * world) :
  (forall w, sw_manager (op w).2 = sw_manager w) -> triple obliging kept (await_call op) (fun _ w => kept w).
Proof.
  intros Hop. assert (Hk : forall w, kept w -> kept (op w).2) by (intros w Hw; unfold kept; by rewrite Hop).
  apply triple_await_call; [apply kept_stable| |].
  - intros w Hw. specialize (Hk w Hw). by destruct (op w).
  - intros m w _. right. intros Hw. auto.
Qed.

Lemma kept_bind {A B} (m : coro world A) (k : A -> coro world B) :
  triple obliging kept m (fun _ w => kept w) -> (forall a, triple obliging kept (k a) (fun _ w => kept w)) ->
  triple obliging kept (bind m k) (fun _ w => kept w).
Proof.
  intros Hm Hk. apply (triple_bind _ _ _ _ _ (fun _ => kept)); [|done].
  eapply triple_weaken; [exact Hm|done|]. by intros [a|e] w.
Qed.

Lemma kept_ret {A} (x : A) : triple obliging kept (ret x) (fun _ w => kept w).
Proof. by intros w s Hw Hs. Qed.

Lemma kept_throw {A} e : triple obliging kept (throw (A := A) e) (fun _ w => kept w).
Proof. by intros w s Hw Hs. Qed.

Lemma kept_gets {A} (f : world -> A) : triple obliging kept (gets f) (fun _ w => kept w).
Proof. by intros w s Hw Hs. Qed.

Lemma next_entry_kept sub : triple obliging kept (next_entry sub) (fun _ w => kept w).
Proof. apply await_kept. intros w. by destruct (turn _ _ _). Qed.

Lemma is_disconnected_kept : triple obliging kept is_disconnected (fun _ w => kept w).
Proof. by apply await_kept. Qed.

Lemma yield_kept f : triple obliging kept (yield_frame f) (fun _ w => kept w).
Proof. apply kept_bind; [by apply triple_modify|intros _; by apply await_kept]. Qed.

Lemma start_subscription_kept l : triple obliging kept (start_subscription record l) (fun _ w => kept w).
Proof. intros w s Hw Hs. unfold start_subscription. by destruct (subscribe _ _ _). Qed.

Lemma revalidate_entry_kept t e last : triple obliging kept (revalidate_entry ttl_seconds t e last) (fun _ w => kept w).
Proof.
  unfold revalidate_entry. destruct t as [t|]; [|apply kept_ret]. destruct (is_end e); [apply kept_ret|].
  apply kept_bind; [apply kept_gets|intros now]. destruct (_ || _); [|apply kept_ret].
  apply kept_bind; [|intros ok; apply kept_bind; [apply kept_gets|intros ?; apply kept_ret]].
  apply (triple_try_exception _ _ _ _ _ kept).
  - apply triple_await; [apply kept_stable| |done|].
    + intros w Hw. by destruct (authorize _ _ _ _ _ _ _ _) as [[[]|] c].
    + intros m w _. right. intros Hw. split; [done|]. by destruct (authorize _ _ _ _ _ _ _ _) as [[[]|] c].
  - intros n txt. apply kept_bind; [by apply triple_modify|intros _; apply kept_ret].
Qed.

Lemma sse_loop_kept n t last sub : triple obliging kept (sse_loop ttl_seconds n t last sub) (fun _ w => kept w).
Proof.
  revert last sub. induction n as [|n IH]; intros last sub; cbn [sse_loop]; [apply kept_throw|].
  apply kept_bind; [apply next_entry_kept|intros [e sub']]. apply kept_bind; [apply is_disconnected_kept|intros []]; [apply kept_ret|].
  apply kept_bind; [apply revalidate_entry_kept|intros [last'|]]; [|apply yield_kept].
  destruct (is_heartbeat e); [|destruct (is_end e); [apply yield_kept|]]; (apply kept_bind; [apply yield_kept|done]).
Qed.

Lemma wait_loop_kept n sub : triple obliging kept (wait_loop n sub) (fun _ w => kept w).
Proof.
  revert sub. induction n as [|n IH]; intros sub; cbn [wait_loop]; [apply kept_throw|].
  apply kept_bind; [apply next_entry_kept|intros [e sub']]. destruct (is_end e); [apply kept_ret|].
  apply kept_bind; [apply is_disconnected_kept|intros []]; [apply kept_ret|done].
Qed.

(** What the clean-up does when it is not disturbed itself. *)
Definition after_disconnect (w w' : world) : Prop :=
  if rec_inflight (record_now record w) && cancels_on_disconnect (record_now record w)
  then finished_run (rec_run_id record) (sw_manager w')
  else sw_manager w' = sw_manager w.

Lemma cancel_on_disconnect_settles w s r w' s' :
  kept w -> Forall obliging s -> Forall undisturbed s -> cancel_on_disconnect record w s = (r, w', s') ->
  r = Ok tt /\ after_disconnect w w'.
Proof.
  intros Hk Hs Hu. unfold cancel_on_disconnect, after_disconnect, bind, gets. destruct (_ && _); [|by intros [= <- <- _]].
  set (op := fun w : world => _). intros Hc.
  assert (Hop : forall w, kept w -> (op w).1 = Ok tt /\ finished_run (rec_run_id record) (sw_manager (op w).2)).
  { intros w1 [Hwf [rc Hrc]]. unfold op. destruct (cancel _ _ _ _) as [res m] eqn:Ec.
    destruct (cancel_once _ _ "" _ 0 _ _ _ _ Hwf Hrc Ec) as (-> & Hsame & Hint & _). split; [done|]. simpl.
    destruct (cancel_good _ _ _ _ _ _ Ec Hwf) as [Hwf' _]. split; [done|].
    destruct (rec_inflight rc) eqn:Ei.
    - destruct (Hint eq_refl) as (r' & Hr' & Hst & _). exists r'. split; [done|]. unfold rec_inflight. by rewrite Hst.
    - rewrite (Hsame eq_refl). by exists rc. }
  assert (Hend : forall w1 r1 w2, kept w1 -> op w1 = (r1, w2) -> r1 = Ok tt /\ finished_run (rec_run_id record) (sw_manager w2)).
  { intros w1 r1 w2 Hk1 Eo. specialize (Hop w1 Hk1). by rewrite Eo in Hop. }
  unfold await_call in Hc. destruct s as [|m s].
  - destruct (op w) as [r1 w1] eqn:Eo. injection Hc as <- <- _. by eapply Hend.
  - apply Forall_cons in Hs as [Hm _]. apply Forall_cons in Hu as [Hum _].
    pose proof (kept_stable m w Hm Hk) as Hk1. unfold undisturbed in Hum.
    destruct (mo_fate m); [..|done]; (destruct (op (mo_others m w)) as [r1 w1] eqn:Eo; injection Hc as <- <- _; by eapply Hend).
Qed.

(** A client that goes away cancels its run exactly when the run asks for it.
    However the streaming of a registered run ends (the end of the stream, a
    disconnect, a revocation, a failure or a cancellation), if the clean-up is
    not cancelled itself: when the run is still active and its mode is
    [cancel], it is over afterwards; otherwise the manager is left alone.  The
    same holds of a client that waits for the run, except that one that has
    seen the end changes nothing. *)
Theorem disconnect_cancels n last_event_id (w : world) s :
  mgr_wf (sw_manager w) -> is_Some (dict_get (rec_run_id record) (rm_runs (sw_manager w))) -> Forall obliging s ->
  (forall r1 w1 s1 r w' s',
     sse_frames ttl_seconds record n last_event_id w s = (r1, w1, s1) -> Forall undisturbed s1 ->
     sse_consumer ttl_seconds record n last_event_id w s = (r, w', s') -> r = r1 /\ after_disconnect w1 w')
  /\ (forall r1 w1 s1 r w' s',
     wait_entries record n w s = (r1, w1, s1) -> Forall undisturbed s1 ->
     wait_for_run_completion record n w s = (r, w', s') ->
     r = r1 /\ match r1 with Ok true => w' = w1 | _ => after_disconnect w1 w' end).
Proof.
  intros Hwf Hreg Hs. assert (Hk : kept w) by (by split). split.
  - intros r1 w1 s1 r w' s' Hf Hu Hc.
    assert (Ht : triple obliging kept (sse_frames ttl_seconds record n last_event_id) (fun _ w => kept w)).
    { apply kept_bind; [apply kept_gets|intros now]. apply kept_bind; [apply start_subscription_kept|intros sub; apply sse_loop_kept]. }
    specialize (Ht w s Hk Hs). rewrite Hf in Ht. destruct Ht as [Hk1 Hs1].
    unfold sse_consumer, try_finally in Hc. rewrite Hf in Hc.
    destruct (cancel_on_disconnect record w1 s1) as [[r2 w2] s2] eqn:Ec.
    destruct (cancel_on_disconnect_settles _ _ _ _ _ Hk1 Hs1 Hu Ec) as [-> Ha]. by injection Hc as <- <- _.
  - intros r1 w1 s1 r w' s' Hf Hu Hc.
    assert (Ht : triple obliging kept (wait_entries record n) (fun _ w => kept w)).
    { apply kept_bind; [apply start_subscription_kept|intros sub; apply wait_loop_kept]. }
    specialize (Ht w s Hk Hs). rewrite Hf in Ht. destruct Ht as [Hk1 Hs1].
    unfold wait_for_run_completion in Hc. rewrite Hf in Hc.
    destruct (cancel_on_disconnect record w1 s1) as [[r2 w2] s2] eqn:Ec.
    destruct (cancel_on_disconnect_settles _ _ _ _ _ Hk1 Hs1 Hu Ec) as [-> Ha].
    destruct r1 as [[]|e]; by injection Hc as <- <- _.
Qed.
End theorems.
