(* ===== verification/Services.v ===== *)
(** * Starting runs

    [app/gateway/services.py]: the configuration a run is started with and
    [start_run], from the request to the dispatched run: the model allowlist,
    the access check on the thread, the release pin, the creation of the run,
    the upsert of the thread record, the input and the dispatch; with
    [internal_auth.py] and [runtime/runs/dispatch.py], which hands the call to
    the worker.  [start_run] is one step: what other requests do at its awaits
    is not modelled. *)
From S2P Require Import Prelude PyString PyPath Paths Transitions RunStore Retry StoreApi Ownership.
From S2P Require Import RunManager Release Resolver Authorize EventStoreDb ThreadMeta Journal.
From S2P Require Import StreamBridge Serialization Worker.
From stdpp Require Import gmap pretty.
From Stdlib Require Import Ascii.
Local Open Scope string_scope.
Local Open Scope Z_scope.
Local Open Scope list_scope.

(** ** Requests *)

(** JSON as the values of a configuration. *)
Fixpoint cval_of_json (j : json) : cval :=
  match j with
  | JObj d => CDict ((fun p => (p.1, cval_of_json p.2)) <$> d)
  | JArr l => CList (cval_of_json <$> l)
  | _ => CVal j
  end.

Definition cdict (d : list (string * json)) : list (string * cval) := (fun p => (p.1, cval_of_json p.2)) <$> d.

(** [RunCreateRequest], the fields that are read. *)
Record run_body : Type := mk_body {
  bd_assistant_id : option string;
  bd_input : option (list (string * json));
  bd_command : option (list (string * json));
  bd_metadata : option (list (string * json));
  bd_config : option (list (string * json));
  bd_context : option (list (string * json));
  bd_stream_mode : json;
  bd_stream_subgraphs : bool;
  bd_on_disconnect : string;
  bd_multitask_strategy : string
}.

(** How a handler fails: an [HTTPException], or an exception nobody catches. *)
Inductive api_error : Type :=
| Http (status_code : Z) (detail : string)
| Uncaught (name : string).

(** ** Input and configuration *)

(** [normalize_stream_modes]: the body has [None], a string or a list. *)
Definition normalize_stream_modes (raw : json) : list string :=
  match raw with
  | JNull => ["values"]
  | JStr s => [s]
  | JArr [] => ["values"]
  | JArr l => omap (fun j => match j with JStr s => Some s | _ => None end) l
  | _ => ["values"]
  end.

Fixpoint pyval_of_json (j : json) : pyval :=
  match j with
  | JNull => VNone
  | JBool b => VBool b
  | JNum z => VNum z
  | JStr s => VStr s
  | JIso t => VNum t
  | JArr l => VList (pyval_of_json <$> l)
  | JObj d => VDict ((fun p => (p.1, pyval_of_json p.2)) <$> d)
  end.

Section input.
(** [langchain_core.messages.utils.convert_to_messages] on one message. *)
Context (convert_to_messages : list (string * json) -> result string (list pyval)).

Fixpoint convert_all (index : nat) (messages : list json) : result api_error (list pyval) :=
  match messages with
  | [] => Ok []
  | JObj msg :: rest =>
      match convert_to_messages msg with
      | Err exc => Err (Http 400 ("Invalid message at input.messages[" +:+ pretty index +:+ "]: " +:+ exc))
      | Ok l => result_bind (convert_all (S index) rest) (fun rest' => Ok (l ++ rest'))
      end
  | msg :: rest => result_bind (convert_all (S index) rest) (fun rest' => Ok (pyval_of_json msg :: rest'))
  end.

(** [normalize_input]. *)
Definition normalize_input (raw_input : option (list (string * json))) : result api_error (list (string * pyval)) :=
  match raw_input with
  | None => Ok []
  | Some d =>
      let plain := (fun p => (p.1, pyval_of_json p.2)) <$> d in
      match dict_get "messages" d with
      | Some (JArr ((_ :: _) as messages)) =>
          result_bind (convert_all 0 messages) (fun converted => Ok (dict_set "messages" (VList converted) plain))
      | _ => Ok plain
      end
  end.

Definition _DEFAULT_ASSISTANT_ID : string := "lead_agent".

(** [dict.update(v)]; [None] when it raises. *)
Definition update_items (v : json) : option (list (string * json)) :=
  match v with
  | JObj d => Some d
  | JStr "" => Some []
  | JArr l => foldr (fun x acc => match x, acc with JArr [JStr k; y], Some r => Some ((k, y) :: r) | _, _ => None end) (Some []) l
  | _ => None
  end.

Fixpoint agent_charset (s : string) : bool :=
  match s with
  | "" => true
  | String c s' => (is_alnum c || Ascii.eqb c "-"%char) && agent_charset s'
  end.

Definition underscore : ascii := "_"%char.
Definition hyphen : ascii := "-"%char.

Definition normalize_assistant_id (assistant_id : string) : string :=
  replace_char underscore hyphen (lower (strip assistant_id)).

(** [for k, v in request_config.items(): if k not in (...): config[k] = v]. *)
Definition copy_other_keys (rc : list (string * json)) (config : list (string * cval)) : list (string * cval) :=
  foldl (fun d p => if String.eqb p.1 "configurable" || String.eqb p.1 "context" then d
                    else dict_set p.1 (cval_of_json p.2) d) config rc.

(** The two containers: the client's context with the thread, or else the
    client's [configurable] over the thread; then the other keys. *)
Definition base_config (thread_id : string) (request_config : option (list (string * json)))
    : result api_error (list (string * cval)) :=
  let config := [("recursion_limit", CVal (JNum 100))] in
  match request_config with
  | Some ((_ :: _) as rc) =>
      match dict_get "context" rc with
      | Some v =>
          match dict_get "configurable" rc with
          | Some (JObj _) | None =>
              let with_thread d := Ok (copy_other_keys rc (dict_set "context" (CDict (dict_set "thread_id" (CVal (JStr thread_id)) d)) config)) in
              match v with
              | JNull => with_thread []
              | JObj d => with_thread (cdict d)
              | _ => Err (Uncaught "ValueError")
              end
          | Some _ => Err (Uncaught "AttributeError")
          end
      | None =>
          match update_items (opt_or (dict_get "configurable" rc) (JObj [])) with
          | Some d => Ok (copy_other_keys rc (dict_set "configurable" (CDict (dict_update [("thread_id", CVal (JStr thread_id))] (cdict d))) config))
          | None => Err (Uncaught "TypeError")
          end
      end
  | _ => Ok (dict_set "configurable" (CDict [("thread_id", CVal (JStr thread_id))]) config)
  end.

Definition text_value (v : option cval) : option string :=
  match v with Some (CVal (JStr s)) => Some s | _ => None end.

Definition set_in (container key : string) (v : cval) (config : list (string * cval)) : list (string * cval) :=
  match dict_get container config with
  | Some (CDict d) => dict_set container (CDict (dict_set key v d)) config
  | _ => config
  end.

(** The name of a custom agent, in both containers. *)
Definition with_agent_name (assistant_id : option string) (config : list (string * cval)) : result api_error (list (string * cval)) :=
  match assistant_id with
  | Some aid =>
      if String.eqb aid "" || String.eqb aid _DEFAULT_ASSISTANT_ID then Ok config
      else
        let normalized := normalize_assistant_id aid in
        if String.eqb normalized "" || negb (agent_charset normalized) then Err (Uncaught "ValueError")
        else
          let config := setdefault "context" (CDict []) (setdefault "configurable" (CDict []) config) in
          let explicit := match text_value (dict_get "agent_name" (as_dict (dict_get "configurable" config))) with
                          | Some s => Some s
                          | None => text_value (dict_get "agent_name" (as_dict (dict_get "context" config)))
                          end in
          let name := CVal (JStr (or_text explicit normalized)) in
          let config := set_in "context" "agent_name" name (set_in "configurable" "agent_name" name config) in
          Ok (setdefault "run_name" (CVal (JStr (resolve_root_run_name config (Some normalized)))) config)
  | None => Ok config
  end.

Definition with_run_metadata (metadata : option (list (string * json))) (config : list (string * cval))
    : result api_error (list (string * cval)) :=
  match metadata with
  | Some ((_ :: _) as md) =>
      match opt_or (dict_get "metadata" config) (CDict []) with
      | CDict d => Ok (dict_set "metadata" (CDict (dict_update d (cdict md))) config)
      | _ => Err (Uncaught "AttributeError")
      end
  | _ => Ok config
  end.

(** [build_run_config]. *)
Definition build_run_config (thread_id : string) (request_config metadata : option (list (string * json)))
    (assistant_id : option string) : result api_error (list (string * cval)) :=
  result_bind (base_config thread_id request_config) (fun config =>
  result_bind (with_agent_name assistant_id config) (with_run_metadata metadata)).

Definition _CONTEXT_CONFIGURABLE_KEYS : list string :=
  ["model_name"; "mode"; "thinking_enabled"; "reasoning_effort"; "is_plan_mode"; "subagent_enabled";
   "max_concurrent_subagents"; "agent_name"; "is_bootstrap"].

Definition default_in (container key : string) (v : cval) (config : list (string * cval)) : list (string * cval) :=
  match dict_get container config with
  | Some (CDict d) => dict_set container (CDict (setdefault key v d)) config
  | _ => config
  end.

(** [merge_run_context_overrides]. *)
Definition merge_run_context_overrides (config : list (string * cval)) (context : option (list (string * json)))
    : list (string * cval) :=
  match context with
  | Some ((_ :: _) as ctx) =>
      let config := setdefault "context" (CDict []) (setdefault "configurable" (CDict []) config) in
      let config := foldl (fun c key =>
        match dict_get key ctx with
        | Some v => default_in "context" key (cval_of_json v) (default_in "configurable" key (cval_of_json v) c)
        | None => c
        end) config _CONTEXT_CONFIGURABLE_KEYS in
      match dict_get "user_id" ctx with
      | Some v => default_in "context" "user_id" (cval_of_json v) config
      | None => config
      end
  | _ => config
  end.

(** [inject_authenticated_user_context]. *)
Definition inject_authenticated_user_context (config : list (string * cval)) (r : http_request) : list (string * cval) :=
  match hr_user r with
  | Some (user_id, role) =>
      if String.eqb role INTERNAL_SYSTEM_ROLE then config
      else set_in "context" "user_id" (CVal (JStr user_id)) (setdefault "context" (CDict []) config)
  | None => config
  end.

End input.

(** ** [start_run] *)

(** [get_trusted_internal_owner_user_id]. *)
Definition trusted_owner (r : http_request) : option string :=
  if is_internal_owner_request r then Some (hr_owner_header r) else None.

(** The settings: the model allowlist, release enforcement and its channel. *)
Record run_settings : Type := mk_settings {
  rs_model_allowed : string -> bool;
  rs_enforce_release : bool;
  rs_default_channel : string;
  rs_inline_digest_check : bool;
  rs_workspace_id : option string
}.

(** [ExecRequest]: what the worker is started with. *)
Record exec_request : Type := mk_exec {
  ex_record : run_record;
  ex_graph_input : option (list (string * pyval));
  ex_resume : option json;
  ex_config : list (string * cval);
  ex_stream_modes : list string;
  ex_stream_subgraphs : bool
}.

Record service_state (S T : Type) : Type := mk_service {
  sv_manager : run_manager S;
  sv_threads : T;
  sv_releases : release_db;
  sv_dispatched : list exec_request
}.
Arguments mk_service {S T} _ _ _ _.
Arguments sv_manager {S T} _.
Arguments sv_threads {S T} _.
Arguments sv_releases {S T} _.
Arguments sv_dispatched {S T} _.

Definition release_status (code : string) : Z :=
  if String.eqb code "release_not_found" then 404
  else if String.eqb code "release_tenant_mismatch" then 403
  else 409.

Definition pin_of (ref : release_ref) : release_pin :=
  mk_release_pin (Some (ref_package_id ref)) (Some (ref_version_id ref)) (Some (ref_channel ref)) (Some (ref_digest ref)) false.

Definition pending_task : run_task := mk_task false false false.

Definition rec_set_task (r : run_record) : run_record :=
  mk_record (rec_run_id r) (rec_thread_id r) (rec_assistant_id r) (rec_status r) (rec_on_disconnect r)
    (rec_multitask_strategy r) (rec_metadata r) (rec_kwargs r) (rec_user_id r) (rec_org_id r)
    (rec_created_at r) (rec_updated_at r) (Some pending_task) (rec_abort_event r) (rec_abort_action r) (rec_error r)
    (rec_model_name r) (rec_store_only r) (rec_usage r) (rec_release r) (rec_row_version r).

Section start.
Context (convert_to_messages : list (string * json) -> result string (list pyval)) (json_str : json -> string).
Context {S T : Type} {SA : RunStoreApi S} {TA : ThreadMetaStore T}.
Context (sha256_hex : string -> string) (settings : run_settings).
Local Notation state := (service_state S T).

Definition set_sv_manager m (st : state) : state := mk_service m (sv_threads st) (sv_releases st) (sv_dispatched st).
Definition set_sv_threads t (st : state) : state := mk_service (sv_manager st) t (sv_releases st) (sv_dispatched st).

(** The context variables while the handler runs: the authenticated user, or the
    owner an internal caller names, and the Org. *)
Definition tenant_org (r : http_request) : option string := tc_org_id <$> hr_tenant r.
Definition handler_context (r : http_request) : call_context := mk_context (fst <$> hr_user r) (tenant_org r).
Definition owner_context (r : http_request) : call_context :=
  mk_context (match trusted_owner r with Some o => Some o | None => fst <$> hr_user r end) (tenant_org r).

(** The model name of the request, as text. *)
Definition requested_model (body : run_body) : option string :=
  match dict_get "model_name" (opt_or (bd_context body) []) with
  | None | Some JNull => None
  | Some (JStr s) => Some s
  | Some v => Some (json_str v)
  end.

Definition model_refused (body : run_body) : bool :=
  match requested_model body with
  | Some m => negb (String.eqb m "") && negb (rs_model_allowed settings m)
  | None => false
  end.

(** The access check on the thread of the request. *)
Definition thread_allowed (thread_id : string) (r : http_request) (t : T) : result api_error bool :=
  let check u := match tms_check_access (handler_context r) thread_id u false AUTO_ORG t with
                 | Ok b => Ok b
                 | Err e => Err (Uncaught e)
                 end in
  match hr_user r with
  | None => Ok true
  | Some (user_id, role) =>
      result_bind (check user_id) (fun allowed =>
        match trusted_owner r with
        | Some owner => if negb allowed && String.eqb role INTERNAL_SYSTEM_ROLE then check owner else Ok allowed
        | None => Ok allowed
        end)
  end.

(** The release of the run: none when enforcement is off. *)
Definition resolve_pin (body : run_body) (r : http_request) (now : Z) (db : release_db) : result api_error release_pin :=
  if negb (rs_enforce_release settings) then Ok unpinned
  else
    match resolve sha256_hex (rs_inline_digest_check settings) (tenant_org r) (rs_workspace_id settings)
            (or_text (bd_assistant_id body) _DEFAULT_ASSISTANT_ID) (rs_default_channel settings) now db with
    | Ok ref => Ok (pin_of ref)
    | Err (RRE_code code) => Err (Http (release_status code) code)
    | Err _ => Err (Uncaught "ValueError")
    end.

(** The upsert of the thread record, whose failures are logged: it stops at the
    first call that raises. *)
Definition adopt_thread (thread_id : string) (r : http_request) (now : Z) (t : T) : option (option meta_row) * T :=
  match tms_get (owner_context r) thread_id AUTO_ORG t, trusted_owner r with
  | Ok None, Some owner =>
      match tms_get (owner_context r) thread_id (ExplicitOrg None) t with
      | Err _ => (None, t)
      | Ok None => (Some None, t)
      | Ok (Some row) =>
          let '(res, t') := if bool_decide (mt_user_id row = Some owner) then (Ok tt, t)
                            else tms_update_owner (owner_context r) now thread_id owner (ExplicitOrg None) t in
          match res, tms_get (owner_context r) thread_id AUTO_ORG t' with
          | Ok _, Ok existing => (Some existing, t')
          | _, _ => (None, t')
          end
      end
  | Ok existing, _ => (Some existing, t)
  | Err _, _ => (None, t)
  end.

Definition upsert_thread (body : run_body) (thread_id : string) (r : http_request) (now : Z) (t : T) : T :=
  match adopt_thread thread_id r now t with
  | (None, t') => t'
  | (Some None, t') =>
      (tms_create (owner_context r) now
         (mk_create_meta thread_id (bd_assistant_id body) AUTO_USER (ExplicitOrg (tenant_org r)) None (opt_or (bd_metadata body) [])) t').2
  | (Some (Some _), t') => (tms_update_status (owner_context r) now thread_id "running" AUTO_ORG t').2
  end.

(** The input of the graph: a resume command, or the normalized input. *)
Definition graph_input (body : run_body) : result api_error (option (list (string * pyval)) * option json) :=
  let resume := match bd_command body with Some ((_ :: _) as c) => dict_get "resume" c | _ => None end in
  match resume with
  | Some JNull | None => result_bind (normalize_input convert_to_messages (bd_input body)) (fun i => Ok (Some i, None))
  | Some v => Ok (None, Some v)
  end.

Definition run_config (body : run_body) (thread_id : string) (r : http_request) : result api_error (list (string * cval)) :=
  result_bind (build_run_config thread_id (bd_config body) (bd_metadata body) (bd_assistant_id body)) (fun config =>
  Ok (inject_authenticated_user_context (merge_run_context_overrides config (bd_context body)) r)).

Definition body_create_args (body : run_body) (thread_id : string) (r : http_request) (pin : release_pin) : create_args :=
  let dict o := match o with Some d => JObj d | None => JNull end in
  mk_create_args thread_id (bd_assistant_id body)
    (if String.eqb (bd_on_disconnect body) "cancel" then DM_cancel else DM_continue)
    (Some (opt_or (bd_metadata body) []))
    (Some [("input", dict (bd_input body)); ("config", dict (bd_config body))])
    (bd_multitask_strategy body) (requested_model body) (trusted_owner r) (tenant_org r) pin.

(** The part after the creation: the run is registered. *)
Definition dispatch_run (body : run_body) (thread_id : string) (r : http_request) (record : run_record) (now : Z) (st : state)
    : result api_error run_record * state :=
  let st := set_sv_threads (upsert_thread body thread_id r now (sv_threads st)) st in
  match graph_input body with
  | Err e => (Err e, st)
  | Ok (input, resume) =>
      match run_config body thread_id r with
      | Err e => (Err e, st)
      | Ok config =>
          let record' := rec_set_task record in
          (Ok record', mk_service (put_record record' (sv_manager st)) (sv_threads st) (sv_releases st)
             (sv_dispatched st ++ [mk_exec record' input resume config (normalize_stream_modes (bd_stream_mode body))
                                     (bd_stream_subgraphs body)]))
      end
  end.

Definition create_error (e : mgr_error) : api_error :=
  match e with
  | ME_conflict thread_id => Http 409 ("Thread " +:+ thread_id +:+ " already has an active run")
  | ME_unsupported_strategy strategy =>
      Http 501 ("Multitask strategy '" +:+ strategy +:+ "' is not yet supported. Supported strategies: " +:+ String.concat ", " SUPPORTED_STRATEGIES)
  | _ => Uncaught "Exception"
  end.

Definition start_run (body : run_body) (thread_id run_id : string) (r : http_request) (now : Z) (st : state)
    : result api_error run_record * state :=
  if model_refused body
  then (Err (Http 400 ("Model '" +:+ opt_or (requested_model body) "" +:+ "' is not in the configured model allowlist")), st)
  else
    match thread_allowed thread_id r (sv_threads st) with
    | Err e => (Err e, st)
    | Ok false => (Err (Http 404 ("Thread " +:+ thread_id +:+ " not found")), st)
    | Ok true =>
        match resolve_pin body r now (sv_releases st) with
        | Err e => (Err e, st)
        | Ok pin =>
            match create_or_reject run_id (body_create_args body thread_id r pin) now (sv_manager st) with
            | (Err e, m) => (Err (create_error e), set_sv_manager m st)
            | (Ok record, m) => dispatch_run body thread_id r record now (set_sv_manager m st)
            end
        end
    end.
End start.
