(* ===== verification/ServicesProps.v ===== *)
(** * What starting a run promises

    A started run belongs to a thread the caller may use, names the caller's
    Org, a model of the allowlist and, under enforcement, a resolved release;
    it is the only active run of its thread and is handed to the worker once,
    with the authenticated user in its context.  A request that is refused
    before the run is created leaves nothing behind. *)
From S2P Require Import Prelude PyString PyPath Paths Transitions RunStore Retry StoreApi Ownership.
From S2P Require Import RunManager RunManagerFacts RunManagerProps Release Resolver Authorize.
From S2P Require Import EventStoreDb ThreadMeta Journal StreamBridge Serialization Worker Sse.
From S2P Require Import Services.
From stdpp Require Import gmap.
Local Open Scope string_scope.
Local Open Scope Z_scope.
Local Open Scope list_scope.

Lemma ok_inj {E A} (x y : A) : @Ok E A x = Ok y -> x = y.
Proof. by intros [= ->]. Qed.

(** ** Configurations *)

Lemma dict_get_setdefault {V} k k' (v : V) d :
  dict_get k' (setdefault k v d) = if decide (k' = k) then Some (opt_or (dict_get k d) v) else dict_get k' d.
Proof.
  unfold setdefault, dict_mem. destruct (dict_get k d) eqn:E; case_decide; subst; rewrite ?E; simpl; try done.
  - apply dict_get_set_eq.
  - by apply dict_get_set_ne.
Qed.

(** The authenticated user is what the context of the run names. *)
Lemma injected_user config r uid role :
  hr_user r = Some (uid, role) -> role <> INTERNAL_SYSTEM_ROLE ->
  (exists d, opt_or (dict_get "context" config) (CDict []) = CDict d) ->
  dict_get "user_id" (as_dict (dict_get "context" (inject_authenticated_user_context config r))) = Some (CVal (JStr uid)).
Proof.
  intros Hu Hr [d Hd]. unfold inject_authenticated_user_context. rewrite Hu.
  destruct (String.eqb_spec role INTERNAL_SYSTEM_ROLE); [done|]. unfold set_in.
  rewrite dict_get_setdefault, decide_True, Hd by done. rewrite dict_get_set_eq. simpl. apply dict_get_set_eq.
Qed.

(** [config[c][k]]. *)
Definition named (c k : string) (config : list (string * cval)) : option cval := dict_get k (as_dict (dict_get c config)).

(** The context is a dictionary, if there is one. *)
Definition context_dict (config : list (string * cval)) : Prop := exists d, opt_or (dict_get "context" config) (CDict []) = CDict d.

Lemma named_set_in c k v c' k' config : k' <> k -> named c' k' (set_in c k v config) = named c' k' config.
Proof.
  intros Hk. unfold named, set_in. destruct (dict_get c config) as [[| | | | |]|] eqn:E; try done.
  destruct (decide (c' = c)) as [->|Hc]; [|by rewrite dict_get_set_ne].
  rewrite dict_get_set_eq, E. simpl. by apply dict_get_set_ne.
Qed.

Lemma named_default_in c k v c' k' config : k' <> k -> named c' k' (default_in c k v config) = named c' k' config.
Proof.
  intros Hk. unfold named, default_in. destruct (dict_get c config) as [[| | | | |]|] eqn:E; try done.
  destruct (decide (c' = c)) as [->|Hc]; [|by rewrite dict_get_set_ne].
  rewrite dict_get_set_eq, E. simpl. by rewrite dict_get_setdefault, decide_False.
Qed.

Lemma named_setdefault_empty c c' k config : named c' k (setdefault c (CDict []) config) = named c' k config.
Proof.
  unfold named. rewrite dict_get_setdefault. case_decide as E; [subst c'|done]. by destruct (dict_get c config).
Qed.

Lemma named_setdefault_other key v c k config : c <> key -> named c k (setdefault key v config) = named c k config.
Proof. intros H. unfold named. by rewrite dict_get_setdefault, decide_False. Qed.

Lemma context_dict_set_in c k v config : context_dict config -> context_dict (set_in c k v config).
Proof.
  intros [d Hd]. unfold set_in. destruct (dict_get c config) as [[|x| | | |]|] eqn:E; try (by exists d).
  unfold context_dict. destruct (decide ("context" = c)) as [<-|Hc]; [rewrite dict_get_set_eq; by eexists|].
  rewrite dict_get_set_ne by done. by exists d.
Qed.

Lemma context_dict_default_in c k v config : context_dict config -> context_dict (default_in c k v config).
Proof.
  intros [d Hd]. unfold default_in. destruct (dict_get c config) as [[|x| | | |]|] eqn:E; try (by exists d).
  unfold context_dict. destruct (decide ("context" = c)) as [<-|Hc]; [rewrite dict_get_set_eq; by eexists|].
  rewrite dict_get_set_ne by done. by exists d.
Qed.

Lemma context_dict_setdefault key v config :
  key <> "context" \/ v = CDict [] -> context_dict config -> context_dict (setdefault key v config).
Proof.
  intros Hk [d Hd]. unfold context_dict. rewrite dict_get_setdefault. case_decide as E; [|by exists d].
  destruct Hk as [Hk|Hv]; [congruence|]. subst key v. simpl. by exists d.
Qed.

(** The other keys of the request never touch the containers. *)
Lemma other_keys_keep rc d k :
  k = "context" \/ k = "configurable" ->
  dict_get k (copy_other_keys rc d) = dict_get k d.
Proof.
  intros Hk. unfold copy_other_keys. revert d. induction rc as [|[k0 v0] rc IH]; intros d; simpl; [done|]. rewrite IH.
  destruct (String.eqb_spec k0 "configurable"), (String.eqb_spec k0 "context"); simpl; try done.
  apply dict_get_set_ne. destruct Hk; congruence.
Qed.

(** The thread of the request is the thread of the run, unless the client's
    [configurable] names one. *)
Definition client_thread (rc : option (list (string * json))) : bool :=
  match rc with
  | Some d =>
      negb (dict_mem "context" d)
      && match update_items (opt_or (dict_get "configurable" d) (JObj [])) with
         | Some c => dict_mem "thread_id" c
         | None => false
         end
  | None => false
  end.

Definition on_thread (thread_id : string) (config : list (string * cval)) : Prop :=
  named "context" "thread_id" config = Some (CVal (JStr thread_id)) \/ named "configurable" "thread_id" config = Some (CVal (JStr thread_id)).

Lemma cdict_mem k d : dict_mem k (cdict d) = dict_mem k d.
Proof.
  unfold dict_mem, cdict. induction d as [|[k0 v0] d IH]; [done|]. simpl. by case_decide.
Qed.

Lemma dict_update_get {V} k (d new : list (string * V)) : dict_mem k new = false -> dict_get k (dict_update d new) = dict_get k d.
Proof.
  unfold dict_update. revert d. induction new as [|[k0 v0] new IH]; intros d; [done|]. unfold dict_mem in *. simpl.
  case_decide as E; [done|]. intros H. rewrite IH by done. by apply dict_get_set_ne.
Qed.

Lemma base_config_spec thread_id rc config :
  base_config thread_id rc = Ok config ->
  context_dict config /\ (client_thread rc = false -> on_thread thread_id config).
Proof.
  unfold base_config, on_thread, named. destruct rc as [[|p rc]|]; try (intros [= <-]; split; [by exists []|by right]).
  set (d := p :: rc). clearbody d. destruct (dict_get "context" d) as [v|] eqn:Ec.
  - assert (Hok : forall x, (exists o, config = copy_other_keys d (dict_set "context" (CDict (dict_set "thread_id" (CVal (JStr thread_id)) x)) o)) ->
        context_dict config /\ (client_thread (Some d) = false ->
          dict_get "thread_id" (as_dict (dict_get "context" config)) = Some (CVal (JStr thread_id))
          \/ dict_get "thread_id" (as_dict (dict_get "configurable" config)) = Some (CVal (JStr thread_id)))).
    { intros x [o ->]. unfold context_dict. rewrite other_keys_keep, dict_get_set_eq by auto. split; [by eexists|]. intros _. left.
      simpl. apply dict_get_set_eq. }
    destruct (dict_get "configurable" d) as [[]|]; try done; (destruct v; [intros Hc; apply ok_inj in Hc; eapply Hok; eexists; symmetry; exact Hc
      |done|done|done|done|done|intros Hc; apply ok_inj in Hc; eapply Hok; eexists; symmetry; exact Hc]).
  - destruct (update_items _) as [items|] eqn:Eu; [|done]. intros <-%ok_inj. unfold context_dict.
    rewrite !other_keys_keep by auto. rewrite dict_get_set_ne by done. rewrite dict_get_set_eq. split; [by exists []|].
    unfold client_thread, dict_mem at 1. rewrite Ec. simpl. rewrite Eu. intros Hm. right.
    rewrite dict_update_get; [done|]. by rewrite cdict_mem.
Qed.

(** What every later step keeps. *)
Definition config_ok (thread_id : string) (client : bool) (config : list (string * cval)) : Prop :=
  context_dict config /\ (client = false -> on_thread thread_id config).

Lemma config_ok_set_in c k v th cl config : k <> "thread_id" -> config_ok th cl config -> config_ok th cl (set_in c k v config).
Proof.
  intros Hk [Hc Ht]. split; [by apply context_dict_set_in|]. intros H. unfold on_thread. rewrite !named_set_in by congruence. exact (Ht H).
Qed.

Lemma config_ok_default_in c k v th cl config : k <> "thread_id" -> config_ok th cl config -> config_ok th cl (default_in c k v config).
Proof.
  intros Hk [Hc Ht]. split; [by apply context_dict_default_in|]. intros H. unfold on_thread. rewrite !named_default_in by congruence. exact (Ht H).
Qed.

Lemma config_ok_containers th cl config :
  config_ok th cl config -> config_ok th cl (setdefault "context" (CDict []) (setdefault "configurable" (CDict []) config)).
Proof.
  intros [Hc Ht]. split; [apply context_dict_setdefault; [by right|]; apply context_dict_setdefault; [by right|done]|].
  intros H. unfold on_thread. rewrite !named_setdefault_empty. exact (Ht H).
Qed.

Lemma with_agent_name_ok aid th cl config config' :
  with_agent_name aid config = Ok config' -> config_ok th cl config -> config_ok th cl config'.
Proof.
  unfold with_agent_name. destruct aid as [aid|]; [|by intros [= <-]]. destruct (_ || _); [by intros [= <-]|].
  destruct (_ || _); [done|]. intros <-%ok_inj Hok.
  set (c1 := set_in "context" _ _ _). assert (Hc1 : config_ok th cl c1).
  { apply config_ok_set_in; [done|]. apply config_ok_set_in; [done|]. by apply config_ok_containers. }
  destruct Hc1 as [Hc Ht]. split; [apply context_dict_setdefault; [by left|done]|].
  intros H. unfold on_thread. rewrite !named_setdefault_other by done. exact (Ht H).
Qed.

Lemma with_run_metadata_ok md th cl config config' :
  with_run_metadata md config = Ok config' -> config_ok th cl config -> config_ok th cl config'.
Proof.
  unfold with_run_metadata. destruct md as [[|p md]|]; try (by intros [= <-]). destruct (opt_or _ _); try done.
  intros <-%ok_inj [[x Hx] Ht]. split.
  - exists x. by rewrite dict_get_set_ne.
  - unfold on_thread, named. rewrite !dict_get_set_ne by done. exact Ht.
Qed.

Lemma merge_ok ctx th cl config : config_ok th cl config -> config_ok th cl (merge_run_context_overrides config ctx).
Proof.
  intros Hok. unfold merge_run_context_overrides. destruct ctx as [[|p ctx]|]; try done. set (d := p :: ctx). clearbody d.
  assert (Hfold : forall keys c, config_ok th cl c -> "thread_id" ∉ keys ->
    config_ok th cl (foldl (fun c key => match dict_get key d with
      | Some v => default_in "context" key (cval_of_json v) (default_in "configurable" key (cval_of_json v) c)
      | None => c end) c keys)).
  { intros keys. induction keys as [|k keys IH]; intros c Hc Hk; [done|]. simpl.
    apply not_elem_of_cons in Hk as [Hne Hk]. apply IH; [|done]. destruct (dict_get k d); [|done].
    apply config_ok_default_in; [done|]. by apply config_ok_default_in. }
  assert (Hkeys : "thread_id" ∉ _CONTEXT_CONFIGURABLE_KEYS) by (rewrite list_elem_of_In; vm_compute; intuition discriminate).
  pose proof (Hfold _CONTEXT_CONFIGURABLE_KEYS _ (config_ok_containers _ _ _ Hok) Hkeys) as H1.
  destruct (dict_get "user_id" d); [|done]. by apply config_ok_default_in.
Qed.

(** ** Admission *)

Section start.
Context (convert_to_messages : list (string * json) -> result string (list pyval)) (json_str : json -> string).
Context {S T : Type} {SA : RunStoreApi S} {TA : ThreadMetaStore T}.
Context (sha256_hex : string -> string) (settings : run_settings).
Local Notation start_run := (start_run (S := S) (T := T) convert_to_messages json_str sha256_hex settings).
Local Notation resolve_pin := (resolve_pin sha256_hex settings).
Local Notation body_create_args := (body_create_args json_str).
Local Notation graph_input := (graph_input convert_to_messages).

(** The caller may use the thread: it is new, or of the caller's Org and the
    caller's, the named owner's or nobody's. *)
Definition may_use (thread_id : string) (r : http_request) (rows : meta_table) : Prop :=
  forall uid role row, hr_user r = Some (uid, role) -> rows !! thread_id = Some row ->
    (exists org, tenant_org r = Some org /\ mt_org_id row = Some org)
    /\ (mt_user_id row = None \/ mt_user_id row = Some uid
        \/ exists owner, trusted_owner r = Some owner /\ mt_user_id row = Some owner).

Lemma check_access_spec cx id u t rows row :
  tms_rows t = rows -> tms_check_access (T := T) cx id u false AUTO_ORG t = Ok true -> rows !! id = Some row ->
  (exists org, cc_org cx = Some org /\ mt_org_id row = Some org) /\ (mt_user_id row = None \/ mt_user_id row = Some u).
Proof.
  intros <-. rewrite tms_check_access_law. unfold Sql.check_access. destruct (cc_org cx) as [org|]; [|done]. simpl.
  intros Hok Hrow. rewrite Hrow in Hok. destruct (foreign (Some org) row) eqn:Ef; [done|]. apply foreign_false in Ef.
  split; [by exists org|]. destruct (mt_user_id row) as [o|]; [|by left]. right. injection Hok as Heq%String.eqb_eq. by subst.
Qed.

Lemma thread_allowed_spec thread_id r (t : T) :
  thread_allowed thread_id r t = Ok true -> may_use thread_id r (tms_rows t).
Proof.
  unfold thread_allowed. intros Hok uid role row Hu Hrow. rewrite Hu in Hok.
  destruct (tms_check_access _ _ uid _ _ _) as [allowed|] eqn:Ea; [|done]. simpl in Hok.
  destruct allowed.
  - destruct (check_access_spec _ _ _ _ _ _ eq_refl Ea Hrow) as [Horg [?|?]]; auto.
  - destruct (trusted_owner r) as [owner|] eqn:Eo; [|done]. simpl in Hok. destruct (String.eqb role _); [|done].
    destruct (tms_check_access _ _ owner _ _ _) as [b|] eqn:Eb; [|done]. injection Hok as ->.
    destruct (check_access_spec _ _ _ _ _ _ eq_refl Eb Hrow) as [Horg [?|?]]; split; auto. right; right. by exists owner.
Qed.

Lemma run_config_ok body thread_id r config :
  run_config body thread_id r = Ok config ->
  exists config0, config_ok thread_id (client_thread (bd_config body)) config0 /\ config = inject_authenticated_user_context config0 r.
Proof.
  unfold run_config, build_run_config. destruct (base_config _ _) as [c0|] eqn:E0; [|done]. simpl.
  destruct (with_agent_name _ _) as [c1|] eqn:E1; [|done]. simpl. destruct (with_run_metadata _ _) as [c2|] eqn:E2; [|done].
  intros <-%ok_inj. eexists. split; [|reflexivity]. apply merge_ok. eapply with_run_metadata_ok; [done|].
  eapply with_agent_name_ok; [done|]. by apply base_config_spec.
Qed.


(** (C26) A refusal leaves nothing behind, unless the input or the configuration is
    malformed.  When [start_run] raises, nothing was handed to the worker; and
    either the registry and the threads are as before, or the run had been
    created and what raised is the conversion of the input or of the
    configuration. *)
Theorem start_run_refused body thread_id run_id r now st e st' :
  mgr_wf (sv_manager st) -> dict_get run_id (rm_runs (sv_manager st)) = None ->
  start_run body thread_id run_id r now st = (Err e, st') ->
  sv_dispatched st' = sv_dispatched st
  /\ ((same_registry (sv_manager st) (sv_manager st') /\ sv_threads st' = sv_threads st)
      \/ (thread_allowed thread_id r (sv_threads st) = Ok true
          /\ (graph_input body = Err e \/ run_config body thread_id r = Err e)
          /\ exists rec, dict_get run_id (rm_runs (sv_manager st')) = Some rec /\ rec_status rec = RS_pending
               /\ thread_inflight thread_id (sv_manager st') = [rec])).
Proof.
  intros Hwf Hnew. unfold Services.start_run. destruct (model_refused _ _ _); [intros [= _ <-]; split; [done|left; split; [apply same_registry_refl|done]]|].
  destruct (thread_allowed _ _ _) as [[]|] eqn:Ea; [|intros [= _ <-]; split; [done|left; split; [apply same_registry_refl|done]]..].
  destruct (Services.resolve_pin _ _ _ _ _ _) as [pin|]; [|intros [= _ <-]; split; [done|left; split; [apply same_registry_refl|done]]].
  destruct (create_or_reject _ _ _ _) as [[rec|er] m] eqn:Ec.
  - destruct (create_or_reject_ok _ _ _ _ _ _ Hwf Hnew Ec) as (Hrec & Hget & _ & _).
    assert (Hpend : exists rec, dict_get run_id (rm_runs m) = Some rec /\ rec_status rec = RS_pending /\ thread_inflight thread_id m = [rec]).
    { exists rec. split; [done|]. split; [by rewrite Hrec|]. apply (thread_inflight_unique _ _ run_id); [by eapply create_or_reject_good|done|by rewrite Hrec|by rewrite Hrec|].
      intros k x Hk Ht Hi. exact (created_alone _ _ _ _ _ _ _ _ Hwf Hnew Ec Hk Ht Hi). }
    unfold dispatch_run. destruct (Services.graph_input _ _) as [[input resume]|e1] eqn:Eg.
    + destruct (run_config body thread_id r) as [config|e2] eqn:Er; [done|]. intros [= <- <-]. split; [done|]. right. auto.
    + intros [= <- <-]. split; [done|]. right. auto.
  - intros [= _ <-]. split; [done|]. left. split; [|done]. by eapply create_or_reject_refused.
Qed.
End start.
