(* ===== verification/ServiceExamples.v ===== *)
(** * Starting and streaming runs on a concrete system

    Requests of a user and of a channel worker on two Orgs' threads, the stream
    of a run whose reader loses the permission, and the requests behind what
    was found in the code. *)
From S2P Require Import Prelude PyString PyPath Paths PyAsync Transitions RunStore Retry StoreApi.
From S2P Require Import Ownership RunManager RunManagerFacts RunManagerProps Release Resolver.
From S2P Require Import Authorize AuthorizeProps EventStoreDb ThreadMeta Journal StreamBridge.
From S2P Require Import Serialization Worker WorkerProps Sse SseProps Services ServicesProps.
From stdpp Require Import gmap.
Local Open Scope string_scope.
Local Open Scope Z_scope.
Local Open Scope list_scope.

(** ** Starting runs *)

Definition demo_convert (d : list (string * json)) : result string (list pyval) :=
  match dict_get "role" d with Some _ => Ok [VDict []] | None => Err "Message dict must contain 'role' and 'content' keys" end.
Definition demo_settings : run_settings := mk_settings (fun m => String.eqb m "gpt") false "prod" false None.

Definition demo_body (config : option (list (string * json))) (messages : list json) : run_body :=
  mk_body None (Some [("messages", JArr messages)]) None None config (Some [("model_name", JStr "gpt"); ("user_id", JStr "forged")])
    JNull false "cancel" "reject".

Definition demo_message : json := JObj [("role", JStr "user"); ("content", JStr "hi")].

Definition demo_tenant : tenant_context := mk_tenant "acme" (mk_principal "user" "u1" (Some "u1")) "session" None.
Definition user_request : http_request := mk_http_request false (Some demo_tenant) (Some ("u1", "user")) "" (Some "t1").
Definition channel_request : http_request := mk_http_request false (Some demo_tenant) (Some ("default", "internal")) "u1" (Some "t1").

Definition demo_service : service_state run_store sql_threads :=
  mk_service demo_mgr0 (mk_sql_threads demo_table demo_orgs) db_empty [].

Definition demo_start_run (body : run_body) (run_id : string) (r : http_request) (st : service_state run_store sql_threads) :=
  start_run demo_convert (fun _ => "") (fun s => s) demo_settings body "t1" run_id r 50 st.

Definition answer_of (x : result api_error run_record * service_state run_store sql_threads) : result api_error run_record := x.1.

(** The run a user starts: the context names the authenticated user. *)
Example demo_started :
  match demo_start_run (demo_body None [demo_message]) "r1" user_request demo_service with
  | (Ok rec, st) =>
      rec_org_id rec = Some "acme"
      /\ (named "context" "user_id" ∘ ex_config <$> sv_dispatched st) = [Some (CVal (JStr "u1"))]
      /\ (mt_status <$> sql_rows (sv_threads st) !! "t1") = Some "running"
  | _ => False
  end.
Proof. vm_compute. repeat split; reflexivity. Qed.

(** A thread of another Org is not found. *)
Example demo_foreign_thread :
  (demo_start_run (demo_body None [demo_message]) "r1"
     (mk_http_request false (Some (mk_tenant "beta" (mk_principal "user" "u2" (Some "u2")) "session" None)) (Some ("u2", "user")) "" (Some "t1"))
     demo_service).1 = Err (Http 404 "Thread t1 not found").
Proof. vm_compute. reflexivity. Qed.

(** The client's [configurable] replaces the thread that was checked. *)
Example client_replaces_thread :
  match demo_start_run (demo_body (Some [("configurable", JObj [("thread_id", JStr "other")])]) [demo_message]) "r1" user_request demo_service with
  | (Ok rec, st) =>
      rec_thread_id rec = "t1" /\ (named "configurable" "thread_id" ∘ ex_config <$> sv_dispatched st) = [Some (CVal (JStr "other"))]
  | _ => False
  end.
Proof. vm_compute. repeat split; reflexivity. Qed.

(** A malformed message is refused after the run was created: the run stays
    pending and blocks its thread. *)
Example malformed_input_blocks_thread :
  match demo_start_run (demo_body None [JObj []]) "r1" user_request demo_service with
  | (Err (Http 400 _), st) =>
      (demo_start_run (demo_body None [demo_message]) "r2" user_request st).1
      = Err (Http 409 "Thread t1 already has an active run")
  | _ => False
  end.
Proof. vm_compute. reflexivity. Qed.

(** The run of an ordinary user names no user, so that its stream is never
    re-validated. *)
Example user_stream_not_revalidated :
  match demo_start_run (demo_body None [demo_message]) "r1" user_request demo_service with
  | (Ok rec, _) => build_sse_revalidation_context rec = None
  | _ => False
  end.
Proof. vm_compute. reflexivity. Qed.


Lemma start_run_refused_witness :
  exists e st', demo_start_run (demo_body None [JObj []]) "r1" user_request demo_service = (Err e, st')
    /\ sv_dispatched st' = [].
Proof.
  destruct (demo_start_run (demo_body None [JObj []]) "r1" user_request demo_service) as [[rec|e] st'] eqn:E;
    [vm_compute in E; discriminate E|].
  exists e, st'. split; [reflexivity|].
  destruct (start_run_refused demo_convert (fun _ => "") (fun s => s) demo_settings (demo_body None [JObj []]) "t1" "r1"
    user_request 50 demo_service e st') as [Hd _].
  - apply mgr_init_wf.
  - reflexivity.
  - exact E.
  - exact Hd.
Defined.

(** ** Streaming *)

(** A run of a channel, which names its owner, and its tables. *)
Definition demo_run_started := demo_start_run (demo_body None [demo_message]) "r1" channel_request demo_service.
Definition demo_stream_record : run_record :=
  match demo_run_started.1 with Ok rec => rec | Err _ => demo_rec1 end.

Definition reader_iam (bindings : list binding_row) : iam_db :=
  mk_iam {["acme" := "active"]} {[("acme", "u1") := "active"]} ∅
    {["reader" := mk_role "custom" None [PStr "runtime:run:read"] true None]} bindings.
Definition allowed_iam : iam_db := reader_iam [mk_binding "acme" "user" "u1" "reader" None].
Definition revoked_iam : iam_db := reader_iam [].

Definition stream_ops : list bridge_op :=
  [Publish 5 "r1" "values" (JNum 1); Publish 6 "r1" "values" (JNum 2)].

Definition demo_stream : stream_world run_store cache_entries :=
  mk_stream_world (sv_manager demo_run_started.2) (apply_bridge_ops stream_ops (new_bridge 8)) pc_empty allowed_iam
    (mk_clock 0 0) false [].

Definition idle_moment : moment (stream_world run_store cache_entries) := mk_moment id Go.
Definition revocation : moment (stream_world run_store cache_entries) :=
  mk_moment (fun w => mk_stream_world (sw_manager w) (sw_bridge w) (sw_cache w) revoked_iam (sw_clock w) (sw_disconnected w) (sw_acts w)) Go.

Definition demo_schedule : list (moment (stream_world run_store cache_entries)) :=
  [idle_moment; idle_moment; idle_moment; idle_moment; idle_moment; idle_moment; revocation].

Definition frames_of (w : stream_world run_store cache_entries) : list frame :=
  omap (fun x => match x with Yielded f => Some f | _ => None end) (sw_acts w).

Definition demo_streamed := sse_consumer 60 demo_stream_record 5 None demo_stream demo_schedule.

(** The first event, then the revocation; the run is cancelled. *)
Example demo_revoked_stream :
  frames_of demo_streamed.1.2 = [SseFrame "values" (JNum 1) (Some "5-0"); revoked_frame]
  /\ (rec_status <$> dict_get "r1" (rm_runs (sw_manager demo_streamed.1.2))) = Some RS_interrupted.
Proof. vm_compute. split; reflexivity. Qed.

Definition continuing (r : run_record) : run_record :=
  mk_record (rec_run_id r) (rec_thread_id r) (rec_assistant_id r) (rec_status r) DM_continue
    (rec_multitask_strategy r) (rec_metadata r) (rec_kwargs r) (rec_user_id r) (rec_org_id r)
    (rec_created_at r) (rec_updated_at r) (rec_task r) (rec_abort_event r) (rec_abort_action r) (rec_error r)
    (rec_model_name r) (rec_store_only r) (rec_usage r) (rec_release r) (rec_row_version r).

(** With [on_disconnect] set to continue, a revocation does not stop the run. *)
Example revocation_keeps_continuing_run :
  let m := put_record (continuing demo_stream_record) (sw_manager demo_stream) in
  let w := sw_set_manager m demo_stream in
  let x := sse_consumer 60 (continuing demo_stream_record) 5 None w demo_schedule in
  frames_of x.1.2 = [SseFrame "values" (JNum 1) (Some "5-0"); revoked_frame]
  /\ (rec_status <$> dict_get "r1" (rm_runs (sw_manager x.1.2))) = Some RS_pending.
Proof. vm_compute. split; reflexivity. Qed.

Lemma demo_schedule_attentive : Forall attentive demo_schedule.
Proof.
  unfold demo_schedule. rewrite !Forall_cons. split_and!; try (intros w; split; [by exists []|done]). constructor.
Qed.

Lemma sse_events_authorized_witness :
  exists acts es, sw_acts demo_streamed.1.2 = acts /\ session (build_sse_revalidation_context demo_stream_record) acts es.
Proof.
  destruct (sse_events_authorized 60 demo_stream_record 5 None 8 stream_ops demo_stream demo_schedule
    demo_streamed.1.1 demo_streamed.1.2 demo_streamed.2) as (acts & es & s0 & b1 & b & log & sub & got & rest & Ha & Hs & _).
  - reflexivity.
  - exact demo_schedule_attentive.
  - unfold demo_streamed. by destruct (sse_consumer _ _ _ _ _ _) as [[? ?] ?].
  - exists acts, es. split; [exact Ha|exact Hs].
Defined.

Definition demo_frames := sse_frames 60 demo_stream_record 5 None demo_stream demo_schedule.

Lemma demo_manager_wf : mgr_wf (sw_manager demo_stream).
Proof.
  apply (put_record_wf _ (new_record "r1" (body_create_args (fun _ => "") (demo_body None [demo_message]) "t1" channel_request unpinned)
    (Some "gpt") unpinned 50)); [|reflexivity|reflexivity].
  eapply (create_or_reject_good "r1" (body_create_args (fun _ => "") (demo_body None [demo_message]) "t1" channel_request unpinned) 50 demo_mgr0);
    [reflexivity|apply surjective_pairing|apply mgr_init_wf].
Qed.

Lemma disconnect_cancels_witness :
  after_disconnect demo_stream_record demo_frames.1.2 demo_streamed.1.2.
Proof.
  destruct (disconnect_cancels 60 demo_stream_record 5 None demo_stream demo_schedule) as [H _].
  - exact demo_manager_wf.
  - vm_compute. eexists. reflexivity.
  - unfold demo_schedule. rewrite !Forall_cons. split_and!; try (intros w _; apply star_refl). constructor.
  - apply (H demo_frames.1.1 demo_frames.1.2 demo_frames.2 demo_streamed.1.1 demo_streamed.1.2 demo_streamed.2).
    + unfold demo_frames. by destruct (sse_frames _ _ _ _ _ _) as [[? ?] ?].
    + vm_compute. constructor.
    + unfold demo_streamed. by destruct (sse_consumer _ _ _ _ _ _) as [[? ?] ?].
Defined.
