(* ===== verification/RunApi.v ===== *)
(** * The run endpoints

    The handlers of [app/gateway/routers/thread_runs.py] that create, stream,
    read, cancel and join runs, from the [require_rbac] gate to the answer, and
    the two stateless ones of [routers/runs.py].  A streaming answer names the
    run whose events [Sse.sse_consumer] then sends; an answer that waits for a
    run is completed by [final_state] after [Sse.wait_for_run_completion]. *)
From S2P Require Import Prelude PyString PyPath Paths Transitions RunStore Retry StoreApi Ownership.
From S2P Require Import RunManager Release Resolver Authorize EventStoreDb ThreadMeta StreamBridge.
From S2P Require Import Serialization Worker Sse Services.
From stdpp Require Import gmap.
Local Open Scope string_scope.
Local Open Scope Z_scope.
Local Open Scope list_scope.

(** ** Answers *)

Inductive reply : Type :=
| RunReply (response : list (string * json))
| RunsReply (responses : list (list (string * json)))
| Streaming (record : run_record) (content_location : option string)
| Waiting (record : run_record)
| StateReply (channel_values : list (string * json))
| StatusReply (status : string) (error : option string)
| NoContent (status_code : Z).

Definition optional_text (s : option string) : json := match s with Some s => JStr s | None => JNull end.

(** [_record_to_response]. *)
Definition usage_keys : list string :=
  ["total_input_tokens"; "total_output_tokens"; "total_tokens"; "llm_call_count"; "lead_agent_tokens"; "subagent_tokens";
   "middleware_tokens"; "message_count"].

Definition record_to_response (r : run_record) : list (string * json) :=
  [("run_id", JStr (rec_run_id r)); ("thread_id", JStr (rec_thread_id r)); ("assistant_id", optional_text (rec_assistant_id r));
   ("status", JStr (status_value (rec_status r))); ("metadata", JObj (rec_metadata r)); ("kwargs", JObj (rec_kwargs r));
   ("multitask_strategy", JStr (rec_multitask_strategy r)); ("created_at", JIso (rec_created_at r)); ("updated_at", JIso (rec_updated_at r))]
  ++ ((fun k => (k, opt_or (dict_get k (rec_usage r)) (JNum 0))) <$> usage_keys).

Definition cancel_conflict_detail (run_id : string) (r : run_record) : string :=
  if rec_inflight r then "Run " +:+ run_id +:+ " is not active on this worker and cannot be cancelled"
  else "Run " +:+ run_id +:+ " is not cancellable (status: " +:+ status_value (rec_status r) +:+ ")".

Definition run_not_found (run_id : string) : api_error := Http 404 ("Run " +:+ run_id +:+ " not found").
Definition not_streamable (run_id : string) : api_error :=
  Http 409 ("Run " +:+ run_id +:+ " is not active on this worker and cannot be streamed").

(** ** The endpoints *)

(** The calls of the two routers.  [run_id] of a creating call is the fresh id
    the manager takes. *)
Inductive run_call : Type :=
| CreateRun (body : run_body) (run_id : string)
| StreamRun (body : run_body) (run_id : string)
| WaitRun (body : run_body) (run_id : string)
| ListRuns
| GetRun (run_id : string)
| CancelRun (run_id : string) (wait : bool) (action : string)
| JoinRun (run_id : string)
| StreamExistingRun (run_id : string) (action : option string) (wait : bool).

(** The parameters of the [require_rbac] decorators: permission and
    [require_existing]. *)
Definition guard_of (call : run_call) : Permission * bool :=
  match call with
  | CreateRun _ _ | StreamRun _ _ | WaitRun _ _ => (RUNTIME_RUN_CREATE, true)
  | ListRuns | GetRun _ | JoinRun _ | StreamExistingRun _ _ _ => (RUNTIME_RUN_READ, false)
  | CancelRun _ _ _ => (RUNTIME_RUN_CANCEL, true)
  end.

Record api_world (S T C : Type) : Type := mk_api {
  aw_service : service_state S T;
  aw_cache : C;
  aw_iam : iam_db;
  aw_clock : clock;
  aw_denials : list (string * error_code)
}.
Arguments mk_api {S T C} _ _ _ _ _.
Arguments aw_service {S T C} _.
Arguments aw_cache {S T C} _.
Arguments aw_iam {S T C} _.
Arguments aw_clock {S T C} _.
Arguments aw_denials {S T C} _.

Definition with_path_thread (thread_id : string) (r : http_request) : http_request :=
  mk_http_request (hr_bypass r) (hr_tenant r) (hr_user r) (hr_owner_header r) (Some thread_id).

Section handlers.
Context (convert_to_messages : list (string * json) -> result string (list pyval)) (json_str : json -> string).
Context {S T C : Type} {SA : RunStoreApi S} {TA : ThreadMetaStore T} {PC : PermissionCache C}.
Context (sha256_hex : string -> string) (settings : run_settings).
(** The lifetime of cached permissions, [bridge.cross_replica], and how awaiting
    the task of a run ends: its exception, if it raised one that is not a
    cancellation. *)
Context (ttl_seconds : Z) (cross_replica : bool) (task_raises : run_record -> option string).
Local Notation world := (api_world S T C).

Definition aw_set_service sv (w : world) : world := mk_api sv (aw_cache w) (aw_iam w) (aw_clock w) (aw_denials w).
Definition aw_manager (w : world) : run_manager S := sv_manager (aw_service w).
Definition aw_set_manager m (w : world) : world := aw_set_service (set_sv_manager m (aw_service w)) w.
Definition aw_now (w : world) : Z := ck_utc (aw_clock w).

(** What [check_access] of the thread store reads. *)
Definition thread_view (rows : meta_table) : gmap string thread_row :=
  (fun row => mk_thread (mt_org_id row) (mt_user_id row)) <$> rows.

Definition begin_run (body : run_body) (thread_id run_id : string) (r : http_request) (w : world)
    : result api_error run_record * world :=
  let '(res, sv) := start_run convert_to_messages json_str sha256_hex settings body thread_id run_id r (aw_now w) (aw_service w) in
  (res, aw_set_service sv w).

Definition create_run (thread_id : string) (body : run_body) (run_id : string) (r : http_request) (w : world)
    : result api_error reply * world :=
  match begin_run body thread_id run_id r w with
  | (Ok record, w) => (Ok (RunReply (record_to_response record)), w)
  | (Err e, w) => (Err e, w)
  end.

Definition stream_run (thread_id : string) (body : run_body) (run_id : string) (r : http_request) (w : world)
    : result api_error reply * world :=
  match begin_run body thread_id run_id r w with
  | (Ok record, w) => (Ok (Streaming record (Some ("/api/threads/" +:+ thread_id +:+ "/runs/" +:+ rec_run_id record))), w)
  | (Err e, w) => (Err e, w)
  end.

(** The first half of [wait_run], up to the wait. *)
Definition wait_run (thread_id : string) (body : run_body) (run_id : string) (r : http_request) (w : world)
    : result api_error reply * world :=
  match begin_run body thread_id run_id r w with
  | (Ok record, w) => (Ok (Waiting record), w)
  | (Err e, w) => (Err e, w)
  end.

(** Its second half: [completed] is what the wait answered, [record] the run
    after it.  The state is read only when the end was seen. *)
Definition final_state {K} `{Checkpointer K} (completed : bool) (thread_id : string) (record : run_record) (k : K) : reply * K :=
  let status := StatusReply (status_value (rec_status record)) (rec_error record) in
  if completed then
    match cp_get_tuple thread_id "" k with
    | (Ok (Some t), k') =>
        (match (if json_truthy (ct_checkpoint t) then ct_checkpoint t else JObj []) with
         | JObj checkpoint =>
             match opt_or (dict_get "channel_values" checkpoint) (JObj []) with
             | JObj values => StateReply (serialize_channel_values_for_api ((fun p => (p.1, pyval_of_json p.2)) <$> values))
             | _ => status
             end
         | _ => status
         end, k')
    | (_, k') => (status, k')
    end
  else (status, k).

Definition list_runs (thread_id : string) (w : world) : result api_error reply * world :=
  let '(records, m) := RunManager.list_by_thread thread_id None 100 (aw_manager w) in
  (Ok (RunsReply (record_to_response <$> records)), aw_set_manager m w).

(** [run_mgr.get] and the check that the run is on the thread of the path. *)
Definition find_run (thread_id run_id : string) (w : world) : result api_error run_record * world :=
  let '(found, m) := RunManager.get run_id (aw_manager w) in
  (match found with
   | Some record => if String.eqb (rec_thread_id record) thread_id then Ok record else Err (run_not_found run_id)
   | None => Err (run_not_found run_id)
   end, aw_set_manager m w).

Definition get_run (thread_id run_id : string) (w : world) : result api_error reply * world :=
  match find_run thread_id run_id w with
  | (Ok record, w) => (Ok (RunReply (record_to_response record)), w)
  | (Err e, w) => (Err e, w)
  end.

(** [run_mgr.cancel] and its conflict. *)
Definition cancel_found (run_id action : string) (record : run_record) (w : world) : result api_error unit * world :=
  match RunManager.cancel run_id action (aw_now w) (aw_manager w) with
  | (Ok true, m) => (Ok tt, aw_set_manager m w)
  | (Ok false, m) => (Err (Http 409 (cancel_conflict_detail run_id record)), aw_set_manager m w)
  | (Err _, m) => (Err (Uncaught "InvalidStateTransition"), aw_set_manager m w)
  end.

Definition has_task (r : run_record) : bool := match rec_task r with Some _ => true | None => false end.

Definition cancel_run (thread_id run_id : string) (wait : bool) (action : string) (w : world)
    : result api_error reply * world :=
  match find_run thread_id run_id w with
  | (Err e, w) => (Err e, w)
  | (Ok record, w) =>
      match cancel_found run_id action record w with
      | (Err e, w) => (Err e, w)
      | (Ok _, w) =>
          (if wait && has_task record
           then match task_raises record with Some e => Err (Uncaught e) | None => Ok (NoContent 204) end
           else Ok (NoContent 202), w)
      end
  end.

(** [_gate_legacy_resume]. *)
Definition gate_legacy_resume (run_id : string) (record : run_record) : result api_error unit :=
  if rs_enforce_release settings && pin_legacy_unpinned (rec_release record)
  then Err (Http 409 ("Run " +:+ run_id +:+ " is legacy-unpinned and cannot be resumed in prod (release gate)"))
  else Ok tt.

(** What [join_run] and a [stream_existing_run] without an action answer for a
    run of the thread. *)
Definition resume_stream (run_id : string) (record : run_record) : result api_error reply :=
  if rec_store_only record && negb cross_replica then Err (not_streamable run_id)
  else result_bind (gate_legacy_resume run_id record) (fun _ => Ok (Streaming record None)).

Definition join_run (thread_id run_id : string) (w : world) : result api_error reply * world :=
  match find_run thread_id run_id w with
  | (Err e, w) => (Err e, w)
  | (Ok record, w) => (resume_stream run_id record, w)
  end.

Definition stream_existing_run (thread_id run_id : string) (action : option string) (wait : bool) (w : world)
    : result api_error reply * world :=
  match find_run thread_id run_id w with
  | (Err e, w) => (Err e, w)
  | (Ok record, w) =>
      match action with
      | None => (resume_stream run_id record, w)
      | Some action =>
          match cancel_found run_id action record w with
          | (Err e, w) => (Err e, w)
          | (Ok _, w) => (Ok (if wait && has_task record then NoContent 204 else Streaming record None), w)
          end
      end
  end.

(** ** The gate in front of them *)

Definition handler_of (thread_id : string) (call : run_call) (r : http_request) : world -> result api_error reply * world :=
  match call with
  | CreateRun body run_id => create_run thread_id body run_id r
  | StreamRun body run_id => stream_run thread_id body run_id r
  | WaitRun body run_id => wait_run thread_id body run_id r
  | ListRuns => list_runs thread_id
  | GetRun run_id => get_run thread_id run_id
  | CancelRun run_id wait action => cancel_run thread_id run_id wait action
  | JoinRun run_id => join_run thread_id run_id
  | StreamExistingRun run_id action wait => stream_existing_run thread_id run_id action wait
  end.

Definition serve (thread_id : string) (call : run_call) (r : http_request) (w : world) : result api_error reply * world :=
  let r := with_path_thread thread_id r in
  let '(permission, require_existing) := guard_of call in
  let '(gate, c, denials) :=
    require_rbac ttl_seconds permission true require_existing (thread_view (tms_rows (sv_threads (aw_service w))))
      (aw_clock w) (aw_iam w) r (aw_cache w) in
  let w := mk_api (aw_service w) c (aw_iam w) (aw_clock w) (aw_denials w ++ denials) in
  match gate with
  | Handler => handler_of thread_id call r w
  | HTTPException status_code detail => (Err (Http status_code detail), w)
  | GateValueError => (Err (Uncaught "ValueError"), w)
  end.

(** ** [routers/runs.py] *)

(** [_resolve_thread_id]: [fresh] is the id generated when the body names none;
    [None] is the [AttributeError] of a configuration that is not a
    dictionary. *)
Definition resolve_thread_id (body : run_body) (fresh : string) : option string :=
  match opt_or (dict_get "configurable" (opt_or (bd_config body) [])) (JObj []) with
  | JObj configurable =>
      match dict_get "thread_id" configurable with
      | None => Some fresh
      | Some v => Some (if json_truthy v then match v with JStr s => s | _ => json_str v end else fresh)
      end
  | _ => None
  end.

(** [stateless_stream] and the first half of [stateless_wait]: there is no
    gate. *)
Definition stateless (handler : string -> run_body -> string -> http_request -> world -> result api_error reply * world)
    (body : run_body) (fresh run_id : string) (r : http_request) (w : world) : result api_error reply * world :=
  match resolve_thread_id body fresh with
  | Some thread_id => handler thread_id body run_id r w
  | None => (Err (Uncaught "AttributeError"), w)
  end.
Definition stateless_stream := stateless stream_run.
Definition stateless_wait := stateless wait_run.
End handlers.
