(* ===== verification/RunApiProps.v ===== *)
(** * What the run endpoints promise

    A call on the runs of a thread that does anything passed the gate of that
    thread, touches only runs of the thread and answers only with runs of the
    thread. *)
From S2P Require Import Prelude PyString PyPath Paths Transitions RunStore Retry StoreApi Ownership.
From S2P Require Import RunManager RunManagerFacts RunManagerProps Release Resolver Authorize.
From S2P Require Import AuthorizeProps EventStoreDb ThreadMeta Journal StreamBridge Serialization.
From S2P Require Import Worker Sse Services ServicesProps RunApi.
From stdpp Require Import gmap.
Local Open Scope string_scope.
Local Open Scope Z_scope.
Local Open Scope list_scope.

(** ** Changes of a registry within one thread *)

Section confined.
Context {S : Type} {SA : RunStoreApi S}.
Implicit Types m : run_manager S.

Definition is_on (t : string) (r : option run_record) : Prop := forall x, r = Some x -> rec_thread_id x = t.

(** Every entry is as it was, or is of the thread before and after. *)
Definition confined (t : string) m m' : Prop :=
  forall k, dict_get k (rm_runs m') = dict_get k (rm_runs m)
            \/ (is_on t (dict_get k (rm_runs m)) /\ is_on t (dict_get k (rm_runs m'))).

Lemma confined_registry t m m' : same_registry m m' -> confined t m m'.
Proof using. intros [Hr _] k. left. by rewrite Hr. Qed.

Lemma confined_refl t m : confined t m m.
Proof using. by left. Qed.

Lemma confined_trans t m1 m2 m3 : confined t m1 m2 -> confined t m2 m3 -> confined t m1 m3.
Proof using.
  intros H1 H2 k. destruct (H1 k) as [E1|[A1 B1]], (H2 k) as [E2|[A2 B2]].
  - left. congruence.
  - right. rewrite <-E1. auto.
  - right. rewrite E2. auto.
  - right. auto.
Qed.

Lemma put_confined t r m :
  is_on t (dict_get (rec_run_id r) (rm_runs m)) -> rec_thread_id r = t -> confined t m (put_record r m).
Proof using.
  intros Hon Ht k. unfold is_on. simpl. rewrite dict_get_set. case_decide as E; [subst k|by left].
  right. split; [done|]. by intros x [= <-].
Qed.

Lemma create_confined id a now m r m' :
  mgr_wf m -> dict_get id (rm_runs m) = None -> create_or_reject id a now m = (Ok r, m') -> confined (ca_thread_id a) m m'.
Proof using.
  intros Hwf Hid Hc k. destruct (create_or_reject_ok _ _ _ _ _ _ Hwf Hid Hc) as (Hr & Hget & Hold & Hnone). unfold is_on.
  destruct (decide (k = id)) as [->|Hk].
  { right. rewrite Hid, Hget. split; [done|]. intros x [= <-]. by rewrite Hr. }
  destruct (dict_get k (rm_runs m)) as [y|] eqn:Hy; [|left; by rewrite (Hnone k)].
  rewrite (Hold k y Hk Hy). destruct (String.eqb_spec (rec_thread_id y) (ca_thread_id a)) as [Ht|Ht]; [|by left].
  right. split; [by intros x [= <-]|]. intros x [= <-]. by destruct (rec_inflight y).
Qed.

Lemma cancel_confined id act now m res m' t :
  mgr_wf m -> is_on t (dict_get id (rm_runs m)) -> RunManager.cancel id act now m = (res, m') -> confined t m m'.
Proof using.
  intros Hwf Hon. unfold RunManager.cancel. destruct (dict_get id (rm_runs m)) as [r|] eqn:Hr;
    [|intros Hc; eapply confined_registry, cancel_remote_registry, Hc].
  case_bool_decide; [intros [= <- <-]; apply confined_refl|].
  destruct (negb (rec_inflight r)); [intros [= <- <-]; apply confined_refl|].
  destruct (assert_run_transition _ _); [|intros [= <- <-]; apply confined_refl].
  destruct (persist_status _ _ _ _ _ _) as [[b r2] m2] eqn:Hp. intros [= <- <-].
  pose proof (wf_ids _ Hwf _ _ Hr) as Hid. pose proof (Hon r eq_refl) as Ht.
  apply persist_status_registry in Hp as [Hs Hr2].
  assert (rec_run_id r2 = id /\ rec_thread_id r2 = t) as [Hid2 Ht2] by (by destruct Hr2 as [->|[v ->]]).
  apply (confined_trans _ _ (put_record r2 m2)); [|apply confined_registry; eapply same_registry_trans; [|apply publish_registry];
    destruct (rm_store m2); [apply call_store_once_registry|apply same_registry_refl]].
  apply (confined_trans _ _ (put_record (rec_set_status RS_interrupted None now (rec_set_abort act r)) m)).
  { apply put_confined; simpl; [by rewrite Hid, Hr|done]. }
  apply (confined_trans _ _ m2); [by apply confined_registry|]. apply put_confined; [|done].
  destruct Hs as [-> _]. simpl. rewrite Hid2, Hid, dict_get_set_eq. by intros x [= <-].
Qed.
End confined.

(** ** The threads of an answer *)

Definition reply_threads (x : reply) : list (option json) :=
  match x with
  | RunReply response => [dict_get "thread_id" response]
  | RunsReply responses => dict_get "thread_id" <$> responses
  | Streaming record _ | Waiting record => [Some (JStr (rec_thread_id record))]
  | StateReply _ | StatusReply _ _ | NoContent _ => []
  end.

Definition only_thread (t : string) (res : result api_error reply) : Prop :=
  match res with Ok x => Forall (eq (Some (JStr t))) (reply_threads x) | Err _ => True end.

Lemma dict_values_set_Forall {V} (P : V -> Prop) k v (d : list (string * V)) :
  P v -> Forall P (dict_values d) -> Forall P (dict_values (dict_set k v d)).
Proof.
  intros Hv. induction d as [|[k0 v0] d IH]; simpl; [by repeat constructor|].
  intros [H0 Hd]%Forall_cons. case_decide; simpl; constructor; auto.
Qed.

Section endpoints.
Context (convert_to_messages : list (string * json) -> result string (list pyval)) (json_str : json -> string).
Context {S T C : Type} `{SL : RunStoreLaws S} {TA : ThreadMetaStore T} `{PermissionCache C}.
Context (sha256_hex : string -> string) (settings : run_settings).
Context (ttl_seconds : Z) (cross_replica : bool) (task_raises : run_record -> option string).
Local Notation world := (api_world S T C).
Local Notation begin_run := (begin_run (S := S) (T := T) (C := C) convert_to_messages json_str sha256_hex settings).
Local Notation handler_of := (handler_of (S := S) (T := T) (C := C) convert_to_messages json_str sha256_hex settings cross_replica task_raises).
Local Notation serve := (serve convert_to_messages json_str sha256_hex settings ttl_seconds cross_replica task_raises).

Lemma start_run_confined body thread_id run_id r now st res st' :
  mgr_wf (sv_manager st) -> dict_get run_id (rm_runs (sv_manager st)) = None ->
  start_run convert_to_messages json_str sha256_hex settings body thread_id run_id r now st = (res, st') ->
  confined thread_id (sv_manager st) (sv_manager (T := T) st')
  /\ forall rec, res = Ok rec -> rec_thread_id rec = thread_id.
Proof using.
  intros Hwf Hnew. unfold start_run. destruct (model_refused _ _ _); [intros [= <- <-]; split; [apply confined_refl|done]|].
  destruct (thread_allowed _ _ _) as [[]|]; [|intros [= <- <-]; split; [apply confined_refl|done]..].
  destruct (resolve_pin _ _ _ _ _ _) as [pin|]; [|intros [= <- <-]; split; [apply confined_refl|done]].
  destruct (create_or_reject _ _ _ _) as [[rec|er] m] eqn:Ec.
  - pose proof (create_confined _ _ _ _ _ _ Hwf Hnew Ec) as Hc. simpl in Hc.
    destruct (create_or_reject_ok _ _ _ _ _ _ Hwf Hnew Ec) as (Hrec & Hget & _ & _).
    unfold dispatch_run. destruct (graph_input _ _) as [[input resume]|]; [|intros [= <- <-]; by split].
    destruct (run_config _ _ _) as [config|]; [|intros [= <- <-]; by split]. intros [= <- <-]. simpl. split.
    + eapply confined_trans; [exact Hc|]. apply put_confined; [|by rewrite Hrec].
      rewrite Hrec at 1. simpl. rewrite Hget. intros x [= <-]. by rewrite Hrec.
    + intros ? [= <-]. by rewrite Hrec.
  - intros [= <- <-]. split; [|done]. apply confined_registry. by eapply create_or_reject_refused.
Qed.

Lemma begin_run_confined body thread_id run_id r w res w' :
  mgr_wf (aw_manager w) -> dict_get run_id (rm_runs (aw_manager w)) = None ->
  begin_run body thread_id run_id r w = (res, w') ->
  confined thread_id (aw_manager w) (aw_manager w') /\ forall rec, res = Ok rec -> rec_thread_id rec = thread_id.
Proof using.
  intros Hwf Hnew. unfold RunApi.begin_run. destruct (start_run _ _ _ _ _ _ _ _ _ _) as [res0 sv] eqn:E.
  intros [= <- <-]. exact (start_run_confined _ _ _ _ _ _ _ _ Hwf Hnew E).
Qed.

(** The records of a listing are of the thread. *)
Lemma listed_on_thread thread_id org limit (m : run_manager S) records m' :
  mgr_wf m -> RunManager.list_by_thread thread_id org limit m = (records, m') ->
  Forall (fun r => rec_thread_id r = thread_id) records.
Proof using SL.
  intros Hwf. assert (Hmem : Forall (fun r => rec_thread_id r = thread_id) (thread_records_locked thread_id m)).
  { rewrite thread_records_scan by done. apply Forall_forall. intros x Hx. unfold scan_thread in Hx.
    apply list_elem_of_fmap in Hx as ([k y] & -> & Hy).
    apply list_elem_of_In, filter_In in Hy as [_ Hy]. by apply String.eqb_eq. }
  assert (Hsorted : forall l, Forall (fun r => rec_thread_id r = thread_id) l ->
    Forall (fun r => rec_thread_id r = thread_id) (py_take limit (sort_by rec_newest_first l))).
  { intros l Hl. rewrite Forall_forall in *. intros x Hx%py_take_elem. apply Hl. by apply sort_by_elem in Hx. }
  unfold RunManager.list_by_thread. destruct (rm_store m) as [s|] eqn:Es; [|intros [= <- <-]; by apply Hsorted].
  set (lim := Z.max 0 _). unfold call_store_once. destruct (api_list_by_thread thread_id org lim s) as [[rows|e] s'] eqn:Ea;
    intros [= <- <-]; apply Hsorted; [|done].
  assert (Hrows : Forall (fun row => row_thread_id row = thread_id) rows).
  { pose proof (api_list_by_thread_law _ _ _ _ _ _ Ea) as Hl. simpl in Hl. injection Hl as -> _. unfold store_list_by_thread.
    apply Forall_forall. intros x Hx%py_take_elem%sort_by_elem%list_elem_of_In%filter_In.
    destruct Hx as [_ Hx]. apply andb_true_iff in Hx as [Hx _]. by apply String.eqb_eq. }
  assert (Hdict : forall rows d, Forall (fun row => row_thread_id row = thread_id) rows ->
    Forall (fun r => rec_thread_id r = thread_id) (dict_values d) ->
    Forall (fun r => rec_thread_id r = thread_id) (dict_values (foldl merge_row d rows))).
  { clear. induction rows as [|row rows IH]; intros d Hr Hd; [done|]. apply Forall_cons in Hr as [Hrow Hr]. simpl. apply IH; [done|].
    unfold merge_row. case_match; [|done]. unfold record_from_store.
    destruct (status_of _); [|done]. simpl. by apply dict_values_set_Forall. }
  apply Hdict; [done|]. clear -Hmem. assert (Forall (fun r => rec_thread_id r = thread_id) (dict_values (@nil (string * run_record)))) as H0 by apply Forall_nil_2.
  revert H0. generalize (@nil (string * run_record)). induction Hmem as [|r l Hr Hl IH]; intros d Hd; [done|]. simpl. apply IH.
  by apply dict_values_set_Forall.
Qed.

Lemma find_run_spec thread_id run_id (w : world) res w' :
  find_run thread_id run_id w = (res, w') ->
  same_registry (aw_manager w) (aw_manager w')
  /\ forall rec, res = Ok rec -> rec_thread_id rec = thread_id /\ is_on thread_id (dict_get run_id (rm_runs (aw_manager w'))).
Proof using.
  unfold find_run. destruct (RunManager.get run_id (aw_manager w)) as [found m] eqn:Eg. intros [= <- <-].
  pose proof (get_registry _ _ _ _ Eg) as Hs. split; [exact Hs|]. intros rec Hrec.
  destruct found as [rec'|]; [|done]. destruct (String.eqb_spec (rec_thread_id rec') thread_id) as [Ht|]; [|done].
  injection Hrec as ->. split; [done|]. intros x Hx. change (dict_get run_id (rm_runs m) = Some x) in Hx.
  destruct Hs as [Hs _]. rewrite Hs in Hx. unfold RunManager.get in Eg. rewrite Hx in Eg. by injection Eg as <- _.
Qed.

Lemma cancel_found_spec thread_id run_id action rec (w : world) res w' :
  mgr_wf (aw_manager w) -> is_on thread_id (dict_get run_id (rm_runs (aw_manager w))) ->
  cancel_found run_id action rec w = (res, w') -> confined thread_id (aw_manager w) (aw_manager w').
Proof using.
  intros Hwf Hon. unfold cancel_found. destruct (RunManager.cancel _ _ _ _) as [r m] eqn:Ec.
  pose proof (cancel_confined _ _ _ _ _ _ _ Hwf Hon Ec) as Hc. by destruct r as [[]|]; intros [= _ <-].
Qed.

(** A creating call brings an id no run has. *)
Definition fresh_run (call : run_call) (m : run_manager S) : Prop :=
  match call with
  | CreateRun _ run_id | StreamRun _ run_id | WaitRun _ run_id => dict_get run_id (rm_runs m) = None
  | _ => True
  end.

Lemma found_runs thread_id run_id (w : world) (k : run_record -> world -> result api_error reply * world) res w' :
  mgr_wf (aw_manager w) ->
  (forall rec w1 res1 w2, mgr_wf (aw_manager w1) -> rec_thread_id rec = thread_id ->
     is_on thread_id (dict_get run_id (rm_runs (aw_manager w1))) -> k rec w1 = (res1, w2) ->
     confined thread_id (aw_manager w1) (aw_manager w2) /\ only_thread thread_id res1) ->
  match find_run thread_id run_id w with (Ok record, w1) => k record w1 | (Err e, w1) => (Err e, w1) end = (res, w') ->
  confined thread_id (aw_manager w) (aw_manager w') /\ only_thread thread_id res.
Proof using.
  intros Hwf Hk. destruct (find_run thread_id run_id w) as [[rec|e] w1] eqn:Ef; apply find_run_spec in Ef as [Hs Hf].
  - destruct (Hf rec eq_refl) as [Ht Hon]. intros Hr. destruct (Hk rec w1 res w') as [Hc Ho]; [by eapply mgr_wf_registry|done..|].
    split; [|done]. eapply confined_trans; [by apply confined_registry|done].
  - intros [= <- <-]. split; [by apply confined_registry|done].
Qed.

Lemma resume_stream_thread thread_id run_id rec :
  rec_thread_id rec = thread_id -> only_thread thread_id (resume_stream settings cross_replica run_id rec).
Proof using.
  intros <-. unfold resume_stream, gate_legacy_resume. destruct (_ && _); [done|]. destruct (_ && _); [done|]. simpl. by repeat constructor.
Qed.

Lemma handler_confined thread_id call r (w : world) res w' :
  mgr_wf (aw_manager w) -> fresh_run call (aw_manager w) -> handler_of thread_id call r w = (res, w') ->
  confined thread_id (aw_manager w) (aw_manager w') /\ only_thread thread_id res.
Proof using SL.
  intros Hwf Hnew.
  assert (Hbegin : forall body run_id (f : run_record -> reply), (forall rec, reply_threads (f rec) = [Some (JStr (rec_thread_id rec))]) ->
    dict_get run_id (rm_runs (aw_manager w)) = None ->
    match begin_run body thread_id run_id r w with (Ok rec, w1) => (Ok (f rec), w1) | (Err e, w1) => (Err e, w1) end = (res, w') ->
    confined thread_id (aw_manager w) (aw_manager w') /\ only_thread thread_id res).
  { intros body run_id f Hf Hid Hb. destruct (begin_run body thread_id run_id r w) as [r0 w1] eqn:Eb.
    destruct (begin_run_confined _ _ _ _ _ _ _ Hwf Hid Eb) as [Hc Ht].
    destruct r0 as [rec|e]; injection Hb as <- <-; (split; [done|]); [|done]. simpl. rewrite Hf, (Ht rec eq_refl). by repeat constructor. }
  destruct call as [body id|body id|body id| |id|id wait act|id|id act wait]; simpl in Hnew |- *.
  - apply (Hbegin body id (fun rec => RunReply (record_to_response rec))); [done|done].
  - by apply (Hbegin body id (fun rec => Streaming rec _)).
  - by apply (Hbegin body id Waiting).
  - unfold list_runs. destruct (RunManager.list_by_thread _ _ _ _) as [records m] eqn:El. intros [= <- <-].
    pose proof (listed_on_thread _ _ _ _ _ _ Hwf El) as Hl. split; [eapply confined_registry, list_by_thread_registry, El|].
    simpl. rewrite <-list_fmap_compose. apply Forall_fmap. eapply Forall_impl; [exact Hl|]. intros x <-. reflexivity.
  - apply found_runs; [done|]. intros rec w1 res1 w2 _ Ht _ [= <- <-]. split; [apply confined_refl|]. subst thread_id. by repeat constructor.
  - apply found_runs; [done|]. intros rec w1 res1 w2 Hwf1 Ht Hon. destruct (cancel_found _ _ _ _) as [rc w3] eqn:Ec.
    apply (cancel_found_spec thread_id) in Ec; [|done..]. destruct rc; intros [= <- <-]; (split; [done|]); repeat case_match; done || (by constructor).
  - apply found_runs; [done|]. intros rec w1 res1 w2 _ Ht _ [= <- <-]. split; [apply confined_refl|]. by apply resume_stream_thread.
  - apply found_runs; [done|]. intros rec w1 res1 w2 Hwf1 Ht Hon. destruct act as [act|].
    + destruct (cancel_found _ _ _ _) as [rc w3] eqn:Ec. apply (cancel_found_spec thread_id) in Ec; [|done..].
      destruct rc; intros [= <- <-]; (split; [done|]); [|done]. destruct (_ && _); simpl; rewrite ?Ht; by repeat constructor.
    + intros [= <- <-]. split; [apply confined_refl|]. by apply resume_stream_thread.
Qed.
(** The request passed the gate of its call: it has a tenant; the thread exists
    if the call asks for it, and if it exists is the tenant's and unowned or
    the caller's; and a permission was granted within the lifetime of the
    cache, or the request is a trusted internal one for an owner. *)
Definition passed (tr : list (sys (C := C))) (s : sys (C := C)) (thread_id : string) (call : run_call) (r : http_request)
    (rows : meta_table) : Prop :=
  exists t, hr_tenant r = Some t
    /\ ((guard_of call).2 = true -> is_Some (rows !! thread_id))
    /\ (forall row, rows !! thread_id = Some row ->
          mt_org_id row = Some (tc_org_id t) /\ (forall owner, mt_user_id row = Some owner -> acts_as r t owner))
    /\ ((tc_auth_method t = "internal" /\ is_internal_owner_request r = true)
        \/ exists x, subject_of t = Some x /\ recently_granted tr s x (permission_value (guard_of call).1)
             /\ in_scopes (tc_api_key_scopes t) (permission_value (guard_of call).1)).

(** (C24) Calls on the runs of a thread stay within the thread.  Through any
    interleaving of permission changes, a call either is refused and leaves
    runs, threads and dispatched executions as they were, or passed the gate
    with the permission of its endpoint; the registered runs of other threads
    are as they were; and every run it answers with is of this thread. *)
Theorem run_calls_confined thread_id call r (w : world) res w' db ck tr s :
  iam_wf db -> run ttl_seconds (start db ck) tr s ->
  aw_cache w = s_cache s -> aw_iam w = s_db s -> aw_clock w = s_clock s ->
  hr_bypass r = false -> (forall t x, hr_tenant r = Some t -> subject_of t = Some x -> subject_wf x) ->
  mgr_wf (aw_manager w) -> fresh_run call (aw_manager w) ->
  serve thread_id call r w = (res, w') ->
  (passed tr s thread_id call r (tms_rows (sv_threads (aw_service w)))
   \/ (exists e, res = Err e) /\ aw_service w' = aw_service w)
  /\ confined thread_id (aw_manager w) (aw_manager w')
  /\ only_thread thread_id res.
Proof using SL.
  intros Hiam Htr Hc Hi Hk Hb Hids Hwf Hnew. unfold RunApi.serve.
  destruct (guard_of call) as [p re] eqn:Eg. rewrite Hc, Hi, Hk.
  destruct (require_rbac _ _ _ _ _ _ _ _ _) as [[gate c] denials] eqn:Er. destruct gate as [|code d|].
  2-3: intros [= <- <-]; split; [right; eauto|]; split; [apply confined_refl|done].
  intros Hh. split; [|by apply handler_confined in Hh].
  left. destruct (gate_admits ttl_seconds p re _ db ck tr s (with_path_thread thread_id r) c denials Hiam Htr Hb Hids Er)
    as (_ & t & th & Ht & [= <-] & Hex & Hrow & Hp).
  exists t. rewrite Eg. split; [done|]. unfold thread_view in Hex, Hrow. split; [|split].
  - intros Hre. specialize (Hex Hre). by rewrite lookup_fmap, fmap_is_Some in Hex.
  - intros row Hl. exact (Hrow (mk_thread (mt_org_id row) (mt_user_id row)) ltac:(by rewrite lookup_fmap, Hl)).
  - exact Hp.
Qed.
End endpoints.
