(* ===== verification/RunApiExamples.v ===== *)
(** * Run endpoints on a concrete system

    A reader of runs, a run on one of its threads, and the calls behind what
    was found in the routers. *)
From S2P Require Import Prelude PyString PyPath Paths PyAsync Transitions RunStore Retry StoreApi.
From S2P Require Import Ownership RunManager RunManagerFacts RunManagerProps Release Resolver.
From S2P Require Import Authorize AuthorizeProps EventStoreDb ThreadMeta Journal StreamBridge.
From S2P Require Import Serialization Worker WorkerProps Sse SseProps Services ServicesProps.
From S2P Require Import ServiceExamples RunApi RunApiProps.
From stdpp Require Import gmap.
Local Open Scope string_scope.
Local Open Scope Z_scope.
Local Open Scope list_scope.

(** The run of a user is active, and the caller may only read runs. *)
Definition run_of_user := demo_start_run (demo_body None [demo_message]) "r1" user_request demo_service.
Definition reader_world : api_world run_store sql_threads cache_entries :=
  mk_api run_of_user.2 pc_empty allowed_iam (mk_clock 0 0) [].

Definition demo_serve (call : run_call) (w : api_world run_store sql_threads cache_entries) :=
  serve demo_convert (fun _ => "") (fun s => s) demo_settings 60 false (fun _ => None) "t1" call user_request w.

Definition run_status (w : api_world run_store sql_threads cache_entries) : option RunStatus :=
  rec_status <$> dict_get "r1" (rm_runs (aw_manager w)).

(** The cancel endpoint refuses the reader; the stream endpoint with an action
    cancels the run all the same. *)
Example reader_cancels :
  (demo_serve (CancelRun "r1" false "interrupt") reader_world).1
    = Err (Http 403 "Permission denied: runtime:run:cancel")
  /\ run_status (demo_serve (CancelRun "r1" false "interrupt") reader_world).2 = Some RS_pending
  /\ run_status (demo_serve (StreamExistingRun "r1" (Some "interrupt") false) reader_world).2 = Some RS_interrupted.
Proof. vm_compute. repeat split; reflexivity. Qed.

(** Without any permission, the stateless endpoint starts a run. *)
Example stateless_runs_unguarded :
  let w := mk_api demo_service pc_empty revoked_iam (mk_clock 0 0) [] : api_world run_store sql_threads cache_entries in
  (demo_serve (StreamRun (demo_body None [demo_message]) "r1") w).1 = Err (Http 403 "Permission denied: runtime:run:create")
  /\ match stateless_stream demo_convert (fun _ => "") (fun s => s) demo_settings (demo_body None [demo_message]) "fresh" "r1" user_request w with
     | (Ok (Streaming record _), w') => rec_thread_id record = "fresh" /\ length (sv_dispatched (aw_service w')) = 1%nat
     | _ => False
     end.
Proof. vm_compute. repeat split; reflexivity. Qed.

(** A run created to continue after a disconnect, as another worker reads it
    from the store: it is cancelled when a viewer leaves. *)
Definition continuing_args : create_args :=
  mk_create_args "t1" None DM_continue None None "reject" None None (Some "acme") unpinned.
Definition store_after_create : option run_store := rm_store (create_or_reject "r1" continuing_args 50 demo_mgr0).2.

Example disconnect_mode_lost :
  (rec_on_disconnect <$> dict_get "r1" (rm_runs (create_or_reject "r1" continuing_args 50 demo_mgr0).2)) = Some DM_continue
  /\ match store_after_create with
     | Some store =>
         match (RunManager.get "r1" (set_store store demo_mgr0)).1 with
         | Some record => rec_store_only record = true /\ cancels_on_disconnect record = true
         | None => False
         end
     | None => False
     end.
Proof. vm_compute. repeat split; reflexivity. Qed.

Lemma allowed_iam_wf : iam_wf allowed_iam.
Proof.
  split; [|split]; intros ? ?; simpl; rewrite ?lookup_singleton_Some, ?lookup_empty; try done;
    intros [_ <-]; simpl; set_solver.
Qed.

Lemma reader_manager_wf : mgr_wf (aw_manager reader_world).
Proof.
  apply (put_record_wf _ (new_record "r1" (body_create_args (fun _ => "") (demo_body None [demo_message]) "t1" user_request unpinned)
    (Some "gpt") unpinned 50)); [|reflexivity|reflexivity].
  eapply (create_or_reject_good "r1" (body_create_args (fun _ => "") (demo_body None [demo_message]) "t1" user_request unpinned) 50 demo_mgr0);
    [reflexivity|apply surjective_pairing|apply mgr_init_wf].
Qed.

Lemma run_calls_confined_witness :
  let x := demo_serve (StreamExistingRun "r1" (Some "interrupt") false) reader_world in
  exists tr s, passed (C := cache_entries) tr s "t1" (StreamExistingRun "r1" (Some "interrupt") false) user_request
      (tms_rows (sv_threads (aw_service reader_world)))
    /\ only_thread "t1" x.1.
Proof.
  intros x.
  destruct (run_calls_confined demo_convert (fun _ => "") (fun s => s) demo_settings 60 false (fun _ => None)
    "t1" (StreamExistingRun "r1" (Some "interrupt") false) user_request reader_world x.1 x.2 allowed_iam (mk_clock 0 0)
    [start allowed_iam (mk_clock 0 0)] (start allowed_iam (mk_clock 0 0))) as ([Hp|[[e He] _]] & _ & Ho).
  - exact allowed_iam_wf.
  - apply run_start.
  - reflexivity.
  - reflexivity.
  - reflexivity.
  - reflexivity.
  - intros t y [= <-] [= <-]. repeat split; by left.
  - exact reader_manager_wf.
  - exact I.
  - apply surjective_pairing.
  - exists [start allowed_iam (mk_clock 0 0)], (start allowed_iam (mk_clock 0 0)). split; [exact Hp|exact Ho].
  - exfalso. vm_compute in He. discriminate He.
Defined.
