(* ===== verification/RunStoreSql.v ===== *)
(** * The SQL run store

    [persistence/run/sql.py], class [RunRepository], on the table of
    [persistence/run/model.py]: every operation as its effect on the rows, and
    what it shares with the in-memory store.  The columns of a row are the
    fields of [run_row]; [row_usage] holds the counters and last messages, all
    of them with their defaults from the insertion on. *)
From S2P Require Import Prelude PyString RunStore Retry StoreApi EventStoreDb.
From stdpp Require Import gmap sorting.
From Stdlib Require Import QArith.
#[local] Close Scope Q_scope.
Local Open Scope string_scope.
Local Open Scope Z_scope.
Local Open Scope list_scope.

Abbreviation run_table := (gmap string run_row).

(** ** Columns *)

(** [_normalize_model_name]. *)
Definition normalize_model_name (model_name : option string) : option string :=
  (fun m => str_take 128 (strip m)) <$> model_name.

Definition counter_columns : list string :=
  ["total_input_tokens"; "total_output_tokens"; "total_tokens"; "llm_call_count"; "lead_agent_tokens"; "subagent_tokens";
   "middleware_tokens"; "message_count"].

Definition default_usage : list (string * json) :=
  ((fun k => (k, JNum 0)) <$> counter_columns)
  ++ [("token_usage_by_model", JObj []); ("first_human_message", JNull); ("last_ai_message", JNull)].

(** A keyword argument: absent and [None] alike. *)
Definition given_value (key : string) (usage : list (string * option json)) : option json := mjoin (dict_get key usage).

(** [value or {}]. *)
Definition or_empty (v : option json) : json :=
  match v with Some v => if json_truthy v then v else JObj [] | None => JObj [] end.

Definition cut_text (v : json) : json := match v with JStr s => JStr (str_take 2000 s) | _ => v end.

Definition message_columns (usage : list (string * option json)) : list (string * option json) :=
  (fun k => (k, cut_text <$> given_value k usage)) <$> ["last_ai_message"; "first_human_message"].

(** The values of the two usage updates. *)
Definition completion_columns (usage : list (string * option json)) : list (string * option json) :=
  ((fun k => (k, Some (opt_or (given_value k usage) (JNum 0)))) <$> counter_columns)
  ++ [("token_usage_by_model", Some (or_empty (given_value "token_usage_by_model" usage)))]
  ++ message_columns usage.

Definition progress_columns (usage : list (string * option json)) : list (string * option json) :=
  ((fun k => (k, given_value k usage)) <$> counter_columns)
  ++ [("token_usage_by_model", (fun v => or_empty (Some v)) <$> given_value "token_usage_by_model" usage)]
  ++ message_columns usage.

Definition set_updated_at (now : Z) (r : run_row) : run_row := set_row_status (row_status r) None now r.

(** [resolved_org_id is not None and row.org_id != resolved_org_id]. *)
Definition hidden_from (resolved_org_id : option string) (r : run_row) : bool := negb (org_matches resolved_org_id r).

Inductive sql_failure : Type := IntegrityError | NoTenant.

(** ** Operations *)

Section repository.
Context (orgs : gset string) (bound : option string).
Implicit Types t : run_table.

(** The attributes that [put] sets on a row that exists. *)
Definition put_values (a : put_args) (now : Z) (r : run_row) : run_row :=
  mk_run_row (row_run_id r) (put_thread_id a) (put_assistant_id a) (put_user_id a) (row_org_id r)
    (normalize_model_name (put_model_name a)) (put_status a) (put_multitask_strategy a)
    (opt_or (put_metadata a) []) (opt_or (put_kwargs a) []) (put_error a) (row_created_at r) now
    (row_version r) (row_cancel_requested r) (row_cancel_action r) (row_cancel_requested_at r) (row_release r) (row_usage r).

Definition insert_values (run_id : string) (a : put_args) (now : Z) : run_row :=
  mk_run_row run_id (put_thread_id a) (put_assistant_id a) (put_user_id a) (put_org_id a)
    (normalize_model_name (put_model_name a)) (put_status a) (put_multitask_strategy a)
    (opt_or (put_metadata a) []) (opt_or (put_kwargs a) []) (put_error a) (opt_or (put_created_at a) now) now
    1 false None None (put_release a) default_usage.

(** [put]; the Org of an inserted row is not null and exists. *)
Definition put (run_id : string) (a : put_args) (now : Z) t : result sql_failure unit * run_table :=
  match t !! run_id with
  | Some r => (Ok tt, <[run_id := put_values a now r]> t)
  | None =>
      match put_org_id a with
      | Some o => if bool_decide (o ∈ orgs) then (Ok tt, <[run_id := insert_values run_id a now]> t) else (Err IntegrityError, t)
      | None => (Err IntegrityError, t)
      end
  end.

Definition resolve (org_id : org_arg) : result sql_failure (option string) :=
  match resolve_org_id org_id bound with Ok o => Ok o | Err _ => Err NoTenant end.

Definition get (run_id : string) (org_id : org_arg) t : result sql_failure (option run_row) :=
  match resolve org_id with
  | Err e => Err e
  | Ok o => Ok (match t !! run_id with Some r => if hidden_from o r then None else Some r | None => None end)
  end.

Definition rows_of t : list run_row := (map_to_list t).*2.

(** [ORDER BY created_at DESC]; rows of one instant come in any order. *)
Definition created_desc (r1 r2 : run_row) : bool := row_created_at r2 <=? row_created_at r1.

Definition list_by_thread (thread_id : string) (org_id : org_arg) (limit : Z) t : result sql_failure (list run_row) :=
  match resolve org_id with
  | Err e => Err e
  | Ok o =>
      Ok (sql_limit limit (sort_by created_desc
            (List.filter (fun r => String.eqb (row_thread_id r) thread_id && org_matches o r) (rows_of t))))
  end.

(** An UPDATE of one row under a condition: whether it matched. *)
Definition update_where (run_id : string) (matches : run_row -> bool) (f : run_row -> run_row) t : bool * run_table :=
  match t !! run_id with
  | Some r => if matches r then (true, <[run_id := f r]> t) else (false, t)
  | None => (false, t)
  end.

Definition update_status (run_id status : string) (error : option string) (expected_row_version : option Z) (now : Z) t
    : bool * run_table :=
  update_where run_id (cas_matches expected_row_version)
    (fun r => cas_bump expected_row_version (set_row_status status error now r)) t.

Definition update_model_name (run_id : string) (model_name : option string) (now : Z) t : run_table :=
  (update_where run_id (fun _ => true) (set_row_model (normalize_model_name model_name) now) t).2.

Definition delete (run_id : string) (org_id : org_arg) t : result sql_failure unit * run_table :=
  match resolve org_id with
  | Err e => (Err e, t)
  | Ok o =>
      match t !! run_id with
      | Some r => if hidden_from o r then (Ok tt, t) else (Ok tt, base.delete run_id t)
      | None => (Ok tt, t)
      end
  end.

(** [ORDER BY created_at ASC]. *)
Definition list_pending (before : option Z) (now : Z) t : list run_row :=
  sort_by oldest_first
    (List.filter (fun r => String.eqb (row_status r) "pending" && (row_created_at r <=? opt_or before now)) (rows_of t)).

Definition list_inflight (before : option Z) (now : Z) t : list run_row :=
  sort_by oldest_first
    (List.filter (fun r => str_in (row_status r) ["pending"; "running"] && (row_created_at r <=? opt_or before now)) (rows_of t)).

Definition update_run_completion (run_id status : string) (a : completion_args) (expected_row_version : option Z) (now : Z) t
    : bool * run_table :=
  update_where run_id (cas_matches expected_row_version)
    (fun r => cas_bump expected_row_version
                (set_row_usage (merge_usage (completion_columns (comp_usage a)) (row_usage r))
                   (set_row_status status (comp_error a) now r))) t.

Definition update_run_progress (run_id : string) (usage : list (string * option json)) (now : Z) t : run_table :=
  (update_where run_id (fun r => String.eqb (row_status r) "running")
     (fun r => set_row_usage (merge_usage (progress_columns usage) (row_usage r)) (set_updated_at now r)) t).2.

(** [request_cancel]; [updated_at] is set by its [onupdate]. *)
Definition request_cancel (run_id action : string) (now : Z) t : bool * run_table :=
  update_where run_id (fun r => str_in (row_status r) ["pending"; "running"] && negb (row_cancel_requested r))
    (fun r => set_row_cancel action now (set_updated_at now r)) t.

Definition get_cancel_intent (run_id : string) t : option (bool * option string) :=
  (fun r => (row_cancel_requested r, row_cancel_action r)) <$> t !! run_id.

Definition aggregate_tokens_by_thread (thread_id : string) (include_active : bool) t : token_aggregate :=
  aggregate_rows
    (List.filter (fun r => String.eqb (row_thread_id r) thread_id && str_in (row_status r) (completed_statuses include_active))
       (rows_of t)).

(** [RunRow.org_id == resolved_org_id]: without an Org, no row. *)
Definition is_org (o : option string) (r : run_row) : bool := bool_decide (row_org_id r = o) && bool_decide (o <> None).

Definition in_window (since until : option Z) (r : run_row) : bool :=
  match since with Some s => s <=? row_created_at r | None => true end
  && match until with Some u => row_created_at r <=? u | None => true end.

Definition aggregate_tokens_by_org (org_id : org_arg) (since until : option Z) (include_active : bool) t
    : result sql_failure token_aggregate :=
  match resolve org_id with
  | Err e => Err e
  | Ok o =>
      Ok (aggregate_rows
            (List.filter (fun r => is_org o r && str_in (row_status r) (completed_statuses include_active) && in_window since until r)
               (rows_of t)))
  end.

Definition aggregate_stats_by_org (org_id : org_arg) (since until : option Z) (now : Z) t : result sql_failure org_stats :=
  match resolve org_id with
  | Err e => Err e
  | Ok o =>
      let effective_since := opt_or since (now - days7) in
      let effective_until := opt_or until now in
      let windowed := List.filter (fun r => is_org o r && in_window (Some effective_since) (Some effective_until) r) (rows_of t) in
      let runs_by_status := foldl count_status [] windowed in
      let total_runs := sumZ (dict_values runs_by_status) in
      let failures := sumZ ((List.filter (fun p => str_in p.1 FAILURE_STATUSES) runs_by_status).*2) in
      let recent := List.filter (fun r => is_org o r && in_window (Some (now - hours24)) None r) (rows_of t) in
      Ok (mk_org_stats total_runs runs_by_status
            (if total_runs =? 0 then 0%Q else (inject_Z failures / inject_Z total_runs)%Q)
            (Z.of_nat (length recent))
            (Z.of_nat (length (List.filter (fun r => str_in (row_status r) FAILURE_STATUSES) recent)))
            effective_since effective_until)
  end.

Definition list_conditions (o status model : option string) (since until : option Z) (cursor : option (Z * string)) (r : run_row) : bool :=
  is_org o r
  && match status with Some s => String.eqb (row_status r) s | None => true end
  && match model with Some m => bool_decide (row_model_name r = Some m) | None => true end
  && in_window since until r && before_cursor cursor r.

Definition list_runs_by_org (org_id : org_arg) (status model : option string) (since until : option Z) (limit : Z)
    (cursor : option (Z * string)) t : result sql_failure (list run_row * bool) :=
  match resolve org_id with
  | Err e => Err e
  | Ok o =>
      let rows := sql_limit (limit + 1)
                    (sort_by newest_first (List.filter (list_conditions o status model since until cursor) (rows_of t))) in
      let has_more := limit <? Z.of_nat (length rows) in
      Ok (if has_more then py_take limit rows else rows, has_more)
  end.

(** The operations that change the table, on their names in [store_op]; a
    deletion names its Org. *)
Definition sql_apply (op : store_op) t : bool * run_table :=
  match op with
  | OpPut id a now => let '(r, t') := put id a now t in (is_ok r, t')
  | OpStatus id st e v now => update_status id st e v now t
  | OpModel id m now => (true, update_model_name id m now t)
  | OpDelete id org => let '(r, t') := delete id (ExplicitOrg org) t in (is_ok r, t')
  | OpCompletion id st a v now => update_run_completion id st a v now t
  | OpProgress id u now => (true, update_run_progress id u now t)
  | OpCancel id act now => request_cancel id act now t
  end.
End repository.

(** ** The two stores compared *)

(** The counters and the usage by model of a row. *)
Definition counter_of (u : list (string * json)) (k : string) : Z := match dict_get k u with Some (JNum z) => z | _ => 0 end.
Definition models_of (u : list (string * json)) : list (string * json) :=
  match dict_get "token_usage_by_model" u with Some (JObj l) => l | _ => [] end.
Definition usage_view (u : list (string * json)) : list (string * json) :=
  ((fun k => (k, JNum (counter_of u k))) <$> counter_columns) ++ [("token_usage_by_model", JObj (models_of u))].

(** What the two stores agree on: everything but the instant of the last write
    and the last messages, with the model name through [f]. *)
Definition norm (f : option string -> option string) (r : run_row) : run_row :=
  mk_run_row (row_run_id r) (row_thread_id r) (row_assistant_id r) (row_user_id r) (row_org_id r)
    (f (row_model_name r)) (row_status r) (row_multitask_strategy r) (row_metadata r) (row_kwargs r)
    (row_error r) (row_created_at r) 0 (row_version r) (row_cancel_requested r) (row_cancel_action r)
    (row_cancel_requested_at r) (row_release r) (usage_view (row_usage r)).

(** The SQL store keeps the model name normalized. *)
Definition norm_memory : run_row -> run_row := norm normalize_model_name.
Definition norm_sql : run_row -> run_row := norm (fun m => m).

Definition agree (d : run_store) (t : run_table) : Prop :=
  forall run_id, norm_memory <$> dict_get run_id d = norm_sql <$> t !! run_id.

(** Usage as the journal reports it on completion: every counter, and the usage
    of each model. *)
Definition complete_usage (usage : list (string * option json)) : Prop :=
  NoDup usage.*1
  /\ (forall k, k ∈ counter_columns -> exists z, given_value k usage = Some (JNum z))
  /\ exists l, given_value "token_usage_by_model" usage = Some (JObj l).

Definition typed_usage (usage : list (string * option json)) : Prop :=
  NoDup usage.*1
  /\ (forall k v, k ∈ counter_columns -> given_value k usage = Some v -> exists z, v = JNum z)
  /\ (forall v, given_value "token_usage_by_model" usage = Some v -> exists l, v = JObj l).

(** The calls that the run manager makes: the put of a run that is stored
    repeats its creation, before any usage was recorded; the Orgs exist. *)
Definition managed (orgs : gset string) (op : store_op) (d : run_store) : Prop :=
  match op with
  | OpPut id a now =>
      (exists o, put_org_id a = Some o /\ o ∈ orgs)
      /\ forall r, dict_get id d = Some r ->
           row_org_id r = put_org_id a /\ put_created_at a = Some (row_created_at r)
           /\ row_release r = put_release a /\ row_usage r = []
  | OpCompletion _ _ a _ _ => complete_usage (comp_usage a)
  | OpProgress _ u _ => typed_usage u
  | _ => True
  end.

(** Histories of both stores. *)
Fixpoint all_managed (orgs : gset string) (ops : list store_op) (d : run_store) : Prop :=
  match ops with
  | [] => True
  | op :: ops => managed orgs op d /\ all_managed orgs ops (store_apply op d).2
  end.

Fixpoint store_history (ops : list store_op) (d : run_store) : list bool * run_store :=
  match ops with
  | [] => ([], d)
  | op :: ops => let '(b, d) := store_apply op d in let '(bs, d) := store_history ops d in (b :: bs, d)
  end.

Fixpoint sql_history (orgs : gset string) (bound : option string) (ops : list store_op) (t : run_table) : list bool * run_table :=
  match ops with
  | [] => ([], t)
  | op :: ops => let '(b, t) := sql_apply orgs bound op t in let '(bs, t) := sql_history orgs bound ops t in (b :: bs, t)
  end.

(** The totals of an aggregation, without the split by model. *)
Definition totals (a : token_aggregate) : list Z :=
  [agg_total_tokens a; agg_total_input_tokens a; agg_total_output_tokens a; agg_total_runs a; agg_lead_agent a; agg_subagent a; agg_middleware a].

(** *** Lists *)

Lemma fmap_filter {A B} (f : A -> B) (P : B -> bool) (Q : A -> bool) l :
  (forall x, P (f x) = Q x) -> f <$> List.filter Q l = List.filter P (f <$> l).
Proof. intros H. induction l as [|x l IH]; [done|]. rewrite fmap_cons. cbn [List.filter]. rewrite H.
  destruct (Q x); rewrite ?fmap_cons, IH; done. Qed.

Lemma fmap_sort_by {A B} (f : A -> B) (lebA : A -> A -> bool) (lebB : B -> B -> bool) l :
  (forall x y, lebB (f x) (f y) = lebA x y) -> f <$> sort_by lebA l = sort_by lebB (f <$> l).
Proof.
  intros H. induction l as [|x l IH]; [done|]. rewrite fmap_cons.
  change (f <$> insert_by lebA x (sort_by lebA l) = insert_by lebB (f x) (sort_by lebB (f <$> l))). rewrite <-IH.
  generalize (sort_by lebA l). intros k.
  induction k as [|y k IHk]; [done|]. rewrite fmap_cons. cbn [insert_by]. rewrite H. destruct (lebA x y); [done|]. by rewrite fmap_cons, IHk.
Qed.

Lemma filter_perm {A} (P : A -> bool) l l' : l ≡ₚ l' -> List.filter P l ≡ₚ List.filter P l'.
Proof.
  induction 1 as [|x l l' _ IH|x y l|l1 l2 l3 _ IH1 _ IH2]; simpl; [done| | |by rewrite IH1].
  - destruct (P x); by rewrite IH.
  - destruct (P x), (P y); by repeat constructor.
Qed.

Lemma sumZ_perm l l' : l ≡ₚ l' -> sumZ l = sumZ l'.
Proof. induction 1; rewrite ?sumZ_cons; lia. Qed.

(** *** Usage *)

Lemma merge_usage_get patch u k :
  NoDup patch.*1 -> dict_get k (merge_usage patch u) = match given_value k patch with Some v => Some v | None => dict_get k u end.
Proof.
  unfold merge_usage, given_value. revert u. induction patch as [|[k0 v0] patch IH]; intros u; [done|].
  simpl. intros [Hk0 Hnd]%NoDup_cons. rewrite IH by done. case_decide as E.
  - subst k0. assert (dict_get k patch = None) as ->.
    { destruct (dict_get k patch) eqn:Eg; [|done]. destruct Hk0. apply dict_get_Some_elem in Eg. by apply (list_elem_of_fmap_2 fst) in Eg. }
    simpl. destruct v0; [apply dict_get_set_eq|done].
  - destruct (mjoin (dict_get k patch)); [done|]. destruct v0; [by apply dict_get_set_ne|done].
Qed.

Lemma usage_view_eq u u' :
  usage_view u = usage_view u' <-> (forall k, k ∈ counter_columns -> counter_of u k = counter_of u' k) /\ models_of u = models_of u'.
Proof.
  split.
  - unfold usage_view. intros [= U1 U2 U3 U4 U5 U6 U7 U8 U9]. split; [|done].
    intros k Hk. rewrite list_elem_of_In in Hk. simpl in Hk. naive_solver.
  - intros [Hc Hm]. unfold usage_view. f_equal; [|by rewrite Hm]. apply list_fmap_ext. intros i k Hk. rewrite Hc; [done|].
    by eapply list_elem_of_lookup_2.
Qed.

(** Two patches that give the counters and the models the same values. *)
Lemma usage_view_merge p p' u u' :
  NoDup p.*1 -> NoDup p'.*1 -> usage_view u = usage_view u' ->
  (forall k, k ∈ counter_columns -> given_value k p = given_value k p') ->
  given_value "token_usage_by_model" p = given_value "token_usage_by_model" p' ->
  usage_view (merge_usage p u) = usage_view (merge_usage p' u').
Proof.
  intros Hp Hp' [Hc Hm]%usage_view_eq Hk Hmo. apply usage_view_eq. split.
  - intros k Hin. unfold counter_of. rewrite !merge_usage_get, (Hk k Hin) by done.
    destruct (given_value k p'); [done|]. apply (Hc k Hin).
  - unfold models_of. rewrite !merge_usage_get, Hmo by done. destruct (given_value _ p'); [done|]. apply Hm.
Qed.

Lemma completion_columns_view u r r' :
  complete_usage u -> usage_view r = usage_view r' ->
  usage_view (merge_usage u r) = usage_view (merge_usage (completion_columns u) r').
Proof.
  intros (Hnd & Hc & [l Hl]) Hv. apply usage_view_merge; [done| |done| |].
  - apply (bool_decide_unpack _). vm_compute. exact I.
  - intros k Hk. assert (given_value k (completion_columns u) = Some (opt_or (given_value k u) (JNum 0))) as ->.
    { rewrite list_elem_of_In in Hk. simpl in Hk. naive_solver. }
    destruct (Hc k Hk) as [z ->]. done.
  - rewrite Hl. change (Some (JObj l) = Some (or_empty (given_value "token_usage_by_model" u))). rewrite Hl. by destruct l.
Qed.

Lemma progress_columns_view u r r' :
  typed_usage u -> usage_view r = usage_view r' ->
  usage_view (merge_usage u r) = usage_view (merge_usage (progress_columns u) r').
Proof.
  intros (Hnd & Hc & Hl) Hv. apply usage_view_merge; [done| |done| |].
  - apply (bool_decide_unpack _). vm_compute. exact I.
  - intros k Hk. rewrite list_elem_of_In in Hk. simpl in Hk. naive_solver.
  - change (given_value "token_usage_by_model" u = (fun v => or_empty (Some v)) <$> given_value "token_usage_by_model" u).
    destruct (given_value "token_usage_by_model" u) as [v|] eqn:E; [|done]. destruct (Hl v) as [l ->]; [done|]. by destruct l.
Qed.

(** *** Writes *)

Lemma agree_get d t run_id : agree d t ->
  match dict_get run_id d, t !! run_id with
  | Some r, Some r' => norm_memory r = norm_sql r'
  | None, None => True
  | _, _ => False
  end.
Proof. intros H. specialize (H run_id). destruct (dict_get run_id d), (t !! run_id); simpl in H; try done; congruence. Qed.

Lemma agree_set d t run_id r r' :
  agree d t -> norm_memory r = norm_sql r' -> agree (dict_set run_id r d) (<[run_id := r']> t).
Proof.
  intros H Hr k. rewrite dict_get_set. case_decide as E.
  - subst k. rewrite lookup_insert_eq. simpl. by rewrite Hr.
  - rewrite lookup_insert_ne by done. apply H.
Qed.

#[local] Arguments usage_view : simpl never.
#[local] Arguments normalize_model_name : simpl never.

Lemma norm_inv r r' : norm_memory r = norm_sql r' ->
  row_run_id r = row_run_id r'
  /\ row_thread_id r = row_thread_id r'
  /\ row_assistant_id r = row_assistant_id r'
  /\ row_user_id r = row_user_id r'
  /\ row_org_id r = row_org_id r'
  /\ normalize_model_name (row_model_name r) = row_model_name r'
  /\ row_status r = row_status r'
  /\ row_multitask_strategy r = row_multitask_strategy r'
  /\ row_metadata r = row_metadata r'
  /\ row_kwargs r = row_kwargs r'
  /\ row_error r = row_error r'
  /\ row_created_at r = row_created_at r'
  /\ row_version r = row_version r'
  /\ row_cancel_requested r = row_cancel_requested r'
  /\ row_cancel_action r = row_cancel_action r'
  /\ row_cancel_requested_at r = row_cancel_requested_at r'
  /\ row_release r = row_release r'
  /\ usage_view (row_usage r) = usage_view (row_usage r').
Proof.
  intros H. unfold norm_memory, norm_sql in H. split_and!.
  - exact (f_equal row_run_id H).
  - exact (f_equal row_thread_id H).
  - exact (f_equal row_assistant_id H).
  - exact (f_equal row_user_id H).
  - exact (f_equal row_org_id H).
  - exact (f_equal row_model_name H).
  - exact (f_equal row_status H).
  - exact (f_equal row_multitask_strategy H).
  - exact (f_equal row_metadata H).
  - exact (f_equal row_kwargs H).
  - exact (f_equal row_error H).
  - exact (f_equal row_created_at H).
  - exact (f_equal row_version H).
  - exact (f_equal row_cancel_requested H).
  - exact (f_equal row_cancel_action H).
  - exact (f_equal row_cancel_requested_at H).
  - exact (f_equal row_release H).
  - exact (f_equal row_usage H).
Qed.

(** Solves the equality of two normalized rows from that of the rows they were
    made from. *)
Ltac norm_eq H :=
  apply norm_inv in H as (? & ? & ? & ? & ? & ? & ? & ? & ? & ? & ? & ? & ? & ? & ? & ? & ? & ?);
  unfold norm_memory, norm_sql, norm; simpl; f_equal; congruence.

Lemma cas_bump_norm expected r r' :
  norm_memory r = norm_sql r' -> norm_memory (cas_bump expected r) = norm_sql (cas_bump expected r').
Proof. intros H. destruct expected; [|done]. norm_eq H. Qed.

Lemma cas_matches_norm expected r r' : norm_memory r = norm_sql r' -> cas_matches expected r = cas_matches expected r'.
Proof. intros H. destruct expected; [|done]. simpl. apply norm_inv in H as (? & ? & ? & ? & ? & ? & ? & ? & ? & ? & ? & ? & ? & ? & ? & ? & ? & ?). congruence. Qed.

Section compare.
Context (orgs : gset string) (bound : option string).

Lemma put_agrees d t run_id a now :
  store_wf d -> agree d t -> managed orgs (OpPut run_id a now) d ->
  exists t', put orgs run_id a now t = (Ok tt, t') /\ agree (store_put run_id a now d) t'.
Proof using.
  intros Hwf Hag [[o [Ho Hin]] Hman]. unfold put, store_put. pose proof (agree_get d t run_id Hag) as Hg.
  destruct (dict_get run_id d) as [r|] eqn:Ed, (t !! run_id) as [r'|] eqn:Et; try done.
  - eexists. split; [done|]. apply agree_set; [done|]. destruct (Hman r eq_refl) as (H1 & H2 & H3 & H4).
    unfold put_values, merge_pin. rewrite <-H3, <-H1. apply norm_inv in Hg as (? & ? & ? & ? & ? & ? & ? & ? & ? & ? & ? & ? & ? & ? & ? & ? & ? & ?). unfold norm_memory, norm_sql, norm.
    simpl.
    rewrite H2. simpl. destruct (row_release r) as [p1 p2 p3 p4 p5] eqn:Er; simpl in *.
    assert (forall x, keep_pin_field x x = x) as Hk by (by intros []). rewrite !Hk.
    f_equal; try congruence; [pose proof (proj2 Hwf _ _ Ed); congruence|destruct (row_org_id r); congruence].
  - rewrite Ho, bool_decide_eq_true_2 by done. eexists. split; [done|]. apply agree_set; [done|].
    unfold norm_memory, norm_sql, norm, insert_values, merge_pin. simpl. rewrite Ho. f_equal.
Qed.
Lemma update_agrees d t run_id (matches matches' : run_row -> bool) (f g : run_row -> run_row) :
  agree d t -> (forall r r', norm_memory r = norm_sql r' -> matches r = matches' r') ->
  (forall r r', norm_memory r = norm_sql r' -> matches r = true -> norm_memory (f r) = norm_sql (g r')) ->
  let '(b, d') := match dict_get run_id d with Some r => if matches r then (true, dict_set run_id (f r) d) else (false, d) | None => (false, d) end in
  let '(b', t') := update_where run_id matches' g t in b = b' /\ agree d' t'.
Proof using.
  intros Hag Hm Hf. unfold update_where. pose proof (agree_get d t run_id Hag) as Hg.
  destruct (dict_get run_id d) as [r|], (t !! run_id) as [r'|]; try done. rewrite <-(Hm r r' Hg).
  destruct (matches r) eqn:E; [|done]. split; [done|]. apply agree_set; auto.
Qed.

Lemma status_norm status error now r r' :
  norm_memory r = norm_sql r' -> norm_memory (set_row_status status error now r) = norm_sql (set_row_status status error now r').
Proof using. intros H. destruct error; norm_eq H. Qed.

Lemma usage_norm u u' r r' :
  usage_view u = usage_view u' -> norm_memory r = norm_sql r' -> norm_memory (set_row_usage u r) = norm_sql (set_row_usage u' r').
Proof using. intros Hu H. norm_eq H. Qed.

Lemma norm_usage r r' : norm_memory r = norm_sql r' -> usage_view (row_usage r) = usage_view (row_usage r').
Proof using. intros H. apply norm_inv in H; tauto. Qed.

Lemma norm_status r r' : norm_memory r = norm_sql r' -> row_status r = row_status r'.
Proof using. intros H. apply norm_inv in H; tauto. Qed.

(** Every write keeps the two in agreement and answers alike. *)
Lemma apply_agrees op d t :
  store_wf d -> agree d t -> managed orgs op d ->
  (store_apply op d).1 = (sql_apply orgs bound op t).1 /\ agree (store_apply op d).2 (sql_apply orgs bound op t).2.
Proof using.
  intros Hwf Hag Hman. destruct op as [id a now|id st e v now|id m now|id org|id st a v now|id u now|id act now]; simpl.
  - destruct (put_agrees d t id a now Hwf Hag Hman) as (t' & -> & H). by split.
  - unfold store_update_status, update_status.
    pose proof (update_agrees d t id (cas_matches v) (cas_matches v) (fun r => cas_bump v (set_row_status st e now r))
      (fun r => cas_bump v (set_row_status st e now r)) Hag (cas_matches_norm v)) as H.
    destruct (match dict_get id d with Some _ => _ | None => _ end), (update_where _ _ _ _). apply H.
    intros r r' Hr _. by apply cas_bump_norm, status_norm.
  - unfold update_model_name, update_where. pose proof (agree_get d t id Hag) as Hg. unfold store_update_model_name, dict_alter.
    destruct (dict_get id d) as [r|], (t !! id) as [r'|]; try done. split; [done|]. apply agree_set; [done|]. norm_eq Hg.
  - unfold store_delete, delete, resolve. simpl. pose proof (agree_get d t id Hag) as Hg.
    destruct (dict_get id d) as [r|], (t !! id) as [r'|]; try done. unfold hidden_from, org_matches.
    assert (row_org_id r = row_org_id r') as <- by (apply norm_inv in Hg; tauto).
    assert (Hpop : agree (dict_pop id d) (base.delete id t)).
    { intros k. rewrite dict_get_pop by apply Hwf. case_decide as E; [subst k; by rewrite lookup_delete_eq|].
      rewrite lookup_delete_ne by done. apply Hag. }
    destruct org as [o|]; simpl; [case_bool_decide; simpl|]; by split.
  - unfold store_update_run_completion, update_run_completion.
    pose proof (update_agrees d t id (cas_matches v) (cas_matches v)
      (fun r => cas_bump v (set_row_usage (merge_usage (comp_usage a) (row_usage r)) (set_row_status st (comp_error a) now r)))
      (fun r => cas_bump v (set_row_usage (merge_usage (completion_columns (comp_usage a)) (row_usage r)) (set_row_status st (comp_error a) now r)))
      Hag (cas_matches_norm v)) as H.
    destruct (match dict_get id d with Some _ => _ | None => _ end), (update_where _ _ _ _). apply H.
    intros r r' Hr _. apply cas_bump_norm, usage_norm; [|by apply status_norm]. by apply completion_columns_view, norm_usage.
  - unfold store_update_run_progress, update_run_progress, update_where. pose proof (agree_get d t id Hag) as Hg.
    destruct (dict_get id d) as [r|], (t !! id) as [r'|]; try done. rewrite <-(norm_status _ _ Hg).
    destruct (String.eqb (row_status r) "running"); [|done]. split; [done|]. apply agree_set; [done|].
    unfold set_updated_at. rewrite <-(norm_status _ _ Hg). apply usage_norm; [by apply progress_columns_view, norm_usage|by apply status_norm].
  - unfold store_request_cancel, request_cancel, update_where. pose proof (agree_get d t id Hag) as Hg.
    destruct (dict_get id d) as [r|], (t !! id) as [r'|]; try done. rewrite <-(norm_status _ _ Hg).
    assert (row_cancel_requested r = row_cancel_requested r') as <- by (apply norm_inv in Hg; tauto).
    destruct (str_in (row_status r) _); [|done]. destruct (row_cancel_requested r); [done|]. simpl. split; [done|].
    apply agree_set; [done|]. norm_eq Hg.
Qed.

(** *** Reads *)

Lemma values_perm d t : store_wf d -> agree d t -> norm_memory <$> dict_values d ≡ₚ norm_sql <$> rows_of t.
Proof using.
  intros [Hd Hids] Hag.
  assert (Hkey : forall run_id r', t !! run_id = Some r' -> row_run_id r' = run_id).
  { intros run_id r' Hr'. pose proof (agree_get d t run_id Hag) as Hg. rewrite Hr' in Hg.
    destruct (dict_get run_id d) as [r|] eqn:Er; [|done]. rewrite <-(Hids _ _ Er). apply norm_inv in Hg. by destruct Hg as [-> _]. }
  apply NoDup_Permutation.
  - apply (NoDup_fmap_1 row_run_id). rewrite <-list_fmap_compose. unfold dict_values.
    replace ((row_run_id ∘ norm_memory) <$> d.*2) with d.*1; [exact Hd|].
    rewrite <-list_fmap_compose. apply list_fmap_ext. intros i [k r] Hi. simpl. symmetry. apply Hids.
    apply dict_get_elem; [done|]. by eapply list_elem_of_lookup_2.
  - apply (NoDup_fmap_1 row_run_id). rewrite <-list_fmap_compose. unfold rows_of.
    replace ((row_run_id ∘ norm_sql) <$> (map_to_list t).*2) with (map_to_list t).*1; [apply NoDup_fst_map_to_list|].
    rewrite <-list_fmap_compose. apply list_fmap_ext. intros i [k r] Hi. simpl. symmetry. apply Hkey.
    apply elem_of_map_to_list. by eapply list_elem_of_lookup_2.
  - intros x. unfold rows_of. rewrite !list_elem_of_fmap. split.
    + intros (r & -> & Hr). apply dict_values_elem in Hr as [k Hk]. apply dict_get_elem in Hk; [|done].
      pose proof (agree_get d t k Hag) as Hg. rewrite Hk in Hg. destruct (t !! k) as [r'|] eqn:Et; [|done].
      exists r'. split; [done|]. apply list_elem_of_fmap. exists (k, r'). split; [done|]. by apply elem_of_map_to_list.
    + intros (r' & -> & Hr'). apply list_elem_of_fmap in Hr' as ([k r0] & -> & Hk%elem_of_map_to_list). simpl.
      pose proof (agree_get d t k Hag) as Hg. rewrite Hk in Hg. destruct (dict_get k d) as [r|] eqn:Ed; [|done].
      exists r. split; [done|]. apply list_elem_of_fmap. exists (k, r). split; [done|]. by apply dict_get_Some_elem.
Qed.

(** A selection that reads only what the stores agree on. *)
Lemma selection_perm d t (P : run_row -> bool) :
  store_wf d -> agree d t -> (forall f r, P (norm f r) = P r) ->
  norm_memory <$> List.filter P (dict_values d) ≡ₚ norm_sql <$> List.filter P (rows_of t).
Proof using.
  intros Hwf Hag HP. rewrite !(fmap_filter _ P P) by (intros; apply HP). apply filter_perm. by apply values_perm.
Qed.

Lemma page_agrees d t (P : run_row -> bool) :
  store_wf d -> agree d t -> (forall f r, P (norm f r) = P r) ->
  norm_memory <$> sort_by newest_first (List.filter P (dict_values d)) = norm_sql <$> sort_by newest_first (List.filter P (rows_of t)).
Proof using.
  intros Hwf Hag HP. rewrite !(fmap_sort_by _ newest_first newest_first) by done.
  apply (StronglySorted_unique_strong (fun x y => newest_first x y = true)).
  - intros x y. rewrite !sort_by_elem. rewrite <-(selection_perm d t P) by done.
    intros (r1 & -> & H1)%list_elem_of_fmap (r2 & -> & H2)%list_elem_of_fmap Hxy Hyx.
    apply list_elem_of_In, filter_In in H1 as [H1 _], H2 as [H2 _]. apply list_elem_of_In in H1, H2.
    pose proof (key_leb_antisym _ _ Hxy Hyx) as Hk. injection Hk as _ Hid. f_equal. by eapply (store_wf_values_inj d).
  - apply sort_by_sorted; eauto using newest_first_total, newest_first_trans.
  - apply sort_by_sorted; eauto using newest_first_total, newest_first_trans.
  - rewrite !sort_by_perm. by apply selection_perm.
Qed.

Lemma totals_agree d t (P : run_row -> bool) :
  store_wf d -> agree d t -> (forall f r, P (norm f r) = P r) ->
  totals (aggregate_rows (List.filter P (dict_values d))) = totals (aggregate_rows (List.filter P (rows_of t))).
Proof using.
  intros Hwf Hag HP. pose proof (selection_perm d t P Hwf Hag HP) as Hp.
  assert (Hsum : forall k, k ∈ counter_columns ->
    sumZ (usage_int k <$> List.filter P (dict_values d)) = sumZ (usage_int k <$> List.filter P (rows_of t))).
  { intros k Hk. assert (Hn : forall f r, usage_int k (norm f r) = usage_int k r).
    { intros f r. change (counter_of (usage_view (row_usage r)) k = counter_of (row_usage r) k).
      rewrite list_elem_of_In in Hk. simpl in Hk. destruct Hk as [<-|[<-|[<-|[<-|[<-|[<-|[<-|[<-|[]]]]]]]]]; reflexivity. }
    rewrite <-(list_fmap_ext (usage_int k ∘ norm_memory) (usage_int k)), <-(list_fmap_ext (usage_int k ∘ norm_sql) (usage_int k)) by (intros; apply Hn).
    rewrite !list_fmap_compose. apply sumZ_perm. by rewrite Hp. }
  unfold totals, aggregate_rows. simpl. rewrite !Hsum by (apply (bool_decide_unpack _); vm_compute; exact I).
  apply Permutation_length in Hp. rewrite !length_fmap in Hp. by rewrite Hp.
Qed.

Lemma history_agrees ops d t :
  store_wf d -> agree d t -> all_managed orgs ops d ->
  (store_history ops d).1 = (sql_history orgs bound ops t).1
  /\ store_wf (store_history ops d).2 /\ agree (store_history ops d).2 (sql_history orgs bound ops t).2.
Proof using.
  revert d t. induction ops as [|op ops IH]; intros d t Hwf Hag; [done|]. simpl. intros [Hop Hops].
  destruct (apply_agrees op d t Hwf Hag Hop) as [Hb Ha]. pose proof (store_apply_wf op d Hwf) as Hwf'.
  destruct (store_apply op d) as [b d'], (sql_apply orgs bound op t) as [b' t']. simpl in *.
  destruct (IH d' t' Hwf' Ha Hops) as (H1 & H2 & H3).
  destruct (store_history ops d'), (sql_history orgs bound ops t'). simpl in *. by subst.
Qed.

Lemma take_one_more {A} (limit : Z) (l : list A) : 0 <= limit ->
  let rows := sql_limit (limit + 1) l in
  (limit <? Z.of_nat (length rows)) = (limit <? Z.of_nat (length l))
  /\ (if limit <? Z.of_nat (length rows) then py_take limit rows else rows) = py_take limit l.
Proof using.
  intros Hl. unfold sql_limit, py_take. destruct (Z.ltb_spec (limit + 1) 0); [lia|]. destruct (Z.ltb_spec limit 0); [lia|]. simpl.
  rewrite length_take. split.
  - destruct (Z.ltb_spec limit (Z.of_nat (length l))), (Z.ltb_spec limit (Z.of_nat (Z.to_nat (limit + 1) `min` length l))); lia.
  - destruct (Z.ltb_spec limit (Z.of_nat (Z.to_nat (limit + 1) `min` length l))).
    + rewrite take_take. f_equal. lia.
    + rewrite !take_ge by lia. done.
Qed.

(** (C35) The two run stores are interchangeable.  After any history of calls as the
    manager makes them, started on empty stores, both stores have given the
    same answers, compare-and-set results included; they hold the same runs,
    apart from the instant of the last write and the last messages; and they
    answer alike: reads of a run, cancel intents, the runs to recover, the
    pages of an Org's console in the same order with the same [has_more], and
    the token totals of a thread. *)
Theorem run_stores_interchangeable ops :
  all_managed orgs ops [] ->
  let '(answers, d) := store_history ops [] in
  let '(answers', t) := sql_history orgs bound ops ∅ in
  answers = answers' /\ agree d t
  /\ (forall run_id o, norm_memory <$> store_get run_id o d = norm_sql <$> (match get bound run_id (ExplicitOrg o) t with Ok r => r | Err _ => None end))
  /\ (forall run_id, store_get_cancel_intent run_id d = get_cancel_intent run_id t)
  /\ (forall before now, norm_memory <$> store_list_inflight before now d ≡ₚ norm_sql <$> list_inflight before now t)
  /\ (forall org status since until limit cursor, 0 <= limit ->
        let '(page, has_more) := store_list_runs_by_org (mk_org_filter (Some org) status None since until) limit cursor d in
        exists page', list_runs_by_org bound (ExplicitOrg (Some org)) status None since until limit cursor t = Ok (page', has_more)
          /\ norm_memory <$> page = norm_sql <$> page')
  /\ (forall thread_id include_active,
        totals (store_aggregate_tokens_by_thread thread_id include_active d) = totals (aggregate_tokens_by_thread thread_id include_active t)).
Proof using.
  intros Hops. assert (Hwf0 : store_wf []) by (split; [constructor|done]). assert (Hag0 : agree [] ∅) by (intros k; by rewrite lookup_empty).
  destruct (history_agrees ops [] ∅ Hwf0 Hag0 Hops) as (Hans & Hwf & Hag).
  destruct (store_history ops []) as [answers d], (sql_history orgs bound ops ∅) as [answers' t]. simpl in *.
  split; [done|]. split; [done|]. split; [|split; [|split; [|split]]].
  - intros run_id o. unfold store_get, get, resolve. simpl. pose proof (agree_get d t run_id Hag) as Hg.
    destruct (dict_get run_id d) as [r|], (t !! run_id) as [r'|]; try done. unfold hidden_from, org_matches.
    assert (row_org_id r = row_org_id r') as <- by (apply norm_inv in Hg; tauto).
    destruct o as [o|]; [case_bool_decide|]; simpl; congruence.
  - intros run_id. unfold store_get_cancel_intent, get_cancel_intent. pose proof (agree_get d t run_id Hag) as Hg.
    destruct (dict_get run_id d) as [r|], (t !! run_id) as [r'|]; try done. simpl. apply norm_inv in Hg.
    do 2 f_equal; tauto.
  - intros before now. unfold store_list_inflight, list_inflight. rewrite !sort_by_perm. by apply selection_perm.
  - intros org status since until limit cursor Hlim. unfold store_list_runs_by_org, list_runs_by_org, resolve. simpl.
    set (P := list_conditions (Some org) status None since until cursor).
    assert (Hfilter : List.filter (before_cursor cursor) (List.filter (org_filter_matches (mk_org_filter (Some org) status None since until)) (dict_values d))
      = List.filter P (dict_values d)).
    { generalize (dict_values d). intros l. induction l as [|r l IH]; [done|]. simpl. rewrite <-IH.
      assert (P r = org_filter_matches (mk_org_filter (Some org) status None since until) r && before_cursor cursor r) as ->.
      { unfold P, list_conditions, org_filter_matches, is_org, in_window, org_matches. simpl.
        rewrite !andb_true_r, !andb_assoc. done. }
      destruct (org_filter_matches _ r); simpl; [|done]. by destruct (before_cursor cursor r). }
    rewrite Hfilter. assert (HP : forall f r, P (norm f r) = P r) by done.
    pose proof (page_agrees d t P Hwf Hag HP) as Hpage.
    set (l' := sort_by newest_first (List.filter P (rows_of t))) in *. destruct (take_one_more limit l' Hlim) as [Hm Hr].
    exists (py_take limit l'). simpl in Hr. rewrite Hr, Hm. split.
    + do 2 f_equal. rewrite <-(sort_by_length newest_first (List.filter P (dict_values d))).
      apply (f_equal length) in Hpage. rewrite !length_fmap in Hpage. by rewrite Hpage.
    + rewrite !py_take_nonneg by done. by rewrite !fmap_take, Hpage.
  - intros thread_id include_active. by apply totals_agree.
Qed.
End compare.

(** ** The store behind the manager's interface *)

Record sql_runs : Type := mk_sql_runs { sr_table : run_table; sr_orgs : gset string; sr_bound : option string }.

Definition sql_exception (e : sql_failure) : exc :=
  mk_exc {[0%nat := mk_exc_node (match e with IntegrityError => "IntegrityError" | NoTenant => "RuntimeError" end) false None None None None]} 0.

Definition with_table {A} (s : sql_runs) (x : A * run_table) : result exc A * sql_runs :=
  (Ok x.1, mk_sql_runs x.2 (sr_orgs s) (sr_bound s)).

Definition read_table {A} (s : sql_runs) (x : result sql_failure A) : result exc A * sql_runs :=
  (match x with Ok a => Ok a | Err e => Err (sql_exception e) end, s).

(** The manager reads a run with the Org of its context, and lists with the Org
    it names. *)
#[global] Instance sql_api : RunStoreApi sql_runs := {|
  api_put run_id a now s :=
    match put (sr_orgs s) run_id a now (sr_table s) with
    | (Ok _, t) => (Ok tt, mk_sql_runs t (sr_orgs s) (sr_bound s))
    | (Err e, _) => (Err (sql_exception e), s)
    end;
  api_get run_id s := read_table s (get (sr_bound s) run_id AUTO_ORG (sr_table s));
  api_list_by_thread thread_id o n s := read_table s (list_by_thread (sr_bound s) thread_id (ExplicitOrg o) n (sr_table s));
  api_update_status run_id st e v now s := with_table s (update_status run_id st e v now (sr_table s));
  api_update_model_name run_id m now s := with_table s (tt, update_model_name run_id m now (sr_table s));
  api_update_run_completion run_id st a v now s := with_table s (update_run_completion run_id st a v now (sr_table s));
  api_update_run_progress run_id u now s := with_table s (tt, update_run_progress run_id u now (sr_table s));
  api_request_cancel run_id act now s := with_table s (request_cancel run_id act now (sr_table s));
  api_get_cancel_intent run_id s := with_table s (get_cancel_intent run_id (sr_table s), sr_table s);
  api_list_inflight b now s := with_table s (list_inflight b now (sr_table s), sr_table s)
|}.

(** ** A concrete history *)

Definition demo_put (org : string) : put_args :=
  mk_put_args "t1" None None (Some org) (Some " gpt ") "pending" "reject" None None None (Some 10) (mk_release_pin None None None None true).

Definition demo_usage : list (string * option json) :=
  ((fun k => (k, Some (JNum 7))) <$> counter_columns) ++ [("token_usage_by_model", Some (JObj [("gpt", JObj [("total_tokens", JNum 7)])]))].

Definition demo_ops : list store_op :=
  [OpPut "r1" (demo_put "acme") 10; OpStatus "r1" "running" None (Some 1) 11; OpStatus "r1" "interrupted" None (Some 1) 12;
   OpCancel "r1" "interrupt" 13; OpCompletion "r1" "success" (mk_completion_args None demo_usage) (Some 2) 14].

Example demo_answers : (sql_history {["acme"]} None demo_ops ∅).1 = [true; true; false; true; true].
Proof. vm_compute. reflexivity. Qed.

Lemma demo_usage_complete : complete_usage demo_usage.
Proof.
  split; [apply (bool_decide_unpack _); vm_compute; exact I|]. split; [|by eexists].
  intros k Hk. exists 7. rewrite list_elem_of_In in Hk. simpl in Hk. naive_solver.
Qed.

Lemma run_stores_interchangeable_witness :
  let t := (sql_history {["acme"]} None demo_ops ∅).2 in
  totals (aggregate_tokens_by_thread "t1" false t) = [7; 7; 7; 1; 7; 7; 7]
  /\ totals (aggregate_tokens_by_thread "t1" false t)
     = totals (store_aggregate_tokens_by_thread "t1" false (store_history demo_ops []).2).
Proof.
  split; [vm_compute; reflexivity|].
  pose proof (run_stores_interchangeable {["acme"]} None demo_ops) as H.
  destruct (store_history demo_ops []) as [a d], (sql_history {["acme"]} None demo_ops ∅) as [b t].
  destruct H as (_ & _ & _ & _ & _ & _ & H).
  - split; [split; [exists "acme"; split; [reflexivity|set_solver]|intros r [=]]|].
    repeat split; exact (proj1 demo_usage_complete) || exact (proj1 (proj2 demo_usage_complete)) || exact (proj2 (proj2 demo_usage_complete)).
  - symmetry. apply H.
Defined.

(** Where the stores differ: a second put with another Org moves the run in
    memory and not in SQL, and the counters of a finished run are lost in
    memory only. *)
Example memory_put_moves_org :
  let ops := demo_ops ++ [OpPut "r1" (demo_put "beta") 20] in
  (row_org_id <$> dict_get "r1" (store_history ops []).2) = Some (Some "beta")
  /\ (row_org_id <$> (sql_history {["acme"]} None ops ∅).2 !! "r1") = Some (Some "acme")
  /\ (usage_int "total_tokens" <$> dict_get "r1" (store_history ops []).2) = Some 0
  /\ (usage_int "total_tokens" <$> (sql_history {["acme"]} None ops ∅).2 !! "r1") = Some 7.
Proof. vm_compute. repeat split; reflexivity. Qed.
