(* ===== verification/LlmErrors.v ===== *)
(** * Retries and circuit breaker of model calls

    [agents/middlewares/llm_error_handling_middleware.py]: the classification of
    provider errors, the retry loop around a model call and the circuit breaker
    that the calls of a middleware share.  Texts are UTF-8 bytes; instants are
    microseconds. *)
From S2P Require Import Prelude PyString Retry Serialization Worker.
From stdpp Require Import gmap pretty.
From Stdlib Require Import QArith.
#[local] Close Scope Q_scope.
Local Open Scope string_scope.
Local Open Scope Z_scope.
Local Open Scope list_scope.

(** ** Errors *)

Definition _RETRIABLE_STATUS_CODES : list Z := [408; 409; 425; 429; 500; 502; 503; 504].
Definition _BUSY_PATTERNS : list string :=
  ["server busy"; "temporarily unavailable"; "try again later"; "please retry"; "please try again"; "overloaded";
   "high demand"; "rate limit"; "负载较高"; "服务繁忙"; "稍后重试"; "请稍后重试"].
Definition _QUOTA_PATTERNS : list string :=
  ["insufficient_quota"; "quota"; "billing"; "credit"; "payment"; "余额不足"; "超出限额"; "额度不足"; "欠费"].
Definition _AUTH_PATTERNS : list string :=
  ["authentication"; "unauthorized"; "invalid api key"; "invalid_api_key"; "permission"; "forbidden"; "access denied"; "无权"; "未授权"].
Definition _RETRY_BUDGET_OVERRIDES : list (string * Z) := [("StreamChunkTimeoutError", 2)].
Definition _STREAM_DROP_EXCEPTIONS : list string := ["StreamChunkTimeoutError"].
Definition _TRANSIENT_EXCEPTIONS : list string :=
  ["APITimeoutError"; "APIConnectionError"; "InternalServerError"; "ReadError"; "RemoteProtocolError"; "StreamChunkTimeoutError"].

(** What the middleware reads of an exception: its class name, its text, the
    attributes [message], [code], [error_code], [body], [status_code] and
    [status], and of its response the status and the headers.  [None] is a
    missing attribute or [None] itself. *)
Record llm_exception : Type := mk_llm_exception {
  le_name : string;
  le_text : string;
  le_message : option json;
  le_code : option json;
  le_error_code : option json;
  le_body : option json;
  le_status_code : option json;
  le_status : option json;
  le_response : option (option json * option (list (string * string)))
}.

(** [value not in (None, "")]. *)
Definition present (v : option json) : option json :=
  match v with None | Some JNull | Some (JStr "") => None | Some v => Some v end.

Fixpoint first_of {A} (l : list (option A)) : option A :=
  match l with [] => None | Some a :: _ => Some a | None :: l => first_of l end.

Definition extract_error_code (e : llm_exception) : option json :=
  match first_of [present (le_code e); present (le_error_code e)] with
  | Some v => Some v
  | None =>
      match le_body e with
      | Some (JObj body) =>
          match dict_get "error" body with
          | Some (JObj error) => first_of [present (dict_get "code" error); present (dict_get "type" error)]
          | _ => None
          end
      | _ => None
      end
  end.

(** [isinstance(value, int)]; a boolean is an integer. *)
Definition as_int (v : option json) : option Z :=
  match v with Some (JNum z) => Some z | Some (JBool b) => Some (if b then 1 else 0) | _ => None end.

Definition extract_status_code (e : llm_exception) : option Z :=
  first_of [as_int (le_status_code e); as_int (le_status e); as_int (le_response e ≫= fst)].

Definition extract_error_detail (e : llm_exception) : string :=
  if negb (String.eqb (strip (le_text e)) "") then strip (le_text e)
  else match le_message e with
       | Some (JStr m) => if negb (String.eqb (strip m) "") then strip m else le_name e
       | _ => le_name e
       end.

Definition matches_any (detail : string) (patterns : list string) : bool := existsb (fun p => contains p detail) patterns.

(** ** The middleware *)

Definition retry_max_attempts : Z := 3.
Definition retry_base_delay_ms : Z := 1000.
Definition retry_cap_delay_ms : Z := 8000.

(** [float(raw)]. *)
Inductive float_value : Type := Finite (q : Q) | Infinite | NaN.

Section middleware.
(** [str] of an error code, [float] and [parsedate_to_datetime] of a header (an
    instant), the settings of the breaker. *)
Context (json_str : json -> string) (parse_float : string -> option float_value) (parse_date : string -> option Z).
Context (circuit_failure_threshold circuit_recovery_timeout : Z).

Definition max_attempts_for (e : llm_exception) : Z :=
  match dict_get (le_name e) _RETRY_BUDGET_OVERRIDES with
  | Some budget => Z.min budget retry_max_attempts
  | None => retry_max_attempts
  end.

Definition code_text (v : option json) : string :=
  match v with None => "None" | Some (JStr s) => s | Some v => json_str v end.

Definition classify_error (e : llm_exception) : bool * string :=
  let lowered := str_lower (extract_error_detail e) in
  if matches_any lowered _QUOTA_PATTERNS || matches_any (str_lower (code_text (extract_error_code e))) _QUOTA_PATTERNS then (false, "quota")
  else if matches_any lowered _AUTH_PATTERNS then (false, "auth")
  else if str_in (le_name e) _TRANSIENT_EXCEPTIONS then (true, "transient")
  else if match extract_status_code e with Some c => bool_decide (c ∈ _RETRIABLE_STATUS_CODES) | None => false end then (true, "transient")
  else if matches_any lowered _BUSY_PATTERNS then (true, "busy")
  else (false, "generic").

(** [_extract_retry_after_ms]: the first header that is set, and whether it is
    in milliseconds.  The error is the [OverflowError] of [int(inf)]. *)
Definition retry_after_header (e : llm_exception) : option (bool * string) :=
  match le_response e with
  | Some (_, Some headers) =>
      first_of ((fun key => match dict_get key headers with
                            | Some raw => if String.eqb raw "" then None else Some (contains "ms" (str_lower key), raw)
                            | None => None
                            end) <$> ["retry-after-ms"; "Retry-After-Ms"; "retry-after"; "Retry-After"])
  | _ => None
  end.

(** [int(x)]. *)
Definition truncate (q : Q) : Z := Z.quot (Qnum q) (Zpos (Qden q)).

Definition date_delay (raw : string) (now : Z) : option Z :=
  (fun target => Z.max 0 (Z.quot (target - now) 1000)) <$> parse_date raw.

Definition extract_retry_after_ms (e : llm_exception) (now : Z) : result string (option Z) :=
  match retry_after_header e with
  | None => Ok None
  | Some (ms, raw) =>
      match parse_float raw with
      | Some (Finite q) => Ok (Some (Z.max 0 (truncate (q * (if ms then 1 else 1000))%Q)))
      | Some Infinite => Err "OverflowError"
      | Some NaN | None => Ok (date_delay raw now)
      end
  end.

Definition build_retry_delay_ms (attempt : Z) (e : llm_exception) (now : Z) : result string Z :=
  result_bind (extract_retry_after_ms e now) (fun retry_after =>
  Ok (opt_or retry_after (Z.min (retry_base_delay_ms * 2 ^ Z.max 0 (attempt - 1)) retry_cap_delay_ms))).

(** [round(n / 1000)], ties to even. *)
Definition round_thousandth (n : Z) : Z :=
  let q := n / 1000 in let r := n mod 1000 in
  if r <? 500 then q else if 500 <? r then q + 1 else if Z.even q then q else q + 1.

Definition build_retry_message (attempt wait_ms : Z) (reason : string) : string :=
  let seconds := Z.max 1 (round_thousandth wait_ms) in
  let reason_text := if String.eqb reason "busy" then "provider is busy" else "provider request failed temporarily" in
  "LLM request retry " +:+ pretty attempt +:+ "/" +:+ pretty retry_max_attempts +:+ ": " +:+ reason_text
  +:+ ". Retrying in " +:+ pretty seconds +:+ "s.".

(** [_emit_retry_event]. *)
Definition retry_event (attempt wait_ms : Z) (reason : string) : list (string * json) :=
  [("type", JStr "llm_retry"); ("attempt", JNum attempt); ("max_attempts", JNum retry_max_attempts); ("wait_ms", JNum wait_ms);
   ("reason", JStr reason); ("message", JStr (build_retry_message attempt wait_ms reason))].

Definition build_circuit_breaker_message : string :=
  "The configured LLM provider is currently unavailable due to continuous failures. Circuit breaker is engaged to protect the system. Please wait a moment before trying again.".

(** An assistant message: its text and [additional_kwargs]. *)
Record fallback : Type := mk_fallback { fb_content : string; fb_kwargs : list (string * json) }.

Definition build_error_fallback_message (content error_type reason detail : string) : fallback :=
  mk_fallback content
    [("deerflow_error_fallback", JBool true); ("error_type", JStr error_type); ("error_reason", JStr reason); ("error_detail", JStr detail)].

Definition build_user_message (e : llm_exception) (reason : string) : string :=
  if String.eqb reason "quota" then
    "The configured LLM provider rejected the request because the account is out of quota, billing is unavailable, or usage is restricted. Please fix the provider account and try again."
  else if String.eqb reason "auth" then
    "The configured LLM provider rejected the request because authentication or access is invalid. Please check the provider credentials and try again."
  else if str_in reason ["busy"; "transient"] then
    if str_in (le_name e) _STREAM_DROP_EXCEPTIONS then
      "The model's streaming response was interrupted before it could finish. This usually happens when a single response or tool call is very large — please ask the assistant to split the work into smaller steps, or shorten the requested output, and try again."
    else "The configured LLM provider is temporarily unavailable after multiple retries. Please wait a moment and continue the conversation."
  else "LLM request failed: " +:+ extract_error_detail e.

Definition build_user_fallback_message (e : llm_exception) (reason : string) : fallback :=
  build_error_fallback_message (build_user_message e reason) (le_name e) reason (extract_error_detail e).

Definition circuit_fallback : fallback :=
  build_error_fallback_message build_circuit_breaker_message "CircuitBreakerOpen" "circuit_open" "LLM circuit breaker is open".

(** ** The circuit breaker *)

Inductive circuit_state : Type := Closed | Open | HalfOpen.

#[global] Instance circuit_state_eq_dec : EqDecision circuit_state.
Proof. solve_decision. Defined.

Record breaker : Type := mk_breaker {
  cb_failure_count : Z;
  cb_open_until : Z;
  cb_state : circuit_state;
  cb_probe_in_flight : bool
}.

Definition new_breaker : breaker := mk_breaker 0 0 Closed false.

(** [_check_circuit]: whether to fail at once. *)
Definition check_circuit (now : Z) (b : breaker) : bool * breaker :=
  if bool_decide (cb_state b = Open) && (now <? cb_open_until b) then (true, b)
  else
    let b := if bool_decide (cb_state b = Open) then mk_breaker (cb_failure_count b) (cb_open_until b) HalfOpen false else b in
    match cb_state b with
    | HalfOpen =>
        if cb_probe_in_flight b then (true, b)
        else (false, mk_breaker (cb_failure_count b) (cb_open_until b) HalfOpen true)
    | _ => (false, b)
    end.

Definition record_success (_ : breaker) : breaker := mk_breaker 0 0 Closed false.

Definition record_failure (now : Z) (b : breaker) : breaker :=
  match cb_state b with
  | HalfOpen => mk_breaker (cb_failure_count b) (now + circuit_recovery_timeout) Open false
  | st =>
      let count := cb_failure_count b + 1 in
      if circuit_failure_threshold <=? count
      then mk_breaker count (now + circuit_recovery_timeout) Open (if bool_decide (st = Open) then cb_probe_in_flight b else false)
      else mk_breaker count (cb_open_until b) st (cb_probe_in_flight b)
  end.

(** The [GraphBubbleUp] handler. *)
Definition release_probe (b : breaker) : breaker :=
  match cb_state b with
  | HalfOpen => mk_breaker (cb_failure_count b) (cb_open_until b) HalfOpen false
  | _ => b
  end.

(** ** The wrapped call *)

(** How one invocation of the handler ends.  [Interrupted] is an exception that
    is not an [Exception]: the cancellation of the task. *)
Inductive outcome : Type :=
| Returned (response : json)
| BubbleUp
| Raised (e : llm_exception)
| Interrupted.

Inductive answer : Type :=
| Response (response : json)
| Fallback (message : fallback)
| Reraised (o : outcome)
| Escaped (error : string).

(** The end of one attempt: an answer, or a retry after a delay with its
    event. *)
Definition after_attempt (attempt : Z) (o : outcome) (now : Z) (b : breaker) : (answer + Z * list (string * json)) * breaker :=
  match o with
  | Returned response => (inl (Response response), record_success b)
  | BubbleUp => (inl (Reraised BubbleUp), release_probe b)
  | Interrupted => (inl (Reraised Interrupted), b)
  | Raised e =>
      let '(retriable, reason) := classify_error e in
      if retriable && (attempt <? max_attempts_for e) then
        match build_retry_delay_ms attempt e now with
        | Ok wait_ms => (inr (wait_ms, retry_event attempt wait_ms reason), b)
        | Err error => (inl (Escaped error), b)
        end
      else (inl (Fallback (build_user_fallback_message e reason)), if retriable then record_failure now b else b)
  end.

(** The loop on a call alone: [handler n] is how the [n]-th attempt ends, the
    clock advances by the delays. *)
Fixpoint attempts (fuel : nat) (handler : Z -> outcome) (attempt now : Z) (b : breaker)
    : option (answer * list (Z * list (string * json)) * breaker) :=
  match fuel with
  | O => None
  | S fuel =>
      match after_attempt attempt (handler attempt) now b with
      | (inl a, b) => Some (a, [], b)
      | (inr (wait_ms, event), b) =>
          '(a, retries, b) ← attempts fuel handler (attempt + 1) (now + wait_ms * 1000) b;
          Some (a, (wait_ms, event) :: retries, b)
      end
  end.

Definition wrap_model_call (handler : Z -> outcome) (now : Z) (b : breaker) : option (answer * list (Z * list (string * json)) * breaker) :=
  let '(refused, b) := check_circuit now b in
  if refused then Some (Fallback circuit_fallback, [], b) else attempts (Z.to_nat retry_max_attempts) handler 1 now b.

(** ** Concurrent calls *)

(** The calls that share a breaker: the attempt each one is on, the clock, and
    the answers given, newest last. *)
Record llm_system : Type := mk_llm_system {
  ls_breaker : breaker;
  ls_calls : gmap nat Z;
  ls_clock : Z;
  ls_answers : list (nat * answer)
}.

Inductive llm_event : Type :=
| Pass (microseconds : Z)
| Begin (call : nat)
| Finish (call : nat) (o : outcome).

Definition llm_step (ev : llm_event) (s : llm_system) : llm_system :=
  match ev with
  | Pass d => mk_llm_system (ls_breaker s) (ls_calls s) (ls_clock s + Z.max 0 d) (ls_answers s)
  | Begin call =>
      match ls_calls s !! call with
      | Some _ => s
      | None =>
          let '(refused, b) := check_circuit (ls_clock s) (ls_breaker s) in
          if refused then mk_llm_system b (ls_calls s) (ls_clock s) (ls_answers s ++ [(call, Fallback circuit_fallback)])
          else mk_llm_system b (<[call := 1]> (ls_calls s)) (ls_clock s) (ls_answers s)
      end
  | Finish call o =>
      match ls_calls s !! call with
      | None => s
      | Some attempt =>
          match after_attempt attempt o (ls_clock s) (ls_breaker s) with
          | (inl a, b) => mk_llm_system b (base.delete call (ls_calls s)) (ls_clock s) (ls_answers s ++ [(call, a)])
          | (inr _, b) => mk_llm_system b (<[call := attempt + 1]> (ls_calls s)) (ls_clock s) (ls_answers s)
          end
      end
  end.

Definition llm_run (events : list llm_event) (s : llm_system) : llm_system := foldl (fun s ev => llm_step ev s) s events.
Definition llm_start (now : Z) : llm_system := mk_llm_system new_breaker ∅ now [].
End middleware.
