(* ===== verification/LlmErrorsProps.v ===== *)
(** * What the retries and the circuit breaker promise *)
From S2P Require Import Prelude PyString Retry Serialization Worker LlmErrors.
From stdpp Require Import gmap.
From Stdlib Require Import QArith.
#[local] Close Scope Q_scope.
Local Open Scope string_scope.
Local Open Scope Z_scope.
Local Open Scope list_scope.

(** The fallbacks of errors that were worth a retry. *)
Definition is_exhausted (a : answer) : bool :=
  match a with
  | Fallback m => match dict_get "error_reason" (fb_kwargs m) with Some (JStr r) => str_in r ["transient"; "busy"] | _ => false end
  | _ => false
  end.

(** The calls that failed for good since the last response. *)
Definition failures_since (answers : list (nat * answer)) : Z :=
  foldl (fun n p => match p.2 with Response _ => 0 | a => if is_exhausted a then n + 1 else n end) 0 answers.

Lemma failures_since_snoc answers c a :
  failures_since (answers ++ [(c, a)])
  = match a with Response _ => 0 | _ => if is_exhausted a then failures_since answers + 1 else failures_since answers end.
Proof. unfold failures_since. rewrite foldl_app. by destruct a. Qed.

Section props.
Context (json_str : json -> string) (parse_float : string -> option float_value) (parse_date : string -> option Z).
Context (threshold recovery : Z) (threshold_pos : 1 <= threshold) (recovery_nonneg : 0 <= recovery).
Local Notation classify_error := (classify_error json_str).
Local Notation after_attempt := (after_attempt json_str parse_float parse_date threshold recovery).
Local Notation attempts := (attempts json_str parse_float parse_date threshold recovery).
Local Notation wrap_model_call := (wrap_model_call json_str parse_float parse_date threshold recovery).
Local Notation llm_step := (llm_step json_str parse_float parse_date threshold recovery).
Local Notation llm_run := (llm_run json_str parse_float parse_date threshold recovery).
Local Notation record_failure := (record_failure threshold recovery).

(** Errors worth a retry are told by their reason. *)
Lemma classify_reason e retriable reason :
  classify_error e = (retriable, reason) -> reason <> "" /\ str_in reason ["transient"; "busy"] = retriable.
Proof using. unfold LlmErrors.classify_error. repeat case_match; intros [= <- <-]; done. Qed.

(** ** The breaker *)

Definition breaker_ok (failures : Z) (b : breaker) : Prop :=
  0 <= failures
  /\ match cb_state b with
     | Closed => cb_failure_count b = failures /\ failures < threshold /\ cb_probe_in_flight b = false
     | Open => threshold <= cb_failure_count b /\ threshold <= failures /\ cb_probe_in_flight b = false
     | HalfOpen => threshold <= cb_failure_count b /\ threshold <= failures
     end.

Lemma check_circuit_ok failures now b : breaker_ok failures b -> breaker_ok failures (check_circuit now b).2.
Proof using.
  intros [H0 H]. unfold check_circuit, breaker_ok. destruct (cb_state b) eqn:Es; simpl.
  - rewrite Es. simpl. rewrite Es. done.
  - destruct (now <? cb_open_until b); simpl; [by rewrite Es|]. naive_solver.
  - rewrite Es. destruct (cb_probe_in_flight b); simpl; [by rewrite Es|done].
Qed.

Lemma record_failure_ok failures now b : breaker_ok failures b -> breaker_ok (failures + 1) (record_failure now b).
Proof using.
  intros [H0 H]. unfold LlmErrors.record_failure, breaker_ok. destruct (cb_state b) eqn:Es; simpl.
  - destruct (Z.leb_spec threshold (cb_failure_count b + 1)); simpl; [lia|]. rewrite ?Es. naive_solver lia.
  - destruct (Z.leb_spec threshold (cb_failure_count b + 1)); simpl; [|lia]. naive_solver lia.
  - lia.
Qed.

Lemma after_attempt_ok failures attempt o now b :
  breaker_ok failures b ->
  let '(r, b') := after_attempt attempt o now b in
  match r with
  | inl (Response _) => breaker_ok 0 b'
  | inl a => breaker_ok (if is_exhausted a then failures + 1 else failures) b'
  | inr _ => breaker_ok failures b'
  end.
Proof using threshold_pos.
  intros Hok. destruct o as [resp| |e|]; simpl; [split; simpl; [done|split; [done|split; [lia|done]]]| | |done].
  - unfold release_probe. destruct Hok as [H0 H]. unfold breaker_ok. destruct (cb_state b) eqn:Es; simpl; rewrite ?Es; done.
  - destruct (classify_error e) as [retriable reason] eqn:Ec. apply classify_reason in Ec as [_ Hr].
    destruct (retriable && (attempt <? max_attempts_for e)).
    + destruct (build_retry_delay_ms _ _ _ _ _); [done|exact Hok].
    + simpl. rewrite Hr. destruct retriable; [by apply record_failure_ok|done].
Qed.

Definition system_ok (s : llm_system) : Prop :=
  breaker_ok (failures_since (ls_answers s)) (ls_breaker s)
  /\ forall call attempt, ls_calls s !! call = Some attempt -> 1 <= attempt <= retry_max_attempts.

Lemma max_attempts_le e : max_attempts_for e <= retry_max_attempts.
Proof using. unfold max_attempts_for. destruct (dict_get _ _); lia. Qed.

Lemma step_ok ev s : system_ok s -> system_ok (llm_step ev s).
Proof using threshold_pos.
  intros [Hb Hc]. destruct ev as [d|call|call o]; simpl; [done| |].
  - destruct (ls_calls s !! call) eqn:El; [done|]. pose proof (check_circuit_ok _ (ls_clock s) _ Hb) as Hb'.
    destruct (check_circuit (ls_clock s) (ls_breaker s)) as [refused b]. destruct refused; split; simpl in *.
    + rewrite failures_since_snoc. done.
    + done.
    + done.
    + intros c a. destruct (decide (c = call)) as [->|Hne]; [rewrite lookup_insert_eq; intros [= <-]; done|rewrite lookup_insert_ne by done; apply Hc].
  - destruct (ls_calls s !! call) as [attempt|] eqn:El; [|done]. pose proof (after_attempt_ok _ attempt o (ls_clock s) _ Hb) as Hb'.
    destruct (after_attempt attempt o (ls_clock s) (ls_breaker s)) as [[a|p] b] eqn:Ea; split; simpl.
    + rewrite failures_since_snoc. by destruct a.
    + intros c x [Hne Hx]%lookup_delete_Some. by eapply Hc.
    + done.
    + intros c x. destruct (decide (c = call)) as [->|Hne]; [rewrite lookup_insert_eq; intros [= <-]|rewrite lookup_insert_ne by done; apply Hc].
      destruct (Hc _ _ El) as [H1 H2]. destruct o as [| |e|]; simpl in Ea; try done.
      destruct (classify_error e) as [retriable reason]. destruct retriable; simpl in Ea; [|done].
      destruct (Z.ltb_spec attempt (max_attempts_for e)); [|done]. pose proof (max_attempts_le e). lia.
Qed.

Lemma run_ok events s : system_ok s -> system_ok (llm_run events s).
Proof using threshold_pos. unfold LlmErrors.llm_run. revert s. induction events as [|ev events IH]; intros s Hs; [done|]. simpl. apply IH. by apply step_ok. Qed.

Lemma start_system_ok now : system_ok (llm_start now).
Proof using threshold_pos.
  split; [|intros c a; simpl; by rewrite lookup_empty]. unfold breaker_ok, failures_since. simpl. split_and!; [done|done|lia|done].
Qed.

(** ** While the circuit is open *)

Definition is_success (ev : llm_event) : bool := match ev with Finish _ (Returned _) => true | _ => false end.

Definition still_open (until : Z) (calls : gset nat) (s : llm_system) : Prop :=
  cb_state (ls_breaker s) = Open /\ until <= cb_open_until (ls_breaker s) /\ dom (ls_calls s) ⊆ calls.

Lemma step_clock ev s : ls_clock s <= ls_clock (llm_step ev s).
Proof using.
  destruct ev; simpl; [lia|..].
  - destruct (ls_calls s !! call); [done|]. destruct (check_circuit _ _) as [[] b]; done.
  - destruct (ls_calls s !! call); [|done]. destruct (LlmErrors.after_attempt _ _ _ _ _ _ _ _ _) as [[]]; done.
Qed.

Lemma run_clock events s : ls_clock s <= ls_clock (llm_run events s).
Proof using.
  unfold LlmErrors.llm_run. revert s. induction events as [|ev events IH]; intros s; [done|]. simpl.
  pose proof (step_clock ev s). specialize (IH (llm_step ev s)). lia.
Qed.

(** The end of an open period is never farther than the recovery time. *)
Definition timely (s : llm_system) : Prop := 0 <= ls_clock s /\ cb_open_until (ls_breaker s) <= ls_clock s + recovery.

Lemma check_circuit_until now b : cb_open_until (check_circuit now b).2 = cb_open_until b.
Proof using. unfold check_circuit. destruct (cb_state b) eqn:Es; simpl; [by rewrite Es| |]; repeat case_match; done. Qed.

Lemma record_failure_until now b :
  cb_open_until b <= now + recovery ->
  cb_open_until b <= cb_open_until (record_failure now b) <= now + recovery.
Proof using. unfold LlmErrors.record_failure. intros H. destruct (cb_state b); simpl; try destruct (_ <=? _); simpl; lia. Qed.

Lemma after_attempt_until attempt o now b :
  0 <= now -> cb_open_until b <= now + recovery ->
  let b' := (after_attempt attempt o now b).2 in
  cb_open_until b' <= now + recovery /\ (is_success (Finish 0 o) = false -> cb_open_until b <= cb_open_until b').
Proof using recovery_nonneg.
  intros Hn Hu. destruct o as [resp| |e|]; simpl; [split; [lia|done]| | |split; [done|lia]].
  - unfold release_probe. destruct (cb_state b); simpl; (split; [done|lia]).
  - destruct (classify_error e) as [retriable reason]. destruct (retriable && _).
    + destruct (build_retry_delay_ms _ _ _ _ _); simpl; (split; [done|lia]).
    + simpl. destruct retriable; [|split; [done|lia]]. pose proof (record_failure_until now b Hu). lia.
Qed.

Lemma step_timely ev s : timely s -> timely (llm_step ev s).
Proof using recovery_nonneg.
  intros [H0 Hu]. destruct ev as [d|call|call o]; simpl.
  - split; simpl; lia.
  - destruct (ls_calls s !! call); [done|]. pose proof (check_circuit_until (ls_clock s) (ls_breaker s)) as Hc.
    destruct (check_circuit _ _) as [[] b]; split; simpl in *; lia.
  - destruct (ls_calls s !! call) as [attempt|]; [|done].
    destruct (after_attempt_until attempt o (ls_clock s) (ls_breaker s) H0 Hu) as [H1 _].
    destruct (after_attempt attempt o (ls_clock s) (ls_breaker s)) as [[] b]; split; simpl in *; lia.
Qed.

Lemma run_timely events s : timely s -> timely (llm_run events s).
Proof using recovery_nonneg.
  unfold LlmErrors.llm_run. revert s. induction events as [|ev events IH]; intros s Hs; [done|]. simpl. by apply IH, step_timely.
Qed.

(** A failure of an open circuit keeps it open. *)
Lemma after_attempt_open attempt o now b failures :
  breaker_ok failures b -> cb_state b = Open -> is_success (Finish 0 o) = false ->
  cb_state (after_attempt attempt o now b).2 = Open.
Proof using threshold_pos.
  intros [_ Hok] Hst Hs. rewrite Hst in Hok. destruct o as [resp| |e|]; simpl; [done| | |done].
  - unfold release_probe. by rewrite Hst.
  - destruct (classify_error e) as [retriable reason]. destruct (retriable && _).
    + by destruct (build_retry_delay_ms _ _ _ _ _).
    + simpl. destruct retriable; [|done]. unfold LlmErrors.record_failure. rewrite Hst.
      destruct (Z.leb_spec threshold (cb_failure_count b + 1)); [done|lia].
Qed.

Lemma open_refuses now b : cb_state b = Open -> now < cb_open_until b -> check_circuit now b = (true, b).
Proof using. intros Hst Hn. unfold check_circuit. rewrite Hst, bool_decide_eq_true_2 by done. by rewrite (proj2 (Z.ltb_lt _ _)). Qed.

Lemma step_still_open ev until calls s :
  system_ok s -> timely s -> is_success ev = false -> still_open until calls s -> ls_clock s < until ->
  still_open until calls (llm_step ev s).
Proof using threshold_pos recovery_nonneg.
  intros [Hb _] [H0 Hu] Hev (Hst & Hun & Hd) Hnow. destruct ev as [d|call|call o]; simpl; [done| |].
  - destruct (ls_calls s !! call); [done|]. rewrite open_refuses by (done || lia). done.
  - destruct (ls_calls s !! call) as [attempt|] eqn:El; [|done].
    pose proof (after_attempt_open attempt o (ls_clock s) _ _ Hb Hst Hev) as Ho.
    destruct (after_attempt_until attempt o (ls_clock s) (ls_breaker s) H0 Hu) as [_ H1]. specialize (H1 Hev).
    destruct (after_attempt attempt o (ls_clock s) (ls_breaker s)) as [[] b]; split_and!; simpl in *; try done; try lia.
    + rewrite dom_delete_L. set_solver.
    + rewrite dom_insert_L. apply elem_of_dom_2 in El. set_solver.
Qed.

Lemma run_still_open events until calls s :
  system_ok s -> timely s -> Forall (fun ev => is_success ev = false) events -> still_open until calls s ->
  ls_clock (llm_run events s) < until -> still_open until calls (llm_run events s).
Proof using threshold_pos recovery_nonneg.
  revert s. induction events as [|ev events IH]; intros s Hok Ht Hev Hop Hc; [done|]. apply Forall_cons in Hev as [He Hev].
  change (llm_run (ev :: events) s) with (llm_run events (llm_step ev s)) in *.
  pose proof (run_clock events (llm_step ev s)). pose proof (step_clock ev s).
  apply IH; [by apply step_ok|by apply step_timely|done| |done]. apply step_still_open; [done..|lia].
Qed.

(** The circuit breaker is exact.  Whatever calls run at once, however their
    attempts end and time passes: the circuit is closed just when fewer calls
    than the threshold failed for good on retriable errors since the last
    response; a closed circuit admits every call; an open one, until its time
    is over or a running call gets a response, answers every new call at once
    and lets none through to the model; after that time it lets a call
    through; and a call is attempted at most three times. *)
Theorem circuit_breaker_exact events now :
  0 <= now ->
  let s := llm_run events (llm_start now) in
  let b := ls_breaker s in
  (cb_state b = Closed <-> failures_since (ls_answers s) < threshold)
  /\ (cb_state b = Closed -> forall call, ls_calls s !! call = None -> ls_calls (llm_step (Begin call) s) !! call = Some 1)
  /\ (forall later call, cb_state b = Open -> Forall (fun ev => is_success ev = false) later ->
        ls_clock (llm_run later s) < cb_open_until b ->
        dom (ls_calls (llm_run later s)) ⊆ dom (ls_calls s)
        /\ (ls_calls (llm_run later s) !! call = None ->
            ls_answers (llm_step (Begin call) (llm_run later s)) = ls_answers (llm_run later s) ++ [(call, Fallback circuit_fallback)]))
  /\ (cb_state b = Open -> cb_open_until b <= ls_clock s ->
        forall call, ls_calls s !! call = None -> ls_calls (llm_step (Begin call) s) !! call = Some 1)
  /\ (forall call attempt, ls_calls s !! call = Some attempt -> 1 <= attempt <= 3).
Proof using threshold_pos recovery_nonneg.
  intros Hn s b. assert (Hok : system_ok s) by apply run_ok, start_system_ok.
  assert (Ht : timely s) by (apply run_timely; split; simpl; lia). pose proof Hok as [Hb Hc]. fold b in Hb.
  split_and!.
  - destruct Hb as [_ Hb]. split; intros H; destruct (cb_state b) eqn:Es; try done; lia.
  - intros Hst call Hcall. simpl. rewrite Hcall. fold b. unfold check_circuit. rewrite Hst. simpl. rewrite Hst. simpl. apply lookup_insert_eq.
  - intros later call Hst Hl Hclk.
    destruct (run_still_open later (cb_open_until b) (dom (ls_calls s)) s Hok Ht Hl) as (Hst' & Hun & Hd); [by split|done|].
    split; [done|]. intros Hcall. simpl. rewrite Hcall, open_refuses by (done || lia). done.
  - intros Hst Hu call Hcall. simpl. rewrite Hcall. fold b. unfold check_circuit. rewrite Hst. simpl.
    destruct (Z.ltb_spec (ls_clock s) (cb_open_until b)); [lia|]. simpl. apply lookup_insert_eq.
  - exact Hc.
Qed.

(** ** One call *)

(** A retry: the attempt failed on an error worth it, and within its budget; the
    delay is what the provider asked for, or doubles from a second. *)
Definition retried (attempt : Z) (o : outcome) (wait_ms : Z) : Prop :=
  exists e reason, o = Raised e /\ classify_error e = (true, reason) /\ attempt < max_attempts_for e
    /\ (retry_after_header e = None -> wait_ms = 1000 * 2 ^ (attempt - 1)) /\ 0 <= wait_ms.

Lemma after_attempt_retry attempt o now b wait_ms event b' :
  1 <= attempt -> after_attempt attempt o now b = (inr (wait_ms, event), b') -> retried attempt o wait_ms /\ b' = b.
Proof using.
  intros Ha. destruct o as [resp| |e|]; simpl; try done.
  destruct (classify_error e) as [retriable reason] eqn:Ec. destruct retriable; simpl; [|done].
  destruct (Z.ltb_spec attempt (max_attempts_for e)) as [Hlt|]; [|done].
  destruct (build_retry_delay_ms _ _ _ _ _) as [w|] eqn:Ew; [|done]. intros [= <- <- <-]. split; [|done].
  assert (attempt = 1 \/ attempt = 2) as Hcase by (pose proof (max_attempts_le e); unfold retry_max_attempts in *; lia).
  unfold build_retry_delay_ms, extract_retry_after_ms in Ew. exists e, reason. split_and!; [done|done|done| |].
  - intros Hh. rewrite Hh in Ew. simpl in Ew. injection Ew as <-. by destruct Hcase as [-> | ->].
  - destruct (retry_after_header e) as [[ms raw]|]; simpl in Ew.
    + destruct (parse_float raw) as [[q| |]|]; simpl in Ew; try done; [injection Ew as <-; lia|..];
        unfold date_delay in Ew; destruct (parse_date raw); simpl in Ew; injection Ew as <-; try lia; by destruct Hcase as [-> | ->].
    + injection Ew as <-. by destruct Hcase as [-> | ->].
Qed.

Lemma attempts_spec fuel handler attempt now b :
  1 <= attempt <= retry_max_attempts -> attempt + Z.of_nat fuel = retry_max_attempts + 1 ->
  exists a retries b', attempts fuel handler attempt now b = Some (a, retries, b')
    /\ Z.of_nat (length retries) <= retry_max_attempts - attempt
    /\ forall i w ev, retries !! i = Some (w, ev) -> retried (attempt + Z.of_nat i) (handler (attempt + Z.of_nat i)) w.
Proof using.
  revert attempt now b. induction fuel as [|fuel IH]; intros attempt now b Ha Hf; [lia|]. simpl.
  destruct (after_attempt attempt (handler attempt) now b) as [[a|[wait ev]] b1] eqn:Ea.
  - exists a, [], b1. split; [done|]. split; [simpl; lia|]. intros i w ev. by rewrite lookup_nil.
  - apply after_attempt_retry in Ea as [Hr _]; [|lia].
    assert (attempt + 1 <= retry_max_attempts) by (destruct Hr as (e & ? & _ & _ & ? & _); pose proof (max_attempts_le e); lia).
    destruct (IH (attempt + 1) (now + wait * 1000) b1) as (a & retries & b' & -> & Hlen & Hret); [lia|lia|].
    exists a, ((wait, ev) :: retries), b'. split; [done|]. split; [simpl; lia|]. intros [|i] w ev'; simpl.
    + intros [= <- <-]. by rewrite Z.add_0_r.
    + intros Hi%Hret. by replace (attempt + Z.of_nat (Datatypes.S i)) with (attempt + 1 + Z.of_nat i) by lia.
Qed.

(** ** Fallbacks and the worker *)

(** The message object of a fallback. *)
Definition as_message (m : fallback) : pyval :=
  VObj (Some (VDict ((fun p => (p.1, match p.2 with JBool x => VBool x | JStr t => VStr t | _ => VNone end)) <$> fb_kwargs m)))
    (Some (VStr (fb_content m))) None None None "".

Lemma first_some_elem {A B} (f : A -> option B) l x : x ∈ l -> is_Some (f x) -> exists y z, y ∈ l /\ f y = Some z /\ first_some f l = Some z.
Proof using.
  induction 1 as [x l|x y l Hx IH]; intros Hf; simpl.
  - destruct Hf as [z Hz]. exists x, z. rewrite Hz. split; [constructor|done].
  - destruct (f y) as [z|] eqn:E; [exists y, z; split; [constructor|done]|].
    destruct (IH Hf) as (y0 & z & ? & ? & ?). exists y0, z. split; [by constructor|done].
Qed.

Lemma extracted_truthy obj t : try_extract_from_message obj = Some t -> truthy (Some t) = true.
Proof using.
  assert (Hs : forall o t0, stripped o = Some t0 -> String.eqb t0 "" = false).
  { intros [[| | |s| | | | |]|] t0 H; try done. simpl in H. destruct (String.eqb (strip s) "") eqn:E; [done|]. by injection H as <-. }
  assert (Hmeta : forall k c, truthy (Some (error_fallback_message_from_metadata k c)) = true).
  { intros k c. unfold error_fallback_message_from_metadata, truthy.
    destruct (stripped (dict_get "error_detail" k)) as [t1|] eqn:E1; [by rewrite (Hs _ _ E1)|].
    destruct (stripped (dict_get "error_reason" k)) as [t2|] eqn:E2; [by rewrite (Hs _ _ E2)|].
    destruct (stripped c) as [t3|] eqn:E3; [|done]. apply Hs in E3. by destruct t3. }
  unfold try_extract_from_message. destruct obj; try done; destruct (marked _); simpl; try done; intros [= <-]; apply Hmeta.
Qed.

Lemma fallback_extracted m :
  dict_get "deerflow_error_fallback" (fb_kwargs m) = Some (JBool true) -> is_Some (try_extract_from_message (as_message m)).
Proof using.
  intros H. unfold as_message, try_extract_from_message, marked.
  assert (dict_get "deerflow_error_fallback" ((fun p => (p.1, match p.2 with JBool x => VBool x | JStr t => VStr t | _ => VNone end)) <$> fb_kwargs m)
    = Some (VBool true)) as ->; [|by eexists].
  revert H. generalize (fb_kwargs m). intros l. induction l as [|[k v] l IH]; [done|]. simpl. case_decide; [by intros [= ->]|exact IH].
Qed.

Lemma attempts_fallback fuel handler attempt now b m retries b' :
  attempts fuel handler attempt now b = Some (Fallback m, retries, b') ->
  dict_get "deerflow_error_fallback" (fb_kwargs m) = Some (JBool true).
Proof using.
  revert attempt now b retries. induction fuel as [|fuel IH]; intros attempt now b retries; [done|]. simpl.
  destruct (after_attempt attempt (handler attempt) now b) as [[a|[wait ev]] b1] eqn:Ea.
  - intros [= -> <- <-]. revert Ea. destruct (handler attempt) as [resp| |e|]; simpl; try done.
    destruct (classify_error e) as [retriable reason]. destruct (retriable && _); [by destruct (build_retry_delay_ms _ _ _ _ _)|].
    by intros [= <- _].
  - destruct (attempts fuel handler (attempt + 1) (now + wait * 1000) b1) as [[[a rs] b2]|] eqn:Er; simpl; [|done].
    intros [= -> <- <-]. by eapply IH.
Qed.

(** A model call answers.  Whatever the provider does, the wrapped call ends
    after at most three attempts; each retry follows an error that is worth
    it and within the budget of its kind, after the delay the provider asks
    for or else one that doubles from a second; and when it ends in a
    fallback message, the worker that streams a state with this message
    among others takes the run for failed, with a text. *)
Theorem llm_call_answers handler now b :
  exists a retries b', wrap_model_call handler now b = Some (a, retries, b')
    /\ (length retries <= 2)%nat
    /\ (forall i w ev, retries !! i = Some (w, ev) -> retried (1 + Z.of_nat i) (handler (1 + Z.of_nat i)) w)
    /\ (forall m messages, a = Fallback m -> as_message m ∈ messages ->
          exists text, extract_llm_error_fallback_message (VDict [("messages", VList messages)]) = Some text /\ truthy (Some text) = true).
Proof using.
  assert (Hdetect : forall m messages, dict_get "deerflow_error_fallback" (fb_kwargs m) = Some (JBool true) -> as_message m ∈ messages ->
    exists text, extract_llm_error_fallback_message (VDict [("messages", VList messages)]) = Some text /\ truthy (Some text) = true).
  { intros m messages Hm Hin. destruct (first_some_elem try_extract_from_message messages _ Hin (fallback_extracted m Hm)) as (y & z & _ & Hy & Hz).
    exists z. split; [exact Hz|]. by eapply extracted_truthy. }
  unfold LlmErrors.wrap_model_call. destruct (check_circuit now b) as [[] b1].
  - exists (Fallback circuit_fallback), [], b1. split; [done|]. split; [simpl; lia|]. split; [intros i w ev; by rewrite lookup_nil|].
    intros m messages [= <-]. by apply Hdetect.
  - destruct (attempts_spec (Z.to_nat retry_max_attempts) handler 1 now b1) as (a & retries & b' & Hrun & Hlen & Hret); [done|done|].
    exists a, retries, b'. split; [done|]. split; [unfold retry_max_attempts in *; lia|]. split; [exact Hret|].
    intros m messages -> Hin. apply (Hdetect m); [|done]. eapply attempts_fallback. exact Hrun.
Qed.
End props.

(** ** Concrete calls *)

Definition demo_error (name text : string) (status : option Z) : llm_exception :=
  mk_llm_exception name text None None None None (JNum <$> status) None None.
Definition rate_limited : llm_exception := demo_error "RateLimitError" "Error code: 429" (Some 429).
Definition bad_key : llm_exception := demo_error "AuthenticationError" "Invalid API key provided" (Some 401).

Definition demo_llm_run (events : list llm_event) : llm_system :=
  llm_run (fun _ => "") (fun _ => None) (fun _ => None) 2 60000000 events (llm_start 1000).

Definition failing_call (call : nat) : list llm_event :=
  [Begin call; Finish call (Raised rate_limited); Finish call (Raised rate_limited); Finish call (Raised rate_limited)].
Definition tripped : list llm_event := failing_call 1 ++ failing_call 2.

Example demo_trips :
  cb_state (ls_breaker (demo_llm_run (failing_call 1))) = Closed /\ cb_state (ls_breaker (demo_llm_run tripped)) = Open.
Proof. vm_compute. split; reflexivity. Qed.

Lemma circuit_breaker_exact_witness :
  dom (ls_calls (demo_llm_run (tripped ++ [Begin 3]))) = ∅
  /\ (cb_state (ls_breaker (demo_llm_run tripped)) = Closed <-> failures_since (ls_answers (demo_llm_run tripped)) < 2).
Proof.
  destruct (circuit_breaker_exact (fun _ => "") (fun _ => None) (fun _ => None) 2 60000000 ltac:(lia) ltac:(lia) tripped 1000 ltac:(lia))
    as (H1 & _ & H3 & _). split; [|exact H1].
  destruct (H3 [Begin 3%nat] 3%nat) as [Hd _].
  - vm_compute. reflexivity.
  - repeat constructor.
  - vm_compute. reflexivity.
  - apply (anti_symm (⊆)); [|set_solver]. exact Hd.
Defined.

(** A probe that ends in an error that is not worth a retry, or is cancelled,
    leaves the circuit half open with the probe in flight: no call is let
    through any more, however long one waits. *)
Lemma lost_probe_blocks json_str parse_float parse_date threshold recovery events s :
  cb_state (ls_breaker s) = HalfOpen -> cb_probe_in_flight (ls_breaker s) = true -> ls_calls s = ∅ ->
  let s' := llm_run json_str parse_float parse_date threshold recovery events s in
  ls_calls s' = ∅ /\ ls_breaker s' = ls_breaker s.
Proof.
  unfold llm_run. revert s. induction events as [|ev events IH]; intros s Hst Hp Hc; [done|]. simpl.
  assert (Hs : ls_calls (llm_step json_str parse_float parse_date threshold recovery ev s) = ∅
    /\ ls_breaker (llm_step json_str parse_float parse_date threshold recovery ev s) = ls_breaker s).
  { destruct ev as [d|call|call o]; simpl; [done| |]; rewrite Hc, lookup_empty; [|done]. unfold check_circuit. rewrite Hst. simpl. by rewrite Hst, Hp. }
  destruct Hs as [H1 H2]. destruct (IH _ (eq_trans (f_equal cb_state H2) Hst) (eq_trans (f_equal cb_probe_in_flight H2) Hp) H1) as [H3 H4].
  split; [exact H3|]. exact (eq_trans H4 H2).
Qed.

Definition lost_probe (o : outcome) : list llm_event := tripped ++ [Pass 61000000; Begin 3; Finish 3 o].

Example probe_lost_forever : forall o events,
  o = Raised bad_key \/ o = Interrupted -> ls_calls (demo_llm_run (lost_probe o ++ events)) = ∅.
Proof.
  intros o events Ho. unfold demo_llm_run, llm_run. rewrite foldl_app.
  destruct Ho as [-> | ->]; apply lost_probe_blocks; vm_compute; reflexivity.
Qed.

(** The state of a later run still holds the fallback message of an earlier one:
    the later run is taken for failed. *)
Example stale_fallback_marks_run :
  extract_llm_error_fallback_message
    (VDict [("messages", VList [as_message (build_user_fallback_message bad_key "auth");
                                VObj (Some (VDict [])) (Some (VStr "a fine answer")) None None None ""])])
  = Some "Invalid API key provided".
Proof. vm_compute. reflexivity. Qed.

(** A provider's delay is not capped. *)
Example retry_after_uncapped :
  let e := mk_llm_exception "RateLimitError" "busy" None None None None (Some (JNum 429)) None (Some (None, Some [("retry-after", "7200")])) in
  build_retry_delay_ms (fun _ => Some (Finite (7200 # 1))) (fun _ => None) 1 e 0 = Ok 7200000.
Proof. vm_compute. reflexivity. Qed.
