(* ===== verification/ToolCalls.v ===== *)
(** * Tool calls in the transcript

    The middlewares that keep the tool calls of a conversation well formed:
    [dangling_tool_call_middleware.py] (every call has its result right after
    it), [subagent_limit_middleware.py] (at most so many parallel subagents),
    [safety_finish_reason_middleware.py] with
    [safety_termination_detectors.py] (no call of a response the provider cut
    off), and [tool_call_metadata.py], which they share. *)
From S2P Require Import Prelude PyString Retry.
From stdpp Require Import gmap.
From Stdlib Require Import Ascii.
Local Open Scope string_scope.
Local Open Scope Z_scope.
Local Open Scope list_scope.

Abbreviation dict := (list (string * json)).

(** ** Messages *)

(** What the middlewares read of a message.  A [ToolMessage] is a message of
    type ["tool"]; an [AIMessage] one of type ["ai"]. *)
Record turn : Type := mk_turn {
  t_type : string;
  t_id : option string;
  t_content : json;
  t_name : option string;
  t_tool_call_id : string;
  t_status : string;
  t_tool_calls : list dict;
  t_invalid_tool_calls : list json;
  t_additional_kwargs : dict;
  t_response_metadata : dict
}.

#[global] Instance turn_eq_dec : EqDecision turn.
Proof. solve_decision. Defined.

Definition is_tool (m : turn) : bool := String.eqb (t_type m) "tool".
Definition is_ai (m : turn) : bool := String.eqb (t_type m) "ai".

(** [value or default] on values of a dictionary. *)
Definition or_json (v : option json) (default : json) : json :=
  match v with Some v => if json_truthy v then v else default | None => default end.

Definition get_json (k : string) (d : dict) : json := opt_or (dict_get k d) JNull.

(** Ids are strings; an absent, null or empty id is none. *)
Definition call_id (tc : dict) : option string :=
  match dict_get "id" tc with Some (JStr s) => if String.eqb s "" then None else Some s | _ => None end.

(** ** [DanglingToolCallMiddleware] *)

Definition _MAX_RECOVERY_ERROR_DETAIL_LEN : nat := 500.

Section dangling.
(** [json.loads]; [None] when it raises. *)
Context (loads : string -> option json).

(** One raw provider call. *)
Definition normalize_raw (raw : json) : option dict :=
  match raw with
  | JObj raw_tc =>
      let function := get_json "function" raw_tc in
      let name := match or_json (dict_get "name" raw_tc) JNull, function with
                  | JNull, JObj f => get_json "name" f
                  | JNull, _ => get_json "name" raw_tc
                  | n, _ => n
                  end in
      let given := opt_or (dict_get "args" raw_tc) (JObj []) in
      let args := if json_truthy given then given
                  else match function with
                       | JObj f =>
                           match get_json "arguments" f with
                           | JStr raw_args => match loads raw_args with Some (JObj o) => JObj o | _ => JObj [] end
                           | _ => given
                           end
                       | _ => given
                       end in
      Some [("id", get_json "id" raw_tc); ("name", or_json (Some name) (JStr "unknown"));
            ("args", match args with JObj o => JObj o | _ => JObj [] end)]
  | _ => None
  end.

Definition normalize_invalid (invalid : json) : option dict :=
  match invalid with
  | JObj tc => Some [("id", get_json "id" tc); ("name", or_json (dict_get "name" tc) (JStr "unknown")); ("args", JObj []);
                     ("invalid", JBool true); ("error", get_json "error" tc)]
  | _ => None
  end.

Definition message_tool_calls (m : turn) : list dict :=
  let raw := match or_json (dict_get "tool_calls" (t_additional_kwargs m)) (JArr []) with JArr l => l | _ => [] end in
  t_tool_calls m
  ++ (match t_tool_calls m with [] => omap normalize_raw raw | _ => [] end)
  ++ omap normalize_invalid (t_invalid_tool_calls m).

Definition synthetic_tool_message_content (tc : dict) : string :=
  if json_truthy (get_json "invalid" tc) then
    let error_text := match dict_get "error" tc with Some (JStr e) => str_take _MAX_RECOVERY_ERROR_DETAIL_LEN e | _ => "" end in
    if bool_decide (dict_get "name" tc = Some (JStr "write_file")) then
      "[write_file failed before execution: the tool-call arguments were not valid JSON, so no file was written. This often happens when the model tries to write a very large Markdown file in a single tool call, especially when `content` contains unescaped quotes, inline JSON, backslashes, or code fences. Do not retry the same large `write_file` payload for this artifact; provide the report/content directly as normal assistant text in your next response. If a file write is still needed later, split the file into smaller sections instead of one large payload."
      +:+ (if String.eqb error_text "" then "" else " Parser error: " +:+ error_text) +:+ "]"
    else if String.eqb error_text "" then "[Tool call could not be executed because its arguments were invalid.]"
    else "[Tool call could not be executed because its arguments were invalid: " +:+ error_text +:+ "]"
  else "[Tool call was interrupted and did not return a result.]".

Definition placeholder (id : string) (tc : dict) : turn :=
  mk_turn "tool" None (JStr (synthetic_tool_message_content tc))
    (match opt_or (dict_get "name" tc) (JStr "unknown") with JStr n => Some n | _ => None end) id "error" [] [] [] [].

(** The queues of results by id, and the ids that are called. *)
Definition enqueue (q : gmap string (list turn)) (m : turn) : gmap string (list turn) :=
  if is_tool m then <[t_tool_call_id m := opt_or (q !! t_tool_call_id m) [] ++ [m]]> q else q.
Definition results_by_id (messages : list turn) : gmap string (list turn) := foldl enqueue ∅ messages.

Definition called_ids (m : turn) : list string := if is_ai m then omap call_id (message_tool_calls m) else [].
Definition tool_call_ids (messages : list turn) : gset string := list_to_set (messages ≫= called_ids).

(** The results appended after a message. *)
Fixpoint answer_calls (q : gmap string (list turn)) (calls : list dict) : list turn * gmap string (list turn) :=
  match calls with
  | [] => ([], q)
  | tc :: calls =>
      match call_id tc with
      | None => answer_calls q calls
      | Some id =>
          let '(m, q) := match opt_or (q !! id) [] with
                         | m :: rest => (m, <[id := rest]> q)
                         | [] => (placeholder id tc, q)
                         end in
          let '(ms, q) := answer_calls q calls in (m :: ms, q)
      end
  end.

Fixpoint patch (ids : gset string) (q : gmap string (list turn)) (messages : list turn) : list turn :=
  match messages with
  | [] => []
  | m :: messages =>
      if is_tool m && bool_decide (t_tool_call_id m ∈ ids) then patch ids q messages
      else if is_ai m then
        let '(answers, q) := answer_calls q (message_tool_calls m) in
        m :: answers ++ patch ids q messages
      else m :: patch ids q messages
  end.

(** [_build_patched_messages]. *)
Definition build_patched_messages (messages : list turn) : option (list turn) :=
  let patched := patch (tool_call_ids messages) (results_by_id messages) messages in
  if bool_decide (patched = messages) then None else Some patched.

(** [wrap_model_call]: the messages the model gets. *)
Definition messages_for_model (messages : list turn) : list turn := opt_or (build_patched_messages messages) messages.
End dangling.

(** ** [tool_call_metadata.py] *)

Definition raw_tool_call_id (raw : json) : option string := match raw with JObj d => call_id d | _ => None end.

Definition clone_ai_message_with_tool_calls (m : turn) (tool_calls : list dict) (content : option json) : turn :=
  let kept_ids := omap call_id tool_calls in
  let kept raw := match raw_tool_call_id raw with Some i => bool_decide (i ∈ kept_ids) | None => false end in
  let kwargs := match dict_get "tool_calls" (t_additional_kwargs m) with
                | Some (JArr raw) =>
                    match List.filter kept raw with
                    | [] => dict_pop "tool_calls" (t_additional_kwargs m)
                    | synced => dict_set "tool_calls" (JArr synced) (t_additional_kwargs m)
                    end
                | _ => t_additional_kwargs m
                end in
  let kwargs := match tool_calls with [] => dict_pop "function_call" kwargs | _ => kwargs end in
  let metadata := match tool_calls, dict_get "finish_reason" (t_response_metadata m) with
                  | [], Some (JStr "tool_calls") => dict_set "finish_reason" (JStr "stop") (t_response_metadata m)
                  | _, _ => t_response_metadata m
                  end in
  mk_turn (t_type m) (t_id m) (opt_or content (t_content m)) (t_name m) (t_tool_call_id m) (t_status m) tool_calls
    (t_invalid_tool_calls m) kwargs metadata.

(** ** [SubagentLimitMiddleware] *)

Definition MIN_SUBAGENT_LIMIT : Z := 2.
Definition MAX_SUBAGENT_LIMIT : Z := 4.
Definition clamp_subagent_limit (value : Z) : Z := Z.max MIN_SUBAGENT_LIMIT (Z.min MAX_SUBAGENT_LIMIT value).

Definition is_task (tc : dict) : bool := bool_decide (dict_get "name" tc = Some (JStr "task")).

(** The calls without the [task] calls after the first [limit]. *)
Fixpoint drop_excess_tasks (limit : nat) (calls : list dict) : list dict :=
  match calls with
  | [] => []
  | tc :: calls =>
      if is_task tc then
        match limit with
        | O => drop_excess_tasks O calls
        | S limit => tc :: drop_excess_tasks limit calls
        end
      else tc :: drop_excess_tasks limit calls
  end.

(** [_truncate_task_calls]: the message that replaces the last one. *)
Definition truncate_task_calls (max_concurrent : Z) (messages : list turn) : option turn :=
  match last messages with
  | Some m =>
      if negb (is_ai m) then None
      else if Z.of_nat (length (List.filter is_task (t_tool_calls m))) <=? max_concurrent then None
      else Some (clone_ai_message_with_tool_calls m (drop_excess_tasks (Z.to_nat max_concurrent) (t_tool_calls m)) None)
  | None => None
  end.

(** ** Safety detectors *)

Record SafetyTermination : Type := mk_termination {
  st_detector : string;
  st_reason_field : string;
  st_reason_value : string;
  st_extras : dict
}.

Definition get_metadata_value (m : turn) (field_name : string) : option string :=
  let read d := match dict_get field_name d with Some (JStr s) => if String.eqb s "" then None else Some s | _ => None end in
  match read (t_response_metadata m) with Some s => Some s | None => read (t_additional_kwargs m) end.

Definition ascii_upper (a : ascii) : ascii :=
  let n := nat_of_ascii a in if (97 <=? n)%nat && (n <=? 122)%nat then ascii_of_nat (n - 32) else a.
Fixpoint str_upper (s : string) : string :=
  match s with "" => "" | String a s' => String (ascii_upper a) (str_upper s') end.

(** [response_metadata.get(key)] as an extra, when it is set. *)
Definition extra (key : string) (m : turn) : dict :=
  match dict_get key (t_response_metadata m) with Some v => if json_truthy v then [(key, v)] else [] | None => [] end.

Definition openai_content_filter (finish_reasons : list string) (m : turn) : option SafetyTermination :=
  match get_metadata_value m "finish_reason" with
  | Some v => if str_in (str_lower v) (str_lower <$> finish_reasons)
              then Some (mk_termination "openai_compatible_content_filter" "finish_reason" v (extra "content_filter_results" m)) else None
  | None => None
  end.

Definition anthropic_refusal (stop_reasons : list string) (m : turn) : option SafetyTermination :=
  match get_metadata_value m "stop_reason" with
  | Some v => if str_in (str_lower v) (str_lower <$> stop_reasons)
              then Some (mk_termination "anthropic_refusal" "stop_reason" v []) else None
  | None => None
  end.

Definition _DEFAULT_FINISH_REASONS : list string :=
  ["SAFETY"; "BLOCKLIST"; "PROHIBITED_CONTENT"; "SPII"; "RECITATION"; "IMAGE_SAFETY"; "IMAGE_PROHIBITED_CONTENT"; "IMAGE_RECITATION"].

Definition gemini_safety (finish_reasons : list string) (m : turn) : option SafetyTermination :=
  match get_metadata_value m "finish_reason" with
  | Some v => if str_in (str_upper v) (str_upper <$> finish_reasons)
              then Some (mk_termination "gemini_safety" "finish_reason" v (extra "safety_ratings" m)) else None
  | None => None
  end.

(** A detector answers or raises. *)
Definition detector : Type := turn -> option (option SafetyTermination).

Definition default_detectors : list detector :=
  [fun m => Some (openai_content_filter ["content_filter"] m); fun m => Some (anthropic_refusal ["refusal"] m);
   fun m => Some (gemini_safety _DEFAULT_FINISH_REASONS m)].

(** ** [SafetyFinishReasonMiddleware] *)

Fixpoint detect (detectors : list detector) (m : turn) : option SafetyTermination :=
  match detectors with
  | [] => None
  | d :: detectors => match d m with Some (Some hit) => Some hit | _ => detect detectors m end
  end.

Section safety.
(** [repr] of a string, [str] of a value. *)
Context (repr : string -> string) (json_str : json -> string).

Definition user_facing_message (t : SafetyTermination) : string :=
  "The model provider stopped this response with a safety-related signal (" +:+ st_reason_field t +:+ "=" +:+ repr (st_reason_value t)
  +:+ ", detector=" +:+ repr (st_detector t) +:+ "). Any tool calls produced in this turn were suppressed because their arguments may be truncated and unsafe to execute. Please rephrase the request or ask for a narrower output.".

Definition blank_line : string := String (ascii_of_nat 10) (String (ascii_of_nat 10) "").

Definition append_user_message (content : json) (text : string) : json :=
  match content with
  | JNull | JStr "" => JStr text
  | JArr l => JArr (l ++ [JObj [("type", JStr "text"); ("text", JStr (blank_line +:+ text))]])
  | JStr s => JStr (s +:+ blank_line +:+ text)
  | v => JStr (json_str v +:+ blank_line +:+ text)
  end.

Definition suppressed_names (m : turn) : json := JArr ((fun tc => or_json (dict_get "name" tc) (JStr "unknown")) <$> t_tool_calls m).

Definition termination_record (t : SafetyTermination) (m : turn) : dict :=
  [("detector", JStr (st_detector t)); ("reason_field", JStr (st_reason_field t)); ("reason_value", JStr (st_reason_value t));
   ("suppressed_tool_call_count", JNum (Z.of_nat (length (t_tool_calls m)))); ("suppressed_tool_call_names", suppressed_names m)].

Definition build_suppressed_message (m : turn) (t : SafetyTermination) : turn :=
  let cleared := clone_ai_message_with_tool_calls m [] (Some (append_user_message (t_content m) (user_facing_message t))) in
  mk_turn (t_type cleared) (t_id cleared) (t_content cleared) (t_name cleared) (t_tool_call_id cleared) (t_status cleared)
    (t_tool_calls cleared) (t_invalid_tool_calls cleared)
    (dict_set "safety_termination" (JObj (termination_record t m ++ [("extras", JObj (st_extras t))])) (t_additional_kwargs cleared))
    (t_response_metadata cleared).

(** The stream event and the audit record; arguments of the calls are in
    neither. *)
Definition safety_event (t : SafetyTermination) (m : turn) (thread_id : option string) : dict :=
  ("type", JStr "safety_termination") :: termination_record t m ++ [("thread_id", match thread_id with Some i => JStr i | None => JNull end)].

Definition audit_changes (t : SafetyTermination) (m : turn) : dict :=
  termination_record t m
  ++ [("suppressed_tool_call_ids", JArr (omap (fun tc => match dict_get "id" tc with Some v => if json_truthy v then Some v else None | None => None end) (t_tool_calls m)));
      ("message_id", match t_id m with Some i => JStr i | None => JNull end); ("extras", JObj (st_extras t))].

(** [_apply]: the message that replaces the last one, the event for the stream
    and the changes for the journal. *)
Definition apply_safety (detectors : list detector) (thread_id : option string) (messages : list turn) : option (turn * dict * dict) :=
  match last messages with
  | Some m =>
      if negb (is_ai m) then None
      else match t_tool_calls m with
           | [] => None
           | _ =>
               match detect detectors m with
               | None => None
               | Some t => Some (build_suppressed_message m t, safety_event t m thread_id, audit_changes t m)
               end
           end
  | None => None
  end.
End safety.
