(* ===== verification/ToolCallsProps.v ===== *)
(** * What the tool-call middlewares promise *)
From S2P Require Import Prelude PyString Retry ToolCalls.
From stdpp Require Import gmap.
Local Open Scope string_scope.
Local Open Scope Z_scope.
Local Open Scope list_scope.

(** ** Repaired transcripts *)

(** The result at the place of a call. *)
Definition answers_to (id : string) (m : turn) : Prop := is_tool m = true /\ t_tool_call_id m = id.

(** The results of one id, in order. *)
Definition results (id : string) (messages : list turn) : list turn :=
  List.filter (fun m => is_tool m && String.eqb (t_tool_call_id m) id) messages.

Definition queue (q : gmap string (list turn)) (id : string) : list turn := opt_or (q !! id) [].

Lemma tool_not_ai m : is_tool m = true -> is_ai m = false.
Proof. unfold is_tool, is_ai. intros ->%String.eqb_eq. done. Qed.

Lemma results_app id l1 l2 : results id (l1 ++ l2) = results id l1 ++ results id l2.
Proof. apply List.filter_app. Qed.

Lemma queue_insert q id l k : queue (<[id := l]> q) k = if decide (k = id) then l else queue q k.
Proof. unfold queue. case_decide as E; [subst k; by rewrite lookup_insert_eq|by rewrite lookup_insert_ne]. Qed.

Lemma queue_results messages id : queue (results_by_id messages) id = results id messages.
Proof.
  unfold results_by_id. induction messages as [|m messages IH] using rev_ind; [done|].
  rewrite foldl_app, results_app. cbn [foldl]. set (q := foldl enqueue ∅ messages) in *. unfold enqueue.
  assert (results id [m] = if is_tool m && String.eqb (t_tool_call_id m) id then [m] else []) as -> by done.
  destruct (is_tool m); simpl; [|by rewrite app_nil_r]. rewrite queue_insert.
  destruct (String.eqb_spec (t_tool_call_id m) id) as [E|E].
  - rewrite decide_True by done. subst id. fold (queue q (t_tool_call_id m)). by rewrite IH.
  - rewrite decide_False by done. by rewrite app_nil_r.
Qed.

Section dangling.
Context (loads : string -> option json).
Local Notation message_tool_calls := (message_tool_calls loads).
Local Notation called_ids := (called_ids loads).
Local Notation tool_call_ids := (tool_call_ids loads).
Local Notation patch := (patch loads).
Local Notation messages_for_model := (messages_for_model loads).

(** Every assistant message is followed at once by one result for each of its
    calls, in their order. *)
Fixpoint answered (messages : list turn) : Prop :=
  match messages with
  | [] => True
  | m :: rest => Forall2 answers_to (called_ids m) (take (length (called_ids m)) rest) /\ answered rest
  end.

(** The results of each id are under that id. *)
Definition queue_ok (q : gmap string (list turn)) : Prop := forall id, Forall (answers_to id) (queue q id).

Definition count (id : string) (ids : list string) : nat := length (List.filter (String.eqb id) ids).

(** A result made up for a call that has none. *)
Definition made_up (id : string) (m : turn) : Prop := exists tc, m = placeholder id tc.

(** [out] takes [n] results from [available] and makes up the rest. *)
Definition supplied (id : string) (n : nat) (available out : list turn) : Prop :=
  exists ph, out = take n available ++ ph /\ Forall (made_up id) ph /\ length out = n.

Lemma results_cons id m l : results id (m :: l) = if is_tool m && String.eqb (t_tool_call_id m) id then m :: results id l else results id l.
Proof using. done. Qed.

Lemma results_answer id k m l : answers_to k m -> results id (m :: l) = if decide (id = k) then m :: results id l else results id l.
Proof using.
  intros [Ht Hk]. rewrite results_cons, Ht, Hk. simpl. destruct (String.eqb_spec k id); case_decide; congruence.
Qed.

Lemma answer_calls_spec q calls answers q' :
  queue_ok q -> answer_calls q calls = (answers, q') ->
  Forall2 answers_to (omap call_id calls) answers /\ queue_ok q'
  /\ forall id, supplied id (count id (omap call_id calls)) (queue q id) (results id answers)
       /\ queue q' id = drop (count id (omap call_id calls)) (queue q id).
Proof using.
  revert q answers q'. induction calls as [|tc calls IH]; intros q answers q' Hq; simpl.
  { intros [= <- <-]. split; [constructor|]. split; [done|]. intros id. split; [by exists []|done]. }
  destruct (call_id tc) as [id0|] eqn:Eid; [|by apply IH].
  set (taken := match opt_or (q !! id0) [] with m :: rest => (m, <[id0:=rest]> q) | [] => (placeholder id0 tc, q) end).
  destruct taken as [m q1] eqn:Et. subst taken. fold (queue q id0) in Et.
  destruct (answer_calls q1 calls) as [ms q2] eqn:Ea. intros [= <- <-].
  assert (Htaken : answers_to id0 m /\ queue_ok q1 /\ (forall id, id <> id0 -> queue q1 id = queue q id)
    /\ ((queue q id0 = m :: queue q1 id0) \/ (queue q id0 = [] /\ queue q1 id0 = [] /\ m = placeholder id0 tc))).
  { destruct (queue q id0) as [|m0 rest] eqn:Eq; injection Et as <- <-.
    - split; [done|]. split; [done|]. split; [done|]. right. by rewrite Eq.
    - pose proof (Hq id0) as Hall. rewrite Eq in Hall. apply Forall_cons in Hall as [Hm Hrest]. split; [done|]. split; [|split].
      + intros id. rewrite queue_insert. case_decide; [subst id; done|apply Hq].
      + intros id Hne. by rewrite queue_insert, decide_False.
      + left. by rewrite queue_insert, decide_True. }
  destruct Htaken as (Hm & Hq1 & Hother & Hcase). destruct (IH q1 ms q2 Hq1 Ea) as (H1 & H2 & H3).
  split; [by constructor|]. split; [done|]. intros id. destruct (H3 id) as [[ph (Hout & Hph & Hlen)] Hdrop].
  rewrite (results_answer _ id0) by done. unfold count. cbn [List.filter]. fold (count id (omap call_id calls)).
  destruct (decide (id = id0)) as [->|Hne].
  - rewrite String.eqb_refl. cbn [length]. fold (count id0 (omap call_id calls)). destruct Hcase as [Hc|(Hc1 & Hc2 & Hc3)].
    + rewrite Hc. split; [|done]. exists ph. simpl. rewrite Hout at 1. split; [done|]. split; [done|]. by rewrite Hlen.
    + rewrite Hc1. rewrite Hc2 in Hout, Hdrop. split; [|by rewrite Hdrop, !drop_nil]. rewrite take_nil in *. simpl in Hout.
      exists (m :: ph). split; [by rewrite Hout|]. split; [constructor; [by exists tc|done]|]. simpl. by rewrite Hlen.
  - destruct (String.eqb_spec id id0); [done|]. rewrite <-(Hother id Hne). fold (count id (omap call_id calls)). split; [by exists ph|done].
Qed.

(** Results that move next to their calls. *)
Definition grouped (ids : gset string) (m : turn) : bool := is_tool m && bool_decide (t_tool_call_id m ∈ ids).

Definition calls_in (ids : gset string) (messages : list turn) : Prop := Forall (fun id => id ∈ ids) (messages ≫= called_ids).

Lemma calls_in_cons ids m messages : calls_in ids (m :: messages) -> Forall (fun id => id ∈ ids) (called_ids m) /\ calls_in ids messages.
Proof using. unfold calls_in. cbn [mbind list_bind]. by rewrite Forall_app. Qed.

Lemma ai_called_ids m : is_ai m = true -> called_ids m = omap call_id (message_tool_calls m).
Proof using. unfold ToolCalls.called_ids. by intros ->. Qed.

Lemma other_called_ids m : is_ai m = false -> called_ids m = [].
Proof using. unfold ToolCalls.called_ids. by intros ->. Qed.

Lemma answers_grouped ids l answers : Forall (fun id => id ∈ ids) l -> Forall2 answers_to l answers -> Forall (fun m => grouped ids m = true) answers.
Proof using.
  intros Hl. induction 1 as [|id m l answers [Ht Hi] _ IH]; [done|]. apply Forall_cons in Hl as [Hid Hl]. constructor; [|by apply IH].
  unfold grouped. rewrite Ht, Hi. by rewrite bool_decide_eq_true_2.
Qed.

Lemma answered_answers l answers rest : Forall2 answers_to l answers -> answered rest -> answered (answers ++ rest).
Proof using.
  induction 1 as [|id m l answers [Ht _] _ IH]; intros Hr; [done|]. simpl. split; [|by apply IH].
  rewrite other_called_ids by (by apply tool_not_ai). constructor.
Qed.

(** One step of [patch], seen from the outside. *)
Lemma patch_cons ids q m messages :
  queue_ok q -> calls_in ids (m :: messages) ->
  (grouped ids m = true /\ patch ids q (m :: messages) = patch ids q messages /\ called_ids m = [])
  \/ (grouped ids m = false /\ exists answers q', patch ids q (m :: messages) = m :: answers ++ patch ids q' messages
      /\ Forall2 answers_to (called_ids m) answers /\ queue_ok q'
      /\ (forall id, supplied id (count id (called_ids m)) (queue q id) (results id answers)
           /\ queue q' id = drop (count id (called_ids m)) (queue q id))).
Proof using.
  intros Hq Hin. cbn [ToolCalls.patch]. fold (grouped ids m). destruct (grouped ids m) eqn:Eg.
  - left. split; [done|]. split; [done|]. apply andb_true_iff in Eg as [Ht _]. by apply other_called_ids, tool_not_ai.
  - right. split; [done|]. destruct (is_ai m) eqn:Ea.
    + rewrite ai_called_ids by done. destruct (answer_calls q (message_tool_calls m)) as [answers q'] eqn:Ec.
      exists answers, q'. split; [done|]. by apply answer_calls_spec in Ec.
    + rewrite other_called_ids by done. exists [], q. split; [done|]. split; [constructor|]. split; [done|].
      intros id. split; [by exists []|done].
Qed.

Lemma patch_answered ids q messages : queue_ok q -> calls_in ids messages -> answered (patch ids q messages).
Proof using.
  revert q. induction messages as [|m messages IH]; intros q Hq Hin; [done|]. pose proof (calls_in_cons _ _ _ Hin) as [_ Hin'].
  destruct (patch_cons ids q m messages Hq Hin) as [(_ & -> & _)|(_ & answers & q' & -> & Ha & Hq' & _)]; [by apply IH|].
  simpl. split; [|eapply answered_answers; [exact Ha|by apply IH]].
  rewrite (Forall2_length _ _ _ Ha), take_app_length. done.
Qed.

Lemma patch_others ids q messages :
  queue_ok q -> calls_in ids messages ->
  List.filter (fun m => negb (grouped ids m)) (patch ids q messages) = List.filter (fun m => negb (grouped ids m)) messages.
Proof using.
  revert q. induction messages as [|m messages IH]; intros q Hq Hin; [done|]. pose proof (calls_in_cons _ _ _ Hin) as [Hm Hin'].
  destruct (patch_cons ids q m messages Hq Hin) as [(Hg & -> & _)|(Hg & answers & q' & -> & Ha & Hq' & _)].
  - cbn [List.filter]. rewrite Hg. simpl. by apply IH.
  - cbn [List.filter]. rewrite Hg. simpl. f_equal. rewrite List.filter_app, IH by done.
    rewrite filter_none; [done|]. eapply Forall_impl; [exact (answers_grouped ids _ _ Hm Ha)|]. simpl. by intros x ->.
Qed.

Lemma supplied_app id n1 n2 q out1 out2 :
  supplied id n1 q out1 -> supplied id n2 (drop n1 q) out2 -> supplied id (n1 + n2) q (out1 ++ out2).
Proof using.
  intros (ph1 & -> & Hp1 & Hl1) (ph2 & -> & Hp2 & Hl2). rewrite !length_app in *.
  exists (ph1 ++ ph2). split; [|split; [by apply Forall_app|rewrite ?length_app; lia]].
  destruct (decide (n1 <= length q)%nat) as [Hle|Hle].
  - rewrite length_take in Hl1. assert (ph1 = []) as -> by (apply nil_length_inv; lia). rewrite !app_nil_r. simpl.
    rewrite app_assoc. f_equal. rewrite <-(take_drop n1 q) at 3. rewrite take_app, take_take. 
    rewrite length_take. f_equal; f_equal; lia.
  - rewrite (drop_ge q) in * by lia. rewrite take_nil. simpl. rewrite !take_ge by lia. by rewrite app_assoc.
Qed.

Lemma count_app id l1 l2 : count id (l1 ++ l2) = (count id l1 + count id l2)%nat.
Proof using. unfold count. by rewrite List.filter_app, length_app. Qed.

Lemma patch_results ids q messages id :
  queue_ok q -> calls_in ids messages -> id ∈ ids ->
  supplied id (count id (messages ≫= called_ids)) (queue q id) (results id (patch ids q messages)).
Proof using.
  intros Hq Hin Hid. revert q Hq. induction messages as [|m messages IH]; intros q Hq; [by exists []|].
  pose proof (calls_in_cons _ _ _ Hin) as [Hm Hin']. specialize (IH Hin'). cbn [mbind list_bind]. rewrite count_app.
  destruct (patch_cons ids q m messages Hq Hin) as [(Hg & -> & ->)|(Hg & answers & q' & -> & Ha & Hq' & Hs)]; [by apply IH|].
  destruct (Hs id) as [Hs1 Hd]. rewrite results_cons. assert (is_tool m && String.eqb (t_tool_call_id m) id = false) as ->.
  { unfold grouped in Hg. destruct (is_tool m); [|done]. simpl in *. apply bool_decide_eq_false in Hg.
    destruct (String.eqb_spec (t_tool_call_id m) id); [congruence|done]. }
  rewrite results_app. apply supplied_app; [done|]. rewrite <-Hd. by apply IH.
Qed.

(** Feeding the answers back gives the same answers. *)
Lemma answer_calls_again (ids : gset string) q calls answers (ext : string -> list turn) :
  Forall (fun id => id ∈ ids) (omap call_id calls) -> Forall2 answers_to (omap call_id calls) answers ->
  (forall id, id ∈ ids -> queue q id = results id answers ++ ext id) ->
  exists q', answer_calls q calls = (answers, q') /\ forall id, id ∈ ids -> queue q' id = ext id.
Proof using.
  revert q answers. induction calls as [|tc calls IH]; intros q answers Hin Ha Hq; simpl in *.
  { apply Forall2_nil_inv_l in Ha as ->. exists q. split; [done|]. exact Hq. }
  destruct (call_id tc) as [id0|]; [|by apply IH].
  apply Forall_cons in Hin as [Hid0 Hin]. apply Forall2_cons_inv_l in Ha as (m & answers' & Hm & Ha & ->).
  pose proof (Hq id0 Hid0) as Hq0. rewrite (results_answer _ id0), decide_True in Hq0 by done. unfold queue in Hq0. rewrite Hq0. simpl.
  destruct (IH (<[id0 := results id0 answers' ++ ext id0]> q) answers') as (q' & -> & Hq'); [done|done| |by exists q'].
  intros id Hid. rewrite queue_insert. case_decide as E; [by subst id|]. rewrite (Hq id Hid), (results_answer _ id0) by done.
  by rewrite decide_False.
Qed.

Lemma patch_skips ids q answers rest : Forall (fun m => grouped ids m = true) answers -> patch ids q (answers ++ rest) = patch ids q rest.
Proof using. induction 1 as [|m answers Hm _ IH]; [done|]. cbn [app ToolCalls.patch]. fold (grouped ids m). by rewrite Hm. Qed.

Lemma patch_again ids q q' messages (ext : string -> list turn) :
  queue_ok q -> calls_in ids messages ->
  (forall id, id ∈ ids -> queue q' id = results id (patch ids q messages) ++ ext id) ->
  patch ids q' (patch ids q messages) = patch ids q messages.
Proof using.
  revert q q'. induction messages as [|m messages IH]; intros q q' Hq Hin Hq'; [done|]. pose proof (calls_in_cons _ _ _ Hin) as [Hm Hin'].
  destruct (patch_cons ids q m messages Hq Hin) as [(_ & E & _)|(Hg & answers & q1 & E & Ha & Hq1 & _)]; rewrite E in *; [by apply IH|].
  cbn [ToolCalls.patch]. fold (grouped ids m). rewrite Hg.
  assert (Hres : forall id, id ∈ ids -> results id (m :: answers ++ patch ids q1 messages) = results id answers ++ results id (patch ids q1 messages)).
  { intros id Hid. rewrite results_cons, results_app. unfold grouped in Hg. destruct (is_tool m); [|done]. simpl in *. apply bool_decide_eq_false in Hg.
    destruct (String.eqb_spec (t_tool_call_id m) id); [congruence|done]. }
  assert (Hskip : forall q2, patch ids q2 (answers ++ patch ids q1 messages) = patch ids q2 (patch ids q1 messages))
    by (intros; apply patch_skips; exact (answers_grouped ids _ _ Hm Ha)).
  destruct (is_ai m) eqn:Eai.
  - rewrite ai_called_ids in Hm, Ha by done.
    destruct (answer_calls_again ids q' (message_tool_calls m) answers (fun id => results id (patch ids q1 messages) ++ ext id) Hm Ha) as (q2 & -> & Hq2).
    { intros id Hid. by rewrite Hq', Hres, app_assoc. }
    f_equal. f_equal. rewrite Hskip. apply IH; [done..|]. exact Hq2.
  - rewrite other_called_ids in Ha by done. apply Forall2_nil_inv_l in Ha as ->. simpl. f_equal.
    apply IH; [done..|]. intros id Hid. rewrite Hq' by done. f_equal. by rewrite (Hres id Hid).
Qed.

(** The calls of a transcript are those of its assistant messages, which a
    repair keeps. *)
Lemma patch_calls ids q messages : queue_ok q -> calls_in ids messages -> patch ids q messages ≫= called_ids = messages ≫= called_ids.
Proof using.
  revert q. induction messages as [|m messages IH]; intros q Hq Hin; [done|]. pose proof (calls_in_cons _ _ _ Hin) as [Hm Hin'].
  destruct (patch_cons ids q m messages Hq Hin) as [(_ & -> & Hc)|(_ & answers & q' & -> & Ha & Hq' & _)]; cbn [mbind list_bind].
  - rewrite Hc. by apply IH.
  - f_equal. rewrite bind_app, IH by done. assert (answers ≫= called_ids = []) as ->; [|done].
    clear -Ha. induction Ha as [|id x l answers [Ht _] _ IH]; [done|]. cbn [mbind list_bind].
    rewrite other_called_ids by (by apply tool_not_ai). exact IH.
Qed.

Lemma results_queue_ok messages : queue_ok (results_by_id messages).
Proof using.
  intros id. rewrite queue_results. apply Forall_forall. intros m Hm%list_elem_of_In. apply filter_In in Hm as [_ Hm].
  apply andb_true_iff in Hm as [Ht Hi%String.eqb_eq]. by split.
Qed.

Lemma all_calls_in messages : calls_in (tool_call_ids messages) messages.
Proof using. unfold calls_in, ToolCalls.tool_call_ids. apply Forall_forall. intros id Hid. by apply elem_of_list_to_set. Qed.

Lemma messages_for_model_patch messages :
  messages_for_model messages = patch (tool_call_ids messages) (results_by_id messages) messages.
Proof using. unfold ToolCalls.messages_for_model, build_patched_messages. case_bool_decide; done. Qed.

(** (C37) The transcript a model gets is well formed.  Each assistant message is
    followed at once by exactly one result for each of its calls, in their
    order; every other message stays, in its order; the results of an id are
    the recorded ones, in order and as many as there are calls, with error
    results made up for the calls that have none; and a transcript that was
    repaired once is not touched again. *)
Theorem transcript_repaired messages :
  let out := messages_for_model messages in
  let ids := tool_call_ids messages in
  answered out
  /\ List.filter (fun m => negb (grouped ids m)) out = List.filter (fun m => negb (grouped ids m)) messages
  /\ (forall id, id ∈ ids -> supplied id (count id (messages ≫= called_ids)) (results id messages) (results id out))
  /\ messages_for_model out = out.
Proof using.
  intros out ids. unfold out. rewrite (messages_for_model_patch messages).
  pose proof (results_queue_ok messages) as Hq. pose proof (all_calls_in messages) as Hin. fold ids in Hin |- *. split_and!.
  - by apply patch_answered.
  - by apply patch_others.
  - intros id Hid. rewrite <-queue_results. by apply patch_results.
  - rewrite messages_for_model_patch. assert (tool_call_ids (patch ids (results_by_id messages) messages) = ids) as ->.
    { unfold ToolCalls.tool_call_ids. by rewrite patch_calls. }
    apply (patch_again _ _ _ _ (fun _ => [])); [done..|]. intros id _. by rewrite queue_results, app_nil_r.
Qed.
End dangling.

(** ** Limited subagents *)

Lemma drop_excess_tasks_spec limit calls :
  List.filter is_task (drop_excess_tasks limit calls) = take limit (List.filter is_task calls)
  /\ List.filter (fun tc => negb (is_task tc)) (drop_excess_tasks limit calls) = List.filter (fun tc => negb (is_task tc)) calls.
Proof.
  revert limit. induction calls as [|tc calls IH]; intros limit; simpl; [by rewrite take_nil|].
  destruct (is_task tc) eqn:E; simpl.
  - destruct limit as [|limit]; simpl; [apply (IH 0%nat)|]. rewrite E. simpl. destruct (IH limit) as [-> ->]. done.
  - rewrite E. simpl. destruct (IH limit) as [-> ->]. done.
Qed.

(** ** Suppressed calls *)

(** The raw provider calls of a message that are still there after a clone. *)
Definition raw_calls (m : turn) : list json :=
  match dict_get "tool_calls" (t_additional_kwargs m) with Some (JArr l) => l | _ => [] end.

Lemma clone_raw_calls m calls content :
  Forall (fun raw => exists id, raw_tool_call_id raw = Some id /\ id ∈ omap call_id calls) (raw_calls (clone_ai_message_with_tool_calls m calls content)).
Proof.
  unfold raw_calls, clone_ai_message_with_tool_calls. simpl.
  set (kept := fun raw : json => match raw_tool_call_id raw with Some i => bool_decide (i ∈ omap call_id calls) | None => false end).
  assert (Hpop : forall kw : dict, dict_get "tool_calls" (match calls with [] => dict_pop "function_call" kw | _ => kw end) = dict_get "tool_calls" kw).
  { intros kw. destruct calls; [|done]. rewrite dict_get_pop. by case_decide. }
  rewrite Hpop. destruct (dict_get "tool_calls" (t_additional_kwargs m)) as [[|b|z|s|t|raw|o]|] eqn:Ev; rewrite ?Ev; try done.
  destruct (List.filter kept raw) as [|r synced] eqn:Ef; [by rewrite dict_get_pop, decide_True|].
  rewrite dict_get_set, decide_True by done. rewrite <-Ef. apply Forall_forall. intros x [_ Hx]%list_elem_of_In%filter_In. unfold kept in Hx.
  destruct (raw_tool_call_id x) as [id|]; [|done]. exists id. split; [done|]. by apply bool_decide_eq_true in Hx.
Qed.

Lemma clone_no_calls m content : raw_calls (clone_ai_message_with_tool_calls m [] content) = [].
Proof.
  pose proof (clone_raw_calls m [] content) as H. destruct (raw_calls _) as [|raw l]; [done|].
  apply Forall_cons in H as [(id & _ & Hid) _]. by apply not_elem_of_nil in Hid.
Qed.

(** The calls a middleware removes are gone, and no other.  Whatever number
    was configured, a message with more [task] calls than the clamped limit
    (which is between two and four) keeps the first ones up to the limit and
    all its other calls, in order, and the raw provider calls that stay are of
    kept calls; a message that is within the limit is left alone.  A message
    that a safety signal ended has no call left, raw or parsed, whatever the
    detectors are; it, the stream event and the audit record say how many were
    removed. *)
Theorem excess_calls_removed value repr json_str detectors thread_id (messages : list turn) :
  let limit := clamp_subagent_limit value in
  2 <= limit <= 4
  /\ match truncate_task_calls limit messages with
     | Some out =>
         exists m, last messages = Some m
         /\ List.filter is_task (t_tool_calls out) = take (Z.to_nat limit) (List.filter is_task (t_tool_calls m))
         /\ Z.of_nat (length (List.filter is_task (t_tool_calls out))) = limit
         /\ List.filter (fun tc => negb (is_task tc)) (t_tool_calls out) = List.filter (fun tc => negb (is_task tc)) (t_tool_calls m)
         /\ Forall (fun raw => exists id, raw_tool_call_id raw = Some id /\ id ∈ omap call_id (t_tool_calls out)) (raw_calls out)
     | None => forall m, last messages = Some m -> is_ai m = true -> Z.of_nat (length (List.filter is_task (t_tool_calls m))) <= limit
     end
  /\ match apply_safety repr json_str detectors thread_id messages with
     | Some (out, event, changes) =>
         exists m t, last messages = Some m /\ detect detectors m = Some t
         /\ t_tool_calls out = [] /\ raw_calls out = [] /\ dict_get "function_call" (t_additional_kwargs out) = None
         /\ dict_get "safety_termination" (t_additional_kwargs out) = Some (JObj (termination_record t m ++ [("extras", JObj (st_extras t))]))
         /\ dict_get "suppressed_tool_call_count" event = Some (JNum (Z.of_nat (length (t_tool_calls m))))
         /\ dict_get "suppressed_tool_call_count" changes = Some (JNum (Z.of_nat (length (t_tool_calls m))))
     | None => forall m, last messages = Some m -> is_ai m = true -> t_tool_calls m = [] \/ detect detectors m = None
     end.
Proof.
  intros limit. assert (Hl : 2 <= limit <= 4) by (unfold limit, clamp_subagent_limit, MIN_SUBAGENT_LIMIT, MAX_SUBAGENT_LIMIT; lia).
  split; [done|]. split.
  - unfold truncate_task_calls. destruct (last messages) as [m|]; [|done]. destruct (is_ai m) eqn:Ea; [|by intros ? [= <-] Hm; rewrite Ea in Hm].
    simpl. destruct (Z.leb_spec (Z.of_nat (length (List.filter is_task (t_tool_calls m)))) limit); [by intros ? [= <-] _|].
    exists m. split; [done|]. destruct (drop_excess_tasks_spec (Z.to_nat limit) (t_tool_calls m)) as [H1 H2].
    change (t_tool_calls (clone_ai_message_with_tool_calls ?a ?b ?c)) with b. rewrite H1, H2. split_and!; try done.
    + rewrite length_take. lia.
    + apply clone_raw_calls.
  - unfold apply_safety. destruct (last messages) as [m|]; [|done]. destruct (is_ai m) eqn:Ea; [|by intros ? [= <-] Hm; rewrite Ea in Hm].
    simpl. destruct (t_tool_calls m) as [|tc calls] eqn:Ec; [intros ? [= <-] _; by left|].
    destruct (detect detectors m) as [t|] eqn:Ed; simpl; [|intros ? [= <-] _; by right].
    exists m, t. split; [done|]. split; [done|]. split; [done|]. unfold raw_calls, build_suppressed_message. simpl.
    rewrite !dict_get_set. rewrite decide_False, decide_False, decide_True by done. split; [|split; [|split; [done|by rewrite Ec]]].
    + exact (clone_no_calls m None).
    + by rewrite dict_get_pop, decide_True.
Qed.

(** A clipped answer and three subagents at once. *)
Definition call_of (id name : string) : dict := [("id", JStr id); ("name", JStr name); ("args", JObj [])].
Definition assistant (calls : list dict) (metadata : dict) : turn := mk_turn "ai" (Some "a") (JStr "hm") None "" "" calls [] [] metadata.

Example two_subagents_run :
  t_tool_calls <$> truncate_task_calls (clamp_subagent_limit 1) [assistant [call_of "1" "task"; call_of "2" "bash"; call_of "3" "task"; call_of "4" "task"] []]
  = Some [call_of "1" "task"; call_of "2" "bash"; call_of "3" "task"].
Proof. vm_compute. reflexivity. Qed.

Example filtered_call_dropped :
  (fun out => (t_tool_calls out.1.1, t_content out.1.1)) <$> apply_safety id (fun _ => "") default_detectors None [assistant [call_of "1" "bash"] [("finish_reason", JStr "Content_Filter")]]
  = Some ([], JStr ("hm" +:+ blank_line +:+ user_facing_message id (mk_termination "openai_compatible_content_filter" "finish_reason" "Content_Filter" []))).
Proof. vm_compute. reflexivity. Qed.

(** A result that came late moves to its call, and the other call gets an
    error result. *)
Example late_result_moves :
  let tool i := mk_turn "tool" None (JStr "done") None i "success" [] [] [] [] in
  let human := mk_turn "human" None (JStr "hi") None "" "" [] [] [] [] in
  let ai := assistant [call_of "1" "bash"; call_of "2" "ls"] [] in
  messages_for_model (fun _ => None) [ai; human; tool "1"] = [ai; tool "1"; placeholder "2" (call_of "2" "ls"); human].
Proof. vm_compute. reflexivity. Qed.
