(* ===== verification/RedisBridge.v ===== *)
(** * The Redis stream bridge

    [runtime/stream_bridge/redis.py]: the bridge that lets a subscriber on one
    replica read the events a worker on another one publishes.  The server is
    an interface: a class of the commands the bridge sends and a class of what
    their documentation promises, with a small server as the instance of the
    examples.  Any command may be lost, or be executed without an answer.

    A reader is a running [subscribe] generator.  Other replicas' commands fall
    between any two of its own, also between the [XREAD] that finds nothing and
    the [EXISTS] that follows it.  The expiry of the keys, an hour after the
    last event, is like [cleanup]: it ends the stream. *)
From S2P Require Import Prelude PyString StreamBridge.
From stdpp Require Import pretty.
From Stdlib Require Import Ascii.
Local Open Scope string_scope.
Local Open Scope Z_scope.
Local Open Scope list_scope.

(** ** The server *)

Abbreviation fields := (list (string * string)).

Class RedisStreams (R : Type) : Type := {
  rs_xadd : string -> fields -> nat -> R -> string * R;
  rs_expire : string -> Z -> R -> R;
  rs_set : string -> string -> R -> R;
  rs_exists : string -> R -> bool;
  rs_delete : list string -> R -> R;
  rs_xread : string -> string -> nat -> R -> option (list (string * fields))
}.

(** What the commands promise.  Entry ids are 128-bit numbers with a text; an
    id is greater than those in the stream, [MAXLEN ~] trims from the oldest
    entry and leaves at least the bound, [XREAD] returns the oldest entries
    after the cursor. *)
Class RedisStreamLaws (R : Type) `{RedisStreams R} : Type := {
  rs_entries : string -> R -> list (Z * fields);
  rs_text : Z -> string;
  rs_number : string -> option Z;
  rs_rejects : string -> Prop;

  rs_number_text n : 0 <= n -> rs_number (rs_text n) = Some n;
  rs_number_zero : rs_number "0" = Some 0;
  rs_xadd_entries key fs maxlen r : exists n k,
    (rs_xadd key fs maxlen r).1 = rs_text n
    /\ rs_entries key (rs_xadd key fs maxlen r).2 = drop k (rs_entries key r ++ [(n, fs)])
    /\ (k = 0 \/ maxlen + k <= S (length (rs_entries key r)))%nat
    /\ 0 < n /\ Forall (fun e => e.1 < n) (rs_entries key r);
  rs_xadd_entries_ne key key' fs maxlen r : key <> key' -> rs_entries key' (rs_xadd key fs maxlen r).2 = rs_entries key' r;
  rs_xadd_exists_ne key key' fs maxlen r : key <> key' -> rs_exists key' (rs_xadd key fs maxlen r).2 = rs_exists key' r;
  rs_expire_entries key key' ttl r : 0 < ttl -> rs_entries key' (rs_expire key ttl r) = rs_entries key' r;
  rs_expire_exists key key' ttl r : 0 < ttl -> rs_exists key' (rs_expire key ttl r) = rs_exists key' r;
  rs_set_exists key v r : rs_exists key (rs_set key v r) = true;
  rs_set_exists_ne key key' v r : key <> key' -> rs_exists key' (rs_set key v r) = rs_exists key' r;
  rs_set_entries_ne key key' v r : key <> key' -> rs_entries key' (rs_set key v r) = rs_entries key' r;
  rs_delete_entries_ne keys key r : key ∉ keys -> rs_entries key (rs_delete keys r) = rs_entries key r;
  rs_delete_exists_ne keys key r : key ∉ keys -> rs_exists key (rs_delete keys r) = rs_exists key r;
  rs_xread_entries key cursor c count r :
    rs_number cursor = Some c ->
    rs_xread key cursor count r
    = Some ((fun e => (rs_text e.1, e.2)) <$> take count (List.filter (fun e => c <? e.1) (rs_entries key r)));
  rs_xread_rejects key cursor count r : rs_rejects cursor -> rs_xread key cursor count r = None
}.

(** How a command ends for the client. *)
Inductive reply : Type := Lost | Unanswered | Answered.

#[global] Instance reply_eq_dec : EqDecision reply.
Proof. solve_decision. Defined.

Definition command {A R} (net : reply) (f : R -> A * R) (r : R) : option A * R :=
  match net with
  | Lost => (None, r)
  | Unanswered => (None, (f r).2)
  | Answered => let '(a, r') := f r in (Some a, r')
  end.

(** ** Keys and payloads *)

Definition STREAM_KEY_PREFIX : string := "deerflow:run:stream".
Definition _ENDED_SUFFIX : string := "ended".
Definition _FIELD_EVENT : string := "event".
Definition _FIELD_DATA : string := "data".
Definition _STREAM_KEY_TTL_SECONDS : Z := 3600.

Definition stream_key (run_id : string) : string := STREAM_KEY_PREFIX +:+ ":" +:+ run_id.
Definition ended_key (run_id : string) : string := stream_key run_id +:+ ":" +:+ _ENDED_SUFFIX.

Section bridge.
(** [json.dumps(default=str, ensure_ascii=False)], and [json.loads] with
    [None] when it raises. *)
Context (dumps : json -> string) (loads : string -> option json).
Context {R : Type} `{RedisStreams R}.

Definition encode_data (data : json) : string := match data with JStr s => s | _ => dumps data end.

(** [_field], on the text a decoding client returns. *)
Definition field (fs : fields) (name : string) : string := opt_or (dict_get name fs) "".

Definition decode_data (raw : string) : json :=
  if String.eqb raw "" then JStr "" else match loads raw with Some v => v | None => JStr raw end.

(** ** [RedisStreamBridge] *)

(** [self._maxlen]. *)
Definition bridge_maxlen (queue_maxsize : Z) : nat := Z.to_nat (Z.max 1 queue_maxsize).

Definition entry_fields (event : string) (data : json) : fields := [(_FIELD_EVENT, event); (_FIELD_DATA, encode_data data)].

(** An exception of the client ends a write quietly. *)
Definition redis_publish (maxlen : nat) (net1 net2 : reply) (run_id event : string) (data : json) (r : R) : R :=
  let key := stream_key run_id in
  let '(added, r) := command net1 (rs_xadd key (entry_fields event data) maxlen) r in
  match added with
  | None => r
  | Some _ => (command net2 (fun r => (tt, rs_expire key _STREAM_KEY_TTL_SECONDS r)) r).2
  end.

Definition redis_publish_end (net1 net2 : reply) (run_id : string) (r : R) : R :=
  let '(done, r) := command net1 (fun r => (tt, rs_set (ended_key run_id) "1" r)) r in
  match done with
  | None => r
  | Some _ => (command net2 (fun r => (tt, rs_expire (ended_key run_id) _STREAM_KEY_TTL_SECONDS r)) r).2
  end.

Definition redis_cleanup (net : reply) (run_id : string) (r : R) : R :=
  (command net (fun r => (tt, rs_delete [stream_key run_id; ended_key run_id] r)) r).2.

(** [subscribe]: about to poll, going through a batch, about to look for the
    end, or done. *)
Inductive phase : Type := Poll | Batch (entries : list (string * fields)) | Check | Ended.

Record reader : Type := mk_reader { rd_cursor : string; rd_phase : phase }.

Definition redis_subscribe (last_event_id : option string) : reader := mk_reader (opt_or last_event_id "0") Poll.

(** A step to the next await or yield, and what it yields. *)
Definition read_step (net : reply) (run_id : string) (r : R) (s : reader) : option stream_event * reader :=
  match rd_phase s with
  | Poll =>
      match (command net (fun r => (rs_xread (stream_key run_id) (rd_cursor s) 100 r, r)) r).1 with
      | Some (Some []) => (None, mk_reader (rd_cursor s) Check)
      | Some (Some l) => (None, mk_reader (rd_cursor s) (Batch l))
      | Some None | None => (Some HEARTBEAT_SENTINEL, s)
      end
  | Batch [] => (None, mk_reader (rd_cursor s) Poll)
  | Batch ((entry_id, fs) :: l) =>
      (Some (mk_stream_event entry_id (field fs _FIELD_EVENT) (decode_data (field fs _FIELD_DATA))), mk_reader entry_id (Batch l))
  | Check =>
      match (command net (fun r => (rs_exists (ended_key run_id) r, r)) r).1 with
      | Some true => (Some END_SENTINEL, mk_reader (rd_cursor s) Ended)
      | _ => (Some HEARTBEAT_SENTINEL, mk_reader (rd_cursor s) Poll)
      end
  | Ended => (None, s)
  end.

(** ** Histories *)

(** What any replica does, and the steps of the reader. *)
Inductive redis_op : Type :=
| RPublish (net1 net2 : reply) (run_id event : string) (data : json)
| RPublishEnd (net1 net2 : reply) (run_id : string)
| RCleanup (net : reply) (run_id : string)
| RRead (net : reply).

Definition apply_redis_op (maxlen : nat) (op : redis_op) (r : R) : R :=
  match op with
  | RPublish net1 net2 run_id event data => redis_publish maxlen net1 net2 run_id event data r
  | RPublishEnd net1 net2 run_id => redis_publish_end net1 net2 run_id r
  | RCleanup net run_id => redis_cleanup net run_id r
  | RRead _ => r
  end.
End bridge.
