(* ===== verification/RedisBridgeProps.v ===== *)
(** * What the Redis stream bridge promises *)
From S2P Require Import Prelude PyString PyList StreamBridge RedisBridge.
From stdpp Require Import pretty sorting.
From Stdlib Require Import Ascii.
Local Open Scope string_scope.
Local Open Scope Z_scope.
Local Open Scope list_scope.

(** ** Keys *)

(** Run ids are UUIDs: they have no colon. *)
Fixpoint no_colon (s : string) : bool :=
  match s with "" => true | String a s' => negb (Ascii.eqb a ":"%char) && no_colon s' end.

Lemma key_colon_split s1 s2 t1 t2 :
  no_colon s1 = true -> no_colon s2 = true -> s1 +:+ ":" +:+ t1 = s2 +:+ ":" +:+ t2 -> s1 = s2.
Proof.
  revert s2. induction s1 as [|x a IH]; intros [|y c] Ha Hc Heq; simpl in *; simplify_eq/=; try done.
  apply andb_true_iff in Ha as [? Ha]. apply andb_true_iff in Hc as [? Hc]. by rewrite (IH c).
Qed.

Lemma no_colon_app s t : no_colon (s +:+ String ":" t) = false.
Proof. induction s as [|a s IH]; simpl; [done|]. rewrite IH. by destruct (Ascii.eqb a ":"). Qed.

Lemma prefix_inj p s t : p +:+ s = p +:+ t -> s = t.
Proof. induction p as [|a p IH]; simpl; [done|]. intros [= E]. auto. Qed.

Lemma stream_key_inj a b : stream_key a = stream_key b -> a = b.
Proof. unfold stream_key. intros E%prefix_inj. by injection E. Qed.

Lemma ended_key_inj a b : no_colon a = true -> no_colon b = true -> ended_key a = ended_key b -> a = b.
Proof.
  unfold ended_key, stream_key. rewrite !str_app_assoc. intros Ha Hb E%prefix_inj. injection E as E. by apply key_colon_split in E.
Qed.

Lemma stream_ended_ne a b : no_colon a = true -> stream_key a <> ended_key b.
Proof.
  unfold ended_key, stream_key. rewrite !str_app_assoc. intros Ha E%prefix_inj. assert (a = b +:+ String ":" _ENDED_SUFFIX) as -> by (by injection E).
  by rewrite no_colon_app in Ha.
Qed.

(** ** Sorted logs *)

(** The id of the last element, or [c]. *)
Definition top {A} (c : Z) (l : list (Z * A)) : Z := match last l with Some x => x.1 | None => c end.

Lemma top_app {A} c (l1 l2 : list (Z * A)) : top c (l1 ++ l2) = top (top c l1) l2.
Proof. unfold top. rewrite last_app. by destruct (last l2). Qed.

Lemma top_snoc {A} c (l : list (Z * A)) x : top c (l ++ [x]) = x.1.
Proof. by rewrite top_app. Qed.

Lemma sorted_top {A} c (l : list (Z * A)) : StronglySorted Z.lt (c :: l.*1) -> c <= top c l /\ Forall (fun x => x.1 <= top c l) l.
Proof.
  induction l as [|x l IH] using rev_ind; [by split|]. rewrite fmap_app, app_comm_cons. intros Hs. rewrite top_snoc.
  assert (Hlt : forall y, y ∈ c :: l.*1 -> y < x.1) by (intros y Hy; eapply StronglySorted_app_1_elem_of; [exact Hs|done|simpl; set_solver]).
  split; [apply Z.lt_le_incl, Hlt; set_solver|]. apply Forall_app. split; [|by repeat constructor].
  apply Forall_forall. intros y Hy. apply Z.lt_le_incl, Hlt. right. by apply list_elem_of_fmap_2.
Qed.

(** In a sorted list, what is not beyond the last of the first [n] is among
    them. *)
Lemma sorted_take_top {A} c n (l : list (Z * A)) x :
  StronglySorted Z.lt (l.*1) -> x ∈ l -> c < x.1 -> x.1 <= top c (take n l) -> x ∈ take n l.
Proof.
  intros Hs Hx Hc Htop. rewrite <-(take_drop n l) in Hx, Hs. apply elem_of_app in Hx as [Hx|Hx]; [done|]. exfalso.
  unfold top in Htop. destruct (last (take n l)) as [y|] eqn:Ey; [|lia]. apply last_Some_elem_of in Ey.
  rewrite fmap_app in Hs. assert (y.1 < x.1); [|lia].
  eapply StronglySorted_app_1_elem_of; [exact Hs|by apply list_elem_of_fmap_2..].
Qed.

Lemma sorted_drop {A} n (l : list (Z * A)) : StronglySorted Z.lt (l.*1) -> StronglySorted Z.lt ((drop n l).*1).
Proof. intros Hs. rewrite <-(take_drop n l), fmap_app in Hs. by eapply StronglySorted_app_1_r. Qed.

Lemma sorted_take {A} n (l : list (Z * A)) : StronglySorted Z.lt (l.*1) -> StronglySorted Z.lt ((take n l).*1).
Proof. intros Hs. rewrite <-(take_drop n l), fmap_app in Hs. by eapply StronglySorted_app_1_l. Qed.

Lemma sorted_extend {A} c (l1 l2 : list (Z * A)) :
  StronglySorted Z.lt (c :: l1.*1) -> StronglySorted Z.lt (l2.*1) -> Forall (fun x => top c l1 < x.1) l2 -> StronglySorted Z.lt (c :: (l1 ++ l2).*1).
Proof.
  intros H1 H2 Hall. destruct (sorted_top _ _ H1) as [Hc Htop]. rewrite fmap_app, app_comm_cons. apply StronglySorted_app_2; [|done..].
  intros a b Ha Hb. apply list_elem_of_fmap in Hb as (y & -> & Hy). rewrite Forall_forall in Hall, Htop. specialize (Hall y Hy).
  apply elem_of_cons in Ha as [->|Ha]; [lia|]. apply list_elem_of_fmap in Ha as (z & -> & Hz). specialize (Htop z Hz). simpl in *. lia.
Qed.

Lemma list_filter_fmap {A B} (f : A -> B) (p : B -> bool) l : List.filter p (f <$> l) = f <$> List.filter (fun x => p (f x)) l.
Proof. induction l as [|x l IH]; [done|]. csimpl. destruct (p (f x)); csimpl; by rewrite IH. Qed.

(** A sorted list of elements of a sorted list is a sublist of it. *)
Lemma sorted_sublist {A} (l m : list (Z * A)) :
  StronglySorted Z.lt (l.*1) -> StronglySorted Z.lt (m.*1) -> Forall (fun x => x ∈ m) l -> l `sublist_of` m.
Proof.
  revert l. induction m as [|y m IH]; intros l Hl Hm Hin.
  { destruct l as [|x l]; [constructor|]. apply Forall_cons in Hin as [Hin _]. by apply not_elem_of_nil in Hin. }
  destruct l as [|x l]; [apply sublist_nil_l|]. rewrite fmap_cons in Hl, Hm.
  pose proof Hl as [Hxl Hl']%StronglySorted_cons. apply StronglySorted_cons in Hm as [Hym Hm'].
  rewrite Forall_fmap, Forall_forall in Hxl, Hym. apply Forall_cons in Hin as [Hx Hin]. rewrite Forall_forall in Hin.
  apply elem_of_cons in Hx as [->|Hx].
  - constructor. apply IH; [done..|]. apply Forall_forall. intros z Hz. specialize (Hxl z Hz). specialize (Hin z Hz).
    apply elem_of_cons in Hin as [->|]; [simpl in Hxl; lia|done].
  - apply sublist_cons. pose proof (Hym x Hx) as Hyx. apply IH; [done..|].
    constructor; [done|]. apply Forall_forall. intros z Hz. specialize (Hxl z Hz). specialize (Hin z Hz).
    apply elem_of_cons in Hin as [->|]; [simpl in *; lia|done].
Qed.

(** ** Histories of a stream *)

Section delivery.
Context (dumps : json -> string) (loads : string -> option json).
Context {R : Type} `{RedisStreamLaws R}.
Context (maxlen : nat) (run_id : string).
Context (maxlen_pos : (1 <= maxlen)%nat) (run_id_uuid : no_colon run_id = true).
Local Notation key := (stream_key run_id).

(** A published event with its number. *)
Abbreviation logged := (Z * (string * json))%type.

(** The server, all events that reached it, the events the reader yielded,
    how many had been published at its last poll, the reader. *)
Record history : Type := mk_history {
  h_server : R;
  h_log : list logged;
  h_got : list stream_event;
  h_polled : nat;
  h_reader : reader
}.

Definition published (op : redis_op) (r : R) : list logged :=
  match op with
  | RPublish net1 _ run event data =>
      if bool_decide (run = run_id /\ net1 <> Lost)
      then match rs_number (rs_xadd key (entry_fields dumps event data) maxlen r).1 with Some n => [(n, (event, data))] | None => [] end
      else []
  | _ => []
  end.

Definition yielded (s : reader) (y : option stream_event) : list stream_event :=
  match rd_phase s, y with Batch _, Some e => [e] | _, _ => [] end.

Definition step_history (h : history) (op : redis_op) : history :=
  match op with
  | RRead net =>
      let '(y, s) := read_step loads net run_id (h_server h) (h_reader h) in
      mk_history (h_server h) (h_log h) (h_got h ++ yielded (h_reader h) y)
        (match rd_phase (h_reader h) with Poll => length (h_log h) | _ => h_polled h end) s
  | _ => mk_history (apply_redis_op dumps maxlen op (h_server h)) (h_log h ++ published op (h_server h)) (h_got h) (h_polled h) (h_reader h)
  end.

(** Ids are UUIDs and nobody removes this stream. *)
Definition allowed (op : redis_op) : Prop :=
  match op with
  | RPublish _ _ run _ _ | RPublishEnd _ _ run => no_colon run = true
  | RCleanup _ run => no_colon run = true /\ run <> run_id
  | RRead _ => True
  end.

Definition stored (x : logged) : Z * fields := (x.1, entry_fields dumps x.2.1 x.2.2).
Definition as_entry (x : logged) : string * fields := (rs_text x.1, entry_fields dumps x.2.1 x.2.2).

(** An event as the reader yields it. *)
Definition shown (x : logged) : stream_event := mk_stream_event (rs_text x.1) x.2.1 (decode_data loads (encode_data dumps x.2.2)).

(** The server holds the log without its first [k] events. *)
Record server_ok (k : nat) (log : list logged) (r : R) : Prop := {
  so_bound : (k <= length log - maxlen)%nat;
  so_entries : rs_entries key r = stored <$> drop k log;
  so_sorted : StronglySorted Z.lt (log.*1);
  so_pos : Forall (fun x => 0 < x.1) log
}.

(** What the reader has taken, yielded or not. *)
Record reader_ok (c0 : Z) (k : nat) (log : list logged) (got : list stream_event) (polled : nat) (s : reader) (before ahead : list logged) : Prop := {
  ro_got : got = shown <$> before;
  ro_ahead : match rd_phase s with Batch l => l = as_entry <$> ahead | _ => ahead = [] end;
  ro_log : Forall (fun x => x ∈ log) (before ++ ahead);
  ro_sorted : StronglySorted Z.lt (c0 :: (before ++ ahead).*1);
  ro_cover i x : log !! i = Some x -> c0 < x.1 -> x.1 <= top c0 (before ++ ahead) -> x ∈ before ++ ahead \/ (i < k)%nat;
  ro_cursor : rs_number (rd_cursor s) = Some (top c0 before);
  ro_drained i x : match rd_phase s with Check | Ended => True | _ => False end ->
    (i < polled)%nat -> log !! i = Some x -> c0 < x.1 -> x ∈ before \/ (i < k)%nat
}.

Definition history_ok (c0 : Z) (h : history) : Prop :=
  exists k before ahead, server_ok k (h_log h) (h_server h)
  /\ reader_ok c0 k (h_log h) (h_got h) (h_polled h) (h_reader h) before ahead
  /\ (h_polled h <= length (h_log h))%nat
  /\ (rd_phase (h_reader h) = Ended -> rs_exists (ended_key run_id) (h_server h) = true).

(** *** Commands of other replicas *)

Lemma ttl_pos : 0 < _STREAM_KEY_TTL_SECONDS.
Proof using. done. Qed.

Lemma publish_view net1 net2 run event data r key' :
  let r' := redis_publish dumps maxlen net1 net2 run event data r in
  let added := (rs_xadd (stream_key run) (entry_fields dumps event data) maxlen r).2 in
  rs_entries key' r' = rs_entries key' (if bool_decide (net1 = Lost) then r else added)
  /\ rs_exists key' r' = rs_exists key' (if bool_decide (net1 = Lost) then r else added).
Proof using.
  unfold redis_publish. destruct net1; simpl; [done..|]. destruct (rs_xadd _ _ _ r) as [id r1]. simpl.
  destruct net2; simpl; rewrite ?rs_expire_entries, ?rs_expire_exists by apply ttl_pos; done.
Qed.

Lemma publish_end_view net1 net2 run r key' :
  let r' := redis_publish_end net1 net2 run r in
  (key' <> ended_key run -> rs_entries key' r' = rs_entries key' r)
  /\ (rs_exists key' r = true -> rs_exists key' r' = true).
Proof using.
  assert (Hset : forall r0, (key' <> ended_key run -> rs_entries key' (rs_set (ended_key run) "1" r0) = rs_entries key' r0)
    /\ (rs_exists key' r0 = true -> rs_exists key' (rs_set (ended_key run) "1" r0) = true)).
  { intros r0. split; [intros Hne; by apply rs_set_entries_ne|]. intros He.
    destruct (decide (ended_key run = key')) as [<-|Hne]; [apply rs_set_exists|by rewrite rs_set_exists_ne]. }
  unfold redis_publish_end. destruct net1; simpl; [done|apply Hset|].
  destruct net2; simpl; rewrite ?rs_expire_entries, ?rs_expire_exists by apply ttl_pos; apply Hset.
Qed.

Lemma server_same k log r r' : rs_entries key r' = rs_entries key r -> server_ok k log r -> server_ok k log r'.
Proof using loads maxlen_pos run_id_uuid. intros E [H1 H2 H3 H4]. split; try done. by rewrite E. Qed.

(** A new event: the log grows at its end and may lose events at its start. *)
Lemma server_append k log r event data :
  server_ok k log r ->
  let '(id, r') := rs_xadd key (entry_fields dumps event data) maxlen r in
  exists n k', rs_number id = Some n /\ (k <= k')%nat /\ server_ok k' (log ++ [(n, (event, data))]) r'.
Proof using loads maxlen_pos run_id_uuid.
  intros [Hk He Hs Hp]. destruct (rs_xadd_entries key (entry_fields dumps event data) maxlen r) as (n & k1 & Hid & He' & Hk1 & Hn & Hlt).
  destruct (rs_xadd key (entry_fields dumps event data) maxlen r) as [id r']. simpl in *. subst id.
  exists n, (k + k1)%nat. rewrite rs_number_text by lia. split; [done|]. split; [lia|].
  rewrite He, length_fmap, length_drop in Hk1. rewrite He in He', Hlt. split.
  - rewrite length_app. simpl. lia.
  - rewrite He', <-drop_drop, (drop_app_le log) by lia. by rewrite (fmap_drop _ k1), fmap_app.
  - apply (sorted_snoc fst); [done|]. simpl. destruct log as [|x log _] using rev_ind; [done|].
    assert (Hx : x.1 < n).
    { rewrite drop_app_le in Hlt by (rewrite length_app in Hk; simpl in Hk; lia). rewrite fmap_app, Forall_app in Hlt.
      destruct Hlt as [_ Hlt]. by apply Forall_cons in Hlt as [? _]. }
    apply Forall_forall. intros y Hy. apply elem_of_app in Hy as [Hy|Hy%list_elem_of_singleton]; [|by subst y].
    rewrite fmap_app in Hs. assert (y.1 < x.1); [|lia].
    eapply StronglySorted_app_1_elem_of; [exact Hs|by apply list_elem_of_fmap_2|simpl; set_solver].
  - apply Forall_app. split; [done|]. by repeat constructor.
Qed.

Lemma server_step k log op r :
  server_ok k log r -> allowed op -> (forall net, op <> RRead net) ->
  exists k', (k <= k')%nat /\ server_ok k' (log ++ published op r) (apply_redis_op dumps maxlen op r)
  /\ (rs_exists (ended_key run_id) r = true -> rs_exists (ended_key run_id) (apply_redis_op dumps maxlen op r) = true).
Proof using loads maxlen_pos run_id_uuid.
  intros Hs Hop Hnr. destruct op as [net1 net2 run event data|net1 net2 run|net run|net]; simpl in *.
  - destruct (publish_view net1 net2 run event data r key) as [E1 _].
    destruct (publish_view net1 net2 run event data r (ended_key run_id)) as [_ E2].
    assert (Hended : rs_exists (ended_key run_id) (redis_publish dumps maxlen net1 net2 run event data r) = rs_exists (ended_key run_id) r).
    { rewrite E2. case_bool_decide; [done|]. apply rs_xadd_exists_ne. by apply stream_ended_ne. }
    rewrite Hended. destruct (decide (run = run_id)) as [->|Hne].
    + case_bool_decide as Hn1; [subst; rewrite bool_decide_eq_false_2 by naive_solver|rewrite bool_decide_eq_true_2 by naive_solver].
      * exists k. rewrite app_nil_r. split; [done|]. split; [|done]. by eapply server_same.
      * pose proof (server_append k log r event data Hs) as Ha. destruct (rs_xadd key _ maxlen r) as [id r1] eqn:Ex.
        destruct Ha as (n & k' & Hnum & Hk & Ha). simpl in *. rewrite Hnum. exists k'. split; [done|]. split; [|done].
        eapply server_same; [|exact Ha]. exact E1.
    + exists k. rewrite bool_decide_eq_false_2 by naive_solver. rewrite app_nil_r. split; [done|]. split; [|done].
      eapply server_same; [|done]. rewrite E1. case_bool_decide; [done|]. apply rs_xadd_entries_ne. intros E%stream_key_inj. done.
  - exists k. rewrite app_nil_r. split; [done|]. split; [|apply publish_end_view].
    eapply server_same; [|done]. apply publish_end_view. by apply stream_ended_ne.
  - destruct Hop as [Hc Hne]. exists k. rewrite app_nil_r. split; [done|]. assert (Hkeys : key ∉ [stream_key run; ended_key run] /\ ended_key run_id ∉ [stream_key run; ended_key run]).
    { rewrite !elem_of_cons. split; intros [E|[E|E%not_elem_of_nil]]; try done.
      - apply stream_key_inj in E. congruence.
      - by apply (stream_ended_ne run_id run).
      - by apply (stream_ended_ne run run_id).
      - apply ended_key_inj in E; [congruence|done..]. }
    destruct Hkeys as [Hk1 Hk2]. split.
    + eapply server_same; [|done]. unfold redis_cleanup. destruct net; simpl; [done|by apply rs_delete_entries_ne..].
    + intros He. unfold redis_cleanup. destruct net; simpl; [done|by rewrite rs_delete_exists_ne..].
  - exfalso. by eapply Hnr.
Qed.

(** A longer log, with more of it trimmed, leaves the reader where it was. *)
Lemma reader_grows c0 k k' log new got polled s before ahead :
  (k <= k')%nat -> (polled <= length log)%nat -> StronglySorted Z.lt ((log ++ new).*1) ->
  reader_ok c0 k log got polled s before ahead -> reader_ok c0 k' (log ++ new) got polled s before ahead.
Proof using loads maxlen_pos run_id_uuid.
  intros Hk Hpol Hs [H1 H2 H3 H4 H5 H6 H7]. split; try done.
  - eapply Forall_impl; [exact H3|]. intros x Hx. set_solver.
  - intros i x Hi Hc Ht. apply lookup_app_Some in Hi as [Hi|[Hge Hi]]; [destruct (H5 i x); auto; lia|]. exfalso.
    unfold top in Ht. destruct (last (before ++ ahead)) as [y|] eqn:Ey; [|lia]. apply last_Some_elem_of in Ey.
    rewrite Forall_forall in H3. specialize (H3 y Ey). apply list_elem_of_lookup_2 in Hi. rewrite fmap_app in Hs.
    assert (y.1 < x.1); [|lia]. eapply StronglySorted_app_1_elem_of; [exact Hs|by apply list_elem_of_fmap_2..].
  - intros i x Hph Hi Hl Hc. rewrite lookup_app_l in Hl by lia. destruct (H7 i x) as [|]; auto. right. lia.
Qed.

(** *** Steps of the reader *)

Lemma poll_entries k log r s c :
  server_ok k log r -> rs_number (rd_cursor s) = Some c ->
  rs_xread key (rd_cursor s) 100 r = Some (as_entry <$> take 100 (List.filter (fun x => c <? x.1) (drop k log))).
Proof using loads maxlen_pos run_id_uuid.
  intros Hs Hc. rewrite (rs_xread_entries key _ c) by done. rewrite (so_entries _ _ _ Hs), list_filter_fmap, <-fmap_take, <-list_fmap_compose. done.
Qed.

Lemma reader_poll c0 k log r got polled s before :
  server_ok k log r -> rd_phase s = Poll -> reader_ok c0 k log got polled s before [] ->
  let new := take 100 (List.filter (fun x => top c0 before <? x.1) (drop k log)) in
  reader_ok c0 k log got (length log)
    (mk_reader (rd_cursor s) (match new with [] => Check | _ => Batch (as_entry <$> new) end)) before new.
Proof using loads maxlen_pos run_id_uuid.
  intros Hs Hp [H1 _ H3 H4 H5 H6 _] new. rewrite app_nil_r in H3, H4, H5. set (F := List.filter (fun x => top c0 before <? x.1) (drop k log)) in new.
  assert (HF : forall i x, log !! i = Some x -> top c0 before < x.1 -> x ∈ F \/ (i < k)%nat).
  { intros i x Hi Hx. destruct (decide (i < k)%nat); [by right|]. left. apply list_elem_of_In, filter_In. split; [|lia].
    apply list_elem_of_In, (list_elem_of_lookup_2 _ (i - k)%nat). rewrite lookup_drop. replace (k + (i - k))%nat with i by lia. done. }
  assert (HFs : StronglySorted Z.lt (F.*1)) by (apply (sorted_filter fst), sorted_drop, (so_sorted _ _ _ Hs)).
  assert (HFin : Forall (fun x => x ∈ log /\ top c0 before < x.1) F).
  { apply Forall_forall. intros x Hx%list_elem_of_In. apply filter_In in Hx as [Hx Hlt]. apply list_elem_of_In in Hx.
    split; [|lia]. rewrite <-(take_drop k log). apply elem_of_app. by right. }
  assert (Hnew : Forall (fun x => x ∈ log /\ top c0 before < x.1) new) by (by apply Forall_take).
  assert (Hcover : forall i x, log !! i = Some x -> c0 < x.1 -> x.1 <= top c0 (before ++ new) -> x ∈ before ++ new \/ (i < k)%nat).
  { intros i x Hi Hc Ht. rewrite top_app in Ht. destruct (decide (x.1 <= top c0 before)) as [Hle|Hgt].
    - destruct (H5 i x) as [|]; auto. left. set_solver.
    - destruct (HF i x) as [Hx|]; [done|lia| |by right]. left. apply elem_of_app. right. eapply sorted_take_top; [done..| |done]. lia. }
  assert (Hdrained : new = [] -> forall i x, log !! i = Some x -> c0 < x.1 -> x ∈ before \/ (i < k)%nat).
  { intros E i x Hi Hc. destruct (decide (x.1 <= top c0 before)) as [Hle|Hgt]; [by apply (H5 i x)|].
    destruct (HF i x) as [Hx|]; [done|lia| |by right]. exfalso. unfold new in E. destruct F; [by apply not_elem_of_nil in Hx|done]. }
  split; simpl.
  - done.
  - by destruct new.
  - apply Forall_app. split; [done|]. eapply Forall_impl; [exact Hnew|]. by intros x [? _].
  - apply sorted_extend; [done|by apply sorted_take|]. eapply Forall_impl; [exact Hnew|]. by intros x [_ ?].
  - exact Hcover.
  - done.
  - intros i x Hph _. destruct new; [by apply Hdrained|done].
Qed.

Lemma reader_yield c0 k log got polled s before x ahead :
  Forall (fun x => 0 < x.1) log -> rd_phase s = Batch (as_entry <$> x :: ahead) -> reader_ok c0 k log got polled s before (x :: ahead) ->
  reader_ok c0 k log (got ++ [shown x]) polled (mk_reader (rs_text x.1) (Batch (as_entry <$> ahead))) (before ++ [x]) ahead.
Proof using loads maxlen_pos run_id_uuid.
  intros Hpos Hp [H1 H2 H3 H4 H5 H6 H7]. assert (E : before ++ x :: ahead = (before ++ [x]) ++ ahead) by (by rewrite <-app_assoc).
  rewrite E in *. split; simpl; try done.
  - by rewrite H1, fmap_app.
  - rewrite rs_number_text, top_snoc; [done|]. rewrite Forall_forall in H3, Hpos. apply Z.lt_le_incl, Hpos, H3. set_solver.
Qed.

(** Moving on without taking or yielding anything. *)
Lemma reader_moves c0 k log got polled s before ph :
  match ph with Poll => True | Ended => rd_phase s = Check | _ => False end ->
  reader_ok c0 k log got polled s before [] -> reader_ok c0 k log got polled (mk_reader (rd_cursor s) ph) before [].
Proof using loads maxlen_pos run_id_uuid.
  intros Hph [H1 H2 H3 H4 H5 H6 H7]. split; simpl; try done; destruct ph; try done. intros i x _. rewrite Hph in H7. by apply H7.
Qed.

Lemma history_read c0 net h : history_ok c0 h -> history_ok c0 (step_history h (RRead net)).
Proof using loads maxlen_pos run_id_uuid.
  intros (k & before & ahead & Hs & Hr & Hpol & He). unfold step_history, read_step, yielded. destruct h as [r log got polled s]; simpl in *.
  destruct (rd_phase s) as [|l| |] eqn:Ep.
  - pose proof (ro_ahead _ _ _ _ _ _ _ _ Hr) as Ha. rewrite Ep in Ha. subst ahead.
    assert (Hstay : history_ok c0 (mk_history r log (got ++ []) (length log) s)).
    { exists k, before, []. rewrite app_nil_r. simpl. split; [done|]. split; [|split; [done|by rewrite Ep]].
      destruct Hr as [H1 H2 H3 H4 H5 H6 H7]. split; try done. by rewrite Ep. }
    destruct net; simpl; [exact Hstay..|]. rewrite (poll_entries k log r s _ Hs (ro_cursor _ _ _ _ _ _ _ _ Hr)).
    pose proof (reader_poll _ _ _ _ _ _ _ _ Hs Ep Hr) as Hnew. simpl in Hnew.
    set (new := take 100 _) in *. destruct new as [|x new]; simpl in *; exists k, before; eexists; simpl; rewrite app_nil_r; (split; [done|]; split; [exact Hnew|done]).
  - pose proof (ro_ahead _ _ _ _ _ _ _ _ Hr) as Ha. rewrite Ep in Ha. subst l. destruct ahead as [|x ahead]; simpl.
    + exists k, before, []. simpl. rewrite app_nil_r. split; [done|]. split; [|done]. by apply reader_moves.
    + exists k, (before ++ [x]), ahead. simpl. split; [done|]. split; [|done].
      exact (reader_yield _ _ _ _ _ _ _ _ _ (so_pos _ _ _ Hs) Ep Hr).
  - pose proof (ro_ahead _ _ _ _ _ _ _ _ Hr) as Ha. rewrite Ep in Ha. subst ahead.
    assert (Hpoll : history_ok c0 (mk_history r log (got ++ []) polled (mk_reader (rd_cursor s) Poll))).
    { exists k, before, []. rewrite app_nil_r. simpl. split; [done|]. split; [by apply reader_moves|done]. }
    destruct net; simpl; [exact Hpoll..|]. destruct (rs_exists (ended_key run_id) r) eqn:Ex; [|exact Hpoll].
    exists k, before, []. rewrite app_nil_r. simpl. split; [done|]. split; [by apply reader_moves|done].
  - exists k, before, ahead. rewrite app_nil_r. simpl. split_and!; [done..|]. intros _. by apply He.
Qed.

Lemma history_step c0 h op : allowed op -> history_ok c0 h -> history_ok c0 (step_history h op).
Proof using loads maxlen_pos run_id_uuid.
  intros Hop Hok. assert ((exists net, op = RRead net) \/ forall net, op <> RRead net) as [[net ->]|Hne] by (destruct op; [right; done..|left; eauto]); [by apply history_read|].
  destruct Hok as (k & before & ahead & Hs & Hr & Hpol & He).
  destruct (server_step k (h_log h) op (h_server h) Hs Hop) as (k' & Hk & Hs' & He'); [naive_solver|].
  exists k', before, ahead.
  assert (Hstep : step_history h op = mk_history (apply_redis_op dumps maxlen op (h_server h)) (h_log h ++ published op (h_server h)) (h_got h) (h_polled h) (h_reader h))
    by (destruct op; [done..|naive_solver]).
  rewrite Hstep. simpl. split; [done|]. split; [|split].
  - eapply reader_grows; [exact Hk|done|exact (so_sorted _ _ _ Hs')|done].
  - rewrite length_app. lia.
  - intros Hend. by apply He', He.
Qed.

Lemma history_start last_event_id c0 r :
  rs_number (opt_or last_event_id "0") = Some c0 -> rs_entries key r = [] ->
  history_ok c0 (mk_history r [] [] 0 (redis_subscribe last_event_id)).
Proof using loads maxlen_pos run_id_uuid.
  intros Hc He. exists 0%nat, [], []. simpl. split; [split; simpl; [lia|done|constructor..]|]. split; [|done].
  split; simpl; try done. by repeat constructor.
Qed.

Lemma history_steps c0 ops h : Forall allowed ops -> history_ok c0 h -> history_ok c0 (foldl step_history h ops).
Proof using loads maxlen_pos run_id_uuid.
  intros Hops. revert h. induction Hops as [|op ops Hop _ IH]; intros h Hok; [done|]. simpl. by apply IH, history_step.
Qed.

(** (C36) A subscriber on any replica gets the stream.  Whatever the replicas
    publish, for this run and for others, and whichever commands are lost:
    the events the reader yields are published events of the run after its
    cursor, in their order and each once, under their ids; an event it passed
    over had at least [maxlen] newer ones; and when it yields the end marker,
    the end was announced and what was published before its last poll was
    yielded or had as many newer ones. *)
Theorem redis_stream_delivered last_event_id c0 r ops :
  rs_number (opt_or last_event_id "0") = Some c0 -> rs_entries key r = [] -> Forall allowed ops ->
  let h := foldl step_history (mk_history r [] [] 0 (redis_subscribe last_event_id)) ops in
  exists before,
    h_got h = shown <$> before /\ before `sublist_of` h_log h /\ Forall (fun x => c0 < x.1) before
    /\ (forall i x, h_log h !! i = Some x -> c0 < x.1 ->
          x.1 <= top c0 before \/ rd_phase (h_reader h) = Ended /\ (i < h_polled h)%nat ->
          x ∈ before \/ (i + maxlen < length (h_log h))%nat)
    /\ (rd_phase (h_reader h) = Ended -> rs_exists (ended_key run_id) (h_server h) = true).
Proof using loads maxlen_pos run_id_uuid.
  intros Hc He Hops h. destruct (history_steps c0 ops _ Hops (history_start _ _ _ Hc He)) as (k & before & ahead & [Hk _ Hs _] & Hr & _ & Hend).
  fold h in Hk, Hs, Hr, Hend. destruct Hr as [H1 H2 H3 H4 H5 H6 H7]. exists before.
  apply Forall_app in H3 as [H3 _]. rewrite fmap_app in H4. pose proof H4 as Hsb. rewrite app_comm_cons in Hsb. apply StronglySorted_app_1_l in Hsb.
  split; [done|]. split; [|split; [|split; [|done]]].
  - apply sorted_sublist; [|done..]. by apply StronglySorted_cons in Hsb as [_ ?].
  - apply StronglySorted_cons in Hsb as [Hall _]. by rewrite Forall_fmap in Hall.
  - intros i x Hi Hc0 [Htop|[Hph Hpol]].
    + pose proof (sorted_top c0 (before ++ ahead)) as Hst. rewrite fmap_app in Hst. destruct (Hst H4) as [_ _].
      destruct (H5 i x Hi Hc0) as [Hx|Hx]; [|apply elem_of_app in Hx as [Hx|Hx]; [by left|]|right; lia].
      * destruct ahead as [|y ahead] using rev_ind; [by rewrite app_nil_r|]. rewrite app_assoc, top_snoc.
        unfold top in Htop. destruct (last before) as [z|] eqn:Ez; [|lia]. apply last_Some_elem_of in Ez.
        assert (z.1 < y.1); [|lia]. rewrite app_comm_cons in H4. eapply StronglySorted_app_1_elem_of; [exact H4|..].
        -- right. by apply list_elem_of_fmap_2.
        -- apply list_elem_of_fmap_2. set_solver.
      * exfalso. unfold top in Htop. destruct (last before) as [z|] eqn:Ez; [|lia]. apply last_Some_elem_of in Ez.
        assert (z.1 < x.1); [|lia]. rewrite app_comm_cons in H4. eapply StronglySorted_app_1_elem_of; [exact H4|..].
        -- right. by apply list_elem_of_fmap_2.
        -- by apply list_elem_of_fmap_2.
    + destruct (H7 i x) as [|]; [by rewrite Hph|done..|by left|right; lia].
Qed.

(** An event is yielded as it was published, unless its data is a string. *)
Lemma shown_exact n event data :
  (forall s, data <> JStr s) -> loads (dumps data) = Some data -> dumps data <> "" ->
  shown (n, (event, data)) = mk_stream_event (rs_text n) event data.
Proof using.
  intros Hs Hl Hd. unfold shown. simpl. f_equal. unfold decode_data. assert (encode_data dumps data = dumps data) as -> by (destruct data; try done; naive_solver).
  destruct (String.eqb_spec (dumps data) ""); [done|]. by rewrite Hl.
Qed.

(** A cursor the server rejects makes the reader yield heartbeats and nothing
    else, for ever: it never ends, also when the run did. *)
Lemma rejected_cursor_never_ends cursor r net :
  rs_rejects cursor -> read_step loads net run_id r (redis_subscribe (Some cursor)) = (Some HEARTBEAT_SENTINEL, redis_subscribe (Some cursor)).
Proof using.
  intros Hrej. unfold read_step. simpl. destruct net; simpl; try done. by rewrite rs_xread_rejects.
Qed.
End delivery.

(** ** A small server *)

Record server : Type := mk_server {
  sv_streams : list (string * list (Z * fields));
  sv_keys : list (string * string)
}.

Definition sv_entries (key : string) (r : server) : list (Z * fields) := opt_or (dict_get key (sv_streams r)) [].

(** The texts of ids: milliseconds and a 64-bit sequence number; a cursor may
    leave the latter out. *)
Definition id_text (n : Z) : string := event_id (Z.to_N (n / 2 ^ 64)) (Z.to_N (n mod 2 ^ 64)).

Fixpoint dec_go (acc : Z) (s : string) : option Z :=
  match s with
  | "" => Some acc
  | String a s' =>
      let d := Z.of_nat (nat_of_ascii a) - 48 in
      if (0 <=? d) && (d <=? 9) then dec_go (acc * 10 + d) s' else None
  end.
Definition dec (s : string) : option Z := if String.eqb s "" then None else dec_go 0 s.

Fixpoint split_dash (s : string) : string * option string :=
  match s with
  | "" => ("", None)
  | String a s' => if Ascii.eqb a "-" then ("", Some s') else let '(x, y) := split_dash s' in (String a x, y)
  end.

Definition id_number (s : string) : option Z :=
  let '(ms, seq) := split_dash s in
  match dec ms, (match seq with Some q => dec q | None => Some 0 end) with
  | Some a, Some b => Some (a * 2 ^ 64 + b)
  | _, _ => None
  end.

Definition next_number (l : list (Z * fields)) : Z := 1 + foldr Z.max 0 l.*1.

#[export] Instance server_redis : RedisStreams server := {|
  rs_xadd key fs maxlen r :=
    let l := sv_entries key r in
    let n := next_number l in
    let l' := l ++ [(n, fs)] in
    (id_text n, mk_server (dict_set key (drop (length l' - maxlen) l') (sv_streams r)) (sv_keys r));
  rs_expire _ _ r := r;
  rs_set key v r := mk_server (dict_pop key (sv_streams r)) (dict_set key v (sv_keys r));
  rs_exists key r := match dict_get key (sv_streams r), dict_get key (sv_keys r) with None, None => false | _, _ => true end;
  rs_delete keys r := foldr (fun key r => mk_server (dict_pop key (sv_streams r)) (dict_pop key (sv_keys r))) r keys;
  rs_xread key cursor count r :=
    match id_number cursor with
    | Some c => Some ((fun e => (id_text e.1, e.2)) <$> take count (List.filter (fun e => c <? e.1) (sv_entries key r)))
    | None => None
    end
|}.

Lemma digit_value m : (m < 10)%N -> Z.of_nat (nat_of_ascii (pretty_N_char m)) = 48 + Z.of_N m.
Proof.
  intros Hm. assert (m = 0 \/ m = 1 \/ m = 2 \/ m = 3 \/ m = 4 \/ m = 5 \/ m = 6 \/ m = 7 \/ m = 8 \/ m = 9)%N as Hd by lia.
  by repeat (destruct Hd as [->|Hd]); subst.
Qed.

Lemma dec_go_pretty x s : dec_go 0 (pretty_N_go x s) = dec_go (Z.of_N x) s.
Proof.
  revert s. induction (N.lt_wf_0 x) as [x _ IH]; intros s. destruct (decide (0 < x)%N) as [Hx|Hx].
  - rewrite pretty_N_go_step by done. rewrite IH by (by apply N.div_lt). simpl.
    pose proof (N.mod_lt x 10 ltac:(lia)) as Hm. pose proof (N.div_mod x 10 ltac:(lia)) as Hd.
    set (q := (x / 10)%N) in *. set (m := (x mod 10)%N) in *. clearbody q m.
    rewrite (digit_value m Hm). replace (48 + Z.of_N m - 48) with (Z.of_N m) by lia.
    assert ((0 <=? Z.of_N m) && (Z.of_N m <=? 9) = true) as -> by (apply andb_true_iff; split; apply Z.leb_le; lia).
    f_equal. lia.
  - assert (x = 0)%N as -> by lia. by rewrite pretty_N_go_0.
Qed.

Lemma dec_pretty (x : N) : dec (pretty x) = Some (Z.of_N x).
Proof.
  unfold dec, pretty, pretty_N. case_decide as Hx; [by subst|].
  assert (Hne : String.eqb (pretty_N_go x "") "" = false).
  { destruct (String.eqb_spec (pretty_N_go x "") "") as [E|]; [|done]. pose proof (dec_go_pretty x "") as Hd. rewrite E in Hd. simpl in Hd. injection Hd. lia. }
  by rewrite Hne, dec_go_pretty.
Qed.

Lemma split_dash_app s t : no_dash s = true -> split_dash (s +:+ "-" +:+ t) = (s, Some t).
Proof.
  induction s as [|a s IH]; [done|]. cbn [no_dash]. intros [Ha Hs]%andb_true_iff.
  change (String a s +:+ "-" +:+ t) with (String a (s +:+ "-" +:+ t)). cbn [split_dash]. rewrite (IH Hs).
  by destruct (Ascii.eqb a "-").
Qed.

Lemma id_number_text n : 0 <= n -> id_number (id_text n) = Some n.
Proof.
  intros Hn. unfold id_number, id_text, event_id. rewrite split_dash_app by apply pretty_N_no_dash. rewrite !dec_pretty.
  pose proof (Z.mod_pos_bound n (2 ^ 64) ltac:(lia)). rewrite !Z2N.id by (try lia; apply Z.div_pos; lia).
  f_equal. pose proof (Z.div_mod n (2 ^ 64) ltac:(lia)). lia.
Qed.

Lemma next_number_fresh l : 0 < next_number l /\ Forall (fun e => e.1 < next_number l) l.
Proof.
  unfold next_number. assert (Hm : 0 <= foldr Z.max 0 l.*1) by (induction l; csimpl; lia). split; [lia|].
  apply Forall_forall. intros e He. assert (e.1 <= foldr Z.max 0 l.*1); [|lia].
  clear Hm. induction He; csimpl in *; lia.
Qed.

#[export] Instance server_laws : RedisStreamLaws server.
Proof.
  refine (Build_RedisStreamLaws server _ sv_entries id_text id_number (fun cursor => id_number cursor = None) _ _ _ _ _ _ _ _ _ _ _ _ _ _).
  - apply id_number_text.
  - done.
  - intros key fs maxlen r. simpl. set (l := sv_entries key r). exists (next_number l), (length (l ++ [(next_number l, fs)]) - maxlen)%nat.
    destruct (next_number_fresh l). split; [done|]. split; [unfold sv_entries; simpl; by rewrite dict_get_set_eq|]. split; [|done].
    rewrite length_app. simpl. lia.
  - intros key key' fs maxlen r Hne. unfold sv_entries. simpl. by rewrite dict_get_set_ne.
  - intros key key' fs maxlen r Hne. simpl. by rewrite dict_get_set_ne.
  - done.
  - done.
  - intros key v r. simpl. rewrite dict_get_set_eq. by destruct (dict_get key _).
  - intros key key' v r Hne. simpl. by rewrite dict_get_pop_ne, dict_get_set_ne.
  - intros key key' v r Hne. unfold sv_entries. simpl. by rewrite dict_get_pop_ne.
  - intros keys key r Hne. unfold sv_entries. simpl. induction keys as [|k keys IH]; [done|]. apply not_elem_of_cons in Hne as [? ?].
    simpl. rewrite dict_get_pop_ne by done. by apply IH.
  - intros keys key r Hne. simpl. induction keys as [|k keys IH]; [done|]. apply not_elem_of_cons in Hne as [? ?].
    simpl. rewrite !dict_get_pop_ne by done. by apply IH.
  - intros key cursor c count r Hc. simpl. by rewrite Hc.
  - intros key cursor count r Hc. simpl. by rewrite Hc.
Defined.

(** ** Examples *)

Definition ok_publish (run event : string) : redis_op := RPublish Answered Answered run event (JObj []).
Definition plain_dumps (v : json) : string := "{}".
Definition plain_loads (s : string) : option json := if String.eqb s "{}" then Some (JObj []) else if String.eqb s "1" then Some (JNum 1) else None.

(** A client that had seen the first of three events comes back to another
    replica after the first was trimmed. *)
Definition reconnect : list redis_op :=
  [ok_publish "r" "a"; ok_publish "r" "b"; ok_publish "other" "x"; RPublish Lost Lost "r" "lost" JNull; ok_publish "r" "c"; RPublishEnd Answered Answered "r";
   RRead Lost; RRead Answered; RRead Answered; RRead Answered; RRead Answered; RRead Answered; RRead Answered].

Lemma redis_stream_delivered_witness :
  let h := foldl (step_history plain_dumps plain_loads 2 "r") (mk_history (mk_server [] []) [] [] 0 (redis_subscribe (Some "0-1"))) reconnect in
  (se_event <$> h_got h) = ["b"; "c"] /\ rd_phase (h_reader h) = Ended
  /\ exists before, h_got h = shown plain_dumps plain_loads <$> before /\ before `sublist_of` h_log h.
Proof.
  intros h. split; [vm_compute; reflexivity|]. split; [vm_compute; reflexivity|].
  destruct (redis_stream_delivered plain_dumps plain_loads 2 "r" ltac:(lia) eq_refl (Some "0-1") 1 (mk_server [] []) reconnect) as (before & H1 & H2 & _);
    [reflexivity|reflexivity|repeat constructor|]. by exists before.
Defined.

(** The last event and the end arrive between the poll that finds nothing and
    the look for the end: the reader ends without that event. *)
Example end_overtakes_event :
  let h := foldl (step_history plain_dumps plain_loads 256 "r") (mk_history (mk_server [] []) [] [] 0 (redis_subscribe None))
             [ok_publish "r" "metadata"; RRead Answered; RRead Answered; RRead Answered; RRead Answered;
              ok_publish "r" "error"; RPublishEnd Answered Answered "r"; RRead Answered] in
  (se_event <$> h_got h, (fun x => x.2.1) <$> h_log h, rd_phase (h_reader h)) = (["metadata"], ["metadata"; "error"], Ended).
Proof. vm_compute. reflexivity. Qed.

(** The text of a number comes back as a number. *)
Example string_payload_changes : decode_data plain_loads (encode_data plain_dumps (JStr "1")) = JNum 1.
Proof. reflexivity. Qed.

(** A cursor from another kind of bridge, or from anywhere. *)
Example foreign_cursor_rejected : rs_rejects (R := server) "abc" /\ ~ rs_rejects (R := server) "1719840000000-0".
Proof. split; vm_compute; done. Qed.
