(* ===== verification/EventStoreJsonl.v ===== *)
(** * The JSONL run event store

    [runtime/events/store/jsonl.py]: a file of one JSON object a line for each
    run, in the directory of its thread.  The directory tree is a dictionary of
    dictionaries of file texts (the ids of a path are checked, so distinct ids
    are distinct files); [json.dumps] of a record and [json.loads] of a line
    are parameters.  The writes and the deletions of a thread hold its write lock
    from their first to their last statement, so each is one step.  The
    listings and the count take no lock: they are modelled between two writes,
    and a read that overlaps a write is not.  Texts are code points below
    256. *)
From S2P Require Import Prelude PyString PyList EventStore.
From Stdlib Require Import Ascii.
Local Open Scope string_scope.
Local Open Scope Z_scope.
Local Open Scope list_scope.
Local Open Scope py_scope.

(** ** Lines *)

(** Where [str.splitlines] cuts. *)
Definition is_break (a : ascii) : bool :=
  let n := nat_of_ascii a in
  (bool_decide (10 <= n <= 13) || bool_decide (28 <= n <= 30) || bool_decide (n = 133))%nat.

Definition CR : ascii := ascii_of_nat 13.
Definition LF : ascii := ascii_of_nat 10.

Fixpoint splitlines (s : string) : list string :=
  match s with
  | "" => []
  | String a s' =>
      if is_break a then
        "" :: match s' with
              | String b s'' => if Ascii.eqb a CR && Ascii.eqb b LF then splitlines s'' else splitlines s'
              | "" => []
              end
      else match splitlines s' with
           | [] => [String a ""]
           | line :: lines => String a line :: lines
           end
  end.

(** ** The store *)

Module Jsonl.

Record jsonl_store : Type := mk_jsonl {
  js_files : list (string * list (string * string));
  js_seq_counters : list (string * Z)
}.

(** [_SAFE_ID_PATTERN.match]: [$] also matches before a final newline. *)
Definition is_id_char (a : ascii) : bool :=
  let n := nat_of_ascii a in
  (bool_decide (65 <= n <= 90) || bool_decide (97 <= n <= 122) || bool_decide (48 <= n <= 57) || bool_decide (n = 95) || bool_decide (n = 45))%nat.

Fixpoint id_tail (s : string) : bool :=
  match s with
  | "" => true
  | String a s' => is_id_char a && id_tail s' || Ascii.eqb a LF && String.eqb s' ""
  end.

Definition safe_path_id (s : string) : bool :=
  match s with "" => false | String a s' => is_id_char a && id_tail s' end.

(** [_validate_id], without its message. *)
Definition validate_id (value label : string) : result string unit :=
  if safe_path_id value then Ok tt else Err ("Invalid " +:+ label).

(** [_thread_dir] and [_run_file]: the texts of a thread's files, and of one. *)
Definition jsonl_thread_dir (thread_id : string) (s : jsonl_store) : result string (list (string * string)) :=
  let! _ := validate_id thread_id "thread_id" in
  Ok (opt_or (dict_get thread_id (js_files s)) []).

Definition run_file (thread_id run_id : string) (s : jsonl_store) : result string (option string) :=
  let! _ := validate_id run_id "run_id" in
  let! dir := jsonl_thread_dir thread_id s in
  Ok (dict_get run_id dir).

Section store.
(** [json.dumps(default=str, ensure_ascii=False)] of a record; [json.loads] of a line, [None]
    when it raises. *)
Context (dumps : run_event -> string) (loads : string -> option run_event).

(** The records of a file, malformed and empty lines skipped. *)
Definition read_lines (text : string) : list run_event :=
  omap (fun line => if String.eqb line "" then None else loads line) (splitlines (strip text)).

Definition by_seq (a b : run_event) : bool := ev_seq a <=? ev_seq b.

(** [_next_seq]. *)
Definition next_seq (thread_id : string) (s : jsonl_store) : Z * jsonl_store :=
  let n := opt_or (dict_get thread_id (js_seq_counters s)) 0 + 1 in
  (n, mk_jsonl (js_files s) (dict_set thread_id n (js_seq_counters s))).

(** [_compute_max_seq]. *)
Definition compute_max_seq (thread_id : string) (s : jsonl_store) : result string Z :=
  let! dir := jsonl_thread_dir thread_id s in
  Ok (foldl (fun m e => Z.max m (ev_seq e)) 0 (dir ≫= fun f => read_lines f.2)).

Definition ensure_seq_loaded (thread_id : string) (s : jsonl_store) : result string jsonl_store :=
  match dict_get thread_id (js_seq_counters s) with
  | Some _ => Ok s
  | None => let! m := compute_max_seq thread_id s in Ok (mk_jsonl (js_files s) (dict_set thread_id m (js_seq_counters s)))
  end.

(** How a write fails: before the file is opened, or after the first characters
    of the line have reached it. *)
Definition write_fault : Type := string * option nat.

(** [_write_record]: append a line. *)
Definition write_record (fault : option write_fault) (r : run_event) (s : jsonl_store) : result string unit * jsonl_store :=
  match run_file (ev_thread_id r) (ev_run_id r) s with
  | Err e => (Err e, s)
  | Ok old =>
      let line := dumps r +:+ String LF "" in
      let dir := opt_or (dict_get (ev_thread_id r) (js_files s)) [] in
      let appended (text : string) :=
        mk_jsonl (dict_set (ev_thread_id r) (dict_set (ev_run_id r) (opt_or old "" +:+ text) dir) (js_files s)) (js_seq_counters s) in
      match fault with
      | None => (Ok tt, appended line)
      | Some (e, None) => (Err e, s)
      | Some (e, Some n) => (Err e, appended (str_take n line))
      end
  end.

(** [_read_thread_events] and [_read_run_events]. *)
Definition read_thread_events (thread_id : string) (s : jsonl_store) : result string (list run_event) :=
  let! dir := jsonl_thread_dir thread_id s in
  Ok (sort_by by_seq (sort_by String.leb dir.*1 ≫= fun run => read_lines (opt_or (dict_get run dir) ""))).

Definition read_run_events (thread_id run_id : string) (s : jsonl_store) : result string (list run_event) :=
  let! text := run_file thread_id run_id s in
  Ok (match text with None => [] | Some text => sort_by by_seq (read_lines text) end).

Definition delete_thread_files (thread_id : string) (s : jsonl_store) : result string jsonl_store :=
  let! _ := jsonl_thread_dir thread_id s in
  Ok (mk_jsonl (dict_pop thread_id (js_files s)) (js_seq_counters s)).

Definition delete_run_file (thread_id run_id : string) (s : jsonl_store) : result string jsonl_store :=
  let! old := run_file thread_id run_id s in
  match old with
  | None => Ok s
  | Some _ =>
      let dir := opt_or (dict_get thread_id (js_files s)) [] in
      Ok (mk_jsonl (dict_set thread_id (dict_pop run_id dir) (js_files s)) (js_seq_counters s))
  end.

(** A failed step leaves the number it drew behind. *)
Definition put (fault : option write_fault) (now : Z) (a : event_args) (s : jsonl_store) : result string run_event * jsonl_store :=
  match ensure_seq_loaded (pa_thread_id a) s with
  | Err e => (Err e, s)
  | Ok s =>
      let '(seq, s) := next_seq (pa_thread_id a) s in
      let record := mk_run_event (pa_thread_id a) (pa_run_id a) (pa_event_type a) (pa_category a) (pa_content a)
                      (opt_or (pa_metadata a) []) seq (opt_or (pa_created_at a) now) in
      match write_record fault record s with
      | (Err e, s) => (Err e, s)
      | (Ok _, s) => (Ok record, s)
      end
  end.

(** A batch is one [put] after the other. *)
Fixpoint put_batch (faults : nat -> option write_fault) (now : Z) (l : list event_args) (s : jsonl_store) : result string (list run_event) * jsonl_store :=
  match l with
  | [] => (Ok [], s)
  | a :: l =>
      match put (faults 0%nat) now a s with
      | (Err e, s) => (Err e, s)
      | (Ok r, s) =>
          let '(rs, s) := put_batch (fun n => faults (S n)) now l s in
          (let! rs := rs in Ok (r :: rs), s)
      end
  end.

Definition list_messages (thread_id : string) (limit : Z) (before_seq after_seq : option Z) (s : jsonl_store) : result string (list run_event) :=
  let! all := read_thread_events thread_id s in
  let messages := List.filter is_message all in
  Ok match before_seq, after_seq with
     | Some b, _ => py_slice (Some (- limit)) None (List.filter (fun e => ev_seq e <? b) messages)
     | None, Some a => py_slice None (Some limit) (List.filter (fun e => a <? ev_seq e) messages)
     | None, None => py_slice (Some (- limit)) None messages
     end.

Definition list_events (thread_id run_id : string) (event_types : option (list string)) (limit : Z) (s : jsonl_store) : result string (list run_event) :=
  let! events := read_run_events thread_id run_id s in
  Ok (py_slice None (Some limit)
        match event_types with None => events | Some types => List.filter (fun e => bool_decide (ev_event_type e ∈ types)) events end).

Definition list_messages_by_run (thread_id run_id : string) (limit : Z) (before_seq after_seq : option Z) (s : jsonl_store) : result string (list run_event) :=
  let! events := read_run_events thread_id run_id s in
  let filtered := List.filter is_message events in
  let filtered := match before_seq with None => filtered | Some b => List.filter (fun e => ev_seq e <? b) filtered end in
  Ok match after_seq with
     | Some a => py_slice None (Some limit) (List.filter (fun e => a <? ev_seq e) filtered)
     | None => if limit <? Z.of_nat (length filtered) then py_slice (Some (- limit)) None filtered else filtered
     end.

Definition count_messages (thread_id : string) (s : jsonl_store) : result string Z :=
  let! all := read_thread_events thread_id s in Ok (Z.of_nat (length (List.filter is_message all))).

Definition delete_by_thread (thread_id : string) (s : jsonl_store) : result string (Z * jsonl_store) :=
  let! all := read_thread_events thread_id s in
  let! s := delete_thread_files thread_id s in
  Ok (Z.of_nat (length all), mk_jsonl (js_files s) (dict_pop thread_id (js_seq_counters s))).

Definition delete_by_run (thread_id run_id : string) (s : jsonl_store) : result string (Z * jsonl_store) :=
  let! events := read_run_events thread_id run_id s in
  let! s := delete_run_file thread_id run_id s in
  Ok (Z.of_nat (length events), s).
End store.
End Jsonl.
