(* ===== verification/EventStoreJsonlProps.v ===== *)
(** * The JSONL run event store serves a log *)
From S2P Require Import Prelude PyString PyList EventStore EventStoreJsonl.
From stdpp Require Import sorting.
From Stdlib Require Import Ascii.
Local Open Scope string_scope.
Local Open Scope Z_scope.
Local Open Scope list_scope.
Local Open Scope py_scope.

Import Jsonl.

(** ** Lines *)

Fixpoint no_break (s : string) : bool :=
  match s with "" => true | String a s' => negb (is_break a) && no_break s' end.

Lemma splitlines_line x rest : no_break x = true -> splitlines (x +:+ String LF rest) = x :: splitlines rest.
Proof.
  induction x as [|a x IH]; intros Hx.
  - change ("" +:+ String LF rest) with (String LF rest). cbn [splitlines]. change (is_break LF) with true. cbn [splitlines]. by destruct rest.
  - change (String a x +:+ String LF rest) with (String a (x +:+ String LF rest)). cbn [splitlines no_break] in *.
    apply andb_true_iff in Hx as [Ha%negb_true_iff Hx]. by rewrite Ha, (IH Hx).
Qed.

Lemma splitlines_last x : no_break x = true -> x <> "" -> splitlines x = [x].
Proof.
  induction x as [|a x IH]; intros Hx Hne; [done|]. cbn [splitlines no_break] in *. apply andb_true_iff in Hx as [Ha%negb_true_iff Hx].
  rewrite Ha. destruct x as [|b x]; [done|]. by rewrite IH.
Qed.

Lemma rstrip_keep f x c t : f c = false -> rstrip_by f (x +:+ String c t) = x +:+ String c (rstrip_by f t).
Proof.
  intros Hc. induction x as [|a x IH].
  - change ("" +:+ String c t) with (String c t). cbn [rstrip_by]. rewrite Hc. by destruct (rstrip_by f t).
  - change (String a x +:+ String c t) with (String a (x +:+ String c t)). cbn [rstrip_by]. rewrite IH. by destruct x.
Qed.

Lemma no_break_take n x : no_break x = true -> no_break (str_take n x) = true.
Proof.
  revert n. induction x as [|a x IH]; intros [|n]; simpl; try done. intros [Ha Hx]%andb_true_iff. by rewrite Ha, IH.
Qed.

Lemma no_break_rstrip f x : no_break x = true -> no_break (rstrip_by f x) = true.
Proof.
  induction x as [|a x IH]; simpl; [done|]. intros [Ha Hx]%andb_true_iff. specialize (IH Hx).
  destruct (rstrip_by f x); [destruct (f a); [done|simpl; by rewrite Ha]|]. simpl in *. by rewrite Ha.
Qed.

(** ** Logs *)

Lemma by_seq_total x y : by_seq x y = true \/ by_seq y x = true.
Proof. unfold by_seq. destruct (Z.le_ge_cases (ev_seq x) (ev_seq y)); [left|right]; by apply Z.leb_le. Qed.

Lemma by_seq_trans x y z : by_seq x y = true -> by_seq y z = true -> by_seq x z = true.
Proof. unfold by_seq. rewrite !Z.leb_le. lia. Qed.

Lemma increasing_cons e l : increasing (e :: l) <-> Forall (fun x => ev_seq e < ev_seq x) l /\ increasing l.
Proof. unfold increasing. by rewrite fmap_cons, StronglySorted_cons, Forall_fmap. Qed.

Lemma increasing_by_seq l : increasing l -> StronglySorted (fun x y => by_seq x y = true) l.
Proof.
  induction l as [|e l IH]; [constructor|]. intros [Hall Hl]%increasing_cons. constructor; [by apply IH|].
  eapply Forall_impl; [exact Hall|]. intros x Hx. apply Z.leb_le. simpl in Hx. lia.
Qed.

Lemma increasing_inj l x y : increasing l -> x ∈ l -> y ∈ l -> ev_seq x = ev_seq y -> x = y.
Proof.
  induction l as [|e l IH]; intros Hinc Hx Hy Heq; [by apply not_elem_of_nil in Hx|]. apply increasing_cons in Hinc as [Hall Hl]. rewrite Forall_forall in Hall.
  apply elem_of_cons in Hx as [->|Hx], Hy as [->|Hy]; [done| | |by apply IH].
  - specialize (Hall y Hy). lia.
  - specialize (Hall x Hx). lia.
Qed.

(** Sorting by number finds the one order. *)
Lemma sort_increasing l m : increasing l -> l ≡ₚ m -> sort_by by_seq m = l.
Proof.
  intros Hl Hp. apply (StronglySorted_unique_strong (fun x y => by_seq x y = true)).
  - intros x y Hx Hy Hxy Hyx. rewrite sort_by_perm, <-Hp in Hx. eapply increasing_inj; [exact Hl|done..|]. unfold by_seq in *. apply Z.leb_le in Hxy, Hyx. lia.
  - apply sort_by_sorted; [apply by_seq_total|apply by_seq_trans].
  - by apply increasing_by_seq.
  - by rewrite sort_by_perm.
Qed.

Lemma dict_set_Forall {V} (P : string * V -> Prop) k v d : Forall P d -> P (k, v) -> Forall P (dict_set k v d).
Proof. intros Hd Hp. induction Hd as [|[k' v'] d Hx Hd IH]; simpl; [by constructor|]. case_decide as E; [subst k'|]; by constructor. Qed.

Section store.
Context (dumps : run_event -> string) (loads : string -> option run_event).

(** What the codec promises for a record: a text of one object, on one line,
    that reads back.  [ensure_ascii=False] leaves line separators beyond ASCII
    in the text, so records with one are not among them.  Cut off before its
    last character, the text is no object. *)
Class JsonLines (plain : run_event -> Prop) : Prop := {
  jl_loads e : plain e -> loads (dumps e) = Some e;
  jl_object e : plain e -> exists body, dumps e = "{" +:+ body +:+ "}";
  jl_line e : plain e -> no_break (dumps e) = true;
  jl_torn e n : plain e -> (n < String.length (dumps e))%nat -> loads (rstrip_by is_space (str_take n (dumps e))) = None
}.

Context (plain : run_event -> Prop) `{!JsonLines plain}.
Local Notation read_lines := (read_lines loads).

(** The text of a file. *)
Fixpoint render (l : list run_event) : string :=
  match l with [] => "" | e :: l => dumps e +:+ String LF (render l) end.

Lemma render_app l1 l2 : render (l1 ++ l2) = render l1 +:+ render l2.
Proof using. induction l1 as [|e l1 IH]; [done|]. simpl. rewrite IH, str_app_assoc. done. Qed.

Lemma dumps_nonempty e : plain e -> dumps e <> "".
Proof using JsonLines0. intros He. destruct (jl_object e He) as [body ->]. done. Qed.

Lemma lstrip_render l t : Forall plain l -> l <> [] -> lstrip_by is_space (render l +:+ t) = render l +:+ t.
Proof using JsonLines0.
  intros Hl Hne. destruct l as [|e l]; [done|]. apply Forall_cons in Hl as [He _]. simpl. destruct (jl_object e He) as [body ->]. done.
Qed.

Lemma strip_render l e : Forall plain (l ++ [e]) -> strip (render (l ++ [e])) = render l +:+ dumps e.
Proof using JsonLines0.
  intros Hl. unfold strip. replace (render (l ++ [e])) with (render (l ++ [e]) +:+ "") by apply str_app_nil_r.
  rewrite lstrip_render by (try done; by destruct l). rewrite str_app_nil_r, render_app. simpl.
  apply Forall_app in Hl as [_ [He _]%Forall_cons]. destruct (jl_object e He) as [body ->].
  assert (Hshape : render l +:+ ("{" +:+ body +:+ "}") +:+ String LF "" = (render l +:+ "{" +:+ body) +:+ String "}" (String LF "")).
  { by rewrite !str_app_assoc. }
  rewrite Hshape, rstrip_keep by done. by rewrite !str_app_assoc.
Qed.

Lemma splitlines_render l x : Forall plain l -> no_break x = true -> x <> "" -> splitlines (render l +:+ x) = (dumps <$> l) ++ [x].
Proof using JsonLines0.
  intros Hl Hx Hne. induction Hl as [|e l He _ IH]; simpl; [by apply splitlines_last|].
  rewrite str_app_assoc. change (String LF (render l) +:+ x) with (String LF (render l +:+ x)).
  by rewrite splitlines_line, IH by (by apply jl_line).
Qed.

Lemma omap_lines l : Forall plain l -> omap (fun line => if String.eqb line "" then None else loads line) (dumps <$> l) = l.
Proof using JsonLines0.
  induction 1 as [|x m Hx _ IH]; [done|]. csimpl.
  destruct (String.eqb_spec (dumps x) "") as [E|_]; [by apply dumps_nonempty in E|]. by rewrite jl_loads, IH.
Qed.

(** Reading a file gives the records that were appended to it. *)
Lemma read_render l : Forall plain l -> read_lines (render l) = l.
Proof using JsonLines0.
  intros Hl. destruct l as [|e l _] using rev_ind; [done|]. unfold Jsonl.read_lines. rewrite strip_render by done.
  pose proof Hl as [Hl0 [He _]%Forall_cons]%Forall_app.
  rewrite splitlines_render; [|done|by apply jl_line|by apply dumps_nonempty].
  change [dumps e] with (dumps <$> [e]). rewrite <-fmap_app. by apply omap_lines.
Qed.

(** A line cut short at the end of the file is skipped. *)
Lemma read_torn l e n :
  Forall plain l -> plain e -> (n < String.length (dumps e))%nat -> read_lines (render l +:+ str_take n (dumps e)) = l.
Proof using JsonLines0.
  intros Hl He Hn. destruct (jl_object e He) as [body Hb]. destruct n as [|n].
  { replace (str_take 0 (dumps e)) with "" by (by destruct (dumps e)). rewrite str_app_nil_r. by apply read_render. }
  assert (exists q, str_take (S n) (dumps e) = String "{" q) as [q Hq] by (rewrite Hb; simpl; eauto).
  assert (Hr : rstrip_by is_space (String "{" q) = String "{" (rstrip_by is_space q)) by (apply (rstrip_keep is_space "" "{" q); done).
  assert (Hstrip : strip (render l +:+ String "{" q) = render l +:+ String "{" (rstrip_by is_space q)).
  { unfold strip. destruct l as [|x l]; [simpl; apply Hr|]. rewrite lstrip_render by done. by apply rstrip_keep. }
  unfold Jsonl.read_lines. rewrite Hq, Hstrip, splitlines_render; [|done| |done].
  - rewrite omap_app, omap_lines by done. pose proof (jl_torn e (S n) He Hn) as Ht. rewrite Hq, Hr in Ht. simpl. rewrite Ht. apply app_nil_r.
  - rewrite <-Hr, <-Hq. apply no_break_rstrip, no_break_take. by apply jl_line.
Qed.

(** ** Well-formed stores *)

Definition dir_of (t : string) (s : jsonl_store) : list (string * string) := opt_or (dict_get t (js_files s)) [].
Definition records (dir : list (string * string)) : list run_event := dir ≫= fun f => read_lines f.2.
Definition log (t : string) (s : jsonl_store) : list run_event := sort_by by_seq (records (dir_of t s)).

Definition file_ok (t : string) (f : string * string) : Prop :=
  exists l, f.2 = render l /\ Forall (fun e => plain e /\ ev_thread_id e = t /\ ev_run_id e = f.1) l.

Record thread_ok (t : string) (dir : list (string * string)) (counter : option Z) : Prop := {
  to_dict : dict_wf dir;
  to_files : Forall (file_ok t) dir;
  to_log : increasing (sort_by by_seq (records dir));
  to_counter c : counter = Some c -> Forall (fun e => ev_seq e <= c) (records dir)
}.

Definition jsonl_wf (s : jsonl_store) : Prop := forall t, thread_ok t (dir_of t s) (dict_get t (js_seq_counters s)).

Lemma read_file t f : file_ok t f -> Forall (fun e => plain e /\ ev_thread_id e = t /\ ev_run_id e = f.1) (read_lines f.2).
Proof using JsonLines0.
  intros (l & -> & Hl). rewrite read_render; [done|]. eapply Forall_impl; [exact Hl|]. by intros e [? _].
Qed.

Lemma records_ok t dir : Forall (file_ok t) dir -> Forall (fun e => plain e /\ ev_thread_id e = t) (records dir).
Proof using JsonLines0.
  induction 1 as [|f dir Hf _ IH]; [done|]. unfold records. cbn [mbind list_bind]. apply Forall_app. split; [|exact IH].
  eapply Forall_impl; [exact (read_file t f Hf)|]. naive_solver.
Qed.

Lemma log_perm t s : log t s ≡ₚ records (dir_of t s).
Proof using. apply sort_by_perm. Qed.

(** A new line. *)
Lemma records_append run v r dir :
  read_lines v = read_lines (opt_or (dict_get run dir) "") ++ [r] -> records (dict_set run v dir) ≡ₚ records dir ++ [r].
Proof using.
  intros Hv. induction dir as [|[k w] dir IH]; simpl in *; unfold records in *; cbn [mbind list_bind] in *.
  - rewrite Hv. done.
  - case_decide as Hk; simpl in *; [rewrite Hv; solve_Permutation|]. rewrite IH by done. solve_Permutation.
Qed.

Lemma records_torn run v dir :
  read_lines v = read_lines (opt_or (dict_get run dir) "") -> records (dict_set run v dir) ≡ₚ records dir.
Proof using.
  intros Hv. induction dir as [|[k w] dir IH]; simpl in *; unfold records in *; cbn [mbind list_bind] in *.
  - by rewrite Hv.
  - case_decide as Hk; simpl in *; [by rewrite Hv|]. by rewrite IH.
Qed.

(** The records of one run are those of its file. *)
Lemma records_of_run t run dir :
  dict_wf dir -> Forall (file_ok t) dir -> List.filter (of_run run) (records dir) = read_lines (opt_or (dict_get run dir) "").
Proof using JsonLines0.
  intros Hwf. induction dir as [|[k w] dir IH]; [done|]. intros [Hf Hdir]%Forall_cons. apply NoDup_cons in Hwf as [Hk Hwf]. specialize (IH Hwf Hdir).
  unfold records in *. cbn [mbind list_bind]. rewrite List.filter_app, IH. pose proof (read_file t _ Hf) as Hrun. simpl in *. case_decide as E.
  - subst k. assert (dict_get run dir = None) as -> by (by apply dict_get_None). simpl. rewrite app_nil_r. apply filter_all.
    eapply Forall_impl; [exact Hrun|]. intros e (_ & _ & He). unfold of_run. rewrite He. apply String.eqb_refl.
  - rewrite filter_none; [done|]. eapply Forall_impl; [exact Hrun|]. intros e (_ & _ & He). unfold of_run. rewrite He. by apply String.eqb_neq.
Qed.

Lemma records_pop t run dir :
  Forall (file_ok t) dir -> records (dict_pop run dir) = List.filter (fun e => negb (of_run run e)) (records dir).
Proof using JsonLines0.
  induction dir as [|[k w] dir IH]; [done|]. intros [Hf Hdir]%Forall_cons. specialize (IH Hdir). pose proof (read_file t _ Hf) as Hrun. simpl in Hrun.
  unfold records, dict_pop in *. cbn [mbind list_bind]. rewrite List.filter_app, <-IH. rewrite filter_cons. simpl. case_decide as E.
  - cbn [mbind list_bind]. f_equal. simpl. symmetry. apply filter_all. eapply Forall_impl; [exact Hrun|]. intros e (_ & _ & He). unfold of_run. rewrite He.
    by apply negb_true_iff, String.eqb_neq.
  - rewrite (filter_none _ (read_lines w)); [done|]. eapply Forall_impl; [exact Hrun|]. intros e (_ & _ & He). unfold of_run. rewrite He.
    apply negb_false_iff, String.eqb_eq. destruct (decide (k = run)); [done|contradiction].
Qed.

Lemma increasing_filter p l : increasing l -> increasing (List.filter p l).
Proof using. apply sorted_filter. Qed.

(** Sorting and filtering commute. *)
Lemma sort_filter p dir : increasing (sort_by by_seq (records dir)) ->
  sort_by by_seq (List.filter p (records dir)) = List.filter p (sort_by by_seq (records dir)).
Proof using.
  intros Hinc. apply sort_increasing; [by apply increasing_filter|]. apply Permutation_list_filter, sort_by_perm.
Qed.

(** ** Reads *)

Lemma keys_records dir : dict_wf dir -> (dir.*1 ≫= fun run => read_lines (opt_or (dict_get run dir) "")) = records dir.
Proof using.
  intros Hwf. assert (Hsub : forall l, Forall (fun p => dict_get p.1 dir = Some p.2) l ->
    (l.*1 ≫= fun run => read_lines (opt_or (dict_get run dir) "")) = records l).
  { induction 1 as [|p l Hp _ IH]; [done|]. unfold records in *. csimpl. by rewrite Hp, IH. }
  apply Hsub, Forall_forall. intros [k v] Hp. by apply dict_get_elem.
Qed.

Lemma read_thread_ok t s : jsonl_wf s -> safe_path_id t = true -> read_thread_events loads t s = Ok (log t s).
Proof using.
  intros Hwf Ht. unfold read_thread_events, jsonl_thread_dir, validate_id. rewrite Ht. simpl. fold (dir_of t s). destruct (Hwf t) as [Hd _ Hinc _]. f_equal.
  apply sort_increasing; [done|]. rewrite log_perm, <-(keys_records _ Hd). apply bind_Permutation. by rewrite sort_by_perm.
Qed.

Lemma read_run_ok t run s :
  jsonl_wf s -> safe_path_id t = true -> safe_path_id run = true -> read_run_events loads t run s = Ok (List.filter (of_run run) (log t s)).
Proof using JsonLines0.
  intros Hwf Ht Hr. unfold read_run_events, run_file, jsonl_thread_dir, validate_id. rewrite Ht, Hr. simpl. fold (dir_of t s).
  destruct (Hwf t) as [Hd Hf Hinc _]. unfold log. rewrite <-sort_filter, (records_of_run t) by done. f_equal. by destruct (dict_get run (dir_of t s)).
Qed.

Lemma log_thread t s : jsonl_wf s -> increasing (log t s) /\ Forall (fun e => ev_thread_id e = t) (log t s).
Proof using JsonLines0.
  intros Hwf. destruct (Hwf t) as [_ Hf Hinc _]. split; [done|]. unfold log. rewrite sort_by_perm.
  eapply Forall_impl; [exact (records_ok t _ Hf)|]. by intros e [_ ?].
Qed.

(** A page is the page of the contract. *)
Lemma jsonl_page_window limit before_seq after_seq l :
  0 < limit ->
  match after_seq with
  | Some a => py_slice None (Some limit) (List.filter (fun e => a <? ev_seq e) (match before_seq with None => l | Some b => List.filter (fun e => ev_seq e <? b) l end))
  | None => py_slice (Some (- limit)) None (match before_seq with None => l | Some b => List.filter (fun e => ev_seq e <? b) l end)
  end = window limit before_seq after_seq l.
Proof using. intros Hl. unfold window. destruct after_seq; [apply py_slice_first; lia|by apply py_slice_last]. Qed.

Definition serves (t : string) (s : jsonl_store) : Prop :=
  (forall limit before_seq after_seq, 0 < limit -> before_seq = None \/ after_seq = None ->
     list_messages loads t limit before_seq after_seq s = Ok (window limit before_seq after_seq (List.filter is_message (log t s))))
  /\ (forall run limit before_seq after_seq, safe_path_id run = true -> 0 < limit ->
     list_messages_by_run loads t run limit before_seq after_seq s
     = Ok (window limit before_seq after_seq (List.filter is_message (List.filter (of_run run) (log t s)))))
  /\ (forall run types limit, safe_path_id run = true -> 0 <= limit ->
     list_events loads t run types limit s
     = Ok (take (Z.to_nat limit) (List.filter (fun e => match types with None => true | Some l => bool_decide (ev_event_type e ∈ l) end)
                                    (List.filter (of_run run) (log t s)))))
  /\ count_messages loads t s = Ok (Z.of_nat (length (List.filter is_message (log t s)))).

Lemma reads_serve t s : jsonl_wf s -> safe_path_id t = true -> serves t s.
Proof using JsonLines0.
  intros Hwf Ht. split_and!.
  - intros limit before_seq after_seq Hl Hone. unfold list_messages. rewrite read_thread_ok by done. simpl. f_equal.
    rewrite <-jsonl_page_window by done. by destruct before_seq, after_seq; destruct Hone.
  - intros run limit before_seq after_seq Hr Hl. unfold list_messages_by_run. rewrite read_run_ok by done. simpl. f_equal.
    rewrite <-jsonl_page_window by done. destruct after_seq; [done|]. set (l := match before_seq with None => _ | Some _ => _ end).
    destruct (Z.ltb_spec limit (Z.of_nat (length l))); [done|]. rewrite py_slice_last by done. by rewrite latest_ge by lia.
  - intros run types limit Hr Hl. unfold list_events. rewrite read_run_ok by done. simpl. f_equal. rewrite py_slice_first by done.
    destruct types; [done|]. f_equal. symmetry. apply filter_all. by apply Forall_true.
  - unfold count_messages. by rewrite read_thread_ok.
Qed.

(** ** Writes *)

Lemma dir_of_set t dir files counters t' :
  dir_of t' (mk_jsonl (dict_set t dir files) counters) = if decide (t = t') then dir else opt_or (dict_get t' files) [].
Proof using. apply Memory.opt_or_set. Qed.

(** A counter at or above every number of its thread may be put in. *)
Lemma wf_counter s t c :
  jsonl_wf s -> Forall (fun e => ev_seq e <= c) (records (dir_of t s)) -> jsonl_wf (mk_jsonl (js_files s) (dict_set t c (js_seq_counters s))).
Proof using.
  intros Hwf Hc t'. destruct (Hwf t') as [H1 H2 H3 H4]. split; [done..|]. intros c'. simpl. rewrite dict_get_set. case_decide as E; [|apply H4].
  subst t'. by intros [= <-].
Qed.

Lemma foldl_max_ge l m : m <= foldl (fun m e => Z.max m (ev_seq e)) m l /\ Forall (fun e => ev_seq e <= foldl (fun m e => Z.max m (ev_seq e)) m l) l.
Proof using.
  revert m. induction l as [|e l IH]; intros m; simpl; [done|]. destruct (IH (Z.max m (ev_seq e))) as [H1 H2]. split; [lia|]. constructor; [lia|done].
Qed.

Lemma ensure_ok s t s1 :
  jsonl_wf s -> ensure_seq_loaded loads t s = Ok s1 ->
  jsonl_wf s1 /\ js_files s1 = js_files s /\ exists c, dict_get t (js_seq_counters s1) = Some c /\ Forall (fun e => ev_seq e <= c) (records (dir_of t s)).
Proof using.
  intros Hwf. unfold ensure_seq_loaded, compute_max_seq, jsonl_thread_dir. destruct (dict_get t (js_seq_counters s)) as [c|] eqn:Ec.
  - intros [= <-]. split; [done|]. split; [done|]. exists c. split; [done|]. by apply (to_counter _ _ _ (Hwf t)).
  - destruct (validate_id t "thread_id"); [|done]. simpl. fold (dir_of t s). fold (records (dir_of t s)). intros [= <-].
    destruct (foldl_max_ge (records (dir_of t s)) 0) as [_ Hmax]. split; [by apply wf_counter|]. split; [done|].
    eexists. simpl. by rewrite dict_get_set_eq.
Qed.

Lemma file_text t run dir : Forall (file_ok t) dir ->
  exists l, opt_or (dict_get run dir) "" = render l /\ Forall (fun e => plain e /\ ev_thread_id e = t /\ ev_run_id e = run) l.
Proof using.
  intros Hf. destruct (dict_get run dir) as [text|] eqn:Eg; [|by exists []].
  apply dict_get_Some_elem in Eg. rewrite Forall_forall in Hf. exact (Hf _ Eg).
Qed.

Lemma thread_append t run dir c r :
  thread_ok t dir (Some c) -> plain r -> ev_thread_id r = t -> ev_run_id r = run -> c < ev_seq r ->
  let dir' := dict_set run (opt_or (dict_get run dir) "" +:+ dumps r +:+ String LF "") dir in
  thread_ok t dir' (Some (ev_seq r)) /\ sort_by by_seq (records dir') = sort_by by_seq (records dir) ++ [r].
Proof using JsonLines0.
  intros [Hd Hf Hinc Hc] Hplain Ht Hr Hlt dir'. specialize (Hc c eq_refl). pose proof (file_text t run dir Hf) as Hfile.
  destruct Hfile as (l & Htext & Hl). assert (Hl' : Forall (fun e => plain e /\ ev_thread_id e = t /\ ev_run_id e = run) (l ++ [r])) by (apply Forall_app; split; [done|by repeat constructor]).
  assert (Hnew : render l +:+ dumps r +:+ String LF "" = render (l ++ [r])) by (by rewrite render_app).
  assert (Hplain' : forall m, Forall (fun e => plain e /\ ev_thread_id e = t /\ ev_run_id e = run) m -> read_lines (render m) = m).
  { intros m Hm. apply read_render. eapply Forall_impl; [exact Hm|]. by intros e [? _]. }
  assert (Hperm : records dir' ≡ₚ records dir ++ [r]).
  { apply records_append. rewrite Htext, Hnew. by rewrite !Hplain'. }
  assert (Hsorted : increasing (sort_by by_seq (records dir) ++ [r])).
  { apply sorted_snoc; [done|]. rewrite sort_by_perm. eapply Forall_impl; [exact Hc|]. simpl. lia. }
  assert (Hsort : sort_by by_seq (records dir') = sort_by by_seq (records dir) ++ [r]).
  { apply sort_increasing; [done|]. by rewrite Hperm, sort_by_perm. }
  split; [|done]. split.
  - by apply dict_wf_set.
  - apply dict_set_Forall; [done|]. exists (l ++ [r]). simpl. by rewrite Htext, Hnew.
  - by rewrite Hsort.
  - intros c' [= <-]. rewrite Hperm. apply Forall_app. split; [|by repeat constructor]. eapply Forall_impl; [exact Hc|]. simpl. lia.
Qed.

(** A line cut short changes no log. *)
Lemma thread_torn t run dir c r n :
  thread_ok t dir c -> plain r -> (n < String.length (dumps r))%nat ->
  sort_by by_seq (records (dict_set run (opt_or (dict_get run dir) "" +:+ str_take n (dumps r +:+ String LF "")) dir)) = sort_by by_seq (records dir).
Proof using JsonLines0.
  intros [Hd Hf Hinc _] Hr Hn. apply sort_increasing; [done|]. rewrite sort_by_perm, records_torn; [done|].
  destruct (file_text t run dir Hf) as (l & -> & Hl). rewrite str_take_app by lia.
  assert (Forall plain l) by (eapply Forall_impl; [exact Hl|]; by intros e [? _]). by rewrite read_torn, read_render.
Qed.

(** The record a write is about to append, and the store with its number drawn. *)
Lemma put_draws now a s :
  jsonl_wf s ->
  (exists e, forall fault, put dumps loads fault now a s = (Err e, s))
  \/ exists r s1 c, recorded a now r /\ ev_content r = pa_content a /\ jsonl_wf s1 /\ js_files s1 = js_files s
      /\ c < ev_seq r /\ Forall (fun e => ev_seq e <= c) (records (dir_of (pa_thread_id a) s))
      /\ dict_get (pa_thread_id a) (js_seq_counters s1) = Some (ev_seq r)
      /\ forall fault, put dumps loads fault now a s = (match write_record dumps fault r s1 with (Err e, s) => (Err e, s) | (Ok _, s) => (Ok r, s) end).
Proof using.
  intros Hwf. unfold put. set (t0 := pa_thread_id a). destruct (ensure_seq_loaded loads t0 s) as [s1|e] eqn:Ee; [|left; eauto].
  destruct (ensure_ok _ _ _ Hwf Ee) as (Hwf1 & Hfiles & c & Hc & Hall). right. unfold next_seq. rewrite Hc. simpl.
  eexists _, _, c. split; [|split; [|split; [|split; [|split; [|split; [|split; [|reflexivity]]]]]]]; [done|done| |exact Hfiles|simpl; lia|exact Hall|].
  - apply wf_counter; [done|]. unfold dir_of. rewrite Hfiles. eapply Forall_impl; [exact Hall|]. simpl. lia.
  - simpl. by rewrite dict_get_set_eq.
Qed.

Lemma put_spec fault now a s :
  jsonl_wf s ->
  match put dumps loads fault now a s with
  | (Ok r, s') =>
      recorded a now r /\ ev_content r = pa_content a
      /\ (plain r -> jsonl_wf s' /\ log (pa_thread_id a) s' = log (pa_thread_id a) s ++ [r] /\ forall t, t <> pa_thread_id a -> log t s' = log t s)
  | (Err _, s') =>
      (forall t, t <> pa_thread_id a -> log t s' = log t s)
      /\ match fault with
         | Some (_, Some n) => forall r0 s0, put dumps loads None now a s = (Ok r0, s0) -> plain r0 -> (n < String.length (dumps r0))%nat ->
             log (pa_thread_id a) s' = log (pa_thread_id a) s
         | _ => jsonl_wf s' /\ log (pa_thread_id a) s' = log (pa_thread_id a) s
         end
  end.
Proof using JsonLines0.
  intros Hwf. destruct (put_draws now a s Hwf) as [(e & Hput)|(r & s2 & c & Hrec & Hcont & Hwf2 & Hfiles & Hlt & Hall & Hc & Hput)];
    rewrite !Hput; [split; [done|]; destruct fault as [[e0 [n|]]|]; [by intros ? ? ?|done..]|].
  set (t0 := pa_thread_id a) in *. pose proof Hrec as (Ht & Hrun & _). unfold write_record, run_file, jsonl_thread_dir. rewrite Ht, Hrun. fold t0.
  assert (Hs2 : forall t, log t s2 = log t s) by (intros t; unfold log, dir_of; by rewrite Hfiles).
  assert (Hearly : forall e : string, (forall t, t <> t0 -> log t s2 = log t s) /\ match fault with
         | Some (_, Some n) => forall (r0 : run_event) s0, (Err e, s2) = (Ok r0, s0) -> plain r0 -> (n < String.length (dumps r0))%nat -> log t0 s2 = log t0 s
         | _ => jsonl_wf s2 /\ log t0 s2 = log t0 s end).
  { intros e. split; [by intros t _|]. by destruct fault as [[? []]|]. }
  destruct (validate_id (pa_run_id a) "run_id"); [|exact (Hearly _)]. simpl. destruct (validate_id t0 "thread_id"); [|exact (Hearly _)]. simpl.
  rewrite Hfiles. fold (dir_of t0 s). set (dir := dir_of t0 s) in *.
  assert (Hdir : forall dir' t counters, dir_of t (mk_jsonl (dict_set t0 dir' (js_files s)) counters) = if decide (t0 = t) then dir' else dir_of t s) by (intros; apply dir_of_set).
  destruct fault as [[e [n|]]|].
  - split; [intros t Hne; unfold log; by rewrite Hdir, decide_False by congruence|].
    intros r0 s0 [= <- _] Hplain Hn. unfold log. rewrite Hdir, decide_True by done. eapply (thread_torn t0); [|done|done]. apply Hwf.
  - split; [by intros t _|]. done.
  - split; [done|]. split; [done|]. intros Hplain.
    destruct (thread_append t0 (pa_run_id a) dir c r) as [Hok Hlog]; try done.
    { destruct (Hwf t0) as [H1 H2 H3 _]. split; [done..|]. by intros c' [= <-]. }
    split; [|split].
    + intros t. rewrite Hdir. simpl. case_decide as E; [subst t; by rewrite Hc|].
      destruct (Hwf2 t) as [H1 H2 H3 H4]. unfold dir_of in *. rewrite Hfiles in H1, H2, H3, H4. by split.
    + unfold log. rewrite Hdir, decide_True by done. exact Hlog.
    + intros t Hne. unfold log. by rewrite Hdir, decide_False by congruence.
Qed.

(** The fault left no part of the line behind. *)
Definition untorn (fault : option write_fault) : Prop := match fault with Some (_, Some _) => False | _ => True end.

(** A batch appends its first records, all of them when it returns. *)
Lemma jsonl_put_batch_spec faults now l s out s' :
  jsonl_wf s -> (forall n, untorn (faults n)) ->
  (forall a r, a ∈ l -> recorded a now r -> ev_content r = pa_content a -> plain r) ->
  put_batch dumps loads faults now l s = (out, s') ->
  jsonl_wf s' /\ exists rs, Forall2 (fun a r => recorded a now r /\ ev_content r = pa_content a) (take (length rs) l) rs
    /\ (forall t, log t s' = log t s ++ List.filter (fun r => String.eqb (ev_thread_id r) t) rs)
    /\ match out with Ok out => out = rs /\ length rs = length l | Err _ => (length rs < length l)%nat end.
Proof using JsonLines0.
  revert faults s out s'. induction l as [|a l IH]; intros faults s out s' Hwf Hun Hplain; simpl.
  - intros [= <- <-]. split; [done|]. exists []. split; [constructor|]. split; [|done]. intros t. by rewrite app_nil_r.
  - pose proof (put_spec (faults 0%nat) now a s Hwf) as Hput. destruct (put dumps loads (faults 0%nat) now a s) as [[r|e] s1].
    + destruct Hput as (Hrec & Hc & Hp). destruct Hp as (Hwf1 & Hlog & Hother); [by apply (Hplain a); [left|..]|].
      destruct (put_batch dumps loads (fun n => faults (S n)) now l s1) as [out1 s2] eqn:Eb. intros [= <- <-].
      destruct (IH _ _ _ _ Hwf1 (fun n => Hun (S n)) (fun a0 r0 H0 => Hplain a0 r0 (list_elem_of_further _ _ _ H0)) Eb) as (Hwf2 & rs & Hrs & Hl & Hout).
      split; [done|]. exists (r :: rs). split; [by constructor|]. split.
      * intros t. rewrite Hl. simpl. pose proof Hrec as (-> & _). destruct (String.eqb_spec (pa_thread_id a) t) as [<-|Hne].
        -- by rewrite Hlog, <-app_assoc.
        -- by rewrite Hother by congruence.
      * destruct out1; simpl in *; [destruct Hout as [-> ->]; done|lia].
    + intros [= <- <-]. specialize (Hun 0%nat). destruct Hput as [Hother Hf].
      assert (jsonl_wf s1 /\ log (pa_thread_id a) s1 = log (pa_thread_id a) s) as [Hwf1 Hlog] by (by destruct (faults 0%nat) as [[? []]|]).
      split; [done|]. exists []. split; [constructor|]. split; [|simpl; lia]. intros t. rewrite app_nil_r.
      destruct (decide (t = pa_thread_id a)) as [->|Hne]; [done|by apply Hother].
Qed.

Lemma put_total now a s :
  safe_path_id (pa_thread_id a) = true -> safe_path_id (pa_run_id a) = true -> exists r s', put dumps loads None now a s = (Ok r, s').
Proof using.
  intros Ht Hr. unfold put, ensure_seq_loaded, compute_max_seq, write_record, run_file, jsonl_thread_dir, validate_id. simpl. rewrite Ht.
  destruct (dict_get (pa_thread_id a) (js_seq_counters s)); simpl; rewrite ?Ht, Hr; simpl; eauto.
Qed.

Lemma empty_thread t counter : thread_ok t [] counter.
Proof using. split; try constructor. Qed.

Lemma delete_thread_ok t s :
  jsonl_wf s -> safe_path_id t = true ->
  exists s', delete_by_thread loads t s = Ok (Z.of_nat (length (log t s)), s') /\ jsonl_wf s' /\ log t s' = [] /\ forall t', t' <> t -> log t' s' = log t' s.
Proof using.
  intros Hwf Ht. unfold delete_by_thread. rewrite read_thread_ok by done. simpl. unfold delete_thread_files, jsonl_thread_dir, validate_id. rewrite Ht. simpl.
  eexists. split; [done|]. assert (Hdir : forall t' counters, dir_of t' (mk_jsonl (dict_pop t (js_files s)) counters) = if decide (t = t') then [] else dir_of t' s)
    by (intros; apply Memory.opt_or_pop).
  split; [|split].
  - intros t'. rewrite Hdir. simpl. rewrite dict_get_pop. case_decide; [apply empty_thread|apply Hwf].
  - unfold log. by rewrite Hdir, decide_True.
  - intros t' Hne. unfold log. by rewrite Hdir, decide_False by congruence.
Qed.

Lemma delete_run_ok t run s :
  jsonl_wf s -> safe_path_id t = true -> safe_path_id run = true ->
  exists s', delete_by_run loads t run s = Ok (Z.of_nat (length (List.filter (of_run run) (log t s))), s') /\ jsonl_wf s'
    /\ log t s' = List.filter (fun e => negb (of_run run e)) (log t s) /\ forall t', t' <> t -> log t' s' = log t' s.
Proof using JsonLines0.
  intros Hwf Ht Hr. unfold delete_by_run. rewrite read_run_ok by done. simpl. unfold delete_run_file, run_file, jsonl_thread_dir, validate_id. rewrite Ht, Hr. simpl.
  fold (dir_of t s). destruct (Hwf t) as [Hd Hf Hinc Hcnt]. assert (Hrec : records (dict_pop run (dir_of t s)) = List.filter (fun e => negb (of_run run e)) (records (dir_of t s))) by (by apply (records_pop t)).
  destruct (dict_get run (dir_of t s)) as [text|] eqn:Eg; simpl.
  - eexists. split; [done|]. assert (Hdir : forall t' counters, dir_of t' (mk_jsonl (dict_set t (dict_pop run (dir_of t s)) (js_files s)) counters) = if decide (t = t') then dict_pop run (dir_of t s) else dir_of t' s)
      by (intros; apply dir_of_set).
    split; [|split].
    + intros t'. rewrite Hdir. simpl. case_decide as E; [subst t'|apply Hwf]. split.
      * by apply dict_wf_pop.
      * apply Forall_forall. intros f Hin. apply list_elem_of_filter in Hin as [_ Hin]. rewrite Forall_forall in Hf. by apply Hf.
      * rewrite Hrec, sort_filter by done. by apply increasing_filter.
      * intros c Hc. rewrite Hrec. apply Forall_forall. intros e He%list_elem_of_In. apply filter_In in He as [He _]. apply list_elem_of_In in He.
        specialize (Hcnt c Hc). rewrite Forall_forall in Hcnt. by apply Hcnt.
    + unfold log. rewrite Hdir, decide_True, Hrec by done. by apply sort_filter.
    + intros t' Hne. unfold log. by rewrite Hdir, decide_False by congruence.
  - eexists. split; [done|]. split; [done|]. split; [|done]. unfold log. rewrite <-sort_filter, <-Hrec by done. by rewrite dict_pop_fresh.
Qed.

(** A process that starts over the files of another. *)
Definition reopen (s : jsonl_store) : jsonl_store := mk_jsonl (js_files s) [].

Lemma reopen_ok s : jsonl_wf s -> jsonl_wf (reopen s) /\ forall t, log t (reopen s) = log t s.
Proof using. intros Hwf. split; [|done]. intros t. destruct (Hwf t) as [H1 H2 H3 _]. by split. Qed.

(** (C39) The files are a log for each thread.  In a well-formed store (every
    file a sequence of complete lines of plain records: texts that the codec
    puts on one line and reads back), with no write under way and whatever
    directory order the run files come in: the events of a thread have
    increasing numbers, and the pages, event lists and counts are those of the
    contract on that log.  A write of a plain record that returns has appended
    the record it returns, with a number above all others of the thread, also
    after a restart that forgot the counters.  A write that fails changes no
    log: when no part of its line reached the file the store stays well formed,
    when the line was cut short of its last character the logs are still as
    before.  A batch appends its records one after the other, all when it
    returns and a first part when it fails.  Deleting a run or a thread removes
    and counts exactly its events. *)
Theorem jsonl_files_are_log s :
  jsonl_wf s ->
  (forall t, increasing (log t s) /\ Forall (fun e => ev_thread_id e = t) (log t s) /\ (safe_path_id t = true -> serves t s))
  /\ (forall fault now a,
        match put dumps loads fault now a s with
        | (Ok r, s') =>
            recorded a now r /\ ev_content r = pa_content a
            /\ (plain r -> jsonl_wf s' /\ log (pa_thread_id a) s' = log (pa_thread_id a) s ++ [r] /\ forall t, t <> pa_thread_id a -> log t s' = log t s)
        | (Err _, s') =>
            (forall t, t <> pa_thread_id a -> log t s' = log t s)
            /\ match fault with
               | Some (_, Some n) => forall r0 s0, put dumps loads None now a s = (Ok r0, s0) -> plain r0 -> (n < String.length (dumps r0))%nat ->
                   log (pa_thread_id a) s' = log (pa_thread_id a) s
               | _ => jsonl_wf s' /\ log (pa_thread_id a) s' = log (pa_thread_id a) s
               end
        end)
  /\ (forall now a, safe_path_id (pa_thread_id a) = true -> safe_path_id (pa_run_id a) = true -> exists r s', put dumps loads None now a s = (Ok r, s'))
  /\ (forall faults now l out s', (forall n, untorn (faults n)) ->
        (forall a r, a ∈ l -> recorded a now r -> ev_content r = pa_content a -> plain r) ->
        put_batch dumps loads faults now l s = (out, s') ->
        jsonl_wf s' /\ exists rs, Forall2 (fun a r => recorded a now r /\ ev_content r = pa_content a) (take (length rs) l) rs
          /\ (forall t, log t s' = log t s ++ List.filter (fun r => String.eqb (ev_thread_id r) t) rs)
          /\ match out with Ok out => out = rs /\ length rs = length l | Err _ => (length rs < length l)%nat end)
  /\ (forall t, safe_path_id t = true ->
        exists s', delete_by_thread loads t s = Ok (Z.of_nat (length (log t s)), s') /\ jsonl_wf s' /\ log t s' = [] /\ forall t', t' <> t -> log t' s' = log t' s)
  /\ (forall t run, safe_path_id t = true -> safe_path_id run = true ->
        exists s', delete_by_run loads t run s = Ok (Z.of_nat (length (List.filter (of_run run) (log t s))), s') /\ jsonl_wf s'
          /\ log t s' = List.filter (fun e => negb (of_run run e)) (log t s) /\ forall t', t' <> t -> log t' s' = log t' s)
  /\ jsonl_wf (reopen s) /\ (forall t, log t (reopen s) = log t s).
Proof using JsonLines0.
  intros Hwf. split_and!.
  - intros t. destruct (log_thread t s Hwf). split; [done|]. split; [done|]. by apply reads_serve.
  - intros. by apply put_spec.
  - intros. by apply put_total.
  - intros. by eapply jsonl_put_batch_spec.
  - intros. by apply delete_thread_ok.
  - intros. by apply delete_run_ok.
  - by apply reopen_ok.
  - by apply reopen_ok.
Qed.

Lemma empty_store_wf : jsonl_wf (mk_jsonl [] []).
Proof using. intros t. apply empty_thread. Qed.

End store.

(** ** Examples *)

Definition message (run content : string) : event_args := mk_put "t" run "ai" "message" (JStr content) None (Some 7).
Definition stored_message (run content : string) (seq : Z) : run_event := mk_run_event "t" run "ai" "message" (JStr content) [] seq 7.

(** A text with a next-line character, U+0085. *)
Definition two_lines : string := "a" +:+ String (ascii_of_nat 133) "b".

(** A codec for three records. *)
Definition sample (i : nat) : run_event :=
  match i with O => stored_message "r2" "hi" 1 | 1%nat => stored_message "r1" "bye" 2 | _ => stored_message "r1" two_lines 3 end.
Definition sample_dumps (e : run_event) : string := "{" +:+ match ev_content e with JStr s => s | _ => "" end +:+ "}".
Definition sample_loads (line : string) : option run_event :=
  List.find (fun e => String.eqb (sample_dumps e) line) [sample 0; sample 1; sample 2].
Definition sample_plain (e : run_event) : Prop := e = sample 0 \/ e = sample 1.

#[export] Instance sample_lines : JsonLines sample_dumps sample_loads sample_plain.
Proof.
  split; [| | |intros e n [->| ->] Hn]; try (intros e [->| ->]; try (vm_compute; reflexivity); eexists; reflexivity);
    simpl in Hn; do 6 (destruct n as [|n]; [first [lia|vm_compute; reflexivity]|]); lia.
Qed.

(** Two runs and a restart. *)
Definition after_first : jsonl_store := (put sample_dumps sample_loads None 0 (message "r2" "hi") (mk_jsonl [] [])).2.

Lemma after_first_wf : jsonl_wf sample_dumps sample_loads sample_plain after_first.
Proof.
  pose proof (put_spec sample_dumps sample_loads sample_plain None 0 (message "r2" "hi") _ (empty_store_wf sample_dumps sample_loads sample_plain)) as H.
  unfold after_first. destruct (put sample_dumps sample_loads None 0 (message "r2" "hi") (mk_jsonl [] [])) as [[r|e] s'] eqn:E.
  - destruct H as (_ & _ & H). apply H. left. vm_compute in E. by injection E as <- _.
  - by destruct H.
Qed.

Lemma jsonl_files_are_log_witness :
  list_messages sample_loads "t" 10 None None (put sample_dumps sample_loads None 0 (message "r1" "bye") (reopen after_first)).2 = Ok [sample 0; sample 1]
  /\ jsonl_wf sample_dumps sample_loads sample_plain (reopen after_first).
Proof.
  split; [vm_compute; reflexivity|].
  apply (jsonl_files_are_log sample_dumps sample_loads sample_plain after_first after_first_wf).
Defined.

(** A message with a line separator is accepted and lost: its line reads as two
    malformed ones. *)
Example separator_loses_message :
  let s := (put sample_dumps sample_loads None 0 (message "r1" "bye") (reopen after_first)).2 in
  let '(out, s') := put sample_dumps sample_loads None 0 (message "r1" two_lines) s in
  out = Ok (sample 2) /\ list_messages sample_loads "t" 10 None None s' = Ok [sample 0; sample 1].
Proof. vm_compute. done. Qed.

(** A batch that fails at its second event has written the first; the same
    batch again writes it twice. *)
Example failed_batch_writes :
  let '(out, s) := put_batch sample_dumps sample_loads (fun n => match n with O => None | _ => Some ("disk full", None) end) 0 [message "r2" "hi"; message "r1" "bye"] (mk_jsonl [] []) in
  out = Err "disk full" /\ list_messages sample_loads "t" 10 None None s = Ok [sample 0].
Proof. vm_compute. done. Qed.

(** A line cut short swallows the next record of its run: the two share a line. *)
Example torn_line_swallows_next :
  let '(out, s) := put sample_dumps sample_loads (Some ("disk full", Some 2%nat)) 0 (message "r1" "hi") (mk_jsonl [] []) in
  let '(out', s') := put sample_dumps sample_loads None 0 (message "r1" "bye") s in
  out = Err "disk full" /\ out' = Ok (sample 1) /\ list_messages sample_loads "t" 10 None None s' = Ok [].
Proof. vm_compute. done. Qed.

(** An id with a final newline passes. *)
Example newline_id_passes : safe_path_id (String.append "abc" (String LF "")) = true /\ safe_path_id "a/b" = false.
Proof. done. Qed.
