(* ===== verification/Csrf.v ===== *)
(** * Cross-site request protection

    [app/gateway/csrf_middleware.py] and [app/gateway/auth_disabled.py]: the
    double-submit cookie on requests that change state, the origin check on the
    endpoints that create a session, and when authentication is off altogether.
    [urllib.parse.urlsplit] is a parameter ([None] where it, or its [port],
    raises); header names are in lower case, as the server delivers them. *)
From S2P Require Import Prelude PyString PyPath.
From stdpp Require Import pretty.
From Stdlib Require Import Ascii.
Local Open Scope string_scope.
Local Open Scope Z_scope.
Local Open Scope list_scope.

(** ** Requests *)

Record http_request : Type := mk_http {
  hr_method : string;
  hr_path : string;
  hr_headers : list (string * string);
  hr_cookies : list (string * string);
  hr_scheme : string;
  hr_netloc : string
}.

Definition header (name : string) (r : http_request) : option string := dict_get name (hr_headers r).

(** [a or b] on texts that may be missing. *)
Definition or_else (a b : option string) : option string := if truthy a then a else b.

(** ** [auth_disabled.py] *)

Definition AUTH_DISABLED_ENV_VAR : string := "DEER_FLOW_AUTH_DISABLED".
Definition _PRODUCTION_ENV_VARS : list string := ["DEER_FLOW_ENV"; "ENVIRONMENT"].
Definition _PRODUCTION_ENV_VALUES : list string := ["prod"; "production"].

Definition environ := list (string * string).

Definition is_explicit_production_environment (env : environ) : bool :=
  existsb (fun name => str_in (lower (strip (opt_or (dict_get name env) ""))) _PRODUCTION_ENV_VALUES) _PRODUCTION_ENV_VARS.

Definition is_auth_disabled_requested (env : environ) : bool := bool_decide (dict_get AUTH_DISABLED_ENV_VAR env = Some "1").

Definition is_auth_disabled (env : environ) : bool := is_auth_disabled_requested env && negb (is_explicit_production_environment env).

(** ** Which requests are checked *)

Definition CSRF_COOKIE_NAME : string := "csrf_token".
Definition CSRF_HEADER_NAME : string := "x-csrf-token".

Definition should_check_csrf (env : environ) (r : http_request) : bool :=
  if negb (str_in (hr_method r) ["POST"; "PUT"; "DELETE"; "PATCH"]) then false
  else if is_auth_disabled env then false
  else negb (String.eqb (rstrip_slash (hr_path r)) "/api/v1/auth/me").

Definition _AUTH_EXEMPT_PATHS : list string :=
  ["/api/v1/auth/login/local"; "/api/v1/auth/logout"; "/api/v1/auth/register"; "/api/v1/auth/initialize"].

Definition is_auth_endpoint (r : http_request) : bool := str_in (rstrip_slash (hr_path r)) _AUTH_EXEMPT_PATHS.

(** ** Origins *)

Record url_parts : Type := mk_parts {
  up_scheme : string;
  up_hostname : option string;
  up_port : option Z;
  up_username : option string;
  up_password : option string;
  up_path : string;
  up_query : string;
  up_fragment : string
}.

Definition colon : ascii := ":".
Definition dquote : ascii := ascii_of_nat 34.

(** [s.strip(c)]. *)
Definition strip_char (c : ascii) (s : string) : string := rstrip_by (Ascii.eqb c) (lstrip_by (Ascii.eqb c) s).

Definition host_with_optional_port (hostname : string) (port : option Z) (scheme : string) : string :=
  let host := lower hostname in
  let host := if contains_char colon host && negb (startswith "[" host) then "[" +:+ host +:+ "]" else host in
  match port with
  | None => host
  | Some p =>
      if (String.eqb scheme "http" && (p =? 80)) || (String.eqb scheme "https" && (p =? 443)) then host
      else host +:+ ":" +:+ pretty p
  end.

(** [_first_header_value]. *)
Definition first_header_value (value : option string) : option string :=
  match value with
  | None => None
  | Some v =>
      let first := strip (partition_char "," v).1 in
      if String.eqb first "" then None else Some first
  end.

(** The parameter of the first [Forwarded] entry. *)
Fixpoint find_param (name : string) (parts : list string) : option string :=
  match parts with
  | [] => None
  | part :: parts =>
      let part := strip part in
      let '(key, value) := partition_char "=" part in
      if contains_char "=" part && String.eqb (lower key) name
      then let v := strip_char dquote (strip value) in if String.eqb v "" then None else Some v
      else find_param name parts
  end.

Definition forwarded_param (r : http_request) (name : string) : option string :=
  match first_header_value (header "forwarded" r) with
  | None => None
  | Some forwarded => find_param name (split_char ";" forwarded)
  end.

Definition request_scheme (r : http_request) : string :=
  lower (opt_or (or_else (forwarded_param r "proto") (or_else (first_header_value (header "x-forwarded-proto" r)) (Some (hr_scheme r)))) "").

Definition is_secure_request (r : http_request) : bool := String.eqb (request_scheme r) "https".

Section origins.
Context (urlsplit : string -> option url_parts).

Definition normalize_origin (origin : string) : option string :=
  match urlsplit (strip origin) with
  | None => None
  | Some p =>
      let scheme := lower (up_scheme p) in
      if negb (str_in scheme ["http"; "https"]) || negb (truthy (up_hostname p)) then None
      else if truthy (up_username p) || truthy (up_password p) || negb (String.eqb (up_path p) "")
              || negb (String.eqb (up_query p) "") || negb (String.eqb (up_fragment p) "") then None
      else Some (scheme +:+ "://" +:+ host_with_optional_port (opt_or (up_hostname p) "") (up_port p) scheme)
  end.

(** [_configured_cors_origins]. *)
Definition configured_cors_origins (env : environ) : list string :=
  omap (fun raw => let origin := strip raw in
                   if String.eqb origin "" || String.eqb origin "*" then None else normalize_origin origin)
    (split_char "," (opt_or (dict_get "GATEWAY_CORS_ORIGINS" env) "")).

Definition request_origin (r : http_request) : option string :=
  let scheme := request_scheme r in
  let host := opt_or (or_else (forwarded_param r "host")
                (or_else (first_header_value (header "x-forwarded-host" r))
                  (or_else (header "host" r) (Some (hr_netloc r))))) "" in
  let host := match first_header_value (header "x-forwarded-port" r) with
              | Some port => if contains_char colon (opt_or (last (split_char "]" host)) "") then host else host +:+ ":" +:+ port
              | None => host
              end in
  normalize_origin (scheme +:+ "://" +:+ host).

Definition is_allowed_auth_origin (env : environ) (r : http_request) : bool :=
  match header "origin" r with
  | None => true
  | Some origin =>
      if String.eqb origin "" then true
      else match normalize_origin origin with
           | None => false
           | Some o => str_in o (configured_cors_origins env) || bool_decide (request_origin r = Some o)
           end
  end.

(** ** The middleware *)

(** What becomes of a request: answered 403, failed with an uncaught exception, or
    passed on, with the cookie to add to the response (its value and its
    [secure] flag). *)
Inductive csrf_outcome : Type :=
| Denied (detail : string)
| Uncaught
| Passed (cookie : option (string * bool)).

Definition csrf_dispatch (env : environ) (csrf_token : string) (r : http_request) : csrf_outcome :=
  let is_auth := is_auth_endpoint r in
  let passed := Passed (if is_auth && String.eqb (hr_method r) "POST" then Some (csrf_token, is_secure_request r) else None) in
  if should_check_csrf env r && is_auth && negb (is_allowed_auth_origin env r) then Denied "Cross-site auth request denied."
  else if should_check_csrf env r && negb is_auth then
    match dict_get CSRF_COOKIE_NAME (hr_cookies r), header CSRF_HEADER_NAME r with
    | Some cookie, Some token =>
        if String.eqb cookie "" || String.eqb token "" then Denied "CSRF token missing. Include X-CSRF-Token header."
        else match compare_digest cookie token with
             | None => Uncaught
             | Some false => Denied "CSRF token mismatch."
             | Some true => passed
             end
    | _, _ => Denied "CSRF token missing. Include X-CSRF-Token header."
    end
  else passed.

(** [get_csrf_token]. *)
Definition get_csrf_token (r : http_request) : option string := dict_get CSRF_COOKIE_NAME (hr_cookies r).

(** ** What it guarantees *)

(** What a request that changes state needs to be passed on. *)
Definition vouched (env : environ) (r : http_request) : Prop :=
  rstrip_slash (hr_path r) = "/api/v1/auth/me"
  \/ rstrip_slash (hr_path r) ∈ _AUTH_EXEMPT_PATHS
     /\ (truthy (header "origin" r) = false
         \/ exists origin o, header "origin" r = Some origin /\ normalize_origin origin = Some o
              /\ (o ∈ configured_cors_origins env \/ request_origin r = Some o))
  \/ rstrip_slash (hr_path r) ∉ _AUTH_EXEMPT_PATHS
     /\ exists token, token <> "" /\ is_ascii token = true
          /\ dict_get CSRF_COOKIE_NAME (hr_cookies r) = Some token /\ header CSRF_HEADER_NAME r = Some token.

Lemma allowed_origin env r :
  is_allowed_auth_origin env r = true
  <-> truthy (header "origin" r) = false
      \/ exists origin o, header "origin" r = Some origin /\ normalize_origin origin = Some o
           /\ (o ∈ configured_cors_origins env \/ request_origin r = Some o).
Proof.
  unfold is_allowed_auth_origin. destruct (header "origin" r) as [origin|]; simpl; [|split; [by left|done]].
  destruct (String.eqb_spec origin "") as [->|Hne]; simpl; [split; [by left|done]|].
  destruct (normalize_origin origin) as [o|] eqn:En.
  - rewrite orb_true_iff, str_in_spec, bool_decide_eq_true. split; [right; eauto 6|].
    intros [H|(? & ? & [= <-] & ? & ?)]; [done|]. by simplify_eq.
  - split; [done|]. intros [H|(? & ? & [= <-] & ? & ?)]; [done|congruence].
Qed.

(** (C22) A request that changes state proves where it comes from.  With
    authentication on, a POST, PUT, DELETE or PATCH request is passed on just
    when it is for the exempted [me] path, or for one of the four session
    endpoints with no [Origin], one that is configured, or its own, or carries
    in a header the nonempty token of its cookie; every other request is
    passed on; and a new token cookie goes out just with the answer to a POST
    to a session endpoint, marked secure just over HTTPS. *)
Theorem state_changes_vouched env csrf_token r :
  is_auth_disabled env = false ->
  (if str_in (hr_method r) ["POST"; "PUT"; "DELETE"; "PATCH"]
   then (exists cookie, csrf_dispatch env csrf_token r = Passed cookie) <-> vouched env r
   else exists cookie, csrf_dispatch env csrf_token r = Passed cookie)
  /\ forall cookie, csrf_dispatch env csrf_token r = Passed cookie ->
       cookie = if is_auth_endpoint r && String.eqb (hr_method r) "POST" then Some (csrf_token, is_secure_request r) else None.
Proof.
  intros Hon. unfold csrf_dispatch, should_check_csrf. rewrite Hon.
  set (p := if is_auth_endpoint r && String.eqb (hr_method r) "POST" then _ else _). clearbody p.
  destruct (str_in (hr_method r) _); simpl; [|split; [by eexists|by intros ? [= <-]]].
  destruct (String.eqb_spec (rstrip_slash (hr_path r)) "/api/v1/auth/me") as [Hme|Hme]; simpl.
  { split; [|by intros ? [= <-]]. split; [by left|by eexists]. }
  unfold vouched. unfold is_auth_endpoint. destruct (str_in (rstrip_slash (hr_path r)) _AUTH_EXEMPT_PATHS) eqn:Ea; simpl.
  - apply str_in_spec in Ea. destruct (is_allowed_auth_origin env r) eqn:Eo; simpl.
    + split; [|by intros ? [= <-]]. apply allowed_origin in Eo. split; [by right; left|by eexists].
    + split; [|done]. split; [by intros [? ?]|]. intros [?|[[_ H]|[? _]]]; [done| |done]. apply allowed_origin in H. congruence.
  - assert (Hna : rstrip_slash (hr_path r) ∉ _AUTH_EXEMPT_PATHS) by (intros H%str_in_spec; congruence).
    destruct (dict_get CSRF_COOKIE_NAME (hr_cookies r)) as [c|] eqn:Ec, (header CSRF_HEADER_NAME r) as [t|] eqn:Eh;
      try (split; [|done]; split; [by intros [? ?]|naive_solver]).
    destruct (String.eqb_spec c "") as [->|Hc]; simpl; [split; [|done]; split; [by intros [? ?]|naive_solver]|].
    destruct (String.eqb_spec t "") as [->|Ht]; simpl; [split; [|done]; split; [by intros [? ?]|naive_solver]|].
    destruct (compare_digest c t) as [[]|] eqn:Ecmp.
    + split; [|by intros ? [= <-]]. apply compare_digest_true in Ecmp as [-> Hascii]. split; [|by eexists].
      intros _. right. right. split; [done|]. by exists t.
    + split; [|done]. split; [by intros [? ?]|]. intros [?|[[? _]|[_ (u & _ & Hu & [= ->] & [= ->])]]]; [done..|].
      assert (compare_digest u u = Some true) by (by apply compare_digest_true). congruence.
    + split; [|done]. split; [by intros [? ?]|]. intros [?|[[? _]|[_ (u & _ & Hu & [= ->] & [= ->])]]]; [done..|].
      assert (compare_digest u u = Some true) by (by apply compare_digest_true). congruence.
Qed.
End origins.

(** Nothing turns authentication off in a production environment. *)
Lemma production_keeps_auth env : is_explicit_production_environment env = true -> is_auth_disabled env = false.
Proof. unfold is_auth_disabled. intros ->. by rewrite andb_false_r. Qed.

(** ** Examples *)

(** A urlsplit for two addresses. *)
Definition sample_split (s : string) : option url_parts :=
  if String.eqb s "https://Studio.example" then Some (mk_parts "https" (Some "Studio.example") None None None "" "" "")
  else if String.eqb s "https://studio.example:443" then Some (mk_parts "https" (Some "studio.example") (Some 443) None None "" "" "")
  else if String.eqb s "https://evil.example" then Some (mk_parts "https" (Some "evil.example") None None None "" "" "")
  else None.

Definition login_from (origin : string) : http_request :=
  mk_http "POST" "/api/v1/auth/login/local/" [("origin", origin); ("host", "10.0.0.1"); ("x-forwarded-proto", "https, http"); ("x-forwarded-host", "studio.example"); ("x-forwarded-port", "443")] [] "http" "10.0.0.1".

Lemma state_changes_vouched_witness :
  is_auth_disabled [("DEER_FLOW_AUTH_DISABLED", "1"); ("ENVIRONMENT", " Production ")] = false
  /\ (exists cookie, csrf_dispatch sample_split [("DEER_FLOW_AUTH_DISABLED", "1"); ("ENVIRONMENT", " Production ")] "t0" (login_from "https://Studio.example") = Passed cookie)
  /\ (forall cookie, csrf_dispatch sample_split [("DEER_FLOW_AUTH_DISABLED", "1"); ("ENVIRONMENT", " Production ")] "t0" (login_from "https://Studio.example") = Passed cookie ->
       cookie = Some ("t0", true)).
Proof.
  pose proof (state_changes_vouched sample_split [("DEER_FLOW_AUTH_DISABLED", "1"); ("ENVIRONMENT", " Production ")] "t0" (login_from "https://Studio.example") eq_refl) as [H1 H2].
  split; [reflexivity|]. split; [eexists; vm_compute; reflexivity|exact H2].
Defined.

Example cross_site_login_denied : csrf_dispatch sample_split [] "t0" (login_from "https://evil.example") = Denied "Cross-site auth request denied.".
Proof. vm_compute. reflexivity. Qed.

(** A token beyond ASCII is an uncaught exception, not a 403. *)
Example non_ascii_token_crashes :
  csrf_dispatch sample_split [] "t0"
    (mk_http "DELETE" "/api/threads/x" [("x-csrf-token", String (ascii_of_nat 233) "")] [("csrf_token", String (ascii_of_nat 233) "")] "https" "studio.example") = Uncaught.
Proof. vm_compute. reflexivity. Qed.
