(* ===== verification/Accounts.v ===== *)
(** * Local accounts and sessions

    [app/gateway/auth/password.py] (versioned password hashes),
    [app/gateway/auth/repositories/sqlite.py] (the [users] table),
    [app/gateway/auth/local_provider.py], [app/gateway/auth/jwt.py] (session
    tokens) and the endpoints of [app/gateway/routers/auth.py] with their login
    limiter.  The endpoints are coroutines: at each [await] other requests may
    run and the call may fail.  bcrypt, SHA-256 and the JWT library are
    parameters; the salt of a hash and the id of a new user are arguments;
    instants are milliseconds.  The session cookie is checked by
    [current_user_from_cookie] of [Auth]. *)
From S2P Require Import Prelude PyString PyPath PyAsync Auth.
From stdpp Require Import gmap.
From Stdlib Require Import Ascii.
Local Open Scope string_scope.
Local Open Scope Z_scope.
Local Open Scope list_scope.
Local Open Scope coro_scope.

(** ** Passwords *)

Definition _PREFIX_V2 : string := "$dfv2$".
Definition _PREFIX_V1 : string := "$dfv1$".

Section password.
(** base64 of SHA-256; [bcrypt.checkpw], [None] for a malformed hash;
    [bcrypt.hashpw] with a salt. *)
Context (pre_hash_v2 : string -> string) (checkpw : string -> string -> option bool) (hashpw : string -> string -> string).

Definition hash_password (salt password : string) : string := _PREFIX_V2 +:+ hashpw (pre_hash_v2 password) salt.

Definition verify_password (plain_password hashed_password : string) : bool :=
  opt_or (if startswith _PREFIX_V2 hashed_password
          then checkpw (pre_hash_v2 plain_password) (str_drop (String.length _PREFIX_V2) hashed_password)
          else checkpw plain_password (if startswith _PREFIX_V1 hashed_password
                                       then str_drop (String.length _PREFIX_V1) hashed_password else hashed_password)) false.

Definition password_needs_rehash (hashed_password : string) : bool := negb (startswith _PREFIX_V2 hashed_password).
End password.

Definition _COMMON_PASSWORDS : list string :=
  ["password"; "password1"; "password12"; "password123"; "password1234"; "12345678"; "123456789"; "1234567890"; "qwerty12"; "qwertyui"; "qwerty123";
   "abc12345"; "abcd1234"; "iloveyou"; "letmein1"; "welcome1"; "welcome123"; "admin123"; "administrator"; "passw0rd"; "p@ssw0rd"; "monkey12"; "trustno1";
   "sunshine"; "princess"; "football"; "baseball"; "superman"; "batman123"; "starwars"; "dragon123"; "master123"; "shadow12"; "michael1"; "jennifer"; "computer"].

(** [_password_is_common], and the validation of the request models: at least
    eight characters and not common. *)
Definition password_is_common (password : string) : bool := str_in (lower password) _COMMON_PASSWORDS.
Definition strong_password (password : string) : bool := (8 <=? String.length password)%nat && negb (password_is_common password).

(** ** The users table *)

Record account : Type := mk_account {
  ac_email : string;
  ac_password_hash : option string;
  ac_system_role : string;
  ac_created_at : Z;
  ac_oauth : option string * option string;
  ac_needs_setup : bool;
  ac_token_version : Z
}.

Definition users := list (string * account).

(** The partial unique index on the OAuth identity. *)
Definition same_oauth (a b : account) : bool :=
  match ac_oauth a, ac_oauth b with
  | (Some p, Some i), (Some p', Some i') => String.eqb p p' && String.eqb i i'
  | _, _ => false
  end.

Definition conflicts (a b : account) : bool := String.eqb (ac_email a) (ac_email b) || same_oauth a b.

Definition integrity_error : raised := Raised "IntegrityError" "".

Definition repo_create_user (id : string) (u : account) (t : users) : result raised unit * users :=
  if dict_mem id t || existsb (fun row => conflicts u row.2) t
  then (Err (Raised "ValueError" ("Email already registered: " +:+ ac_email u)), t)
  else (Ok tt, t ++ [(id, u)]).

Definition get_user_by_id (id : string) (t : users) : option account := dict_get id t.

Definition get_user_by_email (email : string) (t : users) : option (string * account) :=
  List.find (fun row => String.eqb (ac_email row.2) email) t.

(** All columns but [created_at] are written. *)
Definition repo_update_user (id : string) (u : account) (t : users) : result raised unit * users :=
  match dict_get id t with
  | None => (Err (Raised "UserNotFoundError" ("User " +:+ id +:+ " no longer exists")), t)
  | Some row =>
      let new := mk_account (ac_email u) (ac_password_hash u) (ac_system_role u) (ac_created_at row) (ac_oauth u) (ac_needs_setup u) (ac_token_version u) in
      if existsb (fun other => negb (String.eqb other.1 id) && conflicts new other.2) t then (Err integrity_error, t)
      else (Ok tt, dict_set id new t)
  end.

Definition count_admin_users (t : users) : Z := Z.of_nat (length (List.filter (fun row => String.eqb (ac_system_role row.2) "admin") t)).

(** ** The login limiter *)

Definition _MAX_LOGIN_ATTEMPTS : Z := 5.
Definition _LOCKOUT_SECONDS : Z := 300.
Definition _MAX_TRACKED_IPS : nat := 10000.
Definition lockout_ms : Z := _LOCKOUT_SECONDS * 1000.

(** [_login_attempts]: failures and the end of the lock. *)
Definition login_attempts := list (string * (Z * Z)).

Definition too_many : raised := Raised "HTTPException 429" "Too many login attempts. Try again later.".

Definition check_rate_limit (now : Z) (ip : string) (t : login_attempts) : result raised unit * login_attempts :=
  match dict_get ip t with
  | None => (Ok tt, t)
  | Some (fail_count, lock_until) =>
      if _MAX_LOGIN_ATTEMPTS <=? fail_count then
        if now <? lock_until then (Err too_many, t) else (Ok tt, dict_pop ip t)
      else (Ok tt, t)
  end.

(** Expired locks go first; then, if need be, the half with the earliest ends. *)
Definition drop_expired (now : Z) (t : login_attempts) : login_attempts :=
  base.filter (fun kv => ~ (_MAX_LOGIN_ATTEMPTS <= kv.2.1 /\ kv.2.2 <= now)) t.

Definition evict (now : Z) (t : login_attempts) : login_attempts :=
  if (length t <? _MAX_TRACKED_IPS)%nat then t
  else
    let t := drop_expired now t in
    if (length t <? _MAX_TRACKED_IPS)%nat then t
    else let by_time := sort_by (fun a b => a.2.2 <=? b.2.2) t in
         foldl (fun t kv => dict_pop kv.1 t) t (take (length by_time / 2) by_time).

Definition record_login_failure (now : Z) (ip : string) (t : login_attempts) : login_attempts :=
  let t := evict now t in
  match dict_get ip t with
  | None => dict_set ip (1, 0) t
  | Some (count, _) =>
      let new_count := count + 1 in
      dict_set ip (new_count, if _MAX_LOGIN_ATTEMPTS <=? new_count then now + lockout_ms else 0) t
  end.

Definition record_login_success (ip : string) (t : login_attempts) : login_attempts := dict_pop ip t.

(** *** Whose attempts *)

Section client_ip.
(** [ipaddress]: parsing, [None] where it raises, and membership. *)
Context {addr net : Type} (ip_address : string -> option addr) (ip_network : string -> option net) (in_net : addr -> net -> bool).

(** [_trusted_proxies] from the environment variable. *)
Definition trusted_proxies (raw : string) : list net :=
  if String.eqb (strip raw) "" then []
  else omap (fun entry => let entry := strip entry in if String.eqb entry "" then None else ip_network entry) (split_char ","%char (strip raw)).

Definition get_client_ip (raw_trusted : string) (peer_host x_real_ip : option string) : string :=
  let trusted := trusted_proxies raw_trusted in
  let peer := if truthy peer_host then opt_or peer_host "" else "unknown" in
  match trusted with
  | [] => peer
  | _ =>
      if negb (truthy peer_host) then peer
      else match ip_address peer with
           | None => peer
           | Some a =>
               let real_ip := strip (opt_or x_real_ip "") in
               if existsb (in_net a) trusted && negb (String.eqb real_ip "") then real_ip else peer
           end
  end.
End client_ip.

(** ** Endpoints *)

(** The process: the table, the limiter, the clock and the audit trail of
    logins (the actor and the outcome). *)
Record world : Type := mk_world {
  w_users : users;
  w_attempts : login_attempts;
  w_now : Z;
  w_audit : list (string * string)
}.

Definition set_users (t : users) (w : world) : world := mk_world t (w_attempts w) (w_now w) (w_audit w).
Definition set_attempts (t : login_attempts) (w : world) : world := mk_world (w_users w) t (w_now w) (w_audit w).
Definition add_audit (e : string * string) (w : world) : world := mk_world (w_users w) (w_attempts w) (w_now w) (w_audit w ++ [e]).

(** A step without an await. *)
Definition now_do {A} (f : world -> result raised A * world) : coro world A := fun w s => let '(r, w') := f w in (r, w', s).

Definition http (status code : string) : raised := Raised ("HTTPException " +:+ status) code.

Definition on_users {A} (f : users -> result raised A * users) : coro world A :=
  await (fun w => let '(r, t) := f (w_users w) in (r, set_users t w)).

Section endpoints.
Context (pre_hash_v2 : string -> string) (checkpw : string -> string -> option bool) (hashpw : string -> string -> string).
(** [jwt.encode] of subject, expiry, issue time and version; the surroundings of
    a request, without the table. *)
Context (jwt_encode : string -> Z -> Z -> Z -> string) (token_expiry_days : Z) (env : auth_env).

Local Notation hash_password := (hash_password pre_hash_v2 hashpw).
Local Notation verify_password := (verify_password pre_hash_v2 checkpw).

Definition create_access_token (user_id : string) (token_version now : Z) : string :=
  jwt_encode user_id (now + token_expiry_days * 24 * 3600 * 1000) now token_version.

(** The rows as the authentication reads them. *)
Definition row_of (u : account) : user_row := mk_user (Some (ac_email u)) (ac_system_role u) (ac_token_version u).
Definition env_with (t : users) : auth_env :=
  mk_auth_env (av_now env) (av_local_offset env) (av_hmac env) (av_persistence env) (av_internal_token env) (av_auth_disabled env)
    ((fun row => (row.1, row_of row.2)) <$> t) (av_session_decode env) (av_oidc env) (av_signing_key env) (av_jwt_decode env) (av_render env) (av_fresh env).

(** [get_current_user_from_request] on a session cookie. *)
Definition current_user (token : string) : coro world (string * account) :=
  on_users (fun t =>
    (match current_user_from_cookie (env_with t) token with
     | Err (_, code) => Err (http "401" code)
     | Ok (sub, _) => match dict_get sub t with Some u => Ok (sub, u) | None => Err (http "401" "user_not_found") end
     end, t)).

Definition set_hash (h : string) (u : account) : account :=
  mk_account (ac_email u) (Some h) (ac_system_role u) (ac_created_at u) (ac_oauth u) (ac_needs_setup u) (ac_token_version u).

(** [LocalAuthProvider.authenticate]. *)
Definition authenticate (salt email password : string) : coro world (option (string * account)) :=
  if String.eqb email "" || String.eqb password "" then ret None
  else
    do! user := on_users (fun t => (Ok (get_user_by_email email t), t)) in
    match user with
    | None => ret None
    | Some (id, u) =>
        match ac_password_hash u with
        | None => ret None
        | Some h =>
            do! ok := await (fun w => (Ok (verify_password password h), w)) in
            if negb ok then ret None
            else if negb (password_needs_rehash h) then ret (Some (id, u))
            else
              do! rehashed := try_exception (do! h' := await (fun w => (Ok (hash_password salt password), w)) in ret (Some h')) (fun _ _ => ret None) in
              match rehashed with
              | None => ret (Some (id, u))
              | Some h' =>
                  try_exception (on_users (repo_update_user id (set_hash h' u))) (fun _ _ => ret tt) ;;
                  ret (Some (id, set_hash h' u))
              end
        end
    end.

(** [LocalAuthProvider.create_user] of a user with a password. *)
Definition create_user (new_id salt email password system_role : string) : coro world (string * account) :=
  do! h := await (fun w => (Ok (hash_password salt password), w)) in
  do! now := gets w_now in
  let u := mk_account email (Some h) system_role now (None, None) false 0 in
  on_users (repo_create_user new_id u) ;;
  ret (new_id, u).

Definition emit_login (actor outcome : string) : coro world unit :=
  try_exception (await (fun w => (Ok tt, add_audit (actor, outcome) w))) (fun _ _ => ret tt).

(** [login_local]: the session token and [needs_setup]. *)
Definition login_local (salt client_ip username password : string) : coro world (string * bool) :=
  now_do (fun w => let '(r, t) := check_rate_limit (w_now w) client_ip (w_attempts w) in (r, set_attempts t w)) ;;
  do! user := authenticate salt username password in
  match user with
  | None =>
      now_do (fun w => (Ok tt, set_attempts (record_login_failure (w_now w) client_ip (w_attempts w)) w)) ;;
      emit_login username "failure" ;;
      throw (http "401" "invalid_credentials")
  | Some (id, u) =>
      now_do (fun w => (Ok tt, set_attempts (record_login_success client_ip (w_attempts w)) w)) ;;
      emit_login id "success" ;;
      do! now := gets w_now in
      ret (create_access_token id (ac_token_version u) now, ac_needs_setup u)
  end.

(** [except ValueError: raise e]. *)
Definition on_value_error {A} (m : coro world A) (e : raised) : coro world A :=
  try_except m (fun x => match x with Raised "ValueError" _ => throw e | _ => throw x end).

Definition register (new_id salt email password : string) : coro world (string * account * string) :=
  if negb (strong_password password) then throw (http "422" "")
  else
    do! user := on_value_error (create_user new_id salt email password "user") (http "400" "email_already_exists") in
    do! now := gets w_now in
    ret (user, create_access_token user.1 (ac_token_version user.2) now).

(** [change_password] by a session; [auth_disabled] says that the request is
    stamped so.  The new session token is the answer. *)
Definition change_password (auth_disabled : bool) (salt token current_password new_password : string) (new_email : option string) : coro world string :=
  if negb (strong_password new_password) then throw (http "422" "")
  else
  if auth_disabled then throw (http "400" "invalid_credentials")
  else
      do! found := current_user token in
      let '(id, u) := found in
      match ac_password_hash u with
      | None => throw (http "400" "invalid_credentials")
      | Some h =>
          do! ok := await (fun w => (Ok (verify_password current_password h), w)) in
          if negb ok then throw (http "400" "invalid_credentials")
          else
            do! email := (match new_email with
                          | None => ret (ac_email u)
                          | Some e =>
                              do! existing := on_users (fun t => (Ok (get_user_by_email e t), t)) in
                              match existing with
                              | Some (other, _) => if String.eqb other id then ret e else throw (http "400" "email_already_exists")
                              | None => ret e
                              end
                          end) in
            do! h' := await (fun w => (Ok (hash_password salt new_password), w)) in
            let u' := mk_account email (Some h') (ac_system_role u) (ac_created_at u) (ac_oauth u)
                        (ac_needs_setup u && negb (bool_decide (is_Some new_email))) (ac_token_version u + 1) in
            on_users (repo_update_user id u') ;;
            do! now := gets w_now in
            ret (create_access_token id (ac_token_version u') now)
      end.

(** [initialize_admin]; the memberships and bindings it sets up afterwards are
    in other tables and their failure is not fatal. *)
Definition initialize_admin (new_id salt email password : string) : coro world (string * account * string) :=
  if negb (strong_password password) then throw (http "422" "")
  else
    do! admin_count := on_users (fun t => (Ok (count_admin_users t), t)) in
    if 0 <? admin_count then throw (http "409" "system_already_initialized")
    else
      do! user := on_value_error (create_user new_id salt email password "admin") (http "409" "system_already_initialized") in
      try_exception (await (fun w => (Ok tt, w))) (fun _ _ => ret tt) ;;
      do! now := gets w_now in
      ret (user, create_access_token user.1 (ac_token_version user.2) now).
End endpoints.
