(* ===== verification/AccountsProps.v ===== *)
(** * What the accounts and sessions guarantee *)
From S2P Require Import Prelude PyString PyPath PyAsync Auth Accounts.
From stdpp Require Import gmap.
From Stdlib Require Import Ascii.
Local Open Scope string_scope.
Local Open Scope Z_scope.
Local Open Scope list_scope.
Local Open Scope coro_scope.

(** ** Coroutines that succeed *)

Lemma bind_ok {W A B} (m : coro W A) (k : A -> coro W B) w s b w' s' :
  bind m k w s = (Ok b, w', s') -> exists a w1 s1, m w s = (Ok a, w1, s1) /\ k a w1 s1 = (Ok b, w', s').
Proof. unfold bind. destruct (m w s) as [[[a|e] w1] s1]; [|done]. eauto. Qed.

Lemma await_ok {W A} (op : W -> result raised A * W) w s a w' s' : await op w s = (Ok a, w', s') -> exists w1, op w1 = (Ok a, w').
Proof.
  unfold await. destruct s as [|m s]; [destruct (op w) as [r w1] eqn:E; intros [= -> -> _]; eauto|].
  destruct (mo_fate m); [|done|done]. destruct (op (mo_others m w)) as [r w1] eqn:E. intros [= -> -> _]. eauto.
Qed.

Lemma on_users_ok {A} (f : users -> result raised A * users) w s a w' s' :
  on_users f w s = (Ok a, w', s') -> exists w1 t, f (w_users w1) = (Ok a, t) /\ w' = set_users t w1.
Proof.
  intros (w1 & H)%await_ok. destruct (f (w_users w1)) as [r t] eqn:E. injection H as -> <-. eauto.
Qed.

(** ** Passwords *)

Section endpoints.
Context (pre_hash_v2 : string -> string) (checkpw : string -> string -> option bool) (hashpw : string -> string -> string).
Context (jwt_encode : string -> Z -> Z -> Z -> string) (token_expiry_days : Z) (env : auth_env).
Local Notation hash_password := (hash_password pre_hash_v2 hashpw).
Local Notation verify_password := (verify_password pre_hash_v2 checkpw).
Local Notation create_access_token := (create_access_token jwt_encode token_expiry_days).
Local Notation env_with := (env_with env).
Local Notation change_password := (change_password pre_hash_v2 checkpw hashpw jwt_encode token_expiry_days env).
Local Notation login_local := (login_local pre_hash_v2 checkpw hashpw jwt_encode token_expiry_days).
Local Notation register := (register pre_hash_v2 hashpw jwt_encode token_expiry_days).
Local Notation initialize_admin := (initialize_admin pre_hash_v2 hashpw jwt_encode token_expiry_days).

Lemma verify_new_hash salt password :
  verify_password password (hash_password salt password) = opt_or (checkpw (pre_hash_v2 password) (hashpw (pre_hash_v2 password) salt)) false.
Proof using.
  unfold Accounts.verify_password, Accounts.hash_password. rewrite startswith_app. by rewrite str_drop_app_exact.
Qed.

(** ** Sessions *)

Lemma users_get id (t : users) : dict_get id ((fun row : string * account => (row.1, row_of row.2)) <$> t) = row_of <$> dict_get id t.
Proof using. induction t as [|[k u] t IH]; [done|]. csimpl. case_decide; [done|exact IH]. Qed.

(** Which tokens of an account are accepted. *)
Lemma session_check id u (t : users) tok v0 :
  dict_get id t = Some u -> av_session_decode env tok = Ok (id, v0) ->
  current_user_from_cookie (env_with t) tok = if v0 =? ac_token_version u then Ok (id, row_of u) else Err (401, "token_invalid").
Proof using.
  intros Hu Hd. unfold current_user_from_cookie, decode_token, Accounts.env_with. simpl. rewrite Hd, users_get, Hu. simpl.
  rewrite Z.eqb_sym. by destruct (v0 =? ac_token_version u).
Qed.

Lemma current_user_ok token w s id u w' s' :
  current_user env token w s = (Ok (id, u), w', s') -> av_session_decode env token = Ok (id, ac_token_version u).
Proof using.
  intros (w1 & t & H & _)%on_users_ok. unfold current_user_from_cookie, decode_token in H. simpl in H.
  destruct (av_session_decode env token) as [[sub ver]|[]]; try done. rewrite users_get in H.
  destruct (dict_get sub (w_users w1)) as [a|] eqn:Ea; [|done]. simpl in H. destruct (Z.eqb_spec (ac_token_version a) ver) as [Ev|]; simpl in H; [|done].
  rewrite Ea in H. by simplify_eq.
Qed.

Lemma repo_update_ok id u t t' : repo_update_user id u t = (Ok tt, t') ->
  exists row, dict_get id t = Some row
  /\ t' = dict_set id (mk_account (ac_email u) (ac_password_hash u) (ac_system_role u) (ac_created_at row) (ac_oauth u) (ac_needs_setup u) (ac_token_version u)) t.
Proof using.
  unfold repo_update_user. destruct (dict_get id t) as [row|]; [|done]. destruct (existsb _ t); [done|]. intros [= <-]. eauto.
Qed.


(** ** Unique accounts *)

(** Ids, emails and OAuth identities are unique. *)
Record users_wf (t : users) : Prop := {
  uw_ids : dict_wf t;
  uw_unique i u j v : dict_get i t = Some u -> dict_get j t = Some v -> i <> j -> conflicts u v = false
}.

Lemma conflicts_sym u v : conflicts u v = conflicts v u.
Proof using.
  unfold conflicts, same_oauth. rewrite (String.eqb_sym (ac_email u)). destruct (ac_oauth u) as [[p|] [i|]], (ac_oauth v) as [[p'|] [i'|]]; try done.
  by rewrite (String.eqb_sym p), (String.eqb_sym i).
Qed.

Lemma existsb_false {A} (f : A -> bool) l x : existsb f l = false -> x ∈ l -> f x = false.
Proof using. intros He Hx. destruct (f x) eqn:E; [|done]. assert (existsb f l = true); [|congruence]. apply existsb_exists. exists x. split; [by apply list_elem_of_In|done]. Qed.

Lemma create_wf id u t : users_wf t -> users_wf (repo_create_user id u t).2.
Proof using.
  intros [Hids Huniq]. unfold repo_create_user. destruct (dict_mem id t || existsb (fun row => conflicts u row.2) t) eqn:E; [done|].
  apply orb_false_iff in E as [Emem Econf]. simpl. assert (Hnone : dict_get id t = None) by (unfold dict_mem in Emem; by destruct (dict_get id t)).
  assert (Hget : forall i, dict_get i (t ++ [(id, u)]) = if decide (i = id) then Some u else dict_get i t).
  { intros i. rewrite dict_get_snoc by done. by repeat case_decide; subst; try congruence. }
  split; [by apply dict_wf_snoc|]. intros i a j b. rewrite !Hget. repeat case_decide; intros Ha Hb Hne; simplify_eq; try done.
  - apply dict_get_Some_elem in Hb. by apply (existsb_false _ _ _ Econf) in Hb.
  - apply dict_get_Some_elem in Ha. rewrite conflicts_sym. by apply (existsb_false _ _ _ Econf) in Ha.
  - by eapply Huniq.
Qed.

Lemma update_wf id u t : users_wf t -> users_wf (repo_update_user id u t).2.
Proof using.
  intros [Hids Huniq]. unfold repo_update_user. destruct (dict_get id t) as [row|] eqn:Er; [|done].
  set (new := mk_account _ _ _ _ _ _ _). destruct (existsb _ t) eqn:Econf; [done|]. simpl. split; [by apply dict_wf_set|].
  assert (Hother : forall j b, dict_get j t = Some b -> j <> id -> conflicts new b = false).
  { intros j b Hb%dict_get_Some_elem Hne. apply (existsb_false _ _ _ Econf) in Hb. simpl in Hb.
    destruct (String.eqb_spec j id); [done|]. done. }
  intros i a j b. rewrite !dict_get_set. repeat case_decide; intros Ha Hb Hne; simplify_eq; try done.
  - by apply (Hother j).
  - rewrite conflicts_sym. by apply (Hother i).
  - by eapply Huniq.
Qed.

(** Computations that keep the table well formed while others do. *)
Definition polite (m : moment world) : Prop := forall w, users_wf (w_users w) -> users_wf (w_users (mo_others m w)).
Definition keeps_users {A} (m : coro world A) : Prop :=
  triple polite (fun w => users_wf (w_users w)) m (fun _ w => users_wf (w_users w)).

Lemma keeps_bind {A B} (m : coro world A) (k : A -> coro world B) : keeps_users m -> (forall a, keeps_users (k a)) -> keeps_users (bind m k).
Proof using.
  intros Hm Hk. apply (triple_bind _ _ _ _ _ (fun _ w => users_wf (w_users w))); [|exact Hk].
  eapply triple_weaken; [exact Hm|done|]. by intros [] w.
Qed.

Lemma keeps_await {A} (op : world -> result raised A * world) :
  (forall w, users_wf (w_users w) -> users_wf (w_users (op w).2)) -> keeps_users (await op).
Proof using.
  intros Hop w s Hw Hs. unfold await. destruct s as [|m s].
  - specialize (Hop w Hw). by destruct (op w).
  - apply Forall_cons in Hs as [Hm Hs]. specialize (Hm w Hw). pose proof (Hop _ Hm) as Hop'.
    destruct (mo_fate m) as [| |[]]; try done. by destruct (op (mo_others m w)).
Qed.

Lemma keeps_now {A} (f : world -> result raised A * world) : (forall w, w_users (f w).2 = w_users w) -> keeps_users (now_do f).
Proof using. intros Hf w s Hw Hs. unfold now_do. specialize (Hf w). destruct (f w). simpl in *. by rewrite Hf. Qed.

Lemma keeps_ret {A} (a : A) : keeps_users (ret a).
Proof using. by intros w s. Qed.
Lemma keeps_throw {A} e : keeps_users (throw (A := A) e).
Proof using. by intros w s. Qed.
Lemma keeps_gets {A} (f : world -> A) : keeps_users (gets f).
Proof using. by intros w s. Qed.

Lemma keeps_try {A} (m : coro world A) h : keeps_users m -> (forall e, keeps_users (h e)) -> keeps_users (try_except m h).
Proof using.
  intros Hm Hh w s Hw Hs. specialize (Hm w s Hw Hs). unfold try_except. destruct (m w s) as [[[a|e] w1] s1]; [done|]. destruct Hm. by apply Hh.
Qed.

Lemma keeps_on_users {A} (f : users -> result raised A * users) : (forall t, users_wf t -> users_wf (f t).2) -> keeps_users (on_users f).
Proof using. intros Hf. apply keeps_await. intros w Hw. specialize (Hf _ Hw). by destruct (f (w_users w)). Qed.

Ltac keeps :=
  repeat first
    [ apply keeps_ret | apply keeps_throw | apply keeps_gets
    | apply keeps_on_users; intros; first [by apply create_wf | by apply update_wf | done]
    | apply keeps_bind; [|intros]
    | unfold try_exception, on_value_error; apply keeps_try; [|intros [|]; repeat case_match]
    | apply keeps_await; intros; done
    | apply keeps_now; intros; repeat case_match; done
    | case_match ].

(** Emails are unique, whatever runs at once.  From a table whose accounts
    differ in id, email and OAuth identity, each endpoint leads to such a table,
    also when calls fail or it is cancelled, as long as what runs in between
    does the same. *)
Theorem accounts_stay_unique auth_disabled new_id salt ip token email password current_password new_email w s :
  users_wf (w_users w) -> Forall polite s ->
  users_wf (w_users (login_local salt ip email password w s).1.2)
  /\ users_wf (w_users (register new_id salt email password w s).1.2)
  /\ users_wf (w_users (change_password auth_disabled salt token current_password password new_email w s).1.2)
  /\ users_wf (w_users (initialize_admin new_id salt email password w s).1.2).
Proof using.
  intros Hw Hs. assert (Hrun : forall A (m : coro world A), keeps_users m -> users_wf (w_users (m w s).1.2)).
  { intros A m Hm. specialize (Hm w s Hw Hs). destruct (m w s) as [[r w'] s']. by destruct Hm. }
  split_and!; apply Hrun.
  - unfold Accounts.login_local, authenticate, emit_login. keeps.
  - unfold Accounts.register, create_user. keeps.
  - unfold Accounts.change_password, current_user. keeps.
  - unfold Accounts.initialize_admin, create_user. keeps.
Qed.
End endpoints.

(** ** The login limiter *)

(** The limiter with the failures of each address since its last success. *)
Record limiter : Type := mk_limiter {
  lm_now : Z;
  lm_table : login_attempts;
  lm_fails : list (string * Z)
}.

(** A login checks when it starts and records when its credentials were
    compared; between the two anything may happen. *)
Inductive limiter_op : Type := LTick (d : Z) | LCheck (ip : string) | LFail (ip : string) | LSucceed (ip : string).

Definition limiter_step (l : limiter) (op : limiter_op) : limiter :=
  let '(mk_limiter now t fails) := l in
  match op with
  | LTick d => mk_limiter (now + Z.max 0 d) t fails
  | LCheck ip => mk_limiter now (check_rate_limit now ip t).2 fails
  | LFail ip => mk_limiter now (record_login_failure now ip t) (fails ++ [(ip, now)])
  | LSucceed ip => mk_limiter now (record_login_success ip t) (base.filter (fun f => f.1 <> ip) fails)
  end.

(** Fewer addresses are tracked than the bound, expired locks left aside. *)
Fixpoint roomy (l : limiter) (ops : list limiter_op) : Prop :=
  match ops with
  | [] => True
  | op :: ops =>
      match op with LFail _ => (length (drop_expired (lm_now l) (lm_table l)) < _MAX_TRACKED_IPS)%nat | _ => True end
      /\ roomy (limiter_step l op) ops
  end.

Definition times (ip : string) (fails : list (string * Z)) : list Z := (base.filter (fun f => f.1 = ip) fails).*2.

(** The failures of an address in the last five minutes. *)
Definition recent (ip : string) (l : limiter) : nat :=
  length (base.filter (fun t => lm_now l - lockout_ms < t) (times ip (lm_fails l))).

Lemma times_snoc ip fails k now : times ip (fails ++ [(k, now)]) = times ip fails ++ if decide (k = ip) then [now] else [].
Proof. unfold times. rewrite filter_app, fmap_app. f_equal. rewrite filter_cons, filter_nil. simpl. by case_decide. Qed.

Lemma times_cleared ip k fails : times ip (base.filter (fun f => f.1 <> k) fails) = if decide (ip = k) then [] else times ip fails.
Proof.
  unfold times. induction fails as [|[a t] fails IH]; [by case_decide|]. rewrite !filter_cons. simpl.
  repeat case_decide; subst; try done; rewrite ?filter_cons; simpl; repeat case_decide; subst; try done; csimpl; by rewrite IH.
Qed.

Lemma attempts_get_filter {V} (P : string * V -> Prop) `{!forall x, Decision (P x)} k (d : list (string * V)) :
  dict_wf d -> dict_get k (base.filter P d) = match dict_get k d with Some v => if decide (P (k, v)) then Some v else None | None => None end.
Proof.
  induction d as [|[k' v'] d IH]; [done|]. intros [Hn Hwf]%NoDup_cons. specialize (IH Hwf). rewrite filter_cons. simpl.
  destruct (decide (P (k', v'))) as [HP|HP]; simpl; destruct (decide (k = k')) as [->|Hk].
  - by rewrite decide_True.
  - exact IH.
  - rewrite decide_False by done. rewrite IH. assert (dict_get k' d = None) as -> by (by apply dict_get_None). done.
  - exact IH.
Qed.

Lemma attempts_wf_filter {V} (P : string * V -> Prop) `{!forall x, Decision (P x)} (d : list (string * V)) : dict_wf d -> dict_wf (base.filter P d).
Proof.
  unfold dict_wf, dict_keys. intros Hwf. induction d as [|x d IH]; [done|]. apply NoDup_cons in Hwf as [Hn Hwf]. rewrite filter_cons. case_decide; [|by apply IH].
  csimpl. constructor; [|by apply IH]. intros Hin. apply Hn. apply list_elem_of_fmap in Hin as (y & -> & Hy). apply list_elem_of_filter in Hy as [_ Hy].
  by apply list_elem_of_fmap_2.
Qed.

(** *** The table is bounded *)

Lemma pops_wf (l : list (string * (Z * Z))) (t : login_attempts) : dict_wf t -> dict_wf (foldl (fun t kv => dict_pop kv.1 t) t l).
Proof. revert t. induction l as [|x l IH]; intros t Ht; [done|]. by apply IH, dict_wf_pop. Qed.

Lemma pops_length (l : list (string * (Z * Z))) (t : login_attempts) : (length (foldl (fun t kv => dict_pop kv.1 t) t l) <= length t)%nat.
Proof. revert t. induction l as [|x l IH]; intros t; [done|]. simpl. etrans; [apply IH|apply dict_length_pop_le]. Qed.

Lemma evict_bounded now t : dict_wf t -> (length t <= _MAX_TRACKED_IPS)%nat -> dict_wf (evict now t) /\ (length (evict now t) < _MAX_TRACKED_IPS)%nat.
Proof.
  intros Hwf Hlen. unfold evict. destruct (Nat.ltb_spec (length t) _MAX_TRACKED_IPS) as [|H1]; [done|].
  assert (Hwf' : dict_wf (drop_expired now t)) by (by apply attempts_wf_filter).
  destruct (Nat.ltb_spec (length (drop_expired now t)) _MAX_TRACKED_IPS) as [|H2]; [done|].
  split; [by apply pops_wf|]. assert (Hle : (length (drop_expired now t) <= length t)%nat) by apply length_filter.
  set (t' := drop_expired now t) in *. clearbody t'. set (l := sort_by _ t').
  assert (Hl : length l = length t') by apply sort_by_length. assert (Hmax : _MAX_TRACKED_IPS = S (S (_MAX_TRACKED_IPS - 2))) by (vm_compute; reflexivity).
  destruct l as [|x l'] eqn:El; [simpl in Hl; lia|]. assert (Hx : x ∈ t') by (rewrite <-(sort_by_elem (fun a b : string * (Z * Z) => a.2.2 <=? b.2.2)); fold l; rewrite El; set_solver).
  assert (Hhalf : exists m, (length (x :: l') / 2 = S m)%nat).
  { exists (length (x :: l') / 2 - 1)%nat. assert (1 <= length (x :: l') / 2)%nat; [|lia]. apply Nat.div_le_lower_bound; lia. }
  destruct Hhalf as [m ->]. simpl. eapply Nat.le_lt_trans; [apply pops_length|].
  destruct x as [k v]. eapply Nat.lt_le_trans; [apply dict_length_pop_lt; exists v; by apply dict_get_elem|]. lia.
Qed.

Lemma limiter_bounded l op :
  dict_wf (lm_table l) /\ (length (lm_table l) <= _MAX_TRACKED_IPS)%nat ->
  dict_wf (lm_table (limiter_step l op)) /\ (length (lm_table (limiter_step l op)) <= _MAX_TRACKED_IPS)%nat.
Proof.
  destruct l as [now t fails]. intros [Hwf Hlen]. simpl in *. assert (Hpop : forall ip, dict_wf (dict_pop ip t) /\ (length (dict_pop ip t) <= _MAX_TRACKED_IPS)%nat).
  { intros ip. split; [by apply dict_wf_pop|]. etrans; [apply dict_length_pop_le|done]. }
  destruct op as [d|ip|ip|ip]; simpl; [done| | |apply Hpop].
  - unfold check_rate_limit. destruct (dict_get ip t) as [[c u]|]; [|done]. destruct (_MAX_LOGIN_ATTEMPTS <=? c); [|done]. by destruct (now <? u); [|apply Hpop].
  - destruct (evict_bounded now t Hwf Hlen) as [Hwf' Hlen']. unfold record_login_failure. destruct (dict_get ip (evict now t)) as [[c u]|];
      (split; [by apply dict_wf_set|]; etrans; [apply dict_length_set|lia]).
Qed.

(** *** Few failures in a window *)

Definition ip_ok (now : Z) (F : list Z) (rec : option (Z * Z)) : Prop :=
  match rec with
  | None => Forall (fun t => t <= now - lockout_ms) F
  | Some (c, until) =>
      exists old new, F = old ++ new /\ Z.of_nat (length new) = c /\ Forall (fun t => t <= now - lockout_ms) old
      /\ Forall (fun t => t <= now) F /\ (_MAX_LOGIN_ATTEMPTS <= c -> Forall (fun t => t <= until - lockout_ms) F)
  end.

Lemma ip_ok_later now now' F rec : now <= now' -> ip_ok now F rec -> ip_ok now' F rec.
Proof.
  intros Hle. destruct rec as [[c u]|]; simpl.
  - intros (old & new & -> & Hc & Hold & Hall & Hl). exists old, new. split; [done|]. split; [done|]. split; [|split; [|done]]; (eapply Forall_impl; [eassumption|simpl; lia]).
  - intros H. eapply Forall_impl; [exact H|simpl; lia].
Qed.

(** A lock that ran out may be forgotten. *)
Lemma ip_ok_expired now F c u : _MAX_LOGIN_ATTEMPTS <= c -> u <= now -> ip_ok now F (Some (c, u)) -> ip_ok now F None.
Proof. intros Hc Hu (old & new & _ & _ & _ & _ & Hl). eapply Forall_impl; [exact (Hl Hc)|simpl; lia]. Qed.

Lemma ip_ok_fail now F rec :
  ip_ok now F rec ->
  ip_ok now (F ++ [now]) (Some match rec with
                              | None => (1, 0)
                              | Some (c, _) => (c + 1, if _MAX_LOGIN_ATTEMPTS <=? c + 1 then now + lockout_ms else 0)
                              end).
Proof.
  assert (Hl0 : 0 <= lockout_ms) by done. destruct rec as [[c u]|]; simpl.
  - intros (old & new & -> & Hc & Hold & Hall & Hl). exists old, (new ++ [now]). split; [by rewrite app_assoc|]. split; [rewrite length_app; simpl; lia|]. split; [done|].
    assert (Hall' : Forall (fun t => t <= now) ((old ++ new) ++ [now])) by (apply Forall_app; split; [done|by repeat constructor]).
    split; [done|]. intros H5. destruct (Z.leb_spec _MAX_LOGIN_ATTEMPTS (c + 1)); [|lia]. eapply Forall_impl; [exact Hall'|simpl; lia].
  - intros H. exists F, [now]. split; [done|]. split; [done|]. split; [done|]. split; [|unfold _MAX_LOGIN_ATTEMPTS; lia].
    apply Forall_app. split; [|by repeat constructor]. eapply Forall_impl; [exact H|simpl; lia].
Qed.

Definition limiter_ok (l : limiter) : Prop := forall ip, ip_ok (lm_now l) (times ip (lm_fails l)) (dict_get ip (lm_table l)).

Lemma evict_roomy now t : (length (drop_expired now t) < _MAX_TRACKED_IPS)%nat -> evict now t = t \/ evict now t = drop_expired now t.
Proof.
  intros Hr. unfold evict. destruct (Nat.ltb_spec (length t) _MAX_TRACKED_IPS); [by left|]. right. by rewrite (proj2 (Nat.ltb_lt _ _)).
Qed.

Lemma drop_expired_ok now t F ip : dict_wf t -> ip_ok now F (dict_get ip t) -> ip_ok now F (dict_get ip (drop_expired now t)).
Proof.
  intros Hwf Hok. unfold drop_expired. rewrite (attempts_get_filter (fun kv : string * (Z * Z) => ~ (_MAX_LOGIN_ATTEMPTS <= kv.2.1 /\ kv.2.2 <= now)) ip t Hwf). destruct (dict_get ip t) as [[c u]|]; [|done]. case_decide as E; [done|].
  destruct E as [Hc Hu]. by eapply ip_ok_expired.
Qed.

Lemma limiter_step_ok l op :
  dict_wf (lm_table l) -> limiter_ok l ->
  match op with LFail _ => (length (drop_expired (lm_now l) (lm_table l)) < _MAX_TRACKED_IPS)%nat | _ => True end ->
  limiter_ok (limiter_step l op).
Proof.
  destruct l as [now t fails]. intros Hwf Hok Hr ip. specialize (Hok ip). destruct op as [d|k|k|k]; simpl in *.
  - eapply ip_ok_later; [|exact Hok]. lia.
  - unfold check_rate_limit. destruct (dict_get k t) as [[c u]|] eqn:Ek; [|exact Hok]. destruct (Z.leb_spec _MAX_LOGIN_ATTEMPTS c); [|exact Hok].
    destruct (Z.ltb_spec now u); [exact Hok|]. simpl. rewrite dict_get_pop. case_decide as E; [|exact Hok]. subst k. rewrite Ek in Hok. by eapply ip_ok_expired.
  - rewrite times_snoc. assert (Hev : ip_ok now (times ip fails) (dict_get ip (evict now t))) by (destruct (evict_roomy now t Hr) as [-> | ->]; [done|by apply drop_expired_ok]).
    unfold record_login_failure. set (t' := evict now t) in *. clearbody t'. destruct (decide (k = ip)) as [->|Hne].
    + apply ip_ok_fail in Hev. destruct (dict_get ip t') as [[c u]|]; by rewrite dict_get_set_eq.
    + rewrite app_nil_r. by destruct (dict_get k t') as [[c u]|]; rewrite dict_get_set_ne.
  - unfold record_login_success. rewrite times_cleared, dict_get_pop. repeat case_decide; subst; try done. constructor.
Qed.

Lemma recent_bound now F c u : ip_ok now F (Some (c, u)) -> Z.of_nat (length (base.filter (fun t => now - lockout_ms < t) F)) <= c.
Proof.
  intros (old & new & -> & <- & Hold & _ & _). rewrite filter_app, length_app.
  assert (base.filter (fun t => now - lockout_ms < t) old = []) as ->.
  { induction Hold as [|x old Hx _ IH]; [done|]. rewrite filter_cons_False by (simpl in *; lia). done. }
  pose proof (length_filter (fun t => now - lockout_ms < t) new). simpl. lia.
Qed.

Lemma recent_none now F : Forall (fun t => t <= now - lockout_ms) F -> base.filter (fun t => now - lockout_ms < t) F = [].
Proof. induction 1 as [|x F Hx _ IH]; [done|]. rewrite filter_cons_False by (simpl in *; lia). done. Qed.

Lemma limiter_run ops l :
  dict_wf (lm_table l) /\ (length (lm_table l) <= _MAX_TRACKED_IPS)%nat ->
  let l' := foldl limiter_step l ops in
  (dict_wf (lm_table l') /\ (length (lm_table l') <= _MAX_TRACKED_IPS)%nat) /\ (limiter_ok l -> roomy l ops -> limiter_ok l').
Proof.
  revert l. induction ops as [|op ops IH]; intros l Hb; [done|]. simpl. destruct (IH _ (limiter_bounded l op Hb)) as [H1 H2].
  split; [done|]. intros Hok [Hr Hroomy]. apply H2; [|done]. apply limiter_step_ok; [apply Hb|done..].
Qed.

(** (C38) Guessing is slow.  However logins of all addresses interleave, the table
    never holds more addresses than its bound; and while it has room, a login
    is let in only when fewer than five logins of its address failed in the
    last five minutes since the last successful one. *)
Theorem login_throttled now ops ip :
  let l := foldl limiter_step (mk_limiter now [] []) ops in
  (length (lm_table l) <= _MAX_TRACKED_IPS)%nat
  /\ (roomy (mk_limiter now [] []) ops -> (check_rate_limit (lm_now l) ip (lm_table l)).1 = Ok tt -> (recent ip l < 5)%nat).
Proof.
  intros l. destruct (limiter_run ops (mk_limiter now [] [])) as [[_ Hlen] Hok]; [split; [constructor|simpl; lia]|]. fold l in Hlen, Hok. split; [done|].
  intros Hroomy Hcheck. specialize (Hok ltac:(intros k; constructor) Hroomy ip). unfold recent, check_rate_limit in *.
  destruct (dict_get ip (lm_table l)) as [[c u]|] eqn:Er; [|rewrite recent_none by done; simpl; lia].
  destruct (Z.leb_spec _MAX_LOGIN_ATTEMPTS c) as [Hc|Hc]; [|apply recent_bound in Hok; unfold _MAX_LOGIN_ATTEMPTS in Hc; lia].
  destruct (Z.ltb_spec (lm_now l) u) as [|Hu]; [done|]. apply ip_ok_expired in Hok; [|done..]. rewrite recent_none by done. simpl. lia.
Qed.

(** No header moves an attempt to another address unless the peer is a trusted
    proxy. *)
Lemma untrusted_peer_counts {addr net : Type} (ip_address : string -> option addr) (ip_network : string -> option net) in_net raw peer header :
  (forall a, ip_address peer = Some a -> existsb (in_net a) (trusted_proxies ip_network raw) = false) -> peer <> "" ->
  get_client_ip ip_address ip_network in_net raw (Some peer) header = peer.
Proof.
  intros Hun Hne. unfold get_client_ip. assert (truthy (Some peer) = true) as -> by (by apply negb_true_iff, String.eqb_neq). simpl.
  destruct (trusted_proxies ip_network raw) as [|n nets]; [done|]. destruct (ip_address peer) as [a|]; [|done]. by rewrite (Hun a).
Qed.

(** ** Examples *)

Definition toy_hash (password salt : string) : string := password +:+ "/" +:+ salt.
Definition toy_check (password hash : string) : option bool := Some (String.eqb (partition_char "/"%char hash).1 password).
Definition toy_jwt (sub : string) (exp iat ver : Z) : string := sub +:+ ":" +:+ (if ver =? 0 then "0" else "1").
Definition toy_decode (token : string) : result jwt_error (string * Z) :=
  if String.eqb token "alice:0" then Ok ("alice", 0) else if String.eqb token "alice:1" then Ok ("alice", 1) else Err JWT_Other.
Definition toy_env : auth_env :=
  mk_auth_env 0 None (fun _ => None) true "" false [] toy_decode None (fun _ _ => None) (fun _ _ _ _ _ _ => Err JWT_Other) (fun _ => "") id.

Definition alice_with (hash : string) : world :=
  mk_world [("alice", mk_account "a@x.org" (Some hash) "user" 0 (None, None) false 0)] [] 1000 [].

Abbreviation toy_change := (change_password id toy_check toy_hash toy_jwt 7 toy_env).
Abbreviation toy_login := (login_local id toy_check toy_hash toy_jwt 7).
Abbreviation toy_initialize := (initialize_admin id toy_hash toy_jwt 7).


Lemma accounts_stay_unique_witness :
  let w := alice_with "$dfv2$old secret/s0" in
  users_wf (w_users w)
  /\ users_wf (w_users (register id toy_hash toy_jwt 7 "bob" "s1" "a@x.org" "long enough" w []).1.2)
  /\ (register id toy_hash toy_jwt 7 "bob" "s1" "a@x.org" "long enough" w []).1.1 = Err (http "400" "email_already_exists").
Proof.
  intros w. assert (Hwf : users_wf (w_users w)).
  { split; [by apply NoDup_singleton|]. intros i u j v. simpl. repeat case_decide; congruence. }
  split; [exact Hwf|]. split; [|vm_compute; reflexivity].
  apply (accounts_stay_unique id toy_check toy_hash toy_jwt 7 toy_env false "bob" "s1" "" "" "a@x.org" "long enough" "" None w [] Hwf (Forall_nil_2 _)).
Defined.

(** Five failures close the door for five minutes, for this address only. *)
Definition guesses : list limiter_op := [LCheck "1.2.3.4"; LFail "1.2.3.4"; LFail "1.2.3.4"; LFail "1.2.3.4"; LTick 60000; LFail "1.2.3.4"].

Lemma login_throttled_witness :
  let l := foldl limiter_step (mk_limiter 0 [] []) guesses in
  (check_rate_limit (lm_now l) "1.2.3.4" (lm_table l)).1 = Ok tt /\ (recent "1.2.3.4" l < 5)%nat
  /\ let l' := limiter_step l (LFail "1.2.3.4") in
     (check_rate_limit (lm_now l') "1.2.3.4" (lm_table l')).1 = Err too_many /\ (check_rate_limit (lm_now l' + 300000) "1.2.3.4" (lm_table l')).1 = Ok tt.
Proof.
  intros l. split; [vm_compute; reflexivity|]. split; [|split; vm_compute; reflexivity].
  apply (login_throttled 0 guesses "1.2.3.4"); [|vm_compute; reflexivity].
  simpl. unfold _MAX_TRACKED_IPS. repeat split; apply Nat.ltb_lt; vm_compute; reflexivity.
Defined.

(** Logins that start before the first one fails are all let in. *)
Example parallel_guesses_let_in :
  let l := foldl limiter_step (mk_limiter 0 [] []) (replicate 100 (LCheck "1.2.3.4")) in
  (check_rate_limit (lm_now l) "1.2.3.4" (lm_table l)).1 = Ok tt /\ recent "1.2.3.4" (foldl limiter_step l (replicate 100 (LFail "1.2.3.4"))) = 100%nat.
Proof. vm_compute. done. Qed.

(** Two requests that both find no administrator create one each; the unique
    constraint the handler relies on is on the email. *)
Example two_first_admins :
  let other w := (toy_initialize "b" "s" "b@x.org" "long enough" w []).1.2 in
  let '(out, w, _) := toy_initialize "a" "s" "a@x.org" "long enough" (mk_world [] [] 0 []) [mk_moment id Go; mk_moment other Go] in
  is_Some (match out with Ok _ => Some tt | Err _ => None end) /\ count_admin_users (w_users w) = 2.
Proof. vm_compute. split; [by eexists|done]. Qed.

(** A login that upgrades an old hash writes the whole row it read: a password
    change in between is undone, and the old password and the old session work
    again. *)
Example rehash_undoes_password_change :
  let change w := (toy_change false "s1" "alice:0" "old secret" "new secret" None w []).1.2 in
  let w0 := alice_with "old secret/s0" in
  let '(out, w, _) := toy_login "s2" "1.2.3.4" "a@x.org" "old secret" w0 [mk_moment id Go; mk_moment id Go; mk_moment change Go] in
  current_user_from_cookie (env_with toy_env (w_users (change w0))) "alice:0" = Err (401, "token_invalid")
  /\ is_Some (match current_user_from_cookie (env_with toy_env (w_users w)) "alice:0" with Ok x => Some x | Err _ => None end)
  /\ (ac_password_hash <$> dict_get "alice" (w_users w)) = Some (Some "$dfv2$old secret/s2").
Proof. vm_compute. split; [done|]. split; [by eexists|done]. Qed.

(** The first administrator, when nobody interferes. *)
Example first_admin :
  (fun o => o.1.1) <$> (match (toy_initialize "a" "s" "a@x.org" "long enough" (mk_world [] [] 0 []) []).1.1 with Ok x => Some x | Err _ => None end) = Some "a"
  /\ (toy_initialize "b" "s" "b@x.org" "long enough" (toy_initialize "a" "s" "a@x.org" "long enough" (mk_world [] [] 0 []) []).1.2 []).1.1 = Err (http "409" "system_already_initialized").
Proof. vm_compute. done. Qed.
