(* ===== verification/Disk.v ===== *)
(** * Names, inodes and system calls

    The part of a POSIX file system that uploads depend on: a name is a hard
    link to an inode or a symbolic link, an inode may have several names, and an
    open file is an inode that stays reachable after its name is gone.  The
    target of a symbolic link is an absolute path without further links among
    its directories.  Permissions are not modelled: a refused access is a call
    that raises. *)
From S2P Require Import Prelude PyString PyPath PyAsync.
From stdpp Require Import gmap.
From Stdlib Require Import Ascii.
Local Open Scope string_scope.
Local Open Scope list_scope.

(** ** State *)

(** [Special opens]: a FIFO, socket or device; opening it for writing without
    blocking succeeds when [opens]. *)
Inductive content : Type :=
| File (data : string)
| Directory
| Special (opens : bool).

#[global] Instance content_eq_dec : EqDecision content.
Proof. solve_decision. Defined.

Record inode : Type := mk_inode { i_content : content; i_mode : Z }.

#[global] Instance inode_eq_dec : EqDecision inode.
Proof. solve_decision. Defined.

Inductive entry : Type :=
| Hard (i : nat)
| Symlink (target : loc).

#[global] Instance entry_eq_dec : EqDecision entry.
Proof. solve_decision. Defined.

Record disk : Type := mk_disk { d_names : gmap loc entry; d_inodes : gmap nat inode }.

Definition set_name (l : loc) (e : entry) (d : disk) : disk := mk_disk (<[l := e]> (d_names d)) (d_inodes d).
Definition drop_name (l : loc) (d : disk) : disk := mk_disk (delete l (d_names d)) (d_inodes d).
Definition set_inode (i : nat) (n : inode) (d : disk) : disk := mk_disk (d_names d) (<[i := n]> (d_inodes d)).

(** ** Resolution *)

(** The kernel gives up after forty links. *)
Definition max_links : nat := 40.

(** Where the last component leads. *)
Fixpoint follow (fuel : nat) (d : disk) (l : loc) : option loc :=
  match d_names d !! l with
  | Some (Symlink t) => match fuel with O => None | S f => follow f d t end
  | _ => Some l
  end.

(** The walk over the components of a path. *)
Fixpoint walk_path (d : disk) (here : loc) (parts : list string) : option loc :=
  match parts with
  | [] => Some here
  | c :: ps =>
      if String.eqb c ".." then walk_path d (removelast here) ps
      else match follow max_links d (here ++ [c]) with
           | Some l => walk_path d l ps
           | None => None
           end
  end.

Definition inode_at (d : disk) (l : loc) : option inode :=
  match d_names d !! l with
  | Some (Hard i) => d_inodes d !! i
  | _ => None
  end.

Definition is_dir (d : disk) (l : loc) : bool :=
  bool_decide (l = []) || match inode_at d l with Some (mk_inode Directory _) => true | _ => false end.

(** ** Errors *)

Definition ascii_nul : ascii := "000".

Definition name_max : nat := 255.

Definition FileNotFoundError : raised := Raised "FileNotFoundError" "".
Definition os_errno (code : string) : raised := Raised "OSError" code.
Definition embedded_null : raised := Raised "ValueError" "embedded null byte".

Definition is_not_found (e : raised) : bool := bool_decide (e = FileNotFoundError).

Definition has_nul (l : loc) : bool := existsb (contains_char ascii_nul) l.
Definition name_too_long (l : loc) : bool := existsb (fun c => (name_max <? String.length (utf8 c))%nat) l.

(** The directory entry a path names, its last component not followed. *)
Definition locate (d : disk) (path : loc) : result raised loc :=
  if has_nul path then Err embedded_null
  else if name_too_long path then Err (os_errno "ENAMETOOLONG")
  else match last path, walk_path d [] (removelast path) with
       | None, _ => Ok []
       | _, None => Err (os_errno "ELOOP")
       | Some c, Some p =>
           if is_dir d p then Ok (p ++ [c])
           else match d_names d !! p with
                | None => Err FileNotFoundError
                | Some _ => Err (os_errno "ENOTDIR")
                end
       end.

(** ... and with it followed. *)
Definition locate_target (d : disk) (path : loc) : result raised loc :=
  result_bind (locate d path) (fun l =>
  match follow max_links d l with Some l' => Ok l' | None => Err (os_errno "ELOOP") end).

(** ** Calls *)

Record stat : Type := mk_stat { st_reg : bool; st_lnk : bool; st_nlink : nat; st_mode : Z; st_size : nat }.

(** The number of names of an inode. *)
Definition nlink (d : disk) (i : nat) : nat := size (filter (fun kv => kv.2 = Hard i) (d_names d)).

Definition stat_inode (d : disk) (i : nat) (n : inode) : stat :=
  mk_stat (match i_content n with File _ => true | _ => false end) false (nlink d i) (i_mode n)
    (match i_content n with File data => String.length data | _ => 0%nat end).

Definition stat_entry (d : disk) (l : loc) : result raised stat :=
  match d_names d !! l with
  | None => Err FileNotFoundError
  | Some (Symlink t) => Ok (mk_stat false true 1 511 (String.length (loc_str t)))
  | Some (Hard i) =>
      match d_inodes d !! i with
      | Some n => Ok (stat_inode d i n)
      | None => Err (os_errno "EIO")
      end
  end.

(** [os.lstat] and [os.stat]. *)
Definition sys_lstat (path : loc) (d : disk) : result raised stat * disk :=
  (result_bind (locate d path) (stat_entry d), d).

Definition sys_stat (path : loc) (d : disk) : result raised stat * disk :=
  (result_bind (locate_target d path) (stat_entry d), d).

(** [os.fstat]. *)
Definition sys_fstat (i : nat) (d : disk) : result raised stat * disk :=
  (match d_inodes d !! i with Some n => Ok (stat_inode d i n) | None => Err (os_errno "EBADF") end, d).

(** [Path.resolve()]. *)
Definition sys_resolve (path : loc) (d : disk) : result raised loc * disk :=
  (if has_nul path then Err embedded_null
   else match walk_path d [] path with Some l => Ok l | None => Err (Raised "RuntimeError" "Symlink loop") end, d).

(** A new regular file. *)
Definition create (l : loc) (mode : Z) (d : disk) : nat * disk :=
  let i := fresh (dom (d_inodes d)) in (i, set_name l (Hard i) (set_inode i (mk_inode (File "") mode) d)).

(** Opening for writing at a directory entry that is not a symbolic link. *)
Definition open_entry (l : loc) (mode : Z) (d : disk) : result raised nat * disk :=
  match d_names d !! l with
  | None => let '(i, d') := create l mode d in (Ok i, d')
  | Some (Symlink _) => (Err (os_errno "ELOOP"), d)
  | Some (Hard i) =>
      match i_content <$> d_inodes d !! i with
      | Some (File _) | Some (Special true) => (Ok i, d)
      | Some Directory => (Err (os_errno "EISDIR"), d)
      | Some (Special false) => (Err (os_errno "ENXIO"), d)
      | None => (Err (os_errno "EIO"), d)
      end
  end.

(** [os.open(path, O_WRONLY | O_CREAT | O_NOFOLLOW | O_NONBLOCK, mode)]. *)
Definition sys_open_nofollow (path : loc) (mode : Z) (d : disk) : result raised nat * disk :=
  match locate d path with
  | Ok l => open_entry l mode d
  | Err e => (Err e, d)
  end.

(** ... without [O_NOFOLLOW]. *)
Definition sys_open (path : loc) (mode : Z) (d : disk) : result raised nat * disk :=
  match locate_target d path with
  | Ok l => open_entry l mode d
  | Err e => (Err e, d)
  end.

Definition set_data (i : nat) (data : string) (d : disk) : disk :=
  match d_inodes d !! i with
  | Some (mk_inode (File _) mode) => set_inode i (mk_inode (File data) mode) d
  | _ => d
  end.

Definition file_data (d : disk) (i : nat) : string :=
  match d_inodes d !! i with
  | Some (mk_inode (File data) _) => data
  | _ => ""
  end.

Definition sys_ftruncate (i : nat) (d : disk) : result raised unit * disk := (Ok tt, set_data i "" d).

Fixpoint nul_bytes (n : nat) : string := match n with O => "" | S n' => String ascii_nul (nul_bytes n') end.

(** The data of a file after a write at an offset. *)
Definition write_at (pos : nat) (chunk data : string) : string :=
  str_take pos data +:+ nul_bytes (pos - String.length data) +:+ chunk
  +:+ str_drop (pos + String.length chunk) data.

Definition sys_write (i : nat) (pos : nat) (chunk : string) (d : disk) : result raised unit * disk :=
  (Ok tt, set_data i (write_at pos chunk (file_data d i)) d).

Definition sys_close (d : disk) : result raised unit * disk := (Ok tt, d).

(** [os.unlink]. *)
Definition sys_unlink (path : loc) (d : disk) : result raised unit * disk :=
  match locate d path with
  | Err e => (Err e, d)
  | Ok l =>
      match d_names d !! l with
      | None => (Err FileNotFoundError, d)
      | Some _ => if is_dir d l then (Err (os_errno "EISDIR"), d) else (Ok tt, drop_name l d)
      end
  end.

(** [os.chmod]: a link itself, when it is not followed, cannot be changed. *)
Definition sys_chmod (nofollow : bool) (path : loc) (mode : Z) (d : disk) : result raised unit * disk :=
  match (if nofollow then locate else locate_target) d path with
  | Err e => (Err e, d)
  | Ok l =>
      match d_names d !! l with
      | None => (Err FileNotFoundError, d)
      | Some (Symlink _) => (Err (os_errno "EOPNOTSUPP"), d)
      | Some (Hard i) =>
          match d_inodes d !! i with
          | Some n => (Ok tt, set_inode i (mk_inode (i_content n) mode) d)
          | None => (Err (os_errno "EIO"), d)
          end
      end
  end.

(** The bytes of the file a path leads to. *)
Definition read_target (path : loc) (d : disk) : result raised string :=
  result_bind (locate_target d path) (fun l =>
  match d_names d !! l with
  | None => Err FileNotFoundError
  | Some _ =>
      match i_content <$> inode_at d l with
      | Some (File data) => Ok data
      | Some Directory => Err (os_errno "EISDIR")
      | _ => Err (os_errno "EIO")
      end
  end).

Definition sys_read_bytes (path : loc) (d : disk) : result raised string * disk := (read_target path d, d).

(** [Path.is_file()]. *)
Definition sys_is_file (path : loc) (d : disk) : result raised bool * disk :=
  (match (sys_stat path d).1 with
   | Ok st => Ok (st_reg st)
   | Err e => if bool_decide (e ∈ [FileNotFoundError; embedded_null; os_errno "ENOTDIR"; os_errno "ELOOP"]) then Ok false else Err e
   end, d).

(** [Path.mkdir(parents=True, exist_ok=True)] along the prefixes of a path. *)
Fixpoint mkdir_parents (here : loc) (parts : list string) (d : disk) : result raised unit * disk :=
  match parts with
  | [] => (Ok tt, d)
  | c :: ps =>
      match follow max_links d (here ++ [c]) with
      | None => (Err (os_errno "ELOOP"), d)
      | Some l =>
          if is_dir d l then mkdir_parents l ps d
          else match d_names d !! (here ++ [c]) with
               | None =>
                   let i := fresh (dom (d_inodes d)) in
                   mkdir_parents l ps (set_name l (Hard i) (set_inode i (mk_inode Directory 511) d))
               | Some _ => (Err (Raised "FileExistsError" (loc_str (here ++ [c]))), d)
               end
      end
  end.

Definition sys_makedirs (path : loc) (d : disk) : result raised unit * disk :=
  if has_nul path then (Err embedded_null, d)
  else if name_too_long path then (Err (os_errno "ENAMETOOLONG"), d) else mkdir_parents [] path d.

(** The names in a directory. *)
Definition names_in (d : disk) (dir : loc) : list string :=
  omap (fun kv : loc * entry =>
          match last kv.1 with
          | Some c => if bool_decide (kv.1 = dir ++ [c]) then Some c else None
          | None => None
          end) (map_to_list (d_names d)).

(** ** Calls of a task *)

(** Other processes may act before a call, and the call itself may fail. *)
Definition syscall {W A} (op : W -> result raised A * W) : coro W A := fun w s =>
  match s with
  | [] => let '(r, w') := op w in (r, w', [])
  | m :: s' =>
      let w1 := mo_others m w in
      match mo_fate m with
      | Fails name msg => (Err (Raised name msg), w1, s')
      | _ => let '(r, w') := op w1 in (r, w', s')
      end
  end.
