(* ===== verification/Uploads.v ===== *)
(** * Uploaded files

    [uploads/manager.py], the upload endpoints of the gateway and the conversion
    of documents: names, the safe opening of a destination, the limits on a
    request, its clean-up, listing and deletion.  The sandbox shares the uploads
    directory: other processes act between any two system calls.  The document
    converters are libraries and stand as parameters. *)
From S2P Require Import Prelude Idempotency.
From S2P Require Import PyString PyPath Paths PyAsync Disk.
From stdpp Require Import gmap pretty.
From Stdlib Require Import Ascii.
Local Open Scope string_scope.
Local Open Scope list_scope.
Local Open Scope coro_scope.

(** ** Names *)

Definition ValueError (msg : string) : raised := Raised "ValueError" msg.
Definition PathTraversalError : raised := Raised "PathTraversalError" "Path traversal detected".
Definition UnsafeUploadPathError (msg : string) : raised := Raised "UnsafeUploadPathError" msg.
Definition HTTPException (status : nat) (detail : string) : raised := Raised "HTTPException" (pretty status +:+ " " +:+ detail).

(** The class [[a-zA-Z0-9._-]], and [^...+$]. *)
Definition thread_char (c : ascii) : bool := safe_char c || Ascii.eqb c ".".

Fixpoint thread_chars (s : string) : bool :=
  match s with
  | "" => true
  | String c s' => (thread_char c && thread_chars s') || String.eqb s newline
  end.

Definition check_thread_id (thread_id : string) : result raised unit :=
  match thread_id with
  | "" => Err (ValueError "Invalid thread_id")
  | String c s => if thread_char c && thread_chars s then Ok tt else Err (ValueError "Invalid thread_id")
  end.

Definition normalize_filename (filename : string) : result raised string :=
  if String.eqb filename "" then Err (ValueError "Filename is empty")
  else
    let safe := path_name (parse_path filename) in
    if String.eqb safe "" || String.eqb safe "." || String.eqb safe ".." then Err (ValueError "Filename is unsafe")
    else if contains_char backslash safe then Err (ValueError "Filename contains backslash")
    else if (name_max <? String.length (utf8 safe))%nat then Err (ValueError "Filename too long")
    else Ok safe.

Fixpoint last_dot (i : nat) (s : string) (best : option nat) : option nat :=
  match s with
  | "" => best
  | String c s' => last_dot (S i) s' (if Ascii.eqb c "." then Some i else best)
  end.

(** [Path(name).stem] and [.suffix]: a dot that starts or ends the name counts
    for nothing. *)
Definition suffix_at (name : string) : option nat :=
  match last_dot 0 name None with
  | Some i => if (0 <? i)%nat && (S i <? String.length name)%nat then Some i else None
  | None => None
  end.

Definition path_stem (name : string) : string :=
  match suffix_at name with Some i => str_take i name | None => name end.
Definition path_suffix (name : string) : string :=
  match suffix_at name with Some i => str_drop i name | None => "" end.

(** [f"{stem}_{counter}{suffix}"]. *)
Definition numbered (stem suffix : string) (counter : nat) : string := stem +:+ "_" +:+ pretty counter +:+ suffix.

Fixpoint next_free (fuel : nat) (stem suffix : string) (counter : nat) (seen : gset string) : option string :=
  let candidate := numbered stem suffix counter in
  if bool_decide (candidate ∈ seen)
  then match fuel with O => None | S f => next_free f stem suffix (S counter) seen end
  else Some candidate.

Definition claim_unique_filename (name : string) (seen : gset string) : option (string * gset string) :=
  if bool_decide (name ∈ seen)
  then
    (fun candidate => (candidate, {[candidate]} ∪ seen)) <$>
    next_free (size seen) (path_stem name) (path_suffix name) 1 seen
  else Some (name, {[name]} ∪ seen).

(** The directory, with [user] the effective user. *)
Definition get_uploads_dir (base_dir : pure_path) (thread_id user : string) : result raised pure_path :=
  result_bind (check_thread_id thread_id) (fun _ =>
  match sandbox_uploads_dir base_dir thread_id (Some user) with
  | Ok p => Ok p
  | Err msg => Err (ValueError msg)
  end).

(** ** The task's world *)

(** The shared disk, and what has been sent to a sandbox that does not mount it. *)
Record world : Type := mk_world { w_disk : disk; w_sandbox : list (string * string) }.

Definition set_disk (d : disk) (w : world) : world := mk_world d (w_sandbox w).

Definition sys {A} (op : disk -> result raised A * disk) : coro world A :=
  syscall (fun w => let '(r, d) := op (w_disk w) in (r, set_disk d w)).

Definition ensure_uploads_dir (base_dir : pure_path) (thread_id user : string) : coro world loc :=
  do! base := of_result (get_uploads_dir base_dir thread_id user) in
  sys (sys_makedirs (pp_parts base)) ;; ret (pp_parts base).

(** [path.resolve().relative_to(base.resolve())]: only the [ValueError] becomes
    a traversal. *)
Definition validate_path_traversal (path base : loc) : coro world unit :=
  try_except
    (do! p := sys (sys_resolve path) in
     do! b := sys (sys_resolve base) in
     if bool_decide (b `prefix_of` p) then ret tt else throw (ValueError "not in the subpath"))
    (fun e => match e with Raised "ValueError" _ => throw PathTraversalError | _ => throw e end).

(** ** Opening a destination *)

Record handle : Type := mk_handle { h_ino : nat; h_pos : nat }.

Definition owner_rw : Z := 384.

(** [None] for a missing file. *)
Definition lstat_or_none (dest : loc) : coro world (option stat) :=
  try_except (do! st := sys (sys_lstat dest) in ret (Some st))
    (fun e => if is_not_found e then ret None else throw e).

Definition unsafe_errnos (posix : bool) : list raised :=
  (if posix then [os_errno "ELOOP"] else []) ++ (os_errno <$> ["EISDIR"; "ENOTDIR"; "ENXIO"; "EAGAIN"]).

Definition open_or_unsafe (posix : bool) (safe_name : string) (op : disk -> result raised nat * disk) : coro world nat :=
  try_except (sys op)
    (fun e => if bool_decide (e ∈ unsafe_errnos posix)
              then throw (UnsafeUploadPathError ("Unsafe upload destination: " +:+ safe_name)) else throw e).

Definition refuse_irregular (st : option stat) (safe_name : string) : coro world unit :=
  match st with
  | Some st => if st_reg st then ret tt
               else throw (UnsafeUploadPathError ("Upload destination is not a regular file: " +:+ safe_name))
  | None => ret tt
  end.

Definition refuse_linked (st : option stat) (safe_name : string) : coro world unit :=
  match st with
  | Some st => if (1 <? st_nlink st)%nat
               then throw (UnsafeUploadPathError ("Upload destination has multiple links: " +:+ safe_name)) else ret tt
  | None => ret tt
  end.

(** The checks on the open file, then its truncation. *)
Definition claim_open_file (exclusive : nat -> bool) (safe_name : string) (dest : loc) (i : nat) : coro world (loc * handle) :=
  do! opened := sys (sys_fstat i) in
  if negb (st_reg opened) || negb (exclusive (st_nlink opened))
  then throw (UnsafeUploadPathError ("Upload destination is not an exclusive regular file: " +:+ safe_name))
  else sys (sys_ftruncate i) ;; ret (dest, mk_handle i 0).

(** [posix]: the system has [O_NOFOLLOW]. *)
Definition open_upload_file_no_symlink (posix : bool) (base : loc) (filename : string) : coro world (loc * handle) :=
  do! safe_name := of_result (normalize_filename filename) in
  let dest := base ++ [safe_name] in
  do! st := lstat_or_none dest in
  refuse_irregular st safe_name ;;
  validate_path_traversal dest base ;;
  if posix then
    do! i := open_or_unsafe true safe_name (sys_open_nofollow dest owner_rw) in
    claim_open_file (fun n => (n =? 1)%nat) safe_name dest i
  else
    refuse_linked st safe_name ;;
    do! pre_open_st := lstat_or_none dest in
    refuse_irregular pre_open_st safe_name ;;
    refuse_linked pre_open_st safe_name ;;
    do! i := open_or_unsafe false safe_name (sys_open dest owner_rw) in
    claim_open_file (fun n => (n <=? 1)%nat) safe_name dest i.

Definition write_handle (h : handle) (data : string) : coro world handle :=
  sys (sys_write (h_ino h) (h_pos h) data) ;; ret (mk_handle (h_ino h) (h_pos h + String.length data)).

Definition write_upload_file_no_symlink (posix : bool) (base : loc) (filename data : string) : coro world loc :=
  do! opened := open_upload_file_no_symlink posix base filename in
  try_finally (write_handle opened.2 data) (sys sys_close) ;; ret opened.1.

(** ** Limits *)

Definition UPLOAD_CHUNK_SIZE : Z := 8192.
Definition DEFAULT_MAX_FILES : Z := 10.
Definition DEFAULT_MAX_FILE_SIZE : Z := 50 * 1024 * 1024.
Definition DEFAULT_MAX_TOTAL_SIZE : Z := 100 * 1024 * 1024.

Record upload_limits : Type := mk_limits { max_files : Z; max_file_size : Z; max_total_size : Z }.

(** [int(value)]. *)
Definition int_value (v : json) : option Z :=
  match v with
  | JNum z => Some z
  | JBool b => Some (if b then 1 else 0)%Z
  | JStr s => parse_int (strip_by is_space (String.list_ascii_of_string s))
  | _ => None
  end.

(** The [uploads] section of the configuration, as a dictionary or an object. *)
Definition uploads_config : Type := list (string * json).

Definition config_value (cfg : uploads_config) (key : string) : option json :=
  match dict_get key cfg with
  | Some JNull | None => None
  | v => v
  end.

Definition get_upload_limit (cfg : uploads_config) (key : string) (default : Z) (legacy_key : option string) : Z :=
  let value := match config_value cfg key with
               | Some v => Some v
               | None => match legacy_key with Some k => config_value cfg k | None => None end
               end in
  match value with
  | None => default
  | Some v => match int_value v with
              | Some limit => if (limit <=? 0)%Z then default else limit
              | None => default
              end
  end.

Definition get_upload_limits (cfg : uploads_config) : upload_limits :=
  mk_limits (get_upload_limit cfg "max_files" DEFAULT_MAX_FILES (Some "max_file_count"))
    (get_upload_limit cfg "max_file_size" DEFAULT_MAX_FILE_SIZE (Some "max_single_file_size"))
    (get_upload_limit cfg "max_total_size" DEFAULT_MAX_TOTAL_SIZE None).

Definition auto_convert_documents_enabled (cfg : uploads_config) : bool :=
  match dict_get "auto_convert_documents" cfg with
  | None => false
  | Some (JStr s) => str_in (lower (strip s)) ["1"; "true"; "yes"; "on"]
  | Some v => json_truthy v
  end.

(** ** Writing one part *)

(** [while chunk := await file.read(UPLOAD_CHUNK_SIZE)]. *)
Fixpoint write_chunks (fuel : nat) (limits : upload_limits) (display_filename : string) (h : handle) (rest : string)
    (file_size total_size : Z) : coro world (Z * Z) :=
  match fuel with
  | O => throw (Raised "RecursionError" "")
  | S f =>
      do! chunk := await (fun w => (Ok (str_take (Z.to_nat UPLOAD_CHUNK_SIZE) rest), w)) in
      if String.eqb chunk "" then ret (file_size, total_size)
      else
        let file_size := (file_size + Z.of_nat (String.length chunk))%Z in
        let total_size := (total_size + Z.of_nat (String.length chunk))%Z in
        if (max_file_size limits <? file_size)%Z then throw (HTTPException 413 ("File too large: " +:+ display_filename))
        else if (max_total_size limits <? total_size)%Z then throw (HTTPException 413 "Total upload size too large")
        else
          do! h := write_handle h chunk in
          write_chunks f limits display_filename h (str_drop (Z.to_nat UPLOAD_CHUNK_SIZE) rest) file_size total_size
  end.

#[global] Arguments write_chunks : simpl never.

(** [os.unlink] where a missing file is no error. *)
Definition unlink_missing_ok (path : loc) : coro world unit :=
  try_except (sys (sys_unlink path)) (fun e => if is_not_found e then ret tt else throw e).

Definition write_upload_file_with_limits (posix : bool) (body : string) (uploads_dir : loc) (display_filename : string)
    (limits : upload_limits) (total_size : Z) : coro world (loc * Z * Z) :=
  do! opened := open_upload_file_no_symlink posix uploads_dir display_filename in
  do! sizes := try_exception
    (write_chunks (S (String.length body)) limits display_filename opened.2 body 0 total_size)
    (fun n t => sys sys_close ;; unlink_missing_ok opened.1 ;; throw (Raised n t)) in
  sys sys_close ;; ret (opened.1, sizes.1, sizes.2).

Fixpoint cleanup_uploaded_paths (reversed_paths : list loc) : coro world unit :=
  match reversed_paths with
  | [] => ret tt
  | p :: ps => try_exception (sys (sys_unlink p)) (fun _ _ => ret tt) ;; cleanup_uploaded_paths ps
  end.

(** ** Modes *)

Definition S_IRGRP : Z := 32.
Definition S_IROTH : Z := 4.
Definition S_IWUSR : Z := 128.
Definition S_IWGRP : Z := 16.
Definition S_IWOTH : Z := 2.

Definition add_mode (nofollow : bool) (bits : Z) (path : loc) : coro world unit :=
  do! st := sys (sys_lstat path) in
  if st_lnk st then ret tt else sys (sys_chmod nofollow path (Z.lor (st_mode st) bits)).

Definition make_file_sandbox_readable (nofollow : bool) : loc -> coro world unit :=
  add_mode nofollow (Z.lor S_IRGRP S_IROTH).

Definition make_file_sandbox_writable (nofollow : bool) : loc -> coro world unit :=
  add_mode nofollow (Z.lor S_IWUSR (Z.lor S_IWGRP (Z.lor S_IWOTH (Z.lor S_IRGRP S_IROTH)))).

(** ** Paths reported to clients *)

Definition hex_digit (n : nat) : ascii := ascii_of_nat (if (n <? 10)%nat then 48 + n else 55 + n)%nat.

Definition unreserved (c : ascii) : bool := is_alnum c || existsb (Ascii.eqb c) ["_"; "."; "-"; "~"]%char.

Fixpoint quote_bytes (s : string) : string :=
  match s with
  | "" => ""
  | String c s' =>
      if unreserved c then String c (quote_bytes s')
      else let n := nat_of_ascii c in
           String "%" (String (hex_digit (n / 16)) (String (hex_digit (n mod 16)) (quote_bytes s')))
  end.

(** [urllib.parse.quote(s, safe='')]. *)
Definition quote (s : string) : string := quote_bytes (utf8 s).

Definition upload_virtual_path (filename : string) : string := VIRTUAL_PATH_PREFIX +:+ "/uploads/" +:+ filename.

Definition upload_artifact_url (thread_id filename : string) : string :=
  "/api/threads/" +:+ thread_id +:+ "/artifacts" +:+ VIRTUAL_PATH_PREFIX +:+ "/uploads/" +:+ quote filename.

(** ** Converting documents *)

Definition CONVERTIBLE_EXTENSIONS : list string := [".pdf"; ".ppt"; ".pptx"; ".xls"; ".xlsx"; ".doc"; ".docx"].
Definition ASYNC_THRESHOLD_BYTES : Z := 1 * 1024 * 1024.
Definition MIN_CHARS_PER_PAGE : Z := 50.

Definition get_pdf_converter (cfg : uploads_config) : string :=
  let raw := match dict_get "pdf_converter" cfg with
             | None => "auto"
             | Some (JStr s) => lower (strip s)
             | Some _ => ""
             end in
  if str_in raw ["auto"; "pymupdf4llm"; "markitdown"] then raw else "auto".

Definition with_suffix (path : loc) (suffix : string) : loc :=
  match last path with
  | Some name => removelast path ++ [path_stem name +:+ suffix]
  | None => path
  end.

Definition loc_name (path : loc) : string := opt_or (last path) "".

(** What the libraries make of the bytes of a file, [None] when it cannot be
    read: [pymupdf4llm.to_markdown] ([None]: not installed, or it raises), the
    number of pages [pymupdf] reports, and MarkItDown. *)
Record converters : Type := mk_converters {
  cv_pymupdf4llm : option string -> option string;
  cv_pages : option string -> option Z;
  cv_markitdown : option string -> result raised string;
}.

Definition pymupdf_output_too_sparse (text : string) (pages : option Z) : bool :=
  let chars := Z.of_nat (String.length (strip text)) in
  match pages with
  | Some n => if (0 <? n)%Z then (chars <? MIN_CHARS_PER_PAGE * n)%Z else (chars <? 200)%Z
  | None => (chars <? 200)%Z
  end.

Definition bytes_of (path : loc) (d : disk) : option string :=
  match read_target path d with Ok data => Some data | Err _ => None end.

Section conversion.
Context (cv : converters).

Definition convert_with_markitdown (path : loc) : coro world string :=
  sys (fun d => (cv_markitdown cv (bytes_of path d), d)).

Definition do_convert (path : loc) (pdf_converter : string) : coro world string :=
  if String.eqb (lower (path_suffix (loc_name path))) ".pdf" && negb (String.eqb pdf_converter "markitdown") then
    do! pymupdf_text := sys (fun d => (Ok (cv_pymupdf4llm cv (bytes_of path d)), d)) in
    match pymupdf_text with
    | Some text =>
        if String.eqb pdf_converter "pymupdf4llm" then ret text
        else
          do! pages := sys (fun d => (Ok (cv_pages cv (bytes_of path d)), d)) in
          if pymupdf_output_too_sparse text pages then convert_with_markitdown path else ret text
    | None => convert_with_markitdown path
    end
  else convert_with_markitdown path.

(** [path.write_text(text)]: an existing file, or the target of a link, is
    truncated and written. *)
Definition write_text (path : loc) (text : string) : coro world unit :=
  do! i := sys (sys_open path 438) in
  sys (sys_ftruncate i) ;; sys (sys_write i 0 (utf8 text)).

Definition convert_file_to_markdown (cfg : uploads_config) (path : loc) : coro world (option loc) :=
  try_exception
    (let pdf_converter := get_pdf_converter cfg in
     do! st := sys (sys_stat path) in
     do! text := (if (ASYNC_THRESHOLD_BYTES <? Z.of_nat (st_size st))%Z
                  then await_sure (fun w => w) ;; do_convert path pdf_converter
                  else do_convert path pdf_converter) in
     let md_path := with_suffix path ".md" in
     write_text md_path text ;; ret (Some md_path))
    (fun _ _ => ret None).

(** ** The upload endpoint *)

Record upload_file : Type := mk_upload { uf_filename : option string; uf_body : string }.

Record markdown_info : Type := mk_md {
  markdown_file : string; markdown_path : string; markdown_virtual_path : string; markdown_artifact_url : string;
}.

Record file_info : Type := mk_info {
  fi_filename : string; fi_size : Z; fi_path : string; fi_virtual_path : string; fi_artifact_url : string;
  fi_original_filename : option string; fi_markdown : option markdown_info;
}.

Record upload_response : Type := mk_response {
  rs_success : bool; rs_files : list file_info; rs_message : string; rs_skipped_files : list string;
}.

(** The lists the handler fills. *)
Record upload_state : Type := mk_state {
  us_uploaded : list file_info; us_written : list loc; us_sync : list (loc * string); us_skipped : list string;
  us_total : Z; us_seen : gset string;
}.

Definition empty_state : upload_state := mk_state [] [] [] [] 0 ∅.

(** What differs between deployments: [O_NOFOLLOW], a [chmod] that need not
    follow links, a provider that mounts the directory, a sandbox that could be
    acquired. *)
Record deployment : Type := mk_deployment { dp_posix : bool; dp_chmod_nofollow : bool; dp_mounts : bool; dp_sandbox : bool }.

Context (dp : deployment) (cfg : uploads_config).

(** The handlers around the writing of one part: [None] when it is skipped. *)
Definition write_or_skip (uploads_dir : loc) (safe_filename filename body : string) (st : upload_state)
    : coro world (option (loc * Z * Z)) :=
  try_exception
    (do! r := write_upload_file_with_limits (dp_posix dp) body uploads_dir safe_filename (get_upload_limits cfg) (us_total st) in
     ret (Some r))
    (fun name msg =>
       if String.eqb name "HTTPException" then cleanup_uploaded_paths (rev (us_written st)) ;; throw (Raised name msg)
       else if String.eqb name "UnsafeUploadPathError" then ret None
       else cleanup_uploaded_paths (rev (us_written st)) ;;
            throw (HTTPException 500 ("Failed to upload " +:+ filename +:+ ": " +:+ msg))).

Definition maybe_convert (file_path : loc) : coro world (option loc) :=
  if auto_convert_documents_enabled cfg && str_in (lower (path_suffix (loc_name file_path))) CONVERTIBLE_EXTENSIONS
  then convert_file_to_markdown cfg file_path else ret None.

Definition markdown_of (thread_id : string) (sandbox_uploads : pure_path) (md_path : loc) : markdown_info :=
  let name := loc_name md_path in
  mk_md name (path_str (path_join sandbox_uploads name)) (upload_virtual_path name) (upload_artifact_url thread_id name).

Definition upload_one (thread_id : string) (uploads_dir : loc) (sandbox_uploads : pure_path) (st : upload_state)
    (file : upload_file) : coro world upload_state :=
  match uf_filename file with
  | None | Some "" => ret st
  | Some filename =>
      match normalize_filename filename with
      | Err _ => ret st
      | Ok original_filename =>
          match claim_unique_filename original_filename (us_seen st) with
          | None => throw (Raised "RecursionError" "")
          | Some (safe_filename, seen) =>
              let st := mk_state (us_uploaded st) (us_written st) (us_sync st) (us_skipped st) (us_total st) seen in
              do! o := write_or_skip uploads_dir safe_filename filename (uf_body file) st in
              match o with
              | None => ret (mk_state (us_uploaded st) (us_written st) (us_sync st) (us_skipped st ++ [safe_filename])
                               (us_total st) seen)
              | Some (file_path, file_size, total_size) =>
                  let written := us_written st ++ [file_path] in
                  let virtual_path := upload_virtual_path safe_filename in
                  let sync := if dp_mounts dp then us_sync st else us_sync st ++ [(file_path, virtual_path)] in
                  do! md := maybe_convert file_path in
                  let info := mk_info safe_filename file_size (path_str (path_join sandbox_uploads safe_filename)) virtual_path
                    (upload_artifact_url thread_id safe_filename)
                    (if String.eqb safe_filename original_filename then None else Some original_filename)
                    (markdown_of thread_id sandbox_uploads <$> md) in
                  let written := written ++ option_list md in
                  let sync := match md with
                              | Some m => if dp_mounts dp then sync else sync ++ [(m, upload_virtual_path (loc_name m))]
                              | None => sync
                              end in
                  ret (mk_state (us_uploaded st ++ [info]) written sync (us_skipped st) total_size seen)
              end
          end
      end
  end.

Fixpoint upload_all (thread_id : string) (uploads_dir : loc) (sandbox_uploads : pure_path) (st : upload_state)
    (files : list upload_file) : coro world upload_state :=
  match files with
  | [] => ret st
  | f :: fs =>
      do! st := upload_one thread_id uploads_dir sandbox_uploads st f in
      upload_all thread_id uploads_dir sandbox_uploads st fs
  end.

(** [sandbox.update_file(virtual_path, data)]. *)
Definition update_sandbox (virtual_path data : string) : coro world unit :=
  syscall (fun w => (Ok tt, mk_world (w_disk w) (w_sandbox w ++ [(virtual_path, data)]))).

Definition sync_one (target : loc * string) : coro world unit :=
  make_file_sandbox_writable (dp_chmod_nofollow dp) target.1 ;;
  do! data := sys (sys_read_bytes target.1) in
  update_sandbox target.2 data.

Definition response_of (st : upload_state) : upload_response :=
  mk_response (match us_skipped st with [] => true | _ => false end) (us_uploaded st)
    ("Successfully uploaded " +:+ pretty (length (us_uploaded st)) +:+ " file(s)"
     +:+ match us_skipped st with
         | [] => ""
         | l => "; skipped " +:+ pretty (length l) +:+ " unsafe file(s)"
         end)
    (us_skipped st).

Definition upload_files (base_dir : pure_path) (thread_id user : string) (files : list upload_file)
    : coro world upload_response :=
  match files with
  | [] => throw (HTTPException 400 "No files provided")
  | _ =>
      let limits := get_upload_limits cfg in
      if (max_files limits <? Z.of_nat (length files))%Z
      then throw (HTTPException 413 ("Too many files: maximum is " +:+ pretty (max_files limits)))
      else
        do! uploads_dir := try_exception (ensure_uploads_dir base_dir thread_id user)
          (fun name msg => if String.eqb name "ValueError" then throw (HTTPException 400 msg) else throw (Raised name msg)) in
        do! sandbox_uploads := of_result (get_uploads_dir base_dir thread_id user) in
        if negb (dp_mounts dp) && negb (dp_sandbox dp) then throw (HTTPException 500 "Failed to acquire sandbox")
        else
          do! st := upload_all thread_id uploads_dir sandbox_uploads empty_state files in
          for_each (make_file_sandbox_readable (dp_chmod_nofollow dp)) (us_written st) ;;
          (if dp_mounts dp then ret tt else for_each sync_one (us_sync st)) ;;
          ret (response_of st)
  end.
End conversion.

(** ** Listing and deletion *)

(** A listed file: its name, size and extension. *)
Record listed_file : Type := mk_listed { lf_filename : string; lf_size : nat; lf_extension : string }.

(** Entries that are regular files and not links, in the order of their names. *)
Definition list_entries (d : disk) (dir : loc) : list listed_file :=
  omap (fun name =>
          match stat_entry d (dir ++ [name]) with
          | Ok st => if st_reg st then Some (mk_listed name (st_size st) (path_suffix name)) else None
          | Err _ => None
          end)
    (sort_by String.leb (names_in d dir)).

Definition list_files_in_dir (directory : loc) (d : disk) : result raised (list listed_file) * disk :=
  (match walk_path d [] directory with
   | Some l => if is_dir d l then Ok (list_entries d l) else Ok []
   | None => Ok []
   end, d).

(** The listing with the paths of [enrich_file_listing] and of the gateway. *)
Definition list_uploaded_files (base_dir : pure_path) (thread_id user : string)
    : coro world (list (listed_file * (string * string * string))) :=
  match get_uploads_dir base_dir thread_id user with
  | Err e => throw (HTTPException 400 (match e with Raised _ msg => msg | Cancelled => "" end))
  | Ok dir =>
      do! files := sys (list_files_in_dir (pp_parts dir)) in
      ret ((fun f => (f, (path_str (path_join dir (lf_filename f)), upload_virtual_path (lf_filename f),
                          upload_artifact_url thread_id (lf_filename f)))) <$> files)
  end.

(** [(base_dir / filename)]. *)
Definition join_name (base : loc) (filename : string) : loc := pp_parts (path_join (loc_path base) filename).

Definition delete_file_safe (base : loc) (filename : string) (convertible_extensions : list string) : coro world unit :=
  do! file_path := sys (sys_resolve (join_name base filename)) in
  validate_path_traversal file_path base ;;
  do! found := sys (sys_is_file file_path) in
  if negb found then throw FileNotFoundError
  else
    sys (sys_unlink file_path) ;;
    if str_in (lower (path_suffix (loc_name file_path))) convertible_extensions
    then unlink_missing_ok (with_suffix file_path ".md") else ret tt.

Definition delete_uploaded_file (base_dir : pure_path) (thread_id user filename : string) : coro world unit :=
  match get_uploads_dir base_dir thread_id user with
  | Err e => throw (HTTPException 400 (match e with Raised _ msg => msg | Cancelled => "" end))
  | Ok dir =>
      try_exception (delete_file_safe (pp_parts dir) filename CONVERTIBLE_EXTENSIONS)
        (fun name msg =>
           if String.eqb name "FileNotFoundError" then throw (HTTPException 404 ("File not found: " +:+ filename))
           else if String.eqb name "PathTraversalError" then throw (HTTPException 400 "Invalid path")
           else throw (HTTPException 500 ("Failed to delete " +:+ filename +:+ ": " +:+ msg)))
  end.
