(* ===== verification/UploadsProps.v ===== *)
(** * Uploads: what the endpoint guarantees

    Names claimed by a request are fresh; whatever the sandbox does in the
    uploads directory between the system calls of a request, files elsewhere
    keep their data; a response stays within the limits; and an undisturbed
    request stores exactly the bytes it was sent. *)
From S2P Require Import Prelude Idempotency.
From S2P Require Import PyString PyPath Paths PyAsync Disk Uploads.
From stdpp Require Import gmap pretty.
Local Open Scope string_scope.
Local Open Scope list_scope.
Local Open Scope coro_scope.

(** ** Fresh names *)

Lemma str_app_inj_l s t u : s +:+ t = s +:+ u -> t = u.
Proof. induction s as [|c s IH]; simpl; [done|]. intros [= H]. auto. Qed.

Lemma str_app_inj_r s t u : t +:+ s = u +:+ s -> t = u.
Proof.
  intros H. assert (Hl : String.length t = String.length u).
  { apply (f_equal String.length) in H. rewrite !str_length_app in H. lia. }
  revert u H Hl. induction t as [|c t IH]; intros [|c' u]; try done; simpl. intros [= -> H] [= Hl]. f_equal. auto.
Qed.

Lemma numbered_inj stem suffix : Inj (=) (=) (numbered stem suffix).
Proof.
  intros m n H. unfold numbered in H. apply str_app_inj_l, str_app_inj_l in H.
  by apply str_app_inj_r, (inj pretty) in H.
Qed.

Lemma next_free_fresh fuel stem suffix counter seen c :
  next_free fuel stem suffix counter seen = Some c -> c ∉ seen.
Proof.
  revert counter. induction fuel as [|fuel IH]; intros counter; simpl; case_bool_decide; try done.
  - by intros [= <-].
  - apply IH.
  - by intros [= <-].
Qed.

(** Without a result, every number tried was taken. *)
Lemma next_free_exhausted fuel stem suffix counter seen :
  next_free fuel stem suffix counter seen = None ->
  forall k, (k <= fuel)%nat -> numbered stem suffix (counter + k) ∈ seen.
Proof.
  revert counter. induction fuel as [|fuel IH]; intros counter; simpl; case_bool_decide as H; try done; intros Hn k Hk.
  - by replace (counter + k)%nat with counter by lia.
  - destruct k as [|k]; [by rewrite Nat.add_0_r|].
    replace (counter + S k)%nat with (S counter + k)%nat by lia. apply IH; [done|lia].
Qed.

Lemma next_free_total stem suffix counter seen : is_Some (next_free (size seen) stem suffix counter seen).
Proof.
  destruct (next_free _ _ _ _ _) eqn:E; [done|]. exfalso.
  pose proof (next_free_exhausted _ _ _ _ _ E) as H.
  set (tried := (fun k => numbered stem suffix (counter + k)) <$> seq 0 (S (size seen))).
  assert (Hd : NoDup tried).
  { apply NoDup_fmap_2; [|apply NoDup_seq]. intros j k Hjk. apply numbered_inj in Hjk. lia. }
  assert (Hs : list_to_set tried ⊆ seen).
  { intros x Hx. apply elem_of_list_to_set, list_elem_of_fmap in Hx as (k & -> & Hk%elem_of_seq). apply H. lia. }
  apply subseteq_size in Hs. rewrite size_list_to_set in Hs by done. unfold tried in Hs.
  rewrite length_fmap, length_seq in Hs. lia.
Qed.

Lemma claim_fresh name seen c seen' :
  claim_unique_filename name seen = Some (c, seen') -> c ∉ seen /\ seen' = {[c]} ∪ seen.
Proof.
  unfold claim_unique_filename. case_bool_decide; [|by intros [= <- <-]].
  intros Hc. apply fmap_Some in Hc as (x & Hx & [= -> ->]). by apply next_free_fresh in Hx.
Qed.

(** Claiming a name always ends, whatever names the request has used: the
    name itself when it is new, else the name with the first free number, and
    the answer was not in use. *)
Theorem claimed_name_fresh name seen :
  exists c, claim_unique_filename name seen = Some (c, {[c]} ∪ seen) /\ c ∉ seen
    /\ (c = name \/ name ∈ seen /\ exists k, c = numbered (path_stem name) (path_suffix name) k
          /\ forall j, (1 <= j < k)%nat -> numbered (path_stem name) (path_suffix name) j ∈ seen).
Proof.
  unfold claim_unique_filename. case_bool_decide as Hin; [|by exists name; eauto].
  destruct (next_free_total (path_stem name) (path_suffix name) 1 seen) as [c Hc]. rewrite Hc. exists c.
  split; [done|]. split; [by eapply next_free_fresh|]. right. split; [done|].
  assert (Hk : forall fuel n, next_free fuel (path_stem name) (path_suffix name) n seen = Some c ->
    exists k, (n <= k)%nat /\ c = numbered (path_stem name) (path_suffix name) k
      /\ forall j, (n <= j < k)%nat -> numbered (path_stem name) (path_suffix name) j ∈ seen).
  { induction fuel as [|fuel IH]; intros n; simpl; case_bool_decide as Hn; try done.
    - intros [= <-]. exists n. split; [done|]. split; [done|]. lia.
    - intros H. apply IH in H as (k & Hle & -> & Hj). exists k. split; [lia|]. split; [done|].
      intros j Hlt. destruct (decide (j = n)) as [->|]; [done|]. apply Hj. lia.
    - intros [= <-]. exists n. split; [done|]. split; [done|]. lia. }
  apply Hk in Hc as (k & _ & -> & Hj). exists k. auto.
Qed.

(** ** Resolution without links *)

(** No component of the path of the directory is a symbolic link. *)
Definition linkless (base : loc) (d : disk) : Prop :=
  forall p t, p <> [] -> p `prefix_of` base -> d_names d !! p <> Some (Symlink t).

Lemma follow_plain d l fuel : (forall t, d_names d !! l <> Some (Symlink t)) -> follow fuel d l = Some l.
Proof. intros H. destruct fuel; simpl; destruct (d_names d !! l) as [[]|] eqn:E; naive_solver. Qed.

Lemma walk_path_linkless d here parts :
  Forall good_part parts -> linkless (here ++ parts) d -> walk_path d here parts = Some (here ++ parts).
Proof.
  revert here. induction parts as [|c ps IH]; intros here Hg Hl; cbn [walk_path]; [by rewrite app_nil_r|].
  inversion_clear Hg as [|? ? (_ & _ & Hc & _) Hps]. apply String.eqb_neq in Hc as ->.
  rewrite follow_plain; [|intros t; apply Hl; [by destruct here|exists ps; by rewrite <-app_assoc]].
  rewrite IH; [by rewrite <-app_assoc|done|by rewrite <-app_assoc].
Qed.

Lemma locate_in base c d l :
  Forall good_part base -> linkless base d -> locate d (base ++ [c]) = Ok l -> l = base ++ [c].
Proof.
  intros Hg Hl. unfold locate. rewrite last_snoc, removelast_last, (walk_path_linkless d [] base) by done.
  simpl. repeat case_match; naive_solver.
Qed.

Lemma snoc_not_prefix {A} (base : list A) c : ~ base ++ [c] `prefix_of` base.
Proof. intros H%prefix_length. rewrite length_app in H. simpl in H. lia. Qed.

Lemma linkless_ext base d d' :
  linkless base d -> (forall p t, p `prefix_of` base -> d_names d' !! p = Some (Symlink t) -> d_names d !! p = Some (Symlink t)) ->
  linkless base d'.
Proof. intros H Hd p t Hp Hpre E. apply (H p t Hp Hpre). auto. Qed.

Lemma fresh_inode (d : disk) i : is_Some (d_inodes d !! i) -> fresh (dom (d_inodes d)) <> i.
Proof. intros [n Hn] E. apply (is_fresh (dom (d_inodes d))). rewrite E. by apply elem_of_dom. Qed.

(** A directory added where there was no name. *)
Definition add_dir (p : loc) (d : disk) : disk :=
  let i := fresh (dom (d_inodes d)) in set_name p (Hard i) (set_inode i (mk_inode Directory 511) d).

Lemma mkdir_parents_inv (P : disk -> Prop) parts here d :
  (forall d p, d_names d !! p = None -> P d -> P (add_dir p d)) -> P d -> P (mkdir_parents here parts d).2.
Proof.
  intros Hadd. revert here d. induction parts as [|c ps IH]; intros here d Hd; [done|]. cbn [mkdir_parents].
  destruct (d_names d !! _) as [e|] eqn:E.
  - destruct (follow _ _ _) as [p|]; [|done]. case_match; [by apply IH|done].
  - rewrite follow_plain by (intros t Ht; by pose proof (eq_trans (eq_sym Ht) E)). case_match; [by apply IH|]. by apply IH, Hadd.
Qed.

Lemma linkless_add_dir base p d : linkless base d -> linkless base (add_dir p d).
Proof.
  intros Hl. eapply linkless_ext; [exact Hl|]. intros q t Hq. simpl. by intros [[_ [=]]|[_ ?]]%lookup_insert_Some.
Qed.

(** Two names make two links. *)
Lemma nlink_two d i l1 l2 :
  l1 <> l2 -> d_names d !! l1 = Some (Hard i) -> d_names d !! l2 = Some (Hard i) -> (2 <= nlink d i)%nat.
Proof.
  intros Hne H1 H2. unfold nlink. set (m := filter _ _).
  assert (Hm : forall l, d_names d !! l = Some (Hard i) -> l ∈ dom m).
  { intros l Hl. apply elem_of_dom. exists (Hard i). by apply map_lookup_filter_Some. }
  rewrite <-size_dom. transitivity (size (list_to_set [l1; l2] : gset loc)).
  - rewrite size_list_to_set; [done|]. apply NoDup_cons; split; [set_solver|apply NoDup_singleton].
  - apply subseteq_size. intros x Hx. set_unfold in Hx. destruct Hx as [->|[->|[]]]; auto.
Qed.

Lemma triple_sys {A} (M : moment world -> Prop) (P : world -> Prop) (op : disk -> result raised A * disk)
    (Q : result raised A -> world -> Prop) :
  stable M P -> (forall w, P w -> Q (op (w_disk w)).1 (set_disk (op (w_disk w)).2 w)) ->
  (forall n t w, P w -> Q (Err (Raised n t)) w) -> triple M P (sys op) Q.
Proof.
  intros Hst Hop Hf w [|m s] Hw Hs; unfold sys, syscall.
  - specialize (Hop w Hw). by destruct (op (w_disk w)).
  - apply Forall_cons in Hs as [Hm Hs]. pose proof (Hst m w Hm Hw) as Hw1. specialize (Hop _ Hw1).
    destruct (mo_fate m); [|split; [by apply Hf|done]|]; by destruct (op (w_disk (mo_others m w))).
Qed.

(** ** Files elsewhere *)

Section outside.
Context (base l : loc) (i : nat) (data : string).
Hypothesis base_good : Forall good_part base.
Hypothesis l_outside : forall c, l <> base ++ [c].

(** The uploads directory is reached without links, and the file at [l] is
    there with its data. *)
Definition intact (w : world) : Prop :=
  linkless base (w_disk w) /\ d_names (w_disk w) !! l = Some (Hard i)
  /\ i_content <$> d_inodes (w_disk w) !! i = Some (File data).

(** Other processes may do anything that leaves the directory in place, the file
    at [l] alone, and removes none of the names of that file. *)
Definition tolerable (m : moment world) : Prop := forall w, intact w ->
  intact (mo_others m w)
  /\ forall l', d_names (w_disk w) !! l' = Some (Hard i) -> d_names (w_disk (mo_others m w)) !! l' = Some (Hard i).

(** A call under which the file stays intact, with what its result satisfies. *)
Definition spares {A} (R : A -> Prop) (m : coro world A) : Prop :=
  triple tolerable intact m (fun r w => intact w /\ forall a, r = Ok a -> R a).

Lemma intact_stable : stable tolerable intact.
Proof. intros m w Hm Hw. by apply Hm. Qed.

Lemma spares_weaken {A} (R R' : A -> Prop) m : spares R m -> (forall a, R a -> R' a) -> spares R' m.
Proof. intros H HR. eapply triple_weaken; [exact H|done|]. naive_solver. Qed.

Lemma spares_ret {A} (R : A -> Prop) a : R a -> spares R (ret a).
Proof. intros H w s Hw Hs. split; [|done]. split; [done|]. by intros ? [= <-]. Qed.

Lemma spares_throw {A} (R : A -> Prop) e : spares R (throw e).
Proof. by intros w s Hw Hs. Qed.

Lemma spares_of_result {A} (R : A -> Prop) r : (forall a, r = Ok a -> R a) -> spares R (of_result r).
Proof. by intros H w s Hw Hs. Qed.

Lemma spares_bind {A B} (R : A -> Prop) (S : B -> Prop) m k :
  spares R m -> (forall a, R a -> spares S (k a)) -> spares S (bind m k).
Proof.
  intros Hm Hk. apply (triple_bind _ _ _ _ _ (fun a w => intact w /\ R a)).
  - eapply triple_weaken; [exact Hm|done|]. intros [a|e] w [Hw Ha]; [auto|]. by split.
  - intros a w s [Hw Ha]. by apply Hk.
Qed.

Lemma spares_seq {A B} (S : B -> Prop) (m : coro world A) (k : coro world B) :
  spares (fun _ => True) m -> spares S k -> spares S (bind m (fun _ => k)).
Proof. intros Hm Hk. by eapply spares_bind; [exact Hm|]. Qed.

Lemma spares_try {A} (R : A -> Prop) m h : spares R m -> (forall e, spares R (h e)) -> spares R (try_except m h).
Proof.
  intros Hm Hh. apply (triple_try _ _ _ _ _ (fun _ w => intact w)).
  - eapply triple_weaken; [exact Hm|done|]. intros [a|e] w [Hw Ha]; [|done]. split; [done|]. auto.
  - intros e. apply Hh.
Qed.

Lemma spares_try_exception {A} (R : A -> Prop) m h :
  spares R m -> (forall n t, spares R (h n t)) -> spares R (try_exception m h).
Proof. intros Hm Hh. apply spares_try; [done|]. intros [|n t]; [apply spares_throw|apply Hh]. Qed.

Lemma spares_sys {A} (R : A -> Prop) op :
  (forall w, intact w -> intact (set_disk (op (w_disk w)).2 w) /\ forall a, (op (w_disk w)).1 = Ok a -> R a) ->
  spares R (sys op).
Proof. intros H. apply triple_sys; [apply intact_stable|exact H|done]. Qed.

(** Calls that read. *)
Lemma spares_sys_read {A} (op : disk -> result raised A * disk) :
  (forall d, (op d).2 = d) -> spares (fun _ => True) (sys op).
Proof. intros H. apply spares_sys. intros w Hw. rewrite H. by destruct w. Qed.

Lemma spares_await {A} (R : A -> Prop) (op : world -> result raised A * world) :
  (forall w, (op w).2 = w) -> (forall w a, (op w).1 = Ok a -> R a) -> spares R (await op).
Proof.
  intros Hop HR. apply triple_await; [apply intact_stable| |done|].
  - intros w Hw. specialize (Hop w). specialize (HR w). destruct (op w) as [r w']. simpl in *. by subst.
  - intros m w _. right. intros Hw. rewrite Hop. by split; (split; [exact Hw|]).
Qed.

Lemma spares_for_each {A} (body : A -> coro world unit) xs :
  (forall x, x ∈ xs -> spares (fun _ => True) (body x)) -> spares (fun _ => True) (for_each body xs).
Proof.
  induction xs as [|x xs IH]; intros H; simpl; [by apply spares_ret|].
  apply spares_seq; [apply H; by left|]. apply IH. intros y Hy. apply H. by right.
Qed.

(** Writing to another inode. *)
Lemma intact_set_data w j t : intact w -> j <> i -> intact (set_disk (set_data j t (w_disk w)) w).
Proof.
  intros (Hl & Hn & Hc) Hj. unfold set_data. repeat case_match; (split; [done|split; [done|]]); simpl; [|done..].
  by rewrite lookup_insert_ne.
Qed.

Lemma spares_truncate j : j <> i -> spares (fun _ => True) (sys (sys_ftruncate j)).
Proof. intros Hj. apply spares_sys. intros w Hw. split; [|done]. by apply intact_set_data. Qed.

Lemma spares_write_handle h t : h_ino h <> i -> spares (fun h' => h_ino h' = h_ino h) (write_handle h t).
Proof.
  intros Hh. apply spares_seq; [|by apply spares_ret].
  apply spares_sys. intros w Hw. split; [|done]. by apply intact_set_data.
Qed.

(** Removing a name in the directory. *)
Lemma intact_drop w c : intact w -> intact (set_disk (drop_name (base ++ [c]) (w_disk w)) w).
Proof.
  intros (Hl & Hn & Hc). split; [|split; [|done]]; simpl.
  - eapply linkless_ext; [exact Hl|]. intros p t _. simpl. by intros [_ ?]%lookup_delete_Some.
  - by rewrite lookup_delete_ne.
Qed.

Lemma spares_unlink c : spares (fun _ => True) (sys (sys_unlink (base ++ [c]))).
Proof.
  apply spares_sys. intros w Hw. split; [|done]. unfold sys_unlink.
  destruct (locate _ _) as [p|] eqn:E; [|by destruct w]. apply locate_in in E as ->; [|done|by apply Hw].
  repeat case_match; try by destruct w. by apply intact_drop.
Qed.

(** Changing a mode. *)
Lemma spares_chmod nofollow p mode : spares (fun _ => True) (sys (sys_chmod nofollow p mode)).
Proof.
  apply spares_sys. intros w Hw. split; [|done]. unfold sys_chmod.
  destruct ((if nofollow then locate else locate_target) (w_disk w) p) as [q|]; [|by destruct w].
  destruct (d_names (w_disk w) !! q) as [[j|]|]; [|by destruct w..].
  destruct (d_inodes (w_disk w) !! j) as [n|] eqn:En; [|by destruct w].
  destruct Hw as (Hl & Hn & Hc). split; [done|]. split; [done|]. simpl.
  destruct (decide (j = i)) as [->|]; [|by rewrite lookup_insert_ne].
  rewrite lookup_insert_eq. by rewrite En in Hc.
Qed.

(** Creating a file in the directory. *)
Lemma intact_create w c mode : intact w -> intact (set_disk (create (base ++ [c]) mode (w_disk w)).2 w).
Proof.
  intros (Hl & Hn & Hc). split; [|split]; simpl.
  - eapply linkless_ext; [exact Hl|]. intros p t Hp. simpl. by intros [[_ [=]]|[_ ?]]%lookup_insert_Some.
  - by rewrite lookup_insert_ne by done.
  - rewrite lookup_insert_ne; [done|]. apply fresh_inode. destruct (d_inodes (w_disk w) !! i); [done|]. naive_solver.
Qed.

(** Opening a destination: the file at [l] is reached only through a hard link,
    and then the open file has a second name. *)
Lemma open_entry_intact w c mode : intact w ->
  let '(r, d) := open_entry (base ++ [c]) mode (w_disk w) in
  intact (set_disk d w) /\ forall j, r = Ok j -> j = i -> d_names d !! (base ++ [c]) = Some (Hard i).
Proof.
  intros Hw. unfold open_entry. destruct (d_names (w_disk w) !! _) as [[j|t]|] eqn:E.
  - destruct (d_inodes (w_disk w) !! j) as [[[?| |[]] m]|]; simpl; (split; [by destruct w|]); naive_solver.
  - split; [by destruct w|done].
  - destruct (create _ _ _) as [j d] eqn:Ec. pose proof (intact_create w c mode Hw) as H. rewrite Ec in H.
    split; [done|]. intros j' Hj Hi. assert (Ei : fresh (dom (d_inodes (w_disk w))) = i) by (unfold create in Ec; congruence).
    exfalso. revert Ei. apply fresh_inode. destruct Hw as (_ & _ & Hc). by destruct (d_inodes (w_disk w) !! i).
Qed.

Lemma open_nofollow_intact w c mode : intact w ->
  let '(r, d) := sys_open_nofollow (base ++ [c]) mode (w_disk w) in
  intact (set_disk d w) /\ forall j, r = Ok j -> j = i -> d_names d !! (base ++ [c]) = Some (Hard i).
Proof.
  intros Hw. unfold sys_open_nofollow. destruct (locate _ _) as [p|] eqn:E; [|split; [by destruct w|done]].
  apply locate_in in E as ->; [|done|by apply Hw]. by apply open_entry_intact.
Qed.

(** The open file is [i] only while its name in the directory stands. *)
Definition held (c : string) (j : nat) (w : world) : Prop :=
  intact w /\ (j = i -> d_names (w_disk w) !! (base ++ [c]) = Some (Hard i)).

Lemma held_stable c j : stable tolerable (held c j).
Proof. intros m w Hm [Hw Hj]. destruct (Hm w Hw) as [Hw' Hl]. split; [done|]. auto. Qed.

Lemma open_held c name : triple tolerable intact (open_or_unsafe true name (sys_open_nofollow (base ++ [c]) owner_rw))
  (fun r w => match r with Ok j => held c j w | Err _ => intact w end).
Proof.
  unfold open_or_unsafe. apply (triple_try _ _ _ _ _ (fun _ => intact)).
  - apply triple_sys; [apply intact_stable| |done]. intros w Hw. pose proof (open_nofollow_intact w c owner_rw Hw) as H.
    destruct (sys_open_nofollow _ _ _) as [[j|e] d]; simpl; [|apply H]. destruct H as [H1 H2]. split; [done|]. by apply H2.
  - intros e. case_bool_decide; by intros w s Hw Hs.
Qed.

Lemma claim_held c j name dest : triple tolerable (held c j) (claim_open_file (fun n => (n =? 1)%nat) name dest j)
  (fun r w => intact w /\ forall a, r = Ok a -> a.1 = dest /\ h_ino a.2 <> i).
Proof.
  unfold claim_open_file.
  apply (triple_bind _ _ _ _ _ (fun st w => intact w /\ (st_nlink st = 1%nat -> j <> i))).
  - apply triple_sys; [apply held_stable| |].
    + intros w [Hw Hj]. unfold sys_fstat. simpl. destruct (d_inodes (w_disk w) !! j) as [n|]; [|by destruct w].
      split; [by destruct w|]. simpl. intros H1 ->. specialize (Hj eq_refl).
      pose proof (nlink_two _ i _ _ (l_outside c) (proj1 (proj2 Hw)) Hj). lia.
    + intros n t w [Hw _]. done.
  - intros st. destruct (negb (st_reg st) || negb (st_nlink st =? 1)%nat) eqn:E.
    + intros w s [Hw _] Hs. done.
    + apply orb_false_iff in E as [_ E]. apply negb_false_iff, Nat.eqb_eq in E.
      intros w s [Hw Hj] Hs. revert w s Hw Hs. apply spares_seq; [apply spares_truncate; auto|]. apply spares_ret. auto.
Qed.

(** A written path is an entry of the directory. *)
Definition in_base (p : loc) : Prop := exists c, p = base ++ [c].

Lemma spares_lstat_or_none dest : spares (fun _ => True) (lstat_or_none dest).
Proof.
  apply spares_try; [|intros e; case_match; [by apply spares_ret|apply spares_throw]].
  eapply spares_bind; [by apply spares_sys_read|]. intros st _. by apply spares_ret.
Qed.

Lemma spares_validate p b : spares (fun _ => True) (validate_path_traversal p b).
Proof.
  apply spares_try; [|intros [|n t]; [apply spares_throw|]; repeat case_match; apply spares_throw].
  eapply spares_bind; [by apply spares_sys_read|]. intros q _.
  eapply spares_bind; [by apply spares_sys_read|]. intros r _. case_bool_decide; [by apply spares_ret|apply spares_throw].
Qed.

Lemma spares_open name :
  spares (fun a => in_base a.1 /\ h_ino a.2 <> i) (open_upload_file_no_symlink true base name).
Proof.
  eapply spares_bind; [by apply (spares_of_result (fun _ => True))|]. intros c _.
  eapply spares_bind; [apply spares_lstat_or_none|]. intros st _.
  apply spares_seq; [destruct st as [st|]; simpl; [case_match|]; by first [apply spares_ret|apply spares_throw]|].
  apply spares_seq; [apply spares_validate|].
  apply (triple_bind _ _ _ _ _ (held c)).
  - eapply triple_weaken; [apply open_held|done|]. by intros [].
  - intros j. eapply triple_weaken; [apply claim_held|done|]. intros r w [Hw Ha]. split; [done|].
    intros a Hr. apply Ha in Hr as [-> ?]. split; [by exists c|done].
Qed.

Lemma spares_chunks fuel limits name h rest fsz total :
  h_ino h <> i -> spares (fun _ => True) (write_chunks fuel limits name h rest fsz total).
Proof.
  revert h rest fsz total. induction fuel as [|fuel IH]; intros h rest fsz total Hh;
    unfold write_chunks; fold write_chunks; [apply spares_throw|].
  eapply spares_bind; [apply (spares_await (fun _ => True)); [reflexivity|intros; exact I]|]. intros chunk _.
  case_match; [by apply spares_ret|]. case_match; [apply spares_throw|]. case_match; [apply spares_throw|].
  eapply spares_bind; [by apply spares_write_handle|]. intros h' Hh'. apply IH. by rewrite Hh'.
Qed.

Lemma spares_close : spares (fun _ => True) (sys sys_close).
Proof. by apply spares_sys_read. Qed.

Lemma spares_unlink_ok p : in_base p -> spares (fun _ => True) (unlink_missing_ok p).
Proof.
  intros [c ->]. apply spares_try; [apply spares_unlink|]. intros e. case_match; [by apply spares_ret|apply spares_throw].
Qed.

Lemma spares_write_upload body name limits total :
  spares (fun r => in_base r.1.1) (write_upload_file_with_limits true body base name limits total).
Proof.
  eapply spares_bind; [apply spares_open|]. intros a [Hd Hh].
  eapply spares_bind.
  - apply spares_try_exception; [by apply spares_chunks|]. intros n t.
    apply spares_seq; [apply spares_close|]. apply spares_seq; [by apply spares_unlink_ok|]. apply spares_throw.
  - intros sizes _. apply spares_seq; [apply spares_close|]. by apply spares_ret.
Qed.

Lemma spares_cleanup ps : Forall in_base ps -> spares (fun _ => True) (cleanup_uploaded_paths ps).
Proof.
  induction 1 as [|p ps [c ->] _ IH]; simpl; [by apply spares_ret|]. apply spares_seq; [|done].
  apply spares_try_exception; [apply spares_unlink|]. intros. by apply spares_ret.
Qed.

Lemma spares_add_mode nofollow bits p : spares (fun _ => True) (add_mode nofollow bits p).
Proof.
  eapply spares_bind; [by apply spares_sys_read|]. intros st _. case_match; [by apply spares_ret|apply spares_chmod].
Qed.

Lemma spares_update_sandbox v t : spares (fun _ => True) (update_sandbox v t).
Proof.
  intros w [|m s] Hw Hs; simpl; [done|]. apply Forall_cons in Hs as [Hm Hs].
  pose proof (intact_stable _ _ Hm Hw). unfold update_sandbox, syscall. by destruct (mo_fate m).
Qed.

Context (cv : converters) (dp : deployment) (cfg : uploads_config).
Hypothesis posix : dp_posix dp = true.
Hypothesis no_conversion : auto_convert_documents_enabled cfg = false.

Lemma spares_write_or_skip name filename body st : Forall in_base (us_written st) ->
  spares (fun o => match o with Some r => in_base r.1.1 | None => True end) (write_or_skip dp cfg base name filename body st).
Proof.
  intros Hw. unfold write_or_skip. rewrite posix. apply spares_try_exception.
  - eapply spares_bind; [apply spares_write_upload|]. intros r Hr. by apply spares_ret.
  - intros n t. assert (Hc : spares (fun _ => True) (cleanup_uploaded_paths (rev (us_written st)))).
    { by apply spares_cleanup, List.Forall_rev. }
    case_match; [by apply spares_seq, spares_throw|]. case_match; [by apply spares_ret|]. by apply spares_seq, spares_throw.
Qed.

Lemma spares_upload_one thread_id sbx st file : Forall in_base (us_written st) ->
  spares (fun st' => Forall in_base (us_written st')) (upload_one cv dp cfg thread_id base sbx st file).
Proof.
  intros Hw. unfold upload_one. destruct (uf_filename file) as [[|a f]|]; [by apply spares_ret| |by apply spares_ret].
  destruct (normalize_filename _) as [name|]; [|by apply spares_ret].
  destruct (claim_unique_filename _ _) as [[c seen]|]; [|apply spares_throw].
  eapply spares_bind; [by apply spares_write_or_skip|]. intros [[[p fsz] total]|] Hp; [|by apply spares_ret].
  unfold maybe_convert. rewrite no_conversion. simpl. apply spares_bind with (R := fun md => md = None); [by apply spares_ret|].
  intros ? ->. apply spares_ret. simpl. rewrite app_nil_r. apply Forall_app. by repeat constructor.
Qed.

Lemma spares_upload_all thread_id sbx files st : Forall in_base (us_written st) ->
  spares (fun st' => Forall in_base (us_written st')) (upload_all cv dp cfg thread_id base sbx st files).
Proof.
  revert st. induction files as [|f fs IH]; intros st Hw; simpl; [by apply spares_ret|].
  eapply spares_bind; [by apply spares_upload_one|]. intros st' Hw'. by apply IH.
Qed.

Lemma mkdir_parents_intact parts here d sbx :
  intact (mk_world d sbx) -> intact (mk_world (mkdir_parents here parts d).2 sbx).
Proof.
  apply (mkdir_parents_inv (fun d => intact (mk_world d sbx))). clear here parts d. intros d p Hp (Hl & Hn & Hc).
  split; [by apply linkless_add_dir|]. split; simpl in *.
  - rewrite lookup_insert_ne; [done|]. intros <-. by pose proof (eq_trans (eq_sym Hn) Hp).
  - rewrite lookup_insert_ne; [done|]. apply fresh_inode. destruct (d_inodes d !! i); [done|]. naive_solver.
Qed.

Lemma spares_makedirs : spares (fun _ => True) (sys (sys_makedirs base)).
Proof.
  apply spares_sys. intros [d sbx] Hw. split; [|done]. unfold sys_makedirs. repeat case_match; [done..|].
  by apply mkdir_parents_intact.
Qed.

Lemma spares_upload_files base_dir thread_id user dir files :
  get_uploads_dir base_dir thread_id user = Ok dir -> pp_parts dir = base ->
  spares (fun _ => True) (upload_files cv dp cfg base_dir thread_id user files).
Proof.
  intros Hdir Hb. unfold upload_files, ensure_uploads_dir. rewrite Hdir.
  destruct files as [|f fs]; [apply spares_throw|]. case_match; [apply spares_throw|].
  apply spares_bind with (R := fun p => p = base).
  { apply spares_try_exception; [|intros n t; case_match; apply spares_throw].
    eapply spares_bind; [by apply (spares_of_result (fun p => p = dir)); intros ? [= <-]|]. intros ? ->. rewrite Hb.
    apply spares_seq; [apply spares_makedirs|by apply spares_ret]. }
  intros ? ->. eapply spares_bind; [by apply (spares_of_result (fun _ => True))|]. intros sbx _.
  case_match; [apply spares_throw|]. eapply spares_bind; [by apply spares_upload_all|]. intros st Hst.
  apply spares_seq; [apply spares_for_each; intros; apply spares_add_mode|].
  apply spares_seq; [|by apply spares_ret]. case_match; [by apply spares_ret|].
  apply spares_for_each. intros t _. apply spares_seq; [apply spares_add_mode|].
  eapply spares_bind; [by apply spares_sys_read|]. intros bytes _. apply spares_update_sandbox.
Qed.
End outside.

Lemma uploads_dir_good base_dir thread_id user dir :
  Forall good_part (pp_parts base_dir) -> get_uploads_dir base_dir thread_id user = Ok dir -> Forall good_part (pp_parts dir).
Proof.
  intros Hg H. unfold get_uploads_dir in H. apply result_bind_Ok in H as ([] & _ & H).
  destruct (sandbox_uploads_dir _ _ _) as [p|] eqn:E; [|done]. injection H as <-.
  pose proof E as E'. unfold sandbox_uploads_dir in E'. apply result_bind_Ok in E' as (d & Ed & _).
  destruct (thread_subdirs _ _ _ _ sandbox_uploads_dir Ed) as (rest & Hr & Hrest); [set_solver|].
  destruct (thread_dir_Ok _ _ _ _ Ed) as (Ht & Hu & ->). rewrite E in Hr. injection Hr as ->. simpl.
  apply Forall_app. split; [|done]. apply Forall_app. split; [done|].
  repeat (apply Forall_cons; split; [first [done|by apply literal_good]|]). by apply Forall_nil.
Qed.

(** (C29) Whatever the sandbox does in the uploads directory between the system
    calls of an upload request (symbolic links, hard links, replaced files), a
    file outside the directory keeps its name and its data, as long as the
    directory itself is not replaced by a link, none of the names of the file is
    removed meanwhile, and documents are not converted. *)
Theorem uploads_spare_outside_files cv dp cfg base_dir thread_id user dir files l i data w s :
  get_uploads_dir base_dir thread_id user = Ok dir ->
  Forall good_part (pp_parts base_dir) ->
  (forall c, l <> pp_parts dir ++ [c]) ->
  dp_posix dp = true -> auto_convert_documents_enabled cfg = false ->
  intact (pp_parts dir) l i data w -> Forall (tolerable (pp_parts dir) l i data) s ->
  let '(_, w', _) := upload_files cv dp cfg base_dir thread_id user files w s in
  d_names (w_disk w') !! l = Some (Hard i) /\ i_content <$> d_inodes (w_disk w') !! i = Some (File data).
Proof.
  intros Hdir Hg Hl Hp Hc Hw Hs.
  pose proof (spares_upload_files (pp_parts dir) l i data (uploads_dir_good _ _ _ _ Hg Hdir) Hl cv dp cfg Hp Hc
    base_dir thread_id user dir files Hdir eq_refl w s Hw Hs) as H.
  destruct (upload_files _ _ _ _ _ _ _ w s) as [[r w'] s']. apply H.
Qed.

(** ** The limits of a request *)

Lemma chunk_size_pos : (0 < Z.to_nat UPLOAD_CHUNK_SIZE)%nat.
Proof. unfold UPLOAD_CHUNK_SIZE. lia. Qed.

#[local] Opaque UPLOAD_CHUNK_SIZE.

Lemma str_take_drop n s : str_take n s +:+ str_drop n s = s.
Proof. revert s. induction n as [|n IH]; intros [|c s]; simpl; try done. rewrite str_app_cons. f_equal. apply IH. Qed.

Lemma str_take_empty n s : (0 < n)%nat -> str_take n s = "" -> s = "".
Proof. destruct n, s; try done; lia. Qed.

Lemma str_drop_shorter n s : (0 < n)%nat -> s <> "" -> (String.length (str_drop n s) < String.length s)%nat.
Proof.
  intros Hn Hs. destruct n as [|n]; [lia|]. destruct s as [|c s]; [done|]. clear. simpl.
  pose proof (f_equal String.length (str_take_drop n s)) as H. rewrite str_length_app in H. lia.
Qed.

(** Any fuel beyond the length of the text gives the same run: the bound on the
    loop is never what ends it. *)
Lemma write_chunks_enough fuel fuel' limits name h rest fsz total w s :
  (String.length rest < fuel)%nat -> (String.length rest < fuel')%nat ->
  write_chunks fuel limits name h rest fsz total w s = write_chunks fuel' limits name h rest fsz total w s.
Proof.
  revert fuel' h rest fsz total w s. induction fuel as [|fuel IH]; intros [|fuel'] h rest fsz total w s H H'; try lia.
  unfold write_chunks; fold write_chunks. unfold bind at 1 3.
  destruct (await _ w s) as [[[chunk|e] w1] s1] eqn:E; [|done]. apply await_Ok in E as [w2 E]. injection E as Hc _.
  destruct (String.eqb_spec chunk "") as [|Hne]; [done|]. case_match; [done|]. case_match; [done|].
  assert (Hlt : (String.length (str_drop (Z.to_nat UPLOAD_CHUNK_SIZE) rest) < String.length rest)%nat).
  { apply str_drop_shorter; [apply chunk_size_pos|]. intros ->. apply Hne. rewrite <-Hc. by destruct (Z.to_nat UPLOAD_CHUNK_SIZE). }
  unfold bind at 1 2. destruct (write_handle _ _ _ _) as [[[h'|e] w3] s3]; [|done]. apply IH; lia.
Qed.

(** The sizes are those of what was read, and within the limits. *)
Lemma write_chunks_sizes fuel limits name h rest fsz total w s r w' s' :
  write_chunks fuel limits name h rest fsz total w s = (Ok r, w', s') ->
  r = (fsz + Z.of_nat (String.length rest), total + Z.of_nat (String.length rest))%Z
  /\ (rest = "" \/ r.1 <= max_file_size limits /\ r.2 <= max_total_size limits)%Z.
Proof.
  revert h rest fsz total w s. induction fuel as [|fuel IH]; intros h rest fsz total w s;
    unfold write_chunks; fold write_chunks; [done|].
  intros (chunk & w1 & s1 & Hc & H)%bind_Ok. apply await_Ok in Hc as (w2 & Hc). injection Hc as Hc _.
  pose proof (str_take_drop (Z.to_nat UPLOAD_CHUNK_SIZE) rest) as Hsplit. rewrite Hc in Hsplit.
  destruct (String.eqb_spec chunk "") as [->|Hne].
  - injection H as <- _ _. apply str_take_empty in Hc; [|apply chunk_size_pos]. subst rest. simpl. split; [f_equal; lia|auto].
  - destruct (Z.ltb_spec (max_file_size limits) (fsz + Z.of_nat (String.length chunk))); [done|].
    destruct (Z.ltb_spec (max_total_size limits) (total + Z.of_nat (String.length chunk))); [done|].
    apply bind_Ok in H as (h' & w3 & s3 & _ & H). apply IH in H as [-> Hr].
    apply (f_equal String.length) in Hsplit. rewrite str_length_app in Hsplit. simpl in *.
    split; [f_equal; lia|]. right. destruct Hr as [Hr|Hr]; [rewrite Hr in *; simpl in *|]; lia.
Qed.

Lemma write_upload_sizes posix body dir name limits total w s r w' s' :
  write_upload_file_with_limits posix body dir name limits total w s = (Ok r, w', s') ->
  (r.1.2 = Z.of_nat (String.length body) /\ r.2 = total + Z.of_nat (String.length body)
   /\ (body = "" \/ r.1.2 <= max_file_size limits /\ r.2 <= max_total_size limits))%Z.
Proof.
  intros (opened & w1 & s1 & _ & H)%bind_Ok. apply bind_Ok in H as (sizes & w2 & s2 & H & Hr).
  apply bind_Ok in Hr as (? & ? & ? & _ & [= <- _ _]).
  apply try_exception_Ok in H as [H|(n & t & w3 & s3 & _ & H)].
  - apply write_chunks_sizes in H as [-> H]. simpl in *. split; [lia|]. split; [lia|]. exact H.
  - apply bind_Ok in H as (? & ? & ? & _ & H). by apply bind_Ok in H as (? & ? & ? & _ & H).
Qed.

Lemma limit_pos cfg key d legacy : (0 < d -> 0 < get_upload_limit cfg key d legacy)%Z.
Proof. unfold get_upload_limit. intros H. repeat case_match; try done; by apply Z.leb_gt. Qed.

(** What the lists of a request satisfy. *)
Definition within (limits : upload_limits) (n : nat) (st : upload_state) : Prop :=
  let names := (fi_filename <$> us_uploaded st) ++ us_skipped st in
  NoDup names /\ (forall c, c ∈ names -> c ∈ us_seen st) /\ (length names <= n)%nat
  /\ Forall (fun f => 0 <= fi_size f <= max_file_size limits)%Z (us_uploaded st)
  /\ us_total st = sumZ (fi_size <$> us_uploaded st) /\ (us_total st <= max_total_size limits)%Z.

Lemma within_S limits n st : within limits n st -> within limits (S n) st.
Proof. unfold within. naive_solver lia. Qed.

Lemma write_or_skip_Ok dp cfg dir name filename body st w s o w' s' :
  write_or_skip dp cfg dir name filename body st w s = (Ok o, w', s') ->
  match o with
  | Some r => write_upload_file_with_limits (dp_posix dp) body dir name (get_upload_limits cfg) (us_total st) w s = (Ok r, w', s')
  | None => exists t, write_upload_file_with_limits (dp_posix dp) body dir name (get_upload_limits cfg) (us_total st) w s
                      = (Err (Raised "UnsafeUploadPathError" t), w', s')
  end.
Proof.
  intros [H|(n & t & w1 & s1 & Hm & H)]%try_exception_Ok.
  - by apply bind_Ok in H as (r & w1 & s1 & H & [= <- -> ->]).
  - revert H. case_match; [by intros (? & ? & ? & _ & ?)%bind_Ok|].
    destruct (String.eqb_spec n "UnsafeUploadPathError") as [->|]; [|by intros (? & ? & ? & _ & ?)%bind_Ok].
    intros [= <- -> ->]. exists t. revert Hm. unfold bind.
    destruct (write_upload_file_with_limits _ _ _ _ _ _ _ _) as [[[a|e] w2] s2]; [done|]. by intros [= -> -> ->].
Qed.


Lemma upload_one_Ok cv dp cfg thread_id dir sbx st file w s st' w' s' :
  upload_one cv dp cfg thread_id dir sbx st file w s = (Ok st', w', s') ->
  (st' = st /\ w' = w /\ s' = s) \/
  exists filename name c seen w1 s1 o,
    uf_filename file = Some filename /\ normalize_filename filename = Ok name
    /\ claim_unique_filename name (us_seen st) = Some (c, seen)
    /\ write_or_skip dp cfg dir c filename (uf_body file)
         (mk_state (us_uploaded st) (us_written st) (us_sync st) (us_skipped st) (us_total st) seen) w s = (Ok o, w1, s1)
    /\ match o with
       | None => us_uploaded st' = us_uploaded st /\ us_written st' = us_written st
           /\ us_skipped st' = us_skipped st ++ [c] /\ us_total st' = us_total st /\ us_seen st' = seen /\ w' = w1 /\ s' = s1
       | Some r => exists md info, maybe_convert cv cfg r.1.1 w1 s1 = (Ok md, w', s')
           /\ us_uploaded st' = us_uploaded st ++ [info] /\ us_written st' = (us_written st ++ [r.1.1]) ++ option_list md
           /\ us_skipped st' = us_skipped st
           /\ fi_filename info = c /\ fi_size info = r.1.2 /\ us_total st' = r.2 /\ us_seen st' = seen
       end.
Proof.
  unfold upload_one. destruct (uf_filename file) as [[|a f]|]; [by intros [= -> -> ->]; left| |by intros [= -> -> ->]; left].
  destruct (normalize_filename _) as [name|] eqn:En; [|by intros [= -> -> ->]; left].
  destruct (claim_unique_filename _ _) as [[c seen]|] eqn:Ec; [|done].
  intros (o & w1 & s1 & Ho & H)%bind_Ok. right. exists (String a f), name, c, seen, w1, s1, o.
  split_and!; [done..|]. destruct o as [[[p fsz] total]|].
  - apply bind_Ok in H as (md & w2 & s2 & Hmd & H). injection H as <- -> ->. exists md. eexists. by split_and!.
  - injection H as <- -> ->. by split_and!.
Qed.

Lemma upload_one_within cv dp cfg thread_id dir sbx n st file w s st' w' s' :
  upload_one cv dp cfg thread_id dir sbx st file w s = (Ok st', w', s') ->
  within (get_upload_limits cfg) n st -> within (get_upload_limits cfg) (S n) st'.
Proof.
  intros H Hst. apply upload_one_Ok in H as [(-> & _ & _)|(filename & name & c & seen & w1 & s1 & o & _ & _ & Hc & Ho & H)];
    [by apply within_S|]. apply claim_fresh in Hc as [Hc ->]. destruct Hst as (Hnd & Hseen & Hlen & Hsz & Htot & Hmax).
  assert (Hnew : c ∉ (fi_filename <$> us_uploaded st) ++ us_skipped st) by (intros Hin; by apply Hc, Hseen).
  assert (Hpos : (0 < max_file_size (get_upload_limits cfg))%Z) by (by apply limit_pos).
  destruct o as [r|].
  - destruct H as (md & info & _ & Hu & _ & Hk & <- & Hs & Ht & Hse). apply write_or_skip_Ok, write_upload_sizes in Ho.
    simpl in Ho. unfold within. rewrite Hu, Hk, Hse, !fmap_app. simpl in *.
    rewrite length_app in *. rewrite length_app. simpl.
    assert (Hp : ((fi_filename <$> us_uploaded st) ++ [fi_filename info]) ++ us_skipped st
                 ≡ₚ fi_filename info :: (fi_filename <$> us_uploaded st) ++ us_skipped st) by solve_Permutation.
    split_and!.
    + rewrite Hp. by apply NoDup_cons.
    + intros x. rewrite Hp. rewrite elem_of_cons. set_solver.
    + lia.
    + apply Forall_app. split; [done|]. apply Forall_singleton. destruct Ho as (? & ? & [Hb|]); [|lia].
      rewrite Hb in *. simpl in *. lia.
    + rewrite sumZ_app, sumZ_cons, sumZ_nil. lia.
    + destruct Ho as (? & ? & [Hb|]); [|lia]. rewrite Hb in *. simpl in *. lia.
  - destruct H as (Hu & _ & Hk & Ht & Hse & _ & _). unfold within. rewrite Hu, Hk, Ht, Hse, app_assoc, length_app. simpl.
    split_and!; [|set_solver|lia|done..]. apply NoDup_app. split_and!; [done| |apply NoDup_singleton]. set_solver.
Qed.

Lemma upload_all_within cv dp cfg thread_id dir sbx files n st w s st' w' s' :
  upload_all cv dp cfg thread_id dir sbx st files w s = (Ok st', w', s') ->
  within (get_upload_limits cfg) n st -> within (get_upload_limits cfg) (n + length files) st'.
Proof.
  revert n st w s. induction files as [|f fs IH]; intros n st w s; simpl.
  - intros [= -> _ _]. by rewrite Nat.add_0_r.
  - intros (st1 & w1 & s1 & H1 & H)%bind_Ok Hst. rewrite Nat.add_succ_r. apply (IH (S n)) in H; [done|].
    by eapply upload_one_within.
Qed.

Lemma upload_files_Ok cv dp cfg base_dir thread_id user files w s r w' s' :
  upload_files cv dp cfg base_dir thread_id user files w s = (Ok r, w', s') ->
  exists dir st w1 s1 w2 s2,
    get_uploads_dir base_dir thread_id user = Ok dir /\ (Z.of_nat (length files) <= max_files (get_upload_limits cfg))%Z
    /\ sys (sys_makedirs (pp_parts dir)) w s = (Ok tt, w1, s1)
    /\ upload_all cv dp cfg thread_id (pp_parts dir) dir empty_state files w1 s1 = (Ok st, w2, s2)
    /\ (for_each (make_file_sandbox_readable (dp_chmod_nofollow dp)) (us_written st) ;;
        if dp_mounts dp then ret tt else for_each (sync_one dp) (us_sync st)) w2 s2 = (Ok tt, w', s')
    /\ r = response_of st.
Proof.
  unfold upload_files, ensure_uploads_dir. destruct files as [|f fs]; [done|].
  destruct (Z.ltb_spec (max_files (get_upload_limits cfg)) (Z.of_nat (length (f :: fs)))); [done|].
  destruct (get_uploads_dir _ _ _) as [dir|e].
  - intros (p & w1 & s1 & Hp & H1)%bind_Ok. apply try_exception_Ok in Hp as [Hp|(n & t & ? & ? & _ & Hp)];
      [|by destruct (String.eqb n "ValueError")].
    apply bind_Ok in Hp as (d & ? & ? & [= <- <- <-] & Hp). apply bind_Ok in Hp as ([] & ? & ? & Hm & [= <- -> ->]).
    apply bind_Ok in H1 as (d & ? & ? & [= <- <- <-] & H1). revert H1. case_match; [done|].
    intros (st & w2 & s2 & Hall & H1)%bind_Ok. apply bind_Ok in H1 as ([] & w3 & s3 & H3 & H1).
    apply bind_Ok in H1 as ([] & w4 & s4 & H4 & [= <- -> ->]).
    exists dir, st, w1, s1, w2, s2. split_and!; try done. unfold bind. by rewrite H3, H4.
  - intros (p & w1 & s1 & Hp & _)%bind_Ok. apply try_exception_Ok in Hp as [Hp|(n & t & ? & ? & _ & Hp)];
      [done|by destruct (String.eqb n "ValueError")].
Qed.

(** Whatever happens during an upload request, a response of success stays
    within the configured limits: at most [max_files] files, each at most
    [max_file_size] bytes, together at most [max_total_size]; and no two of the
    files it reports as stored or skipped share a name. *)
Theorem upload_response_within_limits cv dp cfg base_dir thread_id user files w s r w' s' :
  upload_files cv dp cfg base_dir thread_id user files w s = (Ok r, w', s') ->
  let limits := get_upload_limits cfg in
  (Z.of_nat (length (rs_files r) + length (rs_skipped_files r)) <= max_files limits)%Z
  /\ Forall (fun f => 0 <= fi_size f <= max_file_size limits)%Z (rs_files r)
  /\ (sumZ (fi_size <$> rs_files r) <= max_total_size limits)%Z
  /\ NoDup ((fi_filename <$> rs_files r) ++ rs_skipped_files r)
  /\ (rs_success r = true <-> rs_skipped_files r = []).
Proof.
  intros (dir & st & w1 & s1 & w2 & s2 & _ & Hn & _ & Hall & _ & ->)%upload_files_Ok. simpl.
  apply (upload_all_within _ _ _ _ _ _ _ 0) in Hall as (Hnd & _ & Hlen & Hsz & Ht & Hmax).
  - rewrite length_app, length_fmap in Hlen. simpl in *. split_and!; [lia|done|lia|done|by destruct (us_skipped st)].
  - split_and!; simpl; try done; try apply NoDup_nil_2; [set_solver|]. apply Z.lt_le_incl. by apply limit_pos.
Qed.
