(* ===== verification/UploadsStored.v ===== *)
(** * Uploads: what an undisturbed request stores

    Without other processes and without conversion, a successful request leaves
    every reported file with exactly the bytes of its part; and the behaviours of
    the endpoint that lose or leak data, each on a concrete request. *)
From S2P Require Import Prelude Idempotency.
From S2P Require Import PyString PyPath Paths PyAsync Disk Uploads UploadsProps.
From stdpp Require Import gmap pretty.
From Stdlib Require Import Ascii.
Local Open Scope string_scope.
Local Open Scope list_scope.
Local Open Scope coro_scope.

(** ** Undisturbed calls *)

Lemma sys_nil {A} (op : disk -> result raised A * disk) w :
  sys op w [] = ((op (w_disk w)).1, set_disk (op (w_disk w)).2 w, []).
Proof. unfold sys, syscall. by destruct (op (w_disk w)). Qed.

(** Calls that leave the world as it is. *)
Definition quiet {A} (m : coro world A) : Prop := forall w, exists r, m w [] = (r, w, []).

Lemma quiet_ret {A} (a : A) : quiet (ret a).
Proof. intros w. by eexists. Qed.

Lemma quiet_throw {A} e : quiet (throw (A := A) e).
Proof. intros w. by eexists. Qed.

Lemma quiet_sys {A} (op : disk -> result raised A * disk) : (forall d, (op d).2 = d) -> quiet (sys op).
Proof. intros H w. rewrite sys_nil, H. eexists. by destruct w. Qed.

Lemma quiet_bind {A B} (m : coro world A) (k : A -> coro world B) : quiet m -> (forall a, quiet (k a)) -> quiet (bind m k).
Proof. intros Hm Hk w. unfold bind. destruct (Hm w) as [[a|e] ->]; [apply Hk|by eexists]. Qed.

Lemma quiet_try {A} (m : coro world A) h : quiet m -> (forall e, quiet (h e)) -> quiet (try_except m h).
Proof. intros Hm Hh w. unfold try_except. destruct (Hm w) as [[a|e] ->]; [by eexists|apply Hh]. Qed.

#[local] Hint Resolve quiet_ret quiet_throw quiet_sys quiet_bind quiet_try : uploads.

Lemma quiet_lstat dest : quiet (lstat_or_none dest).
Proof. apply quiet_try; [by eauto with uploads|]. intros e. case_match; auto with uploads. Qed.

Lemma quiet_refuse st name : quiet (refuse_irregular st name).
Proof. destruct st as [st|]; simpl; [case_match|]; auto with uploads. Qed.

Lemma quiet_validate p b : quiet (validate_path_traversal p b).
Proof.
  apply quiet_try; [|intros [|n t]; repeat case_match; auto with uploads].
  apply quiet_bind; [by apply quiet_sys|]. intros q. apply quiet_bind; [by apply quiet_sys|].
  intros r. case_bool_decide; auto with uploads.
Qed.

(** A quiet call before others: they run from the same world, or not at all. *)
Lemma bind_quiet {A B} (m : coro world A) (k : A -> coro world B) w :
  quiet m -> (exists a, bind m k w [] = k a w []) \/ exists e, bind m k w [] = (Err e, w, []).
Proof. intros Hm. unfold bind. destruct (Hm w) as [[a|e] ->]; eauto. Qed.

(** ** Frames *)

(** Only the name [p], and data no other name leads to, may differ. *)
Definition frame (p : loc) (d d' : disk) : Prop :=
  (forall q, q <> p -> d_names d' !! q = d_names d !! q)
  /\ forall q j, q <> p -> d_names d !! q = Some (Hard j) -> is_Some (d_inodes d !! j) -> d_inodes d' !! j = d_inodes d !! j.

(** The name leads to a regular file with these bytes. *)
Definition holds (d : disk) (p : loc) (body : string) : Prop :=
  exists j, d_names d !! p = Some (Hard j) /\ i_content <$> d_inodes d !! j = Some (File body).

Lemma frame_refl p d : frame p d d.
Proof. done. Qed.

Lemma frame_trans p d1 d2 d3 : frame p d1 d2 -> frame p d2 d3 -> frame p d1 d3.
Proof.
  intros [N1 I1] [N2 I2]. split.
  - intros q Hq. by rewrite N2, N1.
  - intros q j Hq Hj Hs. rewrite (I2 q j), (I1 q j); [done..| |by rewrite (I1 q j)]. by rewrite N1.
Qed.

Lemma holds_frame p q d d' body : frame p d d' -> q <> p -> holds d q body -> holds d' q body.
Proof.
  intros [N I] Hq (j & Hj & Hc). exists j. rewrite N by done. split; [done|].
  rewrite (I q j); [done..|]. by destruct (d_inodes d !! j).
Qed.

Lemma linkless_frame base c d d' : frame (base ++ [c]) d d' -> linkless base d -> linkless base d'.
Proof.
  intros [N _] Hl. eapply linkless_ext; [exact Hl|]. intros p t Hp. rewrite N; [done|]. intros ->.
  by apply snoc_not_prefix in Hp.
Qed.

(** Changing the data of the only file a name leads to. *)
Lemma frame_set_data p j t d : nlink d j = 1%nat -> d_names d !! p = Some (Hard j) -> frame p d (set_data j t d).
Proof.
  intros H1 Hp. unfold set_data. destruct (d_inodes d !! j) as [[[]]|]; try apply frame_refl. split; [done|].
  intros q k Hq Hk _. simpl. rewrite lookup_insert_ne; [done|]. intros <-.
  pose proof (nlink_two _ _ _ _ Hq Hk Hp). lia.
Qed.

Lemma nlink_set_data j k t d : nlink (set_data k t d) j = nlink d j.
Proof. unfold set_data. by destruct (d_inodes d !! k) as [[[]]|]. Qed.

Lemma names_set_data k t d : d_names (set_data k t d) = d_names d.
Proof. unfold set_data. by destruct (d_inodes d !! k) as [[[]]|]. Qed.

(** The open file of a request: the only file of its name, with what has been
    written so far. *)
Definition writing (p : loc) (h : handle) (sofar : string) (d : disk) : Prop :=
  d_names d !! p = Some (Hard (h_ino h)) /\ nlink d (h_ino h) = 1%nat
  /\ i_content <$> d_inodes d !! h_ino h = Some (File sofar) /\ h_pos h = String.length sofar.

Lemma str_drop_ge n s : (String.length s <= n)%nat -> str_drop n s = "".
Proof. revert s. induction n as [|n IH]; intros [|c s]; simpl; try done; [lia|]. intros H. apply IH. lia. Qed.

Lemma write_at_end sofar chunk : write_at (String.length sofar) chunk sofar = sofar +:+ chunk.
Proof.
  unfold write_at. rewrite str_take_length, Nat.sub_diag, str_drop_ge by lia. simpl. by rewrite str_app_nil_r.
Qed.

Lemma writing_write p h sofar chunk d : writing p h sofar d ->
  let d' := set_data (h_ino h) (write_at (h_pos h) chunk (file_data d (h_ino h))) d in
  frame p d d' /\ writing p (mk_handle (h_ino h) (h_pos h + String.length chunk)) (sofar +:+ chunk) d'.
Proof.
  intros (Hn & H1 & Hc & Hpos) d'. split; [by apply frame_set_data|]. unfold writing. simpl.
  unfold d'. rewrite nlink_set_data, names_set_data. split; [done|]. split; [done|].
  unfold file_data, set_data in *. destruct (d_inodes d !! h_ino h) as [[[t| |] m]|]; try done.
  injection Hc as ->. simpl. rewrite lookup_insert_eq. rewrite Hpos, write_at_end, str_length_app. done.
Qed.

(** ** Opening *)

Lemma open_entry_frame p mode d :
  frame p d (open_entry p mode d).2 /\ forall j, (open_entry p mode d).1 = Ok j -> d_names (open_entry p mode d).2 !! p = Some (Hard j).
Proof.
  unfold open_entry. destruct (d_names d !! p) as [[j|t]|] eqn:E.
  - destruct (i_content <$> d_inodes d !! j) as [[]|]; simpl; try case_match; (split; [apply frame_refl|]); naive_solver.
  - split; [apply frame_refl|done].
  - simpl. split; [|intros j [= <-]; by rewrite lookup_insert_eq]. split; simpl.
    + intros q Hq. by rewrite lookup_insert_ne.
    + intros q j _ _ Hj. rewrite lookup_insert_ne; [done|]. by apply fresh_inode.
Qed.

Lemma claim_writing p name j w r w' s' :
  claim_open_file (fun n => (n =? 1)%nat) name p j w [] = (r, w', s') -> d_names (w_disk w) !! p = Some (Hard j) ->
  s' = [] /\ frame p (w_disk w) (w_disk w') /\ forall a, r = Ok a -> a.1 = p /\ writing p a.2 "" (w_disk w').
Proof.
  unfold claim_open_file, bind. rewrite sys_nil. unfold sys_fstat. simpl.
  destruct (d_inodes (w_disk w) !! j) as [[t m]|] eqn:E; simpl; [|intros [= <- <- <-] _; split_and!; done].
  destruct t as [t| |o]; simpl; [|intros [= <- <- <-] _; split_and!; done..].
  destruct (Nat.eqb_spec (nlink (w_disk w) j) 1) as [H1|]; simpl; [|intros [= <- <- <-] _; split_and!; done].
  intros [= <- <- <-] Hp. simpl. split; [done|]. split; [by apply frame_set_data|].
  intros a [= <-]. split; [done|]. unfold writing. simpl. rewrite nlink_set_data, names_set_data. split_and!; try done.
  unfold set_data. rewrite E. simpl. by rewrite lookup_insert_eq.
Qed.

Lemma open_writing base name c w r w' s' :
  Forall good_part base -> linkless base (w_disk w) -> normalize_filename name = Ok c ->
  open_upload_file_no_symlink true base name w [] = (r, w', s') ->
  s' = [] /\ frame (base ++ [c]) (w_disk w) (w_disk w')
  /\ forall a, r = Ok a -> a.1 = base ++ [c] /\ writing (base ++ [c]) a.2 "" (w_disk w').
Proof.
  intros Hg Hl Hn. unfold open_upload_file_no_symlink. rewrite Hn.
  change (bind (of_result (Ok c)) ?k w []) with (k c w []). cbv beta zeta.
  set (rest := fun st => bind (refuse_irregular st c) _). destruct (bind_quiet _ rest w (quiet_lstat (base ++ [c]))) as [[st ->]|[e ->]];
    [|by intros [= <- <- <-]]. unfold rest. clear rest.
  match goal with |- bind ?m ?k w [] = _ -> _ => destruct (bind_quiet m k w (quiet_refuse st c)) as [[? ->]|[e ->]] end;
    [|by intros [= <- <- <-]].
  match goal with |- bind ?m ?k w [] = _ -> _ => destruct (bind_quiet m k w (quiet_validate (base ++ [c]) base)) as [[? ->]|[e ->]] end;
    [|by intros [= <- <- <-]].
  unfold bind at 1, open_or_unsafe, try_except. rewrite sys_nil. unfold sys_open_nofollow.
  destruct (locate _ _) as [p|e] eqn:Eloc.
  - apply locate_in in Eloc as ->; [|done..]. destruct (open_entry_frame (base ++ [c]) owner_rw (w_disk w)) as [Hf Hj].
    destruct (open_entry _ _ _) as [[j|e] d] eqn:Eo; simpl in *.
    + intros H. apply claim_writing in H as (-> & Hf' & Ha); [|by apply Hj].
      split; [done|]. split; [by eapply frame_trans|done].
    + case_bool_decide; by intros [= <- <- <-].
  - simpl. case_bool_decide; by intros [= <- <- <-].
Qed.

(** ** Writing *)

Lemma chunks_writing p fuel limits name h rest fsz total sofar w r w' s' :
  writing p h sofar (w_disk w) -> write_chunks fuel limits name h rest fsz total w [] = (r, w', s') ->
  s' = [] /\ frame p (w_disk w) (w_disk w') /\ forall a, r = Ok a -> holds (w_disk w') p (sofar +:+ rest).
Proof.
  revert h rest fsz total sofar w. induction fuel as [|fuel IH]; intros h rest fsz total sofar w Hw;
    unfold write_chunks; fold write_chunks; [by intros [= <- <- <-]|].
  unfold bind at 1, await. cbv beta iota zeta.
  pose proof (str_take_drop (Z.to_nat UPLOAD_CHUNK_SIZE) rest) as Hsplit.
  destruct (String.eqb_spec (str_take (Z.to_nat UPLOAD_CHUNK_SIZE) rest) "") as [Hc|_].
  - intros H. injection H as <- <- <-. apply str_take_empty in Hc; [|apply chunk_size_pos]. rewrite Hc, str_app_nil_r.
    split; [done|]. split; [apply frame_refl|]. intros _ _. exists (h_ino h). by destruct Hw as (? & _ & ? & _).
  - generalize dependent (str_take (Z.to_nat UPLOAD_CHUNK_SIZE) rest). intros chunk Hsplit.
    case_match; [by intros [= <- <- <-]|]. case_match; [by intros [= <- <- <-]|].
    unfold bind at 1, write_handle, bind at 1. rewrite sys_nil. simpl. intros Hrun.
    destruct (writing_write p h sofar chunk (w_disk w) Hw) as [Hf Hw'].
    apply (IH _ _ _ _ (sofar +:+ chunk)) in Hrun as (-> & Hf' & Ha); [|exact Hw'].
    split; [done|]. split; [by eapply frame_trans|]. rewrite <-Hsplit, <-str_app_assoc. exact Ha.
Qed.

Lemma unlink_frame base c w : Forall good_part base -> linkless base (w_disk w) ->
  frame (base ++ [c]) (w_disk w) (sys_unlink (base ++ [c]) (w_disk w)).2.
Proof.
  intros Hg Hl. unfold sys_unlink. destruct (locate _ _) as [p|] eqn:E; [|apply frame_refl].
  apply locate_in in E as ->; [|done..]. repeat case_match; try apply frame_refl. split; [|done].
  intros q Hq. simpl. by rewrite lookup_delete_ne.
Qed.

Lemma write_upload_stored base body name c limits total w r w' s' :
  Forall good_part base -> linkless base (w_disk w) -> normalize_filename name = Ok c ->
  write_upload_file_with_limits true body base name limits total w [] = (r, w', s') ->
  s' = [] /\ frame (base ++ [c]) (w_disk w) (w_disk w')
  /\ forall a, r = Ok a -> a.1.1 = base ++ [c] /\ holds (w_disk w') (base ++ [c]) body.
Proof.
  intros Hg Hl Hn. unfold write_upload_file_with_limits, bind at 1.
  destruct (open_upload_file_no_symlink _ _ _ _ _) as [[[[p h]|e] w1] s1] eqn:Eo;
    apply (open_writing _ _ c) in Eo as (-> & Hf1 & Hw1); try done; [|by intros [= <- <- <-]].
  destruct (Hw1 _ eq_refl) as [Hp Hw]. simpl in Hp, Hw. subst p. simpl fst. simpl snd.
  unfold bind at 1, try_exception, try_except.
  destruct (write_chunks _ _ _ _ _ _ _ _ _) as [[[sizes|e] w2] s2] eqn:Ec; apply (chunks_writing _ _ _ _ _ _ _ _ "") with (1 := Hw) in Ec as (-> & Hf2 & H2).
  - unfold bind. rewrite sys_nil. simpl. intros [= <- <- <-]. split; [done|].
    split; [by eapply frame_trans|]. intros a [= <-]. split; [done|]. by apply (H2 sizes).
  - destruct e as [|n t]; [intros [= <- <- <-]; split; [done|]; split; [by eapply frame_trans|done]|].
    unfold bind. rewrite sys_nil. simpl. unfold unlink_missing_ok, try_except. rewrite sys_nil.
    assert (Hf : frame (base ++ [c]) (w_disk w) (sys_unlink (base ++ [c]) (w_disk w2)).2).
    { eapply frame_trans; [exact Hf1|]. eapply frame_trans; [exact Hf2|]. apply unlink_frame; [done|].
      eapply linkless_frame; [exact Hf2|]. by eapply linkless_frame. }
    simpl. destruct (sys_unlink _ _) as [[[]|e] d]; simpl in *; [|destruct (is_not_found e); simpl]; by intros [= <- <- <-].
Qed.

(** ** Claimed names are names *)

Lemma no_slash_app s t : no_slash s -> no_slash t -> no_slash (s +:+ t).
Proof. rewrite !no_slash_spec, contains_char_app. by intros -> ->. Qed.

Lemma no_slash_split n s : no_slash s -> no_slash (str_take n s) /\ no_slash (str_drop n s).
Proof.
  rewrite !no_slash_spec. intros H. rewrite <-(str_take_drop n s), contains_char_app in H. by apply orb_false_iff in H.
Qed.

Lemma pretty_go_no_slash x s : no_slash s -> no_slash (pretty_N_go x s).
Proof.
  revert s. induction (N.lt_wf_0 x) as [x _ IH]; intros s Hs. destruct (decide (x = 0)%N) as [->|Hx]; [done|].
  rewrite pretty_N_go_step by lia. apply IH; [by apply N.div_lt; lia|]. apply no_slash_cons. split; [|done].
  unfold pretty_N_char. repeat case_match; done.
Qed.

Lemma pretty_no_slash (n : nat) : no_slash (pretty n).
Proof.
  unfold pretty, pretty_nat, pretty, pretty_N. case_decide; [by apply no_slash_spec|]. apply pretty_go_no_slash. by apply no_slash_spec.
Qed.

Lemma normalize_no_slash filename name : normalize_filename filename = Ok name -> no_slash name.
Proof.
  unfold normalize_filename. repeat case_match; try done. intros [= <-]. apply no_slash_spec.
  unfold path_name, parse_path. simpl.
  destruct (last _) as [c|] eqn:E; [|done]. apply last_Some_elem_of, clean_parts_elem in E as [E _]. simpl.
  pose proof (split_parts_no_char slash filename) as Hf. rewrite Forall_forall in Hf. by apply Hf.
Qed.

Lemma claim_no_slash name seen c seen' :
  no_slash name -> claim_unique_filename name seen = Some (c, seen') -> no_slash c.
Proof.
  intros Hn. unfold claim_unique_filename. case_bool_decide; [|by intros [= <- _]].
  intros Hc. apply fmap_Some in Hc as (x & Hx & [= -> ->]). revert Hx. generalize (size seen), 1%nat.
  assert (Hs : no_slash (path_stem name) /\ no_slash (path_suffix name)).
  { unfold path_stem, path_suffix. destruct (suffix_at name); [by apply no_slash_split|]. split; [done|by apply no_slash_spec]. }
  intros fuel. induction fuel as [|fuel IH]; intros k; simpl; case_bool_decide; try done; [|apply IH|];
    intros [= <-]; repeat apply no_slash_app; try apply Hs; try apply pretty_no_slash; by apply no_slash_spec.
Qed.

(** Normalising a name once more changes nothing. *)
Lemma normalize_id c c' : no_slash c -> normalize_filename c = Ok c' -> c' = c.
Proof.
  intros Hs%no_slash_spec. unfold normalize_filename. destruct (String.eqb_spec c ""); [done|].
  unfold path_name, parse_path. simpl. rewrite split_no_char by done. unfold clean_parts. simpl.
  destruct (String.eqb_spec c ""); [done|]. destruct (String.eqb_spec c "."); simpl; [done|].
  repeat case_match; try done. by intros [= <-].
Qed.

(** ** Requests *)

(** Undisturbed, a call leaves stored files as they are. *)
Definition preserves {A} (m : coro world A) : Prop := forall w,
  match m w [] with (_, w', s') => s' = [] /\ forall p b, holds (w_disk w) p b -> holds (w_disk w') p b end.

Lemma preserves_quiet {A} (m : coro world A) : quiet m -> preserves m.
Proof. intros H w. by destruct (H w) as [r ->]. Qed.

Lemma preserves_bind {A B} (m : coro world A) (k : A -> coro world B) :
  preserves m -> (forall a, preserves (k a)) -> preserves (bind m k).
Proof.
  intros Hm Hk w. unfold bind. specialize (Hm w). destruct (m w []) as [[[a|e] w1] s1]; [|done].
  destruct Hm as [-> H1]. specialize (Hk a w1). destruct (k a w1 []) as [[r w2] s2]. naive_solver.
Qed.

Lemma preserves_for_each {A} (body : A -> coro world unit) xs :
  (forall x, preserves (body x)) -> preserves (for_each body xs).
Proof.
  intros H. induction xs as [|x xs IH]; simpl; [by apply preserves_quiet, quiet_ret|]. by apply preserves_bind.
Qed.

Lemma holds_set_mode d j n mode p b :
  d_inodes d !! j = Some n -> holds d p b -> holds (set_inode j (mk_inode (i_content n) mode) d) p b.
Proof.
  intros Hn (k & Hk & Hc). exists k. split; [done|]. simpl. destruct (decide (j = k)) as [->|].
  - rewrite lookup_insert_eq. by rewrite Hn in Hc.
  - by rewrite lookup_insert_ne.
Qed.

Lemma preserves_add_mode nofollow bits p : preserves (add_mode nofollow bits p).
Proof.
  apply preserves_bind; [by apply preserves_quiet, quiet_sys|]. intros st.
  destruct (st_lnk st); [by apply preserves_quiet, quiet_ret|]. intros w. rewrite sys_nil. split; [done|].
  intros q b Hq. unfold sys_chmod. destruct ((if nofollow then locate else locate_target) _ _) as [x|]; [|done].
  destruct (d_names _ !! x) as [[j|]|]; [|done..]. destruct (d_inodes _ !! j) eqn:E; [|done]. by apply holds_set_mode.
Qed.

Lemma preserves_sync dp t : preserves (sync_one dp t).
Proof.
  apply preserves_bind; [apply preserves_add_mode|]. intros _.
  apply preserves_bind; [by apply preserves_quiet, quiet_sys|]. intros bytes w. done.
Qed.

(** A reported file, and the part it came from. *)
Definition stored_as (dir : loc) (d : disk) (f : file_info) (part : upload_file) : Prop :=
  holds d (dir ++ [fi_filename f]) (uf_body part) /\ fi_size f = Z.of_nat (String.length (uf_body part)).

Section stored.
Context (cv : converters) (dp : deployment) (cfg : uploads_config) (thread_id : string) (dir : loc) (sbx : pure_path).
Hypothesis dir_good : Forall good_part dir.
Hypothesis posix : dp_posix dp = true.
Hypothesis no_conversion : auto_convert_documents_enabled cfg = false.

(** What has been stored so far, of the parts handled so far. *)
Definition progress (done : list upload_file) (st : upload_state) (d : disk) : Prop :=
  linkless dir d /\ (forall f, f ∈ us_uploaded st -> fi_filename f ∈ us_seen st)
  /\ exists parts, parts `sublist_of` done /\ Forall2 (stored_as dir d) (us_uploaded st) parts.

Lemma progress_more done st d f : progress done st d -> progress (done ++ [f]) st d.
Proof. intros (? & ? & parts & Hp & ?). split_and!; [done..|]. exists parts. split; [by apply sublist_inserts_r|done]. Qed.

Lemma upload_one_progress done st file w st' w' s' :
  upload_one cv dp cfg thread_id dir sbx st file w [] = (Ok st', w', s') -> progress done st (w_disk w) ->
  s' = [] /\ progress (done ++ [file]) st' (w_disk w').
Proof.
  intros H Hst. apply upload_one_Ok in H as [(-> & -> & ->)|(filename & name & c & seen & w1 & s1 & o & _ & En & Hc & Ho & H)];
    [split; [reflexivity|by apply progress_more]|].
  pose proof (claim_no_slash _ _ _ _ (normalize_no_slash _ _ En) Hc) as Hslash. apply claim_fresh in Hc as [Hc ->].
  destruct Hst as (Hl & Hseen & parts & Hparts & Hall). apply write_or_skip_Ok in Ho. rewrite posix in Ho.
  assert (Hres : exists r, write_upload_file_with_limits true (uf_body file) dir c (get_upload_limits cfg) (us_total st) w []
                 = (r, w1, s1) /\ match o with Some a => r = Ok a | None => True end).
  { destruct o as [a|]; [by eexists|]. destruct Ho as [t Ho]. by eexists. }
  destruct Hres as (r & Hr & Hro).
  destruct (normalize_filename c) as [c'|] eqn:Ec.
  2: { unfold write_upload_file_with_limits, open_upload_file_no_symlink, bind in Hr. rewrite Ec in Hr. simpl in Hr.
       injection Hr as <- <- <-. destruct o; [done|]. destruct H as (Hu & _ & _ & _ & Hse & -> & ->). split; [done|].
       apply progress_more. split; [done|]. rewrite Hu, Hse. split; [set_solver|eauto]. }
  apply normalize_id in Ec as Heq; [|done]. subst c'. apply (write_upload_stored _ _ _ c) in Hr as (-> & Hf & Ha); [|done..].
  assert (Hold : forall f p, f ∈ us_uploaded st -> stored_as dir (w_disk w) f p -> stored_as dir (w_disk w1) f p).
  { intros f p Hin [Hh Hs]. split; [|done]. eapply holds_frame; [exact Hf| |done]. intros E. apply app_inj_2 in E as [_ [= E]]; [|done].
    apply Hc. rewrite <-E. by apply Hseen. }
  assert (Hall' : Forall2 (stored_as dir (w_disk w1)) (us_uploaded st) parts).
  { clear -Hall Hold. induction Hall; constructor; [apply Hold; [by left|done]|]. apply IHHall. intros f p Hin. apply Hold. by right. }
  destruct o as [a|].
  - destruct H as (md & info & Hmd & Hu & _ & _ & Hi & Hs & _ & Hse). unfold maybe_convert in Hmd. rewrite no_conversion in Hmd.
    injection Hmd as _ <- <-. split; [reflexivity|]. split; [by eapply linkless_frame|]. rewrite Hu, Hse. split; [set_solver|].
    exists (parts ++ [file]). split; [by apply sublist_app|]. apply Forall2_app; [done|]. constructor; [|constructor].
    subst r. destruct (Ha _ eq_refl) as [_ Hh]. rewrite <-Hi in Hh. split; [done|].
    apply write_upload_sizes in Ho as [Hsz _]. congruence.
  - destruct H as (Hu & _ & _ & _ & Hse & -> & ->). split; [reflexivity|]. apply progress_more.
    split; [by eapply linkless_frame|]. rewrite Hu, Hse. split; [set_solver|eauto].
Qed.

Lemma upload_all_progress files done st w st' w' s' :
  upload_all cv dp cfg thread_id dir sbx st files w [] = (Ok st', w', s') -> progress done st (w_disk w) ->
  s' = [] /\ progress (done ++ files) st' (w_disk w').
Proof.
  revert done st w. induction files as [|f fs IH]; intros done st w; simpl.
  - intros [= -> -> ->]. by rewrite app_nil_r.
  - intros (st1 & w1 & s1 & H1 & H)%bind_Ok Hst. apply (upload_one_progress done) in H1 as [-> H1]; [|done].
    apply (IH (done ++ [f])) in H; [|done]. by rewrite <-app_assoc in H.
Qed.
End stored.

Lemma makedirs_linkless dir d : linkless dir d -> linkless dir (sys_makedirs dir d).2.
Proof.
  intros H. unfold sys_makedirs. repeat case_match; [done..|]. apply mkdir_parents_inv; [|done].
  intros. by apply linkless_add_dir.
Qed.

(** (C30) With the conversion of documents switched off, on a POSIX system and in
    an uploads directory without links, a request that no other process
    disturbs and that succeeds stores what it was sent: the files it reports
    are, in order, parts of the request, each found in the uploads directory
    under the reported name with exactly the bytes of the part, and with the
    reported size; every part reported in one request has a file of its own,
    also when parts carry the same name. *)
Theorem uploaded_files_stored cv dp cfg base_dir thread_id user dir files w r w' s' :
  get_uploads_dir base_dir thread_id user = Ok dir ->
  Forall good_part (pp_parts base_dir) -> linkless (pp_parts dir) (w_disk w) ->
  dp_posix dp = true -> auto_convert_documents_enabled cfg = false ->
  upload_files cv dp cfg base_dir thread_id user files w [] = (Ok r, w', s') ->
  exists parts, parts `sublist_of` files /\ Forall2 (stored_as (pp_parts dir) (w_disk w')) (rs_files r) parts.
Proof.
  intros Hdir Hg Hl Hp Hc (dir' & st & w1 & s1 & w2 & s2 & Hdir' & _ & Hm & Hall & Hend & ->)%upload_files_Ok.
  rewrite Hdir in Hdir'. injection Hdir' as <-. rewrite sys_nil in Hm. injection Hm as _ <- <-.
  apply (upload_all_progress _ _ _ _ _ _ (uploads_dir_good _ _ _ _ Hg Hdir) Hp Hc _ []) in Hall as [-> (_ & _ & parts & Hs & Hst)].
  - exists parts. split; [done|]. eapply Forall2_impl; [exact Hst|]. intros f p [Hh Hsz]. split; [|done].
    assert (Hpres : preserves (for_each (make_file_sandbox_readable (dp_chmod_nofollow dp)) (us_written st) ;;
        if dp_mounts dp then ret tt else for_each (sync_one dp) (us_sync st))).
    { apply preserves_bind; [apply preserves_for_each; intros; apply preserves_add_mode|]. intros _.
      destruct (dp_mounts dp); [by apply preserves_quiet, quiet_ret|apply preserves_for_each, preserves_sync]. }
    specialize (Hpres w2). rewrite Hend in Hpres. by apply Hpres.
  - split; [by apply makedirs_linkless|]. split; [set_solver|]. exists []. split; [done|constructor].
Qed.

(** ** Requests on a concrete disk *)

Definition ex_base : pure_path := parse_path "/data".
Definition ex_path : pure_path := mk_path "/" ["data"; "users"; "u"; "threads"; "t"; "user-data"; "uploads"].
#[local] Abbreviation ex_dir := (pp_parts ex_path).
Definition ex_converters : converters :=
  mk_converters (fun _ => None) (fun _ => None)
    (fun o => match o with Some s => Ok ("# " +:+ s) | None => Err FileNotFoundError end).
Definition ex_mounted : deployment := mk_deployment true false true true.
Definition ex_disk : disk := (sys_makedirs ex_dir (mk_disk ∅ ∅)).2.
Definition ex_put (p : loc) (i : nat) (t : string) (d : disk) : disk :=
  set_name p (Hard i) (set_inode i (mk_inode (File t) 384) d).
Definition ex_secret : loc := ["etc"; "secret"].
Definition ex_world : world := mk_world (ex_put ex_secret 50 "key" ex_disk) [].
#[local] Abbreviation ex_upload cfg files d s :=
  (upload_files ex_converters ex_mounted cfg ex_base "t" "u" files (mk_world d []) s).
Definition data_of (p : loc) (w : world) : option content := i_content <$> inode_at (w_disk w) p.

Lemma linkless_decide dir d :
  Forall (fun k => match d_names d !! take k dir with Some (Symlink _) => false | _ => true end = true) (seq 1 (length dir)) ->
  linkless dir d.
Proof.
  intros H p t Hp Hpre E. rewrite Forall_forall in H. assert (Hk : length p ∈ seq 1 (length dir)).
  { apply elem_of_seq. pose proof (prefix_length _ _ Hpre). destruct p; [done|]. simpl in *. lia. }
  apply H in Hk. destruct Hpre as [q ->]. rewrite take_app_length in Hk.
  destruct (d_names d !! p) as [[]|]; naive_solver.
Qed.

Lemma ex_base_good : Forall good_part (pp_parts ex_base).
Proof. vm_compute pp_parts. apply Forall_singleton. by apply literal_good. Qed.

Definition ex_parts : list upload_file := [mk_upload (Some "a.txt") "abc"; mk_upload (Some "dir/a.txt") "defgh"].

(** The names a response reports, [None] for an error. *)
Definition reported (o : result raised upload_response * world * list (moment world)) : option (list string) :=
  match o with (Ok r, _, _) => Some (fi_filename <$> rs_files r) | _ => None end.

Lemma ex_parts_reported : reported (ex_upload [] ex_parts ex_disk []) = Some ["a.txt"; "a_1.txt"].
Proof. vm_compute. reflexivity. Qed.

Lemma ex_uploads_dir : get_uploads_dir ex_base "t" "u" = Ok ex_path.
Proof. vm_compute. reflexivity. Qed.

Lemma ex_linkless : linkless ex_dir (w_disk (mk_world ex_disk [])).
Proof. apply linkless_decide. vm_compute. repeat constructor. Qed.

Lemma uploaded_files_stored_witness :
  exists r w' s' parts, ex_upload [] ex_parts ex_disk [] = (Ok r, w', s') /\ (fi_filename <$> rs_files r) = ["a.txt"; "a_1.txt"]
    /\ parts `sublist_of` ex_parts /\ Forall2 (stored_as ex_dir (w_disk w')) (rs_files r) parts.
Proof.
  pose proof ex_parts_reported as H. destruct (ex_upload [] ex_parts ex_disk []) as [[[r|e] w'] s'] eqn:E; [|discriminate H].
  injection H as H.
  destruct (uploaded_files_stored ex_converters ex_mounted [] ex_base "t" "u" ex_path ex_parts (mk_world ex_disk [])
    r w' s' ex_uploads_dir ex_base_good ex_linkless eq_refl eq_refl E) as (parts & Hs & Hf).
  exists r, w', s', parts. split; [reflexivity|]. split; [exact H|]. split; [exact Hs|exact Hf].
Defined.

Lemma upload_response_within_limits_witness :
  exists r w' s', ex_upload [("max_total_size", JNum 8)] ex_parts ex_disk [] = (Ok r, w', s')
    /\ (sumZ (fi_size <$> rs_files r) <= 8)%Z.
Proof.
  assert (H : reported (ex_upload [("max_total_size", JNum 8)] ex_parts ex_disk []) = Some ["a.txt"; "a_1.txt"])
    by (vm_compute; reflexivity).
  destruct (ex_upload _ _ _ _) as [[[r|e] w'] s'] eqn:E; [|discriminate H]. clear H. exists r, w', s'. split; [reflexivity|].
  destruct (upload_response_within_limits ex_converters ex_mounted [("max_total_size", JNum 8)] ex_base "t" "u" ex_parts
    (mk_world ex_disk []) [] r w' s' E) as (_ & _ & H & _). exact H.
Defined.

(** Another process puts an entry where there is none. *)
Definition plant (p : loc) (e : entry) (w : world) : world :=
  match d_names (w_disk w) !! p with
  | None => set_disk (set_name p e (w_disk w)) w
  | Some _ => w
  end.

Lemma plant_tolerable base l i data c e : tolerable base l i data (mk_moment (plant (base ++ [c]) e) Go).
Proof.
  intros w Hw. simpl. unfold plant. destruct (d_names (w_disk w) !! _) eqn:E; [done|]. destruct Hw as (Hl & Hn & Hc).
  assert (Hk : forall l' x, d_names (w_disk w) !! l' = Some x -> <[base ++ [c] := e]> (d_names (w_disk w)) !! l' = Some x).
  { intros l' x Hx. rewrite lookup_insert_ne; [done|]. intros <-. by pose proof (eq_trans (eq_sym Hx) E). }
  split; [|intros l'; apply Hk]. split; [|split; [by apply Hk|done]]. eapply linkless_ext; [exact Hl|].
  intros p t Hp. simpl. rewrite lookup_insert_ne; [done|]. intros <-. by apply snoc_not_prefix in Hp.
Qed.

Definition ex_disk_secret : disk := ex_put ex_secret 50 "key" ex_disk.

Lemma ex_secret_intact : intact ex_dir ex_secret 50 "key" (mk_world ex_disk_secret []).
Proof. split; [apply linkless_decide; vm_compute; repeat constructor|]. split; vm_compute; reflexivity. Qed.

Lemma ex_secret_outside c : ex_secret <> ex_dir ++ [c].
Proof. discriminate. Qed.

(** A symbolic link planted before the file is opened, and a hard link. *)
Definition ex_attack : list (moment world) :=
  [mk_moment (fun w => w) Go; mk_moment (plant (ex_dir ++ ["b.txt"]) (Hard 50)) Go; mk_moment (fun w => w) Go;
   mk_moment (fun w => w) Go; mk_moment (plant (ex_dir ++ ["a.txt"]) (Symlink ex_secret)) Go].

Lemma ex_attack_tolerable : Forall (tolerable ex_dir ex_secret 50 "key") ex_attack.
Proof.
  assert (Hid : tolerable ex_dir ex_secret 50 "key" (mk_moment (fun w => w) Go)) by done.
  repeat (apply Forall_cons; split; [first [exact Hid|apply plant_tolerable]|]). by apply Forall_nil.
Qed.

Definition ex_two : list upload_file := [mk_upload (Some "a.txt") "abc"; mk_upload (Some "b.txt") "def"].

Lemma uploads_spare_outside_files_witness :
  let '(_, w', _) := ex_upload [] ex_two ex_disk_secret ex_attack in
  d_names (w_disk w') !! ex_secret = Some (Hard 50) /\ i_content <$> d_inodes (w_disk w') !! 50%nat = Some (File "key").
Proof.
  exact (uploads_spare_outside_files ex_converters ex_mounted [] ex_base "t" "u" ex_path ex_two ex_secret 50 "key"
    (mk_world ex_disk_secret []) ex_attack ex_uploads_dir ex_base_good ex_secret_outside eq_refl eq_refl ex_secret_intact
    ex_attack_tolerable).
Defined.

(** Both parts are skipped there. *)
Example attack_skipped :
  match ex_upload [] ex_two ex_disk_secret ex_attack with
  | (Ok r, w, _) => (rs_success r, rs_skipped_files r, data_of ex_secret w)
  | _ => (true, [], None)
  end = (false, ["a.txt"; "b.txt"], Some (File "key")).
Proof. vm_compute. reflexivity. Qed.

(** ** Requests that lose or leak data *)

(** The status of the outcome: 200, or the text of the HTTP error. *)
Definition status (o : result raised upload_response * world * list (moment world)) : string :=
  match o with
  | (Ok _, _, _) => "200"
  | (Err (Raised "HTTPException" msg), _, _) => str_take 3 msg
  | (Err _, _, _) => "error"
  end.

(** A replacement that is refused for its size has already destroyed the file it
    was to replace. *)
Theorem rejected_upload_deletes_previous :
  let d := ex_put (ex_dir ++ ["a.txt"]) 60 "old" ex_disk in
  let o := ex_upload [("max_file_size", JNum 3)] [mk_upload (Some "a.txt") "too long"] d [] in
  status o = "413" /\ data_of (ex_dir ++ ["a.txt"]) (mk_world d []) = Some (File "old")
  /\ data_of (ex_dir ++ ["a.txt"]) o.1.2 = None.
Proof. vm_compute. repeat split. Qed.

(** The Markdown file of a converted document is written through a symbolic link
    that the sandbox has left under its name. *)
Theorem conversion_follows_link :
  let d := set_name (ex_dir ++ ["report.md"]) (Symlink ex_secret) ex_disk_secret in
  let o := ex_upload [("auto_convert_documents", JBool true)] [mk_upload (Some "report.pdf") "text"] d [] in
  status o = "200" /\ data_of ex_secret o.1.2 = Some (File "# text").
Proof. vm_compute. repeat split. Qed.

(** The check that the opened file has one link is passed by a hard link to a
    file elsewhere when its name in the directory is removed between the opening
    and the check: the upload is written into that file. *)
Theorem removed_link_passes_check :
  let d := set_name (ex_dir ++ ["a.txt"]) (Hard 50) ex_disk_secret in
  let same := mk_moment (fun w : world => w) Go in
  let unlinked := mk_moment (fun w => set_disk (drop_name (ex_dir ++ ["a.txt"]) (w_disk w)) w) Go in
  let o := ex_upload [] [mk_upload (Some "a.txt") "abc"] d [same; same; same; same; same; unlinked] in
  data_of ex_secret o.1.2 = Some (File "abc").
Proof. vm_compute. reflexivity. Qed.

(** Converting two documents with the same stem leaves one Markdown file, which
    both entries of the response report; it also replaces a file the user had
    uploaded under that name. *)
Theorem converted_documents_collide :
  let d := ex_put (ex_dir ++ ["report.md"]) 60 "mine" ex_disk in
  let o := ex_upload [("auto_convert_documents", JBool true)]
    [mk_upload (Some "report.pdf") "one"; mk_upload (Some "report.docx") "two"] d [] in
  match o with
  | (Ok r, w, _) => ((fun f => markdown_file <$> fi_markdown f) <$> rs_files r, data_of (ex_dir ++ ["report.md"]) w)
  | _ => ([], None)
  end = ([Some "report.md"; Some "report.md"], Some (File "# two")).
Proof. vm_compute. reflexivity. Qed.

Definition ex_delete (filename : string) (d : disk) : result raised unit * world :=
  (delete_uploaded_file ex_base "t" "u" filename (mk_world d []) []).1.

(** Deleting a document deletes the Markdown file of the same stem, also one that
    was never generated from it. *)
Theorem deletion_takes_own_markdown :
  let d := ex_put (ex_dir ++ ["notes.md"]) 61 "mine" (ex_put (ex_dir ++ ["notes.pdf"]) 60 "pdf" ex_disk) in
  let o := ex_delete "notes.pdf" d in
  o.1 = Ok tt /\ data_of (ex_dir ++ ["notes.md"]) o.2 = None.
Proof. vm_compute. repeat split. Qed.

(** Deleting a symbolic link deletes the file it leads to and keeps the link. *)
Theorem deletion_removes_link_target :
  let d := set_name (ex_dir ++ ["link.txt"]) (Symlink (ex_dir ++ ["b.txt"])) (ex_put (ex_dir ++ ["b.txt"]) 60 "b" ex_disk) in
  let o := ex_delete "link.txt" d in
  o.1 = Ok tt /\ d_names (w_disk o.2) !! (ex_dir ++ ["b.txt"]) = None
  /\ d_names (w_disk o.2) !! (ex_dir ++ ["link.txt"]) = Some (Symlink (ex_dir ++ ["b.txt"])).
Proof. vm_compute. repeat split. Qed.

Fixpoint letters (n : nat) : string := match n with O => "" | S n' => String "a"%char (letters n') end.

(** Two parts with the same name of 254 bytes: the numbered name is too long for
    the second check, so the whole request fails and the first part is removed,
    while a part whose own name is too long is left out without an error. *)
Theorem long_name_collision_fails_request :
  let name := Some (letters 254) in
  let o := ex_upload [] [mk_upload name "one"; mk_upload name "two"] ex_disk [] in
  let o' := ex_upload [] [mk_upload (Some (letters 256)) "one"] ex_disk [] in
  status o = "500" /\ data_of (ex_dir ++ [letters 254]) o.1.2 = None /\ status o' = "200" /\ reported o' = Some [].
Proof. vm_compute. repeat split. Qed.
