(* ===== verification/AuditArchive.v ===== *)
(** * The archive of audit events

    [app/gateway/audit_archive_worker.py] with the object stores of
    [persistence/release/storage.py], and [app/gateway/release_gc_worker.py].  A
    sweep is a coroutine: at its awaits other tasks insert events, calls fail, and
    it may be cancelled.  JSON encoding and SHA-256 are parameters.  Instants are
    microseconds. *)
From S2P Require Import Prelude RunStore Outbox PyString PyAsync Idempotency.
From stdpp Require Import gmap.
From Stdlib Require Import Ascii.
Local Open Scope string_scope.
Local Open Scope list_scope.
Local Open Scope coro_scope.

(** ** Object stores *)

(** [put] and [get] of a backend. *)
Class ByteStore (B : Type) : Type := {
  store_put : string -> string -> B -> result raised B;
  store_get : string -> B -> result raised string;
}.

(** What a client of a store relies on: an object is read back as it was put,
    and putting one leaves the others. *)
Class KeepsObjects (B : Type) `{ByteStore B} : Prop := {
  get_put k c b b' : store_put k c b = Ok b' -> store_get k b' = Ok c;
  get_put_other k k' c b b' : store_put k c b = Ok b' -> k' <> k -> store_get k' b' = store_get k' b;
}.

(** [InlineObjectStore]: nothing is kept, and reading gives no bytes. *)
Definition InlineObjectStore : Type := unit.

#[global] Instance inline_store : ByteStore InlineObjectStore := {
  store_put _ _ b := Ok b;
  store_get _ _ := Ok "";
}.

(** [S3ObjectStore]: the objects of a bucket. *)
Definition S3ObjectStore : Type := gmap string string.

#[global] Instance s3_store : ByteStore S3ObjectStore := {
  store_put k c b := Ok (<[k := c]> b);
  store_get k b := match b !! k with Some c => Ok c | None => Err (Raised "NoSuchKey" k) end;
}.

#[global] Instance s3_keeps : KeepsObjects S3ObjectStore.
Proof.
  split; unfold store_put, store_get, s3_store, S3ObjectStore; intros; simplify_eq.
  - by rewrite lookup_insert_eq.
  - by rewrite lookup_insert_ne.
Qed.

(** ** Dates *)

Definition day : Z := micro (24 * 60 * 60).

(** [date.isoformat()] of a day counted from 1970-01-01. *)
Definition two_digits (n : Z) : string :=
  String (ascii_of_nat (48 + Z.to_nat (n / 10 mod 10))) (String (ascii_of_nat (48 + Z.to_nat (n mod 10))) "").

Definition date_isoformat (days : Z) : string :=
  let z := (days + 719468)%Z in
  let era := (z / 146097)%Z in
  let doe := (z - era * 146097)%Z in
  let yoe := ((doe - doe / 1460 + doe / 36524 - doe / 146096) / 365)%Z in
  let doy := (doe - (365 * yoe + yoe / 4 - yoe / 100))%Z in
  let mp := ((5 * doy + 2) / 153)%Z in
  let d := (doy - (153 * mp + 2) / 5 + 1)%Z in
  let m := (if mp <? 10 then mp + 3 else mp - 9)%Z in
  let y := (yoe + era * 400 + (if m <=? 2 then 1 else 0))%Z in
  two_digits (y / 100) +:+ two_digits (y mod 100) +:+ "-" +:+ two_digits m +:+ "-" +:+ two_digits d.

(** ** Events as lines *)

Definition ARCHIVE_BATCH_SIZE : nat := 500.
Definition STORAGE_VERSION : string := "1".

(** [ArchiveReport]. *)
Record archive_report : Type := mk_report {
  orgs_archived : nat; events_archived : nat; batches_written : nat; verify_failures : list string;
}.

Definition success (r : archive_report) : bool := match verify_failures r with [] => true | _ => false end.

Definition archive_object_key (org_id date_str batch_id : string) : string :=
  "audit/org/" +:+ org_id +:+ "/date/" +:+ date_str +:+ "/batch/" +:+ batch_id +:+ ".jsonl".

Definition manifest_object_key (org_id date_str : string) : string :=
  "audit/org/" +:+ org_id +:+ "/date/" +:+ date_str +:+ "/manifest.json".

(** [AuditArchiveWatermarkRow], without its timestamp. *)
Record watermark : Type := mk_watermark {
  last_archived_window_end : Z; last_event_id : string; batch_count : nat;
}.

(** The database tables a sweep uses, and the object store. *)
Record archive_world (B : Type) : Type := mk_archive {
  aw_events : list stored_event; aw_marks : list (string * watermark); aw_store : B;
}.
Arguments mk_archive {B} _ _ _.
Arguments aw_events {B} _.
Arguments aw_marks {B} _.
Arguments aw_store {B} _.

Definition opt_json (s : option string) : json := match s with Some s => JStr s | None => JNull end.

Definition row_event_id (r : stored_event) : string := ae_event_id (se_event r).
Definition event_time (r : stored_event) : Z := ae_occurred_at (se_event r).

Section archive.
Context {B : Type} `{ByteStore B} (dumps : json -> string) (sha256 : string -> string).

Definition row_to_jsonl (r : stored_event) : string :=
  let e := se_event r in
  dumps (JObj [("event_id", JStr (ae_event_id e)); ("org_id", opt_json (ae_org_id e)); ("action", JStr (ae_action e));
    ("actor_type", JStr (ae_actor_type e)); ("actor_id", JStr (ae_actor_id e)); ("outcome", JStr (ae_outcome e));
    ("resource_type", opt_json ((fun x => x.1.1) <$> ae_resource e));
    ("resource_id", opt_json (match ae_resource e with Some (_, rid, _) => rid | None => None end));
    ("occurred_at", JIso (ae_occurred_at e)); ("payload", JObj (ae_payload e))]).

Definition newline_text : string := String "010"%char "".

(** The lines, each with its newline. *)
Definition jsonl_content (rows : list stored_event) : string :=
  let content := String.concat newline_text (row_to_jsonl <$> rows) in
  if String.eqb content "" then "" else content +:+ newline_text.

(** ** Queries *)

Fixpoint distinct (l : list string) : list string :=
  match l with
  | [] => []
  | x :: l' => x :: List.filter (fun y => negb (String.eqb y x)) (distinct l')
  end.

(** The organisations that have events, and [system] for events without one. *)
Definition org_ids_of (events : list stored_event) : list string :=
  let ids := distinct (omap (fun r => ae_org_id (se_event r)) events) in
  if str_in "system" ids then ids else ids ++ ["system"].

Definition get_all_org_ids : coro (archive_world B) (list string) :=
  await (fun w => (Ok (org_ids_of (aw_events w)), w)).

(** The rows a window of an organisation selects, in the stable order. *)
Definition of_org (org_id : string) (r : stored_event) : bool :=
  if String.eqb org_id "system" then match ae_org_id (se_event r) with None => true | _ => false end
  else match ae_org_id (se_event r) with Some o => String.eqb o org_id | None => false end.

Definition in_archive_window (window_start window_end : Z) (r : stored_event) : bool :=
  (window_start <=? event_time r)%Z && (event_time r <? window_end)%Z.

Definition row_order (a b : stored_event) : bool := key_leb (event_time a, row_event_id a) (event_time b, row_event_id b).

Definition window_rows (org_id : string) (window_start window_end : Z) (events : list stored_event) : list stored_event :=
  sort_by row_order (List.filter (fun r => of_org org_id r && in_archive_window window_start window_end r) events).

Definition export_window (org_id : string) (window_start window_end : Z)
    : coro (archive_world B) (list stored_event * string) :=
  do! rows := await (fun w => (Ok (take ARCHIVE_BATCH_SIZE (window_rows org_id window_start window_end (aw_events w))), w)) in
  ret (rows, sha256 (utf8 (jsonl_content rows))).

Definition upsert_watermark (org_id : string) (window_end : Z) (last_id : string) (delta : nat)
    : coro (archive_world B) unit :=
  await (fun w =>
    let row := match dict_get org_id (aw_marks w) with
               | Some m => mk_watermark window_end last_id (batch_count m + delta)
               | None => mk_watermark window_end last_id delta
               end in
    (Ok tt, mk_archive (aw_events w) (dict_set org_id row (aw_marks w)) (aw_store w))).

Definition put_object (object_key content : string) : coro (archive_world B) unit :=
  await (fun w => match store_put object_key content (aw_store w) with
                  | Ok b => (Ok tt, mk_archive (aw_events w) (aw_marks w) b)
                  | Err e => (Err e, w)
                  end).

Definition get_object (object_key : string) : coro (archive_world B) string :=
  await (fun w => (store_get object_key (aw_store w), w)).

(** ** The sweep *)

Definition last_id_of (rows : list stored_event) : string := opt_or (row_event_id <$> last rows) "".

Definition manifest (batch_id org_id jsonl_key digest : string) (window_start window_end now : Z) (rows : list stored_event) : json :=
  JObj [("batch_id", JStr batch_id); ("schema_versions", JArr [JStr "audit_event_v1"]);
    ("org_id", if String.eqb org_id "system" then JNull else JStr org_id);
    ("window_start", JIso window_start); ("window_end", JIso window_end); ("event_count", JNum (Z.of_nat (length rows)));
    ("first_event_id", JStr (opt_or (row_event_id <$> head rows) "")); ("last_event_id", JStr (last_id_of rows));
    ("content_digest", JStr ("sha256:" +:+ digest)); ("created_at", JIso now); ("storage_version", JStr STORAGE_VERSION);
    ("batches", JArr [JObj [("batch_id", JStr batch_id); ("object_key", JStr jsonl_key);
                            ("event_count", JNum (Z.of_nat (length rows)))]])].

(** The read-back: [None] when the stored bytes have the digest, else the failure. *)
Definition verify (org_id date_str jsonl_key digest : string) : coro (archive_world B) (option string) :=
  try_exception
    (do! read_back := get_object jsonl_key in
     ret (if String.eqb (sha256 read_back) digest then None
          else Some ("org=" +:+ org_id +:+ " date=" +:+ date_str +:+ ": digest mismatch on read-back (expected sha256:"
                     +:+ digest +:+ ", got sha256:" +:+ sha256 read_back +:+ ")")))
    (fun _ msg => ret (Some ("org=" +:+ org_id +:+ " date=" +:+ date_str +:+ ": read-back failed: " +:+ msg))).

(** One organisation: the number of events archived, or the failure. *)
Inductive org_outcome : Type :=
| Skipped
| Unverified (failure : string)
| Archived (events : nat).

Definition archive_org (now window_start window_end : Z) (date_str org_id batch_id : string)
    : coro (archive_world B) org_outcome :=
  do! exported := export_window org_id window_start window_end in
  let '(rows, digest) := exported in
  match rows with
  | [] => ret Skipped
  | _ =>
      let jsonl_key := archive_object_key org_id date_str batch_id in
      put_object jsonl_key (utf8 (jsonl_content rows)) ;;
      put_object (manifest_object_key org_id date_str)
        (utf8 (dumps (manifest batch_id org_id jsonl_key digest window_start window_end now rows))) ;;
      do! failure := verify org_id date_str jsonl_key digest in
      match failure with
      | Some f => ret (Unverified f)
      | None => upsert_watermark org_id window_end (last_id_of rows) 1 ;; ret (Archived (length rows))
      end
  end.

Definition add_outcome (r : archive_report) (o : org_outcome) : archive_report :=
  match o with
  | Skipped => r
  | Unverified f => mk_report (orgs_archived r) (events_archived r) (batches_written r) (verify_failures r ++ [f])
  | Archived n => mk_report (S (orgs_archived r)) (events_archived r + n) (S (batches_written r)) (verify_failures r)
  end.

(** [batch_ids] are the first twelve digits of the random identifiers, in the
    order of the loop. *)
Fixpoint archive_orgs (now window_start window_end : Z) (date_str : string) (org_ids : list string)
    (batch_ids : nat -> string) (r : archive_report) : coro (archive_world B) archive_report :=
  match org_ids with
  | [] => ret r
  | o :: os =>
      do! out := archive_org now window_start window_end date_str o (batch_ids 0%nat) in
      archive_orgs now window_start window_end date_str os (fun k => batch_ids (S k)) (add_outcome r out)
  end.

Definition window_start_of (now : Z) : Z := ((now / day - 1) * day)%Z.

Definition sweep_archive_audit (now : Z) (batch_ids : nat -> string) : coro (archive_world B) archive_report :=
  let window_start := window_start_of now in
  let window_end := (window_start + day)%Z in
  do! org_ids := get_all_org_ids in
  archive_orgs now window_start window_end (date_isoformat (now / day - 1)) org_ids batch_ids (mk_report 0 0 0 []).

(** The loop of [run_audit_archive_worker]: a sweep at each of the times given,
    with its identifiers; a sweep that raises is logged and the next one follows. *)
Fixpoint run_audit_archive_worker (times : list (Z * (nat -> string))) : coro (archive_world B) unit :=
  match times with
  | [] => ret tt
  | (now, ids) :: rest =>
      try_exception (sweep_archive_audit now ids ;; ret tt) (fun _ _ => ret tt) ;; run_audit_archive_worker rest
  end.
End archive.

(** ** Pruning of replay records *)

Definition GC_RETENTION_DAYS : Z := 30.

Definition sweep_release_idempotency_records (retention_days now : Z) : coro gateway_db Z :=
  await (fun db => let '(n, db') := delete_idempotency_records_older_than (now - retention_days * day)%Z db in (Ok n, db')).

Fixpoint run_release_gc_worker (retention_days : Z) (times : list Z) : coro gateway_db unit :=
  match times with
  | [] => ret tt
  | now :: rest =>
      try_exception (sweep_release_idempotency_records retention_days now ;; ret tt) (fun _ _ => ret tt) ;;
      run_release_gc_worker retention_days rest
  end.
