(* ===== verification/AuditArchiveProps.v ===== *)
(** * The archive: what a watermark vouches for

    Whatever fails or runs in between, a sweep moves a watermark only behind an
    object that reads back with the digest of the events it stands for; an
    undisturbed sweep stores the events of a closed window that fit in one batch;
    and the windows and events a sweep passes over. *)
From S2P Require Import Prelude RunStore Outbox PyString PyPath PyList PyAsync Idempotency AuditArchive.
From stdpp Require Import gmap.
From Stdlib Require Import Ascii.
Local Open Scope string_scope.
Local Open Scope list_scope.
Local Open Scope coro_scope.

(** ** Keys *)

Lemma app_inj_len s t u v : String.length s = String.length u -> s +:+ t = u +:+ v -> s = u /\ t = v.
Proof.
  revert u. induction s as [|c s IH]; intros [|c' u]; try done. intros [= Hl] H. rewrite !str_app_cons in H.
  injection H as -> H. apply IH in H as [-> ->]; done.
Qed.

(** Ends of the same length. *)
Lemma app_inj_tail s t u v : String.length t = String.length v -> s +:+ t = u +:+ v -> s = u /\ t = v.
Proof.
  intros Hl H. apply app_inj_len; [|done]. apply (f_equal String.length) in H. rewrite !str_length_app in H. lia.
Qed.

Lemma archive_key_inj o1 o2 date b1 b2 : String.length b1 = String.length b2 ->
  archive_object_key o1 date b1 = archive_object_key o2 date b2 -> o1 = o2.
Proof.
  unfold archive_object_key. intros Hb H. apply app_inj_len in H as [_ H]; [|done].
  apply app_inj_tail in H as [-> _]; [done|]. rewrite !str_length_app. lia.
Qed.

Lemma archive_key_not_manifest o1 o2 date b : archive_object_key o1 date b <> manifest_object_key o2 date.
Proof.
  unfold archive_object_key, manifest_object_key. intros H.
  assert (E : forall s t : string, s +:+ "l" = t +:+ "n" -> False).
  { intros s t Hst. apply app_inj_tail in Hst as [_ [=]]. done. }
  apply (E ("audit/org/" +:+ o1 +:+ "/date/" +:+ date +:+ "/batch/" +:+ b +:+ ".json")
           ("audit/org/" +:+ o2 +:+ "/date/" +:+ date +:+ "/manifest.jso")).
  rewrite !str_app_assoc. exact H.
Qed.

(** ** Watermarks *)

Section backed.
Context {B : Type} `{KeepsObjects B} (dumps : json -> string) (sha256 : string -> string).
Context (now window_start window_end : Z) (date : string).

#[local] Abbreviation jsonl := (jsonl_content dumps).

(** The events are of the organisation and the window, and on record. *)
Definition exported (o : string) (w : archive_world B) (rows : list stored_event) : Prop :=
  Forall (fun r => r ∈ aw_events w /\ of_org o r = true /\ in_archive_window window_start window_end r = true) rows.

(** The object reads back with the digest of the events. *)
Definition kept (o b : string) (rows : list stored_event) (w : archive_world B) : Prop :=
  exists bytes, store_get (archive_object_key o date b) (aw_store w) = Ok bytes /\ sha256 bytes = sha256 (utf8 (jsonl rows)).

Definition backed (o : string) (m : watermark) (w : archive_world B) : Prop :=
  exists rows b, rows <> [] /\ String.length b = 12%nat /\ exported o w rows /\ kept o b rows w
    /\ last_event_id m = last_id_of rows /\ last_archived_window_end m = window_end.

(** Other tasks insert events; they leave objects and watermarks. *)
Definition appends (m : moment (archive_world B)) : Prop := forall w,
  (forall r, r ∈ aw_events w -> r ∈ aw_events (mo_others m w))
  /\ (forall k c, store_get k (aw_store w) = Ok c -> store_get k (aw_store (mo_others m w)) = Ok c)
  /\ aw_marks (mo_others m w) = aw_marks w.

Context (marks0 : list (string * watermark)).

(** Each watermark is the old one, or one of the organisations done so far with
    its object. *)
Definition vouched (finished : list string) (w : archive_world B) : Prop := forall o m,
  dict_get o (aw_marks w) = Some m -> dict_get o marks0 = Some m \/ (o ∈ finished /\ backed o m w).

Lemma exported_stable o rows : stable appends (fun w => exported o w rows).
Proof. intros m w Hm He. eapply Forall_impl; [exact He|]. simpl. intros r (Hr & ?). split; [by apply Hm|done]. Qed.

Lemma kept_object_stable o b rows : stable appends (kept o b rows).
Proof. intros m w Hm (bytes & Hg & Hs). exists bytes. split; [by apply Hm|done]. Qed.

Lemma vouched_stable finished : stable appends (vouched finished).
Proof.
  intros m w Hm Hw o mk Hget. destruct (Hm w) as (_ & _ & Hk). rewrite Hk in Hget.
  destruct (Hw _ _ Hget) as [|(Hin & rows & b & Hne & Hlen & He & Hkept & Hid)]; [auto|]. right. split; [done|].
  exists rows, b. split_and!; try apply Hid; try done; [by apply (exported_stable o rows m w Hm)|by apply (kept_object_stable o b rows m w Hm)].
Qed.

Lemma vouched_more finished os w : vouched finished w -> vouched (finished ++ os) w.
Proof. intros Hw o' m Hm. destruct (Hw o' m Hm) as [|[? ?]]; [auto|]. right. set_solver. Qed.

(** Storing an object under a key no finished organisation uses. *)
Lemma vouched_put finished w key content bytes :
  vouched finished w -> store_put key content (aw_store w) = Ok bytes ->
  (forall o b, o ∈ finished -> String.length b = 12%nat -> archive_object_key o date b <> key) ->
  vouched finished (mk_archive (aw_events w) (aw_marks w) bytes).
Proof.
  intros Hw Hput Hkey o m Hm. destruct (Hw o m Hm) as [|(Hin & rows & b & Hne & Hlen & He & (c & Hg & Hs) & Hid)]; [auto|].
  right. split; [done|]. exists rows, b. split; [done|]. split; [done|]. split; [exact He|]. split; [|exact Hid].
  exists c. split; [|done]. simpl.
  rewrite <-Hg. by apply (get_put_other key _ content), Hkey.
Qed.

(** Setting the watermark of an organisation. *)
Lemma vouched_set finished o m w :
  vouched finished w -> backed o m w ->
  vouched (finished ++ [o]) (mk_archive (aw_events w) (dict_set o m (aw_marks w)) (aw_store w)).
Proof.
  intros Hw Hb o' m' Hm. simpl in Hm. rewrite dict_get_set in Hm. case_decide as E.
  - injection Hm as <-. subst o'. right. split; [set_solver|]. exact Hb.
  - apply (vouched_more finished [o] w Hw). exact Hm.
Qed.

Section one_org.
Context (finished : list string) (o b : string).
Hypothesis fresh : o ∉ finished.
Hypothesis len : String.length b = 12%nat.

Definition exporting (rows : list stored_event) (w : archive_world B) : Prop := vouched finished w /\ exported o w rows.

Lemma exporting_stable rows : stable appends (exporting rows).
Proof. intros m w Hm [? ?]. split; [by apply vouched_stable|by apply (exported_stable o rows m w Hm)]. Qed.

(** Any exception leaves the watermarks vouched for. *)
Definition safe {A} (R : A -> archive_world B -> Prop) (r : result raised A) (w : archive_world B) : Prop :=
  match r with Ok a => R a w | Err _ => vouched (finished ++ [o]) w end.

Lemma export_safe :
  triple appends (vouched finished) (export_window dumps sha256 o window_start window_end)
    (safe (fun x w => exporting x.1 w /\ x.2 = sha256 (utf8 (jsonl x.1)))).
Proof.
  apply (triple_bind _ _ _ _ _ exporting).
  - apply triple_await; [apply vouched_stable| | |].
    + intros w Hw. split; [done|]. apply Forall_forall. intros r Hr. apply elem_of_take in Hr as (k & Hr & _).
      apply list_elem_of_lookup_2, sort_by_elem, list_elem_of_In, filter_In in Hr as [Hin Hf].
      apply andb_true_iff in Hf as [? ?]. by rewrite list_elem_of_In.
    + intros n t w Hw. by apply vouched_more.
    + intros m w _. right. intros Hw. by split; apply vouched_more.
  - intros rows w s Hw Hs. by split.
Qed.

Lemma put_safe rows key content :
  (forall o' b', o' ∈ finished -> String.length b' = 12%nat -> archive_object_key o' date b' <> key) ->
  triple appends (exporting rows) (put_object key content) (safe (fun _ => exporting rows)).
Proof.
  intros Hkey.
  assert (Hop : forall w, exporting rows w ->
    match store_put key content (aw_store w) with
    | Ok s => exporting rows (mk_archive (aw_events w) (aw_marks w) s) | Err _ => True end).
  { intros w [Hw He]. destruct (store_put _ _ _) eqn:E; [|done]. split; [by eapply vouched_put|exact He]. }
  apply triple_await; [apply exporting_stable| | |].
  - intros w Hw. specialize (Hop w Hw). destruct (store_put _ _ _); [exact Hop|]. by apply vouched_more, Hw.
  - intros n t w [Hw _]. by apply vouched_more.
  - intros m w _. right. intros Hw. specialize (Hop w Hw).
    split; [by apply vouched_more, Hw|]. destruct (store_put _ _ _); apply vouched_more; [apply Hop|apply Hw].
Qed.

Lemma verify_safe rows digest : digest = sha256 (utf8 (jsonl rows)) ->
  triple appends (exporting rows) (verify sha256 o date (archive_object_key o date b) digest)
    (safe (fun f w => exporting rows w /\ (f = None -> kept o b rows w))).
Proof.
  intros ->. apply (triple_try_exception _ _ _ _ _ (exporting rows)).
  - apply (triple_bind _ _ _ _ _ (fun bytes w => exporting rows w /\
      store_get (archive_object_key o date b) (aw_store w) = Ok bytes)).
    + apply triple_await; [apply exporting_stable| | |].
      * intros w Hw. destruct (store_get _ _) as [c|[|n t]]; [done| |done]. by apply vouched_more, Hw.
      * intros n t w Hw. done.
      * intros m w _. right. intros Hw. by split; apply vouched_more, Hw.
    + intros bytes w s [Hw Hg] Hs. split; [|done]. split; [done|].
      destruct (String.eqb_spec (sha256 bytes) (sha256 (utf8 (jsonl rows)))); [|done]. intros _. by exists bytes.
  - intros n t w s Hw Hs. by split.
Qed.

Lemma upsert_safe rows : rows <> [] ->
  triple appends (fun w => exporting rows w /\ kept o b rows w) (upsert_watermark o window_end (last_id_of rows) 1)
    (safe (fun _ => vouched (finished ++ [o]))).
Proof.
  intros Hne.
  assert (Hop : forall w, exporting rows w /\ kept o b rows w -> forall n,
    vouched (finished ++ [o]) (mk_archive (aw_events w) (dict_set o (mk_watermark window_end (last_id_of rows) n) (aw_marks w)) (aw_store w))).
  { intros w [[Hw He] Hk] n. apply vouched_set; [done|]. exists rows, b. by split_and!. }
  assert (Hst : forall w, exporting rows w /\ kept o b rows w -> vouched (finished ++ [o]) w)
    by (intros w [[Hw _] _]; by apply vouched_more).
  apply triple_await.
  - intros m w Hm [Hw Hk]. split; [by apply exporting_stable|by apply (kept_object_stable o b rows m w Hm)].
  - intros w Hw. simpl. destruct (dict_get o (aw_marks w)); by apply Hop.
  - intros n t w Hw. by apply Hst.
  - intros m w _. right. intros Hw. split; [by apply Hst|]. simpl. destruct (dict_get o (aw_marks w)); by apply Hop.
Qed.

Lemma archive_org_safe : triple appends (vouched finished)
  (archive_org dumps sha256 now window_start window_end date o b) (safe (fun _ => vouched (finished ++ [o]))).
Proof.
  eapply triple_bind; [apply export_safe|]. intros [rows digest].
  assert (Hkeys : forall o' b', o' ∈ finished -> String.length b' = 12%nat ->
    archive_object_key o' date b' <> archive_object_key o date b).
  { intros o' b' Ho Hb E. apply archive_key_inj in E; [by subst|congruence]. }
  destruct rows as [|r rs]; [intros w s [[Hw _] _] Hs; by split; [apply vouched_more|]|].
  cbv beta iota zeta. assert (Hne : r :: rs <> []) by done. revert Hne. generalize (r :: rs). clear r rs. intros rows Hne.
  apply triple_pure. simpl. intros Hd.
  eapply triple_bind; [by apply put_safe|]. intros [].
  eapply triple_bind; [apply put_safe; intros; apply archive_key_not_manifest|]. intros [].
  eapply triple_bind; [by apply verify_safe|]. intros [f|].
  - intros w s [[Hw _] _] Hs. split; [by apply vouched_more|done].
  - apply (triple_bind _ _ _ _ _ (fun _ => vouched (finished ++ [o]))).
    + eapply triple_weaken; [by apply upsert_safe| |].
      * intros w [Hw Hk]. split; [exact Hw|by apply Hk].
      * intros [[]|e] w Hr; [|exact Hr]. exact Hr.
    + intros [] w s Hw Hs. by split.
Qed.
End one_org.

Lemma archive_orgs_safe org_ids batch_ids finished rep :
  NoDup (finished ++ org_ids) -> (forall k, String.length (batch_ids k) = 12%nat) ->
  triple appends (vouched finished) (archive_orgs dumps sha256 now window_start window_end date org_ids batch_ids rep)
    (fun _ => vouched (finished ++ org_ids)).
Proof.
  revert finished batch_ids rep. induction org_ids as [|o os IH]; intros finished ids rep Hnd Hlen; simpl.
  - intros w s Hw Hs. rewrite app_nil_r. by split.
  - replace (finished ++ o :: os) with ((finished ++ [o]) ++ os) in * by (by rewrite <-app_assoc). apply (triple_bind _ _ _ _ _ (fun _ => vouched (finished ++ [o]))).
    + eapply triple_weaken; [apply (archive_org_safe finished o (ids 0%nat)); [|done]|done|].
      * intros Hin. rewrite <-app_assoc in Hnd. apply NoDup_app in Hnd as (_ & Hnd & _). by apply (Hnd o Hin); left.
      * intros [out|e] w Hw; [exact Hw|]. by apply vouched_more.
    + intros out. by apply IH.
Qed.
End backed.

Lemma distinct_elem x l : x ∈ distinct l -> x ∈ l.
Proof.
  induction l as [|y l IH]; simpl; [done|]. rewrite !elem_of_cons, list_elem_of_In, filter_In, <-list_elem_of_In. naive_solver.
Qed.

Lemma distinct_NoDup l : NoDup (distinct l).
Proof.
  induction l as [|y l IH]; simpl; [constructor|]. apply NoDup_cons. split.
  - rewrite list_elem_of_In, filter_In, String.eqb_refl. intros [_ ?]. done.
  - by apply NoDup_list_filter.
Qed.

Lemma org_ids_NoDup events : NoDup (org_ids_of events).
Proof.
  unfold org_ids_of. destruct (str_in _ _) eqn:E; [apply distinct_NoDup|]. apply NoDup_app.
  split_and!; [apply distinct_NoDup| |apply NoDup_singleton]. intros x Hx Hs. apply list_elem_of_singleton in Hs as ->.
  apply str_in_spec in Hx. congruence.
Qed.

(** (C13) Whatever fails during a sweep, wherever it is cancelled and whatever
    events are inserted meanwhile, a watermark it has set stands for events of
    its organisation in the closed window, on record, the last of which it names,
    and an object of the store reads back with the digest of their lines. *)
Theorem watermark_backed {B} `{KeepsObjects B} dumps sha256 now batch_ids (w : archive_world B) s :
  (forall k, String.length (batch_ids k) = 12%nat) -> Forall appends s ->
  let '(_, w', _) := sweep_archive_audit dumps sha256 now batch_ids w s in
  forall o m, dict_get o (aw_marks w') = Some m -> dict_get o (aw_marks w) = Some m
    \/ backed dumps sha256 (window_start_of now) (window_start_of now + day)%Z (date_isoformat (now / day - 1)) o m w'.
Proof.
  intros Hids Hs. set (we := (window_start_of now + day)%Z). set (date := date_isoformat (now / day - 1)).
  set (V := vouched dumps sha256 (window_start_of now) we date (aw_marks w)).
  assert (Ht : triple appends (V []) (sweep_archive_audit dumps sha256 now batch_ids) (fun _ w' => exists fin, V fin w')).
  { apply (triple_bind _ _ _ _ _ (fun ids w' => V [] w' /\ NoDup ids)).
    - apply triple_await; [apply vouched_stable| |by eexists|].
      + intros w1 Hw1. split; [done|]. apply org_ids_NoDup.
      + intros m w1 _. right. intros Hw1. by split; exists [].
    - intros ids. apply triple_pure. intros Hnd. eapply triple_weaken; [apply (archive_orgs_safe _ _ now)|done|]; [done|done|].
      intros r w1 Hw1. eexists. exact Hw1. }
  specialize (Ht w s (fun o m Hm => or_introl Hm) Hs). destruct (sweep_archive_audit _ _ _ _ _ _) as [[r w'] s'].
  destruct Ht as [[fin Hv] _]. intros o m Hm. destruct (Hv o m Hm) as [|[_ ?]]; auto.
Qed.

(** ** Undisturbed sweeps *)

Section complete.
Context {B : Type} `{KeepsObjects B} (dumps : json -> string) (sha256 : string -> string).
Context (now window_start window_end : Z) (date : string).

#[local] Abbreviation jsonl := (jsonl_content dumps).
#[local] Abbreviation batch_of o events := (take ARCHIVE_BATCH_SIZE (window_rows o window_start window_end events)).

Lemma put_nil k c (w : archive_world B) r w' s' : put_object k c w [] = (r, w', s') ->
  r = Ok tt -> s' = [] /\ aw_events w' = aw_events w /\ aw_marks w' = aw_marks w
  /\ store_get k (aw_store w') = Ok c /\ forall k', k' <> k -> store_get k' (aw_store w') = store_get k' (aw_store w).
Proof.
  unfold put_object, await. destruct (store_put k c (aw_store w)) as [b|e] eqn:E; intros [= <- <- <-]; [|done].
  intros _. simpl. do 3 (split; [done|]). split; [by eapply get_put|]. intros k' Hk. by eapply get_put_other.
Qed.

Lemma verify_nil o k c (w : archive_world B) : store_get k (aw_store w) = Ok c ->
  verify sha256 o date k (sha256 c) w [] = (Ok None, w, []).
Proof.
  intros Hg. unfold verify, try_exception, try_except, bind, get_object, await. rewrite Hg. simpl.
  by rewrite String.eqb_refl.
Qed.

(** What an organisation's turn leaves behind. *)
Definition turn (o b : string) (w : archive_world B) (out : org_outcome) (w' : archive_world B) : Prop :=
  aw_events w' = aw_events w
  /\ (forall o' b', o' <> o -> String.length b' = String.length b ->
        store_get (archive_object_key o' date b') (aw_store w') = store_get (archive_object_key o' date b') (aw_store w))
  /\ (batch_of o (aw_events w) = [] /\ out = Skipped
      \/ batch_of o (aw_events w) <> [] /\ out = Archived (length (batch_of o (aw_events w)))
         /\ store_get (archive_object_key o date b) (aw_store w') = Ok (utf8 (jsonl (batch_of o (aw_events w))))).

Lemma archive_org_nil o b (w : archive_world B) out w' s' :
  archive_org dumps sha256 now window_start window_end date o b w [] = (Ok out, w', s') -> s' = [] /\ turn o b w out w'.
Proof.
  unfold archive_org, turn. intros (x & w1 & s1 & Hx & H1)%bind_Ok. revert Hx. unfold export_window, bind, await.
  generalize (batch_of o (aw_events w)). intros rows [= <- <- <-]. destruct rows as [|r rs]; [injection H1 as <- <- <-; naive_solver|].
  revert H1. assert (Hne : r :: rs <> []) by done. revert Hne. generalize (r :: rs). clear r rs. intros rows Hne.
  intros ([] & w2 & s2 & Hp & H2)%bind_Ok. apply put_nil in Hp as (-> & He2 & Hm2 & Hg2 & Ho2); [|done].
  apply bind_Ok in H2 as ([] & w3 & s3 & Hp & H3). apply put_nil in Hp as (-> & He3 & Hm3 & _ & Ho3); [|done].
  assert (Hg3 : store_get (archive_object_key o date b) (aw_store w3) = Ok (utf8 (jsonl rows))).
  { rewrite Ho3; [done|]. apply archive_key_not_manifest. }
  apply bind_Ok in H3 as (f & w4 & s4 & Hv & H4). rewrite (verify_nil o _ _ _ Hg3) in Hv. injection Hv as <- <- <-.
  apply bind_Ok in H4 as ([] & w5 & s5 & Hu & H5). injection H5 as <- <- <-. unfold upsert_watermark, await in Hu.
  injection Hu as <- <-. split; [done|]. simpl. split; [congruence|]. split; [|by right].
  intros o' b' Ho Hb. rewrite Ho3 by apply archive_key_not_manifest. apply Ho2. intros E. by apply archive_key_inj in E.
Qed.

(** The organisations done so far have their batch in the store. *)
Definition stored_for (events : list stored_event) (finished : list string) (w : archive_world B) : Prop :=
  aw_events w = events /\ forall o, o ∈ finished -> batch_of o events <> [] ->
    exists b, String.length b = 12%nat /\ store_get (archive_object_key o date b) (aw_store w) = Ok (utf8 (jsonl (batch_of o events))).

Lemma archive_orgs_nil org_ids batch_ids finished events rep (w : archive_world B) rep' w' s' :
  archive_orgs dumps sha256 now window_start window_end date org_ids batch_ids rep w [] = (Ok rep', w', s') ->
  NoDup (finished ++ org_ids) -> (forall k, String.length (batch_ids k) = 12%nat) ->
  stored_for events finished w ->
  s' = [] /\ stored_for events (finished ++ org_ids) w' /\ verify_failures rep' = verify_failures rep.
Proof.
  revert finished batch_ids rep w. induction org_ids as [|o os IH]; intros finished ids rep w; simpl.
  - intros [= <- <- <-]. by rewrite app_nil_r.
  - intros (out & w1 & s1 & H1 & Hrun)%bind_Ok Hnd Hlen [He Hst]. apply archive_org_nil in H1 as (-> & He1 & Ho & Hout).
    replace (finished ++ o :: os) with ((finished ++ [o]) ++ os) in * by (by rewrite <-app_assoc).
    assert (Hnew : o ∉ finished).
    { intros Hin. rewrite <-app_assoc in Hnd. apply NoDup_app in Hnd as (_ & Hnd & _). by apply (Hnd o Hin); left. }
    apply (IH (finished ++ [o])) in Hrun as (-> & Hw & Hr); [|done|done|].
    + split; [done|]. split; [done|]. rewrite Hr. by destruct Hout as [[_ ->]|(_ & -> & _)].
    + split; [congruence|]. intros o' Hin Hne. apply elem_of_app in Hin as [Hin|Hin]; [|apply list_elem_of_singleton in Hin as ->].
      * destruct (Hst o' Hin Hne) as (b & Hb & Hg). exists b. split; [done|]. rewrite Ho; [done|set_solver|congruence].
      * exists (ids 0%nat). split; [done|]. rewrite He in Hout. by destruct Hout as [[? _]|(_ & _ & Hg)].
Qed.
End complete.

(** The organisation an event is archived under. *)
Definition archive_org_of (r : stored_event) : string := opt_or (ae_org_id (se_event r)) "system".

Lemma distinct_complete x l : x ∈ l -> x ∈ distinct l.
Proof.
  induction l as [|y l IH]; simpl; [done|]. intros [->|Hx]%elem_of_cons; apply elem_of_cons; [by left|].
  destruct (String.eqb_spec x y) as [|Hne]; [by left|]. right. apply list_elem_of_In, filter_In.
  split; [by apply list_elem_of_In, IH|]. by apply String.eqb_neq in Hne as ->.
Qed.

Lemma archive_org_listed r events : r ∈ events -> archive_org_of r ∈ org_ids_of events.
Proof.
  intros Hr. unfold org_ids_of, archive_org_of. set (ids := distinct _).
  destruct (ae_org_id (se_event r)) as [o|] eqn:E; simpl.
  - assert (Ho : o ∈ ids). { apply distinct_complete, list_elem_of_omap. by exists r. }
    destruct (str_in "system" ids); set_solver.
  - destruct (str_in "system" ids) eqn:Es; [by apply str_in_spec|set_solver].
Qed.

Lemma of_own_org r : ae_org_id (se_event r) <> Some "system" -> of_org (archive_org_of r) r = true.
Proof.
  unfold of_org, archive_org_of. destruct (ae_org_id (se_event r)) as [o|]; simpl; [|done].
  intros Hne. destruct (String.eqb_spec o "system"); [congruence|]. by apply String.eqb_eq.
Qed.

(** (C14) Over an object store that keeps what is put ([KeepsObjects]: not the
    inline fallback, which stores nothing), an undisturbed sweep archives a
    closed window: no verification fails, and every event of yesterday is a
    line of an object of its organisation (the events without one under
    ["system"]), which holds all the organisation's events of that day in the
    order of time and id, unless the organisation has more than five hundred of
    them.  The events of an organisation whose own id is ["system"] are not
    covered. *)
Theorem closed_window_archived {B} `{KeepsObjects B} dumps sha256 now batch_ids (w : archive_world B) rep w' s' r :
  (forall k, String.length (batch_ids k) = 12%nat) ->
  sweep_archive_audit dumps sha256 now batch_ids w [] = (Ok rep, w', s') ->
  let o := archive_org_of r in
  let rows := window_rows o (window_start_of now) (window_start_of now + day)%Z (aw_events w) in
  r ∈ aw_events w -> in_archive_window (window_start_of now) (window_start_of now + day)%Z r = true ->
  ae_org_id (se_event r) <> Some "system" -> (length rows <= ARCHIVE_BATCH_SIZE)%nat ->
  verify_failures rep = [] /\ r ∈ rows
  /\ rows ≡ₚ List.filter (fun x => of_org o x && in_archive_window (window_start_of now) (window_start_of now + day)%Z x) (aw_events w)
  /\ exists b, store_get (archive_object_key o (date_isoformat (now / day - 1)) b) (aw_store w') = Ok (utf8 (jsonl_content dumps rows)).
Proof.
  intros Hids Hrun o rows Hr Hin Hsys Hlen. apply bind_Ok in Hrun as (ids & w1 & s1 & Hq & Hrun).
  unfold get_all_org_ids, await in Hq. injection Hq as <- <- <-.
  apply (archive_orgs_nil _ _ _ _ _ _ _ _ [] (aw_events w)) in Hrun as (_ & [He Hst] & Hf); [|apply org_ids_NoDup|done|split; [done|set_solver]].
  assert (Hrows : r ∈ rows).
  { apply sort_by_elem, list_elem_of_In, filter_In. split; [by apply list_elem_of_In|].
    apply andb_true_iff. split; [by apply of_own_org|done]. }
  destruct (Hst o (archive_org_listed r _ Hr)) as (b & _ & Hb).
  { rewrite take_ge by done. intros E. unfold rows in Hrows. rewrite E in Hrows. by apply not_elem_of_nil in Hrows. }
  rewrite take_ge in Hb by done. split; [done|]. split; [done|]. split; [apply sort_by_perm|eauto].
Qed.

(** ** Sweeps on concrete tables *)

(** Event number [k] of an organisation at an instant. *)
Definition ex_event (id : string) (org : option string) (t : Z) : stored_event :=
  mk_stored_event (mk_audit_event id id org None "user" "u" None None "run.create" "success" None None "rq" None None t []) None.

(** An encoder that keeps the id, and a digest that keeps the bytes. *)
Definition ex_dumps (v : json) : string :=
  match v with JObj l => match dict_get "event_id" l with Some (JStr s) => s | _ => "{}" end | _ => "" end.
Definition ex_sha (s : string) : string := s.

Definition ex_ids (k : nat) : string := "00000000000" +:+ String (ascii_of_nat (48 + k)) "".

Definition ex_now : Z := (20000 * day + 5)%Z.
Definition ex_yesterday : Z := (19999 * day + 7)%Z.

#[local] Abbreviation ex_sweep now w := (sweep_archive_audit ex_dumps ex_sha now ex_ids w []).
#[local] Abbreviation s3_world := (archive_world S3ObjectStore).

Definition ex_archive : s3_world :=
  mk_archive [ex_event "e2" (Some "acme") (ex_yesterday + 1); ex_event "e1" (Some "acme") ex_yesterday;
              ex_event "e3" None ex_yesterday; ex_event "e4" (Some "acme") ex_now] [] ∅.

Definition report_of {W} (o : result raised archive_report * W * list (moment W)) : option (nat * nat) :=
  match o with (Ok r, _, _) => Some (orgs_archived r, events_archived r) | _ => None end.

Lemma ex_archive_report : report_of (ex_sweep ex_now ex_archive) = Some (2, 3)%nat.
Proof. vm_compute. reflexivity. Qed.

Lemma ex_ids_length k : String.length (ex_ids k) = 12%nat.
Proof. reflexivity. Qed.

(** While the sweep waits, another event arrives, and the second call to the
    store fails. *)
Definition ex_moments : list (moment s3_world) :=
  [mk_moment (fun w => mk_archive (aw_events w ++ [ex_event "e5" None ex_yesterday]) (aw_marks w) (aw_store w)) Go;
   mk_moment (fun w => w) Go; mk_moment (fun w => w) Go; mk_moment (fun w => w) (Fails "ClientError" "throttled")].

Lemma ex_moments_append : Forall appends ex_moments.
Proof.
  repeat (apply Forall_cons; split; [intros w; simpl; split_and!; try done; intros r Hr; apply elem_of_app; by left|]).
  by apply Forall_nil.
Qed.

Lemma watermark_backed_witness :
  let '(_, w', _) := sweep_archive_audit ex_dumps ex_sha ex_now ex_ids ex_archive ex_moments in
  forall o m, dict_get o (aw_marks w') = Some m -> dict_get o (aw_marks ex_archive) = Some m
    \/ backed ex_dumps ex_sha (window_start_of ex_now) (window_start_of ex_now + day)%Z (date_isoformat (ex_now / day - 1)) o m w'.
Proof. exact (watermark_backed ex_dumps ex_sha ex_now ex_ids ex_archive ex_moments ex_ids_length ex_moments_append). Defined.

Lemma closed_window_archived_witness :
  exists rep w' s' b, ex_sweep ex_now ex_archive = (Ok rep, w', s')
    /\ store_get (archive_object_key "acme" "2024-10-03" b) (aw_store w') = Ok ("e1" +:+ newline_text +:+ "e2" +:+ newline_text).
Proof.
  pose proof ex_archive_report as H. destruct (ex_sweep ex_now ex_archive) as [[[rep|e] w'] s'] eqn:E; [|discriminate H].
  destruct (closed_window_archived ex_dumps ex_sha ex_now ex_ids ex_archive rep w' s' (ex_event "e1" (Some "acme") ex_yesterday)
    ex_ids_length E) as (_ & _ & _ & b & Hb).
  - right. left.
  - vm_compute. reflexivity.
  - discriminate.
  - vm_compute. lia.
  - exists rep, w', s', b. split; [reflexivity|]. exact Hb.
Defined.

(** ** What a sweep passes over *)

(** No object of the store mentions an id. *)
Definition unarchived (id : string) (w : s3_world) : bool :=
  forallb (fun kv => negb (contains id kv.2)) (map_to_list (aw_store w)).

Definition mark_of (o : string) (w : s3_world) : option (Z * string * nat) :=
  (fun m => (last_archived_window_end m, last_event_id m, batch_count m)) <$> dict_get o (aw_marks w).

Definition ex_many : list stored_event :=
  (fun k => ex_event (if (k =? 500)%nat then "late" else "e") (Some "acme") (ex_yesterday + Z.of_nat k)) <$> seq 0 501.

(** An organisation with 501 events in a day: the last one is in no object, not
    after the next day's sweep either, while the watermark says that the day has
    been archived. *)
Theorem large_window_truncated :
  let w := (ex_sweep ex_now (mk_archive ex_many [] ∅)).1.2 in
  let w' := (ex_sweep (ex_now + day)%Z w).1.2 in
  unarchived "late" w' = true /\ mark_of "acme" w' = Some (20000 * day, "e", 1%nat)%Z.
Proof. vm_compute. split; reflexivity. Qed.

#[local] Abbreviation ex_worker times w := (run_audit_archive_worker ex_dumps ex_sha times w []).

(** A sweep covers the day before it alone: the events of a day without a sweep
    on the next are never archived, and the watermark moves past them. *)
Theorem missed_day_never_archived :
  let events := [ex_event "lost" (Some "acme") ex_now; ex_event "kept" (Some "acme") (ex_now + day)] in
  let times := [(ex_now, ex_ids); (ex_now + 2 * day, ex_ids); (ex_now + 3 * day, ex_ids)]%Z in
  let w := (ex_worker times (mk_archive events [] ∅)).1.2 in
  unarchived "lost" w = true /\ mark_of "acme" w = Some (20002 * day, "kept", 1%nat)%Z.
Proof. vm_compute. split; reflexivity. Qed.

(** Archiving a window again adds an object: the key has a random part. *)
Theorem rearchive_adds_object :
  let w := (ex_sweep ex_now ex_archive).1.2 in
  let w' := (sweep_archive_audit ex_dumps ex_sha ex_now (fun k => "1" +:+ str_drop 1 (ex_ids k)) w []).1.2 in
  size (aw_store w) = 4%nat /\ size (aw_store w') = 6%nat.
Proof. vm_compute. split; reflexivity. Qed.

(** A sweep with an earlier clock moves the watermark back. *)
Theorem watermark_regresses :
  let events := [ex_event "a" (Some "acme") ex_yesterday; ex_event "b" (Some "acme") ex_now] in
  let w := (ex_sweep (ex_now + day)%Z (mk_archive events [] ∅)).1.2 in
  let w' := (ex_sweep ex_now w).1.2 in
  mark_of "acme" w = Some (20001 * day, "b", 1%nat)%Z /\ mark_of "acme" w' = Some (20000 * day, "a", 2%nat)%Z.
Proof. vm_compute. split; reflexivity. Qed.

(** With the store that keeps nothing, every organisation with events is a failed
    verification. *)
Theorem inline_store_fails_verification :
  match sweep_archive_audit ex_dumps ex_sha ex_now ex_ids
          (mk_archive [ex_event "e1" (Some "acme") ex_yesterday] [] (tt : InlineObjectStore)) [] with
  | (Ok r, w, _) => (events_archived r, length (verify_failures r), length (aw_marks w))
  | _ => (9, 9, 9)%nat
  end = (0, 1, 0)%nat.
Proof. vm_compute. reflexivity. Qed.

(** Pruning removes the replay records older than the retention, and no others. *)
Lemma gc_keeps_recent retention now (db : gateway_db) :
  let '(r, db', _) := sweep_release_idempotency_records retention now db [] in
  r = Ok (Z.of_nat (length (gw_idem db)) - Z.of_nat (length (gw_idem db')))%Z
  /\ forall p, p ∈ gw_idem db' <-> p ∈ gw_idem db /\ (now - retention * day <= idr_created_at p.2)%Z.
Proof.
  simpl. split.
  - f_equal. unfold count_idempotency_records. rewrite <-(filter_negb_length (fun p => (idr_created_at p.2 <? now - retention * day)%Z) (gw_idem db)). lia.
  - intros p. rewrite list_elem_of_In, filter_In, negb_true_iff, Z.ltb_ge, <-list_elem_of_In. done.
Qed.
