(* ===== verification/SandboxAudit.v ===== *)
(** * Auditing of shell commands

    [agents/middlewares/sandbox_audit_middleware.py]: the grading of a command by
    patterns and by the words [shlex] finds, its splitting at control operators,
    and the middleware around the shell tool.  Texts are strings of code points
    up to 255. *)
From S2P Require Import Prelude PyString PyPath Paths.
From stdpp Require Import pretty.
From Stdlib Require Import Ascii.
Local Open Scope string_scope.
Local Open Scope list_scope.

(** ** Regular expressions *)

Inductive regex : Type :=
| Eps
| Chr (p : ascii -> bool)
| Cat (a b : regex)
| Alt (a b : regex)
| Star (a : regex)
| WordB
| Eol.

(** [\w]: letters, digits and the underscore, with the letters and numbers of
    Latin-1. *)
Definition word_char (c : ascii) : bool :=
  let n := nat_of_ascii c in
  is_alnum c || Ascii.eqb c "_"
  || existsb (Nat.eqb n) [170; 178; 179; 181; 185; 186; 188; 189; 190]%nat
  || ((192 <=? n) && negb (n =? 215) && negb (n =? 247))%nat.

Definition lf : ascii := "010".

Definition at_word (c : option ascii) : bool := match c with Some c => word_char c | None => false end.
Definition next_char (s : string) : option ascii := match s with "" => None | String c _ => Some c end.

(** Conjunction and disjunction that evaluate their second part only when it
    matters, as the search does. *)
#[local] Notation "a &&& b" := (if a then b else false) (at level 40, left associativity).
#[local] Notation "a ||| b" := (if a then true else b) (at level 50, left associativity).

(** Is there a match from here, after the character [prev], that continues with
    [k]?  A repetition must consume something. *)
Fixpoint matches (r : regex) (prev : option ascii) (s : string) (k : option ascii -> string -> bool) {struct r} : bool :=
  match r with
  | Eps => k prev s
  | Chr p => match s with "" => false | String c s' => p c &&& k (Some c) s' end
  | Cat a b => matches a prev s (fun p' s' => matches b p' s' k)
  | Alt a b => matches a prev s k ||| matches b prev s k
  | Star a =>
      (fix loop (n : nat) (prev : option ascii) (s : string) : bool :=
         k prev s
         ||| match n with
             | O => false
             | S n' => matches a prev s (fun p' s' => (String.length s' <? String.length s)%nat &&& loop n' p' s')
             end) (String.length s) prev s
  | WordB => xorb (at_word prev) (at_word (next_char s)) &&& k prev s
  | Eol => (String.eqb s "" || String.eqb s (String lf "")) &&& k prev s
  end.

(** [pattern.search(s)] finds something. *)
Fixpoint search_from (r : regex) (prev : option ascii) (s : string) : bool :=
  matches r prev s (fun _ _ => true)
  ||| match s with "" => false | String c s' => search_from r (Some c) s' end.

Definition re_search (r : regex) (s : string) : bool := search_from r None s.

Fixpoint lit (s : string) : regex :=
  match s with
  | "" => Eps
  | String c "" => Chr (Ascii.eqb c)
  | String c s' => Cat (Chr (Ascii.eqb c)) (lit s')
  end.

Fixpoint cats (l : list regex) : regex :=
  match l with [] => Eps | [r] => r | r :: l' => Cat r (cats l') end.

Fixpoint alts (l : list regex) : regex :=
  match l with [] => Chr (fun _ => false) | [r] => r | r :: l' => Alt r (alts l') end.

Definition plus (r : regex) : regex := Cat r (Star r).
Definition opt (r : regex) : regex := Alt r Eps.
Definition any_of (l : list string) : regex := alts (lit <$> l).
Definition one_of (s : string) : regex := Chr (fun c => contains_char c s).
Definition not_in (s : string) : regex := Chr (fun c => negb (contains_char c s)).

Definition ws : regex := Star (Chr is_space).
Definition ws1 : regex := plus (Chr is_space).
Definition non_ws : regex := Chr (fun c => negb (is_space c)).
(** [.] *)
Definition dot : regex := Chr (fun c => negb (Ascii.eqb c lf)).

(** ** The rules *)

Definition _HIGH_RISK_PATTERNS : list regex :=
  [cats [lit "rm"; ws1; lit "-"; Star non_ws; lit "r"; Star non_ws; ws1;
         alts [Cat (lit "/") (opt (lit "*")); cats [lit "~"; opt (lit "/"); opt (lit "*")];
               Cat (lit "/home") WordB; Cat (lit "/root") WordB]; ws; Eol];
   cats [lit "dd"; ws1; lit "if="];
   lit "mkfs";
   cats [lit "cat"; ws1; lit "/etc/shadow"];
   cats [plus (lit ">"); ws; lit "/etc/"];
   cats [lit "|"; ws; opt (lit "ba"); lit "sh"; WordB];
   cats [one_of "`$"; opt (lit "("); ws; any_of ["curl"; "wget"; "bash"; "sh"; "python"; "ruby"; "perl"; "base64"]];
   cats [lit "base64"; ws1; Star dot; lit "-d"; Star dot; lit "|"];
   cats [plus (lit ">"); ws; any_of ["/usr/bin/"; "/bin/"; "/sbin/"]];
   cats [plus (lit ">"); ws; lit "~"; opt (lit "/"); lit "."; any_of ["bashrc"; "profile"; "zshrc"; "bash_profile"]];
   cats [lit "/proc/"; plus (not_in "/"); lit "/environ"];
   cats [WordB; any_of ["LD_PRELOAD"; "LD_LIBRARY_PATH"]; ws; lit "="];
   lit "/dev/tcp/";
   cats [plus non_ws; lit "()"; ws; lit "{"; Star (not_in "}"); lit "|"; ws; plus non_ws; ws; lit "&"];
   cats [lit "while"; ws1; lit "true"; Star dot; lit "&"; ws; lit "done"]].

Definition _MEDIUM_RISK_PATTERNS : list regex :=
  [cats [lit "chmod"; ws1; lit "777"];
   cats [lit "pip"; opt (lit "3"); ws1; lit "install"];
   cats [lit "apt"; opt (lit "-get"); ws1; lit "install"];
   cats [WordB; any_of ["sudo"; "su"]; WordB];
   cats [WordB; lit "PATH"; ws; lit "="]].

Definition any_match (patterns : list regex) (s : string) : bool := existsb (fun p => re_search p s) patterns.

(** ** Splitting at control operators *)

Definition squote : ascii := "'".
Definition dquote : ascii := "034".

(** [part] appended when it is not blank. *)
Definition push_part (current : string) (parts : list string) : list string :=
  let part := strip current in if String.eqb part "" then parts else parts ++ [part].

Definition snoc (s : string) (c : ascii) : string := s +:+ String c "".

(** The scan: [None] when the command ends in a quote or an escape. *)
Fixpoint split_go (s : string) (in_single in_double escaping : bool) (current : string) (parts : list string)
    : option (list string) :=
  match s with
  | "" => if in_single || in_double || escaping then None else Some (push_part current parts)
  | String c s' =>
      if escaping then split_go s' in_single in_double false (snoc current c) parts
      else if Ascii.eqb c backslash && negb in_single then split_go s' in_single in_double true (snoc current c) parts
      else if Ascii.eqb c squote && negb in_double then split_go s' (negb in_single) in_double false (snoc current c) parts
      else if Ascii.eqb c dquote && negb in_single then split_go s' in_single (negb in_double) false (snoc current c) parts
      else if negb in_single && negb in_double then
        match s' with
        | String c2 s'' =>
            if (Ascii.eqb c "&" && Ascii.eqb c2 "&") || (Ascii.eqb c "|" && Ascii.eqb c2 "|")
            then split_go s'' false false false "" (push_part current parts)
            else if Ascii.eqb c ";" then split_go s' false false false "" (push_part current parts)
            else split_go s' false false false (snoc current c) parts
        | "" =>
            if Ascii.eqb c ";" then split_go s' false false false "" (push_part current parts)
            else split_go s' false false false (snoc current c) parts
        end
      else split_go s' in_single in_double false (snoc current c) parts
  end.

Definition split_compound_command (command : string) : list string :=
  match split_go command false false false "" [] with
  | Some (p :: parts) => p :: parts
  | _ => [command]
  end.

(** ** [shlex.split] *)

Definition is_shlex_space (c : ascii) : bool := contains_char c (String " " (String "009" (String "013" (String lf "")))).

(** Between words, in a word, in quotes, or after an escape (in quotes or not). *)
Inductive lex_state : Type :=
| LWhite
| LWord
| LQuote (q : ascii)
| LEscape (within : option ascii).

Definition emit (token : string) (quoted : bool) : list string :=
  if String.eqb token "" && negb quoted then [] else [token].

(** The words; [None] for a missing quote or a missing escaped character. *)
Fixpoint shlex_go (s : string) (st : lex_state) (token : string) (quoted : bool) (acc : list string) : option (list string) :=
  match s with
  | "" => match st with LQuote _ | LEscape _ => None | _ => Some (acc ++ emit token quoted) end
  | String c s' =>
      match st with
      | LQuote q =>
          if Ascii.eqb c q then shlex_go s' LWord token true acc
          else if Ascii.eqb c backslash && Ascii.eqb q dquote then shlex_go s' (LEscape (Some q)) token true acc
          else shlex_go s' (LQuote q) (snoc token c) true acc
      | LEscape within =>
          match within with
          | Some q => shlex_go s' (LQuote q)
                        (if Ascii.eqb c backslash || Ascii.eqb c q then snoc token c else snoc (snoc token backslash) c) quoted acc
          | None => shlex_go s' LWord (snoc token c) quoted acc
          end
      | _ =>
          if is_shlex_space c then shlex_go s' LWhite "" false (acc ++ emit token quoted)
          else if Ascii.eqb c backslash then shlex_go s' (LEscape None) token quoted acc
          else if Ascii.eqb c squote || Ascii.eqb c dquote then shlex_go s' (LQuote c) token quoted acc
          else shlex_go s' LWord (snoc token c) quoted acc
      end
  end.

Definition shlex_split (s : string) : option (list string) := shlex_go s LWhite "" false [].

(** [" ".join(s.split())]. *)
Fixpoint words (s current : string) : list string :=
  match s with
  | "" => if String.eqb current "" then [] else [current]
  | String c s' =>
      if is_space c then (if String.eqb current "" then words s' "" else current :: words s' "")
      else words s' (snoc current c)
  end.

Definition normalize (s : string) : string := String.concat " " (words s "").

(** ** Grading *)

Inductive risk : Type := Block | Warn | Pass.

#[global] Instance risk_eq_dec : EqDecision risk.
Proof. solve_decision. Defined.

Definition classify_single_command (command : string) : risk :=
  let normalized := normalize command in
  if any_match _HIGH_RISK_PATTERNS normalized then Block
  else match shlex_split command with
       | None => Block
       | Some tokens =>
           if any_match _HIGH_RISK_PATTERNS (String.concat " " tokens) then Block
           else if any_match _MEDIUM_RISK_PATTERNS normalized then Warn else Pass
       end.

Fixpoint worst_of (worst : risk) (subs : list string) : risk :=
  match subs with
  | [] => worst
  | sub :: rest =>
      match classify_single_command sub with
      | Block => Block
      | Warn => worst_of Warn rest
      | Pass => worst_of worst rest
      end
  end.

Definition classify_command (command : string) : risk :=
  if any_match _HIGH_RISK_PATTERNS (normalize command) then Block
  else worst_of Pass (split_compound_command command).

(** ** The middleware *)

Definition _MAX_COMMAND_LENGTH : nat := 10000.
Definition _AUDIT_COMMAND_LIMIT : nat := 200.

Definition validate_input (command : string) : option string :=
  if String.eqb (strip command) "" then Some "empty command"
  else if (_MAX_COMMAND_LENGTH <? String.length command)%nat then Some "command too long"
  else if contains_char "000" command then Some "null byte detected"
  else None.

(** A line of the audit log, without its time. *)
Record audit_line : Type := mk_audit_line { al_thread : string; al_command : string; al_verdict : risk }.

Definition audit_line_of (thread_id : option string) (command : string) (v : risk) (truncate : bool) : audit_line :=
  mk_audit_line (if truthy thread_id then opt_or thread_id "" else "unknown")
    (if truncate && (_AUDIT_COMMAND_LIMIT <? String.length command)%nat
     then str_take _AUDIT_COMMAND_LIMIT command +:+ "... (" +:+ pretty (String.length command) +:+ " chars)"
     else command) v.

(** The tool call: its name, arguments and id, and the thread of its runtime. *)
Record tool_request : Type := mk_tool_request {
  tr_name : json; tr_args : list (string * json); tr_id : option json; tr_thread : option string;
}.

Inductive message_content : Type :=
| Text (s : string)
| Blocks (l : list json).

Record tool_message : Type := mk_tool_message {
  tm_content : message_content; tm_tool_call_id : string; tm_name : option string; tm_status : string;
}.

(** What a tool returns: a message, or a command to the graph. *)
Inductive tool_result : Type :=
| Message (m : tool_message)
| GraphCommand (c : json).

Section middleware.
(** [str(id)] of a value, and the text of the warning sign. *)
Context (str_of : json -> string) (warning_sign : string).

Definition build_block_message (request : tool_request) (reason : string) : tool_result :=
  Message (mk_tool_message (Text ("Command blocked: " +:+ reason +:+ ". Please use a safer alternative approach."))
    (match tr_id request with
     | Some v => if json_truthy v then str_of v else "missing_id"
     | None => "missing_id"
     end) (Some "bash") "error").

Definition warning_of (command : string) : string :=
  String lf (String lf (warning_sign +:+ " Warning: `" +:+ command
    +:+ "` is a medium-risk command that may modify the runtime environment.")).

Definition append_warn_to_result (r : tool_result) (command : string) : tool_result :=
  match r with
  | GraphCommand c => GraphCommand c
  | Message m =>
      Message (mk_tool_message
        (match tm_content m with
         | Blocks l => Blocks (l ++ [JObj [("type", JStr "text"); ("text", JStr (warning_of command))]])
         | Text s => Text (s +:+ warning_of command)
         end) (tm_tool_call_id m) (tm_name m) (tm_status m))
  end.

(** The command, the verdict and the reason of a rejection, with the line that
    is logged. *)
Definition pre_process (request : tool_request) : string * risk * option string * audit_line :=
  let command := match dict_get "command" (tr_args request) with Some (JStr s) => s | _ => "" end in
  match validate_input command with
  | Some reason => (command, Block, Some reason, audit_line_of (tr_thread request) command Block true)
  | None =>
      let v := classify_command command in
      (command, v, None, audit_line_of (tr_thread request) command v false)
  end.

(** The handler runs the tool in some state; its exceptions pass through. *)
Context {W E : Type} (handler : tool_request -> W -> result E tool_result * W).

Definition wrap_tool_call (request : tool_request) (w : W) (log : list audit_line)
    : result E tool_result * W * list audit_line :=
  if negb (bool_decide (tr_name request = JStr "bash")) then (handler request w, log)
  else
    let '(command, v, reject_reason, line) := pre_process request in
    match v with
    | Block => (Ok (build_block_message request (opt_or reject_reason "security violation detected")), w, log ++ [line])
    | _ =>
        match handler request w with
        | (Err e, w') => (Err e, w', log ++ [line])
        | (Ok r, w') =>
            (Ok (match v with Warn => append_warn_to_result r command | _ => r end), w', log ++ [line])
        end
    end.
End middleware.
