(* ===== verification/SandboxAuditProps.v ===== *)
(** * Auditing of shell commands: what reaches the shell

    The matcher finds exactly the texts of a pattern, the splitter cuts a command
    at the operators outside quotes, and a command reaches the shell only when no
    high-risk pattern occurs in it or in one of its parts; with commands that get
    past the rules. *)
From S2P Require Import Prelude PyString PyPath Paths SandboxAudit.
From stdpp Require Import pretty.
From Stdlib Require Import Ascii.
Local Open Scope string_scope.
Local Open Scope list_scope.

(** ** Regular expressions *)

Fixpoint last_of (prev : option ascii) (s : string) : option ascii :=
  match s with "" => prev | String c s' => last_of (Some c) s' end.

(** The texts of an expression: after the character [prev], the text [m] is
    matched and [rest] follows. *)
Inductive lang : regex -> option ascii -> string -> string -> Prop :=
| L_eps prev rest : lang Eps prev "" rest
| L_chr p prev c rest : p c = true -> lang (Chr p) prev (String c "") rest
| L_cat a b prev m1 m2 rest :
    lang a prev m1 (m2 +:+ rest) -> lang b (last_of prev m1) m2 rest -> lang (Cat a b) prev (m1 +:+ m2) rest
| L_alt_l a b prev m rest : lang a prev m rest -> lang (Alt a b) prev m rest
| L_alt_r a b prev m rest : lang b prev m rest -> lang (Alt a b) prev m rest
| L_star_nil a prev rest : lang (Star a) prev "" rest
| L_star_cons a prev m1 m2 rest :
    lang a prev m1 (m2 +:+ rest) -> lang (Star a) (last_of prev m1) m2 rest -> lang (Star a) prev (m1 +:+ m2) rest
| L_wordb prev rest : xorb (at_word prev) (at_word (next_char rest)) = true -> lang WordB prev "" rest
| L_eol prev rest : rest = "" \/ rest = String lf "" -> lang Eol prev "" rest.

Lemma last_of_app prev s t : last_of prev (s +:+ t) = last_of (last_of prev s) t.
Proof. revert prev. induction s as [|c s IH]; intros prev; [done|]. rewrite str_app_cons. apply IH. Qed.

(** What [matches] decides. *)
Definition found (r : regex) (prev : option ascii) (s : string) (k : option ascii -> string -> bool) : Prop :=
  exists m rest, s = m +:+ rest /\ lang r prev m rest /\ k (last_of prev m) rest = true.

(** The texts of a repetition that starts with a text that is not empty. *)
Lemma star_step a prev m rest : lang (Star a) prev m rest ->
  m = "" \/ exists m1 m2, m1 <> "" /\ m = m1 +:+ m2 /\ lang a prev m1 (m2 +:+ rest) /\ lang (Star a) (last_of prev m1) m2 rest.
Proof.
  intros H. remember (Star a) as r eqn:Er. revert Er. induction H; intros Er; try discriminate Er; [by left|].
  injection Er as ->. destruct m1 as [|c m1]; [by apply IHlang2|]. right. exists (String c m1), m2. done.
Qed.

Lemma if_and (a b : bool) : (if a then b else false) = true <-> a = true /\ b = true.
Proof. destruct a; naive_solver. Qed.

Lemma if_or (a b : bool) : (if a then true else b) = true <-> a = true \/ b = true.
Proof. destruct a; naive_solver. Qed.

Lemma matches_spec r : forall prev s k, matches r prev s k = true <-> found r prev s k.
Proof.
  induction r as [|p|a IHa b IHb|a IHa b IHb|a IHa| |]; intros prev s k; cbn [matches].
  - split; [intros H; exists "", s; by split_and!; [|constructor|]|]. intros (m & rest & -> & Hl & Hk). by inversion Hl; subst.
  - split.
    + destruct s as [|c s]; [done|]. intros [Hp Hk]%if_and. exists (String c ""), s. by split_and!; [|constructor|].
    + intros (m & rest & -> & Hl & Hk). inversion Hl; subst. simpl in *. by rewrite H0.
  - rewrite IHa. split.
    + intros (m1 & r1 & -> & H1 & H2). apply IHb in H2 as (m2 & rest & -> & H2 & Hk). exists (m1 +:+ m2), rest.
      split; [by rewrite str_app_assoc|]. split; [by constructor|]. by rewrite last_of_app.
    + intros (m & rest & -> & Hl & Hk). inversion Hl; subst. rewrite last_of_app in Hk.
      exists m1, (m2 +:+ rest). split; [by rewrite str_app_assoc|]. split; [done|]. apply IHb. by exists m2, rest.
  - rewrite if_or, IHa, IHb. split.
    + intros [(m & rest & -> & Hl & Hk)|(m & rest & -> & Hl & Hk)]; exists m, rest; (split; [done|]); split; try done;
        [by apply L_alt_l|by apply L_alt_r].
    + intros (m & rest & -> & Hl & Hk). inversion Hl; subst; [left|right]; by exists m, rest.
  - set (loop := fix loop (n : nat) (prev : option ascii) (s : string) : bool := _).
    assert (Hloop : forall n prev s, (String.length s <= n)%nat -> loop n prev s = true <-> found (Star a) prev s k).
    { clear prev s. induction n as [|n IH]; intros prev s Hn; unfold loop; fold loop; rewrite if_or.
      - destruct s as [|c s]; [|simpl in Hn; lia]. split.
        + intros [Hk|?]; [|done]. exists "", "". by split_and!; [|constructor|].
        + intros (m & rest & Hs & Hl & Hk). left. destruct m; [|done]. destruct rest; [|done]. done.
      - rewrite IHa. split.
        + intros [Hk|(m1 & r1 & -> & H1 & H2)]; [exists "", s; by split_and!; [|constructor|]|].
          apply if_and in H2 as [Hlt H2]. apply Nat.ltb_lt in Hlt. apply IH in H2 as (m2 & rest & -> & H2 & Hk); [|lia].
          exists (m1 +:+ m2), rest. split; [by rewrite str_app_assoc|]. split; [by constructor|]. by rewrite last_of_app.
        + intros (m & rest & -> & Hl & Hk). apply star_step in Hl as [->|(m1 & m2 & Hne & -> & H1 & H2)]; [by left|].
          right. exists m1, (m2 +:+ rest). split; [by rewrite str_app_assoc|]. split; [done|].
          rewrite !str_length_app in *. rewrite last_of_app in Hk.
          assert (0 < String.length m1)%nat by (destruct m1; [done|simpl; lia]).
          apply if_and. split; [apply Nat.ltb_lt; lia|]. apply IH; [rewrite str_length_app; lia|]. by exists m2, rest. }
    by apply Hloop.
  - rewrite if_and. split.
    + intros [Hb Hk]. exists "", s. by split_and!; [|constructor|].
    + intros (m & rest & -> & Hl & Hk). by inversion Hl; subst.
  - rewrite if_and, orb_true_iff, !String.eqb_eq. split.
    + intros [Hb Hk]. exists "", s. by split_and!; [|constructor|].
    + intros (m & rest & -> & Hl & Hk). by inversion Hl; subst.
Qed.

(** The search finds a pattern in a text exactly when a text of the pattern
    occurs in it, for every pattern of the rules' language. *)
Theorem re_search_correct r s :
  re_search r s = true <-> exists pre m post, s = pre +:+ m +:+ post /\ lang r (last_of None pre) m post.
Proof.
  unfold re_search. generalize (@None ascii) as prev. revert s.
  assert (H : forall s prev, search_from r prev s = true <->
    exists pre m post, s = pre +:+ m +:+ post /\ lang r (last_of prev pre) m post); [|by intros].
  induction s as [|c s IH]; intros prev; simpl; rewrite if_or, matches_spec.
  - split.
    + intros [(m & rest & E & Hl & _)|?]; [|done]. by exists "", m, rest.
    + intros (pre & m & post & E & Hl). left. exists m, post. destruct pre; [|done]. done.
  - rewrite IH. split.
    + intros [(m & rest & E & Hl & _)|(pre & m & post & -> & Hl)]; [by exists "", m, rest|].
      exists (String c pre), m, post. by rewrite str_app_cons.
    + intros (pre & m & post & E & Hl). destruct pre as [|c' pre]; [left; by exists m, post|].
      rewrite str_app_cons in E. injection E as -> ->. right. by exists pre, m, post.
Qed.

(** ** Splitting *)

(** In single quotes, in double quotes, after an escape. *)
Definition quote_state : Type := bool * bool * bool.
Definition plain : quote_state := (false, false, false).

Definition scan_char (st : quote_state) (c : ascii) : quote_state :=
  let '(sq, dq, esc) := st in
  if esc then (sq, dq, false)
  else if Ascii.eqb c backslash && negb sq then (sq, dq, true)
  else if Ascii.eqb c squote && negb dq then (negb sq, dq, false)
  else if Ascii.eqb c dquote && negb sq then (sq, negb dq, false)
  else (sq, dq, false).

Fixpoint scan_from (st : quote_state) (s : string) : quote_state :=
  match s with "" => st | String c s' => scan_from (scan_char st c) s' end.

(** The state of the shell's quoting after a text. *)
Definition scan (s : string) : quote_state := scan_from plain s.

Definition operators : list string := ["&&"; "||"; ";"].

(** No operator outside quotes. *)
Definition clean (s : string) : Prop := forall p op q, s = p +:+ op +:+ q -> op ∈ operators -> scan p <> plain.

(** A command cut at operators outside quotes. *)
Inductive pieces : string -> list string -> Prop :=
| P_last s : clean s -> scan s = plain -> pieces s [s]
| P_op s op rest l : clean s -> scan s = plain -> op ∈ operators -> pieces rest l -> pieces (s +:+ op +:+ rest) (s :: l).

Definition nonblank (l : list string) : list string := List.filter (fun s => negb (String.eqb s "")) (strip <$> l).

Lemma push_nonblank cur parts : push_part cur parts = parts ++ nonblank [cur].
Proof. unfold push_part, nonblank. simpl. destruct (String.eqb (strip cur) ""); simpl; [by rewrite app_nil_r|done]. Qed.

Lemma nonblank_cons s l : nonblank (s :: l) = nonblank [s] ++ nonblank l.
Proof. unfold nonblank. simpl. by destruct (String.eqb (strip s) ""). Qed.

Lemma scan_from_app st s t : scan_from st (s +:+ t) = scan_from (scan_from st s) t.
Proof. revert st. induction s as [|c s IH]; intros st; [done|]. rewrite str_app_cons. apply IH. Qed.

Lemma scan_snoc s c : scan (snoc s c) = scan_char (scan s) c.
Proof. unfold scan, snoc. by rewrite scan_from_app. Qed.

Lemma snoc_app s c t : snoc s c +:+ t = s +:+ String c t.
Proof. unfold snoc. by rewrite str_app_assoc. Qed.

(** Where a text ends in a text. *)
Lemma snoc_split s c t u : snoc s c = t +:+ u -> u = "" \/ exists u', u = snoc u' c /\ s = t +:+ u'.
Proof.
  revert s. induction t as [|x t IH]; intros s.
  - intros H. change (snoc s c = u) in H. subst u. right. by exists s.
  - rewrite str_app_cons. destruct s as [|y s]; unfold snoc; simpl.
    + intros [= -> H]. destruct t; [|done]. by left.
    + rewrite str_app_cons. intros [= -> H]. apply IH in H as [->|(u' & -> & ->)]; [by left|]. right. by exists u'.
Qed.

Lemma clean_nil : clean "".
Proof. intros p op q E Hop. destruct p; [|done]. destruct op; [|done]. set_unfold in Hop. naive_solver. Qed.

(** One more character makes no operator. *)
Lemma clean_snoc s c : clean s ->
  (scan s = plain -> c <> ";"%char) ->
  (forall p, s = snoc p c -> c = "&"%char \/ c = "|"%char -> scan p <> plain) -> clean (snoc s c).
Proof.
  intros Hs Hsemi Hpair p op q E Hop. rewrite <-str_app_assoc in E. pose proof E as E0.
  apply snoc_split in E as [->|(q' & -> & ->)]; [|by apply (Hs p op q'); [rewrite str_app_assoc|]].
  rewrite str_app_nil_r in E0.
  set_unfold in Hop. destruct Hop as [->|[->|[->|[]]]].
  - change "&&" with (snoc "&" "&") in E0. apply snoc_split in E0 as [?|(u' & Eu & ->)]; [done|].
    destruct u' as [|x [|y u']]; [done| |by destruct u']. injection Eu as <- <-. apply Hpair; [done|by left].
  - change "||" with (snoc "|" "|") in E0. apply snoc_split in E0 as [?|(u' & Eu & ->)]; [done|].
    destruct u' as [|x [|y u']]; [done| |by destruct u']. injection Eu as <- <-. apply Hpair; [done|by right].
  - apply snoc_split in E0 as [?|(u' & Eu & ->)]; [done|]. destruct u' as [|x u']; [|by destruct u'].
    injection Eu as <-. rewrite str_app_nil_r in *. intros H. by apply Hsemi.
Qed.

(** The scanner's invariant: the text so far has been scanned, has no operator,
    and its last character does not start one. *)
Definition no_pair (cur s : string) : Prop := forall p c s',
  cur = snoc p c -> s = String c s' -> c = "&"%char \/ c = "|"%char -> scan p <> plain.

Lemma snoc_inj s c t d : snoc s c = snoc t d -> s = t /\ c = d.
Proof.
  intros H. apply snoc_split in H as [H|(u & Hu & ->)]; [done|]. destruct u as [|x u]; [|by destruct u].
  injection Hu as ->. by rewrite str_app_nil_r.
Qed.

Lemma scan_amp c : c = "&"%char \/ c = "|"%char -> scan_char plain c = plain.
Proof. by intros [->| ->]. Qed.

(** Within quotes nothing is an operator. *)
Lemma keep_quoted cur c s : scan cur <> plain -> clean cur -> clean (snoc cur c) /\ no_pair (snoc cur c) s.
Proof.
  intros Hq Hc. split.
  - apply clean_snoc; [done|done|]. intros p -> Hch Hp. apply Hq. rewrite scan_snoc, Hp. by apply scan_amp.
  - intros p d s' E _ _. by apply snoc_inj in E as [<- _].
Qed.

(** Outside quotes, a character that does not complete or start an operator. *)
Lemma keep_plain cur c s : clean cur -> no_pair cur (String c s) -> c <> ";"%char ->
  (forall s', s = String c s' -> c = "&"%char \/ c = "|"%char -> False) -> clean (snoc cur c) /\ no_pair (snoc cur c) s.
Proof.
  intros Hc Hp Hsemi Hnext. split.
  - apply clean_snoc; [done|done|]. intros p -> Hch. by apply (Hp p c s).
  - intros p d s' E Es Hch. apply snoc_inj in E as [<- <-]. by destruct (Hnext s' Es Hch).
Qed.

(** What the scan of the rest gives. *)
Definition scanned (cur s : string) (parts : list string) (out : option (list string)) : Prop :=
  match out with
  | None => scan (cur +:+ s) <> plain
  | Some out => scan (cur +:+ s) = plain /\ exists raws, pieces (cur +:+ s) raws /\ out = parts ++ nonblank raws
  end.

Lemma scanned_op cur op s parts out : op ∈ operators -> scan cur = plain -> clean cur ->
  scanned "" s (push_part cur parts) out -> scanned cur (op +:+ s) parts out.
Proof.
  intros Hop Hs Hc. assert (Hscan : scan (cur +:+ op +:+ s) = scan s).
  { unfold scan in *. rewrite scan_from_app, Hs, scan_from_app. f_equal. set_unfold in Hop. naive_solver. }
  unfold scanned. change ("" +:+ s) with s. rewrite Hscan. destruct out as [out|]; [|done].
  intros (Hp & raws & Hr & ->). split; [done|]. exists (cur :: raws). split; [by apply P_op|].
  by rewrite push_nonblank, (nonblank_cons cur raws), app_assoc.
Qed.

Lemma split_go_spec n s : (String.length s <= n)%nat -> forall sq dq esc cur parts,
  scan cur = (sq, dq, esc) -> clean cur -> no_pair cur s -> scanned cur s parts (split_go s sq dq esc cur parts).
Proof.
  revert s. induction n as [|n IH]; intros s Hn sq dq esc cur parts Hscan Hclean Hpair; (destruct s as [|c s]; [|try (simpl in Hn; lia)]).
  1, 2: simpl; unfold scanned; rewrite str_app_nil_r, Hscan; destruct sq, dq, esc; simpl; try done;
    (split; [done|]); exists [cur]; split; [by apply P_last|apply push_nonblank].
  assert (Hkeep : forall st', scan_char (sq, dq, esc) c = st' -> clean (snoc cur c) -> no_pair (snoc cur c) s ->
    scanned cur (String c s) parts (split_go s st'.1.1 st'.1.2 st'.2 (snoc cur c) parts)).
  { intros st' Hst Hc Hp. unfold scanned. rewrite <-snoc_app. apply IH; [simpl in Hn; lia| |done|done].
    rewrite scan_snoc, Hscan, Hst. by destruct st' as [[] ?]. }
  assert (Hquoted : (sq, dq, esc) <> plain -> clean (snoc cur c) /\ no_pair (snoc cur c) s)
    by (intros Hne; apply keep_quoted; [by rewrite Hscan|done]).
  destruct (decide ((sq, dq, esc) = plain)) as [Hpl|Hq]; [|destruct (Hquoted Hq) as [Hc Hp]].
  2: { cbn [split_go]. destruct esc; [by apply (Hkeep (sq, dq, false))|].
       destruct (Ascii.eqb c backslash && negb sq) eqn:E1; [apply (Hkeep (sq, dq, true)); [by (simpl; rewrite E1)|done..]|].
       destruct (Ascii.eqb c squote && negb dq) eqn:E2; [apply (Hkeep (negb sq, dq, false)); [by (simpl; rewrite E1, E2)|done..]|].
       destruct (Ascii.eqb c dquote && negb sq) eqn:E3; [apply (Hkeep (sq, negb dq, false)); [by (simpl; rewrite E1, E2, E3)|done..]|].
       assert (Hst : scan_char (sq, dq, false) c = (sq, dq, false)) by (simpl; by rewrite E1, E2, E3).
       specialize (Hkeep _ Hst Hc Hp). destruct sq, dq; [exact Hkeep..|done]. }
  injection Hpl as -> -> ->. cbn [split_go].
  assert (Hplain : c <> ";"%char -> (forall s', s = String c s' -> c = "&"%char \/ c = "|"%char -> False) ->
    clean (snoc cur c) /\ no_pair (snoc cur c) s) by (intros; by apply keep_plain).
  destruct (Ascii.eqb_spec c backslash) as [->|E1]; [by apply (Hkeep (false, false, true)); [|apply Hplain; naive_solver..]|].
  destruct (Ascii.eqb_spec c squote) as [->|E2]; [by apply (Hkeep (true, false, false)); [|apply Hplain; naive_solver..]|].
  destruct (Ascii.eqb_spec c dquote) as [->|E3]; [by apply (Hkeep (false, true, false)); [|apply Hplain; naive_solver..]|].
  assert (Hst : scan_char plain c = plain).
  { simpl. apply Ascii.eqb_neq in E1, E2, E3. by rewrite E1, E2, E3. }
  cbn [negb andb]. simpl in Hn.
  assert (Hop : forall op rest, op ∈ operators -> String c s = op +:+ rest -> (String.length rest <= n)%nat ->
    scanned cur (String c s) parts (split_go rest false false false "" (push_part cur parts))).
  { intros op rest Hop -> Hlen. apply scanned_op; [done..|]. apply IH; [done|done|apply clean_nil|by intros p ? ? E; destruct p]. }
  destruct s as [|c2 s2].
  - destruct (Ascii.eqb_spec c ";") as [->|Hsemi]; [apply (Hop ";"); [set_solver|done|simpl; lia]|].
    apply (Hkeep plain Hst); by apply Hplain.
  - destruct ((Ascii.eqb c "&" && Ascii.eqb c2 "&") || (Ascii.eqb c "|" && Ascii.eqb c2 "|")) eqn:Epair.
    { apply orb_true_iff in Epair as [[->%Ascii.eqb_eq ->%Ascii.eqb_eq]%andb_true_iff|[->%Ascii.eqb_eq ->%Ascii.eqb_eq]%andb_true_iff].
      - apply (Hop "&&"); [set_solver|done|simpl in Hn; lia].
      - apply (Hop "||"); [set_solver|done|simpl in Hn; lia]. }
    destruct (Ascii.eqb_spec c ";") as [->|Hsemi]; [apply (Hop ";"); [set_solver|done|simpl in *; lia]|].
    destruct (Hplain Hsemi) as [Hc Hp]; [|by apply (Hkeep plain Hst)].
    intros s' [= -> ->] [->| ->]; done.
Qed.

(** A command is cut exactly at its operators outside quotes: either its
    quotes are not closed, or it ends in an escape, and it is kept whole; or it
    is its pieces joined by the operators, no piece holds an operator outside
    quotes, and the parts are the pieces that are not blank. *)
Theorem split_exact command :
  scan command <> plain /\ split_compound_command command = [command]
  \/ scan command = plain /\ exists raws, pieces command raws
     /\ split_compound_command command = match nonblank raws with [] => [command] | parts => parts end.
Proof.
  unfold split_compound_command.
  pose proof (split_go_spec _ command (le_n _) false false false "" [] eq_refl clean_nil) as H.
  destruct (split_go command _ _ _ _ _) as [out|]; unfold scanned in H; change ("" +:+ command) with command in H.
  - right. destruct H as (Hs & raws & Hr & ->); [by intros p ? ? E; destruct p|]. split; [done|]. exists raws.
    split; [done|]. simpl. by destruct (nonblank raws).
  - left. split; [|done]. apply H. by intros p ? ? E; destruct p.
Qed.

(** ** Grading *)

(** A text of the pattern occurs in a text. *)
Definition occurs (p : regex) (s : string) : Prop :=
  exists pre m post, s = pre +:+ m +:+ post /\ lang p (last_of None pre) m post.

Definition free_of (patterns : list regex) (s : string) : Prop := forall p, p ∈ patterns -> ~ occurs p s.

Lemma any_match_spec patterns s : any_match patterns s = false <-> free_of patterns s.
Proof.
  unfold any_match, free_of. rewrite <-not_true_iff_false, existsb_exists. split.
  - intros H p Hp Ho. apply H. exists p. split; [by apply list_elem_of_In|by apply re_search_correct].
  - intros H (p & Hp & Hs). apply (H p); [by apply list_elem_of_In|by apply re_search_correct].
Qed.

(** A part that may run: no high-risk pattern in it, nor in its words. *)
Definition part_cleared (part : string) : Prop :=
  free_of _HIGH_RISK_PATTERNS (normalize part)
  /\ exists tokens, shlex_split part = Some tokens /\ free_of _HIGH_RISK_PATTERNS (String.concat " " tokens).

Definition cleared (command : string) : Prop :=
  validate_input command = None /\ free_of _HIGH_RISK_PATTERNS (normalize command)
  /\ Forall part_cleared (split_compound_command command).

Lemma classify_single_spec part : classify_single_command part <> Block <-> part_cleared part.
Proof.
  unfold classify_single_command, part_cleared. rewrite <-any_match_spec.
  destruct (any_match _HIGH_RISK_PATTERNS (normalize part)); [naive_solver|].
  destruct (shlex_split part) as [tokens|]; [|naive_solver].
  destruct (any_match _HIGH_RISK_PATTERNS (String.concat " " tokens)) eqn:E.
  - split; [done|]. intros (_ & t & [= <-] & Ht). apply any_match_spec in Ht. congruence.
  - split; [|by destruct (any_match _MEDIUM_RISK_PATTERNS _)]. intros _. split; [done|]. exists tokens. by rewrite <-any_match_spec.
Qed.

Lemma worst_of_spec worst parts : worst <> Block -> worst_of worst parts <> Block <-> Forall part_cleared parts.
Proof.
  revert worst. induction parts as [|p ps IH]; intros worst Hw; simpl; [split; [intros _; constructor|done]|].
  rewrite Forall_cons, <-classify_single_spec. destruct (classify_single_command p); [naive_solver|rewrite IH; naive_solver..].
Qed.

Lemma classify_spec command :
  classify_command command <> Block <-> free_of _HIGH_RISK_PATTERNS (normalize command)
    /\ Forall part_cleared (split_compound_command command).
Proof.
  unfold classify_command. rewrite <-any_match_spec, <-(worst_of_spec Pass) by done.
  destruct (any_match _ _); naive_solver.
Qed.

(** ** The middleware *)

Definition command_of (request : tool_request) : string :=
  match dict_get "command" (tr_args request) with Some (JStr s) => s | _ => "" end.

(** (C28) A shell call always leaves one line in the audit log.  If its command is
    empty, too long or holds a null byte, or a high-risk pattern occurs in it, in
    one of the parts it is cut into or in the words of one, or the words of a
    part cannot be told, the tool is not run and the answer is an error; else the
    log shows the command, and the answer is the tool's, with a warning when the
    verdict is one. *)
Theorem shell_runs_only_cleared str_of sign {W E} (handler : tool_request -> W -> result E tool_result * W) request w log :
  tr_name request = JStr "bash" ->
  let '(r, w', log') := wrap_tool_call str_of sign handler request w log in
  exists line, log' = log ++ [line] /\
    (~ cleared (command_of request) /\ w' = w /\ al_verdict line = Block
       /\ (exists m, r = Ok (Message m) /\ tm_status m = "error" /\ tm_name m = Some "bash")
     \/ cleared (command_of request) /\ al_command line = command_of request /\ (handler request w).2 = w'
       /\ match (handler request w).1 with
          | Err e => r = Err e
          | Ok a => al_verdict line = Pass /\ r = Ok a \/ al_verdict line = Warn /\ r = Ok (append_warn_to_result sign a (command_of request))
          end).
Proof.
  intros Hb. unfold wrap_tool_call, pre_process. rewrite Hb. rewrite bool_decide_true by done. simpl negb. cbv iota.
  fold (command_of request). destruct (validate_input (command_of request)) as [reason|] eqn:Ev.
  { eexists. split; [done|]. left. split; [intros (Hn & _); congruence|]. simpl. split; [done|]. split; [done|]. by eexists. }
  pose proof (classify_spec (command_of request)) as Hc.
  destruct (classify_command (command_of request)) eqn:Ec.
  - eexists. split; [done|]. left. split; [intros (_ & H); by apply Hc in H|]. simpl. split; [done|]. split; [done|]. by eexists.
  - destruct (handler request w) as [[a|e] w'] eqn:Eh; (eexists; split; [done|]); right; simpl;
      (split; [split; [done|by apply Hc]|]); naive_solver.
  - destruct (handler request w) as [[a|e] w'] eqn:Eh; (eexists; split; [done|]); right; simpl;
      (split; [split; [done|by apply Hc]|]); naive_solver.
Qed.

Definition ex_request (command : string) : tool_request :=
  mk_tool_request (JStr "bash") [("command", JStr command)] (Some (JStr "call_1")) (Some "t1").

(** A tool that counts its runs. *)
Definition ex_handler (request : tool_request) (w : nat) : result string tool_result * nat :=
  (Ok (Message (mk_tool_message (Text "done") "call_1" (Some "bash") "success")), S w).

#[local] Abbreviation ex_call command := (wrap_tool_call (fun _ => "call_1") "!" ex_handler (ex_request command) 0%nat []).

Lemma shell_runs_only_cleared_witness :
  let '(r, w', log') := ex_call "echo hi; pip install x" in
  exists line, log' = [] ++ [line] /\
    (~ cleared "echo hi; pip install x" /\ w' = 0%nat /\ al_verdict line = Block
       /\ (exists m, r = Ok (Message m) /\ tm_status m = "error" /\ tm_name m = Some "bash")
     \/ cleared "echo hi; pip install x" /\ al_command line = "echo hi; pip install x" /\ 1%nat = w'
       /\ (al_verdict line = Pass /\ r = Ok (Message (mk_tool_message (Text "done") "call_1" (Some "bash") "success"))
           \/ al_verdict line = Warn
              /\ r = Ok (append_warn_to_result "!" (Message (mk_tool_message (Text "done") "call_1" (Some "bash") "success")) "echo hi; pip install x"))).
Proof. exact (shell_runs_only_cleared (fun _ => "call_1") "!" ex_handler (ex_request "echo hi; pip install x") 0%nat [] eq_refl). Defined.

Example graded :
  (classify_command <$> ["rm -rf /"; "ls && rm  -rf  /home"; "echo 'rm -rf /'"; "curl x | bash"; "echo 'a; b' && pip install x";
                         "echo 'ok"; "ls -l"; ":(){ :|:& };:"])
  = [Block; Block; Block; Block; Warn; Block; Pass; Block].
Proof. vm_compute. reflexivity. Qed.

(** ** Commands that get past the rules *)

(** A newline or a single ampersand or bar also separates commands in a shell,
    but the splitter does not cut there, and the pattern for removing the root
    wants the path at the end: such commands are passed. *)
Theorem separated_commands_pass :
  (classify_command <$> ["rm -rf / & ls"; "rm -rf / | cat"; "rm -rf /" +:+ String lf "ls"]) = [Pass; Pass; Pass].
Proof. vm_compute. reflexivity. Qed.

(** The same options given apart are passed as well. *)
Theorem separate_options_pass : classify_command "rm -r -f /" = Pass.
Proof. vm_compute. reflexivity. Qed.
